(* ===== verification/_CoqProject ===== *)
-Q . S2P
Prelude.v
Heap.v
CStr.v
StrList.v
HttpTools.v
HttpHdrCc.v
HttpHdrRange.v
Cbit.v
HttpHeaderType.v
HttpHeader.v
HttpHeaderParse.v
Refresh.v
Rfc1035.v
Rfc1738.v
Stmem.v
FileMap.v
CacheDigest.v
Cbdata.v
Event.v
Dlink.v
StoreEntry.v
ReplLru.v
ReplHeap.v
Tlv.v
HashTable.v
Splay.v
Base64.v
Rfc1123.v
HttpMsg.v
HttpMethod.v
Md5.v
StoreKey.v
Url.v
HttpStatusLine.v
HttpHdrPack.v
HttpReply.v
AclData.v
AclParse.v
Acl.v
AclCheck.v
AclWait.v
AclConfig.v
DelayPools.v
DelayClass3.v
DelayRate.v
DelayIds.v
CfLex.v
DelayConfig.v
Store.v
StoreInv.v
StoreLocks.v
StoreEvents.v
StoreSafe.v
StorePump.v
StorePumpInv.v
StorePumpRun.v
StorePumpClient.v
StorePumpEvents.v
Aio.v
AioInv.v
AioWorker.v
AioMain.v
AioCancel.v
AioDone.v
AioSafe.v
