(* ===== verification/Prelude.v ===== *)
(** * Lusca verification library

    Lusca is a caching web proxy (a fork of Squid 2) written in C.  This
    library models the components that carry its own logic and proves what
    they promise.  It is translated from the C sources; file and function
    names below are relative to the repository.

    ** The program and its parts

    A request is read by the client side (src/client_side*.c).  The end of its
    headers is found, its first line and URL are taken apart (libhttp/HttpMsg.c,
    libsqurl, src/url.c), its headers are parsed into a header set
    (libhttp/HttpHeaderParse.c, HttpHeader.c), and the structured fields
    Cache-Control, Range and Content-Range are parsed from list values
    (libhttp/HttpHdrCc.c, HttpHdrRange.c, HttpHdrContRange.c over
    libmem/StrList.c and String.c).  Access lists decide whether it is served
    (src/acl.c); delay pools limit how fast (src/delay_pools.c).  The storage
    manager is asked for the object: an entry, found by a hash table
    (lib/hash.c), with its clients, its memory and its swap file (src/store.c,
    store_client.c, store_swapout.c).  Whether a stored response may be used
    is decided in src/refresh.c.  Otherwise a server is found by DNS
    (lib/rfc1035.c), its reply is parsed (src/HttpReply.c), appended to the
    entry, and from there copied to clients and to disk.  The bytes of an
    object being transferred are in a chain of pages (libstmem/stmem.c); on
    disk an object has metadata in front of it (libsqtlv, src/store_swapmeta.c)
    and a file number from a bit map (libsqstore/filemap.c).  Which objects go
    first is decided by replacement policies (src/repl), one of which keeps
    its entries in a binary heap (lib/heap.c).  Other caches learn the contents
    of this one from a digest (src/CacheDigest.c).  All of this is driven by
    callbacks whose data is registered (libcb/cbdata.c) and by timed events
    (libiapp/event.c).

    ** How C is modelled

    - A function that can abort or access memory it does not own returns an
      [option]: [None] is a failed [assert], a read or write outside an object,
      a use of a node that is not there, or signed overflow where it can occur.
      An error the C function itself returns is a value inside [Some].  A
      theorem that a call is [Some] is therefore a memory safety theorem.
    - Loops that are not structural take fuel.  The fuel is computed from the
      input (the length of a string or array, the size of the store of nodes,
      the largest map size) and the theorems show that it is enough: they give
      the result itself, not a property of a result if there is one.
    - Integers are [Z]; where the width matters the conversion is written out
      with [wrap_u] and [wrap_s].  Doubles are [spec_float] with 53 bits.
    - Strings are lists of bytes without the NUL (CStr.v); where code writes in
      place or reads near the end of a buffer, the buffer is a list and the
      pointers are indices (SqString, HttpHeaderParse, Rfc1035, Rfc1738).
    - Shared and linked objects live in a memory indexed by address (Heap.v,
      Stmem.v), so that aliasing is explicit.

    ** Files

    - Prelude.v: notations, tactics, bounded integers, the EBIT macros,
      doubles, list swaps.
    - Heap.v (lib/heap.c): state = the memory of nodes and the heap record;
      [heap_insert], [heap_delete], [heap_extractmin],
      [heap_extractlast], [heap_update] and the rest keep the invariant (heap
      order, back indices, distinct nodes) and act on the contents as a
      multiset.  Keys are compared through the class [HeapKey], with the laws
      [HeapKeyLaws] the proofs need, and doubles are an instance.
    - CStr.v: C strings, [strtol] and decimal printing.
    - StrList.v: [SqString] (libmem/String.c, MemStr.c) refines appending to
      list concatenation, including the 64 KB limit; [StrList]
      (libmem/StrList.c) shows that iterating over a list value visits the
      items a character scanner defines, ends, and inverts joining.
    - HttpTools.v: field name tables and number fields.
    - HttpHdrCc.v: Cache-Control; parsing is characterised by the first value
      of each directive.
    - HttpHdrRange.v: Range and Content-Range; canonization against an entity
      length selects the bytes each spec denotes, and printing and parsing are
      inverse.
    - Cbit.v: the CBIT bit arrays of libcore/tools.h as sets of bits.
    - HttpHeaderType.v: the known header ids and the tables built from them.
    - HttpHeader.v: header sets.  [hdr_ok] ties the entry array, the id mask
      and the packed length together; every operation keeps it, and each is
      described on the list of live entries.
    - HttpHeaderParse.v: the parser ends on every buffer, gives a header set
      that satisfies [hdr_ok] with at most one Content-Length, and inverts
      packing.
    - Refresh.v: [refreshStaleness] is -1 exactly for fresh responses,
      must-revalidate and the request's max-age are honoured, results index
      the counters safely.  [regexec] is a parameter.
    - Rfc1035.v: DNS messages; unpacking any datagram is safe and ends
      (compression pointers are followed to depth 65, hence 66 levels of
      recursion), and queries read back as the question asked.
    - Rfc1738.v: escaping stays inside its static buffer and unescaping in
      place inverts it.
    - Stmem.v: the page chain refines a byte stream with an origin; appending,
      copying, freeing from the front and page references, with the use
      counts that keep referenced pages alive.
    - FileMap.v: allocation of file numbers; the map of a directory refines a
      set of numbers.
    - CacheDigest.v: a digest has no false misses; its statistics; resizing.
    - Cbdata.v: the registry of callback data refines a map from objects to
      lock counts and validity; freeing is deferred to the last unlock.
    - Event.v: the event queue, sorted by time; a run executes what is due.
    - Dlink.v: linked lists and queues refine lists.
    - StoreEntry.v: the fields of entries the policies look at.
    - ReplLru.v, ReplHeap.v: the replacement policies over Dlink.v and Heap.v;
      a purge gives the entries in order and never one in use.
    - Tlv.v: swap metadata; reading any buffer is safe, and metadata that was
      written reads back as the entry.
    - HashTable.v: the table refines a finite map, also while it is traversed.
    - Splay.v: splay trees; searches find what is there and keep the contents.
    - Base64.v, Rfc1123.v: encodings and dates, with round trips.
    - HttpMsg.v: request lines and the end of headers, in place.
    - HttpMethod.v, Url.v, HttpStatusLine.v: methods, URLs and status lines;
      parsing is safe and inverts printing.
    - HttpHdrPack.v: the typed fields in a header set.
    - HttpReply.v: replies; parsing is safe but for texts that its theorem
      names, packing and parsing are inverse, and what a 304 answer changes.
    - AclData.v, AclParse.v: elements of access lists, their matchers and
      their configuration lines.  Acl.v: checks, at once or waiting for
      lookups.  AclCheck.v: matches rearrange shared trees and lists, yet no
      check changes the answer of another, and a fast check gives the answer
      of the first rule that applies.  AclWait.v: checks that wait answer
      after at most four lookups.  AclConfig.v: configurations read from lines
      with well-formed networks, domains and users satisfy what the checks
      rely on.
    - DelayPools.v, DelayClass3.v: pools of the three classes as arrays and as
      buckets by name.  DelayRate.v: the arrays implement the buckets, and in
      every run what is read is bounded by level, rate and the bytes that are
      allowed whatever the level.  DelayIds.v: ids stay those of their clients.
      CfLex.v, DelayConfig.v: words and numbers of configuration lines, and the
      lines of delay pools.
    - Md5.v (lib/md5.c): the digest over any pieces is that of RFC 1321.
    - StoreKey.v (src/store_key_md5.c): what is digested for a key tells what
      the key stands for.
    - Store.v: all entries, with keys, locks, references to each other and
      releases, as a memory of entries and the table of their keys.
      StoreInv.v: the invariant, with exact lock counts.  StoreLocks.v:
      unlocking, purging and releasing keep it and end; the fuel is the number
      of entries, each of which gives up its memory object at most once.
      StoreEvents.v, StoreSafe.v: the events other parts may cause in any
      order; no assertion fails and no freed entry is used.  Keys enter
      through the class [StoreKeys] with the laws [StoreKeyLaws]; [md5_laws]
      shows that MD5 keys satisfy them as long as the digests of what is used
      differ.
    - Aio.v (libasyncio/aiops.c, async_io.c): disk requests, worker threads and
      the main thread as steps over shared memory.  AioInv.v: the invariant.
      AioWorker.v, AioMain.v, AioCancel.v, AioDone.v: workers, new requests,
      cancelling and results keep it.  AioSafe.v: every interleaving is safe
      in which nobody cancels a request while a worker is in its system call,
      results reach their callbacks, no wake-up is lost; and examples of a
      buffer freed too early and of a request that waits for ever.
    - StorePump.v: an entry that is being fetched, with its clients and its
      swap file, every operation with the calls it makes back and forth.
      StorePumpInv.v: its invariant, and that giving memory back and writing
      pages keep it.  StorePumpRun.v, StorePumpClient.v: the same of
      [storeSwapOut] and of the operations of clients.  StorePumpEvents.v: the
      events other parts may cause in any order; no assertion fails, clients
      get the object (a client that leaves while it reads from disk may be
      told its end), the swap file is a prefix of it, and no wake-up is lost.

    Every file has the definitions first, then the lemmas, then the properties
    with a concrete instance (a witness) for each.

    ** Configuration

    The default build: HTTP_VIOLATIONS on, no HTCP, no X_ACCELERATOR_VARY, no
    adaptation, 64-bit [long], signed [char].  Cache digests are compiled in
    for CacheDigest.v.

    ** What is not modelled

    Input and output: sockets, the event loop, cache directories, helper
    processes, logging and reports, the parts of the configuration parser that
    fill in plain values, and the client and server sides, which are callbacks
    over them; vendored code (SNMP, GNU regex, radix trees, dlmalloc) and
    code for Windows.  Debug output and memory accounting are left out of the
    models; functions that only free memory are too, except where references
    are counted (Stmem.v).  Of the storage manager, the choice of cache
    directories, the rebuilding of the index and Vary are left.  The two views
    of entries are not composed: an entry of StorePump.v is one whose owner
    keeps it locked, and Store.v sees its clients and its swap file by the
    locks they hold.

    What code outside the repository and unmodelled parts answer is a
    parameter: [regexec] and [localtime] for access lists and refresh
    patterns, [exp] for the heap policies, resolver and helpers for lookups,
    the file system for swap files. *)

From stdpp Require Import base gmap list numbers option fin_maps.
From Stdlib Require Import ZArith Lia SpecFloat.

(** ** Notations

    Fallible C code is modelled in the option monad: [None] is the abort of
    a failed [assert] or of an undefined access (a NULL or dangling pointer, an index outside a
    buffer), [Some] a normal return.  [let?] binds a fallible step and
    [assert?] models [assert(b)]. *)
Declare Scope lusca_scope.
Delimit Scope lusca_scope with lusca.

Notation "'let?' x := m 'in' k" := (mbind (fun x => k) m)
  (at level 10, x pattern, m at level 100, k at level 200,
   format "'[v' 'let?'  x  :=  m  'in' '/' k ']'") : lusca_scope.

Notation "'assert?' b 'in' k" := (if b then k else None)
  (at level 10, b at level 100, k at level 200,
   format "'[v' 'assert?'  b  'in' '/' k ']'") : lusca_scope.

#[global] Open Scope lusca_scope.
#[global] Open Scope Z_scope.

(** ** Tactics *)

(** [case_ifs] splits every [if] and [match] on a boolean or option in the
    goal, recording the equation, and clears contradictory branches. *)
Ltac case_ifs :=
  repeat match goal with
    | |- context [if ?b then _ else _] => destruct b eqn:?
    | |- context [match ?o with Some _ => _ | None => _ end] => destruct o eqn:?
    end; simplify_eq/=; try done.

(** [splits] proves the obvious parts of a conjunction. *)
Ltac splits := split_and!; try done.

(** The same with linear arithmetic. *)
Ltac lsplits := split_and!; try done; try lia.

(** [bind_simpl] reduces binds of known results. *)
Ltac bind_simpl := cbn [mbind option_bind].

(** [inv_opt H] destructs the option binds, assertions and matches that make
    [H : m = Some _] hold. *)
Ltac inv_opt H :=
  repeat match type of H with
    | mbind _ ?m = Some _ =>
        let E := fresh "E" in destruct m eqn:E; cbn [mbind option_bind] in H; [|discriminate H]
    | (if ?b then _ else None) = Some _ =>
        let E := fresh "E" in destruct b eqn:E; [|discriminate H]
    | match ?o with Some _ => _ | None => None end = Some _ =>
        let E := fresh "E" in destruct o eqn:E; [|discriminate H]
    end.

(** [zify_bools] turns the boolean integer tests of the code into facts
    [lia] understands. *)
Ltac zify_bools :=
  repeat match goal with
    | H : _ && _ = true |- _ => apply andb_true_iff in H as [? ?]
    | H : _ || _ = false |- _ => apply orb_false_iff in H as [? ?]
    | H : (_ <? _) = true |- _ => apply Z.ltb_lt in H
    | H : (_ <? _) = false |- _ => apply Z.ltb_ge in H
    | H : (_ <=? _) = true |- _ => apply Z.leb_le in H
    | H : (_ <=? _) = false |- _ => apply Z.leb_gt in H
    | H : (_ =? _) = true |- _ => apply Z.eqb_eq in H
    | H : (_ =? _) = false |- _ => apply Z.eqb_neq in H
    | H : (_ <? _)%nat = true |- _ => apply Nat.ltb_lt in H
    | H : (_ <? _)%nat = false |- _ => apply Nat.ltb_ge in H
    | H : (_ <=? _)%nat = true |- _ => apply Nat.leb_le in H
    | H : (_ <=? _)%nat = false |- _ => apply Nat.leb_gt in H
    | H : negb _ = true |- _ => apply negb_true_iff in H
    | H : negb _ = false |- _ => apply negb_false_iff in H
    end.

(** Lengths of lists: [len_lia] computes them with the rewrite base [lens] and
    calls [lia]. *)
Create Rewrite HintDb lens.
#[export] Hint Rewrite @length_app @length_take @length_drop @length_insert @length_fmap @repeat_length
  @length_replicate : lens.

Ltac len_lia := autorewrite with lens in *; cbn [length] in *; lia.

(** [map_simpl] evaluates lookups in updated maps and lists whose keys are
    equal or known to differ. *)
Ltac map_simpl :=
  repeat (first
    [ rewrite lookup_insert_eq
    | rewrite lookup_insert_ne by congruence
    | rewrite lookup_delete_eq
    | rewrite lookup_delete_ne by congruence
    | rewrite list_lookup_insert_ne by congruence
    | rewrite list_lookup_insert_eq by (rewrite ?length_insert; lia) ];
    cbn [mbind option_bind]).

(** ** Machine integers *)

(** The value of [z] converted to an unsigned, respectively a two's
    complement signed, integer of [w] bits. *)
Definition wrap_u (w z : Z) : Z := z `mod` 2 ^ w.
Definition wrap_s (w z : Z) : Z := (z + 2 ^ (w - 1)) `mod` 2 ^ w - 2 ^ (w - 1).

Lemma wrap_u_small w z : 0 <= z < 2 ^ w -> wrap_u w z = z.
Proof. apply Z.mod_small. Qed.

Lemma wrap_u_range w z : 0 <= w -> 0 <= wrap_u w z < 2 ^ w.
Proof. intros ?. apply Z.mod_pos_bound. lia. Qed.

Lemma pow2_half w : 0 < w -> 2 ^ w = 2 * 2 ^ (w - 1).
Proof. intros ?. rewrite <- Z.pow_succ_r by lia. f_equal. lia. Qed.

Lemma wrap_s_small w z : 0 < w -> - 2 ^ (w - 1) <= z < 2 ^ (w - 1) -> wrap_s w z = z.
Proof.
  intros ? ?. unfold wrap_s. rewrite (pow2_half w) by done.
  rewrite Z.mod_small; lia.
Qed.

Lemma wrap_s_range w z : 0 < w -> - 2 ^ (w - 1) <= wrap_s w z < 2 ^ (w - 1).
Proof.
  intros ?. unfold wrap_s.
  pose proof (Z.mod_pos_bound (z + 2 ^ (w - 1)) (2 ^ w)).
  rewrite (pow2_half w) in * by done. lia.
Qed.

(** ** Flag words: [EBIT_SET], [EBIT_CLR], [EBIT_TEST] (libcore/tools.h) *)

Definition EBIT_SET (flag bit : Z) : Z := Z.lor flag (Z.shiftl 1 bit).
Definition EBIT_CLR (flag bit : Z) : Z := Z.ldiff flag (Z.shiftl 1 bit).
Definition EBIT_TEST (flag bit : Z) : bool := negb (Z.land flag (Z.shiftl 1 bit) =? 0).

Lemma testbit_one_shift b i : 0 <= b -> Z.testbit (Z.shiftl 1 b) i = bool_decide (i = b).
Proof.
  intros ?. rewrite Z.shiftl_1_l. case_bool_decide; subst.
  - apply Z.pow2_bits_true. lia.
  - apply Z.pow2_bits_false. lia.
Qed.

Lemma EBIT_TEST_testbit flag bit : 0 <= bit -> EBIT_TEST flag bit = Z.testbit flag bit.
Proof.
  intros ?. unfold EBIT_TEST. destruct (Z.testbit flag bit) eqn:E.
  - apply negb_true_iff, Z.eqb_neq. intros Hz.
    assert (Z.testbit (Z.land flag (Z.shiftl 1 bit)) bit = false) as Hb
      by (rewrite Hz; apply Z.testbit_0_l).
    rewrite Z.land_spec, E, testbit_one_shift, bool_decide_true in Hb by done. done.
  - apply negb_false_iff, Z.eqb_eq, Z.bits_inj'. intros i ?.
    rewrite Z.land_spec, testbit_one_shift, Z.testbit_0_l by done.
    case_bool_decide; subst; rewrite ?E, ?andb_false_r; done.
Qed.

Lemma EBIT_SET_testbit flag bit i :
  0 <= bit -> Z.testbit (EBIT_SET flag bit) i = Z.testbit flag i || bool_decide (i = bit).
Proof. intros ?. unfold EBIT_SET. by rewrite Z.lor_spec, testbit_one_shift. Qed.

Lemma EBIT_CLR_testbit flag bit i :
  0 <= bit -> Z.testbit (EBIT_CLR flag bit) i = Z.testbit flag i && negb (bool_decide (i = bit)).
Proof. intros ?. unfold EBIT_CLR. by rewrite Z.ldiff_spec, testbit_one_shift. Qed.

Lemma EBIT_TEST_SET flag bit b :
  0 <= bit -> 0 <= b ->
  EBIT_TEST (EBIT_SET flag bit) b = EBIT_TEST flag b || bool_decide (b = bit).
Proof. intros ??. by rewrite !EBIT_TEST_testbit, EBIT_SET_testbit. Qed.

Lemma EBIT_TEST_CLR flag bit b :
  0 <= bit -> 0 <= b ->
  EBIT_TEST (EBIT_CLR flag bit) b = EBIT_TEST flag b && negb (bool_decide (b = bit)).
Proof. intros ??. by rewrite !EBIT_TEST_testbit, EBIT_CLR_testbit. Qed.

(** ** Doubles

    A C [double] is an IEEE 754 binary64 number, modelled by the executable
    [spec_float] arithmetic of the Standard Library at precision 53. *)
Definition dbl := spec_float.
Definition dbl_add : dbl -> dbl -> dbl := SFadd 53 1024.
Definition dbl_sub : dbl -> dbl -> dbl := SFsub 53 1024.
Definition dbl_mul : dbl -> dbl -> dbl := SFmul 53 1024.
Definition dbl_div : dbl -> dbl -> dbl := SFdiv 53 1024.
Definition dbl_of_Z (z : Z) : dbl := binary_normalize 53 1024 z 0 false.
Definition dbl_nan (x : dbl) : bool := match x with S754_nan => true | _ => false end.

(** Conversion of a finite double to an integer type, truncating towards
    zero; the C conversion of an infinity or a NaN is undefined. *)
Definition dbl_trunc (x : dbl) : option Z :=
  match x with
  | S754_zero _ => Some 0
  | S754_finite s m e =>
      let v := if 0 <=? e then Z.pos m * 2 ^ e else Z.pos m / 2 ^ (- e) in
      Some (if s then - v else v)
  | S754_infinity _ | S754_nan => None
  end.

(** ** Lists used as arrays *)

Section lists.
Context {A : Type}.
Implicit Types l : list A.

(** Exchange of two cells. *)
Definition swap (i j : nat) l : list A :=
  match l !! i, l !! j with
  | Some x, Some y => <[j := x]> (<[i := y]> l)
  | _, _ => l
  end.

Lemma length_swap i j l : length (swap i j l) = length l.
Proof. unfold swap. case_ifs; by rewrite ?length_insert. Qed.

Lemma swap_lookup i j l k :
  (i < length l)%nat -> (j < length l)%nat ->
  swap i j l !! k = if decide (k = j) then l !! i else if decide (k = i) then l !! j else l !! k.
Proof.
  intros [x Hx]%lookup_lt_is_Some [y Hy]%lookup_lt_is_Some.
  unfold swap. rewrite Hx, Hy.
  repeat case_decide; subst.
  - rewrite list_lookup_insert_eq; [done|]. rewrite length_insert. by eapply lookup_lt_Some.
  - rewrite list_lookup_insert_ne, list_lookup_insert_eq; [done| |done]. by eapply lookup_lt_Some.
  - by rewrite !list_lookup_insert_ne.
Qed.

Lemma swap_same i l : swap i i l = l.
Proof.
  unfold swap. destruct (l !! i) eqn:Hx; [|done].
  by rewrite list_insert_insert_eq, list_insert_id.
Qed.

Lemma swap_Permutation i j l : swap i j l ≡ₚ l.
Proof.
  unfold swap. destruct (l !! i) as [x|] eqn:Hx; [|done].
  destruct (l !! j) as [y|] eqn:Hy; [|done].
  apply Permutation_inj. rewrite !length_insert. split; [done|].
  exists (fun k => if decide (k = j) then i else if decide (k = i) then j else k).
  split.
  - intros a b. repeat case_decide; congruence.
  - intros k. pose proof (swap_lookup i j l k) as Hs. unfold swap in Hs.
    rewrite Hx, Hy in Hs. rewrite Hs by (by eapply lookup_lt_Some).
    repeat case_decide; congruence.
Qed.
End lists.

(** Collecting items one by one. *)
Lemma foldl_snoc_id {A} (l acc : list A) : foldl (fun l d => l ++ [d]) acc l = acc ++ l.
Proof.
  revert acc. induction l as [|x l IH]; intros acc; cbn; [by rewrite app_nil_r|].
  by rewrite IH, <- app_assoc.
Qed.

Create HintDb lusca discriminated.
#[export] Hint Resolve wrap_u_small wrap_s_small wrap_u_range : lusca.
Create Rewrite HintDb lusca_len.
#[export] Hint Rewrite @length_swap @length_insert @length_app @length_take @length_drop : lusca_len.
