(* ===== verification/Heap.v ===== *)
(** * lib/heap.c: the binary heap behind the heap replacement policies

    The array of node pointers, the nodes with their back index [id], and
    every public operation of the file.  Nodes live in a memory indexed by
    address, so that the aliasing between the array, the caller's node
    pointer and the [id] fields is explicit.  The specification is a list of
    (address, key, data) triples in array order. *)

From stdpp Require Import base gmap list numbers option sorting.
From Stdlib Require Import ZArith Lia SpecFloat.
From S2P Require Import Prelude.

(** ** Keys

    [heap_key] is a C double; the heap only compares keys.  The laws hold of
    the keys satisfying [kok] (for doubles: not a NaN). *)
Class HeapKey (K : Type) := {
  kle : K -> K -> bool;
  klt : K -> K -> bool;
  kzero : K;
  kok : K -> Prop
}.

Class HeapKeyLaws (K : Type) `{HeapKey K} := {
  kle_total a b : kok a -> kok b -> kle a b = true \/ kle b a = true;
  kle_trans a b c : kok a -> kok b -> kok c -> kle a b = true -> kle b c = true -> kle a c = true;
  klt_spec a b : kok a -> kok b -> klt a b = negb (kle b a)
}.

Definition loc := positive.

Module Heap.

(** An element of the specification list. *)
Abbreviation elem K D := (prod (prod loc K) D).

Section heap.
Context {K D : Type} `{HeapKey K}.

(** ** Data *)

Record heap_node := mk_node { key : K; id : Z; data : D }.

Record heap := mk_heap {
  size : Z;
  last : Z;
  gen_key : D -> K -> K;
  age : K;
  nodes : list (option loc)
}.

(** A heap together with the memory its nodes live in. *)
Record st := mk_st { hp : heap; mem : gmap loc heap_node }.

Definition set_id (n : heap_node) (i : Z) : heap_node := mk_node (key n) i (data n).
Definition set_nodes (h : heap) (ns : list (option loc)) : heap :=
  mk_heap (size h) (last h) (gen_key h) (age h) ns.
Definition set_last (h : heap) (l : Z) : heap :=
  mk_heap (size h) l (gen_key h) (age h) (nodes h).
Definition set_age (h : heap) (a : K) : heap :=
  mk_heap (size h) (last h) (gen_key h) a (nodes h).

(** ** Index macros: [int] results of [unsigned long] arithmetic *)

Definition Left (x : Z) : Z := wrap_s 32 (2 * x + 1).
Definition Right (x : Z) : Z := wrap_s 32 (2 * x + 2).
Definition Parent (x : Z) : Z := Z.quot (wrap_s 32 (wrap_u 64 (x - 1))) 2.

Definition Threshold : Z := 10000.
Definition MinSize : Z := 32.

(** Read and write of [hp->nodes[i]]. *)
Definition nodes_get (s : st) (i : Z) : option loc :=
  if 0 <=? i then mjoin (nodes (hp s) !! Z.to_nat i) else None.

Definition nodes_set (s : st) (i : Z) (l : loc) : option st :=
  if (0 <=? i) && (i <? Z.of_nat (length (nodes (hp s)))) then
    Some (mk_st (set_nodes (hp s) (<[Z.to_nat i := Some l]> (nodes (hp s)))) (mem s))
  else None.

(** ** Operations *)

Definition new_heap (initSize : Z) (gk : D -> K -> K) : heap :=
  let initSize := if initSize <=? 0 then MinSize else initSize in
  mk_heap initSize 0 gk kzero (replicate (Z.to_nat initSize) None).

Definition heap_gen_key (h : heap) (dat : D) : K := gen_key h dat (age h).

Definition _heap_node_exist (s : st) (i : Z) : bool :=
  negb ((last (hp s) <=? wrap_u 64 i) || (i <? 0)
        || match nodes_get s i with Some _ => false | None => true end).

Definition _heap_should_grow (h : heap) : bool := size h <=? last h.

(** [size * 1.5] is exact in double arithmetic below 2^52, so the [int]
    conversion truncates [3 * size / 2]. *)
Definition _heap_grow (h : heap) : heap :=
  let newSize := wrap_s 32 (if Threshold <? size h then size h * 3 / 2 else size h * 2) in
  mk_heap newSize (last h) (gen_key h) (age h) (resize (Z.to_nat newSize) None (nodes h)).

Definition _heap_swap_element (s : st) (elm1 elm2 : loc) : option st :=
  let? n1 := mem s !! elm1 in
  let? n2 := mem s !! elm2 in
  let elm1Id := id n1 in
  let m1 := <[elm1 := set_id n1 (id n2)]> (mem s) in
  let? n2' := m1 !! elm2 in
  let m2 := <[elm2 := set_id n2' elm1Id]> m1 in
  let? e1 := m2 !! elm1 in
  let? e2 := m2 !! elm2 in
  let? s1 := nodes_set (mk_st (hp s) m2) (id e1) elm1 in
  nodes_set s1 (id e2) elm2.

Fixpoint _heap_ify_up (fuel : nat) (s : st) (elm : loc) : option st :=
  match fuel with
  | O => None
  | S fuel =>
      let? e := mem s !! elm in
      if 0 <? id e then
        let? parentNode := nodes_get s (Parent (id e)) in
        let? p := mem s !! parentNode in
        if kle (key p) (key e) then Some s
        else
          let? s' := _heap_swap_element s parentNode elm in
          _heap_ify_up fuel s' elm
      else Some s
  end.

(** The child of [elm] that may have to be promoted: the smaller one when
    both exist. *)
Definition _heap_kid (s : st) (left right : Z) : option loc :=
  if negb (_heap_node_exist s right) then nodes_get s left
  else
    let? r := nodes_get s right in
    let? l := nodes_get s left in
    let? nr := mem s !! r in
    let? nl := mem s !! l in
    Some (if klt (key nr) (key nl) then r else l).

Fixpoint _heap_ify_down (fuel : nat) (s : st) (elm : loc) : option st :=
  match fuel with
  | O => None
  | S fuel =>
      let? e := mem s !! elm in
      let left := Left (id e) in
      let right := Right (id e) in
      if negb (_heap_node_exist s left) then
        assert? negb (_heap_node_exist s right) in Some s
      else
        let? kid := _heap_kid s left right in
        let? k := mem s !! kid in
        if kle (key e) (key k) then Some s
        else
          let? s' := _heap_swap_element s kid elm in
          _heap_ify_down fuel s' elm
  end.

(** Iterations that suffice for either loop: one per array slot and one to
    stop. *)
Definition ify_fuel (s : st) : nat := S (length (nodes (hp s))).

(** [l] is the block returned by [xmalloc]. *)
Definition heap_insert (s : st) (l : loc) (dat : D) : option (st * loc) :=
  let elm := mk_node (heap_gen_key (hp s) dat) 0 dat in
  let h := if _heap_should_grow (hp s) then _heap_grow (hp s) else hp s in
  let? s1 := nodes_set (mk_st h (mem s)) (last h) l in
  let elm := set_id elm (last h) in
  let s2 := mk_st (set_last (hp s1) (last h + 1)) (<[l := elm]> (mem s1)) in
  let? s3 := _heap_ify_up (ify_fuel s2) s2 l in
  Some (s3, l).

Definition heap_extractlast (s : st) : option (st * D) :=
  assert? _heap_node_exist s (wrap_s 32 (last (hp s) - 1)) in
  let h := set_last (hp s) (last (hp s) - 1) in
  let? l := nodes_get s (last h) in
  let? n := mem s !! l in
  Some (mk_st h (delete l (mem s)), data n).

(** Repair of the heap order around [elm] after its key changed: shared tail
    of [heap_delete] and [heap_update]. *)
Definition _heap_reorder (s : st) (elm : loc) : option st :=
  let? e := mem s !! elm in
  let? pl := nodes_get s (Parent (id e)) in
  let? p := mem s !! pl in
  let? s1 := (if klt (key e) (key p) then _heap_ify_up (ify_fuel s) s elm else Some s) in
  _heap_ify_down (ify_fuel s1) s1 elm.

Definition heap_delete (s : st) (elm : loc) : option (st * D) :=
  let? e := mem s !! elm in
  let dat := data e in
  assert? _heap_node_exist s (wrap_s 32 (last (hp s) - 1)) in
  let? lastNode := nodes_get s (last (hp s) - 1) in
  let? s1 := _heap_swap_element s lastNode elm in
  let? (s2, _) := heap_extractlast s1 in
  if bool_decide (elm = lastNode) then Some (s2, dat)
  else if 0 <? last (hp s2) then
    let? s3 := _heap_reorder s2 lastNode in
    Some (s3, dat)
  else Some (s2, dat).

Definition heap_extractmin (s : st) : option (st * option D) :=
  if last (hp s) <=? 0 then Some (s, None)
  else
    let? root := nodes_get s 0 in
    let? n := mem s !! root in
    let? (s', _) := heap_delete s root in
    Some (s', Some (data n)).

Definition heap_update (s : st) (elm : loc) (dat : D) : option (st * D) :=
  let? e := mem s !! elm in
  let old := data e in
  let ky := heap_gen_key (hp s) dat in
  let s1 := mk_st (hp s) (<[elm := mk_node ky (id e) dat]> (mem s)) in
  let? s2 := _heap_reorder s1 elm in
  Some (s2, old).

Definition heap_peepkey (s : st) (n : Z) : option K :=
  assert? _heap_node_exist s n in
  let? l := nodes_get s n in key <$> mem s !! l.

Definition heap_peep (s : st) (n : Z) : option D :=
  assert? _heap_node_exist s n in
  let? l := nodes_get s n in data <$> mem s !! l.

Definition heap_peepminkey (s : st) : option K := heap_peepkey s 0.
Definition heap_peepmin (s : st) : option D := heap_peep s 0.
Definition heap_nodes (s : st) : Z := last (hp s).
Definition heap_empty (s : st) : bool := last (hp s) <=? 0.

(** The key of the node at index [i], read by [verify_heap_property]. *)
Definition node_key (s : st) (i : Z) : option K :=
  let? l := nodes_get s i in key <$> mem s !! l.

(** [hp->nodes[i]->key > hp->nodes[j]->key] when node [j] exists. *)
Definition violated_at (s : st) (i j : Z) : option bool :=
  if _heap_node_exist s j then
    let? ki := node_key s i in
    let? kj := node_key s j in
    Some (klt kj ki)
  else Some false.

Fixpoint verify_loop (fuel : nat) (s : st) (i : Z) : option bool :=
  if i <? last (hp s) / 2 then
    match fuel with
    | O => None
    | S fuel =>
        let? l := violated_at s i (Left i) in
        let? r := violated_at s i (Right i) in
        if l || r then Some false else verify_loop fuel s (i + 1)
    end
  else Some true.

Definition verify_heap_property (s : st) : option bool :=
  verify_loop (Z.to_nat (last (hp s))) s 0.

(** ** Specification: the list of (address, key, data) in array order *)

Definition eloc (x : elem K D) : loc := x.1.1.
Definition ekey (x : elem K D) : K := x.1.2.
Definition edat (x : elem K D) : D := x.2.

Definition parent (i : nat) : nat := ((i - 1) / 2)%nat.

(** Heap order at index [j]: the parent's key is not larger. *)
Definition le_at (xs : list (elem K D)) (j : nat) : Prop :=
  forall x p, xs !! j = Some x -> xs !! parent j = Some p -> kle (ekey p) (ekey x) = true.

Definition ordered (xs : list (elem K D)) : Prop := forall j, (0 < j)%nat -> le_at xs j.

(** No more nodes than the [int] index arithmetic can address. *)
Definition max_nodes : Z := 2 ^ 30 - 1.

(** State [s] holds exactly the nodes [xs], each at its own index, and its
    memory no other node. *)
Record heap_rep (s : st) (xs : list (elem K D)) : Prop := {
  rep_last : last (hp s) = Z.of_nat (length xs);
  rep_size : size (hp s) = Z.of_nat (length (nodes (hp s)));
  rep_fits : last (hp s) <= size (hp s);
  rep_bound : last (hp s) <= max_nodes;
  rep_cell i l k d : xs !! i = Some (l, k, d) ->
    nodes (hp s) !! i = Some (Some l) /\ mem s !! l = Some (mk_node k (Z.of_nat i) d);
  rep_mem l n : mem s !! l = Some n -> exists i, xs !! i = Some (l, key n, data n)
}.

(** Fields of the heap the reordering loops never touch. *)
Definition same_shape (s s' : st) : Prop :=
  size (hp s') = size (hp s) /\ last (hp s') = last (hp s) /\ gen_key (hp s') = gen_key (hp s) /\
  age (hp s') = age (hp s) /\ length (nodes (hp s')) = length (nodes (hp s)).

(** The well-formedness invariant of a heap. *)
Definition heap_ok (s : st) (xs : list (elem K D)) : Prop :=
  heap_rep s xs /\ ordered xs /\ Forall (fun x => kok (ekey x)) xs.
End heap.

Arguments heap_node : clear implicits.
Arguments heap : clear implicits.
Arguments st : clear implicits.

#[global] Arguments parent : simpl never.
#[local] Arguments Nat.mul : simpl never.

(** ** Index arithmetic *)

Lemma parent_cases (i : nat) :
  (i = 0 /\ parent i = 0)%nat \/ (i = 2 * parent i + 1)%nat \/ (i = 2 * parent i + 2)%nat.
Proof.
  unfold parent. pose proof (Nat.div_mod_eq (i - 1) 2).
  pose proof (Nat.mod_upper_bound (i - 1) 2). destruct i; [left; done|right; lia].
Qed.

(** [lia] with the arithmetic of [parent] at every index in sight. *)
Ltac plia :=
  repeat match goal with
    | |- context [parent ?i] =>
        lazymatch goal with
        | _ : (i = 0 /\ _)%nat \/ _ |- _ => fail
        | _ => pose proof (parent_cases i)
        end
    | _ : context [parent ?i] |- _ =>
        lazymatch goal with
        | _ : (i = 0 /\ _)%nat \/ _ |- _ => fail
        | _ => pose proof (parent_cases i)
        end
    end; lia.

Lemma Parent_spec (i : nat) : Z.of_nat i <= max_nodes -> Parent (Z.of_nat i) = Z.of_nat (parent i).
Proof.
  unfold Parent, max_nodes, parent. intros Hi. destruct i as [|i].
  { done. }
  rewrite wrap_u_small by lia. rewrite wrap_s_small by lia.
  rewrite Z.quot_div_nonneg by lia.
  replace (Z.of_nat (S i) - 1) with (Z.of_nat i) by lia.
  rewrite Nat2Z.inj_div. f_equal; lia.
Qed.

Lemma Left_spec (i : nat) : Z.of_nat i < max_nodes -> Left (Z.of_nat i) = Z.of_nat (2 * i + 1).
Proof. unfold Left, max_nodes. intros Hi. rewrite wrap_s_small; lia. Qed.

Lemma Right_spec (i : nat) : Z.of_nat i < max_nodes -> Right (Z.of_nat i) = Z.of_nat (2 * i + 2).
Proof. unfold Right, max_nodes. intros Hi. rewrite wrap_s_small; lia. Qed.

Section proofs.
Context {K D : Type} `{HeapKeyLaws K}.
Implicit Types (s : st K D) (xs ys : list (elem K D)).

(** ** The representation invariant *)

Lemma rep_inj s xs i j x y :
  heap_rep s xs -> xs !! i = Some x -> xs !! j = Some y -> eloc x = eloc y -> i = j.
Proof.
  destruct x as [[l k] d], y as [[l' k'] d']; unfold eloc; simpl. intros Hr Hx Hy ->.
  apply (rep_cell _ _ Hr) in Hx as [_ Hx]. apply (rep_cell _ _ Hr) in Hy as [_ Hy].
  rewrite Hx in Hy. simplify_eq. done.
Qed.

Lemma rep_nodes_get s xs i l k d :
  heap_rep s xs -> xs !! i = Some (l, k, d) -> nodes_get s (Z.of_nat i) = Some l.
Proof.
  intros Hr Hx. unfold nodes_get. rewrite (proj2 (Z.leb_le _ _)) by lia.
  rewrite Nat2Z.id. apply (rep_cell _ _ Hr) in Hx as [-> _]. done.
Qed.

Lemma rep_exist s xs i :
  heap_rep s xs -> Z.of_nat i < 2 ^ 63 ->
  _heap_node_exist s (Z.of_nat i) = bool_decide (i < length xs)%nat.
Proof.
  intros Hr Hi. unfold _heap_node_exist. rewrite wrap_u_small by lia.
  rewrite (rep_last _ _ Hr). rewrite (proj2 (Z.ltb_ge _ 0)) by lia. rewrite orb_false_r.
  case_bool_decide as Hlt.
  - rewrite (proj2 (Z.leb_gt _ _)) by lia.
    apply lookup_lt_is_Some in Hlt as [[[l k] d] Hx]. by erewrite rep_nodes_get.
  - rewrite (proj2 (Z.leb_le _ _)) by lia. done.
Qed.

Lemma nodes_set_ok s i l :
  0 <= i < Z.of_nat (length (nodes (hp s))) ->
  nodes_set s i l = Some (mk_st (set_nodes (hp s) (<[Z.to_nat i := Some l]> (nodes (hp s)))) (mem s)).
Proof.
  intros ?. unfold nodes_set. rewrite (proj2 (Z.leb_le _ _)), (proj2 (Z.ltb_lt _ _)) by lia. done.
Qed.

Lemma rep_index s xs i x :
  heap_rep s xs -> xs !! i = Some x -> Z.of_nat i < max_nodes /\ (i < length (nodes (hp s)))%nat.
Proof.
  intros Hr Hx. apply lookup_lt_Some in Hx.
  pose proof (rep_last _ _ Hr). pose proof (rep_bound _ _ Hr).
  pose proof (rep_fits _ _ Hr). pose proof (rep_size _ _ Hr). lia.
Qed.

(** Swapping two elements exchanges them in the specification list and
    leaves every other field of the state alone. *)
Lemma swap_element_spec s xs i j x y :
  heap_rep s xs -> xs !! i = Some x -> xs !! j = Some y ->
  exists s', _heap_swap_element s (eloc x) (eloc y) = Some s' /\ heap_rep s' (swap i j xs) /\
    same_shape s s'.
Proof.
  destruct x as [[l k] d], y as [[l' k'] d']. intros Hr Hx Hy.
  pose proof (rep_index _ _ _ _ Hr Hx) as [_ Hi]. pose proof (rep_index _ _ _ _ Hr Hy) as [_ Hj].
  pose proof (rep_cell _ _ Hr _ _ _ _ Hx) as [Hnl Hml].
  pose proof (rep_cell _ _ Hr _ _ _ _ Hy) as [Hnl' Hml'].
  unfold _heap_swap_element, eloc; cbn [fst snd]. rewrite Hml; cbn. rewrite Hml'; cbn.
  destruct (decide (l = l')) as [<-|Hne].
  - assert (i = j) as <- by (by eapply rep_inj). simplify_eq. map_simpl. cbn.
    rewrite nodes_set_ok by (cbn; lia). cbn. rewrite nodes_set_ok by (cbn; rewrite length_insert; lia).
    eexists; split; [done|]. rewrite swap_same. cbn. rewrite Nat2Z.id. unfold set_id; cbn.
    rewrite insert_insert_eq, insert_id, list_insert_insert_eq, list_insert_id by done.
    by destruct s as [[] ?].
  - map_simpl. rewrite Hml'; cbn. map_simpl. cbn.
    rewrite nodes_set_ok by (cbn; lia). cbn. rewrite nodes_set_ok by (cbn; rewrite length_insert; lia).
    eexists; split; [done|]. cbn. rewrite !Nat2Z.id. unfold set_id, same_shape; cbn.
    rewrite !length_insert. split; [|done].
    assert (i <> j) as Hij by (intros ->; congruence).
    destruct Hr as [Hl Hsz Hf Hb Hc Hm]. constructor; cbn; rewrite ?length_swap, ?length_insert; try done.
    + intros i' l1 k1 d1. rewrite swap_lookup by (by eapply lookup_lt_Some).
      repeat case_decide; subst; intros Hx'; simplify_eq; [by map_simpl..|].
      destruct (Hc _ _ _ _ Hx') as [Hn Hm'].
      assert (l1 <> l /\ l1 <> l') as [] by (split; intros ->; simplify_eq; lia).
      by map_simpl.
    + intros l1 n Hn. destruct (decide (l1 = l')) as [->|]; [|destruct (decide (l1 = l)) as [->|]].
      * rewrite lookup_insert_eq in Hn. simplify_eq/=. exists i.
        rewrite swap_lookup by (by eapply lookup_lt_Some). by repeat case_decide.
      * rewrite lookup_insert_ne, lookup_insert_eq in Hn by done. simplify_eq/=. exists j.
        rewrite swap_lookup by (by eapply lookup_lt_Some). by repeat case_decide.
      * rewrite !lookup_insert_ne in Hn by done. destruct (Hm _ _ Hn) as [i' Hi']. exists i'.
        rewrite swap_lookup by (by eapply lookup_lt_Some).
        repeat case_decide; simplify_eq; done.
Qed.

Lemma same_shape_refl s : same_shape s s.
Proof. done. Qed.
#[local] Hint Resolve same_shape_refl : core.

Lemma same_shape_trans s1 s2 s3 : same_shape s1 s2 -> same_shape s2 s3 -> same_shape s1 s3.
Proof. unfold same_shape. intuition congruence. Qed.

(** ** The reordering loops *)

Definition keys_ok xs : Prop := Forall (fun x => kok (ekey x)) xs.

Lemma keys_ok_lookup xs i x : keys_ok xs -> xs !! i = Some x -> kok (ekey x).
Proof. intros Hk Hx. by eapply Forall_lookup_1 in Hk. Qed.

Lemma keys_ok_swap i j xs : keys_ok xs -> keys_ok (swap i j xs).
Proof. unfold keys_ok. by rewrite swap_Permutation. Qed.

Lemma not_kle a b : kok a -> kok b -> kle a b = false -> kle b a = true.
Proof. intros Ha Hb Hn. destruct (kle_total a b Ha Hb); congruence. Qed.

(** Order holds everywhere except possibly between [i] and its parent, and
    the children of [i] are above [i]'s parent. *)
Definition up_inv xs (i : nat) : Prop :=
  (forall j, (0 < j)%nat -> j <> i -> le_at xs j) /\
  (forall j x p, (0 < i)%nat -> (0 < j)%nat -> parent j = i ->
     xs !! j = Some x -> xs !! parent i = Some p -> kle (ekey p) (ekey x) = true).

(** Order holds everywhere except possibly between [i] and its children. *)
Definition down_inv xs (i : nat) : Prop :=
  (forall j, (0 < j)%nat -> parent j <> i -> le_at xs j) /\
  (forall j x p, (0 < i)%nat -> (0 < j)%nat -> parent j = i ->
     xs !! j = Some x -> xs !! parent i = Some p -> kle (ekey p) (ekey x) = true).

Lemma up_inv_step xs i x p :
  keys_ok xs -> (0 < i)%nat -> xs !! i = Some x -> xs !! parent i = Some p ->
  kle (ekey p) (ekey x) = false -> up_inv xs i -> up_inv (swap (parent i) i xs) (parent i).
Proof.
  intros Hk Hi Hx Hp Hn [Ha Hb].
  assert (parent i < i)%nat as Hlt by plia.
  assert (Hy : forall k, swap (parent i) i xs !! k = if decide (k = i) then xs !! parent i
              else if decide (k = parent i) then xs !! i else xs !! k).
  { intros k. apply swap_lookup; by eapply lookup_lt_Some. }
  pose proof (keys_ok_lookup _ _ _ Hk Hx) as Kx. pose proof (keys_ok_lookup _ _ _ Hk Hp) as Kp.
  assert (kle (ekey x) (ekey p) = true) as Hxp by (by apply not_kle).
  split.
  - intros j Hj Hjp y q. rewrite !Hy. repeat case_decide; subst; intros Hj1 Hj2; simplify_eq; try done.
    + by eapply Hb.
    + assert (kle (ekey p) (ekey y) = true) by (eapply (Ha j); [done|done|done|congruence]).
      eapply (kle_trans _ (ekey p)); eauto using keys_ok_lookup.
    + by eapply Ha.
  - intros j y q Hpi Hj Hjp. rewrite !Hy.
    assert (parent (parent i) < parent i)%nat by plia.
    rewrite (decide_False (P := parent (parent i) = i)) by lia.
    rewrite (decide_False (P := parent (parent i) = parent i)) by lia.
    repeat case_decide; subst; intros Hj1 Hj2; simplify_eq; try done.
    + by eapply Ha; [| |exact Hp|exact Hj2]; lia.
    + lia.
    + assert (kle (ekey q) (ekey p) = true) by (by eapply Ha; [| |exact Hp|exact Hj2]; lia).
      assert (kle (ekey p) (ekey y) = true) by (eapply (Ha j); [done|done|done|congruence]).
      eapply (kle_trans _ (ekey p)); eauto using keys_ok_lookup.
Qed.

Lemma heap_ify_up_spec fuel s xs i x :
  heap_rep s xs -> keys_ok xs -> xs !! i = Some x -> up_inv xs i -> (i < fuel)%nat ->
  exists s' xs', _heap_ify_up fuel s (eloc x) = Some s' /\ heap_rep s' xs' /\ xs' ≡ₚ xs /\
    ordered xs' /\ same_shape s s'.
Proof.
  revert s xs i. induction fuel as [|fuel IH]; intros s xs i Hr Hk Hx Hu Hf; [lia|].
  destruct x as [[l k] d]. cbn [_heap_ify_up eloc fst snd].
  pose proof (rep_cell _ _ Hr _ _ _ _ Hx) as [_ Hml]. rewrite Hml; cbn.
  pose proof (rep_index _ _ _ _ Hr Hx) as [Hib _].
  destruct (decide (i = 0)%nat) as [->|Hi].
  { cbn. exists s, xs. split_and!; try done.
    intros j Hj. apply Hu; lia. }
  rewrite (proj2 (Z.ltb_lt 0 _)) by lia. rewrite Parent_spec by lia.
  assert (parent i < i)%nat as Hlt by plia.
  destruct (lookup_lt_is_Some_2 xs (parent i)) as [[[lp kp] dp] Hp].
  { apply lookup_lt_Some in Hx. lia. }
  erewrite rep_nodes_get by done. cbn.
  pose proof (rep_cell _ _ Hr _ _ _ _ Hp) as [_ Hmp]. rewrite Hmp; cbn.
  destruct (kle kp k) eqn:Hle.
  { exists s, xs. split_and!; try done.
    intros j Hj. destruct (decide (j = i)) as [->|]; [|by apply Hu].
    intros y q Hy Hq. simplify_eq. done. }
  destruct (swap_element_spec _ _ _ _ _ _ Hr Hp Hx) as (s1 & Hs1 & Hr1 & Hf1).
  unfold eloc in Hs1; cbn in Hs1. rewrite Hs1; cbn.
  assert (swap (parent i) i xs !! parent i = Some (l, k, d)) as Hx1.
  { rewrite swap_lookup by (by eapply lookup_lt_Some). by repeat case_decide; try plia. }
  assert (up_inv (swap (parent i) i xs) (parent i)) as Hu1 by (eapply up_inv_step; eauto; lia).
  destruct (IH s1 _ _ Hr1 (keys_ok_swap _ _ _ Hk) Hx1 Hu1) as (s' & xs' & ? & ? & Hperm & ? & ?); [plia|].
  exists s', xs'. rewrite swap_Permutation in Hperm. eauto 6 using same_shape_trans.
Qed.

(** The child that [_heap_kid] selects is the smaller one. *)
Lemma heap_kid_spec s xs i :
  heap_rep s xs -> keys_ok xs -> (2 * i + 1 < length xs)%nat -> Z.of_nat i < max_nodes ->
  exists c y, _heap_kid s (Left (Z.of_nat i)) (Right (Z.of_nat i)) = Some (eloc y) /\
    xs !! c = Some y /\ (0 < c)%nat /\ parent c = i /\
    (forall j z, (0 < j)%nat -> parent j = i -> xs !! j = Some z -> kle (ekey y) (ekey z) = true).
Proof.
  intros Hr Hk Hl Hi. unfold _heap_kid. rewrite Left_spec, Right_spec by done.
  unfold max_nodes in Hi. rewrite (rep_exist s xs) by (done || lia).
  destruct (lookup_lt_is_Some_2 xs (2 * i + 1)) as [[[l kl] dl] Hxl]; [done|].
  erewrite (rep_nodes_get s xs (2 * i + 1)) by done.
  assert (kle_refl : forall z, kok z -> kle z z = true) by (intros z Hz; by destruct (kle_total z z Hz Hz)).
  case_bool_decide as Hr'; cbn.
  - destruct (lookup_lt_is_Some_2 xs (2 * i + 2)) as [[[r kr] dr] Hxr]; [done|].
    erewrite (rep_nodes_get s xs (2 * i + 2)) by done. cbn.
    pose proof (rep_cell _ _ Hr _ _ _ _ Hxl) as [_ ->]. pose proof (rep_cell _ _ Hr _ _ _ _ Hxr) as [_ ->]. cbn.
    pose proof (keys_ok_lookup _ _ _ Hk Hxl) as Kl. pose proof (keys_ok_lookup _ _ _ Hk Hxr) as Kr.
    cbn in Kl, Kr. rewrite klt_spec by done.
    exists (if negb (kle kl kr) then 2 * i + 2 else 2 * i + 1)%nat.
    exists (if negb (kle kl kr) then (r, kr, dr) else (l, kl, dl)).
    destruct (kle kl kr) eqn:E; cbn; split_and!; try done; try plia.
    + intros j z Hj Hp Hz. assert (j = 2 * i + 1 \/ j = 2 * i + 2)%nat as [->| ->] by plia;
        simplify_eq; cbn; auto.
    + intros j z Hj Hp Hz. assert (j = 2 * i + 1 \/ j = 2 * i + 2)%nat as [->| ->] by plia;
        simplify_eq; cbn; auto using not_kle.
  - exists (2 * i + 1)%nat, (l, kl, dl). split_and!; try done; try plia.
    intros j z Hj Hp Hz. pose proof (lookup_lt_Some _ _ _ Hz).
    assert (j = 2 * i + 1)%nat as -> by plia. simplify_eq. eauto using keys_ok_lookup.
Qed.

Lemma down_inv_step xs i c x y :
  keys_ok xs -> xs !! i = Some x -> xs !! c = Some y -> (0 < c)%nat -> parent c = i ->
  (forall j z, (0 < j)%nat -> parent j = i -> xs !! j = Some z -> kle (ekey y) (ekey z) = true) ->
  kle (ekey x) (ekey y) = false -> down_inv xs i -> down_inv (swap c i xs) c.
Proof.
  intros Hk Hx Hy Hc Hpc Hmin Hn [Ha Hb].
  assert (i < c)%nat as Hlt by plia.
  assert (Hs : forall k, swap c i xs !! k = if decide (k = i) then xs !! c
              else if decide (k = c) then xs !! i else xs !! k).
  { intros k. apply swap_lookup; by eapply lookup_lt_Some. }
  assert (kle (ekey y) (ekey x) = true) as Hyx by (apply not_kle; eauto using keys_ok_lookup).
  split.
  - intros j Hj Hjc z q. rewrite !Hs. repeat case_decide; subst; intros Hj1 Hj2; simplify_eq; try done.
    + plia.
    + eapply Hb; [..|exact Hy|done]; done.
    + by eapply Hmin.
    + by eapply Ha.
  - intros j z q _ Hj Hjc. rewrite !Hs. rewrite Hpc.
    rewrite (decide_True (P := i = i)) by done.
    repeat case_decide; subst; intros Hj1 Hj2; simplify_eq; try plia.
    eapply (Ha j); [done| |done|congruence]. plia.
Qed.

Lemma heap_ify_down_spec fuel s xs i x :
  heap_rep s xs -> keys_ok xs -> xs !! i = Some x -> down_inv xs i -> (length xs < fuel + i)%nat ->
  exists s' xs', _heap_ify_down fuel s (eloc x) = Some s' /\ heap_rep s' xs' /\ xs' ≡ₚ xs /\
    ordered xs' /\ same_shape s s'.
Proof.
  revert s xs i. induction fuel as [|fuel IH]; intros s xs i Hr Hk Hx Hd Hf.
  { apply lookup_lt_Some in Hx. lia. }
  destruct x as [[l k] d]. cbn [_heap_ify_down eloc fst snd].
  pose proof (rep_cell _ _ Hr _ _ _ _ Hx) as [_ Hml]. rewrite Hml; cbn.
  pose proof (rep_index _ _ _ _ Hr Hx) as [Hib _].
  pose proof (rep_last _ _ Hr). pose proof (rep_bound _ _ Hr).
  assert (Hz : forall n, (length xs <= n)%nat -> Z.of_nat n < 2 ^ 63 ->
    _heap_node_exist s (Z.of_nat n) = false).
  { intros n ??. rewrite (rep_exist s xs) by done. apply bool_decide_false. lia. }
  assert (Hleaf : (length xs <= 2 * i + 1)%nat -> ordered xs).
  { intros Hlen j Hj. destruct (decide (parent j = i)) as [Hp|]; [|by apply Hd].
    intros y q Hy _. apply lookup_lt_Some in Hy. plia. }
  destruct (decide (2 * i + 1 < length xs)%nat) as [Hlen|Hlen].
  2: { rewrite Left_spec, Right_spec by done. unfold max_nodes in *.
       rewrite !Hz by lia. cbn. exists s, xs. split_and!; try done. apply Hleaf. lia. }
  destruct (heap_kid_spec s xs i) as (c & y & Hkid & Hy & Hc & Hpc & Hmin); [done..|].
  rewrite Hkid. cbn. rewrite Left_spec by done. rewrite (rep_exist s xs) by (unfold max_nodes in *; done || lia).
  rewrite bool_decide_true by done. cbn.
  destruct y as [[lc kc] dc]. pose proof (rep_cell _ _ Hr _ _ _ _ Hy) as [_ Hmc].
  unfold eloc; cbn. rewrite Hmc; cbn. destruct (kle k kc) eqn:Hle.
  { exists s, xs. split_and!; try done. intros j Hj.
    destruct (decide (parent j = i)) as [Hp|]; [|by apply Hd].
    intros z q Hz' Hq. rewrite Hp, Hx in Hq. simplify_eq.
    eapply (kle_trans _ kc); eauto using keys_ok_lookup.
    apply (keys_ok_lookup _ _ _ Hk Hy). }
  destruct (swap_element_spec _ _ _ _ _ _ Hr Hy Hx) as (s1 & Hs1 & Hr1 & Hf1).
  unfold eloc in Hs1; cbn in Hs1. rewrite Hs1; cbn.
  assert (swap c i xs !! c = Some (l, k, d)) as Hx1.
  { rewrite swap_lookup by (by eapply lookup_lt_Some). by repeat case_decide; try plia. }
  assert (down_inv (swap c i xs) c) as Hd1 by (by eapply down_inv_step; eauto).
  destruct (IH s1 _ _ Hr1 (keys_ok_swap _ _ _ Hk) Hx1 Hd1) as (s' & xs' & ? & ? & Hperm & ? & ?).
  { rewrite length_swap. plia. }
  exists s', xs'. rewrite swap_Permutation in Hperm. eauto 6 using same_shape_trans.
Qed.

(** ** Operations *)

#[local] Arguments _heap_ify_up : simpl never.
#[local] Arguments _heap_ify_down : simpl never.
#[local] Arguments ify_fuel : simpl never.

Lemma ordered_root_min xs i r x :
  ordered xs -> keys_ok xs -> xs !! 0%nat = Some r -> xs !! i = Some x -> kle (ekey r) (ekey x) = true.
Proof.
  intros Ho Hk Hr. revert x. induction i as [i IH] using lt_wf_ind. intros x Hx.
  destruct (decide (i = 0)%nat) as [->|Hi].
  { simplify_eq. pose proof (keys_ok_lookup _ _ _ Hk Hr) as Kr. by destruct (kle_total _ _ Kr Kr). }
  destruct (lookup_lt_is_Some_2 xs (parent i)) as [p Hp].
  { apply lookup_lt_Some in Hx. plia. }
  eapply (kle_trans _ (ekey p)); eauto using keys_ok_lookup.
  - eapply (IH (parent i)); [plia|done].
  - by eapply (Ho i); [lia|..].
Qed.

(** Growing the node array keeps the contents and makes room for one more. *)
Lemma grow_spec s xs :
  heap_rep s xs -> 0 < size (hp s) -> Z.of_nat (length xs) < max_nodes ->
  let h := if _heap_should_grow (hp s) then _heap_grow (hp s) else hp s in
  heap_rep (mk_st h (mem s)) xs /\ last h < size h /\ 0 < size h /\
  gen_key h = gen_key (hp s) /\ age h = age (hp s).
Proof.
  intros Hr Hs Hb h. destruct (_heap_should_grow (hp s)) eqn:Hg; unfold _heap_should_grow in Hg; zify_bools.
  - destruct Hr as [Hl Hsz Hf Hbd Hc Hm]. subst h. unfold _heap_grow; cbn. unfold max_nodes, Threshold in *.
    set (n := if 10000 <? size (hp s) then size (hp s) * 3 / 2 else size (hp s) * 2).
    assert (size (hp s) < n <= size (hp s) * 2) as Hn.
    { subst n. destruct (10000 <? size (hp s)) eqn:E; zify_bools; [|lia].
      pose proof (Z.div_mod (size (hp s) * 3) 2). pose proof (Z.mod_pos_bound (size (hp s) * 3) 2). lia. }
    rewrite wrap_s_small by lia. split_and!; try done; try lia.
    constructor; cbn; rewrite ?length_resize; try done; try lia.
    intros i l k d Hx. destruct (Hc _ _ _ _ Hx) as [Hn1 Hm1]. split; [|done].
    apply lookup_lt_Some in Hn1 as Hlt. rewrite lookup_resize; [done|lia|lia].
  - subst h. destruct s; cbn. by split_and!.
Qed.

(** Storing a new last node that the caller allocated at a fresh address. *)
Lemma append_spec s xs l k d :
  heap_rep s xs -> last (hp s) < size (hp s) -> Z.of_nat (length xs) < max_nodes -> mem s !! l = None ->
  heap_rep (mk_st (set_last (set_nodes (hp s) (<[length xs := Some l]> (nodes (hp s)))) (last (hp s) + 1))
                  (<[l := mk_node k (last (hp s)) d]> (mem s))) (xs ++ [(l, k, d)]).
Proof.
  intros [Hl Hsz Hf Hb Hc Hm] Hlt Hmax Hfr. constructor; cbn; rewrite ?length_app, ?length_insert; cbn; try lia.
  - intros i l' k' d' Hx. apply lookup_snoc_Some in Hx as [[Hi Hx]|[-> Hx]].
    + destruct (Hc _ _ _ _ Hx) as [Hn Hm']. assert (l <> l') by congruence. map_simpl.
      by rewrite list_lookup_insert_ne by lia.
    + simplify_eq. map_simpl. rewrite Hl. done.
  - intros l' n. destruct (decide (l' = l)) as [->|]; map_simpl; intros Hn.
    + simplify_eq/=. exists (length xs). by rewrite lookup_app_r, Nat.sub_diag by lia.
    + destruct (Hm _ _ Hn) as [i Hi]. exists i. by apply lookup_app_l_Some.
Qed.

Lemma heap_insert_rep s xs l dat :
  heap_ok s xs -> 0 < size (hp s) -> Z.of_nat (length xs) < max_nodes -> mem s !! l = None ->
  kok (heap_gen_key (hp s) dat) ->
  exists s' xs', heap_insert s l dat = Some (s', l) /\ heap_ok s' xs' /\
    xs' ≡ₚ (l, heap_gen_key (hp s) dat, dat) :: xs /\ 0 < size (hp s') /\
    age (hp s') = age (hp s) /\ gen_key (hp s') = gen_key (hp s).
Proof.
  intros (Hr & Ho & Hk) Hs Hmax Hfr Hkok. unfold heap_insert.
  destruct (grow_spec s xs Hr Hs Hmax) as (Hr1 & Hlt & Hs1 & Hg & Ha).
  set (h := if _heap_should_grow (hp s) then _heap_grow (hp s) else hp s) in *.
  pose proof (rep_last _ _ Hr1) as Hlast. pose proof (rep_size _ _ Hr1) as Hsize. cbn in Hlast, Hsize.
  rewrite nodes_set_ok by (cbn; lia). cbn. rewrite Hlast, Nat2Z.id.
  pose proof (append_spec _ xs l (heap_gen_key (hp s) dat) dat Hr1 Hlt Hmax Hfr) as Hr2. cbn in Hr2.
  rewrite Hlast in Hr2.
  set (s2 := mk_st _ _) in Hr2 |- *.
  set (x := (l, heap_gen_key (hp s) dat, dat)) in *.
  assert (keys_ok (xs ++ [x])) as Hk2 by (apply Forall_app; split; [done|by repeat constructor]).
  destruct (heap_ify_up_spec (ify_fuel s2) s2 (xs ++ [x]) (length xs) x) as (s' & xs' & Hup & Hr' & Hp & Ho' & Hsh).
  { done. } { done. } { by rewrite lookup_app_r, Nat.sub_diag by lia. }
  { split.
    - intros j Hj Hne y q Hy Hq. pose proof (lookup_lt_Some _ _ _ Hy) as Hlj.
      rewrite length_app in Hlj; cbn in Hlj. rewrite lookup_app_l in Hy, Hq by plia. by eapply Ho.
    - intros j y q Hi Hj Hpj Hy. apply lookup_lt_Some in Hy. rewrite length_app in Hy; cbn in Hy. plia. }
  { unfold ify_fuel. subst s2; cbn. rewrite length_insert. lia. }
  change (eloc x) with l in Hup. rewrite Hup; cbn. exists s', xs'.
  unfold heap_ok, keys_ok in *. destruct Hsh as (Hz1 & Hz2 & Hz3 & Hz4 & Hz5). subst s2; cbn in *.
  split_and!; try done; try congruence; try lia.
  - by rewrite Hp.
  - by rewrite Hp, Permutation_app_comm.
Qed.

(** Order holds everywhere except possibly around index [i]. *)
Definition both_inv xs (i : nat) : Prop :=
  (forall j, (0 < j)%nat -> j <> i -> parent j <> i -> le_at xs j) /\
  (forall j x p, (0 < i)%nat -> (0 < j)%nat -> parent j = i ->
     xs !! j = Some x -> xs !! parent i = Some p -> kle (ekey p) (ekey x) = true).

Lemma ordered_both_inv xs i x y :
  ordered xs -> keys_ok xs -> xs !! i = Some x -> both_inv (<[i := y]> xs) i.
Proof.
  intros Ho Hk Hx. split.
  - intros j Hj Hji Hpj z q. rewrite !list_lookup_insert_ne by done. by apply Ho.
  - intros j z q Hi Hj Hpj. rewrite !list_lookup_insert_ne by plia. intros Hz Hq.
    eapply (kle_trans _ (ekey x)); eauto using keys_ok_lookup.
    + by eapply (Ho i).
    + eapply (Ho j); [done|done|congruence].
Qed.

Lemma ordered_down_inv xs i x :
  ordered xs -> keys_ok xs -> xs !! i = Some x -> down_inv xs i.
Proof.
  intros Ho Hk Hx. split; [intros; by apply Ho|].
  intros j z q Hi Hj Hpj Hz Hq. eapply (kle_trans _ (ekey x)); eauto using keys_ok_lookup.
  - by eapply (Ho i).
  - eapply (Ho j); [done|done|congruence].
Qed.

Lemma heap_reorder_spec s xs i x :
  heap_rep s xs -> keys_ok xs -> xs !! i = Some x -> both_inv xs i ->
  exists s' xs', _heap_reorder s (eloc x) = Some s' /\ heap_rep s' xs' /\ xs' ≡ₚ xs /\
    ordered xs' /\ same_shape s s'.
Proof.
  intros Hr Hk Hx [Ha Hb]. destruct x as [[l k] d].
  pose proof (rep_cell _ _ Hr _ _ _ _ Hx) as [_ Hml].
  pose proof (rep_index _ _ _ _ Hr Hx) as [Hib Hin].
  destruct (lookup_lt_is_Some_2 xs (parent i)) as [[[lp kp] dp] Hp].
  { apply lookup_lt_Some in Hx. plia. }
  pose proof (rep_cell _ _ Hr _ _ _ _ Hp) as [_ Hmp].
  pose proof (keys_ok_lookup _ _ _ Hk Hx) as Kx. pose proof (keys_ok_lookup _ _ _ Hk Hp) as Kp.
  unfold _heap_reorder, eloc; cbn. rewrite Hml; cbn. rewrite Parent_spec by lia.
  erewrite rep_nodes_get by done; cbn. rewrite Hmp; cbn. rewrite klt_spec by done.
  pose proof (rep_last _ _ Hr). pose proof (rep_fits _ _ Hr). pose proof (rep_size _ _ Hr).
  destruct (kle kp k) eqn:Hle; cbn.
  - destruct (heap_ify_down_spec (ify_fuel s) s xs i (l, k, d)) as (s' & xs' & ?); eauto.
    + split; [|done]. intros j Hj Hpj. destruct (decide (j = i)) as [->|]; [|by apply Ha].
      intros z q Hz Hq. by simplify_eq.
    + unfold ify_fuel. lia.
  - assert (kle k kp = true) as Hle' by (by apply not_kle).
    destruct (heap_ify_up_spec (ify_fuel s) s xs i (l, k, d)) as (s1 & xs1 & Hu & Hr1 & Hp1 & Ho1 & Hs1); eauto.
    + split; [|done]. intros j Hj Hji. destruct (decide (parent j = i)) as [Hpj|]; [|by apply Ha].
      intros z q Hz Hq. rewrite Hpj, Hx in Hq. simplify_eq. cbn.
      assert (parent j <> 0)%nat. { intros E. rewrite E in *. change (parent 0) with 0%nat in *. simplify_eq. congruence. }
      eapply (kle_trans _ kp); eauto using keys_ok_lookup.
      apply (Hb j z (lp, kp, dp)); eauto. plia.
    + unfold ify_fuel. lia.
    + change (eloc (l, k, d)) with l in Hu. rewrite Hu; cbn.
      assert (keys_ok xs1) as Hk1 by (unfold keys_ok; by rewrite Hp1).
      assert ((l, k, d) ∈ xs1) as [i1 Hx1]%list_elem_of_lookup.
      { rewrite Hp1. by eapply list_elem_of_lookup_2. }
      destruct (heap_ify_down_spec (ify_fuel s1) s1 xs1 i1 (l, k, d)) as (s2 & xs2 & Hd & Hr2 & Hp2 & Ho2 & Hs2);
        eauto using ordered_down_inv.
      { pose proof (rep_last _ _ Hr1). pose proof (rep_fits _ _ Hr1). pose proof (rep_size _ _ Hr1).
        unfold ify_fuel. lia. }
      exists s2, xs2. split_and!; try done; [by rewrite Hp2|by eapply same_shape_trans].
Qed.

Lemma heap_extractlast_spec s xs l k d :
  heap_rep s (xs ++ [(l, k, d)]) ->
  exists s', heap_extractlast s = Some (s', d) /\ heap_rep s' xs /\
    last (hp s') = Z.of_nat (length xs) /\ size (hp s') = size (hp s) /\
    age (hp s') = age (hp s) /\ gen_key (hp s') = gen_key (hp s).
Proof.
  intros Hr. assert ((xs ++ [(l, k, d)]) !! length xs = Some (l, k, d)) as Hx
    by (by rewrite lookup_app_r, Nat.sub_diag by lia).
  pose proof (rep_index _ _ _ _ Hr Hx) as [Hi _]. unfold max_nodes in Hi.
  pose proof (rep_cell _ _ Hr _ _ _ _ Hx) as [_ Hml].
  pose proof (rep_last _ _ Hr) as Hl. rewrite length_app in Hl; cbn in Hl.
  unfold heap_extractlast. cbn. replace (last (hp s) - 1) with (Z.of_nat (length xs)) by lia.
  rewrite wrap_s_small by lia. rewrite (rep_exist s (xs ++ [(l, k, d)])) by (done || lia).
  rewrite bool_decide_true by (rewrite length_app; cbn; lia).
  erewrite rep_nodes_get by done; cbn. rewrite Hml; cbn.
  eexists; split; [done|]. split; [|done].
  pose proof (fun i x H => rep_inj s _ i (length xs) x _ Hr H Hx) as Hinj.
  destruct Hr as [_ Hsz Hf Hb Hc Hm]. constructor; cbn; try done; try lia.
  - intros i l' k' d' Hx'. assert ((xs ++ [(l, k, d)]) !! i = Some (l', k', d')) as Hx2
      by (by apply lookup_app_l_Some).
    destruct (Hc _ _ _ _ Hx2) as [Hn Hm']. split; [done|].
    rewrite lookup_delete_ne; [done|]. intros ->.
    specialize (Hinj _ _ Hx2 eq_refl). apply lookup_lt_Some in Hx'. lia.
  - intros l' n Hn. apply lookup_delete_Some in Hn as [Hne Hn].
    destruct (Hm _ _ Hn) as [i Hi']. exists i.
    apply lookup_snoc_Some in Hi' as [[_ ?]|[_ ?]]; [done|congruence].
Qed.

Lemma swap_last ys y i x :
  ys !! i = Some x -> swap (length ys) i (ys ++ [y]) = <[i := y]> ys ++ [x].
Proof.
  intros Hx. pose proof (lookup_lt_Some _ _ _ Hx). apply list_eq. intros j.
  rewrite swap_lookup by (rewrite length_app; cbn; lia).
  rewrite (lookup_app_l ys [y] i) by done.
  repeat case_decide; subst.
  - rewrite (lookup_app_l (<[i:=y]> ys)) by (by rewrite length_insert).
    rewrite list_lookup_insert_eq by done. by rewrite lookup_app_r, Nat.sub_diag by lia.
  - rewrite lookup_app_r by (by rewrite length_insert). by rewrite length_insert, Nat.sub_diag.
  - destruct (decide (j < length ys)%nat).
    + rewrite !lookup_app_l by (by rewrite ?length_insert). by rewrite list_lookup_insert_ne.
    + rewrite !lookup_ge_None_2; [done|..]; rewrite length_app, ?length_insert; cbn; lia.
Qed.

(** ** Main theorems *)

Lemma heap_delete_rep s xs x :
  heap_ok s xs -> x ∈ xs ->
  exists s' xs', heap_delete s (eloc x) = Some (s', edat x) /\ heap_ok s' xs' /\ x :: xs' ≡ₚ xs /\
    size (hp s') = size (hp s) /\ age (hp s') = age (hp s) /\ gen_key (hp s') = gen_key (hp s).
Proof.
  intros (Hr & Ho & Hk) [i Hx]%list_elem_of_lookup.
  destruct xs as [|y ys _] using rev_ind; [done|].
  assert ((ys ++ [y]) !! length ys = Some y) as Hy by (by rewrite lookup_app_r, Nat.sub_diag by lia).
  pose proof (rep_index _ _ _ _ Hr Hy) as [Hi _]. unfold max_nodes in Hi.
  pose proof (rep_last _ _ Hr) as Hl. rewrite length_app in Hl; cbn in Hl.
  destruct (swap_element_spec _ _ _ _ _ _ Hr Hy Hx) as (s1 & Hs1 & Hr1 & Hsh1).
  destruct x as [[l k] d], y as [[l' k'] d'].
  pose proof (rep_cell _ _ Hr _ _ _ _ Hx) as [_ Hml].
  unfold heap_delete, eloc in *; cbn in *. rewrite Hml; cbn.
  replace (last (hp s) - 1) with (Z.of_nat (length ys)) by lia.
  rewrite wrap_s_small by lia. rewrite (rep_exist s (ys ++ [(l', k', d')])) by (done || lia).
  rewrite bool_decide_true by (rewrite length_app; cbn; lia).
  erewrite rep_nodes_get by done; cbn. rewrite Hs1; cbn.
  destruct Hsh1 as (Hz1 & Hz2 & Hz3 & Hz4 & Hz5).
  assert (ordered ys) as Hoy.
  { intros j Hj z q Hz Hq. eapply (Ho j); [done|by apply lookup_app_l_Some..]. }
  assert (keys_ok ys /\ kok k') as [Hky Hkk].
  { apply Forall_app in Hk as [? Hk']. split; [done|]. by inversion Hk'. }
  apply lookup_snoc_Some in Hx as [[Hlt Hx]|[-> Hx]].
  - assert (l <> l') as Hne.
    { intros <-. assert (i = length ys); [|lia]. eapply rep_inj; [exact Hr|by apply lookup_app_l_Some|exact Hy|done]. }
    rewrite (swap_last _ _ _ _ Hx) in Hr1.
    destruct (heap_extractlast_spec _ _ _ _ _ Hr1) as (s2 & -> & Hr2 & Hl2 & Hz6 & Hz7 & Hz8). cbn.
    rewrite bool_decide_false by done. rewrite length_insert in Hl2.
    rewrite (proj2 (Z.ltb_lt 0 _)) by lia.
    destruct (heap_reorder_spec s2 (<[i:=(l', k', d')]> ys) i (l', k', d')) as (s3 & xs3 & Hro & Hr3 & Hp3 & Ho3 & Hsh3); try done.
    { apply Forall_insert; [done|done]. }
    { by apply list_lookup_insert_eq. }
    { by eapply ordered_both_inv. }
    unfold eloc in Hro; cbn in Hro. rewrite Hro; cbn.
    destruct Hsh3 as (? & ? & ? & ? & ?). exists s3, xs3.
    split_and!; try done; try congruence.
    + split; [done|]. split; [done|]. rewrite Hp3. by apply Forall_insert.
    + pose proof (swap_Permutation (length ys) i (ys ++ [(l', k', d')])) as Hp.
      rewrite (swap_last _ _ _ _ Hx), Permutation_app_comm in Hp. by rewrite Hp3.
  - simplify_eq. rewrite swap_same in Hr1.
    destruct (heap_extractlast_spec _ _ _ _ _ Hr1) as (s2 & -> & Hr2 & Hl2 & Hz6 & Hz7 & Hz8). cbn.
    rewrite bool_decide_true by done. exists s2, ys.
    split_and!; try done; try congruence. by rewrite Permutation_app_comm.
Qed.

Lemma heap_extractmin_rep s xs :
  heap_ok s xs -> xs <> [] ->
  exists s' xs' x, heap_extractmin s = Some (s', Some (edat x)) /\ heap_ok s' xs' /\ x :: xs' ≡ₚ xs /\
    heap_peepminkey s = Some (ekey x) /\
    (forall y, y ∈ xs -> kle (ekey x) (ekey y) = true) /\
    size (hp s') = size (hp s) /\ age (hp s') = age (hp s) /\ gen_key (hp s') = gen_key (hp s).
Proof.
  intros Hok Hne. pose proof Hok as (Hr & Ho & Hk).
  destruct xs as [|[[l k] d] xs]; [done|].
  pose proof (rep_last _ _ Hr) as Hl; cbn in Hl. unfold heap_extractmin.
  rewrite (proj2 (Z.leb_gt _ _)) by lia.
  pose proof (rep_nodes_get s _ 0%nat l k d Hr eq_refl) as Hn.
  change (Z.of_nat 0) with 0 in Hn. rewrite Hn; cbn.
  pose proof (rep_cell _ _ Hr 0%nat _ _ _ eq_refl) as [_ Hm]. rewrite Hm; cbn.
  destruct (heap_delete_rep s _ (l, k, d) Hok) as (s' & xs' & Hd & Hok' & Hp & ? & ? & ?); [by left|].
  change (eloc (l, k, d)) with l in Hd. rewrite Hd; cbn. exists s', xs', (l, k, d).
  split_and!; try done.
  - unfold heap_peepminkey, heap_peepkey. change (_heap_node_exist s 0) with (_heap_node_exist s (Z.of_nat 0)).
    rewrite (rep_exist s _ 0%nat Hr) by done.
    rewrite bool_decide_true by (cbn; lia). rewrite Hn; cbn. by rewrite Hm.
  - intros y [i Hy]%list_elem_of_lookup. eapply ordered_root_min; eauto.
Qed.

(** Rewriting one node in place keeps the representation. *)
Lemma store_node_spec s xs i l k d k' d' :
  heap_rep s xs -> xs !! i = Some (l, k, d) ->
  heap_rep (mk_st (hp s) (<[l := mk_node k' (Z.of_nat i) d']> (mem s))) (<[i := (l, k', d')]> xs).
Proof.
  intros Hr Hx. pose proof (fun j y H => rep_inj s xs j i y _ Hr H Hx) as Hinj.
  pose proof (lookup_lt_Some _ _ _ Hx) as Hi.
  destruct Hr as [Hl Hsz Hf Hb Hc Hm]. constructor; cbn; rewrite ?length_insert; try done.
  - intros j l1 k1 d1. destruct (decide (j = i)) as [->|Hj]; map_simpl; intros Hx1.
    + simplify_eq. split; [by eapply Hc|]. by map_simpl.
    + assert (l1 <> l). { intros ->. by apply Hj, (Hinj _ _ Hx1). } map_simpl. by eapply Hc.
  - intros l1 n. destruct (decide (l1 = l)) as [->|]; map_simpl; intros Hn.
    + simplify_eq/=. exists i. by map_simpl.
    + destruct (Hm _ _ Hn) as [j Hj]. exists j.
      destruct (decide (j = i)) as [->|]; [congruence|by map_simpl].
Qed.

Lemma heap_update_rep s xs l k d dat :
  heap_ok s xs -> (l, k, d) ∈ xs -> kok (heap_gen_key (hp s) dat) ->
  exists s' xs' ys, heap_update s l dat = Some (s', d) /\ heap_ok s' xs' /\
    xs ≡ₚ (l, k, d) :: ys /\ xs' ≡ₚ (l, heap_gen_key (hp s) dat, dat) :: ys /\
    size (hp s') = size (hp s) /\ age (hp s') = age (hp s) /\ gen_key (hp s') = gen_key (hp s).
Proof.
  intros (Hr & Ho & Hk) [i Hx]%list_elem_of_lookup Hkok.
  pose proof (rep_cell _ _ Hr _ _ _ _ Hx) as [_ Hml]. unfold heap_update. rewrite Hml; cbn.
  pose proof (store_node_spec s xs i l k d (heap_gen_key (hp s) dat) dat Hr Hx) as Hr1.
  destruct (heap_reorder_spec _ _ i (l, heap_gen_key (hp s) dat, dat) Hr1) as (s' & xs' & Hro & Hr' & Hp & Ho' & Hsh).
  - by apply Forall_insert.
  - apply list_lookup_insert_eq. by eapply lookup_lt_Some.
  - by eapply ordered_both_inv.
  - unfold eloc in Hro; cbn in Hro. rewrite Hro; cbn.
    exists s', xs', (delete i xs). destruct Hsh as (? & ? & ? & ? & ?).
    assert (xs' ≡ₚ (l, heap_gen_key (hp s) dat, dat) :: delete i xs) as Hp'.
    { rewrite Hp. rewrite insert_take_drop by (by eapply lookup_lt_Some).
      rewrite delete_take_drop. by rewrite <- Permutation_middle. }
    split_and!; try done.
    + split; [done|]. split; [done|]. rewrite Hp'. constructor; [done|].
      by apply Forall_delete.
    + by apply delete_Permutation.
Qed.

Lemma violated_at_spec s xs i j x :
  heap_rep s xs -> keys_ok xs -> xs !! i = Some x -> Z.of_nat j < 2 ^ 63 ->
  violated_at s (Z.of_nat i) (Z.of_nat j) =
    Some match xs !! j with Some y => negb (kle (ekey x) (ekey y)) | None => false end.
Proof.
  intros Hr Hk Hx Hj. unfold violated_at, node_key. rewrite (rep_exist s xs) by done.
  case_bool_decide as Hlt.
  - apply lookup_lt_is_Some in Hlt as [[[l' k'] d'] Hy]. rewrite Hy. destruct x as [[l k] d].
    erewrite !rep_nodes_get by done. cbn.
    destruct (rep_cell _ _ Hr _ _ _ _ Hx) as [_ ->], (rep_cell _ _ Hr _ _ _ _ Hy) as [_ ->]. cbn.
    rewrite klt_spec; [done| |].
    + apply (keys_ok_lookup _ _ _ Hk Hy).
    + apply (keys_ok_lookup _ _ _ Hk Hx).
  - by rewrite lookup_ge_None_2 by lia.
Qed.

Lemma verify_loop_spec fuel s xs i :
  heap_rep s xs -> keys_ok xs -> (length xs / 2 <= fuel + i)%nat ->
  exists b, verify_loop fuel s (Z.of_nat i) = Some b /\
    (b = true <-> forall j, (0 < j)%nat -> (i <= parent j)%nat -> le_at xs j).
Proof.
  intros Hr Hk. revert i. induction fuel as [|fuel IH]; intros i Hf.
  all: unfold verify_loop; fold (@verify_loop K D _); rewrite (rep_last _ _ Hr).
  all: change 2 with (Z.of_nat 2); rewrite <- Nat2Z.inj_div.
  all: pose proof (Nat.div_mod_eq (length xs) 2) as Hdm; pose proof (Nat.mod_upper_bound (length xs) 2).
  all: assert (Hend : (length xs / 2 <= i)%nat -> forall j, (0 < j)%nat -> (i <= parent j)%nat -> le_at xs j)
    by (intros Hle j Hj Hi x p Hx; apply lookup_lt_Some in Hx; plia).
  all: destruct (Z.of_nat i <? Z.of_nat (length xs / 2)) eqn:E; zify_bools; [|exists true; split; [done|]; split; [intros _; apply Hend; lia|done]].
  - lia.
  - destruct (lookup_lt_is_Some_2 xs i) as [x Hx]; [lia|].
    pose proof (rep_index _ _ _ _ Hr Hx) as [Hib _].
    rewrite Left_spec, Right_spec by done. unfold max_nodes in Hib.
    rewrite !(violated_at_spec s xs i _ x) by (done || lia). cbn.
    destruct (_ || _) eqn:Hv.
    + exists false. split; [done|]. split; [done|]. intros Hall.
      apply orb_true_iff in Hv as [Hv|Hv]; destruct (xs !! _) as [y|] eqn:Hy in Hv; try done;
        apply negb_true_iff in Hv; enough (kle (ekey x) (ekey y) = true) by congruence;
        (eapply Hall; [| |exact Hy|]); try plia; rewrite <- Hx; f_equal; plia.
    + destruct (IH (S i)) as (b & Hb & Hiff); [lia|].
      replace (Z.of_nat i + 1) with (Z.of_nat (S i)) by lia. rewrite Hb. exists b. split; [done|].
      rewrite Hiff. split; intros Hall j Hj Hle; [|apply Hall; lia].
      destruct (decide (parent j = i)) as [Hp|]; [|apply Hall; lia].
      intros y q Hy Hq. rewrite Hp, Hx in Hq. simplify_eq.
      apply orb_false_iff in Hv as [Hv1 Hv2].
      assert (j = 2 * parent j + 1 \/ j = 2 * parent j + 2)%nat as [Ej|Ej] by plia.
      * rewrite <- Ej, Hy in Hv1. by apply negb_false_iff in Hv1.
      * rewrite <- Ej, Hy in Hv2. by apply negb_false_iff in Hv2.
Qed.

(** A node taken out of a heap is no longer in memory. *)
Lemma rep_removed_free s xs sd xd x :
  heap_rep s xs -> heap_rep sd xd -> x :: xd ≡ₚ xs -> mem sd !! eloc x = None.
Proof.
  destruct x as [[l k] d]. intros Hr Hrd Hp. change (eloc (l, k, d)) with l.
  destruct (mem sd !! l) as [n|] eqn:Hn; [exfalso|done].
  destruct (rep_mem _ _ Hrd _ _ Hn) as [i Hi].
  apply Permutation_inj in Hp as [_ (f & Hf & Hfl)].
  assert (f 0%nat = f (S i)) as E%Hf; [|done].
  eapply (rep_inj s xs); [done|by rewrite <- Hfl..|done].
Qed.

(** [heap_insert] on a well-formed heap never aborts, keeps the heap
    well-formed (heap order, every node's [id] equal to its index, no
    dangling or leaked node) and adds exactly the new node, keyed with the
    policy's key function at the current age, at the address the allocator
    returned. *)
Theorem heap_insert_correct s xs l dat :
  heap_ok s xs -> 0 < size (hp s) -> Z.of_nat (length xs) < max_nodes -> mem s !! l = None ->
  kok (heap_gen_key (hp s) dat) ->
  exists s' xs', heap_insert s l dat = Some (s', l) /\ heap_ok s' xs' /\
    xs' ≡ₚ (l, heap_gen_key (hp s) dat, dat) :: xs.
Proof.
  intros Hok Hs Hn Hl Hk.
  destruct (heap_insert_rep s xs l dat Hok Hs Hn Hl Hk) as (s' & xs' & ? & ? & ? & _). eauto.
Qed.

(** [heap_delete] of any node of a well-formed heap, given only its
    address, returns the node's data, frees exactly that node and leaves a
    well-formed heap with all the others. *)
Theorem heap_delete_correct s xs x :
  heap_ok s xs -> x ∈ xs ->
  exists s' xs', heap_delete s (eloc x) = Some (s', edat x) /\ heap_ok s' xs' /\ x :: xs' ≡ₚ xs.
Proof.
  intros Hok Hx. destruct (heap_delete_rep s xs x Hok Hx) as (s' & xs' & ? & ? & ? & _). eauto.
Qed.

(** [heap_extractmin] returns NULL on an empty heap and otherwise
    removes and returns a node whose key is no larger than any other key;
    [heap_peepminkey] announces that key. *)
Theorem heap_extractmin_correct s xs :
  heap_ok s xs ->
  match xs with
  | [] => heap_extractmin s = Some (s, None)
  | _ => exists s' xs' x, heap_extractmin s = Some (s', Some (edat x)) /\ heap_ok s' xs' /\
      x :: xs' ≡ₚ xs /\ heap_peepminkey s = Some (ekey x) /\
      forall y, y ∈ xs -> kle (ekey x) (ekey y) = true
  end.
Proof.
  intros Hok. destruct xs as [|x0 xs].
  - destruct Hok as (Hr & _). unfold heap_extractmin. rewrite (rep_last _ _ Hr). done.
  - destruct (heap_extractmin_rep s (x0 :: xs) Hok) as (s' & xs' & x & ? & ? & ? & ? & ? & _); [done|].
    exists s', xs', x. done.
Qed.

(** [heap_update] has, on the contents of the heap, the effect its
    comment promises: that of [heap_delete] followed by [heap_insert] of the
    new data at the same node, returning the replaced data. *)
Theorem heap_update_delete_insert s xs l k d dat :
  heap_ok s xs -> 0 < size (hp s) -> (l, k, d) ∈ xs -> kok (heap_gen_key (hp s) dat) ->
  exists su xu sd si xi,
    heap_update s l dat = Some (su, d) /\ heap_ok su xu /\
    heap_delete s l = Some (sd, d) /\ heap_insert sd l dat = Some (si, l) /\ heap_ok si xi /\
    xu ≡ₚ xi.
Proof.
  intros Hok Hs Hx Hk.
  destruct (heap_update_rep s xs l k d dat Hok Hx Hk) as (su & xu & ys & Hu & Hou & Hpd & Hpu & _).
  destruct (heap_delete_rep s xs (l, k, d) Hok Hx) as (sd & xd & Hd & Hod & Hpx & Hsz & Hag & Hgk).
  assert (xd ≡ₚ ys) as Hpy by (eapply (Permutation_cons_inv (a := (l, k, d))); by rewrite Hpx, Hpd).
  pose proof (rep_removed_free s xs sd xd (l, k, d) (proj1 Hok) (proj1 Hod) Hpx) as Hfree.
  assert (Hgen : heap_gen_key (hp sd) dat = heap_gen_key (hp s) dat)
    by (unfold heap_gen_key; by rewrite Hag, Hgk).
  destruct (heap_insert_rep sd xd l dat) as (si & xi & Hi & Hoi & Hpi & _); try done.
  { by rewrite Hsz. }
  { destruct Hok as (Hr & _). pose proof (rep_bound _ _ Hr). pose proof (rep_last _ _ Hr).
    apply Permutation_length in Hpx; cbn in Hpx. lia. }
  { by rewrite Hgen. }
  exists su, xu, sd, si, xi. split_and!; try done. by rewrite Hpu, Hpi, Hpy, Hgen.
Qed.

(** The self-check [verify_heap_property] terminates without an invalid
    access on any represented heap and answers true exactly when the heap
    order holds. *)
Theorem verify_heap_property_correct s xs :
  heap_rep s xs -> Forall (fun x => kok (ekey x)) xs ->
  exists b, verify_heap_property s = Some b /\ (b = true <-> ordered xs).
Proof.
  intros Hr Hk. unfold verify_heap_property. rewrite (rep_last _ _ Hr), Nat2Z.id.
  destruct (verify_loop_spec (length xs) s xs 0 Hr Hk) as (b & Hb & Hiff).
  { pose proof (Nat.Div0.div_le_upper_bound (length xs) 2 (length xs)). lia. }
  exists b. split; [done|]. rewrite Hiff. unfold ordered. split; intros Hall j Hj; [apply Hall; lia|].
  intros _. by apply Hall.
Qed.

(** A freshly created heap is well-formed and empty. *)
Lemma new_heap_ok n (gk : D -> K -> K) : heap_ok (mk_st (new_heap n gk) ∅) [].
Proof.
  split_and!; [|intros j Hj x p Hx; done|constructor].
  unfold new_heap, MinSize. constructor; cbn; rewrite ?length_replicate; try done.
  - destruct (n <=? 0) eqn:E; zify_bools; lia.
  - destruct (n <=? 0) eqn:E; zify_bools; lia.
Qed.
End proofs.
End Heap.

(** ** The key type of the program: doubles without NaN *)

#[global] Instance dbl_heap_key : HeapKey dbl := {|
  kle := SFleb; klt := SFltb; kzero := dbl_of_Z 0; kok := fun x => dbl_nan x = false
|}.

(** The order of non-NaN doubles is the lexicographic order of this rank. *)
Definition dbl_rank (x : dbl) : Z * Z * Z :=
  match x with
  | S754_zero _ | S754_nan => (0, 0, 0)
  | S754_infinity s => (if s then -2 else 2, 0, 0)
  | S754_finite false m e => (1, e, Z.pos m)
  | S754_finite true m e => (-1, - e, Z.neg m)
  end.

Definition rank_le (a b : Z * Z * Z) : Prop :=
  a.1.1 < b.1.1 \/ (a.1.1 = b.1.1 /\ (a.1.2 < b.1.2 \/ (a.1.2 = b.1.2 /\ a.2 <= b.2))).

Lemma SFleb_rank a b :
  dbl_nan a = false -> dbl_nan b = false -> SFleb a b = true <-> rank_le (dbl_rank a) (dbl_rank b).
Proof.
  unfold SFleb, SFcompare, rank_le. intros Ha Hb.
  destruct a as [[]|[]| |[] m e], b as [[]|[]| |[] m' e']; try done; cbn;
    try (split; [intros _; lia|done]); try (split; [done|lia]).
  - destruct (Z.compare_spec e e'); try (split; [done|lia]); try (split; [intros _; lia|done]).
    change (PosDef.Pos.compare_cont Eq m m') with (Pos.compare m m').
    destruct (Pos.compare_spec m m'); cbn; split; try done; lia.
  - destruct (Z.compare_spec e e'); try (split; [done|lia]); try (split; [intros _; lia|done]).
    change (PosDef.Pos.compare_cont Eq m m') with (Pos.compare m m').
    destruct (Pos.compare_spec m m'); cbn; split; try done; lia.
Qed.

Lemma SFltb_SFleb a b : dbl_nan a = false -> dbl_nan b = false -> SFltb a b = negb (SFleb b a).
Proof.
  unfold SFltb, SFleb, SFcompare. intros Ha Hb.
  destruct a as [[]|[]| |[] m e], b as [[]|[]| |[] m' e']; try done; cbn.
  all: change (PosDef.Pos.compare_cont Eq m m') with (Pos.compare m m').
  all: change (PosDef.Pos.compare_cont Eq m' m) with (Pos.compare m' m).
  all: rewrite (Z.compare_antisym e e'), (Pos.compare_antisym m m').
  all: destruct (e ?= e'); cbn; try done; by destruct (Pos.compare m m').
Qed.

#[global] Instance dbl_heap_key_laws : HeapKeyLaws dbl.
Proof.
  split; cbn.
  - intros a b Ha Hb. rewrite !SFleb_rank by done. unfold rank_le. lia.
  - intros a b c Ha Hb Hc. rewrite !SFleb_rank by done. unfold rank_le. lia.
  - apply SFltb_SFleb.
Qed.

(** ** Witnesses: a heap of three nodes keyed by their data *)

Module HeapWitness.
Import Heap.

Definition keyfn (d : Z) (_ : dbl) : dbl := dbl_of_Z d.
Definition x1 : elem dbl Z := (1%positive, dbl_of_Z 3, 3).
Definition x2 : elem dbl Z := (2%positive, dbl_of_Z 7, 7).
Definition x3 : elem dbl Z := (3%positive, dbl_of_Z 5, 5).

Definition s0 : st dbl Z := mk_st (new_heap 2 keyfn) ∅.
Definition s3 : st dbl Z :=
  mk_st (mk_heap 4 3 keyfn kzero [Some 1; Some 2; Some 3; None]%positive)
    {[ 1%positive := mk_node (dbl_of_Z 3) 0 3; 2%positive := mk_node (dbl_of_Z 7) 1 7;
       3%positive := mk_node (dbl_of_Z 5) 2 5 ]}.

(** Three insertions into the empty heap produce [s3], the second of them
    reallocating the array. *)
Example build_s3 :
  (let? (s, _) := heap_insert s0 1%positive 3 in
   let? (s, _) := heap_insert s 2%positive 7 in
   let? (s, _) := heap_insert s 3%positive 5 in Some (nodes (hp s), size (hp s), mem s))
  = Some (nodes (hp s3), size (hp s3), mem s3).
Proof. vm_compute. reflexivity. Qed.

Lemma s3_ok : heap_ok s3 [x1; x2; x3].
Proof.
  split_and!.
  - constructor; try done.
    + intros i l k d. destruct i as [|[|[|i]]]; [intros [= <- <- <-]; done..|done].
    + intros l n Hn. cbn in Hn.
      repeat (apply lookup_insert_Some in Hn as [[<- <-]|[_ Hn]]; [(by exists 0%nat) || (by exists 1%nat)|]).
      apply lookup_singleton_Some in Hn as [<- <-]. by exists 2%nat.
  - intros j Hj x p Hx Hp. destruct j as [|[|[|j]]]; [lia| | |done];
      injection Hx as <-; injection Hp as <-; done.
  - by repeat constructor.
Qed.

Lemma heap_insert_witness :
  heap_ok s0 [] /\ exists s' xs', heap_insert s0 1%positive 3 = Some (s', 1%positive) /\
    heap_ok s' xs' /\ xs' ≡ₚ [x1].
Proof.
  split; [apply new_heap_ok|].
  apply (heap_insert_correct s0 [] 1%positive 3); [apply new_heap_ok|done|done|done|done].
Defined.

Lemma heap_delete_witness :
  heap_ok s3 [x1; x2; x3] /\
  exists s' xs', heap_delete s3 1%positive = Some (s', 3) /\ heap_ok s' xs' /\ x1 :: xs' ≡ₚ [x1; x2; x3].
Proof.
  split; [apply s3_ok|]. apply (heap_delete_correct s3 [x1; x2; x3] x1); [apply s3_ok|by left].
Defined.

Lemma heap_extractmin_witness :
  exists s' xs' x, heap_extractmin s3 = Some (s', Some (edat x)) /\ heap_ok s' xs' /\
    x :: xs' ≡ₚ [x1; x2; x3] /\ heap_peepminkey s3 = Some (ekey x) /\
    forall y, y ∈ [x1; x2; x3] -> kle (ekey x) (ekey y) = true.
Proof. apply (heap_extractmin_correct s3 [x1; x2; x3]). apply s3_ok. Defined.

Lemma heap_update_witness :
  exists su xu sd si xi,
    heap_update s3 2%positive 1 = Some (su, 7) /\ heap_ok su xu /\
    heap_delete s3 2%positive = Some (sd, 7) /\ heap_insert sd 2%positive 1 = Some (si, 2%positive) /\
    heap_ok si xi /\ xu ≡ₚ xi.
Proof.
  apply (heap_update_delete_insert s3 [x1; x2; x3] 2%positive (dbl_of_Z 7) 7 1);
    [apply s3_ok|done|by right; left|done].
Defined.

Lemma verify_heap_property_witness :
  exists b, verify_heap_property s3 = Some b /\ (b = true <-> ordered [x1; x2; x3]).
Proof.
  apply (verify_heap_property_correct s3 [x1; x2; x3]); [apply s3_ok|by repeat constructor].
Defined.
End HeapWitness.
