(* ===== verification/CStr.v ===== *)
(** * C strings and the parts of the C library the parsers use

    A NUL-terminated string is the list of its bytes without the NUL; a
    pointer into it is the suffix that starts there, so that [p - q] is a
    difference of lengths and [*p] on the empty suffix is the NUL. *)

From Stdlib Require Import ZArith Lia Ascii String.
From stdpp Require Import base strings list numbers option.
From S2P Require Import Prelude.

Abbreviation bytes := (list Z).

(** Bytes of a literal. *)
Fixpoint str (s : string) : bytes :=
  match s with
  | EmptyString => []
  | String c s => Z.of_N (N_of_ascii c) :: str s
  end.

Definition is_byte (c : Z) : Prop := 0 <= c < 256.

(** ** Character classes (ISO C, "C" locale) *)

Definition isspace (c : Z) : bool := (c =? 32) || ((9 <=? c) && (c <=? 13)).
Definition isdigit (c : Z) : bool := (48 <=? c) && (c <=? 57).
Definition tolower (c : Z) : Z := if (65 <=? c) && (c <=? 90) then c + 32 else c.
Definition toupper (c : Z) : Z := if (97 <=? c) && (c <=? 122) then c - 32 else c.

(** ** Bytes of integers (little-endian) *)

Fixpoint le_val (l : bytes) : Z :=
  match l with [] => 0 | b :: l => b + 256 * le_val l end.

Fixpoint le_bytes (n : nat) (z : Z) : bytes :=
  match n with O => [] | S n => z `mod` 256 :: le_bytes n (z / 256) end.

(** ** Reading *)

(** [*p]: the first byte, or the terminating NUL. *)
Definition deref (p : bytes) : Z := hd 0 p.

Fixpoint span (f : Z -> bool) (p : bytes) : nat :=
  match p with
  | [] => 0
  | c :: p => if f c then S (span f p) else 0
  end.

Definition mem_set (set : bytes) (c : Z) : bool := existsb (Z.eqb c) set.

Definition strspn (p set : bytes) : nat := span (mem_set set) p.
Definition strcspn (p set : bytes) : nat := span (fun c => negb (mem_set set c)) p.

(** The suffix at the first occurrence of [c]. *)
Fixpoint strchr (p : bytes) (c : Z) : option bytes :=
  match p with
  | [] => None
  | d :: p' => if d =? c then Some p else strchr p' c
  end.

(** [memchr(p, c, n)] for [n] within the string. *)
Definition memchr (p : bytes) (c : Z) (n : nat) : option nat :=
  let k := span (fun d => negb (d =? c)) (take n p) in
  if (k <? length (take n p))%nat then Some k else None.

(** [strncasecmp(a, b, n) == 0]: the first [n] bytes agree up to case, a NUL
    ending the comparison. *)
Fixpoint strncaseeq (a b : bytes) (n : nat) {struct n} : bool :=
  match n with
  | O => true
  | S n =>
      match a, b with
      | [], [] => true
      | x :: a, y :: b => (tolower x =? tolower y) && strncaseeq a b n
      | _, _ => false
      end
  end.

(** ** Numbers *)

(** The value of the leading digits. *)
Fixpoint digits (acc : Z) (p : bytes) : Z :=
  match p with
  | c :: p => if isdigit c then digits (10 * acc + (c - 48)) p else acc
  | [] => acc
  end.

Record strtol_result := mk_strtol {
  st_val : Z;       (** the value, saturated when out of range *)
  st_len : nat;     (** number of bytes consumed: 0 when there is no number *)
  st_erange : bool  (** [errno] set to [ERANGE] *)
}.

(** [strtol]/[strtoll] in base 10 with a 64-bit result: white space, an
    optional sign, digits. *)
Definition strtol (p : bytes) : strtol_result :=
  let w := span isspace p in
  let p1 := drop w p in
  let neg := deref p1 =? 45 in
  let sgn := (neg || (deref p1 =? 43)) in
  let p2 := if sgn then drop 1 p1 else p1 in
  let d := span isdigit p2 in
  if (d =? 0)%nat then mk_strtol 0 0 false
  else
    let v := (if neg then - digits 0 p2 else digits 0 p2) in
    let n := (w + (if sgn then 1 else 0) + d)%nat in
    if v <? - 2 ^ 63 then mk_strtol (- 2 ^ 63) n true
    else if 2 ^ 63 - 1 <? v then mk_strtol (2 ^ 63 - 1) n true
    else mk_strtol v n false.

(** [atoi]: the conversion of [strtol]'s result to [int]. *)
Definition atoi (p : bytes) : Z := wrap_s 32 (st_val (strtol p)).

(** ** Lemmas *)

Lemma span_le f p : (span f p <= length p)%nat.
Proof. induction p as [|c p IH]; cbn; [lia|]. destruct (f c); cbn; lia. Qed.

Lemma span_drop f p c p' : drop (span f p) p = c :: p' -> f c = false.
Proof.
  induction p as [|d p IH]; cbn; [done|]. destruct (f d) eqn:E; cbn; [done|].
  intros [= <- <-]. done.
Qed.

Lemma span_take f p : Forall (fun c => f c = true) (take (span f p) p).
Proof. induction p as [|c p IH]; cbn; [constructor|]. destruct (f c) eqn:E; cbn; [by constructor|constructor]. Qed.

Lemma span_app f p q : Forall (fun c => f c = true) p -> span f (p ++ q) = (length p + span f q)%nat.
Proof. induction 1 as [|c p Hc _ IH]; cbn; [done|]. by rewrite Hc, IH. Qed.

Lemma span_stop f c p : f c = false -> span f (c :: p) = 0%nat.
Proof. intros Hf. cbn. by rewrite Hf. Qed.

Lemma strchr_suffix p c q : strchr p c = Some q -> exists r, p = r ++ q /\ deref q = c.
Proof.
  induction p as [|d p IH]; cbn; [done|]. destruct (d =? c) eqn:E; zify_bools.
  - intros [= <-]. exists []. by subst.
  - intros (r & -> & ?)%IH. by exists (d :: r).
Qed.

Lemma digits_nonneg p acc : 0 <= acc -> 0 <= digits acc p.
Proof.
  revert acc. induction p as [|c p IH]; cbn; intros acc Ha; [done|].
  destruct (isdigit c) eqn:E; [|done]. unfold isdigit in E. zify_bools. apply IH. lia.
Qed.

(** A 64-bit result, whatever the text. *)
Lemma strtol_range p : - 2 ^ 63 <= st_val (strtol p) < 2 ^ 63.
Proof.
  unfold strtol. repeat case_match; cbn [st_val]; zify_bools; lia.
Qed.

(** Decimal digits without sign denote a non-negative number. *)
Lemma strtol_nonneg p : isdigit (deref p) = true -> 0 <= st_val (strtol p).
Proof.
  destruct p as [|c p]; [done|]. cbn [deref hd]. intros Hc.
  assert (isspace c = false /\ c <> 45 /\ c <> 43) as (Hs & Hm & Hp).
  { unfold isdigit, isspace in *. zify_bools. split; [|lia].
    apply orb_false_iff; split; [lia|]. apply andb_false_iff. lia. }
  unfold strtol. rewrite span_stop by done. rewrite drop_0. cbn [deref hd].
  rewrite (proj2 (Z.eqb_neq c 45)), (proj2 (Z.eqb_neq c 43)) by done. cbn [orb].
  pose proof (digits_nonneg (c :: p) 0 ltac:(lia)).
  repeat case_match; cbn [st_val]; zify_bools; lia.
Qed.

(** ** Decimal printing *)

(** What [%d] prints for a non-negative number. *)
Fixpoint dec_aux (fuel : nat) (n : Z) (tl : bytes) : bytes :=
  match fuel with
  | O => tl
  | S fuel =>
      let tl := (48 + n `mod` 10) :: tl in
      if n <? 10 then tl else dec_aux fuel (n / 10) tl
  end.

Definition dec (n : Z) : bytes := dec_aux 20 n [].
Arguments dec : simpl never.

Definition not_digit_head (p : bytes) : Prop := isdigit (deref p) = false.

Lemma digits_app acc l r :
  Forall (fun c => isdigit c = true) l ->
  digits acc (l ++ r) = digits (digits acc l) r.
Proof.
  intros Hl. revert acc. induction Hl as [|c l Hc _ IH]; intros acc; cbn; [done|]. by rewrite Hc.
Qed.

Lemma digits_stop acc r : not_digit_head r -> digits acc r = acc.
Proof. unfold not_digit_head. destruct r as [|c r]; cbn; [done|]. by intros ->. Qed.

Lemma isdigit_mod n : isdigit (48 + n `mod` 10) = true.
Proof.
  pose proof (Z.mod_pos_bound n 10 ltac:(lia)). unfold isdigit. apply andb_true_iff. lia.
Qed.

Lemma dec_aux_spec fuel n tl :
  0 <= n < 10 ^ Z.of_nat fuel -> (0 < fuel)%nat ->
  exists l, dec_aux fuel n tl = l ++ tl /\ l <> [] /\ Forall (fun c => isdigit c = true) l /\
            digits 0 l = n.
Proof.
  revert n tl. induction fuel as [|fuel IH]; intros n tl Hn Hf; [lia|]. cbn [dec_aux].
  destruct (n <? 10) eqn:E; zify_bools.
  - exists [48 + n `mod` 10]. split_and!; [done|done| |].
    + repeat constructor. apply isdigit_mod.
    + cbn [digits]. rewrite isdigit_mod, Z.mod_small by lia. lia.
  - destruct fuel as [|fuel]; [cbn in Hn; lia|].
    assert (0 <= n / 10 < 10 ^ Z.of_nat (S fuel)) as Hd.
    { split; [apply Z.div_pos; lia|]. apply Z.div_lt_upper_bound; [lia|].
      rewrite <- Z.pow_succ_r, <- Nat2Z.inj_succ by lia. lia. }
    destruct (IH (n / 10) ((48 + n `mod` 10) :: tl) Hd ltac:(lia)) as (l & -> & Hne & Hdig & Hval).
    exists (l ++ [48 + n `mod` 10]). split_and!.
    + by rewrite <- app_assoc.
    + by destruct l.
    + apply Forall_app. split; [done|]. repeat constructor. apply isdigit_mod.
    + rewrite digits_app, Hval by done. cbn [digits]. rewrite isdigit_mod.
      pose proof (Z.div_mod n 10 ltac:(lia)). lia.
Qed.

Lemma dec_spec n :
  0 <= n < 10 ^ 20 ->
  dec n <> [] /\ Forall (fun c => isdigit c = true) (dec n) /\ digits 0 (dec n) = n.
Proof.
  intros Hn. destruct (dec_aux_spec 20 n [] Hn ltac:(lia)) as (l & Hl & ? & ? & ?).
  unfold dec. rewrite Hl, app_nil_r. done.
Qed.

(** [strtol] of digits stops after them. *)
Lemma strtol_digits l r :
  l <> [] -> Forall (fun c => isdigit c = true) l -> digits 0 l < 2 ^ 63 -> not_digit_head r ->
  strtol (l ++ r) = mk_strtol (digits 0 l) (length l) false.
Proof.
  intros Hne Hd Hn Hr. pose proof (digits_nonneg l 0 ltac:(lia)) as Hpos.
  unfold strtol. destruct l as [|c l]; [done|]. inversion Hd as [|? ? Hc Hd']; subst.
  assert (isspace c = false /\ c <> 45 /\ c <> 43) as (Hs & Hm & Hp).
  { unfold isdigit, isspace in *. zify_bools. split; [|lia].
    apply orb_false_iff; split; [lia|]. apply andb_false_iff. lia. }
  cbn [app]. rewrite span_stop by done. rewrite drop_0. cbn [deref hd].
  rewrite (proj2 (Z.eqb_neq c 45)), (proj2 (Z.eqb_neq c 43)) by done. cbn [orb].
  change (c :: l ++ r) with ((c :: l) ++ r).
  rewrite span_app, digits_app by done. rewrite digits_stop by done.
  assert (span isdigit r = 0%nat) as ->.
  { unfold not_digit_head in Hr. destruct r; [done|]. by apply span_stop. }
  cbn [length Nat.add Nat.eqb]. rewrite (proj2 (Z.ltb_ge _ _)), (proj2 (Z.ltb_ge _ _)) by lia.
  f_equal. lia.
Qed.

(** [strtol] reads back what was printed and stops after it. *)
Lemma strtol_dec n r :
  0 <= n < 2 ^ 63 -> not_digit_head r ->
  strtol (dec n ++ r) = mk_strtol n (length (dec n)) false.
Proof.
  intros Hn Hr. destruct (dec_spec n ltac:(lia)) as (Hne & Hd & Hv).
  rewrite strtol_digits by (done || lia). by rewrite Hv.
Qed.

Lemma dec_head n : 0 <= n < 10 ^ 20 -> isdigit (deref (dec n)) = true.
Proof. intros Hn. destruct (dec_spec n Hn) as (Hne & Hd & _). destruct (dec n); [done|]. by inversion Hd. Qed.

Lemma length_le_bytes n z : length (le_bytes n z) = n.
Proof. revert z. induction n as [|n IH]; intros z; cbn; [done|]. by rewrite IH. Qed.

Lemma le_val_bytes n z : le_val (le_bytes n z) = z `mod` 256 ^ Z.of_nat n.
Proof.
  revert z. induction n as [|n IH]; intros z; cbn [le_bytes le_val].
  - cbn. by rewrite Z.mod_1_r.
  - rewrite IH, Nat2Z.inj_succ, Z.pow_succ_r by lia.
    rewrite Z.rem_mul_r by (try apply Z.pow_pos_nonneg; lia). lia.
Qed.
