(* ===== verification/StrList.v ===== *)
(** * Strings and comma-separated lists: libmem/MemStr.c, libmem/String.c,
      libmem/StrList.c

    [SqString] models the counted [String] of the program over its allocated
    buffer, so that a write outside the buffer is visible ([None]), and shows
    that appending refines list concatenation.  [StrList] models the iteration over
    HTTP list values and shows that it agrees with a character-by-character
    scanner. *)

From Stdlib Require Import ZArith Lia Ascii String.
From stdpp Require Import base strings list sets numbers option.
From S2P Require Import Prelude CStr.

(** ** Buffers *)

(** [poke b i c] is [b[i] = c], undefined outside the allocation. *)
Definition poke (b : bytes) (i : nat) (c : Z) : option bytes :=
  assert? (i <? length b)%nat in Some (<[i := c]> b).

(** [memcpy_at b i src] copies all of [src] to [b + i]. *)
Definition memcpy_at (b : bytes) (i : nat) (src : bytes) : option bytes :=
  assert? (i + length src <=? length b)%nat in
  Some (take i b ++ src ++ drop (i + length src) b).

(** [strlen] of a buffer that holds a NUL. *)
Definition strlen_buf (b : bytes) : option nat :=
  let n := span (fun c => negb (c =? 0)) b in
  assert? (n <? length b)%nat in Some n.

(** Bytes up to the first NUL. *)
Definition cstr_of (b : bytes) : bytes := take (span (fun c => negb (c =? 0)) b) b.

(** [strncat(b, str, n)]. *)
Definition strncat (b str : bytes) (n : nat) : option bytes :=
  let? k := strlen_buf b in
  let src := cstr_of (take n str) in
  let? b' := memcpy_at b k src in
  poke b' (k + length src) 0.

Definition no_nul (p : bytes) : Prop := Forall (fun c => c <> 0) p.

#[export] Instance no_nul_dec p : Decision (no_nul p).
Proof. unfold no_nul. apply _. Defined.

Module SqString.
Section string.
(** What an uninitialised allocation holds. *)
Context (junk : nat -> Z).

Definition StrPoolsAttrs : list Z := [36; 128; 512].

(** The gross size of an allocation of [net_size] bytes: that of the
    smallest pool that fits, or the exact size. *)
Definition memAllocString (net_size : Z) : bytes * Z :=
  let gross := default net_size (List.find (fun sz => net_size <=? sz) StrPoolsAttrs) in
  (map junk (seq 0 (Z.to_nat gross)), gross).

(** [memFreeString]: only its assertions are observable. *)
Definition memFreeString (size : Z) : option unit :=
  assert? negb (size =? 0) in
  match List.find (fun sz => size <=? sz) StrPoolsAttrs with
  | Some sz => assert? size =? sz in Some tt
  | None => Some tt
  end.

(** [struct _String]: [size] and [len] are 16-bit. *)
Record String := mkString { size : Z; len : Z; buf : option bytes }.

Definition StringNull : String := mkString 0 0 None.

Definition stringInitBuf (s : String) (sz : Z) : option String :=
  let (b, sz) := memAllocString sz in
  assert? sz <? 65536 in Some (mkString sz (len s) (Some b)).

(** [stringLimitInit]: [str] is the source, whose first [n] bytes are copied. *)
Definition stringLimitInit (str : bytes) (n : Z) : option String :=
  let? s := stringInitBuf StringNull (n + 1) in
  let? b := buf s in
  assert? (Z.to_nat n <=? length str)%nat in
  let? b := memcpy_at b 0 (take (Z.to_nat n) str) in
  let? b := poke b (Z.to_nat n) 0 in
  Some (mkString (size s) (wrap_u 16 n) (Some b)).

Definition stringInit (str : option bytes) : option String :=
  match str with
  | Some str => stringLimitInit str (Z.of_nat (length str))
  | None => Some StringNull
  end.

Definition stringDup (s : String) : option String :=
  let? b := buf s in stringLimitInit b (len s).

Definition stringClean (s : String) : option String :=
  match buf s with
  | Some _ => let? _ := memFreeString (size s) in Some StringNull
  | None => Some StringNull
  end.

Definition stringReset (s : String) (str : option bytes) : option String :=
  let? _ := stringClean s in stringInit str.

Definition stringAppend (s : String) (str : bytes) (n : Z) : option String :=
  assert? 0 <=? n in
  if len s + n <? size s then
    let? b := buf s in
    let? b := strncat b str (Z.to_nat n) in
    Some (mkString (size s) (wrap_u 16 (len s + n)) (Some b))
  else
    let? snew := stringInitBuf (mkString 0 (wrap_u 16 (len s + n)) None)
                               (wrap_u 16 (len s + n) + 1) in
    let? b := buf snew in
    let? b := match buf s with
              | Some ob => memcpy_at b 0 (take (Z.to_nat (len s)) ob)
              | None => Some b
              end in
    assert? (Z.to_nat n <=? length str)%nat in
    let? b := if n =? 0 then Some b
              else memcpy_at b (Z.to_nat (len s)) (take (Z.to_nat n) str) in
    let? b := poke b (Z.to_nat (len snew)) 0 in
    let? _ := stringClean s in
    Some (mkString (size snew) (len snew) (Some b)).

(** [strChr]: the offset of the first [ch], or -1. *)
Fixpoint strChr_loop (b : bytes) (n : nat) (i : Z) (ch : Z) : Z :=
  match n, b with
  | S n, c :: b => if c =? ch then i else strChr_loop b n (i + 1) ch
  | _, _ => -1
  end.

Definition strChr (s : String) (ch : Z) : Z :=
  strChr_loop (default [] (buf s)) (Z.to_nat (len s)) 0 ch.

(** [strRChr]: the loop [for (i = len - 1; i <= 0; i--)], reading [buf[i]];
    a negative index is outside the buffer. *)
Definition strRChr (s : String) (ch : Z) : option Z :=
  let i := len s - 1 in
  if i <=? 0 then
    assert? 0 <=? i in
    let? b := buf s in
    let? c := b !! Z.to_nat i in
    if c =? ch then Some i else None
  else Some (-1).

Definition strCut (s : String) (offset : Z) : option String :=
  if len s <=? offset then Some s
  else
    assert? 0 <=? offset in
    let? b := buf s in
    let? b := poke b (Z.to_nat offset) 0 in
    Some (mkString (size s) (wrap_u 16 offset) (Some b)).

(** Copies to a fresh C string; the result is the allocated object. *)
Definition stringDupToCOffset (s : String) (offset : Z) : option (option bytes) :=
  match buf s with
  | None => Some None
  | Some b =>
      assert? offset <=? len s in
      let d := map junk (seq 0 (Z.to_nat (len s + 1 - offset))) in
      let? d := memcpy_at d 0 (take (Z.to_nat (len s - offset)) (drop (Z.to_nat offset) b)) in
      let? d := poke d (Z.to_nat (len s - offset)) 0 in
      Some (Some d)
  end.

Definition stringDupToC (s : String) : option (option bytes) := stringDupToCOffset s 0.

Definition stringDupSubstrToC (s : String) (n : Z) : option (option bytes) :=
  let l := Z.min n (len s) in
  match buf s with
  | None => Some None
  | Some b =>
      assert? n <=? len s in
      assert? (Z.to_nat (l + 1) <=? length b)%nat in
      let d := map junk (seq 0 (Z.to_nat (l + 1))) in
      let? d := memcpy_at d 0 (take (Z.to_nat (l + 1)) b) in
      let? d := poke d (Z.to_nat l) 0 in
      Some (Some d)
  end.

Definition stringDupToCRange (s : String) (start end_ : Z) : option (option bytes) :=
  match buf s with
  | None => Some None
  | Some b =>
      if (end_ <? start) || (len s <=? start) then Some None
      else
        assert? end_ <? len s in
        let d := map junk (seq 0 (Z.to_nat (end_ + 1 - start))) in
        let? d := memcpy_at d 0 (take (Z.to_nat (end_ - start + 1)) (drop (Z.to_nat start) b)) in
        let? d := poke d (Z.to_nat (end_ - start + 1)) 0 in
        Some (Some d)
  end.

(** ** Invariant and view *)

Definition pool_sized (sz : Z) : Prop := sz ∈ StrPoolsAttrs \/ 512 < sz < 65536.

Definition string_ok (s : String) : Prop :=
  match buf s with
  | None => size s = 0 /\ len s = 0
  | Some b =>
      Z.of_nat (length b) = size s /\ 0 <= len s < size s /\ pool_sized (size s) /\
      b !! Z.to_nat (len s) = Some 0
  end.

(** The bytes the string holds. *)
Definition view (s : String) : bytes := take (Z.to_nat (len s)) (default [] (buf s)).

Lemma memAllocString_ok n b sz :
  0 < n -> memAllocString n = (b, sz) ->
  Z.of_nat (length b) = sz /\ n <= sz /\ (sz < 65536 -> pool_sized sz) /\ (n < 65536 -> sz < 65536).
Proof.
  intros Hn. unfold memAllocString, pool_sized, StrPoolsAttrs. cbn [List.find].
  destruct (n <=? 36) eqn:?; [|destruct (n <=? 128) eqn:?; [|destruct (n <=? 512) eqn:?]];
    zify_bools; cbn [default from_option id]; intros [<- <-]%pair_equal_spec; rewrite length_map, length_seq;
    split_and!; try lia; intros; first [right; lia | left; apply list_elem_of_In; cbn; tauto].
Qed.

Lemma pool_sized_lt sz : pool_sized sz -> 0 < sz < 65536.
Proof. unfold pool_sized, StrPoolsAttrs. rewrite list_elem_of_In. cbn. lia. Qed.

Lemma memFreeString_ok sz : pool_sized sz -> memFreeString sz = Some tt.
Proof.
  unfold pool_sized, memFreeString, StrPoolsAttrs. intros [H|H].
  - apply list_elem_of_In in H. cbn in H. by destruct H as [<-|[<-|[<-|[]]]].
  - assert ((sz =? 0) = false) as -> by lia. cbn [List.find negb].
    rewrite !(proj2 (Z.leb_gt _ _)) by lia. done.
Qed.

Lemma stringClean_ok s : string_ok s -> stringClean s = Some StringNull.
Proof.
  unfold string_ok, stringClean. destruct (buf s); [|done].
  intros (_ & _ & Hp & _). by rewrite memFreeString_ok.
Qed.

Lemma memcpy_at_app pre x y src :
  length x = length src -> memcpy_at (pre ++ x ++ y) (length pre) src = Some (pre ++ src ++ y).
Proof.
  intros Hl. unfold memcpy_at. rewrite (proj2 (Nat.leb_le _ _)) by (rewrite !length_app; lia).
  rewrite take_app_length. do 3 f_equal.
  rewrite app_assoc, <- Hl, <- length_app. apply drop_app_length.
Qed.

Lemma poke_app pre c y d : poke (pre ++ c :: y) (length pre) d = Some (pre ++ d :: y).
Proof.
  unfold poke. rewrite (proj2 (Nat.ltb_lt _ _)) by (rewrite length_app; cbn; lia).
  by rewrite insert_app_r_alt, Nat.sub_diag by lia.
Qed.

Lemma no_nul_true p : no_nul p -> Forall (fun c => negb (c =? 0) = true) p.
Proof. induction 1; constructor; [|done]. by apply negb_true_iff, Z.eqb_neq. Qed.

Lemma cstr_of_no_nul p : no_nul p -> cstr_of p = p.
Proof.
  intros Hp%no_nul_true. unfold cstr_of.
  assert (span (fun c => negb (c =? 0)) p = length p) as ->; [|apply firstn_all].
  rewrite <- (app_nil_r p) at 1. rewrite span_app by done. cbn. lia.
Qed.

Lemma span_nul p r : no_nul p -> span (fun c => negb (c =? 0)) (p ++ 0 :: r) = length p.
Proof.
  intros Hp. rewrite span_app by by apply no_nul_true. cbn. lia.
Qed.

(** The buffer of a well-formed string: its view, a NUL, and the rest. *)
Lemma string_ok_buf s b :
  string_ok s -> buf s = Some b ->
  exists r, b = view s ++ 0 :: r /\ Z.of_nat (length (view s)) = len s.
Proof.
  unfold string_ok, view. intros H Hb. rewrite Hb in *. cbn [default from_option id].
  destruct H as (H1 & H2 & _ & H3).
  exists (drop (S (Z.to_nat (len s))) b). split.
  - by rewrite take_drop_middle.
  - rewrite length_take. lia.
Qed.

Lemma view_len s : string_ok s -> Z.of_nat (length (view s)) = len s.
Proof.
  unfold string_ok, view. destruct (buf s); intros H; cbn; rewrite length_take; cbn; lia.
Qed.

Lemma mk_string_ok sz v r :
  pool_sized sz -> sz = Z.of_nat (length (v ++ 0 :: r)) ->
  let s := mkString sz (Z.of_nat (length v)) (Some (v ++ 0 :: r)) in
  string_ok s /\ view s = v.
Proof.
  intros Hp Hsz s. unfold string_ok, view, s. cbn. rewrite Nat2Z.id.
  rewrite length_app in Hsz. cbn in Hsz.
  split_and!; try done; try lia.
  - rewrite length_app; cbn; lia.
  - by rewrite list_lookup_middle.
  - by rewrite take_app_length.
Qed.

Lemma split_at3 {A} (b : list A) (n m : nat) :
  (n + m < length b)%nat ->
  exists x y c r, b = x ++ y ++ c :: r /\ length x = n /\ length y = m.
Proof.
  intros Hl. destruct (lookup_lt_is_Some_2 b (n + m)%nat) as [c Hc]; [lia|].
  exists (take n b), (take m (drop n b)), c, (drop (S (n + m)) b).
  rewrite !length_take, length_drop. split_and!; try lia.
  rewrite app_assoc, take_take_drop, take_drop_middle; done.
Qed.

(** [stringLimitInit] makes a string of the first [n] bytes. *)
Lemma stringLimitInit_ok str n :
  0 <= n < 65535 -> n <= Z.of_nat (length str) ->
  exists s, stringLimitInit str n = Some s /\ string_ok s /\ view s = take (Z.to_nat n) str.
Proof.
  intros Hn Hl. unfold stringLimitInit, stringInitBuf.
  destruct (memAllocString (n + 1)) as [b sz] eqn:E.
  apply memAllocString_ok in E as (Hb & Hsz & Hp & Hlt); [|lia].
  rewrite (proj2 (Z.ltb_lt sz 65536)) by lia. cbn [mbind option_bind buf len size].
  rewrite (proj2 (Nat.leb_le _ _)) by lia.
  destruct (split_at3 b 0 (Z.to_nat n)) as (x & y & c & r & -> & Hx & Hy); [lia|].
  destruct x; [|done]. cbn [app].
  assert (length (take (Z.to_nat n) str) = Z.to_nat n) as Ht by (rewrite length_take; lia).
  rewrite (memcpy_at_app [] y (c :: r)) by lia. cbn [mbind option_bind app].
  set (v := take (Z.to_nat n) str) in *. rewrite <- Ht, poke_app. bind_simpl.
  rewrite wrap_u_small by lia. replace n with (Z.of_nat (length v)) by lia.
  eexists. split; [done|]. apply mk_string_ok; [auto with lia|].
  cbn in Hb. rewrite length_app in Hb |- *. cbn in *. lia.
Qed.

(** The in-place case: [strncat] finds the end of the text at [len]. *)
Lemma stringAppend_inplace s str n :
  string_ok s -> no_nul (view s) -> no_nul (take (Z.to_nat n) str) ->
  0 <= n <= Z.of_nat (length str) -> len s + n < size s ->
  exists s', stringAppend s str n = Some s' /\ string_ok s' /\
             view s' = view s ++ take (Z.to_nat n) str.
Proof.
  intros Hok Hnv Hns Hn Hroom. unfold stringAppend.
  rewrite (proj2 (Z.leb_le _ _)), (proj2 (Z.ltb_lt _ _)) by lia.
  assert (length (take (Z.to_nat n) str) = Z.to_nat n) as Ht by (rewrite length_take; lia).
  pose proof (view_len s Hok) as Hvl.
  destruct (buf s) as [b|] eqn:Hb; [|exfalso; unfold string_ok in Hok; rewrite Hb in Hok; lia].
  destruct (string_ok_buf s b Hok Hb) as (r & Hbeq & _).
  unfold string_ok in Hok; rewrite Hb in Hok. destruct Hok as (Hbl & Hl & Hp & _).
  rewrite Hbeq in Hbl. rewrite length_app in Hbl. cbn in Hbl.
  bind_simpl. unfold strncat, strlen_buf. rewrite Hbeq, span_nul by done.
  rewrite (proj2 (Nat.ltb_lt _ _)) by (rewrite length_app; cbn; lia). bind_simpl.
  rewrite cstr_of_no_nul by done.
  destruct (split_at3 (0 :: r) 0 (Z.to_nat n)) as (x & y & c & r' & Hr & Hx & Hy); [cbn; lia|].
  destruct x; [|done]. rewrite Hr. cbn [app]. rewrite memcpy_at_app by lia. bind_simpl.
  rewrite app_assoc, <- length_app, poke_app. bind_simpl.
  pose proof (pool_sized_lt _ Hp).
  rewrite wrap_u_small by lia.
  replace (len s + n) with (Z.of_nat (length (view s ++ take (Z.to_nat n) str)))
    by (rewrite length_app; lia).
  eexists. split; [done|]. apply mk_string_ok; [done|].
  apply (f_equal length) in Hr. cbn in Hr. rewrite length_app in Hr. cbn in Hr.
  rewrite !length_app. cbn. lia.
Qed.

(** The reallocating case. *)
Lemma stringAppend_realloc s str n :
  string_ok s -> 0 <= n <= Z.of_nat (length str) -> size s <= len s + n < 65535 ->
  exists s', stringAppend s str n = Some s' /\ string_ok s' /\
             view s' = view s ++ take (Z.to_nat n) str.
Proof.
  intros Hok Hn Hfit. unfold stringAppend.
  rewrite (proj2 (Z.leb_le _ _)), (proj2 (Z.ltb_ge _ _)) by lia.
  assert (length (take (Z.to_nat n) str) = Z.to_nat n) as Ht by (rewrite length_take; lia).
  pose proof (view_len s Hok) as Hvl.
  assert (0 <= len s) by lia. rewrite !wrap_u_small by lia. unfold stringInitBuf.
  destruct (memAllocString (len s + n + 1)) as [b sz] eqn:E.
  apply memAllocString_ok in E as (Hbl & Hsz & Hp & Hlt); [|lia].
  rewrite (proj2 (Z.ltb_lt sz 65536)) by lia. cbn [mbind option_bind buf len size].
  destruct (split_at3 b (Z.to_nat (len s)) (Z.to_nat n)) as (x & y & c & r & -> & Hx & Hy); [lia|].
  assert (match buf s with Some ob => memcpy_at (x ++ y ++ c :: r) 0 (take (Z.to_nat (len s)) ob)
          | None => Some (x ++ y ++ c :: r) end = Some (view s ++ y ++ c :: r)) as ->.
  { unfold view in *. destruct (buf s) as [ob|]; cbn [default from_option id] in *.
    - apply (memcpy_at_app [] x (y ++ c :: r)). lia.
    - rewrite take_nil in *. cbn in Hvl. destruct x; [done|cbn in Hx; lia]. }
  bind_simpl. rewrite (proj2 (Nat.leb_le _ _)) by lia.
  assert ((if n =? 0 then Some (view s ++ y ++ c :: r)
           else memcpy_at (view s ++ y ++ c :: r) (Z.to_nat (len s)) (take (Z.to_nat n) str))
          = Some (view s ++ take (Z.to_nat n) str ++ c :: r)) as ->.
  { destruct (n =? 0) eqn:En; zify_bools.
    - subst n. destruct y; done.
    - replace (Z.to_nat (len s)) with (length (view s)) by lia. apply memcpy_at_app. lia. }
  bind_simpl.
  set (v := view s ++ take (Z.to_nat n) str).
  assert (length v = Z.to_nat (len s + n)) as Hv by (unfold v; rewrite length_app; lia).
  rewrite app_assoc, <- Hv, poke_app. bind_simpl. rewrite stringClean_ok by done.
  bind_simpl. replace (len s + n) with (Z.of_nat (length v)) by lia.
  eexists. split; [done|]. apply mk_string_ok; [auto with lia|].
  rewrite !length_app in *. cbn in *. lia.
Qed.

(** Appending to a well-formed string never writes outside the buffer and
    refines list concatenation, in place or by reallocation, as long as the
    result fits the 16-bit length. *)
Theorem stringAppend_refines_app s str n :
  string_ok s -> no_nul (view s) -> no_nul (take (Z.to_nat n) str) ->
  0 <= n <= Z.of_nat (length str) -> len s + n < 65535 ->
  exists s', stringAppend s str n = Some s' /\ string_ok s' /\
             view s' = view s ++ take (Z.to_nat n) str.
Proof.
  intros. destruct (decide (len s + n < size s)).
  - by apply stringAppend_inplace.
  - apply stringAppend_realloc; auto with lia.
Qed.

(** An append whose result reaches 64K never succeeds: at 65535 bytes the
    allocation assertion fails, and beyond it the 16-bit length wraps, the
    buffer is allocated for the wrapped length and the copy leaves it. *)
Theorem stringAppend_64k s str n :
  string_ok s -> n <= Z.of_nat (length str) -> 65535 <= len s + n ->
  stringAppend s str n = None.
Proof.
  intros Hok Hn Hbig. unfold stringAppend.
  destruct (0 <=? n) eqn:E0; [|done]. zify_bools.
  assert (size s < 65536 /\ 0 <= len s /\ len s <= size s) as (Hs & Hl0 & Hls).
  { unfold string_ok in Hok. destruct (buf s); [|lia]. destruct Hok as (_ & ? & Hp%pool_sized_lt & _). lia. }
  destruct (len s + n <? size s) eqn:E1; zify_bools; [lia|].
  unfold stringInitBuf.
  destruct (memAllocString (wrap_u 16 (len s + n) + 1)) as [b sz] eqn:E.
  assert (0 <= wrap_u 16 (len s + n)) by (apply wrap_u_range; lia).
  apply memAllocString_ok in E as (Hbl & Hsz & Hp & Hlt); [|lia].
  destruct (sz <? 65536) eqn:E2; [|done]. zify_bools. cbn [mbind option_bind buf len size].
  assert (n <> 0).
  { intros ->. rewrite wrap_u_small in Hsz by lia. lia. }
  destruct (match buf s with Some ob => memcpy_at b 0 (take (Z.to_nat (len s)) ob) | None => Some b end)
    as [b'|] eqn:E3; [|done]. bind_simpl.
  assert (length b' = length b) as Hb'.
  { destruct (buf s); [|by simplify_eq]. unfold memcpy_at in E3. inv_opt E3. zify_bools.
    injection E3 as <-. rewrite !length_app, length_drop. cbn in *. lia. }
  rewrite (proj2 (Nat.leb_le _ _)) by lia. rewrite (proj2 (Z.eqb_neq n 0)) by done.
  unfold memcpy_at at 1. rewrite (proj2 (Nat.leb_gt _ _)); [done|].
  rewrite length_take, Hb'. rewrite Nat.min_l by lia.
  enough (sz < len s + n) by lia.
  destruct (decide (len s + n = 65535)) as [Heq|]; [|lia].
  rewrite Heq, wrap_u_small in Hsz by lia. lia.
Qed.
End string.

(** A 60000-byte string and 6000 more bytes. *)
Lemma stringAppend_64k_witness :
  stringAppend (fun _ => 0) (mkString 60001 60000 (Some (repeat 120 (Z.to_nat 60000) ++ [0]))) (repeat 120 (Z.to_nat 6000)) 6000 = None.
Proof.
  apply stringAppend_64k.
  - unfold string_ok. cbn [buf len size].
    rewrite length_app, repeat_length. cbn [length]. split_and!; try lia.
    + right. lia.
    + rewrite lookup_app_r; rewrite repeat_length; [|lia]. by rewrite Nat.sub_diag.
  - rewrite repeat_length. lia.
  - cbn [len]. lia.
Defined.

(** A string of 40 bytes, appended to by reallocation. *)
Lemma stringAppend_witness :
  exists s', stringAppend (fun _ => 0) (mkString 36 3 (Some (str "abc" ++ repeat 0 33))) (repeat 120 37) 37 = Some s' /\
             string_ok s' /\ view s' = str "abc" ++ repeat 120 37.
Proof.
  apply (stringAppend_refines_app (fun _ => 0) (mkString 36 3 (Some (str "abc" ++ repeat 0 33))) (repeat 120 37) 37).
  - split_and!; try done. left. by left.
  - apply (bool_decide_unpack _). vm_compute. exact I.
  - apply (bool_decide_unpack _). vm_compute. exact I.
  - vm_compute. split; discriminate.
  - done.
Defined.
End SqString.

(** ** List values *)

Module StrList.

(** [delim]: the three character sets of [strListGetItem]. *)
Definition delim (del : Z) (i : nat) : bytes :=
  match i with
  | 0%nat => [34; del; 44]
  | 1%nat => [34; 92]
  | _ => [32; del; 44; 9; 13; 10]
  end.

(** The search for the next delimiter: [p] is [*pos], [quoted] the flag.
    [None]: out of fuel, the loop is still running. *)
Fixpoint find_delimiter (fuel : nat) (del : Z) (quoted : bool) (p : bytes) : option bytes :=
  match fuel with
  | O => None
  | S fuel =>
      let p := drop (strcspn p (delim del (if quoted then 1 else 0))) p in
      if deref p =? del then Some p
      else
        let '(quoted, p) := if deref p =? 34 then (negb quoted, drop 1 p) else (quoted, p) in
        let p := if quoted && (deref p =? 92) then drop 1 (drop 1 p) else p in
        match p with
        | [] => Some p
        | _ :: _ => find_delimiter fuel del quoted p
        end
  end.

(** [while (len > 0 && xisspace(item[len - 1])) len--] *)
Fixpoint rtrim (item : bytes) (len : nat) : nat :=
  match len with
  | O => O
  | S n => if isspace (nth n item 0) then rtrim item n else len
  end.

(** What a call leaves: the return value, [*item], [*ilen] and [*pos]. *)
Record get_result := mk_get { found : bool; item : bytes; ilen : nat; pos : option bytes }.

(** [strListGetItem]: [str] is the string's text ([None]: no buffer) and
    [p] is [*pos] ([None]: NULL). *)
Definition strListGetItem (fuel : nat) (str : option bytes) (del : Z) (p : option bytes)
  : option get_result :=
  match (match p with Some q => Some q | None => str end) with
  | None => Some (mk_get false [] 0 None)
  | Some q =>
      let start := drop (strspn q (delim del 2)) q in
      let? e := find_delimiter fuel del false start in
      let len := rtrim start (length start - length e) in
      Some (mk_get (0 <? len)%nat start len (Some e))
  end.

(** A [while (strListGetItem(...))] loop: [body] is run on each item and
    says whether to go on. *)
Fixpoint strListWhile {A} (fuel : nat) (str : option bytes) (del : Z) (p : option bytes)
    (body : A -> bytes -> nat -> A * bool) (a : A) : option A :=
  match fuel with
  | O => None
  | S fuel =>
      let? r := strListGetItem (S fuel) str del p in
      if found r then
        let '(a, go) := body a (item r) (ilen r) in
        if go then strListWhile fuel str del (pos r) body a else Some a
      else Some a
  end.

(** Enough fuel for every loop over [str]. *)
Definition list_fuel (str : option bytes) : nat := S (length (default [] str)).

Definition strListIsMember (str : option bytes) (m : bytes) (del : Z) : option bool :=
  strListWhile (list_fuel str) str del None
    (fun b it n => if (length m =? n)%nat && strncaseeq it m n then (true, false) else (b, true)) false.

(** [strstr] *)
Fixpoint strstr (p s : bytes) : option bytes :=
  if decide (take (length s) p = s) then Some p
  else match p with [] => None | _ :: p' => strstr p' s end.

Definition strIsSubstr (list s : bytes) : Z :=
  match strstr list s with
  | None => 0
  | Some p => match strstr (drop 1 p) s with Some _ => 2 | None => 1 end
  end.

(** List building works on the text the [String] holds (see
    [SqString.stringAppend_refines_app]). *)
Definition strListAddStr (s : bytes) (it : bytes) (del : Z) : bytes :=
  (if (length s =? 0)%nat then s else s ++ [del; 32]) ++ it.

Definition strListAdd (s : bytes) (it : bytes) (del : Z) : bytes := strListAddStr s it del.

Definition strListAddUnique (s : bytes) (it : bytes) (del : Z) : option bytes :=
  let? b := strListIsMember (Some s) it del in
  Some (if (b : bool) then s else strListAdd s it del).

(** ** Reference scanner *)

(** Number of bytes up to the first comma outside quotes; inside quotes a
    backslash escapes the next byte. *)
Fixpoint scan (quoted : bool) (p : bytes) : nat :=
  match p with
  | [] => 0
  | c :: p' =>
      if quoted then
        if c =? 34 then S (scan false p')
        else if c =? 92 then
          match p' with [] => 1 | _ :: p'' => S (S (scan true p'')) end
        else S (scan true p')
      else if c =? 44 then 0
      else if c =? 34 then S (scan true p')
      else S (scan false p')
  end.

Lemma scan_le q p : (scan q p <= length p)%nat.
Proof.
  remember (length p) as n eqn:Hn. revert q p Hn.
  induction n as [n IH] using lt_wf_ind. intros q [|c p] ->; [done|]. cbn.
  pose proof (IH (length p) ltac:(cbn; lia) true p eq_refl).
  pose proof (IH (length p) ltac:(cbn; lia) false p eq_refl).
  destruct p as [|d p]; [cbn in *; repeat case_match; lia|].
  pose proof (IH (length p) ltac:(cbn; lia) true p eq_refl).
  repeat case_match; cbn in *; lia.
Qed.

Lemma drop_deref (c : Z) p : deref p = c -> c <> 0 -> exists p', p = c :: p'.
Proof. destruct p; cbn; intros <- ?; [done|eauto]. Qed.

(** Skipping the bytes that are not in the current set does not change what
    the scanner finds. *)
Lemma scan_skip (q : bool) p n :
  n = strcspn p (delim 44 (if q then 1 else 0)) ->
  scan q p = (n + scan q (drop n p))%nat.
Proof.
  revert n. induction p as [|c p IH]; intros n Hn.
  - cbn in Hn. by subst.
  - unfold strcspn in *. cbn [span] in Hn.
    destruct (negb (mem_set _ c)) eqn:E; [|by subst].
    subst n. cbn [drop]. rewrite Nat.add_succ_l.
    rewrite <- (IH _ eq_refl). destruct q; cbn in E; zify_bools; cbn [scan];
      rewrite !(proj2 (Z.eqb_neq c _)) by lia; done.
Qed.

(** A stop of [strcspn] is at the end or at a byte of the set. *)
Lemma strcspn_stop p set :
  drop (strcspn p set) p = [] \/ exists c p', drop (strcspn p set) p = c :: p' /\ mem_set set c = true.
Proof.
  destruct (drop (strcspn p set) p) as [|c p'] eqn:E; [by left|right].
  exists c, p'. split; [done|]. apply span_drop in E. by apply negb_false_iff in E.
Qed.

Lemma find_delimiter_scan fuel q p :
  (length p < fuel)%nat -> find_delimiter fuel 44 q p = Some (drop (scan q p) p).
Proof.
  revert q p. induction fuel as [|fuel IH]; intros q p Hf; [lia|].
  cbn [find_delimiter]. set (n := strcspn p (delim 44 (if q then 1 else 0))).
  rewrite (scan_skip q p n eq_refl), <- drop_drop.
  destruct (strcspn_stop p (delim 44 (if q then 1 else 0))) as [E|(c & p' & E & Hc)]; fold n in E; rewrite E.
  { cbn [deref hd]. assert ((0 =? 44) = false) as -> by done. assert ((0 =? 34) = false) as -> by done.
    by destruct q. }
  assert (length p' < fuel)%nat as Hl.
  { apply (f_equal length) in E. rewrite length_drop in E. cbn in E. lia. }
  cbn [deref hd drop].
  destruct q; cbn in Hc; rewrite ?orb_false_r in Hc; cbn [scan].
  - destruct (c =? 34) eqn:E34; zify_bools.
    + subst c. cbn [negb andb drop deref hd]. cbn.
      destruct p' as [|d p'']; [done|]. by rewrite IH.
    + cbn in Hc. rewrite Hc. assert ((c =? 44) = false) as -> by lia. cbn [andb drop].
      assert ((deref (c :: p') =? 92) = true) as -> by (cbn; lia). cbn [drop].
      destruct p' as [|d [|e p'']]; [done|done|]. rewrite IH by (cbn in *; lia). done.
  - destruct (c =? 44) eqn:E44; zify_bools; [done|].
    destruct (c =? 34) eqn:E34; zify_bools; [|exfalso; cbn in Hc; zify_bools; rewrite ?E34 in Hc; lia].
    subst c. cbn [negb andb]. rewrite drop_0. destruct p' as [|d p'']; [done|]. cbn [deref hd drop].
    destruct (d =? 92) eqn:Ed; zify_bools.
    + subst d. cbn [drop]. destruct p'' as [|e [|f p3]]; [done|done|].
      rewrite IH by (cbn in *; lia). done.
    + rewrite IH by (cbn in *; lia). done.
Qed.

(** ** What a call returns *)

Lemma rtrim_le p n : (rtrim p n <= n)%nat.
Proof. induction n as [|n IH]; cbn; [done|]. destruct (isspace _); lia. Qed.

Lemma rtrim_last p n k : rtrim p n = S k -> isspace (nth k p 0) = false.
Proof. induction n as [|n IH]; cbn; [done|]. destruct (isspace (nth n p 0)) eqn:E; [done|]. by intros [= <-]. Qed.

(** The result of a call at [q], by the scanner. *)
Definition next_item (q : bytes) : get_result :=
  let start := drop (strspn q (delim 44 2)) q in
  let n := rtrim start (scan false start) in
  mk_get (0 <? n)%nat start n (Some (drop (scan false start) start)).

Lemma strListGetItem_next fuel str q :
  (length q < fuel)%nat -> strListGetItem fuel str 44 (Some q) = Some (next_item q).
Proof.
  intros Hf. unfold strListGetItem, next_item. cbv zeta.
  set (start := drop (strspn q (delim 44 2)) q).
  assert (length start <= length q)%nat by (unfold start; rewrite length_drop; lia).
  rewrite find_delimiter_scan by lia. bind_simpl.
  rewrite length_drop. pose proof (scan_le false start).
  by replace (length start - (length start - scan false start))%nat with (scan false start) by lia.
Qed.

Lemma next_item_progress q :
  found (next_item q) = true ->
  exists e, pos (next_item q) = Some e /\ (length e < length q)%nat.
Proof.
  unfold next_item. cbn [found pos]. set (start := drop (strspn q (delim 44 2)) q). intros Hf.
  zify_bools. eexists. split; [done|].
  pose proof (rtrim_le start (scan false start)). pose proof (scan_le false start).
  rewrite length_drop. assert (length start <= length q)%nat by (unfold start; rewrite length_drop; lia).
  lia.
Qed.

(** With the comma as delimiter, a call of [strListGetItem] returns: the
    item starts after the leading white space and commas, ends where the
    reference scanner finds the first comma outside quotes, and is trimmed on
    the right; an item that is found does not start or end with white space
    or a delimiter, and the iterator moves strictly forward. *)
Theorem strListGetItem_correct str q :
  exists r e, strListGetItem (S (length q)) str 44 (Some q) = Some r /\ pos r = Some e /\
    item r = drop (strspn q (delim 44 2)) q /\
    e = drop (scan false (item r)) (item r) /\
    ilen r = rtrim (item r) (scan false (item r)) /\
    (found r = true ->
       (length e < length q)%nat /\ mem_set (delim 44 2) (deref (item r)) = false /\
       isspace (nth (ilen r - 1) (item r) 0) = false).
Proof.
  exists (next_item q), (drop (scan false (drop (strspn q (delim 44 2)) q)) (drop (strspn q (delim 44 2)) q)).
  rewrite strListGetItem_next by lia. split_and!; try done.
  intros Hf. destruct (next_item_progress q Hf) as (e & He & Hlt). injection He as <-.
  split_and!; [done| |].
  - unfold next_item in Hf |- *. cbn [item found] in *.
    destruct (drop (strspn q (delim 44 2)) q) as [|c p] eqn:E; [by cbn in Hf|].
    apply span_drop in E. done.
  - unfold next_item in Hf |- *. cbn [item ilen found] in *.
    destruct (rtrim _ _) as [|k] eqn:E; [done|]. apply rtrim_last in E.
    by replace (S k - 1)%nat with k by lia.
Qed.

(** Every loop over a comma-separated list terminates, whatever its body. *)
Lemma strListWhile_total {A} str (body : A -> bytes -> nat -> A * bool) fuel q a :
  (length q < fuel)%nat -> is_Some (strListWhile fuel str 44 (Some q) body a).
Proof.
  revert q a. induction fuel as [|fuel IH]; intros q a Hf; [lia|]. cbn [strListWhile].
  rewrite strListGetItem_next by lia. bind_simpl.
  destruct (found (next_item q)) eqn:Hfo; [|done].
  destruct (next_item_progress q Hfo) as (e & -> & Hlt).
  destruct (body a _ _) as [a' []]; [|done]. apply IH. lia.
Qed.

(** Every loop over a comma-separated list terminates, whatever its body:
    one unit of fuel more than the length of the text is enough. *)
Theorem strListWhile_terminates {A} str (body : A -> bytes -> nat -> A * bool) a :
  is_Some (strListWhile (list_fuel str) str 44 None body a).
Proof.
  destruct str as [q|]; [|done]. unfold list_fuel. cbn [default from_option id].
  pose proof (strListWhile_total (Some q) body (S (length q)) q a ltac:(lia)) as H.
  exact H.
Qed.

(** The items (pointer and length) a loop over [str] visits, and every loop
    without early exit as a fold over them. *)
Definition visited (str : option bytes) : list (bytes * nat) :=
  default [] (strListWhile (list_fuel str) str 44 None (fun l it n => (l ++ [(it, n)], true)) []).

Lemma strListWhile_fold fuel str q :
  (length q < fuel)%nat ->
  exists l, forall A (body : A -> bytes -> nat -> A) a,
    strListWhile fuel str 44 (Some q) (fun a it n => (body a it n, true)) a
    = Some (foldl (fun a d => body a (fst d) (snd d)) a l).
Proof.
  revert q. induction fuel as [|fuel IH]; intros q Hf; [lia|].
  destruct (found (next_item q)) eqn:Hfo.
  - destruct (next_item_progress q Hfo) as (e & He & Hlt).
    destruct (IH e ltac:(lia)) as [l Hl]. exists ((item (next_item q), ilen (next_item q)) :: l).
    intros A body a. cbn [strListWhile]. rewrite strListGetItem_next by lia. bind_simpl.
    rewrite Hfo, He. cbn [foldl fst snd]. apply Hl.
  - exists []. intros A body a. cbn [strListWhile]. rewrite strListGetItem_next by lia.
    bind_simpl. by rewrite Hfo.
Qed.

(** A NULL iterator starts at the text. *)
Lemma strListWhile_start {A} n q del (body : A -> bytes -> nat -> A * bool) a :
  strListWhile (S n) (Some q) del None body a = strListWhile (S n) (Some q) del (Some q) body a.
Proof. done. Qed.

Lemma foldl_ext {A B} (f g : A -> B -> A) l a : (forall a b, f a b = g a b) -> foldl f a l = foldl g a l.
Proof. intros H. revert a. induction l as [|x l IH]; intros a; cbn; [done|]. by rewrite H. Qed.

Lemma strListWhile_visited {A} str (body : A -> bytes -> nat -> A) a :
  strListWhile (list_fuel str) str 44 None (fun a it n => (body a it n, true)) a
  = Some (foldl (fun a d => body a (fst d) (snd d)) a (visited str)).
Proof.
  destruct str as [q|]; [|done]. unfold visited, list_fuel. cbn [default from_option id].
  destruct (strListWhile_fold (S (length q)) (Some q) q ltac:(lia)) as [l Hl].
  rewrite !strListWhile_start, !Hl. cbn [default from_option id]. rewrite (foldl_ext _ (fun l d => l ++ [d])).
  - by rewrite foldl_snoc_id.
  - by intros ? [].
Qed.

(** ** Round trip *)

(** The items a loop visits. *)
Definition strListItems (str : option bytes) : option (list bytes) :=
  strListWhile (list_fuel str) str 44 None (fun l it n => (l ++ [take n it], true)) [].

Definition token_char (c : Z) : bool := negb (isspace c) && negb (c =? 44) && negb (c =? 34).
Definition token (p : bytes) : Prop := p <> [] /\ Forall (fun c => token_char c = true) p.

Lemma token_char_spec c : token_char c = true -> isspace c = false /\ c <> 44 /\ c <> 34.
Proof. unfold token_char. intros H. zify_bools. done. Qed.

Lemma scan_token p r : Forall (fun c => token_char c = true) p ->
  deref r = 44 \/ r = [] -> scan false (p ++ r) = length p.
Proof.
  intros Hp Hr. induction Hp as [|c p Hc _ IH]; cbn.
  - destruct r as [|d r]; [done|]. destruct Hr as [Hr|?]; [|done]. cbn in Hr. by subst.
  - apply token_char_spec in Hc as (_ & ? & ?).
    rewrite !(proj2 (Z.eqb_neq c _)) by done. by rewrite IH.
Qed.

Lemma rtrim_token p r : Forall (fun c => token_char c = true) p -> rtrim (p ++ r) (length p) = length p.
Proof.
  intros Hp. destruct (length p) as [|n] eqn:Hl; [done|]. cbn.
  rewrite app_nth1 by lia.
  assert (isspace (nth n p 0) = false) as ->; [|done].
  assert (In (nth n p 0) p) as Hin by (apply nth_In; lia).
  rewrite Forall_forall in Hp. by apply Hp, token_char_spec in Hin as (? & _).
Qed.

Lemma next_item_token pre x r :
  pre = [] \/ pre = [44; 32] -> token x -> deref r = 44 \/ r = [] ->
  next_item (pre ++ x ++ r) = mk_get true (x ++ r) (length x) (Some r).
Proof.
  intros Hpre [Hne Hx] Hr.
  assert (drop (strspn (pre ++ x ++ r) (delim 44 2)) (pre ++ x ++ r) = x ++ r) as Hs.
  { assert (strspn (x ++ r) (delim 44 2) = 0%nat) as H0.
    { destruct x as [|c x]; [done|]. unfold strspn. cbn [app]. apply span_stop.
      inversion Hx as [|? ? Hc _]; subst. apply token_char_spec in Hc as (Hsp & ? & ?).
      unfold isspace in Hsp. cbn. rewrite orb_false_iff, andb_false_iff in Hsp.
      rewrite !orb_false_iff. split_and!; lia. }
    destruct Hpre as [->| ->]; cbn [app]; [by rewrite H0|].
    unfold strspn in *. cbn [span]. by rewrite H0. }
  unfold next_item. rewrite Hs, scan_token, rtrim_token, drop_app_length by done.
  f_equal. destruct x; [done|]. done.
Qed.

Definition join (items : list bytes) : bytes := concat (map (fun y => [44; 32] ++ y) items).

(** The items of a joined list, as the loop sees them: pointer and length. *)
Fixpoint ptrs (items : list bytes) : list (bytes * nat) :=
  match items with
  | [] => []
  | x :: items => (x ++ join items, length x) :: ptrs items
  end.

Lemma strListWhile_tokens {A} fuel str pre x items (body : A -> bytes -> nat -> A) a :
  pre = [] \/ pre = [44; 32] -> Forall token (x :: items) ->
  (length (pre ++ x ++ join items) < fuel)%nat ->
  strListWhile fuel str 44 (Some (pre ++ x ++ join items)) (fun a it n => (body a it n, true)) a
  = Some (foldl (fun a d => body a (fst d) (snd d)) a (ptrs (x :: items))).
Proof.
  revert pre x items a. induction fuel as [|fuel IH]; intros pre x items a Hpre Ht Hf; [lia|].
  cbn [strListWhile]. rewrite strListGetItem_next by lia.
  inversion Ht as [|? ? Hx Hi]; subst.
  rewrite next_item_token; [|done|done|].
  2:{ destruct items; [by right|left; done]. }
  cbn [mbind option_bind found item ilen pos].
  destruct items as [|y items].
  - destruct fuel; [rewrite !length_app in Hf; destruct Hx as [Hne _]; destruct x; [done|cbn in Hf; lia]|]. done.
  - change (join (y :: items)) with ([44; 32] ++ y ++ join items).
    rewrite IH; [done|by right|done|].
    change (join (y :: items)) with ([44; 32] ++ y ++ join items) in Hf.
    rewrite !length_app in *. destruct Hx as [Hne _]. destruct x; [done|]. cbn [length] in *. lia.
Qed.

Lemma foldl_ptrs_collect items acc :
  foldl (fun l d => l ++ [take (snd d) (fst d)]) acc (ptrs items) = acc ++ items.
Proof.
  revert acc. induction items as [|x items IH]; intros acc; cbn [ptrs foldl fst snd]; [by rewrite app_nil_r|].
  rewrite IH, take_app_length. by rewrite <- app_assoc.
Qed.

Lemma foldl_join acc items :
  acc <> [] -> foldl (fun s it => strListAdd s it 44) acc items = acc ++ join items.
Proof.
  revert acc. induction items as [|x items IH]; intros acc Ha; cbn [foldl].
  - by rewrite app_nil_r.
  - unfold strListAdd at 2, strListAddStr. destruct acc as [|c acc]; [done|]. cbn [length Nat.eqb].
    rewrite IH by done. unfold join. cbn [map concat]. by rewrite <- !app_assoc.
Qed.

(** Items appended with [strListAdd] are read back, in order and
    unchanged, by iterating over the list. *)
Theorem strList_roundtrip items :
  Forall token items ->
  strListItems (Some (foldl (fun s it => strListAdd s it 44) [] items)) = Some items.
Proof.
  intros Ht. destruct items as [|x items]; [done|]. cbn [foldl].
  change (strListAdd [] x 44) with x. rewrite foldl_join by (inversion Ht as [|? ? []]; done).
  unfold strListItems, list_fuel. cbn [default from_option id]. rewrite strListWhile_start.
  rewrite (strListWhile_tokens _ _ [] x items (fun l it n => l ++ [take n it])); [|by left|done|cbn; lia].
  by rewrite foldl_ptrs_collect.
Qed.

Lemma strList_roundtrip_witness :
  strListItems (Some (foldl (fun s it => strListAdd s it 44) [] [str "gzip"; str "chunked"]))
  = Some [str "gzip"; str "chunked"].
Proof.
  apply strList_roundtrip.
  repeat constructor; done.
Defined.

(** ** Other delimiters *)

Lemma find_delimiter_stuck fuel del p :
  del <> 44 -> deref p = 44 -> find_delimiter fuel del false p = None.
Proof.
  intros Hd Hp. destruct (drop_deref 44 p Hp ltac:(lia)) as [p' ->].
  induction fuel as [|fuel IH]; [done|]. cbn [find_delimiter].
  assert (strcspn (44 :: p') (delim del 0) = 0%nat) as ->.
  { unfold strcspn. apply span_stop. cbn. by rewrite orb_true_r. }
  rewrite drop_0. cbn [deref hd]. rewrite (proj2 (Z.eqb_neq 44 del)) by lia. apply IH.
Qed.

(** With a delimiter other than the comma the search does not terminate on
    an item that contains an unquoted comma: the comma stops [strcspn] but is
    neither the delimiter nor a quote, so the loop stays where it is.  No
    amount of fuel is enough. *)
Theorem strListGetItem_loops fuel str del x r :
  del <> 44 -> x <> [] -> Forall (fun c => token_char c = true /\ c <> del) x ->
  strListGetItem fuel str del (Some (x ++ 44 :: r)) = None.
Proof.
  intros Hd Hne Hx. unfold strListGetItem.
  assert (strspn (x ++ 44 :: r) (delim del 2) = 0%nat) as ->.
  { destruct x as [|c x]; [done|]. unfold strspn. cbn [app]. apply span_stop.
    inversion Hx as [|? ? [Hc Hcd] _]; subst. apply token_char_spec in Hc as (Hsp & ? & ?).
    unfold isspace in Hsp. cbn. rewrite orb_false_iff, andb_false_iff in Hsp.
    rewrite !orb_false_iff. split_and!; lia. }
  rewrite drop_0. cbv zeta.
  enough (find_delimiter fuel del false (x ++ 44 :: r) = None) as -> by done.
  destruct fuel as [|fuel]; [done|]. cbn [find_delimiter].
  assert (strcspn (x ++ 44 :: r) (delim del 0) = length x) as ->.
  { unfold strcspn. rewrite span_app.
    - cbn. rewrite orb_true_r. cbn. lia.
    - eapply List.Forall_impl; [|exact Hx]. intros c [(_ & ? & ?)%token_char_spec ?]. cbn.
      rewrite !(proj2 (Z.eqb_neq c _)) by done. done. }
  rewrite drop_app_length. cbn [deref hd]. rewrite (proj2 (Z.eqb_neq 44 del)) by lia.
  assert ((44 =? 34) = false) as -> by done. cbn [andb].
  apply find_delimiter_stuck; done.
Qed.

(** "a,b;c" split at ';'. *)
Lemma strListGetItem_loops_witness :
  strListGetItem 1000 (Some (str "a,b;c")) 59 (Some (str "a" ++ 44 :: str "b;c")) = None.
Proof.
  apply (strListGetItem_loops 1000 (Some (str "a,b;c")) 59 (str "a") (str "b;c")); [done|done|].
  repeat constructor. done.
Defined.
End StrList.
