(* ===== verification/HttpTools.v ===== *)
(** * Field tables and number fields: parts of libhttp/HttpHeader.c,
      HttpHeaderFieldInfo.c and HttpHeaderParse.c used by the other header
      components *)

From Stdlib Require Import ZArith Lia Ascii String.
From stdpp Require Import base strings list numbers option.
From S2P Require Import Prelude CStr.

Module HttpTools.

(** ** Field tables *)

Record HttpHeaderFieldInfo := mkFieldInfo { fi_name : bytes; fi_id : Z; fi_type : Z }.

(** [xcalloc]'ed entry. *)
Definition fi_zero : HttpHeaderFieldInfo := mkFieldInfo [] 0 0.

(** [httpHeaderBuildFieldsInfo]: the table indexed by field id, from the
    attributes (name, id, type) in any order. *)
Definition build_step (count : Z) (table : option (list HttpHeaderFieldInfo)) (attr : bytes * Z * Z)
  : option (list HttpHeaderFieldInfo) :=
  let? table := table in
  let '(name, id, type) := attr in
  assert? (0 <=? id) && (id <? count) in
  let? info := table !! Z.to_nat id in
  assert? (fi_id info =? 0) && (fi_type info =? 0) in
  assert? negb (length name =? 0)%nat in
  Some (<[Z.to_nat id := mkFieldInfo name id type]> table).

Definition httpHeaderBuildFieldsInfo (attrs : list (bytes * Z * Z)) (count : Z)
  : option (list HttpHeaderFieldInfo) :=
  assert? negb (count =? 0) in
  foldl (build_step count) (Some (repeat fi_zero (Z.to_nat count))) attrs.


(** [httpHeaderIdByName]: the index of the first field of the table with
    that name, [-1] when there is none.  A negative [name_len] stands for a
    NUL-terminated name. *)
Fixpoint idByName_loop (name : bytes) (name_len : Z) (info : list bytes) (i : Z) : Z :=
  match info with
  | [] => -1
  | f :: info =>
      if (0 <=? name_len) && negb (name_len =? Z.of_nat (length f)) then
        idByName_loop name name_len info (i + 1)
      else if strncaseeq name f (if name_len <? 0 then S (length f) else Z.to_nat name_len) then i
      else idByName_loop name name_len info (i + 1)
  end.

Definition httpHeaderIdByName (name : bytes) (name_len : Z) (info : list bytes) : Z :=
  idByName_loop name name_len info 0.

(** [httpHeaderParseInt]: success and the value stored; a [long] that does
    not fit an [int] is refused. *)
Definition httpHeaderParseInt (start : bytes) : bool * Z :=
  let r := strtol start in
  let value := wrap_s 32 (st_val r) in
  if (st_len r =? 0)%nat || st_erange r || negb (st_val r =? value) then (false, -1)
  else (true, value).

(** [httpHeaderParseSize]: [strto_off_t] is the 64-bit [strtoll]. *)
Definition httpHeaderParseSize (start : bytes) : bool * Z :=
  let r := strtol start in
  if (st_len r =? 0)%nat || st_erange r then (false, -1) else (true, st_val r).

Lemma httpHeaderParseInt_range p : - 2 ^ 31 <= snd (httpHeaderParseInt p) < 2 ^ 31.
Proof.
  unfold httpHeaderParseInt. pose proof (wrap_s_range 32 (st_val (strtol p)) ltac:(lia)).
  case_match; cbn; lia.
Qed.

Lemma httpHeaderParseSize_range p : - 2 ^ 63 <= snd (httpHeaderParseSize p) < 2 ^ 63.
Proof.
  unfold httpHeaderParseSize. pose proof (strtol_range p). case_match; cbn; lia.
Qed.

Lemma httpHeaderParseSize_dec n r :
  0 <= n < 2 ^ 63 -> not_digit_head r -> httpHeaderParseSize (dec n ++ r) = (true, n).
Proof.
  intros Hn Hr. unfold httpHeaderParseSize. rewrite strtol_dec by done. cbn [st_len st_erange st_val].
  destruct (dec_spec n ltac:(lia)) as (Hne & _). by destruct (dec n).
Qed.

Lemma httpHeaderParseSize_nonneg p ok v :
  isdigit (deref p) = true -> httpHeaderParseSize p = (ok, v) -> ok = true -> 0 <= v.
Proof.
  intros Hd. unfold httpHeaderParseSize. pose proof (strtol_nonneg p Hd).
  case_match; intros [= <- <-]; done.
Qed.

Lemma tolower_eq_dec_refl p n : strncaseeq p p n = true.
Proof.
  revert p. induction n as [|n IH]; intros p; [done|]. destruct p as [|c p]; [done|]. cbn.
  by rewrite Z.eqb_refl, IH.
Qed.

Lemma idByName_range name n info i :
  0 <= i ->
  idByName_loop name n info i = -1 \/ i <= idByName_loop name n info i < i + Z.of_nat (length info).
Proof.
  revert i. induction info as [|f info IH]; intros i Hi; cbn [idByName_loop]; [by left|].
  specialize (IH (i + 1) ltac:(lia)). cbn [length].
  repeat case_match; lia.
Qed.

Lemma httpHeaderIdByName_range name n info :
  -1 <= httpHeaderIdByName name n info < Z.of_nat (length info).
Proof. unfold httpHeaderIdByName. pose proof (idByName_range name n info 0 ltac:(lia)). lia. Qed.
End HttpTools.
