(* ===== verification/HttpHdrCc.v ===== *)
(** * Cache-Control: libhttp/HttpHdrCc.c *)

From Stdlib Require Import ZArith Lia Ascii String.
From stdpp Require Import base strings list numbers option.
From S2P Require Import Prelude CStr StrList HttpTools.

Module HttpHdrCc.
Import StrList.StrList HttpTools.HttpTools.

(** ** Directives *)

Definition CC_PUBLIC := 0.
Definition CC_PRIVATE := 1.
Definition CC_NO_CACHE := 2.
Definition CC_NO_STORE := 3.
Definition CC_NO_TRANSFORM := 4.
Definition CC_MUST_REVALIDATE := 5.
Definition CC_PROXY_REVALIDATE := 6.
Definition CC_MAX_AGE := 7.
Definition CC_S_MAXAGE := 8.
Definition CC_MAX_STALE := 9.
Definition CC_ONLY_IF_CACHED := 10.
Definition CC_STALE_WHILE_REVALIDATE := 11.
Definition CC_STALE_IF_ERROR := 12.
Definition CC_OTHER := 13.
Definition CC_ENUM_END := 14.

Definition CcAttrs : list (bytes * Z * Z) :=
  [ (str "public", CC_PUBLIC, 0); (str "private", CC_PRIVATE, 0);
    (str "no-cache", CC_NO_CACHE, 0); (str "no-store", CC_NO_STORE, 0);
    (str "no-transform", CC_NO_TRANSFORM, 0); (str "must-revalidate", CC_MUST_REVALIDATE, 0);
    (str "proxy-revalidate", CC_PROXY_REVALIDATE, 0); (str "only-if-cached", CC_ONLY_IF_CACHED, 0);
    (str "max-age", CC_MAX_AGE, 0); (str "s-maxage", CC_S_MAXAGE, 0);
    (str "max-stale", CC_MAX_STALE, 0);
    (str "stale-while-revalidate", CC_STALE_WHILE_REVALIDATE, 0);
    (str "stale-if-error", CC_STALE_IF_ERROR, 0); (str "Other,", CC_OTHER, 0) ].

(** The names of [CcFieldsInfo], as [httpHdrCcInitModule] builds it. *)
Definition CcFieldsInfo : list bytes :=
  Eval vm_compute in default [] (map fi_name <$> httpHeaderBuildFieldsInfo CcAttrs CC_ENUM_END).

(** ** The object *)

(** [other] is held by its text. *)
Record HttpHdrCc := mkCc {
  mask : Z;
  max_age : Z;
  s_maxage : Z;
  max_stale : Z;
  stale_while_revalidate : Z;
  stale_if_error : Z;
  other : bytes
}.

#[global] Instance etaCc : Inhabited HttpHdrCc := populate (mkCc 0 0 0 0 0 0 []).

Definition set_mask (f : Z -> Z) (c : HttpHdrCc) : HttpHdrCc :=
  mkCc (f (mask c)) (max_age c) (s_maxage c) (max_stale c) (stale_while_revalidate c) (stale_if_error c) (other c).
Definition set_max_age (v : Z) (c : HttpHdrCc) : HttpHdrCc :=
  mkCc (mask c) v (s_maxage c) (max_stale c) (stale_while_revalidate c) (stale_if_error c) (other c).
Definition set_s_maxage (v : Z) (c : HttpHdrCc) : HttpHdrCc :=
  mkCc (mask c) (max_age c) v (max_stale c) (stale_while_revalidate c) (stale_if_error c) (other c).
Definition set_max_stale (v : Z) (c : HttpHdrCc) : HttpHdrCc :=
  mkCc (mask c) (max_age c) (s_maxage c) v (stale_while_revalidate c) (stale_if_error c) (other c).
Definition set_swr (v : Z) (c : HttpHdrCc) : HttpHdrCc :=
  mkCc (mask c) (max_age c) (s_maxage c) (max_stale c) v (stale_if_error c) (other c).
Definition set_sie (v : Z) (c : HttpHdrCc) : HttpHdrCc :=
  mkCc (mask c) (max_age c) (s_maxage c) (max_stale c) (stale_while_revalidate c) v (other c).
Definition set_other (v : bytes) (c : HttpHdrCc) : HttpHdrCc :=
  mkCc (mask c) (max_age c) (s_maxage c) (max_stale c) (stale_while_revalidate c) (stale_if_error c) v.

(** [httpHdrCcCreate]: pool memory is zeroed, and the chained assignment ends
    in [cc->stale_if_error - 1], which is read and not assigned. *)
Definition httpHdrCcCreate : HttpHdrCc :=
  let stale_if_error0 := 0 in
  mkCc 0 (stale_if_error0 - 1) (stale_if_error0 - 1) (stale_if_error0 - 1) 0 stale_if_error0 [].

(** Directive name length and the text after '=', if any. *)
Definition cc_split (item : bytes) (ilen : nat) : nat * option bytes :=
  match memchr item 61 ilen with
  | Some k => (k, Some (drop (S k) item))
  | None => (ilen, None)
  end.

Definition cc_type (item : bytes) (ilen : nat) : Z :=
  let type := httpHeaderIdByName item (Z.of_nat (fst (cc_split item ilen))) CcFieldsInfo in
  if type <? 0 then CC_OTHER else type.

(** A directive whose value must be a number. *)
Definition cc_number (p : option bytes) : bool * Z :=
  match p with
  | None => (false, -1)
  | Some p => httpHeaderParseInt p
  end.

(** One round of the loop of [httpHdrCcParseInit]. *)
Definition cc_item (cc : HttpHdrCc) (item : bytes) (ilen : nat) : HttpHdrCc :=
  let p := snd (cc_split item ilen) in
  let type := cc_type item ilen in
  if EBIT_TEST (mask cc) type then cc
  else
    let cc := set_mask (fun m => EBIT_SET m type) cc in
    let clr := fun cc => set_mask (fun m => EBIT_CLR m type) cc in
    if type =? CC_MAX_AGE then
      match cc_number p with (true, v) => set_max_age v cc | (false, _) => clr (set_max_age (-1) cc) end
    else if type =? CC_S_MAXAGE then
      match cc_number p with (true, v) => set_s_maxage v cc | (false, _) => clr (set_s_maxage (-1) cc) end
    else if type =? CC_MAX_STALE then
      match p with
      | None => set_max_stale (-1) cc
      | Some p =>
          match httpHeaderParseInt p with
          | (true, v) => set_max_stale v cc
          | (false, _) => clr (set_max_stale (-1) cc)
          end
      end
    else if type =? CC_STALE_WHILE_REVALIDATE then
      match cc_number p with (true, v) => set_swr v cc | (false, _) => clr (set_swr (-1) cc) end
    else if type =? CC_STALE_IF_ERROR then
      match cc_number p with (true, v) => set_sie v cc | (false, _) => clr (set_sie (-1) cc) end
    else if type =? CC_OTHER then
      let o := if (length (other cc) =? 0)%nat then other cc else other cc ++ str ", " in
      set_other (o ++ take ilen item) cc
    else cc.

(** [httpHdrCcParseInit]: the object after the loop and the result. *)
Definition httpHdrCcParseInit (cc : HttpHdrCc) (s : option bytes) : option (HttpHdrCc * bool) :=
  let? cc := strListWhile (list_fuel s) s 44 None (fun cc it n => (cc_item cc it n, true)) cc in
  Some (cc, negb (mask cc =? 0)).

(** [httpHdrCcParseCreate]: [Some None] is the NULL result. *)
Definition httpHdrCcParseCreate (s : option bytes) : option (option HttpHdrCc) :=
  let? (cc, ok) := httpHdrCcParseInit httpHdrCcCreate s in
  Some (if (ok : bool) then Some cc else None).

Definition httpHdrCcDup (cc : HttpHdrCc) : HttpHdrCc :=
  let dup := httpHdrCcCreate in
  let dup := set_mask (fun _ => mask cc) dup in
  let dup := set_max_age (max_age cc) dup in
  let dup := set_s_maxage (s_maxage cc) dup in
  set_max_stale (max_stale cc) dup.

Definition httpHdrCcJoinWith (cc new_cc : HttpHdrCc) : HttpHdrCc :=
  let cc := if max_age cc <? 0 then set_max_age (max_age new_cc) cc else cc in
  let cc := if s_maxage cc <? 0 then set_s_maxage (s_maxage new_cc) cc else cc in
  let cc := if max_stale cc <? 0 then set_max_stale (max_stale new_cc) cc else cc in
  set_mask (fun m => Z.lor m (mask new_cc)) cc.

Definition httpHdrCcSetMaxAge (cc : HttpHdrCc) (v : Z) : HttpHdrCc :=
  let cc := set_max_age v cc in
  if 0 <=? v then set_mask (fun m => EBIT_SET m CC_MAX_AGE) cc
  else set_mask (fun m => EBIT_CLR m CC_MAX_AGE) cc.

Definition httpHdrCcSetSMaxAge (cc : HttpHdrCc) (v : Z) : HttpHdrCc :=
  let cc := set_s_maxage v cc in
  if 0 <=? v then set_mask (fun m => EBIT_SET m CC_S_MAXAGE) cc
  else set_mask (fun m => EBIT_CLR m CC_S_MAXAGE) cc.

(** [httpHdrCcUpdateStats]: the directive types counted. *)
Definition httpHdrCcUpdateStats (cc : HttpHdrCc) : list Z :=
  List.filter (fun c => EBIT_TEST (mask cc) c) (seqZ 0 CC_ENUM_END).

(** ** Specification *)

(** A visited item is a pointer and a length. *)
Abbreviation cc_dir := (bytes * nat)%type.

(** The directive is of type [t] and, where a number is needed, has one. *)
Definition cc_accepts (t : Z) (d : cc_dir) : bool :=
  (cc_type (fst d) (snd d) =? t) &&
  (let p := snd (cc_split (fst d) (snd d)) in
   if (t =? CC_MAX_AGE) || (t =? CC_S_MAXAGE) || (t =? CC_STALE_WHILE_REVALIDATE) || (t =? CC_STALE_IF_ERROR)
   then fst (cc_number p)
   else if t =? CC_MAX_STALE then match p with None => true | Some p => fst (httpHeaderParseInt p) end
   else true).

(** Its number. *)
Definition cc_value (d : cc_dir) : Z := snd (cc_number (snd (cc_split (fst d) (snd d)))).

(** The value a field ends with: that of the first accepted directive. *)
Definition first_value (t : Z) (dflt : Z) (l : list cc_dir) : Z :=
  match List.find (cc_accepts t) l with Some d => cc_value d | None => dflt end.

(** The state after the directives [l]. *)
Record cc_after (l : list cc_dir) (cc : HttpHdrCc) : Prop := {
  ca_mask : forall t, 0 <= t -> EBIT_TEST (mask cc) t = existsb (cc_accepts t) l;
  ca_max_age : max_age cc = first_value CC_MAX_AGE (-1) l;
  ca_s_maxage : s_maxage cc = first_value CC_S_MAXAGE (-1) l;
  ca_max_stale : max_stale cc = first_value CC_MAX_STALE (-1) l;
  ca_swr : EBIT_TEST (mask cc) CC_STALE_WHILE_REVALIDATE = true ->
           stale_while_revalidate cc = first_value CC_STALE_WHILE_REVALIDATE (-1) l;
  ca_sie : EBIT_TEST (mask cc) CC_STALE_IF_ERROR = true ->
           stale_if_error cc = first_value CC_STALE_IF_ERROR (-1) l
}.

Lemma find_snoc {A} (f : A -> bool) l d :
  List.find f (l ++ [d]) = match List.find f l with Some x => Some x | None => if f d then Some d else None end.
Proof. induction l as [|x l IH]; cbn; [done|]. destruct (f x); [done|apply IH]. Qed.

Lemma existsb_find {A} (f : A -> bool) l : existsb f l = match List.find f l with Some _ => true | None => false end.
Proof. induction l as [|x l IH]; cbn; [done|]. destruct (f x); [done|apply IH]. Qed.

Lemma first_value_snoc t dflt l d :
  first_value t dflt (l ++ [d]) =
  if existsb (cc_accepts t) l then first_value t dflt l
  else if cc_accepts t d then cc_value d else dflt.
Proof.
  unfold first_value. rewrite find_snoc, existsb_find.
  destruct (List.find _ l); [done|]. by destruct (cc_accepts t d).
Qed.

Lemma cc_type_range it n : 0 <= cc_type it n < CC_ENUM_END.
Proof.
  unfold cc_type. pose proof (httpHeaderIdByName_range it (Z.of_nat (fst (cc_split it n))) CcFieldsInfo) as H.
  change (Z.of_nat (length CcFieldsInfo)) with 14 in H. unfold CC_ENUM_END, CC_OTHER.
  destruct (_ <? 0) eqn:E; zify_bools; lia.
Qed.

(** Splits on the type of a directive. *)
Ltac cc_types ty H :=
  unfold CC_ENUM_END in H;
  assert (ty = 0 \/ ty = 1 \/ ty = 2 \/ ty = 3 \/ ty = 4 \/ ty = 5 \/ ty = 6 \/ ty = 7 \/
          ty = 8 \/ ty = 9 \/ ty = 10 \/ ty = 11 \/ ty = 12 \/ ty = 13) as Hty by lia;
  clear H; repeat (destruct Hty as [->|Hty]; [|]); [..|subst ty].

(** A directive whose bit is already set is skipped; otherwise the bit is set
    exactly when the directive is acceptable. *)
Lemma cc_item_mask cc it n t :
  0 <= t ->
  EBIT_TEST (mask (cc_item cc it n)) t = EBIT_TEST (mask cc) t || cc_accepts t (it, n).
Proof.
  intros Ht. unfold cc_item, cc_accepts. cbn [fst snd].
  pose proof (cc_type_range it n) as Hr. set (ty := cc_type it n) in *.
  set (p := snd (cc_split it n)).
  destruct (EBIT_TEST (mask cc) ty) eqn:Eb.
  { destruct (ty =? t) eqn:E; zify_bools; [subst; by rewrite Eb|by rewrite orb_false_r]. }
  assert (forall b : bool, (if b then EBIT_TEST (EBIT_SET (mask cc) ty) t
                            else EBIT_TEST (EBIT_CLR (EBIT_SET (mask cc) ty) ty) t)
                           = EBIT_TEST (mask cc) t || ((ty =? t) && b)) as Hgen.
  { intros []; rewrite ?EBIT_TEST_CLR, ?EBIT_TEST_SET by lia.
    - rewrite andb_true_r. f_equal. destruct (ty =? t) eqn:E; zify_bools; case_bool_decide; congruence.
    - rewrite andb_false_r, orb_false_r. case_bool_decide; [|by rewrite orb_false_r, andb_true_r].
      subst t. by rewrite Eb. }
  destruct (ty =? t) eqn:Et.
  - zify_bools. rewrite <- Et in *. clear Et. clearbody ty. cbn [andb] in Hgen |- *.
    cc_types ty Hr; cbn -[EBIT_TEST EBIT_SET EBIT_CLR cc_number] in *; rewrite <- Hgen;
      try (destruct (cc_number p) as [[] ?]; done); try done;
      destruct p as [p'|]; try done; destruct (httpHeaderParseInt p') as [[] ?]; done.
  - cbn [andb] in *. rewrite orb_false_r. pose proof (Hgen true) as G1. pose proof (Hgen false) as G2.
    cbv iota in G1, G2. rewrite orb_false_r in G1, G2.
    repeat case_match; done.
Qed.

(** The number a field holds after one more directive of the list: kept when the bit was set,
    else the value of an accepted directive, else -1 for a bad one. *)
Tactic Notation "cc_field" ident(p) ident(Hr) :=
  unfold cc_item, cc_accepts, cc_value, CC_MAX_AGE, CC_S_MAXAGE, CC_MAX_STALE,
    CC_STALE_WHILE_REVALIDATE, CC_STALE_IF_ERROR, CC_OTHER; cbn [fst snd];
  match goal with |- context [cc_type ?it ?n] =>
    let ty := fresh "ty" in
    pose proof (cc_type_range it n) as Hr; set (ty := cc_type it n) in *; clearbody ty;
    set (p := snd (cc_split it n)); cc_types ty Hr; clearbody p
  end;
  destruct p; cbn -[EBIT_TEST EBIT_SET EBIT_CLR httpHeaderParseInt];
  repeat case_match; simplify_eq/=; try done; congruence.

Definition field_step (t : Z) (cc : HttpHdrCc) (old : Z) (d : cc_dir) : Z :=
  if EBIT_TEST (mask cc) t then old
  else if cc_accepts t d then cc_value d
  else if cc_type (fst d) (snd d) =? t then -1 else old.

Lemma cc_item_max_age cc it n :
  max_age (cc_item cc it n) = field_step CC_MAX_AGE cc (max_age cc) (it, n).
Proof. unfold field_step. cc_field p Hr. Qed.
Lemma cc_item_s_maxage cc it n :
  s_maxage (cc_item cc it n) = field_step CC_S_MAXAGE cc (s_maxage cc) (it, n).
Proof. unfold field_step. cc_field p Hr. Qed.
Lemma cc_item_max_stale cc it n :
  max_stale (cc_item cc it n) = field_step CC_MAX_STALE cc (max_stale cc) (it, n).
Proof. unfold field_step. cc_field p Hr. Qed.
Lemma cc_item_swr cc it n :
  stale_while_revalidate (cc_item cc it n) =
  field_step CC_STALE_WHILE_REVALIDATE cc (stale_while_revalidate cc) (it, n).
Proof. unfold field_step. cc_field p Hr. Qed.
Lemma cc_item_sie cc it n :
  stale_if_error (cc_item cc it n) = field_step CC_STALE_IF_ERROR cc (stale_if_error cc) (it, n).
Proof. unfold field_step. cc_field p Hr. Qed.

Lemma first_value_none t dflt l : existsb (cc_accepts t) l = false -> first_value t dflt l = dflt.
Proof. unfold first_value. rewrite existsb_find. by destruct (List.find _ l). Qed.

(** One field, whose value is only meaningful when the bit is set. *)
Lemma field_step_first t cc old l d :
  EBIT_TEST (mask cc) t = existsb (cc_accepts t) l ->
  (EBIT_TEST (mask cc) t = true -> old = first_value t (-1) l) ->
  EBIT_TEST (mask cc) t || cc_accepts t d = true ->
  field_step t cc old d = first_value t (-1) (l ++ [d]).
Proof.
  intros Hm Hold. unfold field_step. rewrite first_value_snoc, <- Hm.
  destruct (EBIT_TEST (mask cc) t); [intros _; by apply Hold|]. cbn. by intros ->.
Qed.

(** The same for a field that is -1 when the bit is clear. *)
Lemma field_step_default t cc old l d :
  EBIT_TEST (mask cc) t = existsb (cc_accepts t) l ->
  old = first_value t (-1) l ->
  field_step t cc old d = first_value t (-1) (l ++ [d]).
Proof.
  intros Hm Hold. unfold field_step. rewrite first_value_snoc, <- Hm.
  destruct (EBIT_TEST (mask cc) t) eqn:E; [done|]. destruct (cc_accepts t d); [done|].
  rewrite Hold, first_value_none by congruence. by destruct (_ =? t).
Qed.

Lemma cc_after_snoc l cc d :
  cc_after l cc -> cc_after (l ++ [d]) (cc_item cc (fst d) (snd d)).
Proof.
  intros [Hm Ha Hs Hx Hw He]. destruct d as [it n]. cbn [fst snd]. constructor.
  - intros t Ht. rewrite cc_item_mask, existsb_app, Hm by done. cbn. by rewrite orb_false_r.
  - rewrite cc_item_max_age. by apply field_step_default; [apply Hm|].
  - rewrite cc_item_s_maxage. by apply field_step_default; [apply Hm|].
  - rewrite cc_item_max_stale. by apply field_step_default; [apply Hm|].
  - rewrite cc_item_mask, cc_item_swr by done. apply field_step_first; [by apply Hm|done].
  - rewrite cc_item_mask, cc_item_sie by done. apply field_step_first; [by apply Hm|done].
Qed.

Lemma cc_after_fold l : cc_after l (foldl (fun cc d => cc_item cc (fst d) (snd d)) httpHdrCcCreate l).
Proof.
  induction l as [|d l IH] using rev_ind.
  - constructor; done.
  - rewrite foldl_app. cbn [foldl]. by apply cc_after_snoc.
Qed.

(** Parsing a Cache-Control value always returns.  A directive's bit is set
    exactly when one of the listed directives is of that type and, for those
    that need a number, has one that fits an [int]; the number kept is the one
    of the first such directive (-1 when there is none); and the result is
    NULL exactly when no bit is set. *)
Theorem httpHdrCcParse_correct s :
  exists cc, httpHdrCcParseInit httpHdrCcCreate s = Some (cc, negb (mask cc =? 0)) /\
    httpHdrCcParseCreate s = Some (if mask cc =? 0 then None else Some cc) /\
    cc_after (visited s) cc.
Proof.
  exists (foldl (fun cc d => cc_item cc (fst d) (snd d)) httpHdrCcCreate (visited s)).
  unfold httpHdrCcParseCreate, httpHdrCcParseInit.
  rewrite strListWhile_visited. bind_simpl. split_and!; [done| |apply cc_after_fold].
  by destruct (mask _ =? 0).
Qed.

(** ** Copies *)

(** A copy made by [httpHdrCcDup] keeps the mask but not the values of
    stale-while-revalidate and stale-if-error, nor the unknown directives: it
    reports those directives as present with the value 0. *)
Theorem httpHdrCcDup_loses cc :
  mask (httpHdrCcDup cc) = mask cc /\ max_age (httpHdrCcDup cc) = max_age cc /\
  s_maxage (httpHdrCcDup cc) = s_maxage cc /\ max_stale (httpHdrCcDup cc) = max_stale cc /\
  stale_while_revalidate (httpHdrCcDup cc) = 0 /\ stale_if_error (httpHdrCcDup cc) = 0 /\
  other (httpHdrCcDup cc) = [].
Proof. done. Qed.

(** Joining takes the union of the directives and keeps the values already
    known. *)
Lemma httpHdrCcJoinWith_mask cc new_cc t :
  0 <= t ->
  EBIT_TEST (mask (httpHdrCcJoinWith cc new_cc)) t = EBIT_TEST (mask cc) t || EBIT_TEST (mask new_cc) t.
Proof.
  intros Ht. rewrite !EBIT_TEST_testbit by done.
  assert (mask (httpHdrCcJoinWith cc new_cc) = Z.lor (mask cc) (mask new_cc)) as ->.
  { unfold httpHdrCcJoinWith. by repeat case_match. }
  apply Z.lor_spec.
Qed.

(** The directives counted by the statistics are those of the mask. *)
Lemma httpHdrCcUpdateStats_mask cc t :
  In t (httpHdrCcUpdateStats cc) <-> 0 <= t < CC_ENUM_END /\ EBIT_TEST (mask cc) t = true.
Proof.
  unfold httpHdrCcUpdateStats. rewrite filter_In. rewrite <- list_elem_of_In, elem_of_seqZ.
  unfold CC_ENUM_END. naive_solver lia.
Qed.

Example cc_example :
  httpHdrCcParseCreate (Some (str "private, max-age=60 ,max-age=x, s-maxage=9999999999, Foo=1"))
  = Some (Some (mkCc (2 ^ CC_PRIVATE + 2 ^ CC_MAX_AGE + 2 ^ CC_OTHER) 60 (-1) (-1) 0 0 (str "Foo=1"))).
Proof. vm_compute. reflexivity. Qed.
End HttpHdrCc.
