(* ===== verification/HttpHdrRange.v ===== *)
(** * Range and Content-Range: libhttp/HttpHdrRange.c and
      libhttp/HttpHdrContRange.c *)

From Stdlib Require Import ZArith Lia Ascii String Sorted.
From stdpp Require Import base strings list numbers option.
From S2P Require Import Prelude CStr StrList HttpTools.

Module HttpHdrRange.
Import StrList.StrList HttpTools.HttpTools.

(** ** Data and macros: [squid_off_t] is a 64-bit signed integer *)

Definition range_spec_unknown : Z := -1.
Definition known_spec (s : Z) : bool := negb (s =? range_spec_unknown).
Definition size_min (a b : Z) : Z := if a <=? b then a else b.
Definition size_diff (a b : Z) : Z := if b <=? a then wrap_s 64 (a - b) else 0.

Record HttpHdrRangeSpec := mkSpec { offset : Z; length_ : Z }.

#[global] Instance spec_eq_dec : EqDecision HttpHdrRangeSpec.
Proof. solve_decision. Defined.

(** A range is the stack of its specs, in order of appearance. *)
Abbreviation HttpHdrRange := (list HttpHdrRangeSpec).

(** ** One spec *)

(** [httpHdrRangeSpecParseCreate]: [None] is the NULL result.  A missing '-'
    makes [p] NULL and [p - field] negative. *)
Definition httpHdrRangeSpecParseCreate (field : bytes) (flen : nat) : option HttpHdrRangeSpec :=
  if (flen <? 2)%nat then None
  else
    let? spec :=
      if deref field =? 45 then
        match httpHeaderParseSize (drop 1 field) with
        | (true, v) => Some (mkSpec range_spec_unknown v)
        | (false, _) => None
        end
      else
        match strchr field 45 with
        | None => None
        | Some p =>
            match httpHeaderParseSize field with
            | (false, _) => None
            | (true, off) =>
                let p := drop 1 p in
                if (length field - length p <? flen)%nat then
                  match httpHeaderParseSize p with
                  | (false, _) => None
                  | (true, last_pos) =>
                      Some (mkSpec off (size_diff (wrap_s 64 (last_pos + 1)) off))
                  end
                else Some (mkSpec off range_spec_unknown)
            end
        end in
    if known_spec (length_ spec) && (length_ spec =? 0) then None else Some spec.

(** [httpHdrRangeSpecCanonize]: the spec after the call and the result;
    [None] when one of the assertions fails. *)
Definition httpHdrRangeSpecCanonize (spec : HttpHdrRangeSpec) (clen : Z)
  : option (HttpHdrRangeSpec * bool) :=
  let spec :=
    if negb (known_spec (offset spec)) then mkSpec (size_diff clen (length_ spec)) (length_ spec)
    else if negb (known_spec (length_ spec)) then mkSpec (offset spec) (size_diff clen (offset spec))
    else spec in
  assert? known_spec (length_ spec) in
  assert? known_spec (offset spec) in
  let spec := mkSpec (offset spec) (size_min (size_diff clen (offset spec)) (length_ spec)) in
  Some (spec, 0 <? length_ spec).

(** [httpHdrRangeSpecMergeWith] as compiled, without
    [MERGING_BREAKS_NOTHING]: nothing is merged. *)
Definition httpHdrRangeSpecMergeWith (recep donor : HttpHdrRangeSpec) : HttpHdrRangeSpec * bool :=
  (recep, false).

(** ** Ranges *)

(** [httpHdrRangeParseInit]: the specs, or [None] when the unit is not bytes. *)
Definition httpHdrRangeParseInit (s : bytes) : option (HttpHdrRange * Z) :=
  if negb (strncaseeq s (str "bytes=") 6) then Some ([], 0)
  else
    let? specs := strListWhile (list_fuel (Some s)) (Some s) 44 (Some (drop 6 s))
      (fun specs it n =>
         (match httpHdrRangeSpecParseCreate it n with
          | Some spec => specs ++ [spec]
          | None => specs
          end, true)) [] in
    Some (specs, Z.of_nat (length specs)).

(** [Some None]: the NULL result. *)
Definition httpHdrRangeParseCreate (s : bytes) : option (option HttpHdrRange) :=
  let? (specs, n) := httpHdrRangeParseInit s in
  Some (if n =? 0 then None else Some specs).

(** [httpHdrRangeGetSpec]: the next spec and the position. *)
Definition httpHdrRangeGetSpec (range : HttpHdrRange) (pos : Z) : option (option HttpHdrRangeSpec * Z) :=
  assert? (-1 <=? pos) && (pos <? Z.of_nat (length range)) in
  let pos := pos + 1 in
  Some (if pos <? Z.of_nat (length range) then range !! Z.to_nat pos else None, pos).

(** A [while ((spec = httpHdrRangeGetSpec(range, &pos)))] loop, whose body
    may return from the function. *)
Fixpoint rangeWhile {A} (fuel : nat) (range : HttpHdrRange) (pos : Z)
    (body : A -> HttpHdrRangeSpec -> option (A * bool)) (a : A) : option A :=
  match fuel with
  | O => None
  | S fuel =>
      let? (sp, pos) := httpHdrRangeGetSpec range pos in
      match sp with
      | None => Some a
      | Some spec =>
          let? (a, go) := body a spec in
          if (go : bool) then rangeWhile fuel range pos body a else Some a
      end
  end.

Definition range_fuel (range : HttpHdrRange) : nat := S (length range).

Definition httpHdrRangeDup (range : HttpHdrRange) : HttpHdrRange :=
  map (fun spec => mkSpec (offset spec) (length_ spec)) range.

(** The merge loop of [httpHdrRangeCanonize]: [goods] is what is left from
    index [i] on, [specs] the new [range->specs]. *)
Fixpoint merge_loop (fuel : nat) (goods specs : HttpHdrRange) : option HttpHdrRange :=
  match fuel with
  | O => None
  | S fuel =>
      match goods with
      | [] => Some specs
      | spec :: rest =>
          match list.last specs with
          | Some prev_spec =>
              let '(spec', merged) := httpHdrRangeSpecMergeWith spec prev_spec in
              if (merged : bool) then merge_loop fuel (spec' :: rest) (take (length specs - 1) specs)
              else merge_loop fuel rest (specs ++ [spec'])
          | None => merge_loop fuel rest (specs ++ [spec])
          end
      end
  end.

Definition httpHdrRangeCanonize (range : HttpHdrRange) (clen : Z) : option (HttpHdrRange * bool) :=
  assert? 0 <=? clen in
  let? goods := rangeWhile (range_fuel range) range (-1)
    (fun goods spec =>
       let? (spec, ok) := httpHdrRangeSpecCanonize spec clen in
       Some (if (ok : bool) then goods ++ [spec] else goods, true)) [] in
  let? specs := merge_loop (S (2 * length goods)) goods [] in
  Some (specs, 0 <? Z.of_nat (length specs)).

(** [httpHdrRangeIsComplex]: the state is the offset and the result. *)
Definition httpHdrRangeIsComplex (range : HttpHdrRange) : option bool :=
  let? (_, r) := rangeWhile (range_fuel range) range (-1)
    (fun st spec =>
       let '(off, _) := st in
       if offset spec <? off then Some ((off, true), false)
       else Some ((wrap_s 64 (offset spec + length_ spec), false), true)) (0, false) in
  Some r.

Definition httpHdrRangeWillBeComplex (range : HttpHdrRange) : option bool :=
  let? (_, r) := rangeWhile (range_fuel range) range (-1)
    (fun st spec =>
       let '(off, _) := st in
       if negb (known_spec (offset spec)) then Some (st, true)
       else if offset spec <? off then Some ((off, true), false)
       else
         let off := offset spec in
         Some ((if known_spec (length_ spec) then wrap_s 64 (off + length_ spec) else off, false), true))
    (0, false) in
  Some r.

Definition httpHdrRangeFirstOffset (range : HttpHdrRange) : option Z :=
  rangeWhile (range_fuel range) range (-1)
    (fun off spec =>
       Some (if (offset spec <? off) || negb (known_spec off) then offset spec else off, true))
    range_spec_unknown.

(** [httpHdrRangeLowestOffset]: the state is the offset, or the value
    returned early. *)
Definition httpHdrRangeLowestOffset (range : HttpHdrRange) (size : Z) : option Z :=
  let? r := rangeWhile (range_fuel range) range (-1)
    (fun st spec =>
       let off := default 0 st in
       if negb (known_spec (offset spec)) && ((size <? length_ spec) || negb (known_spec (length_ spec)))
       then Some (None, false)
       else
         let current := if known_spec (offset spec) then offset spec
                        else wrap_s 64 (size - length_ spec) in
         Some (Some (if (current <? off) || negb (known_spec off) then current else off), true))
    (Some range_spec_unknown) in
  Some match r with
       | None => 0
       | Some off => if known_spec off then off else 0
       end.

(** [httpHdrRangeOffsetLimit]: [limit] is [cfg_range_offset_limit]. *)
Definition httpHdrRangeOffsetLimit (limit : Z) (range : option HttpHdrRange) : option bool :=
  match range with
  | None => Some false
  | Some range =>
      if limit =? 0 then Some true
      else if -1 =? limit then Some false
      else
        let? first := httpHdrRangeFirstOffset range in
        Some (negb (first <=? limit))
  end.

(** ** Content-Range *)

Record HttpHdrContRange := mkContRange { spec : HttpHdrRangeSpec; elength : Z }.

Definition httpHdrContRangeCreate : HttpHdrContRange :=
  mkContRange (mkSpec range_spec_unknown range_spec_unknown) range_spec_unknown.

(** [httpHdrRangeRespSpecParseInit]: the spec on success. *)
Definition httpHdrRangeRespSpecParseInit (field : bytes) (flen : nat) : option HttpHdrRangeSpec :=
  if (flen <? 2)%nat then None
  else if deref field =? 42 then Some (mkSpec range_spec_unknown range_spec_unknown)
  else
    let? p := strchr field 45 in
    if negb (length field - length p <? flen)%nat then None
    else
      match httpHeaderParseSize field with
      | (false, _) => None
      | (true, off) =>
          let p := drop 1 p in
          let? len :=
            if (length field - length p <? flen)%nat then
              match httpHeaderParseSize p with
              | (false, _) => None
              | (true, last_pos) => Some (size_diff (wrap_s 64 (last_pos + 1)) off)
              end
            else Some range_spec_unknown in
          if known_spec len && (len =? 0) then None else Some (mkSpec off len)
      end.

(** [httpHdrContRangeParseInit] on a fresh object. *)
Definition httpHdrContRangeParseInit (s : bytes) : option HttpHdrContRange :=
  if negb (strncaseeq s (str "bytes ") 6) then None
  else
    let s := drop 6 s in
    let? p := strchr s 47 in
    let? sp := if deref s =? 42 then Some (mkSpec range_spec_unknown range_spec_unknown)
               else httpHdrRangeRespSpecParseInit s (length s - length p) in
    let p := drop 1 p in
    if deref p =? 42 then Some (mkContRange sp range_spec_unknown)
    else
      match httpHeaderParseSize p with
      | (true, v) => Some (mkContRange sp v)
      | (false, _) => None
      end.

Definition httpHdrContRangeParseCreate (s : bytes) : option HttpHdrContRange :=
  httpHdrContRangeParseInit s.

Definition httpHdrContRangeDup (range : HttpHdrContRange) : HttpHdrContRange := range.

Definition httpHdrContRangeSet (cr : HttpHdrContRange) (sp : HttpHdrRangeSpec) (ent_len : Z)
  : option HttpHdrContRange :=
  assert? 0 <=? ent_len in Some (mkContRange sp ent_len).

(** ** Loops as folds *)

Fixpoint rfold {A} (body : A -> HttpHdrRangeSpec -> option (A * bool)) (a : A) (l : HttpHdrRange) : option A :=
  match l with
  | [] => Some a
  | s :: l =>
      let? (a, go) := body a s in
      if (go : bool) then rfold body a l else Some a
  end.

Lemma rangeWhile_rfold_from {A} pre l (body : A -> HttpHdrRangeSpec -> option (A * bool)) a :
  rangeWhile (S (length l)) (pre ++ l) (Z.of_nat (length pre) - 1) body a = rfold body a l.
Proof.
  revert pre a. induction l as [|s l IH]; intros pre a.
  - cbn [rangeWhile rfold length]. unfold httpHdrRangeGetSpec.
    rewrite app_nil_r, (proj2 (Z.leb_le _ _)), (proj2 (Z.ltb_lt _ _)) by lia. cbn [andb mbind option_bind].
    rewrite (proj2 (Z.ltb_ge _ _)) by lia. done.
  - cbn [length]. set (n := S (length l)) in *. cbn [rangeWhile rfold]. unfold httpHdrRangeGetSpec.
    rewrite length_app. cbn [length].
    rewrite (proj2 (Z.leb_le _ _)), (proj2 (Z.ltb_lt _ _)) by lia. cbn [andb mbind option_bind].
    rewrite (proj2 (Z.ltb_lt _ _)) by lia.
    replace (Z.to_nat (Z.of_nat (length pre) - 1 + 1)) with (length pre) by lia.
    rewrite list_lookup_middle by done. destruct (body a s) as [[a' go]|]; [|done].
    bind_simpl. destruct go; [|done].
    specialize (IH (pre ++ [s]) a'). rewrite length_app in IH. cbn [length] in IH.
    rewrite <- app_assoc in IH. cbn [app] in IH. rewrite <- IH. f_equal. lia.
Qed.

Lemma rangeWhile_rfold {A} range (body : A -> HttpHdrRangeSpec -> option (A * bool)) a :
  rangeWhile (range_fuel range) range (-1) body a = rfold body a range.
Proof. exact (rangeWhile_rfold_from [] range body a). Qed.

(** Nothing is merged. *)
Lemma merge_loop_app goods specs fuel :
  (length goods < fuel)%nat -> merge_loop fuel goods specs = Some (specs ++ goods).
Proof.
  revert goods specs. induction fuel as [|fuel IH]; intros goods specs Hf; [lia|].
  destruct goods as [|s goods]; cbn [merge_loop]; [by rewrite app_nil_r|].
  cbn in Hf. destruct (list.last specs); cbn; rewrite IH by lia; by rewrite <- app_assoc.
Qed.

(** ** Canonization *)

(** What the parser makes of the three forms of byte ranges. *)
Definition wf_spec (s : HttpHdrRangeSpec) : Prop :=
  (offset s = -1 /\ 0 < length_ s < 2 ^ 63) \/
  (0 <= offset s < 2 ^ 63 /\ (length_ s = -1 \/ (0 < length_ s /\ offset s + length_ s < 2 ^ 63))).

#[global] Instance wf_spec_dec s : Decision (wf_spec s).
Proof. unfold wf_spec. apply _. Defined.

(** The byte positions a spec selects of a body of [clen] bytes. *)
Definition in_spec (s : HttpHdrRangeSpec) (clen i : Z) : Prop :=
  0 <= i < clen /\
  if decide (offset s = -1) then clen - length_ s <= i
  else offset s <= i /\ (length_ s = -1 \/ i < offset s + length_ s).

(** The canonical spec. *)
Definition canon (clen : Z) (s : HttpHdrRangeSpec) : HttpHdrRangeSpec :=
  let off := if offset s =? -1 then Z.max 0 (clen - length_ s) else offset s in
  let len := if length_ s =? -1 then Z.max 0 (clen - offset s) else length_ s in
  mkSpec off (Z.min (Z.max 0 (clen - off)) len).

Lemma size_diff_max a b : - 2 ^ 63 <= a < 2 ^ 63 -> 0 <= b < 2 ^ 63 -> size_diff a b = Z.max 0 (a - b).
Proof.
  intros Ha Hb. unfold size_diff. destruct (b <=? a) eqn:E; zify_bools; [|lia].
  rewrite wrap_s_small by lia. lia.
Qed.

Lemma size_min_min a b : size_min a b = Z.min a b.
Proof. unfold size_min. destruct (a <=? b) eqn:E; zify_bools; lia. Qed.

Lemma canonize_canon s clen :
  wf_spec s -> 0 <= clen < 2 ^ 63 ->
  httpHdrRangeSpecCanonize s clen = Some (canon clen s, 0 <? length_ (canon clen s)).
Proof.
  intros Hw Hc. unfold httpHdrRangeSpecCanonize, canon, known_spec, range_spec_unknown.
  destruct s as [o l]. cbn [offset length_] in *. unfold wf_spec in Hw. cbn [offset length_] in Hw.
  destruct Hw as [[-> Hl]|[Ho Hl]].
  - cbn [negb Z.eqb Pos.eqb offset length_]. rewrite (proj2 (Z.eqb_neq l (-1))) by lia. cbn [negb].
    rewrite !(size_diff_max clen) by (rewrite ?(size_diff_max clen) by lia; lia).
    rewrite (proj2 (Z.eqb_neq _ (-1))) by lia. cbn [negb]. rewrite size_min_min. done.
  - rewrite (proj2 (Z.eqb_neq o (-1))) by lia. cbn [negb].
    destruct (l =? -1) eqn:El; zify_bools; cbn [negb offset length_].
    + rewrite !(size_diff_max clen) by lia. rewrite (proj2 (Z.eqb_neq _ (-1))), (proj2 (Z.eqb_neq o (-1))) by lia.
      cbn [negb]. by rewrite size_min_min.
    + rewrite (proj2 (Z.eqb_neq l (-1))), (proj2 (Z.eqb_neq o (-1))) by lia. cbn [negb].
      by rewrite size_min_min, (size_diff_max clen) by lia.
Qed.

Lemma canon_in_spec s clen i :
  wf_spec s -> 0 <= clen ->
  (offset (canon clen s) <= i < offset (canon clen s) + length_ (canon clen s)) <-> in_spec s clen i.
Proof.
  intros Hw Hc. unfold in_spec, canon, wf_spec in *. destruct s as [o l]. cbn [offset length_] in *.
  destruct (decide (o = -1)) as [->|Hne].
  - cbn [Z.eqb Pos.eqb]. rewrite (proj2 (Z.eqb_neq l (-1))) by lia. lia.
  - rewrite (proj2 (Z.eqb_neq o (-1))) by lia. destruct (l =? -1) eqn:El; zify_bools; lia.
Qed.

(** Canonizing a well-formed spec never aborts; the canonical spec is an
    interval of byte positions that is exactly the intersection of what the
    spec denotes with the body, and the result says whether it is non-empty. *)
Theorem httpHdrRangeSpecCanonize_correct s clen :
  wf_spec s -> 0 <= clen < 2 ^ 63 ->
  exists s' ok, httpHdrRangeSpecCanonize s clen = Some (s', ok) /\
    (forall i, (offset s' <= i < offset s' + length_ s') <-> in_spec s clen i) /\
    (ok = true <-> exists i, in_spec s clen i) /\
    0 <= offset s' /\ 0 <= length_ s'.
Proof.
  intros Hw Hc. exists (canon clen s), (0 <? length_ (canon clen s)).
  pose proof (fun i => canon_in_spec s clen i Hw ltac:(lia)) as Hi.
  split_and!; [by apply canonize_canon|done| | |].
  - rewrite Z.ltb_lt. split.
    + intros Hl. exists (offset (canon clen s)). apply Hi. lia.
    + intros [i Hin%Hi]. lia.
  - unfold canon, wf_spec in *. cbn [offset]. case_match; zify_bools; lia.
  - unfold canon, wf_spec in *. cbn [length_]. repeat case_match; zify_bools; lia.
Qed.

(** bytes=-500 of a 200-byte body. *)
Lemma httpHdrRangeSpecCanonize_witness :
  exists s' ok, httpHdrRangeSpecCanonize (mkSpec (-1) 500) 200 = Some (s', ok) /\
    (forall i, (offset s' <= i < offset s' + length_ s') <-> in_spec (mkSpec (-1) 500) 200 i) /\
    (ok = true <-> exists i, in_spec (mkSpec (-1) 500) 200 i) /\
    0 <= offset s' /\ 0 <= length_ s'.
Proof.
  apply httpHdrRangeSpecCanonize_correct; [|lia].
  apply (bool_decide_unpack _). vm_compute. exact I.
Defined.

Lemma canonize_range range clen :
  Forall wf_spec range -> 0 <= clen < 2 ^ 63 ->
  let l := List.filter (fun s => 0 <? length_ s) (map (canon clen) range) in
  httpHdrRangeCanonize range clen = Some (l, 0 <? Z.of_nat (length l)).
Proof.
  intros Hw Hc l. unfold httpHdrRangeCanonize. rewrite (proj2 (Z.leb_le _ _)) by lia.
  rewrite rangeWhile_rfold.
  assert (forall acc, rfold (fun goods spec => let? (spec, ok) := httpHdrRangeSpecCanonize spec clen in
       Some (if (ok : bool) then goods ++ [spec] else goods, true)) acc range = Some (acc ++ l)) as ->.
  { subst l. induction Hw as [|s range Hs _ IH]; intros acc; cbn [rfold map List.filter].
    - by rewrite app_nil_r.
    - rewrite canonize_canon by done. bind_simpl.
      destruct (0 <? length_ (canon clen s)); rewrite IH; [by rewrite <- app_assoc|done]. }
  cbn [mbind option_bind app]. rewrite merge_loop_app by lia. done.
Qed.

(** Canonizing a range canonizes its specs one by one, drops those that
    select nothing, keeps the others in order and succeeds exactly when one
    is left. *)
Theorem httpHdrRangeCanonize_correct range clen :
  Forall wf_spec range -> 0 <= clen < 2 ^ 63 ->
  exists specs, httpHdrRangeCanonize range clen = Some (specs, negb (bool_decide (specs = []))) /\
    specs = List.filter (fun s => 0 <? length_ s) (map (canon clen) range) /\
    Forall (fun s => 0 <= offset s /\ 0 < length_ s /\ offset s + length_ s <= clen) specs /\
    (specs = [] <-> forall i, Forall (fun s => ~ in_spec s clen i) range).
Proof.
  intros Hw Hc. eexists. split; [rewrite canonize_range by done; do 2 f_equal|].
  { destruct (List.filter _ _); done. }
  split; [done|split].
  - apply List.Forall_forall. intros s [Hin Hpos]%filter_In. apply in_map_iff in Hin as (s0 & <- & Hin).
    apply (proj1 (List.Forall_forall _ _) Hw) in Hin. zify_bools.
    unfold canon, wf_spec in *. cbn [offset length_] in *. repeat case_match; zify_bools; lia.
  - split.
    + intros Hnil i. apply List.Forall_forall. intros s Hin Hi.
      pose proof (proj1 (List.Forall_forall _ _) Hw s Hin) as Hs.
      apply canon_in_spec in Hi; [|done|lia].
      assert (In (canon clen s) (List.filter (fun s => 0 <? length_ s) (map (canon clen) range))) as Hf.
      { apply filter_In. split; [by apply in_map|]. apply Z.ltb_lt. lia. }
      rewrite Hnil in Hf. done.
    + intros Hno. destruct (List.filter _ _) as [|s l] eqn:E; [done|exfalso].
      assert (In s (s :: l)) as Hin by by left. rewrite <- E in Hin.
      apply filter_In in Hin as [(s0 & <- & Hin)%in_map_iff Hpos]. zify_bools.
      pose proof (proj1 (List.Forall_forall _ _) Hw s0 Hin) as Hs.
      pose proof (proj1 (List.Forall_forall _ _) (Hno (offset (canon clen s0))) s0 Hin) as Hn.
      apply Hn. apply canon_in_spec; [done|lia|lia].
Qed.

Lemma httpHdrRangeCanonize_witness :
  exists specs, httpHdrRangeCanonize [mkSpec 0 10; mkSpec 300 (-1); mkSpec (-1) 5] 200
                = Some (specs, negb (bool_decide (specs = []))) /\
    specs = List.filter (fun s => 0 <? length_ s) (map (canon 200) [mkSpec 0 10; mkSpec 300 (-1); mkSpec (-1) 5]) /\
    Forall (fun s => 0 <= offset s /\ 0 < length_ s /\ offset s + length_ s <= 200) specs /\
    (specs = [] <-> forall i, Forall (fun s => ~ in_spec s 200 i) [mkSpec 0 10; mkSpec 300 (-1); mkSpec (-1) 5]).
Proof.
  apply httpHdrRangeCanonize_correct; [|lia].
  apply (bool_decide_unpack _). vm_compute. exact I.
Defined.

(** ** Order of the specs *)

(** Each spec starts at or after the end of the previous one. *)
Fixpoint in_order (off : Z) (l : HttpHdrRange) : bool :=
  match l with
  | [] => true
  | s :: l => (off <=? offset s) && in_order (offset s + length_ s) l
  end.

Definition canonical (s : HttpHdrRangeSpec) : Prop :=
  0 <= offset s /\ 0 < length_ s /\ offset s + length_ s < 2 ^ 63.

#[global] Instance canonical_dec s : Decision (canonical s).
Proof. unfold canonical. apply _. Defined.

Lemma isComplex_in_order range :
  Forall canonical range -> httpHdrRangeIsComplex range = Some (negb (in_order 0 range)).
Proof.
  intros Hc. unfold httpHdrRangeIsComplex. rewrite rangeWhile_rfold.
  set (body := fun (st : Z * bool) spec => let '(off, _) := st in
       if offset spec <? off then Some ((off, true), false)
       else Some ((wrap_s 64 (offset spec + length_ spec), false), true)).
  enough (forall off, exists x, rfold body (off, false) range = Some (x, negb (in_order off range))) as He.
  { destruct (He 0) as [x ->]. done. }
  induction Hc as [|s range Hs _ IH]; intros off; cbn [rfold in_order]; [by exists off|].
  change (body (off, false) s) with (if offset s <? off then Some ((off, true), false)
       else Some ((wrap_s 64 (offset s + length_ s), false), true)).
  destruct (offset s <? off) eqn:E; zify_bools; bind_simpl.
  - exists off. rewrite (proj2 (Z.leb_gt _ _)) by lia. done.
  - unfold canonical in Hs. rewrite wrap_s_small by lia.
    destruct (IH (offset s + length_ s)) as [x ->]. exists x. rewrite (proj2 (Z.leb_le _ _)) by lia. done.
Qed.

Lemma in_order_sorted off l :
  Forall canonical l ->
  in_order off l = true <->
  Forall (fun s => off <= offset s) l /\
  StronglySorted (fun a b => offset a + length_ a <= offset b) l.
Proof.
  intros Hc. revert off. induction Hc as [|s l Hs Hc IH]; intros off; cbn [in_order].
  - split; [by repeat constructor|done].
  - rewrite andb_true_iff, Z.leb_le, IH. unfold canonical in Hs. split.
    + intros (Ho & Hf & Hss). split; [|by constructor]. constructor; [done|].
      eapply List.Forall_impl; [|exact Hf]. cbn. lia.
    + intros [Hf Hss]. inversion Hf; inversion Hss; subst. done.
Qed.

(** A canonized range is not "complex" exactly when its specs are in
    ascending order and do not overlap. *)
Theorem httpHdrRangeIsComplex_correct range :
  Forall canonical range ->
  httpHdrRangeIsComplex range = Some false <->
  StronglySorted (fun a b => offset a + length_ a <= offset b) range.
Proof.
  intros Hc. rewrite isComplex_in_order by done.
  assert (in_order 0 range = true <-> StronglySorted (fun a b => offset a + length_ a <= offset b) range) as Hi.
  { rewrite in_order_sorted by done. split; [by intros [_ ?]|]. intros ?. split; [|done].
    eapply List.Forall_impl; [|exact Hc]. unfold canonical. cbn. lia. }
  rewrite <- Hi. destruct (in_order 0 range); naive_solver.
Qed.

Lemma httpHdrRangeIsComplex_witness :
  httpHdrRangeIsComplex [mkSpec 0 10; mkSpec 10 5; mkSpec 20 1] = Some false <->
  StronglySorted (fun a b => offset a + length_ a <= offset b) [mkSpec 0 10; mkSpec 10 5; mkSpec 20 1].
Proof.
  apply httpHdrRangeIsComplex_correct. apply (bool_decide_unpack _). vm_compute. exact I.
Defined.

(** The test before the length is known. *)
Fixpoint may_be_in_order (off : Z) (l : HttpHdrRange) : bool :=
  match l with
  | [] => true
  | s :: l =>
      if offset s =? -1 then may_be_in_order off l
      else (off <=? offset s) &&
           may_be_in_order (if length_ s =? -1 then offset s else offset s + length_ s) l
  end.

Lemma willBeComplex_may range :
  Forall wf_spec range -> httpHdrRangeWillBeComplex range = Some (negb (may_be_in_order 0 range)).
Proof.
  intros Hc. unfold httpHdrRangeWillBeComplex. rewrite rangeWhile_rfold.
  set (body := fun (st : Z * bool) spec => let '(off, _) := st in
       if negb (known_spec (offset spec)) then Some (st, true)
       else if offset spec <? off then Some ((off, true), false)
       else
         let off := offset spec in
         Some ((if known_spec (length_ spec) then wrap_s 64 (off + length_ spec) else off, false), true)).
  enough (forall off, exists x, rfold body (off, false) range = Some (x, negb (may_be_in_order off range))) as He.
  { destruct (He 0) as [x ->]. done. }
  induction Hc as [|s range Hs _ IH]; intros off; cbn [rfold may_be_in_order]; [by exists off|].
  change (body (off, false) s) with
      (if negb (negb (offset s =? -1)) then Some ((off, false), true)
       else if offset s <? off then Some ((off, true), false)
       else Some ((if negb (length_ s =? -1) then wrap_s 64 (offset s + length_ s) else offset s, false), true)).
  rewrite negb_involutive.
  destruct (offset s =? -1) eqn:Eo; zify_bools; bind_simpl; [apply IH|].
  destruct (offset s <? off) eqn:E; zify_bools; bind_simpl.
  - exists off. rewrite (proj2 (Z.leb_gt _ _)) by lia. done.
  - rewrite (proj2 (Z.leb_le _ _)) by lia. cbn [andb]. unfold wf_spec in Hs.
    destruct (length_ s =? -1) eqn:El; zify_bools; cbn [negb]; [apply IH|].
    rewrite wrap_s_small by lia. apply IH.
Qed.

(** In order after canonization implies in order before, as far as known. *)
Lemma in_order_may clen range offw offc :
  Forall wf_spec range -> 0 <= clen -> Forall (fun s => 0 < length_ (canon clen s)) range ->
  offw <= offc \/ clen <= offc ->
  in_order offc (map (canon clen) range) = true -> may_be_in_order offw range = true.
Proof.
  intros Hw Hc Hs. revert offw offc. induction range as [|s range IH]; intros offw offc Hoff; [done|].
  inversion Hw as [|? ? Hws Hwr]; inversion Hs as [|? ? Hss Hsr]; subst. cbn [map in_order may_be_in_order].
  intros H. apply andb_true_iff in H as [Hle Hin]. zify_bools.
  assert (offset (canon clen s) < clen) by (unfold canon in *; cbn [offset length_] in *; lia).
  assert (offw <= offc) as Hoff' by lia. clear Hoff.
  destruct (offset s =? -1) eqn:Eo.
  - eapply IH; [done|done| |exact Hin]. right. zify_bools. unfold canon, wf_spec in *.
    rewrite Eo in *. cbn [Z.eqb Pos.eqb offset length_] in *. repeat case_match; zify_bools; lia.
  - assert (offset (canon clen s) = offset s) as Ho by (unfold canon; cbn; by rewrite Eo).
    rewrite (proj2 (Z.leb_le _ _)) by lia. cbn [andb].
    eapply IH; [done|done| |exact Hin]. zify_bools. unfold canon, wf_spec in *.
    cbn [offset length_] in *. repeat case_match; zify_bools; lia.
Qed.

(** The early test is not too strict: a range it rejects before the
    content length is known is rejected after canonization too, for every
    length for which all of its specs are satisfiable. *)
Theorem httpHdrRangeWillBeComplex_sound range clen :
  Forall wf_spec range -> 0 <= clen < 2 ^ 63 -> Forall (fun s => exists i, in_spec s clen i) range ->
  httpHdrRangeWillBeComplex range = Some true ->
  exists specs ok, httpHdrRangeCanonize range clen = Some (specs, ok) /\
                   httpHdrRangeIsComplex specs = Some true.
Proof.
  intros Hw Hc Hsat. rewrite willBeComplex_may by done. intros [= Hm].
  assert (Forall (fun s => 0 < length_ (canon clen s)) range) as Hpos.
  { apply List.Forall_forall. intros s Hin.
    destruct (proj1 (List.Forall_forall _ _) Hsat s Hin) as [i Hi].
    apply canon_in_spec in Hi; [lia|by apply (proj1 (List.Forall_forall _ _) Hw)|lia]. }
  eexists _, _. split; [by apply canonize_range|].
  assert (List.filter (fun s => 0 <? length_ s) (map (canon clen) range) = map (canon clen) range) as ->.
  { clear -Hpos. induction Hpos as [|s l Hs _ IH]; cbn; [done|]. by rewrite (proj2 (Z.ltb_lt _ _)), IH. }
  rewrite isComplex_in_order.
  - f_equal. destruct (in_order 0 (map (canon clen) range)) eqn:E; [|done].
    apply (in_order_may clen range 0 0) in E; [|done|lia|done|by left]. by rewrite E in Hm.
  - apply List.Forall_forall. intros s (s0 & <- & Hin)%in_map_iff.
    pose proof (proj1 (List.Forall_forall _ _) Hpos s0 Hin).
    pose proof (proj1 (List.Forall_forall _ _) Hw s0 Hin) as Hs0.
    unfold canonical, canon, wf_spec in *. cbn [offset length_] in *. repeat case_match; zify_bools; lia.
Qed.

Lemma httpHdrRangeWillBeComplex_witness :
  exists specs ok, httpHdrRangeCanonize [mkSpec 5 10; mkSpec 7 (-1)] 100 = Some (specs, ok) /\
                   httpHdrRangeIsComplex specs = Some true.
Proof.
  apply httpHdrRangeWillBeComplex_sound; [|lia| |done].
  - apply (bool_decide_unpack _). vm_compute. exact I.
  - repeat constructor; [exists 5|exists 7]; vm_compute; split; intuition discriminate.
Defined.

(** ** Offsets *)

Lemma firstOffset_fold range off :
  0 <= off -> Forall (fun s => 0 <= offset s) range ->
  exists m, rfold (fun off spec =>
       Some (if (offset spec <? off) || negb (known_spec off) then offset spec else off, true)) off range = Some m /\
    In m (off :: map offset range) /\ Forall (fun x => m <= x) (off :: map offset range).
Proof.
  intros Ho Hr. revert off Ho. induction Hr as [|s range Hs Hr IH]; intros off Ho; cbn [rfold].
  - exists off. split; [done|]. split; [by left|by repeat constructor].
  - bind_simpl. unfold known_spec, range_spec_unknown.
    rewrite (proj2 (Z.eqb_neq off (-1))), orb_false_r by lia. cbn [negb].
    destruct (offset s <? off) eqn:E; zify_bools.
    + destruct (IH (offset s) Hs) as (m & Hm & Hin & Hall). exists m. split; [exact Hm|].
      inversion Hall; subst. split; [cbn in *; tauto|]. constructor; [lia|]. by cbn.
    + destruct (IH off Ho) as (m & Hm & Hin & Hall). exists m. split; [exact Hm|].
      inversion Hall; subst. split; [cbn in *; tauto|]. constructor; [lia|]. constructor; [lia|done].
Qed.

(** When every spec has a first byte position, [httpHdrRangeFirstOffset]
    is the lowest of them. *)
Theorem httpHdrRangeFirstOffset_lowest range :
  range <> [] -> Forall (fun s => 0 <= offset s) range ->
  exists m, httpHdrRangeFirstOffset range = Some m /\ In m (map offset range) /\
            Forall (fun x => m <= x) (map offset range).
Proof.
  intros Hne Hr. unfold httpHdrRangeFirstOffset. rewrite rangeWhile_rfold.
  destruct Hr as [|s range Hs Hr]; [done|]. cbn [rfold mbind option_bind].
  rewrite orb_true_r. destruct (firstOffset_fold range (offset s) Hs Hr) as (m & Hm & Hin & Hall).
  exists m. split; [exact Hm|]. split; [by cbn|by cbn].
Qed.

Lemma httpHdrRangeFirstOffset_witness :
  exists m, httpHdrRangeFirstOffset [mkSpec 30 5; mkSpec 10 5] = Some m /\ In m [30; 10] /\
            Forall (fun x => m <= x) [30; 10].
Proof. apply (httpHdrRangeFirstOffset_lowest [mkSpec 30 5; mkSpec 10 5]); [done|repeat constructor; cbn; lia]. Defined.

(** A suffix spec makes [httpHdrRangeFirstOffset] forget the offsets before it:
    for bytes=10-20,-5,100-200 the result is 100, although 10 is the lowest
    known offset, and for bytes=10-20,-5 no offset is known at all. *)
Theorem httpHdrRangeFirstOffset_suffix :
  httpHdrRangeFirstOffset [mkSpec 10 11; mkSpec (-1) 5; mkSpec 100 101] = Some 100 /\
  httpHdrRangeFirstOffset [mkSpec 10 11; mkSpec (-1) 5] = Some range_spec_unknown.
Proof. done. Qed.

(** The offset a spec starts at in a body of [size] bytes. *)
Definition start_of (size : Z) (s : HttpHdrRangeSpec) : Z := offset (canon size s).

Lemma lowestOffset_fold size range off :
  0 <= size < 2 ^ 63 -> 0 <= off -> Forall wf_spec range ->
  exists r m, rfold (fun st spec =>
       let off := default 0 st in
       if negb (known_spec (offset spec)) && ((size <? length_ spec) || negb (known_spec (length_ spec)))
       then Some (None, false)
       else
         let current := if known_spec (offset spec) then offset spec
                        else wrap_s 64 (size - length_ spec) in
         Some (Some (if (current <? off) || negb (known_spec off) then current else off), true))
     (Some off) range = Some r /\
    m = default 0 r /\ 0 <= m /\
    In m (off :: map (start_of size) range) /\ Forall (fun x => m <= x) (off :: map (start_of size) range).
Proof.
  intros Hs Ho Hr. revert off Ho. induction Hr as [|s range Hw Hr IH]; intros off Ho; cbn [rfold].
  - exists (Some off), off. split_and!; try done; [by left|by repeat constructor].
  - cbv zeta. cbn [default from_option id]. unfold known_spec, range_spec_unknown.
    rewrite negb_involutive, (proj2 (Z.eqb_neq off (-1))) by lia. cbn [negb]. rewrite orb_false_r.
    assert (Forall (fun x => 0 <= x) (map (start_of size) range)) as Hpos.
    { apply List.Forall_forall. intros x (s0 & <- & Hin)%in_map_iff.
      pose proof (proj1 (List.Forall_forall _ _) Hr s0 Hin). unfold start_of, canon, wf_spec in *.
      cbn [offset]. case_match; zify_bools; lia. }
    destruct ((offset s =? -1) && _) eqn:E.
    + zify_bools. exists None, 0. split; [done|]. split; [done|]. split; [done|].
      assert (start_of size s = 0) as Hz.
      { unfold start_of, canon, wf_spec in *. cbn [offset]. rewrite H. cbn.
        rewrite (proj2 (Z.eqb_neq _ (-1))), orb_false_r in H0 by lia. zify_bools. lia. }
      split; [right; left; done|]. constructor; [done|]. constructor; [lia|done].
    + set (cur := if negb (offset s =? -1) then offset s else wrap_s 64 (size - length_ s)).
      assert (cur = start_of size s /\ 0 <= cur) as [Hcur Hcur0].
      { unfold cur, start_of, canon, wf_spec in *. cbn [offset].
        destruct (offset s =? -1) eqn:Eo; cbn [negb] in *; zify_bools; [|lia].
        rewrite (proj2 (Z.eqb_neq (length_ s) (-1))), orb_false_r in E by lia. cbn in E. zify_bools.
        rewrite wrap_s_small by lia. lia. }
      cbn [mbind option_bind map]. rewrite <- Hcur. destruct (cur <? off) eqn:El; zify_bools.
      * destruct (IH cur Hcur0) as (r & m & Hm & Hd & Hp & Hin & Hall). exists r, m.
        inversion Hall; subst. split_and!; try done; [cbn in *; tauto|]. constructor; [lia|done].
      * destruct (IH off Ho) as (r & m & Hm & Hd & Hp & Hin & Hall). exists r, m.
        inversion Hall; subst. split_and!; try done; [cbn in *; tauto|]. constructor; [lia|]. constructor; [lia|done].
Qed.

(** [httpHdrRangeLowestOffset] is the lowest byte position at which one of
    the specs starts in a body of the given size, suffix specs included. *)
Theorem httpHdrRangeLowestOffset_correct range size :
  range <> [] -> Forall wf_spec range -> 0 <= size < 2 ^ 63 ->
  exists m, httpHdrRangeLowestOffset range size = Some m /\
    In m (map (start_of size) range) /\ Forall (fun x => m <= x) (map (start_of size) range).
Proof.
  intros Hne Hr Hs. unfold httpHdrRangeLowestOffset. rewrite rangeWhile_rfold.
  destruct Hr as [|s range Hw Hr]; [done|].
  assert (0 <= start_of size s) as H0.
  { unfold start_of, canon, wf_spec in *. cbn [offset]. case_match; zify_bools; lia. }
  destruct (lowestOffset_fold size (s :: range) (start_of size s) Hs H0) as (r & m & Hm & Hd & Hp & Hin & Hall);
    [by constructor|].
  exists m. cbn [rfold] in Hm |- *. cbn [default from_option id] in Hm |- *.
  replace (negb (known_spec range_spec_unknown)) with true by done. rewrite orb_true_r.
  rewrite Hd in *. clear m Hd. set (c := _ && _) in *. destruct c eqn:Ec.
  - cbn [mbind option_bind] in *. injection Hm as <-. split; [done|].
    split; [cbn in *; tauto|by inversion Hall].
  - cbn [mbind option_bind] in *. cbv zeta in Hm.
    set (cur := if known_spec (offset s) then offset s else wrap_s 64 (size - length_ s)) in *.
    assert (cur = start_of size s) as Hcur.
    { unfold c, cur, start_of, canon, wf_spec, known_spec, range_spec_unknown in *. cbn [offset].
      destruct (offset s =? -1) eqn:Eo; cbn [negb] in *; zify_bools; [|done].
      rewrite (proj2 (Z.eqb_neq (length_ s) (-1))), orb_false_r in Ec by lia. cbn in Ec. zify_bools.
      rewrite wrap_s_small by lia. lia. }
    rewrite <- Hcur in *. rewrite Z.ltb_irrefl in Hm.
    assert (known_spec cur = true) as Hk by (unfold known_spec, range_spec_unknown; rewrite (proj2 (Z.eqb_neq _ _)) by lia; done).
    rewrite Hk in Hm. cbn [orb negb] in Hm. rewrite Hm. bind_simpl.
    split; [|split; [rewrite Hcur in Hin; cbn [map In] in *; tauto|by inversion Hall]].
    destruct r as [off|]; [|done]. cbn in Hp |- *. unfold known_spec, range_spec_unknown.
    rewrite (proj2 (Z.eqb_neq _ _)) by lia. done.
Qed.

Lemma httpHdrRangeLowestOffset_witness :
  exists m, httpHdrRangeLowestOffset [mkSpec 30 5; mkSpec (-1) 80] 100 = Some m /\ In m [30; 20] /\
            Forall (fun x => m <= x) [30; 20].
Proof.
  apply (httpHdrRangeLowestOffset_correct [mkSpec 30 5; mkSpec (-1) 80] 100); [done| |lia].
  apply (bool_decide_unpack _). vm_compute. exact I.
Defined.

(** ** Parsing *)

(** The text of a spec. *)
Definition print_spec (s : HttpHdrRangeSpec) : bytes :=
  if offset s =? -1 then 45 :: dec (length_ s)
  else dec (offset s) ++ 45 :: (if length_ s =? -1 then [] else dec (offset s + length_ s - 1)).

Definition list_tail (r : bytes) : Prop := r = [] \/ deref r = 44.

Lemma list_tail_not_digit r : list_tail r -> not_digit_head r.
Proof. unfold not_digit_head. intros [->| ->]; done. Qed.

Lemma strchr_digits l p :
  Forall (fun c => isdigit c = true) l -> strchr (l ++ 45 :: p) 45 = Some (45 :: p).
Proof.
  induction 1 as [|c l Hc _ IH]; cbn; [done|]. unfold isdigit in Hc. zify_bools.
  by rewrite (proj2 (Z.eqb_neq c 45)) by lia.
Qed.

Lemma parse_print_spec s r :
  wf_spec s -> list_tail r ->
  httpHdrRangeSpecParseCreate (print_spec s ++ r) (length (print_spec s)) = Some s.
Proof.
  intros Hw Hr. unfold httpHdrRangeSpecParseCreate, print_spec. destruct s as [o l]. cbn [offset length_].
  unfold wf_spec in Hw. cbn [offset length_] in Hw.
  destruct (o =? -1) eqn:Eo; zify_bools.
  - subst o. destruct (dec_spec l ltac:(lia)) as (Hne & _).
    rewrite (proj2 (Nat.ltb_ge _ _)) by (destruct (dec l); [done|cbn; lia]).
    cbn [app deref hd Z.eqb Pos.eqb drop]. rewrite drop_0, httpHeaderParseSize_dec; [|lia|by apply list_tail_not_digit].
    cbn [mbind option_bind length_]. rewrite (proj2 (Z.eqb_neq l 0)), andb_false_r by lia. done.
  - destruct (dec_spec o ltac:(lia)) as (Hne & Hd & _).
    pose proof (dec_head o ltac:(lia)) as Hh.
    set (tl := if l =? -1 then [] else dec (o + l - 1)).
    rewrite <- app_assoc. cbn [app].
    rewrite (proj2 (Nat.ltb_ge _ _)) by (rewrite length_app; destruct (dec o); [done|cbn; lia]).
    assert ((deref (dec o ++ 45 :: tl ++ r) =? 45) = false) as ->.
    { destruct (dec o); [done|]. cbn in *. unfold isdigit in Hh. zify_bools. lia. }
    rewrite strchr_digits by done. rewrite httpHeaderParseSize_dec by (done || lia).
    cbn [drop]. rewrite drop_0, !length_app. cbn [length]. rewrite length_app.
    subst tl. destruct (l =? -1) eqn:El; zify_bools.
    + subst l. cbn [length app Nat.add].
      rewrite (proj2 (Nat.ltb_ge _ _)) by lia. done.
    + destruct (dec_spec (o + l - 1) ltac:(lia)) as (Hne2 & _).
      rewrite (proj2 (Nat.ltb_lt _ _)) by (destruct (dec (o + l - 1)); [done|cbn; lia]).
      rewrite httpHeaderParseSize_dec; [|lia|by apply list_tail_not_digit].
      cbn [mbind option_bind length_]. rewrite wrap_s_small by lia.
      rewrite size_diff_max by lia. replace (Z.max 0 (o + l - 1 + 1 - o)) with l by lia.
      rewrite (proj2 (Z.eqb_neq l 0)), andb_false_r by lia. done.
Qed.

Lemma digit_token_char c : isdigit c = true -> token_char c = true.
Proof.
  unfold isdigit, token_char, isspace. intros H. zify_bools.
  rewrite !andb_true_iff, !negb_true_iff, orb_false_iff, andb_false_iff. lia.
Qed.

Lemma print_spec_token s : wf_spec s -> token (print_spec s).
Proof.
  intros Hw. unfold token, print_spec, wf_spec in *.
  assert (forall n, 0 <= n < 2 ^ 63 -> Forall (fun c => token_char c = true) (dec n)) as Hd.
  { intros n Hn. destruct (dec_spec n ltac:(lia)) as (_ & H & _).
    eapply List.Forall_impl; [|exact H]. apply digit_token_char. }
  destruct (offset s =? -1) eqn:Eo; zify_bools.
  - split; [done|]. constructor; [done|]. apply Hd. lia.
  - split; [destruct (dec (offset s)); done|].
    apply Forall_app. split; [apply Hd; lia|]. constructor; [done|].
    destruct (length_ s =? -1) eqn:El; zify_bools; [constructor|apply Hd; lia].
Qed.

(** The header value for a list of specs. *)
Definition print_range (range : HttpHdrRange) : bytes :=
  str "bytes=" ++ foldl (fun s it => strListAdd s it 44) [] (map print_spec range).

Lemma parse_ptrs range acc :
  Forall wf_spec range ->
  foldl (fun specs d => match httpHdrRangeSpecParseCreate (fst d) (snd d) with
                        | Some spec => specs ++ [spec] | None => specs end)
        acc (ptrs (map print_spec range)) = acc ++ range.
Proof.
  intros Hw. revert acc. induction Hw as [|s range Hs _ IH]; intros acc; cbn [map ptrs foldl fst snd].
  - by rewrite app_nil_r.
  - rewrite parse_print_spec; [|done|]; [by rewrite IH, <- app_assoc|].
    destruct range; [by left|by right].
Qed.

(** A Range header built from well-formed specs is parsed back to exactly
    those specs, in order. *)
Theorem httpHdrRange_roundtrip range :
  range <> [] -> Forall wf_spec range ->
  httpHdrRangeParseCreate (print_range range) = Some (Some range).
Proof.
  intros Hne Hw. destruct range as [|s range]; [done|].
  unfold httpHdrRangeParseCreate, httpHdrRangeParseInit.
  inversion Hw as [|? ? Hs Hr]; subst. pose proof (print_spec_token s Hs) as Ht.
  assert (print_range (s :: range) = str "bytes=" ++ print_spec s ++ join (map print_spec range)) as Hp.
  { unfold print_range. cbn [map foldl].
    change (strListAdd [] (print_spec s) 44) with (print_spec s).
    rewrite foldl_join; [done|apply Ht]. }
  rewrite Hp.
  assert (forall x, strncaseeq (str "bytes=" ++ x) (str "bytes=") 6 = true) as -> by done.
  cbn [negb].
  assert (forall x, drop 6 (str "bytes=" ++ x) = x) as -> by (intros x; exact (drop_0 x)).
  rewrite (strListWhile_tokens _ _ [] (print_spec s) (map print_spec range)
    (fun specs it n => match httpHdrRangeSpecParseCreate it n with
                       | Some spec => specs ++ [spec] | None => specs end)).
  - change (print_spec s :: map print_spec range) with (map print_spec (s :: range)).
    rewrite parse_ptrs by done. cbn [mbind option_bind app].
    rewrite (proj2 (Z.eqb_neq _ 0)) by (cbn; lia). done.
  - by left.
  - constructor; [done|]. apply Forall_map. eapply List.Forall_impl; [|exact Hr]. apply print_spec_token.
  - unfold list_fuel. cbn [default from_option id]. rewrite !length_app. cbn. lia.
Qed.

Lemma httpHdrRange_roundtrip_witness :
  httpHdrRangeParseCreate (print_range [mkSpec 0 500; mkSpec 700 (-1); mkSpec (-1) 20])
  = Some (Some [mkSpec 0 500; mkSpec 700 (-1); mkSpec (-1) 20]).
Proof.
  apply httpHdrRange_roundtrip; [done|]. apply (bool_decide_unpack _). vm_compute. exact I.
Defined.

(** The suffix length of a Range header may be negative: "bytes=--1" is
    accepted with an unknown offset and an unknown length, and canonizing it
    fails the assertion that the length is known, whatever the body length. *)
Theorem httpHdrRange_double_dash clen :
  httpHdrRangeParseCreate (str "bytes=--1")
    = Some (Some [mkSpec range_spec_unknown range_spec_unknown]) /\
  httpHdrRangeCanonize [mkSpec range_spec_unknown range_spec_unknown] clen = None.
Proof.
  split; [vm_compute; reflexivity|]. unfold httpHdrRangeCanonize. by destruct (0 <=? clen).
Qed.

(** The '-' of a spec is searched in the rest of the header, not in the
    spec: "bytes=55,7-9" is accepted and its first item is read as "55-". *)
Theorem httpHdrRange_dash_of_next_item :
  httpHdrRangeParseCreate (str "bytes=55,7-9")
    = Some (Some [mkSpec 55 range_spec_unknown; mkSpec 7 3]) /\
  httpHdrRangeParseCreate (str "bytes=55") = Some None.
Proof. vm_compute. done. Qed.

(** White space that is not a list delimiter (VT, FF) lets a sign through:
    a spec can have a negative first position, and canonizing keeps it, so
    that the resulting interval starts before the body. *)
Theorem httpHdrRange_negative_offset :
  httpHdrRangeParseCreate (str "bytes=" ++ [11] ++ str "-5-9") = Some (Some [mkSpec (-5) 11]) /\
  httpHdrRangeCanonize [mkSpec (-5) 11] 100 = Some ([mkSpec (-5) 11], true).
Proof. vm_compute. done. Qed.

(** ** Content-Range *)

Definition print_cont_range (first last total : Z) : bytes :=
  str "bytes " ++ dec first ++ 45 :: dec last ++ 47 :: dec total.

Lemma strchr_skip l p c :
  Forall (fun d => d <> c) l -> strchr (l ++ c :: p) c = Some (c :: p).
Proof.
  induction 1 as [|d l Hd _ IH]; cbn; [by rewrite Z.eqb_refl|].
  by rewrite (proj2 (Z.eqb_neq d c)).
Qed.

Lemma digits_neq l c : isdigit c = false -> Forall (fun d => isdigit d = true) l -> Forall (fun d => d <> c) l.
Proof. intros Hc Hl. eapply List.Forall_impl; [|exact Hl]. cbn. congruence. Qed.

(** A Content-Range header "bytes first-last/total" is parsed to the
    offset, the number of bytes and the entity length. *)
Theorem httpHdrContRange_roundtrip first last total :
  0 <= first <= last -> last < 2 ^ 63 - 1 -> 0 <= total < 2 ^ 63 ->
  httpHdrContRangeParseCreate (print_cont_range first last total)
  = Some (mkContRange (mkSpec first (last - first + 1)) total).
Proof.
  intros Hf Hl Ht. unfold httpHdrContRangeParseCreate, httpHdrContRangeParseInit, print_cont_range.
  assert (forall x, strncaseeq (str "bytes " ++ x) (str "bytes ") 6 = true) as -> by done. cbn [negb].
  assert (forall x, drop 6 (str "bytes " ++ x) = x) as -> by (intros x; exact (drop_0 x)).
  destruct (dec_spec first ltac:(lia)) as (Hne1 & Hd1 & _).
  destruct (dec_spec last ltac:(lia)) as (Hne2 & Hd2 & _).
  pose proof (dec_head first ltac:(lia)) as Hh1. pose proof (dec_head total ltac:(lia)) as Hh3.
  assert (strchr (dec first ++ 45 :: dec last ++ 47 :: dec total) 47 = Some (47 :: dec total)) as ->.
  { change (dec first ++ 45 :: dec last ++ 47 :: dec total) with
      (dec first ++ ([45] ++ dec last) ++ 47 :: dec total).
    rewrite app_assoc. apply strchr_skip. apply Forall_app. split; [by apply digits_neq|].
    constructor; [done|]. by apply digits_neq. }
  bind_simpl.
  assert ((deref (dec first ++ 45 :: dec last ++ 47 :: dec total) =? 42) = false) as Hstar.
  { destruct (dec first); [done|]. cbn in *. unfold isdigit in Hh1. zify_bools. lia. }
  rewrite Hstar. unfold httpHdrRangeRespSpecParseInit.
  rewrite !length_app. cbn [length]. rewrite !length_app. cbn [length].
  assert (0 < length (dec first))%nat by (destruct (dec first); [done|cbn; lia]).
  assert (0 < length (dec last))%nat by (destruct (dec last); [done|cbn; lia]).
  rewrite (proj2 (Nat.ltb_ge _ _)) by lia. rewrite Hstar.
  rewrite strchr_digits by done. cbn [mbind option_bind drop length]. rewrite !drop_0, !length_app. cbn [length].
  rewrite (proj2 (Nat.ltb_lt _ _)) by lia. cbn [negb].
  rewrite httpHeaderParseSize_dec by (done || lia).
  rewrite (proj2 (Nat.ltb_lt _ _)) by lia.
  rewrite httpHeaderParseSize_dec by (done || lia). bind_simpl.
  rewrite wrap_s_small, size_diff_max by lia.
  replace (Z.max 0 (last + 1 - first)) with (last - first + 1) by lia.
  rewrite (proj2 (Z.eqb_neq (last - first + 1) 0)), andb_false_r by lia. bind_simpl.
  assert ((deref (dec total) =? 42) = false) as ->.
  { destruct (dec total); [done|]. cbn in *. unfold isdigit in Hh3. zify_bools. lia. }
  rewrite <- (app_nil_r (dec total)), httpHeaderParseSize_dec by (done || lia). done.
Qed.

Lemma httpHdrContRange_roundtrip_witness :
  httpHdrContRangeParseCreate (print_cont_range 100 199 1000) = Some (mkContRange (mkSpec 100 100) 1000).
Proof. apply (httpHdrContRange_roundtrip 100 199 1000); lia. Defined.

End HttpHdrRange.
