(* ===== verification/Cbit.v ===== *)
(** * Bit arrays: the CBIT macros of libcore/tools.h

    A bit array is a list of bytes.  The accesses are partial: a bit outside
    the array is an access outside the object. *)

From Stdlib Require Import ZArith Lia.
From stdpp Require Import base list numbers option.
From S2P Require Import Prelude.

Module Cbit.

Definition CBIT_BIT (bit : Z) : Z := Z.shiftl 1 (bit `mod` 8).
Definition CBIT_BIN (bit : Z) : Z := Z.shiftr bit 3.

Definition cbit_byte (mask : list Z) (bit : Z) : option Z :=
  assert? 0 <=? bit in mask !! Z.to_nat (CBIT_BIN bit).

Definition CBIT_SET (mask : list Z) (bit : Z) : option (list Z) :=
  let? b := cbit_byte mask bit in
  Some (<[Z.to_nat (CBIT_BIN bit) := Z.lor b (CBIT_BIT bit)]> mask).

Definition CBIT_CLR (mask : list Z) (bit : Z) : option (list Z) :=
  let? b := cbit_byte mask bit in
  Some (<[Z.to_nat (CBIT_BIN bit) := Z.ldiff b (CBIT_BIT bit)]> mask).

Definition CBIT_TEST (mask : list Z) (bit : Z) : option bool :=
  let? b := cbit_byte mask bit in
  Some (negb (Z.land b (CBIT_BIT bit) =? 0)).

(** ** Abstraction: the set of bits *)

Definition cbit (mask : list Z) (bit : Z) : bool :=
  Z.testbit (nth (Z.to_nat (bit / 8)) mask 0) (bit `mod` 8).

Definition in_mask (mask : list Z) (bit : Z) : Prop := 0 <= bit < 8 * Z.of_nat (length mask).

Lemma cbin_div bit : CBIT_BIN bit = bit / 8.
Proof. unfold CBIT_BIN. by rewrite Z.shiftr_div_pow2. Qed.

Lemma cbin_lt mask bit : in_mask mask bit -> (Z.to_nat (bit / 8) < length mask)%nat.
Proof. unfold in_mask. intros H. assert (bit / 8 < Z.of_nat (length mask)) by (apply Z.div_lt_upper_bound; lia). 
  pose proof (Z.div_pos bit 8). lia. Qed.

Lemma cbit_byte_nth mask bit :
  in_mask mask bit -> cbit_byte mask bit = Some (nth (Z.to_nat (bit / 8)) mask 0).
Proof.
  intros H. pose proof (cbin_lt _ _ H). unfold cbit_byte.
  rewrite (proj2 (Z.leb_le _ _)) by (unfold in_mask in H; lia). rewrite cbin_div.
  destruct (lookup_lt_is_Some_2 mask (Z.to_nat (bit / 8))) as [x Hx]; [done|].
  rewrite Hx. f_equal. symmetry. by apply nth_lookup_Some.
Qed.

Lemma CBIT_TEST_cbit mask bit : in_mask mask bit -> CBIT_TEST mask bit = Some (cbit mask bit).
Proof.
  intros H. unfold CBIT_TEST. rewrite cbit_byte_nth by done. bind_simpl.
  f_equal. change (negb (Z.land ?b (CBIT_BIT bit) =? 0)) with (EBIT_TEST b (bit `mod` 8)).
  apply EBIT_TEST_testbit. apply Z.mod_pos_bound. lia.
Qed.

Lemma nth_insert (l : list Z) i j x d :
  (i < length l)%nat -> nth j (<[i := x]> l) d = if decide (i = j) then x else nth j l d.
Proof.
  intros Hi. rewrite !nth_lookup. case_decide; subst.
  - by rewrite list_lookup_insert_eq.
  - by rewrite list_lookup_insert_ne.
Qed.

Lemma same_bit b bit : 0 <= b -> 0 <= bit -> b / 8 = bit / 8 -> b `mod` 8 = bit `mod` 8 -> b = bit.
Proof. intros. rewrite (Z.div_mod b 8), (Z.div_mod bit 8) by lia. lia. Qed.

(** The effect of an update of one byte by a bitwise operation on its bit. *)
Lemma cbit_insert mask bit v f :
  in_mask mask bit ->
  (forall i, Z.testbit v i = if decide (i = bit `mod` 8) then f else
                               Z.testbit (nth (Z.to_nat (bit / 8)) mask 0) i) ->
  forall b, 0 <= b -> cbit (<[Z.to_nat (bit / 8) := v]> mask) b = if decide (b = bit) then f else cbit mask b.
Proof.
  intros H Hv b Hb. unfold cbit. rewrite nth_insert by by apply cbin_lt.
  assert (0 <= bit) by (unfold in_mask in H; lia).
  pose proof (Z.div_pos b 8). pose proof (Z.div_pos bit 8).
  destruct (decide (Z.to_nat (bit / 8) = Z.to_nat (b / 8))) as [E|E].
  - rewrite Hv. assert (b / 8 = bit / 8) as Ed by lia.
    destruct (decide (b `mod` 8 = bit `mod` 8)) as [Em|Em].
    + by rewrite decide_True by by apply same_bit.
    + rewrite decide_False by congruence. by rewrite E.
  - by rewrite decide_False by congruence.
Qed.

Lemma CBIT_SET_spec mask bit :
  in_mask mask bit ->
  exists mask', CBIT_SET mask bit = Some mask' /\ length mask' = length mask /\
    (forall b, 0 <= b -> cbit mask' b = cbit mask b || bool_decide (b = bit)).
Proof.
  intros H. unfold CBIT_SET. rewrite cbit_byte_nth by done. bind_simpl.
  rewrite cbin_div. eexists. split; [done|]. split; [by rewrite length_insert|].
  intros b Hb. rewrite (cbit_insert mask bit _ true H).
  - case_decide; case_bool_decide; subst; rewrite ?orb_true_r, ?orb_false_r; done.
  - intros i. unfold CBIT_BIT. rewrite Z.lor_spec, testbit_one_shift by (apply Z.mod_pos_bound; lia).
    case_decide; case_bool_decide; rewrite ?orb_true_r, ?orb_false_r; done.
  - done.
Qed.

Lemma CBIT_CLR_spec mask bit :
  in_mask mask bit ->
  exists mask', CBIT_CLR mask bit = Some mask' /\ length mask' = length mask /\
    (forall b, 0 <= b -> cbit mask' b = cbit mask b && negb (bool_decide (b = bit))).
Proof.
  intros H. unfold CBIT_CLR. rewrite cbit_byte_nth by done. bind_simpl.
  rewrite cbin_div. eexists. split; [done|]. split; [by rewrite length_insert|].
  intros b Hb. rewrite (cbit_insert mask bit _ false H).
  - case_decide; case_bool_decide; subst; rewrite ?andb_true_r, ?andb_false_r; done.
  - intros i. unfold CBIT_BIT. rewrite Z.ldiff_spec, testbit_one_shift by (apply Z.mod_pos_bound; lia).
    case_decide; case_bool_decide; rewrite ?andb_true_r, ?andb_false_r; done.
  - done.
Qed.

Lemma cbit_zero n b : cbit (repeat 0 n) b = false.
Proof.
  unfold cbit. destruct (decide (Z.to_nat (b / 8) < n)%nat).
  - rewrite nth_repeat_lt by done. apply Z.testbit_0_l.
  - rewrite nth_overflow by (rewrite repeat_length; lia). apply Z.testbit_0_l.
Qed.
End Cbit.
