(* ===== verification/HttpHeaderType.v ===== *)
(** * Known header fields: libhttp/HttpHeaderType.h, HttpHeaderType.c and
      HttpHeaderVars.c, in the default configuration (without
      X_ACCELERATOR_VARY and USE_ADAPTATION) *)

From Stdlib Require Import ZArith Lia Ascii String.
From stdpp Require Import base strings list numbers option.
From S2P Require Import Prelude CStr HttpTools.

Module HttpHeaderType.
Import HttpTools.HttpTools.

(** ** [http_hdr_type] *)

Definition HDR_ACCEPT := 0.
Definition HDR_ACCEPT_CHARSET := 1.
Definition HDR_ACCEPT_ENCODING := 2.
Definition HDR_ACCEPT_LANGUAGE := 3.
Definition HDR_ACCEPT_RANGES := 4.
Definition HDR_AGE := 5.
Definition HDR_ALLOW := 6.
Definition HDR_ALTERNATE_PROTOCOL := 7.
Definition HDR_AUTHENTICATION_INFO := 8.
Definition HDR_AUTHORIZATION := 9.
Definition HDR_CACHE_CONTROL := 10.
Definition HDR_CONNECTION := 11.
Definition HDR_CONTENT_BASE := 12.
Definition HDR_CONTENT_DISPOSITION := 13.
Definition HDR_CONTENT_ENCODING := 14.
Definition HDR_CONTENT_LANGUAGE := 15.
Definition HDR_CONTENT_LENGTH := 16.
Definition HDR_CONTENT_LOCATION := 17.
Definition HDR_CONTENT_MD5 := 18.
Definition HDR_CONTENT_RANGE := 19.
Definition HDR_CONTENT_TYPE := 20.
Definition HDR_COOKIE := 21.
Definition HDR_COOKIE2 := 22.
Definition HDR_DATE := 23.
Definition HDR_ETAG := 24.
Definition HDR_EXPECT := 25.
Definition HDR_EXPIRES := 26.
Definition HDR_FORWARDED := 27.
Definition HDR_FROM := 28.
Definition HDR_HOST := 29.
Definition HDR_HTTP2_SETTINGS := 30.
Definition HDR_IF_MATCH := 31.
Definition HDR_IF_MODIFIED_SINCE := 32.
Definition HDR_IF_NONE_MATCH := 33.
Definition HDR_IF_RANGE := 34.
Definition HDR_IF_UNMODIFIED_SINCE := 35.
Definition HDR_KEEP_ALIVE := 36.
Definition HDR_KEY := 37.
Definition HDR_LAST_MODIFIED := 38.
Definition HDR_LINK := 39.
Definition HDR_LOCATION := 40.
Definition HDR_MAX_FORWARDS := 41.
Definition HDR_MIME_VERSION := 42.
Definition HDR_NEGOTIATE := 43.
Definition HDR_ORIGIN := 44.
Definition HDR_PRAGMA := 45.
Definition HDR_PROXY_AUTHENTICATE := 46.
Definition HDR_PROXY_AUTHENTICATION_INFO := 47.
Definition HDR_PROXY_AUTHORIZATION := 48.
Definition HDR_PROXY_CONNECTION := 49.
Definition HDR_PROXY_SUPPORT := 50.
Definition HDR_PUBLIC := 51.
Definition HDR_RANGE := 52.
Definition HDR_REFERER := 53.
Definition HDR_REQUEST_RANGE := 54.
Definition HDR_RETRY_AFTER := 55.
Definition HDR_SERVER := 56.
Definition HDR_SET_COOKIE := 57.
Definition HDR_SET_COOKIE2 := 58.
Definition HDR_TE := 59.
Definition HDR_TITLE := 60.
Definition HDR_TRAILER := 61.
Definition HDR_TRANSFER_ENCODING := 62.
Definition HDR_TRANSLATE := 63.
Definition HDR_UNLESS_MODIFIED_SINCE := 64.
Definition HDR_UPGRADE := 65.
Definition HDR_USER_AGENT := 66.
Definition HDR_VARY := 67.
Definition HDR_VIA := 68.
Definition HDR_WARNING := 69.
Definition HDR_WWW_AUTHENTICATE := 70.
Definition HDR_X_CACHE := 71.
Definition HDR_X_CACHE_LOOKUP := 72.
Definition HDR_X_FORWARDED_FOR := 73.
Definition HDR_X_REQUEST_URI := 74.
Definition HDR_X_SQUID_ERROR := 75.
Definition HDR_SURROGATE_CAPABILITY := 76.
Definition HDR_SURROGATE_CONTROL := 77.
Definition HDR_FRONT_END_HTTPS := 78.
Definition HDR_FTP_COMMAND := 79.
Definition HDR_FTP_ARGUMENTS := 80.
Definition HDR_FTP_PRE := 81.
Definition HDR_FTP_STATUS := 82.
Definition HDR_FTP_REASON := 83.
Definition HDR_X_ERROR_STATUS := 84.
Definition HDR_X_ERROR_URL := 85.
Definition HDR_X_HTTP09_FIRST_LINE := 86.
Definition HDR_OTHER := 87.
Definition HDR_ENUM_END := 88.

(** ** [field_type] *)

Definition ftInvalid := HDR_ENUM_END.
Definition ftInt := HDR_ENUM_END + 1.
Definition ftInt64 := HDR_ENUM_END + 2.
Definition ftStr := HDR_ENUM_END + 3.
Definition ftDate_1123 := HDR_ENUM_END + 4.
Definition ftETag := HDR_ENUM_END + 5.
Definition ftPCc := HDR_ENUM_END + 6.
Definition ftPContRange := HDR_ENUM_END + 7.
Definition ftPRange := HDR_ENUM_END + 8.
Definition ftPSc := HDR_ENUM_END + 9.
Definition ftDate_1123_or_ETag := HDR_ENUM_END + 10.

(** ** Attributes *)

Definition HeadersAttrs : list (bytes * Z * Z) :=
  [ (str "Accept", HDR_ACCEPT, ftStr);
    (str "Accept-Charset", HDR_ACCEPT_CHARSET, ftStr);
    (str "Accept-Encoding", HDR_ACCEPT_ENCODING, ftStr);
    (str "Accept-Language", HDR_ACCEPT_LANGUAGE, ftStr);
    (str "Accept-Ranges", HDR_ACCEPT_RANGES, ftStr);
    (str "Age", HDR_AGE, ftInt);
    (str "Allow", HDR_ALLOW, ftStr);
    (str "Alternate-Protocol", HDR_ALTERNATE_PROTOCOL, ftStr);
    (str "Authentication-Info", HDR_AUTHENTICATION_INFO, ftStr);
    (str "Authorization", HDR_AUTHORIZATION, ftStr);
    (str "Cache-Control", HDR_CACHE_CONTROL, ftPCc);
    (str "Connection", HDR_CONNECTION, ftStr);
    (str "Content-Base", HDR_CONTENT_BASE, ftStr);
    (str "Content-Disposition", HDR_CONTENT_DISPOSITION, ftStr);
    (str "Content-Encoding", HDR_CONTENT_ENCODING, ftStr);
    (str "Content-Language", HDR_CONTENT_LANGUAGE, ftStr);
    (str "Content-Length", HDR_CONTENT_LENGTH, ftInt64);
    (str "Content-Location", HDR_CONTENT_LOCATION, ftStr);
    (str "Content-MD5", HDR_CONTENT_MD5, ftStr);
    (str "Content-Range", HDR_CONTENT_RANGE, ftPContRange);
    (str "Content-Type", HDR_CONTENT_TYPE, ftStr);
    (str "Cookie", HDR_COOKIE, ftStr);
    (str "Cookie2", HDR_COOKIE2, ftStr);
    (str "Date", HDR_DATE, ftDate_1123);
    (str "ETag", HDR_ETAG, ftETag);
    (str "Expect", HDR_EXPECT, ftStr);
    (str "Expires", HDR_EXPIRES, ftDate_1123);
    (str "Forwarded", HDR_FORWARDED, ftStr);
    (str "From", HDR_FROM, ftStr);
    (str "Host", HDR_HOST, ftStr);
    (str "HTTP2-Settings", HDR_HTTP2_SETTINGS, ftStr);
    (str "If-Match", HDR_IF_MATCH, ftStr);
    (str "If-Modified-Since", HDR_IF_MODIFIED_SINCE, ftDate_1123);
    (str "If-None-Match", HDR_IF_NONE_MATCH, ftStr);
    (str "If-Range", HDR_IF_RANGE, ftDate_1123_or_ETag);
    (str "If-Unmodified-Since", HDR_IF_UNMODIFIED_SINCE, ftDate_1123);
    (str "Keep-Alive", HDR_KEEP_ALIVE, ftStr);
    (str "Key", HDR_KEY, ftStr);
    (str "Last-Modified", HDR_LAST_MODIFIED, ftDate_1123);
    (str "Link", HDR_LINK, ftStr);
    (str "Location", HDR_LOCATION, ftStr);
    (str "Max-Forwards", HDR_MAX_FORWARDS, ftInt64);
    (str "Mime-Version", HDR_MIME_VERSION, ftStr);
    (str "Negotiate", HDR_NEGOTIATE, ftStr);
    (str "Origin", HDR_ORIGIN, ftStr);
    (str "Pragma", HDR_PRAGMA, ftStr);
    (str "Proxy-Authenticate", HDR_PROXY_AUTHENTICATE, ftStr);
    (str "Proxy-Authentication-Info", HDR_PROXY_AUTHENTICATION_INFO, ftStr);
    (str "Proxy-Authorization", HDR_PROXY_AUTHORIZATION, ftStr);
    (str "Proxy-Connection", HDR_PROXY_CONNECTION, ftStr);
    (str "Proxy-support", HDR_PROXY_SUPPORT, ftStr);
    (str "Public", HDR_PUBLIC, ftStr);
    (str "Range", HDR_RANGE, ftPRange);
    (str "Referer", HDR_REFERER, ftStr);
    (str "Request-Range", HDR_REQUEST_RANGE, ftPRange);
    (str "Retry-After", HDR_RETRY_AFTER, ftStr);
    (str "Server", HDR_SERVER, ftStr);
    (str "Set-Cookie", HDR_SET_COOKIE, ftStr);
    (str "Set-Cookie2", HDR_SET_COOKIE2, ftStr);
    (str "TE", HDR_TE, ftStr);
    (str "Title", HDR_TITLE, ftStr);
    (str "Trailer", HDR_TRAILER, ftStr);
    (str "Transfer-Encoding", HDR_TRANSFER_ENCODING, ftStr);
    (str "Translate", HDR_TRANSLATE, ftStr);
    (str "Unless-Modified-Since", HDR_UNLESS_MODIFIED_SINCE, ftStr);
    (str "Upgrade", HDR_UPGRADE, ftStr);
    (str "User-Agent", HDR_USER_AGENT, ftStr);
    (str "Vary", HDR_VARY, ftStr);
    (str "Via", HDR_VIA, ftStr);
    (str "Warning", HDR_WARNING, ftStr);
    (str "WWW-Authenticate", HDR_WWW_AUTHENTICATE, ftStr);
    (str "X-Cache", HDR_X_CACHE, ftStr);
    (str "X-Cache-Lookup", HDR_X_CACHE_LOOKUP, ftStr);
    (str "X-Forwarded-For", HDR_X_FORWARDED_FOR, ftStr);
    (str "X-Request-URI", HDR_X_REQUEST_URI, ftStr);
    (str "X-Squid-Error", HDR_X_SQUID_ERROR, ftStr);
    (str "Surrogate-Capability", HDR_SURROGATE_CAPABILITY, ftStr);
    (str "Surrogate-Control", HDR_SURROGATE_CONTROL, ftPSc);
    (str "Front-End-Https", HDR_FRONT_END_HTTPS, ftStr);
    (str "FTP-Command", HDR_FTP_COMMAND, ftStr);
    (str "FTP-Arguments", HDR_FTP_ARGUMENTS, ftStr);
    (str "FTP-Pre", HDR_FTP_PRE, ftStr);
    (str "FTP-Status", HDR_FTP_STATUS, ftInt);
    (str "FTP-Reason", HDR_FTP_REASON, ftStr);
    (str "X-Error-Status", HDR_X_ERROR_STATUS, ftInt);
    (str "X-Error-URL", HDR_X_ERROR_URL, ftStr);
    (str "X-HTTP09-First-Line", HDR_X_HTTP09_FIRST_LINE, ftStr);
    (str "Other:", HDR_OTHER, ftStr) ].

(** [Headers], as [httpHeaderInitLibrary] builds it. *)
Definition Headers : list HttpHeaderFieldInfo :=
  Eval vm_compute in default [] (httpHeaderBuildFieldsInfo HeadersAttrs HDR_ENUM_END).

Definition HeaderNames : list bytes := Eval vm_compute in map fi_name Headers.

Definition ListHeadersArr : list Z :=
  [HDR_ACCEPT; HDR_ACCEPT_CHARSET; HDR_ACCEPT_ENCODING; HDR_ACCEPT_LANGUAGE; HDR_ACCEPT_RANGES; HDR_ALLOW; HDR_CACHE_CONTROL; HDR_CONTENT_ENCODING; HDR_CONTENT_LANGUAGE; HDR_CONNECTION; HDR_IF_MATCH; HDR_IF_NONE_MATCH; HDR_LINK; HDR_PRAGMA; HDR_PROXY_CONNECTION; HDR_PROXY_SUPPORT; HDR_TE; HDR_TRAILER; HDR_TRANSFER_ENCODING; HDR_UPGRADE; HDR_VARY; HDR_VIA; HDR_WWW_AUTHENTICATE; HDR_AUTHENTICATION_INFO; HDR_PROXY_AUTHENTICATION_INFO; HDR_EXPECT; HDR_X_FORWARDED_FOR].

Definition header_name (id : Z) : bytes := nth (Z.to_nat id) HeaderNames [].
Definition header_type (id : Z) : Z := fi_type (nth (Z.to_nat id) Headers fi_zero).

(** ** The tables are consistent *)

(** The attribute table covers every id exactly once: building the table
    succeeds and entry [i] has id [i]. *)
Lemma Headers_built : httpHeaderBuildFieldsInfo HeadersAttrs HDR_ENUM_END = Some Headers.
Proof. vm_compute. reflexivity. Qed.

Lemma Headers_ids : map fi_id Headers = seqZ 0 HDR_ENUM_END.
Proof. vm_compute. reflexivity. Qed.

Lemma length_HeaderNames : Z.of_nat (length HeaderNames) = HDR_ENUM_END.
Proof. reflexivity. Qed.

(** No two fields have names equal up to case, and every known name is found
    under its own id. *)
Lemma header_ids_by_name :
  forallb (fun id => httpHeaderIdByName (header_name id) (Z.of_nat (length (header_name id))) HeaderNames =? id)
    (seqZ 0 HDR_ENUM_END) = true.
Proof. vm_compute. reflexivity. Qed.

Lemma header_id_by_name id :
  0 <= id < HDR_ENUM_END ->
  httpHeaderIdByName (header_name id) (Z.of_nat (length (header_name id))) HeaderNames = id.
Proof.
  intros H. pose proof header_ids_by_name as Hall. rewrite forallb_forall in Hall.
  apply Z.eqb_eq, Hall, list_elem_of_In, elem_of_seqZ. lia.
Qed.
End HttpHeaderType.
