(* ===== verification/HttpHeader.v ===== *)
(** * Header sets: libhttp/HttpHeader.c, HttpHeaderEntry.c, HttpHeaderMask.c,
      HttpHeaderList.c, parts of HttpHeaderGet.c, HttpHeaderPut.c and
      HttpHeaderTools.c, and the packers of src/HttpHeader.c

    A header set is an array of entries, in which deleted entries leave gaps
    (NULL), with two redundant fields: a bit mask of the ids that are present
    and the length of the packed header.  The invariant [hdr_ok] says that
    they agree; every operation keeps it, and its effect is stated on the
    list of live entries. *)

From Stdlib Require Import ZArith Lia Ascii String.
From stdpp Require Import base strings list numbers option.
From S2P Require Import Prelude CStr StrList HttpTools HttpHeaderType Cbit.

Module HttpHeader.
Import StrList.StrList HttpTools.HttpTools HttpHeaderType.HttpHeaderType Cbit.Cbit.

(** ** Data *)

(** Names and values are held by their text (at most 65534 bytes). *)
Record HttpHeaderEntry := mkEntry { eid : Z; ename : bytes; evalue : bytes }.

Definition HttpHeaderMask_size : nat := Eval vm_compute in Z.to_nat ((HDR_ENUM_END + 7) / 8).

(** [len] is an [int] in the code; it is the same number as long as it is below
    2^31, which [httpHeader_ops_invariant] shows of all headers that are not
    given 2 GB of fields. *)
Record HttpHeader := mkHdr {
  entries : list (option HttpHeaderEntry);
  mask : list Z;
  owner : Z;
  len : Z
}.

Definition hoNone := 0.
Definition hoRequest := 1.
Definition hoReply := 2.

Definition set_entries (l : list (option HttpHeaderEntry)) (h : HttpHeader) : HttpHeader :=
  mkHdr l (mask h) (owner h) (len h).
Definition set_mask (m : list Z) (h : HttpHeader) : HttpHeader :=
  mkHdr (entries h) m (owner h) (len h).
Definition set_len (n : Z) (h : HttpHeader) : HttpHeader :=
  mkHdr (entries h) (mask h) (owner h) n.

(** [assert_eid], for an id used as an index. *)
Definition assert_eid (id : Z) : bool := (0 <=? id) && (id <? HDR_ENUM_END).

(** [strcasecmp(a, b) == 0] *)
Definition strcaseeq (a b : bytes) : bool := (length a =? length b)%nat && strncaseeq a b (length a).

(** ** Masks *)

(** [memset(mask, value, sizeof *mask)] *)
Definition httpHeaderMaskInit (value : Z) : list Z := repeat value HttpHeaderMask_size.

Definition calc_step (m : option (list Z)) (id : Z) : option (list Z) :=
  let? m := m in
  let? t := CBIT_TEST m id in
  assert? negb t in CBIT_SET m id.

Definition httpHeaderCalcMask (m : list Z) (enums : list Z) : option (list Z) :=
  assert? (length enums <? 8 * length m)%nat in foldl calc_step (Some m) enums.

Definition ListHeadersMask : list Z :=
  Eval vm_compute in default [] (httpHeaderCalcMask (httpHeaderMaskInit 0) ListHeadersArr).

(** ** Entries *)

(** [httpHeaderEntryCreate]: the strings must fit ([stringLimitInit]). *)
Definition httpHeaderEntryCreate (id : Z) (name value : bytes) : option HttpHeaderEntry :=
  assert? assert_eid id in
  let name := if id =? HDR_OTHER then name else header_name id in
  assert? (Z.of_nat (length name) <? 65535) && (Z.of_nat (length value) <? 65535) in
  Some (mkEntry id name value).

Definition httpHeaderEntryClone (e : HttpHeaderEntry) : option HttpHeaderEntry :=
  httpHeaderEntryCreate (eid e) (ename e) (evalue e).

Definition entry_len (e : HttpHeaderEntry) : Z :=
  Z.of_nat (length (ename e)) + 2 + Z.of_nat (length (evalue e)) + 2.

(** ** Life cycle *)

Definition httpHeaderInit (owner : Z) : option HttpHeader :=
  assert? (hoNone <? owner) && (owner <=? hoReply) in
  Some (mkHdr [] (httpHeaderMaskInit 0) owner 0).

(** [httpHeaderClean] frees the entries; [httpHeaderReset] re-initialises. *)
Definition httpHeaderReset (h : HttpHeader) : option HttpHeader :=
  assert? (hoNone <? owner h) && (owner h <=? hoReply) in
  httpHeaderInit (owner h).

(** ** Adding *)

Definition httpHeaderAddInfo (h : HttpHeader) (e : HttpHeaderEntry) : option HttpHeader :=
  assert? assert_eid (eid e) in
  let? t := CBIT_TEST (mask h) (eid e) in
  let? m := if (t : bool) then Some (mask h) else CBIT_SET (mask h) (eid e) in
  Some (set_len (len h + entry_len e) (set_mask m h)).

Definition httpHeaderAddEntry (h : HttpHeader) (e : HttpHeaderEntry) : option HttpHeader :=
  let? h := httpHeaderAddInfo h e in
  Some (set_entries (entries h ++ [Some e]) h).

(** [arrayInsert]: a position past the end is the end; a negative one would
    write before the array. *)
Definition arrayInsert {A} (l : list A) (x : A) (position : Z) : option (list A) :=
  assert? 0 <=? position in
  let p := Z.to_nat (Z.min position (Z.of_nat (length l))) in
  Some (take p l ++ x :: drop p l).

Definition httpHeaderInsertEntry (h : HttpHeader) (e : HttpHeaderEntry) (pos : Z) : option HttpHeader :=
  let? h := httpHeaderAddInfo h e in
  let? l := arrayInsert (entries h) (Some e) pos in
  Some (set_entries l h).

Definition httpHeaderAddEntryStr2 (h : HttpHeader) (id : Z) (a v : bytes) : option (HttpHeader * Z) :=
  let? e := httpHeaderEntryCreate id a v in
  let? h := httpHeaderAddEntry h e in
  Some (h, Z.of_nat (length (entries h)) - 1).

Definition httpHeaderAddEntryStr (h : HttpHeader) (id : Z) (a v : bytes) : option HttpHeader :=
  let? (h, _) := httpHeaderAddEntryStr2 h id a v in Some h.

Definition httpHeaderInsertEntryStr (h : HttpHeader) (pos id : Z) (a v : bytes) : option HttpHeader :=
  let? e := httpHeaderEntryCreate id a v in httpHeaderInsertEntry h e pos.

Definition httpHeaderAddClone (h : HttpHeader) (e : HttpHeaderEntry) : option HttpHeader :=
  let? ne := httpHeaderEntryClone e in httpHeaderAddEntry h ne.

(** ** Iteration *)

Fixpoint next_entry (l : list (option HttpHeaderEntry)) (pos : Z) : option HttpHeaderEntry * Z :=
  match l with
  | [] => (None, pos)
  | Some e :: _ => (Some e, pos)
  | None :: l => next_entry l (pos + 1)
  end.

(** [httpHeaderGetEntry]: the next entry that is not a gap, and [*pos]. *)
Definition httpHeaderGetEntry (l : list (option HttpHeaderEntry)) (pos : Z)
  : option (option HttpHeaderEntry * Z) :=
  assert? (-1 <=? pos) && (pos <? Z.of_nat (length l)) in
  Some (next_entry (drop (Z.to_nat (pos + 1)) l) (pos + 1)).

(** A [while ((e = httpHeaderGetEntry(hdr, &pos)))] loop over the array
    [ents a] of the current state; the body says whether to go on. *)
Fixpoint entryWhile {A} (fuel : nat) (ents : A -> list (option HttpHeaderEntry)) (pos : Z)
    (body : A -> Z -> HttpHeaderEntry -> option (A * bool)) (a : A) : option A :=
  match fuel with
  | O => None
  | S fuel =>
      let? (oe, pos) := httpHeaderGetEntry (ents a) pos in
      match oe with
      | None => Some a
      | Some e =>
          let? (a, go) := body a pos e in
          if (go : bool) then entryWhile fuel ents pos body a else Some a
      end
  end.

Definition hdr_fuel (h : HttpHeader) : nat := S (length (entries h)).

(** The loops that only read the header. *)
Definition hdrRead {A} (h : HttpHeader) (body : A -> HttpHeaderEntry -> option (A * bool)) (a : A) : option A :=
  entryWhile (hdr_fuel h) (fun _ => entries h) (-1) (fun a _ e => body a e) a.

(** The loops that also change it. *)
Definition hdrLoop {A} (h : HttpHeader)
    (body : HttpHeader * A -> Z -> HttpHeaderEntry -> option (HttpHeader * A)) (a : A) : option (HttpHeader * A) :=
  entryWhile (hdr_fuel h) (fun s => entries (fst s)) (-1)
    (fun s pos e => let? s := body s pos e in Some (s, true)) (h, a).

(** ** Deleting *)

Definition httpHeaderDelAt (h : HttpHeader) (pos : Z) : option HttpHeader :=
  assert? (0 <=? pos) && (pos <? Z.of_nat (length (entries h))) in
  let? e := mjoin (entries h !! Z.to_nat pos) in
  let h := set_entries (<[Z.to_nat pos := None]> (entries h)) h in
  let h := set_len (len h - entry_len e) h in
  assert? 0 <=? len h in Some h.

Definition httpHeaderDelByName (h : HttpHeader) (name : bytes) : option (HttpHeader * Z) :=
  hdrLoop (set_mask (httpHeaderMaskInit 0) h)
    (fun '(h, count) pos e =>
       if strcaseeq (ename e) name then
         let? h := httpHeaderDelAt h pos in Some (h, count + 1)
       else
         let? m := CBIT_SET (mask h) (eid e) in Some (set_mask m h, count)) 0.

Definition httpHeaderDelById (h : HttpHeader) (id : Z) : option (HttpHeader * Z) :=
  assert? assert_eid id in
  assert? negb (id =? HDR_OTHER) in
  let? t := CBIT_TEST (mask h) id in
  if negb t then Some (h, 0)
  else
    let? (h, count) := hdrLoop h
      (fun '(h, count) pos e =>
         if eid e =? id then let? h := httpHeaderDelAt h pos in Some (h, count + 1)
         else Some (h, count)) 0 in
    let? m := CBIT_CLR (mask h) id in
    assert? negb (count =? 0) in
    Some (set_mask m h, count).

Definition httpHeaderRefreshMask (h : HttpHeader) : option HttpHeader :=
  let? (h, _) := hdrLoop (set_mask (httpHeaderMaskInit 0) h)
    (fun '(h, u) _ e => let? m := CBIT_SET (mask h) (eid e) in Some (set_mask m h, u)) tt in
  Some h.

(** ** Searching *)

Definition httpHeaderFindEntry (h : HttpHeader) (id : Z) : option (option HttpHeaderEntry) :=
  assert? assert_eid id in
  let? l := CBIT_TEST ListHeadersMask id in
  assert? negb l in
  let? t := CBIT_TEST (mask h) id in
  if negb t then Some None
  else
    let? r := hdrRead h (fun r e => if eid e =? id then Some (Some e, false) else Some (r, true)) None in
    match r with
    | Some e => Some (Some e)
    | None => None
    end.

Definition httpHeaderFindLastEntry (h : HttpHeader) (id : Z) : option (option HttpHeaderEntry) :=
  assert? assert_eid id in
  let? l := CBIT_TEST ListHeadersMask id in
  assert? negb l in
  let? t := CBIT_TEST (mask h) id in
  if negb t then Some None
  else
    let? r := hdrRead h (fun r e => Some (if eid e =? id then Some e else r, true)) None in
    match r with
    | Some e => Some (Some e)
    | None => None
    end.

Definition httpHeaderHas (h : HttpHeader) (id : Z) : option bool :=
  assert? assert_eid id in
  assert? negb (id =? HDR_OTHER) in
  CBIT_TEST (mask h) id.

Definition httpHeaderIdByNameDef (name : bytes) (name_len : Z) : Z :=
  httpHeaderIdByName name name_len HeaderNames.

Definition httpHeaderNameById (id : Z) : option bytes :=
  assert? assert_eid id in Some (header_name id).

(** ** List headers: [None] is the null string *)

Definition add_item (s : option bytes) (v : bytes) : option bytes :=
  Some (strListAddStr (default [] s) v 44).

Definition httpHeaderGetList (h : HttpHeader) (id : Z) : option (option bytes) :=
  let? l := CBIT_TEST ListHeadersMask id in
  assert? (l : bool) in
  let? t := CBIT_TEST (mask h) id in
  if negb t then Some None
  else
    let? s := hdrRead h (fun s e => Some (if eid e =? id then add_item s (evalue e) else s, true)) None in
    match s with
    | Some s => Some (Some s)
    | None => None
    end.

Definition httpHeaderGetStrOrList (h : HttpHeader) (id : Z) : option (option bytes) :=
  let? l := CBIT_TEST ListHeadersMask id in
  if (l : bool) then httpHeaderGetList h id
  else
    let? e := httpHeaderFindEntry h id in
    Some (evalue <$> (e : option HttpHeaderEntry)).

Definition httpHeaderGetByName (h : HttpHeader) (name : bytes) : option (option bytes) :=
  let id := httpHeaderIdByNameDef name (Z.of_nat (length name)) in
  if negb (id =? -1) then httpHeaderGetStrOrList h id
  else
    hdrRead h (fun s e =>
      Some (if (eid e =? HDR_OTHER) && strcaseeq (ename e) name then add_item s (evalue e) else s, true)) None.

(** The value of [member=] in a list value: the search of
    [httpHeaderGetListMember] and [httpHeaderGetByNameListMember]. *)
Definition list_member (header : option bytes) (member : bytes) (separator : Z) : option (option bytes) :=
  let mlen := length member in
  let? r := strListWhile (list_fuel header) header separator None
    (fun r it n =>
       if bool_decide (take mlen it = member) && (nth mlen it 0 =? 61) then
         (Some (assert? (mlen + 1 <=? n)%nat in Some (take (n - mlen - 1) (drop (mlen + 1) it))), false)
       else (r, true)) None in
  match r with
  | None => Some None
  | Some (Some v) => Some (Some v)
  | Some None => None
  end.

Definition httpHeaderGetListMember (h : HttpHeader) (id : Z) (member : bytes) (separator : Z) : option (option bytes) :=
  assert? assert_eid id in
  let? header := httpHeaderGetStrOrList h id in
  list_member header member separator.

Definition httpHeaderGetByNameListMember (h : HttpHeader) (name member : bytes) (separator : Z) : option (option bytes) :=
  let? header := httpHeaderGetByName h name in
  list_member header member separator.

Definition httpHeaderHasConnDir (h : HttpHeader) (directive : bytes) : option bool :=
  let? p := httpHeaderHas h HDR_PROXY_CONNECTION in
  let? c := httpHeaderHas h HDR_CONNECTION in
  if (p : bool) then
    let? l := httpHeaderGetList h HDR_PROXY_CONNECTION in strListIsMember l directive 44
  else if (c : bool) then
    let? l := httpHeaderGetList h HDR_CONNECTION in strListIsMember l directive 44
  else Some false.

(** ** Typed access *)

Definition httpHeaderGetInt (h : HttpHeader) (id : Z) : option Z :=
  assert? assert_eid id in
  assert? (header_type id =? ftInt) || (header_type id =? ftInt64) in
  let? e := httpHeaderFindEntry h id in
  Some match (e : option HttpHeaderEntry) with
       | Some e => snd (httpHeaderParseInt (evalue e))
       | None => -1
       end.

Definition httpHeaderGetSize (h : HttpHeader) (id : Z) : option Z :=
  assert? assert_eid id in
  assert? header_type id =? ftInt64 in
  let? e := httpHeaderFindEntry h id in
  Some match (e : option HttpHeaderEntry) with
       | Some e => snd (httpHeaderParseSize (evalue e))
       | None => -1
       end.

Definition httpHeaderGetStr (h : HttpHeader) (id : Z) : option (option bytes) :=
  assert? assert_eid id in
  assert? (header_type id =? ftStr) || (header_type id =? ftETag) in
  let? e := httpHeaderFindEntry h id in Some (evalue <$> (e : option HttpHeaderEntry)).

Definition httpHeaderGetLastStr (h : HttpHeader) (id : Z) : option (option bytes) :=
  assert? assert_eid id in
  assert? header_type id =? ftStr in
  let? e := httpHeaderFindLastEntry h id in Some (evalue <$> (e : option HttpHeaderEntry)).

Definition httpHeaderPutStr (h : HttpHeader) (id : Z) (s : bytes) : option HttpHeader :=
  assert? assert_eid id in
  assert? header_type id =? ftStr in
  httpHeaderAddEntryStr h id [] s.

Definition httpHeaderPutInt (h : HttpHeader) (id number : Z) : option HttpHeader :=
  assert? assert_eid id in
  assert? (header_type id =? ftInt) || (header_type id =? ftInt64) in
  assert? 0 <=? number in
  httpHeaderAddEntryStr h id [] (dec number).

Definition httpHeaderPutSize (h : HttpHeader) (id number : Z) : option HttpHeader :=
  assert? assert_eid id in
  assert? header_type id =? ftInt64 in
  assert? 0 <=? number in
  httpHeaderAddEntryStr h id [] (dec number).

Definition httpHeaderPutExt (h : HttpHeader) (name value : bytes) : option HttpHeader :=
  httpHeaderAddEntryStr h HDR_OTHER name value.

(** ** Whole headers *)

Definition httpHeaderAppend (dest src : HttpHeader) : option HttpHeader :=
  hdrRead src (fun dest e => let? dest := httpHeaderAddClone dest e in Some (dest, true)) dest.

(** The loop of [httpHeaderRepack] on the items, with its two indices. *)
Fixpoint repack_loop (fuel : nat) (items : list (option HttpHeaderEntry)) (dp pos : nat)
  : option (list (option HttpHeaderEntry) * nat) :=
  match fuel with
  | O => None
  | S fuel =>
      match items !! dp with
      | None => Some (items, pos)
      | Some None => repack_loop fuel items (S dp) pos
      | Some (Some e) =>
          let items := <[pos := Some e]> items in
          let items := if (dp =? pos)%nat then items else <[dp := None]> items in
          repack_loop fuel items (S dp) (S pos)
      end
  end.

Definition httpHeaderRepack (h : HttpHeader) : option HttpHeader :=
  let? (items, pos) := repack_loop (hdr_fuel h) (entries h) 0 0 in
  Some (set_entries (take pos items) h).

(** [denied]: the mask, or NULL. *)
Definition denied_id (denied : option (list Z)) (id : Z) : option bool :=
  match denied with
  | None => Some false
  | Some m => CBIT_TEST m id
  end.

Definition httpHeaderUpdate (old fresh : HttpHeader) (denied : option (list Z)) : option HttpHeader :=
  let? old := hdrRead fresh (fun old e =>
    let? d := denied_id denied (eid e) in
    if (d : bool) then Some (old, true)
    else if negb (eid e =? HDR_OTHER) then
      let? (old, _) := httpHeaderDelById old (eid e) in Some (old, true)
    else
      let? (old, _) := httpHeaderDelByName old (ename e) in Some (old, true)) old in
  let? old := hdrRead fresh (fun old e =>
    let? d := denied_id denied (eid e) in
    if (d : bool) then Some (old, true)
    else let? old := httpHeaderAddClone old e in Some (old, true)) old in
  httpHeaderRepack old.

(** ** Packing *)

Definition httpHeaderEntryPackInto (e : HttpHeaderEntry) : bytes :=
  ename e ++ str ": " ++ evalue e ++ [13; 10].

Definition httpHeaderPackInto (h : HttpHeader) : option bytes :=
  hdrRead h (fun p e => Some (p ++ httpHeaderEntryPackInto e, true)) [].

(** ** Loops as folds *)

Fixpoint efold {A} (body : A -> Z -> HttpHeaderEntry -> option (A * bool)) (a : A) (pos : Z)
    (l : list (option HttpHeaderEntry)) : option A :=
  match l with
  | [] => Some a
  | None :: l => efold body a (pos + 1) l
  | Some e :: l =>
      let? (a, go) := body a pos e in
      if (go : bool) then efold body a (pos + 1) l else Some a
  end.

Lemma GetEntry_skip pre l :
  httpHeaderGetEntry (pre ++ None :: l) (Z.of_nat (length pre) - 1) =
  httpHeaderGetEntry (pre ++ None :: l) (Z.of_nat (length pre)).
Proof.
  unfold httpHeaderGetEntry. rewrite length_app. cbn [length].
  rewrite !(proj2 (Z.leb_le _ _)), !(proj2 (Z.ltb_lt _ _)) by lia. cbn [andb]. f_equal.
  replace (Z.to_nat (Z.of_nat (length pre) - 1 + 1)) with (length pre) by lia.
  replace (Z.to_nat (Z.of_nat (length pre) + 1)) with (length (pre ++ [None])) by (rewrite length_app; cbn; lia).
  rewrite drop_app_length. cbn [next_entry].
  change (pre ++ None :: l) with (pre ++ [None] ++ l). rewrite app_assoc, drop_app_length.
  f_equal. lia.
Qed.

(** A loop whose body leaves the rest of the array alone is a fold over it. *)
Lemma entryWhile_efold {A} (ents : A -> list (option HttpHeaderEntry)) body :
  (forall a pre e l a' go, ents a = pre ++ Some e :: l ->
     body a (Z.of_nat (length pre)) e = Some (a', go) ->
     exists o, ents a' = pre ++ o :: l) ->
  forall l pre a fuel, ents a = pre ++ l -> (length l < fuel)%nat ->
  entryWhile fuel ents (Z.of_nat (length pre) - 1) body a = efold body a (Z.of_nat (length pre)) l.
Proof.
  intros Hb l. induction l as [|o l IH]; intros pre a fuel He Hf; (destruct fuel as [|fuel]; [cbn in *; lia|]).
  - cbn [entryWhile efold]. rewrite He, app_nil_r. unfold httpHeaderGetEntry.
    rewrite (proj2 (Z.leb_le _ _)), (proj2 (Z.ltb_lt _ _)) by lia. cbn [andb mbind option_bind].
    rewrite drop_ge by lia. done.
  - destruct o as [e|].
    + cbn [entryWhile efold]. rewrite He. unfold httpHeaderGetEntry. rewrite length_app. cbn [length].
      rewrite (proj2 (Z.leb_le _ _)), (proj2 (Z.ltb_lt _ _)) by lia. cbn [andb mbind option_bind].
      replace (Z.to_nat (Z.of_nat (length pre) - 1 + 1)) with (length pre) by lia.
      rewrite drop_app_length. cbn [next_entry].
      replace (Z.of_nat (length pre) - 1 + 1) with (Z.of_nat (length pre)) by lia.
      destruct (body a _ e) as [[a' go]|] eqn:Eb; [|done]. bind_simpl. destruct go; [|done].
      destruct (Hb _ _ _ _ _ _ He Eb) as [o Ho].
      specialize (IH (pre ++ [o]) a' fuel). rewrite length_app in IH. cbn [length] in IH.
      rewrite <- app_assoc in IH. specialize (IH Ho ltac:(cbn in Hf; lia)).
      replace (Z.of_nat (length pre + 1)) with (Z.of_nat (length pre) + 1) in IH by lia.
      replace (Z.of_nat (length pre) + 1 - 1) with (Z.of_nat (length pre)) in IH by lia. done.
    + specialize (IH (pre ++ [None]) a (S fuel)). rewrite length_app in IH. cbn [length] in IH.
      rewrite <- app_assoc in IH. specialize (IH He ltac:(cbn in Hf; lia)).
      replace (Z.of_nat (length pre + 1)) with (Z.of_nat (length pre) + 1) in IH by lia.
      replace (Z.of_nat (length pre) + 1 - 1) with (Z.of_nat (length pre)) in IH by lia.
      cbn [efold]. rewrite <- IH. cbn [entryWhile]. by rewrite He, GetEntry_skip.
Qed.

(** ** The live entries *)

Definition live_of (l : list (option HttpHeaderEntry)) : list HttpHeaderEntry := omap id l.
Definition live (h : HttpHeader) : list HttpHeaderEntry := live_of (entries h).

Lemma live_of_app l1 l2 : live_of (l1 ++ l2) = live_of l1 ++ live_of l2.
Proof. apply omap_app. Qed.

Lemma live_of_Some l : live_of (map Some l) = l.
Proof. induction l as [|e l IH]; cbn; [done|]. by f_equal. Qed.

Fixpoint rfold {A} (body : A -> HttpHeaderEntry -> option (A * bool)) (a : A) (l : list HttpHeaderEntry) : option A :=
  match l with
  | [] => Some a
  | e :: l =>
      let? (a, go) := body a e in
      if (go : bool) then rfold body a l else Some a
  end.

(** Reading loops only see the live entries. *)
Lemma hdrRead_live {A} h (body : A -> HttpHeaderEntry -> option (A * bool)) a :
  hdrRead h body a = rfold body a (live h).
Proof.
  unfold hdrRead, hdr_fuel.
  pose proof (entryWhile_efold (fun _ : A => entries h) (fun a _ e => body a e)) as H.
  rewrite (H ltac:(intros; eauto) (entries h) [] a) by (done || lia). clear H.
  unfold live. generalize (Z.of_nat (length (A:=option HttpHeaderEntry) [])).
  generalize (entries h) as l. intros l. revert a. induction l as [|[e|] l IH]; intros a z; cbn; [done| |apply IH].
  destruct (body a e) as [[a' []]|]; cbn; [apply IH|done|done].
Qed.

(** Deleting the entries that satisfy [f] leaves gaps. *)
Definition kill (f : HttpHeaderEntry -> bool) (l : list (option HttpHeaderEntry)) : list (option HttpHeaderEntry) :=
  map (fun o => match o with Some e => if f e then None else Some e | None => None end) l.

Lemma live_kill f l : live_of (kill f l) = List.filter (fun e => negb (f e)) (live_of l).
Proof.
  unfold live_of, kill. induction l as [|[e|] l IH]; cbn; [done| |done].
  destruct (f e); cbn; by rewrite IH.
Qed.

Fixpoint total_len (l : list HttpHeaderEntry) : Z :=
  match l with [] => 0 | e :: l => entry_len e + total_len l end.

Lemma total_len_app l1 l2 : total_len (l1 ++ l2) = total_len l1 + total_len l2.
Proof. induction l1 as [|e l1 IH]; cbn; lia. Qed.

Lemma entry_len_pos e : 0 < entry_len e.
Proof. unfold entry_len. lia. Qed.

Lemma total_len_nonneg l : 0 <= total_len l.
Proof. induction l as [|e l IH]; cbn; [lia|]. pose proof (entry_len_pos e). lia. Qed.

Lemma total_len_filter f l :
  total_len (List.filter f l) + total_len (List.filter (fun e => negb (f e)) l) = total_len l.
Proof. induction l as [|e l IH]; cbn; [done|]. destruct (f e); cbn; lia. Qed.

(** ** The invariant *)

Definition entry_ok (e : HttpHeaderEntry) : Prop :=
  0 <= eid e < HDR_ENUM_END /\
  (eid e <> HDR_OTHER -> ename e = header_name (eid e)) /\
  Z.of_nat (length (ename e)) < 65535 /\ Z.of_nat (length (evalue e)) < 65535.

#[global] Instance entry_ok_dec e : Decision (entry_ok e).
Proof. unfold entry_ok. apply _. Defined.

Definition has_id (id : Z) (l : list HttpHeaderEntry) : bool := existsb (fun e => eid e =? id) l.

Record hdr_ok (h : HttpHeader) : Prop := {
  ok_mask_size : length (mask h) = HttpHeaderMask_size;
  ok_entries : Forall entry_ok (live h);
  (** bit set <=> entry present *)
  ok_mask : forall id, 0 <= id < HDR_ENUM_END -> cbit (mask h) id = has_id id (live h);
  (** length when packed *)
  ok_len : len h = total_len (live h);
  ok_owner : hoNone < owner h <= hoReply
}.

Lemma assert_eid_true id : 0 <= id < HDR_ENUM_END -> assert_eid id = true.
Proof. unfold assert_eid. intros. apply andb_true_iff. lia. Qed.

Lemma in_mask_hdr m id : length m = HttpHeaderMask_size -> 0 <= id < HDR_ENUM_END -> in_mask m id.
Proof. unfold in_mask. intros -> H. change (8 * Z.of_nat HttpHeaderMask_size) with 88. change HDR_ENUM_END with 88 in H. lia. Qed.

Lemma has_id_app id l1 l2 : has_id id (l1 ++ l2) = has_id id l1 || has_id id l2.
Proof. apply existsb_app. Qed.

Lemma has_id_filter id f l :
  (forall e, eid e = id -> f e = true) -> has_id id (List.filter f l) = has_id id l.
Proof.
  intros Hf. unfold has_id. induction l as [|e l IH]; cbn; [done|].
  destruct (f e) eqn:E; cbn; rewrite IH; [done|].
  destruct (eid e =? id) eqn:Ei; [|done]. zify_bools. by rewrite Hf in E.
Qed.

Lemma has_id_In id l : has_id id l = true <-> exists e, In e l /\ eid e = id.
Proof. unfold has_id. rewrite existsb_exists. setoid_rewrite Z.eqb_eq. done. Qed.

Lemma httpHeaderInit_ok o :
  hoNone < o <= hoReply -> exists h, httpHeaderInit o = Some h /\ hdr_ok h /\ live h = [] /\ entries h = [] /\ owner h = o.
Proof.
  intros Ho. unfold httpHeaderInit.
  rewrite (proj2 (Z.ltb_lt _ _)), (proj2 (Z.leb_le _ _)) by lia. eexists. split; [done|].
  split_and!; try done. constructor; try done. intros id Hid. apply cbit_zero.
Qed.

Lemma httpHeaderReset_ok h :
  hoNone < owner h <= hoReply ->
  exists h', httpHeaderReset h = Some h' /\ hdr_ok h' /\ live h' = [] /\ entries h' = [] /\ owner h' = owner h.
Proof.
  intros Ho. unfold httpHeaderReset. rewrite (proj2 (Z.ltb_lt _ _)), (proj2 (Z.leb_le _ _)) by lia.
  by apply httpHeaderInit_ok.
Qed.

(** ** Adding *)

Lemma httpHeaderAddInfo_ok h e :
  hdr_ok h -> entry_ok e ->
  exists h', httpHeaderAddInfo h e = Some h' /\ entries h' = entries h /\ owner h' = owner h /\
    length (mask h') = HttpHeaderMask_size /\
    (forall id, 0 <= id < HDR_ENUM_END -> cbit (mask h') id = cbit (mask h) id || (eid e =? id)) /\
    len h' = len h + entry_len e.
Proof.
  intros [Hm _ Hmask _ _] [Hid _]. unfold httpHeaderAddInfo. rewrite assert_eid_true by done.
  pose proof (in_mask_hdr _ _ Hm Hid) as Hin. rewrite CBIT_TEST_cbit by done. bind_simpl.
  destruct (cbit (mask h) (eid e)) eqn:Ec.
  - eexists. split; [done|]. split_and!; try done. intros i Hi. cbn.
    destruct (eid e =? i) eqn:E; zify_bools; [subst; by rewrite Ec|by rewrite orb_false_r].
  - destruct (CBIT_SET_spec _ _ Hin) as (m & -> & Hl & Hc). bind_simpl.
    eexists. split; [done|]. split_and!; try done; [by rewrite <- Hm|].
    intros i Hi. cbn. rewrite Hc by lia. f_equal.
    destruct (eid e =? i) eqn:E; zify_bools; case_bool_decide; congruence.
Qed.

Lemma httpHeaderAddEntry_ok h e :
  hdr_ok h -> entry_ok e ->
  exists h', httpHeaderAddEntry h e = Some h' /\ hdr_ok h' /\
    entries h' = entries h ++ [Some e] /\ live h' = live h ++ [e] /\ owner h' = owner h.
Proof.
  intros Hok He. unfold httpHeaderAddEntry.
  destruct (httpHeaderAddInfo_ok h e Hok He) as (h1 & -> & Hen & Ho & Hm & Hc & Hl).
  bind_simpl. eexists. split; [done|].
  assert (live (set_entries (entries h1 ++ [Some e]) h1) = live h ++ [e]) as Hlive.
  { unfold live. cbn [entries set_entries]. by rewrite live_of_app, Hen. }
  destruct Hok as [_ Hent Hmask Hlen Hown].
  split_and!; try done; [|cbn; by rewrite Hen].
  constructor; try done; rewrite ?Hlive.
  - apply Forall_app. split; [done|]. by constructor.
  - intros i Hi. cbn [mask set_entries]. rewrite Hc, Hmask, has_id_app by done. cbn. by rewrite orb_false_r.
  - cbn [len set_entries]. rewrite total_len_app, Hl, Hlen. cbn. lia.
  - cbn. by rewrite Ho.
Qed.

Lemma httpHeaderInsertEntry_ok h e pos :
  hdr_ok h -> entry_ok e -> 0 <= pos ->
  let p := Z.to_nat (Z.min pos (Z.of_nat (length (entries h)))) in
  exists h', httpHeaderInsertEntry h e pos = Some h' /\ hdr_ok h' /\
    live h' = live_of (take p (entries h)) ++ e :: live_of (drop p (entries h)).
Proof.
  intros Hok He Hp p. unfold httpHeaderInsertEntry.
  destruct (httpHeaderAddInfo_ok h e Hok He) as (h1 & -> & Hen & Ho & Hm & Hc & Hl).
  bind_simpl. unfold arrayInsert. rewrite (proj2 (Z.leb_le _ _)) by done.
  bind_simpl. eexists. split; [done|]. rewrite Hen. fold p.
  match goal with |- hdr_ok ?h' /\ _ => assert (live h' = live_of (take p (entries h)) ++ e :: live_of (drop p (entries h))) as Hlive end.
  { unfold live. cbn [entries set_entries]. by rewrite live_of_app. }
  split; [|done]. destruct Hok as [_ Hent Hmask Hlen Hown].
  assert (live h = live_of (take p (entries h)) ++ live_of (drop p (entries h))) as Hsplit.
  { unfold live. by rewrite <- live_of_app, take_drop. }
  rewrite Hsplit in Hent, Hlen. apply Forall_app in Hent as [Hf1 Hf2].
  constructor; try done; rewrite ?Hlive.
  - apply Forall_app. split; [done|]. by constructor.
  - intros i Hi. cbn [mask set_entries]. rewrite Hc, Hmask, Hsplit, !has_id_app by done. cbn.
    by rewrite <- orb_assoc, (orb_comm _ (eid e =? i)).
  - cbn [len set_entries]. rewrite total_len_app in Hlen |- *. rewrite Hl, Hlen. cbn. lia.
  - cbn. by rewrite Ho.
Qed.

Lemma httpHeaderEntryClone_ok e : entry_ok e -> httpHeaderEntryClone e = Some e.
Proof.
  intros (Hid & Hn & H1 & H2). unfold httpHeaderEntryClone, httpHeaderEntryCreate.
  rewrite assert_eid_true by done.
  assert ((if eid e =? HDR_OTHER then ename e else header_name (eid e)) = ename e) as ->.
  { destruct (eid e =? HDR_OTHER) eqn:E; zify_bools; [done|]. by rewrite Hn. }
  rewrite !(proj2 (Z.ltb_lt _ _)) by done. by destruct e.
Qed.

Lemma httpHeaderAddClone_ok h e :
  hdr_ok h -> entry_ok e ->
  exists h', httpHeaderAddClone h e = Some h' /\ hdr_ok h' /\
    entries h' = entries h ++ [Some e] /\ live h' = live h ++ [e] /\ owner h' = owner h.
Proof.
  intros Hok He. unfold httpHeaderAddClone. rewrite httpHeaderEntryClone_ok by done.
  by apply httpHeaderAddEntry_ok.
Qed.

(** ** Deleting *)

Lemma httpHeaderDelAt_ok h pre e l :
  entries h = pre ++ Some e :: l -> entry_len e <= len h ->
  httpHeaderDelAt h (Z.of_nat (length pre)) =
  Some (mkHdr (pre ++ None :: l) (mask h) (owner h) (len h - entry_len e)).
Proof.
  intros He Hl. unfold httpHeaderDelAt. rewrite He, length_app. cbn [length].
  rewrite (proj2 (Z.leb_le _ _)), (proj2 (Z.ltb_lt _ _)) by lia. cbn [andb].
  rewrite Nat2Z.id, list_lookup_middle by done. cbn [mjoin option_join mbind option_bind].
  rewrite insert_app_r_alt, Nat.sub_diag by lia. cbn [list_insert insert].
  unfold set_len, set_entries. cbn [len entries mask owner].
  by rewrite (proj2 (Z.leb_le _ _)) by lia.
Qed.

Lemma efold_ext {A} (f g : A -> Z -> HttpHeaderEntry -> option (A * bool)) a pos l :
  (forall a pos e, f a pos e = g a pos e) -> efold f a pos l = efold g a pos l.
Proof.
  intros Hfg. revert a pos. induction l as [|[e|] l IH]; intros a pos; cbn; [done| |apply IH].
  rewrite Hfg. destruct (g a pos e) as [[a' []]|]; cbn; [apply IH|done|done].
Qed.

(** The common form of the deleting loops: entries that satisfy [f] are
    deleted and counted, for the others [upd] may change the mask. *)
Definition del_body (f : HttpHeaderEntry -> bool) (upd : HttpHeader -> HttpHeaderEntry -> option (list Z))
    (s : HttpHeader * Z) (pos : Z) (e : HttpHeaderEntry) : option (HttpHeader * Z) :=
  let '(h, count) := s in
  if f e then let? h := httpHeaderDelAt h pos in Some (h, count + 1)
  else let? m := upd h e in Some (set_mask m h, count).

Lemma del_body_eq f upd h c pos e :
  del_body f upd (h, c) pos e =
  if f e then let? h := httpHeaderDelAt h pos in Some (h, c + 1)
  else let? m := upd h e in Some (set_mask m h, c).
Proof. done. Qed.

(** [upd] sets the bits [K e]. *)
Definition sets_bits (upd : HttpHeader -> HttpHeaderEntry -> option (list Z)) (K : HttpHeaderEntry -> Z -> bool) : Prop :=
  forall h e, entry_ok e -> length (mask h) = HttpHeaderMask_size ->
    exists m, upd h e = Some m /\ length m = HttpHeaderMask_size /\
      (forall id, 0 <= id -> cbit m id = cbit (mask h) id || K e id).

Lemma del_fold f upd K l pre h c :
  sets_bits upd K ->
  entries h = pre ++ l -> Forall entry_ok (live_of l) -> length (mask h) = HttpHeaderMask_size ->
  total_len (List.filter f (live_of l)) <= len h ->
  exists h', efold (fun s pos e => let? s := del_body f upd s pos e in Some (s, true)) (h, c) (Z.of_nat (length pre)) l
             = Some (h', c + Z.of_nat (length (List.filter f (live_of l)))) /\
    entries h' = pre ++ kill f l /\ owner h' = owner h /\
    len h' = len h - total_len (List.filter f (live_of l)) /\ length (mask h') = HttpHeaderMask_size /\
    (forall id, 0 <= id -> cbit (mask h') id = cbit (mask h) id || existsb (fun e => negb (f e) && K e id) (live_of l)).
Proof.
  intros Hu. revert pre h c. induction l as [|[e|] l IH]; intros pre h c He Hok Hm Hlen.
  - exists h. cbn. rewrite Z.add_0_r, Z.sub_0_r. split_and!; try done. intros. by rewrite orb_false_r.
  - change (live_of (Some e :: l)) with (e :: live_of l) in *. inversion Hok as [|? ? Hoke Hokl]; subst.
    cbn [efold]. rewrite del_body_eq. cbn [List.filter] in *. cbn [kill map existsb].
    destruct (f e) eqn:Ef; cbn [length total_len negb andb orb] in *.
    + pose proof (total_len_nonneg (List.filter f (live_of l))).
      rewrite (httpHeaderDelAt_ok h pre e l) by (done || lia). bind_simpl.
      specialize (IH (pre ++ [None]) (mkHdr (pre ++ None :: l) (mask h) (owner h) (len h - entry_len e)) (c + 1)).
      rewrite length_app, <- app_assoc in IH. cbn [length entries mask len owner] in IH.
      destruct IH as (h' & Hh' & Hen & Ho & Hl & Hml & Hc); [done|done|done|lia|].
      exists h'. replace (Z.of_nat (length pre + 1)) with (Z.of_nat (length pre) + 1) in Hh' by lia.
      rewrite Hh'. split_and!; try done; [f_equal; f_equal; lia|by rewrite Hen, <- app_assoc|lia].
    + destruct (Hu h e Hoke Hm) as (m & -> & Hml & Hc). bind_simpl.
      specialize (IH (pre ++ [Some e]) (set_mask m h) c).
      rewrite length_app, <- app_assoc in IH. cbn [length entries mask len owner set_mask] in IH.
      destruct IH as (h' & Hh' & Hen & Ho & Hl & Hml' & Hc'); [done|done|done|lia|].
      exists h'. replace (Z.of_nat (length pre + 1)) with (Z.of_nat (length pre) + 1) in Hh' by lia.
      rewrite Hh'. split_and!; try done; [by rewrite Hen, <- app_assoc|].
      intros id Hid. rewrite Hc', Hc by done. by rewrite <- orb_assoc.
  - change (live_of (None :: l)) with (live_of l) in *. cbn [efold].
    specialize (IH (pre ++ [None]) h c). rewrite length_app, <- app_assoc in IH.
    destruct IH as (h' & Hh' & Hen & Hrest); [done|done|done|lia|].
    exists h'. cbn [length] in Hh'. replace (Z.of_nat (length pre + 1)) with (Z.of_nat (length pre) + 1) in Hh' by lia.
    rewrite Hh'. split_and!; try done; try apply Hrest. by rewrite Hen, <- app_assoc.
Qed.

(** A deleting loop over the whole header. *)
Lemma del_loop f upd K (body : HttpHeader * Z -> Z -> HttpHeaderEntry -> option (HttpHeader * Z)) h :
  sets_bits upd K -> (forall s pos e, body s pos e = del_body f upd s pos e) ->
  Forall entry_ok (live h) -> length (mask h) = HttpHeaderMask_size -> len h = total_len (live h) ->
  exists h', hdrLoop h body 0 = Some (h', Z.of_nat (length (List.filter f (live h)))) /\
    entries h' = kill f (entries h) /\ owner h' = owner h /\
    len h' = total_len (live h') /\ length (mask h') = HttpHeaderMask_size /\
    (forall id, 0 <= id -> cbit (mask h') id = cbit (mask h) id || existsb (fun e => negb (f e) && K e id) (live h)).
Proof.
  intros Hu Hb Hok Hm Hlen. unfold hdrLoop, hdr_fuel.
  rewrite (entryWhile_efold _ _) with (l := entries h) (pre := []); [|clear -Hb|done|lia].
  - rewrite (efold_ext _ (fun s pos e => let? s := del_body f upd s pos e in Some (s, true)))
      by (intros; by rewrite Hb).
    destruct (del_fold f upd K (entries h) [] h 0 Hu eq_refl Hok Hm) as (h' & Hh' & Hen & Ho & Hl & Hml & Hc).
    { fold (live h). rewrite Hlen. rewrite <- (total_len_filter f (live h)).
      pose proof (total_len_nonneg (List.filter (fun e => negb (f e)) (live h))). lia. }
    exists h'. split_and!; try done. rewrite Hl, Hlen.
    assert (live h' = List.filter (fun e => negb (f e)) (live h)) as -> by (unfold live; by rewrite Hen, <- live_kill).
    pose proof (total_len_filter f (live h)). unfold live in *. lia.
  - intros [h1 c] pre e l [h2 c2] go He Hbody. cbn [fst] in *.
    destruct (body (h1, c) (Z.of_nat (length pre)) e) as [[h3 c3]|] eqn:E; [|done]. cbn in Hbody. simplify_eq.
    rewrite Hb in E. unfold del_body in E. destruct (f e).
    + destruct (httpHeaderDelAt h1 _) as [h4|] eqn:Ed; [|done]. cbn in E. simplify_eq.
      unfold httpHeaderDelAt in Ed. rewrite He in Ed. inv_opt Ed. simplify_eq. cbn [entries set_len set_entries].
      exists None. rewrite Nat2Z.id, insert_app_r_alt, Nat.sub_diag by lia. done.
    + destruct (upd h1 e); [|done]. cbn in E. simplify_eq. cbn. eauto.
Qed.

Lemma sets_bits_none : sets_bits (fun h _ => Some (mask h)) (fun _ _ => false).
Proof. intros h e _ Hm. eexists. split_and!; [done|done|]. intros. by rewrite orb_false_r. Qed.

Lemma sets_bits_eid : sets_bits (fun h e => CBIT_SET (mask h) (eid e)) (fun e id => eid e =? id).
Proof.
  intros h e (Hid & _) Hm. destruct (CBIT_SET_spec _ _ (in_mask_hdr _ _ Hm Hid)) as (m & -> & Hl & Hc).
  exists m. split_and!; [done|by rewrite Hl|]. intros i Hi. rewrite Hc by done. f_equal.
  destruct (eid e =? i) eqn:E; zify_bools; case_bool_decide; congruence.
Qed.

Lemma filter_entry_ok f l : Forall entry_ok l -> Forall entry_ok (List.filter f l).
Proof. intros H. apply List.Forall_forall. intros e [Hin _]%filter_In. by apply (proj1 (List.Forall_forall _ _) H). Qed.

Lemma existsb_andb_filter {A} (f g : A -> bool) l :
  existsb (fun e => negb (f e) && g e) l = existsb g (List.filter (fun e => negb (f e)) l).
Proof. induction l as [|e l IH]; cbn; [done|]. destruct (f e); cbn; by rewrite IH. Qed.

Lemma existsb_false {A} (l : list A) : existsb (fun _ => false) l = false.
Proof. by induction l. Qed.

Lemma set_mask_same h : set_mask (mask h) h = h.
Proof. by destruct h. Qed.

Lemma httpHeaderDelById_ok h id :
  hdr_ok h -> 0 <= id < HDR_ENUM_END -> id <> HDR_OTHER ->
  exists h', httpHeaderDelById h id = Some (h', Z.of_nat (length (List.filter (fun e => eid e =? id) (live h)))) /\
    hdr_ok h' /\ live h' = List.filter (fun e => negb (eid e =? id)) (live h) /\ owner h' = owner h.
Proof.
  intros [Hm Hent Hmask Hlen Hown] Hid Hne. unfold httpHeaderDelById.
  rewrite assert_eid_true, (proj2 (Z.eqb_neq _ _)) by done. cbn [negb].
  rewrite CBIT_TEST_cbit by by apply in_mask_hdr. bind_simpl.
  rewrite Hmask by done. destruct (has_id id (live h)) eqn:Eh; cbn [negb].
  - destruct (del_loop (fun e => eid e =? id) (fun h _ => Some (mask h)) (fun _ _ => false)
      (fun '(h, count) pos e =>
         if eid e =? id then let? h := httpHeaderDelAt h pos in Some (h, count + 1)
         else Some (h, count)) h sets_bits_none) as (h1 & -> & Hen & Ho & Hl & Hm1 & Hc); [|done|done|done|].
    { intros [h0 c] pos e. unfold del_body. bind_simpl. by rewrite set_mask_same. }
    bind_simpl.
    destruct (CBIT_CLR_spec _ _ (in_mask_hdr _ _ Hm1 Hid)) as (m & -> & Hml & Hcc). bind_simpl.
    assert (live (set_mask m h1) = List.filter (fun e => negb (eid e =? id)) (live h)) as Hlive.
    { unfold live. cbn [entries set_mask]. by rewrite Hen, live_kill. }
    rewrite (proj2 (Z.eqb_neq _ 0)).
    2:{ apply has_id_In in Eh as (e & Hin & He). intros Hz.
        assert (In e (List.filter (fun e => eid e =? id) (live h))) as Hin' by (apply filter_In; split; [done|lia]).
        destruct (List.filter (fun e => eid e =? id) (live h)); [done|cbn in Hz; lia]. }
    cbn [negb]. eexists. split; [done|]. split_and!; [|done|done].
    constructor; try done; rewrite ?Hlive.
    + cbn. by rewrite Hml.
    + by apply filter_entry_ok.
    + intros i Hi. cbn [mask set_mask]. rewrite Hcc, Hc, Hmask by lia.
      rewrite existsb_andb_filter, existsb_false, orb_false_r.
      case_bool_decide as Hi'.
      * subst i. rewrite andb_false_r. symmetry. apply not_true_is_false. rewrite has_id_In.
        intros (e & [_ Hf]%filter_In & He). rewrite He, Z.eqb_refl in Hf. done.
      * rewrite andb_true_r. symmetry. apply has_id_filter. intros e He. apply negb_true_iff. lia.
    + cbn. by rewrite Ho.
  - exists h. assert (forall e, In e (live h) -> (eid e =? id) = false) as Hno.
    { intros e Hin. apply Z.eqb_neq. intros He. apply not_true_iff_false in Eh. apply Eh, has_id_In. eauto. }
    assert (forall l, (forall e, In e l -> (eid e =? id) = false) ->
      List.filter (fun e => eid e =? id) l = [] /\ List.filter (fun e => negb (eid e =? id)) l = l) as Hf.
    { clear. induction l as [|e l IH]; intros Hno; [done|]. cbn. rewrite Hno by by left. cbn.
      destruct IH as [-> ->]; [intros; apply Hno; by right|done]. }
    destruct (Hf _ Hno) as [-> ->]. done.
Qed.

Lemma httpHeaderDelByName_ok h name :
  hdr_ok h ->
  exists h', httpHeaderDelByName h name = Some (h', Z.of_nat (length (List.filter (fun e => strcaseeq (ename e) name) (live h)))) /\
    hdr_ok h' /\ live h' = List.filter (fun e => negb (strcaseeq (ename e) name)) (live h) /\ owner h' = owner h.
Proof.
  intros [Hm Hent Hmask Hlen Hown]. unfold httpHeaderDelByName.
  destruct (del_loop (fun e => strcaseeq (ename e) name) _ _
    (fun '(h, count) pos e =>
       if strcaseeq (ename e) name then
         let? h := httpHeaderDelAt h pos in Some (h, count + 1)
       else
         let? m := CBIT_SET (mask h) (eid e) in Some (set_mask m h, count))
    (set_mask (httpHeaderMaskInit 0) h) sets_bits_eid) as (h1 & -> & Hen & Ho & Hl & Hm1 & Hc); [|done..|].
  { by intros [h0 c] pos e. }
  exists h1. assert (live h1 = List.filter (fun e => negb (strcaseeq (ename e) name)) (live h)) as Hlive.
  { unfold live. by rewrite Hen, live_kill. }
  split; [done|]. split_and!; [|done|done]. constructor; try done; rewrite ?Hlive.
  - by apply filter_entry_ok.
  - intros i Hi. rewrite Hc by lia. cbn [mask set_mask]. unfold httpHeaderMaskInit. rewrite cbit_zero. cbn [orb].
    apply existsb_andb_filter.
  - by rewrite Ho.
Qed.

(** ** Searching *)

Lemma ListHeadersMask_built :
  httpHeaderCalcMask (httpHeaderMaskInit 0) ListHeadersArr = Some ListHeadersMask.
Proof. vm_compute. reflexivity. Qed.

Definition is_list_id (id : Z) : bool := cbit ListHeadersMask id.

Lemma list_mask_test id : 0 <= id < HDR_ENUM_END -> CBIT_TEST ListHeadersMask id = Some (is_list_id id).
Proof. intros H. apply CBIT_TEST_cbit. by apply in_mask_hdr. Qed.

Lemma rfold_find f l :
  rfold (fun (r : option HttpHeaderEntry) e => if (f e : bool) then Some (Some e, false) else Some (r, true)) None l = Some (List.find f l).
Proof. induction l as [|e l IH]; cbn; [done|]. destruct (f e); cbn; [done|apply IH]. Qed.

Lemma rfold_total {A} (g : A -> HttpHeaderEntry -> A) l a :
  rfold (fun a e => Some (g a e, true)) a l = Some (foldl g a l).
Proof. revert a. induction l as [|e l IH]; intros a; cbn; [done|apply IH]. Qed.

Lemma find_has_id id l : has_id id l = match List.find (fun e => eid e =? id) l with Some _ => true | None => false end.
Proof. unfold has_id. induction l as [|e l IH]; cbn; [done|]. destruct (eid e =? id); [done|apply IH]. Qed.

Lemma httpHeaderFindEntry_ok h id :
  hdr_ok h -> 0 <= id < HDR_ENUM_END -> is_list_id id = false ->
  httpHeaderFindEntry h id = Some (List.find (fun e => eid e =? id) (live h)).
Proof.
  intros [Hm Hent Hmask Hlen Hown] Hid Hl. unfold httpHeaderFindEntry.
  rewrite assert_eid_true, list_mask_test, Hl by done. cbn [mbind option_bind negb].
  rewrite CBIT_TEST_cbit, Hmask by (done || by apply in_mask_hdr). bind_simpl.
  rewrite find_has_id. rewrite hdrRead_live, rfold_find. bind_simpl.
  by destruct (List.find _ (live h)).
Qed.

Lemma foldl_last f (l : list HttpHeaderEntry) acc :
  foldl (fun r e => if (f e : bool) then Some e else r) acc l =
  match list.last (List.filter f l) with Some e => Some e | None => acc end.
Proof.
  revert acc. induction l as [|e l IH]; intros acc; cbn [foldl List.filter]; [done|].
  rewrite IH. destruct (f e); [|done].
  destruct (List.filter f l) as [|x l'] eqn:E; [done|].
  change (list.last (e :: x :: l')) with (list.last (x :: l')).
  destruct (list.last (x :: l')) eqn:El; [done|]. by apply last_None in El.
Qed.

Lemma httpHeaderFindLastEntry_ok h id :
  hdr_ok h -> 0 <= id < HDR_ENUM_END -> is_list_id id = false ->
  httpHeaderFindLastEntry h id = Some (list.last (List.filter (fun e => eid e =? id) (live h))).
Proof.
  intros [Hm Hent Hmask Hlen Hown] Hid Hl. unfold httpHeaderFindLastEntry.
  rewrite assert_eid_true, list_mask_test, Hl by done. cbn [mbind option_bind negb].
  rewrite CBIT_TEST_cbit, Hmask by (done || by apply in_mask_hdr). bind_simpl.
  rewrite hdrRead_live, rfold_total, foldl_last. bind_simpl.
  destruct (has_id id (live h)) eqn:Eh; cbn [negb].
  - destruct (list.last _) eqn:El; [done|]. apply last_None in El.
    apply has_id_In in Eh as (e & Hin & He).
    assert (In e (List.filter (fun e => eid e =? id) (live h))) as Hf by (apply filter_In; split; [done|lia]).
    by rewrite El in Hf.
  - destruct (list.last _) eqn:El; [|done]. apply last_Some_elem_of, list_elem_of_In, filter_In in El as [Hin He].
    apply not_true_iff_false in Eh. exfalso. apply Eh, has_id_In. exists h0. split; [done|lia].
Qed.

Lemma httpHeaderHas_ok h id :
  hdr_ok h -> 0 <= id < HDR_ENUM_END -> id <> HDR_OTHER ->
  httpHeaderHas h id = Some (has_id id (live h)).
Proof.
  intros [Hm Hent Hmask Hlen Hown] Hid Hne. unfold httpHeaderHas.
  rewrite assert_eid_true, (proj2 (Z.eqb_neq _ _)) by done. cbn [negb].
  by rewrite CBIT_TEST_cbit, Hmask by (done || by apply in_mask_hdr).
Qed.

(** The joined value of a list header. *)
Definition join_values (l : list bytes) : option bytes :=
  match l with
  | [] => None
  | v :: l => Some (foldl (fun s v => strListAddStr s v 44) v l)
  end.

Lemma foldl_add_item f l s :
  foldl (fun s e => if (f e : bool) then add_item s (evalue e) else s) (Some s) l =
  Some (foldl (fun s v => strListAddStr s v 44) s (map evalue (List.filter f l))).
Proof.
  revert s. induction l as [|e l IH]; intros s; cbn [foldl List.filter map]; [done|].
  destruct (f e); [|apply IH]. unfold add_item at 2. cbn [default from_option id]. rewrite IH. done.
Qed.

Lemma foldl_join_values f l :
  foldl (fun s e => if (f e : bool) then add_item s (evalue e) else s) None l = join_values (map evalue (List.filter f l)).
Proof.
  induction l as [|e l IH]; cbn [foldl List.filter map]; [done|]. destruct (f e); [|apply IH].
  unfold add_item at 2. cbn [default from_option id]. by rewrite foldl_add_item.
Qed.

Lemma httpHeaderGetList_ok h id :
  hdr_ok h -> 0 <= id < HDR_ENUM_END -> is_list_id id = true ->
  httpHeaderGetList h id = Some (join_values (map evalue (List.filter (fun e => eid e =? id) (live h)))).
Proof.
  intros [Hm Hent Hmask Hlen Hown] Hid Hl. unfold httpHeaderGetList.
  rewrite list_mask_test, Hl by done. bind_simpl.
  rewrite CBIT_TEST_cbit, Hmask by (done || by apply in_mask_hdr). bind_simpl.
  rewrite hdrRead_live, rfold_total, foldl_join_values. bind_simpl.
  rewrite find_has_id.
  assert (forall l, List.filter (fun e => eid e =? id) l = [] <-> List.find (fun e => eid e =? id) l = None) as Hf.
  { clear. induction l as [|e l IH]; cbn; [done|]. destruct (eid e =? id); done. }
  specialize (Hf (live h)).
  destruct (List.find _ (live h)) eqn:E; cbn [negb].
  - destruct (List.filter _ (live h)) eqn:Ef; [naive_solver|]. done.
  - by rewrite (proj2 Hf).
Qed.

(** ** Whole headers *)

Lemma insert_cons_0 {A} (x y : A) l : <[0%nat := x]> (y :: l) = x :: l.
Proof. done. Qed.
Lemma insert_cons_S {A} n (x y : A) l : <[S n := x]> (y :: l) = y :: <[n := x]> l.
Proof. done. Qed.

(** The loop of [httpHeaderRepack]: below [pos] the live entries already
    moved, then gaps up to [dp]. *)
Lemma repack_loop_ok fuel done_ n rest :
  (length rest < fuel)%nat ->
  exists items, repack_loop fuel (map Some done_ ++ repeat None n ++ rest) (length done_ + n) (length done_)
    = Some (items, length (done_ ++ live_of rest)) /\
    take (length (done_ ++ live_of rest)) items = map Some (done_ ++ live_of rest).
Proof.
  revert done_ n rest. induction fuel as [|fuel IH]; intros done_ n rest Hf; [lia|]. cbn [repack_loop].
  set (items := map Some done_ ++ repeat None n ++ rest).
  assert (items !! (length done_ + n)%nat = head rest) as ->.
  { unfold items. rewrite app_assoc, lookup_app_r; rewrite length_app, length_map, repeat_length; [|lia].
    rewrite Nat.sub_diag. by destruct rest. }
  destruct rest as [|[e|] rest]; cbn [head].
  - exists items. cbn. rewrite app_nil_r. split; [done|]. unfold items.
    by rewrite <- (length_map Some), take_app_length.
  - cbn in Hf. change (live_of (Some e :: rest)) with (e :: live_of rest).
    specialize (IH (done_ ++ [e]) n rest ltac:(lia)). rewrite length_app in IH. cbn [length] in IH.
    replace (length done_ + 1 + n)%nat with (S (length done_ + n)) in IH by lia.
    replace (length done_ + 1)%nat with (S (length done_)) in IH by lia.
    rewrite <- app_assoc in IH. cbn [app] in IH.
    assert ((if (length done_ + n =? length done_)%nat then <[length done_:=Some e]> items
             else <[(length done_ + n)%nat:=None]> (<[length done_:=Some e]> items))
            = map Some (done_ ++ [e]) ++ repeat None n ++ rest) as ->; [|exact IH].
    unfold items. rewrite map_app, <- app_assoc. cbn [map app].
    destruct n as [|n].
    + rewrite Nat.add_0_r, Nat.eqb_refl. cbn [repeat app].
      rewrite insert_app_r_alt; rewrite length_map; [|lia]. by rewrite Nat.sub_diag.
    + rewrite (proj2 (Nat.eqb_neq _ _)) by lia. cbn [repeat app].
      rewrite insert_app_r_alt; rewrite length_map; [|lia]. rewrite Nat.sub_diag, insert_cons_0.
      rewrite insert_app_r_alt; rewrite length_map; [|lia].
      replace (length done_ + S n - length done_)%nat with (S n) by lia. rewrite insert_cons_S.
      f_equal. f_equal. rewrite insert_app_r_alt; rewrite repeat_length; [|lia].
      rewrite Nat.sub_diag. cbn. change (None :: rest) with ([None] ++ rest).
      rewrite app_assoc, <- repeat_cons. done.
  - cbn in Hf. change (live_of (None :: rest)) with (live_of rest).
    specialize (IH done_ (S n) rest ltac:(lia)).
    replace (length done_ + S n)%nat with (S (length done_ + n)) in IH by lia.
    assert (items = map Some done_ ++ repeat None (S n) ++ rest) as ->; [|exact IH].
    unfold items. cbn [repeat]. rewrite repeat_cons, <- app_assoc. done.
Qed.

Lemma httpHeaderRepack_ok h :
  exists h', httpHeaderRepack h = Some h' /\ entries h' = map Some (live h) /\ live h' = live h /\
    mask h' = mask h /\ len h' = len h /\ owner h' = owner h.
Proof.
  unfold httpHeaderRepack, hdr_fuel.
  destruct (repack_loop_ok (S (length (entries h))) [] 0 (entries h) ltac:(lia)) as (items & H & Ht).
  cbn [map repeat app length Nat.add] in H, Ht. rewrite H. bind_simpl.
  eexists. split; [done|]. unfold set_entries. cbn [entries mask len owner]. rewrite Ht.
  split_and!; try done. unfold live. cbn [entries]. apply live_of_Some.
Qed.

Lemma hdr_ok_same_live h h' :
  live h' = live h -> mask h' = mask h -> len h' = len h -> owner h' = owner h -> hdr_ok h -> hdr_ok h'.
Proof. intros Hl Hm Hn Ho [? ? ? ? ?]. constructor; rewrite ?Hl, ?Hm, ?Hn, ?Ho; done. Qed.

(** Adding clones of a list of entries. *)
Lemma add_clones P l h :
  hdr_ok h -> Forall entry_ok l ->
  (forall e, In e l -> exists b, P e = Some b) ->
  exists h', rfold (fun h e => let? d := P e in
                 if (d : bool) then Some (h, true) else let? h := httpHeaderAddClone h e in Some (h, true)) h l = Some h' /\
    hdr_ok h' /\ live h' = live h ++ List.filter (fun e => negb (default false (P e))) l /\ owner h' = owner h.
Proof.
  intros Hok Hl. revert h Hok. induction Hl as [|e l He Hl IH]; intros h Hok HP.
  - exists h. cbn. by rewrite app_nil_r.
  - cbn [rfold List.filter]. destruct (HP e) as [b Hb]; [by left|]. rewrite Hb. cbn [mbind option_bind default from_option id].
    destruct b; cbn [negb].
    + apply IH; [done|]. intros; apply HP; by right.
    + destruct (httpHeaderAddClone_ok h e Hok He) as (h1 & -> & Hok1 & _ & Hlive & Ho). bind_simpl.
      destruct (IH h1 Hok1) as (h2 & -> & Hok2 & Hl2 & Ho2); [intros; apply HP; by right|].
      exists h2. split_and!; try done; [|congruence]. by rewrite Hl2, Hlive, <- app_assoc.
Qed.

(** The entries of [old] that a fresh entry replaces. *)
Definition replaces (f e : HttpHeaderEntry) : bool :=
  if eid f =? HDR_OTHER then strcaseeq (ename e) (ename f) else eid e =? eid f.

Lemma del_replaced P l h :
  hdr_ok h -> Forall entry_ok l ->
  (forall e, In e l -> exists b, P e = Some b) ->
  exists h', rfold (fun old e =>
    let? d := P e in
    if (d : bool) then Some (old, true)
    else if negb (eid e =? HDR_OTHER) then
      let? (old, _) := httpHeaderDelById old (eid e) in Some (old, true)
    else
      let? (old, _) := httpHeaderDelByName old (ename e) in Some (old, true)) h l = Some h' /\
    hdr_ok h' /\ owner h' = owner h /\
    live h' = List.filter (fun e => negb (existsb (fun f => replaces f e) (List.filter (fun e => negb (default false (P e))) l))) (live h).
Proof.
  intros Hok Hl. revert h Hok. induction Hl as [|e l He Hl IH]; intros h Hok HP.
  - exists h. cbn. split_and!; try done. generalize (live h). induction l as [|x l IHl]; cbn; [done|by rewrite <- IHl].
  - cbn [rfold List.filter]. destruct (HP e) as [b Hb]; [by left|]. rewrite Hb. cbn [mbind option_bind default from_option id].
    assert (forall f g (k : list HttpHeaderEntry), List.filter (fun e => negb (g e)) (List.filter (fun e => negb (f e)) k)
             = List.filter (fun e => negb (f e || g e)) k) as Hff.
    { clear. intros f g k. induction k as [|x k IHk]; cbn; [done|]. destruct (f x); cbn; [done|]. destruct (g x); cbn; by rewrite IHk. }
    assert (forall x, In x l -> exists b, P x = Some b) as HP' by (intros; apply HP; by right).
    destruct b; cbn [negb].
    + by apply IH.
    + destruct (eid e =? HDR_OTHER) eqn:Eo; cbn [negb]; zify_bools.
      * destruct (httpHeaderDelByName_ok h (ename e) Hok) as (h1 & -> & Hok1 & Hl1 & Ho1). bind_simpl.
        destruct (IH h1 Hok1 HP') as (h2 & -> & Hok2 & Ho2 & Hl2). exists h2. split_and!; try done; [congruence|].
        rewrite Hl2, Hl1, Hff. cbn [existsb]. unfold replaces at 2. rewrite (proj2 (Z.eqb_eq _ _) Eo). done.
      * destruct He as [Hid _].
        destruct (httpHeaderDelById_ok h (eid e) Hok Hid Eo) as (h1 & -> & Hok1 & Hl1 & Ho1). bind_simpl.
        destruct (IH h1 Hok1 HP') as (h2 & -> & Hok2 & Ho2 & Hl2). exists h2. split_and!; try done; [congruence|].
        rewrite Hl2, Hl1, Hff. cbn [existsb]. unfold replaces at 2. rewrite (proj2 (Z.eqb_neq _ _) Eo). done.
Qed.

(** The entries of [fresh] that are not denied. *)
Definition allowed (denied : option (list Z)) (fresh : HttpHeader) : list HttpHeaderEntry :=
  List.filter (fun e => negb (match denied with Some m => cbit m (eid e) | None => false end)) (live fresh).

Lemma denied_id_ok denied id :
  (forall m, denied = Some m -> length m = HttpHeaderMask_size) -> 0 <= id < HDR_ENUM_END ->
  denied_id denied id = Some (match denied with Some m => cbit m id | None => false end).
Proof.
  intros Hd Hid. unfold denied_id. destruct denied as [m|]; [|done]. apply CBIT_TEST_cbit, in_mask_hdr; auto.
Qed.

Lemma httpHeaderUpdate_ok old fresh denied :
  hdr_ok old -> hdr_ok fresh -> (forall m, denied = Some m -> length m = HttpHeaderMask_size) ->
  exists h, httpHeaderUpdate old fresh denied = Some h /\ hdr_ok h /\ owner h = owner old /\
    live h = List.filter (fun e => negb (existsb (fun f => replaces f e) (allowed denied fresh))) (live old)
             ++ allowed denied fresh /\
    entries h = map Some (live h).
Proof.
  intros Hold Hfresh Hd. unfold httpHeaderUpdate.
  pose proof (ok_entries _ Hfresh) as Hef.
  assert (forall e, In e (live fresh) -> denied_id denied (eid e) =
            Some (match denied with Some m => cbit m (eid e) | None => false end)) as HP.
  { intros e Hin. apply denied_id_ok; [done|]. apply (proj1 (List.Forall_forall _ _) Hef e Hin). }
  assert (List.filter (fun e => negb (default false (denied_id denied (eid e)))) (live fresh) = allowed denied fresh) as Hal.
  { unfold allowed. apply filter_ext_in. intros e Hin. by rewrite HP. }
  rewrite hdrRead_live.
  destruct (del_replaced (fun e => denied_id denied (eid e)) (live fresh) old Hold Hef) as (h1 & -> & Hok1 & Ho1 & Hl1);
    [eauto|]. bind_simpl. rewrite Hal in Hl1.
  rewrite hdrRead_live.
  destruct (add_clones (fun e => denied_id denied (eid e)) (live fresh) h1 Hok1 Hef) as (h2 & -> & Hok2 & Hl2 & Ho2);
    [eauto|]. bind_simpl. rewrite Hal in Hl2.
  destruct (httpHeaderRepack_ok h2) as (h3 & -> & He3 & Hl3 & Hm3 & Hn3 & Ho3).
  exists h3. split; [done|]. split_and!; [by eapply hdr_ok_same_live|congruence|by rewrite Hl3, Hl2, Hl1|by rewrite He3, Hl3].
Qed.

Lemma httpHeaderAppend_ok dest src :
  hdr_ok dest -> hdr_ok src ->
  exists h, httpHeaderAppend dest src = Some h /\ hdr_ok h /\ live h = live dest ++ live src /\ owner h = owner dest.
Proof.
  intros Hd Hs. unfold httpHeaderAppend. rewrite hdrRead_live.
  destruct (add_clones (fun _ => Some false) (live src) dest Hd (ok_entries _ Hs)) as (h & Hh & Hok & Hl & Ho); [eauto|].
  exists h. split; [exact Hh|]. split_and!; try done. rewrite Hl. f_equal.
  generalize (live src). intros l. induction l as [|x l IHl]; [done|]. cbn in *. by f_equal.
Qed.

(** ** Packing *)

Definition pack (l : list HttpHeaderEntry) : bytes := concat (map httpHeaderEntryPackInto l).

Lemma foldl_pack l acc : foldl (fun p e => p ++ httpHeaderEntryPackInto e) acc l = acc ++ pack l.
Proof.
  revert acc. induction l as [|e l IH]; intros acc; cbn; [by rewrite app_nil_r|]. by rewrite IH, <- app_assoc.
Qed.

Lemma pack_length l : Z.of_nat (length (pack l)) = total_len l.
Proof.
  induction l as [|e l IH]; [done|]. cbn [pack map concat total_len]. rewrite length_app.
  fold (pack l). unfold httpHeaderEntryPackInto, entry_len. rewrite !length_app. cbn [length str]. lia.
Qed.

(** The [len] field of a well-formed header is the number of bytes that
    packing it produces. *)
Theorem httpHeaderPackInto_len h :
  hdr_ok h -> exists b, httpHeaderPackInto h = Some b /\ b = pack (live h) /\ Z.of_nat (length b) = len h.
Proof.
  intros [_ _ _ Hl _]. exists (pack (live h)). unfold httpHeaderPackInto.
  rewrite hdrRead_live, rfold_total, foldl_pack. split_and!; try done. by rewrite pack_length, Hl.
Qed.

(** ** Refreshing the mask *)

Lemma refresh_fold l h pos :
  Forall entry_ok (live_of l) -> length (mask h) = HttpHeaderMask_size ->
  exists m, efold (fun s (pos : Z) e => let? s := (let '(h, u) := s in
                 let? m := CBIT_SET (mask h) (eid e) in Some (set_mask m h, u)) in Some (s, true)) (h, tt) pos l
            = Some (set_mask m h, tt) /\ length m = HttpHeaderMask_size /\
    (forall id, 0 <= id -> cbit m id = cbit (mask h) id || has_id id (live_of l)).
Proof.
  revert h pos. induction l as [|[e|] l IH]; intros h pos Hok Hm.
  - exists (mask h). cbn. rewrite set_mask_same. split_and!; try done. intros; by rewrite orb_false_r.
  - change (live_of (Some e :: l)) with (e :: live_of l) in *. inversion Hok as [|? ? He Hl]; subst. cbn [efold].
    destruct (sets_bits_eid h e He Hm) as (m & -> & Hml & Hc). bind_simpl.
    destruct (IH (set_mask m h) (pos + 1) Hl Hml) as (m2 & -> & Hm2 & Hc2). exists m2. split_and!; try done.
    intros id Hid. rewrite Hc2 by done. cbn [mask set_mask]. rewrite Hc by done. cbn. by rewrite <- orb_assoc.
  - change (live_of (None :: l)) with (live_of l) in *. cbn [efold]. by apply IH.
Qed.

(** [httpHeaderRefreshMask] restores the mask whatever it was. *)
Lemma httpHeaderRefreshMask_ok h :
  Forall entry_ok (live h) -> len h = total_len (live h) -> hoNone < owner h <= hoReply ->
  exists h', httpHeaderRefreshMask h = Some h' /\ hdr_ok h' /\ live h' = live h.
Proof.
  intros Hent Hlen Hown. unfold httpHeaderRefreshMask, hdrLoop, hdr_fuel.
  rewrite (entryWhile_efold _ _) with (l := entries h) (pre := []); [|clear|done|cbn; lia].
  - destruct (refresh_fold (entries h) (set_mask (httpHeaderMaskInit 0) h) (Z.of_nat (length (A:=option HttpHeaderEntry) [])))
      as (m & Hf & Hm & Hc); [done|done|].
    erewrite efold_ext; [rewrite Hf|by intros [] ? ?].
    bind_simpl. eexists. split; [done|]. split; [|done]. constructor; try done.
    intros id Hid. change (cbit m id = has_id id (live h)). rewrite Hc by lia. cbn [mask set_mask]. unfold httpHeaderMaskInit. by rewrite cbit_zero.
  - intros [h1 []] pre e l [h2 []] go He. cbn [fst] in *.
    destruct (CBIT_SET (mask h1) (eid e)); [|done]. cbn. intros [= <- <-]. cbn. eauto.
Qed.

(** ** Every sequence of operations *)

Inductive hdr_op :=
| OpAddEntry (e : HttpHeaderEntry)
| OpAddStr (id : Z) (name value : bytes)
| OpInsertEntry (e : HttpHeaderEntry) (pos : Z)
| OpDelById (id : Z)
| OpDelByName (name : bytes)
| OpRefreshMask
| OpRepack
| OpAppend (src : HttpHeader)
| OpUpdate (fresh : HttpHeader) (denied : option (list Z))
| OpReset.

Definition run_op (h : HttpHeader) (op : hdr_op) : option HttpHeader :=
  match op with
  | OpAddEntry e => httpHeaderAddEntry h e
  | OpAddStr id name value => httpHeaderAddEntryStr h id name value
  | OpInsertEntry e pos => httpHeaderInsertEntry h e pos
  | OpDelById id => let? (h, _) := httpHeaderDelById h id in Some h
  | OpDelByName name => let? (h, _) := httpHeaderDelByName h name in Some h
  | OpRefreshMask => httpHeaderRefreshMask h
  | OpRepack => httpHeaderRepack h
  | OpAppend src => httpHeaderAppend h src
  | OpUpdate fresh denied => httpHeaderUpdate h fresh denied
  | OpReset => httpHeaderReset h
  end.

(** The arguments the callers must provide. *)
Definition op_valid (op : hdr_op) : Prop :=
  match op with
  | OpAddEntry e => entry_ok e
  | OpAddStr id name value =>
      0 <= id < HDR_ENUM_END /\ Z.of_nat (length name) < 65535 /\ Z.of_nat (length value) < 65535
  | OpInsertEntry e pos => entry_ok e /\ 0 <= pos
  | OpDelById id => 0 <= id < HDR_ENUM_END /\ id <> HDR_OTHER
  | OpAppend src => hdr_ok src
  | OpUpdate fresh denied => hdr_ok fresh /\ (forall m, denied = Some m -> length m = HttpHeaderMask_size)
  | _ => True
  end.

Lemma header_name_short id : Z.of_nat (length (header_name id)) < 65535.
Proof.
  unfold header_name. destruct (decide (Z.to_nat id < length HeaderNames)%nat) as [H|H].
  - assert (forallb (fun n => Z.of_nat (length n) <? 65535) HeaderNames = true) as Hall by (vm_compute; reflexivity).
    rewrite forallb_forall in Hall. apply Z.ltb_lt, Hall, nth_In, H.
  - rewrite nth_overflow by lia. done.
Qed.

Lemma httpHeaderEntryCreate_ok id name value :
  0 <= id < HDR_ENUM_END -> Z.of_nat (length name) < 65535 -> Z.of_nat (length value) < 65535 ->
  exists e, httpHeaderEntryCreate id name value = Some e /\ entry_ok e /\ eid e = id /\
    evalue e = value /\ ename e = (if id =? HDR_OTHER then name else header_name id).
Proof.
  intros Hid Hn Hv. unfold httpHeaderEntryCreate. rewrite assert_eid_true by done.
  pose proof (header_name_short id).
  set (nm := if id =? HDR_OTHER then name else header_name id).
  assert (Z.of_nat (length nm) < 65535) by (unfold nm; by destruct (id =? HDR_OTHER)).
  rewrite !(proj2 (Z.ltb_lt _ _)) by done. eexists. split; [done|]. split_and!; try done.
  unfold entry_ok. cbn. split_and!; try done; try lia. intros Hne. unfold nm. by rewrite (proj2 (Z.eqb_neq _ _) Hne).
Qed.

(** How much longer the packed header can become. *)
Definition op_size (op : hdr_op) : Z :=
  match op with
  | OpAddEntry e | OpInsertEntry e _ => entry_len e
  | OpAddStr id name value => entry_len (mkEntry id (if id =? HDR_OTHER then name else header_name id) value)
  | OpAppend src => total_len (live src)
  | OpUpdate fresh _ => total_len (live fresh)
  | _ => 0
  end.

Fixpoint ops_size (ops : list hdr_op) : Z := match ops with [] => 0 | op :: ops => op_size op + ops_size ops end.

Lemma total_len_filter_le f l : total_len (List.filter f l) <= total_len l.
Proof. pose proof (total_len_filter f l). pose proof (total_len_nonneg (List.filter (fun e => negb (f e)) l)). lia. Qed.

Lemma run_op_ok h op : hdr_ok h -> op_valid op -> exists h', run_op h op = Some h' /\ hdr_ok h' /\ total_len (live h') <= total_len (live h) + op_size op.
Proof.
  intros Hok Hv. destruct op as [e|id name value|e p|id|name| | |src|fresh denied|]; cbn [run_op op_valid op_size] in *.
  - destruct (httpHeaderAddEntry_ok h e Hok Hv) as (h' & ? & ? & _ & Hl & _). exists h'. rewrite Hl, total_len_app. cbn. lsplits.
  - destruct Hv as (Hid & Hn & Hlv). unfold httpHeaderAddEntryStr, httpHeaderAddEntryStr2.
    destruct (httpHeaderEntryCreate_ok id name value Hid Hn Hlv) as (e & -> & He & Hei & Hev & Hen). bind_simpl.
    destruct (httpHeaderAddEntry_ok h e Hok He) as (h' & -> & ? & _ & Hl & _). bind_simpl. exists h'. rewrite Hl, total_len_app. cbn [total_len]. unfold entry_len. rewrite Hev, Hen. cbn [ename evalue]. lsplits.
  - destruct Hv as [He Hp]. destruct (httpHeaderInsertEntry_ok h e _ Hok He Hp) as (h' & ? & ? & Hl). exists h'. rewrite Hl. set (k := Z.to_nat _).
    assert (live h = live_of (take k (entries h)) ++ live_of (drop k (entries h))) as -> by (unfold live; by rewrite <- live_of_app, take_drop). rewrite !total_len_app. cbn [total_len]. lsplits.
  - destruct Hv as [Hid Hne]. destruct (httpHeaderDelById_ok h id Hok Hid Hne) as (h' & -> & ? & Hl & _). cbn. exists h'. rewrite Hl, Z.add_0_r. split; [done|split; [done|apply total_len_filter_le]].
  - destruct (httpHeaderDelByName_ok h name Hok) as (h' & -> & ? & Hl & _). cbn. exists h'. rewrite Hl, Z.add_0_r. split; [done|split; [done|apply total_len_filter_le]].
  - destruct (httpHeaderRefreshMask_ok h) as (h' & ? & ? & Hl); [apply Hok..|]. exists h'. rewrite Hl. lsplits.
  - destruct (httpHeaderRepack_ok h) as (h' & -> & He & Hl & Hm & Hn & Ho).
    exists h'. rewrite Hl. split; [done|]. split; [by eapply hdr_ok_same_live|lia].
  - destruct (httpHeaderAppend_ok h src Hok Hv) as (h' & ? & ? & Hl & _). exists h'. rewrite Hl, total_len_app. lsplits.
  - destruct Hv as [Hf Hd]. destruct (httpHeaderUpdate_ok h fresh denied Hok Hf Hd) as (h' & ? & ? & _ & Hl & _). exists h'. rewrite Hl, total_len_app. split; [done|split; [done|]].
    apply Z.add_le_mono; apply total_len_filter_le.
  - destruct (httpHeaderReset_ok h (ok_owner _ Hok)) as (h' & ? & ? & Hl & _). exists h'. rewrite Hl. cbn. pose proof (total_len_nonneg (live h)). lsplits.
Qed.

Lemma run_ops_from ops : forall h, hdr_ok h -> Forall op_valid ops ->
  exists h', foldl (fun s op => let? h := s in run_op h op) (Some h) ops = Some h' /\ hdr_ok h' /\ total_len (live h') <= total_len (live h) + ops_size ops.
Proof.
  induction ops as [|op ops IH]; intros h Hok Hv; cbn [foldl ops_size]; [exists h; lsplits|]. apply List.Forall_cons_iff in Hv as [Hop Hv].
  destruct (run_op_ok h op Hok Hop) as (h1 & H1 & Hok1 & Hs1). bind_simpl. rewrite H1. destruct (IH h1 Hok1 Hv) as (h' & ? & ? & ?). exists h'. lsplits.
Qed.

Lemma run_ops_ok o ops :
  hoNone < o <= hoReply -> Forall op_valid ops ->
  exists h, foldl (fun s op => let? h := s in run_op h op) (httpHeaderInit o) ops = Some h /\ hdr_ok h /\ total_len (live h) <= ops_size ops.
Proof.
  intros Ho Hv. destruct (httpHeaderInit_ok o Ho) as (h0 & -> & Hok & Hl & _). destruct (run_ops_from ops h0 Hok Hv) as (h & ? & ? & Hs). exists h. rewrite Hl in Hs. cbn in Hs. lsplits.
Qed.

(** C11. A header set stays consistent under every sequence of operations with
    legal arguments that add less than 2 GB of fields in all: no assertion
    fails, the mask has a bit set exactly for the ids that are present, and
    [len], an [int] in the code, is the packed length and does not overflow. *)
Theorem httpHeader_ops_invariant o ops :
  hoNone < o <= hoReply -> Forall op_valid ops -> ops_size ops < 2 ^ 31 ->
  exists h, foldl (fun s op => let? h := s in run_op h op) (httpHeaderInit o) ops = Some h /\ hdr_ok h /\ 0 <= len h < 2 ^ 31.
Proof.
  intros Ho Hv Hs. destruct (run_ops_ok o ops Ho Hv) as (h & H & Hok & Hl). exists h. rewrite (ok_len _ Hok). pose proof (total_len_nonneg (live h)). lsplits.
Qed.

Definition ex_ops : list hdr_op :=
  [OpAddStr HDR_HOST [] (str "a"); OpAddStr HDR_OTHER (str "X-Y") (str "1"); OpDelById HDR_HOST; OpRepack].

Lemma httpHeader_ops_witness :
  exists h, foldl (fun s op => let? h := s in run_op h op) (httpHeaderInit hoRequest) ex_ops = Some h /\ hdr_ok h /\ 0 <= len h < 2 ^ 31.
Proof. apply httpHeader_ops_invariant; [done| |vm_compute; done]. repeat constructor; done. Defined.

(** Deleting a known field removes exactly its entries, returns their
    number, and afterwards the field is neither present nor found. *)
Theorem httpHeaderDelById_correct h id :
  hdr_ok h -> 0 <= id < HDR_ENUM_END -> id <> HDR_OTHER -> is_list_id id = false ->
  exists h' n, httpHeaderDelById h id = Some (h', n) /\ hdr_ok h' /\
    live h' = List.filter (fun e => negb (eid e =? id)) (live h) /\
    n = Z.of_nat (length (live h)) - Z.of_nat (length (live h')) /\
    httpHeaderHas h' id = Some false /\ httpHeaderFindEntry h' id = Some None.
Proof.
  intros Hok Hid Hne Hli. destruct (httpHeaderDelById_ok h id Hok Hid Hne) as (h' & Hd & Hok' & Hl & _).
  eexists h', _. split; [exact Hd|]. split; [done|]. split; [done|].
  assert (has_id id (live h') = false) as Hno.
  { apply not_true_is_false. rewrite has_id_In. intros (e & Hin & He). rewrite Hl in Hin.
    apply filter_In in Hin as [_ Hf]. rewrite He, Z.eqb_refl in Hf. done. }
  split; [|split].
  - rewrite Hl. clear. generalize (live h). intros l. induction l as [|e l IH]; cbn [List.filter length]; [done|].
    destruct (eid e =? id); cbn [negb length]; lia.
  - by rewrite httpHeaderHas_ok, Hno.
  - rewrite httpHeaderFindEntry_ok by done. f_equal. rewrite find_has_id in Hno. by destruct (List.find _ _).
Qed.

Definition ex_hdr : HttpHeader :=
  Eval vm_compute in
    default (mkHdr [] [] 0 0)
      (foldl (fun s op => let? h := s in run_op h op) (httpHeaderInit hoReply)
         [OpAddStr HDR_AGE [] (str "5"); OpAddStr HDR_OTHER (str "X-Y") (str "1"); OpAddStr HDR_AGE [] (str "6")]).

Lemma ex_hdr_ok : hdr_ok ex_hdr.
Proof.
  destruct (run_ops_ok hoReply
    [OpAddStr HDR_AGE [] (str "5"); OpAddStr HDR_OTHER (str "X-Y") (str "1"); OpAddStr HDR_AGE [] (str "6")])
    as (h & Hh & Hok & _); [done|repeat constructor; done|].
  vm_compute in Hh. injection Hh as <-. exact Hok.
Qed.

(** [httpHeaderUpdate] never aborts on well-formed headers and keeps the
    invariant: the result holds, without gaps, the old entries that no
    allowed fresh entry replaces (same id, or same name for unknown fields)
    followed by all allowed fresh entries, in order. *)
Theorem httpHeaderUpdate_correct old fresh denied :
  hdr_ok old -> hdr_ok fresh -> (forall m, denied = Some m -> length m = HttpHeaderMask_size) ->
  exists h, httpHeaderUpdate old fresh denied = Some h /\ hdr_ok h /\ owner h = owner old /\
    live h = List.filter (fun e => negb (existsb (fun f => replaces f e) (allowed denied fresh))) (live old)
             ++ allowed denied fresh /\
    entries h = map Some (live h).
Proof. apply httpHeaderUpdate_ok. Qed.

Lemma httpHeaderUpdate_witness :
  exists h, httpHeaderUpdate ex_hdr ex_hdr None = Some h /\ hdr_ok h /\ owner h = owner ex_hdr /\
    live h = List.filter (fun e => negb (existsb (fun f => replaces f e) (allowed None ex_hdr))) (live ex_hdr)
             ++ allowed None ex_hdr /\
    entries h = map Some (live h).
Proof. apply httpHeaderUpdate_correct; [exact ex_hdr_ok|exact ex_hdr_ok|done]. Defined.

Lemma httpHeaderDelById_witness :
  exists h' n, httpHeaderDelById ex_hdr HDR_AGE = Some (h', n) /\ hdr_ok h' /\
    live h' = List.filter (fun e => negb (eid e =? HDR_AGE)) (live ex_hdr) /\
    n = Z.of_nat (length (live ex_hdr)) - Z.of_nat (length (live h')) /\
    httpHeaderHas h' HDR_AGE = Some false /\ httpHeaderFindEntry h' HDR_AGE = Some None.
Proof. apply httpHeaderDelById_correct; [exact ex_hdr_ok|done|done|done]. Defined.

Lemma httpHeaderPackInto_witness :
  exists b, httpHeaderPackInto ex_hdr = Some b /\ b = pack (live ex_hdr) /\ Z.of_nat (length b) = len ex_hdr.
Proof. apply httpHeaderPackInto_len. exact ex_hdr_ok. Defined.
End HttpHeader.
