(* ===== verification/HttpHeaderParse.v ===== *)
(** * The header parser: libhttp/HttpHeaderParse.c, with [strtol_n] and
      [strpbrk_n] of lib/util.c

    The text is a byte buffer and the pointers into it are indices, because
    the relaxed parser overwrites stray CR characters in place. *)

From Stdlib Require Import ZArith Lia Ascii String.
From stdpp Require Import base strings list numbers option.
From S2P Require Import Prelude CStr StrList HttpTools HttpHeaderType Cbit HttpHeader.

Module HttpHeaderParse.
Import StrList.StrList HttpTools.HttpTools HttpHeaderType.HttpHeaderType HttpHeader.HttpHeader.

Inductive parse_retval_t := PR_NONE | PR_ERROR | PR_IGNORE | PR_WARN | PR_OK.

#[global] Instance parse_retval_eq_dec : EqDecision parse_retval_t.
Proof. solve_decision. Defined.

(** [strtol_n]: at most 63 bytes are looked at. *)
Definition strtol_n (nptr : bytes) (nlen : nat) : strtol_result :=
  strtol (take (Nat.min nlen 63) nptr).

(** [strpbrk_n(s, len, set) != NULL]: [len + 1] bytes are examined. *)
Definition strpbrk_n (s : bytes) (len : nat) (set : bytes) : bool :=
  existsb (mem_set set) (take (S len) s).

Definition w_space : bytes := [32; 9; 10; 13].

Definition httpHeaderParseSize2 (start : bytes) (len : nat) : bool * Z :=
  let r := strtol_n start len in
  if (st_len r =? 0)%nat || st_erange r then (false, -1) else (true, st_val r).

(** [hh_check_content_length]: the header may lose its older entry. *)
Definition hh_check_content_length (relaxed : bool) (h : HttpHeader) (var : bytes)
  : option (HttpHeader * parse_retval_t) :=
  match httpHeaderParseSize2 var (length var) with
  | (false, _) => Some (h, PR_ERROR)
  | (true, l1) =>
      let? e2 := httpHeaderFindEntry h HDR_CONTENT_LENGTH in
      match e2 with
      | None => Some (h, PR_OK)
      | Some e2 =>
          if bool_decide (var = evalue e2) then
            Some (h, if relaxed then PR_IGNORE else PR_ERROR)
          else if negb relaxed then Some (h, PR_ERROR)
          else
            match httpHeaderParseSize2 (evalue e2) (length (evalue e2)) with
            | (false, _) => Some (h, PR_ERROR)
            | (true, l2) =>
                if l2 <? l1 then
                  let? (h, _) := httpHeaderDelById h (eid e2) in Some (h, PR_OK)
                else Some (h, PR_IGNORE)
            end
      end
  end.

(** [httpHeaderEntryParseCreate] on the bytes of one (unfolded) field. *)
Definition httpHeaderEntryParseCreate (relaxed : bool) (h : HttpHeader) (field : bytes)
  : option (HttpHeader * parse_retval_t) :=
  match memchr field 58 (length field) with
  | None => Some (h, PR_IGNORE)
  | Some k =>
      if (k =? 0)%nat then Some (h, PR_IGNORE)
      else if 65534 <? Z.of_nat k then Some (h, PR_IGNORE)
      else
        let name_len := if relaxed && isspace (nth (k - 1) field 0) then rtrim field k else k in
        if (name_len =? 0)%nat then Some (h, PR_IGNORE)
        else
          let id := httpHeaderIdByName field (Z.of_nat name_len) HeaderNames in
          let id := if id <? 0 then HDR_OTHER else id in
          assert? assert_eid id in
          let v := drop (S k) field in
          let v := drop (span isspace v) v in
          let v := take (rtrim v (length v)) v in
          if 65534 <? Z.of_nat (length v) then Some (h, PR_IGNORE)
          else if (id =? HDR_OTHER) && strpbrk_n field name_len w_space && negb relaxed then Some (h, PR_IGNORE)
          else
            let? (h, r) := if id =? HDR_CONTENT_LENGTH then hh_check_content_length relaxed h v
                           else Some (h, PR_OK) in
            if bool_decide (r = PR_OK) || bool_decide (r = PR_WARN) then
              let? (h, _) := httpHeaderAddEntryStr2 h id (take name_len field) v in Some (h, r)
            else Some (h, r)
  end.

Definition sub (buf : bytes) (i j : nat) : bytes := take (j - i) (drop i buf).

(** Overwrites the CRs of [i, j) with spaces. *)
Definition blank_cr (buf : bytes) (i j : nat) : bytes :=
  take i buf ++ map (fun c => if c =? 13 then 32 else c) (sub buf i j) ++ drop j buf.

(** The end of a line without its CR LF (relaxed: CR CR LF): [lf] is the
    index of the LF. *)
Definition line_end (relaxed : bool) (buf : bytes) (this_line lf : nat) : nat :=
  if (this_line <? lf)%nat && (nth (lf - 1) buf 0 =? 13) then
    let e := (lf - 1)%nat in
    if relaxed && (this_line + 1 <? e)%nat && (nth (e - 1) buf 0 =? 13) then (e - 1)%nat else e
  else lf.

(** What the inner loop of [httpHeaderParse] leaves: the header is to be
    reset, or the buffer, [field_end] and [field_ptr]. *)
Inductive field_result :=
| FieldReset
| Field (buf : bytes) (field_end field_ptr : nat).

Fixpoint find_field (fuel : nat) (relaxed : bool) (buf : bytes) (field_start field_ptr : nat)
  : option field_result :=
  match fuel with
  | O => None
  | S fuel =>
      let this_line := field_ptr in
      match memchr (drop this_line buf) 10 (length buf - this_line) with
      | None => Some FieldReset
      | Some k =>
          let lf := (this_line + k)%nat in
          let field_end := line_end relaxed buf this_line lf in
          let field_ptr := S lf in
          let stray := bool_decide (is_Some (memchr (drop this_line buf) 13 (field_end - this_line))) in
          if stray && negb relaxed then Some FieldReset
          else
            let buf := if stray then blank_cr buf this_line field_end else buf in
            if (this_line + 1 =? field_end)%nat && (field_start <? this_line)%nat then Some FieldReset
            else if (field_ptr <? length buf)%nat
                    && ((nth field_ptr buf 0 =? 32) || (nth field_ptr buf 0 =? 9))
            then find_field fuel relaxed buf field_start field_ptr
            else Some (Field buf field_end field_ptr)
      end
  end.

(** The outer loop: the header and the value returned. *)
Fixpoint parse_fields (fuel : nat) (relaxed : bool) (h : HttpHeader) (buf : bytes) (field_ptr : nat)
  : option (HttpHeader * Z) :=
  match fuel with
  | O => None
  | S fuel =>
      if (field_ptr <? length buf)%nat then
        let field_start := field_ptr in
        let? r := find_field (S (length buf)) relaxed buf field_start field_ptr in
        match r with
        | FieldReset => let? h := httpHeaderReset h in Some (h, 0)
        | Field buf field_end field_ptr =>
            if (field_start =? field_end)%nat then
              if (field_ptr <? length buf)%nat then let? h := httpHeaderReset h in Some (h, 0)
              else Some (h, 1)
            else
              let? (h, r) := httpHeaderEntryParseCreate relaxed h (sub buf field_start field_end) in
              match r with
              | PR_ERROR => let? h := httpHeaderReset h in Some (h, 0)
              | PR_WARN =>
                  if relaxed then parse_fields fuel relaxed h buf field_ptr
                  else let? h := httpHeaderReset h in Some (h, 0)
              | _ => parse_fields fuel relaxed h buf field_ptr
              end
        end
      else Some (h, 1)
  end.

Definition httpHeaderParse (relaxed : bool) (h : HttpHeader) (buf : bytes) : option (HttpHeader * Z) :=
  if bool_decide (is_Some (memchr buf 0 (length buf))) then
    let? h := httpHeaderReset h in Some (h, 0)
  else parse_fields (S (length buf)) relaxed h buf 0.

(** ** Termination and invariant *)

Lemma length_blank_cr buf i j : (i <= j <= length buf)%nat -> length (blank_cr buf i j) = length buf.
Proof.
  intros H. unfold blank_cr, sub. rewrite !length_app, length_map, !length_take, !length_drop. lia.
Qed.

Lemma memchr_lt p c n k : memchr p c n = Some k -> (k < n /\ k < length p)%nat.
Proof.
  unfold memchr. destruct (span _ (take n p) <? length (take n p))%nat eqn:E; [|done].
  intros [= <-]. zify_bools. rewrite length_take in E. lia.
Qed.

Lemma line_end_bounds relaxed buf i lf : (i <= lf -> i <= line_end relaxed buf i lf <= lf)%nat.
Proof. intros H. unfold line_end. repeat case_match; zify_bools; lia. Qed.

(** The inner loop returns, moves forward and keeps the buffer length. *)
Lemma find_field_total fuel relaxed buf fs fp :
  (length buf - fp < fuel)%nat -> (fs <= fp < length buf)%nat ->
  exists r, find_field fuel relaxed buf fs fp = Some r /\
    match r with
    | FieldReset => True
    | Field buf' fe fp' => length buf' = length buf /\ (fp < fp' <= length buf)%nat /\ (fs <= fe < fp')%nat
    end.
Proof.
  revert buf fp. induction fuel as [|fuel IH]; intros buf fp Hf Hfp; [lia|]. cbn [find_field].
  destruct (memchr (drop fp buf) 10 (length buf - fp)) as [k|] eqn:Ek; [|by eexists].
  apply memchr_lt in Ek. rewrite length_drop in Ek.
  pose proof (line_end_bounds relaxed buf fp (fp + k)) as Hle.
  set (fe := line_end relaxed buf fp (fp + k)) in *.
  destruct (bool_decide _ && negb relaxed); [by eexists|].
  set (buf' := if bool_decide _ then _ else _).
  assert (length buf' = length buf) as Hb' by (unfold buf'; case_match; [apply length_blank_cr; lia|done]).
  destruct ((fp + 1 =? fe)%nat && _); [by eexists|].
  destruct ((S (fp + k) <? length buf')%nat && _) eqn:Ec.
  - zify_bools. destruct (IH buf' (S (fp + k))) as (r & Hr & Hpost); [lia|lia|].
    exists r. split; [done|]. destruct r; [done|]. lia.
  - eexists. split; [done|]. cbn. lia.
Qed.

Definition cl_count (l : list HttpHeaderEntry) : nat := length (List.filter (fun e => eid e =? HDR_CONTENT_LENGTH) l).

Lemma cl_filter f l : (cl_count (List.filter f l) <= cl_count l)%nat.
Proof.
  unfold cl_count. induction l as [|e l IH]; cbn; [done|].
  destruct (f e); cbn; destruct (eid e =? HDR_CONTENT_LENGTH); cbn; lia.
Qed.

Lemma cl_find_none l : List.find (fun e => eid e =? HDR_CONTENT_LENGTH) l = None -> cl_count l = 0%nat.
Proof.
  unfold cl_count. induction l as [|e l IH]; cbn; [done|]. destruct (eid e =? HDR_CONTENT_LENGTH); [done|apply IH].
Qed.

Lemma hh_check_ok relaxed h var :
  hdr_ok h ->
  exists h' r, hh_check_content_length relaxed h var = Some (h', r) /\ hdr_ok h' /\
    (r = PR_OK \/ r = PR_IGNORE \/ r = PR_ERROR) /\
    (cl_count (live h') <= cl_count (live h))%nat /\ (r = PR_OK -> cl_count (live h') = 0%nat).
Proof.
  intros Hok. unfold hh_check_content_length.
  destruct (httpHeaderParseSize2 var (length var)) as [[] l1]; [|by exists h, PR_ERROR; naive_solver].
  rewrite httpHeaderFindEntry_ok by done. bind_simpl.
  destruct (List.find _ (live h)) as [e2|] eqn:Ef.
  2:{ exists h, PR_OK. split_and!; try done; [by left|]. intros _. by apply cl_find_none. }
  destruct (bool_decide (var = evalue e2)); [by destruct relaxed; eexists h, _; naive_solver|].
  destruct relaxed; cbn [negb]; [|by exists h, PR_ERROR; naive_solver].
  destruct (httpHeaderParseSize2 (evalue e2) _) as [[] l2]; [|by exists h, PR_ERROR; naive_solver].
  destruct (l2 <? l1); [|by exists h, PR_IGNORE; naive_solver].
  apply find_some in Ef as [_ Hid]. zify_bools. rewrite Hid.
  destruct (httpHeaderDelById_ok h HDR_CONTENT_LENGTH Hok) as (h' & -> & Hok' & Hl & _); [done|done|].
  exists h', PR_OK. bind_simpl. split_and!; try done; [by left| |].
  - rewrite Hl. apply cl_filter.
  - intros _. unfold cl_count. rewrite Hl. clear. generalize (live h). intros l.
    induction l as [|e l IH]; cbn; [done|]. destruct (eid e =? HDR_CONTENT_LENGTH) eqn:E; cbn; rewrite ?E; done.
Qed.

Lemma AddEntryStr2_ok h id a v :
  hdr_ok h -> 0 <= id < HDR_ENUM_END -> Z.of_nat (length a) < 65535 -> Z.of_nat (length v) < 65535 ->
  exists h' n e, httpHeaderAddEntryStr2 h id a v = Some (h', n) /\ hdr_ok h' /\ live h' = live h ++ [e] /\
    e = mkEntry id (if id =? HDR_OTHER then a else header_name id) v /\ owner h' = owner h.
Proof.
  intros Hok Hid Ha Hv. unfold httpHeaderAddEntryStr2.
  destruct (httpHeaderEntryCreate_ok id a v Hid Ha Hv) as (e & -> & He & Hi & Hva & Hn). bind_simpl.
  destruct (httpHeaderAddEntry_ok h e Hok He) as (h' & -> & Hok' & _ & Hl & Ho). bind_simpl.
  eexists h', _, e. split; [done|]. split_and!; try done. destruct e. cbn in *. by subst.
Qed.

Lemma entryParse_ok relaxed h field :
  hdr_ok h -> (cl_count (live h) <= 1)%nat ->
  exists h' r, httpHeaderEntryParseCreate relaxed h field = Some (h', r) /\ hdr_ok h' /\
    (cl_count (live h') <= 1)%nat /\ r <> PR_WARN.
Proof.
  intros Hok Hcl. unfold httpHeaderEntryParseCreate.
  destruct (memchr field 58 (length field)) as [k|] eqn:Ek; [|by exists h, PR_IGNORE].
  destruct (k =? 0)%nat; [by exists h, PR_IGNORE|].
  destruct (65534 <? Z.of_nat k) eqn:Ekk; [by exists h, PR_IGNORE|].
  set (nl := if relaxed && _ then _ else k).
  assert (nl <= k)%nat as Hnl by (unfold nl; case_match; [apply rtrim_le|done]).
  destruct (nl =? 0)%nat; [by exists h, PR_IGNORE|].
  set (id0 := httpHeaderIdByName field (Z.of_nat nl) HeaderNames).
  set (id := if id0 <? 0 then HDR_OTHER else id0).
  assert (0 <= id < HDR_ENUM_END) as Hid.
  { unfold id. pose proof (httpHeaderIdByName_range field (Z.of_nat nl) HeaderNames) as Hr. fold id0 in Hr.
    rewrite length_HeaderNames in Hr. destruct (id0 <? 0) eqn:E; zify_bools; [done|lia]. }
  rewrite assert_eid_true by done. cbv zeta.
  set (v := take _ (drop _ (drop (S k) field))).
  destruct (65534 <? Z.of_nat (length v)) eqn:Ev; [by exists h, PR_IGNORE|].
  destruct ((id =? HDR_OTHER) && _ && _); [by exists h, PR_IGNORE|]. zify_bools.
  assert (Z.of_nat (length (take nl field)) < 65535) as Hname by (rewrite length_take; lia).
  destruct (id =? HDR_CONTENT_LENGTH) eqn:Ecl; zify_bools.
  - destruct (hh_check_ok relaxed h v Hok) as (h1 & r & -> & Hok1 & Hr & Hc1 & Hz). bind_simpl.
    destruct Hr as [->|[->| ->]]; [|by exists h1, PR_IGNORE; split_and!; try done; lia|by exists h1, PR_ERROR; split_and!; try done; lia].
    rewrite bool_decide_true by done. cbn [orb].
    destruct (AddEntryStr2_ok h1 id (take nl field) v Hok1 Hid Hname ltac:(lia)) as (h2 & n & e & -> & Hok2 & Hl2 & _).
    bind_simpl. exists h2, PR_OK. split_and!; try done. rewrite Hl2. unfold cl_count in *.
    rewrite filter_app, length_app, Hz by done. cbn. case_match; cbn; lia.
  - bind_simpl. rewrite bool_decide_true by done. cbn [orb].
    destruct (AddEntryStr2_ok h id (take nl field) v Hok Hid Hname ltac:(lia)) as (h2 & n & e & -> & Hok2 & Hl2 & -> & _).
    bind_simpl. exists h2, PR_OK. split_and!; try done. rewrite Hl2. unfold cl_count in *.
    rewrite filter_app, length_app. cbn [List.filter eid]. rewrite (proj2 (Z.eqb_neq _ _) Ecl). cbn. lia.
Qed.

(** What every return of the parser guarantees. *)
Definition parse_post (out : option (HttpHeader * Z)) : Prop :=
  exists h r, out = Some (h, r) /\ hdr_ok h /\ (cl_count (live h) <= 1)%nat /\
    (r = 0 /\ live h = [] \/ r = 1).

Lemma reset_post h : hdr_ok h -> parse_post (let? h := httpHeaderReset h in Some (h, 0)).
Proof.
  intros Hok. destruct (httpHeaderReset_ok h (ok_owner _ Hok)) as (h' & -> & Hok' & Hl & _).
  exists h', 0. cbn. split_and!; try done; [by rewrite Hl; cbn; lia|by left].
Qed.

Lemma parse_fields_total fuel relaxed h buf fp :
  (length buf - fp < fuel)%nat -> hdr_ok h -> (cl_count (live h) <= 1)%nat ->
  parse_post (parse_fields fuel relaxed h buf fp).
Proof.
  revert h buf fp. induction fuel as [|fuel IH]; intros h buf fp Hf Hok Hcl; [lia|]. cbn [parse_fields].
  destruct (fp <? length buf)%nat eqn:Efp; zify_bools; [|by exists h, 1; naive_solver].
  destruct (find_field_total (S (length buf)) relaxed buf fp fp) as (r & -> & Hr); [lia|lia|].
  bind_simpl. destruct r as [|buf' fe fp']; [by apply reset_post|].
  destruct Hr as (Hb & Hp & He).
  destruct (fp =? fe)%nat.
  { destruct (fp' <? length buf')%nat; [by apply reset_post|]. exists h, 1. naive_solver. }
  destruct (entryParse_ok relaxed h (sub buf' fp fe) Hok Hcl) as (h' & r & -> & Hok' & Hcl' & Hw).
  bind_simpl. destruct r; try done; try (by apply reset_post); (apply IH; [lia|done|done]).
Qed.

Lemma httpHeaderParse_ok relaxed h buf :
  hdr_ok h -> (cl_count (live h) <= 1)%nat ->
  exists h' r, httpHeaderParse relaxed h buf = Some (h', r) /\ hdr_ok h' /\
    (cl_count (live h') <= 1)%nat /\ (r = 0 /\ live h' = [] \/ r = 1).
Proof.
  intros Hok Hcl. unfold httpHeaderParse. case_bool_decide.
  - by apply reset_post.
  - apply parse_fields_total; [lia|done|done].
Qed.

(** C1. The header parser, strict or relaxed, returns on every input without
    failing an assertion and keeps the header consistent; when it rejects the
    text the header is empty; and a header it accepts has at most one
    Content-Length entry, if it had at most one before. *)
Theorem httpHeaderParse_safe relaxed h buf :
  hdr_ok h -> (cl_count (live h) <= 1)%nat ->
  exists h' r, httpHeaderParse relaxed h buf = Some (h', r) /\ hdr_ok h' /\
    (cl_count (live h') <= 1)%nat /\ (r = 0 /\ live h' = [] \/ r = 1).
Proof. apply httpHeaderParse_ok. Qed.

(** Two different lengths, relaxed: the larger one is kept. *)
Lemma httpHeaderParse_witness :
  exists h' r, httpHeaderParse true ex_hdr (str "Content-Length: 5" ++ [13; 10] ++ str "Content-Length: 7" ++ [13; 10])
               = Some (h', r) /\ hdr_ok h' /\
    (cl_count (live h') <= 1)%nat /\ (r = 0 /\ live h' = [] \/ r = 1).
Proof. apply httpHeaderParse_safe; [exact ex_hdr_ok|vm_compute; lia]. Defined.

(** ** Round trip *)

Lemma memchr_found p c r n :
  Forall (fun d => d <> c) p -> (length p < n)%nat -> memchr (p ++ c :: r) c n = Some (length p).
Proof.
  intros Hp Hn. unfold memchr.
  replace (take n (p ++ c :: r)) with (p ++ c :: take (n - length p - 1) r).
  2:{ rewrite take_app_ge by lia. f_equal. destruct (n - length p)%nat eqn:E; [lia|]. cbn. do 2 f_equal. lia. }
  rewrite span_app; [|eapply List.Forall_impl; [|exact Hp]; intros d ?; by apply negb_true_iff, Z.eqb_neq].
  cbn [span]. rewrite Z.eqb_refl. cbn [negb]. rewrite Nat.add_0_r, length_app. cbn [length].
  by rewrite (proj2 (Nat.ltb_lt _ _)) by lia.
Qed.

Lemma span_all f p : Forall (fun c => f c = true) p -> span f p = length p.
Proof. intros Hp. rewrite <- (app_nil_r p) at 1. rewrite span_app by done. cbn. lia. Qed.

Lemma memchr_none p c r : Forall (fun d => d <> c) p -> memchr (p ++ r) c (length p) = None.
Proof.
  intros Hp. unfold memchr. rewrite take_app_length, span_all.
  - by rewrite Nat.ltb_irrefl.
  - eapply List.Forall_impl; [|exact Hp]. intros d ?. by apply negb_true_iff, Z.eqb_neq.
Qed.

Lemma strncaseeq_app a x b : strncaseeq (a ++ x) b (length a) = strncaseeq a b (length a).
Proof.
  revert b. induction a as [|c a IH]; intros b; [done|]. cbn. destruct b as [|d b]; [done|]. by rewrite IH.
Qed.

Lemma idByName_app a x info i :
  idByName_loop (a ++ x) (Z.of_nat (length a)) info i = idByName_loop a (Z.of_nat (length a)) info i.
Proof.
  revert i. induction info as [|f info IH]; intros i; cbn [idByName_loop]; [done|].
  rewrite (proj2 (Z.ltb_ge (Z.of_nat (length a)) 0)), Nat2Z.id by lia. by rewrite strncaseeq_app, IH.
Qed.

Lemma httpHeaderIdByName_app a x info :
  httpHeaderIdByName (a ++ x) (Z.of_nat (length a)) info = httpHeaderIdByName a (Z.of_nat (length a)) info.
Proof. apply idByName_app. Qed.

Definition name_char (c : Z) : bool := negb (isspace c) && negb (c =? 58) && negb (c =? 0).
Definition value_char (c : Z) : bool := negb (c =? 0) && negb (c =? 10) && negb (c =? 13).

(** The id the parser gives a field name. *)
Definition id_of_name (name : bytes) : Z :=
  let id := httpHeaderIdByName name (Z.of_nat (length name)) HeaderNames in
  if id <? 0 then HDR_OTHER else id.

(** Entries that can be written as a header line. *)
Record printable (e : HttpHeaderEntry) : Prop := {
  pr_ok : entry_ok e;
  pr_name : ename e <> [] /\ Forall (fun c => name_char c = true) (ename e);
  pr_value : Forall (fun c => value_char c = true) (evalue e);
  pr_trim : evalue e = [] \/ (isspace (deref (evalue e)) = false /\
                              isspace (nth (length (evalue e) - 1) (evalue e) 0) = false);
  pr_id : eid e = id_of_name (ename e);
  pr_cl : eid e = HDR_CONTENT_LENGTH -> fst (httpHeaderParseSize2 (evalue e) (length (evalue e))) = true
}.

Lemma name_char_spec c : name_char c = true -> isspace c = false /\ c <> 58 /\ c <> 0 /\ c <> 13 /\ c <> 10 /\ c <> 32 /\ c <> 9.
Proof.
  unfold name_char. intros H. zify_bools. split_and!; try done; intros ->; done.
Qed.

Lemma value_char_spec c : value_char c = true -> c <> 0 /\ c <> 10 /\ c <> 13.
Proof. unfold value_char. intros H. zify_bools. done. Qed.

Definition line_of (e : HttpHeaderEntry) : bytes := ename e ++ 58 :: 32 :: evalue e.

Lemma pack_line e l : pack (e :: l) = line_of e ++ 13 :: 10 :: pack l.
Proof.
  unfold pack, line_of. cbn [map concat].
  assert (httpHeaderEntryPackInto e = ename e ++ (58 :: 32 :: evalue e) ++ [13; 10]) as -> by done.
  by rewrite <- !app_assoc.
Qed.

Lemma line_chars e c : printable e -> c <> 58 -> c <> 32 ->
  (forall d, name_char d = true -> d <> c) -> (forall d, value_char d = true -> d <> c) ->
  Forall (fun d => d <> c) (line_of e).
Proof.
  intros [_ [_ Hn] Hv _ _ _] H58 H32 Hnc Hvc. unfold line_of. apply Forall_app. split.
  - eapply List.Forall_impl; [|exact Hn]. apply Hnc.
  - constructor; [lia|]. constructor; [lia|]. eapply List.Forall_impl; [|exact Hv]. apply Hvc.
Qed.

Lemma line_no e c : printable e -> c = 10 \/ c = 13 \/ c = 0 -> Forall (fun d => d <> c) (line_of e).
Proof.
  intros Hp Hc. apply line_chars; [done|lia|lia| |].
  - intros d (_ & _ & ? & ? & ? & _)%name_char_spec. lia.
  - intros d (? & ? & ?)%value_char_spec. lia.
Qed.

Lemma line_nonempty e : printable e -> (1 < length (line_of e))%nat.
Proof. intros _. unfold line_of. rewrite length_app. cbn. lia. Qed.

Lemma nth_app_at {A} (l r : list A) d x : nth (length l) (l ++ x :: r) d = x.
Proof. rewrite app_nth2 by lia. by rewrite Nat.sub_diag. Qed.

(** One line of packed text is found whole. *)
Lemma find_field_line relaxed pre e l :
  printable e -> Forall printable l ->
  let buf := pre ++ pack (e :: l) in
  find_field (S (length buf)) relaxed buf (length pre) (length pre)
  = Some (Field buf (length pre + length (line_of e)) (length pre + length (line_of e) + 2)).
Proof.
  intros He Hl buf. cbn [find_field].
  assert (buf = pre ++ line_of e ++ 13 :: 10 :: pack l) as Hbuf by (unfold buf; by rewrite pack_line).
  assert (drop (length pre) buf = line_of e ++ 13 :: 10 :: pack l) as Hdrop by (rewrite Hbuf; apply drop_app_length).
  assert (length buf = (length pre + (length (line_of e) + S (S (length (pack l)))))%nat) as Hlen
    by (rewrite Hbuf, !length_app; cbn; lia).
  pose proof (line_nonempty e He) as Hne.
  rewrite Hdrop. change (line_of e ++ 13 :: 10 :: pack l) with (line_of e ++ [13] ++ 10 :: pack l).
  rewrite app_assoc, memchr_found, length_app.
  2:{ apply Forall_app. split; [by apply line_no; auto|by repeat constructor]. }
  2:{ rewrite length_app. cbn. lia. }
  cbn [length]. replace (length pre + (length (line_of e) + 1))%nat with (S (length pre + length (line_of e))) by lia.
  assert (line_end relaxed buf (length pre) (S (length pre + length (line_of e))) = (length pre + length (line_of e))%nat) as ->.
  { unfold line_end. rewrite (proj2 (Nat.ltb_lt _ _)) by lia. cbn [andb Nat.sub]. rewrite Nat.sub_0_r.
    rewrite Hbuf, app_assoc, <- length_app, nth_app_at. cbn [Z.eqb Pos.eqb].
    destruct relaxed; cbn [andb]; [|done]. rewrite length_app.
    rewrite (proj2 (Nat.ltb_lt _ _)) by lia. cbn [andb].
    assert (nth (length pre + length (line_of e) - 1) ((pre ++ line_of e) ++ 13 :: 10 :: pack l) 0 <> 13) as Hn13.
    { rewrite app_nth1 by (rewrite length_app; lia). rewrite app_nth2 by lia.
      pose proof (proj1 (List.Forall_forall _ _) (line_no e 13 He ltac:(auto))) as Hall. apply Hall, nth_In. lia. }
    by rewrite (proj2 (Z.eqb_neq _ _) Hn13). }
  replace (length pre + length (line_of e) - length pre)%nat with (length (line_of e)) by lia.
  rewrite <- app_assoc. cbn [app]. rewrite memchr_none by (apply line_no; auto).
  rewrite bool_decide_false by (by intros []). cbn [andb].
  rewrite Nat.ltb_irrefl, andb_false_r.
  assert (((S (S (length pre + length (line_of e))) <? length buf)%nat
      && ((nth (S (S (length pre + length (line_of e)))) buf 0 =? 32) || (nth (S (S (length pre + length (line_of e)))) buf 0 =? 9))) = false) as ->.
  { destruct Hl as [|e' l He' Hl'].
    - cbn in Hlen. rewrite (proj2 (Nat.ltb_ge _ _)) by lia. done.
    - destruct He' as [_ [Hn1 Hn2] _ _ _ _]. destruct (ename e') as [|c nm] eqn:En; [done|].
      inversion Hn2 as [|? ? Hc _]; subst. apply name_char_spec in Hc as (_ & _ & _ & _ & _ & H32 & H9).
      assert (nth (S (S (length pre + length (line_of e)))) buf 0 = c) as ->.
      { rewrite Hbuf. replace (S (S (length pre + length (line_of e)))) with (length (pre ++ line_of e ++ [13; 10]))
          by (rewrite !length_app; cbn; lia).
        change (13 :: 10 :: pack (e' :: l)) with ([13; 10] ++ pack (e' :: l)). rewrite !app_assoc, <- (app_assoc pre).
        unfold pack at 1. cbn [map concat]. unfold httpHeaderEntryPackInto. rewrite En. cbn [app].
        apply nth_app_at. }
      rewrite !(proj2 (Z.eqb_neq c _)) by done. by rewrite andb_false_r. }
  do 2 f_equal. lia.
Qed.

Lemma rtrim_stop p n : isspace (nth (n - 1) p 0) = false -> rtrim p n = n.
Proof. destruct n as [|n]; [done|]. cbn. rewrite Nat.sub_0_r. by intros ->. Qed.

#[local] Opaque HeaderNames httpHeaderIdByName.

(** One packed entry is parsed back. *)
(** The name and its colon, at the start of a line. *)
Lemma line_split e : line_of e = (ename e ++ [58]) ++ 32 :: evalue e /\ S (length (ename e)) = length (ename e ++ [58]).
Proof. unfold line_of. split; [by rewrite <- app_assoc|rewrite length_app; cbn; lia]. Qed.

Lemma name_no_space e : Forall (fun c => name_char c = true) (ename e) -> strpbrk_n (line_of e) (length (ename e)) w_space = false.
Proof.
  intros Hn. destruct (line_split e) as [Hs Hl]. unfold strpbrk_n. rewrite Hs, Hl, take_app_length.
  apply not_true_is_false. rewrite existsb_exists. intros (c & Hin & Hc).
  apply in_app_or in Hin as [Hin|[<-|[]]]; [|done].
  apply (proj1 (List.Forall_forall _ _) Hn) in Hin. apply name_char_spec in Hin as (_ & _ & _ & ? & ? & ? & ?).
  cbn in Hc. rewrite !orb_true_iff in Hc. lia.
Qed.

(** The first Content-Length is accepted as it is. *)
Lemma hh_check_first relaxed h var :
  hdr_ok h -> cl_count (live h) = 0%nat -> fst (httpHeaderParseSize2 var (length var)) = true ->
  hh_check_content_length relaxed h var = Some (h, PR_OK).
Proof.
  intros Hok Hz Hcl. unfold hh_check_content_length. destruct (httpHeaderParseSize2 _ _) as [[] l1]; [|done].
  rewrite httpHeaderFindEntry_ok by done. bind_simpl.
  destruct (List.find _ (live h)) as [e2|] eqn:Ef; [|done]. exfalso.
  apply find_some in Ef as [Hin He2]. unfold cl_count in Hz.
  assert (In e2 (List.filter (fun e => eid e =? HDR_CONTENT_LENGTH) (live h))) as Hin2 by by apply filter_In.
  destruct (List.filter (fun e => eid e =? HDR_CONTENT_LENGTH) (live h)); [done|cbn in Hz; lia].
Qed.

Lemma entryParse_line relaxed h e :
  hdr_ok h -> printable e -> (eid e = HDR_CONTENT_LENGTH -> cl_count (live h) = 0%nat) ->
  exists h', httpHeaderEntryParseCreate relaxed h (line_of e) = Some (h', PR_OK) /\ hdr_ok h' /\
    live h' = live h ++ [e] /\ owner h' = owner h.
Proof.
  intros Hok [Heok [Hne Hn] Hv Ht Hid Hcl] Hz. unfold httpHeaderEntryParseCreate.
  destruct Heok as (Hrange & Hname & Hl1 & Hl2).
  assert (memchr (line_of e) 58 (length (line_of e)) = Some (length (ename e))) as ->.
  { unfold line_of. apply memchr_found; [|rewrite length_app; cbn; lia].
    eapply List.Forall_impl; [|exact Hn]. by intros c (_ & ? & _)%name_char_spec. }
  assert (0 < length (ename e))%nat by (destruct (ename e); [done|cbn; lia]).
  rewrite (proj2 (Nat.eqb_neq _ 0)), (proj2 (Z.ltb_ge _ _)) by lia.
  assert (isspace (nth (length (ename e) - 1) (line_of e) 0) = false) as Hlast.
  { unfold line_of. rewrite app_nth1 by lia.
    pose proof (proj1 (List.Forall_forall _ _) Hn _ (nth_In (ename e) 0 (n:=(length (ename e) - 1)%nat) ltac:(lia))) as Hc.
    by apply name_char_spec in Hc as (? & _). }
  rewrite Hlast, andb_false_r. rewrite (proj2 (Nat.eqb_neq _ 0)) by lia.
  assert (httpHeaderIdByName (line_of e) (Z.of_nat (length (ename e))) HeaderNames =
          httpHeaderIdByName (ename e) (Z.of_nat (length (ename e))) HeaderNames) as ->.
  { apply httpHeaderIdByName_app. }
  unfold id_of_name in Hid. cbv zeta in Hid. rewrite <- Hid. rewrite assert_eid_true by done. cbv zeta.
  assert (drop (S (length (ename e))) (line_of e) = 32 :: evalue e) as ->.
  { destruct (line_split e) as [-> ->]. apply drop_app_length. }
  assert (drop (span isspace (32 :: evalue e)) (32 :: evalue e) = evalue e) as ->.
  { change (span isspace (32 :: evalue e)) with (S (span isspace (evalue e))). cbn [drop].
    destruct Ht as [->|[Hh _]]; [done|]. destruct (evalue e) as [|c v]; [done|]. by rewrite span_stop. }
  assert (take (rtrim (evalue e) (length (evalue e))) (evalue e) = evalue e) as ->.
  { destruct Ht as [->|[_ Hl]]; [done|]. rewrite rtrim_stop by done. apply firstn_all. }
  rewrite (proj2 (Z.ltb_ge _ _)) by lia.
  rewrite (name_no_space e) by done.
  rewrite andb_false_r. cbn [andb].
  assert ((if eid e =? HDR_CONTENT_LENGTH then hh_check_content_length relaxed h (evalue e) else Some (h, PR_OK))
          = Some (h, PR_OK)) as ->.
  { destruct (eid e =? HDR_CONTENT_LENGTH) eqn:Ec; zify_bools; [|done]. apply hh_check_first; [done|by apply Hz|by apply Hcl]. }
  bind_simpl. rewrite bool_decide_true by done. cbn [orb].
  assert (take (length (ename e)) (line_of e) = ename e) as -> by apply take_app_length.
  destruct (AddEntryStr2_ok h (eid e) (ename e) (evalue e) Hok Hrange Hl1 Hl2) as (h' & n & e' & -> & Hok' & Hl & He' & Ho).
  bind_simpl. exists h'. split_and!; try done. rewrite Hl. f_equal. f_equal. rewrite He'.
  clear Hid. destruct e as [i nm vl]. cbn [eid ename evalue] in *. f_equal.
  destruct (i =? HDR_OTHER) eqn:Eo; [done|]. apply Z.eqb_neq in Eo. by rewrite Hname.
Qed.

Lemma sub_line pre e l :
  sub (pre ++ pack (e :: l)) (length pre) (length pre + length (line_of e)) = line_of e.
Proof.
  unfold sub. rewrite drop_app_length, pack_line.
  replace (length pre + length (line_of e) - length pre)%nat with (length (line_of e)) by lia. apply take_app_length.
Qed.

Lemma parse_fields_pack fuel relaxed h pre l :
  (length (pack l) < fuel)%nat -> hdr_ok h -> Forall printable l -> (cl_count (live h ++ l) <= 1)%nat ->
  exists h', parse_fields fuel relaxed h (pre ++ pack l) (length pre) = Some (h', 1) /\ hdr_ok h' /\
    live h' = live h ++ l.
Proof.
  revert h pre l. induction fuel as [|fuel IH]; intros h pre l Hf Hok Hp Hcl; [lia|]. cbn [parse_fields].
  destruct Hp as [|e l He Hl].
  - cbn [pack map concat]. rewrite app_nil_r, Nat.ltb_irrefl. exists h. by rewrite app_nil_r.
  - pose proof (line_nonempty e He). rewrite pack_line in Hf. rewrite length_app in Hf. cbn [length] in Hf.
    rewrite (proj2 (Nat.ltb_lt _ _)) by (rewrite pack_line, !length_app; cbn; lia).
    rewrite find_field_line by done. bind_simpl.
    rewrite (proj2 (Nat.eqb_neq _ _)) by lia. rewrite sub_line.
    unfold cl_count in Hcl. rewrite filter_app, length_app in Hcl. cbn [List.filter] in Hcl.
    destruct (entryParse_line relaxed h e Hok He) as (h1 & -> & Hok1 & Hl1 & _).
    { intros Ec. rewrite (proj2 (Z.eqb_eq _ _) Ec) in Hcl. cbn in Hcl. unfold cl_count. lia. }
    bind_simpl.
    destruct (IH h1 (pre ++ line_of e ++ [13; 10]) l) as (h2 & H2 & Hok2 & Hl2); [lia|done|done| |].
    { rewrite Hl1, <- app_assoc. cbn [app]. unfold cl_count. rewrite filter_app, length_app. cbn [List.filter]. done. }
    exists h2. rewrite pack_line. rewrite !length_app in H2. cbn [length] in H2.
    replace (length pre + length (line_of e) + 2)%nat with (length pre + (length (line_of e) + 2))%nat by lia.
    rewrite <- !app_assoc in H2. cbn [app] in H2. rewrite H2.
    split_and!; try done. by rewrite Hl2, Hl1, <- app_assoc.
Qed.

Lemma httpHeaderParse_pack relaxed h l :
  hdr_ok h -> live h = [] -> Forall printable l -> (cl_count l <= 1)%nat ->
  exists h', httpHeaderParse relaxed h (pack l) = Some (h', 1) /\ hdr_ok h' /\ live h' = l.
Proof.
  intros Hok Hnil Hp Hcl. unfold httpHeaderParse.
  assert (memchr (pack l) 0 (length (pack l)) = None) as ->.
  { rewrite <- (app_nil_r (pack l)) at 1. apply memchr_none. clear Hcl.
    induction Hp as [|e l He _ IH]; [constructor|]. rewrite pack_line. apply Forall_app. split; [apply line_no; auto|].
    constructor; [done|]. by constructor. }
  rewrite bool_decide_false by (by intros []).
  destruct (parse_fields_pack (S (length (pack l))) relaxed h [] l) as (h' & H & ? & Hl); [lia|done|done|by rewrite Hnil|].
  exists h'. split_and!; try done. by rewrite Hl, Hnil.
Qed.

(** C15. Packing and parsing are inverse: the packed form of a list of
    well-formed entries with at most one Content-Length is parsed, strictly
    or relaxed, into exactly those entries. *)
Theorem httpHeaderParse_roundtrip relaxed h l :
  hdr_ok h -> live h = [] -> Forall printable l -> (cl_count l <= 1)%nat ->
  exists h', httpHeaderParse relaxed h (pack l) = Some (h', 1) /\ hdr_ok h' /\ live h' = l.
Proof. apply httpHeaderParse_pack. Qed.

#[local] Transparent HeaderNames httpHeaderIdByName.

Definition ex_list : list HttpHeaderEntry :=
  [mkEntry HDR_HOST (str "Host") (str "a.b"); mkEntry HDR_OTHER (str "X-Y") []; mkEntry HDR_CONTENT_LENGTH (str "Content-Length") (str "12")].

Lemma httpHeaderParse_roundtrip_witness :
  exists h', httpHeaderParse false (mkHdr [] (httpHeaderMaskInit 0) hoRequest 0) (pack ex_list) = Some (h', 1) /\
    hdr_ok h' /\ live h' = ex_list.
Proof.
  apply httpHeaderParse_roundtrip.
  - constructor; try done. intros id _. apply Cbit.Cbit.cbit_zero.
  - done.
  - repeat constructor; try done; try (by right); by left.
  - vm_compute. lia.
Defined.
End HttpHeaderParse.
