(* ===== verification/Refresh.v ===== *)
(** * Freshness: src/refresh.c

    Decides whether a stored response may be used.  Times are [time_t]
    values; the staleness is returned as an [int], so that differences are
    converted to 32 bits.  [regexec] on the compiled pattern of a rule is a
    parameter.  The build is the default one, with [HTTP_VIOLATIONS]. *)

From Stdlib Require Import ZArith Lia Ascii String SpecFloat.
From stdpp Require Import base strings list numbers option.
From S2P Require Import Prelude CStr HttpHdrCc HttpHeaderType Cbit HttpHeader.

Module Refresh.

(** ** Data *)

Record refresh_flags := mkFlags {
  override_expire : bool;
  override_lastmod : bool;
  reload_into_ims : bool;
  ignore_reload : bool;
  ignore_must_revalidate : bool;
  ignore_stale_while_revalidate : bool
}.

(** A refresh_pattern rule; the list order is that of [next]. *)
Record refresh_t := mkRefresh {
  pattern : bytes;
  rmin : Z;
  pct : dbl;
  rmax : Z;
  rflags : refresh_flags;
  max_stale : Z;
  stale_while_revalidate : Z;
  negative_ttl : Z
}.

Record reply_t := mkReply { cache_control : option HttpHdrCc.HttpHdrCc; header : HttpHeader.HttpHeader }.
Record mem_obj_t := mkMem { url : bytes; reply : option reply_t; mem_swr : Z }.

(** The fields of [StoreEntry] the freshness code reads. *)
Record StoreEntry := mkStoreEntry {
  timestamp : Z;
  expires : Z;
  lastmod : Z;
  flags : Z;
  mem_obj : option mem_obj_t
}.

(** [canonical] is what [urlCanonical] returns for the request. *)
Record request_t := mkRequest {
  canonical : bytes;
  req_cc : option HttpHdrCc.HttpHdrCc;
  nocache_hack : bool;
  nocache : bool
}.

Record config_t := mkConfig {
  cfg_Refresh : list refresh_t;
  cfg_negativeTtl : Z;
  cfg_maxStale : Z;
  cfg_minimum_expiry_time : Z;
  cfg_refresh_stale_window : Z;
  cfg_reload_into_ims : bool
}.

Definition ENTRY_REVALIDATE := 1.

(** [stale_flags] *)
Record stale_flags := mkSf { sf_expires : bool; sf_min : bool; sf_lmfactor : bool; sf_max : bool }.
Definition sf_zero : stale_flags := mkSf false false false false.

(** Reasons. *)
Definition FRESH_REQUEST_MAX_STALE_ALL := 100.
Definition FRESH_REQUEST_MAX_STALE_VALUE := 101.
Definition FRESH_EXPIRES := 102.
Definition FRESH_LMFACTOR_RULE := 103.
Definition FRESH_MIN_RULE := 104.
Definition FRESH_OVERRIDE_EXPIRES := 105.
Definition FRESH_OVERRIDE_LASTMOD := 106.
Definition STALE_MUST_REVALIDATE := 200.
Definition STALE_RELOAD_INTO_IMS := 201.
Definition STALE_FORCED_RELOAD := 202.
Definition STALE_EXCEEDS_REQUEST_MAX_AGE_VALUE := 203.
Definition STALE_EXPIRES := 204.
Definition STALE_MAX_RULE := 205.
Definition STALE_LMFACTOR_RULE := 206.
Definition STALE_WITHIN_DELTA := 207.
Definition STALE_ASYNC_REFRESH := 208.
Definition STALE_MAX_STALE := 209.
Definition STALE_DEFAULT := 299.

(** ** Counters *)

(** Indices without HTCP and cache digests. *)
Definition rcHTTP := 0%nat.
Definition rcICP := 1%nat.
Definition rcStore := 2%nat.
Definition rcCount := 3%nat.

Record RefreshCounts := mkCounts { total : Z; status : list Z }.

(** [refreshCounts[rc].total++; refreshCounts[rc].status[reason]++] *)
Definition bump (counts : list RefreshCounts) (rc : nat) (reason : Z) : option (list RefreshCounts) :=
  let? c := counts !! rc in
  assert? 0 <=? reason in
  let? n := status c !! Z.to_nat reason in
  Some (<[rc := mkCounts (total c + 1) (<[Z.to_nat reason := n + 1]> (status c))]> counts).

(** [refreshInit]: the counters and the default rule (0.20 is the double
    nearest to a fifth). *)
Definition refreshCounts_init : list RefreshCounts :=
  repeat (mkCounts 0 (repeat 0 (Z.to_nat (STALE_DEFAULT + 1)))) rcCount.

Definition REFRESH_DEFAULT_MIN := 0.
Definition REFRESH_DEFAULT_PCT : dbl := S754_finite false 7205759403792794 (-55).
Definition REFRESH_DEFAULT_MAX := 259200.

Definition DefaultRefresh : refresh_t :=
  mkRefresh (str "<none>") REFRESH_DEFAULT_MIN REFRESH_DEFAULT_PCT REFRESH_DEFAULT_MAX
    (mkFlags false false false false false false) 0 0 0.

Section refresh.
(** [!regexec(&(R->compiled_pattern), url, 0, 0, 0)] *)
Context (regmatch : refresh_t -> bytes -> bool).
Context (Config : config_t) (squid_curtime : Z).

(** ** Rules *)

Definition refreshLimits (u : bytes) : option refresh_t :=
  List.find (fun R => regmatch R u) (cfg_Refresh Config).

Definition refreshUncompiledPattern (pat : bytes) : option refresh_t :=
  List.find (fun R => bool_decide (pattern R = pat)) (cfg_Refresh Config).

(** The URI a check is made for. *)
Definition entry_uri (entry : StoreEntry) (request : option request_t) : option bytes :=
  match mem_obj entry with
  | Some m => Some (url m)
  | None => canonical <$> request
  end.

Definition entry_rule (entry : StoreEntry) (request : option request_t) : option refresh_t :=
  match entry_uri entry request with
  | Some u => refreshLimits u
  | None => refreshUncompiledPattern (str ".")
  end.

Record refresh_cc := mkRcc { cc_max_stale : Z; cc_negative_ttl : Z }.

(** [refreshCC]: the configured [time_t] limits are stored in [int]s. *)
Definition refreshCC (entry : StoreEntry) (request : option request_t) : refresh_cc :=
  let R := entry_rule entry request in
  let cc := mkRcc (wrap_s 32 (cfg_maxStale Config)) (wrap_s 32 (cfg_negativeTtl Config)) in
  let cc := match R with
            | Some R => if 0 <=? negative_ttl R then mkRcc (cc_max_stale cc) (negative_ttl R) else cc
            | None => cc
            end in
  match R with
  | Some R => if 0 <=? max_stale R then mkRcc (max_stale R) (cc_negative_ttl cc) else cc
  | None => cc
  end.

Definition getMaxAge (u : bytes) : Z :=
  match refreshLimits u with
  | Some R => rmax R
  | None => REFRESH_DEFAULT_MAX
  end.

(** ** Staleness *)

(** [(entry->timestamp - entry->lastmod) * R->pct], as a [time_t]. *)
Definition stale_age_of (entry : StoreEntry) (R : refresh_t) : option Z :=
  let? v := dbl_trunc (dbl_mul (dbl_of_Z (timestamp entry - lastmod entry)) (pct R)) in
  assert? (- 2 ^ 63 <=? v) && (v <? 2 ^ 63) in Some v.

(** [refreshStaleness]: the staleness (-1: fresh) and the flags, from
    cleared flags. *)
Definition refreshStaleness (entry : StoreEntry) (check_time age : Z) (R : refresh_t)
  : option (Z * stale_flags) :=
  if -1 <? expires entry then
    Some (if check_time <? expires entry then -1 else wrap_s 32 (check_time - expires entry),
          mkSf true false false false)
  else
    assert? 0 <=? age in
    if rmax R <? age then Some (wrap_s 32 (age - rmax R), mkSf false false false true)
    else if check_time <? timestamp entry then Some (wrap_s 32 (timestamp entry - check_time), sf_zero)
    else if (-1 <? lastmod entry) && (lastmod entry <? timestamp entry) then
      let? stale_age := stale_age_of entry R in
      Some (if stale_age <=? age then wrap_s 32 (age - stale_age) else -1, mkSf false false true false)
    else if age <? rmin R then Some (-1, mkSf false true false false)
    else Some (wrap_s 32 (age - rmin R), sf_zero).

(** ** The check *)

(** The reason, and the objects the check writes to: the request (its
    no-cache flag) and the memory object (its stale-while-revalidate). *)
Record check_result := mkCheck {
  reason : Z;
  out_request : option request_t;
  out_entry : StoreEntry
}.

Definition set_nocache (r : request_t) : request_t :=
  mkRequest (canonical r) (req_cc r) (nocache_hack r) true.

Definition set_mem_swr (v : Z) (entry : StoreEntry) (m : mem_obj_t) : StoreEntry :=
  mkStoreEntry (timestamp entry) (expires entry) (lastmod entry) (flags entry)
    (Some (mkMem (url m) (reply m) v)).

(** The reply directives of a stored response. *)
Definition reply_cc (entry : StoreEntry) : option HttpHdrCc.HttpHdrCc :=
  let? m := mem_obj entry in
  let? r := reply m in
  cache_control r.

(** The request-specific part: [Some] when it decides. *)
Definition request_check (R : refresh_t) (request : request_t) (age staleness : Z)
  : option (Z * request_t) :=
  let reload :=
    if negb (nocache_hack request) then None
    else if ignore_reload (rflags R) then None
    else if reload_into_ims (rflags R) || cfg_reload_into_ims Config then
      Some (STALE_RELOAD_INTO_IMS, request)
    else Some (STALE_FORCED_RELOAD, set_nocache request) in
  match reload with
  | Some r => Some r
  | None =>
      match req_cc request with
      | None => None
      | Some cc =>
          if (-1 <? HttpHdrCc.max_age cc)
             && negb (ignore_reload (rflags R) && (HttpHdrCc.max_age cc =? 0))
             && (HttpHdrCc.max_age cc <? age)
          then Some (STALE_EXCEEDS_REQUEST_MAX_AGE_VALUE, request)
          else if EBIT_TEST (HttpHdrCc.mask cc) HttpHdrCc.CC_MAX_STALE && (0 <=? staleness) then
            if HttpHdrCc.max_stale cc <? 0 then Some (FRESH_REQUEST_MAX_STALE_ALL, request)
            else if staleness <? HttpHdrCc.max_stale cc then Some (FRESH_REQUEST_MAX_STALE_VALUE, request)
            else None
          else None
      end
  end.

(** The limits for stale responses. *)
Definition swr_limit (R : refresh_t) (entry : StoreEntry) : Z :=
  let swr := match reply_cc entry with
             | Some cc => if EBIT_TEST (HttpHdrCc.mask cc) HttpHdrCc.CC_STALE_WHILE_REVALIDATE
                          then HttpHdrCc.stale_while_revalidate cc else -1
             | None => -1
             end in
  if ignore_stale_while_revalidate (rflags R) || (swr =? -1) then stale_while_revalidate R else swr.

Definition max_stale_limit (R : refresh_t) (entry : StoreEntry) : Z :=
  let ms := if 0 <=? max_stale R then max_stale R else wrap_s 32 (cfg_maxStale Config) in
  match reply_cc entry with
  | Some cc => if EBIT_TEST (HttpHdrCc.mask cc) HttpHdrCc.CC_STALE_IF_ERROR
               then HttpHdrCc.stale_if_error cc else ms
  | None => ms
  end.

(** What is left for a response that is stale. *)
Definition stale_check (R : refresh_t) (entry : StoreEntry) (sf : stale_flags) (age staleness delta : Z)
  : Z * StoreEntry :=
  if sf_expires sf && override_expire (rflags R) && (age <? rmin R) then (FRESH_OVERRIDE_EXPIRES, entry)
  else if sf_lmfactor sf && override_lastmod (rflags R) && (age <? rmin R) then (FRESH_OVERRIDE_LASTMOD, entry)
  else
    let async := match mem_obj entry with
                 | Some m => if staleness <? swr_limit R entry then Some (set_mem_swr (swr_limit R entry) entry m) else None
                 | None => None
                 end in
    match async with
    | Some entry => (STALE_ASYNC_REFRESH, entry)
    | None =>
        if (0 <=? max_stale_limit R entry) && (max_stale_limit R entry <=? staleness) then (STALE_MAX_STALE, entry)
        else if (delta <? 0) && (staleness + delta <? 0) then (STALE_WITHIN_DELTA, entry)
        else if sf_expires sf then (STALE_EXPIRES, entry)
        else if sf_max sf then (STALE_MAX_RULE, entry)
        else if sf_lmfactor sf then (STALE_LMFACTOR_RULE, entry)
        else (STALE_DEFAULT, entry)
    end.

Definition check_time_of (delta : Z) : Z := if 0 <? delta then squid_curtime + delta else squid_curtime.
Definition age_of (entry : StoreEntry) (check_time : Z) : Z :=
  if timestamp entry <? check_time then check_time - timestamp entry else 0.

(** The part of [refreshCheck] after the staleness is known. *)
Definition decide_check (R : refresh_t) (entry : StoreEntry) (request : option request_t)
    (age staleness delta : Z) (sf : stale_flags) : option check_result :=
  if EBIT_TEST (flags entry) ENTRY_REVALIDATE && (-1 <? staleness) && negb (ignore_must_revalidate (rflags R)) then
    Some (mkCheck STALE_MUST_REVALIDATE request entry)
  else
    match (let? r := request in request_check R r age staleness) with
    | Some (code, r) => Some (mkCheck code (Some r) entry)
    | None =>
        if staleness <? 0 then
          if sf_expires sf then Some (mkCheck FRESH_EXPIRES request entry)
          else
            assert? negb (sf_max sf) in
            if sf_lmfactor sf then Some (mkCheck FRESH_LMFACTOR_RULE request entry)
            else assert? sf_min sf in Some (mkCheck FRESH_MIN_RULE request entry)
        else
          let '(code, entry) := stale_check R entry sf age staleness delta in
          Some (mkCheck code request entry)
    end.

Definition refreshCheck (entry : StoreEntry) (request : option request_t) (delta : Z) : option check_result :=
  let check_time := check_time_of delta in
  let age := age_of entry check_time in
  let R := default DefaultRefresh (entry_rule entry request) in
  let? (staleness, sf) := refreshStaleness entry check_time age R in
  decide_check R entry request age staleness delta sf.

(** ** Wrappers *)

Definition refreshIsCachable (counts : list RefreshCounts) (entry : StoreEntry) : option (bool * list RefreshCounts) :=
  let? r := refreshCheck entry None (cfg_minimum_expiry_time Config) in
  let? counts := bump counts rcStore (reason r) in
  if reason r <? 200 then Some (true, counts)
  else
    let can := 0 <? lastmod entry in
    let? etag := match mem_obj entry with
                 | Some m => match reply m with
                             | Some rep => HttpHeader.httpHeaderHas (header rep) HttpHeaderType.HDR_ETAG
                             | None => Some false
                             end
                 | None => Some false
                 end in
    Some (can || etag, counts).

Definition refreshCheckHTTP (counts : list RefreshCounts) (entry : StoreEntry) (request : option request_t)
  : option (Z * list RefreshCounts) :=
  let? r := refreshCheck entry request 0 in
  let? counts := bump counts rcHTTP (reason r) in
  Some (if reason r <? 200 then 0 else 1, counts).

Definition refreshCheckHTTPStale (entry : StoreEntry) (request : option request_t) : option Z :=
  let? r := refreshCheck entry request (- cfg_refresh_stale_window Config) in
  Some (if reason r =? STALE_WITHIN_DELTA then -1
        else if reason r =? STALE_ASYNC_REFRESH then -2
        else if reason r =? STALE_MAX_STALE then 3
        else if reason r <? 200 then 0 else 1).

Definition refreshCheckStaleOK (entry : StoreEntry) (request : option request_t) : option Z :=
  let? r := refreshCheck entry request 0 in
  Some (if reason r =? STALE_MUST_REVALIDATE then 0
        else if reason r =? STALE_MAX_STALE then 0 else 1).

Definition refreshCheckICP (counts : list RefreshCounts) (entry : StoreEntry) (request : option request_t)
  : option (Z * list RefreshCounts) :=
  let? r := refreshCheck entry request 30 in
  let? counts := bump counts rcICP (reason r) in
  Some (if reason r <? 200 then 0 else 1, counts).

(** ** Staleness, specified *)

(** Times at which the conversions of differences to [int] are exact: the time
    of the check and the date of the response are within the first 31 bits,
    and the limits of the rule are not negative. *)
Definition times_ok (entry : StoreEntry) (check_time : Z) (R : refresh_t) : Prop :=
  0 <= check_time < 2 ^ 31 /\ 0 <= timestamp entry < 2 ^ 31 /\ 0 <= rmax R /\ 0 <= rmin R.

#[global] Instance times_ok_dec entry check_time R : Decision (times_ok entry check_time R).
Proof. unfold times_ok. apply _. Defined.

(** The last-modified rule applies and gives a time. *)
Definition lm_applies (entry : StoreEntry) : bool :=
  (-1 <? lastmod entry) && (lastmod entry <? timestamp entry).

Definition lm_ok (entry : StoreEntry) (R : refresh_t) : Prop :=
  lm_applies entry = true -> exists v, stale_age_of entry R = Some v /\ 0 <= v.

(** The response is stale at [check_time]: an explicit expiry time decides
    alone; otherwise it is older than the maximum, dated in the future, past
    the fraction of its age at retrieval that the rule allows, or, without a
    modification time, not younger than the minimum. *)
Definition is_stale (entry : StoreEntry) (check_time : Z) (R : refresh_t) : Prop :=
  if -1 <? expires entry then expires entry <= check_time
  else
    let age := age_of entry check_time in
    rmax R < age \/ check_time < timestamp entry \/
    (if lm_applies entry then exists v, stale_age_of entry R = Some v /\ v <= age else rmin R <= age).

Lemma refreshStaleness_spec entry check_time R :
  times_ok entry check_time R -> lm_ok entry R ->
  exists st sf, refreshStaleness entry check_time (age_of entry check_time) R = Some (st, sf) /\
    -1 <= st < 2 ^ 31 /\ (0 <= st <-> is_stale entry check_time R) /\
    (st < 0 -> sf_max sf = false /\ (sf_expires sf || sf_lmfactor sf || sf_min sf) = true).
Proof.
  intros (Hc & Ht & Hx & Hn) Hlm. unfold refreshStaleness, is_stale.
  destruct (-1 <? expires entry) eqn:Ee; zify_bools.
  { eexists _, _. split; [done|]. destruct (check_time <? expires entry) eqn:E; zify_bools.
    - split_and!; [lia|lia|lia|done].
    - rewrite wrap_s_small by lia. split_and!; [lia|lia|lia|done]. }
  set (age := age_of entry check_time).
  assert (0 <= age < 2 ^ 31) as Ha by (unfold age, age_of; destruct (timestamp entry <? check_time) eqn:E; zify_bools; lia).
  rewrite (proj2 (Z.leb_le 0 age)) by lia.
  destruct (rmax R <? age) eqn:Em; zify_bools.
  { eexists _, _. split; [done|]. rewrite wrap_s_small by lia. split_and!; [lia|lia|split; [intros _; by left|lia]|lia]. }
  destruct (check_time <? timestamp entry) eqn:Eb; zify_bools.
  { eexists _, _. split; [done|]. rewrite wrap_s_small by lia. split_and!; [lia|lia|split; [intros _; right; by left|lia]|lia]. }
  fold (lm_applies entry). destruct (lm_applies entry) eqn:El.
  { destruct (Hlm El) as (v & Hv & Hv0). rewrite Hv. bind_simpl.
    eexists _, _. split; [done|]. destruct (v <=? age) eqn:E; zify_bools.
    - rewrite wrap_s_small by lia. split_and!; [lia|lia| |lia]. split; [|lia]. intros _. right; right. exists v. split; [done|lia].
    - split_and!; [lia|lia| |done]. split; [lia|]. intros [?|[?|(w & Hw & ?)]]; [lia|lia|].
      simplify_eq. lia. }
  destruct (age <? rmin R) eqn:Er; zify_bools; (eexists _, _; split; [done|]).
  - split_and!; [lia|lia| |done]. split; [lia|]. lia.
  - rewrite wrap_s_small by lia. split_and!; [lia|lia| |lia]. split; [|lia]. intros _. right; right. lia.
Qed.

(** C18. [refreshStaleness] never fails its assertion, and its result is -1
    exactly when the response is fresh by the rules (explicit expiry, maximum
    age, future date, last-modified factor, minimum age, in this order).  The
    times of the check and of the response are below 2^31, the limits of the
    rule are not negative, and the time that the last-modified factor gives is
    one. *)
Theorem refreshStaleness_correct entry check_time R :
  times_ok entry check_time R -> lm_ok entry R ->
  exists st sf, refreshStaleness entry check_time (age_of entry check_time) R = Some (st, sf) /\
    (st = -1 <-> ~ is_stale entry check_time R) /\ (0 <= st <-> is_stale entry check_time R).
Proof.
  intros Ht Hlm. destruct (refreshStaleness_spec _ _ _ Ht Hlm) as (st & sf & H & Hr & Hs & _).
  exists st, sf. split; [done|]. split; [|done]. rewrite <- Hs. lia.
Qed.

(** Staleness is permanent: a response that is stale at some time not
    before its date is stale at every later time. *)
Theorem staleness_monotone entry t1 t2 R st1 sf1 :
  times_ok entry t1 R -> times_ok entry t2 R -> lm_ok entry R ->
  timestamp entry <= t1 -> t1 <= t2 ->
  refreshStaleness entry t1 (age_of entry t1) R = Some (st1, sf1) -> 0 <= st1 ->
  exists st2 sf2, refreshStaleness entry t2 (age_of entry t2) R = Some (st2, sf2) /\ 0 <= st2.
Proof.
  intros H1 H2 Hlm Hts Hle Hst Hpos.
  destruct (refreshStaleness_spec _ _ _ H1 Hlm) as (s & f & Hs & _ & Hiff1 & _).
  rewrite Hst in Hs. injection Hs as <- <-. apply Hiff1 in Hpos.
  destruct (refreshStaleness_spec _ _ _ H2 Hlm) as (st2 & sf2 & Hs2 & _ & Hiff2 & _).
  exists st2, sf2. split; [done|]. apply Hiff2.
  unfold is_stale in *. destruct (-1 <? expires entry); [lia|].
  assert (age_of entry t1 <= age_of entry t2) as Hage.
  { unfold age_of. repeat case_match; zify_bools; lia. }
  destruct Hpos as [?|[?|Hpos]]; [left; lia|lia|right; right].
  destruct (lm_applies entry); [|lia]. destruct Hpos as (v & Hv & ?). exists v. split; [done|lia].
Qed.

(** ** The decision *)

Definition valid_reason (c : Z) : Prop :=
  100 <= c <= 106 \/ 200 <= c <= 209 \/ c = 299.

Lemma stale_check_valid R entry sf age st delta : valid_reason (fst (stale_check R entry sf age st delta)).
Proof. unfold valid_reason, stale_check. repeat case_match; cbn; unfold FRESH_OVERRIDE_EXPIRES, FRESH_OVERRIDE_LASTMOD, STALE_ASYNC_REFRESH, STALE_MAX_STALE, STALE_WITHIN_DELTA, STALE_EXPIRES, STALE_MAX_RULE, STALE_LMFACTOR_RULE, STALE_DEFAULT; lia. Qed.

Lemma request_check_valid R r age st c r' : request_check R r age st = Some (c, r') -> valid_reason c.
Proof.
  unfold request_check, valid_reason. intros H. repeat (case_match; simplify_eq; try done);
  unfold STALE_RELOAD_INTO_IMS, STALE_FORCED_RELOAD, STALE_EXCEEDS_REQUEST_MAX_AGE_VALUE, FRESH_REQUEST_MAX_STALE_ALL, FRESH_REQUEST_MAX_STALE_VALUE; lia.
Qed.

(** The rule in force. *)
Definition rule_of (entry : StoreEntry) (request : option request_t) : refresh_t :=
  default DefaultRefresh (entry_rule entry request).

Lemma refreshCheck_total entry request delta :
  let R := rule_of entry request in
  times_ok entry (check_time_of delta) R -> lm_ok entry R ->
  exists st sf r, refreshStaleness entry (check_time_of delta) (age_of entry (check_time_of delta)) R = Some (st, sf) /\
    (0 <= st <-> is_stale entry (check_time_of delta) R) /\
    refreshCheck entry request delta = Some r /\ valid_reason (reason r) /\
    decide_check R entry request (age_of entry (check_time_of delta)) st delta sf = Some r.
Proof.
  intros R Ht Hlm. destruct (refreshStaleness_spec _ _ _ Ht Hlm) as (st & sf & Hs & Hr & Hiff & Hsf).
  exists st, sf. unfold refreshCheck. fold (rule_of entry request). fold R. rewrite Hs. bind_simpl.
  assert (exists r, decide_check R entry request (age_of entry (check_time_of delta)) st delta sf = Some r
                    /\ valid_reason (reason r)) as (r & Hd & Hv).
  { unfold decide_check. destruct (EBIT_TEST _ _ && _ && _).
    { eexists; split; [done|]. cbn. unfold valid_reason, STALE_MUST_REVALIDATE. lia. }
    destruct (let? r := request in request_check R r _ st) as [[c r']|] eqn:Er.
    { eexists; split; [done|]. cbn. destruct request; [|done]. cbn in Er. by eapply request_check_valid. }
    destruct (st <? 0) eqn:En; zify_bools.
    - destruct (Hsf En) as [Hm Hor]. destruct (sf_expires sf).
      { eexists; split; [done|]. cbn. unfold valid_reason, FRESH_EXPIRES. lia. }
      rewrite Hm. cbn [negb]. destruct (sf_lmfactor sf).
      { eexists; split; [done|]. cbn. unfold valid_reason, FRESH_LMFACTOR_RULE. lia. }
      cbn in Hor. rewrite Hor. eexists; split; [done|]. cbn. unfold valid_reason, FRESH_MIN_RULE. lia.
    - pose proof (stale_check_valid R entry sf (age_of entry (check_time_of delta)) st delta) as Hv.
      destruct (stale_check _ _ _ _ _ _) as [c e]. eexists; split; [done|]. done. }
  exists r. split_and!; done.
Qed.

(** C27. [refreshCheck] does not abort and returns one of the documented
    reasons, so that the counters are always updated inside their table, for
    times of the check and of the response below 2^31, rules whose limits are
    not negative, and last-modified factors that give a time.  Under these
    conditions the differences of times fit the [int]s they are stored in; a
    limit that wrapped to a negative number when it was configured can make
    the assertion on the maximum age fail, see [wrapped_max_aborts] below. *)
Theorem refreshCheck_safe entry request delta counts rc :
  let R := rule_of entry request in
  times_ok entry (check_time_of delta) R -> lm_ok entry R ->
  (rc < length counts)%nat -> Forall (fun c => length (status c) = Z.to_nat (STALE_DEFAULT + 1)) counts ->
  exists r counts', refreshCheck entry request delta = Some r /\ valid_reason (reason r) /\
    bump counts rc (reason r) = Some counts' /\
    Forall (fun c => length (status c) = Z.to_nat (STALE_DEFAULT + 1)) counts'.
Proof.
  intros R Ht Hlm Hrc Hall. destruct (refreshCheck_total entry request delta Ht Hlm) as (st & sf & r & _ & _ & Hr & Hv & _).
  exists r. unfold bump. destruct (lookup_lt_is_Some_2 counts rc Hrc) as [c Hc]. rewrite Hc. bind_simpl.
  assert (length (status c) = Z.to_nat (STALE_DEFAULT + 1)) as Hl by (eapply Forall_lookup_1 in Hall; eauto).
  assert (0 <= reason r <= 299) as Hre by (unfold valid_reason in Hv; lia).
  rewrite (proj2 (Z.leb_le _ _)) by lia.
  destruct (lookup_lt_is_Some_2 (status c) (Z.to_nat (reason r))) as [n Hn];
    [rewrite Hl; change (STALE_DEFAULT + 1) with 300; lia|].
  rewrite Hn. bind_simpl. eexists. split_and!; try done.
  apply Forall_insert; [done|]. cbn. by rewrite length_insert.
Qed.

(** C21. A response marked must-revalidate is never served stale: whatever the
    request asks (max-stale included), once it is stale the check answers
    STALE_MUST_REVALIDATE and serving it after an error is refused, unless
    the matching rule has ignore-must-revalidate.  (For times below 2^31 and
    rules whose limits are not negative.) *)
Theorem refreshCheck_must_revalidate entry request delta :
  let R := rule_of entry request in
  times_ok entry (check_time_of delta) R -> lm_ok entry R ->
  EBIT_TEST (flags entry) ENTRY_REVALIDATE = true -> ignore_must_revalidate (rflags R) = false ->
  is_stale entry (check_time_of delta) R ->
  refreshCheck entry request delta = Some (mkCheck STALE_MUST_REVALIDATE request entry) /\
  (delta = 0 -> refreshCheckStaleOK entry request = Some 0).
Proof.
  intros R Ht Hlm Hf Hi Hst.
  destruct (refreshCheck_total entry request delta Ht Hlm) as (st & sf & r & _ & Hiff & Hr & _ & Hd).
  assert (refreshCheck entry request delta = Some (mkCheck STALE_MUST_REVALIDATE request entry)) as Hc.
  { rewrite Hr, <- Hd. unfold decide_check. fold R. rewrite Hf, Hi. apply Hiff in Hst.
    by rewrite (proj2 (Z.ltb_lt _ _)) by lia. }
  split; [done|]. intros ->. unfold refreshCheckStaleOK. by rewrite Hc.
Qed.

(** C26. A request's max-age is honoured: a response older than it is never
    reported fresh, unless the rule ignores reloads and the limit is 0.  (For
    times below 2^31 and rules whose limits are not negative.) *)
Theorem refreshCheck_max_age entry request cc delta r :
  let R := rule_of entry (Some request) in
  times_ok entry (check_time_of delta) R -> lm_ok entry R ->
  req_cc request = Some cc -> 0 <= HttpHdrCc.max_age cc ->
  HttpHdrCc.max_age cc < age_of entry (check_time_of delta) ->
  ignore_reload (rflags R) = false \/ HttpHdrCc.max_age cc <> 0 ->
  refreshCheck entry (Some request) delta = Some r -> 200 <= reason r.
Proof.
  intros R Ht Hlm Hcc Hm Hage Hign Hr.
  destruct (refreshCheck_total entry (Some request) delta Ht Hlm) as (st & sf & r' & _ & _ & Hr' & _ & Hd).
  rewrite Hr in Hr'. injection Hr' as <-. unfold decide_check in Hd. fold R in Hd.
  destruct (EBIT_TEST _ _ && _ && _); [injection Hd as <-; cbn; unfold STALE_MUST_REVALIDATE; lia|].
  cbn [mbind option_bind] in Hd. unfold request_check in Hd. rewrite Hcc in Hd.
  assert ((-1 <? HttpHdrCc.max_age cc) && negb (ignore_reload (rflags R) && (HttpHdrCc.max_age cc =? 0))
          && (HttpHdrCc.max_age cc <? age_of entry (check_time_of delta)) = true) as Hcond.
  { rewrite !andb_true_iff, !Z.ltb_lt, negb_true_iff, andb_false_iff. split_and!; [lia| |lia].
    destruct Hign as [->|?]; [by left|right; lia]. }
  fold R in Hcond. rewrite Hcond in Hd.
  repeat (case_match; simplify_eq/=; try done);
    unfold STALE_RELOAD_INTO_IMS, STALE_FORCED_RELOAD, STALE_EXCEEDS_REQUEST_MAX_AGE_VALUE; lia.
Qed.

(** When no refresh_pattern rule matches, the zeroed default rule has
    max_stale 0, which overrides the configured limit: a stale response
    without must-revalidate and request directives is always STALE_MAX_STALE,
    and serving it after an error is refused, whatever [max_stale] says. *)
Theorem refreshCheck_default_rule entry :
  entry_rule entry None = None -> mem_obj entry = None ->
  times_ok entry squid_curtime DefaultRefresh -> lm_ok entry DefaultRefresh ->
  EBIT_TEST (flags entry) ENTRY_REVALIDATE = false -> is_stale entry squid_curtime DefaultRefresh ->
  refreshCheckStaleOK entry None = Some 0.
Proof.
  intros Hru Hmem Ht Hlm Hf Hst.
  assert (rule_of entry None = DefaultRefresh) as HR by (unfold rule_of; by rewrite Hru).
  destruct (refreshCheck_total entry None 0) as (st & sf & r & _ & Hiff & Hr & _ & Hd);
    [by rewrite HR|by rewrite HR|].
  rewrite HR in *. apply Hiff in Hst. unfold decide_check in Hd. rewrite Hf in Hd.
  cbn [andb mbind option_bind] in Hd. rewrite (proj2 (Z.ltb_ge _ _)) in Hd by lia.
  unfold stale_check in Hd. rewrite !andb_false_r in Hd. cbn [andb DefaultRefresh rflags override_expire override_lastmod] in Hd.
  rewrite Hmem in Hd. unfold max_stale_limit, reply_cc in Hd. rewrite Hmem in Hd. cbn [mbind option_bind] in Hd.
  cbn [DefaultRefresh max_stale Z.leb] in Hd.
  change (0 <=? 0) with true in Hd. cbv iota in Hd. change (0 <=? 0) with true in Hd.
  rewrite (proj2 (Z.leb_le 0 st)) in Hd by lia. cbn [andb] in Hd.
  unfold refreshCheckStaleOK. rewrite Hr, <- Hd. done.
Qed.
End refresh.

(** ** Concrete checks *)

Definition ex_flags : refresh_flags := mkFlags false false false false false false.
Definition ex_rule : refresh_t := mkRefresh (str ".") 0 REFRESH_DEFAULT_PCT 4320 ex_flags (-1) (-1) (-1).
Definition ex_cfg : config_t := mkConfig [ex_rule] 300 604800 60 0 false.

(** Retrieved at 10000, modified at 5000: stale from age 1000 on. *)
Definition ex_entry (fl : Z) : StoreEntry := mkStoreEntry 10000 (-1) 5000 fl None.
Definition ex_request : request_t :=
  mkRequest (str "http://a/") (Some (HttpHdrCc.mkCc 0 60 (-1) (-1) 0 0 [])) false false.

Lemma ex_lm R : R = ex_rule \/ R = DefaultRefresh -> lm_ok (ex_entry 0) R /\ lm_ok (ex_entry 2) R.
Proof.
  intros HR. split; intros _; exists 1000; (split; [|lia]); destruct HR as [->| ->]; vm_compute; reflexivity.
Qed.

(** A maximum of 40000000 minutes is -1894967296 seconds in an [int]: for a
    response of 1980 the age exceeds that by more than an [int] holds, the
    staleness is negative and [assert(!sf.max)] fails. *)
Example wrapped_max_aborts :
  let R := mkRefresh (str ".") 0 REFRESH_DEFAULT_PCT (wrap_s 32 (40000000 * 60)) ex_flags (-1) (-1) (-1) in
  rmax R = -1894967296 /\
  refreshCheck (fun _ _ => true) (mkConfig [R] 300 604800 60 0 false) 1262304000 (mkStoreEntry 315532800 (-1) (-1) 0 None) None 0 = None.
Proof. split; vm_compute; reflexivity. Qed.

Lemma refreshStaleness_witness :
  exists st sf, refreshStaleness (ex_entry 0) 11000 (age_of (ex_entry 0) 11000) ex_rule = Some (st, sf) /\
    (st = -1 <-> ~ is_stale (ex_entry 0) 11000 ex_rule) /\ (0 <= st <-> is_stale (ex_entry 0) 11000 ex_rule).
Proof. apply refreshStaleness_correct; [apply (bool_decide_unpack _); vm_compute; exact I|apply ex_lm; by left]. Defined.

Lemma staleness_monotone_witness :
  exists st2 sf2, refreshStaleness (ex_entry 0) 12000 (age_of (ex_entry 0) 12000) ex_rule = Some (st2, sf2) /\ 0 <= st2.
Proof.
  apply (staleness_monotone (ex_entry 0) 11000 12000 ex_rule 0 (mkSf false false true false));
    [apply (bool_decide_unpack _); vm_compute; exact I|apply (bool_decide_unpack _); vm_compute; exact I|apply ex_lm; by left|cbn; lia|lia|vm_compute; reflexivity|lia].
Defined.

Lemma refreshCheck_safe_witness :
  exists r counts', refreshCheck (fun _ _ => true) ex_cfg 11000 (ex_entry 0) (Some ex_request) 0 = Some r /\
    valid_reason (reason r) /\ bump refreshCounts_init rcHTTP (reason r) = Some counts' /\
    Forall (fun c => length (status c) = Z.to_nat (STALE_DEFAULT + 1)) counts'.
Proof.
  apply refreshCheck_safe; [apply (bool_decide_unpack _); vm_compute; exact I|apply ex_lm; by left|vm_compute; lia|repeat constructor].
Defined.

Lemma refreshCheck_must_revalidate_witness :
  refreshCheck (fun _ _ => true) ex_cfg 11000 (ex_entry 2) (Some ex_request) 0
    = Some (mkCheck STALE_MUST_REVALIDATE (Some ex_request) (ex_entry 2)) /\
  (0 = 0 -> refreshCheckStaleOK (fun _ _ => true) ex_cfg 11000 (ex_entry 2) (Some ex_request) = Some 0).
Proof.
  apply refreshCheck_must_revalidate; [apply (bool_decide_unpack _); vm_compute; exact I|apply ex_lm; by left|done|done|].
  unfold is_stale. cbn [ex_entry expires Z.ltb Z.compare Pos.compare Pos.compare_cont]. right; right.
  exists 1000. split; [vm_compute; reflexivity|vm_compute; discriminate].
Defined.

Lemma refreshCheck_max_age_witness :
  exists r, refreshCheck (fun _ _ => true) ex_cfg 10100 (ex_entry 0) (Some ex_request) 0 = Some r /\ 200 <= reason r.
Proof.
  eexists. split; [vm_compute; reflexivity|].
  apply (refreshCheck_max_age (fun _ _ => true) ex_cfg 10100 (ex_entry 0) ex_request
           (HttpHdrCc.mkCc 0 60 (-1) (-1) 0 0 []) 0);
    [apply (bool_decide_unpack _); vm_compute; exact I|apply ex_lm; by left|done|cbn; lia|vm_compute; reflexivity|by left|vm_compute; reflexivity].
Defined.

Lemma refreshCheck_default_rule_witness :
  refreshCheckStaleOK (fun _ _ => false) (mkConfig [] 300 604800 60 0 false) 11000 (ex_entry 0) None = Some 0.
Proof.
  apply refreshCheck_default_rule; [done|done|apply (bool_decide_unpack _); vm_compute; exact I|apply ex_lm; by right|done|].
  unfold is_stale. cbn [ex_entry expires Z.ltb Z.compare Pos.compare Pos.compare_cont]. right; right.
  exists 1000. split; [vm_compute; reflexivity|vm_compute; discriminate].
Defined.
End Refresh.
