(* ===== verification/Rfc1035.v ===== *)
(** * DNS messages: lib/rfc1035.c

    [buf] is the memory that holds a message and [sz] the length of the
    message in it; a read outside the memory is [None].  Values returned
    through pointers are results. *)

From Stdlib Require Import ZArith Lia Ascii String.
From stdpp Require Import base strings list numbers option.
From S2P Require Import Prelude CStr.

Module Rfc1035.

Definition RFC1035_MAXHOSTNAMESZ : Z := 256.
Definition RFC1035_MAXLABELSZ : Z := 63.
Definition rfc1035_unpack_error : Z := 15.
Definition RFC1035_TYPE_A : Z := 1.
Definition RFC1035_TYPE_AAAA : Z := 28.
Definition RFC1035_TYPE_PTR : Z := 12.
Definition RFC1035_CLASS_IN : Z := 1.

(** ** Data *)

Record rfc1035_rr := mkRR {
  rr_name : bytes;
  rr_type : Z;
  rr_class : Z;
  rr_ttl : Z;
  rr_rdlength : Z;
  rr_rdata : bytes
}.

Record rfc1035_query := mkQuery { q_name : bytes; q_qtype : Z; q_qclass : Z }.

Record rfc1035_message := mkMsg {
  id : Z;
  qr : Z; opcode : Z; aa : Z; tc : Z; rd : Z; ra : Z; rcode : Z;
  qdcount : Z; ancount : Z; nscount : Z; arcount : Z;
  query : list rfc1035_query;
  answer : list rfc1035_rr
}.

(** ** Network byte order *)

Definition put16 (v : Z) : bytes := [(v / 256) `mod` 256; v `mod` 256].

Definition get16 (buf : bytes) (off : Z) : option Z :=
  assert? 0 <=? off in
  let? a := buf !! Z.to_nat off in
  let? b := buf !! Z.to_nat (off + 1) in
  Some (256 * a + b).

Definition get32 (buf : bytes) (off : Z) : option Z :=
  let? a := get16 buf off in
  let? b := get16 buf (off + 2) in
  Some (65536 * a + b).

Definition get8 (buf : bytes) (off : Z) : option Z :=
  assert? 0 <=? off in buf !! Z.to_nat off.

Definition get_bytes (buf : bytes) (off n : Z) : option bytes :=
  assert? (0 <=? off) && (0 <=? n) && (off + n <=? Z.of_nat (length buf)) in
  Some (take (Z.to_nat n) (drop (Z.to_nat off) buf)).

(** ** Packing: what is written at the start of a buffer of [sz] bytes *)

Definition header_flags (h : rfc1035_message) : Z :=
  Z.lor (Z.lor (Z.lor (Z.lor (Z.lor (Z.lor (Z.shiftl (qr h) 15) (Z.shiftl (opcode h) 11))
    (Z.shiftl (aa h) 10)) (Z.shiftl (tc h) 9)) (Z.shiftl (rd h) 8)) (Z.shiftl (ra h) 7)) (rcode h).

Definition rfc1035HeaderPack (sz : Z) (h : rfc1035_message) : option bytes :=
  assert? 12 <=? sz in
  Some (put16 (id h) ++ put16 (wrap_u 16 (header_flags h)) ++ put16 (qdcount h) ++ put16 (ancount h)
        ++ put16 (nscount h) ++ put16 (arcount h)).

(** [rfc1035LabelPack]: [None] for the label is NULL. *)
Definition rfc1035LabelPack (sz : Z) (label : option bytes) : option bytes :=
  let l := default [] label in
  assert? negb (existsb (Z.eqb 46) l) in
  let len := Z.min (Z.of_nat (length l)) RFC1035_MAXLABELSZ in
  assert? len + 1 <=? sz in
  Some (len :: take (Z.to_nat len) l).

(** The tokens of [strtok(copy, ".")]: the maximal runs without dots. *)
Fixpoint strtok_dots (cur : bytes) (name : bytes) : list bytes :=
  match name with
  | [] => match cur with [] => [] | _ => [cur] end
  | c :: name =>
      if c =? 46 then match cur with [] => strtok_dots [] name | _ => cur :: strtok_dots [] name end
      else strtok_dots (cur ++ [c]) name
  end.

Fixpoint pack_labels (sz : Z) (out : bytes) (labels : list bytes) : option bytes :=
  match labels with
  | [] => Some out
  | t :: labels =>
      let? l := rfc1035LabelPack (sz - Z.of_nat (length out)) (Some t) in
      pack_labels sz (out ++ l) labels
  end.

Definition rfc1035NamePack (sz : Z) (name : bytes) : option bytes :=
  let? out := pack_labels sz [] (strtok_dots [] name) in
  let? l := rfc1035LabelPack (sz - Z.of_nat (length out)) None in
  let out := out ++ l in
  assert? Z.of_nat (length out) <=? sz in Some out.

Definition rfc1035QuestionPack (sz : Z) (name : bytes) (type class_ : Z) : option bytes :=
  let? out := rfc1035NamePack sz name in
  let out := out ++ put16 type ++ put16 class_ in
  assert? Z.of_nat (length out) <=? sz in Some out.

(** The header every query is built with. *)
Definition query_header (qid : Z) : rfc1035_message :=
  mkMsg qid 0 0 0 0 1 0 0 1 0 0 0 [] [].

(** [xstrncpy] into [query->name]. *)
Definition xstrncpy (s : bytes) (n : Z) : bytes := take (Z.to_nat (n - 1)) s.

Definition build_query (name : bytes) (type : Z) (sz qid : Z) : option (bytes * rfc1035_query) :=
  let? h := rfc1035HeaderPack sz (query_header qid) in
  let? q := rfc1035QuestionPack (sz - Z.of_nat (length h)) name type RFC1035_CLASS_IN in
  assert? Z.of_nat (length (h ++ q)) <=? sz in
  Some (h ++ q, mkQuery (xstrncpy name RFC1035_MAXHOSTNAMESZ) type RFC1035_CLASS_IN).

Definition rfc1035BuildAQuery (hostname : bytes) (sz qid : Z) : option (bytes * rfc1035_query) :=
  build_query hostname RFC1035_TYPE_A sz qid.

Definition rfc1035BuildAAAAQuery (hostname : bytes) (sz qid : Z) : option (bytes * rfc1035_query) :=
  build_query hostname RFC1035_TYPE_AAAA sz qid.

(** The name looked up for an IPv4 address [i] in host byte order; it always
    fits the 32 bytes of [rev]. *)
Definition ptr_name (i : Z) : bytes :=
  take 31 (dec (Z.land i 255) ++ 46 :: dec (Z.land (Z.shiftr i 8) 255) ++ 46 ::
           dec (Z.land (Z.shiftr i 16) 255) ++ 46 :: dec (Z.land (Z.shiftr i 24) 255) ++ str ".in-addr.arpa.").

Definition rfc1035BuildPTRQuery (addr : Z) (sz qid : Z) : option (bytes * rfc1035_query) :=
  build_query (ptr_name addr) RFC1035_TYPE_PTR sz qid.

Definition rfc1035SetQueryID (buf : bytes) (qid : Z) : option bytes :=
  assert? (2 <=? length buf)%nat in Some (put16 qid ++ drop 2 buf).

(** ** Unpacking *)

(** [rfc1035HeaderUnpack]: [None] inside is the error return. *)
Definition rfc1035HeaderUnpack (buf : bytes) (sz : Z) : option (option (rfc1035_message * Z)) :=
  if sz <? 12 then Some None
  else
    let? i := get16 buf 0 in
    let? t := get16 buf 2 in
    let? qd := get16 buf 4 in
    let? an := get16 buf 6 in
    let? ns := get16 buf 8 in
    let? ar := get16 buf 10 in
    Some (Some (mkMsg i
      (Z.land (Z.shiftr t 15) 1) (Z.land (Z.shiftr t 11) 15) (Z.land (Z.shiftr t 10) 1)
      (Z.land (Z.shiftr t 9) 1) (Z.land (Z.shiftr t 8) 1) (Z.land (Z.shiftr t 7) 1) (Z.land t 15)
      qd an ns ar [] [], 12)).

(** The outcome of [rfc1035NameUnpack]: an error, or the offset after the
    name, the amount added to [*rdlength] and the text before the
    terminating NUL. *)
Inductive name_result :=
| NameError
| Name (off : Z) (rdl : Z) (name : bytes).

(** The text written: the last dot is overwritten by the NUL. *)
Definition name_text (acc : bytes) : bytes := take (length acc - 1) acc.

(** The loop of [rfc1035NameUnpack].  [acc] holds the [no] bytes written so
    far; [rec] unpacks the name at a pointer, into the rest of the buffer,
    one level deeper. *)
Fixpoint name_loop (fuel : nat) (rec : Z -> Z -> option name_result)
    (buf : bytes) (sz ns rdepth : Z) (off : Z) (rdl : Z) (acc : bytes) : option name_result :=
  match fuel with
  | O => None
  | S fuel =>
      let no := Z.of_nat (length acc) in
      if sz <=? off then Some NameError
      else
        let? c := get8 buf off in
        if 191 <? c then
          if 64 <? rdepth then Some NameError
          else
            let? s := get16 buf off in
            let off := off + 2 in
            if sz <? off then Some NameError
            else
              let ptr := Z.land s 16383 in
              if sz <=? ptr then Some NameError
              else
                let? r := rec ptr (ns - no) in
                match r with
                | NameError => Some NameError
                | Name _ rdl' name => Some (Name off (rdl + rdl') (acc ++ name))
                end
        else if RFC1035_MAXLABELSZ <? c then Some NameError
        else
          let off := off + 1 in
          if c =? 0 then Some (Name off rdl (name_text acc))
          else if ns - no - 1 <? c then Some NameError
          else if sz <=? off + c then Some NameError
          else
            let? l := get_bytes buf off c in
            let acc := acc ++ l ++ [46] in
            let no := Z.of_nat (length acc) in
            if no <? ns then name_loop fuel rec buf sz ns rdepth (off + c) (rdl + c + 1) acc
            else
              assert? no <=? ns in Some (Name (off + c) (rdl + c + 1) (name_text acc))
  end.

(** [rfc1035NameUnpack]: [depth] bounds the recursion. *)
Fixpoint rfc1035NameUnpack (depth : nat) (buf : bytes) (sz ns rdepth : Z) (off : Z) : option name_result :=
  match depth with
  | O => None
  | S depth =>
      assert? 0 <? ns in
      name_loop (S (Z.to_nat sz)) (fun ptr ns => rfc1035NameUnpack depth buf sz ns (rdepth + 1) ptr)
        buf sz ns rdepth off 0 []
  end.

(** Enough recursion for a call from outside (compression pointers are
    followed up to depth 65). *)
Definition name_depth : nat := 66.

(** [rfc1035RRUnpack]: [None] inside is the error return. *)
Definition rfc1035RRUnpack (buf : bytes) (sz off : Z) : option (option (rfc1035_rr * Z)) :=
  let? n := rfc1035NameUnpack name_depth buf sz RFC1035_MAXHOSTNAMESZ 0 off in
  match n with
  | NameError => Some None
  | Name off _ name =>
      if sz <? off + 10 then Some None
      else
        let? type := get16 buf off in
        let? class_ := get16 buf (off + 2) in
        let? ttl := get32 buf (off + 4) in
        let? rdlength := get16 buf (off + 8) in
        let off := off + 10 in
        if sz <? off + rdlength then Some None
        else if type =? RFC1035_TYPE_PTR then
          let? p := rfc1035NameUnpack name_depth buf sz RFC1035_MAXHOSTNAMESZ 0 off in
          match p with
          | NameError => Some None
          | Name rdata_off rdl text =>
              if off + rdlength <? rdata_off then Some None
              else
                assert? off + rdlength <=? sz in
                Some (Some (mkRR name type class_ ttl (wrap_u 16 rdl) text, off + rdlength))
          end
        else
          let? rdata := get_bytes buf off rdlength in
          assert? off + rdlength <=? sz in
          Some (Some (mkRR name type class_ ttl rdlength rdata, off + rdlength))
  end.

Definition rfc1035QueryUnpack (buf : bytes) (sz off : Z) : option (option (rfc1035_query * Z)) :=
  let? n := rfc1035NameUnpack name_depth buf sz RFC1035_MAXHOSTNAMESZ 0 off in
  match n with
  | NameError => Some None
  | Name off _ name =>
      if sz <? off + 4 then Some None
      else
        let? t := get16 buf off in
        let? c := get16 buf (off + 2) in
        Some (Some (mkQuery name t c, off + 4))
  end.

(** The answer loop of [rfc1035MessageUnpack]. *)
Fixpoint unpack_answers (n : nat) (buf : bytes) (sz off : Z) (recs : list rfc1035_rr) : option (list rfc1035_rr) :=
  match n with
  | O => Some recs
  | S n =>
      if sz <=? off then Some recs
      else
        let? r := rfc1035RRUnpack buf sz off in
        match r with
        | None => Some recs
        | Some (rr, off) => unpack_answers n buf sz off (recs ++ [rr])
        end
  end.

(** [rfc1035SetErrno] *)
Definition error_message (n : Z) : string :=
  if n =? 0 then "No error condition"
  else if n =? 1 then "Format Error: The name server was unable to interpret the query."
  else if n =? 2 then "Server Failure: The name server was unable to process this query."
  else if n =? 3 then "Name Error: The domain name does not exist."
  else if n =? 4 then "Not Implemented: The name server does not support the requested kind of query."
  else if n =? 5 then "Refused: The name server refuses to perform the specified operation."
  else if n =? rfc1035_unpack_error then "The DNS reply message is corrupt or could not be safely parsed."
  else "Unknown Error".

(** What [rfc1035MessageUnpack] leaves: the return value, [*answer] (if it is
    set) and [rfc1035_errno]. *)
Record unpack_result := mkUnpack { ret : Z; msg : option rfc1035_message; rfc1035_errno : Z }.

Definition corrupt : unpack_result := mkUnpack (- rfc1035_unpack_error) None rfc1035_unpack_error.

Definition set_parts (h : rfc1035_message) (q : list rfc1035_query) (a : list rfc1035_rr) : rfc1035_message :=
  mkMsg (id h) (qr h) (opcode h) (aa h) (tc h) (rd h) (ra h) (rcode h)
    (qdcount h) (ancount h) (nscount h) (arcount h) q a.

Definition rfc1035MessageUnpack (buf : bytes) (sz : Z) : option unpack_result :=
  let? h := rfc1035HeaderUnpack buf sz in
  match h with
  | None => Some corrupt
  | Some (h, off) =>
      if negb (qdcount h =? 1) then Some corrupt
      else
        let? q := rfc1035QueryUnpack buf sz off in
        match q with
        | None => Some corrupt
        | Some (q, off) =>
            if negb (rcode h =? 0) then Some (mkUnpack (- rcode h) (Some (set_parts h [q] [])) (rcode h))
            else if ancount h =? 0 then Some (mkUnpack 0 (Some (set_parts h [q] [])) 0)
            else
              let? recs := unpack_answers (Z.to_nat (ancount h)) buf sz off [] in
              if (length recs =? 0)%nat then Some corrupt
              else Some (mkUnpack (Z.of_nat (length recs)) (Some (set_parts h [q] recs)) 0)
        end
  end.

(** [rfc1035QueryCompare]: true when the queries are equal. *)
Fixpoint trim_dots (name : bytes) (l : nat) : nat :=
  match l with
  | O => O
  | S k => if nth k name 0 =? 46 then trim_dots name k else l
  end.

(** The C string at the start of a name buffer. *)
Definition c_string (name : bytes) : bytes := take (span (fun c => negb (c =? 0)) name) name.

Definition rfc1035QueryCompare (a b : rfc1035_query) : bool :=
  if negb (q_qtype a =? q_qtype b) then false
  else if negb (q_qclass a =? q_qclass b) then false
  else
    let na := c_string (q_name a) in
    let nb := c_string (q_name b) in
    let la := length na in
    let lb := length nb in
    let '(la, lb) := if (la =? lb)%nat then (la, lb) else (trim_dots na la, trim_dots nb lb) in
    if negb (la =? lb)%nat then false
    else strncaseeq na nb la.

(** ** Reads inside the memory *)

Lemma get8_in buf off :
  Forall is_byte buf -> 0 <= off < Z.of_nat (length buf) -> exists c, get8 buf off = Some c /\ is_byte c.
Proof.
  intros Hb Ho. unfold get8. destruct (Z.leb_spec 0 off); [|lia].
  destruct (lookup_lt_is_Some_2 buf (Z.to_nat off)) as [c Hc]; [lia|].
  exists c. split; [done|]. by eapply Forall_lookup_1.
Qed.

Lemma get16_in buf off :
  Forall is_byte buf -> 0 <= off -> off + 1 < Z.of_nat (length buf) ->
  exists s, get16 buf off = Some s /\ 0 <= s < 65536.
Proof.
  intros Hb H0 Ho. unfold get16. destruct (Z.leb_spec 0 off); [|lia].
  destruct (lookup_lt_is_Some_2 buf (Z.to_nat off)) as [a Ha]; [lia|].
  destruct (lookup_lt_is_Some_2 buf (Z.to_nat (off + 1))) as [b Hc]; [lia|].
  rewrite Ha, Hc. exists (256 * a + b). split; [done|].
  apply (Forall_lookup_1 _ _ _ _ Hb) in Ha. apply (Forall_lookup_1 _ _ _ _ Hb) in Hc.
  unfold is_byte in *. lia.
Qed.

Lemma get32_in buf off :
  Forall is_byte buf -> 0 <= off -> off + 3 < Z.of_nat (length buf) ->
  exists s, get32 buf off = Some s /\ 0 <= s < 2 ^ 32.
Proof.
  intros Hb H0 Ho. unfold get32.
  destruct (get16_in buf off Hb) as (a & -> & ?); [lia..|].
  destruct (get16_in buf (off + 2) Hb) as (b & -> & ?); [lia..|].
  eexists. split; [done|]. lia.
Qed.

Lemma get_bytes_in buf off n :
  0 <= off -> 0 <= n -> off + n <= Z.of_nat (length buf) ->
  exists l, get_bytes buf off n = Some l /\ Z.of_nat (length l) = n.
Proof.
  intros H0 H1 H2. unfold get_bytes.
  destruct (Z.leb_spec 0 off); [|lia]. destruct (Z.leb_spec 0 n); [|lia].
  destruct (Z.leb_spec (off + n) (Z.of_nat (length buf))); [|lia]. cbn.
  eexists. split; [done|]. rewrite length_take, length_drop. lia.
Qed.

(** ** Names *)

(** What a successful unpacking promises its caller: progress inside the
    message, a text that fits [name[ns]] with its NUL, and a count for
    [*rdlength] that covers the text. *)
Definition name_ok (sz ns off : Z) (r : name_result) : Prop :=
  match r with
  | NameError => True
  | Name off' rdl name =>
      off < off' <= sz /\ Z.of_nat (length name) < ns /\ Z.of_nat (length name) <= rdl <= ns
  end.

Section names.
Context (buf : bytes) (sz : Z).
Context (Hbytes : Forall is_byte buf) (Hroom : sz < Z.of_nat (length buf)).

Lemma name_loop_ok fuel rec ns rdepth off rdl acc :
  0 <= off -> Z.max 0 (sz - off) < Z.of_nat fuel -> rdl = Z.of_nat (length acc) -> Z.of_nat (length acc) < ns ->
  (rdepth <= 64 -> forall ptr ns', 0 <= ptr < sz -> 0 < ns' -> exists r, rec ptr ns' = Some r /\ name_ok sz ns' ptr r) ->
  exists r, name_loop fuel rec buf sz ns rdepth off rdl acc = Some r /\ name_ok sz ns off r.
Proof.
  revert off rdl acc. induction fuel as [|fuel IH]; intros off rdl acc Ho Hf Hrdl Hns Hrec.
  { lia. }
  cbn [name_loop]. destruct (Z.leb_spec sz off); [by exists NameError|].
  destruct (get8_in buf off Hbytes) as (c & -> & Hc); [lia|]. unfold is_byte in Hc. bind_simpl.
  destruct (Z.ltb_spec 191 c).
  { destruct (Z.ltb_spec 64 rdepth); [by exists NameError|].
    destruct (get16_in buf off Hbytes) as (s & -> & Hs); [lia..|]. bind_simpl.
    destruct (Z.ltb_spec sz (off + 2)); [by exists NameError|].
    destruct (Z.leb_spec sz (Z.land s 16383)); [by exists NameError|].
    assert (0 <= Z.land s 16383) by (apply Z.land_nonneg; lia).
    destruct (Hrec ltac:(lia) (Z.land s 16383) (ns - Z.of_nat (length acc))) as (r & -> & Hr); [lia..|].
    bind_simpl. destruct r as [|o rdl' name]; [by exists NameError|].
    eexists; split; [done|]. cbn in *. rewrite length_app. lia. }
  destruct (Z.ltb_spec RFC1035_MAXLABELSZ c); [by exists NameError|].
  destruct (Z.eqb_spec c 0).
  { eexists; split; [done|]. unfold name_text. cbn. rewrite length_take. lia. }
  destruct (Z.ltb_spec (ns - Z.of_nat (length acc) - 1) c); [by exists NameError|].
  destruct (Z.leb_spec sz (off + 1 + c)); [by exists NameError|].
  destruct (get_bytes_in buf (off + 1) c) as (l & -> & Hl); [lia..|]. bind_simpl.
  assert (HL : Z.of_nat (length (acc ++ l ++ [46])) = Z.of_nat (length acc) + c + 1)
    by (rewrite !length_app; cbn; lia).
  destruct (Z.ltb_spec (Z.of_nat (length (acc ++ l ++ [46]))) ns).
  - destruct (IH (off + 1 + c) (rdl + c + 1) (acc ++ l ++ [46])) as (r & -> & Hr); [lia..|done|].
    eexists; split; [done|]. destruct r; cbn in *; [done|]. lia.
  - destruct (Z.leb_spec (Z.of_nat (length (acc ++ l ++ [46]))) ns); [|lia].
    eexists; split; [done|]. unfold name_text. cbn. rewrite length_take. lia.
Qed.

Lemma rfc1035NameUnpack_ok depth ns rdepth off :
  0 <= off -> 0 < ns -> 65 - rdepth < Z.of_nat depth -> 0 <= rdepth <= 65 ->
  exists r, rfc1035NameUnpack depth buf sz ns rdepth off = Some r /\ name_ok sz ns off r.
Proof.
  revert ns rdepth off. induction depth as [|depth IH]; intros ns rdepth off Ho Hn Hd Hr; [lia|].
  cbn [rfc1035NameUnpack]. destruct (Z.ltb_spec 0 ns); [|lia].
  apply name_loop_ok; [done|lia|done|done|]. intros Hdep ptr ns' Hp Hns. apply IH; lia.
Qed.

(** ** Records, queries and messages *)

(** A record as its consumers rely on it. *)
Definition rr_ok (rr : rfc1035_rr) : Prop :=
  Z.of_nat (length (rr_name rr)) < RFC1035_MAXHOSTNAMESZ /\
  Z.of_nat (length (rr_rdata rr)) <= rr_rdlength rr < 65536 /\
  (rr_type rr <> RFC1035_TYPE_PTR -> Z.of_nat (length (rr_rdata rr)) = rr_rdlength rr) /\
  0 <= rr_type rr < 65536 /\ 0 <= rr_class rr < 65536 /\ 0 <= rr_ttl rr < 2 ^ 32.

Lemma name_unpack_top off :
  0 <= off -> exists r, rfc1035NameUnpack name_depth buf sz RFC1035_MAXHOSTNAMESZ 0 off = Some r /\
    name_ok sz RFC1035_MAXHOSTNAMESZ off r.
Proof. intros. apply rfc1035NameUnpack_ok; [done|done|unfold name_depth; lia|lia]. Qed.

Lemma rfc1035RRUnpack_ok off :
  0 <= off ->
  exists r, rfc1035RRUnpack buf sz off = Some r /\
    match r with None => True | Some (rr, off') => rr_ok rr /\ off + 10 < off' <= sz end.
Proof.
  intros Ho. unfold rfc1035RRUnpack.
  destruct (name_unpack_top off Ho) as ([|o rdl name] & -> & Hn); bind_simpl; [by exists None|].
  cbn [name_ok] in Hn. destruct (Z.ltb_spec sz (o + 10)); [by exists None|].
  destruct (get16_in buf o Hbytes) as (ty & -> & ?); [lia..|].
  destruct (get16_in buf (o + 2) Hbytes) as (cl & -> & ?); [lia..|].
  destruct (get32_in buf (o + 4) Hbytes) as (ttl & -> & ?); [lia..|].
  destruct (get16_in buf (o + 8) Hbytes) as (n & -> & ?); [lia..|]. bind_simpl.
  destruct (Z.ltb_spec sz (o + 10 + n)); [by exists None|].
  destruct (Z.leb_spec (o + 10 + n) sz) as [Hle|]; [|lia].
  destruct (Z.eqb_spec ty RFC1035_TYPE_PTR).
  - destruct (name_unpack_top (o + 10)) as ([|ro rrdl text] & -> & Hp); [lia|..]; bind_simpl; [by exists None|].
    cbn [name_ok] in Hp. unfold RFC1035_MAXHOSTNAMESZ in *.
    destruct (Z.ltb_spec (o + 10 + n) ro); [by exists None|].
    eexists; split; [done|]. cbn. unfold rr_ok, RFC1035_MAXHOSTNAMESZ. cbn. rewrite wrap_u_small by lia. lia.
  - destruct (get_bytes_in buf (o + 10) n) as (l & -> & ?); [lia..|]. bind_simpl.
    eexists; split; [done|]. cbn. unfold rr_ok, RFC1035_MAXHOSTNAMESZ in *. cbn. lia.
Qed.

Lemma rfc1035QueryUnpack_ok off :
  0 <= off ->
  exists r, rfc1035QueryUnpack buf sz off = Some r /\
    match r with
    | None => True
    | Some (q, off') => Z.of_nat (length (q_name q)) < RFC1035_MAXHOSTNAMESZ /\ off + 4 < off' <= sz
    end.
Proof.
  intros Ho. unfold rfc1035QueryUnpack.
  destruct (name_unpack_top off Ho) as ([|o rdl name] & -> & Hn); bind_simpl; [by exists None|].
  cbn [name_ok] in Hn. destruct (Z.ltb_spec sz (o + 4)); [by exists None|].
  destruct (get16_in buf o Hbytes) as (ty & -> & ?); [lia..|].
  destruct (get16_in buf (o + 2) Hbytes) as (cl & -> & ?); [lia..|].
  eexists; split; [done|]. cbn. lia.
Qed.

Lemma unpack_answers_ok n off recs :
  0 <= off -> Forall rr_ok recs ->
  exists recs', unpack_answers n buf sz off recs = Some recs' /\ Forall rr_ok recs' /\
    (length recs' <= length recs + n)%nat.
Proof.
  revert off recs. induction n as [|n IH]; intros off recs Ho Hr; cbn [unpack_answers]; [exists recs; split_and!; [done..|lia]|].
  destruct (Z.leb_spec sz off); [exists recs; split_and!; [done..|lia]|].
  destruct (rfc1035RRUnpack_ok off Ho) as ([[rr o]|] & -> & Hok); bind_simpl;
    [|exists recs; split_and!; [done..|lia]].
  destruct Hok as [Hok ?].
  destruct (IH o (recs ++ [rr])) as (recs' & ? & ? & Hl); [lia|by apply Forall_app_2; [|apply Forall_singleton]|].
  rewrite length_app in Hl. cbn in Hl. exists recs'. split_and!; [done..|lia].
Qed.

(** The contract of [rfc1035MessageUnpack]: a positive result counts the
    records of the message, 0 is an answer without records, a negative result
    is minus [rfc1035_errno]. *)
Definition unpack_ok (u : unpack_result) : Prop :=
  match msg u with
  | None => u = corrupt
  | Some m =>
      (exists q, query m = [q] /\ Z.of_nat (length (q_name q)) < RFC1035_MAXHOSTNAMESZ) /\
      Forall rr_ok (answer m) /\
      (if rcode m =? 0 then
         ret u = Z.of_nat (length (answer m)) /\ ret u <= ancount m /\ rfc1035_errno u = 0 /\ (0 < ancount m -> 0 < ret u)
       else ret u = - rcode m /\ rfc1035_errno u = rcode m /\ ret u < 0 /\ answer m = [])
  end.

Lemma header_unpack_ok :
  exists r, rfc1035HeaderUnpack buf sz = Some r /\
    match r with
    | None => sz < 12
    | Some (h, off) => off = 12 /\ 0 <= ancount h < 65536 /\ 0 <= rcode h < 16 /\ 12 <= sz
    end.
Proof.
  unfold rfc1035HeaderUnpack. destruct (Z.ltb_spec sz 12); [by exists None|].
  destruct (get16_in buf 0 Hbytes) as (a & -> & ?); [lia..|].
  destruct (get16_in buf 2 Hbytes) as (t & -> & ?); [lia..|].
  destruct (get16_in buf 4 Hbytes) as (b & -> & ?); [lia..|].
  destruct (get16_in buf 6 Hbytes) as (c & -> & ?); [lia..|].
  destruct (get16_in buf 8 Hbytes) as (d & -> & ?); [lia..|].
  destruct (get16_in buf 10 Hbytes) as (e & -> & ?); [lia..|].
  eexists; split; [done|]. cbn [mbind option_bind ancount rcode]. change 15 with (Z.ones 4).
  rewrite Z.land_ones by lia. pose proof (Z.mod_pos_bound t (2 ^ 4)). lia.
Qed.

Lemma rfc1035MessageUnpack_ok : exists u, rfc1035MessageUnpack buf sz = Some u /\ unpack_ok u.
Proof.
  unfold rfc1035MessageUnpack.
  destruct header_unpack_ok as ([[h off]|] & -> & Hh); bind_simpl; [|by exists corrupt].
  destruct Hh as (-> & Ha & Hrc & _). destruct (negb (qdcount h =? 1)); [by exists corrupt|].
  destruct (rfc1035QueryUnpack_ok 12) as ([[q o]|] & -> & Hq); [lia|..]; bind_simpl; [|by exists corrupt].
  destruct (Z.eqb_spec (rcode h) 0) as [Hz|Hz]; cbn [negb].
  2: { eexists; split; [done|]. unfold unpack_ok. cbn. destruct (Z.eqb_spec (rcode h) 0); [done|].
       split_and!; first [lia|done|exists q; split; [done|lia]]. }
  destruct (Z.eqb_spec (ancount h) 0).
  { eexists; split; [done|]. unfold unpack_ok. cbn. rewrite Hz. cbn. split_and!; first [lia|done|exists q; split; [done|lia]]. }
  destruct (unpack_answers_ok (Z.to_nat (ancount h)) o []) as (recs & -> & Hr & Hl); [lia|done|]. bind_simpl.
  destruct (Nat.eqb_spec (length recs) 0); [by exists corrupt|].
  eexists; split; [done|]. unfold unpack_ok. cbn in *. rewrite Hz. cbn. split_and!; first [lia|done|exists q; split; [done|lia]].
Qed.
End names.

(** ** Reads at a known place *)

Lemma get8_app pre c post : get8 (pre ++ c :: post) (Z.of_nat (length pre)) = Some c.
Proof.
  unfold get8. destruct (Z.leb_spec 0 (Z.of_nat (length pre))); [|lia].
  rewrite Nat2Z.id. by apply list_lookup_middle.
Qed.

Lemma get16_app pre v post :
  0 <= v < 65536 -> get16 (pre ++ put16 v ++ post) (Z.of_nat (length pre)) = Some v.
Proof.
  intros Hv. unfold get16, put16. destruct (Z.leb_spec 0 (Z.of_nat (length pre))); [|lia].
  rewrite Nat2Z.id. rewrite Z2Nat.inj_add, Nat2Z.id by lia.
  rewrite !(lookup_app_r pre) by lia. rewrite Nat.sub_diag.
  replace (length pre + Z.to_nat 1 - length pre)%nat with 1%nat by lia. cbn.
  f_equal. rewrite (Z.mod_small (v / 256)) by (split; [apply Z.div_pos; lia|apply Z.div_lt_upper_bound; lia]).
  pose proof (Z.div_mod v 256). lia.
Qed.

Lemma get16_at pre v post off :
  0 <= v < 65536 -> off = Z.of_nat (length pre) -> get16 (pre ++ put16 v ++ post) off = Some v.
Proof. intros ? ->. by apply get16_app. Qed.

Lemma get_bytes_app pre l post :
  get_bytes (pre ++ l ++ post) (Z.of_nat (length pre)) (Z.of_nat (length l)) = Some l.
Proof.
  unfold get_bytes. destruct (Z.leb_spec 0 (Z.of_nat (length pre))); [|lia].
  destruct (Z.leb_spec 0 (Z.of_nat (length l))); [|lia]. rewrite !length_app.
  destruct (Z.leb_spec (Z.of_nat (length pre) + Z.of_nat (length l)) (Z.of_nat (length pre + (length l + length post)))); [|lia].
  cbn. rewrite !Nat2Z.id, drop_app_length, take_app_length. done.
Qed.

(** ** The header *)

(** The widths of the fields. *)
Definition header_ok (h : rfc1035_message) : Prop :=
  (0 <= id h < 65536 /\ 0 <= qr h < 2 /\ 0 <= opcode h < 16 /\ 0 <= aa h < 2 /\ 0 <= tc h < 2 /\ 0 <= rd h < 2 /\
   0 <= ra h < 2 /\ 0 <= rcode h < 16) /\
  0 <= qdcount h < 65536 /\ 0 <= ancount h < 65536 /\ 0 <= nscount h < 65536 /\ 0 <= arcount h < 65536.

(** Bit [i] of a field of [w] bits placed at bit [k]. *)
Lemma testbit_field x k w i :
  0 <= x < 2 ^ w -> 0 <= w -> 0 <= k -> 0 <= i ->
  Z.testbit (Z.shiftl x k) i = (k <=? i) && (i <? k + w) && Z.testbit x (i - k).
Proof.
  intros Hx Hw Hk Hi. rewrite Z.shiftl_spec by lia.
  destruct (Z.leb_spec k i); cbn; [|by rewrite Z.testbit_neg_r by lia].
  destruct (Z.ltb_spec i (k + w)); cbn; [done|].
  rewrite <- (Z.mod_small x (2 ^ w)) by lia. by rewrite Z.mod_pow2_bits_high by lia.
Qed.

(** A field read back from the flags word. *)
Lemma field_back t x k w :
  0 <= x < 2 ^ w -> 0 <= w -> 0 <= k ->
  (forall i, 0 <= i < w -> Z.testbit t (i + k) = Z.testbit x i) ->
  Z.land (Z.shiftr t k) (Z.ones w) = x.
Proof.
  intros Hx Hw Hk Ht. rewrite Z.land_ones by lia. apply Z.bits_inj'. intros i Hi.
  destruct (Z.ltb_spec i w).
  - rewrite Z.mod_pow2_bits_low, Z.shiftr_spec by lia. by apply Ht.
  - rewrite Z.mod_pow2_bits_high by lia. rewrite <- (Z.mod_small x (2 ^ w)) by lia. by rewrite Z.mod_pow2_bits_high by lia.
Qed.

(** Bit [i] of the packed flags. *)
Lemma flags_bit h i :
  header_ok h -> 0 <= i < 16 ->
  Z.testbit (wrap_u 16 (header_flags h)) i =
    ((15 <=? i) && (i <? 16) && Z.testbit (qr h) (i - 15)) || ((11 <=? i) && (i <? 15) && Z.testbit (opcode h) (i - 11)) ||
    ((10 <=? i) && (i <? 11) && Z.testbit (aa h) (i - 10)) || ((9 <=? i) && (i <? 10) && Z.testbit (tc h) (i - 9)) ||
    ((8 <=? i) && (i <? 9) && Z.testbit (rd h) (i - 8)) || ((7 <=? i) && (i <? 8) && Z.testbit (ra h) (i - 7)) ||
    ((0 <=? i) && (i <? 4) && Z.testbit (rcode h) (i - 0)).
Proof.
  intros [(? & ? & ? & ? & ? & ? & ? & ?) _] Hi. unfold wrap_u. rewrite Z.mod_pow2_bits_low by lia. unfold header_flags.
  rewrite !Z.lor_spec. rewrite <- (Z.shiftl_0_r (rcode h)) at 1.
  rewrite (testbit_field (qr h) 15 1), (testbit_field (opcode h) 11 4), (testbit_field (aa h) 10 1),
    (testbit_field (tc h) 9 1), (testbit_field (rd h) 8 1), (testbit_field (ra h) 7 1),
    (testbit_field (rcode h) 0 4) by lia. done.
Qed.

Ltac flag_field h Hok k w :=
  apply (field_back _ _ k w); [unfold header_ok in Hok; lia|lia|lia|];
  let i := fresh in intros i ?; rewrite flags_bit by (done || lia);
  repeat match goal with
  | |- context [?a <=? ?b] => destruct (Z.leb_spec a b); try lia
  | |- context [?a <? ?b] => destruct (Z.ltb_spec a b); try lia
  end; cbn [andb orb]; rewrite ?orb_false_r; f_equal; lia.

(** A word of a sequence of words. *)
Lemma get16_words ws rest k off v :
  off = 2 * Z.of_nat k -> ws !! k = Some v -> 0 <= v < 65536 -> get16 (concat (map put16 ws) ++ rest) off = Some v.
Proof.
  intros -> Hk Hv. apply list_elem_of_split_length in Hk as (pre & post & -> & ->).
  rewrite map_app, concat_app. cbn [map concat]. rewrite <- !app_assoc. apply get16_at; [done|].
  induction pre as [|x pre IH]; [done|]. cbn [map concat]. rewrite length_app. cbn [length put16]. lia.
Qed.

Lemma header_unpack_pack h rest sz p :
  header_ok h -> 12 <= sz -> rfc1035HeaderPack sz h = Some p ->
  length p = 12%nat /\
  rfc1035HeaderUnpack (p ++ rest) sz = Some (Some (set_parts h [] [], 12)).
Proof.
  intros Hok Hsz Hp. unfold rfc1035HeaderPack in Hp. destruct (12 <=? sz); [|done]. injection Hp as <-. split; [done|].
  assert (Hw := wrap_u_range 16 (header_flags h)). pose proof Hok as [(? & ? & ? & ? & ? & ? & ? & ?) (? & ? & ? & ?)].
  unfold rfc1035HeaderUnpack. destruct (Z.ltb_spec sz 12); [lia|].
  set (ws := [id h; wrap_u 16 (header_flags h); qdcount h; ancount h; nscount h; arcount h]).
  match goal with |- context [get16 (?q ++ rest) 0] => replace q with (concat (map put16 ws)) by (cbn; by rewrite ?app_nil_r) end.
  rewrite (get16_words ws rest 0 0 (id h)), (get16_words ws rest 1 2 (wrap_u 16 (header_flags h))),
    (get16_words ws rest 2 4 (qdcount h)), (get16_words ws rest 3 6 (ancount h)),
    (get16_words ws rest 4 8 (nscount h)), (get16_words ws rest 5 10 (arcount h)) by (done || lia).
  bind_simpl. unfold set_parts. do 4 f_equal.
  - flag_field h Hok 15 1.
  - flag_field h Hok 11 4.
  - flag_field h Hok 10 1.
  - flag_field h Hok 9 1.
  - flag_field h Hok 8 1.
  - flag_field h Hok 7 1.
  - rewrite <- (Z.shiftr_0_r (wrap_u 16 (header_flags h))) at 1. flag_field h Hok 0 4.
Qed.

(** ** Names there and back *)

(** Labels of a host name, its textual form and its encoding. *)
Definition label_ok (l : bytes) : Prop :=
  Forall (fun c => 0 < c < 256 /\ c <> 46) l /\ 0 < Z.of_nat (length l) <= RFC1035_MAXLABELSZ.

Definition dotted (labels : list bytes) : bytes := concat (map (fun l => l ++ [46]) labels).
Definition encoded (labels : list bytes) : bytes := concat (map (fun l => Z.of_nat (length l) :: l) labels).

Lemma length_encoded labels : length (encoded labels) = length (dotted labels).
Proof.
  induction labels as [|l labels IH]; [done|]. unfold encoded, dotted in *. cbn [map concat].
  rewrite !length_app. cbn. rewrite IH. lia.
Qed.

Lemma dotted_snoc pre l : dotted (pre ++ [l]) = dotted pre ++ l ++ [46].
Proof. unfold dotted. rewrite map_app, concat_app. cbn. by rewrite app_nil_r. Qed.

(** [strtok] finds the labels, whatever the number of dots at the end. *)
Lemma strtok_run cur l rest :
  Forall (fun c => 0 < c < 256 /\ c <> 46) l -> strtok_dots cur (l ++ rest) = strtok_dots (cur ++ l) rest.
Proof.
  intros Hl. revert cur. induction Hl as [|c l Hc Hl IH]; intros cur; [by rewrite app_nil_r|].
  cbn [app strtok_dots]. destruct (Z.eqb_spec c 46); [lia|]. rewrite IH. by rewrite <- app_assoc.
Qed.

Lemma strtok_only_dots k : strtok_dots [] (replicate k 46) = [].
Proof. induction k as [|k IH]; [done|]. cbn. apply IH. Qed.

Lemma strtok_dotted labels k :
  Forall label_ok labels -> strtok_dots [] (dotted labels ++ replicate k 46) = labels.
Proof.
  induction 1 as [|l labels [Hl Hn] Hls IH]; [apply strtok_only_dots|].
  unfold dotted. cbn [map concat]. rewrite <- !app_assoc. rewrite strtok_run by done. cbn.
  destruct l; [cbn in Hn; lia|]. cbn. f_equal. apply IH.
Qed.

(** A host name: its labels separated by dots, with [k] dots at the end. *)
Definition hostname_of (labels : list bytes) (k : nat) : bytes := name_text (dotted labels) ++ replicate k 46.

Lemma strtok_hostname labels k :
  Forall label_ok labels -> labels <> [] -> strtok_dots [] (hostname_of labels k) = labels.
Proof.
  intros Hl Hne. destruct labels as [|l labels _] using rev_ind; [done|].
  apply Forall_app in Hl as [Hp Hl]. destruct (Forall_inv Hl) as [Hc Hn]. clear Hl. rename Hc into Hl.
  unfold hostname_of, name_text. rewrite dotted_snoc. rewrite (app_assoc (dotted labels)).
  rewrite length_app. cbn [length]. rewrite Nat.add_sub, take_app_length, <- app_assoc.
  clear Hne. induction Hp as [|x labels [Hx Hxn] Hp IH].
  - cbn. rewrite strtok_run by done. cbn. destruct k as [|k]; cbn; destruct l; cbn in *; try lia; [done|].
    f_equal. apply strtok_only_dots.
  - unfold dotted. cbn [map concat]. rewrite <- !app_assoc, strtok_run by done. cbn.
    destruct x; [cbn in Hxn; lia|]. cbn. f_equal. apply IH.
Qed.

Lemma label_pack_ok sz l :
  label_ok l -> Z.of_nat (length l) + 1 <= sz -> rfc1035LabelPack sz (Some l) = Some (Z.of_nat (length l) :: l).
Proof.
  intros [Hc Hl] Hs. unfold rfc1035LabelPack, RFC1035_MAXLABELSZ in *. cbn [default from_option Datatypes.id].
  assert (existsb (Z.eqb 46) l = false) as ->.
  { apply not_true_iff_false. intros (x & Hx & Heq)%existsb_exists. apply list_elem_of_In in Hx.
    rewrite List.Forall_forall in Hc. apply list_elem_of_In in Hx. apply Hc in Hx. lia. }
  cbn [negb]. rewrite Z.min_l by lia. destruct (Z.leb_spec (Z.of_nat (length l) + 1) sz); [|lia].
  by rewrite Nat2Z.id, take_ge by lia.
Qed.

Lemma pack_labels_ok sz out labels :
  Forall label_ok labels -> Z.of_nat (length out + length (dotted labels)) <= sz ->
  pack_labels sz out labels = Some (out ++ encoded labels).
Proof.
  intros Hl. revert out. induction Hl as [|l labels Hok Hl IH]; intros out Hs; [by rewrite app_nil_r|].
  unfold dotted in Hs. cbn [map concat] in Hs. fold (dotted labels) in Hs. rewrite !length_app in Hs. cbn in Hs.
  cbn [pack_labels]. rewrite label_pack_ok by (done || lia). bind_simpl.
  rewrite IH by (rewrite length_app; cbn; lia). unfold encoded. cbn [map concat]. by rewrite <- app_assoc.
Qed.

Lemma name_pack_ok sz labels k :
  Forall label_ok labels -> labels <> [] -> Z.of_nat (length (dotted labels)) + 1 <= sz ->
  rfc1035NamePack sz (hostname_of labels k) = Some (encoded labels ++ [0]).
Proof.
  intros Hl Hne Hs. unfold rfc1035NamePack. rewrite strtok_hostname by done.
  rewrite pack_labels_ok by (done || cbn; lia). cbn [mbind option_bind app].
  unfold rfc1035LabelPack. cbn [default from_option Datatypes.id existsb negb length].
  rewrite Z.min_l by (unfold RFC1035_MAXLABELSZ; lia). rewrite length_encoded.
  destruct (Z.leb_spec (Z.of_nat 0 + 1) (sz - Z.of_nat (length (dotted labels)))); [|lia]. bind_simpl.
  change (Z.of_nat 0 :: take (Z.to_nat (Z.of_nat 0)) []) with [0]. rewrite length_app, length_encoded. cbn [length].
  destruct (Z.leb_spec (Z.of_nat (length (dotted labels) + 1)) sz); [done|lia].
Qed.

(** Reading an encoded name.  The dots of the text are counted: a name whose
    dotted form fills the buffer makes the loop stop before the root label. *)
Lemma name_loop_encoded fuel rec pre labels post done_ ns rdepth sz :
  Forall label_ok labels ->
  sz <= Z.of_nat (length (pre ++ encoded labels ++ [0] ++ post)) ->
  Z.of_nat (length (pre ++ encoded labels)) < sz ->
  Z.of_nat (length (dotted done_ ++ dotted labels)) < ns -> (length labels < fuel)%nat ->
  name_loop fuel rec (pre ++ encoded labels ++ [0] ++ post) sz ns rdepth (Z.of_nat (length pre))
      (Z.of_nat (length (dotted done_))) (dotted done_)
  = Some (Name (Z.of_nat (length (pre ++ encoded labels ++ [0])))
      (Z.of_nat (length (dotted done_ ++ dotted labels))) (name_text (dotted done_ ++ dotted labels))).
Proof.
  intros Hl. revert fuel pre done_. induction Hl as [|l labels [Hc Hn] Hl IH]; intros fuel pre done_ Hs1 Hs2 Hns Hf.
  { destruct fuel as [|fuel]; [cbn in Hf; lia|]. cbn [encoded dotted map concat app name_loop] in *.
    rewrite !app_nil_r in *. rewrite !length_app in *. cbn in Hs1, Hs2.
    destruct (Z.leb_spec sz (Z.of_nat (length pre))); [lia|]. rewrite get8_app. cbn. do 2 f_equal. lia. }
  destruct fuel as [|fuel]; [cbn in Hf; lia|]. cbn [name_loop].
  assert (He : encoded (l :: labels) = Z.of_nat (length l) :: l ++ encoded labels) by done.
  assert (Hd : dotted done_ ++ dotted (l :: labels) = dotted (done_ ++ [l]) ++ dotted labels)
    by (rewrite dotted_snoc; unfold dotted; cbn [map concat]; by rewrite <- !app_assoc).
  rewrite Hd in Hns |- *. rewrite He in Hs1, Hs2 |- *.
  unfold RFC1035_MAXLABELSZ in *. rewrite !length_app in Hs1, Hs2. cbn [length] in Hs1, Hs2. rewrite !length_app in Hs1, Hs2.
  assert (HL : length (dotted (done_ ++ [l])) = (length (dotted done_) + length l + 1)%nat)
    by (rewrite dotted_snoc, !length_app; cbn; lia).
  destruct (Z.leb_spec sz (Z.of_nat (length pre))); [lia|].
  cbn [app]. rewrite get8_app. bind_simpl.
  destruct (Z.ltb_spec 191 (Z.of_nat (length l))); [lia|].
  destruct (Z.ltb_spec 63 (Z.of_nat (length l))); [lia|].
  destruct (Z.eqb_spec (Z.of_nat (length l)) 0); [lia|]. rewrite length_app in Hns.
  destruct (Z.ltb_spec (ns - Z.of_nat (length (dotted done_)) - 1) (Z.of_nat (length l))); [lia|].
  destruct (Z.leb_spec sz (Z.of_nat (length pre) + 1 + Z.of_nat (length l))); [lia|].
  replace (pre ++ Z.of_nat (length l) :: (l ++ encoded labels) ++ 0 :: post)
    with ((pre ++ [Z.of_nat (length l)]) ++ l ++ (encoded labels ++ 0 :: post))
    by (by rewrite <- !app_assoc).
  replace (Z.of_nat (length pre) + 1) with (Z.of_nat (length (pre ++ [Z.of_nat (length l)])))
    by (rewrite length_app; cbn; lia).
  rewrite get_bytes_app. bind_simpl. rewrite <- dotted_snoc.
  destruct (Z.ltb_spec (Z.of_nat (length (dotted (done_ ++ [l])))) ns); [|lia].
  specialize (IH fuel ((pre ++ [Z.of_nat (length l)]) ++ l) (done_ ++ [l])).
  etrans; [|etrans; [apply IH|]].
  - f_equal; [by rewrite <- !app_assoc|len_lia|lia].
  - cbn [length] in Hs1. rewrite !length_app in Hs1. rewrite !length_app. cbn [length] in Hs1 |- *. lia.
  - len_lia.
  - by rewrite length_app.
  - cbn in Hf. lia.
  - do 2 f_equal. rewrite !length_app. cbn [length]. len_lia.
Qed.

(** ** Comparing a reply's question with the query *)

Lemma c_string_id l : Forall (fun c => 0 < c) l -> c_string l = l.
Proof.
  intros Hl. unfold c_string. apply take_ge. rewrite <- (app_nil_r l) at 2.
  rewrite span_app; [lia|]. eapply List.Forall_impl; [|exact Hl]. cbn. intros a ?. destruct (Z.eqb_spec a 0); [lia|done].
Qed.

Lemma strncaseeq_prefix l r1 r2 : strncaseeq (l ++ r1) (l ++ r2) (length l) = true.
Proof. induction l as [|c l IH]; [done|]. cbn. by rewrite Z.eqb_refl. Qed.

Lemma trim_dots_app l r n : (n <= length l)%nat -> trim_dots (l ++ r) n = trim_dots l n.
Proof.
  induction n as [|n IH]; intros Hn; [done|]. cbn [trim_dots]. rewrite app_nth1 by lia. by rewrite IH by lia.
Qed.

Lemma trim_dots_dots l c k :
  c <> 46 -> trim_dots ((l ++ [c]) ++ replicate k 46) (length (l ++ [c]) + k) = length (l ++ [c]).
Proof.
  intros Hc. induction k as [|k IH].
  - rewrite app_nil_r, Nat.add_0_r, length_app, Nat.add_comm. cbn [length Nat.add trim_dots].
    rewrite nth_middle. by destruct (Z.eqb_spec c 46).
  - rewrite Nat.add_succ_r. cbn [trim_dots]. rewrite app_nth2 by lia. rewrite Nat.add_comm, Nat.add_sub, Nat.add_comm.
    replace (nth k (replicate (S k) 46) 0) with 46
      by (symmetry; apply (nth_lookup_Some _ _ 0); apply lookup_replicate; lia).
    rewrite Z.eqb_refl, replicate_S_end, app_assoc.
    rewrite trim_dots_app by (rewrite (length_app (l ++ [c])), length_replicate; lia). apply IH.
Qed.

(** The text of labels ends in a byte that is not a dot. *)
Lemma name_text_dotted labels :
  Forall label_ok labels -> labels <> [] ->
  exists l c, name_text (dotted labels) = l ++ [c] /\ c <> 46 /\ Forall (fun c => 0 < c) (name_text (dotted labels)).
Proof.
  intros Hl Hne. destruct labels as [|l labels _] using rev_ind; [done|].
  apply Forall_app in Hl as [Hp Hl]. destruct (Forall_inv Hl) as [Hc Hn].
  unfold name_text. rewrite dotted_snoc, app_assoc, length_app. cbn [length]. rewrite Nat.add_sub, take_app_length.
  destruct l as [|c l _] using rev_ind; [cbn in Hn; lia|]. exists (dotted labels ++ l), c.
  apply Forall_app in Hc as [Hc1 Hc2]. pose proof (Forall_inv Hc2) as Hc3. cbn in Hc3.
  split_and!; [by rewrite app_assoc|lia|]. apply Forall_app_2; [|apply Forall_app_2].
  - clear -Hp. induction Hp as [|x labels [Hx _] Hp IH]; [constructor|]. unfold dotted. cbn [map concat].
    rewrite <- app_assoc. apply Forall_app_2; [|constructor; [lia|apply IH]].
    eapply List.Forall_impl; [|exact Hx]. cbn. lia.
  - eapply List.Forall_impl; [|exact Hc1]. cbn. lia.
  - constructor; [lia|constructor].
Qed.

Lemma query_compare_hostname labels k ty cl :
  Forall label_ok labels -> labels <> [] ->
  rfc1035QueryCompare (mkQuery (hostname_of labels k) ty cl) (mkQuery (name_text (dotted labels)) ty cl) = true.
Proof.
  intros Hl Hne. destruct (name_text_dotted labels Hl Hne) as (l & c & He & Hc & Hpos).
  unfold rfc1035QueryCompare, hostname_of. cbn [q_name q_qtype q_qclass]. rewrite !Z.eqb_refl. cbn [negb].
  rewrite !c_string_id; [|done|apply Forall_app_2; [done|apply Forall_replicate; lia]].
  rewrite He. rewrite (length_app _ (replicate k 46)), length_replicate.
  destruct (Nat.eqb_spec (length (l ++ [c]) + k) (length (l ++ [c]))) as [Hk|Hk].
  - assert (k = 0%nat) as -> by lia. rewrite Nat.add_0_r, Nat.eqb_refl. cbn [negb].
    rewrite <- (app_nil_r (l ++ [c])) at 2. apply strncaseeq_prefix.
  - rewrite trim_dots_dots by done.
    pose proof (trim_dots_dots l c 0 Hc) as H0. cbn [replicate] in H0. rewrite app_nil_r, Nat.add_0_r in H0. rewrite H0.
    rewrite Nat.eqb_refl. cbn [negb]. rewrite <- (app_nil_r (l ++ [c])) at 2. apply strncaseeq_prefix.
Qed.

(** ** A query there and back *)

Lemma length_labels_dotted labels : (length labels <= length (dotted labels))%nat.
Proof. induction labels as [|l labels IH]; [done|]. unfold dotted in *. cbn [map concat]. rewrite !length_app. cbn. lia. Qed.

Lemma query_unpack_encoded pre labels post ty cl :
  Forall label_ok labels -> Z.of_nat (length (dotted labels)) < RFC1035_MAXHOSTNAMESZ ->
  0 <= ty < 65536 -> 0 <= cl < 65536 ->
  rfc1035QueryUnpack (pre ++ encoded labels ++ [0] ++ put16 ty ++ put16 cl ++ post)
    (Z.of_nat (length (pre ++ encoded labels ++ [0]) + 4)) (Z.of_nat (length pre)) =
  Some (Some (mkQuery (name_text (dotted labels)) ty cl, Z.of_nat (length (pre ++ encoded labels ++ [0]) + 4))).
Proof.
  intros Hl Hd Hty Hcl. unfold rfc1035QueryUnpack, name_depth. cbn [rfc1035NameUnpack].
  destruct (Z.ltb_spec 0 RFC1035_MAXHOSTNAMESZ); [|done].
  pose proof (length_labels_dotted labels). pose proof (length_encoded labels).
  erewrite (name_loop_encoded _ _ pre labels (put16 ty ++ put16 cl ++ post) []); [|done|..];
    try (rewrite !length_app; cbn [length app dotted map concat put16]; rewrite ?length_app; cbn [length]; lia).
  cbn [mbind option_bind dotted map concat app]. rewrite Nat2Z.inj_add. change (Z.of_nat 4) with 4.
  destruct (Z.ltb_spec (Z.of_nat (length (pre ++ encoded labels ++ [0])) + 4) (Z.of_nat (length (pre ++ encoded labels ++ [0])) + 4)); [lia|].
  change (0 :: put16 ty ++ put16 cl ++ post) with ([0] ++ put16 ty ++ put16 cl ++ post).
  replace (pre ++ encoded labels ++ [0] ++ put16 ty ++ put16 cl ++ post)
    with ((pre ++ encoded labels ++ [0]) ++ put16 ty ++ put16 cl ++ post) by (by rewrite <- !app_assoc).
  rewrite get16_app by done. bind_simpl.
  rewrite (app_assoc _ (put16 ty)).
  rewrite get16_at by (done || rewrite (length_app _ (put16 ty)), Nat2Z.inj_add; cbn; lia). done.
Qed.

Lemma build_query_ok labels k ty qid sz :
  Forall label_ok labels -> labels <> [] -> Z.of_nat (length (dotted labels)) < RFC1035_MAXHOSTNAMESZ ->
  Z.of_nat (length (hostname_of labels k)) < RFC1035_MAXHOSTNAMESZ ->
  17 + Z.of_nat (length (dotted labels)) <= sz ->
  exists p, rfc1035HeaderPack sz (query_header qid) = Some p /\ length p = 12%nat /\
    build_query (hostname_of labels k) ty sz qid =
      Some (p ++ (encoded labels ++ [0]) ++ put16 ty ++ put16 RFC1035_CLASS_IN,
            mkQuery (hostname_of labels k) ty RFC1035_CLASS_IN).
Proof.
  intros Hl Hne Hd Hh Hsz. unfold RFC1035_MAXHOSTNAMESZ in *. unfold build_query, rfc1035QuestionPack.
  destruct (rfc1035HeaderPack sz (query_header qid)) as [p|] eqn:Hp.
  2: { unfold rfc1035HeaderPack in Hp. destruct (Z.leb_spec 12 sz); [done|lia]. }
  assert (length p = 12%nat) as Hlen.
  { unfold rfc1035HeaderPack in Hp. destruct (12 <=? sz); [|done]. by injection Hp as <-. }
  exists p. split_and!; [done..|]. bind_simpl.
  rewrite name_pack_ok by (done || rewrite Hlen; lia). bind_simpl. pose proof (length_encoded labels).
  rewrite !length_app, Hlen. cbn [length put16].
  case_ifs; zify_bools; try lia. bind_simpl. rewrite !length_app, Hlen. cbn [length put16].
  case_ifs; zify_bools; try lia. unfold xstrncpy. rewrite take_ge by (unfold RFC1035_MAXHOSTNAMESZ; lia). by rewrite <- !app_assoc.
Qed.

(** [reads_back m q qid ty text]: the message [m] was built for the query [q]; read back, in whatever memory it lies,
    it is a header with that id and the one question [text] of type [ty], and the question matches [q]. *)
Definition reads_back (m : bytes) (q : rfc1035_query) (qid ty : Z) (text : bytes) : Prop :=
  forall rest, exists q',
    rfc1035MessageUnpack (m ++ rest) (Z.of_nat (length m)) =
      Some (mkUnpack 0 (Some (set_parts (query_header qid) [q'] [])) 0) /\
    q' = mkQuery text ty RFC1035_CLASS_IN /\ rfc1035QueryCompare q q' = true.

Lemma build_query_roundtrip labels k ty qid sz :
  Forall label_ok labels -> labels <> [] -> Z.of_nat (length (dotted labels)) < RFC1035_MAXHOSTNAMESZ ->
  Z.of_nat (length (hostname_of labels k)) < RFC1035_MAXHOSTNAMESZ ->
  17 + Z.of_nat (length (dotted labels)) <= sz -> 0 <= qid < 65536 -> 0 <= ty < 65536 ->
  exists m q, build_query (hostname_of labels k) ty sz qid = Some (m, q) /\
    Z.of_nat (length m) = 17 + Z.of_nat (length (dotted labels)) /\
    reads_back m q qid ty (name_text (dotted labels)).
Proof.
  intros Hl Hne Hd Hh Hsz Hid Hty.
  destruct (build_query_ok labels k ty qid sz) as (p & Hp & Hlen & ->); [done..|].
  do 2 eexists. split; [done|]. pose proof (length_encoded labels).
  assert (Hm : Z.of_nat (length (p ++ (encoded labels ++ [0]) ++ put16 ty ++ put16 RFC1035_CLASS_IN))
    = 17 + Z.of_nat (length (dotted labels))) by (rewrite !length_app, Hlen; cbn [length put16]; lia).
  split; [done|]. intros rest.
  exists (mkQuery (name_text (dotted labels)) ty RFC1035_CLASS_IN). split_and!; [|done|by apply query_compare_hostname].
  unfold rfc1035MessageUnpack. rewrite <- !app_assoc.
  assert (Hok : header_ok (query_header qid)) by (unfold header_ok; cbn; lia).
  assert (Hp' : rfc1035HeaderPack (17 + Z.of_nat (length (dotted labels))) (query_header qid) = Some p).
  { unfold rfc1035HeaderPack in *. destruct (12 <=? sz); [|done]. destruct (Z.leb_spec 12 (17 + Z.of_nat (length (dotted labels)))); [done|lia]. }
  rewrite <- !app_assoc in Hm. rewrite Hm.
  destruct (header_unpack_pack (query_header qid) (encoded labels ++ [0] ++ put16 ty ++ put16 RFC1035_CLASS_IN ++ rest)
    (17 + Z.of_nat (length (dotted labels))) p Hok ltac:(lia) Hp') as [_ ->]. cbn [mbind option_bind set_parts query_header qdcount Z.eqb Pos.eqb negb].
  pose proof (query_unpack_encoded p labels rest ty RFC1035_CLASS_IN Hl Hd Hty) as HQ.
  rewrite Hlen in HQ. change (Z.of_nat 12) with 12 in HQ.
  replace (Z.of_nat (length (p ++ encoded labels ++ [0]) + 4)) with (17 + Z.of_nat (length (dotted labels))) in HQ
    by (rewrite !length_app, Hlen; cbn [length]; lia).
  rewrite HQ by (unfold RFC1035_CLASS_IN; lia). done.
Qed.

(** The labels of the name looked up for an address. *)
Definition ptr_labels (i : Z) : list bytes :=
  [dec (Z.land i 255); dec (Z.land (Z.shiftr i 8) 255); dec (Z.land (Z.shiftr i 16) 255);
   dec (Z.land (Z.shiftr i 24) 255); str "in-addr"; str "arpa"].

Definition label_okb (l : bytes) : bool :=
  forallb (fun c => (0 <? c) && (c <? 256) && negb (c =? 46)) l && (0 <? Z.of_nat (length l)) && (Z.of_nat (length l) <=? 63).

Lemma label_okb_ok l : label_okb l = true -> label_ok l.
Proof.
  unfold label_okb, label_ok, RFC1035_MAXLABELSZ. rewrite !andb_true_iff, forallb_forall. intros [[H1 H2] H3].
  split; [|lia]. apply List.Forall_forall. intros x Hx. apply H1 in Hx. rewrite !andb_true_iff in Hx.
  destruct (Z.eqb_spec x 46); cbn in Hx; lia.
Qed.

(** An octet in decimal is a label of at most three digits. *)
Lemma dec_octet i : label_ok (dec (Z.land i 255)) /\ (length (dec (Z.land i 255)) <= 3)%nat.
Proof.
  change 255 with (Z.ones 8). rewrite Z.land_ones by lia. pose proof (Z.mod_pos_bound i (2 ^ 8) ltac:(lia)) as Hb.
  set (b := i `mod` 2 ^ 8) in *. clearbody b.
  assert (Hall : forallb (fun n => label_okb (dec (Z.of_nat n)) && (length (dec (Z.of_nat n)) <=? 3)%nat) (seq 0 256) = true)
    by (vm_compute; reflexivity).
  rewrite forallb_forall in Hall. specialize (Hall (Z.to_nat b)). rewrite Z2Nat.id in Hall by lia.
  rewrite andb_true_iff in Hall. destruct Hall as [H1 H2]; [apply in_seq; lia|].
  split; [by apply label_okb_ok|by apply Nat.leb_le].
Qed.

Lemma ptr_name_hostname i :
  ptr_name i = hostname_of (ptr_labels i) 1 /\ Forall label_ok (ptr_labels i) /\ (length (dotted (ptr_labels i)) <= 29)%nat.
Proof.
  pose proof (dec_octet i) as [? L0]. pose proof (dec_octet (Z.shiftr i 8)) as [? L1].
  pose proof (dec_octet (Z.shiftr i 16)) as [? L2]. pose proof (dec_octet (Z.shiftr i 24)) as [? L3].
  assert (HL : (length (dotted (ptr_labels i)) <= 29)%nat).
  { unfold dotted, ptr_labels. cbn [map concat]. rewrite !length_app. cbn. lia. }
  split_and!; [|repeat (apply List.Forall_cons; [first [assumption|by apply label_okb_ok]|]); apply List.Forall_nil|done].
  assert (He : dotted (ptr_labels i) = hostname_of (ptr_labels i) 1).
  { unfold hostname_of, name_text, dotted, ptr_labels. cbn [map concat replicate].
    rewrite !app_assoc, app_nil_r. rewrite length_app. cbn [length]. by rewrite Nat.add_sub, take_app_length. }
  rewrite <- He. unfold ptr_name. rewrite take_ge.
  - unfold dotted, ptr_labels. cbn [map concat]. rewrite <- !app_assoc. done.
  - rewrite !length_app. cbn [length]. rewrite !length_app. cbn [length]. rewrite !length_app. cbn [length].
    rewrite !length_app. cbn. lia.
Qed.

(** ** Properties *)

(** C31. Whatever the bytes of a datagram are, [rfc1035MessageUnpack] returns: it reads no byte outside the datagram's
    memory as long as one spare byte follows the [sz] bytes of the message, every assertion holds, compression loops end,
    and what it returns keeps its contract: a positive result is the number of unpacked records, at most [ancount], each
    with a name that fits its buffer and [rdlength] covering [rdata]; 0 is a reply without records; a negative result is
    minus [rfc1035_errno]. *)
Theorem rfc1035MessageUnpack_safe buf sz :
  Forall is_byte buf -> sz < Z.of_nat (length buf) ->
  exists u, rfc1035MessageUnpack buf sz = Some u /\ unpack_ok u.
Proof. apply rfc1035MessageUnpack_ok. Qed.

(** A reply whose question name points at itself. *)
Definition ex_loop : bytes :=
  put16 7 ++ put16 33152 ++ put16 1 ++ put16 1 ++ put16 0 ++ put16 0 ++ [192; 12] ++ put16 1 ++ put16 1.

Lemma ex_loop_bytes : Forall is_byte (ex_loop ++ [0]).
Proof. unfold is_byte. repeat constructor; vm_compute; congruence. Qed.

Lemma rfc1035MessageUnpack_safe_witness :
  (exists u, rfc1035MessageUnpack (ex_loop ++ [0]) (Z.of_nat (length ex_loop)) = Some u /\ unpack_ok u) /\
  rfc1035MessageUnpack (ex_loop ++ [0]) (Z.of_nat (length ex_loop)) = Some corrupt.
Proof.
  split; [|vm_compute; reflexivity].
  apply (rfc1035MessageUnpack_safe (ex_loop ++ [0]) (Z.of_nat (length ex_loop)) ex_loop_bytes). cbn. lia.
Defined.

(** [rfc1035NameUnpack] returns on every input, with pointers followed to a bounded depth: an error, or an offset
    that advanced and stays inside the message and a text shorter than the caller's buffer [ns], so the terminating NUL
    fits; what it adds to [*rdlength] is at least the length of the text and at most [ns]. *)
Theorem rfc1035NameUnpack_safe buf sz ns off :
  Forall is_byte buf -> sz < Z.of_nat (length buf) -> 0 < ns -> 0 <= off ->
  exists r, rfc1035NameUnpack name_depth buf sz ns 0 off = Some r /\
    match r with
    | NameError => True
    | Name off' rdl name =>
        off < off' <= sz /\ Z.of_nat (length name) < ns /\ Z.of_nat (length name) <= rdl <= ns
    end.
Proof. intros Hb Hs Hn Ho. apply (rfc1035NameUnpack_ok buf sz); [done..|unfold name_depth; lia|lia]. Qed.

Lemma rfc1035NameUnpack_safe_witness :
  (exists r, rfc1035NameUnpack name_depth (ex_loop ++ [0]) 18 256 0 12 = Some r /\
    match r with
    | NameError => True
    | Name off' rdl name =>
        12 < off' <= 18 /\ Z.of_nat (length name) < 256 /\ Z.of_nat (length name) <= rdl <= 256
    end) /\
  rfc1035NameUnpack name_depth (ex_loop ++ [0]) 18 256 0 12 = Some NameError.
Proof.
  split; [|vm_compute; reflexivity].
  apply (rfc1035NameUnpack_safe (ex_loop ++ [0]) 18 256 12 ex_loop_bytes); [cbn; lia|lia..].
Defined.

(** A query for the A or AAAA records of a host name made of labels of 1 to 63 bytes, with any number of dots at the
    end, is built without an assertion failing when the buffer holds it; read back by [rfc1035MessageUnpack] it has the
    query's id and one question, whose name is the host name without the dots at its end, and [rfc1035QueryCompare] finds
    that question equal to the query the caller keeps. *)
Theorem rfc1035BuildQuery_roundtrip labels k qid sz :
  Forall label_ok labels -> labels <> [] -> Z.of_nat (length (dotted labels)) < RFC1035_MAXHOSTNAMESZ ->
  Z.of_nat (length (hostname_of labels k)) < RFC1035_MAXHOSTNAMESZ ->
  17 + Z.of_nat (length (dotted labels)) <= sz -> 0 <= qid < 65536 ->
  (exists m q, rfc1035BuildAQuery (hostname_of labels k) sz qid = Some (m, q) /\
    reads_back m q qid RFC1035_TYPE_A (name_text (dotted labels))) /\
  (exists m q, rfc1035BuildAAAAQuery (hostname_of labels k) sz qid = Some (m, q) /\
    reads_back m q qid RFC1035_TYPE_AAAA (name_text (dotted labels))).
Proof.
  intros. split.
  - destruct (build_query_roundtrip labels k RFC1035_TYPE_A qid sz) as (m & q & ? & _ & ?); [done..|]. by exists m, q.
  - destruct (build_query_roundtrip labels k RFC1035_TYPE_AAAA qid sz) as (m & q & ? & _ & ?); [done..|]. by exists m, q.
Qed.

Lemma rfc1035BuildQuery_roundtrip_witness :
  let labels := [str "www"; str "example"; str "com"] in
  hostname_of labels 1 = str "www.example.com." /\
  (exists m q, rfc1035BuildAQuery (hostname_of labels 1) 512 4660 = Some (m, q) /\
    reads_back m q 4660 RFC1035_TYPE_A (name_text (dotted labels))) /\
  (exists m q, rfc1035BuildAAAAQuery (hostname_of labels 1) 512 4660 = Some (m, q) /\
    reads_back m q 4660 RFC1035_TYPE_AAAA (name_text (dotted labels))).
Proof.
  intros labels. split; [vm_compute; reflexivity|].
  apply (rfc1035BuildQuery_roundtrip labels 1 4660 512); [|discriminate|vm_compute; reflexivity|vm_compute; reflexivity| |lia].
  - repeat (apply List.Forall_cons; [apply label_okb_ok; vm_compute; reflexivity|]). apply List.Forall_nil.
  - vm_compute. discriminate.
Defined.

(** A PTR query is built for every IPv4 address in a buffer of 46 bytes or more, and read back it asks for the
    address's octets in reverse order under in-addr.arpa. *)
Theorem rfc1035BuildPTRQuery_roundtrip addr qid sz :
  46 <= sz -> 0 <= qid < 65536 ->
  exists m q, rfc1035BuildPTRQuery addr sz qid = Some (m, q) /\
    reads_back m q qid RFC1035_TYPE_PTR
      (dec (Z.land addr 255) ++ 46 :: dec (Z.land (Z.shiftr addr 8) 255) ++ 46 :: dec (Z.land (Z.shiftr addr 16) 255)
       ++ 46 :: dec (Z.land (Z.shiftr addr 24) 255) ++ str ".in-addr.arpa").
Proof.
  intros Hsz Hid. destruct (ptr_name_hostname addr) as (Hn & Hl & Hlen).
  unfold rfc1035BuildPTRQuery. rewrite Hn.
  destruct (build_query_roundtrip (ptr_labels addr) 1 RFC1035_TYPE_PTR qid sz) as (m & q & -> & _ & Hr);
    [done|done|unfold RFC1035_MAXHOSTNAMESZ; lia| |lia|done|done|].
  { unfold hostname_of, name_text, RFC1035_MAXHOSTNAMESZ. rewrite length_app, length_take, length_replicate. lia. }
  exists m, q. split; [done|]. replace (_ ++ 46 :: _) with (name_text (dotted (ptr_labels addr))); [done|].
  unfold name_text, dotted, ptr_labels. cbn [map concat]. rewrite app_nil_r, !app_assoc, length_app. cbn [length].
  rewrite Nat.add_sub, take_app_length. rewrite <- !app_assoc. done.
Qed.

Lemma rfc1035BuildPTRQuery_roundtrip_witness :
  exists m q, rfc1035BuildPTRQuery 3232235777 512 5 = Some (m, q) /\
    reads_back m q 5 RFC1035_TYPE_PTR
      (dec (Z.land 3232235777 255) ++ 46 :: dec (Z.land (Z.shiftr 3232235777 8) 255) ++ 46 ::
       dec (Z.land (Z.shiftr 3232235777 16) 255) ++ 46 :: dec (Z.land (Z.shiftr 3232235777 24) 255) ++ str ".in-addr.arpa").
Proof. apply (rfc1035BuildPTRQuery_roundtrip 3232235777 5 512); lia. Defined.

(** The spare byte is needed: a compression pointer whose first byte is the
    last byte of the message is read before the message's end is checked. *)
Theorem rfc1035NameUnpack_overread pre c depth ns rdepth :
  191 < c -> 0 < ns -> rdepth <= 64 ->
  rfc1035NameUnpack (S depth) (pre ++ [c]) (Z.of_nat (length (pre ++ [c]))) ns rdepth (Z.of_nat (length pre)) = None.
Proof.
  intros Hc Hn Hr. cbn [rfc1035NameUnpack]. destruct (Z.ltb_spec 0 ns); [|lia]. cbn [name_loop].
  rewrite length_app. cbn [length]. destruct (Z.leb_spec (Z.of_nat (length pre + 1)) (Z.of_nat (length pre))); [lia|].
  rewrite get8_app. bind_simpl. destruct (Z.ltb_spec 191 c); [|lia]. destruct (Z.ltb_spec 64 rdepth); [lia|].
  unfold get16. destruct (Z.leb_spec 0 (Z.of_nat (length pre))); [|lia].
  assert ((pre ++ [c]) !! Z.to_nat (Z.of_nat (length pre) + 1) = None) as ->
    by (apply lookup_ge_None_2; rewrite length_app; cbn; lia).
  by destruct ((pre ++ [c]) !! Z.to_nat (Z.of_nat (length pre))).
Qed.
End Rfc1035.
