(* ===== verification/Rfc1738.v ===== *)
(** * URL escaping: lib/rfc1738.c

    [char] is signed: the tables are indexed by the signed value of a byte. *)

From Stdlib Require Import ZArith Lia Ascii String.
From stdpp Require Import base strings list numbers option.
From S2P Require Import Prelude CStr.

Module Rfc1738.

Definition rfc1738_unsafe_char_map : list Z :=
  [1; 1; 1; 1; 1; 1; 1; 1; 1; 1; 1; 1; 1; 1; 1; 1; 1; 1; 1; 1; 1; 1; 1; 1; 1; 1; 1; 1; 1; 1; 1; 1;
   1; 0; 1; 1; 0; 0; 0; 1; 0; 0; 0; 0; 0; 0; 0; 0; 0; 0; 0; 0; 0; 0; 0; 0; 0; 0; 0; 0; 1; 0; 1; 0;
   0; 0; 0; 0; 0; 0; 0; 0; 0; 0; 0; 0; 0; 0; 0; 0; 0; 0; 0; 0; 0; 0; 0; 0; 0; 0; 0; 1; 1; 1; 1; 0;
   1; 0; 0; 0; 0; 0; 0; 0; 0; 0; 0; 0; 0; 0; 0; 0; 0; 0; 0; 0; 0; 0; 0; 0; 0; 0; 0; 1; 1; 1; 1; 1;
   1; 1; 1; 1; 1; 1; 1; 1; 1; 1; 1; 1; 1; 1; 1; 1; 1; 1; 1; 1; 1; 1; 1; 1; 1; 1; 1; 1; 1; 1; 1; 1;
   1; 1; 1; 1; 1; 1; 1; 1; 1; 1; 1; 1; 1; 1; 1; 1; 1; 1; 1; 1; 1; 1; 1; 1; 1; 1; 1; 1; 1; 1; 1; 1;
   1; 1; 1; 1; 1; 1; 1; 1; 1; 1; 1; 1; 1; 1; 1; 1; 1; 1; 1; 1; 1; 1; 1; 1; 1; 1; 1; 1; 1; 1; 1; 1;
   1; 1; 1; 1; 1; 1; 1; 1; 1; 1; 1; 1; 1; 1; 1; 1; 1; 1; 1; 1; 1; 1; 1; 1; 1; 1; 1; 1; 1; 1; 1; 1].

Definition rfc1738_reserved_char_map : list Z :=
  [0; 0; 0; 0; 0; 0; 0; 0; 0; 0; 0; 0; 0; 0; 0; 0; 0; 0; 0; 0; 0; 0; 0; 0; 0; 0; 0; 0; 0; 0; 0; 0;
   0; 0; 0; 0; 0; 0; 1; 0; 0; 0; 0; 0; 0; 0; 0; 1; 0; 0; 0; 0; 0; 0; 0; 0; 0; 0; 1; 1; 0; 1; 0; 1;
   1; 0; 0; 0; 0; 0; 0; 0; 0; 0; 0; 0; 0; 0; 0; 0; 0; 0; 0; 0; 0; 0; 0; 0; 0; 0; 0; 0; 0; 0; 0; 0;
   0; 0; 0; 0; 0; 0; 0; 0; 0; 0; 0; 0; 0; 0; 0; 0; 0; 0; 0; 0; 0; 0; 0; 0; 0; 0; 0; 0; 0; 0; 0; 0;
   0; 0; 0; 0; 0; 0; 0; 0; 0; 0; 0; 0; 0; 0; 0; 0; 0; 0; 0; 0; 0; 0; 0; 0; 0; 0; 0; 0; 0; 0; 0; 0;
   0; 0; 0; 0; 0; 0; 0; 0; 0; 0; 0; 0; 0; 0; 0; 0; 0; 0; 0; 0; 0; 0; 0; 0; 0; 0; 0; 0; 0; 0; 0; 0;
   0; 0; 0; 0; 0; 0; 0; 0; 0; 0; 0; 0; 0; 0; 0; 0; 0; 0; 0; 0; 0; 0; 0; 0; 0; 0; 0; 0; 0; 0; 0; 0;
   0; 0; 0; 0; 0; 0; 0; 0; 0; 0; 0; 0; 0; 0; 0; 0; 0; 0; 0; 0; 0; 0; 0; 0; 0; 0; 0; 0; 0; 0; 0; 0].

(** [map[(int) *p] > 0] *)
Definition char_map (map : list Z) (c : Z) : option bool :=
  let i := wrap_s 8 c in
  assert? 0 <=? i in
  let? v := map !! Z.to_nat i in Some (0 <? v).

Definition PERCENT : Z := 37.

(** The decision of one turn of [rfc1738_do_escape]. *)
Definition do_escape (encode_reserved c : Z) : option bool :=
  let? u := char_map rfc1738_unsafe_char_map c in
  if (u : bool) then Some true
  else if (0 <=? encode_reserved) && (c =? PERCENT) then Some true
  else if 0 <? encode_reserved then char_map rfc1738_reserved_char_map c
  else Some false.

(** A digit of [%02X]. *)
Definition hexdigit (d : Z) : Z := if d <? 10 then 48 + d else 55 + d.

(** The loop: [out] is what was written at the start of the static buffer of
    [bufsize] bytes; [sprintf] also writes a NUL after the triplet. *)
Fixpoint escape_loop (encode_reserved bufsize : Z) (p out : bytes) : option bytes :=
  match p with
  | [] => assert? Z.of_nat (length out) <? bufsize in Some out
  | c :: p =>
      let? e := do_escape encode_reserved c in
      if (e : bool) then
        assert? Z.of_nat (length out) + 3 <? bufsize in
        escape_loop encode_reserved bufsize p (out ++ [PERCENT; hexdigit (c / 16); hexdigit (c `mod` 16)])
      else
        assert? Z.of_nat (length out) <? bufsize in
        escape_loop encode_reserved bufsize p (out ++ [c])
  end.

(** [rfc1738_do_escape]: the state is the size of the static buffer, [None]
    before the first call.  The results are the new size and the string. *)
Definition rfc1738_do_escape (st : option Z) (url : bytes) (encode_reserved : Z) : option (option Z * bytes) :=
  let len3 := Z.of_nat (length url) * 3 in
  let bufsize :=
    match st with
    | Some bufsize => if bufsize <? len3 then len3 + 1 else bufsize
    | None => len3 + 1
    end in
  let? out := escape_loop encode_reserved bufsize url [] in
  Some (Some bufsize, out).

Definition rfc1738_escape (st : option Z) (url : bytes) := rfc1738_do_escape st url 0.
Definition rfc1738_escape_unescaped (st : option Z) (url : bytes) := rfc1738_do_escape st url (-1).
Definition rfc1738_escape_part (st : option Z) (url : bytes) := rfc1738_do_escape st url 1.

Definition fromhex (c : Z) : Z :=
  let ch := wrap_s 8 c in
  if (48 <=? ch) && (ch <=? 57) then ch - 48
  else if (97 <=? ch) && (ch <=? 102) then ch - 97 + 10
  else if (65 <=? ch) && (ch <=? 70) then ch - 65 + 10
  else -1.

Definition hexpair (a b : Z) : Z := Z.lor (Z.shiftl (fromhex a) 4) (fromhex b).

(** The loop of [rfc1738_unescape], in place: [i] is the write index, [j] the
    read index.  A turn moves [j] forward, so the memory's size is enough fuel. *)
Fixpoint unescape_loop (fuel : nat) (s : bytes) (i j : nat) : option bytes :=
  match fuel with
  | O => None
  | S fuel =>
      let? c := s !! j in
      if c =? 0 then assert? (i <? length s)%nat in Some (<[i := 0]> s)
      else
        assert? (i <? length s)%nat in
        let s := <[i := c]> s in
        let? c := s !! j in
        if negb (c =? PERCENT) then unescape_loop fuel s (S i) (S j)
        else
          let? a := s !! S j in
          if a =? PERCENT then unescape_loop fuel s (S i) (S (S j))
          else
            let? b := s !! S (S j) in
            let x := hexpair a b in
            if (0 <? x) && (x <=? 255) then unescape_loop fuel (<[i := x]> s) (S i) (S (S (S j)))
            else unescape_loop fuel s (S i) (S j)
  end.

Definition rfc1738_unescape (s : bytes) : option bytes := unescape_loop (S (length s)) s 0 0.

(** ** Escaping *)

(** The bytes of a C string of 7-bit characters. *)
Definition ascii7 (c : Z) : Prop := 0 < c < 128.

Definition is_unsafe (c : Z) : bool := match char_map rfc1738_unsafe_char_map c with Some b => b | None => true end.

Lemma char_map_ascii map c : (length map = 256)%nat -> ascii7 c -> exists b, char_map map c = Some b.
Proof.
  intros Hl Hc. unfold char_map, ascii7 in *. rewrite wrap_s_small by lia. destruct (Z.leb_spec 0 c); [|lia].
  destruct (lookup_lt_is_Some_2 map (Z.to_nat c)) as [v ->]; [lia|]. by eexists.
Qed.

Lemma do_escape_ascii enc c :
  ascii7 c -> exists b, do_escape enc c = Some b /\ (b = false -> is_unsafe c = false /\ (0 <= enc -> c <> PERCENT)).
Proof.
  intros Hc. unfold do_escape, is_unsafe.
  destruct (char_map_ascii rfc1738_unsafe_char_map c eq_refl Hc) as [u ->]. bind_simpl.
  destruct u; [by exists true|]. destruct (Z.leb_spec 0 enc), (Z.eqb_spec c PERCENT); cbn [andb]; try by exists true.
  - destruct (0 <? enc); [|by exists false]. destruct (char_map_ascii rfc1738_reserved_char_map c eq_refl Hc) as [r ->]. by exists r.
  - destruct (Z.ltb_spec 0 enc); [lia|]. exists false. split; [done|]. intros _. split; [done|lia].
  - destruct (Z.ltb_spec 0 enc); [lia|]. by exists false.
Qed.

(** The triplet of a character reads back as the character, and is safe. *)
Lemma triplet_ok c :
  ascii7 c ->
  hexpair (hexdigit (c / 16)) (hexdigit (c `mod` 16)) = c /\ hexdigit (c / 16) <> PERCENT /\
  Forall (fun d => ascii7 d /\ is_unsafe d = false) [PERCENT; hexdigit (c / 16); hexdigit (c `mod` 16)].
Proof.
  intros Hc. set (ok c := (hexpair (hexdigit (c / 16)) (hexdigit (c `mod` 16)) =? c) && negb (hexdigit (c / 16) =? PERCENT) &&
    forallb (fun d => (0 <? d) && (d <? 128) && negb (is_unsafe d)) [PERCENT; hexdigit (c / 16); hexdigit (c `mod` 16)]).
  assert (Hall : forallb ok (seqZ 1 127) = true) by (vm_compute; reflexivity).
  rewrite forallb_forall in Hall. specialize (Hall c). rewrite <- list_elem_of_In, elem_of_seqZ in Hall.
  unfold ascii7 in Hc. specialize (Hall ltac:(lia)). unfold ok in Hall. rewrite !andb_true_iff, forallb_forall in Hall.
  destruct Hall as [[H1 H2] H3]. split; [by apply Z.eqb_eq|]. split; [by destruct (Z.eqb_spec (hexdigit (c / 16)) PERCENT)|].
  apply List.Forall_forall. intros d Hd. specialize (H3 d Hd). rewrite !andb_true_iff in H3.
  unfold ascii7. destruct (is_unsafe d); cbn in H3; split; [lia..|done].
Qed.

(** [rfc1738_unescape] on the text of a string. *)
Fixpoint unesc (l : bytes) : bytes :=
  match l with
  | [] => []
  | c :: l =>
      if negb (c =? PERCENT) then c :: unesc l
      else
        match l with
        | [] => [c]
        | a :: l2 =>
            if a =? PERCENT then c :: unesc l2
            else
              match l2 with
              | [] => c :: unesc l
              | b :: l3 =>
                  let x := hexpair a b in
                  if (0 <? x) && (x <=? 255) then x :: unesc l3 else c :: unesc l
              end
        end
  end.

(** The whole loop of [rfc1738_do_escape]: no write outside the buffer, only
    safe characters, and a text that reads back. *)
Lemma escape_loop_ok enc bufsize url out :
  Forall ascii7 url -> Z.of_nat (length out) + Z.of_nat (length url) * 3 < bufsize ->
  exists text, escape_loop enc bufsize url out = Some (out ++ text) /\
    Forall (fun d => ascii7 d /\ is_unsafe d = false) text /\
    (0 <= enc -> unesc text = url /\ list.last text <> Some PERCENT).
Proof.
  intros Hu. revert out. induction Hu as [|c url Hc Hu IH]; intros out Hb.
  { exists []. cbn in *. destruct (Z.ltb_spec (Z.of_nat (length out)) bufsize); [|lia]. rewrite app_nil_r. split_and!; done. }
  cbn [escape_loop]. destruct (do_escape_ascii enc c Hc) as (b & -> & Hb0). bind_simpl. cbn [length] in Hb.
  destruct b.
  - destruct (triplet_ok c Hc) as (Hp & Hne & Hsafe).
    destruct (Z.ltb_spec (Z.of_nat (length out) + 3) bufsize); [|lia].
    destruct (IH (out ++ [PERCENT; hexdigit (c / 16); hexdigit (c `mod` 16)])) as (text & -> & Hs & Hr); [len_lia|].
    exists (PERCENT :: hexdigit (c / 16) :: hexdigit (c `mod` 16) :: text). split_and!; [by rewrite <- app_assoc|by apply (Forall_app_2 _ [_; _; _])|].
    intros He. destruct (Hr He) as [Hr1 Hr2]. split.
    + cbn [unesc]. rewrite (Z.eqb_refl PERCENT). cbn [negb]. destruct (Z.eqb_spec (hexdigit (c / 16)) PERCENT); [done|].
      rewrite Hp. unfold ascii7 in Hc. destruct (Z.ltb_spec 0 c), (Z.leb_spec c 255); try lia. cbn [andb]. by rewrite Hr1.
    + change (PERCENT :: hexdigit (c / 16) :: hexdigit (c `mod` 16) :: text)
        with ([PERCENT; hexdigit (c / 16)] ++ hexdigit (c `mod` 16) :: text).
      rewrite last_app_cons. destruct text as [|d text]; [|by rewrite last_cons_cons].
      cbn. intros [= Heq]. revert Heq. unfold hexdigit, PERCENT. pose proof (Z.mod_pos_bound c 16). destruct (Z.ltb_spec (c `mod` 16) 10); lia.
  - destruct (Hb0 eq_refl) as [Hsafe Hnp]. destruct (Z.ltb_spec (Z.of_nat (length out)) bufsize); [|lia].
    destruct (IH (out ++ [c])) as (text & -> & Hs & Hr); [len_lia|].
    exists (c :: text). split_and!; [by rewrite <- app_assoc|by constructor|].
    intros He. destruct (Hr He) as [Hr1 Hr2]. specialize (Hnp He). split.
    + cbn [unesc]. destruct (Z.eqb_spec c PERCENT); [done|]. cbn [negb]. by rewrite Hr1.
    + destruct text as [|d text]; [cbn; congruence|by rewrite last_cons_cons].
Qed.

(** ** The static buffer *)

(** Every size of the buffer is one more than a multiple of three. *)
Definition buf_ok (st : option Z) : Prop := match st with Some n => exists k, 0 <= k /\ n = 3 * k + 1 | None => True end.

Lemma do_escape_ok st url enc :
  buf_ok st -> Forall ascii7 url ->
  exists st' text, rfc1738_do_escape st url enc = Some (st', text) /\ buf_ok st' /\
    Forall (fun d => ascii7 d /\ is_unsafe d = false) text /\
    (0 <= enc -> unesc text = url /\ list.last text <> Some PERCENT).
Proof.
  intros Hst Hu. unfold rfc1738_do_escape. cbn zeta.
  set (n := match st with Some bufsize => if bufsize <? Z.of_nat (length url) * 3 then Z.of_nat (length url) * 3 + 1 else bufsize
            | None => Z.of_nat (length url) * 3 + 1 end).
  assert (Hn : buf_ok (Some n) /\ Z.of_nat (length url) * 3 < n).
  { unfold n, buf_ok in *. destruct st as [m|].
    - destruct Hst as (k & Hk & Hm). destruct (Z.ltb_spec m (Z.of_nat (length url) * 3)).
      + split; [exists (Z.of_nat (length url)); lia|lia].
      + split; [by exists k|lia].
    - split; [exists (Z.of_nat (length url)); lia|lia]. }
  clearbody n. destruct Hn as [Hn Hlt].
  destruct (escape_loop_ok enc n url [] Hu) as (text & -> & Hs & Hr); [cbn; lia|]. cbn [mbind option_bind app].
  by exists (Some n), text.
Qed.

(** ** Unescaping in place *)

(** What holds at the head of the loop: [w] was written, [l] is to be read,
    and the reads past the end of [l] stay inside the memory. *)
Definition at_head (s : bytes) (i j : nat) (w l rest : bytes) : Prop :=
  take i s = w /\ drop j s = l ++ 0 :: rest /\ (i <= j)%nat /\ Forall (fun c => c <> 0) l /\
  (rest <> [] \/ list.last l <> Some PERCENT).

Lemma head_bounds s i j w l rest : at_head s i j w l rest -> (j + length l < length s)%nat.
Proof.
  intros (_ & Hd & _). assert (Hl := f_equal length Hd). rewrite length_drop, length_app in Hl. cbn in Hl. lia.
Qed.

(** One character written, [k] characters read. *)
Lemma head_step s i j w pre l rest x :
  at_head s i j w (pre ++ l) rest -> pre <> [] ->
  at_head (<[i := x]> s) (S i) (j + length pre) (w ++ [x]) l rest.
Proof.
  intros Hh Hne. pose proof (head_bounds _ _ _ _ _ _ Hh) as Hb. rewrite length_app in Hb.
  destruct Hh as (Ht & Hd & Hij & Hnz & Hend). assert (0 < length pre)%nat by (destruct pre; [done|cbn; lia]).
  split_and!.
  - rewrite (take_S_r _ _ x) by (apply list_lookup_insert_eq; lia). rewrite take_insert_ge by lia. by rewrite Ht.
  - rewrite drop_insert_lt by lia. rewrite <- drop_drop, Hd, <- app_assoc, drop_app_length. done.
  - lia.
  - by apply Forall_app in Hnz as [_ ?].
  - destruct Hend as [?|Hend]; [by left|right]. intros Hl. apply Hend. by rewrite last_app, Hl.
Qed.

Lemma head_lookup s i j w l rest k : at_head s i j w l rest -> s !! (j + k)%nat = (l ++ 0 :: rest) !! k.
Proof. intros (_ & Hd & _). by rewrite <- Hd, lookup_drop. Qed.

(** Writing the character just read changes nothing that is read later. *)
Lemma head_write s i j w c l rest : at_head s i j w (c :: l) rest -> at_head (<[i := c]> s) i j w (c :: l) rest.
Proof.
  intros Hh. pose proof (head_bounds _ _ _ _ _ _ Hh) as Hb. destruct Hh as (Ht & Hd & Hij & Hrest).
  split; [|split; [|done]].
  - by rewrite take_insert_ge by lia.
  - destruct (decide (i = j)) as [->|].
    + rewrite drop_insert_ge, Hd, Nat.sub_diag by lia. done.
    + by rewrite drop_insert_lt by lia.
Qed.

Lemma unescape_loop_ok fuel s i j w l rest :
  at_head s i j w l rest -> (length l < fuel)%nat ->
  exists tail, unescape_loop fuel s i j = Some (w ++ unesc l ++ 0 :: tail).
Proof.
  revert s i j w l. induction fuel as [|fuel IH]; intros s i j w l Hh Hf; [lia|]. cbn [unescape_loop].
  pose proof (head_bounds _ _ _ _ _ _ Hh) as Hb.
  assert (H0 := head_lookup _ _ _ _ _ _ 0 Hh). rewrite Nat.add_0_r in H0. rewrite H0.
  destruct (Nat.ltb_spec i (length s)); [|destruct Hh as (_ & _ & ? & _); lia].
  destruct l as [|c l]; cbn [app lookup list_lookup mbind option_bind].
  { cbn [Z.eqb unesc app]. destruct Hh as (Ht & _). exists (drop (S i) s). rewrite <- Ht.
    by rewrite <- insert_take_drop by lia. }
  pose proof Hh as (_ & _ & _ & Hnz & _). pose proof (Forall_inv Hnz) as Hc0. cbn in Hc0.
  destruct (Z.eqb_spec c 0); [done|]. clear H0.
  assert (Hw := head_write _ _ _ _ _ _ _ Hh).
  assert (H0 := head_lookup _ _ _ _ _ _ 0 Hw). rewrite Nat.add_0_r in H0. cbn in H0. rewrite H0. bind_simpl.
  assert (H1 := head_lookup _ _ _ _ _ _ 1 Hw). rewrite Nat.add_1_r in H1.
  assert (H2 := head_lookup _ _ _ _ _ _ 2 Hw). replace (j + 2)%nat with (S (S j)) in H2 by lia.
  assert (Hnext : forall k pre l' x, c :: l = pre ++ l' -> length pre = S k ->
    exists tail, unescape_loop fuel (<[i := x]> s) (S i) (S (j + k)) = Some (w ++ (x :: unesc l') ++ 0 :: tail)).
  { intros k pre l' x He Hk. assert (Hl := f_equal length He). cbn in Hl. rewrite length_app in Hl.
    rewrite He in Hh. apply (head_step _ _ _ _ _ _ _ x) in Hh; [|by destruct pre].
    rewrite Hk in Hh. rewrite Nat.add_succ_r in Hh. destruct (IH _ _ _ _ _ Hh) as [tail ->]; [cbn in Hf; lia|].
    exists tail. by rewrite <- app_assoc. }
  assert (Hsame : exists tail, unescape_loop fuel (<[i := c]> s) (S i) (S j) = Some (w ++ (c :: unesc l) ++ 0 :: tail)).
  { destruct (Hnext 0%nat [c] l c) as [tail Ht]; [done..|]. rewrite Nat.add_0_r in Ht. by exists tail. }
  cbn [unesc]. destruct (Z.eqb_spec c PERCENT) as [->|]; cbn [negb]; [|done].
  destruct l as [|a l].
  - cbn in H1. rewrite H1. bind_simpl. change (0 =? PERCENT) with false. cbn match. cbn in H2. rewrite H2.
    destruct Hh as (_ & _ & _ & _ & [Hr|Hl]); [|by cbn in Hl]. destruct rest as [|b rest]; [done|]. cbn [lookup list_lookup mbind option_bind].
    assert (hexpair 0 b < 0) as Hneg.
    { unfold hexpair. change (fromhex 0) with (-1). apply Z.lor_neg. left. reflexivity. }
    destruct (Z.ltb_spec 0 (hexpair 0 b)); [lia|]. cbn [andb]. done.
  - cbn in H1. rewrite H1. bind_simpl. destruct (Z.eqb_spec a PERCENT) as [->|].
    { destruct (Hnext 1%nat [PERCENT; PERCENT] l PERCENT) as [tail Ht]; [done..|]. rewrite Nat.add_1_r in Ht. by exists tail. }
    cbn in H2. rewrite H2. destruct l as [|b l]; cbn [app lookup list_lookup mbind option_bind].
    + assert (hexpair a 0 < 0) as Hneg.
      { unfold hexpair. change (fromhex 0) with (-1). apply Z.lor_neg. by right. }
      destruct (Z.ltb_spec 0 (hexpair a 0)); [lia|]. cbn [andb]. done.
    + destruct ((0 <? hexpair a b) && (hexpair a b <=? 255)); [|done]. rewrite list_insert_insert_eq.
      destruct (Hnext 2%nat [PERCENT; a; b] l (hexpair a b)) as [tail Ht]; [done..|].
      replace (S (j + 2)) with (S (S (S j))) in Ht by lia. by exists tail.
Qed.

Lemma rfc1738_unescape_ok l rest :
  Forall (fun c => c <> 0) l -> rest <> [] \/ list.last l <> Some PERCENT ->
  exists tail, rfc1738_unescape (l ++ 0 :: rest) = Some (unesc l ++ 0 :: tail).
Proof.
  intros Hnz Hend. unfold rfc1738_unescape.
  apply (unescape_loop_ok _ (l ++ 0 :: rest) 0 0 [] l rest); [by split_and!|rewrite length_app; lia].
Qed.

(** ** Properties *)

(** What escaping and unescaping in place give back. *)
Definition reads_back (url : bytes) (r : option (option Z * bytes)) : Prop :=
  exists st' text tail, r = Some (st', text) /\ buf_ok st' /\ Forall (fun d => is_unsafe d = false) text /\
    rfc1738_unescape (text ++ [0]) = Some (url ++ 0 :: tail).

Lemma do_escape_reads_back st url enc :
  buf_ok st -> Forall ascii7 url -> 0 <= enc -> reads_back url (rfc1738_do_escape st url enc).
Proof.
  intros Hst Hu He. destruct (do_escape_ok st url enc Hst Hu) as (st' & text & -> & Hst' & Hs & Hr).
  destruct (Hr He) as [Hr1 Hr2]. destruct (rfc1738_unescape_ok text []) as [tail Ht]; [|by right|].
  { eapply List.Forall_impl; [|exact Hs]. unfold ascii7. cbn. intros d Hd. lia. }
  exists st', text, tail. rewrite Hr1 in Ht. split_and!; [done..| |done].
  eapply List.Forall_impl; [|exact Hs]. by intros d [_ ?].
Qed.

(** Escaping a string of 7-bit characters never writes outside the static buffer, whatever strings were escaped before;
    the result has no unsafe character, and unescaping it in place gives the string back without reading past its
    terminating NUL.  This holds for whole URLs ([rfc1738_escape]) and for URL parts ([rfc1738_escape_part]). *)
Theorem rfc1738_roundtrip st url :
  buf_ok st -> Forall ascii7 url ->
  reads_back url (rfc1738_escape st url) /\ reads_back url (rfc1738_escape_part st url).
Proof. intros. split; by apply do_escape_reads_back. Qed.

Lemma rfc1738_roundtrip_witness :
  let url := str "http://a b/100%?q=<x>" in
  (reads_back url (rfc1738_escape (Some 13) url) /\ reads_back url (rfc1738_escape_part (Some 13) url)) /\
  rfc1738_escape (Some 13) url = Some (Some 64, str "http://a%20b/100%25?q=%3Cx%3E").
Proof.
  intros url. split; [|vm_compute; reflexivity]. apply (rfc1738_roundtrip (Some 13) url).
  - exists 4. lia.
  - apply List.Forall_forall. intros c Hc. unfold ascii7.
    assert (Hall : forallb (fun c => (0 <? c) && (c <? 128)) url = true) by (vm_compute; reflexivity).
    rewrite forallb_forall in Hall. specialize (Hall c Hc). lia.
Defined.

(** A character with the high bit set indexes the tables with a negative number. *)
Theorem rfc1738_escape_high_char st url c enc : 128 <= c < 256 -> rfc1738_do_escape st (c :: url) enc = None.
Proof.
  intros Hc. unfold rfc1738_do_escape. cbn zeta. cbn [escape_loop]. unfold do_escape, char_map.
  replace (wrap_s 8 c) with (c - 256); [by destruct (Z.leb_spec 0 (c - 256)); [lia|]|].
  unfold wrap_s. change (2 ^ (8 - 1)) with 128. change (2 ^ 8) with 256.
  rewrite (Z.mod_eq (c + 128) 256) by lia. replace ((c + 128) / 256) with 1; [lia|].
  apply (Z.div_unique_pos _ _ _ (c + 128 - 256)); lia.
Qed.

(** A percent sign at the end of a string has the byte after the NUL read. *)
Theorem rfc1738_unescape_overread : rfc1738_unescape [97; PERCENT; 0] = None.
Proof. reflexivity. Qed.
End Rfc1738.
