(* ===== verification/Stmem.v ===== *)
(** * In-memory object data: libstmem/stmem.c

    An object's data is a chain of pages.  The pages live in a store of nodes
    (the memory pool), because references to them are shared with the
    clients: a page stays after the chain drops it while [uses] is not 0.
    A use of a node that is not in the store, a failed assertion and an access
    outside a page are [None]. *)

From Stdlib Require Import ZArith Lia.
From stdpp Require Import base list numbers option gmap.
From S2P Require Import Prelude CStr.

Module Stmem.

Definition SM_PAGE_SIZE : Z := 4096.

Record mem_node := mkNode {
  data : bytes;
  len : Z;
  uses : Z;
  next : option positive
}.

Record mem_hdr := mkHdr {
  head : option positive;
  tail : option positive;
  origin_offset : Z
}.

(** The pool's nodes, the next unused address and the global byte count. *)
Record store := mkStore {
  nodes : gmap positive mem_node;
  next_addr : positive;
  store_mem_size : Z
}.

Record mem_node_ref := mkRef { node : option positive; offset : Z }.

Definition set_nodes (n : gmap positive mem_node) (σ : store) : store := mkStore n (next_addr σ) (store_mem_size σ).
Definition add_size (d : Z) (σ : store) : store := mkStore (nodes σ) (next_addr σ) (wrap_u 64 (store_mem_size σ + d)).
Definition set_uses (u : Z) (n : mem_node) : mem_node := mkNode (data n) (len n) u (next n).
Definition set_next (p : option positive) (n : mem_node) : mem_node := mkNode (data n) (len n) (uses n) p.

(** [xmemcpy(data + off, src, n)] *)
Definition write_at (page : bytes) (off : Z) (src : bytes) : option bytes :=
  assert? (0 <=? off) && (off + Z.of_nat (length src) <=? Z.of_nat (length page)) in
  Some (take (Z.to_nat off) page ++ src ++ drop (Z.to_nat off + length src) page).

Definition read_at (page : bytes) (off n : Z) : option bytes :=
  assert? (0 <=? off) && (0 <=? n) && (off + n <=? Z.of_nat (length page)) in
  Some (take (Z.to_nat n) (drop (Z.to_nat off) page)).

(** ** Nodes *)

Definition stmemNodeFree (σ : store) (p : positive) : option store :=
  let? n := nodes σ !! p in
  if uses n =? 0 then Some (set_nodes (delete p (nodes σ)) σ)
  else Some (set_nodes (<[p := set_uses (uses n - 1) n]> (nodes σ)) σ).

Definition stmemNodeGet (σ : store) (p : positive) : option (store * bytes) :=
  let? n := nodes σ !! p in
  Some (set_nodes (<[p := set_uses (uses n + 1) n]> (nodes σ)) σ, data n).

(** ** Freeing the chain *)

Fixpoint free_loop (fuel : nat) (σ : store) (p : option positive) : option store :=
  match fuel, p with
  | _, None => Some σ
  | O, Some _ => None
  | S fuel, Some p =>
      let? n := nodes σ !! p in
      let? σ := stmemNodeFree (add_size (- SM_PAGE_SIZE) σ) p in
      free_loop fuel σ (next n)
  end.

(** A chain has no more pages than the store has nodes. *)
Definition chain_fuel (σ : store) : nat := S (size (nodes σ)).

Definition stmemFree (σ : store) (mem : mem_hdr) : option (store * mem_hdr) :=
  let? σ := free_loop (chain_fuel σ) σ (head mem) in
  Some (σ, mkHdr None None 0).

(** The loop of [stmemFreeDataUpto]: the results are the store, the new head
    and the offset it starts at. *)
Fixpoint upto_loop (fuel : nat) (σ : store) (tail p : option positive) (current_offset target_offset : Z)
  : option (store * option positive * Z * bool) :=
  match fuel, p with
  | _, None => Some (σ, None, current_offset, false)
  | O, Some _ => None
  | S fuel, Some q =>
      let? n := nodes σ !! q in
      if current_offset + len n <=? target_offset then
        if decide (p = tail) then Some (σ, tail, current_offset, true)
        else
          let? σ := stmemNodeFree (add_size (- SM_PAGE_SIZE) σ) q in
          upto_loop fuel σ tail (next n) (current_offset + len n) target_offset
      else Some (σ, p, current_offset, false)
  end.

Definition stmemFreeDataUpto (σ : store) (mem : mem_hdr) (target_offset : Z) : option (store * mem_hdr * Z) :=
  let? (σ, h, current_offset, at_tail) :=
    upto_loop (chain_fuel σ) σ (tail mem) (head mem) (origin_offset mem) target_offset in
  let mem := mkHdr h (tail mem) current_offset in
  if (at_tail : bool) then Some (σ, mem, current_offset)
  else if current_offset <? target_offset then Some (σ, mem, current_offset)
  else assert? current_offset =? target_offset in Some (σ, mem, current_offset).

(** ** Appending *)

Section append.
(** What a new page holds before it is written. *)
Context (junk : bytes).

Definition alloc_node (σ : store) (n : mem_node) : store * positive :=
  (mkStore (<[next_addr σ := n]> (nodes σ)) (Pos.succ (next_addr σ)) (store_mem_size σ), next_addr σ).

(** [while (len > 0)]: one page per turn. *)
Fixpoint append_loop (fuel : nat) (σ : store) (mem : mem_hdr) (d : bytes) : option (store * mem_hdr) :=
  match fuel, d with
  | _, [] => Some (σ, mem)
  | O, _ :: _ => None
  | S fuel, _ :: _ =>
      let len_to_copy := Z.min (Z.of_nat (length d)) SM_PAGE_SIZE in
      let? page := write_at junk 0 (take (Z.to_nat len_to_copy) d) in
      let '(σ, p) := alloc_node (add_size SM_PAGE_SIZE σ) (mkNode page len_to_copy 0 None) in
      match head mem with
      | None => append_loop fuel σ (mkHdr (Some p) (Some p) (origin_offset mem)) (drop (Z.to_nat len_to_copy) d)
      | Some _ =>
          let? t := tail mem in
          let? n := nodes σ !! t in
          let σ := set_nodes (<[t := set_next (Some p) n]> (nodes σ)) σ in
          append_loop fuel σ (mkHdr (head mem) (Some p) (origin_offset mem)) (drop (Z.to_nat len_to_copy) d)
      end
  end.

Definition stmemAppend (σ : store) (mem : mem_hdr) (d : bytes) : option (store * mem_hdr) :=
  match head mem, tail mem with
  | Some _, Some t =>
      let? n := nodes σ !! t in
      if len n <? SM_PAGE_SIZE then
        let avail_len := SM_PAGE_SIZE - len n in
        let len_to_copy := Z.min avail_len (Z.of_nat (length d)) in
        let? page := write_at (data n) (len n) (take (Z.to_nat len_to_copy) d) in
        let σ := set_nodes (<[t := mkNode page (len n + len_to_copy) (uses n) (next n)]> (nodes σ)) σ in
        append_loop (S (length d)) σ mem (drop (Z.to_nat len_to_copy) d)
      else append_loop (S (length d)) σ mem d
  | _, _ => append_loop (S (length d)) σ mem d
  end.

Definition stmemNodeRefCreate (σ : store) (r : mem_node_ref) : option (store * mem_node_ref) :=
  match node r with
  | Some _ => None
  | None =>
      let '(σ, p) := alloc_node σ (mkNode junk SM_PAGE_SIZE 0 None) in
      Some (σ, mkRef (Some p) 0)
  end.
End append.

(** ** References *)

(** Seeking to the page that holds [offset]: the page and where it starts, or
    nothing when the chain ends before. *)
Fixpoint ref_seek (fuel : nat) (σ : store) (p : positive) (t_off off : Z) : option (option (positive * Z)) :=
  match fuel with
  | O => None
  | S fuel =>
      let? n := nodes σ !! p in
      if t_off + len n <=? off then
        match next n with
        | None => Some None
        | Some q => ref_seek fuel σ q (t_off + len n) off
        end
      else Some (Some (p, t_off))
  end.

(** [stmemRef]: the store, the reference (if one is made) and the number of
    bytes available there. *)
Definition stmemRef (σ : store) (mem : mem_hdr) (off : Z) : option (store * option mem_node_ref * Z) :=
  match head mem with
  | None => Some (σ, None, 0)
  | Some p =>
      let? r := ref_seek (chain_fuel σ) σ p (origin_offset mem) off in
      match r with
      | None => Some (σ, None, 0)
      | Some (q, t_off) =>
          let? n := nodes σ !! q in
          let σ := set_nodes (<[q := set_uses (uses n + 1) n]> (nodes σ)) σ in
          assert? 0 <=? off - t_off in
          assert? 0 <? len n + t_off - off in
          Some (σ, Some (mkRef (Some q) (off - t_off)), len n + t_off - off)
      end
  end.

Definition stmemNodeRef (σ : store) (r : mem_node_ref) : option (store * mem_node_ref) :=
  let? p := node r in
  let? n := nodes σ !! p in
  Some (set_nodes (<[p := set_uses (uses n + 1) n]> (nodes σ)) σ, r).

Definition stmemNodeUnref (σ : store) (r : mem_node_ref) : option (store * mem_node_ref) :=
  match node r with
  | None => Some (σ, r)
  | Some p => let? σ := stmemNodeFree σ p in Some (σ, mkRef None (-1))
  end.

(** ** Copying *)

Fixpoint copy_seek (fuel : nat) (σ : store) (p : positive) (t_off off : Z) : option (option (positive * Z)) :=
  match fuel with
  | O => None
  | S fuel =>
      let? n := nodes σ !! p in
      if t_off + len n <? off then
        match next n with
        | None => Some None
        | Some q => copy_seek fuel σ q (t_off + len n) off
        end
      else Some (Some (p, t_off))
  end.

Fixpoint copy_loop (fuel : nat) (σ : store) (p : option positive) (bytes_to_go : Z) (buf : bytes) : option bytes :=
  match fuel, p with
  | _, None => Some buf
  | O, Some _ => None
  | S fuel, Some p =>
      if bytes_to_go <=? 0 then Some buf
      else
        let? n := nodes σ !! p in
        if len n <? bytes_to_go then
          let? b := read_at (data n) 0 (len n) in copy_loop fuel σ (next n) (bytes_to_go - len n) (buf ++ b)
        else
          let? b := read_at (data n) 0 bytes_to_go in copy_loop fuel σ (next n) 0 (buf ++ b)
  end.

(** [stmemCopy]: what is written at the start of [buf]; its length is the
    returned count. *)
Definition stmemCopy (σ : store) (mem : mem_hdr) (off : Z) (size : Z) : option bytes :=
  match head mem with
  | None => Some []
  | Some p =>
      assert? 0 <? size in
      let? r := copy_seek (chain_fuel σ) σ p (origin_offset mem) off in
      match r with
      | None => Some []
      | Some (q, t_off) =>
          let? n := nodes σ !! q in
          let bytes_into_this_packet := off - t_off in
          let bytes_from_this_packet := Z.min size (len n - bytes_into_this_packet) in
          let? b := read_at (data n) bytes_into_this_packet bytes_from_this_packet in
          copy_loop (chain_fuel σ) σ (next n) (size - bytes_from_this_packet) b
      end
  end.

(** ** Representation *)

Definition node_ok (n : mem_node) : Prop := Z.of_nat (length (data n)) = SM_PAGE_SIZE /\ 0 < len n <= SM_PAGE_SIZE.

(** The bytes of a page. *)
Definition page (n : mem_node) : bytes := take (Z.to_nat (len n)) (data n).

(** A segment of a chain: the addresses and nodes from [p] to [q]. *)
Fixpoint seg (N : gmap positive mem_node) (p : option positive) (cs : list (positive * mem_node)) (q : option positive) : Prop :=
  match cs with
  | [] => p = q
  | (l, n) :: cs => p = Some l /\ N !! l = Some n /\ node_ok n /\ seg N (next n) cs q
  end.

Definition content (cs : list (positive * mem_node)) : bytes := concat (map (fun c => page (snd c)) cs).

(** [rep σ m cs]: the header's chain is [cs]. *)
Definition rep (σ : store) (m : mem_hdr) (cs : list (positive * mem_node)) : Prop :=
  seg (nodes σ) (head m) cs None /\ NoDup cs.*1 /\ (cs <> [] -> tail m = list.last cs.*1) /\
  (forall l n, nodes σ !! l = Some n -> (l < next_addr σ)%positive).

Lemma length_page n : node_ok n -> Z.of_nat (length (page n)) = len n.
Proof. intros [H1 H2]. unfold page. rewrite length_take. lia. Qed.

Lemma seg_app N p cs1 cs2 q : seg N p (cs1 ++ cs2) q <-> exists r, seg N p cs1 r /\ seg N r cs2 q.
Proof.
  revert p. induction cs1 as [|[l n] cs1 IH]; intros p; cbn [seg app].
  - split; [intros H; by exists p|by intros (r & -> & H)].
  - rewrite IH. split; [intros (H1 & H2 & H3 & r & H4 & H5); by exists r|intros (r & (H1 & H2 & H3 & H4) & H5)].
    split_and!; [done..|by exists r].
Qed.

Lemma seg_frame N N' p cs q : seg N p cs q -> (forall l, l ∈ cs.*1 -> N' !! l = N !! l) -> seg N' p cs q.
Proof.
  revert p. induction cs as [|[l n] cs IH]; intros p Hs HN; cbn [seg] in *; [done|].
  destruct Hs as (-> & Hl & Hok & Hs). split_and!; [done| |done|].
  - rewrite HN; [done|]. cbn. by apply list_elem_of_here.
  - apply IH; [done|]. intros l' Hl'. apply HN. cbn. by apply list_elem_of_further.
Qed.

Lemma seg_lookup N p cs q l n : seg N p cs q -> (l, n) ∈ cs -> N !! l = Some n /\ node_ok n.
Proof.
  revert p. induction cs as [|[l' n'] cs IH]; intros p Hs Hin; [by apply not_elem_of_nil in Hin|].
  destruct Hs as (_ & Hl & Hok & Hs). apply elem_of_cons in Hin as [[= <- <-]|Hin]; [done|]. by eapply IH.
Qed.

Lemma seg_dom N p cs q l : seg N p cs q -> l ∈ cs.*1 -> l ∈ dom N.
Proof.
  intros Hs Hin. apply list_elem_of_fmap in Hin as ([l' n] & -> & Hin). apply elem_of_dom.
  destruct (seg_lookup _ _ _ _ _ _ Hs Hin) as [Hl _]. by exists n.
Qed.

(** The fuel of the loops is enough for a chain. *)
Lemma chain_fuel_ok σ p cs q : seg (nodes σ) p cs q -> NoDup cs.*1 -> (length cs < chain_fuel σ)%nat.
Proof.
  intros Hs Hnd. unfold chain_fuel. enough (length cs.*1 <= size (dom (nodes σ)))%nat by (rewrite length_fmap in *; rewrite size_dom in *; lia).
  rewrite <- (size_list_to_set (C := gset positive) cs.*1) by done. apply subseteq_size.
  intros l Hl. apply elem_of_list_to_set in Hl. by eapply seg_dom.
Qed.

Lemma content_app cs1 cs2 : content (cs1 ++ cs2) = content cs1 ++ content cs2.
Proof. unfold content. by rewrite map_app, concat_app. Qed.

Lemma content_cons l n cs : content ((l, n) :: cs) = page n ++ content cs.
Proof. done. Qed.

Lemma length_pages N p cs q : seg N p cs q -> (length cs <= length (content cs))%nat.
Proof.
  revert p. induction cs as [|[l n] cs IH]; intros p Hs; [cbn; lia|]. destruct Hs as (_ & _ & Hok & Hs).
  rewrite content_cons, length_app. pose proof (length_page n Hok). destruct Hok. specialize (IH _ Hs). cbn [length]. lia.
Qed.

Lemma wrap_u_add x a b : wrap_u 64 (wrap_u 64 (x + a) + b) = wrap_u 64 (x + (a + b)).
Proof. unfold wrap_u. rewrite Zplus_mod_idemp_l. f_equal. lia. Qed.

(** ** Appending *)

Lemma write_at_ok pg off src :
  0 <= off -> off + Z.of_nat (length src) <= Z.of_nat (length pg) ->
  exists pg', write_at pg off src = Some pg' /\ length pg' = length pg /\
    take (Z.to_nat off + length src) pg' = take (Z.to_nat off) pg ++ src.
Proof.
  intros Ho Hl. unfold write_at. destruct (Z.leb_spec 0 off), (Z.leb_spec (off + Z.of_nat (length src)) (Z.of_nat (length pg))); try lia.
  cbn [andb]. eexists. split; [done|]. split.
  - rewrite !length_app, length_take, length_drop. lia.
  - rewrite app_assoc. rewrite take_app_le by (rewrite length_app, length_take; lia).
    by rewrite take_ge by (rewrite length_app, length_take; lia).
Qed.

(** What an append may do to a node that was there: references to it still
    see the same bytes. *)
Definition node_ext (n n' : mem_node) : Prop :=
  uses n' = uses n /\ len n <= len n' /\ take (Z.to_nat (len n)) (data n') = page n.

Definition store_ext (σ σ' : store) : Prop :=
  forall l n, nodes σ !! l = Some n -> exists n', nodes σ' !! l = Some n' /\ node_ext n n'.

Lemma node_ext_refl n : node_ext n n.
Proof. unfold node_ext, page. split_and!; [done|lia|done]. Qed.

Lemma node_ext_trans n1 n2 n3 : node_ext n1 n2 -> node_ext n2 n3 -> node_ext n1 n3.
Proof.
  intros (U1 & L1 & D1) (U2 & L2 & D2). split_and!; [congruence|lia|]. rewrite <- D1.
  apply (f_equal (take (Z.to_nat (len n1)))) in D2. unfold page in D2. rewrite !take_take in D2.
  by rewrite Nat.min_l in D2 by lia.
Qed.

Lemma store_ext_trans σ1 σ2 σ3 : store_ext σ1 σ2 -> store_ext σ2 σ3 -> store_ext σ1 σ3.
Proof.
  intros H1 H2 l n Hl. destruct (H1 l n Hl) as (n2 & Hl2 & He2). destruct (H2 l n2 Hl2) as (n3 & ? & ?).
  exists n3. split; [done|]. by eapply node_ext_trans.
Qed.

(** Changing one node of the store to an extension of it. *)
Lemma store_ext_insert σ l n n' :
  nodes σ !! l = Some n -> node_ext n n' -> store_ext σ (set_nodes (<[l := n']> (nodes σ)) σ).
Proof.
  intros Hl He k m Hk. cbn [nodes set_nodes]. destruct (decide (k = l)) as [->|].
  - rewrite lookup_insert_eq. rewrite Hl in Hk. injection Hk as <-. by exists n'.
  - rewrite lookup_insert_ne by done. exists m. split; [done|apply node_ext_refl].
Qed.

Lemma store_ext_alloc σ n d :
  (forall l n, nodes σ !! l = Some n -> (l < next_addr σ)%positive) -> store_ext σ (fst (alloc_node (add_size d σ) n)).
Proof.
  intros Hb k m Hk. cbn. rewrite lookup_insert_ne by (apply Hb in Hk; lia). exists m. split; [done|apply node_ext_refl].
Qed.

(** The chain after linking a new page to its last one. *)
Lemma seg_link N p cs t n q n' :
  seg N p (cs ++ [(t, n)]) None -> NoDup (cs ++ [(t, n)]).*1 -> q ∉ (cs ++ [(t, n)]).*1 -> node_ok n' -> next n' = None ->
  seg (<[t := set_next (Some q) n]> (<[q := n']> N)) p (cs ++ [(t, set_next (Some q) n); (q, n')]) None.
Proof.
  intros Hs Hnd Hq Hok Hnext. apply seg_app in Hs as (r & Hs1 & Hs2). cbn [seg] in Hs2. destruct Hs2 as (-> & Ht & Hokt & _).
  rewrite fmap_app in Hnd, Hq. cbn [fmap list_fmap] in Hnd, Hq. apply NoDup_app in Hnd as (Hnd1 & Hnd2 & _).
  rewrite not_elem_of_app, list_elem_of_singleton in Hq. cbn [fst] in *. destruct Hq as [Hq1 Hq2].
  apply seg_app. exists (Some t). split.
  - eapply seg_frame; [exact Hs1|]. intros l Hl. rewrite lookup_insert_ne; [rewrite lookup_insert_ne; [done|]|].
    + intros ->. done.
    + intros ->. apply (Hnd2 l Hl). by apply list_elem_of_singleton.
  - cbn [seg]. rewrite lookup_insert_eq, lookup_insert_ne, lookup_insert_eq by congruence. by split_and!.
Qed.

Section append_proofs.
Context (junk : bytes) (Hjunk : Z.of_nat (length junk) = SM_PAGE_SIZE).

(** A chain and the store around it, after an append of [d]. *)
Definition appended (σ : store) (m : mem_hdr) (cs : list (positive * mem_node)) (d : bytes) (r : option (store * mem_hdr)) : Prop :=
  exists σ' m' cs', r = Some (σ', m') /\ rep σ' m' cs' /\ content cs' = content cs ++ d /\
    origin_offset m' = origin_offset m /\ store_ext σ σ' /\
    (cs.*1 `prefix_of` cs'.*1) /\
    store_mem_size σ' = wrap_u 64 (store_mem_size σ + SM_PAGE_SIZE * Z.of_nat (length cs' - length cs)).

Lemma rep_bound σ m cs l : rep σ m cs -> l ∈ cs.*1 -> (l < next_addr σ)%positive.
Proof.
  intros (Hs & _ & _ & Hb) Hl. pose proof (seg_dom _ _ _ _ _ Hs Hl) as Hd. apply elem_of_dom in Hd as [n Hn]. by eapply Hb.
Qed.

(** A new page with the bytes [b] is added to the chain. *)
Lemma add_page σ m cs b pg :
  rep σ m cs -> 0 < Z.of_nat (length b) <= SM_PAGE_SIZE -> Z.of_nat (length pg) = SM_PAGE_SIZE -> take (length b) pg = b ->
  let '(σ1, q) := alloc_node (add_size SM_PAGE_SIZE σ) (mkNode pg (Z.of_nat (length b)) 0 None) in
  exists σ2 m2 cs2,
    match head m with
    | None => σ2 = σ1 /\ m2 = mkHdr (Some q) (Some q) (origin_offset m)
    | Some _ => exists t n, tail m = Some t /\ nodes σ1 !! t = Some n /\
        σ2 = set_nodes (<[t := set_next (Some q) n]> (nodes σ1)) σ1 /\ m2 = mkHdr (head m) (Some q) (origin_offset m)
    end /\
    rep σ2 m2 cs2 /\ content cs2 = content cs ++ b /\ store_ext σ σ2 /\ (cs.*1 `prefix_of` cs2.*1) /\
    length cs2 = S (length cs) /\ store_mem_size σ2 = wrap_u 64 (store_mem_size σ + SM_PAGE_SIZE).
Proof.
  intros Hrep Hb Hpg Htk. cbn [alloc_node add_size nodes next_addr store_mem_size]. pose proof Hrep as (Hs & Hnd & Ht & Hbd).
  set (q := next_addr σ). set (nd := mkNode pg (Z.of_nat (length b)) 0 None).
  assert (Hnok : node_ok nd) by (unfold node_ok, nd; cbn; lia).
  assert (Hpage : page nd = b) by (unfold page, nd; cbn; by rewrite Nat2Z.id).
  assert (Hfresh : nodes σ !! q = None) by (destruct (nodes σ !! q) eqn:E; [apply Hbd in E; unfold q in E; lia|done]).
  assert (Hq : q ∉ cs.*1) by (intros Hin; apply (rep_bound σ m cs q Hrep) in Hin; unfold q in Hin; lia).
  set (σ1 := mkStore (<[q := nd]> (nodes σ)) (Pos.succ q) (wrap_u 64 (store_mem_size σ + SM_PAGE_SIZE))).
  assert (Hext : store_ext σ σ1) by (apply (store_ext_alloc σ nd SM_PAGE_SIZE Hbd)).
  assert (Hbd1 : forall l n, nodes σ1 !! l = Some n -> (l < next_addr σ1)%positive).
  { intros l n Hl. unfold σ1 in *. cbn [nodes next_addr] in *. apply lookup_insert_Some in Hl as [[<- _]|[_ Hl]]; [lia|]. apply Hbd in Hl. unfold q. lia. }
  destruct cs as [|[t n] cs _] using rev_ind.
  - cbn [seg] in Hs. rewrite Hs. exists σ1, (mkHdr (Some q) (Some q) (origin_offset m)), [(q, nd)]. split_and!; try done.
    + split_and!; [|by apply NoDup_singleton|done|done]. cbn [seg head nodes]. unfold σ1. cbn [nodes]. by rewrite lookup_insert_eq.
    + rewrite content_cons, Hpage. cbn. by rewrite app_nil_r.
    + apply prefix_nil.
  - assert (Htail : tail m = Some t) by (rewrite Ht by (by destruct cs); rewrite fmap_app; apply last_snoc).
    destruct (seg_lookup _ _ _ _ t n Hs) as [Htl Htok]; [apply elem_of_app; right; by apply list_elem_of_singleton|].
    assert (Hhead : exists h, head m = Some h) by (destruct cs as [|[h nh] cs]; destruct Hs as [-> _]; by eexists).
    destruct Hhead as [h Hh]. rewrite Hh.
    exists (set_nodes (<[t := set_next (Some q) n]> (nodes σ1)) σ1), (mkHdr (Some h) (Some q) (origin_offset m)), (cs ++ [(t, set_next (Some q) n); (q, nd)]).
    assert (Htq : t <> q) by congruence.
    assert (Htl1 : nodes σ1 !! t = Some n) by (unfold σ1; cbn [nodes]; by rewrite lookup_insert_ne).
    rewrite fmap_app in Hnd, Hq. cbn [fmap list_fmap fst] in Hnd, Hq.
    split_and!.
    + exists t, n. by split_and!.
    + split_and!.
      * cbn [nodes set_nodes σ1 head]. rewrite <- Hh. apply seg_link; [done|by rewrite fmap_app|by rewrite fmap_app|done|done].
      * rewrite fmap_app. cbn [fmap list_fmap fst]. change [t; q] with ([t] ++ [q]). rewrite app_assoc.
        apply NoDup_app. split_and!; [done| |by apply NoDup_singleton]. intros x Hx Hxq%list_elem_of_singleton. congruence.
      * intros _. cbn [tail]. rewrite fmap_app. cbn [fmap list_fmap fst]. by rewrite last_app.
      * intros l k Hl. cbn [nodes set_nodes next_addr] in *. apply lookup_insert_Some in Hl as [[<- _]|[_ Hl]]; by eapply Hbd1.
    + rewrite !content_app, !content_cons, Hpage. cbn. rewrite !app_nil_r. by rewrite <- app_assoc.
    + eapply store_ext_trans; [exact Hext|]. apply (store_ext_insert _ _ n); [done|]. destruct (node_ext_refl n) as (? & ? & ?). by split_and!.
    + rewrite !fmap_app. cbn [fmap list_fmap fst]. apply prefix_app. by exists [q].
    + rewrite !length_app. cbn. lia.
    + done.
Qed.

Lemma append_loop_ok fuel σ m cs d :
  rep σ m cs -> (length d <= fuel)%nat -> 0 <= store_mem_size σ < 2 ^ 64 -> appended σ m cs d (append_loop junk fuel σ m d).
Proof.
  revert σ m cs d. induction fuel as [|fuel IH]; intros σ m cs d Hrep Hf Hsz.
  { destruct d; [|cbn in Hf; lia]. exists σ, m, cs. cbn [append_loop]. rewrite app_nil_r. split_and!; try done.
    - intros l n Hl. exists n. split; [done|apply node_ext_refl].
    - rewrite Nat.sub_diag, Z.mul_0_r, Z.add_0_r. by rewrite wrap_u_small. }
  destruct d as [|c d].
  { exists σ, m, cs. cbn [append_loop]. rewrite app_nil_r. split_and!; try done.
    - intros l n Hl. exists n. split; [done|apply node_ext_refl].
    - rewrite Nat.sub_diag, Z.mul_0_r, Z.add_0_r. by rewrite wrap_u_small. }
  cbn [append_loop]. set (k := Z.to_nat (Z.min (Z.of_nat (length (c :: d))) SM_PAGE_SIZE)).
  assert (Hk : (0 < k <= length (c :: d))%nat /\ Z.of_nat k <= SM_PAGE_SIZE) by (unfold k, SM_PAGE_SIZE; cbn [length]; lia).
  assert (Hkz : Z.min (Z.of_nat (length (c :: d))) SM_PAGE_SIZE = Z.of_nat k) by (unfold k; cbn [length]; unfold SM_PAGE_SIZE; lia).
  rewrite Hkz. clearbody k. assert (Hlb : length (take k (c :: d)) = k) by (rewrite length_take; lia).
  destruct (write_at_ok junk 0 (take k (c :: d))) as (pg & -> & Hpl & Hpt); [lia|lia|]. bind_simpl.
  cbn [Z.to_nat Nat.add take app] in Hpt. rewrite Hlb in Hpt.
  pose proof (add_page σ m cs (take k (c :: d)) pg Hrep) as Hadd. rewrite Hlb in Hadd.
  specialize (Hadd ltac:(lia) ltac:(lia) Hpt).
  destruct (alloc_node (add_size SM_PAGE_SIZE σ) (mkNode pg (Z.of_nat k) 0 None)) as [σ1 q].
  destruct Hadd as (σ2 & m2 & cs2 & Hcase & Hrep2 & Hc2 & Hx2 & Hp2 & Hl2 & Hs2).
  assert (Hgo : appended σ m cs (c :: d) (append_loop junk fuel σ2 m2 (drop k (c :: d)))).
  { destruct (IH σ2 m2 cs2 (drop k (c :: d)) Hrep2) as (σ' & m' & cs' & -> & Hrep' & Hc' & Ho' & Hx' & Hp' & Hs').
    { rewrite length_drop. cbn [length] in *. lia. }
    { rewrite Hs2. apply wrap_u_range. lia. }
    exists σ', m', cs'. split_and!; [done|done| | | | |].
    - by rewrite Hc', Hc2, <- app_assoc, take_drop.
    - rewrite Ho'. destruct (head m); [destruct Hcase as (? & ? & ? & ? & ? & ->)|destruct Hcase as (? & ->)]; done.
    - by eapply store_ext_trans.
    - by etrans.
    - rewrite Hs', Hs2, wrap_u_add. f_equal. pose proof (prefix_length _ _ Hp') as Hlen. rewrite !length_fmap in Hlen. unfold SM_PAGE_SIZE. lia. }
  destruct (head m) as [h|].
  - destruct Hcase as (t & n & -> & Hn & -> & ->). bind_simpl. rewrite Hn. bind_simpl.
    exact Hgo.
  - destruct Hcase as (-> & ->). exact Hgo.
Qed.

(** Filling the last page. *)
Lemma fill_tail σ m cs t n b pg :
  rep σ m (cs ++ [(t, n)]) -> len n + Z.of_nat (length b) <= SM_PAGE_SIZE ->
  Z.of_nat (length pg) = SM_PAGE_SIZE -> take (Z.to_nat (len n) + length b) pg = page n ++ b ->
  let n' := mkNode pg (len n + Z.of_nat (length b)) (uses n) (next n) in
  let σ' := set_nodes (<[t := n']> (nodes σ)) σ in
  rep σ' m (cs ++ [(t, n')]) /\ content (cs ++ [(t, n')]) = content (cs ++ [(t, n)]) ++ b /\ store_ext σ σ'.
Proof.
  intros (Hs & Hnd & Ht & Hbd) Hlen Hpg Htk n' σ'. pose proof Hs as Hs0. apply seg_app in Hs as (r & Hs1 & Hs2).
  cbn [seg] in Hs2. destruct Hs2 as (-> & Hl & Hok & Hnx). pose proof (length_page n Hok) as Hlp. destruct Hok as [Hok1 Hok2].
  rewrite fmap_app in Hnd, Ht. cbn [fmap list_fmap fst] in Hnd, Ht.
  assert (Hnot : t ∉ cs.*1) by (intros Hin; apply NoDup_app in Hnd as (_ & Hd & _); apply (Hd t Hin); by apply list_elem_of_singleton).
  assert (Hpn : page n' = page n ++ b).
  { unfold page at 1, n'. cbn [len data]. rewrite Z2Nat.inj_add, Nat2Z.id by lia. exact Htk. }
  split_and!.
  - split_and!.
    + apply seg_app. exists (Some t). split.
      * eapply seg_frame; [exact Hs1|]. intros l Hl'. cbn [nodes set_nodes σ']. apply lookup_insert_ne. congruence.
      * cbn [seg nodes set_nodes σ' next n']. rewrite lookup_insert_eq. split_and!; [done|done| |done].
        unfold node_ok. cbn [data len n']. lia.
    + by rewrite fmap_app.
    + intros _. rewrite fmap_app. apply Ht. by destruct cs.
    + intros l k Hk. cbn [nodes set_nodes next_addr σ'] in *. apply lookup_insert_Some in Hk as [[<- _]|[_ Hk]]; by eapply Hbd.
  - rewrite !content_app, !content_cons, Hpn. cbn. rewrite !app_nil_r. by rewrite app_assoc.
  - apply (store_ext_insert _ _ n); [done|]. unfold node_ext, n'. cbn [uses len data]. split_and!; [done|lia|].
    apply (f_equal (take (Z.to_nat (len n)))) in Htk. rewrite take_take, Nat.min_l in Htk by lia. rewrite Htk.
    rewrite take_app_le by lia. apply take_ge. lia.
Qed.

Lemma stmemAppend_ok σ m cs d :
  rep σ m cs -> 0 <= store_mem_size σ < 2 ^ 64 -> appended σ m cs d (stmemAppend junk σ m d).
Proof.
  intros Hrep Hsz. unfold stmemAppend. pose proof Hrep as (Hs & Hnd & Ht & Hbd).
  assert (Hplain : appended σ m cs d (append_loop junk (S (length d)) σ m d)) by (apply append_loop_ok; [done|lia|done]).
  destruct cs as [|[t n] cs _] using rev_ind; [cbn [seg] in Hs; by rewrite Hs|].
  assert (Htail : tail m = Some t) by (rewrite Ht by (by destruct cs); rewrite fmap_app; apply last_snoc).
  assert (Hhead : exists h, head m = Some h) by (destruct cs as [|[h nh] cs]; destruct Hs as [-> _]; by eexists).
  destruct Hhead as [h Hh]. rewrite Hh, Htail.
  destruct (seg_lookup _ _ _ _ t n Hs) as [Htl Htok]; [apply elem_of_app; right; by apply list_elem_of_singleton|].
  rewrite Htl. bind_simpl. destruct (Z.ltb_spec (len n) SM_PAGE_SIZE) as [Hlt|Hge]; [|done].
  set (k := Z.to_nat (Z.min (SM_PAGE_SIZE - len n) (Z.of_nat (length d)))). pose proof Htok as [Hok1 Hok2].
  assert (Hkz : Z.min (SM_PAGE_SIZE - len n) (Z.of_nat (length d)) = Z.of_nat k) by (unfold k; lia).
  assert (Hkb : (k <= length d)%nat /\ Z.of_nat k <= SM_PAGE_SIZE - len n) by (unfold k; lia).
  rewrite Hkz. clearbody k. assert (Hlb : length (take k d) = k) by (rewrite length_take; lia).
  destruct (write_at_ok (data n) (len n) (take k d)) as (pg & -> & Hpl & Hpt); [lia|lia|]. bind_simpl.
  destruct (fill_tail σ m cs t n (take k d) pg Hrep) as (Hrep1 & Hc1 & Hx1); [lia|lia|by unfold page|].
  rewrite Hlb in Hrep1, Hc1, Hx1.
  destruct (append_loop_ok (S (length d)) _ _ _ (drop k d) Hrep1) as (σ' & m' & cs' & -> & Hrep' & Hc' & Ho' & Hx' & Hp' & Hs').
  { rewrite length_drop. lia. }
  { done. }
  exists σ', m', cs'. split_and!; [done|done| |done|by eapply store_ext_trans| |].
  - by rewrite Hc', Hc1, <- app_assoc, take_drop.
  - rewrite !fmap_app in *. exact Hp'.
  - rewrite Hs'. rewrite !length_app. done.
Qed.
End append_proofs.

(** ** Copying *)

Lemma read_at_ok pg off n :
  0 <= off -> 0 <= n -> off + n <= Z.of_nat (length pg) -> read_at pg off n = Some (take (Z.to_nat n) (drop (Z.to_nat off) pg)).
Proof.
  intros. unfold read_at. destruct (Z.leb_spec 0 off), (Z.leb_spec 0 n), (Z.leb_spec (off + n) (Z.of_nat (length pg))); try lia. done.
Qed.

Lemma copy_loop_ok fuel σ p cs go buf :
  seg (nodes σ) p cs None -> (length cs <= fuel)%nat -> 0 <= go ->
  copy_loop fuel σ p go buf = Some (buf ++ take (Z.to_nat go) (content cs)).
Proof.
  revert p cs go buf. induction fuel as [|fuel IH]; intros p cs go buf Hs Hf Hgo.
  { destruct cs as [|[l n] cs]; [|cbn in Hf; lia]. cbn [seg] in Hs. subst p. cbn. by rewrite take_nil, app_nil_r. }
  destruct cs as [|[l n] cs]; cbn [seg] in Hs; [subst p; cbn; by rewrite take_nil, app_nil_r|].
  destruct Hs as (-> & Hl & Hok & Hs). cbn [copy_loop]. pose proof (length_page n Hok) as Hlp. pose proof Hok as [Hd Hln].
  destruct (Z.leb_spec go 0); [replace go with 0 by lia; by rewrite app_nil_r|]. rewrite Hl. bind_simpl.
  rewrite content_cons. destruct (Z.ltb_spec (len n) go).
  - rewrite read_at_ok by lia. bind_simpl. rewrite drop_0. change (take (Z.to_nat (len n)) (data n)) with (page n).
    rewrite (IH _ cs) by (done || cbn in Hf; lia). f_equal. rewrite <- app_assoc. f_equal.
    rewrite (take_app_ge (page n)) by lia. f_equal. f_equal. lia.
  - rewrite read_at_ok by lia. bind_simpl. rewrite (IH _ cs) by (done || cbn in Hf; lia).
    f_equal. rewrite <- app_assoc. f_equal. cbn [Z.to_nat take]. rewrite app_nil_r, drop_0.
    rewrite take_app_le by lia. unfold page. by rewrite take_take, Nat.min_l by lia.
Qed.

(** Seeking: the page found starts at or before the offset, which is not
    beyond its end. *)
Lemma copy_seek_ok fuel σ p cs t_off off :
  seg (nodes σ) (Some p) cs None -> (length cs <= fuel)%nat -> t_off <= off ->
  exists r, copy_seek fuel σ p t_off off = Some r /\
    match r with
    | None => t_off + Z.of_nat (length (content cs)) < off
    | Some (q, t') => exists cs1 n cs2, cs = cs1 ++ (q, n) :: cs2 /\ t' = t_off + Z.of_nat (length (content cs1)) /\
        t' <= off <= t' + len n
    end.
Proof.
  revert p cs t_off. induction fuel as [|fuel IH]; intros p cs t_off Hs Hf Ho.
  { destruct cs as [|[l n] cs]; [done|cbn in Hf; lia]. }
  destruct cs as [|[l n] cs]; [done|]. destruct Hs as ([= ->] & Hl & Hok & Hs). cbn [copy_seek]. rewrite Hl. bind_simpl.
  pose proof (length_page n Hok) as Hlp. destruct (Z.ltb_spec (t_off + len n) off).
  2: { eexists. split; [done|]. exists [], n, cs. cbn. split_and!; [done|lia..]. }
  destruct (next n) as [q|] eqn:Hn.
  - destruct (IH q cs (t_off + len n)) as (r & Hr & Hres); [done|cbn in Hf; lia|lia|]. exists r. split; [done|].
    destruct r as [[q' t']|].
    + destruct Hres as (cs1 & n' & cs2 & -> & Ht & Hb). exists ((l, n) :: cs1), n', cs2. rewrite content_cons, length_app. split_and!; [done|lia..].
    + rewrite content_cons, length_app. lia.
  - destruct cs as [|[l' n'] cs]; [|by destruct Hs]. eexists. split; [done|]. rewrite content_cons, app_nil_r. lia.
Qed.

Lemma stmemCopy_ok σ m cs off size :
  rep σ m cs -> origin_offset m <= off -> 0 < size ->
  stmemCopy σ m off size = Some (take (Z.to_nat size) (drop (Z.to_nat (off - origin_offset m)) (content cs))).
Proof.
  intros (Hs & Hnd & _) Ho Hsize. unfold stmemCopy. pose proof (chain_fuel_ok _ _ _ _ Hs Hnd) as Hf.
  destruct cs as [|[l n] cs0]; [cbn [seg] in Hs; rewrite Hs; cbn [content map concat]; by rewrite drop_nil, take_nil|].
  assert (Hhead : head m = Some l) by (destruct Hs as [-> _]; done). rewrite Hhead in Hs |- *.
  set (cs := (l, n) :: cs0) in *. clearbody cs. destruct (Z.ltb_spec 0 size); [|lia].
  destruct (copy_seek_ok (chain_fuel σ) σ l cs (origin_offset m) off) as (r & -> & Hr); [done|lia|lia|]. bind_simpl.
  destruct r as [[q t']|]; [|rewrite drop_ge, take_nil by lia; done].
  destruct Hr as (cs1 & n' & cs2 & -> & Ht & Hb). apply seg_app in Hs as (p' & _ & Hs2). destruct Hs2 as (_ & Hl & Hok & Hs2).
  rewrite Hl. bind_simpl. pose proof (length_page n' Hok) as Hlp. pose proof Hok as [Hd Hln].
  rewrite read_at_ok by lia. bind_simpl.
  rewrite (copy_loop_ok _ _ _ cs2) by (done || lia || (rewrite length_app in Hf; cbn in Hf; lia)).
  f_equal. rewrite content_app, content_cons. rewrite (drop_app_ge (content cs1)) by lia.
  replace (Z.to_nat (off - origin_offset m) - length (content cs1))%nat with (Z.to_nat (off - t')) by lia.
  rewrite drop_app_le, take_app by lia. unfold page at 1.
  replace (Z.to_nat (len n')) with (Z.to_nat (off - t') + Z.to_nat (len n' - (off - t')))%nat by lia.
  rewrite <- take_drop_commute, take_take, length_drop. f_equal; f_equal; lia.
Qed.

(** ** References *)

Lemma ref_seek_ok fuel σ p cs t_off off :
  seg (nodes σ) (Some p) cs None -> (length cs <= fuel)%nat -> t_off <= off ->
  exists r, ref_seek fuel σ p t_off off = Some r /\
    match r with
    | None => t_off + Z.of_nat (length (content cs)) <= off
    | Some (q, t') => exists cs1 n cs2, cs = cs1 ++ (q, n) :: cs2 /\ t' = t_off + Z.of_nat (length (content cs1)) /\
        t' <= off < t' + len n
    end.
Proof.
  revert p cs t_off. induction fuel as [|fuel IH]; intros p cs t_off Hs Hf Ho.
  { destruct cs as [|[l n] cs]; [done|cbn in Hf; lia]. }
  destruct cs as [|[l n] cs]; [done|]. destruct Hs as ([= ->] & Hl & Hok & Hs). cbn [ref_seek]. rewrite Hl. bind_simpl.
  pose proof (length_page n Hok) as Hlp. destruct (Z.leb_spec (t_off + len n) off).
  2: { eexists. split; [done|]. exists [], n, cs. cbn. split_and!; [done|lia..]. }
  destruct (next n) as [q|] eqn:Hn.
  - destruct (IH q cs (t_off + len n)) as (r & Hr & Hres); [done|cbn in Hf; lia|lia|]. exists r. split; [done|].
    destruct r as [[q' t']|].
    + destruct Hres as (cs1 & n' & cs2 & -> & Ht & Hb). exists ((l, n) :: cs1), n', cs2. rewrite content_cons, length_app. split_and!; [done|lia..].
    + rewrite content_cons, length_app. lia.
  - destruct cs as [|[l' n'] cs]; [|by destruct Hs]. eexists. split; [done|]. rewrite content_cons, app_nil_r. lia.
Qed.

Lemma stmemRef_ok σ m cs off :
  rep σ m cs -> origin_offset m <= off ->
  (origin_offset m + Z.of_nat (length (content cs)) <= off /\ stmemRef σ m off = Some (σ, None, 0)) \/
  exists q n o avail, nodes σ !! q = Some n /\ 0 <= o /\ 0 < avail /\ o + avail = len n /\
    stmemRef σ m off = Some (set_nodes (<[q := set_uses (uses n + 1) n]> (nodes σ)) σ, Some (mkRef (Some q) o), avail) /\
    take (Z.to_nat avail) (drop (Z.to_nat o) (data n)) = take (Z.to_nat avail) (drop (Z.to_nat (off - origin_offset m)) (content cs)).
Proof.
  intros (Hs & Hnd & _) Ho. unfold stmemRef. pose proof (chain_fuel_ok _ _ _ _ Hs Hnd) as Hf.
  destruct cs as [|[l n] cs0]; [cbn [seg] in Hs; rewrite Hs; left; split; [cbn; lia|done]|].
  assert (Hhead : head m = Some l) by (destruct Hs as [-> _]; done). rewrite Hhead in Hs |- *.
  set (cs := (l, n) :: cs0) in *. clearbody cs.
  destruct (ref_seek_ok (chain_fuel σ) σ l cs (origin_offset m) off) as (r & -> & Hr); [done|lia|lia|]. bind_simpl.
  destruct r as [[q t']|]; [right|by left].
  destruct Hr as (cs1 & n' & cs2 & -> & Ht & Hb). apply seg_app in Hs as (p' & _ & Hs2). destruct Hs2 as (_ & Hl & Hok & Hs2).
  rewrite Hl. bind_simpl. pose proof (length_page n' Hok) as Hlp. pose proof Hok as [Hd Hln].
  exists q, n', (off - t'), (len n' + t' - off). split_and!; [done|lia..| |].
  - destruct (Z.leb_spec 0 (off - t')); [|lia]. destruct (Z.ltb_spec 0 (len n' + t' - off)); [|lia]. done.
  - rewrite content_app, content_cons, (drop_app_ge (content cs1)) by lia.
    replace (Z.to_nat (off - origin_offset m) - length (content cs1))%nat with (Z.to_nat (off - t')) by lia.
    rewrite drop_app_le, take_app_le by (rewrite ?length_drop; lia). unfold page.
    replace (Z.to_nat (len n')) with (Z.to_nat (off - t') + Z.to_nat (len n' + t' - off))%nat by lia.
    rewrite <- take_drop_commute, take_take. f_equal. lia.
Qed.

(** ** Freeing *)

(** What dropping the pages [cs] does to the store: a page that is not
    referenced is returned to the pool, a referenced one stays with one use
    less. *)
Definition released (σ : store) (cs : list (positive * mem_node)) (σ' : store) : Prop :=
  next_addr σ' = next_addr σ /\
  (forall l, l ∉ cs.*1 -> nodes σ' !! l = nodes σ !! l) /\
  (forall l n, (l, n) ∈ cs -> nodes σ' !! l = if uses n =? 0 then None else Some (set_uses (uses n - 1) n)) /\
  store_mem_size σ' = wrap_u 64 (store_mem_size σ - SM_PAGE_SIZE * Z.of_nat (length cs)).

Lemma node_free_ok σ l n :
  nodes σ !! l = Some n -> exists σ', stmemNodeFree (add_size (- SM_PAGE_SIZE) σ) l = Some σ' /\ released σ [(l, n)] σ'.
Proof.
  intros Hl. unfold stmemNodeFree. cbn [nodes add_size]. rewrite Hl. bind_simpl.
  assert (Hk : forall k, k ∉ [(l, n)].*1 -> k <> l) by (cbn; intros k Hk ->; apply Hk; by apply list_elem_of_singleton).
  destruct (uses n =? 0) eqn:Hu; eexists; (split; [done|]); unfold released; cbn [nodes set_nodes next_addr add_size store_mem_size length];
    (split_and!; [done| | |f_equal; unfold SM_PAGE_SIZE; lia]).
  - intros k Hk'. apply lookup_delete_ne. apply Hk in Hk'. done.
  - intros k m [= -> ->]%list_elem_of_singleton. rewrite Hu. apply lookup_delete_eq.
  - intros k Hk'. apply lookup_insert_ne. apply Hk in Hk'. done.
  - intros k m [= -> ->]%list_elem_of_singleton. rewrite Hu. apply lookup_insert_eq.
Qed.

Lemma released_cons σ l n cs σ1 σ' :
  NoDup ((l, n) :: cs).*1 -> released σ [(l, n)] σ1 -> released σ1 cs σ' -> released σ ((l, n) :: cs) σ'.
Proof.
  intros Hnd (A1 & B1 & C1 & D1) (A2 & B2 & C2 & D2). cbn [fmap list_fmap fst] in Hnd. apply NoDup_cons in Hnd as [Hl Hnd].
  split_and!; [congruence| | |].
  - intros k Hk. cbn [fmap list_fmap fst] in Hk. apply not_elem_of_cons in Hk as [Hk1 Hk2]. rewrite B2 by done. apply B1.
    cbn. intros ?%list_elem_of_singleton. done.
  - intros k m Hin. apply elem_of_cons in Hin as [[= -> ->]|Hin]; [|by apply C2].
    rewrite B2 by done. apply C1. by apply list_elem_of_singleton.
  - rewrite D2, D1. unfold Z.sub. rewrite wrap_u_add. f_equal. cbn [length]. unfold SM_PAGE_SIZE. lia.
Qed.

Lemma released_nil σ : 0 <= store_mem_size σ < 2 ^ 64 -> released σ [] σ.
Proof.
  intros Hsz. split_and!; [done|done| |].
  - intros l n Hin. by apply not_elem_of_nil in Hin.
  - cbn. rewrite Z.sub_0_r. by rewrite wrap_u_small.
Qed.

Lemma released_size σ cs σ' : released σ cs σ' -> 0 <= store_mem_size σ' < 2 ^ 64.
Proof. intros (_ & _ & _ & ->). apply wrap_u_range. lia. Qed.

Lemma released_seg σ l n σ1 p cs q :
  NoDup ((l, n) :: cs).*1 -> released σ [(l, n)] σ1 -> seg (nodes σ) p cs q -> seg (nodes σ1) p cs q.
Proof.
  intros Hnd (_ & B & _) Hs. cbn [fmap list_fmap fst] in Hnd. apply NoDup_cons in Hnd as [Hl _].
  eapply seg_frame; [exact Hs|]. intros k Hk. apply B. cbn. intros ->%list_elem_of_singleton. done.
Qed.

Lemma free_loop_ok fuel σ p cs :
  seg (nodes σ) p cs None -> NoDup cs.*1 -> (length cs <= fuel)%nat -> 0 <= store_mem_size σ < 2 ^ 64 ->
  exists σ', free_loop fuel σ p = Some σ' /\ released σ cs σ'.
Proof.
  revert σ p cs. induction fuel as [|fuel IH]; intros σ p cs Hs Hnd Hf Hsz; (destruct cs as [|[l n] cs]; cbn [seg] in Hs).
  - subst p. exists σ. split; [done|by apply released_nil].
  - cbn in Hf. lia.
  - subst p. exists σ. split; [done|by apply released_nil].
  - destruct Hs as (-> & Hl & Hok & Hs). cbn [free_loop]. rewrite Hl. bind_simpl.
    destruct (node_free_ok σ l n Hl) as (σ1 & -> & Hr1). bind_simpl.
    destruct (IH σ1 (next n) cs) as (σ' & -> & Hr').
    + by eapply released_seg.
    + cbn [fmap list_fmap fst] in Hnd. by apply NoDup_cons in Hnd as [_ ?].
    + cbn in Hf. lia.
    + by eapply released_size.
    + exists σ'. split; [done|]. by eapply released_cons.
Qed.

(** The loop drops whole pages that end at or before the target, but never
    the last one. *)
Lemma upto_loop_ok fuel σ tl p cs cur target :
  seg (nodes σ) p cs None -> NoDup cs.*1 -> (cs <> [] -> tl = list.last cs.*1) -> (length cs <= fuel)%nat ->
  0 <= store_mem_size σ < 2 ^ 64 -> cur <= target ->
  exists σ' h cur' at_tail cs1 cs2, upto_loop fuel σ tl p cur target = Some (σ', h, cur', at_tail) /\
    cs = cs1 ++ cs2 /\ (cs <> [] -> cs2 <> []) /\ released σ cs1 σ' /\ seg (nodes σ') h cs2 None /\
    cur' = cur + Z.of_nat (length (content cs1)) /\ cur' <= target /\
    (forall l n cs3, cs2 = (l, n) :: cs3 -> cs3 <> [] -> target < cur' + len n).
Proof.
  revert σ p cs cur. induction fuel as [|fuel IH]; intros σ p cs cur Hs Hnd Htl Hf Hsz Hc; (destruct cs as [|[l n] cs]; cbn [seg] in Hs).
  - subst p. exists σ, None, cur, false, [], []. cbn. split_and!; try done; [by apply released_nil|lia].
  - cbn in Hf. lia.
  - subst p. exists σ, None, cur, false, [], []. cbn. split_and!; try done; [by apply released_nil|lia].
  - destruct Hs as (-> & Hl & Hok & Hs). cbn [upto_loop]. rewrite Hl. bind_simpl. specialize (Htl ltac:(done)).
    destruct (Z.leb_spec (cur + len n) target) as [Hle|Hgt].
    2: { exists σ, (Some l), cur, false, [], ((l, n) :: cs). cbn [app seg]. split_and!; try done; [by apply released_nil|cbn; lia|].
         intros ? ? ? [= <- <- <-] _. done. }
    destruct (decide (Some l = tl)) as [Heq|Hne].
    + assert (cs = []) as ->.
      { destruct cs as [|[l' n'] cs]; [done|]. exfalso. cbn [fmap list_fmap fst] in Htl, Hnd. rewrite last_cons_cons in Htl.
        rewrite <- Heq in Htl. symmetry in Htl. apply NoDup_cons in Hnd as [Hnot _]. apply Hnot.
        by apply last_Some_elem_of. }
      exists σ, tl, cur, true, [], [(l, n)]. rewrite <- Heq. cbn [app seg]. split_and!; try done; [by apply released_nil|cbn; lia|].
      intros ? ? ? [= <- <- <-]. done.
    + destruct (node_free_ok σ l n Hl) as (σ1 & -> & Hr1). bind_simpl.
      assert (Hcs : cs <> []) by (intros ->; by cbn in Htl).
      pose proof Hnd as Hnd0. cbn [fmap list_fmap fst] in Hnd. apply NoDup_cons in Hnd as [Hnot Hnd].
      destruct (IH σ1 (next n) cs (cur + len n)) as (σ' & h & cur' & b & cs1 & cs2 & -> & -> & H2 & Hr & Hs2 & Hcur & Hle2 & Hmax).
      * by eapply released_seg.
      * done.
      * intros _. rewrite Htl. destruct cs as [|[l' n'] cs]; [done|]. cbn [fmap list_fmap fst]. by rewrite last_cons_cons.
      * cbn in Hf. lia.
      * by eapply released_size.
      * lia.
      * exists σ', h, cur', b, ((l, n) :: cs1), cs2. pose proof (length_page n Hok). split_and!; try done.
        -- intros _. by apply H2.
        -- eapply released_cons; [|exact Hr1|exact Hr]. cbn [fmap list_fmap fst]. rewrite fmap_app in Hnot, Hnd.
           apply NoDup_cons. split; [rewrite not_elem_of_app in Hnot; tauto|]. by apply NoDup_app in Hnd as [? _].
        -- rewrite content_cons, length_app. lia.
Qed.

Lemma stmemFreeDataUpto_ok σ m cs target :
  rep σ m cs -> origin_offset m <= target -> 0 <= store_mem_size σ < 2 ^ 64 ->
  exists σ' m' cs1 cs2, stmemFreeDataUpto σ m target = Some (σ', m', origin_offset m') /\ cs = cs1 ++ cs2 /\
    rep σ' m' cs2 /\ released σ cs1 σ' /\ (cs <> [] -> cs2 <> []) /\
    origin_offset m' = origin_offset m + Z.of_nat (length (content cs1)) /\ origin_offset m' <= target /\
    (forall l n cs3, cs2 = (l, n) :: cs3 -> cs3 <> [] -> target < origin_offset m' + len n).
Proof.
  intros (Hs & Hnd & Ht & Hbd) Ho Hsz. unfold stmemFreeDataUpto. pose proof (chain_fuel_ok _ _ _ _ Hs Hnd) as Hf.
  destruct (upto_loop_ok (chain_fuel σ) σ (tail m) (head m) cs (origin_offset m) target)
    as (σ' & h & cur' & b & cs1 & cs2 & -> & -> & H2 & Hr & Hs2 & Hcur & Hle & Hmax); [done|done|done|lia|done|done|].
  bind_simpl.
  assert (Hres : (if b then Some (σ', mkHdr h (tail m) cur', cur')
      else if cur' <? target then Some (σ', mkHdr h (tail m) cur', cur')
      else assert? cur' =? target in Some (σ', mkHdr h (tail m) cur', cur')) = Some (σ', mkHdr h (tail m) cur', cur')).
  { destruct b; [done|]. destruct (Z.ltb_spec cur' target); [done|]. by destruct (Z.eqb_spec cur' target); [|lia]. }
  rewrite Hres. exists σ', (mkHdr h (tail m) cur'), cs1, cs2. cbn [origin_offset]. split_and!; try done.
  split_and!; cbn [head tail]; [done| | |].
  - rewrite fmap_app in Hnd. by apply NoDup_app in Hnd as (_ & _ & ?).
  - intros Hne. rewrite Ht by (by destruct cs1). rewrite fmap_app, last_app. destruct (list.last cs2.*1) eqn:E; [done|].
    apply last_None in E. by destruct cs2.
  - destruct Hr as (Hna & HB & HC & _). intros l n Hl. rewrite Hna. destruct (decide (l ∈ cs1.*1)) as [Hin|Hin].
    + eapply (rep_bound σ m (cs1 ++ cs2)); [done|]. rewrite fmap_app. apply elem_of_app. by left.
    + rewrite HB in Hl by done. by eapply Hbd.
Qed.

(** ** References and the chain *)

(** The chain with the use count of page [q] set to [u]. *)
Definition with_uses (q : positive) (u : Z) (cs : list (positive * mem_node)) : list (positive * mem_node) :=
  map (fun c => (fst c, if decide (fst c = q) then set_uses u (snd c) else snd c)) cs.

Lemma with_uses_keys q u cs : (with_uses q u cs).*1 = cs.*1.
Proof. induction cs as [|[l k] cs IH]; [done|]. unfold with_uses in *. cbn [map fmap list_fmap fst]. f_equal. exact IH. Qed.

Lemma with_uses_content q u cs : content (with_uses q u cs) = content cs.
Proof.
  induction cs as [|[l k] cs IH]; [done|]. unfold with_uses in *. cbn [map]. rewrite !content_cons, IH. f_equal. cbn [fst snd].
  by case_decide.
Qed.

Lemma seg_with_uses N p cs r q n u : seg N p cs r -> N !! q = Some n -> seg (<[q := set_uses u n]> N) p (with_uses q u cs) r.
Proof.
  revert p. induction cs as [|[l k] cs IH]; intros p Hs Hq; [done|]. destruct Hs as (-> & Hl & Hok & Hs).
  cbn [with_uses map seg fst snd]. case_decide as Hd.
  - subst l. rewrite Hl in Hq. injection Hq as ->. rewrite lookup_insert_eq. split_and!; [done..|]. cbn [next set_uses]. by apply IH.
  - rewrite lookup_insert_ne by done. split_and!; [done..|]. by apply IH.
Qed.

Lemma rep_with_uses σ m cs q n u :
  rep σ m cs -> nodes σ !! q = Some n -> rep (set_nodes (<[q := set_uses u n]> (nodes σ)) σ) m (with_uses q u cs).
Proof.
  intros (Hs & Hnd & Ht & Hbd) Hq. split_and!.
  - by apply seg_with_uses.
  - by rewrite with_uses_keys.
  - intros Hne. rewrite with_uses_keys. apply Ht. by intros ->.
  - intros l k Hl. cbn [nodes set_nodes next_addr] in *. apply lookup_insert_Some in Hl as [[<- _]|[_ Hl]]; by eapply Hbd.
Qed.

Lemma with_uses_elem q u cs l n : (l, n) ∈ cs -> (l, if decide (l = q) then set_uses u n else n) ∈ with_uses q u cs.
Proof. intros Hin. unfold with_uses. apply list_elem_of_In, in_map_iff. exists (l, n). split; [done|by apply list_elem_of_In]. Qed.

Lemma stmemFree_ok σ m cs :
  rep σ m cs -> 0 <= store_mem_size σ < 2 ^ 64 ->
  exists σ', stmemFree σ m = Some (σ', mkHdr None None 0) /\ released σ cs σ'.
Proof.
  intros (Hs & Hnd & _) Hsz. unfold stmemFree. pose proof (chain_fuel_ok _ _ _ _ Hs Hnd) as Hf.
  destruct (free_loop_ok (chain_fuel σ) σ (head m) cs) as (σ' & -> & Hr); [done|done|lia|done|]. by exists σ'.
Qed.

(** ** Properties *)

(** C33. [stmemAppend] appends: after it the chain holds the old bytes followed by the new ones, at the same origin, with the
    old pages in front; it fills the last page in place and adds pages of 4096 bytes.  No byte that a reference to an old
    page can see changes, nor any use count, and [store_mem_size] grows by a page for each page added. *)
Theorem stmemAppend_correct junk σ m cs d :
  Z.of_nat (length junk) = SM_PAGE_SIZE -> rep σ m cs -> 0 <= store_mem_size σ < 2 ^ 64 ->
  exists σ' m' cs', stmemAppend junk σ m d = Some (σ', m') /\ rep σ' m' cs' /\ content cs' = content cs ++ d /\
    origin_offset m' = origin_offset m /\
    (forall l n, nodes σ !! l = Some n -> exists n', nodes σ' !! l = Some n' /\ uses n' = uses n /\ len n <= len n' /\
       take (Z.to_nat (len n)) (data n') = page n) /\
    (cs.*1 `prefix_of` cs'.*1) /\
    store_mem_size σ' = wrap_u 64 (store_mem_size σ + SM_PAGE_SIZE * Z.of_nat (length cs' - length cs)).
Proof.
  intros Hj Hrep Hsz. destruct (stmemAppend_ok junk Hj σ m cs d Hrep Hsz) as (σ' & m' & cs' & ? & ? & ? & ? & Hx & ? & ?).
  by exists σ', m', cs'.
Qed.

Definition ex_store : store := mkStore ∅ 1 0.
Definition ex_hdr : mem_hdr := mkHdr None None 0.
Definition ex_junk : bytes := repeat 255 (Z.to_nat SM_PAGE_SIZE).

Lemma ex_rep : rep ex_store ex_hdr [].
Proof.
  split_and!; [reflexivity|constructor|congruence|]. intros l n Hl. cbn in Hl. rewrite lookup_empty in Hl. discriminate.
Qed.

Lemma stmemAppend_witness :
  (exists σ' m' cs', stmemAppend ex_junk ex_store ex_hdr [1; 2; 3] = Some (σ', m') /\ rep σ' m' cs' /\
    content cs' = content [] ++ [1; 2; 3] /\ origin_offset m' = origin_offset ex_hdr /\
    (forall l n, nodes ex_store !! l = Some n -> exists n', nodes σ' !! l = Some n' /\ uses n' = uses n /\ len n <= len n' /\
       take (Z.to_nat (len n)) (data n') = page n) /\
    ((@nil (positive * mem_node)).*1 `prefix_of` cs'.*1) /\
    store_mem_size σ' = wrap_u 64 (store_mem_size ex_store + SM_PAGE_SIZE * Z.of_nat (length cs' - length (@nil (positive * mem_node))))) /\
  (let? (σ, m) := stmemAppend ex_junk ex_store ex_hdr [1; 2; 3] in
   let? (σ, m) := stmemAppend ex_junk σ m [4; 5] in stmemCopy σ m 1 3) = Some [2; 3; 4].
Proof.
  split; [|vm_compute; reflexivity].
  apply (stmemAppend_correct ex_junk ex_store ex_hdr [] [1; 2; 3]); [vm_compute; reflexivity|exact ex_rep|cbn; lia].
Defined.

(** C36. [stmemCopy] reads the byte stream: at an offset not before the origin it gives the bytes from there on, as many as
    asked for or as there are, across pages; the seek and copy loops end, and no byte outside a page is read. *)
Theorem stmemCopy_correct σ m cs off size :
  rep σ m cs -> origin_offset m <= off -> 0 < size ->
  stmemCopy σ m off size = Some (take (Z.to_nat size) (drop (Z.to_nat (off - origin_offset m)) (content cs))).
Proof. apply stmemCopy_ok. Qed.

(** A chain of two pages. *)
Definition ex_node (b : Z) (n : Z) (nx : option positive) : mem_node := mkNode (repeat b (Z.to_nat SM_PAGE_SIZE)) n 0 nx.
Lemma ex_node_ok b n nx : 0 < n <= 4096 -> node_ok (ex_node b n nx).
Proof. intros Hn. unfold node_ok, ex_node. cbn [data len]. rewrite repeat_length. unfold SM_PAGE_SIZE. lia. Qed.

Definition ex_chain : list (positive * mem_node) := [(1%positive, ex_node 7 4096 (Some 2%positive)); (2%positive, ex_node 8 3 None)].
Definition ex_store2 : store := mkStore (list_to_map ex_chain) 3 8192.
Definition ex_hdr2 : mem_hdr := mkHdr (Some 1%positive) (Some 2%positive) 100.

Lemma ex_rep2 : rep ex_store2 ex_hdr2 ex_chain.
Proof.
  split_and!.
  - cbn [seg ex_chain]. split_and!; try (vm_compute; reflexivity); apply ex_node_ok; lia.
  - apply (bool_decide_unpack _). vm_compute. exact I.
  - intros _. reflexivity.
  - intros l n Hl. cbn [nodes ex_store2] in Hl. apply elem_of_list_to_map_2 in Hl. cbn [next_addr ex_store2].
    repeat (apply elem_of_cons in Hl as [Hl|Hl]; [injection Hl as -> _; lia|]). by apply not_elem_of_nil in Hl.
Qed.

Lemma stmemCopy_witness :
  stmemCopy ex_store2 ex_hdr2 4194 10 =
    Some (take (Z.to_nat 10) (drop (Z.to_nat (4194 - origin_offset ex_hdr2)) (content ex_chain))) /\
  stmemCopy ex_store2 ex_hdr2 4194 10 = Some [7; 7; 8; 8; 8].
Proof.
  split; [|vm_compute; reflexivity].
  apply (stmemCopy_correct ex_store2 ex_hdr2 ex_chain 4194 10 ex_rep2); [cbn; lia|lia].
Defined.

(** [stmemFreeDataUpto] drops whole pages from the front: the chain keeps a suffix of its pages whose first byte is at
    the returned offset, never beyond the target, and never gives up its last page; every page that ends at or before the
    target is dropped but the last one.  Dropped pages go back to the pool or, when referenced, stay with one use less;
    the assertion in it holds. *)
Theorem stmemFreeDataUpto_correct σ m cs target :
  rep σ m cs -> origin_offset m <= target -> 0 <= store_mem_size σ < 2 ^ 64 ->
  exists σ' m' cs1 cs2, stmemFreeDataUpto σ m target = Some (σ', m', origin_offset m') /\ cs = cs1 ++ cs2 /\
    rep σ' m' cs2 /\ released σ cs1 σ' /\ (cs <> [] -> cs2 <> []) /\
    origin_offset m' = origin_offset m + Z.of_nat (length (content cs1)) /\ origin_offset m' <= target /\
    (forall l n cs3, cs2 = (l, n) :: cs3 -> cs3 <> [] -> target < origin_offset m' + len n).
Proof. apply stmemFreeDataUpto_ok. Qed.

Lemma stmemFreeDataUpto_witness :
  (exists σ' m' cs1 cs2, stmemFreeDataUpto ex_store2 ex_hdr2 5000 = Some (σ', m', origin_offset m') /\ ex_chain = cs1 ++ cs2 /\
    rep σ' m' cs2 /\ released ex_store2 cs1 σ' /\ (ex_chain <> [] -> cs2 <> []) /\
    origin_offset m' = origin_offset ex_hdr2 + Z.of_nat (length (content cs1)) /\ origin_offset m' <= 5000 /\
    (forall l n cs3, cs2 = (l, n) :: cs3 -> cs3 <> [] -> 5000 < origin_offset m' + len n)) /\
  (snd <$> stmemFreeDataUpto ex_store2 ex_hdr2 5000) = Some 4196.
Proof.
  split; [|vm_compute; reflexivity].
  apply (stmemFreeDataUpto_correct ex_store2 ex_hdr2 ex_chain 5000 ex_rep2); cbn; lia.
Defined.

(** A reference outlives the object: after [stmemRef] gives a page, freeing the whole chain leaves the page in the pool,
    and the bytes seen through the reference are the object's bytes at the offset asked for, as many as the returned
    count; dropping the reference then returns an otherwise unreferenced page to the pool. *)
Theorem stmemRef_survives_free σ m cs off σ1 r avail :
  rep σ m cs -> 0 <= store_mem_size σ < 2 ^ 64 -> (forall l n, (l, n) ∈ cs -> 0 <= uses n) ->
  origin_offset m <= off -> stmemRef σ m off = Some (σ1, Some r, avail) ->
  exists σ2 q n, stmemFree σ1 m = Some (σ2, mkHdr None None 0) /\ node r = Some q /\ nodes σ2 !! q = Some n /\ 0 < avail /\
    take (Z.to_nat avail) (drop (Z.to_nat (offset r)) (data n)) =
      take (Z.to_nat avail) (drop (Z.to_nat (off - origin_offset m)) (content cs)) /\
    exists σ3, stmemNodeUnref σ2 r = Some (σ3, mkRef None (-1)) /\ (uses n = 0 -> nodes σ3 !! q = None).
Proof.
  intros Hrep Hsz Huses Ho Href. destruct (stmemRef_ok σ m cs off Hrep Ho) as [[_ Hr]|(q & n & o & av & Hq & H0 & Hav & Hlen & Hr & Hbytes)];
    [by rewrite Hr in Href|].
  rewrite Hr in Href. injection Href as <- <- <-.
  destruct (stmemFree_ok _ m _ (rep_with_uses σ m cs q n (uses n + 1) Hrep Hq)) as (σ2 & Hf & (_ & Hout & Hin & _)); [done|].
  exists σ2, q. destruct (decide (q ∈ cs.*1)) as [Hqin|Hqout].
  - apply list_elem_of_fmap in Hqin as ([q' n'] & Hq' & Hel). cbn in Hq'. subst q'.
    destruct Hrep as (Hs & _). destruct (seg_lookup _ _ _ _ _ _ Hs Hel) as [Hq2 _]. rewrite Hq in Hq2. injection Hq2 as <-.
    pose proof (Huses _ _ Hel). pose proof (with_uses_elem q (uses n + 1) cs q n Hel) as Hel'. rewrite decide_True in Hel' by done.
    specialize (Hin _ _ Hel'). cbn [uses set_uses] in Hin. destruct (Z.eqb_spec (uses n + 1) 0); [lia|].
    eexists. split_and!; [done..| |]; [done|]. cbn [stmemNodeUnref node]. unfold stmemNodeFree. rewrite Hin. cbn [mbind option_bind uses set_uses].
    destruct (Z.eqb_spec (uses n + 1 - 1) 0); eexists; (split; [done|]); cbn [nodes set_nodes]; [intros _; apply lookup_delete_eq|lia].
  - exists (set_uses (uses n + 1) n). rewrite <- (with_uses_keys q (uses n + 1)) in Hqout. specialize (Hout q Hqout).
    cbn [nodes set_nodes] in Hout. rewrite lookup_insert_eq in Hout. split_and!; [done..| |]; [done|].
    cbn [stmemNodeUnref node]. unfold stmemNodeFree. rewrite Hout. cbn [mbind option_bind uses set_uses].
    destruct (Z.eqb_spec (uses n + 1) 0); eexists; (split; [done|]); cbn [nodes set_nodes]; [intros _; apply lookup_delete_eq|lia].
Qed.

Lemma stmemRef_survives_free_witness :
  exists σ1, stmemRef ex_store2 ex_hdr2 4197 = Some (σ1, Some (mkRef (Some 2%positive) 1), 2) /\
  exists σ2 q n, stmemFree σ1 ex_hdr2 = Some (σ2, mkHdr None None 0) /\ node (mkRef (Some 2%positive) 1) = Some q /\
    nodes σ2 !! q = Some n /\ 0 < 2 /\
    take (Z.to_nat 2) (drop (Z.to_nat (offset (mkRef (Some 2%positive) 1))) (data n)) =
      take (Z.to_nat 2) (drop (Z.to_nat (4197 - origin_offset ex_hdr2)) (content ex_chain)) /\
    exists σ3, stmemNodeUnref σ2 (mkRef (Some 2%positive) 1) = Some (σ3, mkRef None (-1)) /\ (uses n = 0 -> nodes σ3 !! q = None).
Proof.
  eexists. split; [vm_compute; reflexivity|].
  apply (stmemRef_survives_free ex_store2 ex_hdr2 ex_chain 4197); [exact ex_rep2|cbn; lia| |cbn; lia|vm_compute; reflexivity].
  intros l n Hl. repeat (apply elem_of_cons in Hl as [Hl|Hl]; [injection Hl as _ ->; cbn; lia|]). by apply not_elem_of_nil in Hl.
Defined.
End Stmem.
