(* ===== verification/FileMap.v ===== *)
(** * The map of swap file numbers: libsqstore/filemap.c and its client in
    src/fs/aufs/store_bitmap_aufs.c

    The words are the 64-bit [unsigned long] of [fm->file_map]; an index
    outside the array is an access outside the object ([None]), as is a failed
    assertion. *)

From Stdlib Require Import ZArith Lia.
From stdpp Require Import base list numbers option gmap fin_sets.
From S2P Require Import Prelude Cbit.

Module FileMap.
Import Cbit.

Definition LONG_BIT_SHIFT : Z := 6.
Definition BITS_IN_A_LONG : Z := 64.
Definition LONG_BIT_MASK : Z := 63.
Definition ALL_ONES : Z := 2 ^ 64 - 1.
Definition FM_INITIAL_NUMBER : Z := Z.shiftl 1 14.
Definition FILEMAP_MAX_SIZE : Z := Z.shiftl 1 24.

Record fileMap := mkFileMap {
  max_n_files : Z;
  n_files_in_map : Z;
  toggle : Z;
  nwords : Z;
  file_map : list Z
}.

Definition set_map (l : list Z) (fm : fileMap) : fileMap :=
  mkFileMap (max_n_files fm) (n_files_in_map fm) (toggle fm) (nwords fm) l.
Definition set_count (n : Z) (fm : fileMap) : fileMap :=
  mkFileMap (max_n_files fm) n (toggle fm) (nwords fm) (file_map fm).

Definition file_map_create : fileMap :=
  let nwords := Z.shiftr FM_INITIAL_NUMBER LONG_BIT_SHIFT in
  mkFileMap FM_INITIAL_NUMBER 0 0 nwords (repeat 0 (Z.to_nat nwords)).

(** The new array is zeroed, then the old words are copied to its start. *)
Definition file_map_grow (fm : fileMap) : option fileMap :=
  let old_words := nwords fm in
  let max := Z.shiftl (max_n_files fm) 1 in
  assert? max <=? FILEMAP_MAX_SIZE in
  let nw := Z.shiftr max LONG_BIT_SHIFT in
  assert? (Z.to_nat old_words <=? length (file_map fm))%nat && (old_words <=? nw) in
  Some (mkFileMap max (n_files_in_map fm) (toggle fm) nw
    (take (Z.to_nat old_words) (file_map fm) ++ repeat 0 (Z.to_nat (nw - old_words)))).

Definition bitmask (file_number : Z) : Z := Z.shiftl 1 (Z.land file_number LONG_BIT_MASK).

Definition word_at (fm : fileMap) (word : Z) : option Z :=
  assert? 0 <=? word in file_map fm !! Z.to_nat word.

(** [while (file_number >= fm->max_n_files) file_map_grow(fm);] *)
Fixpoint grow_to (fuel : nat) (fm : fileMap) (file_number : Z) : option fileMap :=
  match fuel with
  | O => None
  | S fuel =>
      if max_n_files fm <=? file_number then let? fm := file_map_grow fm in grow_to fuel fm file_number
      else Some fm
  end.

(** The size doubles at each turn and stays under [FILEMAP_MAX_SIZE] = 2^24. *)
Definition grow_fuel : nat := 26.

Definition file_map_bit_set (fm : fileMap) (file_number : Z) : option (fileMap * Z) :=
  let? fm := grow_to grow_fuel fm file_number in
  let w := Z.shiftr file_number LONG_BIT_SHIFT in
  let? x := word_at fm w in
  let fm := set_map (<[Z.to_nat w := Z.lor x (bitmask file_number)]> (file_map fm)) fm in
  Some (set_count (n_files_in_map fm + 1) fm, file_number).

Definition file_map_bit_reset (fm : fileMap) (file_number : Z) : option fileMap :=
  let w := Z.shiftr file_number LONG_BIT_SHIFT in
  let? x := word_at fm w in
  let fm := set_map (<[Z.to_nat w := Z.ldiff x (bitmask file_number)]> (file_map fm)) fm in
  Some (set_count (n_files_in_map fm - 1) fm).

Definition file_map_bit_test (fm : fileMap) (file_number : Z) : option bool :=
  if max_n_files fm <=? file_number then Some false
  else
    let? x := word_at fm (Z.shiftr file_number LONG_BIT_SHIFT) in
    Some (negb (Z.land x (bitmask file_number) =? 0)).

(** The search for a word with a clear bit: [n] turns are left. *)
Fixpoint find_word (n : nat) (fm : fileMap) (word : Z) : option Z :=
  match n with
  | O => Some word
  | S n =>
      let? x := word_at fm word in
      if negb (x =? ALL_ONES) then Some word
      else find_word n fm (Z.rem (word + 1) (nwords fm))
  end.

(** The search for a clear bit of the word, from [bit] on. *)
Fixpoint find_bit (n : nat) (fm : fileMap) (word bit : Z) : option (option Z) :=
  match n with
  | O => Some None
  | S n =>
      let suggestion := Z.lor (Z.shiftl word LONG_BIT_SHIFT) bit in
      let? t := file_map_bit_test fm suggestion in
      if negb t then Some (Some suggestion) else find_bit n fm word (bit + 1)
  end.

(** [depth] bounds the recursion; the call after growing finds a bit at once. *)
Fixpoint file_map_allocate (depth : nat) (fm : fileMap) (suggestion : Z) : option (fileMap * Z) :=
  match depth with
  | O => None
  | S depth =>
      let suggestion := if max_n_files fm <=? suggestion then 0 else suggestion in
      let? t := file_map_bit_test fm suggestion in
      if negb t then Some (fm, suggestion)
      else
        let? word := find_word (Z.to_nat (nwords fm)) fm (Z.shiftr suggestion LONG_BIT_SHIFT) in
        let? b := find_bit (Z.to_nat BITS_IN_A_LONG) fm word 0 in
        match b with
        | Some suggestion => Some (fm, suggestion)
        | None =>
            let? fm := file_map_grow fm in
            file_map_allocate depth fm (Z.shiftr (max_n_files fm) 1)
        end
  end.

Definition allocate_depth : nat := 2.

(** ** The client: the map of a swap directory *)

(** The fields of [squidaioinfo_t] these operations use. *)
Record squidaioinfo_t := mkAioinfo { map : fileMap; suggest : Z }.

Definition storeAufsDirMapBitTest (a : squidaioinfo_t) (filn : Z) : option bool := file_map_bit_test (map a) filn.

Definition storeAufsDirMapBitSet (a : squidaioinfo_t) (filn : Z) : option squidaioinfo_t :=
  let? (fm, _) := file_map_bit_set (map a) filn in Some (mkAioinfo fm (suggest a)).

Definition storeAufsDirMapBitReset (a : squidaioinfo_t) (filn : Z) : option squidaioinfo_t :=
  let? t := file_map_bit_test (map a) filn in
  if (t : bool) then let? fm := file_map_bit_reset (map a) filn in Some (mkAioinfo fm (suggest a))
  else Some a.

Definition storeAufsDirMapBitAllocate (a : squidaioinfo_t) : option (squidaioinfo_t * Z) :=
  let? (fm, fn) := file_map_allocate allocate_depth (map a) (suggest a) in
  let? (fm, _) := file_map_bit_set fm fn in
  Some (mkAioinfo fm (fn + 1), fn).

(** [storeAufsDirInitBitmap]: an existing map is kept. *)
Definition storeAufsDirInitBitmap (m : option fileMap) : fileMap := default file_map_create m.

(** ** Abstraction *)

(** File number [n] is in use. *)
Definition used (fm : fileMap) (n : Z) : bool :=
  Z.testbit (nth (Z.to_nat (n / 64)) (file_map fm) 0) (n `mod` 64).

(** The set of file numbers in use. *)
Definition numbers (fm : fileMap) : gset Z :=
  list_to_set (List.filter (used fm) (seqZ 0 (max_n_files fm))).

(** Well-formedness: a power of two of bits, in that many words. *)
Definition fm_ok (fm : fileMap) : Prop :=
  (exists k, 14 <= k <= 24 /\ max_n_files fm = 2 ^ k) /\
  max_n_files fm = 64 * nwords fm /\ Z.of_nat (length (file_map fm)) = nwords fm /\
  Forall (fun x => 0 <= x < 2 ^ 64) (file_map fm).

Lemma fm_ok_pos fm : fm_ok fm -> 0 < nwords fm /\ max_n_files fm <= 2 ^ 24.
Proof.
  intros ((k & Hk & Hm) & Hw & _). pose proof (Z.pow_le_mono_r 2 14 k). pose proof (Z.pow_le_mono_r 2 k 24). lia.
Qed.

Lemma land_63 n : Z.land n LONG_BIT_MASK = n `mod` 64.
Proof. change LONG_BIT_MASK with (Z.ones 6). by rewrite Z.land_ones. Qed.

Lemma shiftr_6 n : Z.shiftr n LONG_BIT_SHIFT = n / 64.
Proof. unfold LONG_BIT_SHIFT. by rewrite Z.shiftr_div_pow2. Qed.

Lemma word_bit w b : 0 <= b < 64 -> Z.lor (Z.shiftl w LONG_BIT_SHIFT) b = 64 * w + b.
Proof.
  intros Hb. unfold LONG_BIT_SHIFT. rewrite <- Z.add_nocarry_lor; [rewrite Z.shiftl_mul_pow2 by lia; lia|].
  apply Z.bits_inj'. intros i Hi. rewrite Z.land_spec, Z.bits_0. destruct (Z.ltb_spec i 6).
  - by rewrite Z.shiftl_spec_low by lia.
  - rewrite <- (Z.mod_small b (2 ^ 6)) by lia. by rewrite Z.mod_pow2_bits_high, andb_false_r by lia.
Qed.

Lemma word_at_ok fm w :
  0 <= w < Z.of_nat (length (file_map fm)) -> word_at fm w = Some (nth (Z.to_nat w) (file_map fm) 0).
Proof.
  intros Hw. unfold word_at. destruct (Z.leb_spec 0 w); [|lia].
  destruct (lookup_lt_is_Some_2 (file_map fm) (Z.to_nat w)) as [x Hx]; [lia|].
  rewrite Hx. f_equal. symmetry. by apply nth_lookup_Some.
Qed.

Lemma div_64_range fm n : fm_ok fm -> 0 <= n < max_n_files fm -> 0 <= n / 64 < Z.of_nat (length (file_map fm)).
Proof.
  intros (_ & Hm & Hl & _) Hn. split; [apply Z.div_pos; lia|]. apply Z.div_lt_upper_bound; lia.
Qed.

Lemma used_beyond fm n : fm_ok fm -> max_n_files fm <= n -> used fm n = false.
Proof.
  intros (_ & Hm & Hl & _) Hn. unfold used. rewrite nth_overflow; [apply Z.testbit_0_l|].
  assert (nwords fm <= n / 64) by (apply Z.div_le_lower_bound; lia). lia.
Qed.

Lemma bit_test_ok fm n : fm_ok fm -> 0 <= n -> file_map_bit_test fm n = Some (used fm n).
Proof.
  intros Hok Hn. unfold file_map_bit_test. destruct (Z.leb_spec (max_n_files fm) n).
  { by rewrite used_beyond. }
  rewrite shiftr_6, word_at_ok by (apply div_64_range; [done|lia]). bind_simpl.
  unfold bitmask. rewrite land_63. f_equal. apply EBIT_TEST_testbit. apply Z.mod_pos_bound. lia.
Qed.

Lemma elem_of_numbers fm n : fm_ok fm -> 0 <= n -> n ∈ numbers fm <-> used fm n = true.
Proof.
  intros Hok Hn. unfold numbers. rewrite elem_of_list_to_set, list_elem_of_In, List.filter_In, <- list_elem_of_In.
  rewrite elem_of_seqZ. split; [by intros [_ ?]|]. intros Hu. split; [|done].
  destruct (Z.ltb_spec n (max_n_files fm)); [lia|]. by rewrite used_beyond in Hu.
Qed.

Lemma numbers_nonneg fm n : n ∈ numbers fm -> 0 <= n < max_n_files fm.
Proof.
  unfold numbers. rewrite elem_of_list_to_set, list_elem_of_In, List.filter_In, <- list_elem_of_In, elem_of_seqZ. lia.
Qed.

Lemma numbers_same fm fm' :
  fm_ok fm -> fm_ok fm' -> (forall n, 0 <= n -> used fm' n = used fm n) -> numbers fm' = numbers fm.
Proof.
  intros Hok Hok' Hu. apply set_eq. intros n. split; intros Hn; pose proof (numbers_nonneg _ _ Hn).
  - apply elem_of_numbers; [done|lia|]. rewrite <- Hu by lia. apply elem_of_numbers; [done|lia|done].
  - apply elem_of_numbers; [done|lia|]. rewrite Hu by lia. apply elem_of_numbers; [done|lia|done].
Qed.

(** ** Operations *)

Lemma numbers_none fm : fm_ok fm -> (forall n, 0 <= n -> used fm n = false) -> numbers fm = ∅.
Proof.
  intros Hok Hu. apply set_eq. intros n. split; intros Hn; [|by apply not_elem_of_empty in Hn].
  pose proof (numbers_nonneg _ _ Hn). apply elem_of_numbers in Hn; [|done|lia]. rewrite Hu in Hn by lia. done.
Qed.

Lemma create_fm_ok : fm_ok file_map_create.
Proof.
  split; [exists 14; split; [lia|reflexivity]|]. split; [reflexivity|]. split; [reflexivity|].
  unfold file_map_create. cbn [file_map]. apply List.Forall_forall. intros x Hx. apply repeat_spec in Hx. lia.
Qed.

Lemma create_unused n : used file_map_create n = false.
Proof. unfold used, file_map_create. cbn [file_map]. by rewrite nth_repeat, Z.testbit_0_l. Qed.

Lemma create_count : n_files_in_map file_map_create = 0.
Proof. reflexivity. Qed.

#[local] Opaque file_map_create.

Lemma create_ok : fm_ok file_map_create /\ numbers file_map_create = ∅ /\ n_files_in_map file_map_create = 0.
Proof.
  split; [exact create_fm_ok|]. split; [|exact create_count].
  apply numbers_none; [exact create_fm_ok|]. intros. apply create_unused.
Qed.

Lemma grow_limit fm : fm_ok fm -> max_n_files fm = 2 ^ 24 -> file_map_grow fm = None.
Proof. intros _ Hm. unfold file_map_grow. rewrite Hm. reflexivity. Qed.

Lemma grow_ok fm :
  fm_ok fm -> max_n_files fm < 2 ^ 24 ->
  exists fm', file_map_grow fm = Some fm' /\ fm_ok fm' /\ max_n_files fm' = 2 * max_n_files fm /\
    n_files_in_map fm' = n_files_in_map fm /\ (forall n, 0 <= n -> used fm' n = used fm n).
Proof.
  intros Hok Hlt. pose proof (fm_ok_pos fm Hok) as [Hpos _]. destruct Hok as ((k & Hk & Hm) & Hw & Hl & Hb).
  assert (k < 24) by (apply (Z.pow_lt_mono_r_iff 2); lia).
  unfold file_map_grow. rewrite Z.shiftl_mul_pow2, shiftr_6 by lia. change (2 ^ 1) with 2.
  assert (Hle : max_n_files fm * 2 <= FILEMAP_MAX_SIZE).
  { change FILEMAP_MAX_SIZE with (2 ^ 24). rewrite Hm. pose proof (Z.pow_le_mono_r 2 (k + 1) 24).
    rewrite Z.pow_add_r in * by lia. lia. }
  rewrite (proj2 (Z.leb_le _ _) Hle). replace (max_n_files fm * 2 / 64) with (2 * nwords fm).
  2: { rewrite Hw. replace (64 * nwords fm * 2) with (2 * nwords fm * 64) by lia. by rewrite Z.div_mul. }
  assert (Hc : ((Z.to_nat (nwords fm) <=? length (file_map fm))%nat && (nwords fm <=? 2 * nwords fm)) = true).
  { apply andb_true_iff. split; [apply Nat.leb_le; lia|apply Z.leb_le; lia]. }
  rewrite Hc. eexists. split; [done|]. rewrite take_ge by lia. split_and!; cbn [max_n_files n_files_in_map]; [|lia|done|].
  - split; cbn [max_n_files nwords file_map]; [exists (k + 1); rewrite Z.pow_add_r by lia; lia|].
    split; [lia|]. split; [rewrite length_app, repeat_length; lia|].
    apply Forall_app_2; [done|]. apply List.Forall_forall. intros x Hx. apply repeat_spec in Hx. lia.
  - intros n Hn. unfold used. cbn [file_map]. pose proof (Z.div_pos n 64 Hn ltac:(lia)).
    destruct (decide (Z.to_nat (n / 64) < length (file_map fm))%nat); [by rewrite app_nth1|].
    rewrite app_nth2, nth_repeat by lia. by rewrite (nth_overflow (file_map fm)) by lia.
Qed.

Lemma grow_to_ok fuel fm n :
  fm_ok fm -> 0 <= n < 2 ^ 24 -> (exists k, max_n_files fm = 2 ^ k /\ 0 <= k /\ 24 - k < Z.of_nat fuel) ->
  exists fm', grow_to fuel fm n = Some fm' /\ fm_ok fm' /\ n < max_n_files fm' /\
    n_files_in_map fm' = n_files_in_map fm /\ (forall m, 0 <= m -> used fm' m = used fm m).
Proof.
  revert fm. induction fuel as [|fuel IH]; intros fm Hok Hn (k & Hm & Hk & Hf).
  { pose proof (fm_ok_pos fm Hok) as [_ Hle]. rewrite Hm in Hle. apply Z.pow_le_mono_r_iff in Hle; lia. }
  cbn [grow_to]. destruct (Z.leb_spec (max_n_files fm) n); [|by exists fm; split_and!].
  destruct (grow_ok fm Hok) as (fm1 & -> & Hok1 & Hm1 & Hc1 & Hu1); [lia|]. bind_simpl.
  destruct (IH fm1) as (fm' & -> & ? & ? & Hc & Hu); [done|done|exists (k + 1); rewrite Z.pow_add_r; lia|].
  exists fm'. split_and!; [done..|congruence|]. intros m Hm'. by rewrite Hu, Hu1.
Qed.

Lemma same_number b n : 0 <= b -> 0 <= n -> b / 64 = n / 64 -> b `mod` 64 = n `mod` 64 -> b = n.
Proof. intros. rewrite (Z.div_mod b 64), (Z.div_mod n 64) by lia. lia. Qed.

(** The effect of an update of the word of [n] by a bitwise operation on its bit. *)
Lemma used_insert fm n v f :
  fm_ok fm -> 0 <= n < max_n_files fm ->
  (forall i, Z.testbit v i = if decide (i = n `mod` 64) then f else
                               Z.testbit (nth (Z.to_nat (n / 64)) (file_map fm) 0) i) ->
  forall b, 0 <= b -> used (set_map (<[Z.to_nat (n / 64) := v]> (file_map fm)) fm) b = if decide (b = n) then f else used fm b.
Proof.
  intros Hok Hn Hv b Hb. pose proof (div_64_range fm n Hok Hn) as Hr. unfold used. cbn [file_map set_map].
  rewrite nth_insert by lia. pose proof (Z.div_pos b 64 Hb ltac:(lia)).
  destruct (decide (Z.to_nat (n / 64) = Z.to_nat (b / 64))) as [E|E].
  - rewrite Hv. destruct (decide (b `mod` 64 = n `mod` 64)) as [Em|Em].
    + rewrite decide_True; [done|]. apply same_number; lia.
    + rewrite decide_False by congruence. by rewrite E.
  - by rewrite decide_False by congruence.
Qed.

Lemma set_map_ok fm i v : fm_ok fm -> 0 <= v < 2 ^ 64 -> fm_ok (set_map (<[i := v]> (file_map fm)) fm).
Proof.
  intros (Hk & Hm & Hl & Hb) Hv. unfold fm_ok, set_map. cbn [max_n_files nwords file_map]. split_and!; [done..| |].
  - by rewrite length_insert.
  - apply Forall_insert; done.
Qed.

Lemma word_bound fm i : fm_ok fm -> 0 <= nth i (file_map fm) 0 < 2 ^ 64.
Proof.
  intros (_ & _ & _ & Hb). destruct (decide (i < length (file_map fm))%nat) as [Hi|Hi].
  - apply (proj1 (List.Forall_forall _ _) Hb). by apply nth_In.
  - rewrite nth_overflow by lia. lia.
Qed.

Lemma bits_bound x : 0 <= x -> (forall i, 64 <= i -> Z.testbit x i = false) -> 0 <= x < 2 ^ 64.
Proof.
  intros Hx Hb. split; [done|]. destruct (Z.eq_dec x 0) as [->|Hne]; [lia|].
  apply Z.log2_lt_pow2; [lia|]. apply Z.nle_gt. intros Hl. specialize (Hb _ Hl). rewrite Z.bit_log2 in Hb by lia. done.
Qed.

Lemma high_bits x i : 0 <= x < 2 ^ 64 -> 64 <= i -> Z.testbit x i = false.
Proof. intros Hx Hi. rewrite <- (Z.mod_small x (2 ^ 64)) by lia. by rewrite Z.mod_pow2_bits_high by lia. Qed.

Lemma bit_set_ok fm n :
  fm_ok fm -> 0 <= n < 2 ^ 24 ->
  exists fm', file_map_bit_set fm n = Some (fm', n) /\ fm_ok fm' /\ n_files_in_map fm' = n_files_in_map fm + 1 /\
    (forall b, 0 <= b -> used fm' b = if decide (b = n) then true else used fm b).
Proof.
  intros Hok Hn. unfold file_map_bit_set.
  destruct (grow_to_ok grow_fuel fm n Hok Hn) as (fm1 & -> & Hok1 & Hlt & Hc & Hu).
  { destruct Hok as ((k & Hk & Hm) & _). exists k. unfold grow_fuel. lia. }
  bind_simpl. rewrite shiftr_6. rewrite word_at_ok by (apply div_64_range; [done|lia]). bind_simpl.
  eexists. split; [done|]. pose proof (word_bound fm1 (Z.to_nat (n / 64)) Hok1) as Hw.
  pose proof (Z.mod_pos_bound n 64 ltac:(lia)) as Hb. unfold bitmask. rewrite land_63.
  split_and!; [|cbn; lia|].
  - apply (set_map_ok fm1); [done|]. apply bits_bound.
    + apply Z.lor_nonneg. split; [lia|]. apply Z.shiftl_nonneg. lia.
    + intros i Hi. rewrite Z.lor_spec, testbit_one_shift by lia. rewrite high_bits by done. by rewrite bool_decide_eq_false_2 by lia.
  - intros b Hb'. rewrite <- (Hu b) by done. rewrite <- (used_insert fm1 n (Z.lor (nth (Z.to_nat (n / 64)) (file_map fm1) 0) (Z.shiftl 1 (n `mod` 64))) true); [done|done|lia| |done].
    intros i. rewrite Z.lor_spec, testbit_one_shift by lia. case_decide; case_bool_decide; rewrite ?orb_true_r, ?orb_false_r; done.
Qed.

Lemma bit_reset_ok fm n :
  fm_ok fm -> 0 <= n < max_n_files fm ->
  exists fm', file_map_bit_reset fm n = Some fm' /\ fm_ok fm' /\ n_files_in_map fm' = n_files_in_map fm - 1 /\
    (forall b, 0 <= b -> used fm' b = if decide (b = n) then false else used fm b).
Proof.
  intros Hok Hn. unfold file_map_bit_reset. rewrite shiftr_6, word_at_ok by (apply div_64_range; done). bind_simpl.
  eexists. split; [done|]. pose proof (word_bound fm (Z.to_nat (n / 64)) Hok) as Hw.
  pose proof (Z.mod_pos_bound n 64 ltac:(lia)) as Hb. unfold bitmask. rewrite land_63.
  split_and!; [|cbn; lia|].
  - apply (set_map_ok fm); [done|]. apply bits_bound.
    + apply Z.ldiff_nonneg. lia.
    + intros i Hi. by rewrite Z.ldiff_spec, high_bits by done.
  - intros b Hb'. rewrite <- (used_insert fm n (Z.ldiff (nth (Z.to_nat (n / 64)) (file_map fm) 0) (Z.shiftl 1 (n `mod` 64))) false); [done|done|done| |done].
    intros i. rewrite Z.ldiff_spec, testbit_one_shift by lia. case_decide; case_bool_decide; rewrite ?andb_true_r, ?andb_false_r; done.
Qed.

(** ** Allocation *)

Lemma all_ones_bits x : 0 <= x < 2 ^ 64 -> x = ALL_ONES <-> (forall i, 0 <= i < 64 -> Z.testbit x i = true).
Proof.
  intros Hx. change ALL_ONES with (Z.ones 64). split.
  - intros -> i Hi. by apply Z.ones_spec_low.
  - intros Hb. apply Z.bits_inj'. intros i Hi. destruct (Z.ltb_spec i 64).
    + by rewrite Hb, Z.ones_spec_low by lia.
    + by rewrite high_bits, Z.ones_spec_high by lia.
Qed.

(** A word is full when its 64 numbers are in use. *)
Lemma full_word fm w :
  fm_ok fm -> 0 <= w ->
  nth (Z.to_nat w) (file_map fm) 0 = ALL_ONES <-> (forall b, 0 <= b < 64 -> used fm (64 * w + b) = true).
Proof.
  intros Hok Hw. rewrite all_ones_bits by by apply word_bound. unfold used.
  split; intros H b Hb; specialize (H b Hb);
    replace ((64 * w + b) / 64) with w in * by (rewrite Z.mul_comm, Z.div_add_l by lia; rewrite Z.div_small; lia);
    replace ((64 * w + b) `mod` 64) with b in * by (rewrite Z.mul_comm, Z.add_comm, Z.mod_add, Z.mod_small by lia; lia); done.
Qed.

Lemma find_word_ok n fm w :
  fm_ok fm -> 0 <= w < nwords fm ->
  exists w', find_word n fm w = Some w' /\ 0 <= w' < nwords fm /\
    (nth (Z.to_nat w') (file_map fm) 0 <> ALL_ONES \/
     forall i, 0 <= i < Z.of_nat n -> nth (Z.to_nat ((w + i) `mod` nwords fm)) (file_map fm) 0 = ALL_ONES).
Proof.
  intros Hok. pose proof (fm_ok_pos fm Hok) as [Hpos _]. revert w. induction n as [|n IH]; intros w Hw; cbn [find_word].
  { exists w. split_and!; [done|lia..|right; lia]. }
  rewrite word_at_ok by (destruct Hok as (_ & _ & Hl & _); lia). bind_simpl.
  destruct (Z.eqb_spec (nth (Z.to_nat w) (file_map fm) 0) ALL_ONES) as [Hone|Hone]; cbn [negb].
  2: { exists w. split_and!; [done|lia..|by left]. }
  rewrite Z.rem_mod_nonneg by lia. pose proof (Z.mod_pos_bound (w + 1) (nwords fm) Hpos).
  destruct (IH ((w + 1) `mod` nwords fm)) as (w' & -> & Hw' & Hc); [done|].
  exists w'. split_and!; [done|lia..|]. destruct Hc as [Hc|Hc]; [by left|right]. intros i Hi.
  destruct (Z.eq_dec i 0) as [->|Hne]; [by rewrite Z.add_0_r, Z.mod_small by lia|].
  specialize (Hc (i - 1)). rewrite Zplus_mod_idemp_l in Hc. replace (w + 1 + (i - 1)) with (w + i) in Hc by lia. apply Hc. lia.
Qed.

Lemma find_bit_ok n fm w b :
  fm_ok fm -> 0 <= w -> 0 <= b -> b + Z.of_nat n = 64 -> (forall i, 0 <= i < b -> used fm (64 * w + i) = true) ->
  exists r, find_bit n fm w b = Some r /\
    match r with
    | Some s => 64 * w <= s < 64 * w + 64 /\ used fm s = false
    | None => forall i, 0 <= i < 64 -> used fm (64 * w + i) = true
    end.
Proof.
  intros Hok Hw. revert b. induction n as [|n IH]; intros b Hb Hn Hu; cbn [find_bit].
  { exists None. split; [done|]. intros i Hi. apply Hu. lia. }
  rewrite word_bit by lia. rewrite bit_test_ok by (done || lia). bind_simpl.
  destruct (used fm (64 * w + b)) eqn:Hs; cbn [negb].
  - apply IH; [lia..|]. intros i Hi. destruct (Z.eq_dec i b) as [->|]; [done|]. apply Hu. lia.
  - eexists. split; [done|]. split; [lia|done].
Qed.

(** The search through the words: a clear bit, or there is none. *)
Lemma search_ok fm w :
  fm_ok fm -> 0 <= w < nwords fm ->
  exists w' r, find_word (Z.to_nat (nwords fm)) fm w = Some w' /\ find_bit (Z.to_nat BITS_IN_A_LONG) fm w' 0 = Some r /\
    match r with
    | Some s => 0 <= s < max_n_files fm /\ used fm s = false
    | None => forall n, 0 <= n < max_n_files fm -> used fm n = true
    end.
Proof.
  intros Hok Hw. pose proof (fm_ok_pos fm Hok) as [Hpos _]. pose proof Hok as (_ & Hm & _ & _).
  destruct (find_word_ok (Z.to_nat (nwords fm)) fm w Hok Hw) as (w' & Hf & Hw' & Hc).
  destruct (find_bit_ok (Z.to_nat BITS_IN_A_LONG) fm w' 0 Hok) as (r & Hb & Hr); [lia|lia|done|lia|].
  exists w', r. split_and!; [done..|]. destruct r as [s|]; [split; [lia|apply Hr]|].
  destruct Hc as [Hc|Hc]; [destruct Hc; by apply full_word; [|lia|]|].
  intros n Hn. specialize (Hc ((n / 64 - w) `mod` nwords fm)). rewrite Zplus_mod_idemp_r in Hc.
  replace (w + (n / 64 - w)) with (n / 64) in Hc by lia.
  assert (0 <= n / 64 < nwords fm) by (split; [apply Z.div_pos; lia|apply Z.div_lt_upper_bound; lia]).
  rewrite (Z.mod_small (n / 64)) in Hc by lia. pose proof (Z.mod_pos_bound (n / 64 - w) (nwords fm) Hpos).
  specialize (Hc ltac:(lia)). rewrite (full_word fm (n / 64) Hok) in Hc by lia.
  rewrite (Z.div_mod n 64) by lia. apply Hc. apply Z.mod_pos_bound. lia.
Qed.

(** The contract of [file_map_allocate]: a clear number of the map if there is
    one; else the map grows and the first new number is given; a full map of
    the largest size fails the assertion. *)
Definition allocate_spec (fm : fileMap) (r : option (fileMap * Z)) : Prop :=
  match r with
  | Some (fm', n) =>
      fm_ok fm' /\ 0 <= n < max_n_files fm' /\ used fm n = false /\
      n_files_in_map fm' = n_files_in_map fm /\ (forall b, 0 <= b -> used fm' b = used fm b) /\
      (fm' = fm \/ n = max_n_files fm /\ forall b, 0 <= b < max_n_files fm -> used fm b = true)
  | None => max_n_files fm = 2 ^ 24 /\ forall b, 0 <= b < max_n_files fm -> used fm b = true
  end.

Lemma allocate_now d fm s :
  fm_ok fm -> 0 <= s < max_n_files fm -> used fm s = false -> file_map_allocate (S d) fm s = Some (fm, s).
Proof.
  intros Hok Hs Hu. cbn [file_map_allocate]. destruct (Z.leb_spec (max_n_files fm) s); [lia|].
  rewrite bit_test_ok by (done || lia). bind_simpl. by rewrite Hu.
Qed.

Lemma allocate_self fm s :
  fm_ok fm -> 0 <= s < max_n_files fm -> used fm s = false -> allocate_spec fm (Some (fm, s)).
Proof. intros. split_and!; [done|lia|lia|done..|by left]. Qed.

Lemma file_map_allocate_ok fm suggestion :
  fm_ok fm -> 0 <= suggestion -> allocate_spec fm (file_map_allocate allocate_depth fm suggestion).
Proof.
  intros Hok Hs. unfold allocate_depth. pose proof (fm_ok_pos fm Hok) as [Hpos Hlim]. pose proof Hok as (_ & Hm & _ & _).
  remember 1%nat as d eqn:Hd. cbn [file_map_allocate]. set (s := if max_n_files fm <=? suggestion then 0 else suggestion).
  assert (Hs' : 0 <= s < max_n_files fm) by (unfold s; destruct (Z.leb_spec (max_n_files fm) suggestion); lia). clearbody s.
  rewrite bit_test_ok by (done || lia). bind_simpl.
  destruct (used fm s) eqn:Hu; cbn [negb]; [|by apply allocate_self].
  destruct (search_ok fm (Z.shiftr s LONG_BIT_SHIFT) Hok) as (w & r & -> & Hb & Hr).
  { rewrite shiftr_6. split; [apply Z.div_pos; lia|apply Z.div_lt_upper_bound; lia]. }
  bind_simpl. rewrite Hb. bind_simpl.
  destruct r as [n|]; [destruct Hr; by apply allocate_self|].
  destruct (Z.eq_dec (max_n_files fm) (2 ^ 24)) as [Hfull|Hfull]; [by rewrite grow_limit|].
  destruct (grow_ok fm Hok ltac:(lia)) as (fm' & -> & Hok' & Hm' & Hc & Hu'). bind_simpl.
  replace (Z.shiftr (max_n_files fm') 1) with (max_n_files fm)
    by (rewrite Z.shiftr_div_pow2, Hm', Z.mul_comm by lia; by rewrite Z.div_mul).
  assert (Hfree : used fm (max_n_files fm) = false) by (apply used_beyond; [done|lia]).
  subst d. rewrite allocate_now by (done || lia || (rewrite Hu'; [done|lia])).
  split_and!; [done|lia|lia|done|done|done|right; split; done].
Qed.

(** ** The map of a directory refines a set of numbers *)

Definition dir_ok (a : squidaioinfo_t) : Prop :=
  fm_ok (map a) /\ n_files_in_map (map a) = Z.of_nat (size (numbers (map a))) /\ 0 <= suggest a.

Lemma numbers_add fm fm' n :
  fm_ok fm -> fm_ok fm' -> 0 <= n -> (forall b, 0 <= b -> used fm' b = if decide (b = n) then true else used fm b) ->
  numbers fm' = {[n]} ∪ numbers fm.
Proof.
  intros Hok Hok' Hn Hu. apply set_eq. intros x. rewrite elem_of_union, elem_of_singleton. split.
  - intros Hx. pose proof (numbers_nonneg _ _ Hx). apply elem_of_numbers in Hx; [|done|lia]. rewrite Hu in Hx by lia.
    case_decide; [by left|right]. apply elem_of_numbers; [done|lia|done].
  - intros [->|Hx].
    + apply elem_of_numbers; [done|lia|]. rewrite Hu by lia. by rewrite decide_True.
    + pose proof (numbers_nonneg _ _ Hx). apply elem_of_numbers; [done|lia|]. rewrite Hu by lia.
      case_decide; [done|]. apply elem_of_numbers; [done|lia|done].
Qed.

Lemma numbers_del fm fm' n :
  fm_ok fm -> fm_ok fm' -> (forall b, 0 <= b -> used fm' b = if decide (b = n) then false else used fm b) ->
  numbers fm' = numbers fm ∖ {[n]}.
Proof.
  intros Hok Hok' Hu. apply set_eq. intros x. rewrite elem_of_difference, elem_of_singleton. split.
  - intros Hx. pose proof (numbers_nonneg _ _ Hx). apply elem_of_numbers in Hx; [|done|lia]. rewrite Hu in Hx by lia.
    case_decide; [done|]. split; [apply elem_of_numbers; [done|lia|done]|done].
  - intros [Hx Hne]. pose proof (numbers_nonneg _ _ Hx). apply elem_of_numbers; [done|lia|]. rewrite Hu by lia.
    rewrite decide_False by done. apply elem_of_numbers; [done|lia|done].
Qed.

Lemma not_in_numbers fm n : fm_ok fm -> 0 <= n -> n ∉ numbers fm <-> used fm n = false.
Proof. intros. rewrite elem_of_numbers by done. destruct (used fm n); naive_solver. Qed.

Lemma dir_set_ok a n :
  dir_ok a -> 0 <= n < 2 ^ 24 -> n ∉ numbers (map a) ->
  exists fm', file_map_bit_set (map a) n = Some (fm', n) /\ fm_ok fm' /\ numbers fm' = {[n]} ∪ numbers (map a) /\
    n_files_in_map fm' = Z.of_nat (size (numbers fm')).
Proof.
  intros (Hok & Hc & _) Hn Hnot. destruct (bit_set_ok (map a) n Hok Hn) as (fm' & Hs & Hok' & Hc' & Hu).
  assert (HN : numbers fm' = {[n]} ∪ numbers (map a)) by (apply numbers_add; [done..|lia|done]).
  exists fm'. split_and!; [done..|]. rewrite HN, size_union, size_singleton; [lia|]. by apply disjoint_singleton_l.
Qed.

Lemma allocate_ok a :
  dir_ok a ->
  match storeAufsDirMapBitAllocate a with
  | Some (a', n) => 0 <= n < 2 ^ 24 /\ (n ∉ numbers (map a)) /\ numbers (map a') = {[n]} ∪ numbers (map a) /\ dir_ok a'
  | None => forall n, 0 <= n < 2 ^ 24 -> n ∈ numbers (map a)
  end.
Proof.
  intros Hd. pose proof Hd as (Hok & Hc & Hsg). unfold storeAufsDirMapBitAllocate.
  pose proof (file_map_allocate_ok (map a) (suggest a) Hok Hsg) as Hal.
  destruct (file_map_allocate allocate_depth (map a) (suggest a)) as [[fm n]|]; bind_simpl.
  2: { destruct Hal as [Hm Hall]. intros n Hn. apply elem_of_numbers; [done|lia|]. apply Hall. lia. }
  destruct Hal as (Hok' & Hn & Hfree & Hcnt & Hu & _). pose proof (fm_ok_pos fm Hok') as [_ Hlim].
  assert (HN : numbers fm = numbers (map a)) by by apply numbers_same.
  assert (Hnot : n ∉ numbers (map a)) by (apply not_in_numbers; [done|lia|done]).
  destruct (dir_set_ok (mkAioinfo fm (suggest a)) n) as (fm' & Hs & ? & HN' & ?).
  { unfold dir_ok. cbn [map suggest]. rewrite HN, Hcnt. done. }
  { lia. }
  { cbn [map]. by rewrite HN. }
  cbn [map] in Hs, HN'. rewrite Hs. bind_simpl. split_and!; [lia..|done|cbn [map]; by rewrite HN', HN|].
  unfold dir_ok. cbn [map suggest]. split_and!; [done..|lia].
Qed.

Lemma reset_ok a n :
  dir_ok a -> 0 <= n ->
  exists a', storeAufsDirMapBitReset a n = Some a' /\ numbers (map a') = (numbers (map a) ∖ {[n]}) /\ dir_ok a'.
Proof.
  intros Hd Hn. pose proof Hd as (Hok & Hc & Hsg). unfold storeAufsDirMapBitReset.
  rewrite bit_test_ok by done. bind_simpl. destruct (used (map a) n) eqn:Hu.
  - assert (Hin : n ∈ numbers (map a)) by by apply elem_of_numbers.
    destruct (bit_reset_ok (map a) n Hok (numbers_nonneg _ _ Hin)) as (fm & -> & Hok' & Hc' & Hu'). bind_simpl.
    eexists. split; [done|]. cbn [map]. assert (HN := numbers_del _ _ n Hok Hok' Hu'). split; [done|].
    unfold dir_ok. cbn [map suggest]. split_and!; [done| |done].
    assert (Hsub : {[n]} ⊆ numbers (map a)) by (by apply singleton_subseteq_l).
    rewrite HN, size_difference, size_singleton by done.
    pose proof (subseteq_size _ _ Hsub) as Hsz. rewrite size_singleton in Hsz. lia.
  - exists a. split_and!; [done| |done]. symmetry. apply difference_disjoint_L.
    apply disjoint_singleton_r. by apply not_in_numbers.
Qed.

(** The operations of a directory, and what they do to the set of numbers in
    use: [DirAllocate n] is an allocation that returned [n]. *)
Inductive dir_op := DirAllocate (n : Z) | DirReset (n : Z) | DirSet (n : Z).

Definition dir_step (a : squidaioinfo_t) (op : dir_op) : option squidaioinfo_t :=
  match op with
  | DirAllocate n =>
      let? (a', m) := storeAufsDirMapBitAllocate a in
      if decide (m = n) then Some a' else None
  | DirReset n => storeAufsDirMapBitReset a n
  | DirSet n => storeAufsDirMapBitSet a n
  end.

Inductive set_step : gset Z -> dir_op -> gset Z -> Prop :=
| set_allocate S n : 0 <= n < 2 ^ 24 -> n ∉ S -> set_step S (DirAllocate n) ({[n]} ∪ S)
| set_reset S n : set_step S (DirReset n) (S ∖ {[n]})
| set_set S n : n ∉ S -> set_step S (DirSet n) ({[n]} ∪ S).

Inductive set_steps : gset Z -> list dir_op -> gset Z -> Prop :=
| set_nil S : set_steps S [] S
| set_cons S op S' ops S'' : set_step S op S' -> set_steps S' ops S'' -> set_steps S (op :: ops) S''.

(** The numbers callers pass: never negative, and only clear bits are set (as
    the rebuild code checks with [storeAufsDirMapBitTest]). *)
Definition op_valid (a : squidaioinfo_t) (op : dir_op) : Prop :=
  match op with
  | DirAllocate _ => True
  | DirReset n => 0 <= n
  | DirSet n => 0 <= n < 2 ^ 24 /\ storeAufsDirMapBitTest a n = Some false
  end.

Inductive dir_steps : squidaioinfo_t -> list dir_op -> squidaioinfo_t -> Prop :=
| dir_nil a : dir_steps a [] a
| dir_cons a op a' ops a'' :
    op_valid a op -> dir_step a op = Some a' -> dir_steps a' ops a'' -> dir_steps a (op :: ops) a''.

Lemma dir_step_ok a op a' :
  dir_ok a -> op_valid a op -> dir_step a op = Some a' -> dir_ok a' /\ set_step (numbers (map a)) op (numbers (map a')).
Proof.
  intros Hd Hv Hs. destruct op as [n|n|n]; cbn [dir_step op_valid] in *.
  - pose proof (allocate_ok a Hd) as Ha. destruct (storeAufsDirMapBitAllocate a) as [[a1 m]|]; [|done].
    cbn [mbind option_bind] in Hs. case_decide; simplify_eq. destruct Ha as (? & ? & -> & ?). by split; [|constructor].
  - destruct (reset_ok a n Hd Hv) as (a1 & Hr & HN & Hok). rewrite Hs in Hr. injection Hr as <-. rewrite HN. by split; [|constructor].
  - destruct Hv as [Hn Ht]. pose proof Hd as (Hok & _ & Hsg). unfold storeAufsDirMapBitTest in Ht.
    rewrite bit_test_ok in Ht by (done || lia). injection Ht as Ht. apply not_in_numbers in Ht; [|done|lia].
    destruct (dir_set_ok a n Hd Hn Ht) as (fm' & Hs' & ? & HN & ?). unfold storeAufsDirMapBitSet in Hs. rewrite Hs' in Hs.
    cbn [mbind option_bind] in Hs. injection Hs as <-. cbn [map]. rewrite HN. split; [|by constructor].
    unfold dir_ok. cbn [map suggest]. split_and!; [done| |done]. congruence.
Qed.

(** ** Properties *)

(** [file_map_allocate] gives a number that is not in use and changes no bit: one of the present map whenever it has a
    clear bit, found by the word search and the bit search; otherwise the map is doubled and the first new number is given.
    It fails only when all 2^24 numbers are in use.  The recursion is at most one call deep. *)
Theorem file_map_allocate_correct fm suggestion :
  fm_ok fm -> 0 <= suggestion ->
  match file_map_allocate allocate_depth fm suggestion with
  | Some (fm', n) =>
      fm_ok fm' /\ 0 <= n < max_n_files fm' /\ used fm n = false /\
      n_files_in_map fm' = n_files_in_map fm /\ (forall b, 0 <= b -> used fm' b = used fm b) /\
      (fm' = fm \/ n = max_n_files fm /\ forall b, 0 <= b < max_n_files fm -> used fm b = true)
  | None => max_n_files fm = 2 ^ 24 /\ forall b, 0 <= b < max_n_files fm -> used fm b = true
  end.
Proof. apply file_map_allocate_ok. Qed.

#[local] Transparent file_map_create.

(** A full map of the initial size. *)
Definition ex_full : fileMap := mkFileMap (2 ^ 14) (2 ^ 14) 0 256 (repeat ALL_ONES 256).

Lemma ex_full_ok : fm_ok ex_full.
Proof.
  split; [exists 14; split; [lia|reflexivity]|]. split; [reflexivity|]. split; [reflexivity|].
  apply List.Forall_forall. intros x Hx. apply repeat_spec in Hx. subst x. split; [discriminate|reflexivity].
Qed.

Lemma file_map_allocate_witness :
  (match file_map_allocate allocate_depth ex_full 5 with
   | Some (fm', n) =>
       fm_ok fm' /\ 0 <= n < max_n_files fm' /\ used ex_full n = false /\
       n_files_in_map fm' = n_files_in_map ex_full /\ (forall b, 0 <= b -> used fm' b = used ex_full b) /\
       (fm' = ex_full \/ n = max_n_files ex_full /\ forall b, 0 <= b < max_n_files ex_full -> used ex_full b = true)
   | None => max_n_files ex_full = 2 ^ 24 /\ forall b, 0 <= b < max_n_files ex_full -> used ex_full b = true
   end) /\
  (snd <$> file_map_allocate allocate_depth ex_full 5) = Some 16384.
Proof.
  split; [|vm_compute; reflexivity]. apply (file_map_allocate_correct ex_full 5 ex_full_ok). lia.
Defined.

(** A swap directory's map refines a set of file numbers: along any sequence of allocations, resets and settings of
    clear bits, an allocation adds a number that was not in the set, a reset removes its number (or nothing when it is
    clear or beyond the map), and [n_files_in_map] is the size of the set at the end. *)
Theorem aufs_map_refines a ops a' :
  dir_ok a -> dir_steps a ops a' ->
  set_steps (numbers (map a)) ops (numbers (map a')) /\ n_files_in_map (map a') = Z.of_nat (size (numbers (map a'))).
Proof.
  intros Hd Hs. enough (set_steps (numbers (map a)) ops (numbers (map a')) /\ dir_ok a') as [? (? & ? & ?)] by done.
  induction Hs as [a|a op a1 ops a2 Hv Hstep Hs IH]; [split; [constructor|done]|].
  destruct (dir_step_ok a op a1 Hd Hv Hstep) as [Hd1 Hst]. destruct (IH Hd1). split; [by econstructor|done].
Qed.

Definition ex_dir : squidaioinfo_t := mkAioinfo file_map_create 0.

Lemma ex_dir_ok : dir_ok ex_dir.
Proof.
  destruct create_ok as (H1 & H2 & H3). split; [exact H1|]. split; [|apply Z.le_refl].
  change (map ex_dir) with file_map_create. rewrite H2, size_empty. exact H3.
Qed.

Definition ex_ops : list dir_op := [DirAllocate 0; DirAllocate 1; DirSet 7; DirReset 0; DirReset 20000].

Definition ex_run : squidaioinfo_t :=
  match foldl (fun a op => let? a := a in dir_step a op) (Some ex_dir) ex_ops with Some a => a | None => ex_dir end.

Lemma aufs_map_refines_witness :
  (set_steps (numbers (map ex_dir)) ex_ops (numbers (map ex_run)) /\
   n_files_in_map (map ex_run) = Z.of_nat (size (numbers (map ex_run)))) /\
  n_files_in_map (map ex_run) = 2.
Proof.
  split; [|vm_compute; reflexivity].
  apply (aufs_map_refines ex_dir ex_ops ex_run ex_dir_ok).
  unfold ex_ops. repeat (eapply dir_cons; [|vm_compute; reflexivity|]); try exact I.
  - split; [lia|vm_compute; reflexivity].
  - cbn. lia.
  - cbn. lia.
  - apply dir_nil.
Defined.
End FileMap.
