(* ===== verification/CacheDigest.v ===== *)
(** * Cache digests: src/CacheDigest.c, and the resizing of the store's digest
    in src/store_digest.c

    A digest is a Bloom filter: four bits per key in a bit array.  Failed
    assertions, signed overflow and accesses outside the array are [None]. *)

From Stdlib Require Import ZArith Lia.
From stdpp Require Import base list numbers option.
From S2P Require Import Prelude Cbit CStr.

Module CacheDigest.
Import Cbit.

Record CacheDigest := mkCd {
  mask : list Z;
  mask_size : Z;
  capacity : Z;
  bits_per_entry : Z;
  count : Z;
  del_count : Z
}.

(** A value that must be an [int]. *)
Definition to_int (z : Z) : option Z := assert? (- 2 ^ 31 <=? z) && (z <? 2 ^ 31) in Some z.

Definition cacheDigestCalcMaskSize (cap bpe : Z) : option Z :=
  let? p := to_int (cap * bpe) in
  let? n := to_int (p + 7) in
  Some (wrap_u 64 n / 8).

(** [cacheDigestInit] leaves the counters as they are. *)
Definition cacheDigestInit (count del_count capacity bpe : Z) : option CacheDigest :=
  let? mask_size := cacheDigestCalcMaskSize capacity bpe in
  assert? (0 <? capacity) && (0 <? bpe) in
  assert? 0 <? mask_size in
  Some (mkCd (repeat 0 (Z.to_nat mask_size)) mask_size capacity bpe count del_count).

(** The pool's memory is zeroed. *)
Definition cacheDigestCreate (capacity bpe : Z) : option CacheDigest := cacheDigestInit 0 0 capacity bpe.

Definition cacheDigestClone (cd : CacheDigest) : option CacheDigest :=
  let? clone := cacheDigestCreate (capacity cd) (bits_per_entry cd) in
  assert? mask_size cd =? mask_size clone in
  Some (mkCd (take (Z.to_nat (mask_size cd)) (mask cd)) (mask_size clone) (capacity clone) (bits_per_entry clone)
         (count cd) (del_count cd)).

Definition cacheDigestClear (cd : CacheDigest) : CacheDigest :=
  mkCd (repeat 0 (Z.to_nat (mask_size cd))) (mask_size cd) (capacity cd) (bits_per_entry cd) 0 0.

Definition cacheDigestChangeCap (cd : CacheDigest) (new_cap : Z) : option CacheDigest :=
  cacheDigestInit (count cd) (del_count cd) new_cap (bits_per_entry cd).

(** [htonl] of a word of the key: its bytes in network order. *)
Definition key_word (key : bytes) (i : nat) : option Z :=
  let? a := key !! (4 * i)%nat in
  let? b := key !! (4 * i + 1)%nat in
  let? c := key !! (4 * i + 2)%nat in
  let? d := key !! (4 * i + 3)%nat in
  Some (((a * 256 + b) * 256 + c) * 256 + d).

Definition hashed_key (bit_count : Z) (key : bytes) (i : nat) : option Z :=
  let? w := key_word key i in
  assert? negb (bit_count =? 0) in Some (w `mod` bit_count).

(** [cacheDigestHashKey]: the four values left in [hashed_keys]. *)
Definition cacheDigestHashKey (cd : CacheDigest) (key : bytes) : option (list Z) :=
  let? n := to_int (mask_size cd * 8) in
  let bit_count := wrap_u 32 n in
  let? h0 := hashed_key bit_count key 0 in
  let? h1 := hashed_key bit_count key 1 in
  let? h2 := hashed_key bit_count key 2 in
  let? h3 := hashed_key bit_count key 3 in
  Some [h0; h1; h2; h3].

(** The conjunction of the tests, in order, each only if the ones before hold. *)
Fixpoint test_bits (m : list Z) (hs : list Z) : option bool :=
  match hs with
  | [] => Some true
  | h :: hs =>
      let? t := CBIT_TEST m h in
      if (t : bool) then test_bits m hs else Some false
  end.

Definition cacheDigestTest (cd : CacheDigest) (key : bytes) : option bool :=
  let? hs := cacheDigestHashKey cd key in test_bits (mask cd) hs.

(** Turning on the bits that are off; the second result is [on_xition_cnt]. *)
Fixpoint add_bits (m : list Z) (cnt : Z) (hs : list Z) : option (list Z * Z) :=
  match hs with
  | [] => Some (m, cnt)
  | h :: hs =>
      let? t := CBIT_TEST m h in
      if negb t then let? m := CBIT_SET m h in add_bits m (cnt + 1) hs
      else add_bits m cnt hs
  end.

Definition cacheDigestAdd (cd : CacheDigest) (key : bytes) : option (CacheDigest * Z) :=
  let? hs := cacheDigestHashKey cd key in
  let? (m, on_xition_cnt) := add_bits (mask cd) 0 hs in
  Some (mkCd m (mask_size cd) (capacity cd) (bits_per_entry cd) (count cd + 1) (del_count cd), on_xition_cnt).

Definition cacheDigestDel (cd : CacheDigest) (key : bytes) : CacheDigest :=
  mkCd (mask cd) (mask_size cd) (capacity cd) (bits_per_entry cd) (count cd) (del_count cd + 1).

(** ** Statistics *)

Record CacheDigestStats := mkStats { bit_count : Z; bit_on_count : Z; bseq_len_sum : Z; bseq_count : Z }.

(** [while (pos-- > 0)]: [pos] is the value tested. *)
Fixpoint stats_loop (m : list Z) (pos : nat) (on_count seq_len_sum seq_count cur_seq_len : Z) (cur_seq_type : bool)
  : option (Z * Z * Z) :=
  match pos with
  | O => Some (on_count, seq_len_sum, seq_count)
  | S pos =>
      let? is_on := CBIT_TEST m (Z.of_nat pos) in
      let on_count := if (is_on : bool) then on_count + 1 else on_count in
      if negb (eqb is_on cur_seq_type) || (pos =? 0)%nat then
        stats_loop m pos on_count (seq_len_sum + cur_seq_len) (seq_count + 1) (0 + 1) is_on
      else stats_loop m pos on_count seq_len_sum seq_count (cur_seq_len + 1) cur_seq_type
  end.

Definition cacheDigestStats (cd : CacheDigest) : option CacheDigestStats :=
  let? n := to_int (mask_size cd * 8) in
  let? (on, len, cnt) := stats_loop (mask cd) (Z.to_nat n) 0 0 0 0 true in
  Some (mkStats n on len cnt).

(** ** Guesses *)

Record cd_guess_stats := mkGuess { true_hits : Z; false_hits : Z; true_misses : Z; false_misses : Z; close_hits : Z }.

Definition cacheDigestGuessStatsUpdate (s : cd_guess_stats) (real_hit guess_hit : bool) : cd_guess_stats :=
  if real_hit then
    if guess_hit then mkGuess (true_hits s + 1) (false_hits s) (true_misses s) (false_misses s) (close_hits s)
    else mkGuess (true_hits s) (false_hits s) (true_misses s) (false_misses s + 1) (close_hits s)
  else
    if guess_hit then mkGuess (true_hits s) (false_hits s + 1) (true_misses s) (false_misses s) (close_hits s)
    else mkGuess (true_hits s) (false_hits s) (true_misses s + 1) (false_misses s) (close_hits s).

(** ** The store's digest *)

(** [storeDigestResize], [cap] being [storeDigestCalcCap()]. *)
Definition storeDigestResize (store_digest : CacheDigest) (cap : Z) : option (CacheDigest * bool) :=
  let? d := to_int (cap - capacity store_digest) in
  let? diff := to_int (Z.abs d) in
  if diff <=? Z.quot (capacity store_digest) 10 then Some (store_digest, false)
  else let? cd := cacheDigestChangeCap store_digest cap in Some (cd, true).

(** The digest a rebuild starts from ([storeDigestRebuildResume]). *)
Definition rebuild_digest (store_digest : CacheDigest) (cap : Z) : option CacheDigest :=
  let? (cd, resized) := storeDigestResize store_digest cap in
  Some (if (resized : bool) then cd else cacheDigestClear cd).

(** ** Invariant *)

Definition cd_ok (cd : CacheDigest) : Prop :=
  Z.of_nat (length (mask cd)) = mask_size cd /\ 0 < mask_size cd /\ mask_size cd * 8 < 2 ^ 31 /\
  0 < capacity cd /\ 0 < bits_per_entry cd /\ cacheDigestCalcMaskSize (capacity cd) (bits_per_entry cd) = Some (mask_size cd).

Definition key_ok (key : bytes) : Prop := length key = 16%nat /\ Forall is_byte key.

(** The parameters a digest can be created with. *)
Definition dims_ok (cap bpe : Z) : Prop := 0 < cap /\ 0 < bpe /\ cap * bpe + 15 < 2 ^ 31.

Lemma to_int_ok z : - 2 ^ 31 <= z < 2 ^ 31 -> to_int z = Some z.
Proof. intros Hz. unfold to_int. destruct (Z.leb_spec (- 2 ^ 31) z), (Z.ltb_spec z (2 ^ 31)); try lia. done. Qed.

Lemma cacheDigestInit_ok c d cap bpe :
  dims_ok cap bpe ->
  exists cd, cacheDigestInit c d cap bpe = Some cd /\ cd_ok cd /\ (forall b, cbit (mask cd) b = false) /\
    count cd = c /\ del_count cd = d /\ capacity cd = cap /\ bits_per_entry cd = bpe.
Proof.
  intros (Hc & Hb & Hp). unfold cacheDigestInit.
  assert (HM : cacheDigestCalcMaskSize cap bpe = Some ((cap * bpe + 7) / 8)).
  { unfold cacheDigestCalcMaskSize. rewrite to_int_ok by lia. bind_simpl. rewrite to_int_ok by lia.
    bind_simpl. by rewrite wrap_u_small by lia. }
  rewrite HM. bind_simpl. destruct (Z.ltb_spec 0 cap), (Z.ltb_spec 0 bpe); try lia. cbn [andb].
  assert (0 < (cap * bpe + 7) / 8) as Hpos by (apply Z.div_str_pos; lia).
  assert ((cap * bpe + 7) / 8 * 8 <= cap * bpe + 7) as Hle by (rewrite Z.mul_comm; apply Z.mul_div_le; lia).
  destruct (Z.ltb_spec 0 ((cap * bpe + 7) / 8)); [|lia].
  eexists. split; [done|]. unfold cd_ok. cbn [mask mask_size capacity bits_per_entry count del_count].
  rewrite repeat_length. split_and!; first [done|lia|apply cbit_zero].
Qed.

Lemma key_word_ok key i : key_ok key -> (i < 4)%nat -> exists w, key_word key i = Some w /\ 0 <= w < 2 ^ 32.
Proof.
  intros [Hl Hb] Hi. unfold key_word.
  assert (Hk : forall j, (j < 16)%nat -> exists v, key !! j = Some v /\ 0 <= v < 256).
  { intros j Hj. destruct (lookup_lt_is_Some_2 key j) as [v Hv]; [lia|]. exists v. split; [done|].
    by apply (Forall_lookup_1 _ _ _ _ Hb) in Hv. }
  destruct (Hk (4 * i)%nat) as (a & -> & ?); [lia|]. destruct (Hk (4 * i + 1)%nat) as (b & -> & ?); [lia|].
  destruct (Hk (4 * i + 2)%nat) as (c & -> & ?); [lia|]. destruct (Hk (4 * i + 3)%nat) as (d & -> & ?); [lia|].
  eexists. split; [done|]. lia.
Qed.

(** The four bits of a key lie inside the array; they depend on the size of
    the array only. *)
Lemma hash_ok cd key :
  cd_ok cd -> key_ok key ->
  exists hs, cacheDigestHashKey cd key = Some hs /\ Forall (in_mask (mask cd)) hs.
Proof.
  intros (Hl & Hp & Hm & _) Hk. unfold cacheDigestHashKey. rewrite to_int_ok by lia. bind_simpl.
  rewrite wrap_u_small by lia.
  assert (Hh : forall i, (i < 4)%nat -> exists h, hashed_key (mask_size cd * 8) key i = Some h /\ in_mask (mask cd) h).
  { intros i Hi. unfold hashed_key. destruct (key_word_ok key i Hk Hi) as (w & -> & _). bind_simpl.
    destruct (Z.eqb_spec (mask_size cd * 8) 0); [lia|]. cbn [negb]. eexists. split; [done|].
    unfold in_mask. pose proof (Z.mod_pos_bound w (mask_size cd * 8)). lia. }
  destruct (Hh 0%nat) as (h0 & -> & ?); [lia|]. destruct (Hh 1%nat) as (h1 & -> & ?); [lia|].
  destruct (Hh 2%nat) as (h2 & -> & ?); [lia|]. destruct (Hh 3%nat) as (h3 & -> & ?); [lia|].
  eexists. split; [done|]. repeat (apply List.Forall_cons; [done|]). apply List.Forall_nil.
Qed.

Lemma hash_same cd cd' key : mask_size cd' = mask_size cd -> cacheDigestHashKey cd' key = cacheDigestHashKey cd key.
Proof. intros E. unfold cacheDigestHashKey. by rewrite E. Qed.

Lemma test_bits_ok m hs : Forall (in_mask m) hs -> test_bits m hs = Some (forallb (cbit m) hs).
Proof.
  induction 1 as [|h hs Hh Hhs IH]; [done|]. cbn [test_bits forallb]. rewrite CBIT_TEST_cbit by done. bind_simpl.
  by destruct (cbit m h).
Qed.

(** Adding turns on the bits of the list and no other. *)
Lemma add_bits_ok m cnt hs :
  Forall (in_mask m) hs ->
  exists m' cnt', add_bits m cnt hs = Some (m', cnt') /\ length m' = length m /\ cnt <= cnt' <= cnt + Z.of_nat (length hs) /\
    (forall b, 0 <= b -> cbit m' b = cbit m b || existsb (Z.eqb b) hs).
Proof.
  revert m cnt. induction hs as [|h hs IH]; intros m cnt Hin.
  { exists m, cnt. cbn. split_and!; [done..|lia|lia|]. intros. by rewrite orb_false_r. }
  pose proof (Forall_inv Hin) as Hh. pose proof (Forall_inv_tail Hin) as Hhs.
  cbn [add_bits length]. rewrite CBIT_TEST_cbit by done. bind_simpl. destruct (cbit m h) eqn:Ht; cbn [negb].
  - destruct (IH m cnt Hhs) as (m' & cnt' & -> & Hl & Hc & Hb). exists m', cnt'. split_and!; [done..|lia|lia|].
    intros b Hb0. rewrite Hb by done. cbn [existsb]. destruct (Z.eqb_spec b h) as [->|]; [by rewrite Ht|done].
  - destruct (CBIT_SET_spec m h Hh) as (m1 & -> & Hl1 & Hb1). bind_simpl.
    destruct (IH m1 (cnt + 1)) as (m' & cnt' & -> & Hl & Hc & Hb).
    { eapply List.Forall_impl; [|exact Hhs]. unfold in_mask. intros a. by rewrite Hl1. }
    exists m', cnt'. split_and!; [done|congruence|lia|lia|]. intros b Hb0. rewrite Hb, Hb1 by done. cbn [existsb].
    destruct (Z.eqb_spec b h); [rewrite bool_decide_eq_true_2 by done|rewrite bool_decide_eq_false_2 by done];
      by rewrite ?orb_true_r, ?orb_false_r.
Qed.

(** ** Adding and testing *)

(** The bits of a key in a digest of this size. *)
Definition key_bits (cd : CacheDigest) (key : bytes) : list Z := default [] (cacheDigestHashKey cd key).

Lemma test_ok cd key :
  cd_ok cd -> key_ok key -> cacheDigestTest cd key = Some (forallb (cbit (mask cd)) (key_bits cd key)).
Proof.
  intros Hok Hk. unfold cacheDigestTest, key_bits. destruct (hash_ok cd key Hok Hk) as (hs & -> & Hin).
  cbn [mbind option_bind default from_option id]. by apply test_bits_ok.
Qed.

Lemma key_bits_nonneg cd key : cd_ok cd -> key_ok key -> Forall (fun b => 0 <= b) (key_bits cd key).
Proof.
  intros Hok Hk. unfold key_bits. destruct (hash_ok cd key Hok Hk) as (hs & -> & Hin). cbn [default from_option id].
  eapply List.Forall_impl; [|exact Hin]. unfold in_mask. intros. lia.
Qed.

(** The parts of a digest an operation on keys leaves alone. *)
Definition same_shape (cd cd' : CacheDigest) : Prop :=
  mask_size cd' = mask_size cd /\ capacity cd' = capacity cd /\ bits_per_entry cd' = bits_per_entry cd.

Lemma add_ok cd key :
  cd_ok cd -> key_ok key ->
  exists cd' n, cacheDigestAdd cd key = Some (cd', n) /\ cd_ok cd' /\ same_shape cd cd' /\ 0 <= n <= 4 /\
    count cd' = count cd + 1 /\ del_count cd' = del_count cd /\
    (forall b, 0 <= b -> cbit (mask cd') b = cbit (mask cd) b || existsb (Z.eqb b) (key_bits cd key)).
Proof.
  intros Hok Hk. unfold cacheDigestAdd, key_bits. destruct (hash_ok cd key Hok Hk) as (hs & Hh & Hin). rewrite Hh.
  cbn [mbind option_bind default from_option id]. destruct (add_bits_ok (mask cd) 0 hs Hin) as (m & n & -> & Hl & Hn & Hb).
  bind_simpl. assert (length hs = 4%nat) as H4.
  { unfold cacheDigestHashKey in Hh. repeat (inv_opt Hh). by injection Hh as <-. }
  rewrite H4 in Hn. eexists _, n. split; [done|]. unfold cd_ok, same_shape in *.
  cbn [mask mask_size capacity bits_per_entry count del_count]. rewrite Hl. split_and!; first [done|lia|apply Hok].
Qed.

Inductive cd_op := CdAdd (key : bytes) | CdDel (key : bytes).
Definition op_key (op : cd_op) : bytes := match op with CdAdd k | CdDel k => k end.
Definition added (op : cd_op) : list bytes := match op with CdAdd k => [k] | CdDel _ => [] end.

Definition cd_step (cd : CacheDigest) (op : cd_op) : option CacheDigest :=
  match op with
  | CdAdd key => let? (cd, _) := cacheDigestAdd cd key in Some cd
  | CdDel key => Some (cacheDigestDel cd key)
  end.

Fixpoint cd_run (cd : CacheDigest) (ops : list cd_op) : option CacheDigest :=
  match ops with
  | [] => Some cd
  | op :: ops => let? cd := cd_step cd op in cd_run cd ops
  end.

Lemma same_shape_bits cd cd' key : same_shape cd cd' -> key_bits cd' key = key_bits cd key.
Proof. intros (E & _). unfold key_bits. by rewrite (hash_same cd cd'). Qed.

Lemma cd_run_ok cd ops :
  cd_ok cd -> Forall (fun op => key_ok (op_key op)) ops ->
  exists cd', cd_run cd ops = Some cd' /\ cd_ok cd' /\ same_shape cd cd' /\
    count cd' = count cd + Z.of_nat (length (concat (map added ops))) /\
    (forall b, 0 <= b -> cbit (mask cd') b = cbit (mask cd) b || existsb (fun key => existsb (Z.eqb b) (key_bits cd key)) (concat (map added ops))).
Proof.
  intros Hok Hops. revert cd Hok. induction Hops as [|op ops Hk Hops IH]; intros cd Hok.
  { exists cd. cbn. split_and!; [done|done|done|lia|]. intros. by rewrite orb_false_r. }
  cbn [cd_run map concat]. destruct op as [key|key]; cbn [cd_step added op_key app existsb] in *.
  - destruct (add_ok cd key Hok Hk) as (cd1 & n & -> & Hok1 & Hs1 & _ & Hc1 & _ & Hb1). bind_simpl.
    destruct (IH cd1 Hok1) as (cd' & -> & Hok' & Hs' & Hc' & Hb'). exists cd'. cbn [length]. split_and!; [done..| |lia|].
    + unfold same_shape in *. intuition congruence.
    + intros b Hb. rewrite Hb', Hb1, <- orb_assoc by done. f_equal. f_equal. clear -Hs1.
      induction (concat (map added ops)) as [|k l IHl]; [done|]. cbn [existsb]. by rewrite (same_shape_bits cd cd1), IHl.
  - bind_simpl. destruct (IH (cacheDigestDel cd key)) as (cd' & -> & Hok' & Hs' & Hc' & Hb'); [done|].
    exists cd'. by split_and!.
Qed.

(** ** Statistics *)

Definition bits_below (m : list Z) (n : nat) : list nat := List.filter (fun i => cbit m (Z.of_nat i)) (seq 0 n).

Lemma bits_below_S m n :
  Z.of_nat (length (bits_below m (S n))) = Z.of_nat (length (bits_below m n)) + if cbit m (Z.of_nat n) then 1 else 0.
Proof.
  unfold bits_below. rewrite seq_S, List.filter_app, length_app. cbn. destruct (cbit m (Z.of_nat n)); cbn; lia.
Qed.

(** One turn at a bit inside the array. *)
Lemma stats_loop_S m pos on sum cnt cur ty :
  Z.of_nat (S pos) <= 8 * Z.of_nat (length m) ->
  stats_loop m (S pos) on sum cnt cur ty =
    let is_on := cbit m (Z.of_nat pos) in
    let on := on + if is_on then 1 else 0 in
    if negb (eqb is_on ty) || (pos =? 0)%nat then stats_loop m pos on (sum + cur) (cnt + 1) (0 + 1) is_on
    else stats_loop m pos on sum cnt (cur + 1) ty.
Proof.
  intros Hp. cbn [stats_loop]. rewrite CBIT_TEST_cbit by (unfold in_mask; lia). bind_simpl.
  destruct (cbit m (Z.of_nat pos)); by rewrite ?Z.add_0_r.
Qed.

Lemma stats_loop_ok m pos on sum cnt cur ty :
  Z.of_nat (S pos) <= 8 * Z.of_nat (length m) ->
  exists cnt', stats_loop m (S pos) on sum cnt cur ty =
    Some (on + Z.of_nat (length (bits_below m (S pos))), sum + cur + Z.of_nat pos, cnt').
Proof.
  revert on sum cnt cur ty. induction pos as [|pos IH]; intros on sum cnt cur ty Hp;
    rewrite stats_loop_S, bits_below_S by done; cbn zeta.
  - rewrite orb_true_r. cbn [stats_loop]. change (length (bits_below m 0)) with 0%nat. eexists. do 3 f_equal; lia.
  - rewrite (proj2 (Nat.eqb_neq (S pos) 0)), orb_false_r by lia.
    destruct (negb (eqb (cbit m (Z.of_nat (S pos))) ty));
      match goal with |- context [stats_loop m (S pos) ?o ?s ?c ?u ?y] => destruct (IH o s c u y) as [k ->]; [lia|] end;
      eexists; do 3 f_equal; lia.
Qed.

Lemma stats_ok cd :
  cd_ok cd -> exists s, cacheDigestStats cd = Some s /\ bit_count s = mask_size cd * 8 /\
    bit_on_count s = Z.of_nat (length (bits_below (mask cd) (Z.to_nat (mask_size cd * 8)))) /\
    bseq_len_sum s = bit_count s - 1.
Proof.
  intros (Hl & Hp & Hm & _). unfold cacheDigestStats. rewrite to_int_ok by lia. bind_simpl.
  destruct (Z.to_nat (mask_size cd * 8)) as [|pos] eqn:E; [lia|].
  destruct (stats_loop_ok (mask cd) pos 0 0 0 0 true) as [c ->]; [lia|]. bind_simpl.
  eexists. split; [done|]. cbn [bit_count bit_on_count bseq_len_sum]. lia.
Qed.

(** ** Properties *)

(** A digest has no false misses: from any well-formed digest, along any sequence of additions and deletions of keys
    (all of which succeed), every added key tests as present at the end; no other bit than the four of each added key is
    turned on, and [count] grows by the number of additions. *)
Theorem cacheDigest_no_false_miss cd ops :
  cd_ok cd -> Forall (fun op => key_ok (op_key op)) ops ->
  exists cd', cd_run cd ops = Some cd' /\ cd_ok cd' /\
    count cd' = count cd + Z.of_nat (length (concat (map added ops))) /\
    (forall key, key ∈ concat (map added ops) -> cacheDigestTest cd' key = Some true) /\
    (forall b, 0 <= b -> cbit (mask cd') b = true ->
       cbit (mask cd) b = true \/ exists key, key ∈ concat (map added ops) /\ b ∈ key_bits cd key).
Proof.
  intros Hok Hops. destruct (cd_run_ok cd ops Hok Hops) as (cd' & Hr & Hok' & Hs & Hc & Hb).
  exists cd'. split_and!; [done..| |].
  - intros key Hin. assert (Hk : key_ok key).
    { apply list_elem_of_In, in_concat in Hin as (l & Hl & Hkl). apply in_map_iff in Hl as (op & <- & Hop).
      rewrite List.Forall_forall in Hops. specialize (Hops op Hop). destruct op; cbn in *; [|done]. by destruct Hkl as [<-|[]]. }
    rewrite test_ok by done. f_equal. apply forallb_forall. intros b Hbin.
    assert (0 <= b) by (by apply (proj1 (List.Forall_forall _ _) (key_bits_nonneg cd' key Hok' Hk))).
    rewrite Hb by done. apply orb_true_iff. right. apply existsb_exists. exists key.
    split; [by apply list_elem_of_In|]. apply existsb_exists. exists b. split; [|apply Z.eqb_refl].
    by rewrite (same_shape_bits cd cd') in Hbin.
  - intros b Hb0 Ht. rewrite Hb in Ht by done. apply orb_true_iff in Ht as [?|Ht]; [by left|right].
    apply existsb_exists in Ht as (key & Hkey & Ht). apply existsb_exists in Ht as (b' & Hb' & ->%Z.eqb_eq).
    exists key. split; by apply list_elem_of_In.
Qed.

Definition ex_key (n : Z) : bytes := [0; 1; 2; n; 4; 5; 6; 7; 8; 9; 10; 11; 12; 13; 14; 15].
Definition ex_ops : list cd_op := [CdAdd (ex_key 1); CdDel (ex_key 1); CdAdd (ex_key 200)].
Definition ex_cd : CacheDigest := mkCd (repeat 0 4) 4 6 5 0 0.

Lemma ex_ops_ok : Forall (fun op => key_ok (op_key op)) ex_ops.
Proof.
  repeat (apply List.Forall_cons; [split; [reflexivity|unfold is_byte; repeat (apply List.Forall_cons; [lia|]); apply List.Forall_nil]|]).
  apply List.Forall_nil.
Qed.

Lemma cacheDigest_no_false_miss_witness :
  (exists cd', cd_run ex_cd ex_ops = Some cd' /\ cd_ok cd' /\
    count cd' = count ex_cd + Z.of_nat (length (concat (map added ex_ops))) /\
    (forall key, key ∈ concat (map added ex_ops) -> cacheDigestTest cd' key = Some true) /\
    (forall b, 0 <= b -> cbit (mask cd') b = true ->
       cbit (mask ex_cd) b = true \/ exists key, key ∈ concat (map added ex_ops) /\ b ∈ key_bits ex_cd key)) /\
  (let? cd := cd_run ex_cd ex_ops in cacheDigestTest cd (ex_key 1)) = Some true /\
  (let? cd := cd_run ex_cd ex_ops in cacheDigestTest cd (ex_key 3)) = Some false.
Proof.
  split; [|split; vm_compute; reflexivity]. apply (cacheDigest_no_false_miss ex_cd ex_ops); [|exact ex_ops_ok].
  repeat split.
Defined.

(** Changing the capacity empties the digest but keeps its counters: when a rebuild starts with a capacity that differs
    by more than a tenth, the digest has no bit set and still the [count] and [del_count] of the previous one, while
    without a resize both are reset. *)
Theorem rebuild_keeps_counters cd cap :
  cd_ok cd -> dims_ok cap (bits_per_entry cd) -> capacity cd < 2 ^ 31 ->
  exists cd', rebuild_digest cd cap = Some cd' /\ (forall b, cbit (mask cd') b = false) /\
    if capacity cd / 10 <? Z.abs (cap - capacity cd) then count cd' = count cd /\ del_count cd' = del_count cd
    else count cd' = 0 /\ del_count cd' = 0.
Proof.
  intros Hok Hd Hcap. pose proof Hok as (_ & _ & _ & Hc & Hb & _). pose proof Hd as (Hp & _ & Hm).
  assert (cap < 2 ^ 31) by nia. unfold rebuild_digest, storeDigestResize. rewrite !to_int_ok by lia. bind_simpl.
  rewrite to_int_ok by lia. bind_simpl. rewrite Z.quot_div_nonneg by lia.
  destruct (Z.leb_spec (Z.abs (cap - capacity cd)) (capacity cd / 10)).
  - bind_simpl. destruct (Z.ltb_spec (capacity cd / 10) (Z.abs (cap - capacity cd))); [lia|].
    eexists. split; [done|]. split; [apply cbit_zero|done].
  - destruct (Z.ltb_spec (capacity cd / 10) (Z.abs (cap - capacity cd))); [|lia].
    unfold cacheDigestChangeCap.
    destruct (cacheDigestInit_ok (count cd) (del_count cd) cap (bits_per_entry cd) Hd) as (cd' & -> & _ & Hz & ? & ? & _).
    bind_simpl. exists cd'. by split_and!.
Qed.

Lemma rebuild_keeps_counters_witness :
  exists cd', rebuild_digest (mkCd (repeat 255 4) 4 6 5 6 2) 60 = Some cd' /\ (forall b, cbit (mask cd') b = false) /\
    (count cd' = 6 /\ del_count cd' = 2).
Proof.
  apply (rebuild_keeps_counters (mkCd (repeat 255 4) 4 6 5 6 2) 60); [repeat split|repeat split|reflexivity].
Defined.
End CacheDigest.
