(* ===== verification/Cbdata.v ===== *)
(** * Callback data

    The registry of libcb/cbdata.c (the build without HASHED_CBDATA and
    CBDATA_DEBUG) over the pools of libmem/MemPool.c.  Code that starts a
    blocking operation locks the callback data of the operation; the owner may
    free it before the operation completes, and the memory stays until the last
    lock is gone.  An object is known by the address of its data, as in the
    code, where the registry's record lies just before it.

    A registered free function is seen through the calls that are made to it:
    the state has the list of them.  Such a function releases what the object
    refers to; the registry calls it makes are later steps of the same
    sequence. *)

From Stdlib Require Import ZArith Lia Ascii String.
From stdpp Require Import base strings gmap list numbers option fin_maps.
From S2P Require Import Prelude CStr.

Module Cbdata.

(** ** Pools *)

Record MemPool := mkPool {
  label : bytes;
  obj_size : Z;
  inuse_level : Z;     (** [meter.inuse.level] *)
  inuse_hwater : Z     (** [meter.inuse.hwater_level] *)
}.

Definition memPoolCreate (label : bytes) (obj_size : Z) : option MemPool :=
  assert? negb (obj_size =? 0) in Some (mkPool label obj_size 0 0).

(** [memMeterInc] with [memMeterCheckHWater]. *)
Definition memMeterInc (p : MemPool) : MemPool :=
  let level := inuse_level p + 1 in
  mkPool (label p) (obj_size p) level (if inuse_hwater p <? level then level else inuse_hwater p).

Definition memMeterDec (p : MemPool) : MemPool :=
  mkPool (label p) (obj_size p) (inuse_level p - 1) (inuse_hwater p).

Definition memPoolInUseCount (p : MemPool) : Z := inuse_level p.
Definition memPoolInUseSize (p : MemPool) : Z := obj_size p * inuse_level p.

(** ** The registry *)

(** [struct cbdata_index_struct]: a NULL pool is [None], a NULL function 0. *)
Record cbdata_index_struct := mkIndex { pool : option MemPool; free_func : Z }.

Record cbdata := mkCbdata { valid : bool; locks : Z; type : Z; y : Z }.

(** The index is an array that may hold cells nobody has written: [None]. *)
Record registry := mkReg {
  cbdata_index : list (option cbdata_index_struct);
  cbdata_types : Z;
  cbdataCount : Z;
  mem : gmap Z cbdata;           (** live objects by the address of their data *)
  free_calls : list (Z * Z)      (** calls of free functions, last first *)
}.

Definition INT_MAX : Z := 2 ^ 31 - 1.
Definition CBDATA_FIRST_CUSTOM_TYPE : Z := 1000.
Definition CBDATA_COOKIE (p : Z) : Z := Z.lxor p 0xDEADBEEF.

(** [OFFSET_OF(cbdata, data)]: three ints, padding, a pointer. *)
Definition OFFSET_OF_data : Z := 24.

Definition set_index (l : list (option cbdata_index_struct)) (n : Z) (s : registry) : registry :=
  mkReg l n (cbdataCount s) (mem s) (free_calls s).
Definition set_mem (m : gmap Z cbdata) (s : registry) : registry :=
  mkReg (cbdata_index s) (cbdata_types s) (cbdataCount s) m (free_calls s).
Definition add_count (n : Z) (s : registry) : registry :=
  mkReg (cbdata_index s) (cbdata_types s) (cbdataCount s + n) (mem s) (free_calls s).

(** State before [cbdataInit]. *)
Definition registry0 : registry := mkReg [] 0 0 ∅ [].

Definition cbdataInit (s : registry) : registry :=
  mkReg (cbdata_index s) (CBDATA_FIRST_CUSTOM_TYPE + 1) (cbdataCount s) (mem s) (free_calls s).

(** [&cbdata_index[t]] read: an index outside the array and a cell that was
    never written have no value. *)
Definition index_at (s : registry) (t : Z) : option cbdata_index_struct :=
  if t <? 0 then None else mjoin (cbdata_index s !! Z.to_nat t).

(** [xrealloc] followed by [memset] of the cells from [cbdata_types] on. *)
Definition grow_index (s : registry) (t : Z) : registry :=
  let n := Z.to_nat (t + 1) in
  let l := resize n None (cbdata_index s) in
  set_index (take (Z.to_nat (cbdata_types s)) l
             ++ replicate (n - Z.to_nat (cbdata_types s)) (Some (mkIndex None 0))) (t + 1) s.

(** The pool's label, cut to its buffer. *)
Definition pool_label (name : bytes) (t : Z) : bytes :=
  take (length name + 19) (str "cbdata " ++ name ++ str " (" ++ dec t ++ str ")").

Definition cbdataInitType (t : Z) (name : bytes) (size f : Z) (s : registry) : option registry :=
  let s := if cbdata_types s <=? t then grow_index s t else s in
  let? e := index_at s t in
  match pool e with
  | Some _ => Some s
  | None =>
      let? p := memPoolCreate (pool_label name t) (size + OFFSET_OF_data) in
      Some (set_index (<[Z.to_nat t := Some (mkIndex (Some p) f)]> (cbdata_index s)) (cbdata_types s) s)
  end.

Definition cbdataAddType (t : Z) (name : bytes) (size f : Z) (s : registry) : option (registry * Z) :=
  if negb (t =? 0) then Some (s, t)
  else
    let t := cbdata_types s in
    let? s := cbdataInitType t name size f s in
    Some (s, t).

Definition cbdataInUseCount (t : Z) (s : registry) : option Z :=
  let? e := index_at s t in
  let? p := pool e in
  Some (memPoolInUseCount p).

(** [memPoolAlloc]: the allocator's answer [p] is the address of the data. *)
Definition memPoolAlloc (t : Z) (s : registry) : option registry :=
  let? e := index_at s t in
  let? p := pool e in
  Some (set_index (<[Z.to_nat t := Some (mkIndex (Some (memMeterInc p)) (free_func e))]> (cbdata_index s))
          (cbdata_types s) s).

(** [memPoolFree] of the object at [p]: the record is gone. *)
Definition memPoolFree (t p : Z) (s : registry) : option registry :=
  let? e := index_at s t in
  let? pl := pool e in
  Some (set_mem (delete p (mem s))
          (set_index (<[Z.to_nat t := Some (mkIndex (Some (memMeterDec pl)) (free_func e))]> (cbdata_index s))
             (cbdata_types s) s)).

Definition cbdataInternalAlloc (t p : Z) (s : registry) : option registry :=
  assert? (0 <? t) && (t <? cbdata_types s) in
  let? s := memPoolAlloc t s in
  Some (add_count 1 (set_mem (<[p := mkCbdata true 0 t (CBDATA_COOKIE p)]> (mem s)) s)).

(** [if (free_func) free_func(p)]. *)
Definition call_free (t p : Z) (s : registry) : option registry :=
  let? e := index_at s t in
  if free_func e =? 0 then Some s
  else Some (mkReg (cbdata_index s) (cbdata_types s) (cbdataCount s) (mem s) ((free_func e, p) :: free_calls s)).

Definition cbdataInternalFree (p : Z) (s : registry) : option registry :=
  let? c := mem s !! p in
  assert? y c =? CBDATA_COOKIE p in
  assert? valid c in
  let s := set_mem (<[p := mkCbdata false (locks c) (type c) (y c)]> (mem s)) s in
  if negb (locks c =? 0) then Some s
  else
    let s := add_count (-1) s in
    let s := set_mem (<[p := mkCbdata false (locks c) (type c) 0]> (mem s)) s in
    let? s := call_free (type c) p s in
    memPoolFree (type c) p s.

(** The macro [cbdataFree]. *)
Definition cbdataFree (p : Z) (s : registry) : option registry :=
  if p =? 0 then Some s else cbdataInternalFree p s.

Definition cbdataLocked (p : Z) (s : registry) : option Z :=
  assert? negb (p =? 0) in
  let? c := mem s !! p in
  assert? y c =? CBDATA_COOKIE p in
  assert? negb (locks c =? 0) || valid c in
  Some (locks c).

Definition cbdataLock (p : Z) (s : registry) : option registry :=
  if p =? 0 then Some s
  else
    let? c := mem s !! p in
    assert? y c =? CBDATA_COOKIE p in
    assert? negb (locks c =? 0) || valid c in
    assert? locks c <? INT_MAX in   (* [locks++] is an int *)
    Some (set_mem (<[p := mkCbdata (valid c) (locks c + 1) (type c) (y c)]> (mem s)) s).

Definition cbdataUnlock (p : Z) (s : registry) : option registry :=
  if p =? 0 then Some s
  else
    let? c := mem s !! p in
    assert? y c =? CBDATA_COOKIE p in
    assert? 0 <? locks c in
    let s := set_mem (<[p := mkCbdata (valid c) (locks c - 1) (type c) (y c)]> (mem s)) s in
    if valid c || negb (locks c - 1 =? 0) then Some s
    else
      let s := add_count (-1) s in
      let? s := call_free (type c) p s in
      memPoolFree (type c) p s.

Definition cbdataValid (p : Z) (s : registry) : option bool :=
  if p =? 0 then Some true
  else
    let? c := mem s !! p in
    assert? y c =? CBDATA_COOKIE p in
    assert? 0 <? locks c in
    Some (valid c).

(** ** Sequences of calls *)

Inductive op :=
  | OAddType (name : bytes) (size f : Z)
  | OAlloc (t p : Z)
  | OFree (p : Z)
  | OLock (p : Z)
  | OUnlock (p : Z)
  | OValid (p : Z)
  | OLocked (p : Z).

Definition step (o : op) (s : registry) : option registry :=
  match o with
  | OAddType name size f => let? (s, _) := cbdataAddType 0 name size f s in Some s
  | OAlloc t p => cbdataInternalAlloc t p s
  | OFree p => cbdataFree p s
  | OLock p => cbdataLock p s
  | OUnlock p => cbdataUnlock p s
  | OValid p => let? _ := cbdataValid p s in Some s
  | OLocked p => let? _ := cbdataLocked p s in Some s
  end.

Fixpoint run (l : list op) (s : registry) : option registry :=
  match l with
  | [] => Some s
  | o :: l => let? s := step o s in run l s
  end.

(** ** What the registry promises

    Seen by its clients an object is owned or not (its owner has not yet freed
    it) and has a number of lock holders.  It exists while it is owned or held;
    the step that ends this calls its free function, once. *)

Record aobj := mkObj { owned : bool; holders : Z; otype : Z }.

Record astate := mkA {
  a_funcs : list Z;          (** free functions of the types added, in order *)
  a_objs : gmap Z aobj;
  a_freed : list (Z * Z)
}.

Definition astate0 : astate := mkA [] ∅ [].

(** Position of a type in the list of types added. *)
Definition type_pos (t : Z) : nat := Z.to_nat (t - (CBDATA_FIRST_CUSTOM_TYPE + 1)).
Definition type_ok (t : Z) (a : astate) : bool :=
  (CBDATA_FIRST_CUSTOM_TYPE <? t) && (t <? CBDATA_FIRST_CUSTOM_TYPE + 1 + Z.of_nat (length (a_funcs a))).

(** The end of an object. *)
Definition release (p : Z) (o : aobj) (a : astate) : astate :=
  let f := nth (type_pos (otype o)) (a_funcs a) 0 in
  mkA (a_funcs a) (delete p (a_objs a)) (if f =? 0 then a_freed a else (f, p) :: a_freed a).

Definition update (p : Z) (o : aobj) (a : astate) : astate :=
  mkA (a_funcs a) (<[p := o]> (a_objs a)) (a_freed a).

Definition astep (o : op) (a : astate) : option astate :=
  match o with
  | OAddType _ size f =>
      assert? negb (size + OFFSET_OF_data =? 0) in
      Some (mkA (a_funcs a ++ [f]) (a_objs a) (a_freed a))
  | OAlloc t p =>
      assert? negb (p =? 0) && type_ok t a && bool_decide (a_objs a !! p = None) in
      Some (update p (mkObj true 0 t) a)
  | OFree p =>
      if p =? 0 then Some a
      else
        let? o := a_objs a !! p in
        assert? owned o in
        Some (if holders o =? 0 then release p o a else update p (mkObj false (holders o) (otype o)) a)
  | OLock p =>
      if p =? 0 then Some a
      else
        let? o := a_objs a !! p in
        assert? holders o <? INT_MAX in
        Some (update p (mkObj (owned o) (holders o + 1) (otype o)) a)
  | OUnlock p =>
      if p =? 0 then Some a
      else
        let? o := a_objs a !! p in
        assert? 0 <? holders o in
        Some (if negb (owned o) && (holders o =? 1) then release p o a
              else update p (mkObj (owned o) (holders o - 1) (otype o)) a)
  | OValid p =>
      if p =? 0 then Some a else let? o := a_objs a !! p in assert? 0 <? holders o in Some a
  | OLocked p => let? _ := a_objs a !! p in Some a
  end.

Fixpoint arun (l : list op) (a : astate) : option astate :=
  match l with
  | [] => Some a
  | o :: l => let? a := astep o a in arun l a
  end.

(** Number of live objects of a type. *)
Definition count_type (t : Z) (m : gmap Z aobj) : Z :=
  Z.of_nat (size (filter (fun kv => otype kv.2 = t) m)).

Definition conc (p : Z) (o : aobj) : cbdata := mkCbdata (owned o) (holders o) (otype o) (CBDATA_COOKIE p).

Definition obj_ok (a : astate) (p : Z) (o : aobj) : Prop :=
  p <> 0 /\ 0 <= holders o <= INT_MAX /\ (owned o = true \/ 0 < holders o) /\ type_ok (otype o) a = true.

Definition index_ok (s : registry) (a : astate) : Prop :=
  (length (cbdata_index s) <= Z.to_nat (cbdata_types s))%nat /\
  forall i f, a_funcs a !! i = Some f -> exists pl,
    cbdata_index s !! (Z.to_nat (CBDATA_FIRST_CUSTOM_TYPE + 1) + i)%nat = Some (Some (mkIndex (Some pl) f)) /\
    inuse_level pl = count_type (CBDATA_FIRST_CUSTOM_TYPE + 1 + Z.of_nat i) (a_objs a).

Record refines (s : registry) (a : astate) : Prop := mkRefines {
  ref_types : cbdata_types s = CBDATA_FIRST_CUSTOM_TYPE + 1 + Z.of_nat (length (a_funcs a));
  ref_index : index_ok s a;
  ref_mem : forall p, mem s !! p = conc p <$> a_objs a !! p;
  ref_objs : forall p o, a_objs a !! p = Some o -> obj_ok a p o;
  ref_count : cbdataCount s = Z.of_nat (size (a_objs a));
  ref_freed : free_calls s = a_freed a
}.

(** ** Lemmas *)

Lemma count_type_insert_new t p o m :
  m !! p = None ->
  count_type t (<[p := o]> m) = count_type t m + (if decide (otype o = t) then 1 else 0).
Proof.
  intros Hp. unfold count_type. case_decide.
  - rewrite map_filter_insert_True by done. rewrite map_size_insert_None; [lia|].
    by apply map_lookup_filter_None_2; left.
  - rewrite map_filter_insert_False by done. rewrite delete_id by done. lia.
Qed.

Lemma count_type_delete t p o m :
  m !! p = Some o ->
  count_type t (delete p m) = count_type t m - (if decide (otype o = t) then 1 else 0).
Proof.
  intros Hp. rewrite <- (insert_delete_id m p o Hp) at 2.
  rewrite count_type_insert_new by apply lookup_delete_eq. lia.
Qed.

Lemma count_type_update t p o o' m :
  m !! p = Some o -> otype o' = otype o -> count_type t (<[p := o']> m) = count_type t m.
Proof.
  intros Hp Ho. rewrite <- (insert_delete_id m p o Hp) at 2. rewrite <- insert_delete_eq.
  rewrite !count_type_insert_new by apply lookup_delete_eq. by rewrite Ho.
Qed.

Lemma type_pos_inj t t' a :
  type_ok t a = true -> type_ok t' a = true -> type_pos t = type_pos t' -> t = t'.
Proof. unfold type_ok, type_pos. intros ???. zify_bools. lia. Qed.

Lemma type_pos_at t a :
  type_ok t a = true ->
  0 <= t /\ (t <? 0) = false /\
  Z.to_nat t = (Z.to_nat (CBDATA_FIRST_CUSTOM_TYPE + 1) + type_pos t)%nat /\
  t = CBDATA_FIRST_CUSTOM_TYPE + 1 + Z.of_nat (type_pos t) /\
  a_funcs a !! type_pos t = Some (nth (type_pos t) (a_funcs a) 0).
Proof.
  unfold type_ok, type_pos. intros ?. zify_bools.
  unfold CBDATA_FIRST_CUSTOM_TYPE in *. split; [lia|]. split; [apply Z.ltb_ge; lia|].
  do 2 (split; [lia|]).
  destruct (lookup_lt_is_Some_2 (a_funcs a) (Z.to_nat (t - (1000 + 1)))) as [f Hf]; [lia|].
  by rewrite (nth_lookup_Some _ _ _ _ Hf).
Qed.

(** The cell of a registered type. *)
Lemma index_at_ok s a t :
  index_ok s a -> type_ok t a = true ->
  exists pl, index_at s t = Some (mkIndex (Some pl) (nth (type_pos t) (a_funcs a) 0)) /\
             inuse_level pl = count_type t (a_objs a) /\ (Z.to_nat t < length (cbdata_index s))%nat.
Proof.
  intros [_ Hi] Ht. destruct (type_pos_at t a Ht) as (_ & Hn & Ez & Et & Hf).
  destruct (Hi _ _ Hf) as (pl & Hl & Hu). exists pl. unfold index_at. rewrite Hn, Ez, Hl.
  rewrite <- Et in Hu. split; [done|]. split; [done|]. by eapply lookup_lt_Some.
Qed.

(** Writing the cell of a type with a pool whose level follows the number of
    live objects. *)
Lemma index_ok_set s a m t pl :
  index_ok s a -> type_ok t a = true ->
  (forall t', t' <> t -> count_type t' m = count_type t' (a_objs a)) ->
  inuse_level pl = count_type t m ->
  forall s', cbdata_index s' = <[Z.to_nat t := Some (mkIndex (Some pl) (nth (type_pos t) (a_funcs a) 0))]> (cbdata_index s) ->
  cbdata_types s' = cbdata_types s ->
  forall a', a_funcs a' = a_funcs a -> a_objs a' = m -> index_ok s' a'.
Proof.
  intros Hi Ht Hm Hpl s' Es Et a' Ef Eo.
  destruct (index_at_ok _ _ _ Hi Ht) as (_ & _ & _ & Hlt). destruct Hi as [Hl Hi].
  destruct (type_pos_at t a Ht) as (_ & _ & Ez & Ett & Hf).
  split; rewrite Es; [by rewrite length_insert, Et|]. rewrite Ef, Eo. intros i f Hif.
  destruct (decide (i = type_pos t)) as [->|Hne].
  - exists pl. rewrite <- Ez, list_lookup_insert_eq by done. rewrite Hf in Hif. injection Hif as ->.
    by rewrite <- Ett.
  - destruct (Hi _ _ Hif) as (pl' & Hl' & Hu). exists pl'.
    rewrite list_lookup_insert_ne by lia. split; [done|]. rewrite Hu, Hm; [done|]. lia.
Qed.

(** The index only depends on the cells and the counts. *)
Lemma index_ok_same s a s' a' :
  index_ok s a -> cbdata_index s' = cbdata_index s -> cbdata_types s' = cbdata_types s ->
  a_funcs a' = a_funcs a -> (forall t, count_type t (a_objs a') = count_type t (a_objs a)) ->
  index_ok s' a'.
Proof.
  intros [Hl Hi] E1 E2 E3 E4. split; rewrite E1, ?E2; [done|]. rewrite E3. intros i f Hif.
  destruct (Hi i f Hif) as (pl & ? & ?). exists pl. by rewrite E4.
Qed.

(** An update of an existing object that keeps its type. *)
Lemma refines_update s a p o o' :
  refines s a -> a_objs a !! p = Some o -> otype o' = otype o ->
  0 <= holders o' <= INT_MAX -> owned o' = true \/ 0 < holders o' ->
  refines (set_mem (<[p := conc p o']> (mem s)) s) (update p o' a).
Proof.
  intros [Ht Hi Hm Ho Hc Hf] Hp Et Hh Hv. destruct (Ho _ _ Hp) as (Hp0 & _ & _ & Hto).
  constructor; cbn; try done.
  - eapply index_ok_same; [done..|]. intros t. cbn. by eapply count_type_update.
  - intros q. destruct (decide (q = p)) as [->|]; map_simpl; [done|apply Hm].
  - intros q o2. destruct (decide (q = p)) as [->|]; map_simpl; [intros [= <-]|apply Ho].
    repeat split; try done; try lia. unfold type_ok in *. by rewrite Et.
  - rewrite Hc. by rewrite map_size_insert_Some by eauto.
Qed.

(** The code that ends an object: the call of the free function and
    [memPoolFree], whatever the record holds then. *)
Lemma refines_release s a p o c :
  refines s a -> a_objs a !! p = Some o ->
  exists s',
    (let? s := call_free (otype o) p (set_mem (<[p := c]> (mem s)) (add_count (-1) s)) in
     memPoolFree (otype o) p s) = Some s' /\ refines s' (release p o a).
Proof.
  intros [Ht Hi Hm Ho Hc Hf] Hp. destruct (Ho _ _ Hp) as (Hp0 & _ & _ & Hto).
  destruct (index_at_ok _ _ _ Hi Hto) as (pl & Hat & Hlev & Hlt).
  set (f := nth (type_pos (otype o)) (a_funcs a) 0) in *.
  set (s1 := mkReg (cbdata_index s) (cbdata_types s) (cbdataCount s + -1) (<[p := c]> (mem s))
               (if f =? 0 then free_calls s else (f, p) :: free_calls s)).
  assert (call_free (otype o) p (set_mem (<[p := c]> (mem s)) (add_count (-1) s)) = Some s1) as E1.
  { unfold call_free, index_at in *. cbn. rewrite Hat. bind_simpl. cbn. unfold s1. by destruct (f =? 0). }
  assert (index_at s1 (otype o) = index_at s (otype o)) as E2 by done.
  rewrite E1. bind_simpl. unfold memPoolFree. rewrite E2, Hat. bind_simpl. cbn. eexists. split; [done|].
  constructor; cbn; try done.
  - eapply (index_ok_set s a (delete p (a_objs a)) (otype o) (memMeterDec pl)); try done.
    + intros t' Hne. rewrite (count_type_delete _ _ _ _ Hp). rewrite decide_False by done. lia.
    + cbn. rewrite (count_type_delete _ _ _ _ Hp), decide_True by done. lia.
  - intros q. rewrite delete_insert_eq. destruct (decide (q = p)) as [->|]; map_simpl; [done|apply Hm].
  - intros q o2 [? Hq]%lookup_delete_Some. by apply Ho.
  - rewrite Hc, map_size_delete_Some by eauto.
    pose proof (map_size_ne_0_lookup_2 (a_objs a) p ltac:(eauto)). lia.
  - by rewrite Hf.
Qed.

Lemma refines_alloc s a t p :
  refines s a -> p <> 0 -> type_ok t a = true -> a_objs a !! p = None ->
  exists s', cbdataInternalAlloc t p s = Some s' /\ refines s' (update p (mkObj true 0 t) a).
Proof.
  intros [Ht Hi Hm Ho Hc Hf] Hp0 Hto Hp. unfold cbdataInternalAlloc, memPoolAlloc.
  destruct (index_at_ok _ _ _ Hi Hto) as (pl & Hat & Hlev & Hlt).
  destruct (type_pos_at t a Hto) as (Ht0 & _ & _ & _ & _). pose proof Hto as Hto'.
  unfold type_ok in Hto'. zify_bools. rewrite Ht.
  rewrite (proj2 (Z.ltb_lt 0 t)) by (unfold CBDATA_FIRST_CUSTOM_TYPE in *; lia).
  rewrite (proj2 (Z.ltb_lt t _)) by done. cbn [andb]. rewrite Hat. bind_simpl. cbn. eexists. split; [done|].
  constructor; cbn; try done.
  - eapply (index_ok_set s a (<[p := mkObj true 0 t]> (a_objs a)) t (memMeterInc pl)); try done.
    + intros t' Hne. rewrite count_type_insert_new by done. rewrite decide_False by done. lia.
    + cbn. rewrite count_type_insert_new, decide_True by done. lia.
  - intros q. destruct (decide (q = p)) as [->|]; map_simpl; [done|apply Hm].
  - intros q o2. destruct (decide (q = p)) as [->|]; map_simpl; [intros [= <-]|apply Ho].
    repeat split; cbn; try done; unfold INT_MAX; lia.
  - rewrite Hc, map_size_insert_None by done. lia.
Qed.

Lemma count_type_fresh s a :
  refines s a -> count_type (CBDATA_FIRST_CUSTOM_TYPE + 1 + Z.of_nat (length (a_funcs a))) (a_objs a) = 0.
Proof.
  intros H. unfold count_type. match goal with |- context [filter ?P ?m] => assert (filter P m = ∅) as -> end; [apply map_empty; intros p; apply map_lookup_filter_None_2; right|by rewrite map_size_empty].
  intros o Hp ?. cbn in *. destruct (ref_objs _ _ H _ _ Hp) as (_ & _ & _ & Ht).
  unfold type_ok in Ht. zify_bools. lia.
Qed.

Lemma refines_addtype s a name size f :
  refines s a -> size + OFFSET_OF_data <> 0 ->
  exists s', cbdataAddType 0 name size f s = Some (s', cbdata_types s) /\
             refines s' (mkA (a_funcs a ++ [f]) (a_objs a) (a_freed a)).
Proof.
  intros H Hsz. pose proof (count_type_fresh _ _ H) as Hfresh. destruct H as [Ht [Hl Hi] Hm Ho Hc Hf].
  unfold cbdataAddType, cbdataInitType. cbn [Z.eqb negb]. rewrite Z.leb_refl.
  set (n := Z.to_nat (cbdata_types s)) in *.
  assert (0 <= cbdata_types s) as H0 by (unfold CBDATA_FIRST_CUSTOM_TYPE in Ht; lia).
  assert (Z.to_nat (cbdata_types s + 1) = S n) as En by lia.
  assert (exists pre, cbdata_index (grow_index s (cbdata_types s)) = pre ++ [Some (mkIndex None 0)] /\
            length pre = n /\ forall i, (i < length (cbdata_index s))%nat -> pre !! i = cbdata_index s !! i)
    as (pre & Epre & Hlen & Hpre).
  { unfold grow_index. rewrite En. cbn [cbdata_index set_index]. fold n.
    exists (take n (resize (S n) None (cbdata_index s))).
    replace (S n - n)%nat with 1%nat by lia. split; [done|]. split.
    - rewrite length_take, length_resize. lia.
    - intros i Hlt. rewrite lookup_take_lt by lia. by rewrite lookup_resize by lia. }
  unfold index_at. rewrite (proj2 (Z.ltb_ge _ 0)) by done. fold n. rewrite Epre.
  rewrite lookup_app_r, Hlen, Nat.sub_diag by lia. cbn. unfold memPoolCreate.
  rewrite (proj2 (Z.eqb_neq _ 0)) by done. cbn [negb]. bind_simpl. eexists. split; [done|].
  constructor; cbn; try done.
  - rewrite length_app; cbn. lia.
  - split.
    + cbn. rewrite length_insert, length_app; cbn. lia.
    + cbn. intros i g. rewrite insert_app_r_alt, Hlen, Nat.sub_diag by lia. cbn [list_insert].
      intros Hg. apply lookup_app_Some in Hg as [Hg|[Hge Hg]].
      * destruct (Hi _ _ Hg) as (pl & Hpl & Hu). exists pl. split; [|done].
        apply lookup_lt_Some in Hpl as Hlt. rewrite lookup_app_l, Hpre by lia. done.
      * apply list_lookup_singleton_Some in Hg as [Hz ->]. replace i with (length (a_funcs a)) by lia.
        eexists. rewrite lookup_app_r by lia. rewrite Hlen.
        replace (Z.to_nat (CBDATA_FIRST_CUSTOM_TYPE + 1) + length (a_funcs a) - n)%nat with 0%nat
          by (unfold n, CBDATA_FIRST_CUSTOM_TYPE in *; lia).
        split; [done|]. by rewrite Hfresh.
  - intros p o Hp. destruct (Ho _ _ Hp) as (? & ? & ? & Hto). repeat split; try done; try lia.
    unfold type_ok in *. cbn. rewrite length_app. cbn. zify_bools.
    rewrite !(proj2 (Z.ltb_lt _ _)) by lia. done.
Qed.

(** A lookup in the memory of records. *)
Lemma mem_at s a p : refines s a -> mem s !! p = conc p <$> a_objs a !! p.
Proof. intros H. apply (ref_mem _ _ H). Qed.

Ltac at_record H Hp :=
  rewrite (mem_at _ _ _ H), ?Hp; cbn [fmap option_fmap option_map]; bind_simpl;
  cbn [conc y valid locks type]; rewrite ?Z.eqb_refl.

Lemma refines_free s a p a' :
  refines s a -> astep (OFree p) a = Some a' -> exists s', cbdataFree p s = Some s' /\ refines s' a'.
Proof.
  intros H. unfold astep, cbdataFree, cbdataInternalFree. destruct (p =? 0); [intros [= <-]; eauto|].
  intros E. destruct (a_objs a !! p) as [o|] eqn:Hp; [|done]. cbn [mbind option_bind] in E.
  destruct (owned o) eqn:Eo; [|done]. injection E as <-. at_record H Hp. rewrite Eo.
  destruct (ref_objs _ _ H _ _ Hp) as (_ & ? & _ & _).
  destruct (holders o =? 0) eqn:Eh; cbn [negb]; zify_bools.
  - cbn [mem set_mem add_count]. rewrite insert_insert_eq.
    exact (refines_release s a p o (mkCbdata false (holders o) (otype o) 0) H Hp).
  - eexists. split; [done|]. apply (refines_update s a p o (mkObj false (holders o) (otype o))); cbn; try done. right. lia.
Qed.

Lemma refines_lock s a p a' :
  refines s a -> astep (OLock p) a = Some a' -> exists s', cbdataLock p s = Some s' /\ refines s' a'.
Proof.
  intros H. unfold astep, cbdataLock. destruct (p =? 0); [intros [= <-]; eauto|].
  intros E. destruct (a_objs a !! p) as [o|] eqn:Hp; [|done]. cbn [mbind option_bind] in E.
  destruct (holders o <? INT_MAX) eqn:Em; [|done]. injection E as <-.
  destruct (ref_objs _ _ H _ _ Hp) as (_ & ? & Hv & _). at_record H Hp. rewrite Em. zify_bools.
  replace (negb (holders o =? 0) || owned o) with true.
  2:{ symmetry. apply orb_true_iff. destruct Hv as [->|]; [by right|left]. apply negb_true_iff, Z.eqb_neq. lia. }
  eexists. split; [done|].
  apply (refines_update s a p o (mkObj (owned o) (holders o + 1) (otype o))); cbn; try done; lia.
Qed.

Lemma refines_unlock s a p a' :
  refines s a -> astep (OUnlock p) a = Some a' -> exists s', cbdataUnlock p s = Some s' /\ refines s' a'.
Proof.
  intros H. unfold astep, cbdataUnlock. destruct (p =? 0); [intros [= <-]; eauto|].
  intros E. destruct (a_objs a !! p) as [o|] eqn:Hp; [|done]. cbn [mbind option_bind] in E.
  destruct (0 <? holders o) eqn:Eh; [|done]. injection E as <-.
  destruct (ref_objs _ _ H _ _ Hp) as (_ & ? & Hv & _). at_record H Hp. rewrite Eh. zify_bools.
  replace (owned o || negb (holders o - 1 =? 0)) with (negb (negb (owned o) && (holders o =? 1))).
  2:{ rewrite negb_andb, negb_involutive. do 2 f_equal. lia. }
  destruct (negb (owned o) && (holders o =? 1)) eqn:Ec; cbn [negb].
  - exact (refines_release s a p o (mkCbdata (owned o) (holders o - 1) (otype o) (CBDATA_COOKIE p)) H Hp).
  - eexists. split; [done|].
    apply (refines_update s a p o (mkObj (owned o) (holders o - 1) (otype o))); cbn; try done; [lia|].
    apply andb_false_iff in Ec as [Ec|Ec]; zify_bools; [by left|right; lia].
Qed.

(** Questions: an object that is locked may be asked for its validity, and one
    that is there for its locks; the answers are the ones of the client's view. *)
Lemma cbdataValid_refines s a p :
  refines s a -> p <> 0 ->
  cbdataValid p s = (let? o := a_objs a !! p in assert? 0 <? holders o in Some (owned o)).
Proof.
  intros H Hp0. unfold cbdataValid. rewrite (proj2 (Z.eqb_neq p 0)) by done.
  rewrite (mem_at _ _ _ H). destruct (a_objs a !! p) as [o|]; [|done]. cbn. by rewrite Z.eqb_refl.
Qed.

Lemma cbdataLocked_refines s a p :
  refines s a -> cbdataLocked p s = (let? o := a_objs a !! p in Some (holders o)).
Proof.
  intros H. unfold cbdataLocked. destruct (p =? 0) eqn:E0; cbn [negb]; zify_bools.
  - destruct (a_objs a !! p) eqn:Hp; [|done]. by destruct (ref_objs _ _ H _ _ Hp) as [? _].
  - rewrite (mem_at _ _ _ H). destruct (a_objs a !! p) as [o|] eqn:Hp; [|done]. cbn. rewrite Z.eqb_refl.
    destruct (ref_objs _ _ H _ _ Hp) as (_ & ? & Hv & _).
    destruct (negb (holders o =? 0)) eqn:E; zify_bools; cbn [orb]; [done|].
    destruct Hv as [->|]; [done|lia].
Qed.

Lemma step_refines s a o a' :
  refines s a -> astep o a = Some a' -> exists s', step o s = Some s' /\ refines s' a'.
Proof.
  intros H E. destruct o as [name size f|t p|p|p|p|p|p]; cbn [step].
  - cbn in E. destruct (negb (size + OFFSET_OF_data =? 0)) eqn:Es; [|done]. injection E as <-. zify_bools.
    destruct (refines_addtype s a name size f H Es) as (s' & -> & ?). eauto.
  - cbn in E. destruct (negb (p =? 0) && type_ok t a && bool_decide (a_objs a !! p = None)) eqn:Ec; [|done].
    injection E as <-. zify_bools. by apply refines_alloc; [| |done|eapply bool_decide_eq_true_1].
  - by eapply refines_free.
  - by eapply refines_lock.
  - by eapply refines_unlock.
  - cbn in E. destruct (p =? 0) eqn:Ep; zify_bools.
    + injection E as <-. subst. eauto.
    + rewrite (cbdataValid_refines _ _ _ H Ep). destruct (a_objs a !! p) as [o|]; [|done]. cbn in E |- *.
      destruct (0 <? holders o); [|done]. injection E as <-. eauto.
  - cbn in E. rewrite (cbdataLocked_refines _ _ _ H). destruct (a_objs a !! p) as [o|]; [|done].
    injection E as <-. eauto.
Qed.

(** A call the client's view refuses fails in the code too, unless it is an
    allocation, where the refused answers are those the allocator never gives. *)
Lemma step_refuses s a o :
  refines s a -> astep o a = None -> (forall t p, o <> OAlloc t p) -> step o s = None.
Proof.
  intros H E Hno. destruct o as [name size f|t p|p|p|p|p|p]; cbn [step astep] in *; [|by destruct (Hno t p)|..].
  - destruct (negb (size + OFFSET_OF_data =? 0)) eqn:Es; [done|].
    unfold cbdataAddType, cbdataInitType. cbn [Z.eqb negb]. destruct (index_at _ _) as [e|] eqn:Ei; [|done].
    bind_simpl. destruct (pool e) as [pl|] eqn:Epl; [|unfold memPoolCreate; by rewrite Es].
    destruct H as [Ht [Hl _] _ _ _ _]. rewrite Z.leb_refl in Ei. exfalso.
    unfold index_at, grow_index in Ei. cbn in Ei.
    replace (Z.to_nat (cbdata_types s + 1)) with (S (Z.to_nat (cbdata_types s)))
      in Ei by (unfold CBDATA_FIRST_CUSTOM_TYPE in Ht; lia).
    destruct (cbdata_types s <? 0); [done|].
    rewrite lookup_app_r in Ei; rewrite length_take, length_resize, Nat.min_l in * by lia; [|lia].
    rewrite Nat.sub_diag, Nat.sub_succ_l, Nat.sub_diag in Ei by lia. cbn in Ei. injection Ei as <-. done.
  - unfold cbdataFree, cbdataInternalFree. destruct (p =? 0); [done|]. at_record H p.
    destruct (a_objs a !! p) as [o|]; [|done]. cbn in *. rewrite Z.eqb_refl. by destruct (owned o).
  - unfold cbdataLock. destruct (p =? 0); [done|]. at_record H p.
    destruct (a_objs a !! p) as [o|]; [|done]. cbn in *. rewrite Z.eqb_refl.
    destruct (negb (holders o =? 0) || owned o); [|done]. by destruct (holders o <? INT_MAX).
  - unfold cbdataUnlock. destruct (p =? 0); [done|]. at_record H p.
    destruct (a_objs a !! p) as [o|]; [|done]. cbn in *. rewrite Z.eqb_refl. by destruct (0 <? holders o).
  - destruct (p =? 0) eqn:Ep; [done|]. zify_bools. rewrite (cbdataValid_refines _ _ _ H Ep).
    destruct (a_objs a !! p) as [o|]; [|done]. cbn in *. by destruct (0 <? holders o).
  - rewrite (cbdataLocked_refines _ _ _ H). by destruct (a_objs a !! p).
Qed.

Lemma refines_init : refines (cbdataInit registry0) astate0.
Proof.
  constructor; cbn; try done.
  - split; [cbn; lia|]. intros i f Hf. done.
Qed.

Lemma run_refines l : forall s a a', refines s a -> arun l a = Some a' ->
  exists s', run l s = Some s' /\ refines s' a'.
Proof.
  induction l as [|o l IH]; cbn; intros s a a' H E; [injection E as <-; eauto|].
  inv_opt E. destruct (step_refines _ _ _ _ H E0) as (s1 & -> & H1). bind_simpl. by eapply IH.
Qed.

(** Unlocking one holder at a time after the owner has freed the object. *)
Lemma arun_unlocks k : forall p o a,
  a_objs a !! p = Some o -> p <> 0 -> owned o = false -> Z.of_nat k < holders o ->
  arun (replicate k (OUnlock p)) a = Some (update p (mkObj false (holders o - Z.of_nat k) (otype o)) a).
Proof.
  induction k as [|k IH]; intros p o a Hp Hp0 Ho Hk; cbn [replicate arun].
  - rewrite Z.sub_0_r. destruct o, a; cbn in *. subst. unfold update; cbn. by rewrite insert_id.
  - cbn [astep]. rewrite (proj2 (Z.eqb_neq p 0)) by done. rewrite Hp. bind_simpl.
    rewrite (proj2 (Z.ltb_lt 0 (holders o))) by lia. rewrite Ho.
    rewrite (proj2 (Z.eqb_neq (holders o) 1)) by lia. cbn [negb andb]. bind_simpl.
    rewrite (IH _ (mkObj false (holders o - 1) (otype o))); cbn; try done; [|by map_simpl|lia].
    unfold update; cbn. rewrite insert_insert_eq. do 4 f_equal. lia.
Qed.

Lemma arun_app l1 l2 a : arun (l1 ++ l2) a = (let? a := arun l1 a in arun l2 a).
Proof.
  revert a. induction l1 as [|o l1 IH]; intros a; [done|]. cbn.
  destruct (astep o a); [apply IH|done].
Qed.

Definition is_alloc (o : op) : bool := match o with OAlloc _ _ => true | _ => false end.
Definition has_func (o : op) : Prop := match o with OAddType _ _ f => f <> 0 | _ => True end.

(** Every step keeps the balance of allocations, live objects and calls of
    free functions, when every type has a free function. *)
Lemma astep_balance o a a' :
  (forall p x, a_objs a !! p = Some x -> type_ok (otype x) a = true) -> Forall (fun f => f <> 0) (a_funcs a) ->
  has_func o -> astep o a = Some a' ->
  (size (a_objs a') + length (a_freed a') =
     size (a_objs a) + length (a_freed a) + (if is_alloc o then 1 else 0))%nat /\
  Forall (fun f => f <> 0) (a_funcs a').
Proof.
  intros Hok Hfs Hf E.
  assert (forall p x y, a_objs a !! p = Some x -> size (a_objs (update p y a)) = size (a_objs a)) as Hupd.
  { intros p x y0 Hp. cbn. by rewrite map_size_insert_Some by eauto. }
  assert (forall p x, a_objs a !! p = Some x ->
            (size (a_objs (release p x a)) + length (a_freed (release p x a)) =
             size (a_objs a) + length (a_freed a))%nat) as Hrel.
  { intros p x Hp. destruct (type_pos_at (otype x) a (Hok _ _ Hp)) as (_ & _ & _ & _ & Hl).
    pose proof (Forall_lookup_1 _ _ _ _ Hfs Hl) as Hne. cbn in Hne |- *.
    rewrite (proj2 (Z.eqb_neq _ 0)) by done. cbn [length]. rewrite map_size_delete_Some by eauto.
    pose proof (map_size_ne_0_lookup_2 (a_objs a) p ltac:(eauto)). lia. }
  destruct o as [name size f|t p|p|p|p|p|p]; cbn [astep is_alloc] in E |- *; try (destruct (p =? 0); [by simplify_eq; split; [lia|]|]);
    inv_opt E; simplify_eq/=; try (split; [lia|done]).
  - split; [lia|]. apply Forall_app. split; [done|]. by apply List.Forall_cons; [|apply List.Forall_nil].
  - apply andb_true_iff in E0 as [_ E0]. apply bool_decide_eq_true_1 in E0.
    rewrite map_size_insert_None by done. split; [lia|done].
  - destruct (holders a0 =? 0); (split; [|done]); cbn; [rewrite (Hrel _ _ E0)|rewrite (Hupd _ _ _ E0)]; lia.
  - rewrite (Hupd _ _ _ E0). split; [lia|done].
  - destruct (negb (owned a0) && (holders a0 =? 1)); (split; [|done]); cbn;
      [rewrite (Hrel _ _ E0)|rewrite (Hupd _ _ _ E0)]; lia.
Qed.

Lemma arun_balance l : forall s a a',
  refines s a -> Forall (fun f => f <> 0) (a_funcs a) -> Forall has_func l -> arun l a = Some a' ->
  (size (a_objs a') + length (a_freed a') =
     size (a_objs a) + length (a_freed a) + length (List.filter is_alloc l))%nat.
Proof.
  induction l as [|o l IH]; cbn; intros s a a' H Hfs Hl E; [injection E as <-; lia|].
  inv_opt E. apply Forall_cons in Hl as [Ho Hl].
  destruct (step_refines _ _ _ _ H E0) as (s1 & _ & H1).
  destruct (astep_balance o a a0) as [Hb Hfs1]; try done.
  { intros p x Hp. apply (ref_objs _ _ H _ _ Hp). }
  rewrite (IH _ _ _ H1 Hfs1 Hl E), Hb. destruct (is_alloc o); cbn; lia.
Qed.

(** ** Properties *)

(** C37. The registry refines the clients' view of it: every sequence of calls
    the view accepts runs without a failed assertion or a use of freed memory,
    and afterwards the records, the count of objects and the pool levels are
    those of the view; calls the view refuses (other than allocations, whose
    address is the allocator's choice) are refused by an assertion. *)
Theorem cbdata_refines l a :
  arun l astate0 = Some a ->
  exists s, run l (cbdataInit registry0) = Some s /\ refines s a /\
    forall o, (forall t p, o <> OAlloc t p) -> (is_Some (step o s) <-> is_Some (astep o a)).
Proof.
  intros E. destruct (run_refines l _ _ _ refines_init E) as (s & Hs & H). exists s. split; [done|].
  split; [done|]. intros o Ho. destruct (astep o a) as [a'|] eqn:Ea.
  - destruct (step_refines _ _ _ _ H Ea) as (s' & -> & _). split; eauto.
  - rewrite (step_refuses _ _ _ H Ea Ho). split; by intros [? ?].
Qed.

Lemma cbdata_refines_witness :
  exists s, run [OAddType (str "fd") 16 7; OAlloc 1001 512; OLock 512; OFree 512; OValid 512]
              (cbdataInit registry0) = Some s /\
    refines s (mkA [7] {[512 := mkObj false 1 1001]} []) /\
    forall o, (forall t p, o <> OAlloc t p) ->
      (is_Some (step o s) <-> is_Some (astep o (mkA [7] {[512 := mkObj false 1 1001]} []))).
Proof. apply cbdata_refines. reflexivity. Defined.

(** C38. An object that its owner frees while [n] others hold locks on it
    becomes invalid at once and stays in memory, without its free function
    being called, until the last of them unlocks it: then the free function is
    called and the memory is gone. *)
Theorem cbdata_deferred_free s a p n t :
  refines s a -> a_objs a !! p = Some (mkObj true (Z.of_nat n) t) -> (0 < n)%nat ->
  (forall k, (k < n)%nat -> exists s',
     run (OFree p :: replicate k (OUnlock p)) s = Some s' /\ free_calls s' = free_calls s /\
     cbdataValid p s' = Some false /\ cbdataLocked p s' = Some (Z.of_nat (n - k)) /\
     cbdataCount s' = cbdataCount s) /\
  exists s', run (OFree p :: replicate n (OUnlock p)) s = Some s' /\ mem s' !! p = None /\
    cbdataCount s' = cbdataCount s - 1 /\
    let f := nth (type_pos t) (a_funcs a) 0 in
    free_calls s' = (if f =? 0 then free_calls s else (f, p) :: free_calls s).
Proof.
  intros H Hp Hn. destruct (ref_objs _ _ H _ _ Hp) as (Hp0 & _).
  set (o1 := mkObj false (Z.of_nat n) t).
  assert (astep (OFree p) a = Some (update p o1 a)) as E1.
  { cbn. rewrite (proj2 (Z.eqb_neq p 0)) by done. rewrite Hp. cbn.
    by rewrite (proj2 (Z.eqb_neq _ 0)) by lia. }
  assert (forall k, (k < n)%nat ->
            arun (OFree p :: replicate k (OUnlock p)) a
            = Some (update p (mkObj false (Z.of_nat (n - k)) t) a)) as Ek.
  { intros k Hk. cbn [arun]. rewrite E1. bind_simpl.
    rewrite (arun_unlocks k p o1); cbn; try done; [|by map_simpl|lia].
    unfold update; cbn. rewrite insert_insert_eq. do 4 f_equal. lia. }
  split.
  - intros k Hk. destruct (run_refines _ _ _ _ H (Ek k Hk)) as (s' & -> & H').
    exists s'. split; [done|]. rewrite (ref_freed _ _ H'), (ref_freed _ _ H).
    rewrite (ref_count _ _ H'), (ref_count _ _ H), (cbdataLocked_refines _ _ _ H'),
      (cbdataValid_refines _ _ _ H' Hp0). cbn. map_simpl. cbn.
    rewrite (proj2 (Z.ltb_lt _ _)) by lia. rewrite map_size_insert_Some by eauto. done.
  - destruct n as [|n]; [lia|].
    assert (arun (OFree p :: replicate (S n) (OUnlock p)) a
            = Some (release p (mkObj false 1 t) (update p (mkObj false 1 t) a))) as E.
    { rewrite replicate_S_end, app_comm_cons, arun_app, (Ek n) by lia. bind_simpl. cbn [arun astep].
      rewrite (proj2 (Z.eqb_neq p 0)) by done. cbn. map_simpl. cbn.
      by replace (Z.of_nat (S n - n)) with 1 by lia. }
    destruct (run_refines _ _ _ _ H E) as (s' & -> & H'). exists s'. split; [done|].
    rewrite (mem_at _ _ _ H'), (ref_freed _ _ H'), (ref_freed _ _ H), (ref_count _ _ H'), (ref_count _ _ H).
    cbn. map_simpl. rewrite delete_insert_eq, map_size_delete_Some by eauto.
    pose proof (map_size_ne_0_lookup_2 (a_objs a) p ltac:(eauto)). repeat split; lia.
Qed.

Lemma cbdata_deferred_free_witness :
  exists s a, refines s a /\
  (forall k, (k < 2)%nat -> exists s',
     run (OFree 512 :: replicate k (OUnlock 512)) s = Some s' /\ free_calls s' = free_calls s /\
     cbdataValid 512 s' = Some false /\ cbdataLocked 512 s' = Some (Z.of_nat (2 - k)) /\
     cbdataCount s' = cbdataCount s) /\
  exists s', run (OFree 512 :: replicate 2 (OUnlock 512)) s = Some s' /\ mem s' !! 512 = None /\
    cbdataCount s' = cbdataCount s - 1 /\
    let f := nth (type_pos 1001) (a_funcs a) 0 in
    free_calls s' = (if f =? 0 then free_calls s else (f, 512) :: free_calls s).
Proof.
  destruct (run_refines [OAddType (str "fd") 16 7; OAlloc 1001 512; OLock 512; OLock 512] _ _
              (mkA [7] {[512 := mkObj true 2 1001]} []) refines_init eq_refl) as (s & _ & H).
  exists s, (mkA [7] {[512 := mkObj true 2 1001]} []). split; [exact H|].
  apply (cbdata_deferred_free s _ 512 2 1001 H); [reflexivity|lia].
Defined.

(** Every object is freed exactly once: when every type has a free
    function, the number of allocations of an accepted sequence of calls is
    the number of calls of free functions plus [cbdataCount]. *)
Theorem cbdata_balance l a :
  Forall has_func l -> arun l astate0 = Some a ->
  exists s, run l (cbdataInit registry0) = Some s /\
    Z.of_nat (length (List.filter is_alloc l)) = Z.of_nat (length (free_calls s)) + cbdataCount s.
Proof.
  intros Hl E. destruct (run_refines l _ _ _ refines_init E) as (s & Hs & H). exists s. split; [done|].
  pose proof (arun_balance l _ _ _ refines_init (List.Forall_nil _) Hl E) as Hb.
  rewrite (ref_freed _ _ H), (ref_count _ _ H). cbn in Hb. rewrite map_size_empty in Hb. lia.
Qed.

Lemma cbdata_balance_witness :
  exists s, run [OAddType (str "fd") 16 7; OAlloc 1001 512; OAlloc 1001 640; OFree 512] (cbdataInit registry0) = Some s /\
    Z.of_nat (length (List.filter is_alloc [OAddType (str "fd") 16 7; OAlloc 1001 512; OAlloc 1001 640; OFree 512]))
    = Z.of_nat (length (free_calls s)) + cbdataCount s.
Proof.
  apply (cbdata_balance _ (mkA [7] {[640 := mkObj true 0 1001]} [(7, 512)])); [|reflexivity].
  repeat (apply List.Forall_cons; [cbn; lia || exact I|]). apply List.Forall_nil.
Defined.

(** [cbdataInit] counts the predefined types as present without an index for
    them: none of them can be given a pool. *)
Lemma cbdataInitType_predefined t name size f :
  0 <= t <= CBDATA_FIRST_CUSTOM_TYPE -> cbdataInitType t name size f (cbdataInit registry0) = None.
Proof.
  intros Ht. unfold cbdataInitType. cbn [cbdata_types cbdataInit].
  rewrite (proj2 (Z.leb_gt _ t)) by lia. unfold index_at. rewrite (proj2 (Z.ltb_ge t 0)) by lia. done.
Qed.

End Cbdata.
