(* ===== verification/Event.v ===== *)
(** * The event queue

    The timed events of libiapp/event.c over the callback registry.  The queue
    is the list that starts at [tasks], in the order of the [next] pointers:
    no other pointer to an entry survives a call, so that an entry is where the
    list has it.  Functions and arguments are addresses, 0 being NULL.  What a
    handler does is a parameter, as is the random number of [eventAddIsh]. *)

From Stdlib Require Import ZArith Lia SpecFloat Sorted.
From stdpp Require Import base gmap list numbers option fin_maps sorting.
From S2P Require Import Prelude CStr Heap Cbdata.
Import Cbdata.

Module Event.

Record ev_entry := mkEv {
  func : Z; arg : Z; name : bytes; when : dbl; weight : Z; id : Z
}.

Record state := mkSt {
  tasks : list ev_entry;
  run_id : Z;
  last_event_ran : bytes;
  current_dtime : dbl;
  reg : registry
}.

Definition set_tasks (l : list ev_entry) (s : state) : state :=
  mkSt l (run_id s) (last_event_ran s) (current_dtime s) (reg s).
Definition set_reg (r : registry) (s : state) : state :=
  mkSt (tasks s) (run_id s) (last_event_ran s) (current_dtime s) r.

(** ** Adding *)

(** Insertion after the last event with the same or an earlier time. *)
Fixpoint insert_event (e : ev_entry) (l : list ev_entry) : list ev_entry :=
  match l with
  | [] => [e]
  | x :: l' => if SFltb (when e) (when x) then e :: l else x :: insert_event e l'
  end.

Definition eventAdd (name : bytes) (func arg : Z) (when : dbl) (weight : Z) (s : state) : option state :=
  let event := mkEv func arg name (dbl_add (current_dtime s) when) weight (run_id s) in
  let? r := (if negb (arg =? 0) then cbdataLock arg (reg s) else Some (reg s)) in
  Some (set_tasks (insert_event event (tasks s)) (set_reg r s)).

(** [drand] is the value of [drand48()]. *)
Definition eventAddIsh (name : bytes) (func arg : Z) (delta_ish : dbl) (weight : Z) (drand : dbl) (s : state)
    : option state :=
  let delta :=
    if SFleb (dbl_of_Z 3) delta_ish then
      let two_third := dbl_div (dbl_mul (dbl_of_Z 2) delta_ish) (dbl_of_Z 3) in
      dbl_add two_third (dbl_mul drand two_third)
    else delta_ish in
  eventAdd name func arg delta weight s.

(** ** Removing *)

(** [if (NULL != event->arg) cbdataUnlock(event->arg)]. *)
Definition unlock_arg (a : Z) (r : registry) : option registry :=
  if negb (a =? 0) then cbdataUnlock a r else Some r.

(** The loop of [eventDelete] and [eventDeleteNoAssert]: the first event that
    matches goes; the flag tells whether there was one. *)
Fixpoint delete_loop (f a : Z) (l : list ev_entry) (r : registry) : option (list ev_entry * registry * bool) :=
  match l with
  | [] => Some ([], r, false)
  | e :: l' =>
      if negb (func e =? f) || (negb (a =? 0) && negb (arg e =? a)) then
        let? (l', r, b) := delete_loop f a l' r in Some (e :: l', r, b)
      else
        let? r := unlock_arg (arg e) r in
        Some (l', r, true)
  end.

Definition eventDeleteNoAssert (f a : Z) (s : state) : option state :=
  let? (l, r, _) := delete_loop f a (tasks s) (reg s) in
  Some (set_tasks l (set_reg r s)).

Definition eventDelete (f a : Z) (s : state) : option state :=
  let? (l, r, found) := delete_loop f a (tasks s) (reg s) in
  if (found : bool) then Some (set_tasks l (set_reg r s))
  else assert? a =? 0 in Some (set_tasks l (set_reg r s)).

(** A loop that visits every event and removes those [del] selects. *)
Fixpoint condition_loop (del : ev_entry -> bool) (l : list ev_entry) (r : registry)
    : option (list ev_entry * registry) :=
  match l with
  | [] => Some ([], r)
  | e :: l' =>
      if negb (del e) then
        let? (l', r) := condition_loop del l' r in Some (e :: l', r)
      else
        let? r := unlock_arg (arg e) r in
        condition_loop del l' r
  end.

Definition eventConditionDelete (fd f : Z) (condition : Z -> Z -> bool) (s : state) : option state :=
  let? (l, r) := condition_loop (fun e => (func e =? f) && condition fd (arg e)) (tasks s) (reg s) in
  Some (set_tasks l (set_reg r s)).

(** The calls [eventTravel] makes, in order. *)
Fixpoint travel_loop (fd f : Z) (l : list ev_entry) : list (Z * Z) :=
  match l with
  | [] => []
  | e :: l => if negb (func e =? f) then travel_loop fd f l else (fd, arg e) :: travel_loop fd f l
  end.
Definition eventTravel (fd f : Z) (s : state) : list (Z * Z) := travel_loop fd f (tasks s).

(** The loop of [eventCleanup]. *)
Fixpoint cleanup_loop (l : list ev_entry) (r : registry) : option (list ev_entry * registry) :=
  match l with
  | [] => Some ([], r)
  | e :: l' =>
      let? v := cbdataValid (arg e) r in
      if negb v then
        let? r := cbdataUnlock (arg e) r in
        cleanup_loop l' r
      else
        let? (l', r) := cleanup_loop l' r in Some (e :: l', r)
  end.

Definition eventCleanup (s : state) : option state :=
  let? (l, r) := cleanup_loop (tasks s) (reg s) in
  Some (set_tasks l (set_reg r s)).

Fixpoint free_events_loop (l : list ev_entry) (r : registry) : option registry :=
  match l with
  | [] => Some r
  | e :: l => let? r := unlock_arg (arg e) r in free_events_loop l r
  end.

Definition eventFreeMemory (s : state) : option state :=
  let? r := free_events_loop (tasks s) (reg s) in
  Some (set_tasks [] (set_reg r s)).

(** ** Questions *)

Definition eventFind (f a : Z) (s : state) : bool :=
  existsb (fun e => (func e =? f) && (arg e =? a)) (tasks s).

(** [ceil], as an integer. *)
Definition dbl_ceil (x : dbl) : option Z :=
  match x with
  | S754_zero _ => Some 0
  | S754_finite s m e =>
      let v := if s then Z.neg m else Z.pos m in
      Some (if 0 <=? e then v * 2 ^ e else - ((- v) / 2 ^ (- e)))
  | S754_infinity _ | S754_nan => None
  end.

(** The conversion of the result to [int] is undefined out of its range. *)
Definition eventNextTime (s : state) : option Z :=
  match tasks s with
  | [] => Some 10000
  | e :: _ =>
      let? z := dbl_ceil (dbl_mul (dbl_sub (when e) (current_dtime s)) (dbl_of_Z 1000)) in
      assert? (- 2 ^ 31 <=? z) && (z <? 2 ^ 31) in Some z
  end.

(** ** Running *)

Section run.
(** What calling a function on an argument does. *)
Context (handler : Z -> Z -> state -> option state).

(** The loop of [eventRun]: the state and the events whose handlers were
    called, in order. *)
Fixpoint run_loop (fuel : nat) (w : Z) (s : state) : option (state * list ev_entry) :=
  match fuel with
  | O => None
  | S fuel =>
      match tasks s with
      | [] => Some (s, [])
      | event :: next =>
          if SFltb (current_dtime s) (when event) then Some (s, [])
          else if id event =? run_id s then Some (s, [])
          else if negb (w =? 0) then Some (s, [])
          else
            let s := set_tasks next s in
            let a := arg event in
            let? (valid, r) :=
              (if negb (a =? 0) then
                 let? v := cbdataValid a (reg s) in
                 let? r := cbdataUnlock a (reg s) in Some (v, r)
               else Some (true, reg s)) in
            let s := set_reg r s in
            if (valid : bool) then
              let w := w + weight event in
              let s := mkSt (tasks s) (run_id s) (name event) (current_dtime s) (reg s) in
              let? s := handler (func event) a s in
              let? (s, l) := run_loop fuel w s in Some (s, event :: l)
            else run_loop fuel w s
      end
  end.

Definition eventRun (s : state) : option (state * list ev_entry) :=
  match tasks s with
  | [] => Some (s, [])
  | e :: _ =>
      if SFltb (current_dtime s) (when e) then Some (s, [])
      else
        assert? run_id s <? INT_MAX in
        let s := mkSt (tasks s) (run_id s + 1) (last_event_ran s) (current_dtime s) (reg s) in
        run_loop (S (length (tasks s))) 0 s
  end.
End run.

(** ** Invariant

    Every queued event with an argument holds a lock on it, the queue is
    sorted by time, and no event comes from a later run. *)

Definition holders_of (a : astate) (p : Z) : Z := from_option holders 0 (a_objs a !! p).
Definition valid_of (a : astate) (p : Z) : bool := from_option owned false (a_objs a !! p).

(** Number of events of [l] with argument [p]. *)
Definition locks_of (p : Z) (l : list ev_entry) : Z :=
  Z.of_nat (length (List.filter (fun e => arg e =? p) l)).

(** The events of [l] and [x p] others hold locks on [p]. *)
Definition holds (x : Z -> Z) (l : list ev_entry) (a : astate) : Prop :=
  forall p, p <> 0 -> x p + locks_of p l <= holders_of a p.

Definition ev_le (e1 e2 : ev_entry) : Prop := SFleb (when e1) (when e2) = true.

Record queue_ok (n : Z) (l : list ev_entry) : Prop := mkQueueOk {
  q_sorted : StronglySorted ev_le l;
  q_nan : Forall (fun e => dbl_nan (when e) = false) l;
  q_id : Forall (fun e => id e <= n) l
}.

Definition nobody (p : Z) : Z := 0.

Definition ev_ok (s : state) (a : astate) : Prop :=
  refines (reg s) a /\ queue_ok (run_id s) (tasks s) /\ holds nobody (tasks s) a.

(** ** Lemmas: locks *)

Lemma locks_of_cons p e l : locks_of p (e :: l) = (if arg e =? p then 1 else 0) + locks_of p l.
Proof. unfold locks_of. cbn. destruct (arg e =? p); cbn [length]; lia. Qed.

Lemma locks_of_app p l1 l2 : locks_of p (l1 ++ l2) = locks_of p l1 + locks_of p l2.
Proof. unfold locks_of. rewrite List.filter_app, length_app. lia. Qed.

Lemma locks_of_nonneg p l : 0 <= locks_of p l.
Proof. unfold locks_of. lia. Qed.

(** Unlocking: the lock count of the object falls and nobody's validity
    changes. *)
Lemma unlock_ok r a p :
  refines r a -> p <> 0 -> 0 < holders_of a p ->
  exists r' a', cbdataUnlock p r = Some r' /\ refines r' a' /\
    (forall q, holders_of a' q = holders_of a q - (if q =? p then 1 else 0)) /\
    (forall q, valid_of a' q = valid_of a q).
Proof.
  intros H Hp Hh. unfold holders_of in Hh. destruct (a_objs a !! p) as [o|] eqn:Ho; cbn in Hh; [|lia].
  assert (exists a', astep (OUnlock p) a = Some a' /\
    (forall q, holders_of a' q = holders_of a q - (if q =? p then 1 else 0)) /\
    (forall q, valid_of a' q = valid_of a q)) as (a' & E & Hq & Hv).
  { cbn [astep]. rewrite (proj2 (Z.eqb_neq p 0)), Ho by done. bind_simpl.
    rewrite (proj2 (Z.ltb_lt 0 _)) by done. eexists. split; [done|].
    unfold holders_of, valid_of. split; intros q; destruct (decide (q = p)) as [->|Hne].
    - rewrite Z.eqb_refl, Ho. destruct (negb (owned o) && (holders o =? 1)) eqn:Ec; cbn; map_simpl; cbn; [|lia].
      zify_bools. lia.
    - rewrite (proj2 (Z.eqb_neq q p)) by done. rewrite Z.sub_0_r.
      destruct (negb (owned o) && (holders o =? 1)); cbn; by map_simpl.
    - rewrite Ho. destruct (negb (owned o) && (holders o =? 1)) eqn:Ec; cbn; map_simpl; cbn; [|done].
      zify_bools. by destruct (owned o).
    - destruct (negb (owned o) && (holders o =? 1)); cbn; by map_simpl. }
  destruct (refines_unlock _ _ _ _ H E) as (r' & Er & Hr). eauto 10.
Qed.

(** Giving up the lock of one event. *)
Lemma unlock_arg_ok x r a e l :
  (forall p, 0 <= x p) -> refines r a -> holds x (e :: l) a ->
  exists r' a', unlock_arg (arg e) r = Some r' /\ refines r' a' /\ holds x l a' /\
    (forall q, valid_of a' q = valid_of a q).
Proof.
  intros Hx H Hh. unfold unlock_arg. destruct (arg e =? 0) eqn:E0; cbn [negb]; zify_bools.
  - exists r, a. split; [done|]. split; [done|]. split; [|done].
    intros p Hp. specialize (Hh p Hp). rewrite locks_of_cons in Hh. destruct (arg e =? p); lia.
  - pose proof (Hh _ E0) as Hl. rewrite locks_of_cons, Z.eqb_refl in Hl.
    pose proof (Hx (arg e)). pose proof (locks_of_nonneg (arg e) l).
    destruct (unlock_ok r a (arg e) H E0 ltac:(lia)) as (r' & a' & Er & Hr & Hq & Hv).
    exists r', a'. split; [done|]. split; [done|]. split; [|done].
    intros p Hp. specialize (Hh p Hp). rewrite locks_of_cons in Hh. rewrite Hq.
    rewrite (Z.eqb_sym p). destruct (arg e =? p); lia.
Qed.

(** Setting an event aside: its lock joins those of the others. *)
Lemma holds_cons x e l a :
  holds x (e :: l) a <-> holds (fun p => x p + (if arg e =? p then 1 else 0)) l a.
Proof.
  unfold holds. split; intros H p Hp; specialize (H p Hp); rewrite locks_of_cons in *; lia.
Qed.

Lemma others_nonneg (x : Z -> Z) e : (forall p, 0 <= x p) -> forall p, 0 <= x p + (if arg e =? p then 1 else 0).
Proof. intros Hx p. specialize (Hx p). destruct (arg e =? p); lia. Qed.

(** ** Lemmas: the queue *)

Lemma Forall_sublist {A} (P : A -> Prop) l l' : l' `sublist_of` l -> Forall P l -> Forall P l'.
Proof.
  induction 1; intros Hf; [constructor|..]; apply Forall_cons in Hf as [? Hf]; [constructor; auto|auto].
Qed.

Lemma queue_ok_sublist n l l' : l' `sublist_of` l -> queue_ok n l -> queue_ok n l'.
Proof.
  intros Hsub [Hs Hn Hi]. split; [|by eapply Forall_sublist..].
  induction Hsub as [|e l1 l2 Hsub IH|e l1 l2 Hsub IH]; [done|..];
    apply StronglySorted_inv in Hs as [Hs He]; apply Forall_cons in Hn as [? Hn]; apply Forall_cons in Hi as [? Hi].
  - constructor; [by apply IH|]. by eapply Forall_sublist.
  - by apply IH.
Qed.

Lemma insert_event_split e l :
  exists l1 l2, l = l1 ++ l2 /\ insert_event e l = l1 ++ e :: l2 /\
    Forall (fun x => SFltb (when e) (when x) = false) l1 /\
    match l2 with [] => True | x :: _ => SFltb (when e) (when x) = true end.
Proof.
  induction l as [|x l (l1 & l2 & -> & E & H1 & H2)]; cbn [insert_event].
  - exists [], []. repeat split; constructor.
  - destruct (SFltb (when e) (when x)) eqn:Ex.
    + exists [], (x :: l1 ++ l2). repeat split; [constructor|done].
    + exists (x :: l1), l2. rewrite E. repeat split; [by constructor|done].
Qed.

Lemma SFleb_trans a b c :
  dbl_nan a = false -> dbl_nan b = false -> dbl_nan c = false ->
  SFleb a b = true -> SFleb b c = true -> SFleb a c = true.
Proof. exact (@kle_trans dbl dbl_heap_key dbl_heap_key_laws a b c). Qed.

Lemma SFltb_le a b : dbl_nan a = false -> dbl_nan b = false -> SFltb a b = true -> SFleb a b = true.
Proof.
  intros Ha Hb E. destruct (@kle_total dbl dbl_heap_key dbl_heap_key_laws a b Ha Hb) as [|H]; [done|].
  rewrite SFltb_SFleb in E by done. cbn in H. by rewrite H in E.
Qed.

Lemma SFltb_ge a b : dbl_nan a = false -> dbl_nan b = false -> SFltb a b = false -> SFleb b a = true.
Proof. intros Ha Hb E. rewrite SFltb_SFleb in E by done. by apply negb_false_iff in E. Qed.

(** In a sorted queue the new event goes after every event that is not later
    and before every event that is. *)
Lemma insert_event_sorted n e l :
  queue_ok n l -> dbl_nan (when e) = false -> id e <= n ->
  queue_ok n (insert_event e l) /\
  exists l1 l2, l = l1 ++ l2 /\ insert_event e l = l1 ++ e :: l2 /\
    Forall (fun x => SFleb (when x) (when e) = true) l1 /\ Forall (fun x => SFltb (when e) (when x) = true) l2.
Proof.
  intros [Hs Hn Hi] He Hid. destruct (insert_event_split e l) as (l1 & l2 & -> & -> & H1 & H2).
  apply Forall_app in Hn as [Hn1 Hn2]. apply Forall_app in Hi as [Hi1 Hi2].
  apply StronglySorted_app in Hs as (Hcross & Hs1 & Hs2).
  assert (Forall (fun x => SFleb (when x) (when e) = true) l1) as G1.
  { apply List.Forall_forall. intros x Hx.
    pose proof (proj1 (List.Forall_forall _ _) H1 x Hx). pose proof (proj1 (List.Forall_forall _ _) Hn1 x Hx).
    by apply SFltb_ge. }
  assert (Forall (fun x => SFltb (when e) (when x) = true) l2) as G2.
  { destruct l2 as [|y l2]; [constructor|]. constructor; [done|].
    apply StronglySorted_inv in Hs2 as [_ Hy]. apply Forall_cons in Hn2 as [Hny Hn2].
    apply List.Forall_forall. intros x Hx.
    pose proof (proj1 (List.Forall_forall _ _) Hy x Hx) as Hyx. pose proof (proj1 (List.Forall_forall _ _) Hn2 x Hx) as Hnx.
    cbn in Hnx. rewrite SFltb_SFleb in H2 |- * by done. apply negb_true_iff in H2. apply negb_true_iff.
    destruct (SFleb (when x) (when e)) eqn:E; [|done].
    by rewrite (SFleb_trans (when y) (when x) (when e)) in H2. }
  split; [|by exists l1, l2].
  split; [|apply Forall_app; split; [done|by constructor]..].
  apply StronglySorted_app. split; [|split; [done|]].
  - intros x z Hx [->|Hz]%elem_of_cons; [|by apply Hcross].
    by apply (proj1 (Forall_forall _ _) G1 x Hx).
  - constructor; [done|]. apply Forall_forall. intros x Hx.
    apply SFltb_le; [done|..].
    + by apply (proj1 (Forall_forall _ _) Hn2 x Hx).
    + by apply (proj1 (Forall_forall _ _) G2 x Hx).
Qed.

Lemma locks_of_insert p e l : locks_of p (insert_event e l) = locks_of p (e :: l).
Proof.
  destruct (insert_event_split e l) as (l1 & l2 & -> & -> & _). rewrite locks_of_cons, !locks_of_app, locks_of_cons.
  lia.
Qed.

(** ** Lemmas: the loops *)

Definition matches (f a : Z) (e : ev_entry) : bool := (func e =? f) && ((a =? 0) || (arg e =? a)).

Lemma delete_loop_ok f b l : forall x r a,
  (forall p, 0 <= x p) -> refines r a -> holds x l a ->
  exists l' r' found a', delete_loop f b l r = Some (l', r', found) /\ refines r' a' /\ holds x l' a' /\
    (if found
     then exists l1 e l2, l = l1 ++ e :: l2 /\ l' = l1 ++ l2 /\ matches f b e = true /\
            Forall (fun e => matches f b e = false) l1
     else l' = l /\ r' = r /\ Forall (fun e => matches f b e = false) l).
Proof.
  induction l as [|e l IH]; intros x r a Hx H Hh; cbn [delete_loop].
  - exists [], r, false, a. splits.
  - assert (negb (func e =? f) || (negb (b =? 0) && negb (arg e =? b)) = negb (matches f b e)) as ->.
    { unfold matches. by destruct (func e =? f), (b =? 0), (arg e =? b). }
    destruct (matches f b e) eqn:Em; cbn [negb].
    + destruct (unlock_arg_ok x r a e l Hx H Hh) as (r' & a' & -> & Hr & Hh' & _). bind_simpl.
      exists l, r', true, a'. splits. by exists [], e, l.
    + apply holds_cons in Hh.
      destruct (IH _ r a (others_nonneg x e Hx) H Hh) as (l' & r' & fd & a' & -> & Hr & Hh' & Hc).
      bind_simpl. exists (e :: l'), r', fd, a'. splits; [by apply holds_cons|].
      destruct fd.
      * destruct Hc as (l1 & e0 & l2 & -> & -> & ? & ?). exists (e :: l1), e0, l2. splits.
        by constructor.
      * destruct Hc as (-> & -> & ?). splits. by constructor.
Qed.

Lemma condition_loop_ok del l : forall x r a,
  (forall p, 0 <= x p) -> refines r a -> holds x l a ->
  exists r' a', condition_loop del l r = Some (List.filter (fun e => negb (del e)) l, r') /\ refines r' a' /\
    holds x (List.filter (fun e => negb (del e)) l) a'.
Proof.
  induction l as [|e l IH]; intros x r a Hx H Hh; cbn [condition_loop List.filter]; [eauto|].
  destruct (del e); cbn [negb].
  - destruct (unlock_arg_ok x r a e l Hx H Hh) as (r1 & a1 & -> & Hr & Hh1 & _). bind_simpl. by eapply IH.
  - apply holds_cons in Hh.
    destruct (IH _ r a (others_nonneg x e Hx) H Hh) as (r' & a' & -> & Hr & Hh'). bind_simpl.
    exists r', a'. splits. by apply holds_cons.
Qed.

(** The argument of the event is NULL or still valid. *)
Definition arg_valid (a : astate) (e : ev_entry) : bool := (arg e =? 0) || valid_of a (arg e).

Lemma arg_valid_same a a' : (forall q, valid_of a' q = valid_of a q) -> forall e, arg_valid a' e = arg_valid a e.
Proof. intros H e. unfold arg_valid. by rewrite H. Qed.

Lemma cbdataValid_arg x r a e l :
  (forall p, 0 <= x p) -> refines r a -> holds x (e :: l) a -> cbdataValid (arg e) r = Some (arg_valid a e).
Proof.
  intros Hx H Hh. unfold arg_valid. destruct (arg e =? 0) eqn:E0; zify_bools.
  - by rewrite E0.
  - rewrite (cbdataValid_refines _ _ _ H E0). specialize (Hh _ E0). rewrite locks_of_cons, Z.eqb_refl in Hh.
    specialize (Hx (arg e)). pose proof (locks_of_nonneg (arg e) l).
    unfold holders_of, valid_of in *. destruct (a_objs a !! arg e) as [o|]; cbn in *; [|lia].
    by rewrite (proj2 (Z.ltb_lt _ _)) by lia.
Qed.

Lemma unlock_arg_valid a e r : arg_valid a e = false -> unlock_arg (arg e) r = cbdataUnlock (arg e) r.
Proof. unfold arg_valid, unlock_arg. by destruct (arg e =? 0). Qed.

Lemma cleanup_loop_ok l : forall x r a,
  (forall p, 0 <= x p) -> refines r a -> holds x l a ->
  exists r' a', cleanup_loop l r = Some (List.filter (arg_valid a) l, r') /\ refines r' a' /\
    holds x (List.filter (arg_valid a) l) a' /\ (forall q, valid_of a' q = valid_of a q).
Proof.
  induction l as [|e l IH]; intros x r a Hx H Hh; cbn [cleanup_loop List.filter]; [eauto 10|].
  rewrite (cbdataValid_arg x r a e l) by done. bind_simpl. destruct (arg_valid a e) eqn:Ev; cbn [negb].
  - apply holds_cons in Hh.
    destruct (IH _ r a (others_nonneg x e Hx) H Hh) as (r' & a' & -> & Hr & Hh' & Hv). bind_simpl.
    exists r', a'. splits. by apply holds_cons.
  - destruct (unlock_arg_ok x r a e l Hx H Hh) as (r1 & a1 & E & Hr & Hh1 & Hv1).
    rewrite (unlock_arg_valid a) in E by done. rewrite E. bind_simpl.
    destruct (IH x r1 a1 Hx Hr Hh1) as (r' & a' & -> & Hr' & Hh' & Hv).
    rewrite (List.filter_ext _ _ (arg_valid_same _ _ Hv1)) in *.
    exists r', a'. splits. intros q. by rewrite Hv, Hv1.
Qed.

Lemma event_free_loop_ok l : forall r a,
  refines r a -> holds nobody l a -> exists r' a', free_events_loop l r = Some r' /\ refines r' a'.
Proof.
  induction l as [|e l IH]; intros r a H Hh; cbn [free_events_loop]; [eauto|].
  destruct (unlock_arg_ok nobody r a e l) as (r1 & a1 & -> & Hr & Hh1 & _); try done. bind_simpl. by eapply IH.
Qed.

Lemma filter_sublist {A} (f : A -> bool) l : List.filter f l `sublist_of` l.
Proof. induction l as [|x l IH]; cbn; [done|]. destruct (f x); by constructor. Qed.

Lemma remove_sublist {A} (l1 l2 : list A) e : (l1 ++ l2) `sublist_of` (l1 ++ e :: l2).
Proof. apply sublist_app; [done|]. by constructor. Qed.

(** [eventAdd] takes a lock on its argument and keeps the invariant. *)
Lemma eventAdd_ok s a nm f x w wt :
  ev_ok s a -> dbl_nan (dbl_add (current_dtime s) w) = false ->
  x = 0 \/ (is_Some (a_objs a !! x) /\ holders_of a x < INT_MAX) ->
  let e := mkEv f x nm (dbl_add (current_dtime s) w) wt (run_id s) in
  exists s' a', eventAdd nm f x w wt s = Some s' /\ ev_ok s' a' /\ tasks s' = insert_event e (tasks s) /\
    run_id s' = run_id s /\ current_dtime s' = current_dtime s /\ (forall q, valid_of a' q = valid_of a q).
Proof.
  intros (H & Hq & Hh) Hn Hx e. unfold eventAdd. fold e.
  destruct (insert_event_sorted (run_id s) e (tasks s) Hq Hn ltac:(cbn; lia)) as [Hq' _].
  destruct (x =? 0) eqn:E0; cbn [negb]; zify_bools.
  - bind_simpl. eexists _, a. splits. split; [done|]. split; [done|]. intros p Hp. cbn. rewrite locks_of_insert, locks_of_cons.
    specialize (Hh p Hp). subst x. cbn [arg e]. rewrite (proj2 (Z.eqb_neq 0 p)) by lia. lia.
  - destruct Hx as [|[[o Ho] Hm]]; [done|].
    assert (astep (OLock x) a = Some (update x (mkObj (owned o) (holders o + 1) (otype o)) a)) as E.
    { unfold holders_of in Hm. rewrite Ho in Hm. cbn in Hm. cbn [astep].
      rewrite (proj2 (Z.eqb_neq x 0)), Ho by done. bind_simpl. by rewrite (proj2 (Z.ltb_lt _ _)) by done. }
    destruct (refines_lock _ _ _ _ H E) as (r' & -> & Hr). bind_simpl.
    eexists _, _. split; [done|]. split; [split; [exact Hr|split; [exact Hq'|]]|splits].
    + intros p Hp. cbn. rewrite locks_of_insert, locks_of_cons. specialize (Hh p Hp). cbn [arg e].
      unfold holders_of in *. cbn. destruct (decide (p = x)) as [->|]; map_simpl.
      * rewrite Ho in Hh. cbn in *. rewrite Z.eqb_refl. lia.
      * rewrite (proj2 (Z.eqb_neq x p)) by done. lia.
    + intros q. unfold valid_of. cbn. destruct (decide (q = x)) as [->|]; map_simpl; [by rewrite Ho|done].
Qed.

(** A step that only removes events and unlocks their arguments. *)
Lemma ev_ok_sub s a l r a' :
  ev_ok s a -> l `sublist_of` tasks s -> refines r a' -> holds nobody l a' ->
  ev_ok (set_tasks l (set_reg r s)) a'.
Proof. intros (_ & Hq & _) Hl Hr Hh. splits. by eapply queue_ok_sublist. Qed.

(** ** Lemmas: running *)

(** Events that were not added in run [n]. *)
Definition old (n : Z) (l : list ev_entry) : list ev_entry := List.filter (fun e => negb (id e =? n)) l.

(** What the event loop needs of the handlers: on an argument that is NULL or
    valid, a handler returns and leaves the queue and the registry in order; it
    may delete events, but those it adds belong to the current run. *)
Class Handlers (handler : Z -> Z -> state -> option state) : Prop := {
  handler_ok f x s a :
    ev_ok s a -> x = 0 \/ valid_of a x = true ->
    exists s' a', handler f x s = Some s' /\ ev_ok s' a' /\ run_id s' = run_id s /\
      old (run_id s) (tasks s') `sublist_of` old (run_id s) (tasks s)
}.

Lemma old_length n l : (length (old n l) <= length l)%nat.
Proof. unfold old. induction l as [|e l IH]; cbn; [lia|]. destruct (negb _); cbn; lia. Qed.

(** The step of the loop before the handler is called: the event is unlinked
    and its lock given up. *)
Lemma take_event_ok s a e l :
  ev_ok s a -> tasks s = e :: l ->
  exists r' a',
    (if negb (arg e =? 0) then
       let? v := cbdataValid (arg e) (reg s) in
       let? r := cbdataUnlock (arg e) (reg s) in Some (v, r)
     else Some (true, reg s)) = Some (arg_valid a e, r') /\
    ev_ok (set_tasks l (set_reg r' s)) a' /\ (forall q, valid_of a' q = valid_of a q).
Proof.
  intros Hok El. pose proof Hok as (H & Hq & Hh). rewrite El in Hh.
  destruct (unlock_arg_ok nobody (reg s) a e l) as (r' & a' & E & Hr & Hh' & Hv); try done.
  exists r', a'. splits.
  - unfold unlock_arg in E. destruct (arg e =? 0) eqn:E0; cbn [negb] in *.
    + injection E as <-. unfold arg_valid. by rewrite E0.
    + rewrite (cbdataValid_arg nobody (reg s) a e l), E by done. done.
  - apply (ev_ok_sub s a); try done. rewrite El. by constructor.
Qed.

Section run_proofs.
Context (handler : Z -> Z -> state -> option state) `{!Handlers handler}.

(** Why the loop ends: no event is left, the first is not due yet or was added
    in this run, or an event with a weight has run. *)
Definition stopped (w : Z) (s : state) : Prop :=
  match tasks s with
  | [] => True
  | e :: _ => SFltb (current_dtime s) (when e) = true \/ id e = run_id s \/ w <> 0
  end.

Definition total_weight (l : list ev_entry) : Z := foldr (fun e z => weight e + z) 0 l.

(** At most the last event has a weight. *)
Definition light (l : list ev_entry) : Prop := Forall (fun e => weight e = 0) (removelast l).

Definition keeps_clock : Prop := forall f x s s', handler f x s = Some s' -> current_dtime s' = current_dtime s.

(** The result of the loop started with weight [w] in [s]. *)
Definition run_result (w : Z) (s : state) (res : option (state * list ev_entry)) : Prop :=
  exists s' a' called, res = Some (s', called) /\ ev_ok s' a' /\
    run_id s' = run_id s /\ called `sublist_of` old (run_id s) (tasks s) /\
    stopped (w + total_weight called) s' /\
    (called = [] \/ w = 0) /\ light called /\
    (keeps_clock -> Forall (fun e => SFltb (current_dtime s) (when e) = false) called).

Lemma run_stop w s a : ev_ok s a -> stopped w s -> run_result w s (Some (s, [])).
Proof.
  intros Hok Hs. exists s, a, []. cbn [total_weight foldr]. rewrite Z.add_0_r. splits; [apply sublist_nil_l|by left|apply List.Forall_nil].
Qed.

Lemma run_loop_ok fuel : forall w s a,
  (length (old (run_id s) (tasks s)) < fuel)%nat -> ev_ok s a -> run_result w s (run_loop handler fuel w s).
Proof.
  induction fuel as [|fuel IH]; intros w s a Hf Hok; [lia|]. cbn [run_loop].
  destruct (tasks s) as [|e l] eqn:El; [eapply run_stop; [done|]; unfold stopped; by rewrite El|].
  destruct (SFltb (current_dtime s) (when e)) eqn:Et;
    [eapply run_stop; [done|]; unfold stopped; rewrite El; by left|].
  destruct (id e =? run_id s) eqn:Ei; zify_bools;
    [eapply run_stop; [done|]; unfold stopped; rewrite El; by right; left|].
  destruct (w =? 0) eqn:Ew; cbn [negb]; zify_bools;
    [|eapply run_stop; [done|]; unfold stopped; rewrite El; by right; right].
  destruct (take_event_ok s a e l Hok El) as (r' & a' & E & Hok' & Hv).
  cbn [reg set_tasks]. rewrite E. bind_simpl. subst w.
  assert (old (run_id s) (e :: l) = e :: old (run_id s) l) as Eold.
  { cbn. by rewrite (proj2 (Z.eqb_neq _ _) Ei). }
  rewrite Eold in Hf. cbn [length] in Hf. unfold run_result. rewrite El, Eold.
  destruct (arg_valid a e) eqn:Ev.
  - set (s1 := mkSt l (run_id s) (name e) (current_dtime s) r').
    destruct (handler_ok (func e) (arg e) s1 a') as (s2 & a2 & Eh & Hok2 & Er & Hs2).
    { exact Hok'. }
    { unfold arg_valid in Ev. rewrite Hv. apply orb_true_iff in Ev as [?|?]; [left; lia|by right]. }
    change (mkSt (tasks (set_reg r' (set_tasks l s))) (run_id (set_reg r' (set_tasks l s))) (name e)
              (current_dtime (set_reg r' (set_tasks l s))) (reg (set_reg r' (set_tasks l s)))) with s1.
    rewrite Eh. bind_simpl. cbn [run_id tasks s1] in Er, Hs2.
    apply sublist_length in Hs2 as Hlen. rewrite <- Er in Hs2, Hlen.
    destruct (IH (0 + weight e) s2 a2) as (s' & a3 & called & Erun & Hok3 & Er3 & Hsub & Hstp & Hw & Hl & Hc);
      [rewrite <- Er in Hf; lia|done|].
    rewrite Erun. bind_simpl. exists s', a3, (e :: called). splits; [congruence|..].
    + constructor. rewrite <- Er. by etrans.
    + by right.
    + unfold light in *. destruct called as [|c called]; [constructor|]. destruct Hw as [|Hw]; [done|].
      cbn [removelast]. constructor; [lia|done].
    + intros Hk. constructor; [done|]. rewrite (Hk _ _ _ _ Eh) in Hc. by apply Hc.
  - destruct (IH 0 (set_reg r' (set_tasks l s)) a') as (s' & a3 & called & -> & Hok3 & Er3 & Hsub & Hstp & Hw & Hl & Hc);
      [cbn [run_id tasks set_reg set_tasks]; lia|exact Hok'|].
    exists s', a3, called. splits. cbn in Hsub. by constructor.
Qed.
End run_proofs.

(** ** Properties *)

(** [eventAdd] puts the new event after every event that is not later and
    before every event that is, so that the queue stays sorted by time and
    events with equal times run in the order they were added; it takes a lock
    on the argument and never fails on one that is there. *)
Theorem eventAdd_sorted s a nm f x w wt :
  ev_ok s a -> dbl_nan (dbl_add (current_dtime s) w) = false ->
  x = 0 \/ (is_Some (a_objs a !! x) /\ holders_of a x < INT_MAX) ->
  let e := mkEv f x nm (dbl_add (current_dtime s) w) wt (run_id s) in
  exists s' a' l1 l2, eventAdd nm f x w wt s = Some s' /\ ev_ok s' a' /\
    tasks s = l1 ++ l2 /\ tasks s' = l1 ++ e :: l2 /\
    Forall (fun y => SFleb (when y) (when e) = true) l1 /\ Forall (fun y => SFltb (when e) (when y) = true) l2.
Proof.
  intros Hok Hn Hx e. destruct (eventAdd_ok s a nm f x w wt Hok Hn Hx) as (s' & a' & E & Hok' & Et & _).
  destruct Hok as (_ & Hq & _).
  destruct (insert_event_sorted (run_id s) e (tasks s) Hq Hn ltac:(cbn; lia)) as (_ & l1 & l2 & E1 & E2 & H1 & H2).
  exists s', a', l1, l2. splits. by rewrite Et.
Qed.

(** A concrete queue, with one live object. *)
Definition st1 : state :=
  mkSt [mkEv 1 0 [] (dbl_of_Z 5) 0 0; mkEv 2 512 [] (dbl_of_Z 7) 1 0] 3 [] (dbl_of_Z 6)
    (mkReg (replicate 1001 None ++ [Some (mkIndex (Some (mkPool [] 40 1 1)) 7)]) 1002 1
       {[512 := mkCbdata true 1 1001 (CBDATA_COOKIE 512)]} []).
Definition ast1 : astate := mkA [7] {[512 := mkObj true 1 1001]} [].

Lemma st1_refines : refines (reg st1) ast1.
Proof.
  constructor; try done.
  - split; [cbn; lia|]. intros [|i] f Hf; [|done]. injection Hf as <-. by eexists.
  - intros p. cbn [mem reg st1 a_objs ast1]. destruct (decide (p = 512)) as [->|Hp].
    + by rewrite !lookup_singleton_eq.
    + by rewrite !lookup_singleton_ne by done.
  - intros p o Ho. cbn [a_objs ast1] in Ho. apply lookup_singleton_Some in Ho as [<- <-].
    splits; cbn; unfold INT_MAX; lia.
Qed.

Lemma st1_ok : ev_ok st1 ast1.
Proof.
  split; [apply st1_refines|]. split.
  - split; repeat first [apply List.Forall_cons | apply List.Forall_nil | apply SSorted_cons | apply SSorted_nil]; cbn; try done; lia.
  - intros p Hp. unfold nobody, holders_of. cbn [a_objs ast1]. destruct (decide (p = 512)) as [->|Hne].
    + by vm_compute.
    + rewrite lookup_singleton_ne by done. cbn [tasks st1]. rewrite !locks_of_cons. cbn [arg].
      rewrite (proj2 (Z.eqb_neq 0 p)), (proj2 (Z.eqb_neq 512 p)) by lia. done.
Qed.

Lemma eventAdd_sorted_witness :
  let e := mkEv 9 512 [] (dbl_of_Z 7) 0 3 in
  exists s' a' l1 l2, eventAdd [] 9 512 (dbl_of_Z 1) 0 st1 = Some s' /\ ev_ok s' a' /\
    tasks st1 = l1 ++ l2 /\ tasks s' = l1 ++ e :: l2 /\
    Forall (fun y => SFleb (when y) (when e) = true) l1 /\ Forall (fun y => SFltb (when e) (when y) = true) l2.
Proof.
  apply (eventAdd_sorted st1 ast1 [] 9 512 (dbl_of_Z 1) 0 st1_ok); [reflexivity|].
  right. split; [by eexists|]. by vm_compute.
Defined.

(** C39. [eventRun] ends, with handlers that keep the queue and the registry in
    order on valid arguments: it calls handlers only for events that were
    queued before the run, each at most once and in queue order, never on an
    argument that has been freed, and stops after the first event with a
    weight; otherwise it runs until the first event is not due or was added
    during the run.  Handlers that leave the clock alone are called for due
    events only. *)
Theorem eventRun_correct handler `{!Handlers handler} s a :
  ev_ok s a -> run_id s < INT_MAX ->
  exists s' a' called, eventRun handler s = Some (s', called) /\ ev_ok s' a' /\
    called `sublist_of` tasks s /\ light called /\
    (called = [] /\ s' = s /\ stopped 0 s \/ stopped (total_weight called) s') /\
    (keeps_clock handler -> Forall (fun e => SFltb (current_dtime s) (when e) = false) called).
Proof.
  intros Hok Hr. unfold eventRun. destruct (tasks s) as [|e l] eqn:El.
  { exists s, a, []. splits; [apply List.Forall_nil|]. left. splits. unfold stopped. by rewrite El. }
  destruct (SFltb (current_dtime s) (when e)) eqn:Et.
  { exists s, a, []. splits; [apply sublist_nil_l|apply List.Forall_nil|].
    left. splits. unfold stopped. rewrite El. by left. }
  rewrite (proj2 (Z.ltb_lt _ _) Hr).
  set (s1 := mkSt (e :: l) (run_id s + 1) (last_event_ran s) (current_dtime s) (reg s)).
  assert (ev_ok s1 a) as Hok1.
  { destruct Hok as (H & [Hs Hn Hi] & Hh). rewrite El in *. splits. split; [done..|].
    eapply List.Forall_impl; [|exact Hi]. cbn. intros ? ?. lia. }
  destruct (run_loop_ok handler (S (length (tasks s1))) 0 s1 a) as
    (s' & a' & called & E & Hok' & _ & Hsub & Hst & _ & Hl & Hc); [pose proof (old_length (run_id s1) (tasks s1)); lia|done|].
  exists s', a', called. splits.
  - etrans; [exact Hsub|]. apply filter_sublist.
  - by right.
Qed.

(** Handlers that queue themselves again, as the periodic ones do, and leave
    the clock alone. *)
Definition periodic (f x : Z) (s : state) : option state :=
  if dbl_nan (dbl_add (current_dtime s) (dbl_of_Z 1)) then Some s
  else eventAdd [] f 0 (dbl_of_Z 1) 0 s.

#[global] Instance periodic_handlers : Handlers periodic.
Proof.
  constructor. intros f x s a Hok _. unfold periodic.
  destruct (dbl_nan (dbl_add (current_dtime s) (dbl_of_Z 1))) eqn:En; [by exists s, a|].
  destruct (eventAdd_ok s a [] f 0 (dbl_of_Z 1) 0 Hok En ltac:(by left)) as (s' & a' & E & Hok' & Et & Er & _).
  exists s', a'. splits. rewrite Et. unfold old.
  match goal with |- context [insert_event ?e _] =>
    destruct (insert_event_split e (tasks s)) as (l1 & l2 & -> & -> & _) end.
  rewrite !List.filter_app. cbn [List.filter id]. by rewrite Z.eqb_refl.
Qed.

Lemma eventRun_witness :
  exists s' a' called, eventRun periodic st1 = Some (s', called) /\ ev_ok s' a' /\
    called `sublist_of` tasks st1 /\ light called /\
    (called = [] /\ s' = st1 /\ stopped 0 st1 \/ stopped (total_weight called) s') /\
    (keeps_clock periodic -> Forall (fun e => SFltb (current_dtime st1) (when e) = false) called).
Proof. apply (eventRun_correct periodic st1 ast1 st1_ok). by vm_compute. Defined.

(** [eventDelete] removes the first event with the function and, unless it
    is NULL, the argument, gives up its lock and leaves the others in place;
    without such an event it fails exactly when an argument was given. *)
Theorem eventDelete_correct s a f x :
  ev_ok s a ->
  (exists s' a' l1 e l2, eventDelete f x s = Some s' /\ ev_ok s' a' /\
     tasks s = l1 ++ e :: l2 /\ tasks s' = l1 ++ l2 /\
     matches f x e = true /\ Forall (fun e => matches f x e = false) l1) \/
  (Forall (fun e => matches f x e = false) (tasks s) /\
     eventDelete f x s = (if x =? 0 then Some s else None)).
Proof.
  intros Hok. pose proof Hok as (H & Hq & Hh). unfold eventDelete.
  destruct (delete_loop_ok f x (tasks s) nobody (reg s) a) as (l' & r' & found & a' & -> & Hr & Hh' & Hc); try done.
  bind_simpl. destruct found.
  - left. destruct Hc as (l1 & e & l2 & El & -> & Hm & Hn). eexists _, a', l1, e, l2. split; [done|]. splits.
    apply (ev_ok_sub s a); try done. rewrite El. apply remove_sublist.
  - right. destruct Hc as (-> & -> & Hn). split; [done|]. destruct (x =? 0); [|done]. by destruct s.
Qed.

Lemma eventDelete_witness :
  (exists s' a' l1 e l2, eventDelete 2 512 st1 = Some s' /\ ev_ok s' a' /\
     tasks st1 = l1 ++ e :: l2 /\ tasks s' = l1 ++ l2 /\
     matches 2 512 e = true /\ Forall (fun e => matches 2 512 e = false) l1) \/
  (Forall (fun e => matches 2 512 e = false) (tasks st1) /\
     eventDelete 2 512 st1 = (if 512 =? 0 then Some st1 else None)).
Proof. apply (eventDelete_correct st1 ast1 2 512 st1_ok). Defined.

(** [eventCleanup] drops exactly the events whose argument has been freed,
    with their locks, and the queue stays in order; what [eventFreeMemory] and
    [eventConditionDelete] drop gives up its locks too, so that no assertion
    of the registry fails. *)
Theorem event_removal_safe s a fd f condition :
  ev_ok s a ->
  (exists s' a', eventCleanup s = Some s' /\ ev_ok s' a' /\ tasks s' = List.filter (arg_valid a) (tasks s) /\
     forall q, valid_of a' q = valid_of a q) /\
  (exists s' a', eventConditionDelete fd f condition s = Some s' /\ ev_ok s' a' /\
     tasks s' = List.filter (fun e => negb ((func e =? f) && condition fd (arg e))) (tasks s)) /\
  (exists s' a', eventFreeMemory s = Some s' /\ ev_ok s' a' /\ tasks s' = []).
Proof.
  intros Hok. pose proof Hok as (H & Hq & Hh). split; [|split].
  - destruct (cleanup_loop_ok (tasks s) nobody (reg s) a) as (r' & a' & E & Hr & Hh' & Hv); try done.
    unfold eventCleanup. rewrite E. bind_simpl. eexists _, a'. split; [done|]. splits.
    apply (ev_ok_sub s a); try done. apply filter_sublist.
  - destruct (condition_loop_ok (fun e => (func e =? f) && condition fd (arg e)) (tasks s) nobody (reg s) a)
      as (r' & a' & E & Hr & Hh'); try done.
    unfold eventConditionDelete. rewrite E. bind_simpl. eexists _, a'. split; [done|]. splits.
    apply (ev_ok_sub s a); try done. apply filter_sublist.
  - destruct (event_free_loop_ok (tasks s) (reg s) a H Hh) as (r' & a' & E & Hr).
    unfold eventFreeMemory. rewrite E. bind_simpl. eexists _, a'. split; [done|]. splits.
    apply (ev_ok_sub s a); try done; [apply sublist_nil_l|]. intros p Hp. unfold nobody, locks_of, holders_of. cbn.
    destruct (a_objs a' !! p) as [o|] eqn:Ho; cbn; [|lia]. apply (ref_objs _ _ Hr _ _ Ho).
Qed.

Lemma event_removal_witness :
  (exists s' a', eventCleanup st1 = Some s' /\ ev_ok s' a' /\ tasks s' = List.filter (arg_valid ast1) (tasks st1) /\
     forall q, valid_of a' q = valid_of ast1 q) /\
  (exists s' a', eventConditionDelete 4 2 (fun _ x => x =? 512) st1 = Some s' /\ ev_ok s' a' /\
     tasks s' = List.filter (fun e => negb ((func e =? 2) && (arg e =? 512))) (tasks st1)) /\
  (exists s' a', eventFreeMemory st1 = Some s' /\ ev_ok s' a' /\ tasks s' = []).
Proof. apply (event_removal_safe st1 ast1 4 2 (fun _ x => x =? 512) st1_ok). Defined.

(** The time to the first event is only defined up to about 24 days: an event
    a month ahead does not fit the [int] result. *)
Lemma eventNextTime_month :
  eventNextTime (mkSt [mkEv 1 0 [] (dbl_of_Z 2592000) 0 0] 0 [] (dbl_of_Z 0) registry0) = None.
Proof. reflexivity. Qed.

End Event.
