(* ===== verification/Dlink.v ===== *)
(** * Doubly linked lists and FIFO queues

    libcore/dlink.c and libcore/fifo.c.  The nodes of a doubly linked list
    belong to the objects on it, so the lists are modelled with their pointers:
    a memory of nodes and the list header.  A queue owns its nodes.  Addresses
    are [positive], NULL is [None]; a [void *] is a [Z], 0 being NULL. *)

From Stdlib Require Import ZArith Lia.
From stdpp Require Import base gmap list numbers option fin_maps.
From S2P Require Import Prelude.

Module Dlink.

Record dlink_node := mkNode { data : Z; prev : option positive; next : option positive }.
Record dlink_list := mkList { head : option positive; tail : option positive }.

Abbreviation nodes := (gmap positive dlink_node).
Implicit Types σ : nodes.

Definition set_prev (q : option positive) (n : dlink_node) : dlink_node := mkNode (data n) q (next n).
Definition set_next (q : option positive) (n : dlink_node) : dlink_node := mkNode (data n) (prev n) q.

(** [p->f = v] through a pointer that is not NULL. *)
Definition upd (p : positive) (f : dlink_node -> dlink_node) σ : option nodes :=
  let? n := σ !! p in Some (<[p := f n]> σ).

(** The same through a pointer that may be NULL, when it is not. *)
Definition upd_if (p : option positive) (f : dlink_node -> dlink_node) σ : option nodes :=
  match p with None => Some σ | Some p => upd p f σ end.

Definition opt_eqb (a b : option positive) : bool := bool_decide (a = b).

Definition dlinkAdd (d : Z) (m : positive) (l : dlink_list) σ : option (nodes * dlink_list) :=
  let? σ := upd m (fun _ => mkNode d None (head l)) σ in
  let? σ := upd_if (head l) (set_prev (Some m)) σ in
  Some (σ, mkList (Some m) (if opt_eqb (tail l) None then Some m else tail l)).

Definition dlinkAddTail (d : Z) (m : positive) (l : dlink_list) σ : option (nodes * dlink_list) :=
  let? σ := upd m (fun _ => mkNode d (tail l) None) σ in
  let? σ := upd_if (tail l) (set_next (Some m)) σ in
  Some (σ, mkList (if opt_eqb (head l) None then Some m else head l) (Some m)).

Definition dlinkDelete (m : positive) (l : dlink_list) σ : option (nodes * dlink_list) :=
  let? n := σ !! m in
  let? σ := upd_if (next n) (set_prev (prev n)) σ in
  let? n := σ !! m in
  let? σ := upd_if (prev n) (set_next (next n)) σ in
  let? n := σ !! m in
  let l := mkList (if opt_eqb (Some m) (head l) then next n else head l) (tail l) in
  let l := mkList (head l) (if opt_eqb (Some m) (tail l) then prev n else tail l) in
  let? σ := upd m (fun n => mkNode (data n) None None) σ in
  Some (σ, l).

(** The data of the first node, 0 when the list is empty. *)
Definition dlinkRemoveHead (l : dlink_list) σ : option (nodes * dlink_list * Z) :=
  match head l with
  | None => Some (σ, l, 0)
  | Some m =>
      let? (σ, l) := dlinkDelete m l σ in
      let? n := σ !! m in
      Some (σ, l, data n)
  end.

(** The loop of [dlinkSize] over [next] pointers. *)
Fixpoint size_loop (fuel : nat) (p : option positive) (i : Z) σ : option Z :=
  match p, fuel with
  | None, _ => Some i
  | Some _, O => None
  | Some p, S fuel => let? n := σ !! p in size_loop fuel (next n) (i + 1) σ
  end.

Definition dlinkSize (l : dlink_list) σ : option Z := size_loop (size σ) (head l) 0 σ.

Definition DLINK_ISEMPTY (l : dlink_list) : bool := opt_eqb (head l) None.
Definition DLINK_HEAD (l : dlink_list) σ : option Z :=
  let? p := head l in let? n := σ !! p in Some (data n).
Definition DLINK_ISORPHAN (n : dlink_node) : bool := opt_eqb (next n) None && opt_eqb (prev n) None.

(** ** What a list holds

    [lseg σ pv l nx]: the nodes [l], in order, are linked both ways, the first
    pointing back to [pv] and the last on to [nx]. *)

Definition first (l : list positive) (nx : option positive) : option positive :=
  match l with [] => nx | p :: _ => Some p end.
Definition final (pv : option positive) (l : list positive) : option positive :=
  match list.last l with None => pv | Some p => Some p end.

Fixpoint lseg σ (pv : option positive) (l : list positive) (nx : option positive) : Prop :=
  match l with
  | [] => True
  | p :: l => (exists d, σ !! p = Some (mkNode d pv (first l nx))) /\ lseg σ (Some p) l nx
  end.

Record rep σ (L : dlink_list) (l : list positive) : Prop := mkRep {
  rep_head : head L = first l None;
  rep_tail : tail L = final None l;
  rep_seg : lseg σ None l None;
  rep_nodup : NoDup l
}.

(** The data of a node. *)
Definition data_at σ (p : positive) : option Z := data <$> σ !! p.

(** ** Lemmas *)

Lemma final_snoc pv l p : final pv (l ++ [p]) = Some p.
Proof. unfold final. by rewrite last_snoc. Qed.

Lemma final_cons pv p l : final pv (p :: l) = final (Some p) l.
Proof. unfold final. rewrite last_cons. by destruct (list.last l). Qed.

Lemma final_app pv l1 l2 : final pv (l1 ++ l2) = final (final pv l1) l2.
Proof.
  revert pv. induction l1 as [|p l1 IH]; intros pv; [done|].
  change ((p :: l1) ++ l2) with (p :: (l1 ++ l2)). by rewrite !final_cons, IH.
Qed.

Lemma first_app l1 l2 nx : first (l1 ++ l2) nx = first l1 (first l2 nx).
Proof. by destruct l1. Qed.

Lemma lseg_app σ pv l1 l2 nx :
  lseg σ pv (l1 ++ l2) nx <-> lseg σ pv l1 (first l2 nx) /\ lseg σ (final pv l1) l2 nx.
Proof.
  revert pv. induction l1 as [|p l1 IH]; intros pv; cbn [app lseg].
  - cbn. tauto.
  - rewrite IH, first_app, final_cons. tauto.
Qed.

(** A segment only depends on its own nodes. *)
Lemma lseg_frame σ pv l nx p n : p ∉ l -> lseg (<[p := n]> σ) pv l nx <-> lseg σ pv l nx.
Proof.
  revert pv. induction l as [|q l IH]; intros pv Hp; cbn [lseg]; [done|].
  apply not_elem_of_cons in Hp as [Hne Hp]. rewrite IH by done. by rewrite lookup_insert_ne by done.
Qed.

Lemma lseg_in_dom σ pv l nx p : lseg σ pv l nx -> p ∈ l -> is_Some (σ !! p).
Proof.
  revert pv. induction l as [|q l IH]; intros pv; cbn [lseg]; [by intros _ ?%elem_of_nil|].
  intros [[d Hd] Hl] [->|Hp]%elem_of_cons; eauto.
Qed.

Lemma lseg_ext σ σ' pv l nx : (forall q, q ∈ l -> σ' !! q = σ !! q) -> lseg σ pv l nx -> lseg σ' pv l nx.
Proof.
  revert pv. induction l as [|q l IH]; intros pv Hq; cbn [lseg]; [done|]. intros [[d Hd] Hl]. split.
  - exists d. rewrite Hq; [done|]. by apply elem_of_cons; left.
  - apply IH; [|done]. intros r Hr. apply Hq. by apply elem_of_cons; right.
Qed.

(** Effect on the memory: the data changes only at [m], to [d], and nodes that
    are neither [m] nor in [l] are as before. *)
Definition touches σ σ' (m : positive) (d : Z) (l : list positive) : Prop :=
  data_at σ' m = Some d /\ (forall q, q <> m -> data_at σ' q = data_at σ q) /\
  (forall q, q <> m -> q ∉ l -> σ' !! q = σ !! q) /\ dom σ' = dom σ.

(** Nodes outside [l] are untouched and no data changes. *)
Definition relinks σ σ' (l : list positive) : Prop :=
  (forall q, q ∉ l -> σ' !! q = σ !! q) /\ (forall q, data_at σ' q = data_at σ q) /\ dom σ' = dom σ.

Lemma relinks_upd σ p n n' l : σ !! p = Some n -> data n' = data n -> p ∈ l -> relinks σ (<[p := n']> σ) l.
Proof.
  intros Hn Hd Hp. splits.
  - intros q Hq. rewrite lookup_insert_ne; [done|]. by intros ->.
  - intros q. unfold data_at. destruct (decide (q = p)) as [->|]; map_simpl; [by rewrite Hn; cbn; rewrite Hd|done].
  - apply dom_insert_lookup_L. eauto.
Qed.

(** Redirecting the first back pointer of a segment, respectively its last
    forward pointer. *)
Lemma lseg_set_prev σ pv l nx pv' :
  lseg σ pv l nx -> NoDup l ->
  exists σ', upd_if (first l None) (set_prev pv') σ = Some σ' /\ lseg σ' pv' l nx /\ relinks σ σ' l.
Proof.
  intros Hl Hnd. destruct l as [|p l]; [by exists σ|]. apply NoDup_cons in Hnd as [Hp _].
  cbn [lseg] in Hl. destruct Hl as [[d Hd] Hl]. cbn [first upd_if]. unfold upd. rewrite Hd. bind_simpl.
  eexists. split; [done|]. split.
  - split; [exists d; by rewrite lookup_insert_eq|]. by apply lseg_frame.
  - eapply relinks_upd; [done..|]. by apply elem_of_cons; left.
Qed.

Lemma lseg_set_next σ pv l nx nx' :
  lseg σ pv l nx -> NoDup l ->
  exists σ', upd_if (final None l) (set_next nx') σ = Some σ' /\ lseg σ' pv l nx' /\ relinks σ σ' l.
Proof.
  intros Hl Hnd. destruct l as [|p l _] using rev_ind; [by exists σ|]. rewrite final_snoc.
  apply NoDup_app in Hnd as (_ & Hp & _). specialize (Hp p).
  assert (p ∉ l) as Hpl by (intros H; apply (Hp H), list_elem_of_singleton; done).
  rewrite lseg_app in Hl. cbn [lseg first] in Hl. destruct Hl as (Hl & [d Hd] & _).
  cbn [upd_if]. unfold upd. rewrite Hd. bind_simpl. eexists. split; [done|]. split.
  - rewrite lseg_app. cbn [lseg first]. split; [by apply lseg_frame|]. split; [|done].
    exists d. by rewrite lookup_insert_eq.
  - eapply relinks_upd; [done..|]. apply elem_of_app. right. by apply list_elem_of_singleton.
Qed.

Lemma opt_eqb_true a : opt_eqb a a = true.
Proof. by apply bool_decide_eq_true_2. Qed.

Lemma opt_eqb_false a b : a <> b -> opt_eqb a b = false.
Proof. apply bool_decide_eq_false_2. Qed.

Lemma final_in l p : final None l = Some p -> p ∈ l.
Proof.
  unfold final. destruct (list.last l) eqn:E; [|done]. intros [= <-]. by apply last_Some_elem_of.
Qed.

Lemma final_none l : final None l = None -> l = [].
Proof. unfold final. destruct (list.last l) eqn:E; [done|]. intros _. by apply last_None. Qed.

(** ** The operations on the list of nodes *)

Lemma rep_nil σ : rep σ (mkList None None) [].
Proof. by split; [..|apply NoDup_nil_2]. Qed.

Lemma dlinkAddTail_ok σ L l m d :
  rep σ L l -> m ∉ l -> is_Some (σ !! m) ->
  exists σ' L', dlinkAddTail d m L σ = Some (σ', L') /\ rep σ' L' (l ++ [m]) /\ touches σ σ' m d l.
Proof.
  intros [Hh Ht Hs Hn] Hm [n0 Hn0]. unfold dlinkAddTail, upd at 1. rewrite Hn0. bind_simpl.
  set (σ1 := <[m := mkNode d (tail L) None]> σ).
  assert (lseg σ1 None l None) as Hs1 by (by apply lseg_frame).
  destruct (lseg_set_next σ1 None l None (Some m) Hs1 Hn) as (σ2 & E & Hs2 & Hr & Hd & Hdom).
  rewrite Ht, E. bind_simpl. eexists _, _. split; [done|]. split; [split; cbn [head tail]|].
  - rewrite Hh. destruct l; cbn; by rewrite ?opt_eqb_true.
  - by rewrite final_snoc.
  - apply lseg_app. cbn [lseg first]. split; [done|]. split; [|done].
    exists d. rewrite (Hr m Hm). unfold σ1. map_simpl. by rewrite Ht.
  - apply NoDup_app. split; [done|]. split; [|apply NoDup_singleton].
    intros p Hp ->%list_elem_of_singleton. done.
  - splits.
    + rewrite Hd. unfold data_at, σ1. by map_simpl.
    + intros q Hq. rewrite Hd. unfold data_at, σ1. by map_simpl.
    + intros q Hq Hql. rewrite (Hr q Hql). unfold σ1. by map_simpl.
    + rewrite Hdom. apply dom_insert_lookup_L. eauto.
Qed.

Lemma dlinkAdd_ok σ L l m d :
  rep σ L l -> m ∉ l -> is_Some (σ !! m) ->
  exists σ' L', dlinkAdd d m L σ = Some (σ', L') /\ rep σ' L' (m :: l) /\ touches σ σ' m d l.
Proof.
  intros [Hh Ht Hs Hn] Hm [n0 Hn0]. unfold dlinkAdd, upd at 1. rewrite Hn0. bind_simpl.
  set (σ1 := <[m := mkNode d None (head L)]> σ).
  assert (lseg σ1 None l None) as Hs1 by (by apply lseg_frame).
  destruct (lseg_set_prev σ1 None l None (Some m) Hs1 Hn) as (σ2 & E & Hs2 & Hr & Hd & Hdom).
  rewrite Hh, E. bind_simpl. eexists _, _. split; [done|]. split; [split; cbn [head tail]|].
  - done.
  - rewrite Ht, final_cons. destruct (final None l) as [p|] eqn:Ef.
    + rewrite opt_eqb_false by done. unfold final in *. by destruct (list.last l).
    + rewrite opt_eqb_true. by rewrite (final_none _ Ef).
  - cbn [lseg]. split; [|done]. exists d. rewrite (Hr m Hm). unfold σ1. map_simpl. by rewrite Hh.
  - by apply NoDup_cons.
  - splits.
    + rewrite Hd. unfold data_at, σ1. by map_simpl.
    + intros q Hq. rewrite Hd. unfold data_at, σ1. by map_simpl.
    + intros q Hq Hql. rewrite (Hr q Hql). unfold σ1. by map_simpl.
    + rewrite Hdom. apply dom_insert_lookup_L. eauto.
Qed.

Lemma dlinkDelete_ok σ L l1 m l2 :
  rep σ L (l1 ++ m :: l2) ->
  exists σ' L' d, dlinkDelete m L σ = Some (σ', L') /\ rep σ' L' (l1 ++ l2) /\
    data_at σ m = Some d /\ σ' !! m = Some (mkNode d None None) /\ touches σ σ' m d (l1 ++ l2).
Proof.
  intros [Hh Ht Hs Hn]. pose proof Hn as Hnd.
  apply NoDup_app in Hn as (Hn1 & H12 & Hn2). apply NoDup_cons in Hn2 as [Hm2 Hn2].
  assert (m ∉ l1) as Hm1 by (intros H; apply (H12 _ H), elem_of_cons; by left).
  assert (forall q, q ∈ l1 -> q ∉ l2) as Hd12 by (intros q Hq Hq2; apply (H12 _ Hq), elem_of_cons; by right).
  rewrite lseg_app in Hs. cbn [lseg first] in Hs. destruct Hs as (Hs1 & [d Hm] & Hs2).
  unfold dlinkDelete. rewrite Hm. bind_simpl. cbn [next prev].
  destruct (lseg_set_prev σ (Some m) l2 None (final None l1) Hs2 Hn2) as (σ1 & -> & Hs2' & Hr1 & Hd1 & Hdom1).
  bind_simpl. rewrite (Hr1 m Hm2), Hm. bind_simpl. cbn [next prev].
  assert (lseg σ1 None l1 (Some m)) as Hs1'.
  { eapply lseg_ext; [|exact Hs1]. intros q Hq. apply Hr1. by apply Hd12. }
  destruct (lseg_set_next σ1 None l1 (Some m) (first l2 None) Hs1' Hn1) as (σ2 & -> & Hs1'' & Hr2 & Hd2 & Hdom2).
  bind_simpl. rewrite (Hr2 m Hm1), (Hr1 m Hm2), Hm. bind_simpl. cbn [next prev head tail].
  unfold upd. rewrite (Hr2 m Hm1), (Hr1 m Hm2), Hm. bind_simpl. cbn [data].
  assert (dom σ2 = dom σ) as Hdom by congruence.
  eexists _, _, d. split; [done|]. split; [split; cbn [head tail]|splits].
  - rewrite Hh. destruct l1 as [|p l1]; cbn [app first].
    + by rewrite opt_eqb_true.
    + rewrite opt_eqb_false; [done|]. intros [= ->]. apply Hm1, elem_of_cons. by left.
  - rewrite Ht, !final_app, final_cons. destruct l2 as [|q l2 _] using rev_ind.
    + cbn [final list.last]. unfold final at 1. cbn. by rewrite opt_eqb_true.
    + rewrite !final_snoc. rewrite opt_eqb_false; [done|]. intros [= ->].
      apply Hm2, elem_of_app. right. by apply list_elem_of_singleton.
  - apply lseg_app. split; apply lseg_frame; [done..|].
    eapply lseg_ext; [|exact Hs2']. intros q Hq. apply Hr2. intros Hq1. by apply (Hd12 q).
  - apply NoDup_app. splits.
  - unfold data_at. by rewrite Hm.
  - by map_simpl.
  - unfold touches. split_and!.
    { unfold data_at. by map_simpl. }
    { intros q Hq. rewrite <- Hd1, <- Hd2. unfold data_at. by map_simpl. }
    { intros q Hq Hql. apply not_elem_of_app in Hql as [Hq1 Hq2]. map_simpl. by rewrite (Hr2 _ Hq1), (Hr1 _ Hq2). }
    rewrite dom_insert_lookup_L; [done|]. rewrite (Hr2 m Hm1), (Hr1 m Hm2), Hm. eauto.
Qed.

(** Deleting a node that is on no list changes nothing. *)
Lemma dlinkDelete_orphan σ L l m d :
  rep σ L l -> m ∉ l -> σ !! m = Some (mkNode d None None) -> dlinkDelete m L σ = Some (σ, L).
Proof.
  intros [Hh Ht _ _] Hm Hn. unfold dlinkDelete, upd. rewrite Hn. cbn. rewrite Hn. cbn. rewrite Hn. cbn.
  rewrite insert_id by done. destruct L as [h t]; cbn in *. subst.
  rewrite !opt_eqb_false; [done|..].
  - intros E. symmetry in E. by apply final_in in E.
  - destruct l; [done|]. cbn. intros [= ->]. apply Hm, elem_of_cons. by left.
Qed.

Lemma lseg_nodup_size σ l pv nx : lseg σ pv l nx -> NoDup l -> (length l <= size σ)%nat.
Proof.
  intros Hs Hn. rewrite <- (size_list_to_set (C := gset positive) l) by done.
  rewrite <- (size_dom (D := gset positive)). apply subseteq_size.
  intros p Hp. rewrite elem_of_list_to_set in Hp. apply elem_of_dom. by eapply lseg_in_dom.
Qed.

Lemma size_loop_ok σ l : forall fuel pv i,
  lseg σ pv l None -> (length l <= fuel)%nat -> size_loop fuel (first l None) i σ = Some (i + Z.of_nat (length l)).
Proof.
  induction l as [|p l IH]; intros fuel pv i Hs Hf; cbn [first].
  - destruct fuel; cbn; f_equal; lia.
  - cbn [lseg] in Hs. destruct Hs as [[d Hd] Hs]. cbn [length] in Hf. destruct fuel as [|fuel]; [lia|].
    cbn [size_loop]. rewrite Hd. bind_simpl. cbn [next]. erewrite IH by (done || lia). f_equal. cbn [length]. lia.
Qed.

Lemma dlinkSize_ok σ L l : rep σ L l -> dlinkSize L σ = Some (Z.of_nat (length l)).
Proof.
  intros [Hh Ht Hs Hn]. unfold dlinkSize. rewrite Hh.
  by rewrite (size_loop_ok σ l (size σ) None 0 Hs (lseg_nodup_size _ _ _ _ Hs Hn)).
Qed.

(** The values on a list, in order. *)
Definition holds σ (L : dlink_list) (vs : list Z) : Prop :=
  exists l, rep σ L l /\ Forall2 (fun p v => data_at σ p = Some v) l vs.

Lemma Forall2_data_ext σ σ' l vs :
  (forall q, q ∈ l -> data_at σ' q = data_at σ q) ->
  Forall2 (fun p v => data_at σ p = Some v) l vs -> Forall2 (fun p v => data_at σ' p = Some v) l vs.
Proof.
  intros Hq Hf. induction Hf as [|p v l vs Hp Hf IH]; constructor.
  - rewrite Hq; [done|]. by apply elem_of_cons; left.
  - apply IH. intros q ?. apply Hq. by apply elem_of_cons; right.
Qed.

Lemma dlinkRemoveHead_ok σ L l m :
  rep σ L (m :: l) ->
  exists σ' L' d, dlinkRemoveHead L σ = Some (σ', L', d) /\ rep σ' L' l /\
    data_at σ m = Some d /\ touches σ σ' m d l.
Proof.
  intros H. destruct (dlinkDelete_ok σ L [] m l H) as (σ' & L' & d & E & Hr & Hd & Hm & Ht).
  exists σ', L', d. unfold dlinkRemoveHead. rewrite (rep_head _ _ _ H). cbn [first]. rewrite E. bind_simpl.
  rewrite Hm. done.
Qed.

(** ** FIFO queues *)

Record fifo_node := mkFnode { fnext : option positive; fp : Z }.
Record fifo_list := mkFifo { fhead : option positive; ftail : option positive }.
Abbreviation fnodes := (gmap positive fifo_node).

Definition fifo_init : fifo_list := mkFifo None None.

(** [n] is the block [xcalloc] returns. *)
Definition fifo_queue (l : fifo_list) (n : positive) (p : Z) (m : fnodes) : option (fnodes * fifo_list) :=
  let m := <[n := mkFnode None p]> m in
  match fhead l with
  | None => Some (m, mkFifo (Some n) (Some n))
  | Some _ =>
      let? t := ftail l in
      let? x := m !! t in
      Some (<[t := mkFnode (Some n) (fp x)]> m, mkFifo (fhead l) (Some n))
  end.

Definition fifo_dequeue (l : fifo_list) (m : fnodes) : option (fnodes * fifo_list * Z) :=
  match fhead l with
  | None => Some (m, l, 0)
  | Some h =>
      let? x := m !! h in
      let l' := mkFifo (fnext x) (if opt_eqb (fnext x) None then None else ftail l) in
      Some (delete h m, l', fp x)
  end.

(** The queue from [h] on holds [vs], in the nodes [l]. *)
Fixpoint fseg (m : fnodes) (l : list positive) (vs : list Z) : Prop :=
  match l, vs with
  | [], [] => True
  | p :: l, v :: vs => m !! p = Some (mkFnode (first l None) v) /\ fseg m l vs
  | _, _ => False
  end.

Definition fifo_rep (m : fnodes) (L : fifo_list) (vs : list Z) : Prop :=
  exists l, fseg m l vs /\ NoDup l /\ fhead L = first l None /\ (l <> [] -> ftail L = final None l).

Lemma fseg_frame m l vs p x : p ∉ l -> fseg (<[p := x]> m) l vs <-> fseg m l vs.
Proof.
  revert vs. induction l as [|q l IH]; intros [|v vs] Hp; cbn [fseg]; try done.
  apply not_elem_of_cons in Hp as [Hne Hp]. by rewrite IH, lookup_insert_ne.
Qed.

Lemma fseg_delete m l vs p : p ∉ l -> fseg m l vs -> fseg (delete p m) l vs.
Proof.
  revert vs. induction l as [|q l IH]; intros [|v vs] Hp; cbn [fseg]; try done.
  apply not_elem_of_cons in Hp as [Hne Hp]. intros [Hq Hs]. rewrite lookup_delete_ne by done. auto.
Qed.

Lemma fseg_snoc m l p vs n v x :
  fseg m (l ++ [p]) vs -> m !! p = Some x -> NoDup (l ++ [p]) -> n ∉ l ++ [p] -> m !! n = Some (mkFnode None v) ->
  fseg (<[p := mkFnode (Some n) (fp x)]> m) ((l ++ [p]) ++ [n]) (vs ++ [v]).
Proof.
  revert vs. induction l as [|q l IH]; intros [|w vs] Hs Hx Hnd Hn Hv; cbn [app fseg] in Hs |- *; try done.
  - destruct Hs as [Hp Hs]. destruct vs; [|done]. rewrite Hp in Hx. injection Hx as <-. cbn [fp first app fseg].
    apply not_elem_of_cons in Hn as [Hn _]. by map_simpl.
  - destruct Hs as [Hq Hs]. apply NoDup_cons in Hnd as [Hql Hnd]. apply not_elem_of_cons in Hn as [Hnq Hn].
    split; [|by apply IH]. rewrite lookup_insert_ne.
    + rewrite Hq. do 2 f_equal. by destruct l.
    + intros ->. apply Hql, elem_of_app. right. by apply list_elem_of_singleton.
Qed.

(** ** Properties *)

(** The list operations act on the sequence of values as list operations:
    adding at either end, deleting a node wherever it is, taking the first
    value and counting, whatever else the memory holds. *)
Theorem dlink_ops_correct σ L l1 m l2 n d :
  rep σ L (l1 ++ m :: l2) -> n ∉ l1 ++ m :: l2 -> is_Some (σ !! n) ->
  (exists σ' L', dlinkAdd d n L σ = Some (σ', L') /\ rep σ' L' (n :: l1 ++ m :: l2) /\
     touches σ σ' n d (l1 ++ m :: l2)) /\
  (exists σ' L', dlinkAddTail d n L σ = Some (σ', L') /\ rep σ' L' ((l1 ++ m :: l2) ++ [n]) /\
     touches σ σ' n d (l1 ++ m :: l2)) /\
  (exists σ' L' v, dlinkDelete m L σ = Some (σ', L') /\ rep σ' L' (l1 ++ l2) /\
     data_at σ m = Some v /\ σ' !! m = Some (mkNode v None None) /\ touches σ σ' m v (l1 ++ l2)) /\
  dlinkSize L σ = Some (Z.of_nat (length (l1 ++ m :: l2))).
Proof.
  intros H Hn Hs. split; [by apply dlinkAdd_ok|]. split; [by apply dlinkAddTail_ok|].
  split; [by apply dlinkDelete_ok|by apply dlinkSize_ok].
Qed.

(** A list of two nodes and one node on no list. *)
Definition σ2 : nodes :=
  list_to_map [(1%positive, mkNode 10 None (Some 2%positive)); (2%positive, mkNode 20 (Some 1%positive) None);
               (3%positive, mkNode 0 None None)].
Definition L2 : dlink_list := mkList (Some 1%positive) (Some 2%positive).

Lemma rep2 : rep σ2 L2 [1%positive; 2%positive].
Proof.
  split; try done.
  - cbn. split; [by exists 10|]. split; [by exists 20|done].
  - by apply NoDup_cons; split; [intros ?%list_elem_of_singleton|apply NoDup_singleton].
Qed.

Lemma dlink_ops_witness :
  (exists σ' L', dlinkAdd 30 3 L2 σ2 = Some (σ', L') /\ rep σ' L' [3%positive; 1%positive; 2%positive] /\
     touches σ2 σ' 3 30 [1%positive; 2%positive]) /\
  (exists σ' L', dlinkAddTail 30 3 L2 σ2 = Some (σ', L') /\ rep σ' L' [1%positive; 2%positive; 3%positive] /\
     touches σ2 σ' 3 30 [1%positive; 2%positive]) /\
  (exists σ' L' v, dlinkDelete 2 L2 σ2 = Some (σ', L') /\ rep σ' L' [1%positive] /\
     data_at σ2 2 = Some v /\ σ' !! 2%positive = Some (mkNode v None None) /\ touches σ2 σ' 2 v [1%positive]) /\
  dlinkSize L2 σ2 = Some 2.
Proof.
  apply (dlink_ops_correct σ2 L2 [1%positive] 2 [] 3 30 rep2).
  - intros [?|?%list_elem_of_singleton]%elem_of_cons; done.
  - by eexists.
Defined.

(** A FIFO queue gives its values back in the order they were queued. *)
Theorem fifo_correct m L vs n v :
  fifo_rep m L vs -> m !! n = None ->
  (exists m' L', fifo_queue L n v m = Some (m', L') /\ fifo_rep m' L' (vs ++ [v])) /\
  match vs with
  | [] => fifo_dequeue L m = Some (m, L, 0)
  | w :: vs' => exists m' L', fifo_dequeue L m = Some (m', L', w) /\ fifo_rep m' L' vs'
  end.
Proof.
  intros (l & Hs & Hnd & Hh & Ht) Hn. 
  assert (n ∉ l) as Hnl.
  { clear -Hs Hn. revert vs Hs. induction l as [|q l IH]; intros [|w vs] Hs; cbn [fseg] in Hs; try done.
    - apply not_elem_of_nil.
    - destruct Hs as [Hq Hs]. apply not_elem_of_cons. split; [by intros ->; rewrite Hq in Hn|by eapply IH]. }
  split.
  - unfold fifo_queue. rewrite Hh. destruct l as [|q l _] using rev_ind.
    + destruct vs; [|done]. cbn. eexists _, _. split; [done|]. exists [n]. cbn. map_simpl.
      splits. apply NoDup_singleton.
    + rewrite Ht, final_snoc by (by destruct l).
      assert (exists x, (<[n := mkFnode None v]> m) !! q = Some x) as [x Hx].
      { assert (n <> q) by (intros ->; apply Hnl, elem_of_app; right; by apply list_elem_of_singleton).
        map_simpl. clear -Hs. revert vs Hs. induction l as [|r l IH]; intros [|w vs] Hs; cbn in Hs; try done.
        - destruct Hs as [-> _]. by eexists. - destruct Hs as [_ Hs]. by eapply IH. }
      assert (exists r, first (l ++ [q]) None = Some r) as [r Er] by (destruct l; by eexists). rewrite Er.
      bind_simpl. rewrite Hx. bind_simpl. eexists _, _. split; [done|]. exists ((l ++ [q]) ++ [n]). splits.
      * apply (fseg_snoc _ l q vs n v x); [by apply fseg_frame|done..|by map_simpl].
      * apply NoDup_app. splits; [|apply NoDup_singleton]. intros p Hp ->%list_elem_of_singleton. done.
      * cbn [fhead]. by rewrite first_app, <- Er, first_app; destruct l.
      * intros _. by rewrite final_snoc.
  - destruct vs as [|w vs].
    + destruct l as [|q l]; [|done]. unfold fifo_dequeue. by rewrite Hh.
    + destruct l as [|q l]; [done|]. cbn [fseg] in Hs. destruct Hs as [Hq Hs].
      unfold fifo_dequeue. rewrite Hh. cbn [first]. rewrite Hq. bind_simpl. cbn [fnext fp].
      apply NoDup_cons in Hnd as [Hql Hnd]. eexists _, _. split; [done|]. exists l. splits.
      * by apply fseg_delete.
      * cbn. intros Hl. destruct l as [|r l]; [done|]. cbn [first]. rewrite opt_eqb_false by done.
        rewrite Ht by done. by rewrite !final_cons.
Qed.

Lemma fifo_witness :
  let m := list_to_map [(1%positive, mkFnode (Some 2%positive) 10); (2%positive, mkFnode None 20)] : fnodes in
  let L := mkFifo (Some 1%positive) (Some 2%positive) in
  (exists m' L', fifo_queue L 3 30 m = Some (m', L') /\ fifo_rep m' L' [10; 20; 30]) /\
  exists m' L', fifo_dequeue L m = Some (m', L', 10) /\ fifo_rep m' L' [20].
Proof.
  intros m L. apply (fifo_correct m L [10; 20] 3 30); [|reflexivity].
  exists [1%positive; 2%positive]. split; [done|]. split; [apply rep2|]. by split.
Defined.

End Dlink.
