(* ===== verification/StoreEntry.v ===== *)
(** * Store entries

    The fields of a StoreEntry (src/structs.h) that the replacement policies
    and the storage manager use, and the test that protects entries in use
    (src/store.c). *)

From Stdlib Require Import ZArith Lia.
From stdpp Require Import base gmap list numbers option fin_maps.
From S2P Require Import Prelude.

Module StoreEntry.

Inductive store_status_t := STORE_OK | STORE_PENDING.
Inductive swap_status_t := SWAPOUT_NONE | SWAPOUT_WRITING | SWAPOUT_DONE.

(** Bits of [flags]. *)
Definition ENTRY_SPECIAL : Z := 0.
Definition RELEASE_REQUEST : Z := 3.
Definition ENTRY_CACHABLE : Z := 5.
Definition KEY_PRIVATE : Z := 7.

(** The content of a RemovalPolicyNode is the address of the policy's node,
    [None] when NULL; [mem_obj] has the one of the memory object, if there is a
    memory object. *)
Record StoreEntry := mkEntry {
  repl : option positive;
  mem_obj : option (option positive);
  lastref : Z;
  refcount : Z;
  swap_file_sz : Z;
  flags : Z;
  lock_count : Z;
  store_status : store_status_t;
  swap_status : swap_status_t
}.

Definition storeEntryLocked (e : StoreEntry) : bool :=
  if negb (lock_count e =? 0) then true
  else match swap_status e with
       | SWAPOUT_WRITING => true
       | _ =>
           match store_status e with
           | STORE_PENDING => true
           | STORE_OK => EBIT_TEST (flags e) ENTRY_SPECIAL && negb (EBIT_TEST (flags e) KEY_PRIVATE)
           end
       end.

(** Where a policy keeps its node: in the entry or in its memory object. *)
Inductive entry_type := TYPE_UNKNOWN | TYPE_STORE_ENTRY | TYPE_STORE_MEM.

#[global] Instance entry_type_eq_dec : EqDecision entry_type.
Proof. solve_decision. Defined.

(** [node->data] for the node at a place of the entry: there is none in the
    memory object of an entry without one. *)
Definition node_of (w : entry_type) (e : StoreEntry) : option (option positive) :=
  match w with
  | TYPE_UNKNOWN => None
  | TYPE_STORE_ENTRY => Some (repl e)
  | TYPE_STORE_MEM => mem_obj e
  end.

Definition set_repl (v : option positive) (e : StoreEntry) : StoreEntry :=
  mkEntry v (mem_obj e) (lastref e) (refcount e) (swap_file_sz e) (flags e) (lock_count e) (store_status e) (swap_status e).
Definition set_mem_repl (v : option positive) (e : StoreEntry) : StoreEntry :=
  mkEntry (repl e) (Some v) (lastref e) (refcount e) (swap_file_sz e) (flags e) (lock_count e) (store_status e) (swap_status e).

(** [SET_POLICY_NODE(entry, value)] for a policy of the given type. *)
Definition SET_POLICY_NODE (w : entry_type) (v : option positive) (e : StoreEntry) : option StoreEntry :=
  match w with
  | TYPE_UNKNOWN => Some e
  | TYPE_STORE_ENTRY => Some (set_repl v e)
  | TYPE_STORE_MEM => let? _ := mem_obj e in Some (set_mem_repl v e)
  end.

(** ** Lemmas *)

Lemma SET_POLICY_NODE_ok w v e d :
  node_of w e = Some d ->
  exists e', SET_POLICY_NODE w v e = Some e' /\ node_of w e' = Some v /\ storeEntryLocked e' = storeEntryLocked e.
Proof.
  destruct w; cbn; [done|..]; intros E.
  - by eexists.
  - rewrite E. by eexists.
Qed.

End StoreEntry.
