(* ===== verification/ReplLru.v ===== *)
(** * The LRU replacement policy

    src/repl/lru/store_repl_lru.c over the linked lists of Dlink.v: the state
    has the policy's list nodes, the policy data and the store entries that
    point to the nodes.  Entries and nodes are known by their addresses; the
    allocator's answers are arguments.  The walkers are the records behind
    [walker->_data]. *)

From Stdlib Require Import ZArith Lia.
From stdpp Require Import base gmap list numbers option fin_maps.
From S2P Require Import Prelude Dlink StoreEntry.
Import Dlink StoreEntry.

Module ReplLru.

Record lru := mkLru {
  lru_nodes : gmap positive dlink_node;
  lru_list : dlink_list;
  count : Z;
  nwalkers : Z;
  type : entry_type;
  entries : gmap Z StoreEntry
}.

Definition set_list (σ : gmap positive dlink_node) (L : dlink_list) (s : lru) : lru :=
  mkLru σ L (count s) (nwalkers s) (type s) (entries s).
Definition set_count (n : Z) (s : lru) : lru :=
  mkLru (lru_nodes s) (lru_list s) n (nwalkers s) (type s) (entries s).
Definition set_nwalkers (n : Z) (s : lru) : lru :=
  mkLru (lru_nodes s) (lru_list s) (count s) n (type s) (entries s).
Definition set_type (t : entry_type) (s : lru) : lru :=
  mkLru (lru_nodes s) (lru_list s) (count s) (nwalkers s) t (entries s).
Definition set_entries (m : gmap Z StoreEntry) (s : lru) : lru :=
  mkLru (lru_nodes s) (lru_list s) (count s) (nwalkers s) (type s) m.

Definition createRemovalPolicy_lru (m : gmap Z StoreEntry) : lru := mkLru ∅ (mkList None None) 0 0 TYPE_UNKNOWN m.

(** The node given is the one at place [w] of the entry. *)
Definition repl_guessType (en : StoreEntry) (w : entry_type) : option entry_type :=
  match w with
  | TYPE_STORE_ENTRY => Some TYPE_STORE_ENTRY
  | TYPE_STORE_MEM => let? _ := mem_obj en in Some TYPE_STORE_MEM
  | TYPE_UNKNOWN => None
  end.

(** [m] is the node [memPoolAlloc] returns, zeroed. *)
Definition lru_add (e : Z) (w : entry_type) (m : positive) (s : lru) : option lru :=
  let? en := entries s !! e in
  let? d := node_of w en in
  assert? opt_eqb d None in
  let? en' := SET_POLICY_NODE w (Some m) en in
  let s := set_entries (<[e := en']> (entries s)) s in
  let? (σ, L) := dlinkAddTail e m (lru_list s) (<[m := mkNode 0 None None]> (lru_nodes s)) in
  let s := set_count (count s + 1) (set_list σ L s) in
  match type s with
  | TYPE_UNKNOWN => let? t := repl_guessType en' w in Some (set_type t s)
  | _ => Some s
  end.

Definition lru_remove (e : Z) (w : entry_type) (s : lru) : option lru :=
  let? en := entries s !! e in
  let? d := node_of w en in
  match d with
  | None => Some s
  | Some m =>
      let? n := lru_nodes s !! m in
      if data n =? 0 then Some s
      else
        assert? data n =? e in
        let? en' := SET_POLICY_NODE w None en in
        let? (σ, L) := dlinkDelete m (lru_list s) (lru_nodes s) in
        Some (set_count (count s - 1) (set_list (delete m σ) L (set_entries (<[e := en']> (entries s)) s)))
  end.

Definition lru_referenced (e : Z) (w : entry_type) (s : lru) : option lru :=
  let? en := entries s !! e in
  let? d := node_of w en in
  match d with
  | None => Some s
  | Some m =>
      let? (σ, L) := dlinkDelete m (lru_list s) (lru_nodes s) in
      let? (σ, L) := dlinkAddTail e m L σ in
      Some (set_list σ L s)
  end.

(** ** Walking *)

Definition lru_walkInit (s : lru) : lru * option positive :=
  (set_nwalkers (nwalkers s + 1) s, head (lru_list s)).

(** The entry, 0 at the end, and the next position. *)
Definition lru_walkNext (current : option positive) (s : lru) : option (option positive * Z) :=
  match current with
  | None => Some (None, 0)
  | Some m => let? n := lru_nodes s !! m in Some (next n, data n)
  end.

Definition lru_walkDone (s : lru) : option lru :=
  assert? 0 <? nwalkers s in Some (set_nwalkers (nwalkers s - 1) s).

(** ** Purging *)

Record purge_walker := mkPurge {
  current : option positive;
  start : option positive;
  scanned : Z;
  max_scan : Z;
  locked : Z
}.

Definition lru_purgeInit (max_scan : Z) (s : lru) : lru * purge_walker :=
  (set_nwalkers (nwalkers s + 1) s, mkPurge (head (lru_list s)) (head (lru_list s)) 0 max_scan 0).

(** The loop at [try_again]: the purged entry, 0 when there is none. *)
Fixpoint purge_loop (fuel : nat) (w : purge_walker) (s : lru) : option (lru * purge_walker * Z) :=
  match fuel with
  | O => None
  | S fuel =>
      match current w with
      | None => Some (s, w, 0)
      | Some m =>
          if max_scan w <=? scanned w then Some (s, w, 0)
          else
            let? n := lru_nodes s !! m in
            let cur := if opt_eqb (next n) (start w) then None else next n in
            let w := mkPurge cur (start w) (scanned w + 1) (max_scan w) (locked w) in
            let e := data n in
            let? (σ, L) := dlinkDelete m (lru_list s) (lru_nodes s) in
            let? en := entries s !! e in
            if storeEntryLocked en then
              let w := mkPurge (current w) (start w) (scanned w) (max_scan w) (locked w + 1) in
              let? (σ, L) := dlinkAddTail e m L σ in
              purge_loop fuel w (set_list σ L s)
            else
              let s := set_count (count s - 1) (set_list (delete m σ) L s) in
              let? en' := SET_POLICY_NODE (type s) None en in
              Some (set_entries (<[e := en']> (entries s)) s, w, e)
      end
  end.

(** Every turn but the last scans a node, up to [max_scan]. *)
Definition lru_purgeNext (w : purge_walker) (s : lru) : option (lru * purge_walker * Z) :=
  purge_loop (S (Z.to_nat (max_scan w - scanned w))) w s.

Definition lru_purgeDone (s : lru) : option lru :=
  assert? 0 <? nwalkers s in Some (set_nwalkers (nwalkers s - 1) s).

(** The entry whose age [lru_stats] prints: the first that is not locked. *)
Fixpoint stats_loop (fuel : nat) (p : option positive) (s : lru) : option Z :=
  match fuel, p with
  | _, None => Some 0
  | O, Some _ => None
  | S fuel, Some m =>
      let? n := lru_nodes s !! m in
      let? en := entries s !! data n in
      if storeEntryLocked en then stats_loop fuel (next n) s else Some (data n)
  end.
Definition lru_stats (s : lru) : option Z := stats_loop (S (size (lru_nodes s))) (head (lru_list s)) s.

(** The checks of [lru_free] before the policy data goes. *)
Definition lru_free (s : lru) : option unit :=
  assert? negb (nwalkers s =? 0) in assert? negb (count s =? 0) in Some tt.

(** ** Invariant

    The list holds the entries [vs], least recently used first; place [w] of
    each entry on it points to its node, and of no other entry to any. *)
Definition linked (w : entry_type) (s : lru) (p : positive) (v : Z) : Prop :=
  data_at (lru_nodes s) p = Some v /\ exists en, entries s !! v = Some en /\ node_of w en = Some (Some p).

(** The nodes of the list are [l]. *)
Record lru_rep (w : entry_type) (s : lru) (l : list positive) (vs : list Z) : Prop := mkOk {
  ok_list : rep (lru_nodes s) (lru_list s) l;
  ok_dom : dom (lru_nodes s) = list_to_set (C := gset positive) l;
  ok_linked : Forall2 (linked w s) l vs;
  ok_other : forall v en, entries s !! v = Some en -> v ∉ vs -> forall p, node_of w en <> Some (Some p);
  ok_nodup : NoDup vs;
  ok_zero : 0 ∉ vs;
  ok_count : count s = Z.of_nat (length vs);
  ok_type : type s = w \/ (type s = TYPE_UNKNOWN /\ vs = [])
}.

Definition lru_ok (w : entry_type) (s : lru) (vs : list Z) : Prop := exists l, lru_rep w s l vs.

(** ** Lemmas *)

Lemma rep_ext σ σ' L l : (forall q, q ∈ l -> σ' !! q = σ !! q) -> rep σ L l -> rep σ' L l.
Proof. intros Hq [Hh Ht Hs Hn]. split; try done. by eapply lseg_ext. Qed.

Lemma linked_ext w s s' l vs :
  (forall p, p ∈ l -> data_at (lru_nodes s') p = data_at (lru_nodes s) p) ->
  (forall v, v ∈ vs -> entries s' !! v = entries s !! v) ->
  Forall2 (linked w s) l vs -> Forall2 (linked w s') l vs.
Proof.
  intros Hp Hv Hf. induction Hf as [|p v l vs [Hd He] Hf IH]; constructor.
  - split; [rewrite Hp; [done|by apply elem_of_cons; left]|]. rewrite Hv; [done|by apply elem_of_cons; left].
  - apply IH; intros; [apply Hp|apply Hv]; by apply elem_of_cons; right.
Qed.

(** The place in the list of an entry that has a node. *)
Lemma ok_at w s l vs e en m :
  lru_rep w s l vs -> entries s !! e = Some en -> node_of w en = Some (Some m) ->
  exists l1 l2 v1 v2, l = l1 ++ m :: l2 /\ vs = v1 ++ e :: v2 /\
    Forall2 (linked w s) l1 v1 /\ Forall2 (linked w s) l2 v2 /\ data_at (lru_nodes s) m = Some e.
Proof.
  intros H He Hm. destruct (decide (e ∈ vs)) as [Hin|Hin]; [|by destruct (ok_other _ _ _ _ H _ _ He Hin m)].
  apply list_elem_of_split in Hin as (v1 & v2 & ->).
  destruct (proj1 (Forall2_app_inv_r _ _ _ _) (ok_linked _ _ _ _ H)) as (l1 & l' & H1 & H2 & ->).
  apply Forall2_cons_inv_r in H2 as (m' & l2 & [Hd (en' & He' & Hm')] & H2 & ->).
  rewrite He in He'. injection He' as <-. rewrite Hm in Hm'. injection Hm' as <-. eauto 12.
Qed.

Lemma NoDup_split_lru {A} (l1 l2 : list A) x : NoDup (l1 ++ x :: l2) -> (x ∉ l1 ++ l2) /\ NoDup (l1 ++ l2).
Proof.
  intros (H1 & H12 & [Hx H2]%NoDup_cons)%NoDup_app. split.
  - intros [H|H]%elem_of_app; [|done]. by apply (H12 _ H), elem_of_cons; left.
  - apply NoDup_app. splits. intros y Hy Hy2. by apply (H12 _ Hy), elem_of_cons; right.
Qed.

Lemma node_of_type w e d : node_of w e = Some d -> w <> TYPE_UNKNOWN.
Proof. by destruct w. Qed.

(** Adding an entry the policy does not have. *)
Lemma lru_add_ok w s vs e en m :
  lru_ok w s vs -> entries s !! e = Some en -> node_of w en = Some None -> e <> 0 -> lru_nodes s !! m = None ->
  exists s', lru_add e w m s = Some s' /\ lru_ok w s' (vs ++ [e]) /\ nwalkers s' = nwalkers s.
Proof.
  intros [l H] He Hd He0 Hm. unfold lru_add. rewrite He. bind_simpl. rewrite Hd. bind_simpl.
  rewrite opt_eqb_true. destruct (SET_POLICY_NODE_ok w (Some m) en _ Hd) as (en' & Een & Hen & _).
  rewrite Een. bind_simpl. cbn [lru_list lru_nodes set_entries].
  assert (e ∉ vs) as Hev.
  { intros Hin. apply list_elem_of_lookup in Hin as [i Hi].
    destruct (Forall2_lookup_r _ _ _ _ _ (ok_linked _ _ _ _ H) Hi) as (p & _ & _ & en2 & He2 & Hn2). congruence. }
  assert (m ∉ l) as Hml.
  { intros Hin. apply (lseg_in_dom _ _ _ _ _ (rep_seg _ _ _ (ok_list _ _ _ _ H))) in Hin as [? ?]. congruence. }
  set (σ0 := <[m := mkNode 0 None None]> (lru_nodes s)).
  assert (rep σ0 (lru_list s) l) as Hr0.
  { eapply rep_ext; [|exact (ok_list _ _ _ _ H)]. intros q Hq. unfold σ0. apply lookup_insert_ne. by intros ->. }
  destruct (dlinkAddTail_ok σ0 (lru_list s) l m e Hr0 Hml) as (σ & L & E & Hr & Hd1 & Hd2 & _ & Hdom).
  { unfold σ0. map_simpl. by eexists. }
  rewrite E. bind_simpl. cbn [type set_count set_list set_entries].
  set (s1 := set_count (count s + 1) (set_list σ L (set_entries (<[e := en']> (entries s)) s))).
  assert (forall t, t = w -> lru_ok w (set_type t s1) (vs ++ [e])) as Hok.
  { intros t ->. exists (l ++ [m]). split; cbn; try done.
    - rewrite Hdom. unfold σ0. rewrite dom_insert_L, (ok_dom _ _ _ _ H), list_to_set_app_L. set_solver.
    - apply Forall2_app.
      + eapply linked_ext; [| |exact (ok_linked _ _ _ _ H)].
        * intros p Hp. cbn. assert (p <> m) by (by intros ->). rewrite Hd2 by done. unfold data_at, σ0. by map_simpl.
        * intros v Hv. cbn. apply lookup_insert_ne. by intros ->.
      + apply Forall2_cons. split; [|by apply Forall2_nil]. split; [done|]. exists en'. cbn. by map_simpl.
    - intros v en2 Hv [Hnv Hne]%not_elem_of_app.
      assert (e <> v) by (intros ->; apply Hne, list_elem_of_singleton; done).
      rewrite lookup_insert_ne in Hv by done. by apply (ok_other _ _ _ _ H v).
    - apply NoDup_app. split; [apply (ok_nodup _ _ _ _ H)|]. split; [|apply NoDup_singleton].
      intros x Hx ->%list_elem_of_singleton. done.
    - intros [?|?%list_elem_of_singleton]%elem_of_app; [by apply (ok_zero _ _ _ _ H)|by subst].
    - rewrite length_app. cbn. rewrite (ok_count _ _ _ _ H). lia.
    - by left. }
  pose proof (node_of_type _ _ _ Hd) as Hw.
  destruct (type s) eqn:Et.
  - assert (repl_guessType en' w = Some w) as ->.
    { destruct w; [done|done|]. cbn in Hen |- *. by rewrite Hen. }
    bind_simpl. eexists. split; [done|]. split; [by apply Hok|done].
  - exists s1. split; [done|]. split; [|done].
    destruct (ok_type _ _ _ _ H) as [Ht|[Ht _]]; [|congruence].
    replace s1 with (set_type w s1) by (unfold s1, set_type; cbn; by rewrite <- Ht). by apply Hok.
  - exists s1. split; [done|]. split; [|done].
    destruct (ok_type _ _ _ _ H) as [Ht|[Ht _]]; [|congruence].
    replace s1 with (set_type w s1) by (unfold s1, set_type; cbn; by rewrite <- Ht). by apply Hok.
Qed.

(** The nodes and the list once a node is taken off it. *)
Lemma delete_rep w s l1 m l2 vs :
  lru_rep w s (l1 ++ m :: l2) vs ->
  exists σ L d, dlinkDelete m (lru_list s) (lru_nodes s) = Some (σ, L) /\ rep σ L (l1 ++ l2) /\
    m ∉ l1 ++ l2 /\ data_at (lru_nodes s) m = Some d /\ is_Some (σ !! m) /\ dom σ = dom (lru_nodes s) /\
    (forall q, data_at σ q = data_at (lru_nodes s) q).
Proof.
  intros H. destruct (dlinkDelete_ok _ _ _ _ _ (ok_list _ _ _ _ H)) as (σ & L & d & E & Hr & Hd & Hm & Hd1 & Hd2 & _ & Hdom).
  exists σ, L, d. splits.
  - by apply (NoDup_split_lru _ _ _ (rep_nodup _ _ _ (ok_list _ _ _ _ H))).
  - intros q. destruct (decide (q = m)) as [->|]; [congruence|by apply Hd2].
Qed.

Lemma linked_entry w s p v : linked w s p v -> exists en, entries s !! v = Some en /\ node_of w en = Some (Some p).
Proof. by intros [_ ?]. Qed.

(** The state after an entry has lost its node. *)
Lemma dropped_ok w s l1 m l2 v1 e v2 σ L en en' :
  lru_rep w s (l1 ++ m :: l2) (v1 ++ e :: v2) -> Forall2 (linked w s) l1 v1 -> Forall2 (linked w s) l2 v2 ->
  rep σ L (l1 ++ l2) -> m ∉ l1 ++ l2 -> dom σ = dom (lru_nodes s) ->
  (forall q, data_at σ q = data_at (lru_nodes s) q) ->
  entries s !! e = Some en -> node_of w en' = Some None ->
  lru_ok w (set_count (count s - 1) (set_list (delete m σ) L (set_entries (<[e := en']> (entries s)) s))) (v1 ++ v2).
Proof.
  intros H H1 H2 Hr Hm Hdom Hdat He Hn. destruct (NoDup_split_lru _ _ _ (ok_nodup _ _ _ _ H)) as [Hev Hnd].
  exists (l1 ++ l2). split; cbn; try done.
  - eapply rep_ext; [|exact Hr]. intros q Hq. apply lookup_delete_ne. by intros ->.
  - rewrite dom_delete_L, Hdom, (ok_dom _ _ _ _ H), !list_to_set_app_L, list_to_set_cons. set_solver.
  - apply (linked_ext w s).
    + intros p Hp. cbn. unfold data_at. rewrite lookup_delete_ne by (by intros ->). apply (Hdat p).
    + intros v Hv. cbn. apply lookup_insert_ne. by intros ->.
    + by apply Forall2_app.
  - intros v en2 Hv Hnv p. destruct (decide (v = e)) as [->|Hne]; [rewrite lookup_insert_eq in Hv; by simplify_eq; rewrite Hn|].
    rewrite lookup_insert_ne in Hv by done. apply (ok_other _ _ _ _ H v); [done|].
    intros [?|[->|?]%elem_of_cons]%elem_of_app; [|done|]; apply Hnv, elem_of_app; auto.
  - intros Hz. apply (ok_zero _ _ _ _ H). apply elem_of_app in Hz as [?|?]; apply elem_of_app; [by left|right].
    by apply elem_of_cons; right.
  - rewrite (ok_count _ _ _ _ H), !length_app. cbn. lia.
  - destruct (ok_type _ _ _ _ H) as [?|[_ E]]; [by left|]. by destruct v1.
Qed.

Lemma lru_remove_ok w s vs e en :
  lru_ok w s vs -> entries s !! e = Some en -> is_Some (node_of w en) ->
  exists s', lru_remove e w s = Some s' /\ nwalkers s' = nwalkers s /\
    ((e ∉ vs /\ s' = s) \/ exists v1 v2, vs = v1 ++ e :: v2 /\ lru_ok w s' (v1 ++ v2)).
Proof.
  intros [l H] He [d Hd]. unfold lru_remove. rewrite He. bind_simpl. rewrite Hd. bind_simpl.
  destruct d as [m|].
  - destruct (ok_at _ _ _ _ _ _ _ H He Hd) as (l1 & l2 & v1 & v2 & -> & -> & H1 & H2 & Hde).
    destruct (delete_rep _ _ _ _ _ _ H) as (σ & L & d & E & Hr & Hm & Hd' & _ & Hdom & Hdat).
    unfold data_at in Hde. destruct (lru_nodes s !! m) as [n|]; [|done]. cbn in Hde. injection Hde as Hde.
    bind_simpl. rewrite Hde.
    assert (e <> 0) as He0.
    { intros ->. apply (ok_zero _ _ _ _ H), elem_of_app. right. by apply elem_of_cons; left. }
    rewrite (proj2 (Z.eqb_neq e 0)), Z.eqb_refl by done.
    destruct (SET_POLICY_NODE_ok w None en _ Hd) as (en' & -> & Hen & _). bind_simpl. rewrite E. bind_simpl.
    eexists. split; [done|]. split; [done|]. right. exists v1, v2. split; [done|]. by eapply dropped_ok.
  - exists s. splits. left. split; [|done]. intros Hin. apply list_elem_of_lookup in Hin as [i Hi].
    destruct (Forall2_lookup_r _ _ _ _ _ (ok_linked _ _ _ _ H) Hi) as (p & _ & _ & en2 & He2 & Hn2). congruence.
Qed.

(** Moving a node to the end, with the data it has. *)
Lemma move_ok w s l1 m l2 v1 e v2 :
  lru_rep w s (l1 ++ m :: l2) (v1 ++ e :: v2) -> Forall2 (linked w s) l1 v1 -> Forall2 (linked w s) l2 v2 ->
  linked w s m e ->
  exists σ L σ' L', dlinkDelete m (lru_list s) (lru_nodes s) = Some (σ, L) /\ dlinkAddTail e m L σ = Some (σ', L') /\
    lru_rep w (set_list σ' L' s) ((l1 ++ l2) ++ [m]) ((v1 ++ v2) ++ [e]).
Proof.
  intros H H1 H2 [Hde Hen].
  destruct (delete_rep _ _ _ _ _ _ H) as (σ & L & d & E & Hr & Hm & Hd' & Hmd & Hdom & Hdat).
  destruct (dlinkAddTail_ok σ L (l1 ++ l2) m e Hr Hm Hmd) as (σ' & L' & E' & Hr' & Ht1 & Ht2 & _ & Hdom').
  exists σ, L, σ', L'. split; [done|]. split; [done|].
  assert (forall q, data_at σ' q = data_at (lru_nodes s) q) as Hq.
  { intros q. destruct (decide (q = m)) as [->|]; [congruence|]. by rewrite Ht2. }
  assert ((v1 ++ v2) ++ [e] ≡ₚ v1 ++ e :: v2) as Hp by solve_Permutation.
  split; cbn; try done.
  - rewrite Hdom', Hdom, (ok_dom _ _ _ _ H), !list_to_set_app_L, list_to_set_cons. set_solver.
  - apply (linked_ext w s); [intros; cbn; apply Hq|done|].
    apply Forall2_app; [by apply Forall2_app|]. apply Forall2_cons. split; [done|by apply Forall2_nil].
  - intros v en2 Hv Hnv. apply (ok_other _ _ _ _ H v); [done|]. by rewrite <- Hp.
  - rewrite Hp. apply (ok_nodup _ _ _ _ H).
  - rewrite Hp. apply (ok_zero _ _ _ _ H).
  - rewrite (ok_count _ _ _ _ H). by rewrite (Permutation_length Hp).
  - destruct (ok_type _ _ _ _ H) as [?|[_ E2]]; [by left|]. by destruct v1.
Qed.

Lemma lru_referenced_ok w s vs e en :
  lru_ok w s vs -> entries s !! e = Some en -> is_Some (node_of w en) ->
  exists s', lru_referenced e w s = Some s' /\ nwalkers s' = nwalkers s /\
    ((e ∉ vs /\ s' = s) \/ exists v1 v2, vs = v1 ++ e :: v2 /\ lru_ok w s' ((v1 ++ v2) ++ [e])).
Proof.
  intros [l H] He [d Hd]. unfold lru_referenced. rewrite He. bind_simpl. rewrite Hd. bind_simpl.
  destruct d as [m|].
  - destruct (ok_at _ _ _ _ _ _ _ H He Hd) as (l1 & l2 & v1 & v2 & -> & -> & H1 & H2 & Hde).
    destruct (move_ok w s l1 m l2 v1 e v2 H H1 H2 ltac:(split; eauto)) as (σ & L & σ' & L' & -> & E2 & Hok).
    bind_simpl. rewrite E2. bind_simpl. eexists. split; [done|]. split; [done|]. right. exists v1, v2.
    split; [done|]. by eexists.
  - exists s. splits. left. split; [|done]. intros Hin. apply list_elem_of_lookup in Hin as [i Hi].
    destruct (Forall2_lookup_r _ _ _ _ _ (ok_linked _ _ _ _ H) Hi) as (p & _ & _ & en2 & He2 & Hn2). congruence.
Qed.

(** Whether the entry at an address is locked. *)
Definition is_locked (s : lru) (v : Z) : bool := from_option storeEntryLocked false (entries s !! v).

(** One turn of the purge loop on a list that starts with [v]. *)
Lemma purge_step w s m l v vs fuel wk :
  lru_rep w s (m :: l) (v :: vs) -> current wk = Some m -> scanned wk < max_scan wk ->
  let wk1 lk := mkPurge (if opt_eqb (first l None) (start wk) then None else first l None) (start wk)
                  (scanned wk + 1) (max_scan wk) lk in
  if is_locked s v
  then exists s1, purge_loop (S fuel) wk s = purge_loop fuel (wk1 (locked wk + 1)) s1 /\
         lru_rep w s1 (l ++ [m]) (vs ++ [v]) /\ entries s1 = entries s /\ nwalkers s1 = nwalkers s
  else exists s1, purge_loop (S fuel) wk s = Some (s1, wk1 (locked wk), v) /\ lru_ok w s1 vs /\
         head (lru_list s1) = first l None /\ nwalkers s1 = nwalkers s.
Proof.
  intros H Hc Hsc wk1. cbn [purge_loop]. rewrite Hc. rewrite (proj2 (Z.leb_gt _ _)) by lia.
  pose proof (ok_linked _ _ _ _ H) as Hf. apply Forall2_cons in Hf as [Hmv Hf].
  pose proof Hmv as [Hd (en & He & Hn)].
  destruct (rep_seg _ _ _ (ok_list _ _ _ _ H)) as [[d Hdn] _].
  unfold data_at in Hd. rewrite Hdn in Hd. cbn in Hd. injection Hd as ->.
  rewrite Hdn. bind_simpl. cbn [data next]. unfold is_locked. rewrite He. cbn [from_option].
  destruct (move_ok w s [] m l [] v vs H ltac:(by apply Forall2_nil) Hf Hmv) as (σ & L & σ' & L' & E1 & E2 & Hok).
  rewrite E1. bind_simpl.
  destruct (storeEntryLocked en) eqn:El.
  - rewrite E2. bind_simpl. eexists. split; [done|]. by split.
  - destruct (delete_rep w s [] m l _ H) as (σ0 & L0 & d & E1' & Hr & Hm & _ & _ & Hdom & Hdat).
    rewrite E1 in E1'. injection E1' as <- <-. cbn [type set_count set_list].
    assert (type s = w) as -> by (by destruct (ok_type _ _ _ _ H) as [?|[_ ?]]).
    destruct (SET_POLICY_NODE_ok w None en _ Hn) as (en' & -> & Hen & _). bind_simpl.
    eexists. split; [done|]. splits.
    + by eapply (dropped_ok w s [] m l [] v vs σ L en en').
    + apply (rep_head _ _ _ Hr).
Qed.

(** The scan: locked entries at the front go to the back. *)
Inductive rotates (lk : Z -> bool) : list Z -> list Z -> Prop :=
  | rot_refl l : rotates lk l l
  | rot_step v l l' : lk v = true -> rotates lk (l ++ [v]) l' -> rotates lk (v :: l) l'.

Lemma rotates_first lk l e l' :
  rotates lk l (e :: l') -> lk e = false ->
  exists pre post, l = pre ++ e :: post /\ Forall (fun v => lk v = true) pre /\ l' = post ++ pre.
Proof.
  intros H. remember (e :: l') as r eqn:Er. intros He.
  induction H as [l|v l r Hv H IH].
  - subst. exists [], l'. rewrite app_nil_r. splits. 
  - destruct (IH Er) as (pre & post & El & Hp & ->).
    destruct post as [|x post _] using rev_ind.
    + apply app_inj_2 in El as [-> [= ->]]; [|done]. congruence.
    + rewrite app_comm_cons, app_assoc in El. apply app_inj_2 in El as [-> [= ->]]; [|done].
      exists (x :: pre), post. rewrite <- app_assoc. splits. by constructor.
Qed.

Lemma rotates_Permutation lk l l' : rotates lk l l' -> l ≡ₚ l'.
Proof. induction 1 as [|v l l' _ _ IH]; [done|]. rewrite <- IH. by rewrite Permutation_cons_append. Qed.

Definition at_head (wk : purge_walker) (s : lru) : Prop :=
  current wk = None \/ current wk = head (lru_list s).

(** The loop ends within its fuel: it gives the first entry that is not locked
    or scans locked entries only. *)
Lemma purge_loop_ok w fuel : forall wk s vs,
  lru_ok w s vs -> at_head wk s -> Z.of_nat fuel > Z.max 0 (max_scan wk - scanned wk) ->
  exists s' wk' e vs', purge_loop fuel wk s = Some (s', wk', e) /\ at_head wk' s' /\ lru_ok w s' vs' /\
    nwalkers s' = nwalkers s /\ max_scan wk' = max_scan wk /\ scanned wk <= scanned wk' <= Z.max (scanned wk) (max_scan wk) /\
    ((e = 0 /\ rotates (is_locked s) vs vs' /\ (current wk' = None \/ max_scan wk <= scanned wk')) \/
     (e <> 0 /\ is_locked s e = false /\ rotates (is_locked s) vs (e :: vs'))).
Proof.
  induction fuel as [|fuel IH]; intros wk s vs [l H] Hh Hf; [lia|].
  destruct Hh as [Hc|Hc].
  { cbn [purge_loop]. rewrite Hc. exists s, wk, 0, vs. splits; [by left|by exists l|lia|]. left. splits; [constructor|by left]. }
  rewrite (rep_head _ _ _ (ok_list _ _ _ _ H)) in Hc.
  destruct l as [|m l].
  { cbn [first] in Hc. cbn [purge_loop]. rewrite Hc. exists s, wk, 0, vs. splits; [by left|by exists []|lia|].
    left. splits; [constructor|by left]. }
  cbn [first] in Hc. destruct (Z.le_gt_cases (max_scan wk) (scanned wk)) as [Hms|Hms].
  { cbn [purge_loop]. rewrite Hc, (proj2 (Z.leb_le _ _)) by done. exists s, wk, 0, vs.
    splits; [right; by rewrite (rep_head _ _ _ (ok_list _ _ _ _ H))|by eexists|lia|]. left. splits; [constructor|by right]. }
  pose proof (ok_linked _ _ _ _ H) as Hl. apply Forall2_cons_inv_l in Hl as (v & vs1 & _ & Hl1 & ->).
  pose proof (purge_step w s m l v vs1 fuel wk H Hc Hms) as Hstep. cbn zeta in Hstep.
  destruct (is_locked s v) eqn:El.
  - destruct Hstep as (s1 & -> & H1 & He1 & Hn1).
    edestruct (IH (mkPurge (if opt_eqb (first l None) (start wk) then None else first l None) (start wk)
                     (scanned wk + 1) (max_scan wk) (locked wk + 1)) s1 (vs1 ++ [v]))
      as (s' & wk' & e & vs' & -> & Hh' & Hok' & Hn' & Hm' & Hs' & Hres).
    + by eexists.
    + unfold at_head. cbn [current]. destruct (opt_eqb (first l None) (start wk)); [by left|].
      destruct l; [by left|right]. by rewrite (rep_head _ _ _ (ok_list _ _ _ _ H1)).
    + cbn. lia.
    + cbn in Hm', Hs', Hres. assert (is_locked s1 = is_locked s) as Els by (unfold is_locked; by rewrite He1).
      rewrite Els in Hres. exists s', wk', e, vs'. splits; [congruence|lia..|].
      destruct Hres as [(-> & Hr & ?)|(? & ? & Hr)]; [left|right]; splits; by constructor.
  - destruct Hstep as (s1 & -> & H1 & Hh1 & Hn1). eexists s1, _, v, vs1. split; [done|]. splits.
    + unfold at_head. cbn [current]. destruct (opt_eqb (first l None) (start wk)); [by left|]. right. by rewrite Hh1.
    + cbn. lia.
    + cbn. lia.
    + right. splits; [|constructor]. intros ->. apply (ok_zero _ _ _ _ H), elem_of_cons. by left.
Qed.

(** A scan that started at the head reaches the first entry that is not
    locked: the nodes already seen, [dn], begin with the start node. *)
Lemma purge_pass w e post pre : forall fuel wk s l1 m l2 dn dvs,
  lru_rep w s ((l1 ++ m :: l2) ++ dn) ((pre ++ e :: post) ++ dvs) -> length l1 = length pre -> length dn = length dvs ->
  Forall (fun v => is_locked s v = true) pre -> is_locked s e = false ->
  current wk = first ((l1 ++ m :: l2) ++ dn) None -> start wk = first (dn ++ l1 ++ m :: l2) None ->
  (length pre < fuel)%nat -> Z.of_nat (length pre) < max_scan wk - scanned wk ->
  exists s' wk', purge_loop fuel wk s = Some (s', wk', e) /\ lru_ok w s' (post ++ dvs ++ pre).
Proof.
  induction pre as [|v pre IH]; intros fuel wk s l1 m l2 dn dvs H Hl1 Hdn Hpre He Hc Hst Hf Hms;
    destruct fuel as [|fuel]; cbn [length] in *; try lia.
  - destruct l1; [|done]. cbn [app] in H, Hc.
    pose proof (purge_step w s m (l2 ++ dn) e (post ++ dvs) fuel wk H Hc ltac:(lia)) as Hs. cbn zeta in Hs.
    rewrite He in Hs. destruct Hs as (s1 & -> & Hok & _). rewrite app_nil_r. eauto.
  - destruct l1 as [|p l1]; [done|]. cbn [app] in H, Hc. apply Forall_cons in Hpre as [Hv Hpre].
    pose proof (purge_step w s p ((l1 ++ m :: l2) ++ dn) v ((pre ++ e :: post) ++ dvs) fuel wk H Hc ltac:(lia)) as Hs.
    cbn zeta in Hs. rewrite Hv in Hs. destruct Hs as (s1 & -> & Hok & He1 & _).
    assert (is_locked s1 = is_locked s) as Els by (unfold is_locked; by rewrite He1).
    assert (opt_eqb (first ((l1 ++ m :: l2) ++ dn) None) (start wk) = false) as ->.
    { rewrite Hst. pose proof (rep_nodup _ _ _ (ok_list _ _ _ _ H)) as Hnd.
      apply NoDup_cons in Hnd as [Hp Hnd]. apply NoDup_app in Hnd as (_ & Hx & _).
      assert (exists q, first ((l1 ++ m :: l2) ++ dn) None = Some q /\ q ∈ l1 ++ m :: l2) as (q & -> & Hq).
      { destruct l1 as [|r l1]; [exists m|exists r]; (split; [done|]); [by apply elem_of_cons; left|].
        by apply elem_of_cons; left. }
      apply opt_eqb_false. destruct dn as [|d dn]; cbn; intros [= ->].
      - apply Hp. apply elem_of_app. by left.
      - apply (Hx _ Hq), elem_of_cons. by left. }
    rewrite <- !app_assoc in Hok. rewrite (app_assoc l1), (app_assoc pre) in Hok.
    destruct (IH fuel (mkPurge (first ((l1 ++ m :: l2) ++ dn) None) (start wk) (scanned wk + 1) (max_scan wk) (locked wk + 1))
                s1 l1 m l2 (dn ++ [p]) (dvs ++ [v])) as (s' & wk' & E & Hok'); cbn [current start scanned max_scan].
    + rewrite <- !app_assoc in Hok |- *. exact Hok.
    + cbn [length] in Hl1. lia.
    + rewrite !length_app. cbn. lia.
    + by rewrite Els.
    + by rewrite Els.
    + destruct l1; by cbn.
    + rewrite Hst. destruct dn; by cbn.
    + lia.
    + lia.
    + exists s', wk'. split; [done|]. by rewrite <- (app_assoc dvs) in Hok'.
Qed.

(** ** Properties *)

(** The policy keeps its entries in the order of their last use: adding
    puts an entry last, a reference moves it to the end, removing takes it out,
    each in its place in the list and with the pointers between entries and
    nodes intact; entries the policy does not have are left alone. *)
Theorem lru_order w s vs e en :
  lru_ok w s vs -> entries s !! e = Some en -> is_Some (node_of w en) ->
  (forall m, e <> 0 -> node_of w en = Some None -> lru_nodes s !! m = None ->
     exists s', lru_add e w m s = Some s' /\ lru_ok w s' (vs ++ [e])) /\
  (exists s', lru_referenced e w s = Some s' /\
     ((e ∉ vs /\ s' = s) \/ exists v1 v2, vs = v1 ++ e :: v2 /\ lru_ok w s' ((v1 ++ v2) ++ [e]))) /\
  (exists s', lru_remove e w s = Some s' /\
     ((e ∉ vs /\ s' = s) \/ exists v1 v2, vs = v1 ++ e :: v2 /\ lru_ok w s' (v1 ++ v2))).
Proof.
  intros H He Hn. split; [|split].
  - intros m H0 Hd Hm. destruct (lru_add_ok w s vs e en m) as (s' & ? & ? & _); try done. eauto.
  - destruct (lru_referenced_ok w s vs e en) as (s' & ? & _ & ?); try done. eauto.
  - destruct (lru_remove_ok w s vs e en) as (s' & ? & _ & ?); try done. eauto.
Qed.

(** Two entries on the list, the first of them locked, and one that is not. *)
Definition ent (p : option positive) (lk : Z) : StoreEntry := mkEntry p None 0 0 0 0 lk STORE_OK SWAPOUT_DONE.
Definition st2 : lru :=
  mkLru (list_to_map [(1%positive, mkNode 100 None (Some 2%positive)); (2%positive, mkNode 200 (Some 1%positive) None)])
    (mkList (Some 1%positive) (Some 2%positive)) 2 0 TYPE_STORE_ENTRY
    (list_to_map [(100, ent (Some 1%positive) 1); (200, ent (Some 2%positive) 0); (300, ent None 0)]).

Lemma st2_ok : lru_ok TYPE_STORE_ENTRY st2 [100; 200].
Proof.
  exists [1%positive; 2%positive]. split; try done.
  - split; try done.
    + cbn. split; [by exists 100|]. split; [by exists 200|done].
    + by apply NoDup_cons; split; [intros ?%list_elem_of_singleton|apply NoDup_singleton].
  - apply Forall2_cons. split; [by split; [|eexists]|]. apply Forall2_cons. split; [by split; [|eexists]|by apply Forall2_nil].
  - intros v en Hv Hnv p. unfold st2 in Hv. cbn [entries] in Hv.
    apply elem_of_list_to_map_2 in Hv.
    repeat (apply elem_of_cons in Hv as [Hv|Hv]; [injection Hv as -> ->; try done;
      destruct Hnv; repeat (apply elem_of_cons; first [by left|right])|]).
    by apply elem_of_nil in Hv.
  - by apply NoDup_cons; split; [intros ?%list_elem_of_singleton|apply NoDup_singleton].
  - intros [?|?%list_elem_of_singleton]%elem_of_cons; done.
  - by left.
Qed.

Lemma lru_order_witness :
  (forall m, 300 <> 0 -> node_of TYPE_STORE_ENTRY (ent None 0) = Some None -> lru_nodes st2 !! m = None ->
     exists s', lru_add 300 TYPE_STORE_ENTRY m st2 = Some s' /\ lru_ok TYPE_STORE_ENTRY s' [100; 200; 300]) /\
  (exists s', lru_referenced 300 TYPE_STORE_ENTRY st2 = Some s' /\
     ((300 ∉ [100; 200] /\ s' = st2) \/
      exists v1 v2, [100; 200] = v1 ++ 300 :: v2 /\ lru_ok TYPE_STORE_ENTRY s' ((v1 ++ v2) ++ [300]))) /\
  (exists s', lru_remove 300 TYPE_STORE_ENTRY st2 = Some s' /\
     ((300 ∉ [100; 200] /\ s' = st2) \/
      exists v1 v2, [100; 200] = v1 ++ 300 :: v2 /\ lru_ok TYPE_STORE_ENTRY s' (v1 ++ v2))).
Proof. apply (lru_order TYPE_STORE_ENTRY st2 [100; 200] 300 (ent None 0) st2_ok); [reflexivity|by eexists]. Defined.

(** C40. [lru_purgeNext] returns, after at most [max_scan] steps, either the
    first entry of the list that is not locked, which leaves the policy, or
    nothing after seeing locked entries only; locked entries stay in the
    policy, behind the others and in their order.  A purge that may scan the
    whole list finds the least recently used entry that is not locked. *)
Theorem lru_purge_correct w s vs wk :
  lru_ok w s vs -> at_head wk s ->
  (exists s' wk' e vs', lru_purgeNext wk s = Some (s', wk', e) /\ at_head wk' s' /\ lru_ok w s' vs' /\
     scanned wk' <= Z.max (scanned wk) (max_scan wk) /\
     ((e = 0 /\ vs ≡ₚ vs' /\ rotates (is_locked s) vs vs' /\ (current wk' = None \/ max_scan wk <= scanned wk')) \/
      exists pre post, vs = pre ++ e :: post /\ Forall (fun v => is_locked s v = true) pre /\
        is_locked s e = false /\ vs' = post ++ pre)) /\
  (forall pre e post n, vs = pre ++ e :: post -> Forall (fun v => is_locked s v = true) pre ->
     is_locked s e = false -> Z.of_nat (length pre) < n ->
     let '(s1, wk1) := lru_purgeInit n s in
     exists s' wk', lru_purgeNext wk1 s1 = Some (s', wk', e) /\ lru_ok w s' (post ++ pre)).
Proof.
  intros Hok Hh. split.
  - destruct (purge_loop_ok w (S (Z.to_nat (max_scan wk - scanned wk))) wk s vs Hok Hh ltac:(lia))
      as (s' & wk' & e & vs' & E & Hh' & Hok' & _ & _ & Hsc & Hres).
    exists s', wk', e, vs'. splits; [lia|]. destruct Hres as [(-> & Hr & Hc)|(_ & Hl & Hr)]; [left|right].
    + splits. by eapply rotates_Permutation.
    + destruct (rotates_first _ _ _ _ Hr Hl) as (pre & post & -> & Hp & ->). eauto 10.
  - intros pre e post n -> Hpre He Hn. cbn [lru_purgeInit]. destruct Hok as [l H].
    pose proof (ok_linked _ _ _ _ H) as Hf. apply Forall2_app_inv_r in Hf as (l1 & l' & H1 & H2 & ->).
    apply Forall2_cons_inv_r in H2 as (m & l2 & _ & H2 & ->).
    unfold lru_purgeNext. cbn [max_scan scanned].
    destruct (purge_pass w e post pre (S (Z.to_nat (n - 0))) (mkPurge (head (lru_list s)) (head (lru_list s)) 0 n 0)
                (set_nwalkers (nwalkers s + 1) s) l1 m l2 [] []) as (s' & wk' & E & Hok'); cbn [current start scanned max_scan].
    + rewrite !app_nil_r. destruct H. by split.
    + by eapply Forall2_length.
    + done.
    + done.
    + done.
    + rewrite app_nil_r. apply (rep_head _ _ _ (ok_list _ _ _ _ H)).
    + apply (rep_head _ _ _ (ok_list _ _ _ _ H)).
    + lia.
    + lia.
    + exists s', wk'. by rewrite app_nil_l in Hok'.
Qed.

Lemma lru_purge_witness :
  (exists s' wk' e vs', lru_purgeNext (mkPurge (Some 1%positive) (Some 1%positive) 0 10 0) st2 = Some (s', wk', e) /\
     at_head wk' s' /\ lru_ok TYPE_STORE_ENTRY s' vs' /\ scanned wk' <= Z.max 0 10 /\
     ((e = 0 /\ [100; 200] ≡ₚ vs' /\ rotates (is_locked st2) [100; 200] vs' /\ (current wk' = None \/ 10 <= scanned wk')) \/
      exists pre post, [100; 200] = pre ++ e :: post /\ Forall (fun v => is_locked st2 v = true) pre /\
        is_locked st2 e = false /\ vs' = post ++ pre)) /\
  (forall pre e post n, [100; 200] = pre ++ e :: post -> Forall (fun v => is_locked st2 v = true) pre ->
     is_locked st2 e = false -> Z.of_nat (length pre) < n ->
     let '(s1, wk1) := lru_purgeInit n st2 in
     exists s' wk', lru_purgeNext wk1 s1 = Some (s', wk', e) /\ lru_ok TYPE_STORE_ENTRY s' (post ++ pre)).
Proof.
  apply (lru_purge_correct TYPE_STORE_ENTRY st2 [100; 200] (mkPurge (Some 1%positive) (Some 1%positive) 0 10 0) st2_ok).
  by right.
Defined.

(** [lru_free] refuses exactly the policies that are unused. *)
Lemma lru_free_unused w s vs : lru_ok w s vs -> vs = [] \/ nwalkers s = 0 -> lru_free s = None.
Proof.
  intros [l H] Hv. unfold lru_free. rewrite (ok_count _ _ _ _ H). destruct (nwalkers s =? 0) eqn:E; [done|].
  zify_bools. destruct Hv as [->|]; [done|lia].
Qed.

(** When the entry that was first is purged, locked entries are scanned again
    and again up to [max_scan]: three entries, the last two locked. *)
Definition st3 : lru :=
  mkLru (list_to_map [(1%positive, mkNode 100 None (Some 2%positive));
                      (2%positive, mkNode 200 (Some 1%positive) (Some 3%positive));
                      (3%positive, mkNode 300 (Some 2%positive) None)])
    (mkList (Some 1%positive) (Some 3%positive)) 3 0 TYPE_STORE_ENTRY
    (list_to_map [(100, ent (Some 1%positive) 0); (200, ent (Some 2%positive) 1); (300, ent (Some 3%positive) 1)]).

Lemma lru_purge_rescans :
  (let '(s1, wk1) := lru_purgeInit 50 st3 in
   let? (s2, wk2, e2) := lru_purgeNext wk1 s1 in
   let? (s3, wk3, e3) := lru_purgeNext wk2 s2 in
   Some (e2, e3, locked wk3)) = Some (100, 0, 49).
Proof. vm_compute. reflexivity. Qed.

End ReplLru.
