(* ===== verification/ReplHeap.v ===== *)
(** * The heap replacement policies

    src/repl/heap/store_repl_heap.c with the key functions of
    store_heap_replacement.c over the binary heap of Heap.v.  The heap holds
    addresses of store entries; its key function reads the entries, so the
    model gives the heap the key function of the current entries at each call.
    [exp] of the C library is a parameter.  The queue of locked entries of a
    purge is a list, which Dlink.v shows fifo.c to be. *)

From Stdlib Require Import ZArith Lia SpecFloat Ascii String.
From stdpp Require Import base strings gmap list numbers option fin_maps.
From S2P Require Import Prelude CStr Heap StoreEntry.
Import StoreEntry.

Module ReplHeap.

Inductive key_type := GDSF | LFUDA | LRU.

(** The key type named in the configuration; none and unknown ones are LRU. *)
Definition keytype_of (arg : option bytes) : key_type :=
  match arg with
  | Some a => if bool_decide (a = str "GDSF") then GDSF else if bool_decide (a = str "LFUDA") then LFUDA else LRU
  | None => LRU
  end.

Section keys.
Context (exp : dbl -> dbl) (squid_curtime : Z).

Definition HeapKeyGen_StoreEntry_LFUDA (e : StoreEntry) (age : dbl) : dbl :=
  let tie :=
    if lastref e <=? 0 then dbl_of_Z 0
    else if squid_curtime <=? lastref e then dbl_of_Z 0
    else dbl_sub (dbl_of_Z 1) (exp (dbl_div (dbl_of_Z (lastref e - squid_curtime)) (dbl_of_Z 86400))) in
  dbl_sub (dbl_add age (dbl_of_Z (refcount e))) tie.

Definition HeapKeyGen_StoreEntry_GDSF (e : StoreEntry) (age : dbl) : dbl :=
  let size := if negb (swap_file_sz e =? 0) then dbl_of_Z (swap_file_sz e) else dbl_of_Z 1 in
  let tie := if 1 <? lastref e then dbl_div (dbl_of_Z 1) (dbl_of_Z (lastref e)) else dbl_of_Z 1 in
  dbl_sub (dbl_add age (dbl_div (dbl_of_Z (refcount e)) size)) tie.

Definition HeapKeyGen_StoreEntry_LRU (e : StoreEntry) (age : dbl) : dbl := dbl_of_Z (lastref e).

Definition keyfunc (k : key_type) : StoreEntry -> dbl -> dbl :=
  match k with
  | GDSF => HeapKeyGen_StoreEntry_GDSF
  | LFUDA => HeapKeyGen_StoreEntry_LFUDA
  | LRU => HeapKeyGen_StoreEntry_LRU
  end.
End keys.

Record heap_policy := mkPol {
  hs : Heap.st dbl Z;
  keys : key_type;
  count : Z;
  nwalkers : Z;
  type : entry_type;
  entries : gmap Z StoreEntry
}.

Definition set_hs (h : Heap.st dbl Z) (s : heap_policy) : heap_policy :=
  mkPol h (keys s) (count s) (nwalkers s) (type s) (entries s).
Definition set_count (n : Z) (s : heap_policy) : heap_policy :=
  mkPol (hs s) (keys s) n (nwalkers s) (type s) (entries s).
Definition set_nwalkers (n : Z) (s : heap_policy) : heap_policy :=
  mkPol (hs s) (keys s) (count s) n (type s) (entries s).
Definition set_type (t : entry_type) (s : heap_policy) : heap_policy :=
  mkPol (hs s) (keys s) (count s) (nwalkers s) t (entries s).
Definition set_entries (m : gmap Z StoreEntry) (s : heap_policy) : heap_policy :=
  mkPol (hs s) (keys s) (count s) (nwalkers s) (type s) m.

Definition set_lock (n l : Z) (e : StoreEntry) : StoreEntry :=
  mkEntry (repl e) (mem_obj e) l (refcount e) (swap_file_sz e) (flags e) n (store_status e) (swap_status e).

Section policy.
Context (exp : dbl -> dbl) (squid_curtime : Z).

(** The key function of the entries as they are. *)
Definition gen (k : key_type) (m : gmap Z StoreEntry) (e : Z) (age : dbl) : dbl :=
  match m !! e with
  | Some en => keyfunc exp squid_curtime k en age
  | None => dbl_of_Z 0
  end.

Definition with_gen (s : heap_policy) : Heap.st dbl Z :=
  let h := Heap.hp (hs s) in
  Heap.mk_st (Heap.mk_heap (Heap.size h) (Heap.last h) (gen (keys s) (entries s)) (Heap.age h) (Heap.nodes h))
    (Heap.mem (hs s)).

Definition createRemovalPolicy_heap (arg : option bytes) (m : gmap Z StoreEntry) : heap_policy :=
  let k := keytype_of arg in
  mkPol (Heap.mk_st (Heap.set_age (Heap.new_heap 1000 (gen k m)) (dbl_of_Z 1)) ∅) k 0 0 TYPE_UNKNOWN m.

Definition heap_guessType (en : StoreEntry) (w : entry_type) : option entry_type :=
  match w with
  | TYPE_STORE_ENTRY => Some TYPE_STORE_ENTRY
  | TYPE_STORE_MEM => let? _ := mem_obj en in Some TYPE_STORE_MEM
  | TYPE_UNKNOWN => None
  end.

(** [heap->age += heap->age / 100000000]. *)
Definition age_more (h : Heap.st dbl Z) : Heap.st dbl Z :=
  let a := Heap.age (Heap.hp h) in
  Heap.mk_st (Heap.set_age (Heap.hp h) (dbl_add a (dbl_div a (dbl_of_Z 100000000)))) (Heap.mem h).

(** [m] is the address of the new heap node. *)
Definition heap_add (e : Z) (w : entry_type) (m : loc) (s : heap_policy) : option heap_policy :=
  let? en := entries s !! e in
  let? d := node_of w en in
  assert? bool_decide (d = None) in
  if EBIT_TEST (flags en) ENTRY_SPECIAL then Some s
  else
    let? (h, node) := Heap.heap_insert (with_gen s) m e in
    let? en' := SET_POLICY_NODE w (Some node) en in
    let s := set_count (count s + 1) (set_hs h (set_entries (<[e := en']> (entries s)) s)) in
    let? s := match type s with
              | TYPE_UNKNOWN => let? t := heap_guessType en' w in Some (set_type t s)
              | _ => Some s
              end in
    Some (set_hs (age_more (hs s)) s).

Definition heap_remove (e : Z) (w : entry_type) (s : heap_policy) : option heap_policy :=
  let? en := entries s !! e in
  let? d := node_of w en in
  match d with
  | None => Some s
  | Some m =>
      let? (h, _) := Heap.heap_delete (with_gen s) m in
      let? en' := SET_POLICY_NODE w None en in
      Some (set_count (count s - 1) (set_hs h (set_entries (<[e := en']> (entries s)) s)))
  end.

Definition heap_referenced (e : Z) (w : entry_type) (s : heap_policy) : option heap_policy :=
  let? en := entries s !! e in
  let? d := node_of w en in
  match d with
  | None => Some s
  | Some m => let? (h, _) := Heap.heap_update (with_gen s) m e in Some (set_hs h s)
  end.

(** ** Walking: [current] is an index *)

Definition heap_walkInit (s : heap_policy) : heap_policy * Z := (set_nwalkers (nwalkers s + 1) s, 0).

Definition heap_walkNext (current : Z) (s : heap_policy) : option (Z * option Z) :=
  if Heap.heap_nodes (hs s) <=? current then Some (current, None)
  else let? e := Heap.heap_peep (hs s) current in Some (current + 1, Some e).

Definition heap_walkDone (s : heap_policy) : option heap_policy :=
  assert? 0 <? nwalkers s in Some (set_nwalkers (nwalkers s - 1) s).

(** ** Purging *)

Record purge_walker := mkPurge { locked_entries : list Z; min_age : dbl }.

Definition heap_purgeInit (s : heap_policy) : heap_policy * purge_walker :=
  (set_nwalkers (nwalkers s + 1) s, mkPurge [] (dbl_of_Z 0)).

(** [storeLockObject]: the count and the time of the last reference; the
    policy has no [Referenced] to tell. *)
Definition lock_entry (e : StoreEntry) : StoreEntry :=
  set_lock (wrap_u 16 (lock_count e + 1)) squid_curtime e.

(** The loop at [try_again]: the purged entry, if any. *)
Fixpoint purge_loop (fuel : nat) (w : purge_walker) (s : heap_policy)
    : option (heap_policy * purge_walker * option Z) :=
  match fuel with
  | O => None
  | S fuel =>
      if Heap.heap_nodes (hs s) =? 0 then Some (s, w, None)
      else
        let? age := Heap.heap_peepminkey (hs s) in
        let? (h, r) := Heap.heap_extractmin (hs s) in
        let? e := r in
        let? en := entries s !! e in
        let s := set_hs h s in
        if storeEntryLocked en then
          purge_loop fuel (mkPurge (locked_entries w ++ [e]) (min_age w))
            (set_entries (<[e := lock_entry en]> (entries s)) s)
        else
          let? en' := SET_POLICY_NODE (type s) None en in
          Some (set_entries (<[e := en']> (entries s)) s, mkPurge (locked_entries w) age, Some e)
  end.

Definition heap_purgeNext (w : purge_walker) (s : heap_policy) : option (heap_policy * purge_walker * option Z) :=
  purge_loop (S (Z.to_nat (Heap.heap_nodes (hs s)))) w s.

(** What [storeUnlockObject] does when the lock count falls to zero. *)
Context (last_unlock : Z -> heap_policy -> option heap_policy).

(** Reinsertion of the locked entries; [ms] are the addresses of the new heap
    nodes, one per entry. *)
Fixpoint reinsert_loop (q : list Z) (ms : list loc) (s : heap_policy) : option heap_policy :=
  match q, ms with
  | [], _ => Some s
  | e :: q, m :: ms =>
      let? (h, node) := Heap.heap_insert (with_gen s) m e in
      let? en := entries s !! e in
      let? en := SET_POLICY_NODE (type s) (Some node) en in
      let n := wrap_u 16 (lock_count en - 1) in
      let s := set_hs h (set_entries (<[e := set_lock n (lastref en) en]> (entries s)) s) in
      let? s := (if negb (n =? 0) then Some s else last_unlock e s) in
      reinsert_loop q ms s
  | _ :: _, [] => None
  end.

Definition heap_purgeDone (w : purge_walker) (ms : list loc) (s : heap_policy) : option heap_policy :=
  assert? 0 <? nwalkers s in
  let s := set_nwalkers (nwalkers s - 1) s in
  let s := if SFltb (dbl_of_Z 0) (min_age w)
           then set_hs (Heap.mk_st (Heap.set_age (Heap.hp (hs s)) (min_age w)) (Heap.mem (hs s))) s
           else s in
  reinsert_loop (locked_entries w) ms s.

(** The checks of [heap_free] before the policy data goes. *)
Definition heap_free (s : heap_policy) : option unit :=
  assert? negb (nwalkers s =? 0) in assert? negb (count s =? 0) in Some tt.
End policy.

(** ** Invariant *)

Abbreviation elem := (prod (prod loc dbl) Z).

(** The heap holds [xs] and the entries on it, at place [w], point to their
    heap nodes; [q] are the entries a purge has set aside, whose pointers are
    stale. *)
Record pol_ok (w : entry_type) (q : list Z) (s : heap_policy) (xs : list elem) : Prop := mkPolOk {
  pol_heap : Heap.heap_ok (hs s) xs;
  pol_size : 0 < Heap.size (Heap.hp (hs s));
  pol_link : forall x, x ∈ xs -> exists en, entries s !! Heap.edat x = Some en /\ node_of w en = Some (Some (Heap.eloc x));
  pol_queue : forall v, v ∈ q -> exists en, entries s !! v = Some en /\ is_Some (node_of w en);
  pol_other : forall v en, entries s !! v = Some en -> v ∉ q ++ (Heap.edat <$> xs) -> forall p, node_of w en <> Some (Some p);
  pol_nodup : NoDup (q ++ (Heap.edat <$> xs));
  pol_type : type s = w \/ (type s = TYPE_UNKNOWN /\ q = [] /\ xs = [])
}.

Definition is_locked (s : heap_policy) (e : Z) : bool := from_option storeEntryLocked false (entries s !! e).

(** ** Lemmas *)

(** The invariant of the heap does not depend on the key function and the age. *)
Lemma heap_ok_same (h h' : Heap.st dbl Z) xs :
  Heap.heap_ok h xs -> Heap.size (Heap.hp h') = Heap.size (Heap.hp h) -> Heap.last (Heap.hp h') = Heap.last (Heap.hp h) ->
  Heap.nodes (Heap.hp h') = Heap.nodes (Heap.hp h) -> Heap.mem h' = Heap.mem h -> Heap.heap_ok h' xs.
Proof.
  intros ([H1 H2 H3 H4 H5 H6] & Ho & Hk) E1 E2 E3 E4. split; [|done].
  constructor; rewrite ?E1, ?E2, ?E3, ?E4; done.
Qed.

(** The policy with another heap, entry table and type of the same contents. *)
Lemma elem_perm_dat (xs ys : list elem) : xs ≡ₚ ys -> (Heap.edat <$> xs) ≡ₚ (Heap.edat <$> ys).
Proof. intros H. by apply fmap_Permutation. Qed.

Section proofs.
Context (exp : dbl -> dbl) (squid_curtime : Z) (w : entry_type).
Implicit Types (s : heap_policy) (xs : list elem).

Abbreviation gen := (gen exp squid_curtime).
Abbreviation with_gen := (with_gen exp squid_curtime).

Lemma with_gen_ok s xs : Heap.heap_ok (hs s) xs -> Heap.heap_ok (with_gen s) xs.
Proof. intros H. by eapply heap_ok_same. Qed.

(** The entry a node pointer of the policy belongs to. *)
Lemma pol_at s xs e en m :
  pol_ok w [] s xs -> entries s !! e = Some en -> node_of w en = Some (Some m) ->
  exists k, (m, k, e) ∈ xs.
Proof.
  intros H He Hm. destruct (decide (e ∈ Heap.edat <$> xs)) as [Hin|Hin].
  - apply list_elem_of_fmap in Hin as ([[m' k] e'] & -> & Hx).
    destruct (pol_link _ _ _ _ H _ Hx) as (en' & He' & Hm'). cbn in He', Hm'. cbn in He. exists k.
    rewrite He in He'. injection He' as <-. rewrite Hm in Hm'. by injection Hm' as ->.
  - by destruct (pol_other _ _ _ _ H _ _ He Hin m).
Qed.

(** An entry without a node is not on the heap. *)
Lemma pol_absent s q xs e en : pol_ok w q s xs -> entries s !! e = Some en -> node_of w en = Some None -> e ∉ Heap.edat <$> xs.
Proof.
  intros H He Hn Hin. apply list_elem_of_fmap in Hin as (x & -> & Hx).
  destruct (pol_link _ _ _ _ H _ Hx) as (en' & He' & Hm'). congruence.
Qed.

(** A node is freed when its element leaves the heap, so it belongs to none of
    the others. *)
Lemma locs_differ h xs x y : Heap.heap_ok (K := dbl) (D := Z) h (x :: xs) -> y ∈ xs -> Heap.eloc y <> Heap.eloc x.
Proof.
  intros (Hr & _) Hy E. apply list_elem_of_lookup in Hy as [i Hi]. destruct x as [[l k] d], y as [[l' k'] d']. cbn in E. subst l'.
  pose proof (Heap.rep_inj h ((l, k, d) :: xs) 0 (S i) (l, k, d) (l, k', d') Hr eq_refl Hi eq_refl). done.
Qed.

(** Entry tables that agree on the entries of the heap. *)
Lemma link_ext (m m' : gmap Z StoreEntry) xs :
  (forall x, x ∈ xs -> exists en, m !! Heap.edat x = Some en /\ node_of w en = Some (Some (Heap.eloc x))) ->
  (forall v, v ∈ Heap.edat <$> xs -> m' !! v = m !! v) ->
  forall x, x ∈ xs -> exists en, m' !! Heap.edat x = Some en /\ node_of w en = Some (Some (Heap.eloc x)).
Proof.
  intros H Hm x Hin. rewrite Hm; [by apply H|]. apply list_elem_of_fmap. eauto.
Qed.

(** Memory outside the heap is not touched by an insertion. *)
Lemma fresh_after h xs h' xs' m k e m' :
  Heap.heap_ok (K := dbl) (D := Z) h xs -> Heap.heap_ok h' xs' -> xs' ≡ₚ (m, k, e) :: xs ->
  m' <> m -> Heap.mem h !! m' = None -> Heap.mem h' !! m' = None.
Proof.
  intros [Hr _] [Hr' _] Hp Hne Hm. destruct (Heap.mem h' !! m') as [n|] eqn:E; [|done].
  destruct (Heap.rep_mem _ _ Hr' _ _ E) as [i Hi]. apply list_elem_of_lookup_2 in Hi. rewrite Hp in Hi.
  apply elem_of_cons in Hi as [[= ? ? ?]|Hi]; [done|]. apply list_elem_of_lookup in Hi as [j Hj].
  destruct (Heap.rep_cell _ _ Hr _ _ _ _ Hj) as [_ ?]. congruence.
Qed.

(** Putting an entry on the heap under a new node. *)
Lemma insert_ok s q xs e en m :
  pol_ok w (e :: q) s xs -> entries s !! e = Some en -> Heap.mem (hs s) !! m = None ->
  Z.of_nat (length xs) < Heap.max_nodes -> dbl_nan (gen (keys s) (entries s) e (Heap.age (Heap.hp (hs s)))) = false ->
  type s = w ->
  exists h en' xs', Heap.heap_insert (with_gen s) m e = Some (h, m) /\ SET_POLICY_NODE w (Some m) en = Some en' /\
    xs' ≡ₚ (m, gen (keys s) (entries s) e (Heap.age (Heap.hp (hs s))), e) :: xs /\
    Heap.age (Heap.hp h) = Heap.age (Heap.hp (hs s)) /\
    (forall m', m' <> m -> Heap.mem (hs s) !! m' = None -> Heap.mem h !! m' = None) /\
    forall f, (forall x, node_of w (f x) = node_of w x) ->
      pol_ok w q (set_hs h (set_entries (<[e := f en']> (entries s)) s)) xs'.
Proof.
  intros H He Hm Hlen Hk Ht.
  destruct (Heap.heap_insert_rep (with_gen s) xs m e) as (h & xs' & E & Hok & Hp & Hsz & Hag & Hgk);
    [by apply with_gen_ok, (pol_heap _ _ _ _ H)|apply (pol_size _ _ _ _ H)|done|done|exact Hk|].
  assert (e ∈ e :: q) as Heq by (by apply elem_of_cons; left).
  destruct (pol_queue _ _ _ _ H e Heq) as (en0 & He0 & [d Hd]). rewrite He in He0. injection He0 as <-.
  destruct (SET_POLICY_NODE_ok w (Some m) en d Hd) as (en' & Een & Hen & _).
  exists h, en', xs'. split; [done|]. split; [done|]. split; [exact Hp|].
  split; [exact Hag|]. split; [intros m' ? ?; eapply (fresh_after (hs s) xs); [apply (pol_heap _ _ _ _ H)|exact Hok|exact Hp|done|done]|].
  intros f Hf.
  pose proof (pol_nodup _ _ _ _ H) as Hnd. cbn [app] in Hnd. apply NoDup_cons in Hnd as [Hex Hnd].
  apply not_elem_of_app in Hex as [Heq' Hex].
  assert ((Heap.edat <$> xs') ≡ₚ e :: (Heap.edat <$> xs)) as Hpd by (by rewrite (elem_perm_dat _ _ Hp)).
  split; cbn [hs set_hs set_entries entries type]; try done.
  - intros x Hx. rewrite Hp in Hx. apply elem_of_cons in Hx as [->|Hx].
    + exists (f en'). change (Heap.edat (m, gen (keys s) (entries s) e (Heap.age (Heap.hp (hs s))), e)) with e. map_simpl. by rewrite Hf.
    + eapply (link_ext (entries s)); [apply (pol_link _ _ _ _ H)| |done].
      intros v Hv. apply lookup_insert_ne. by intros ->.
  - intros v Hv. rewrite lookup_insert_ne by (by intros ->).
    apply (pol_queue _ _ _ _ H). by apply elem_of_cons; right.
  - intros v en2 Hv Hnv p. assert (e <> v).
    { intros ->. apply Hnv, elem_of_app. right. rewrite Hpd. by apply elem_of_cons; left. }
    rewrite lookup_insert_ne in Hv by done. apply (pol_other _ _ _ _ H v); [done|].
    rewrite Hpd in Hnv. intros [[?|Hin]%elem_of_cons|Hin]%elem_of_app; [done|..]; apply Hnv, elem_of_app; [by left|right].
    by apply elem_of_cons; right.
  - rewrite Hpd. apply NoDup_app. apply NoDup_app in Hnd as (Hn1 & Hn2 & Hn3).
    split; [done|]. split; [|by apply NoDup_cons]. intros y Hy [->|Hy2]%elem_of_cons; [done|by apply (Hn2 y)].
  - by left.
Qed.

(** Taking an entry off the heap; what becomes of the entry is [en']. *)
Lemma removed_ok s q q' xs x xs' h en' :
  pol_ok w q s xs -> Heap.heap_ok h xs' -> x :: xs' ≡ₚ xs -> 0 < Heap.size (Heap.hp h) ->
  (q' = q /\ node_of w en' = Some None \/ q' = q ++ [Heap.edat x] /\ is_Some (node_of w en')) ->
  pol_ok w q' (set_entries (<[Heap.edat x := en']> (entries s)) (set_hs h s)) xs'.
Proof.
  intros H Hok Hp Hsz Hq.
  assert ((Heap.edat <$> xs) ≡ₚ Heap.edat x :: (Heap.edat <$> xs')) as Hpd by (by rewrite <- (elem_perm_dat _ _ Hp)).
  pose proof (pol_nodup _ _ _ _ H) as Hnd. rewrite Hpd in Hnd. apply NoDup_app in Hnd as (Hn1 & Hn2 & Hn3).
  apply NoDup_cons in Hn3 as [Hx Hn3].
  assert (Heap.edat x ∉ q) as Hxq by (intros Hin; apply (Hn2 _ Hin), elem_of_cons; by left).
  split; cbn [hs set_hs set_entries entries type]; try done.
  - eapply (link_ext (entries s)).
    + intros y Hy. apply (pol_link _ _ _ _ H). rewrite <- Hp. by apply elem_of_cons; right.
    + intros v Hv. apply lookup_insert_ne. intros E. by rewrite E in Hx.
  - intros v Hv. destruct (decide (v = Heap.edat x)) as [->|Hne].
    + exists en'. map_simpl. split; [done|]. destruct Hq as [[-> _]|[_ ?]]; done.
    + rewrite lookup_insert_ne by done. apply (pol_queue _ _ _ _ H).
      destruct Hq as [[-> _]|[-> _]]; [done|]. apply elem_of_app in Hv as [?|?%list_elem_of_singleton]; done.
  - intros v en2 Hv Hnv p. destruct (decide (v = Heap.edat x)) as [->|Hne].
    + rewrite lookup_insert_eq in Hv. injection Hv as <-. destruct Hq as [[_ ->]|[-> _]]; [done|].
      destruct Hnv. apply elem_of_app. left. apply elem_of_app. right. by apply list_elem_of_singleton.
    + rewrite lookup_insert_ne in Hv by done. apply (pol_other _ _ _ _ H v); [done|]. rewrite Hpd.
      intros [Hin|[?|Hin]%elem_of_cons]%elem_of_app; [|done|]; apply Hnv, elem_of_app; [left|by right].
      destruct Hq as [[-> _]|[-> _]]; [done|]. apply elem_of_app. by left.
  - destruct Hq as [[-> _]|[-> _]].
    + apply NoDup_app. splits. intros y Hy Hy2. apply (Hn2 _ Hy), elem_of_cons. by right.
    + rewrite <- app_assoc. apply NoDup_app. splits; cbn [app]. by apply NoDup_cons.
  - destruct (pol_type _ _ _ _ H) as [?|(_ & _ & ->)]; [by left|]. symmetry in Hp. by apply Permutation_nil_l in Hp.
Qed.

(** The entries whose lock state a purge step leaves alone. *)
Lemma is_locked_ne s e en h v :
  v <> e -> is_locked (set_entries (<[e := en]> (entries s)) (set_hs h s)) v = is_locked s v.
Proof. intros Hv. unfold is_locked. cbn. by rewrite lookup_insert_ne. Qed.

Definition purge_result (q : list Z) s xs (r : option (heap_policy * purge_walker * option Z)) : Prop :=
  exists s' wk' res lks, r = Some (s', wk', res) /\
    Forall (fun y => is_locked s (Heap.edat y) = true) lks /\ locked_entries wk' = q ++ (Heap.edat <$> lks) /\
    nwalkers s' = nwalkers s /\
    match res with
    | None => lks ≡ₚ xs /\ pol_ok w (locked_entries wk') s' []
    | Some e => exists x xs', e = Heap.edat x /\ x :: lks ++ xs' ≡ₚ xs /\ is_locked s e = false /\
        (forall y, y ∈ xs' -> SFleb (Heap.ekey x) (Heap.ekey y) = true) /\ min_age wk' = Heap.ekey x /\
        pol_ok w (locked_entries wk') s' xs'
    end.

Lemma heap_purge_loop_ok fuel : forall wk s xs,
  pol_ok w (locked_entries wk) s xs -> (length xs < fuel)%nat ->
  purge_result (locked_entries wk) s xs (purge_loop squid_curtime fuel wk s).
Proof.
  induction fuel as [|fuel IH]; intros wk s xs H Hf; [lia|]. cbn [purge_loop].
  pose proof (Heap.rep_last _ _ (proj1 (pol_heap _ _ _ _ H))) as Hlast. unfold Heap.heap_nodes. rewrite Hlast.
  destruct (decide (xs = [])) as [->|Hne].
  { cbn. exists s, wk, None, []. splits. by rewrite app_nil_r. }
  rewrite (proj2 (Z.eqb_neq _ 0)) by (destruct xs; cbn; [done|lia]).
  destruct (Heap.heap_extractmin_rep (hs s) xs (pol_heap _ _ _ _ H) Hne)
    as (h & xs' & x & E & Hok & Hp & Hpk & Hmin & Hsz & _). rewrite Hpk. bind_simpl. rewrite E. bind_simpl.
  assert (x ∈ xs) as Hx by (rewrite <- Hp; by apply elem_of_cons; left).
  destruct (pol_link _ _ _ _ H x Hx) as (en & He & Hn). rewrite He. bind_simpl. cbn [entries set_hs type].
  assert (0 < Heap.size (Heap.hp h)) as Hsz' by (rewrite Hsz; apply (pol_size _ _ _ _ H)).
  assert (is_locked s (Heap.edat x) = storeEntryLocked en) as Hlk by (unfold is_locked; by rewrite He).
  assert ((Heap.edat <$> xs) ≡ₚ Heap.edat x :: (Heap.edat <$> xs')) as Hpd by (by rewrite <- (elem_perm_dat _ _ Hp)).
  assert (forall y, y ∈ xs' -> Heap.edat y <> Heap.edat x) as Hdiff.
  { intros y Hy Eq. pose proof (pol_nodup _ _ _ _ H) as Hnd. rewrite Hpd in Hnd.
    apply NoDup_app in Hnd as (_ & _ & [Hnx _]%NoDup_cons). apply Hnx, list_elem_of_fmap. eauto. }
  destruct (storeEntryLocked en) eqn:El.
  - set (s1 := set_entries (<[Heap.edat x := lock_entry squid_curtime en]> (entries s)) (set_hs h s)).
    destruct (IH (mkPurge (locked_entries wk ++ [Heap.edat x]) (min_age wk)) s1 xs')
      as (s' & wk' & res & lks & Er & Hl & Hq & Hw & Hres).
    + apply (removed_ok s (locked_entries wk) _ xs x); try done. right. split; [done|]. exists (Some (Heap.eloc x)).
      by destruct w.
    + apply Permutation_length in Hp. cbn in Hp. lia.
    + cbn [locked_entries] in Hq. rewrite Er.
      assert (forall y, y ∈ xs' -> is_locked s1 (Heap.edat y) = is_locked s (Heap.edat y)) as Hsame.
      { intros y Hy. apply is_locked_ne. by apply Hdiff. }
      assert (forall y, y ∈ lks -> y ∈ xs') as Hsub.
      { intros y Hy. destruct res as [e|]; [|by rewrite <- (proj1 Hres)].
        destruct Hres as (x2 & xs2 & _ & Hp2 & _). rewrite <- Hp2. apply elem_of_cons. right. apply elem_of_app. by left. }
      exists s', wk', res, (x :: lks). splits.
      * constructor; [done|]. apply Forall_forall. intros y Hy. rewrite <- Hsame by (by apply Hsub).
        by apply (proj1 (Forall_forall _ _) Hl).
      * rewrite Hq. cbn. by rewrite <- app_assoc.
      * destruct res as [e|].
        -- destruct Hres as (x2 & xs2 & -> & Hp2 & Hl2 & Hm2 & Ha2 & Hok2). exists x2, xs2. splits.
           ++ rewrite <- Hp, <- Hp2. cbn [app]. apply perm_swap.
           ++ rewrite <- Hsame; [done|]. rewrite <- Hp2. by apply elem_of_cons; left.
        -- destruct Hres as [Hp2 Hok2]. split; [|done]. by rewrite Hp2.
  - assert (type s = w) as -> by (by destruct (pol_type _ _ _ _ H) as [?|(_ & _ & ?)]).
    destruct (SET_POLICY_NODE_ok w None en _ Hn) as (en' & -> & Hen & _). bind_simpl.
    eexists _, (mkPurge (locked_entries wk) (Heap.ekey x)), _, []. split; [done|]. cbn [locked_entries min_age]. splits.
    + by rewrite app_nil_r.
    + exists x, xs'. splits.
      * intros y Hy. apply Hmin. rewrite <- Hp. by apply elem_of_cons; right.
      * apply (removed_ok s (locked_entries wk) _ xs x); try done. by left.
Qed.

(** Rewriting with the entry a node is set in, for any spelling of the node's type. *)
Ltac set_node E :=
  match goal with |- context [SET_POLICY_NODE ?a ?b ?c] =>
    match type of E with _ = ?r => replace (SET_POLICY_NODE a b c) with r by (symmetry; exact E) end end.

(** An entry that can be put back: it stays locked and its key is a number. *)
Definition returnable s (v : Z) : Prop :=
  exists en, entries s !! v = Some en /\ 2 <= lock_count en < 2 ^ 16 /\
    dbl_nan (keyfunc exp squid_curtime (keys s) en (Heap.age (Heap.hp (hs s)))) = false.

Lemma reinsert_loop_ok last_unlock q : forall ms s xs,
  pol_ok w q s xs -> type s = w -> length ms = length q -> NoDup ms -> (forall m, m ∈ ms -> Heap.mem (hs s) !! m = None) ->
  Z.of_nat (length xs + length q) <= Heap.max_nodes -> (forall v, v ∈ q -> returnable s v) ->
  exists s' xs', reinsert_loop exp squid_curtime last_unlock q ms s = Some s' /\ pol_ok w [] s' xs' /\
    (Heap.edat <$> xs') ≡ₚ q ++ (Heap.edat <$> xs) /\
    (forall v, v ∉ q -> entries s' !! v = entries s !! v) /\
    (forall v, v ∈ q -> exists en en', entries s !! v = Some en /\ entries s' !! v = Some en' /\
       lock_count en' = lock_count en - 1).
Proof.
  induction q as [|e q IH]; intros ms s xs H Ht Hlen Hnd Hms Hmax Hret.
  { exists s, xs. splits. intros v Hv. by apply elem_of_nil in Hv. }
  destruct ms as [|m ms]; [done|]. cbn [reinsert_loop]. apply NoDup_cons in Hnd as [Hm Hnd].
  destruct (Hret e ltac:(by apply elem_of_cons; left)) as (en & He & Hlc & Hk).
  destruct (insert_ok s q xs e en m) as (h & en' & xs1 & -> & Een & Hp & Hag & Hfr & Hok); try done.
  { apply Hms. by apply elem_of_cons; left. }
  { cbn [length] in Hmax. lia. }
  { unfold ReplHeap.gen. by rewrite He. }
  bind_simpl. rewrite He. bind_simpl. rewrite Ht. set_node Een. bind_simpl.
  assert (lock_count en' = lock_count en) as Elc.
  { destruct w; cbn in Een; [by injection Een as <-|by injection Een as <-|]. destruct (mem_obj en); [|done]. by injection Een as <-. }
  rewrite Elc. rewrite wrap_u_small by lia. rewrite (proj2 (Z.eqb_neq (lock_count en - 1) 0)) by lia. cbn [negb]. bind_simpl.
  set (f := set_lock (lock_count en - 1) (lastref en')).
  specialize (Hok f ltac:(by destruct w)).
  set (s1 := set_hs h (set_entries (<[e := f en']> (entries s)) s)) in *.
  pose proof (pol_nodup _ _ _ _ H) as Hnq. cbn [app] in Hnq. apply NoDup_cons in Hnq as [Heq Hnq].
  apply not_elem_of_app in Heq as [Heq Hexs].
  destruct (IH ms s1 xs1) as (s' & xs' & E & Hok' & Hpd & Ho & Hl); try done.
  - cbn [length] in Hlen. lia.
  - intros m' Hm'. apply Hfr; [by intros ->|]. apply Hms. by apply elem_of_cons; right.
  - apply Permutation_length in Hp. cbn [length] in Hp, Hmax. lia.
  - intros v Hv. destruct (Hret v ltac:(by apply elem_of_cons; right)) as (env & Hev & Hlv & Hkv).
    exists env. unfold s1. cbn [entries set_hs set_entries keys hs]. rewrite Hag.
    rewrite lookup_insert_ne by (by intros ->). done.
  - exists s', xs'. splits.
    + rewrite Hpd, (elem_perm_dat _ _ Hp). symmetry. apply (Permutation_middle q _ e).
    + intros v Hv. apply not_elem_of_cons in Hv as [Hne Hv]. rewrite Ho by done.
      unfold s1. cbn. by rewrite lookup_insert_ne by done.
    + intros v [->|Hv]%elem_of_cons.
      * exists en, (f en'). rewrite Ho by done. unfold s1. cbn. map_simpl. splits.
      * destruct (Hl v Hv) as (a & b & Ha & Hb & Hab). exists a, b. splits.
        unfold s1 in Ha. cbn in Ha. rewrite lookup_insert_ne in Ha by (by intros ->). done.
Qed.

Lemma heap_add_ok s xs e en m :
  pol_ok w [] s xs -> entries s !! e = Some en -> node_of w en = Some None -> Heap.mem (hs s) !! m = None ->
  Z.of_nat (length xs) < Heap.max_nodes -> dbl_nan (gen (keys s) (entries s) e (Heap.age (Heap.hp (hs s)))) = false ->
  exists s' xs', heap_add exp squid_curtime e w m s = Some s' /\ pol_ok w [] s' xs' /\
    (if EBIT_TEST (flags en) ENTRY_SPECIAL then s' = s /\ xs' = xs
     else xs' ≡ₚ (m, gen (keys s) (entries s) e (Heap.age (Heap.hp (hs s))), e) :: xs).
Proof.
  intros H He Hn Hm Hlen Hk. unfold heap_add. rewrite He. bind_simpl. rewrite Hn. bind_simpl.
  rewrite bool_decide_eq_true_2 by done. destruct (EBIT_TEST (flags en) ENTRY_SPECIAL) eqn:Esp; [by exists s, xs|].
  pose proof (pol_absent _ _ _ _ _ H He Hn) as Habs.
  assert (pol_ok w [e] (set_type w s) xs) as H1.
  { destruct H as [A1 A2 A3 A4 A5 A6 A7]. split; cbn; try done.
    - intros v ->%list_elem_of_singleton. eauto.
    - intros v env Hv Hnv. apply A5 with v; [done|]. intros Hin. apply Hnv. by apply elem_of_cons; right.
    - apply NoDup_cons. done.
    - by left. }
  destruct (insert_ok (set_type w s) [] xs e en m H1) as (h & en' & xs' & E & Een & Hp & _ & _ & Hok); try done.
  change (with_gen (set_type w s)) with (with_gen s) in E. rewrite E. bind_simpl. set_node Een. bind_simpl.
  specialize (Hok (fun x => x) ltac:(done)).
  assert (pol_ok w [] (set_count (count s + 1) (set_hs h (set_entries (<[e := en']> (entries s)) (set_type w s)))) xs') as Hok1
    by (destruct Hok; by split).
  destruct (SET_POLICY_NODE_ok w (Some m) en _ Hn) as (en2 & Een2 & Hen2 & _).
  rewrite Een in Een2. injection Een2 as <-.
  set (s1 := set_count (count s + 1) (set_hs h (set_entries (<[e := en']> (entries s)) s))).
  assert (match type s1 with
          | TYPE_UNKNOWN => let? t := heap_guessType en' w in Some (set_type t s1)
          | _ => Some s1
          end = Some (set_type w s1)) as ->.
  { cbn [type s1 set_count set_hs set_entries]. destruct (pol_type _ _ _ _ H) as [Et|(-> & _)].
    - assert (set_type w s1 = s1) as -> by (unfold s1, set_type; cbn; by rewrite <- Et).
      rewrite Et. by destruct w.
    - assert (heap_guessType en' w = Some w) as ->; [|done]. destruct w; [done|done|]. cbn in Hen2 |- *. by rewrite Hen2. }
  bind_simpl. eexists _, xs'. split; [done|]. split; [|exact Hp].
  destruct Hok1 as [A1 A2 A3 A4 A5 A6 A7]. split; try done. by eapply heap_ok_same.
Qed.

Lemma heap_remove_ok s xs e en :
  pol_ok w [] s xs -> entries s !! e = Some en -> is_Some (node_of w en) ->
  exists s' xs', heap_remove exp squid_curtime e w s = Some s' /\ pol_ok w [] s' xs' /\
    (node_of w en = Some None /\ s' = s /\ xs' = xs \/
     exists m k, node_of w en = Some (Some m) /\ (m, k, e) :: xs' ≡ₚ xs).
Proof.
  intros H He [d Hd]. unfold heap_remove. rewrite He. bind_simpl. rewrite Hd. bind_simpl.
  destruct d as [m|]; [|exists s, xs; splits; by left].
  destruct (pol_at _ _ _ _ _ H He Hd) as [k Hx].
  destruct (Heap.heap_delete_rep (with_gen s) xs (m, k, e)) as (h & xs' & E & Hok & Hp & Hsz & _); try done.
  { by apply with_gen_ok, (pol_heap _ _ _ _ H). }
  cbn [Heap.eloc fst] in E. rewrite E. bind_simpl.
  destruct (SET_POLICY_NODE_ok w None en _ Hd) as (en' & -> & Hen & _). bind_simpl.
  eexists _, xs'. split; [done|]. split; [|right; eauto].
  pose proof (removed_ok s [] [] xs (m, k, e) xs' h en' H Hok Hp) as Hr.
  destruct Hr as [A1 A2 A3 A4 A5 A6 A7]; [rewrite Hsz; apply (pol_size _ _ _ _ H)|by left|]. by split.
Qed.

Lemma heap_referenced_ok s xs e en :
  pol_ok w [] s xs -> entries s !! e = Some en -> is_Some (node_of w en) ->
  dbl_nan (gen (keys s) (entries s) e (Heap.age (Heap.hp (hs s)))) = false ->
  exists s' xs', heap_referenced exp squid_curtime e w s = Some s' /\ pol_ok w [] s' xs' /\
    (node_of w en = Some None /\ s' = s /\ xs' = xs \/
     exists m k ys, node_of w en = Some (Some m) /\ xs ≡ₚ (m, k, e) :: ys /\
       xs' ≡ₚ (m, gen (keys s) (entries s) e (Heap.age (Heap.hp (hs s))), e) :: ys).
Proof.
  intros H He [d Hd] Hk. unfold heap_referenced. rewrite He. bind_simpl. rewrite Hd. bind_simpl.
  destruct d as [m|]; [|exists s, xs; splits; by left].
  destruct (pol_at _ _ _ _ _ H He Hd) as [k Hx].
  destruct (Heap.heap_update_rep (with_gen s) xs m k e e) as (h & xs' & ys & -> & Hok & Hp & Hp' & Hsz & _); try done.
  { by apply with_gen_ok, (pol_heap _ _ _ _ H). }
  bind_simpl. eexists _, xs'. split; [done|]. split; [|right; eauto 10].
  assert ((Heap.edat <$> xs') ≡ₚ (Heap.edat <$> xs)) as Hpd.
  { by rewrite (elem_perm_dat _ _ Hp), (elem_perm_dat _ _ Hp'). }
  destruct H as [A1 A2 A3 A4 A5 A6 A7]. split; cbn; try done.
  - by rewrite Hsz.
  - intros x Hx'. rewrite Hp' in Hx'. apply elem_of_cons in Hx' as [->|Hx'].
    + apply (A3 (m, k, e) Hx).
    + apply A3. rewrite Hp. by apply elem_of_cons; right.
  - intros v env Hv Hnv. apply A5 with v; [done|]. cbn [app] in *. by rewrite <- Hpd.
  - cbn [app] in A6. by rewrite Hpd.
  - destruct A7 as [?|(? & _ & ->)]; [by left|]. by apply elem_of_nil in Hx.
Qed.
End proofs.

(** ** Properties *)

(** Adding, dereferencing and removing an entry keep the heap policy in
    order: the heap holds exactly the entries added (special ones are left
    out), each once, under the key computed from the entry at its last use, and
    each entry points to its own heap node. *)
Theorem heap_policy_ops exp now w s xs e en :
  pol_ok w [] s xs -> entries s !! e = Some en -> is_Some (node_of w en) ->
  Z.of_nat (length xs) < Heap.max_nodes ->
  let key := gen exp now (keys s) (entries s) e (Heap.age (Heap.hp (hs s))) in
  dbl_nan key = false ->
  (forall m, node_of w en = Some None -> Heap.mem (hs s) !! m = None ->
     exists s' xs', heap_add exp now e w m s = Some s' /\ pol_ok w [] s' xs' /\
       (if EBIT_TEST (flags en) ENTRY_SPECIAL then s' = s /\ xs' = xs else xs' ≡ₚ (m, key, e) :: xs)) /\
  (exists s' xs', heap_referenced exp now e w s = Some s' /\ pol_ok w [] s' xs' /\
     (node_of w en = Some None /\ s' = s /\ xs' = xs \/
      exists m k ys, node_of w en = Some (Some m) /\ xs ≡ₚ (m, k, e) :: ys /\ xs' ≡ₚ (m, key, e) :: ys)) /\
  (exists s' xs', heap_remove exp now e w s = Some s' /\ pol_ok w [] s' xs' /\
     (node_of w en = Some None /\ s' = s /\ xs' = xs \/
      exists m k, node_of w en = Some (Some m) /\ (m, k, e) :: xs' ≡ₚ xs)).
Proof.
  intros H He Hn Hlen key Hk. split; [|split].
  - intros m Hm Hmm. by apply heap_add_ok.
  - by apply heap_referenced_ok.
  - by apply heap_remove_ok.
Qed.

(** An LRU-keyed policy with two entries on its heap and one that is not. *)
Definition ent (p : option positive) (lk ref : Z) : StoreEntry := mkEntry p None ref 1 100 0 lk STORE_OK SWAPOUT_DONE.
Definition noexp (x : dbl) : dbl := x.
Definition pol0 : heap_policy :=
  createRemovalPolicy_heap noexp 50 None (list_to_map [(100, ent None 1 10); (200, ent None 0 20); (300, ent None 0 30)]).
Definition pol1 : heap_policy := default pol0 (heap_add noexp 50 100 TYPE_STORE_ENTRY 1%positive pol0).
Definition pol2 : heap_policy :=
  set_nwalkers 1 (default pol0 (heap_add noexp 50 200 TYPE_STORE_ENTRY 2%positive pol1)).

Lemma heap_create_ok exp now arg m w :
  (forall v en, m !! v = Some en -> forall p, node_of w en <> Some (Some p)) ->
  pol_ok w [] (createRemovalPolicy_heap exp now arg m) [].
Proof.
  intros Hm. split.
  - eapply heap_ok_same; [apply (Heap.new_heap_ok 1000 (gen exp now LRU ∅))|done..].
  - done.
  - intros x Hx. by apply elem_of_nil in Hx.
  - intros v Hv. by apply elem_of_nil in Hv.
  - intros v en Hv _. by eapply Hm.
  - apply NoDup_nil_2.
  - by right.
Qed.

Lemma pol0_ok : pol_ok TYPE_STORE_ENTRY [] pol0 [].
Proof.
  apply heap_create_ok. intros v en Hv. apply elem_of_list_to_map_2 in Hv.
  repeat (apply elem_of_cons in Hv as [Hv|Hv]; [by injection Hv as -> ->|]). by apply elem_of_nil in Hv.
Qed.

Lemma pol1_ok : exists xs, pol_ok TYPE_STORE_ENTRY [] pol1 xs /\ length xs = 1%nat.
Proof.
  destruct (heap_add_ok noexp 50 _ pol0 [] 100 (ent None 1 10) 1%positive pol0_ok) as (s1 & xs1 & E1 & H1 & Hp1);
    [by vm_compute..|].
  exists xs1. unfold pol1. rewrite E1. split; [done|].
  change (EBIT_TEST (flags (ent None 1 10)) ENTRY_SPECIAL) with false in Hp1. cbn [negb] in Hp1. by rewrite Hp1.
Qed.

Lemma pol2_ok : exists xs, pol_ok TYPE_STORE_ENTRY [] pol2 xs /\ length xs = 2%nat.
Proof.
  destruct pol1_ok as (xs1 & H1 & Hl1).
  destruct (heap_add_ok noexp 50 _ pol1 xs1 200 (ent None 0 20) 2%positive H1) as (s2 & xs2 & E2 & H2 & Hp2);
    [by vm_compute..|rewrite Hl1; by vm_compute|by vm_compute|].
  exists xs2. unfold pol2. rewrite E2. split; [destruct H2 as [A1 A2 A3 A4 A5 A6 A7]; by split|].
  change (EBIT_TEST (flags (ent None 0 20)) ENTRY_SPECIAL) with false in Hp2. rewrite Hp2. cbn [length]. by rewrite Hl1.
Qed.

Lemma heap_policy_ops_witness :
  exists xs, pol_ok TYPE_STORE_ENTRY [] pol2 xs /\
  let key := gen noexp 50 (keys pol2) (entries pol2) 300 (Heap.age (Heap.hp (hs pol2))) in
  (forall m, node_of TYPE_STORE_ENTRY (ent None 0 30) = Some None -> Heap.mem (hs pol2) !! m = None ->
     exists s' xs', heap_add noexp 50 300 TYPE_STORE_ENTRY m pol2 = Some s' /\ pol_ok TYPE_STORE_ENTRY [] s' xs' /\
       (if EBIT_TEST (flags (ent None 0 30)) ENTRY_SPECIAL then s' = pol2 /\ xs' = xs else xs' ≡ₚ (m, key, 300) :: xs)) /\
  (exists s' xs', heap_referenced noexp 50 300 TYPE_STORE_ENTRY pol2 = Some s' /\ pol_ok TYPE_STORE_ENTRY [] s' xs' /\
     (node_of TYPE_STORE_ENTRY (ent None 0 30) = Some None /\ s' = pol2 /\ xs' = xs \/
      exists m k ys, node_of TYPE_STORE_ENTRY (ent None 0 30) = Some (Some m) /\ xs ≡ₚ (m, k, 300) :: ys /\ xs' ≡ₚ (m, key, 300) :: ys)) /\
  (exists s' xs', heap_remove noexp 50 300 TYPE_STORE_ENTRY pol2 = Some s' /\ pol_ok TYPE_STORE_ENTRY [] s' xs' /\
     (node_of TYPE_STORE_ENTRY (ent None 0 30) = Some None /\ s' = pol2 /\ xs' = xs \/
      exists m k, node_of TYPE_STORE_ENTRY (ent None 0 30) = Some (Some m) /\ (m, k, 300) :: xs' ≡ₚ xs)).
Proof.
  destruct pol2_ok as (xs & H & Hl). exists xs. split; [exact H|].
  apply (heap_policy_ops noexp 50 TYPE_STORE_ENTRY pol2 xs 300 (ent None 0 30) H);
    [by vm_compute|by eexists|rewrite Hl; by vm_compute|by vm_compute].
Defined.

(** [heap_purgeNext] ends and takes the entry with the smallest key among
    those that are not locked, setting aside in key order the locked ones it
    meets; it returns nothing only when every entry on the heap is locked.
    Setting aside and purging keep the policy in order. *)
Theorem heap_purgeNext_correct now w s xs wk :
  pol_ok w (locked_entries wk) s xs ->
  exists s' wk' res lks, heap_purgeNext now wk s = Some (s', wk', res) /\
    Forall (fun y => is_locked s (Heap.edat y) = true) lks /\
    locked_entries wk' = locked_entries wk ++ (Heap.edat <$> lks) /\
    match res with
    | None => lks ≡ₚ xs /\ pol_ok w (locked_entries wk') s' []
    | Some e => exists x xs', e = Heap.edat x /\ x :: lks ++ xs' ≡ₚ xs /\ is_locked s e = false /\
        (forall y, y ∈ xs -> is_locked s (Heap.edat y) = false -> SFleb (Heap.ekey x) (Heap.ekey y) = true) /\
        min_age wk' = Heap.ekey x /\ pol_ok w (locked_entries wk') s' xs'
    end.
Proof.
  intros H. unfold heap_purgeNext, Heap.heap_nodes. rewrite (Heap.rep_last _ _ (proj1 (pol_heap _ _ _ _ H))), Nat2Z.id.
  destruct (heap_purge_loop_ok now w (S (length xs)) wk s xs H ltac:(lia)) as (s' & wk' & res & lks & E & Hl & Hq & _ & Hres).
  exists s', wk', res, lks. splits. destruct res as [e|]; [|done].
  destruct Hres as (x & xs' & -> & Hp & Hlx & Hmin & Ha & Hok). exists x, xs'. splits.
  intros y Hy Hly. rewrite <- Hp in Hy. apply elem_of_cons in Hy as [->|Hy].
  - destruct (proj2 (pol_heap _ _ _ _ H)) as [_ Hk]. rewrite <- Hp in Hk. apply Forall_cons in Hk as [Hk _].
    by destruct (@kle_total dbl dbl_heap_key dbl_heap_key_laws _ _ Hk Hk).
  - apply elem_of_app in Hy as [Hy|Hy]; [|by apply Hmin].
    pose proof (proj1 (Forall_forall _ _) Hl y Hy) as Hly'.
    exfalso. pose proof (eq_trans (eq_sym Hly) Hly') as Hc. discriminate Hc.
Qed.

Lemma heap_purgeNext_witness :
  exists xs s' wk' res lks, heap_purgeNext 50 (mkPurge [] (dbl_of_Z 0)) pol2 = Some (s', wk', res) /\
    Forall (fun y => is_locked pol2 (Heap.edat y) = true) lks /\ locked_entries wk' = [] ++ (Heap.edat <$> lks) /\
    match res with
    | None => lks ≡ₚ xs /\ pol_ok TYPE_STORE_ENTRY (locked_entries wk') s' []
    | Some e => exists x xs', e = Heap.edat x /\ x :: lks ++ xs' ≡ₚ xs /\ is_locked pol2 e = false /\
        (forall y, y ∈ xs -> is_locked pol2 (Heap.edat y) = false -> SFleb (Heap.ekey x) (Heap.ekey y) = true) /\
        min_age wk' = Heap.ekey x /\ pol_ok TYPE_STORE_ENTRY (locked_entries wk') s' xs'
    end.
Proof.
  destruct pol2_ok as (xs & H & _). exists xs.
  apply (heap_purgeNext_correct 50 TYPE_STORE_ENTRY pol2 xs (mkPurge [] (dbl_of_Z 0)) H).
Defined.

(** The state in which a purge puts the locked entries back. *)
Definition aged (wk : purge_walker) (s : heap_policy) : heap_policy :=
  let s := set_nwalkers (nwalkers s - 1) s in
  if SFltb (dbl_of_Z 0) (min_age wk)
  then set_hs (Heap.mk_st (Heap.set_age (Heap.hp (hs s)) (min_age wk)) (Heap.mem (hs s))) s
  else s.

(** [heap_purgeDone] puts every entry the purge set aside back on the heap,
    gives each the pointer to its new node and takes back the lock the purge
    held, for entries that are locked by others and have proper keys: the
    policy then holds what it held before the purge but for the entries
    purged. *)
Theorem heap_purgeDone_correct exp now last_unlock w s xs wk ms :
  pol_ok w (locked_entries wk) s xs -> type s = w -> 0 < nwalkers s ->
  length ms = length (locked_entries wk) -> NoDup ms -> (forall m, m ∈ ms -> Heap.mem (hs s) !! m = None) ->
  Z.of_nat (length xs + length (locked_entries wk)) <= Heap.max_nodes ->
  (forall v, v ∈ locked_entries wk -> returnable exp now (aged wk s) v) ->
  exists s' xs', heap_purgeDone exp now last_unlock wk ms s = Some s' /\ pol_ok w [] s' xs' /\
    (Heap.edat <$> xs') ≡ₚ locked_entries wk ++ (Heap.edat <$> xs) /\
    (forall v, v ∈ locked_entries wk -> exists en en', entries s !! v = Some en /\ entries s' !! v = Some en' /\
       lock_count en' = lock_count en - 1).
Proof.
  intros H Ht Hw Hlen Hnd Hms Hmax Hret. unfold heap_purgeDone. rewrite (proj2 (Z.ltb_lt _ _)) by done.
  change (if SFltb (dbl_of_Z 0) (min_age wk) then _ else _) with (aged wk s).
  assert (pol_ok w (locked_entries wk) (aged wk s) xs /\ type (aged wk s) = w /\ Heap.mem (hs (aged wk s)) = Heap.mem (hs s) /\
          entries (aged wk s) = entries s) as (Hok & Ht' & Em & Ee).
  { unfold aged. destruct H as [A1 A2 A3 A4 A5 A6 A7]. destruct (SFltb (dbl_of_Z 0) (min_age wk)); splits; split; try done.
    by eapply heap_ok_same. }
  destruct (reinsert_loop_ok exp now w last_unlock (locked_entries wk) ms (aged wk s) xs)
    as (s' & xs' & E & Hok' & Hp & _ & Hl); try done.
  { intros m Hm. rewrite Em. by apply Hms. }
  exists s', xs'. splits. by rewrite <- Ee.
Qed.

(** The state after the locked entry 100 was set aside and entry 200 purged. *)
Lemma heap_purgeDone_witness :
  exists s wk (xs : list elem), heap_purgeNext 50 (mkPurge [] (dbl_of_Z 0)) pol2 = Some (s, wk, Some 200) /\
  exists s' (xs' : list elem), heap_purgeDone noexp 50 (fun _ s => Some s) wk [7%positive] s = Some s' /\
    pol_ok TYPE_STORE_ENTRY [] s' xs' /\
    (Heap.edat <$> xs') ≡ₚ locked_entries wk ++ (Heap.edat <$> xs) /\
    (forall v, v ∈ locked_entries wk -> exists en en', entries s !! v = Some en /\ entries s' !! v = Some en' /\
       lock_count en' = lock_count en - 1).
Proof.
  destruct pol2_ok as (xs & H & Hlen).
  destruct (heap_purge_loop_ok 50 TYPE_STORE_ENTRY 3 (mkPurge [] (dbl_of_Z 0)) pol2 xs H ltac:(lia))
    as (s & wk & res & lks & E & Hl & Hq & _ & Hres).
  change (purge_loop 50 3 (mkPurge [] (dbl_of_Z 0)) pol2) with (heap_purgeNext 50 (mkPurge [] (dbl_of_Z 0)) pol2) in E.
  assert (((fun '(s, wk, r) =>
     (r, locked_entries wk, type s, nwalkers s, Heap.mem (hs s) !! 7%positive, entries (aged wk s) !! 100,
      dbl_nan (gen noexp 50 (keys (aged wk s)) (entries (aged wk s)) 100 (Heap.age (Heap.hp (hs (aged wk s)))))))
     <$> heap_purgeNext 50 (mkPurge [] (dbl_of_Z 0)) pol2)
    = Some (Some 200, [100], TYPE_STORE_ENTRY, 1, None, Some (ent (Some 1%positive) 2 50), false)) as Hproj
    by (vm_compute; reflexivity).
  rewrite E in Hproj. cbn [fmap option_fmap option_map] in Hproj. injection Hproj as -> H6 H3 H4 H5 He0 Hk.
  destruct Hres as (x & xs' & _ & Hp & _ & _ & _ & Hok).
  exists s, wk, xs'. split; [exact E|].
  apply (heap_purgeDone_correct noexp 50 (fun _ s => Some s) TYPE_STORE_ENTRY s xs' wk [7%positive] Hok H3).
  - by rewrite H4.
  - by rewrite H6.
  - apply NoDup_singleton.
  - intros m ->%list_elem_of_singleton. exact H5.
  - apply Permutation_length in Hp. rewrite H6. cbn in Hp |- *. rewrite length_app in Hp. unfold Heap.max_nodes. lia.
  - rewrite H6. intros v ->%list_elem_of_singleton. exists (ent (Some 1%positive) 2 50). split; [exact He0|].
    split; [cbn; lia|]. unfold gen in Hk. by rewrite He0 in Hk.
Defined.

(** A purge takes entries off the heap without counting them out. *)
Lemma heap_purge_count :
  (let? (s, _, e) := heap_purgeNext 50 (mkPurge [] (dbl_of_Z 0)) pol2 in Some (count s, Heap.heap_nodes (hs s), e))
  = Some (2, 0, Some 200).
Proof. by vm_compute. Qed.

End ReplHeap.
