(* ===== verification/Tlv.v ===== *)
(** * Swap metadata

    The type-length-value records in front of every object on disk:
    libsqtlv/tlv.c, libsqstore/store_meta.c, src/store_swapmeta.c, and the
    reader of the rebuild helpers, libsqstore/rebuild_entry.c.  Buffers are
    lists of bytes; an access outside one has no result.  Integers are stored
    little-endian, [int] has 4 bytes, [squid_off_t] and [time_t] have 8. *)

From Stdlib Require Import ZArith Lia Ascii String.
From stdpp Require Import base strings list numbers option.
From S2P Require Import Prelude CStr.

Module Tlv.

(** [n] bytes at [off]. *)
Definition slice (buf : bytes) (off n : Z) : option bytes :=
  if (0 <=? off) && (0 <=? n) && (off + n <=? Z.of_nat (length buf))
  then Some (take (Z.to_nat n) (drop (Z.to_nat off) buf)) else None.

Definition get_char (buf : bytes) (i : Z) : option Z :=
  let? s := slice buf i 1 in Some (wrap_s 8 (le_val s)).
Definition get_int (buf : bytes) (i : Z) : option Z :=
  let? s := slice buf i 4 in Some (wrap_s 32 (le_val s)).

(** [int] arithmetic: overflow is undefined. *)
Definition int_ok (z : Z) : option Z := if (- 2 ^ 31 <=? z) && (z <? 2 ^ 31) then Some z else None.

(** A signed integer as the [size_t] it is compared with. *)
Definition size_t (z : Z) : Z := wrap_u 64 z.

(** ** Records *)

Record tlv := mkTlv { ttype : Z; tlength : Z; tvalue : bytes }.

(** The lists are chains of [next] pointers that only grow at the tail, so
    they are lists; NULL is the empty one. *)
Definition tlv_add (type : Z) (ptr : bytes) (len : Z) (l : list tlv) : option (list tlv) :=
  let? v := slice ptr 0 len in
  Some (l ++ [mkTlv (wrap_s 8 type) (wrap_s 32 len) v]).

Definition STORE_META_OK : Z := 0x03.
Definition STORE_META_KEY : Z := 3.
Definition STORE_META_URL : Z := 4.
Definition STORE_META_STD : Z := 5.
Definition STORE_META_VARY_HEADERS : Z := 8.
Definition STORE_META_STD_LFS : Z := 9.
Definition STORE_META_OBJSIZE : Z := 10.
Definition STORE_META_STOREURL : Z := 11.
Definition STORE_META_END : Z := 12.

(** The loop over the records of a buffer, from [j] on. *)
Fixpoint unpack_loop (fuel : nat) (buf : bytes) (buflen max_metaid j : Z) (T : list tlv) : option (list tlv) :=
  match fuel with
  | O => None
  | S fuel =>
      let? d := int_ok (buflen - j) in
      if size_t d <? 5 then Some T
      else
        let? type := get_char buf j in
        let j := j + 1 in
        if (type <=? 0) || (max_metaid <? type) then Some T
        else
          let? length := get_int buf j in
          if (length <? 0) || (2 ^ 16 <? length) then Some T
          else
            let j := j + 4 in
            let? e := int_ok (j + length) in
            if buflen <? e then Some T
            else
              let? T := tlv_add type (drop (Z.to_nat j) buf) length T in
              unpack_loop fuel buf buflen max_metaid e T
  end.

(** A record takes at least 5 bytes of the buffer. *)
Definition unpack_fuel (buf : bytes) : nat := S (length buf).

(** The list and the new [*hdr_len]. *)
Definition tlv_unpack (buf : bytes) (hdr_len max_metaid : Z) : option (list tlv * Z) :=
  let? c := get_char buf 0 in
  if negb (c =? STORE_META_OK) then Some ([], hdr_len)
  else
    let? buflen := get_int buf 1 in
    if size_t (hdr_len - 5) <? size_t buflen then Some ([], hdr_len)
    else if size_t buflen <=? 5 then Some ([], hdr_len)
    else
      let? T := unpack_loop (unpack_fuel buf) buf buflen max_metaid 5 [] in
      Some (T, buflen).

Definition storeSwapMetaUnpack (buf : bytes) (hdr_len : Z) : option (list tlv * Z) :=
  let? c := get_char buf 0 in
  if negb (c =? STORE_META_OK) then Some ([], hdr_len)
  else
    let? buflen := get_int buf 1 in
    if size_t buflen <=? 5 then Some ([], hdr_len)
    else
      let? T := unpack_loop (unpack_fuel buf) buf buflen (STORE_META_END + 10) 5 [] in
      Some (T, buflen).

(** ** Packing *)

Fixpoint pack_len (l : list tlv) (buflen : Z) : option Z :=
  match l with
  | [] => Some buflen
  | t :: l => let? n := int_ok (buflen + 5 + tlength t) in pack_len l n
  end.

Fixpoint pack_loop (l : list tlv) : option bytes :=
  match l with
  | [] => Some []
  | t :: l =>
      let? v := slice (tvalue t) 0 (tlength t) in
      let? r := pack_loop l in
      Some (le_bytes 1 (ttype t) ++ le_bytes 4 (tlength t) ++ v ++ r)
  end.

(** The buffer; its size, which [assert((int) j == buflen)] checks, is
    [*length]. *)
Definition storeSwapMetaPack (l : list tlv) : option bytes :=
  let? buflen := pack_len l 5 in
  let? r := pack_loop l in
  let buf := le_bytes 1 STORE_META_OK ++ le_bytes 4 buflen ++ r in
  assert? Z.of_nat (length buf) =? buflen in Some buf.

(** ** The metadata of an entry *)

Definition SQUID_MD5_DIGEST_LENGTH : Z := 16.
Definition STORE_HDR_METASIZE : Z := 4 * 8 + 2 * 2 + 8.

(** What [storeSwapMetaBuild] takes from the entry: strings are without their
    NUL, [m_std] is the memory from [timestamp] to [flags]. *)
Record meta := mkMeta {
  m_key : bytes;
  m_std : bytes;
  m_url : bytes;
  m_objsize : Z;
  m_vary : option bytes;
  m_store_url : option bytes
}.

Definition add_string (type : Z) (s : bytes) (T : list tlv) : option (list tlv) :=
  tlv_add type (s ++ [0]) (Z.of_nat (length s) + 1) T.

(** With an 8-byte [size_t] the standard fields have type STORE_META_STD. *)
Definition storeSwapMetaBuild (m : meta) : option (list tlv) :=
  let? T := tlv_add STORE_META_KEY (m_key m) SQUID_MD5_DIGEST_LENGTH [] in
  let? T := tlv_add STORE_META_STD (m_std m) STORE_HDR_METASIZE T in
  let? T := add_string STORE_META_URL (m_url m) T in
  let? T := (if -1 <? m_objsize m then tlv_add STORE_META_OBJSIZE (le_bytes 8 (m_objsize m)) 8 T else Some T) in
  let? T := match m_vary m with Some v => add_string STORE_META_VARY_HEADERS v T | None => Some T end in
  match m_store_url m with Some v => add_string STORE_META_STOREURL v T | None => Some T end.

(** [storeSwapMetaAssemble] writes the same records into one buffer; [b] is
    what has been written, within [cap] bytes. *)
Definition storeSwapMetaAssemblePart (cap : Z) (b : bytes) (t : Z) (src : bytes) (l : Z) : option bytes :=
  let? v := slice src 0 l in
  let b := b ++ le_bytes 1 t ++ le_bytes 4 l ++ v in
  assert? Z.of_nat (length b) <=? cap in Some b.

Definition strlen_opt (s : option bytes) : Z := match s with Some s => Z.of_nat (length s) | None => 0 end.

Definition storeSwapMetaAssemble (m : meta) : option bytes :=
  let u_len := Z.of_nat (length (m_url m)) in
  let v_len := strlen_opt (m_vary m) in
  let s_len := strlen_opt (m_store_url m) in
  let buflen := 4 + 1 in
  let buflen := buflen + (SQUID_MD5_DIGEST_LENGTH + STORE_HDR_METASIZE + u_len + 8 + v_len + s_len + 3) in
  let buflen := buflen + 5 * 6 in
  let part := storeSwapMetaAssemblePart buflen in
  let? b := part [] STORE_META_OK (le_bytes 4 buflen) 4 in
  let? b := part b STORE_META_KEY (m_key m) SQUID_MD5_DIGEST_LENGTH in
  let? b := part b STORE_META_STD (m_std m) STORE_HDR_METASIZE in
  let? b := part b STORE_META_URL (m_url m ++ [0]) (u_len + 1) in
  let? b := (if -1 <? m_objsize m then part b STORE_META_OBJSIZE (le_bytes 8 (m_objsize m)) 8 else Some b) in
  let? b := match m_vary m with
            | Some v => part b STORE_META_VARY_HEADERS (v ++ [0]) (v_len + 1)
            | None => Some b
            end in
  let? b := match m_store_url m with
            | Some v => part b STORE_META_STOREURL (v ++ [0]) (s_len + 1)
            | None => Some b
            end in
  assert? Z.of_nat (length b) <? buflen in Some b.

(** ** Reading during a rebuild *)

(** [sizeof(storeMetaIndexNew)]: the fields of STORE_HDR_METASIZE, padded to a
    multiple of 8. *)
Definition SIZEOF_MI : Z := 48.

Record rebuild_entry := mkRe {
  mi : bytes;                    (** [storeMetaIndexNew], as its bytes *)
  md5_key : option bytes;
  re_url : option bytes;
  file_size : Z;
  hdr_size : Z
}.

Definition rebuild_entry_init : rebuild_entry := mkRe (replicate (Z.to_nat SIZEOF_MI) 0) None None (-1) (-1).

(** [xstrdup]: the bytes before the NUL, which has to be there. *)
Definition xstrdup (v : bytes) : option bytes :=
  let k := span (fun c => negb (c =? 0)) v in
  if (k <? length v)%nat then Some (take k v) else None.

Definition parse_tlv (t : tlv) (re : rebuild_entry) (parsed : Z) : option (rebuild_entry * Z) :=
  if ttype t =? STORE_META_URL then
    let? s := xstrdup (tvalue t) in
    Some (mkRe (mi re) (md5_key re) (Some s) (file_size re) (hdr_size re), parsed + 1)
  else if ttype t =? STORE_META_KEY then
    let? k := slice (tvalue t) 0 SQUID_MD5_DIGEST_LENGTH in
    Some (mkRe (mi re) (Some k) (re_url re) (file_size re) (hdr_size re), parsed + 1)
  else if ttype t =? STORE_META_STD_LFS then
    let? s := slice (tvalue t) 0 SIZEOF_MI in
    Some (mkRe s (md5_key re) (re_url re) (file_size re) (hdr_size re), parsed + 1)
  else if ttype t =? STORE_META_OBJSIZE then
    let? s := slice (tvalue t) 0 8 in
    Some (mkRe (mi re) (md5_key re) (re_url re) (wrap_s 64 (le_val s)) (hdr_size re), parsed + 1)
  else Some (re, parsed).

Fixpoint parse_loop (l : list tlv) (re : rebuild_entry) (parsed : Z) : option (rebuild_entry * Z) :=
  match l with
  | [] => Some (re, parsed)
  | t :: l => let? (re, parsed) := parse_tlv t re parsed in parse_loop l re parsed
  end.

(** The entry and the result: -1, or whether more than one field was found. *)
Definition parse_header (buf : bytes) (len : Z) (re : rebuild_entry) : option (rebuild_entry * Z) :=
  let? (T, bl) := tlv_unpack buf len (STORE_META_END + 10) in
  match T with
  | [] => Some (re, -1)
  | _ :: _ =>
      let? (re, parsed) := parse_loop T (mkRe (mi re) (md5_key re) (re_url re) (file_size re) bl) 0 in
      Some (re, if 1 <? parsed then 1 else 0)
  end.

(** The record [write_swaplog_entry] writes: size, standard fields and key, or
    its error result. *)
Definition write_swaplog_entry (re : rebuild_entry) : option (option (Z * bytes * bytes)) :=
  if (file_size re <? 0) || (hdr_size re <? 0) then Some None
  else
    let? k := md5_key re in
    Some (Some (hdr_size re + file_size re, mi re, k)).

(** ** Lemmas *)

#[local] Opaque le_bytes.

Lemma slice_mid a b c : slice (a ++ b ++ c) (Z.of_nat (length a)) (Z.of_nat (length b)) = Some b.
Proof.
  unfold slice. rewrite !length_app.
  rewrite (proj2 (Z.leb_le 0 _)), (proj2 (Z.leb_le 0 _)), (proj2 (Z.leb_le _ _)) by lia. cbn [andb].
  rewrite !Nat2Z.id, drop_app_length. by rewrite take_app_length.
Qed.

Lemma slice_at pre b c j n :
  j = Z.of_nat (length pre) -> n = Z.of_nat (length b) -> slice (pre ++ b ++ c) j n = Some b.
Proof. intros -> ->. apply slice_mid. Qed.

Lemma slice_0 b c n : n = Z.of_nat (length b) -> slice (b ++ c) 0 n = Some b.
Proof. apply (slice_at [] b c 0 n eq_refl). Qed.

Lemma slice_all b n : n = Z.of_nat (length b) -> slice b 0 n = Some b.
Proof. intros Hn. rewrite <- (app_nil_r b) at 1. by apply slice_0. Qed.

(** Reads inside the buffer have a value. *)
Lemma slice_ok buf off n :
  0 <= off -> 0 <= n -> off + n <= Z.of_nat (length buf) ->
  exists v, slice buf off n = Some v /\ Z.of_nat (length v) = n.
Proof.
  intros H1 H2 H3. unfold slice.
  rewrite (proj2 (Z.leb_le 0 off)), (proj2 (Z.leb_le 0 n)), (proj2 (Z.leb_le (off + n) _)) by done. cbn [andb].
  eexists. split; [done|]. rewrite length_take, length_drop. lia.
Qed.

Lemma get_char_ok buf i : 0 <= i < Z.of_nat (length buf) -> exists c, get_char buf i = Some c /\ - 128 <= c < 128.
Proof.
  intros Hi. destruct (slice_ok buf i 1) as (v & E & _); try lia. unfold get_char. rewrite E. bind_simpl.
  eexists. split; [done|]. apply (wrap_s_range 8). lia.
Qed.

Lemma get_int_ok buf i :
  0 <= i -> i + 4 <= Z.of_nat (length buf) -> exists c, get_int buf i = Some c /\ - 2 ^ 31 <= c < 2 ^ 31.
Proof.
  intros Hi Hl. destruct (slice_ok buf i 4) as (v & E & _); try lia. unfold get_int. rewrite E. bind_simpl.
  eexists. split; [done|]. apply (wrap_s_range 32). lia.
Qed.

Lemma int_ok_small z : - 2 ^ 31 <= z < 2 ^ 31 -> int_ok z = Some z.
Proof.
  intros Hz. unfold int_ok. rewrite (proj2 (Z.leb_le _ _)), (proj2 (Z.ltb_lt _ _)) by lia. done.
Qed.

Lemma size_t_small z : 0 <= z < 2 ^ 64 -> size_t z = z.
Proof. apply wrap_u_small. Qed.

Lemma size_t_neg z : - 2 ^ 63 <= z < 0 -> 2 ^ 63 <= size_t z.
Proof.
  intros Hz. unfold size_t, wrap_u. rewrite <- (Z_mod_plus_full z 1 (2 ^ 64)), Z.mod_small; lia.
Qed.

Lemma tlv_add_ok type ptr len l :
  0 <= len <= 2 ^ 16 -> len <= Z.of_nat (length ptr) -> 0 < type < 128 ->
  exists v, tlv_add type ptr len l = Some (l ++ [mkTlv type len v]) /\ Z.of_nat (length v) = len.
Proof.
  intros Hl Hp Ht. destruct (slice_ok ptr 0 len) as (v & E & Hv); try lia. exists v. unfold tlv_add. rewrite E. bind_simpl.
  rewrite (wrap_s_small 8), (wrap_s_small 32) by lia. done.
Qed.

(** What unpacking gives: types in range and values of the stated length. *)
Definition tlv_ok (max : Z) (t : tlv) : Prop :=
  0 < ttype t <= max /\ 0 <= tlength t <= 2 ^ 16 /\ Z.of_nat (length (tvalue t)) = tlength t.

Definition packed_size (l : list tlv) : Z := foldr (fun t n => 5 + tlength t + n) 0 l.

Lemma packed_size_app l1 l2 : packed_size (l1 ++ l2) = packed_size l1 + packed_size l2.
Proof. unfold packed_size. induction l1 as [|t l1 IH]; cbn [app foldr]; [done|]. rewrite IH. lia. Qed.

(** The loop stays inside the buffer as far as [buflen] does, and ends. *)
Lemma unpack_loop_safe buf buflen max : forall fuel j T,
  buflen <= Z.of_nat (length buf) -> buflen + 2 ^ 16 < 2 ^ 31 -> 0 <= j <= buflen -> buflen - j < Z.of_nat fuel ->
  max < 128 -> Forall (tlv_ok max) T -> packed_size T <= j ->
  exists T', unpack_loop fuel buf buflen max j T = Some T' /\ Forall (tlv_ok max) T' /\ packed_size T' <= packed_size T + (buflen - j).
Proof.
  induction fuel as [|fuel IH]; intros j T Hb Hmax Hj Hf Hm HT Hs; [lia|]. cbn [unpack_loop].
  rewrite int_ok_small by lia. bind_simpl. rewrite size_t_small by lia.
  destruct (Z.ltb_spec (buflen - j) 5) as [|H5]; [exists T; splits; lia|].
  destruct (get_char_ok buf j ltac:(lia)) as (c & -> & Hc). bind_simpl.
  destruct ((c <=? 0) || (max <? c)) eqn:Ec; [exists T; splits; lia|]. zify_bools.
  destruct (get_int_ok buf (j + 1) ltac:(lia) ltac:(lia)) as (n & -> & Hn). bind_simpl.
  destruct ((n <? 0) || (2 ^ 16 <? n)) eqn:En; [exists T; splits; lia|]. zify_bools.
  rewrite int_ok_small by lia. bind_simpl.
  destruct (Z.ltb_spec buflen (j + 1 + 4 + n)); [exists T; splits; lia|].
  destruct (tlv_add_ok c (drop (Z.to_nat (j + 1 + 4)) buf) n T) as (v & -> & Hv); [lia|rewrite length_drop; lia|lia|].
  bind_simpl. destruct (IH (j + 1 + 4 + n) (T ++ [mkTlv c n v])) as (T' & E & HT' & Hs'); try lia.
  - apply Forall_app. split; [done|]. apply List.Forall_cons; [|apply List.Forall_nil]. repeat split; cbn; lia.
  - rewrite packed_size_app. cbn. lia.
  - exists T'. splits. rewrite packed_size_app in Hs'. cbn in Hs'. lia.
Qed.

(** Packing writes the records one after the other. *)
Lemma pack_loop_ok max l :
  Forall (tlv_ok max) l -> exists r, pack_loop l = Some r /\ Z.of_nat (length r) = packed_size l.
Proof.
  induction 1 as [|t l (Ht & Hl & Hv) _ (r & Er & Hr)]; [by exists []|]. cbn [pack_loop].
  rewrite (slice_all _ _ (eq_sym Hv)). bind_simpl. rewrite Er. bind_simpl.
  eexists. split; [done|]. rewrite !length_app, !length_le_bytes. cbn [packed_size foldr]. fold (packed_size l). lia.
Qed.

Lemma pack_len_ok max l : forall n,
  Forall (tlv_ok max) l -> 0 <= n -> n + packed_size l < 2 ^ 31 -> pack_len l n = Some (n + packed_size l).
Proof.
  intros n Hl. revert n. induction Hl as [|t l (Ht & Hlt & Hv) Hl IH]; intros n Hn Hs; cbn [pack_len packed_size foldr] in *.
  - f_equal. lia.
  - fold (packed_size l) in *. assert (0 <= packed_size l).
    { destruct (pack_loop_ok max l Hl) as (r & _ & Hr). lia. }
    rewrite int_ok_small by lia. bind_simpl. rewrite IH by lia. f_equal. lia.
Qed.

(** Unpacking what was packed. *)
Lemma unpack_loop_packed max l : forall fuel pre r rest T,
  Forall (tlv_ok max) l -> max < 128 -> pack_loop l = Some r ->
  Z.of_nat (length (pre ++ r)) + 2 ^ 16 < 2 ^ 31 -> (length r < fuel)%nat ->
  unpack_loop fuel (pre ++ r ++ rest) (Z.of_nat (length (pre ++ r))) max (Z.of_nat (length pre)) T = Some (T ++ l).
Proof.
  induction l as [|t l IH]; intros fuel pre r rest T Hl Hm Hr Hb Hf; (destruct fuel as [|fuel]; [lia|]); cbn [unpack_loop].
  - injection Hr as <-. rewrite app_nil_r in *. rewrite Z.sub_diag. cbn. by rewrite app_nil_r.
  - apply List.Forall_cons_iff in Hl as [(Ht & Hlt & Hv) Hl]. cbn [pack_loop] in Hr.
    rewrite (slice_all _ _ (eq_sym Hv)) in Hr. cbn [mbind option_bind] in Hr.
    destruct (pack_loop l) as [r'|] eqn:Er; [|done]. injection Hr as <-.
    set (w := length pre) in *. rewrite !length_app, !length_le_bytes in *.
    rewrite int_ok_small by lia. bind_simpl. rewrite size_t_small by lia. rewrite (proj2 (Z.ltb_ge _ 5)) by lia.
    unfold get_char, get_int. rewrite <- !app_assoc.
    rewrite (slice_at pre (le_bytes 1 (ttype t)) _ (Z.of_nat w) 1) by (rewrite ?length_le_bytes; lia). bind_simpl.
    rewrite le_val_bytes. change (256 ^ Z.of_nat 1) with 256. rewrite (Z.mod_small (ttype t)) by lia.
    rewrite (wrap_s_small 8) by lia. rewrite (proj2 (Z.leb_gt _ 0)), (proj2 (Z.ltb_ge _ _)) by lia. cbn [orb].
    rewrite (app_assoc pre). rewrite (slice_at (pre ++ le_bytes 1 (ttype t)) (le_bytes 4 (tlength t)) _ (Z.of_nat w + 1) 4)
      by (rewrite ?length_app, ?length_le_bytes; lia). bind_simpl.
    rewrite le_val_bytes. change (256 ^ Z.of_nat 4) with (2 ^ 32). rewrite (Z.mod_small (tlength t)) by lia.
    rewrite (wrap_s_small 32) by lia. rewrite (proj2 (Z.ltb_ge _ 0)), (proj2 (Z.ltb_ge _ (tlength t))) by lia. cbn [orb].
    rewrite int_ok_small by lia. bind_simpl. rewrite (proj2 (Z.ltb_ge _ _)) by lia.
    set (pre2 := (pre ++ le_bytes 1 (ttype t)) ++ le_bytes 4 (tlength t)).
    assert (length pre2 = w + 5)%nat as Hp2 by (unfold pre2; rewrite !length_app, !length_le_bytes; lia).
    unfold tlv_add. rewrite (app_assoc (pre ++ _)). fold pre2.
    replace (drop _ (pre2 ++ _)) with (tvalue t ++ r' ++ rest) by (symmetry; apply drop_app_length'; lia).
    rewrite (slice_0 _ _ _ (eq_sym Hv)). bind_simpl. rewrite (wrap_s_small 8), (wrap_s_small 32) by lia.
    rewrite (app_assoc pre2).
    specialize (IH fuel (pre2 ++ tvalue t) r' rest (T ++ [mkTlv (ttype t) (tlength t) (tvalue t)])).
    rewrite !length_app in IH. replace (mkTlv (ttype t) (tlength t) (tvalue t)) with t in * by (by destruct t).
    replace (T ++ t :: l) with ((T ++ [t]) ++ l) by (by rewrite <- app_assoc).
    match goal with |- unpack_loop _ _ ?a _ ?b _ = _ =>
      replace a with (Z.of_nat (length pre2 + length (tvalue t) + length r')) by lia;
      replace b with (Z.of_nat (length pre2 + length (tvalue t))) by lia end.
    apply IH; try done; lia.
Qed.

(** ** Lemmas: the metadata of an entry *)

(** What an entry has to be for its metadata to be built: a key, the standard
    fields, and strings that fit a record. *)
Definition meta_ok (m : meta) : Prop :=
  length (m_key m) = 16%nat /\ length (m_std m) = 44%nat /\ Z.of_nat (length (m_url m)) < 2 ^ 16 /\
  (forall v, m_vary m = Some v -> Z.of_nat (length v) < 2 ^ 16) /\
  (forall v, m_store_url m = Some v -> Z.of_nat (length v) < 2 ^ 16).

(** The records of the metadata, in order. *)
Definition meta_tlvs (m : meta) : list tlv :=
  let string ty s := mkTlv ty (Z.of_nat (length s) + 1) (s ++ [0]) in
  [mkTlv STORE_META_KEY 16 (m_key m); mkTlv STORE_META_STD 44 (m_std m); string STORE_META_URL (m_url m)]
  ++ (if -1 <? m_objsize m then [mkTlv STORE_META_OBJSIZE 8 (le_bytes 8 (m_objsize m))] else [])
  ++ match m_vary m with Some v => [string STORE_META_VARY_HEADERS v] | None => [] end
  ++ match m_store_url m with Some v => [string STORE_META_STOREURL v] | None => [] end.

Lemma tlv_add_all type v n l :
  0 < type < 128 -> n = Z.of_nat (length v) -> n <= 2 ^ 16 -> tlv_add type v n l = Some (l ++ [mkTlv type n v]).
Proof.
  intros Ht Hn Hl. unfold tlv_add. rewrite (slice_all v n Hn). bind_simpl.
  by rewrite (wrap_s_small 8), (wrap_s_small 32) by lia.
Qed.

Lemma add_string_ok type v l :
  0 < type < 128 -> Z.of_nat (length v) < 2 ^ 16 ->
  add_string type v l = Some (l ++ [mkTlv type (Z.of_nat (length v) + 1) (v ++ [0])]).
Proof. intros Ht Hv. unfold add_string. apply tlv_add_all; [done|rewrite length_app; cbn; lia|lia]. Qed.

Lemma storeSwapMetaBuild_ok m : meta_ok m -> storeSwapMetaBuild m = Some (meta_tlvs m).
Proof.
  intros (Hk & Hs & Hu & Hv & Hst). unfold storeSwapMetaBuild, SQUID_MD5_DIGEST_LENGTH, STORE_HDR_METASIZE.
  rewrite (tlv_add_all STORE_META_KEY) by (unfold STORE_META_KEY; lia). bind_simpl.
  rewrite (tlv_add_all STORE_META_STD) by (unfold STORE_META_STD; lia). bind_simpl.
  rewrite (add_string_ok STORE_META_URL) by (unfold STORE_META_URL; lia). bind_simpl.
  unfold meta_tlvs. destruct (-1 <? m_objsize m); bind_simpl.
  - rewrite (tlv_add_all STORE_META_OBJSIZE) by (rewrite ?length_le_bytes; unfold STORE_META_OBJSIZE; lia). bind_simpl.
    destruct (m_vary m) as [v|]; bind_simpl;
      [rewrite (add_string_ok STORE_META_VARY_HEADERS) by (auto; unfold STORE_META_VARY_HEADERS; lia); bind_simpl|];
      (destruct (m_store_url m) as [u|]; bind_simpl;
        [rewrite (add_string_ok STORE_META_STOREURL) by (auto; unfold STORE_META_STOREURL; lia); bind_simpl|]); done.
  - destruct (m_vary m) as [v|]; bind_simpl;
      [rewrite (add_string_ok STORE_META_VARY_HEADERS) by (auto; unfold STORE_META_VARY_HEADERS; lia); bind_simpl|];
      (destruct (m_store_url m) as [u|]; bind_simpl;
        [rewrite (add_string_ok STORE_META_STOREURL) by (auto; unfold STORE_META_STOREURL; lia); bind_simpl|]); done.
Qed.

Lemma meta_tlvs_ok m : meta_ok m -> Forall (tlv_ok (STORE_META_END + 10)) (meta_tlvs m).
Proof.
  intros (Hk & Hs & Hu & Hv & Hst). unfold meta_tlvs.
  assert (forall ty v, 0 < ty <= STORE_META_END + 10 -> Z.of_nat (length v) < 2 ^ 16 ->
    tlv_ok (STORE_META_END + 10) (mkTlv ty (Z.of_nat (length v) + 1) (v ++ [0]))) as Hstr.
  { intros ty v Hty Hlen. unfold tlv_ok. cbn. rewrite length_app. cbn. lia. }
  assert (STORE_META_END + 10 = 22) as E22 by done.
  apply Forall_app. split; [|apply Forall_app; split; [|apply Forall_app; split]].
  - repeat apply List.Forall_cons; [..|apply List.Forall_nil].
    + unfold tlv_ok, STORE_META_KEY. cbn. lia.
    + unfold tlv_ok, STORE_META_STD. cbn. lia.
    + apply Hstr; [unfold STORE_META_URL; lia|done].
  - destruct (-1 <? m_objsize m); [|apply List.Forall_nil]. apply List.Forall_cons; [|apply List.Forall_nil].
    unfold tlv_ok. cbn [ttype tlength tvalue]. rewrite length_le_bytes. unfold STORE_META_OBJSIZE. lia.
  - destruct (m_vary m) as [v|]; [|apply List.Forall_nil]. apply List.Forall_cons; [|apply List.Forall_nil].
    apply Hstr; [unfold STORE_META_VARY_HEADERS; lia|by apply Hv].
  - destruct (m_store_url m) as [v|]; [|apply List.Forall_nil]. apply List.Forall_cons; [|apply List.Forall_nil].
    apply Hstr; [unfold STORE_META_STOREURL; lia|by apply Hst].
Qed.

Lemma pack_ok max l :
  Forall (tlv_ok max) l -> 5 + packed_size l < 2 ^ 31 ->
  exists r, pack_loop l = Some r /\ Z.of_nat (length r) = packed_size l /\
    storeSwapMetaPack l = Some (le_bytes 1 STORE_META_OK ++ le_bytes 4 (5 + packed_size l) ++ r).
Proof.
  intros Hl Hs. destruct (pack_loop_ok max l Hl) as (r & Er & Hr). exists r. splits.
  unfold storeSwapMetaPack. rewrite (pack_len_ok max l 5 Hl) by lia. bind_simpl. rewrite Er. bind_simpl.
  rewrite !length_app, !length_le_bytes. rewrite (proj2 (Z.eqb_eq _ _)) by lia. done.
Qed.

(** The prefix of a packed buffer. *)
Lemma packed_prefix l r rest :
  Z.of_nat (length r) = packed_size l -> 5 + packed_size l < 2 ^ 31 ->
  let buf := (le_bytes 1 STORE_META_OK ++ le_bytes 4 (5 + packed_size l) ++ r) ++ rest in
  get_char buf 0 = Some STORE_META_OK /\ get_int buf 1 = Some (5 + packed_size l).
Proof.
  intros Hr Hs buf. unfold get_char, get_int, buf. rewrite <- !app_assoc. split.
  - rewrite (slice_0 (le_bytes 1 STORE_META_OK) _ 1) by (by rewrite length_le_bytes). bind_simpl. by rewrite le_val_bytes.
  - rewrite (slice_at (le_bytes 1 STORE_META_OK) (le_bytes 4 _) _ 1 4) by (by rewrite length_le_bytes). bind_simpl.
    rewrite le_val_bytes. change (256 ^ Z.of_nat 4) with (2 ^ 32). rewrite Z.mod_small by lia.
    by rewrite (wrap_s_small 32) by lia.
Qed.

(** Packing and both readers, for any entry. *)
Lemma swapmeta_roundtrip_ok m rest hdr_len :
  meta_ok m ->
  exists T buf, storeSwapMetaBuild m = Some T /\ storeSwapMetaPack T = Some buf /\
    storeSwapMetaUnpack (buf ++ rest) hdr_len = Some (T, Z.of_nat (length buf)) /\
    (Z.of_nat (length (buf ++ rest)) < 2 ^ 31 - 2 ^ 16 -> 5 <= Z.of_nat (length rest) ->
     tlv_unpack (buf ++ rest) (Z.of_nat (length (buf ++ rest))) (STORE_META_END + 10) = Some (T, Z.of_nat (length buf))).
Proof.
  intros Hm. pose proof (meta_tlvs_ok m Hm) as Hok.
  assert (76 <= packed_size (meta_tlvs m) <= 2 ^ 19) as Hsz.
  { destruct Hm as (Hk & Hs & Hu & Hv & Hst). unfold meta_tlvs. rewrite !packed_size_app.
    destruct (-1 <? m_objsize m), (m_vary m) as [v|], (m_store_url m) as [u|]; cbn;
      try specialize (Hv v eq_refl); try specialize (Hst u eq_refl); lia. }
  destruct (pack_ok _ _ Hok ltac:(lia)) as (r & Er & Hr & Ep).
  exists (meta_tlvs m), (le_bytes 1 STORE_META_OK ++ le_bytes 4 (5 + packed_size (meta_tlvs m)) ++ r).
  split; [by apply storeSwapMetaBuild_ok|]. split; [done|].
  destruct (packed_prefix (meta_tlvs m) r rest Hr ltac:(lia)) as [Hc Hi].
  set (buf := le_bytes 1 STORE_META_OK ++ le_bytes 4 (5 + packed_size (meta_tlvs m)) ++ r) in *.
  assert (Z.of_nat (length buf) = 5 + packed_size (meta_tlvs m)) as Hbl.
  { unfold buf. rewrite !length_app, !length_le_bytes. lia. }
  assert (unpack_loop (unpack_fuel (buf ++ rest)) (buf ++ rest) (5 + packed_size (meta_tlvs m)) (STORE_META_END + 10) 5 []
          = Some (meta_tlvs m)) as Hloop.
  { pose proof (unpack_loop_packed (STORE_META_END + 10) (meta_tlvs m) (unpack_fuel (buf ++ rest))
      (le_bytes 1 STORE_META_OK ++ le_bytes 4 (5 + packed_size (meta_tlvs m))) r rest [] Hok eq_refl Er) as H.
    rewrite <- !app_assoc in H. fold buf in H. rewrite Hbl in H. unfold buf at 2. rewrite <- !app_assoc.
    rewrite length_app, !length_le_bytes in H. change (Z.of_nat (1 + 4)) with 5 in H.
    apply H; [lia|]. unfold unpack_fuel, buf. rewrite !length_app. lia. }
  split.
  - unfold storeSwapMetaUnpack. rewrite Hc. bind_simpl. rewrite Z.eqb_refl. cbn [negb]. rewrite Hi. bind_simpl.
    rewrite size_t_small by lia. rewrite (proj2 (Z.leb_gt _ 5)) by lia. rewrite Hloop. bind_simpl. by rewrite Hbl.
  - intros Hb Hrest. unfold tlv_unpack. rewrite Hc. bind_simpl. rewrite Z.eqb_refl. cbn [negb]. rewrite Hi. bind_simpl.
    rewrite length_app in *. rewrite !size_t_small by lia. rewrite (proj2 (Z.ltb_ge _ _)) by lia.
    rewrite (proj2 (Z.leb_gt _ 5)) by lia. rewrite Hloop. bind_simpl. by rewrite Hbl.
Qed.

(** ** Properties *)

(** [tlv_unpack] reads no byte outside a buffer of [hdr_len] bytes and
    ends, whatever the buffer holds; what it returns are records with types in
    range and values of the stated lengths that fit the length it reports. *)
Theorem tlv_unpack_safe buf hdr_len max :
  hdr_len <= Z.of_nat (length buf) -> 5 <= hdr_len -> hdr_len + 2 ^ 16 < 2 ^ 31 -> max < 128 ->
  exists T n, tlv_unpack buf hdr_len max = Some (T, n) /\ Forall (tlv_ok max) T /\
    n <= hdr_len /\ (T <> [] -> 5 + packed_size T <= n).
Proof.
  intros Hlen H5 Hb Hmax. unfold tlv_unpack.
  destruct (get_char_ok buf 0 ltac:(lia)) as (c & -> & _). bind_simpl.
  assert (exists T n, Some ([] : list tlv, hdr_len) = Some (T, n) /\ Forall (tlv_ok max) T /\ n <= hdr_len /\
            (T <> [] -> 5 + packed_size T <= n)) as Hnone.
  { by exists [], hdr_len. }
  destruct (negb (c =? STORE_META_OK)); [done|].
  destruct (get_int_ok buf 1 ltac:(lia) ltac:(lia)) as (n & -> & Hn). bind_simpl.
  rewrite (size_t_small (hdr_len - 5)) by lia.
  destruct (Z.ltb_spec (hdr_len - 5) (size_t n)) as [|Hn5]; [done|].
  destruct (Z.leb_spec (size_t n) 5) as [|Hn6]; [done|].
  assert (0 <= n) as Hn0.
  { destruct (Z.le_gt_cases 0 n); [done|]. pose proof (size_t_neg n ltac:(lia)). lia. }
  rewrite size_t_small in Hn5, Hn6 by lia.
  destruct (unpack_loop_safe buf n max (unpack_fuel buf) 5 []) as (T & -> & HT & Hs);
    [lia|lia|lia|unfold unpack_fuel; lia|done|apply List.Forall_nil|cbn; lia|].
  bind_simpl. exists T, n. splits; [lia|]. intros _. cbn in Hs. lia.
Qed.

Lemma tlv_unpack_safe_witness :
  exists T n, tlv_unpack (3 :: le_bytes 4 12 ++ [4; 2; 0; 0; 0; 65; 0] ++ replicate 8 255) 20 22 = Some (T, n) /\
    Forall (tlv_ok 22) T /\ n <= 20 /\ (T <> [] -> 5 + packed_size T <= n).
Proof. apply tlv_unpack_safe; by vm_compute. Defined.

(** The metadata written in front of an object reads back: packing the
    records of any entry succeeds, both readers give the same records and the
    number of bytes written, whatever follows in the buffer ([tlv_unpack] if at
    least 5 bytes do). *)
Theorem swapmeta_roundtrip m rest hdr_len :
  meta_ok m ->
  exists T buf, storeSwapMetaBuild m = Some T /\ storeSwapMetaPack T = Some buf /\
    storeSwapMetaUnpack (buf ++ rest) hdr_len = Some (T, Z.of_nat (length buf)) /\
    (Z.of_nat (length (buf ++ rest)) < 2 ^ 31 - 2 ^ 16 -> 5 <= Z.of_nat (length rest) ->
     tlv_unpack (buf ++ rest) (Z.of_nat (length (buf ++ rest))) (STORE_META_END + 10) = Some (T, Z.of_nat (length buf))).
Proof. apply swapmeta_roundtrip_ok. Qed.

Definition m1 : meta := mkMeta (replicate 16 1) (replicate 44 2) (str "http://a/") 100 None (Some (str "http://b/")).

Lemma m1_ok : meta_ok m1.
Proof. split; [done|]. split; [done|]. split; [done|]. split; [done|]. intros v [= <-]. done. Qed.

Lemma swapmeta_roundtrip_witness :
  exists T buf, storeSwapMetaBuild m1 = Some T /\ storeSwapMetaPack T = Some buf /\
    storeSwapMetaUnpack (buf ++ str "HTTP/1.0") 0 = Some (T, Z.of_nat (length buf)) /\
    (Z.of_nat (length (buf ++ str "HTTP/1.0")) < 2 ^ 31 - 2 ^ 16 -> 5 <= Z.of_nat (length (str "HTTP/1.0")) ->
     tlv_unpack (buf ++ str "HTTP/1.0") (Z.of_nat (length (buf ++ str "HTTP/1.0"))) (STORE_META_END + 10)
     = Some (T, Z.of_nat (length buf))).
Proof. apply (swapmeta_roundtrip m1 (str "HTTP/1.0") 0 m1_ok). Defined.

Lemma xstrdup_ok v : Forall (fun c => c <> 0) v -> xstrdup (v ++ [0]) = Some v.
Proof.
  intros Hv. unfold xstrdup. rewrite span_app.
  - rewrite span_stop by done. rewrite Nat.add_0_r, length_app. cbn [length].
    rewrite (proj2 (Nat.ltb_lt _ _)) by lia. by rewrite take_app_length.
  - eapply List.Forall_impl; [|exact Hv]. intros c Hc. by apply negb_true_iff, Z.eqb_neq.
Qed.

(** The reader of the rebuild helpers on each kind of record. *)
Lemma parse_key k len re n :
  16 = Z.of_nat (length k) ->
  parse_tlv (mkTlv STORE_META_KEY len k) re n = Some (mkRe (mi re) (Some k) (re_url re) (file_size re) (hdr_size re), n + 1).
Proof. intros Hk. unfold parse_tlv. cbn [ttype tvalue]. cbn. by rewrite (slice_all k SQUID_MD5_DIGEST_LENGTH Hk). Qed.

Lemma parse_std v len re n : parse_tlv (mkTlv STORE_META_STD len v) re n = Some (re, n).
Proof. done. Qed.

Lemma parse_url v len re n :
  Forall (fun c => c <> 0) v ->
  parse_tlv (mkTlv STORE_META_URL len (v ++ [0])) re n = Some (mkRe (mi re) (md5_key re) (Some v) (file_size re) (hdr_size re), n + 1).
Proof. intros Hv. unfold parse_tlv. cbn [ttype tvalue]. rewrite Z.eqb_refl, xstrdup_ok by done. done. Qed.

Lemma parse_objsize v len re n :
  8 = Z.of_nat (length v) ->
  parse_tlv (mkTlv STORE_META_OBJSIZE len v) re n =
    Some (mkRe (mi re) (md5_key re) (re_url re) (wrap_s 64 (le_val v)) (hdr_size re), n + 1).
Proof. intros Hv. unfold parse_tlv. cbn [ttype tvalue]. cbn. by rewrite (slice_all v 8 Hv). Qed.

(** The reader of the rebuild helpers on the records of an entry. *)
Lemma parse_loop_meta m re :
  meta_ok m -> Forall (fun c => c <> 0) (m_url m) -> - 1 <= m_objsize m < 2 ^ 63 ->
  parse_loop (meta_tlvs m) re 0 =
    Some (mkRe (mi re) (Some (m_key m)) (Some (m_url m)) (if -1 <? m_objsize m then m_objsize m else file_size re) (hdr_size re),
          if -1 <? m_objsize m then 3 else 2).
Proof.
  intros (Hk & Hs & Hu & Hv & Hst) Hnul Hob. unfold meta_tlvs. cbn [app parse_loop].
  rewrite (parse_key (m_key m) 16) by (rewrite Hk; done). bind_simpl. rewrite parse_std. bind_simpl.
  rewrite parse_url by done. bind_simpl. cbn [mi md5_key re_url file_size hdr_size].
  assert (forall T r n, parse_loop (T ++ match m_vary m with
                                       | Some v => [mkTlv STORE_META_VARY_HEADERS (Z.of_nat (length v) + 1) (v ++ [0])]
                                       | None => [] end
                                   ++ match m_store_url m with
                                      | Some v => [mkTlv STORE_META_STOREURL (Z.of_nat (length v) + 1) (v ++ [0])]
                                      | None => [] end) r n = parse_loop T r n) as Htail.
  { induction T as [|t T IH]; intros r n; cbn [app parse_loop].
    - by destruct (m_vary m), (m_store_url m).
    - destruct (parse_tlv t r n) as [[r' n']|]; bind_simpl; [apply IH|done]. }
  rewrite Htail. destruct (-1 <? m_objsize m) eqn:Eo; [|done]. cbn [parse_loop].
  rewrite (parse_objsize (le_bytes 8 (m_objsize m))) by (by rewrite length_le_bytes). bind_simpl.
  zify_bools. rewrite le_val_bytes. change (256 ^ Z.of_nat 8) with (2 ^ 64). rewrite Z.mod_small by lia.
  by rewrite (wrap_s_small 64) by lia.
Qed.

(** A rebuild reads the key, the URL and the size of an object back from
    its metadata, and the entry it logs has the right key and file size; the
    standard fields stay zero, since they are written under another type than
    the one that is read. *)
Theorem parse_header_roundtrip m rest :
  meta_ok m -> Forall (fun c => c <> 0) (m_url m) -> 0 <= m_objsize m < 2 ^ 63 ->
  5 <= Z.of_nat (length rest) -> Z.of_nat (length rest) < 2 ^ 30 ->
  exists T buf, storeSwapMetaBuild m = Some T /\ storeSwapMetaPack T = Some buf /\
    let zero := replicate (Z.to_nat SIZEOF_MI) 0 in
    let n := Z.of_nat (length buf) in
    let re := mkRe zero (Some (m_key m)) (Some (m_url m)) (m_objsize m) n in
    parse_header (buf ++ rest) (Z.of_nat (length (buf ++ rest))) rebuild_entry_init = Some (re, 1) /\
    write_swaplog_entry re = Some (Some (n + m_objsize m, zero, m_key m)).
Proof.
  intros Hm Hnul Hob H5 Hr. destruct (swapmeta_roundtrip_ok m rest 0 Hm) as (T & buf & HT & Hbuf & Hun & Htl).
  exists T, buf. split; [done|]. split; [done|]. cbn zeta.
  assert (Z.of_nat (length buf) < 2 ^ 20) as Hlen.
  { rewrite (storeSwapMetaBuild_ok m Hm) in HT. injection HT as <-.
    assert (packed_size (meta_tlvs m) <= 2 ^ 19) as Hsz.
    { destruct Hm as (Hk & Hs & Hu & Hv & Hst). unfold meta_tlvs. rewrite !packed_size_app.
      destruct (-1 <? m_objsize m), (m_vary m) as [v|], (m_store_url m) as [u|]; cbn;
        try specialize (Hv v eq_refl); try specialize (Hst u eq_refl); lia. }
    destruct (pack_ok _ _ (meta_tlvs_ok m Hm) ltac:(lia)) as (r & _ & Hr' & Ep). rewrite Hbuf in Ep.
    injection Ep as ->. rewrite !length_app, !length_le_bytes. lia. }
  specialize (Htl ltac:(rewrite length_app; lia) H5). split.
  - unfold parse_header. rewrite Htl. bind_simpl.
    rewrite (storeSwapMetaBuild_ok m Hm) in HT. injection HT as <-.
    destruct (meta_tlvs m) as [|t l] eqn:El; [done|]. rewrite <- El.
    rewrite (parse_loop_meta m _ Hm Hnul ltac:(lia)). bind_simpl. rewrite (proj2 (Z.ltb_lt (-1) _)) by lia. done.
  - unfold write_swaplog_entry. cbn [file_size hdr_size md5_key mi].
    rewrite (proj2 (Z.ltb_ge _ 0)), (proj2 (Z.ltb_ge _ 0)) by lia. done.
Qed.

Lemma parse_header_roundtrip_witness :
  exists T buf, storeSwapMetaBuild m1 = Some T /\ storeSwapMetaPack T = Some buf /\
    let zero := replicate (Z.to_nat SIZEOF_MI) 0 in
    let n := Z.of_nat (length buf) in
    let re := mkRe zero (Some (m_key m1)) (Some (m_url m1)) (m_objsize m1) n in
    parse_header (buf ++ str "HTTP/1.0") (Z.of_nat (length (buf ++ str "HTTP/1.0"))) rebuild_entry_init = Some (re, 1) /\
    write_swaplog_entry re = Some (Some (n + m_objsize m1, zero, m_key m1)).
Proof.
  apply (parse_header_roundtrip m1 (str "HTTP/1.0") m1_ok); [|by vm_compute..].
  repeat (apply List.Forall_cons; [by vm_compute|]). apply List.Forall_nil.
Defined.

(** [storeSwapMetaAssemble], the one-pass writer that is disabled as buggy,
    never makes metadata a reader accepts: it writes the length of its first
    record where the total length belongs, and when all optional records are
    present it writes past the end of its buffer. *)
Theorem storeSwapMetaAssemble_broken m :
  meta_ok m ->
  (forall b rest h, storeSwapMetaAssemble m = Some b -> storeSwapMetaUnpack (b ++ rest) h = Some ([], h)) /\
  (-1 < m_objsize m -> is_Some (m_vary m) -> is_Some (m_store_url m) -> storeSwapMetaAssemble m = None).
Proof.
  intros (Hk & Hs & Hu & Hv & Hst). split.
  - intros b rest h E. unfold storeSwapMetaAssemble in E.
    set (cap := 4 + 1 + _ + 5 * 6) in E.
    assert (forall b t src l b', storeSwapMetaAssemblePart cap b t src l = Some b' ->
              exists c, b' = b ++ le_bytes 1 t ++ le_bytes 4 l ++ c) as Hpart.
    { intros b0 t src l b' Hb. unfold storeSwapMetaAssemblePart in Hb. inv_opt Hb. injection Hb as <-. by eexists. }
    assert (exists c, b = (le_bytes 1 STORE_META_OK ++ le_bytes 4 4) ++ c) as [c ->].
    { set (p := le_bytes 1 STORE_META_OK ++ le_bytes 4 4).
      assert (forall b b', (exists c, b = p ++ c) -> (exists c, b' = b ++ c) -> exists c, b' = p ++ c) as Hstep.
      { intros ? ? [c1 ->] [c2 ->]. rewrite <- app_assoc. by eexists. }
      inv_opt E. apply Hpart in E0 as [c0 ->]. apply Hpart in E1 as [c1 ->]. apply Hpart in E2 as [c2 ->].
      apply Hpart in E3 as [c3 ->]. injection E as <-.
      eapply Hstep; [|destruct (m_store_url m); [by apply Hpart in E6 as [? ->]; eexists|injection E6 as ->; exists []; by rewrite app_nil_r]].
      eapply Hstep; [|destruct (m_vary m); [by apply Hpart in E5 as [? ->]; eexists|injection E5 as ->; exists []; by rewrite app_nil_r]].
      eapply Hstep; [|destruct (-1 <? m_objsize m); [by apply Hpart in E4 as [? ->]; eexists|injection E4 as <-; exists []; by rewrite app_nil_r]].
      unfold p. rewrite <- !app_assoc. cbn [app]. by eexists. }
    unfold storeSwapMetaUnpack, get_char, get_int. rewrite <- !app_assoc.
    rewrite (slice_0 (le_bytes 1 STORE_META_OK) _ 1) by (by rewrite length_le_bytes). bind_simpl.
    rewrite le_val_bytes. change (wrap_s 8 (STORE_META_OK `mod` 256 ^ Z.of_nat 1)) with STORE_META_OK. rewrite Z.eqb_refl.
    cbn [negb]. rewrite (slice_at (le_bytes 1 STORE_META_OK) (le_bytes 4 4) _ 1 4) by (by rewrite length_le_bytes). bind_simpl.
    by rewrite le_val_bytes.
  - intros Ho [v Ev] [u Eu]. unfold storeSwapMetaAssemble. rewrite Ev, Eu. cbn [strlen_opt].
    rewrite (proj2 (Z.ltb_lt _ _) Ho). set (cap := 4 + 1 + _ + 5 * 6).
    assert (forall b t src l, l = Z.of_nat (length src) ->
      storeSwapMetaAssemblePart cap b t src l =
        assert? Z.of_nat (length b) + 5 + l <=? cap in Some (b ++ le_bytes 1 t ++ le_bytes 4 l ++ src)) as Hpart.
    { intros b t src l Hl. unfold storeSwapMetaAssemblePart. rewrite (slice_all src l Hl). bind_simpl.
      rewrite !length_app, !length_le_bytes. by replace (Z.of_nat _) with (Z.of_nat (length b) + 5 + l) by lia. }
    destruct (storeSwapMetaAssemblePart cap [] _ _ _) as [b0|] eqn:E0; [|done]. bind_simpl.
    destruct (storeSwapMetaAssemblePart cap b0 _ _ _) as [b1|] eqn:E1; [|done]. bind_simpl.
    destruct (storeSwapMetaAssemblePart cap b1 _ _ _) as [b2|] eqn:E2; [|done]. bind_simpl.
    destruct (storeSwapMetaAssemblePart cap b2 _ _ _) as [b3|] eqn:E3; [|done]. bind_simpl.
    destruct (storeSwapMetaAssemblePart cap b3 _ _ _) as [b4|] eqn:E4; [|done]. bind_simpl.
    destruct (storeSwapMetaAssemblePart cap b4 _ _ _) as [b5|] eqn:E5; [|done]. bind_simpl.
    rewrite Hpart in E0, E1, E2, E3, E4, E5
      by (rewrite ?length_app, ?length_le_bytes, ?Hk, ?Hs; unfold SQUID_MD5_DIGEST_LENGTH, STORE_HDR_METASIZE; cbn [length]; lia).
    inv_opt E0. injection E0 as <-. inv_opt E1. injection E1 as <-. inv_opt E2. injection E2 as <-.
    inv_opt E3. injection E3 as <-. inv_opt E4. injection E4 as <-. inv_opt E5. injection E5 as <-.
    rewrite Hpart by (rewrite length_app; cbn; lia).
    rewrite (proj2 (Z.leb_gt _ cap)); [done|].
    rewrite !length_app, !length_le_bytes. cbn [length]. unfold cap, SQUID_MD5_DIGEST_LENGTH, STORE_HDR_METASIZE. lia.
Qed.

Definition m2 : meta := mkMeta (replicate 16 1) (replicate 44 2) (str "http://a/") 100 (Some (str "x")) (Some (str "http://b/")).

Lemma m2_ok : meta_ok m2.
Proof. split; [done|]. split; [done|]. split; [done|]. by split; intros v [= <-]. Qed.

Lemma storeSwapMetaAssemble_witness :
  (forall b rest h, storeSwapMetaAssemble m2 = Some b -> storeSwapMetaUnpack (b ++ rest) h = Some ([], h)) /\
  (-1 < m_objsize m2 -> is_Some (m_vary m2) -> is_Some (m_store_url m2) -> storeSwapMetaAssemble m2 = None).
Proof. apply (storeSwapMetaAssemble_broken m2 m2_ok). Defined.

(** Metadata that fills its buffer is refused by [tlv_unpack]. *)
Lemma tlv_unpack_exact_buffer :
  (let? T := storeSwapMetaBuild m1 in
   let? buf := storeSwapMetaPack T in
   tlv_unpack buf (Z.of_nat (length buf)) (STORE_META_END + 10)) = Some ([], 118).
Proof. by vm_compute. Qed.

(** [storeSwapMetaUnpack] does not know the size of its buffer: a length field
    larger than it makes it read past the end. *)
Lemma storeSwapMetaUnpack_overread :
  storeSwapMetaUnpack (3 :: le_bytes 4 1000 ++ 4 :: le_bytes 4 500 ++ [65; 0]) 0 = None.
Proof. by vm_compute. Qed.

(** A key record that is too short is read past its end, and an entry without
    a key is logged through a NULL pointer. *)
Lemma parse_header_short_key :
  parse_header (3 :: le_bytes 4 12 ++ 3 :: le_bytes 4 2 ++ [7; 7] ++ replicate 10 0) 22 rebuild_entry_init = None.
Proof. by vm_compute. Qed.

Lemma write_swaplog_entry_no_key :
  (let? (re, r) := parse_header (3 :: le_bytes 4 25 ++ 4 :: le_bytes 4 2 ++ [65; 0] ++ 10 :: le_bytes 4 8 ++ le_bytes 8 9
                                  ++ replicate 10 0) 40 rebuild_entry_init in
   if 0 <? r then write_swaplog_entry re else Some None) = None.
Proof. by vm_compute. Qed.

End Tlv.
