(* ===== verification/HashTable.v ===== *)
(** * Hash tables

    lib/hash.c.  A table links objects the caller owns, so the links live in a
    memory indexed by address and the table is its record of bucket heads and
    traversal state.  The comparison and hash functions a table is created
    with are the class [HashFns]; the laws the table needs of them are
    [HashLaws], which [strcmp] with [hash4] or [hash_string] satisfies. *)

From Stdlib Require Import ZArith Lia SpecFloat.
From stdpp Require Import base gmap list numbers option fin_maps.
From S2P Require Import Prelude CStr.

(** ** The functions a table is created with *)

(** [HASHCMP] and [HASHHASH]. *)
Class HashFns (K : Type) := { cmp : K -> K -> Z; hash : K -> Z -> Z }.

Definition key_eq {K} `{HashFns K} (a b : K) : Prop := cmp a b = 0.

Class HashLaws (K : Type) `{HashFns K} := {
  key_eq_equiv :: Equivalence key_eq;
  hash_proper :: Proper (key_eq ==> eq ==> eq) hash;
  hash_range : forall k n, 0 < n -> 0 <= hash k n < n
}.

(** A character of a string as the [char] the code adds up. *)
Definition schar (c : Z) : Z := wrap_s 8 c.

(** ** [hash_string] and [hash4] *)

Definition hash_string (s : bytes) (size : Z) : Z :=
  let fix loop s n j :=
    match s with
    | [] => (n, j)
    | c :: s => loop s (Z.lxor n (wrap_u 32 (271 * wrap_u 32 (schar c)))) (wrap_u 32 (j + 1))
    end in
  let '(n, j) := loop s 0 0 in
  let i := Z.lxor n (wrap_u 32 (j * 271)) in
  i `mod` size.

(** One [HASH4]: the character is consumed. *)
Definition HASH4 (st : Z * bytes) : Z * bytes :=
  let '(h, key) := st in (wrap_u 32 (wrap_u 32 (Z.shiftl h 5) + h + schar (deref key)), tail key).

(** The [while (loop--)] of [hash4]: eight steps a round. *)
Fixpoint hash4_loop (loop : nat) (st : Z * bytes) : Z * bytes :=
  match loop with
  | O => st
  | S loop => hash4_loop loop (HASH4 (HASH4 (HASH4 (HASH4 (HASH4 (HASH4 (HASH4 (HASH4 st))))))))
  end.

Definition hash4 (data : bytes) (size : Z) : Z :=
  let len := length data in
  let loop := Nat.div len 8 in
  let st := (0, data) in
  (* case labels 7 .. 1 fall through *)
  let st := match Nat.modulo len 8 with
            | 7%nat => HASH4 (HASH4 (HASH4 (HASH4 (HASH4 (HASH4 (HASH4 st))))))
            | 6%nat => HASH4 (HASH4 (HASH4 (HASH4 (HASH4 (HASH4 st)))))
            | 5%nat => HASH4 (HASH4 (HASH4 (HASH4 (HASH4 st))))
            | 4%nat => HASH4 (HASH4 (HASH4 (HASH4 st)))
            | 3%nat => HASH4 (HASH4 (HASH4 st))
            | 2%nat => HASH4 (HASH4 st)
            | 1%nat => HASH4 st
            | _ => st
            end in
  fst (hash4_loop loop st) `mod` size.

(** [strcmp] of the C library: the difference of the first bytes that differ,
    the NUL included. *)
Fixpoint strcmp (a b : bytes) : Z :=
  match a, b with
  | [], [] => 0
  | x :: a, y :: b => if x =? y then strcmp a b else x - y
  | [], y :: _ => - y
  | x :: _, [] => x
  end.

(** ** [hashPrime]: the logarithm of the C library is a parameter *)

Definition hash_primes : list Z :=
  [103; 229; 467; 977; 1979; 4019; 6037; 7951; 12149; 16231; 33493; 65357].

Definition dbl_abs (x : dbl) : dbl := SFabs x.
(** [a > b] on doubles: false when one is a NaN. *)
Definition dbl_gtb (a b : dbl) : bool := SFltb b a.

Definition hashPrime (log : dbl -> dbl) (n : Z) : Z :=
  let dist p := dbl_abs (dbl_sub (log (dbl_of_Z n)) (log (dbl_of_Z p))) in
  let fix loop ps min best :=
    match ps with
    | [] => best
    | p :: ps => let d := dist p in if dbl_gtb d min then loop ps min best else loop ps d p
    end in
  loop hash_primes (dist 103) 103.

Module HashTable.
Section table.
Context {K : Type} `{HashFns K}.

Record hash_link := mkLink { key : option K; next : option positive }.

Record hash_table := mkTable {
  buckets : list (option positive);
  size : Z;            (** [unsigned int] *)
  current_slot : Z;    (** [unsigned int] *)
  tnext : option positive;
  count : Z
}.

Abbreviation links := (gmap positive hash_link).
Implicit Types (σ : links) (T : hash_table).

Definition set_next (q : option positive) (n : hash_link) : hash_link := mkLink (key n) q.

(** [hid->hash(key, hid->size)]; the hash functions read through the key. *)
Definition hash_key T (k : option K) : option Z := let? k := k in Some (hash k (size T)).

Definition bucket T (i : Z) : option (option positive) := buckets T !! Z.to_nat i.

Definition DEFAULT_HASH_SIZE : Z := 7951.

Definition hash_create (hash_sz : Z) : hash_table :=
  let sz := if hash_sz =? 0 then DEFAULT_HASH_SIZE else wrap_u 32 hash_sz in
  mkTable (replicate (Z.to_nat sz) None) sz 0 None 0.

Definition hash_join (lnk : positive) T σ : option (links * hash_table) :=
  let? n := σ !! lnk in
  let? i := hash_key T (key n) in
  let? b := bucket T i in
  Some (<[lnk := set_next b n]> σ,
        mkTable (<[Z.to_nat i := Some lnk]> (buckets T)) (size T) (current_slot T) (tnext T) (count T + 1)).

(** The walk of [hash_lookup] along a bucket. *)
Fixpoint lookup_loop (fuel : nat) (k : K) (walker : option positive) σ : option (option positive) :=
  match walker, fuel with
  | None, _ => Some None
  | Some _, O => None
  | Some w, S fuel =>
      let? n := σ !! w in
      match key n with
      | None => Some None
      | Some kw =>
          if cmp k kw =? 0 then Some (Some w)
          else assert? negb (bool_decide (next n = Some w)) in lookup_loop fuel k (next n) σ
      end
  end.

Definition hash_lookup (k : option K) T σ : option (option positive) :=
  let? k := k in
  let? b := bucket T (hash k (size T)) in
  lookup_loop (S (base.size σ)) k b σ.

(** [while (next == NULL && ++current_slot < size)]. *)
Fixpoint next_bucket_loop (fuel : nat) T : option hash_table :=
  match tnext T with
  | Some _ => Some T
  | None =>
      let T := mkTable (buckets T) (size T) (wrap_u 32 (current_slot T + 1)) (tnext T) (count T) in
      if current_slot T <? size T then
        match fuel with
        | O => None
        | S fuel =>
            let? b := bucket T (current_slot T) in
            next_bucket_loop fuel (mkTable (buckets T) (size T) (current_slot T) b (count T))
        end
      else Some T
  end.

Definition hash_next_bucket T : option hash_table := next_bucket_loop (length (buckets T)) T.

Definition set_tnext (p : option positive) T : hash_table :=
  mkTable (buckets T) (size T) (current_slot T) p (count T).

Definition hash_first T : option hash_table :=
  assert? bool_decide (tnext T = None) in
  let T := mkTable (buckets T) (size T) 0 (tnext T) (count T) in
  let? b := bucket T 0 in
  let T := set_tnext b T in
  if bool_decide (tnext T = None) then hash_next_bucket T else Some T.

(** The item, [None] at the end. *)
Definition hash_next T σ : option (hash_table * option positive) :=
  match tnext T with
  | None => Some (T, None)
  | Some this =>
      let? n := σ !! this in
      let T := set_tnext (next n) T in
      let? T := if bool_decide (tnext T = None) then hash_next_bucket T else Some T in
      Some (T, Some this)
  end.

Definition hash_last T : hash_table := mkTable (buckets T) (size T) 0 None (count T).

(** The search of [hash_remove_link] for the pointer that points to [hl];
    [P] is the link that holds it, [None] for the bucket head.  The assignment
    through it yields the memory and the new bucket head. *)
Fixpoint remove_loop (fuel : nat) (hl : positive) (hd P : option positive) σ : option (links * option positive) :=
  let? cur := match P with None => Some hd | Some p => let? n := σ !! p in Some (next n) end in
  match cur, fuel with
  | None, _ => None
  | Some _, O => None
  | Some c, S fuel =>
      if bool_decide (c = hl) then
        let? n := σ !! hl in
        match P with
        | None => Some (σ, next n)
        | Some p => let? m := σ !! p in Some (<[p := set_next (next n) m]> σ, hd)
        end
      else remove_loop fuel hl hd (Some c) σ
  end.

Definition hash_remove_link (hl : positive) T σ : option (links * hash_table) :=
  let? n := σ !! hl in
  let? i := hash_key T (key n) in
  let? b := bucket T i in
  let? (σ, b) := remove_loop (S (base.size σ)) hl b None σ in
  let T := mkTable (<[Z.to_nat i := b]> (buckets T)) (size T) (current_slot T) (tnext T) (count T) in
  let? T := if bool_decide (tnext T = Some hl) then
              let? n := σ !! hl in
              let T := set_tnext (next n) T in
              if bool_decide (tnext T = None) then hash_next_bucket T else Some T
            else Some T in
  Some (σ, mkTable (buckets T) (size T) (current_slot T) (tnext T) (count T - 1)).

Definition hash_get_bucket (b : Z) T : option (option positive) :=
  if size T <=? b then Some None else bucket T b.

(** The first loop of [hashFreeItems]: [acc] is the filled part of [list]. *)
Fixpoint collect_loop (fuel : nat) (i : Z) (acc : list positive) T σ : option (hash_table * list positive) :=
  match fuel with
  | O => None
  | S fuel =>
      let? (T, l) := hash_next T σ in
      match l with
      | None => Some (T, acc)
      | Some l => if i <? count T then collect_loop fuel (i + 1) (acc ++ [l]) T σ else Some (T, acc)
      end
  end.

(** [free_func] acts on a world of the caller's. *)
Definition hashFreeItems {W} (free_func : positive -> W -> W) T σ (w : W) : option (hash_table * W) :=
  let? T := hash_first T in
  let? (T, list) := collect_loop (S (Z.to_nat (count T))) 0 [] T σ in
  Some (T, foldl (fun w l => free_func l w) w list).

(** The pairs [hash_print] prints. *)
Fixpoint print_walk (fuel : nat) (l : option positive) σ : option unit :=
  match l, fuel with
  | None, _ => Some ()
  | Some _, O => None
  | Some p, S fuel => let? n := σ !! p in print_walk fuel (next n) σ
  end.

Fixpoint print_loop (fuel : nat) (i : Z) T σ : option (list (Z * Z)) :=
  match fuel with
  | O => Some []
  | S fuel =>
      let? l := bucket T i in
      let? _ := print_walk (base.size σ) l σ in
      let? out := print_loop fuel (i + 1) T σ in
      Some ((i, 0) :: out)
  end.

Definition hash_print T σ : option (list (Z * Z)) := print_loop (Z.to_nat (count T)) 0 T σ.

(** ** What a table holds

    [chain σ p l]: the links [l] in order are what a walk from [p] meets. *)
Fixpoint chain σ (p : option positive) (l : list positive) : Prop :=
  match l with
  | [] => p = None
  | q :: l => p = Some q /\ exists n, σ !! q = Some n /\ chain σ (next n) l
  end.

Definition key_at σ (p : positive) : option K := let? n := σ !! p in key n.

(** [cs] are the items of the buckets. *)
Record rep σ T (cs : list (list positive)) : Prop := mkRep {
  rep_buckets : Forall2 (chain σ) (buckets T) cs;
  rep_size : size T = Z.of_nat (length cs);
  rep_range : 0 < size T < 2 ^ 32;
  rep_nodup : NoDup (concat cs);
  rep_count : count T = Z.of_nat (length (concat cs));
  rep_place : forall b l p, cs !! b = Some l -> p ∈ l ->
    exists k, key_at σ p = Some k /\ hash k (size T) = Z.of_nat b
}.

(** [walk T cs rest]: the traversal has [rest] still to return. *)
Inductive walk T (cs : list (list positive)) : list positive -> Prop :=
| walk_end : tnext T = None -> walk T cs []
| walk_mid b l1 p l2 : tnext T = Some p -> current_slot T = Z.of_nat b -> cs !! b = Some (l1 ++ p :: l2) ->
    walk T cs ((p :: l2) ++ concat (drop (S b) cs)).

(** The items under a key, most recently joined first. *)
Definition has_key σ (k : K) (p : positive) : bool :=
  match key_at σ p with Some k' => cmp k k' =? 0 | None => false end.
Definition items σ (cs : list (list positive)) (k : K) : list positive :=
  filter (fun p => has_key σ k p = true) (concat cs).

(** *** Sequences of operations during a traversal *)

Inductive op := Join (p : positive) | Remove (p : positive) | Next.

(** The memory, the table, and the items [hash_next] has returned. *)
Fixpoint run (ops : list op) T σ (seen : list positive) : option (links * hash_table * list positive) :=
  match ops with
  | [] => Some (σ, T, seen)
  | Join p :: ops => let? (σ, T) := hash_join p T σ in run ops T σ seen
  | Remove p :: ops => let? (σ, T) := hash_remove_link p T σ in run ops T σ seen
  | Next :: ops =>
      let? (T, r) := hash_next T σ in
      run ops T σ (match r with Some p => seen ++ [p] | None => seen end)
  end.

(** Each joined item has a key and is not in the table; each removed one is. *)
Fixpoint valid σ (ops : list op) (members : gset positive) : Prop :=
  match ops with
  | [] => True
  | Join p :: ops => p ∉ members /\ is_Some (key_at σ p) /\ valid σ ops ({[p]} ∪ members)
  | Remove p :: ops => p ∈ members /\ valid σ ops (members ∖ {[p]})
  | Next :: ops => valid σ ops members
  end.

(** ** Lemmas: chains *)

Lemma chain_head σ p l : chain σ p l -> p = head l.
Proof. destruct l as [|q l]; cbn; [done|by intros [-> _]]. Qed.

Lemma chain_ext σ σ' p l : (forall q, q ∈ l -> σ' !! q = σ !! q) -> chain σ p l -> chain σ' p l.
Proof.
  revert p. induction l as [|q l IH]; intros p Hq; cbn [chain]; [done|]. intros (-> & n & Hn & Hl).
  split; [done|]. exists n. rewrite Hq by (by apply elem_of_cons; left). split; [done|].
  apply IH; [|done]. intros r Hr. apply Hq. by apply elem_of_cons; right.
Qed.

Lemma chain_in_dom σ p l q : chain σ p l -> q ∈ l -> is_Some (σ !! q).
Proof.
  revert p. induction l as [|r l IH]; intros p; cbn [chain]; [by intros _ ?%elem_of_nil|].
  intros (-> & n & Hn & Hl) [->|Hq]%elem_of_cons; eauto.
Qed.

(** The links of a chain are distinct addresses of the memory: the walks have
    fuel enough. *)
Lemma chain_size σ p l : chain σ p l -> NoDup l -> (length l <= base.size σ)%nat.
Proof.
  intros Hl Hnd. rewrite <- size_dom. rewrite <- (size_list_to_set (C := gset positive)) by done.
  apply subseteq_size. intros q Hq%elem_of_list_to_set. apply elem_of_dom. by eapply chain_in_dom.
Qed.

Lemma chain_suffix σ p l1 q l2 : chain σ p (l1 ++ q :: l2) -> exists n, σ !! q = Some n /\ chain σ (next n) l2.
Proof.
  revert p. induction l1 as [|r l1 IH]; intros p; cbn [app chain].
  - intros (_ & n & ? & ?). eauto.
  - intros (_ & n & _ & Hl). by eapply IH.
Qed.

(** Only keys matter for what an item is filed under. *)
Lemma key_at_set_next σ p q n q' : σ !! p = Some n -> key_at (<[p := set_next q n]> σ) q' = key_at σ q'.
Proof.
  intros Hn. unfold key_at. destruct (decide (q' = p)) as [->|]; map_simpl; [by rewrite Hn|done].
Qed.

(** *** The bucket of an item *)

Lemma concat_lookup (cs : list (list positive)) p :
  p ∈ concat cs <-> exists b l, cs !! b = Some l /\ p ∈ l.
Proof.
  split.
  - induction cs as [|c cs IH]; cbn; [by intros ?%elem_of_nil|].
    intros [Hp|Hp]%elem_of_app; [by exists 0%nat, c|]. destruct (IH Hp) as (b & l & ? & ?). by exists (S b), l.
  - intros (b & l & Hb & Hp). revert b Hb. induction cs as [|c cs IH]; intros b Hb; [done|].
    cbn. apply elem_of_app. destruct b as [|b]; [left; by simplify_eq/=|right; by eapply IH].
Qed.

Lemma concat_split (cs : list (list positive)) b l :
  cs !! b = Some l -> concat cs = concat (take b cs) ++ l ++ concat (drop (S b) cs).
Proof.
  intros Hb. rewrite <- (take_drop_middle cs b l Hb) at 1. by rewrite concat_app.
Qed.

Lemma concat_insert (cs : list (list positive)) b l l' :
  cs !! b = Some l -> concat (<[b := l']> cs) = concat (take b cs) ++ l' ++ concat (drop (S b) cs).
Proof.
  intros Hb. rewrite insert_take_drop by (by eapply lookup_lt_Some). by rewrite concat_app.
Qed.


(** An item is in one bucket only. *)
Lemma NoDup_concat_ne (cs : list (list positive)) i j l l' q :
  NoDup (concat cs) -> cs !! i = Some l -> cs !! j = Some l' -> q ∈ l -> q ∈ l' -> i = j.
Proof.
  revert i j. induction cs as [|c cs IH]; intros i j Hnd Hi Hj Hq Hq'; [done|]. cbn in Hnd.
  apply NoDup_app in Hnd as (_ & Hd & Hnd). destruct i as [|i], j as [|j]; simplify_eq/=; [done| | |].
  - destruct (Hd q Hq). apply concat_lookup. eauto.
  - destruct (Hd q Hq'). apply concat_lookup. eauto.
  - f_equal. by eapply IH.
Qed.

Lemma rep_bucket σ T cs b l :
  rep σ T cs -> cs !! b = Some l -> exists p, bucket T (Z.of_nat b) = Some p /\ chain σ p l /\ NoDup l.
Proof.
  intros Hr Hb. destruct (Forall2_lookup_r _ _ _ _ _ (rep_buckets _ _ _ Hr) Hb) as (p & Hp & Hc).
  exists p. unfold bucket. rewrite Nat2Z.id. splits.
  pose proof (rep_nodup _ _ _ Hr) as Hnd. rewrite (concat_split _ _ _ Hb) in Hnd.
  by apply NoDup_app in Hnd as (_ & _ & (? & _ & _)%NoDup_app).
Qed.

(** Every bucket index the code computes is one of the table's. *)
Lemma rep_bucket_index σ T cs i : rep σ T cs -> 0 <= i < size T -> exists b l, i = Z.of_nat b /\ cs !! b = Some l.
Proof.
  intros Hr Hi. pose proof (rep_size _ _ _ Hr). exists (Z.to_nat i).
  destruct (lookup_lt_is_Some_2 cs (Z.to_nat i)) as [l Hl]; [lia|]. exists l. split; [lia|done].
Qed.

Lemma rep_key σ T cs p : rep σ T cs -> p ∈ concat cs -> is_Some (key_at σ p).
Proof.
  intros Hr (b & l & Hb & Hp)%concat_lookup. destruct (rep_place _ _ _ Hr b l p Hb Hp) as (k & -> & _). eauto.
Qed.

Lemma NoDup_middle (l1 l l2 l' : list positive) :
  NoDup (l1 ++ l ++ l2) -> NoDup l' -> (forall q, q ∈ l' -> q ∉ l -> q ∉ l1 ++ l ++ l2) -> NoDup (l1 ++ l' ++ l2).
Proof.
  intros (H1 & Hd1 & (H2 & Hd2 & H3)%NoDup_app)%NoDup_app Hl' Hq.
  assert (forall q, q ∈ l' -> q ∉ l1 /\ q ∉ l2) as Hn.
  { intros q Hin. destruct (decide (q ∈ l)) as [Hl|Hl].
    - split; [intros Hx; apply (Hd1 q Hx), elem_of_app; auto|auto].
    - specialize (Hq q Hin Hl). rewrite !elem_of_app in Hq. tauto. }
  apply NoDup_app. splits.
  - intros q Hx [Hy|Hy]%elem_of_app; [by destruct (Hn q Hy)|]. apply (Hd1 q Hx), elem_of_app. auto.
  - apply NoDup_app. splits. intros q Hx. by apply Hn.
Qed.

(** Replacing the contents of one bucket. *)
Lemma rep_update σ σ' T T' cs b l l' p :
  rep σ T cs -> cs !! b = Some l ->
  buckets T' = <[b := p]> (buckets T) -> size T' = size T ->
  count T' = count T + Z.of_nat (length l') - Z.of_nat (length l) ->
  chain σ' p l' -> NoDup l' ->
  (forall q, q ∉ l' -> σ' !! q = σ !! q) -> (forall q, key_at σ' q = key_at σ q) ->
  (forall q, q ∈ l' -> q ∉ l -> q ∉ concat cs /\ exists k, key_at σ q = Some k /\ hash k (size T) = Z.of_nat b) ->
  rep σ' T' (<[b := l']> cs).
Proof.
  intros Hr Hb HB Hs Hc Hch Hnd Hσ Hk Hnew.
  assert (NoDup (concat (<[b := l']> cs))) as Hnd'.
  { rewrite (concat_insert _ _ _ _ Hb). eapply (NoDup_middle _ l); [|done|].
    - rewrite <- (concat_split _ _ _ Hb). apply Hr.
    - intros q ? ?. rewrite <- (concat_split _ _ _ Hb). by apply Hnew. }
  assert (b < length cs)%nat as Hlt by (by eapply lookup_lt_Some). split.
  - rewrite HB. apply Forall2_same_length_lookup_2.
    + rewrite !length_insert. by eapply Forall2_length, Hr.
    + intros j x y Hx Hy. destruct (decide (j = b)) as [->|Hne].
      * rewrite list_lookup_insert_eq in Hy by done. apply list_lookup_insert_Some in Hx. naive_solver.
      * rewrite list_lookup_insert_ne in Hx by done. rewrite list_lookup_insert_ne in Hy by done. apply (chain_ext σ).
        -- intros q Hq. apply Hσ. intros Hq'. apply Hne. symmetry.
           apply (NoDup_concat_ne (<[b := l']> cs) b j l' y q); try done.
           ++ by apply list_lookup_insert_eq.
           ++ by rewrite list_lookup_insert_ne.
        -- by eapply Forall2_lookup_lr; [apply Hr|..].
  - rewrite Hs, length_insert. apply Hr.
  - rewrite Hs. apply Hr.
  - done.
  - rewrite Hc, (rep_count _ _ _ Hr), (concat_insert _ _ _ _ Hb), (concat_split _ _ _ Hb). len_lia.
  - intros j y q Hy Hq. rewrite Hs, Hk. apply list_lookup_insert_Some in Hy as [(-> & <- & _)|(Hne & Hy)].
    + destruct (decide (q ∈ l)); [by eapply rep_place|]. by apply Hnew.
    + by eapply rep_place.
Qed.

(** *** Lookup *)

Lemma lookup_loop_chain k p l σ fuel :
  chain σ p l -> NoDup l -> (forall q, q ∈ l -> is_Some (key_at σ q)) -> (length l <= fuel)%nat ->
  lookup_loop fuel k p σ = Some (head (filter (fun q => has_key σ k q = true) l)).
Proof.
  revert p fuel. induction l as [|q l IH]; intros p fuel Hc Hnd Hk Hf; cbn [chain] in Hc.
  { subst p. by destruct fuel. }
  destruct Hc as (-> & n & Hn & Hc). destruct fuel as [|fuel]; cbn [length] in Hf; [lia|].
  apply NoDup_cons in Hnd as [Hq Hnd]. cbn [lookup_loop]. rewrite Hn. bind_simpl.
  destruct (Hk q) as [kq Hkq]; [by apply elem_of_cons; left|].
  assert (has_key σ k q = (cmp k kq =? 0)) as Hhk by (unfold has_key; by rewrite Hkq).
  unfold key_at in Hkq. rewrite Hn in Hkq. cbn in Hkq. rewrite Hkq. rewrite filter_cons, Hhk.
  destruct (cmp k kq =? 0); cbn [decide]; [done|]. rewrite decide_False by done.
  assert (next n <> Some q) as Hne.
  { rewrite (chain_head _ _ _ Hc). intros He. apply Hq. by apply head_Some_elem_of. }
  rewrite bool_decide_eq_false_2 by done. cbn [negb]. apply IH; [done..| |lia].
  intros r Hr. apply Hk. by apply elem_of_cons; right.
Qed.

Context `{!HashLaws K}.

Lemma has_key_bucket σ T cs k b l q :
  rep σ T cs -> cs !! b = Some l -> q ∈ l -> has_key σ k q = true -> hash k (size T) = Z.of_nat b.
Proof.
  intros Hr Hb Hq. destruct (rep_place _ _ _ Hr b l q Hb Hq) as (k' & Hk & Hh). unfold has_key. rewrite Hk.
  intros He%Z.eqb_eq. rewrite <- Hh. by apply hash_proper.
Qed.

Lemma filter_none (P : positive -> bool) l : (forall q, q ∈ l -> P q = true -> False) -> filter (fun q => P q = true) l = [].
Proof.
  induction l as [|q l IH]; intros Hq; [done|]. rewrite filter_cons, decide_False.
  - apply IH. intros r Hr. apply Hq. by apply elem_of_cons; right.
  - intros HP. apply (Hq q); [by apply elem_of_cons; left|done].
Qed.

(** The items under a key are all in its bucket. *)
Lemma items_bucket σ T cs k b l :
  rep σ T cs -> hash k (size T) = Z.of_nat b -> cs !! b = Some l ->
  items σ cs k = filter (fun q => has_key σ k q = true) l.
Proof.
  intros Hr Hh Hb. unfold items. rewrite (concat_split _ _ _ Hb), !filter_app.
  rewrite (filter_none _ (concat (take b cs))), (filter_none _ (concat (drop (S b) cs))).
  - by rewrite app_nil_r.
  - intros q (j & l' & Hj & Hq)%concat_lookup Hk. rewrite lookup_drop in Hj.
    pose proof (has_key_bucket _ _ _ _ _ _ _ Hr Hj Hq Hk). lia.
  - intros q (j & l' & Hj & Hq)%concat_lookup Hk. apply lookup_take_Some in Hj as [Hj Hlt].
    pose proof (has_key_bucket _ _ _ _ _ _ _ Hr Hj Hq Hk). lia.
Qed.

Lemma hash_lookup_ok σ T cs k :
  rep σ T cs -> hash_lookup (Some k) T σ = Some (head (items σ cs k)).
Proof.
  intros Hr. destruct (rep_bucket_index _ _ _ (hash k (size T)) Hr) as (b & l & Hi & Hb).
  { apply hash_range. apply Hr. }
  rewrite (items_bucket _ _ _ _ _ _ Hr Hi Hb). destruct (rep_bucket _ _ _ _ _ Hr Hb) as (p & Hp & Hc & Hnd).
  unfold hash_lookup. bind_simpl. rewrite Hi, Hp. bind_simpl. apply lookup_loop_chain; try done.
  - intros q Hq. eapply rep_key; [done|]. apply concat_lookup. eauto.
  - pose proof (chain_size _ _ _ Hc Hnd). lia.
Qed.

(** *** Joining and removing *)

(** Traversals are not disturbed by a change of bucket [b], except that the
    items still to return follow it. *)
Definition same_walk T T' : Prop := tnext T' = tnext T /\ current_slot T' = current_slot T.

Lemma hash_join_ok σ T cs p k :
  rep σ T cs -> key_at σ p = Some k -> p ∉ concat cs ->
  exists σ' T' b l, hash_join p T σ = Some (σ', T') /\ cs !! b = Some l /\ hash k (size T) = Z.of_nat b /\
    rep σ' T' (<[b := p :: l]> cs) /\ (forall q, key_at σ' q = key_at σ q) /\ same_walk T T'.
Proof.
  intros Hr Hk Hp. destruct (rep_bucket_index _ _ _ (hash k (size T)) Hr) as (b & l & Hi & Hb).
  { apply hash_range. apply Hr. }
  destruct (rep_bucket _ _ _ _ _ Hr Hb) as (h & Hh & Hc & Hnd).
  pose proof Hk as Hk'. unfold key_at in Hk'. destruct (σ !! p) as [n|] eqn:Hn; [|done]. cbn in Hk'.
  unfold hash_join. rewrite Hn. bind_simpl. rewrite Hk'. unfold hash_key. bind_simpl. rewrite Hi, Hh. bind_simpl.
  assert (p ∉ l) as Hpl by (intros ?; apply Hp, concat_lookup; eauto).
  eexists _, _, b, l. split; [done|]. split; [done|]. split; [done|].
  assert (forall q, key_at (<[p := set_next h n]> σ) q = key_at σ q) as Hkeys by (intros; by apply key_at_set_next).
  splits. eapply (rep_update σ _ T _ cs b l (p :: l) (Some p)); try done; cbn [buckets size count].
  - by rewrite Nat2Z.id.
  - cbn [length]. lia.
  - split; [done|]. exists (set_next h n). rewrite lookup_insert_eq. split; [done|]. cbn [set_next next].
    eapply chain_ext; [|done]. intros q Hq. rewrite lookup_insert_ne; [done|]. by intros ->.
  - by apply NoDup_cons.
  - intros q Hq. rewrite lookup_insert_ne; [done|]. intros ->. apply Hq, elem_of_cons. by left.
  - intros q [->|Hq]%elem_of_cons Hql; [|done]. split; [done|]. eauto.
Qed.

Lemma chain_next σ hd d r : chain σ hd (d ++ r) ->
  match list.last d with None => Some hd | Some p => let? n := σ !! p in Some (next n) end = Some (head r).
Proof.
  intros Hc. destruct d as [|p d _] using rev_ind; [by rewrite (chain_head _ _ _ Hc)|].
  rewrite last_snoc. rewrite <- app_assoc in Hc. destruct (chain_suffix _ _ _ _ _ Hc) as (n & -> & Hn).
  bind_simpl. by rewrite (chain_head _ _ _ Hn).
Qed.

Lemma remove_loop_chain σ hd hl l2 n r1 d fuel :
  chain σ hd (d ++ r1 ++ hl :: l2) -> hl ∉ r1 -> σ !! hl = Some n -> (length r1 < fuel)%nat ->
  remove_loop fuel hl hd (list.last d) σ =
    match list.last (d ++ r1) with
    | None => Some (σ, next n)
    | Some p => let? m := σ !! p in Some (<[p := set_next (next n) m]> σ, hd)
    end.
Proof.
  revert d fuel. induction r1 as [|c r1 IH]; intros d fuel Hc Hr1 Hn Hf; cbn [length] in Hf;
    (destruct fuel as [|fuel]; [lia|]); cbn [remove_loop]; rewrite (chain_next _ _ _ _ Hc); cbn [mbind option_bind app head].
  - rewrite bool_decide_eq_true_2 by done. rewrite Hn, app_nil_r. done.
  - apply not_elem_of_cons in Hr1 as [Hne Hr1]. rewrite bool_decide_eq_false_2 by done.
    specialize (IH (d ++ [c]) fuel). rewrite last_snoc, <- !app_assoc in IH. cbn [app] in IH.
    apply IH; [done..|lia].
Qed.

Lemma chain_app_ext σ σ' p l1 q l2 l3 n :
  chain σ p (l1 ++ q :: l2) -> (forall r, r ∈ l1 -> σ' !! r = σ !! r) ->
  σ' !! q = Some n -> chain σ' (next n) l3 -> chain σ' p (l1 ++ q :: l3).
Proof.
  intros Hc Hext Hq Hl. revert p Hc. induction l1 as [|r l1 IH]; intros p; cbn [app chain].
  - intros (-> & _). split; [done|]. eauto.
  - intros (-> & m & Hm & Hc). split; [done|]. exists m. rewrite Hext by (by apply elem_of_cons; left).
    split; [done|]. apply IH; [|done]. intros x Hx. apply Hext. by apply elem_of_cons; right.
Qed.

(** Unlinking an item of a bucket. *)
Lemma remove_loop_ok σ hd hl l1 l2 n :
  chain σ hd (l1 ++ hl :: l2) -> NoDup (l1 ++ hl :: l2) -> σ !! hl = Some n ->
  exists σ' hd', remove_loop (S (base.size σ)) hl hd None σ = Some (σ', hd') /\ chain σ' hd' (l1 ++ l2) /\
    (forall q, q ∉ l1 -> σ' !! q = σ !! q) /\ (forall q, key_at σ' q = key_at σ q).
Proof.
  intros Hc Hnd Hn. pose proof (chain_size _ _ _ Hc Hnd) as Hsz.
  pose proof Hnd as (Hnd1 & Hd & [Hhl Hnd2]%NoDup_cons)%NoDup_app.
  assert (hl ∉ l1) as Hl1 by (intros Hx; apply (Hd _ Hx), elem_of_cons; by left).
  pose proof (remove_loop_chain σ hd hl l2 n l1 [] (S (base.size σ)) Hc Hl1 Hn) as Hrm.
  cbn [list.last app] in Hrm. rewrite Hrm by len_lia. clear Hrm.
  destruct (chain_suffix _ _ _ _ _ Hc) as (n' & Hn' & Hc2). rewrite Hn in Hn'. simplify_eq.
  destruct l1 as [|p l1 _] using rev_ind; cbn [list.last]; [by exists σ, (next n')|].
  rewrite last_snoc. rewrite <- app_assoc in Hc. cbn [app] in Hc.
  destruct (chain_suffix _ _ _ _ _ Hc) as (m & Hm & _). rewrite Hm. bind_simpl. eexists _, _. split; [done|].
  apply NoDup_app in Hnd1 as (_ & Hp & _).
  assert (p ∉ l1) as Hpl1 by (intros Hx; apply (Hp _ Hx), list_elem_of_singleton; done).
  splits.
  - rewrite <- app_assoc. cbn [app]. eapply chain_app_ext; [exact Hc|..].
    + intros r Hr. rewrite lookup_insert_ne; [done|]. by intros ->.
    + by rewrite lookup_insert_eq.
    + cbn [set_next next]. eapply chain_ext; [|done]. intros q Hq. rewrite lookup_insert_ne; [done|]. intros ->.
      apply (Hd q); [by apply elem_of_app; right; apply list_elem_of_singleton|by apply elem_of_cons; right].
  - intros q Hq. rewrite lookup_insert_ne; [done|]. intros ->. apply Hq, elem_of_app. right. by apply list_elem_of_singleton.
  - intros q. by apply key_at_set_next.
Qed.

(** *** Traversal *)

Definition same_table T T' : Prop := buckets T' = buckets T /\ size T' = size T /\ count T' = count T.

Lemma next_bucket_loop_ok σ cs fuel T b :
  Forall2 (chain σ) (buckets T) cs -> size T = Z.of_nat (length cs) -> size T < 2 ^ 32 ->
  tnext T = None -> current_slot T = Z.of_nat b -> (b < length cs)%nat -> (length cs - S b <= fuel)%nat ->
  exists T', next_bucket_loop fuel T = Some T' /\ walk T' cs (concat (drop (S b) cs)) /\ same_table T T'.
Proof.
  revert T b. induction fuel as [|fuel IH]; intros T b HB Hs Hs2 Hn Hc Hb Hf; cbn [next_bucket_loop]; rewrite Hn;
    cbn [current_slot size]; rewrite Hc, wrap_u_small by lia.
  - destruct (Z.ltb_spec (Z.of_nat b + 1) (size T)); [lia|]. eexists. split; [done|]. split; [|done].
    rewrite drop_ge by lia. by apply walk_end.
  - destruct (Z.ltb_spec (Z.of_nat b + 1) (size T)).
    2: { eexists. split; [done|]. split; [|done]. rewrite drop_ge by lia. by apply walk_end. }
    destruct (lookup_lt_is_Some_2 cs (S b)) as [l Hl]; [lia|].
    destruct (Forall2_lookup_r _ _ _ _ _ HB Hl) as (p & Hp & Hch). unfold bucket. cbn [buckets].
    replace (Z.to_nat (Z.of_nat b + 1)) with (S b) by lia. rewrite Hp. bind_simpl.
    rewrite (drop_S _ _ _ Hl). cbn [concat].
    destruct l as [|q l]; cbn [chain] in Hch.
    + subst p. edestruct (IH (mkTable (buckets T) (size T) (Z.of_nat b + 1) None (count T)) (S b)) as (T' & HT & Hw & Hsame);
        cbn [buckets size tnext current_slot]; try done; [lia..|]. eauto.
    + destruct Hch as (-> & _). destruct fuel; cbn [next_bucket_loop tnext]; (eexists; split; [done|]; split; [|done]);
        eapply (walk_mid _ _ (S b) [] q l); try done; cbn; lia.
Qed.

(** What [hash_first], [hash_next] and [hash_remove_link] do after setting
    [next]. *)
Lemma advance_ok σ cs T b l1 l2 :
  Forall2 (chain σ) (buckets T) cs -> size T = Z.of_nat (length cs) -> size T < 2 ^ 32 ->
  cs !! b = Some (l1 ++ l2) -> tnext T = head l2 -> current_slot T = Z.of_nat b ->
  exists T', (if bool_decide (tnext T = None) then hash_next_bucket T else Some T) = Some T' /\
    walk T' cs (l2 ++ concat (drop (S b) cs)) /\ same_table T T'.
Proof.
  intros HB Hs Hs2 Hb Hn Hc. assert (b < length cs)%nat by (by eapply lookup_lt_Some). destruct l2 as [|p l2].
  - cbn in Hn. rewrite bool_decide_eq_true_2 by done.
    eapply (next_bucket_loop_ok σ cs (length (buckets T)) T b); try done. rewrite (Forall2_length _ _ _ HB). lia.
  - cbn in Hn. rewrite Hn, bool_decide_eq_false_2 by done. eexists. split; [done|]. split; [|done].
    by eapply walk_mid.
Qed.

Lemma same_table_rep σ T T' cs : same_table T T' -> rep σ T cs -> rep σ T' cs.
Proof. intros (Hb & Hs & Hc) [H1 H2 H3 H4 H5 H6]. split; rewrite ?Hb, ?Hs, ?Hc; done. Qed.

Lemma hash_first_ok σ T cs :
  rep σ T cs -> tnext T = None -> exists T', hash_first T = Some T' /\ rep σ T' cs /\ walk T' cs (concat cs).
Proof.
  intros Hr Hn. destruct (rep_bucket_index _ _ _ 0 Hr) as (b & l & Hb0 & Hb); [pose proof (rep_range _ _ _ Hr); lia|].
  assert (b = 0%nat) as -> by lia. destruct (rep_bucket _ _ _ _ _ Hr Hb) as (p & Hp & Hc & _).
  change (Z.of_nat 0) with 0 in Hp.
  unfold hash_first. rewrite bool_decide_eq_true_2 by done.
  change (bucket (mkTable (buckets T) (size T) 0 (tnext T) (count T)) 0) with (bucket T 0). rewrite Hp. bind_simpl.
  edestruct (advance_ok σ cs (set_tnext p (mkTable (buckets T) (size T) 0 (tnext T) (count T))) 0 [] l) as (T' & HT & Hw & Hs);
    try apply Hr; try done; [by apply chain_head in Hc|].
  exists T'. split; [done|]. split.
  - eapply same_table_rep; [|done]. exact Hs.
  - rewrite (concat_split _ _ _ Hb). done.
Qed.

Lemma hash_next_ok σ T cs rest :
  rep σ T cs -> walk T cs rest ->
  exists T', hash_next T σ = Some (T', head rest) /\ rep σ T' cs /\ walk T' cs (tail rest).
Proof.
  intros Hr Hw. unfold hash_next. destruct Hw as [Hn|b l1 p l2 Hn Hc Hb]; rewrite Hn.
  - eexists. split; [done|]. split; [done|]. by apply walk_end.
  - destruct (rep_bucket _ _ _ _ _ Hr Hb) as (h & _ & Hch & _).
    destruct (chain_suffix _ _ _ _ _ Hch) as (n & Hnn & Hch2). rewrite Hnn. bind_simpl.
    edestruct (advance_ok σ cs (set_tnext (next n) T) b (l1 ++ [p]) l2) as (T' & -> & Hw & Hs); try apply Hr; try done.
    + by rewrite <- app_assoc.
    + by apply chain_head in Hch2.
    + exists T'. split; [done|]. split; [|done]. eapply same_table_rep; [|done]. exact Hs.
Qed.

(** Removing an item from every bucket is removing it from its own. *)
Abbreviation without p := (filter (fun q : positive => q <> p)).

Lemma without_id p (l : list positive) : p ∉ l -> without p l = l.
Proof.
  induction l as [|q l IH]; intros Hp; [done|]. apply not_elem_of_cons in Hp as [Hne Hp].
  rewrite filter_cons, decide_True by done. by rewrite IH.
Qed.

Lemma without_concat p (cs : list (list positive)) : concat (without p <$> cs) = without p (concat cs).
Proof. induction cs as [|c cs IH]; cbn; [done|]. by rewrite IH, filter_app. Qed.

Lemma NoDup_split (p : positive) l1 l2 l1' l2' :
  NoDup (l1 ++ p :: l2) -> l1' ++ p :: l2' = l1 ++ p :: l2 -> l1' = l1 /\ l2' = l2.
Proof.
  revert l1'. induction l1 as [|q l1 IH]; intros [|q' l1'] Hnd He; cbn [app] in *; simplify_eq; try done.
  - apply NoDup_cons in Hnd as [Hp _]. destruct Hp. apply elem_of_app. right. apply elem_of_cons. by left.
  - apply NoDup_cons in Hnd as [Hp _]. destruct Hp. apply elem_of_app. right. apply elem_of_cons. by left.
  - apply NoDup_cons in Hnd as [_ Hnd]. by edestruct (IH l1' Hnd) as [-> ->].
Qed.

Lemma without_middle p l1 l2 : NoDup (l1 ++ p :: l2) -> without p (l1 ++ p :: l2) = l1 ++ l2.
Proof.
  intros (_ & Hd & [Hp2 _]%NoDup_cons)%NoDup_app. rewrite filter_app, filter_cons, decide_False by auto.
  rewrite !without_id; [done|done|]. intros Hp. apply (Hd p Hp), elem_of_cons. by left.
Qed.

Lemma without_buckets (cs : list (list positive)) b p l1 l2 :
  NoDup (concat cs) -> cs !! b = Some (l1 ++ p :: l2) -> <[b := l1 ++ l2]> cs = without p <$> cs.
Proof.
  intros Hnd Hb. apply list_eq. intros j. rewrite list_lookup_fmap. destruct (decide (j = b)) as [->|Hne].
  - rewrite list_lookup_insert_eq by (by eapply lookup_lt_Some). rewrite Hb. cbn [fmap option_fmap option_map].
    rewrite without_middle; [done|]. rewrite (concat_split _ _ _ Hb) in Hnd. by apply NoDup_app in Hnd as (_ & _ & (? & _)%NoDup_app).
  - rewrite list_lookup_insert_ne by done. destruct (cs !! j) as [l|] eqn:Hj; [|done]. cbn. f_equal. symmetry.
    apply without_id. intros Hp. apply Hne. eapply (NoDup_concat_ne cs); [done|exact Hj|exact Hb|done|].
    apply elem_of_app. right. apply elem_of_cons. by left.
Qed.

Lemma walk_mid_without T cs p q b l1 l2 :
  tnext T = Some q -> q <> p -> current_slot T = Z.of_nat b -> cs !! b = Some (l1 ++ q :: l2) ->
  walk T (without p <$> cs) (without p ((q :: l2) ++ concat (drop (S b) cs))).
Proof.
  intros Hn Hne Hc Hb. rewrite filter_app, filter_cons, decide_True by done.
  rewrite <- without_concat, fmap_drop. eapply (walk_mid _ _ b (without p l1)); [done..|].
  rewrite list_lookup_fmap, Hb. cbn. by rewrite filter_app, filter_cons, decide_True.
Qed.

Lemma walk_NoDup σ T cs rest : rep σ T cs -> walk T cs rest -> NoDup rest /\ (forall q, q ∈ rest -> q ∈ concat cs).
Proof.
  intros Hr [Hn|b l1 p l2 _ _ Hb]; [split; [constructor|by intros ? ?%elem_of_nil]|].
  pose proof (rep_nodup _ _ _ Hr) as Hnd. rewrite (concat_split _ _ _ Hb), <- (app_assoc l1) in *. split.
  - by apply NoDup_app in Hnd as (_ & _ & (_ & _ & Hnd)%NoDup_app).
  - intros q Hq. rewrite !elem_of_app in *. tauto.
Qed.

Lemma hash_remove_link_ok σ T cs rest p :
  rep σ T cs -> walk T cs rest -> p ∈ concat cs ->
  exists σ' T', hash_remove_link p T σ = Some (σ', T') /\ rep σ' T' (without p <$> cs) /\
    (forall q, key_at σ' q = key_at σ q) /\ walk T' (without p <$> cs) (without p rest).
Proof.
  intros Hr Hw (b & l & Hb & Hp)%concat_lookup.
  destruct (rep_place _ _ _ Hr b l p Hb Hp) as (k & Hk & Hh).
  apply list_elem_of_split in Hp as (l1 & l2 & ->).
  destruct (rep_bucket _ _ _ _ _ Hr Hb) as (h & Hh' & Hc & Hnd).
  pose proof Hk as Hk'. unfold key_at in Hk'. destruct (σ !! p) as [n|] eqn:Hn; [|done]. cbn in Hk'.
  unfold hash_remove_link. rewrite Hn. bind_simpl. rewrite Hk'. unfold hash_key. bind_simpl. rewrite Hh, Hh'. bind_simpl.
  destruct (remove_loop_ok _ _ _ _ _ _ Hc Hnd Hn) as (σ' & h2 & -> & Hc2 & Hσ & Hkeys). bind_simpl.
  rewrite Nat2Z.id. set (T1 := mkTable _ _ _ _ _).
  assert (NoDup (l1 ++ l2)) as Hnd2.
  { rewrite <- (without_middle p) by done. by apply NoDup_filter. }
  assert (p ∉ l1 ++ l2) as Hpl.
  { rewrite <- (without_middle p) by done. intros [? _]%list_elem_of_filter. done. }
  assert (rep σ' (mkTable (buckets T1) (size T1) (current_slot T1) (tnext T1) (count T1 - 1)) (without p <$> cs)) as Hr'.
  { rewrite <- (without_buckets cs b p l1 l2) by (done || apply Hr).
    eapply (rep_update σ σ' T _ cs b _ _ h2); try done; unfold T1; cbn [buckets size count].
    - rewrite !length_app. cbn [length]. lia.
    - intros q Hq. apply Hσ. intros Hx. apply Hq, elem_of_app. by left.
    - intros q Hq Hq'. destruct Hq'. rewrite !elem_of_app, elem_of_cons in *. tauto. }
  assert (σ' !! p = Some n) as Hn'.
  { rewrite Hσ; [done|]. intros Hx. apply Hpl, elem_of_app. by left. }
  destruct (chain_suffix _ _ _ _ _ Hc) as (n0 & Hn0 & Hcn). rewrite Hn in Hn0. simplify_eq.
  case_bool_decide as Htn.
  - rewrite Hn'. bind_simpl. destruct Hw as [Hw|b' l1' q l2' Hq Hslot Hb']; [by unfold T1 in Htn; cbn in Htn; congruence|].
    unfold T1 in Htn. cbn in Htn. assert (q = p) as -> by congruence.
    assert (b' = b) as ->.
    { eapply (NoDup_concat_ne cs); [apply Hr|exact Hb'|exact Hb|..]; apply elem_of_app; right; apply elem_of_cons; by left. }
    destruct (NoDup_split p l1 l2 l1' l2') as [-> ->]; [done|congruence|].
    assert (b < length cs)%nat by (by eapply lookup_lt_Some).
    edestruct (advance_ok σ' (without p <$> cs) (set_tnext (next n0) T1) b l1 l2) as (T' & -> & Hw & Hs);
      try apply Hr'; try done.
    + rewrite <- (without_buckets cs b p l1 l2), list_lookup_insert_eq by (done || apply Hr). done.
    + by apply chain_head in Hcn.
    + bind_simpl. eexists _, _. split; [done|]. destruct Hs as (Hs1 & Hs2 & Hs3). split.
      { rewrite Hs1, Hs2, Hs3. eapply same_table_rep; [|exact Hr']. done. }
      split; [done|]. rewrite <- app_comm_cons, filter_cons, decide_False by auto.
      rewrite filter_app, (without_id p l2) by (intros ?; apply Hpl, elem_of_app; by right).
      rewrite <- without_concat, fmap_drop. destruct Hw; [by apply walk_end|by eapply walk_mid].
  - bind_simpl. eexists _, _. split; [done|]. split; [done|]. split; [done|].
    destruct Hw as [Hw|b' l1' q l2' Hq Hslot Hb']; [by apply walk_end|].
    apply (walk_mid_without _ _ p q b' l1'); try done. unfold T1 in Htn. cbn in Htn. congruence.
Qed.

Lemma walk_join T T' cs b p l rest :
  walk T cs rest -> same_walk T T' -> cs !! b = Some l ->
  exists rest', walk T' (<[b := p :: l]> cs) rest' /\
    (rest' = rest \/ exists r1 r2, rest = r1 ++ r2 /\ rest' = r1 ++ p :: r2).
Proof.
  intros Hw (Hn & Hs) Hb. assert (b < length cs)%nat by (by eapply lookup_lt_Some).
  destruct Hw as [He|b0 l1 q l2 Hq Hc Hb0]; [exists []; split; [apply walk_end; congruence|by left]|].
  destruct (Nat.lt_trichotomy b b0) as [Hlt|[->|Hlt]].
  - eexists. split; [eapply (walk_mid _ _ b0 l1 q l2); try congruence; by rewrite list_lookup_insert_ne by lia|].
    left. by rewrite drop_insert_lt by lia.
  - eexists. split; [eapply (walk_mid _ _ b0 (p :: l1) q l2); try congruence;
      rewrite list_lookup_insert_eq by done; cbn; congruence|]. left. by rewrite drop_insert_lt by lia.
  - eexists. split; [eapply (walk_mid _ _ b0 l1 q l2); try congruence; by rewrite list_lookup_insert_ne by lia|].
    right. rewrite drop_insert_ge by lia.
    assert (drop (S b0) cs !! (b - S b0)%nat = Some l) as Hl by (rewrite lookup_drop; rewrite <- Hb; f_equal; lia).
    rewrite (concat_insert _ _ _ _ Hl), (concat_split _ _ _ Hl).
    eexists ((q :: l2) ++ concat (take (b - S b0) (drop (S b0) cs))), _. rewrite <- !app_assoc. done.
Qed.

(** *** The items under each key *)

Lemma has_key_ext σ σ' k q : (forall q, key_at σ' q = key_at σ q) -> has_key σ' k q = has_key σ k q.
Proof. intros Hk. unfold has_key. by rewrite Hk. Qed.

Lemma filter_has_key_ext σ σ' k (l : list positive) : (forall q, key_at σ' q = key_at σ q) ->
  filter (fun q => has_key σ' k q = true) l = filter (fun q => has_key σ k q = true) l.
Proof. intros Hk. apply list_filter_iff. intros q. by rewrite (has_key_ext σ). Qed.

Lemma items_join σ σ' T T' cs p k b l :
  rep σ T cs -> rep σ' T' (<[b := p :: l]> cs) -> size T' = size T -> (forall q, key_at σ' q = key_at σ q) ->
  key_at σ p = Some k -> cs !! b = Some l -> hash k (size T) = Z.of_nat b ->
  forall k', items σ' (<[b := p :: l]> cs) k' = if cmp k' k =? 0 then p :: items σ cs k' else items σ cs k'.
Proof.
  intros Hr Hr' Hs Hkeys Hk Hb Hh k'.
  assert (has_key σ k' p = (cmp k' k =? 0)) as Hhk by (unfold has_key; by rewrite Hk).
  destruct (cmp k' k =? 0) eqn:E.
  - assert (hash k' (size T) = Z.of_nat b) as Hh' by (rewrite <- Hh; apply hash_proper; [by apply Z.eqb_eq in E|done]).
    rewrite (items_bucket σ' T' _ _ b (p :: l) Hr'); [|by rewrite Hs|by apply list_lookup_insert_eq; eapply lookup_lt_Some].
    rewrite (items_bucket σ T _ _ b l Hr Hh' Hb), (filter_has_key_ext σ), filter_cons, decide_True by done. done.
  - unfold items. rewrite (filter_has_key_ext σ) by done.
    rewrite (concat_insert _ _ _ _ Hb), (concat_split _ _ _ Hb). rewrite !filter_app.
    by rewrite (filter_cons _ p), decide_False by (by rewrite Hhk).
Qed.

Lemma filter_comm (P Q : positive -> Prop) `{!forall x, Decision (P x), !forall x, Decision (Q x)} (l : list positive) :
  filter P (filter Q l) = filter Q (filter P l).
Proof. rewrite !list_filter_filter. apply list_filter_iff. tauto. Qed.

Lemma items_remove σ σ' cs p k :
  (forall q, key_at σ' q = key_at σ q) -> items σ' (without p <$> cs) k = without p (items σ cs k).
Proof. intros Hk. unfold items. by rewrite (filter_has_key_ext σ), without_concat, filter_comm. Qed.

Lemma items_self σ cs p k : key_at σ p = Some k -> p ∈ concat cs <-> p ∈ items σ cs k.
Proof.
  intros Hk. unfold items. rewrite list_elem_of_filter. unfold has_key. rewrite Hk.
  assert (cmp k k = 0) as -> by (apply (reflexivity (R := key_eq))). cbn. tauto.
Qed.

(** ** The abstract view: for each key, a stack of items *)

Definition refines σ T (A : K -> list positive) : Prop :=
  exists cs rest, rep σ T cs /\ walk T cs rest /\ forall k, A k = items σ cs k.

Lemma concat_nils m : concat (replicate m ([] : list positive)) = [].
Proof. by induction m. Qed.

Lemma hash_create_rep σ n :
  0 <= n < 2 ^ 31 -> rep σ (hash_create n) (replicate (Z.to_nat (size (hash_create n))) []) /\
  walk (hash_create n) (replicate (Z.to_nat (size (hash_create n))) []) [].
Proof.
  intros Hn. assert (0 < size (hash_create n) < 2 ^ 32) as Hs.
  { cbn. unfold DEFAULT_HASH_SIZE. destruct (Z.eqb_spec n 0); [lia|]. rewrite wrap_u_small; lia. }
  split; [|by apply walk_end]. split.
  - cbn [hash_create buckets]. apply Forall2_replicate. done.
  - rewrite length_replicate. lia.
  - done.
  - rewrite concat_nils. constructor.
  - by rewrite concat_nils.
  - intros b l p [-> _]%lookup_replicate ?%elem_of_nil. done.
Qed.

(** ** Traversals interleaved with changes *)

Lemma valid_ext σ σ' ops S : (forall q, key_at σ' q = key_at σ q) -> valid σ ops S -> valid σ' ops S.
Proof.
  intros Hk. revert S. induction ops as [|[p|p|] ops IH]; intros S; cbn [valid]; [done|..].
  - rewrite Hk. naive_solver.
  - naive_solver.
  - naive_solver.
Qed.

Abbreviation times p l := (length (filter (fun q : positive => q = p) l)).

Lemma times_app p l1 l2 : times p (l1 ++ l2) = (times p l1 + times p l2)%nat.
Proof. by rewrite filter_app, length_app. Qed.

Lemma times_cons_ne p q (l : list positive) : q <> p -> times p (q :: l) = times p l.
Proof. intros ?. by rewrite filter_cons, decide_False. Qed.

Lemma times_without p q l : p <> q -> times p (without q l) = times p l.
Proof.
  intros Hne. induction l as [|x l IH]; [done|]. rewrite (filter_cons _ x). case_decide as Hx.
  - rewrite !(filter_cons (fun q => q = p)). case_decide; cbn [length]; congruence.
  - rewrite filter_cons, decide_False; [done|]. naive_solver.
Qed.

Lemma times_NoDup p (l : list positive) : NoDup l -> p ∈ l -> times p l = 1%nat.
Proof.
  intros Hnd (l1 & l2 & ->)%list_elem_of_split.
  apply NoDup_app in Hnd as (_ & Hd & [Hp _]%NoDup_cons).
  rewrite times_app, filter_cons, decide_True by done. cbn [length].
  assert (forall l : list positive, p ∉ l -> times p l = 0%nat) as Hz.
  { intros l Hl. induction l as [|x l IH]; [done|]. apply not_elem_of_cons in Hl as [? ?].
    rewrite times_cons_ne by congruence. auto. }
  rewrite !Hz; [done|done|]. intros Hx. apply (Hd p Hx), elem_of_cons. by left.
Qed.

Definition members (cs : list (list positive)) : gset positive := list_to_set (concat cs).

Lemma elem_of_members p cs : p ∈ members cs <-> p ∈ concat cs.
Proof. apply elem_of_list_to_set. Qed.

Lemma members_join cs b p l : cs !! b = Some l -> members (<[b := p :: l]> cs) = {[p]} ∪ members cs.
Proof.
  intros Hb. apply leibniz_equiv. intros q. unfold members.
  rewrite elem_of_union, elem_of_singleton, !elem_of_list_to_set.
  rewrite (concat_insert _ _ _ _ Hb), (concat_split _ _ _ Hb), !elem_of_app, elem_of_cons. tauto.
Qed.

Lemma members_remove cs p : members (without p <$> cs) = members cs ∖ {[p]}.
Proof.
  apply leibniz_equiv. intros q. unfold members.
  rewrite elem_of_difference, elem_of_singleton, !elem_of_list_to_set, without_concat, list_elem_of_filter. tauto.
Qed.

Lemma run_ok ops : forall σ T cs rest seen,
  rep σ T cs -> walk T cs rest -> valid σ ops (members cs) ->
  exists σ' T' new cs' rest', run ops T σ seen = Some (σ', T', seen ++ new) /\ rep σ' T' cs' /\ walk T' cs' rest' /\
    (forall p, p ∈ concat cs -> Remove p ∉ ops -> p ∈ concat cs' /\ times p (new ++ rest') = times p rest) /\
    (forall p, p ∈ new -> p ∈ concat cs \/ Join p ∈ ops).
Proof.
  induction ops as [|[p|p|] ops IH]; intros σ T cs rest seen Hr Hw Hv; cbn [run valid] in *.
  - exists σ, T, [], cs, rest. rewrite app_nil_r. splits. by intros ? ?%elem_of_nil.
  - destruct Hv as (Hp & [k Hk] & Hv). rewrite elem_of_members in Hp.
    destruct (hash_join_ok _ _ _ _ _ Hr Hk Hp) as (σ1 & T1 & b & l & -> & Hb & _ & Hr1 & Hk1 & Hsw). bind_simpl.
    destruct (walk_join _ _ _ _ p _ _ Hw Hsw Hb) as (rest1 & Hw1 & Hrest).
    assert (forall q, q ∈ concat (<[b := p :: l]> cs) <-> q = p \/ q ∈ concat cs) as Hin.
    { intros q. by rewrite <- !elem_of_members, (members_join _ _ _ _ Hb), elem_of_union, elem_of_singleton. }
    destruct (IH σ1 T1 _ rest1 seen Hr1 Hw1) as (σ' & T' & new & cs' & rest' & Hrun & Hr' & Hw' & H1 & H2).
    { rewrite (members_join _ _ _ _ Hb). by eapply valid_ext. }
    exists σ', T', new, cs', rest'. splits.
    + intros q Hq Hops. apply not_elem_of_cons in Hops as [_ Hops].
      destruct (H1 q) as [Hc Ht]; [by apply Hin; right|done|]. split; [done|]. rewrite Ht.
      destruct Hrest as [->|(r1 & r2 & -> & ->)]; [done|].
      rewrite !times_app, times_cons_ne; [done|]. by intros ->.
    + intros q [Hq|Hq]%H2; [apply Hin in Hq as [->|Hq]|]; [right; apply elem_of_cons; by left|by left|].
      right. apply elem_of_cons. by right.
  - destruct Hv as (Hp & Hv). rewrite elem_of_members in Hp.
    destruct (hash_remove_link_ok _ _ _ _ _ Hr Hw Hp) as (σ1 & T1 & -> & Hr1 & Hk1 & Hw1). bind_simpl.
    destruct (IH σ1 T1 _ _ seen Hr1 Hw1) as (σ' & T' & new & cs' & rest' & Hrun & Hr' & Hw' & H1 & H2).
    { rewrite members_remove. by eapply valid_ext. }
    exists σ', T', new, cs', rest'. splits.
    + intros q Hq Hops. apply not_elem_of_cons in Hops as [Hne Hops]. assert (q <> p) by congruence.
      destruct (H1 q) as [Hc Ht]; [by rewrite without_concat; apply list_elem_of_filter|done|].
      by rewrite Ht, times_without.
    + intros q [Hq|Hq]%H2; [left|right; apply elem_of_cons; by right].
      rewrite without_concat in Hq. by apply list_elem_of_filter in Hq as [_ ?].
  - destruct (hash_next_ok _ _ _ _ Hr Hw) as (T1 & -> & Hr1 & Hw1). bind_simpl.
    destruct (IH σ T1 cs _ (match head rest with Some p => seen ++ [p] | None => seen end) Hr1 Hw1 Hv)
      as (σ' & T' & new & cs' & rest' & Hrun & Hr' & Hw' & H1 & H2).
    exists σ', T', (match head rest with Some p => [p] | None => [] end ++ new), cs', rest'. splits.
    + rewrite Hrun. destruct rest; cbn; [done|]. by rewrite <- app_assoc.
    + intros q Hq Hops. apply not_elem_of_cons in Hops as [_ Hops]. destruct (H1 q Hq Hops) as [Hc Ht]. split; [done|].
      rewrite <- app_assoc, times_app, Ht, <- times_app. by destruct rest.
    + intros q [Hq|Hq]%elem_of_app.
      * left. apply (proj2 (walk_NoDup _ _ _ _ Hr Hw)). destruct rest; cbn in Hq; [by apply elem_of_nil in Hq|].
        apply list_elem_of_singleton in Hq as ->. apply elem_of_cons. by left.
      * destruct (H2 q Hq) as [?|?]; [by left|right; apply elem_of_cons; by right].
Qed.

(** *** [hashFreeItems] *)

Lemma collect_loop_ok σ cs rest T i acc fuel :
  rep σ T cs -> walk T cs rest -> i + Z.of_nat (length rest) = count T -> (length rest < fuel)%nat ->
  exists T', collect_loop fuel i acc T σ = Some (T', acc ++ rest) /\ rep σ T' cs /\ tnext T' = None.
Proof.
  revert T i acc fuel. induction rest as [|p rest IH]; intros T i acc fuel Hr Hw Hi Hf; cbn [length] in *;
    (destruct fuel as [|fuel]; [lia|]); cbn [collect_loop];
    destruct (hash_next_ok _ _ _ _ Hr Hw) as (T1 & -> & Hr1 & Hw1); cbn [mbind option_bind head tail] in *.
  - exists T1. rewrite app_nil_r. splits. by inversion Hw1.
  - rewrite (rep_count _ _ _ Hr) in Hi. rewrite (rep_count _ _ _ Hr1).
    destruct (Z.ltb_spec i (Z.of_nat (length (concat cs)))); [|lia].
    destruct (IH T1 (i + 1) (acc ++ [p]) fuel Hr1 Hw1) as (T' & HT & Hr' & Hn); [rewrite (rep_count _ _ _ Hr1); lia|lia|].
    exists T'. rewrite HT, <- app_assoc. done.
Qed.

Lemma hashFreeItems_ok {W} (f : positive -> W -> W) (w : W) σ T cs :
  rep σ T cs -> tnext T = None ->
  exists T', hashFreeItems f T σ w = Some (T', foldl (fun w l => f l w) w (concat cs)) /\ tnext T' = None.
Proof.
  intros Hr Hn. destruct (hash_first_ok _ _ _ Hr Hn) as (T1 & HT1 & Hr1 & Hw1). unfold hashFreeItems. rewrite HT1. bind_simpl.
  destruct (collect_loop_ok σ cs (concat cs) T1 0 [] (S (Z.to_nat (count T1)))) as (T2 & -> & _ & Hn2);
    [done..|rewrite (rep_count _ _ _ Hr1); lia|rewrite (rep_count _ _ _ Hr1); lia|]. bind_simpl. eauto.
Qed.

Lemma hash_table_ops σ T A :
  refines σ T A ->
  (forall k, hash_lookup (Some k) T σ = Some (head (A k))) /\
  (forall p k, key_at σ p = Some k -> p ∉ A k ->
    exists σ' T', hash_join p T σ = Some (σ', T') /\
      refines σ' T' (fun k' => if cmp k' k =? 0 then p :: A k' else A k')) /\
  (forall p k, key_at σ p = Some k -> p ∈ A k ->
    exists σ' T', hash_remove_link p T σ = Some (σ', T') /\ refines σ' T' (fun k' => without p (A k'))).
Proof.
  intros (cs & rest & Hr & Hw & HA). splits.
  - intros k. rewrite HA. by apply hash_lookup_ok.
  - intros p k Hk Hp. rewrite HA, <- items_self in Hp by done.
    destruct (hash_join_ok _ _ _ _ _ Hr Hk Hp) as (σ' & T' & b & l & Hj & Hb & Hh & Hr' & Hk' & Hsw).
    destruct (walk_join _ _ _ _ p _ _ Hw Hsw Hb) as (rest' & Hw' & _).
    exists σ', T'. split; [done|]. exists (<[b := p :: l]> cs), rest'. splits. intros k'. rewrite HA.
    by rewrite (items_join σ σ' T T' cs p k b l) by
      (try done; rewrite (rep_size _ _ _ Hr'), (rep_size _ _ _ Hr), length_insert; done).
  - intros p k Hk Hp. rewrite HA, <- items_self in Hp by done.
    destruct (hash_remove_link_ok _ _ _ _ _ Hr Hw Hp) as (σ' & T' & Hrm & Hr' & Hk' & Hw').
    exists σ', T'. split; [done|]. exists (without p <$> cs), (without p rest). splits.
    intros k'. rewrite HA. symmetry. by apply items_remove.
Qed.
End table.
Arguments hash_link : clear implicits.
Abbreviation links K := (gmap positive (hash_link K)).

(** ** The functions of the library *)

Fixpoint hash4_ref (h : Z) (s : bytes) : Z :=
  match s with [] => h | c :: s => hash4_ref (wrap_u 32 (wrap_u 32 (Z.shiftl h 5) + h + schar c)) s end.

(** [k] steps consume [k] characters. *)
Lemma hash4_ref_steps h s k :
  (k <= length s)%nat ->
  exists h', Nat.iter k HASH4 (h, s) = (h', drop k s) /\ hash4_ref h s = hash4_ref h' (drop k s).
Proof.
  induction k as [|k IH]; intros Hk; [by exists h|]. destruct IH as (h' & He & Hr); [lia|].
  cbn [Nat.iter nat_rect]. change (Nat.iter k HASH4 (h, s)) with (nat_rect (fun _ => (Z * bytes)%type) (h, s) (fun _ => HASH4) k) in He.
  rewrite He. destruct (lookup_lt_is_Some_2 s k) as [c Hc]; [lia|].
  rewrite Hr, (drop_S _ _ _ Hc). cbn [HASH4 deref hd tail hash4_ref]. eauto.
Qed.

Lemma hash4_loop_ref loop : forall h s, length s = (8 * loop)%nat -> fst (hash4_loop loop (h, s)) = hash4_ref h s.
Proof.
  induction loop as [|loop IH]; intros h s Hs.
  - by destruct s.
  - cbn [hash4_loop]. destruct (hash4_ref_steps h s 8) as (h' & He & ->); [lia|].
    cbn [Nat.iter nat_rect] in He. rewrite He. apply IH. rewrite length_drop. lia.
Qed.

(** The unrolled loop with its computed entry point is the plain loop. *)
Lemma hash4_unrolled s n : hash4 s n = hash4_ref 0 s `mod` n.
Proof.
  unfold hash4.  set (m := Nat.modulo (length s) 8).
  assert (Nat.modulo (length s) 8 = m) as Hm by done.
  pose proof (Nat.mod_upper_bound (length s) 8 ltac:(lia)) as Hlt. rewrite Hm in Hlt.
  pose proof (Nat.div_mod_eq (length s) 8) as Hdm. rewrite Hm in Hdm.
  destruct (hash4_ref_steps 0 s m) as (h' & He & ->); [lia|]. f_equal.
  clearbody m. clear Hm.
  destruct m as [|[|[|[|[|[|[|[|m]]]]]]]]; [..|lia]; cbn [Nat.iter nat_rect] in He; rewrite ?He;
    apply hash4_loop_ref; rewrite ?length_drop; lia.
Qed.

Lemma strcmp_eq a b : Forall (fun c => c <> 0) a -> Forall (fun c => c <> 0) b -> strcmp a b = 0 <-> a = b.
Proof.
  revert b. induction a as [|x a IH]; intros [|y b] Ha Hb; cbn; [done|..].
  - apply Forall_cons in Hb as [? _]. split; [lia|done].
  - apply Forall_cons in Ha as [? _]. split; [lia|done].
  - apply Forall_cons in Ha as [? ?]. apply Forall_cons in Hb as [? ?]. destruct (Z.eqb_spec x y) as [->|].
    + rewrite IH by done. naive_solver.
    + split; [lia|congruence].
Qed.

(** Keys that are C strings: no NUL inside.  [strcmp] does not see the proof, so
    its equality is coarser than that of the type. *)
Definition ckey : Type := { s : bytes | Forall (fun c => c <> 0) s }.

Definition strcmp_hash4 : HashFns ckey := {| cmp a b := strcmp (`a) (`b); hash k n := hash4 (`k) n |}.
Definition strcmp_hash_string : HashFns ckey := {| cmp a b := strcmp (`a) (`b); hash k n := hash_string (`k) n |}.

Lemma strcmp_laws (f : bytes -> Z -> Z) :
  (forall s n, 0 < n -> 0 <= f s n < n) -> HashLaws ckey (H := {| cmp a b := strcmp (`a) (`b); hash k n := f (`k) n |}).
Proof.
  intros Hf. set (F := Build_HashFns ckey (fun a b => strcmp (`a) (`b)) (fun k n => f (`k) n)).
  assert (forall a b : ckey, key_eq a b <-> `a = `b) as He by (intros [a Ha] [b Hb]; by apply strcmp_eq).
  split.
  - split.
    + intros x. by apply He.
    + intros x y Hxy. apply He in Hxy. by apply He.
    + intros x y z Hxy Hyz. apply He in Hxy, Hyz. apply He. congruence.
  - intros x y Hxy%He n ? <-. cbn. by rewrite Hxy.
  - intros k n. apply Hf.
Qed.

#[export] Instance strcmp_hash4_laws : HashLaws ckey (H := strcmp_hash4).
Proof. apply (strcmp_laws hash4). intros s n Hn. apply Z.mod_pos_bound. lia. Qed.

#[export] Instance strcmp_hash_string_laws : HashLaws ckey (H := strcmp_hash_string).
Proof.
  apply (strcmp_laws hash_string). intros s n Hn. unfold hash_string.
  destruct ((fix loop s n j := match s with [] => (n, j) | c :: s => _ end) s 0 0) as [x j].
  apply Z.mod_pos_bound. lia.
Qed.

(** Whatever the logarithm computes, the size is one of the primes. *)
Lemma hashPrime_in log n : hashPrime log n ∈ hash_primes.
Proof.
  unfold hashPrime. assert (103 ∈ hash_primes) as H0 by (apply elem_of_cons; by left).
  generalize (dbl_abs (dbl_sub (log (dbl_of_Z n)) (log (dbl_of_Z 103)))) as m.
  assert (forall p, p ∈ hash_primes -> p ∈ hash_primes) as Hsub by done. revert Hsub H0.
  generalize hash_primes at 1 4 as ps. generalize 103 as best.
  intros best ps. revert best. induction ps as [|p ps IH]; intros best Hsub Hb m; [done|].
  assert (forall q, q ∈ ps -> q ∈ hash_primes) as Hsub' by (intros q Hq; apply Hsub, elem_of_cons; by right).
  destruct (dbl_gtb _ m); apply IH; try done. apply Hsub, elem_of_cons. by left.
Qed.

(** ** Properties *)

(** A hash table implements, for each key, a stack of items: a new table
    has none, [hash_join] pushes an item under its key, [hash_lookup] gives the
    item joined last that is still there, and [hash_remove_link] takes an item
    out and nothing else.  No operation fails on such a table, a traversal may
    be in progress or not, and keys are compared by the table's own
    function. *)
Theorem hash_table_refines {K} `{HashLaws K} :
  (forall (σ : links K) n, 0 <= n < 2 ^ 31 -> refines σ (hash_create n) (fun _ => [])) /\
  (forall (σ : links K) T A, refines σ T A ->
    (forall k, hash_lookup (Some k) T σ = Some (head (A k))) /\
    (forall p k, key_at σ p = Some k -> p ∉ A k ->
      exists σ' T', hash_join p T σ = Some (σ', T') /\
        refines σ' T' (fun k' => if cmp k' k =? 0 then p :: A k' else A k')) /\
    (forall p k, key_at σ p = Some k -> p ∈ A k ->
      exists σ' T', hash_remove_link p T σ = Some (σ', T') /\
        refines σ' T' (fun k' => filter (fun q => q <> p) (A k')))).
Proof.
  split; [|apply hash_table_ops]. intros σ n Hn. destruct (hash_create_rep σ n Hn) as [Hr Hw].
  eexists _, _. split; [exact Hr|]. split; [exact Hw|]. intros k. unfold items.
  by rewrite concat_nils.
Qed.

Definition ck (s : bytes) (Hs : Forall (fun c => c <> 0) s) : ckey := s ↾ Hs.

Lemma hash_table_refines_witness :
  let H := strcmp_hash4 in
  refines (∅ : links ckey) (hash_create 3) (fun _ => []) /\ hash_lookup (Some (ck [] (List.Forall_nil _))) (hash_create 3) ∅ = Some None.
Proof.
  cbn zeta. pose proof (hash_table_refines (K := ckey) (H := strcmp_hash4)) as [H1 H2].
  assert (refines (H := strcmp_hash4) (∅ : links ckey) (hash_create 3) (fun _ => [])) as Hr by (apply H1; lia).
  split; [exact Hr|]. destruct (H2 _ _ _ Hr) as [Hl _]. exact (Hl _).
Defined.

(** A traversal tolerates changes: after [hash_first], whatever sequence of
    joins, removals and [hash_next] follows, every item that was in the table
    and is not removed is returned exactly once, or is exactly once among those
    still to come; when the traversal has ended nothing is still to come.  Only
    items that were in the table or were joined since are returned. *)
Theorem hash_traversal {K} `{HashLaws K} (σ : links K) T cs ops :
  rep σ T cs -> tnext T = None -> valid σ ops (list_to_set (concat cs)) ->
  exists T0 σ' T' seen cs' rest,
    hash_first T = Some T0 /\ run ops T0 σ [] = Some (σ', T', seen) /\ rep σ' T' cs' /\ walk T' cs' rest /\
    (tnext T' = None -> rest = []) /\
    (forall p, p ∈ concat cs -> Remove p ∉ ops -> length (filter (fun q => q = p) (seen ++ rest)) = 1%nat) /\
    (forall p, p ∈ seen -> p ∈ concat cs \/ Join p ∈ ops).
Proof.
  intros Hr Hn Hv. destruct (hash_first_ok _ _ _ Hr Hn) as (T0 & HT0 & Hr0 & Hw0).
  destruct (run_ok ops σ T0 cs (concat cs) [] Hr0 Hw0 Hv) as (σ' & T' & seen & cs' & rest & Hrun & Hr' & Hw' & H1 & H2).
  exists T0, σ', T', seen, cs', rest. splits.
  - destruct Hw'; [done|congruence].
  - intros p Hp Hops. destruct (H1 p Hp Hops) as [_ ->]. apply times_NoDup; [apply Hr|done].
Qed.

Lemma key_a : Forall (fun c => c <> 0) [97].
Proof. by apply List.Forall_cons; [|apply List.Forall_nil]. Qed.

(** Two items in one bucket; the one the traversal stands on is removed. *)
Definition wit_mem : links ckey :=
  {[1%positive := mkLink (Some (ck [97] key_a)) (Some 2%positive);
    2%positive := mkLink (Some (ck [97] key_a)) None]}.
Definition wit_table : hash_table := mkTable [Some 1%positive] 1 0 None 2.

Lemma hash_traversal_witness :
  let H := strcmp_hash4 in
  exists T0 σ' T' seen cs' rest,
    hash_first wit_table = Some T0 /\
    run [Next; Remove 2%positive; Next] T0 wit_mem [] = Some (σ', T', seen) /\ rep σ' T' cs' /\ walk T' cs' rest /\
    (tnext T' = None -> rest = []) /\ length (filter (fun q => q = 1%positive) (seen ++ rest)) = 1%nat.
Proof.
  cbn zeta.
  destruct (hash_traversal (H := strcmp_hash4) wit_mem wit_table [[1%positive; 2%positive]] [Next; Remove 2%positive; Next])
    as (T0 & σ' & T' & seen & cs' & rest & H1 & H2 & H3 & H4 & H5 & H6 & _).
  - split; try done.
    + apply Forall2_cons. split; [|by constructor]. split; [done|]. eexists. split; [by vm_compute|].
      split; [done|]. eexists. split; [by vm_compute|]. done.
    + cbn. repeat constructor; set_solver.
    + intros [|b] l p Hb Hp; cbn in Hb; [|done]. simplify_eq. cbn [size wit_table].
      apply elem_of_cons in Hp as [->|[->|?%elem_of_nil]%elem_of_cons]; [..|done];
        (eexists; split; [reflexivity|]); cbn [hash strcmp_hash4]; unfold hash4; by rewrite Z.mod_1_r.
  - done.
  - cbn. split; [set_solver|done].
  - exists T0, σ', T', seen, cs', rest. splits. apply H6; set_solver.
Defined.

(** [hash_print] counts buckets up to [count], not [size]: it prints a length of
    0 for every bucket and reads outside the array when there are more items
    than buckets. *)
Lemma hash_print_overrun : hash_print wit_table wit_mem = None.
Proof. vm_compute. reflexivity. Qed.

(** Freeing calls the function on every item once and leaves no traversal. *)
Lemma hashFreeItems_once {K} `{HashLaws K} (σ : links K) T cs :
  rep σ T cs -> tnext T = None ->
  exists T', hashFreeItems (fun p l => l ++ [p]) T σ [] = Some (T', concat cs) /\ tnext T' = None.
Proof.
  intros Hr Hn. destruct (hashFreeItems_ok (fun p l => l ++ [p]) [] σ T cs Hr Hn) as (T' & -> & HT).
  exists T'. split; [|done]. do 2 f_equal.
  by rewrite foldl_snoc_id.
Qed.
End HashTable.
