(* ===== verification/Splay.v ===== *)
(** * Splay trees

    lib/splay.c.  The nodes of a tree are reached from its root only, so a tree
    is an inductive type; the left and right trees that [splay_splay] builds
    from the local node [N] are kept as the nodes linked so far, innermost
    first, which is what the pointers [l] and [r] name.  The global
    [splayLastResult] is passed along. *)

From Stdlib Require Import ZArith Lia Sorted.
From stdpp Require Import base list numbers option sorting sets.
From S2P Require Import Prelude.

Module Splay.
Section splay.
Context {A : Type}.

Inductive splayNode := NULL | Node (lt : splayNode) (data : A) (rt : splayNode).

(** Nodes under [N.right] wait for their right child, those under [N.left]
    for their left child. *)
Abbreviation lctx := (list (splayNode * A)).
Abbreviation rctx := (list (A * splayNode)).

(** The chains with the last pointer set to [t]. *)
Definition close_l (l : lctx) (t : splayNode) : splayNode := foldl (fun t '(lt, d) => Node lt d t) t l.
Definition close_r (r : rctx) (t : splayNode) : splayNode := foldl (fun t '(d, rt) => Node t d rt) t r.

(** The loop of [splay_splay], where [compare x] is [compare(data, x)]: the
    chains, the last [top] and the last result. *)
Fixpoint splay_loop (compare : A -> Z) (l : lctx) (r : rctx) (top : splayNode)
    : option (lctx * rctx * splayNode * Z) :=
  match top with
  | NULL => None
  | Node lt d rt =>
      let res := compare d in
      if res <? 0 then
        match lt with
        | NULL => Some (l, r, top, res)
        | Node yl yd yr =>
            let res := compare yd in
            if res <? 0 then
              (* rotate right *)
              match yl with
              | NULL => Some (l, r, Node yl yd (Node yr d rt), res)
              | Node _ _ _ => splay_loop compare l ((yd, Node yr d rt) :: r) yl
              end
            else splay_loop compare l ((d, rt) :: r) lt
        end
      else if 0 <? res then
        match rt with
        | NULL => Some (l, r, top, res)
        | Node yl yd yr =>
            let res := compare yd in
            if 0 <? res then
              (* rotate left *)
              match yr with
              | NULL => Some (l, r, Node (Node lt d yl) yd yr, res)
              | Node _ _ _ => splay_loop compare ((Node lt d yl, yd) :: l) r yr
              end
            else splay_loop compare ((lt, d) :: l) r rt
        end
      else Some (l, r, top, res)
  end.

(** The new root and [splayLastResult]. *)
Definition splay_splay (compare : A -> Z) (top : splayNode) : option (splayNode * Z) :=
  match top with
  | NULL => Some (NULL, -1)
  | _ =>
      let? (l, r, top, res) := splay_loop compare [] [] top in
      match top with
      | NULL => None
      | Node lt d rt => Some (Node (close_l l lt) d (close_r r rt), res)
      end
  end.

Definition splay_insert (compare : A -> A -> Z) (data : A) (top : splayNode) : option (splayNode * Z) :=
  let? (top, res) := splay_splay (compare data) top in
  match top with
  | NULL => Some (Node NULL data NULL, res)
  | Node lt d rt =>
      if res <? 0 then Some (Node lt data (Node NULL d rt), res)
      else if 0 <? res then Some (Node (Node lt d NULL) data rt, res)
      else Some (top, res)
  end.

(** [free_func] and [walkee] act on a state of the caller's. *)
Fixpoint splay_destroy {S} (free_func : A -> S -> S) (top : splayNode) (s : S) : S :=
  match top with
  | NULL => s
  | Node lt d rt => free_func d (splay_destroy free_func rt (splay_destroy free_func lt s))
  end.

Definition is_null (t : splayNode) : bool := match t with NULL => true | _ => false end.

Fixpoint splay_walk {S} (walkee : A -> S -> S) (top : splayNode) (s : S) : option S :=
  match top with
  | NULL => None
  | Node lt d rt =>
      let? s := if is_null lt then Some s else splay_walk walkee lt s in
      let s := walkee d s in
      if is_null rt then Some s else splay_walk walkee rt s
  end.

(** The elements that a search compares, in order: for comparisons that are
    not defined everywhere. *)
Fixpoint splay_visits (compare : A -> Z) (top : splayNode) : list A :=
  match top with
  | NULL => []
  | Node lt d rt =>
      d :: if compare d <? 0 then
             match lt with
             | NULL => []
             | Node yl yd yr => yd :: if compare yd <? 0 then splay_visits compare yl else splay_visits compare lt
             end
           else if 0 <? compare d then
             match rt with
             | NULL => []
             | Node yl yd yr => yd :: if 0 <? compare yd then splay_visits compare yr else splay_visits compare rt
             end
           else []
  end.

(** ** The elements in order *)

Fixpoint flatten (t : splayNode) : list A :=
  match t with NULL => [] | Node l d r => flatten l ++ d :: flatten r end.

Fixpoint flatten_l (l : lctx) : list A :=
  match l with [] => [] | (lt, d) :: l => flatten_l l ++ flatten lt ++ [d] end.
Fixpoint flatten_r (r : rctx) : list A :=
  match r with [] => [] | (d, rt) :: r => d :: flatten rt ++ flatten_r r end.

(** Along the elements the comparison goes from positive over 0 to negative. *)
Definition descending (compare : A -> Z) (l : list A) : Prop :=
  StronglySorted (fun x y => (compare x <= 0 -> compare y <= 0) /\ (compare x < 0 -> compare y < 0)) l.

(** The same with at most one 0. *)
Definition searchable (compare : A -> Z) (l : list A) : Prop :=
  StronglySorted (fun x y => compare x <= 0 -> compare y < 0) l.

Lemma flatten_close_l l t : flatten (close_l l t) = flatten_l l ++ flatten t.
Proof.
  revert t. induction l as [|[lt d] l IH]; intros t; [done|]. cbn [close_l foldl flatten_l].
  change (foldl _ ?u l) with (close_l l u). rewrite IH. cbn [flatten]. by rewrite <- !app_assoc.
Qed.

Lemma flatten_close_r r t : flatten (close_r r t) = flatten t ++ flatten_r r.
Proof.
  revert t. induction r as [|[d rt] r IH]; intros t; cbn [close_r foldl flatten_r].
  - by rewrite app_nil_r.
  - change (foldl _ ?u r) with (close_r r u). rewrite IH. cbn [flatten]. by rewrite <- !app_assoc.
Qed.

(** What a search keeps: everything passed on the left is smaller than the
    datum, everything on the right larger. *)
Definition passed (compare : A -> Z) (l : lctx) (r : rctx) : Prop :=
  Forall (fun x => 0 < compare x) (flatten_l l) /\ Forall (fun x => compare x < 0) (flatten_r r).

Lemma searchable_app f l1 l2 : searchable f (l1 ++ l2) -> searchable f l1 /\ searchable f l2.
Proof.
  intros Hs. induction l1 as [|x l1 IH]; [split; [constructor|done]|].
  apply StronglySorted_inv in Hs as [Hs Hx]. destruct (IH Hs) as [H1 H2]. split; [|done].
  constructor; [done|]. by apply Forall_app in Hx as [? _].
Qed.

(** The elements after one that is not smaller than the datum are larger. *)
Lemma searchable_right f x l : searchable f (x :: l) -> f x <= 0 -> Forall (fun y => f y < 0) l.
Proof. intros [_ Hx]%StronglySorted_inv Hf. eapply Forall_impl; [exact Hx|]. auto. Qed.

Lemma searchable_left f x l r : searchable f (l ++ x :: r) -> 0 <= f x -> Forall (fun y => 0 < f y) l.
Proof.
  induction l as [|y l IH]; intros Hs Hf; [constructor|]. apply StronglySorted_inv in Hs as [Hs Hy].
  constructor; [|by apply IH]. apply Forall_app in Hy as [_ [Hy _]%Forall_cons]. destruct (Z.lt_ge_cases 0 (f y)); [done|].
  specialize (Hy H). lia.
Qed.

Lemma searchable_descending f l : searchable f l -> descending f l.
Proof.
  induction 1 as [|x l Hs IH Hx]; constructor; [done|]. eapply Forall_impl; [exact Hx|]. cbn. intros y Hy.
  split; intros ?; [apply Z.lt_le_incl|]; apply Hy; lia.
Qed.

Lemma descending_app f l1 l2 : descending f (l1 ++ l2) -> descending f l1 /\ descending f l2.
Proof.
  intros Hs. induction l1 as [|x l1 IH]; [split; [constructor|done]|].
  apply StronglySorted_inv in Hs as [Hs Hx]. destruct (IH Hs) as [H1 H2]. split; [|done].
  constructor; [done|]. by apply Forall_app in Hx as [? _].
Qed.

(** Everything on the side of the datum away from a compared element. *)
Lemma descending_lt f lt d rt : descending f (flatten (Node lt d rt)) -> f d < 0 ->
  descending f (flatten lt) /\ Forall (fun y => f y < 0) (d :: flatten rt).
Proof.
  cbn [flatten]. intros Hs Hd. destruct (descending_app _ _ _ Hs) as [H1 H2]. split; [done|].
  constructor; [done|]. apply StronglySorted_inv in H2 as [_ Hx]. eapply Forall_impl; [exact Hx|]. cbn. intros y [_ Hy]. auto.
Qed.

Lemma descending_gt f lt d rt : descending f (flatten (Node lt d rt)) -> 0 < f d ->
  descending f (flatten rt) /\ Forall (fun y => 0 < f y) (flatten lt ++ [d]).
Proof.
  cbn [flatten]. intros Hs Hd. destruct (descending_app _ _ _ Hs) as [_ H2].
  split; [by apply StronglySorted_inv in H2 as [? _]|]. apply Forall_app. split; [|by constructor].
  clear H2. induction (flatten lt) as [|y l IH]; [constructor|]. apply StronglySorted_inv in Hs as [Hs Hy].
  constructor; [|by apply IH]. apply Forall_app in Hy as [_ [[Hy _] _]%Forall_cons]. destruct (Z.lt_ge_cases 0 (f y)); [done|].
  specialize (Hy H). lia.
Qed.

(** What the loop delivers from the state [l], [top], [r]: the elements in
    order, around an element with the comparison at it; unless that is 0,
    everything before it is smaller than the datum and everything after it
    larger. *)
Definition found (compare : A -> Z) (l : lctx) (top : splayNode) (r : rctx) (res : option (lctx * rctx * splayNode * Z)) : Prop :=
  exists l' r' lt d rt, res = Some (l', r', Node lt d rt, compare d) /\
    flatten_l l' ++ flatten (Node lt d rt) ++ flatten_r r' = flatten_l l ++ flatten top ++ flatten_r r /\
    (compare d <> 0 -> Forall (fun x => 0 < compare x) (flatten_l l' ++ flatten lt) /\
      Forall (fun x => compare x < 0) (flatten rt ++ flatten_r r')).

Lemma found_step compare l1 t1 r1 l2 t2 r2 res :
  found compare l2 t2 r2 res -> flatten_l l2 ++ flatten t2 ++ flatten_r r2 = flatten_l l1 ++ flatten t1 ++ flatten_r r1 ->
  found compare l1 t1 r1 res.
Proof.
  intros (l' & r' & lt & d & rt & Hres & Hf & H1) He. exists l', r', lt, d, rt. rewrite Hf. done.
Qed.

Ltac flat := cbn [flatten flatten_l flatten_r]; rewrite ?app_nil_l, ?app_nil_r; repeat (rewrite <- app_assoc; cbn [app]); done.
Ltac flen := cbn [flatten] in *; repeat (rewrite length_app in * || cbn [length] in * ); lia.
Ltac forall_app := repeat match goal with
  | H : Forall _ (_ ++ _) |- _ => apply Forall_app in H as [? ?]
  | H : Forall _ (_ :: _) |- _ => apply Forall_cons in H as [? ?]
  | |- Forall _ (_ ++ _) => apply Forall_app; split
  | |- Forall _ (_ :: _) => apply Forall_cons; split
  | |- Forall _ [] => apply Forall_nil; done
  end; try done.

Lemma splay_loop_ok compare n : forall top l r,
  (length (flatten top) <= n)%nat -> descending compare (flatten top) -> passed compare l r -> top <> NULL ->
  found compare l top r (splay_loop compare l r top).
Proof.
  induction n as [|n IH]; intros top l r Hlen Hs [Hl Hr] Hnn.
  { destruct top; [done|]. flen. }
  destruct top as [|lt d rt]; [done|]. cbn [splay_loop].
  destruct (Z.ltb_spec (compare d) 0) as [Hd|Hd].
  - destruct (descending_lt _ _ _ _ Hs Hd) as [Hslt Hgt]. destruct lt as [|yl yd yr].
    { exists l, r, NULL, d, rt. split_and!; [done|done|]. intros _. split; cbn [flatten]; forall_app. }
    destruct (Z.ltb_spec (compare yd) 0) as [Hyd|Hyd].
    + destruct (descending_lt _ _ _ _ Hslt Hyd) as [Hsyl Hygt]. destruct yl as [|yll yld ylr] eqn:Eyl.
      { exists l, r, NULL, yd, (Node yr d rt). split_and!; [done|flat|]. intros _. split; cbn [flatten]; forall_app. }
      rewrite <- Eyl in *. eapply found_step.
      * apply IH; [by flen|done| |by rewrite Eyl].
        split; cbn [flatten flatten_r]; forall_app.
      * flat.
    + eapply found_step.
      * apply IH; [by flen|done| |done]. split; cbn [flatten_r]; forall_app.
      * flat.
  - destruct (Z.ltb_spec 0 (compare d)) as [Hd'|Hd'].
    + destruct (descending_gt _ _ _ _ Hs Hd') as [Hsrt Hlt]. destruct rt as [|yl yd yr].
      { exists l, r, lt, d, NULL. split_and!; [done|done|]. intros _. split; cbn [flatten]; forall_app. }
      destruct (Z.ltb_spec 0 (compare yd)) as [Hyd|Hyd].
      * destruct (descending_gt _ _ _ _ Hsrt Hyd) as [Hsyr Hylt]. destruct yr as [|yrl yrd yrr] eqn:Eyr.
        { exists l, r, (Node lt d yl), yd, NULL. split_and!; [done|flat|]. intros _. split; cbn [flatten]; forall_app. }
        rewrite <- Eyr in *. eapply found_step.
        -- apply IH; [by flen|done| |by rewrite Eyr].
           split; cbn [flatten flatten_l]; forall_app.
        -- flat.
      * eapply found_step.
        -- apply IH; [by flen|done| |done]. split; cbn [flatten_l]; forall_app.
        -- flat.
    + exists l, r, lt, d, rt. splits. intros ?. lia.
Qed.

(** A search by any comparison that descends along the tree. *)
Lemma splay_splay_weak compare top :
  descending compare (flatten top) -> top <> NULL ->
  exists lt d rt, splay_splay compare top = Some (Node lt d rt, compare d) /\ flatten (Node lt d rt) = flatten top /\
    (compare d <> 0 -> Forall (fun x => 0 < compare x) (flatten lt) /\ Forall (fun x => compare x < 0) (flatten rt)).
Proof.
  intros Hs Hnn. destruct (splay_loop_ok compare _ top [] [] (le_n _) Hs) as (l & r & lt & d & rt & Hl & Hf & H1); [done..|].
  exists (close_l l lt), d, (close_r r rt). destruct top as [|tl td tr]; [done|]. unfold splay_splay. rewrite Hl. split; [done|].
  cbn [flatten flatten_l flatten_r] in *. rewrite flatten_close_l, flatten_close_r. rewrite app_nil_l, app_nil_r in Hf.
  rewrite <- Hf. splits. by rewrite <- !app_assoc.
Qed.

Lemma splay_splay_ok compare top :
  searchable compare (flatten top) -> top <> NULL ->
  exists lt d rt, splay_splay compare top = Some (Node lt d rt, compare d) /\ flatten (Node lt d rt) = flatten top /\
    Forall (fun x => 0 < compare x) (flatten lt) /\ Forall (fun x => compare x < 0) (flatten rt).
Proof.
  intros Hs Hnn. destruct (splay_splay_weak compare top) as (lt & d & rt & Hl & Hf & H1); [by apply searchable_descending|done|].
  exists lt, d, rt. splits; destruct (Z.eq_dec (compare d) 0) as [Hd|Hd]; try (by apply H1); rewrite <- Hf in Hs; cbn [flatten] in Hs.
  - eapply searchable_left; [done|lia].
  - eapply searchable_right; [eapply (proj2 (searchable_app _ _ _ Hs))|lia].
Qed.

Lemma not_Exists_sides (f : A -> Z) l1 l2 :
  Forall (fun x => 0 < f x) l1 -> Forall (fun x => f x < 0) l2 -> ~ Exists (fun x => f x = 0) (l1 ++ l2).
Proof.
  intros H1 H2 [Hx|Hx]%Exists_app; apply Exists_exists in Hx as (x & Hin & Hz).
  - pose proof (proj1 (Forall_forall _ _) H1 x Hin). cbn in *. lia.
  - pose proof (proj1 (Forall_forall _ _) H2 x Hin). cbn in *. lia.
Qed.

Lemma splay_visits_elem compare t : forall x, x ∈ splay_visits compare t -> x ∈ flatten t.
Proof.
  remember (length (flatten t)) as n eqn:En. revert t En. induction n as [n IH] using lt_wf_ind. intros t -> x. 
  destruct t as [|lt d rt]; cbn [splay_visits]; [by intros ?%not_elem_of_nil|]. 
  assert (forall u, (length (flatten u) < length (flatten (Node lt d rt)))%nat -> x ∈ splay_visits compare u -> x ∈ flatten u) as IHu.
  { intros u Hu. by apply (IH _ Hu u eq_refl). }
  cbn [flatten] in *. intros [->|Hx]%elem_of_cons; [set_solver|].
  destruct (compare d <? 0); [|destruct (0 <? compare d); [|by apply not_elem_of_nil in Hx]].
  - destruct lt as [|yl yd yr]; [by apply not_elem_of_nil in Hx|]. apply elem_of_cons in Hx as [->|Hx]; [set_solver|].
    destruct (compare yd <? 0); apply IHu in Hx; try set_solver; clear IH IHu; flen.
  - destruct rt as [|yl yd yr]; [by apply not_elem_of_nil in Hx|]. apply elem_of_cons in Hx as [->|Hx]; [set_solver|].
    destruct (0 <? compare yd); apply IHu in Hx; try set_solver; clear IH IHu; flen.
Qed.

(** *** Walks *)

Lemma splay_walk_ok {S} (f : A -> S -> S) t s : t <> NULL -> splay_walk f t s = Some (foldl (fun s x => f x s) s (flatten t)).
Proof.
  revert s. induction t as [|lt IHl d rt IHr]; intros s Hnn; [done|]. cbn [splay_walk flatten]. rewrite foldl_app. cbn [foldl].
  assert ((if is_null lt then Some s else splay_walk f lt s) = Some (foldl (fun s x => f x s) s (flatten lt))) as ->.
  { destruct lt; [done|]. by apply IHl. }
  bind_simpl. destruct rt; [done|]. by apply IHr.
Qed.

(** The order in which the data are freed. *)
Fixpoint postorder (t : splayNode) : list A :=
  match t with NULL => [] | Node l d r => postorder l ++ postorder r ++ [d] end.

Lemma splay_destroy_ok {S} (f : A -> S -> S) t s : splay_destroy f t s = foldl (fun s x => f x s) s (postorder t).
Proof.
  revert s. induction t as [|lt IHl d rt IHr]; intros s; [done|]. cbn [splay_destroy postorder].
  by rewrite !foldl_app, <- IHl, <- IHr.
Qed.

Lemma postorder_flatten t : postorder t ≡ₚ flatten t.
Proof.
  induction t as [|lt IHl d rt IHr]; [done|]. cbn [postorder flatten]. rewrite IHl, IHr.
  by rewrite Permutation_app_comm with (l := flatten rt).
Qed.

(** ** Sorted trees *)

(** What an insertion needs of a comparison function. *)
Class SplayOrder (compare : A -> A -> Z) := {
  cmp_flip : forall a b, Z.sgn (compare b a) = - Z.sgn (compare a b);
  cmp_trans : forall a b c, compare a b <= 0 -> compare b c < 0 -> compare a c < 0
}.

Definition sorted (compare : A -> A -> Z) (t : splayNode) : Prop :=
  StronglySorted (fun x y => compare x y < 0) (flatten t).

Context (compare : A -> A -> Z) `{!SplayOrder compare}.

Lemma sorted_searchable data t : sorted compare t -> searchable (compare data) (flatten t).
Proof.
  unfold sorted. induction 1 as [|x l Hs IH Hx]; [constructor|]. constructor; [exact IH|].
  eapply Forall_impl; [exact Hx|]. cbn. intros y Hy Hd. by eapply cmp_trans.
Qed.

Lemma StronglySorted_middle (R : relation A) l1 x l2 :
  StronglySorted R (l1 ++ l2) -> Forall (fun y => R y x) l1 -> Forall (R x) l2 -> StronglySorted R (l1 ++ x :: l2).
Proof.
  intros Hs H1 H2. induction l1 as [|y l1 IH]; [by constructor|]. cbn [app] in *.
  apply StronglySorted_inv in Hs as [Hs Hy]. apply Forall_cons in H1 as [Hyx H1].
  constructor; [by apply IH|]. apply Forall_app in Hy as [? ?]. apply Forall_app. split; [done|by constructor].
Qed.

Lemma cmp_pos_flip a b : 0 < compare a b -> compare b a < 0.
Proof. intros Hp. pose proof (cmp_flip a b). pose proof (Z.sgn_pos _ Hp). destruct (Z.sgn_spec (compare b a)); lia. Qed.

(** The datum between smaller and larger elements. *)
Lemma sorted_insert_middle data l1 l2 :
  StronglySorted (fun x y => compare x y < 0) (l1 ++ l2) ->
  Forall (fun x => 0 < compare data x) l1 -> Forall (fun x => compare data x < 0) l2 ->
  StronglySorted (fun x y => compare x y < 0) (l1 ++ data :: l2).
Proof.
  intros Hs H1 H2. apply StronglySorted_middle; [done| |done]. eapply Forall_impl; [exact H1|]. apply cmp_pos_flip.
Qed.

(** An insertion either finds an equal element and changes nothing but the
    shape, or puts the datum in its place. *)
Definition inserted (data : A) (t t' : splayNode) : Prop :=
  if decide (Exists (fun x => compare data x = 0) (flatten t)) then flatten t' = flatten t
  else exists l1 l2, flatten t = l1 ++ l2 /\ flatten t' = l1 ++ data :: l2.

Lemma splay_insert_ok data t :
  sorted compare t ->
  exists t' res, splay_insert compare data t = Some (t', res) /\ sorted compare t' /\ inserted data t t'.
Proof.
  intros Hs. unfold splay_insert. destruct t as [|tl td tr] eqn:Et.
  { cbn. eexists _, _. split; [done|]. split; [repeat constructor|]. unfold inserted. rewrite decide_False by (by intros ?%Exists_nil).
    by exists [], []. }
  rewrite <- Et in *. destruct (splay_splay_ok (compare data) t) as (lt & d & rt & -> & Hf & Hlt & Hrt);
    [by apply sorted_searchable|by rewrite Et|]. bind_simpl. clear Et. unfold sorted, inserted in *. rewrite <- Hf in *. cbn [flatten] in *.
  destruct (Z.ltb_spec (compare data d) 0) as [Hd|Hd]; [|destruct (Z.ltb_spec 0 (compare data d)) as [Hd'|Hd']].
  - eexists _, _. split; [done|]. cbn [flatten app]. assert (Forall (fun x => compare data x < 0) (d :: flatten rt)) by (by constructor).
    rewrite decide_False by (by apply not_Exists_sides). split; [by apply sorted_insert_middle|]. eauto.
  - eexists _, _. split; [done|]. cbn [flatten]. assert (Forall (fun x => 0 < compare data x) (flatten lt ++ [d])).
    { apply Forall_app. split; [done|by constructor]. }
    change (d :: flatten rt) with ([d] ++ flatten rt) in *. rewrite (app_assoc _ [d]) in *.
    rewrite decide_False by (by apply not_Exists_sides). split; [by apply sorted_insert_middle|]. eauto.
  - eexists _, _. split; [done|]. cbn [flatten]. split; [done|].
    rewrite decide_True; [done|]. apply Exists_app. right. apply Exists_cons. left. lia.
Qed.
End splay.
Arguments splayNode : clear implicits.

(** Integers compared by difference, as in the driver of the library. *)
#[export] Instance int_order : SplayOrder (fun a b : Z => a - b).
Proof.
  split; [|lia]. intros a b. replace (b - a) with (- (a - b)) by lia. apply Z.sgn_opp.
Qed.

(** ** Trees of ranges

    Access lists keep disjoint ranges of points in a tree (networks in the
    space of addresses, domains in the space of host names): [cmp p a] tells
    whether the point [p] is before, in or after the range [a], and [rep a] is
    the first point of [a].  Ranges are inserted by [range_cmp], which is 0
    when they overlap, and searched by point. *)
Class SplayRange {A P : Type} (cmp : P -> A -> Z) (rep : A -> P) (wf : A -> Prop) (pt : P -> Prop) (ple : P -> P -> Prop) := {
  range_total : forall p q, ple p q \/ ple q p;
  range_up : forall p q a, pt p -> pt q -> wf a -> ple p q -> 0 < cmp p a -> 0 < cmp q a;
  range_down : forall p q a, pt p -> pt q -> wf a -> ple p q -> cmp q a < 0 -> cmp p a < 0;
  range_pt : forall a, wf a -> pt (rep a);
  range_rep : forall a, wf a -> cmp (rep a) a = 0;
  range_least : forall p a, pt p -> wf a -> cmp p a = 0 -> ple (rep a) p
}.

Section ranges.
Context {A P : Type} (cmp : P -> A -> Z) (rep : A -> P) (wf : A -> Prop) (pt : P -> Prop) (ple : P -> P -> Prop).
Context `{!SplayRange cmp rep wf pt ple}.
Implicit Types (p q : P) (a x y : A).

Definition range_cmp (a b : A) : Z := if cmp (rep b) a =? 0 then 0 else cmp (rep a) b.

(** [a] ends before [b] begins. *)
Definition before (a b : A) : Prop := cmp (rep a) b < 0 /\ 0 < cmp (rep b) a.

Definition ranged (t : splayNode A) : Prop := Forall wf (flatten t) /\ StronglySorted before (flatten t).

Lemma below_rep p a : pt p -> wf a -> cmp p a < 0 -> ple p (rep a) /\ ~ ple (rep a) p.
Proof.
  intros Hp Ha Hc. assert (~ ple (rep a) p) as Hn.
  { intros Hl. pose proof (range_down _ _ a (range_pt a Ha) Hp Ha Hl Hc). rewrite (range_rep a Ha) in *. lia. }
  split; [|done]. by destruct (range_total p (rep a)).
Qed.

Lemma above_rep p a : pt p -> wf a -> 0 < cmp p a -> ple (rep a) p /\ ~ ple p (rep a).
Proof.
  intros Hp Ha Hc. assert (~ ple p (rep a)) as Hn.
  { intros Hl. pose proof (range_up _ _ a Hp (range_pt a Ha) Ha Hl Hc). rewrite (range_rep a Ha) in *. lia. }
  split; [|done]. by destruct (range_total p (rep a)).
Qed.

Lemma after_rep p a : pt p -> wf a -> 0 <= cmp p a -> ple (rep a) p.
Proof.
  intros Hp Ha Hc. destruct (Z.eq_dec (cmp p a) 0); [by apply (range_least p a)|]. apply above_rep; [done..|lia].
Qed.

Lemma rep_after p a : pt p -> wf a -> ple (rep a) p -> 0 <= cmp p a.
Proof. intros Hp Ha Hl. destruct (Z.lt_ge_cases (cmp p a) 0); [|done]. by destruct (below_rep p a Hp Ha). Qed.

(** A point that is not after one range is before the next. *)
Lemma before_point p x y : pt p -> wf x -> wf y -> before x y -> cmp p x <= 0 -> cmp p y < 0.
Proof.
  intros Hp Hx Hy [H1 H2] Hc. destruct (Z.eq_dec (cmp p x) 0) as [E|E].
  - destruct (Z.lt_ge_cases (cmp p y) 0) as [|Hge]; [done|].
    pose proof (range_up _ _ x (range_pt y Hy) Hp Hx (after_rep p y Hp Hy Hge) H2). lia.
  - destruct (below_rep p x Hp Hx) as [Hl _]; [lia|]. by apply (range_down _ (rep x) y Hp (range_pt x Hx) Hy).
Qed.

Lemma ranged_searchable p t : pt p -> ranged t -> searchable (cmp p) (flatten t).
Proof.
  intros Hp [Hw Hs]. induction Hs as [|x l Hs IH Hx]; constructor; apply Forall_cons in Hw as [Hwx Hw].
  - by apply IH.
  - apply Forall_forall. intros y Hy Hc. rewrite Forall_forall in Hw, Hx. by eapply before_point; eauto.
Qed.

(** *** Insertion *)

Lemma range_cmp_neg a x : wf a -> wf x -> range_cmp a x < 0 -> before a x.
Proof.
  unfold range_cmp. intros Ha Hx Hc. destruct (Z.eqb_spec (cmp (rep x) a) 0); [lia|]. split; [done|].
  destruct (below_rep (rep a) x (range_pt a Ha) Hx Hc) as [Hl _]. pose proof (rep_after _ a (range_pt x Hx) Ha Hl). lia.
Qed.

Lemma range_cmp_pos a x : wf a -> wf x -> 0 < range_cmp a x -> before x a.
Proof.
  unfold range_cmp. intros Ha Hx Hc. destruct (Z.eqb_spec (cmp (rep x) a) 0); [lia|]. split; [|done].
  destruct (above_rep (rep a) x (range_pt a Ha) Hx Hc) as [_ Hl]. destruct (Z.lt_ge_cases (cmp (rep x) a) 0) as [|Hge]; [done|].
  by pose proof (after_rep _ a (range_pt x Hx) Ha Hge).
Qed.

Lemma range_cmp_before a x y : wf a -> wf x -> wf y -> before x y ->
  (range_cmp a x <= 0 -> range_cmp a y <= 0) /\ (range_cmp a x < 0 -> range_cmp a y < 0).
Proof.
  intros Ha Hx Hy Hb. split; intros Hc.
  - assert (cmp (rep a) y < 0) as Hlt.
    { revert Hc. unfold range_cmp. destruct (Z.eqb_spec (cmp (rep x) a) 0) as [E|E]; intros Hc.
      - apply (range_down _ (rep x) y (range_pt a Ha) (range_pt x Hx) Hy); [|apply Hb]. by apply (range_least _ a (range_pt x Hx)).
      - by apply (before_point _ x y (range_pt a Ha)). }
    unfold range_cmp. case_match; lia.
  - destruct (range_cmp_neg a x Ha Hx Hc) as [H1 H2]. pose proof (before_point _ x y (range_pt a Ha) Hx Hy Hb (Z.lt_le_incl _ _ H1)) as Hlt.
    pose proof (range_up _ (rep y) a (range_pt x Hx) (range_pt y Hy) Ha) as Hup.
    unfold range_cmp. destruct (Z.eqb_spec (cmp (rep y) a) 0) as [E|E]; [|done].
    pose proof (Hup (proj1 (below_rep _ y (range_pt x Hx) Hy (proj1 Hb))) H2). lia.
Qed.

(** The insertion comparison is 0 exactly for ranges with a common point. *)
Lemma range_cmp_overlap a x : wf a -> wf x -> range_cmp a x = 0 <-> exists p, pt p /\ cmp p a = 0 /\ cmp p x = 0.
Proof.
  intros Ha Hx. unfold range_cmp. split.
  - destruct (Z.eqb_spec (cmp (rep x) a) 0) as [E|E]; intros Hc.
    + exists (rep x). split; [by apply range_pt|]. split; [done|by apply range_rep].
    + exists (rep a). split; [by apply range_pt|]. split; [by apply range_rep|done].
  - intros (p & Hp & E1 & E2). destruct (Z.eqb_spec (cmp (rep x) a) 0) as [E|E]; [done|].
    destruct (range_total (rep a) (rep x)) as [Hl|Hl].
    + pose proof (rep_after _ a (range_pt x Hx) Ha Hl). pose proof (range_up _ p a (range_pt x Hx) Hp Ha (range_least p x Hp Hx E2)). lia.
    + pose proof (rep_after _ x (range_pt a Ha) Hx Hl). pose proof (range_up _ p x (range_pt a Ha) Hp Hx (range_least p a Hp Ha E1)). lia.
Qed.

Lemma ranged_descending a t : wf a -> ranged t -> descending (range_cmp a) (flatten t).
Proof.
  intros Ha [Hw Hs]. induction Hs as [|x l Hs IH Hx]; constructor; apply Forall_cons in Hw as [Hwx Hw].
  - by apply IH.
  - apply Forall_forall. intros y Hy. rewrite Forall_forall in Hw, Hx. apply range_cmp_before; auto.
Qed.

(** The range between those before it and those after it. *)
Lemma ranged_middle a l1 l2 : wf a -> Forall wf (l1 ++ l2) -> StronglySorted before (l1 ++ l2) ->
  Forall (fun x => 0 < range_cmp a x) l1 -> Forall (fun x => range_cmp a x < 0) l2 ->
  Forall wf (l1 ++ a :: l2) /\ StronglySorted before (l1 ++ a :: l2) /\ ~ Exists (fun x => range_cmp a x = 0) (l1 ++ l2).
Proof.
  intros Ha [Hw1 Hw2]%Forall_app Hs H1 H2. split_and!; [apply Forall_app; split; [done|by constructor]| |by apply not_Exists_sides].
  apply StronglySorted_middle; [done|..]; apply Forall_forall; intros x Hx.
  - apply range_cmp_pos; [done|by apply (proj1 (Forall_forall _ _) Hw1)|by apply (proj1 (Forall_forall _ _) H1)].
  - apply range_cmp_neg; [done|by apply (proj1 (Forall_forall _ _) Hw2)|by apply (proj1 (Forall_forall _ _) H2)].
Qed.

(** Inserting a range: it is dropped when it overlaps one that is there. *)
Lemma range_insert_ok a t : wf a -> ranged t ->
  exists t' res, splay_insert range_cmp a t = Some (t', res) /\ ranged t' /\
    if decide (Exists (fun x => range_cmp a x = 0) (flatten t)) then flatten t' = flatten t /\ res = 0
    else flatten t' ≡ₚ a :: flatten t /\ res <> 0.
Proof.
  intros Ha Ht. unfold splay_insert. destruct t as [|tl td tr] eqn:Et.
  { cbn. eexists _, _. split; [done|]. split; [split; repeat constructor; done|]. rewrite decide_False by (by intros ?%Exists_nil). done. }
  rewrite <- Et in *. destruct (splay_splay_weak (range_cmp a) t) as (lt & d & rt & -> & Hf & Hd);
    [by apply ranged_descending|by rewrite Et|]. bind_simpl. clear Et. unfold ranged in *. rewrite <- Hf in *. destruct Ht as [Hw Hs].
  cbn [flatten] in *. destruct (Z.ltb_spec (range_cmp a d) 0) as [Hn|Hn]; [|destruct (Z.ltb_spec 0 (range_cmp a d)) as [Hp|Hp]].
  - destruct (Hd ltac:(lia)) as [H1 H2]. destruct (ranged_middle a (flatten lt) (d :: flatten rt)) as (Hw' & Hs' & Hx); [done..|by constructor|].
    eexists _, _. split; [done|]. cbn [flatten app]. split; [done|]. rewrite decide_False by done.
    split; [by rewrite Permutation_middle|lia].
  - destruct (Hd ltac:(lia)) as [H1 H2]. change (d :: flatten rt) with ([d] ++ flatten rt) in *. rewrite (app_assoc _ [d]) in *.
    destruct (ranged_middle a (flatten lt ++ [d]) (flatten rt)) as (Hw' & Hs' & Hx); [done..| |done|].
    { apply Forall_app. split; [done|by constructor]. }
    eexists _, _. split; [done|]. cbn [flatten app]. split; [done|]. rewrite decide_False by done.
    split; [by rewrite Permutation_middle|lia].
  - eexists _, _. split; [done|]. split; [done|]. rewrite decide_True; [split; [done|lia]|].
    apply Exists_app. right. apply Exists_cons. left. lia.
Qed.

(** Searching for a point: the tree keeps its ranges, and the result is 0
    exactly when one of them contains the point. *)
Lemma range_search_ok p t : pt p -> ranged t ->
  exists t' res, splay_splay (cmp p) t = Some (t', res) /\ flatten t' = flatten t /\ ranged t' /\
    (res = 0 <-> Exists (fun x => cmp p x = 0) (flatten t)).
Proof.
  intros Hp Ht. destruct t as [|tl td tr] eqn:Et.
  { exists NULL, (-1). split_and!; [done|done|done|]. split; [done|by intros ?%Exists_nil]. }
  rewrite <- Et in *. destruct (splay_splay_ok (cmp p) t) as (lt & d & rt & E & Hf & H1 & H2);
    [by apply ranged_searchable|by rewrite Et|].
  exists (Node lt d rt), (cmp p d). unfold ranged in *. rewrite <- Hf in *. do 3 (split; [done|]).
  cbn [flatten]. split.
  - intros ?. apply Exists_app. right. by apply Exists_cons; left.
  - intros [Hx|[Hx|Hx]%Exists_cons]%Exists_app; [|done|].
    + destruct (not_Exists_sides (cmp p) _ [] H1); [constructor|]. by rewrite app_nil_r.
    + by destruct (not_Exists_sides (cmp p) [] _ (Forall_nil_2 _) H2).
Qed.

(** The ranges that a sequence of insertions keeps: those that overlap none
    kept before them. *)
Definition kept (acc l : list A) : list A :=
  foldl (fun acc a => if decide (Exists (fun x => range_cmp a x = 0) acc) then acc else acc ++ [a]) acc l.

(** Inserting one after the other, as the parsers of access lists do. *)
Fixpoint insert_all (l : list A) (t : splayNode A) : option (splayNode A) :=
  match l with
  | [] => Some t
  | a :: l => let? (t, _) := splay_insert range_cmp a t in insert_all l t
  end.

Lemma Exists_perm (Q : A -> Prop) l k : l ≡ₚ k -> Exists Q l <-> Exists Q k.
Proof. intros Hp. rewrite !Exists_exists. by setoid_rewrite Hp. Qed.

Lemma insert_all_ok l t acc : Forall wf l -> ranged t -> flatten t ≡ₚ acc ->
  exists t', insert_all l t = Some t' /\ ranged t' /\ flatten t' ≡ₚ kept acc l.
Proof.
  revert t acc. induction l as [|a l IH]; intros t acc Hw Ht Hp; [eauto|]. apply Forall_cons in Hw as [Ha Hw].
  cbn [insert_all kept foldl]. destruct (range_insert_ok a t Ha Ht) as (t' & res & -> & Ht' & Hk). bind_simpl.
  apply IH; [done..|]. pose proof (Exists_perm (fun x => range_cmp a x = 0) _ _ Hp) as HE.
  destruct (decide (Exists _ (flatten t))) as [E|E].
  - rewrite decide_True by (by apply HE). destruct Hk as [-> _]. done.
  - rewrite decide_False by (by intros ?%HE). destruct Hk as [-> _]. rewrite Hp. by rewrite Permutation_cons_append.
Qed.

(** Ranges no two of which overlap are all kept. *)
Lemma kept_disjoint l acc : 
  (forall i j a b, (acc ++ l) !! i = Some a -> (acc ++ l) !! j = Some b -> i <> j -> range_cmp a b <> 0) -> kept acc l = acc ++ l.
Proof.
  revert acc. induction l as [|a l IH]; intros acc Hd; cbn [kept foldl]; [by rewrite app_nil_r|].
  rewrite decide_False.
  - change (kept (acc ++ [a]) l = acc ++ a :: l). rewrite IH by (by rewrite <- app_assoc). by rewrite <- app_assoc.
  - intros (x & Hx & Hz)%Exists_exists. apply list_elem_of_lookup in Hx as [j Hj]. revert Hz. apply (Hd (length acc) j).
    + by rewrite lookup_app_r, Nat.sub_diag by lia.
    + by apply lookup_app_l_Some.
    + apply lookup_lt_Some in Hj. lia.
Qed.
End ranges.

(** ** Properties *)

Lemma splay_search_ok {A} (compare : A -> Z) (top : splayNode A) :
  searchable compare (flatten top) -> top <> NULL ->
  exists lt d rt res, splay_splay compare top = Some (Node lt d rt, res) /\
    flatten (Node lt d rt) = flatten top /\ res = compare d /\
    Forall (fun x => 0 < compare x) (flatten lt) /\ Forall (fun x => compare x < 0) (flatten rt) /\
    (res = 0 <-> Exists (fun x => compare x = 0) (flatten top)).
Proof.
  intros Hs Hnn. destruct (splay_splay_ok compare top Hs Hnn) as (lt & d & rt & Hr & Hf & H1 & H2).
  exists lt, d, rt, (compare d). splits. rewrite <- Hf. cbn [flatten]. split.
  - intros Hz. apply Exists_app. right. by apply Exists_cons; left.
  - intros [Hx|[Hx|Hx]%Exists_cons]%Exists_app; [|done|].
    + apply Exists_exists in Hx as (x & Hin & Hx). pose proof (proj1 (Forall_forall _ _) H1 x Hin). cbn in *. lia.
    + apply Exists_exists in Hx as (x & Hin & Hx). pose proof (proj1 (Forall_forall _ _) H2 x Hin). cbn in *. lia.
Qed.

(** A search of a splay tree that is not empty ends and only rearranges it:
    the elements keep their order.  The element it brings to the root has the
    smaller ones on its left and the larger ones on its right,
    [splayLastResult] is the comparison with it, and it is 0 exactly when some
    element compares equal.  The comparison may be any that goes from positive
    to negative along the tree, as those of address ranges do. *)
Theorem splay_search {A} (compare : A -> Z) (top : splayNode A) :
  searchable compare (flatten top) -> top <> NULL ->
  exists lt d rt res, splay_splay compare top = Some (Node lt d rt, res) /\
    flatten (Node lt d rt) = flatten top /\ res = compare d /\
    Forall (fun x => 0 < compare x) (flatten lt) /\ Forall (fun x => compare x < 0) (flatten rt) /\
    (res = 0 <-> Exists (fun x => compare x = 0) (flatten top)).
Proof. apply splay_search_ok. Qed.

(** A chain to the left, which a search for 1 turns over. *)
Definition wit_tree : splayNode Z :=
  Node (Node (Node (Node NULL 1 NULL) 2 NULL) 3 NULL) 4 (Node NULL 5 NULL).

Lemma splay_search_witness :
  exists lt d rt res, splay_splay (fun x => 1 - x) wit_tree = Some (Node lt d rt, res) /\
    flatten (Node lt d rt) = [1; 2; 3; 4; 5] /\ res = 0.
Proof.
  destruct (splay_search (fun x => 1 - x) wit_tree) as (lt & d & rt & res & H1 & H2 & _ & _ & _ & H3); [|done|].
  - repeat constructor; lia.
  - exists lt, d, rt, res. splits. apply H3. cbn. by left.
Defined.

(** Inserting into a sorted splay tree gives a sorted tree, empty or not,
    with the datum added in its place, or with the same elements when one that
    compares equal was there. *)
Theorem splay_insert_correct {A} (compare : A -> A -> Z) `{!SplayOrder compare} (data : A) (top : splayNode A) :
  sorted compare top ->
  exists t' res, splay_insert compare data top = Some (t', res) /\ sorted compare t' /\
    if decide (Exists (fun x => compare data x = 0) (flatten top)) then flatten t' = flatten top
    else exists l1 l2, flatten top = l1 ++ l2 /\ flatten t' = l1 ++ data :: l2.
Proof. apply splay_insert_ok; done. Qed.

Lemma splay_insert_correct_witness :
  exists t' res, splay_insert (fun a b => a - b) 6 wit_tree = Some (t', res) /\ sorted (fun a b => a - b) t'.
Proof.
  destruct (splay_insert_correct (fun a b => a - b) 6 wit_tree) as (t' & res & H1 & H2 & _).
  - repeat constructor.
  - eauto.
Defined.

(** [splay_walk] visits the elements in order but reads through its argument:
    the tree of an access list without values, which is NULL, must not be given
    to it. *)
Lemma splay_walk_empty {A S} (f : A -> S -> S) s : splay_walk f NULL s = None.
Proof. done. Qed.

(** Destroying frees every element once. *)
Lemma splay_destroy_all {A} (t : splayNode A) : splay_destroy (fun x l => l ++ [x]) t [] ≡ₚ flatten t.
Proof.
  rewrite splay_destroy_ok, <- postorder_flatten.
  by rewrite foldl_snoc_id.
Qed.
End Splay.
