(* ===== verification/Base64.v ===== *)
(** * Base 64

    lib/base64.c.  The results are written to static buffers of
    [BASE64_RESULT_SZ] bytes; a buffer is modelled by the bytes written so far,
    with every write checked against its size. *)

From Stdlib Require Import ZArith Lia.
From stdpp Require Import base strings list numbers option.
From S2P Require Import Prelude CStr.

Module Base64.

Definition BASE64_VALUE_SZ : nat := 256.
Definition BASE64_RESULT_SZ : Z := 8192.

Definition base64_code : bytes := str "ABCDEFGHIJKLMNOPQRSTUVWXYZabcdefghijklmnopqrstuvwxyz0123456789+/".

(** [base64_value] after [base64_init]. *)
Definition base64_init : list Z :=
  let value := replicate BASE64_VALUE_SZ (-1) in
  let value := foldl (fun v i => match base64_code !! i with Some c => <[Z.to_nat c := Z.of_nat i]> v | None => v end)
                     value (seq 0 64) in
  <[61%nat := 0]> value.

Definition base64_value : list Z := Eval vm_compute in base64_init.

(** [result[out_cnt++] = c] *)
Definition put (c : Z) (result : bytes) : option bytes :=
  assert? (Z.of_nat (length result) <? BASE64_RESULT_SZ) in Some (result ++ [c]).

Definition code (i : Z) : option Z := assert? (0 <=? i) in base64_code !! Z.to_nat i.

(** The terminator. *)
Definition terminate (result : bytes) : option bytes :=
  assert? (Z.of_nat (length result) <? BASE64_RESULT_SZ) in Some result.

(** *** Decoding *)

Fixpoint decode_loop (p : bytes) (val c : Z) (result : bytes) : option bytes :=
  match p with
  | [] => Some result
  | ch :: p =>
      if Z.of_nat (length result) + 4 <? BASE64_RESULT_SZ then
        let k := wrap_u 8 ch `mod` Z.of_nat BASE64_VALUE_SZ in
        let? v := base64_value !! Z.to_nat k in
        if v <? 0 then decode_loop p val c result
        else
          let val := Z.shiftl val 6 + v in
          let c := c + 1 in
          if c <? 4 then decode_loop p val c result
          else
            let? result := put (wrap_u 8 (Z.shiftr val 16)) result in
            let? result := put (Z.land (Z.shiftr val 8) 255) result in
            let? result := put (Z.land val 255) result in
            decode_loop p 0 0 result
      else Some result
  end.

Definition base64_decode (p : bytes) : option bytes :=
  let? result := decode_loop p 0 0 [] in terminate result.

(** *** Encoding *)

(** Four characters for 24 bits. *)
Definition put4 (bits : Z) (result : bytes) : option bytes :=
  let? c := code (Z.shiftr bits 18) in let? result := put c result in
  let? c := code (Z.land (Z.shiftr bits 12) 63) in let? result := put c result in
  let? c := code (Z.land (Z.shiftr bits 6) 63) in let? result := put c result in
  let? c := code (Z.land bits 63) in put c result.

(** What follows the loops: the last one or two characters, padded. *)
Definition put_rest (bits char_count : Z) (result : bytes) : option bytes :=
  if negb (char_count =? 0) then
    let bits := Z.shiftl bits (16 - 8 * char_count) in
    let? c := code (Z.shiftr bits 18) in let? result := put c result in
    let? c := code (Z.land (Z.shiftr bits 12) 63) in let? result := put c result in
    if char_count =? 1 then let? result := put 61 result in put 61 result
    else let? c := code (Z.land (Z.shiftr bits 6) 63) in let? result := put c result in put 61 result
  else Some result.

(** The loop of [base64_encode]: bits, count and result when it ends. *)
Fixpoint encode_loop (s : bytes) (bits char_count : Z) (result : bytes) : option (Z * Z * bytes) :=
  match s with
  | [] => Some (bits, char_count, result)
  | c :: s =>
      if Z.of_nat (length result) <? BASE64_RESULT_SZ - 5 then
        let bits := bits + c in
        let char_count := char_count + 1 in
        if char_count =? 3 then
          let? result := put4 bits result in encode_loop s 0 0 result
        else encode_loop s (Z.shiftl bits 8) char_count result
      else Some (bits, char_count, result)
  end.

Definition base64_encode (decoded_str : bytes) : option bytes :=
  let? (bits, char_count, result) := encode_loop decoded_str 0 0 [] in
  let? result := put_rest bits char_count result in
  terminate result.

(** [while (len-- && ...)] over the bytes [data] points to: [len] may be
    anything, reading past them is an error. *)
Fixpoint encode_bin_loop (fuel : nat) (data : bytes) (len bits char_count : Z) (result : bytes)
    : option (Z * Z * bytes) :=
  if negb (len =? 0) && (Z.of_nat (length result) <? BASE64_RESULT_SZ - 5) then
    match data, fuel with
    | c :: data, S fuel =>
        let bits := bits + c in
        let char_count := char_count + 1 in
        if char_count =? 3 then
          let? result := put4 bits result in encode_bin_loop fuel data (len - 1) 0 0 result
        else encode_bin_loop fuel data (len - 1) (Z.shiftl bits 8) char_count result
    | _, _ => None
    end
  else Some (bits, char_count, result).

Definition base64_encode_bin (data : bytes) (len : Z) : option bytes :=
  let? (bits, char_count, result) := encode_bin_loop (length data) data len 0 0 [] in
  let? result := put_rest bits char_count result in
  terminate result.

(** The string a buffer holds for its reader: up to the first NUL. *)
Definition c_string (b : bytes) : bytes := take (span (fun c => negb (c =? 0)) b) b.

(** The longest input that is encoded whole: 2047 groups of three. *)
Definition max_input : nat := 3 * 2047.

(** ** Lemmas *)

Lemma code_ok i : 0 <= i < 64 ->
  exists c, code i = Some c /\ 0 < c < 128 /\ base64_value !! Z.to_nat c = Some i.
Proof.
  intros Hi.
  assert (forall n, (n < 64)%nat -> exists c, base64_code !! n = Some c /\ 0 < c < 128 /\ base64_value !! Z.to_nat c = Some (Z.of_nat n)) as Hall.
  { assert (forallb (fun n => match base64_code !! n with
      | Some c => (0 <? c) && (c <? 128) && bool_decide (base64_value !! Z.to_nat c = Some (Z.of_nat n)) | None => false end) (seq 0 64) = true)
      as Hb by (vm_compute; reflexivity).
    intros n Hn. rewrite forallb_forall in Hb. specialize (Hb n). destruct (base64_code !! n) as [c|].
    - exists c. rewrite !andb_true_iff, bool_decide_eq_true in Hb. destruct Hb as [[? ?] ?]; [apply in_seq; lia|]. zify_bools. auto.
    - discriminate Hb. apply in_seq. lia. }
  destruct (Hall (Z.to_nat i)) as (c & Hc & Hr & Hv); [lia|]. exists c. unfold code.
  destruct (Z.leb_spec 0 i); [|lia]. rewrite Z2Nat.id in Hv by lia. done.
Qed.

Lemma put_ok c b : (Z.of_nat (length b) < BASE64_RESULT_SZ) -> put c b = Some (b ++ [c]).
Proof. intros H. unfold put. by destruct (Z.ltb_spec (Z.of_nat (length b)) BASE64_RESULT_SZ); [|lia]. Qed.

(** The four 6-bit parts of 24 bits. *)
Definition part (bits : Z) (k : Z) : Z := (bits / 2 ^ k) `mod` 64.

Lemma land63 x k : 0 <= k -> Z.land (Z.shiftr x k) 63 = part x k.
Proof. intros. unfold part. rewrite Z.shiftr_div_pow2 by lia. change 63 with (Z.ones 6). by rewrite Z.land_ones. Qed.

Lemma part_range bits k : 0 <= part bits k < 64.
Proof. apply Z.mod_pos_bound. lia. Qed.

Lemma shiftr18 x : 0 <= x < 2 ^ 24 -> Z.shiftr x 18 = part x 18.
Proof.
  intros. unfold part. rewrite Z.shiftr_div_pow2 by lia. rewrite Z.mod_small; [done|].
  split; [apply Z.div_pos; lia|]. apply Z.div_lt_upper_bound; lia.
Qed.

Lemma land63_0 x : Z.land x 63 = part x 0.
Proof. rewrite <- land63 by lia. done. Qed.

(** The character of a 6-bit value. *)
Definition sym (i : Z) : Z := default 0 (code i).

Lemma code_sym i : 0 <= i < 64 -> code i = Some (sym i).
Proof. intros (c & Hc & _)%code_ok. unfold sym. by rewrite Hc. Qed.

Lemma sym_value i : 0 <= i < 64 -> base64_value !! Z.to_nat (wrap_u 8 (sym i) `mod` 256) = Some i.
Proof.
  intros (c & Hc & Hr & Hv)%code_ok. unfold sym. rewrite Hc. cbn [from_option id].
  rewrite wrap_u_small by lia. rewrite Z.mod_small by lia. done.
Qed.

Definition quad (bits : Z) : bytes := [sym (part bits 18); sym (part bits 12); sym (part bits 6); sym (part bits 0)].

Lemma put4_ok bits result :
  0 <= bits < 2 ^ 24 -> Z.of_nat (length result) + 4 <= BASE64_RESULT_SZ -> put4 bits result = Some (result ++ quad bits).
Proof.
  intros Hb Hl. unfold put4. rewrite shiftr18, !land63, land63_0 by lia.
  pose proof (part_range bits 18). pose proof (part_range bits 12).
  pose proof (part_range bits 6). pose proof (part_range bits 0).
  rewrite !code_sym by lia. bind_simpl.
  repeat (rewrite put_ok by (rewrite ?length_app; cbn [length]; lia); bind_simpl).
  by rewrite <- !app_assoc.
Qed.

(** The bytes of a group of three. *)
Definition bits3 (c1 c2 c3 : Z) : Z := c1 * 2 ^ 16 + c2 * 2 ^ 8 + c3.

Lemma bits3_range c1 c2 c3 : is_byte c1 -> is_byte c2 -> is_byte c3 -> 0 <= bits3 c1 c2 c3 < 2 ^ 24.
Proof. unfold is_byte, bits3. lia. Qed.

Lemma parts_sum bits : 0 <= bits < 2 ^ 24 ->
  part bits 18 * 2 ^ 18 + part bits 12 * 2 ^ 12 + part bits 6 * 2 ^ 6 + part bits 0 = bits.
Proof.
  intros Hb. unfold part. rewrite Z.pow_0_r, Z.div_1_r.
  change (2 ^ 18) with (64 * 64 * 64). change (2 ^ 12) with (64 * 64). change (2 ^ 6) with 64.
  rewrite <- !Z.div_div by lia.
  pose proof (Z.div_mod bits 64 ltac:(lia)). set (q := bits / 64) in *.
  pose proof (Z.div_mod q 64 ltac:(lia)). set (q2 := q / 64) in *.
  pose proof (Z.div_mod q2 64 ltac:(lia)). set (q3 := q2 / 64) in *.
  assert (q3 `mod` 64 = q3). { apply Z.mod_small. pose proof (Z.mod_pos_bound bits 64 ltac:(lia)).
    pose proof (Z.mod_pos_bound q 64 ltac:(lia)). pose proof (Z.mod_pos_bound q2 64 ltac:(lia)). lia. }
  lia.
Qed.

Lemma land255 x k : 0 <= k -> Z.land (Z.shiftr x k) 255 = (x / 2 ^ k) `mod` 256.
Proof. intros. rewrite Z.shiftr_div_pow2 by lia. change 255 with (Z.ones 8). by rewrite Z.land_ones. Qed.

Lemma bits3_bytes c1 c2 c3 : is_byte c1 -> is_byte c2 -> is_byte c3 ->
  let b := bits3 c1 c2 c3 in
  wrap_u 8 (Z.shiftr b 16) = c1 /\ Z.land (Z.shiftr b 8) 255 = c2 /\ Z.land b 255 = c3.
Proof.
  intros H1 H2 H3. cbn zeta. change (Z.land (bits3 c1 c2 c3) 255) with (Z.land (Z.shiftr (bits3 c1 c2 c3) 0) 255).
  rewrite !land255, Z.shiftr_div_pow2 by lia. unfold wrap_u, bits3, is_byte in *.
  rewrite Z.pow_0_r, Z.div_1_r.
  assert ((c1 * 2 ^ 16 + c2 * 2 ^ 8 + c3) / 2 ^ 16 = c1) as -> by (symmetry; apply (Z.div_unique _ _ _ (c2 * 2 ^ 8 + c3)); lia).
  assert ((c1 * 2 ^ 16 + c2 * 2 ^ 8 + c3) / 2 ^ 8 = c1 * 256 + c2) as -> by (symmetry; apply (Z.div_unique _ _ _ c3); lia).
  splits.
  - apply Z.mod_small. lia.
  - symmetry. apply (Z.mod_unique _ _ c1); lia.
  - symmetry. apply (Z.mod_unique _ _ (c1 * 256 + c2)); lia.
Qed.

(** *** Decoding the groups *)

Lemma decode_sym c i p val n result :
  base64_value !! Z.to_nat (wrap_u 8 c `mod` 256) = Some i -> 0 <= i ->
  Z.of_nat (length result) + 4 < BASE64_RESULT_SZ -> n < 3 ->
  decode_loop (c :: p) val n result = decode_loop p (Z.shiftl val 6 + i) (n + 1) result.
Proof.
  intros Hv Hi Hl Hn. cbn [decode_loop]. destruct (Z.ltb_spec (Z.of_nat (length result) + 4) BASE64_RESULT_SZ); [|lia].
  change (Z.of_nat BASE64_VALUE_SZ) with 256. rewrite Hv. bind_simpl.
  destruct (Z.ltb_spec i 0); [lia|]. destruct (Z.ltb_spec (n + 1) 4); [done|lia].
Qed.

(** Four characters with values [a], [b], [c], [d]. *)
Lemma decode_four x1 x2 x3 x4 a b c d p result :
  base64_value !! Z.to_nat (wrap_u 8 x1 `mod` 256) = Some a -> base64_value !! Z.to_nat (wrap_u 8 x2 `mod` 256) = Some b ->
  base64_value !! Z.to_nat (wrap_u 8 x3 `mod` 256) = Some c -> base64_value !! Z.to_nat (wrap_u 8 x4 `mod` 256) = Some d ->
  0 <= a -> 0 <= b -> 0 <= c -> 0 <= d -> Z.of_nat (length result) + 4 < BASE64_RESULT_SZ ->
  let v := a * 2 ^ 18 + b * 2 ^ 12 + c * 2 ^ 6 + d in
  decode_loop (x1 :: x2 :: x3 :: x4 :: p) 0 0 result =
    decode_loop p 0 0 (result ++ [wrap_u 8 (Z.shiftr v 16); Z.land (Z.shiftr v 8) 255; Z.land v 255]).
Proof.
  intros Ha Hb Hc Hd ? ? ? ? Hl v. unfold BASE64_RESULT_SZ in *.
  do 3 (erewrite decode_sym by (first [eassumption | unfold BASE64_RESULT_SZ; lia])).
  rewrite !Z.shiftl_mul_pow2 by lia. cbn [decode_loop].
  destruct (Z.ltb_spec (Z.of_nat (length result) + 4) BASE64_RESULT_SZ); [|unfold BASE64_RESULT_SZ in *; lia].
  change (Z.of_nat BASE64_VALUE_SZ) with 256. rewrite Hd. bind_simpl. destruct (Z.ltb_spec d 0); [lia|].
  destruct (Z.ltb_spec (0 + 1 + 1 + 1 + 1) 4); [lia|]. rewrite Z.shiftl_mul_pow2 by lia.
  replace ((((0 * 2 ^ 6 + a) * 2 ^ 6 + b) * 2 ^ 6 + c) * 2 ^ 6 + d) with v by (unfold v; lia).
  repeat (rewrite put_ok by (rewrite ?length_app; cbn [length]; unfold BASE64_RESULT_SZ; lia); bind_simpl).
  by rewrite <- !app_assoc.
Qed.

Lemma decode_quad c1 c2 c3 p result :
  is_byte c1 -> is_byte c2 -> is_byte c3 -> Z.of_nat (length result) + 4 < BASE64_RESULT_SZ ->
  decode_loop (quad (bits3 c1 c2 c3) ++ p) 0 0 result = decode_loop p 0 0 (result ++ [c1; c2; c3]).
Proof.
  intros H1 H2 H3 Hl. pose proof (bits3_range _ _ _ H1 H2 H3) as Hb. unfold quad. cbn [app].
  pose proof (part_range (bits3 c1 c2 c3) 18). pose proof (part_range (bits3 c1 c2 c3) 12).
  pose proof (part_range (bits3 c1 c2 c3) 6). pose proof (part_range (bits3 c1 c2 c3) 0).
  rewrite (decode_four _ _ _ _ _ _ _ _ p result (sym_value _ (part_range _ _)) (sym_value _ (part_range _ _))
    (sym_value _ (part_range _ _)) (sym_value _ (part_range _ _))) by lia.
  rewrite (parts_sum _ Hb). by destruct (bits3_bytes _ _ _ H1 H2 H3) as (-> & -> & ->).
Qed.

(** *** Encoding the groups *)

Lemma encode_char c s bits n out : Z.of_nat (length out) < BASE64_RESULT_SZ - 5 -> n + 1 <> 3 ->
  encode_loop (c :: s) bits n out = encode_loop s (Z.shiftl (bits + c) 8) (n + 1) out.
Proof.
  intros Hl Hn. cbn [encode_loop]. destruct (Z.ltb_spec (Z.of_nat (length out)) (BASE64_RESULT_SZ - 5)); [|lia].
  by destruct (Z.eqb_spec (n + 1) 3).
Qed.

Lemma encode_three c1 c2 c3 s out :
  is_byte c1 -> is_byte c2 -> is_byte c3 -> Z.of_nat (length out) < BASE64_RESULT_SZ - 5 ->
  Z.of_nat (length out) + 4 <= BASE64_RESULT_SZ ->
  encode_loop (c1 :: c2 :: c3 :: s) 0 0 out = encode_loop s 0 0 (out ++ quad (bits3 c1 c2 c3)).
Proof.
  intros H1 H2 H3 Hl Hl4. rewrite !encode_char by lia. cbn [encode_loop].
  destruct (Z.ltb_spec (Z.of_nat (length out)) (BASE64_RESULT_SZ - 5)); [|lia].
  destruct (Z.eqb_spec (0 + 1 + 1 + 1) 3); [|lia]. rewrite !Z.shiftl_mul_pow2 by lia.
  replace (((0 + c1) * 2 ^ 8 + c2) * 2 ^ 8 + c3) with (bits3 c1 c2 c3) by (unfold bits3; lia).
  rewrite put4_ok; [done|by apply bits3_range|done].
Qed.

(** The last one or two characters; [out] is followed by [e]. *)
Lemma put_rest_one c1 out : is_byte c1 -> Z.of_nat (length out) + 4 <= BASE64_RESULT_SZ ->
  put_rest (Z.shiftl c1 8) 1 out = Some (out ++ [sym (part (bits3 c1 0 0) 18); sym (part (bits3 c1 0 0) 12); 61; 61]).
Proof.
  intros H1 Hl. unfold put_rest. cbn [Z.eqb negb Pos.eqb]. rewrite !Z.shiftl_mul_pow2 by lia.
  replace (c1 * 2 ^ 8 * 2 ^ (16 - 8 * 1)) with (bits3 c1 0 0) by (unfold bits3; lia).
  rewrite shiftr18, land63 by (try apply bits3_range; done || lia).
  rewrite !code_sym by apply part_range. bind_simpl.
  repeat (rewrite put_ok by (rewrite ?length_app; cbn [length]; lia); bind_simpl). by rewrite <- !app_assoc.
Qed.

Lemma put_rest_two c1 c2 out : is_byte c1 -> is_byte c2 -> Z.of_nat (length out) + 4 <= BASE64_RESULT_SZ ->
  put_rest (Z.shiftl (Z.shiftl c1 8 + c2) 8) 2 out =
    Some (out ++ [sym (part (bits3 c1 c2 0) 18); sym (part (bits3 c1 c2 0) 12); sym (part (bits3 c1 c2 0) 6); 61]).
Proof.
  intros H1 H2 Hl. unfold put_rest. cbn [Z.eqb negb Pos.eqb]. rewrite !Z.shiftl_mul_pow2 by lia.
  replace ((c1 * 2 ^ 8 + c2) * 2 ^ 8 * 2 ^ (16 - 8 * 2)) with (bits3 c1 c2 0) by (unfold bits3; lia).
  rewrite shiftr18, !land63 by (try apply bits3_range; done || lia).
  rewrite !code_sym by apply part_range. bind_simpl.
  repeat (rewrite put_ok by (rewrite ?length_app; cbn [length]; lia); bind_simpl). by rewrite <- !app_assoc.
Qed.

Lemma pad_value : base64_value !! Z.to_nat (wrap_u 8 61 `mod` 256) = Some 0.
Proof. vm_compute. reflexivity. Qed.

(** A padded group: the parts the padding stands for are 0. *)
Lemma decode_padded c1 c2 x3 result :
  is_byte c1 -> is_byte c2 -> Z.of_nat (length result) + 4 < BASE64_RESULT_SZ ->
  base64_value !! Z.to_nat (wrap_u 8 x3 `mod` 256) = Some (part (bits3 c1 c2 0) 6) ->
  decode_loop [sym (part (bits3 c1 c2 0) 18); sym (part (bits3 c1 c2 0) 12); x3; 61] 0 0 result = Some (result ++ [c1; c2; 0]).
Proof.
  intros H1 H2 Hl H3. assert (is_byte 0) as H0 by (unfold is_byte; lia). pose proof (bits3_range _ _ _ H1 H2 H0) as Hb.
  pose proof (part_range (bits3 c1 c2 0) 18). pose proof (part_range (bits3 c1 c2 0) 12). pose proof (part_range (bits3 c1 c2 0) 6).
  rewrite (decode_four _ _ _ _ _ _ _ _ [] result (sym_value _ (part_range _ _)) (sym_value _ (part_range _ _)) H3 pad_value) by lia.
  assert (part (bits3 c1 c2 0) 0 = 0) as Hz.
  { unfold part, bits3. rewrite Z.pow_0_r, Z.div_1_r. symmetry. apply (Z.mod_unique _ _ (c1 * 1024 + c2 * 4)); lia. }
  pose proof (parts_sum _ Hb) as Hp. rewrite Hz in Hp. rewrite Hp. cbn [decode_loop].
  by destruct (bits3_bytes _ _ _ H1 H2 H0) as (-> & -> & ->).
Qed.

Lemma part6_one c1 : is_byte c1 -> part (bits3 c1 0 0) 6 = 0.
Proof.
  intros H1. unfold part, bits3. rewrite Z.add_0_r, Z.mul_0_l, Z.add_0_r.
  replace (c1 * 2 ^ 16) with (c1 * 1024 * 2 ^ 6) by lia. rewrite Z.div_mul by lia.
  symmetry. apply (Z.mod_unique _ _ (c1 * 16)); lia.
Qed.

Definition finish (r : option (Z * Z * bytes)) : option bytes :=
  let? (bits, char_count, result) := r in put_rest bits char_count result.

(** What encoding [s] after [k] groups adds to the output, and what decoding it
    after the [k] groups gives. *)
Lemma encode_ok n : forall s out k,
  (length s <= n)%nat -> Forall is_byte s -> length out = (4 * k)%nat -> (k <= 2047)%nat ->
  exists e pad, finish (encode_loop s 0 0 out) = Some (out ++ e) /\ Z.of_nat (length (out ++ e)) <= 8188 /\
    (pad = [] \/ pad = [0] \/ pad = [0; 0]) /\
    forall dres, length dres = (3 * k)%nat ->
      decode_loop e 0 0 dres = Some (dres ++ take (3 * (2047 - k)) s ++ pad).
Proof.
  induction n as [|n IH]; intros s out k Hn Hs Hout Hk.
  { destruct s; [|cbn in Hn; lia]. exists [], []. rewrite !app_nil_r, take_nil. splits; [lia|auto|].
    intros dres _. cbn. by rewrite !app_nil_r. }
  destruct (decide (k = 2047%nat)) as [->|Hk'].
  { exists [], []. rewrite Nat.sub_diag, Nat.mul_0_r, take_0, !app_nil_r. splits; [|lia|auto|].
    - destruct s as [|c s]; [done|]. cbn [encode_loop].
      destruct (Z.ltb_spec (Z.of_nat (length out)) (BASE64_RESULT_SZ - 5)); [unfold BASE64_RESULT_SZ in *; lia|done].
    - intros dres _. cbn. by rewrite !app_nil_r. }
  assert (Z.of_nat (length out) < BASE64_RESULT_SZ - 5) as Hl by (unfold BASE64_RESULT_SZ; lia).
  assert (Z.of_nat (length out) + 4 <= BASE64_RESULT_SZ) as Hl4 by (unfold BASE64_RESULT_SZ in *; lia).
  destruct s as [|c1 [|c2 [|c3 s]]].
  - exists [], []. rewrite !app_nil_r, take_nil. splits; [lia|auto|]. intros dres _. cbn. by rewrite !app_nil_r.
  - apply List.Forall_cons_iff in Hs as [H1 _]. exists [sym (part (bits3 c1 0 0) 18); sym (part (bits3 c1 0 0) 12); 61; 61], [0; 0].
    splits; [|rewrite length_app; cbn [length]; lia|auto|].
    + rewrite encode_char by lia. by apply put_rest_one.
    + intros dres Hd. rewrite take_ge by (cbn [length]; lia).
      rewrite (decode_padded c1 0 61 dres); [done|done|unfold is_byte; lia|unfold BASE64_RESULT_SZ; lia|].
      rewrite part6_one by done. exact pad_value.
  - apply List.Forall_cons_iff in Hs as [H1 [H2 _]%List.Forall_cons_iff].
    exists [sym (part (bits3 c1 c2 0) 18); sym (part (bits3 c1 c2 0) 12); sym (part (bits3 c1 c2 0) 6); 61], [0].
    splits; [|rewrite length_app; cbn [length]; lia|auto|].
    + rewrite !encode_char by lia. by apply put_rest_two.
    + intros dres Hd. rewrite take_ge by (cbn [length]; lia).
      rewrite (decode_padded c1 c2 (sym (part (bits3 c1 c2 0) 6)) dres); [done|done|done|unfold BASE64_RESULT_SZ; lia|].
      apply sym_value, part_range.
  - apply List.Forall_cons_iff in Hs as [H1 [H2 [H3 Hs]%List.Forall_cons_iff]%List.Forall_cons_iff]. rewrite encode_three by done.
    destruct (IH s (out ++ quad (bits3 c1 c2 c3)) (S k)) as (e & pad & He & Hle & Hpad & Hdec);
      [cbn [length] in Hn; lia|done|rewrite length_app; cbn [length quad]; lia|lia|].
    rewrite <- app_assoc in He, Hle. exists (quad (bits3 c1 c2 c3) ++ e), pad. splits.
    intros dres Hd. rewrite decode_quad by (done || (unfold BASE64_RESULT_SZ; lia)).
    rewrite Hdec by (rewrite length_app; cbn [length]; lia). f_equal. rewrite <- app_assoc. f_equal.
    replace (3 * (2047 - k))%nat with (S (S (S (3 * (2047 - S k))))) by lia. done.
Qed.

Lemma encode_whole s :
  Forall is_byte s ->
  exists e pad, finish (encode_loop s 0 0 []) = Some e /\ Z.of_nat (length e) <= 8188 /\
    (pad = [] \/ pad = [0] \/ pad = [0; 0]) /\ base64_decode e = Some (take max_input s ++ pad).
Proof.
  intros Hs. destruct (encode_ok (length s) s [] 0 (le_n _) Hs eq_refl ltac:(lia)) as (e & pad & He & Hl & Hp & Hd).
  exists e, pad. cbn [app] in He, Hl. splits. unfold base64_decode. rewrite (Hd [] eq_refl). bind_simpl.
  unfold terminate. change (3 * (2047 - 0))%nat with max_input. cbn [app].
  destruct (Z.ltb_spec (Z.of_nat (length (take max_input s ++ pad))) BASE64_RESULT_SZ) as [|Hge]; [done|].
  rewrite length_app, length_take in Hge. unfold max_input, BASE64_RESULT_SZ in Hge.
  assert (length pad <= 2)%nat by (destruct Hp as [->|[->| ->]]; cbn; lia). lia.
Qed.

Lemma finish_ok r e : finish r = Some e -> Z.of_nat (length e) <= 8188 ->
  (let? (bits, char_count, result) := r in let? result := put_rest bits char_count result in terminate result) = Some e.
Proof.
  intros Hr Hl. destruct r as [[[b n] o]|]; [|done]. cbn [finish mbind option_bind] in *. rewrite Hr. bind_simpl.
  unfold terminate. destruct (Z.ltb_spec (Z.of_nat (length e)) BASE64_RESULT_SZ); [done|unfold BASE64_RESULT_SZ in *; lia].
Qed.

Lemma encode_bin_same data : forall bits n out,
  encode_bin_loop (length data) data (Z.of_nat (length data)) bits n out = encode_loop data bits n out.
Proof.
  induction data as [|c data IH]; intros bits n out; [done|]. cbn [length encode_bin_loop encode_loop].
  destruct (Z.eqb_spec (Z.of_nat (S (length data))) 0); [lia|]. cbn [negb andb].
  replace (Z.of_nat (S (length data)) - 1) with (Z.of_nat (length data)) by lia.
  destruct (Z.of_nat (length out) <? BASE64_RESULT_SZ - 5); [|done]. destruct (n + 1 =? 3); [|apply IH].
  destruct (put4 _ out); [apply IH|done].
Qed.

Lemma c_string_app s pad : Forall (fun c => c <> 0) s -> (pad = [] \/ pad = [0] \/ pad = [0; 0]) -> c_string (s ++ pad) = s.
Proof.
  intros Hs Hp. unfold c_string. rewrite span_app.
  - assert (span (fun c => negb (c =? 0)) pad = 0%nat) as -> by (destruct Hp as [->|[->| ->]]; done).
    by rewrite Nat.add_0_r, take_app_length.
  - eapply List.Forall_impl; [|exact Hs]. cbn. intros c Hc. apply negb_true_iff. by apply Z.eqb_neq.
Qed.

(** ** Properties *)

(** Base 64: encoding any string fits the static buffer with its terminator,
    and decoding the result gives the string back, up to its first 6141 bytes,
    beyond which the encoder stops.  Data with NUL bytes, given with their
    length, come back followed by the at most two NUL bytes the decoder makes
    of the padding. *)
Theorem base64_roundtrip (s : bytes) :
  Forall is_byte s ->
  (Forall (fun c => c <> 0) s ->
    exists e d, base64_encode s = Some e /\ Z.of_nat (length e) < BASE64_RESULT_SZ /\ base64_decode e = Some d /\
      c_string d = take max_input s) /\
  (exists e pad, base64_encode_bin s (Z.of_nat (length s)) = Some e /\ Z.of_nat (length e) < BASE64_RESULT_SZ /\
    base64_decode e = Some (take max_input s ++ pad) /\ (pad = [] \/ pad = [0] \/ pad = [0; 0])).
Proof.
  intros Hs. destruct (encode_whole s Hs) as (e & pad & He & Hl & Hp & Hd).
  assert (Z.of_nat (length e) < BASE64_RESULT_SZ) by (unfold BASE64_RESULT_SZ; lia). split.
  - intros Hnz. exists e, (take max_input s ++ pad). splits; [by apply finish_ok|]. apply c_string_app; [|done].
    by apply Forall_take.
  - exists e, pad. splits. unfold base64_encode_bin. rewrite encode_bin_same. by apply finish_ok.
Qed.

Lemma base64_roundtrip_witness :
  base64_encode (str "Aladdin:open sesame") = Some (str "QWxhZGRpbjpvcGVuIHNlc2FtZQ==") /\
  exists e d, base64_encode (str "Aladdin:open sesame") = Some e /\ base64_decode e = Some d /\
    c_string d = str "Aladdin:open sesame".
Proof.
  split; [vm_compute; reflexivity|].
  destruct (base64_roundtrip (str "Aladdin:open sesame")) as [H _].
  - apply List.Forall_forall. intros x Hx. cbn in Hx. unfold is_byte. lia.
  - destruct H as (e & d & H1 & _ & H2 & H3); [apply List.Forall_forall; intros x Hx; cbn in Hx; lia|].
    exists e, d. splits.
Defined.

(** A negative length is not an empty input: the loop reads on until the buffer
    is full. *)
Lemma base64_encode_bin_negative : base64_encode_bin (str "abc") (-1) = None.
Proof. vm_compute. reflexivity. Qed.
End Base64.
