(* ===== verification/Rfc1123.v ===== *)
(** * Dates

    lib/rfc1123.c and lib/iso3307.c: printing and parsing of HTTP dates, in
    builds that have [timegm].  The calendar functions of the C library are
    defined for the proleptic Gregorian calendar: [timegm] by the POSIX
    formula, [gmtime] by splitting the day number into 400, 100, 4 and 1
    years. *)

From Stdlib Require Import ZArith Lia.
From stdpp Require Import base strings list numbers option.
From S2P Require Import Prelude CStr.

Module Rfc1123.

(** [struct tm], without the fields the code does not use. *)
Record tm := mkTm {
  tm_sec : Z; tm_min : Z; tm_hour : Z; tm_mday : Z; tm_mon : Z; tm_year : Z; tm_wday : Z
}.

(** ** The calendar *)

Definition leap (y : Z) : bool := (y `mod` 4 =? 0) && (negb (y `mod` 100 =? 0) || (y `mod` 400 =? 0)).

(** Days before month [m] (0 to 11), in a leap year or not. *)
Definition month_days : list Z := [0; 31; 59; 90; 120; 151; 181; 212; 243; 273; 304; 334].

Definition days_before_month (lp : bool) (m : Z) : Z :=
  nth (Z.to_nat m) month_days 0 + (if lp && (2 <=? m) then 1 else 0).

(** Days from 1 January of year 1 to 1 January of year [y]. *)
Definition days_before_year (y : Z) : Z := 365 * (y - 1) + (y - 1) / 4 - (y - 1) / 100 + (y - 1) / 400.

Definition EPOCH_DAYS : Z := 719162.

(** Seconds since the Epoch of a broken-down time; fields out of range carry
    over. *)
Definition timegm (t : tm) : Z :=
  let y := 1900 + tm_year t + tm_mon t / 12 in
  let m := tm_mon t `mod` 12 in
  let days := days_before_year y + days_before_month (leap y) m + tm_mday t - 1 - EPOCH_DAYS in
  days * 86400 + tm_hour t * 3600 + tm_min t * 60 + tm_sec t.

(** Year, month and day of the month of a day counted from 1 January of
    year 1. *)
Fixpoint find_month (fuel : nat) (lp : bool) (m doy : Z) : Z :=
  match fuel with
  | O => m
  | S fuel => if (m <? 11) && (days_before_month lp (m + 1) <=? doy) then find_month fuel lp (m + 1) doy else m
  end.

(** Within a period of 400 years. *)
Definition civil400 (r : Z) : Z * Z * Z :=
  let n100 := r / 36524 in let r := r `mod` 36524 in
  let n4 := r / 1461 in let r := r `mod` 1461 in
  let n1 := r / 365 in let r := r `mod` 365 in
  let y := 100 * n100 + 4 * n4 + n1 + 1 in
  if (n1 =? 4) || (n100 =? 4) then (y - 1, 11, 31)
  else let m := find_month 12 (leap y) 0 r in (y, m, r - days_before_month (leap y) m + 1).

Definition civil (n : Z) : Z * Z * Z :=
  let '(y, m, d) := civil400 (n `mod` 146097) in (400 * (n / 146097) + y, m, d).

Definition gmtime (t : Z) : tm :=
  let days := t / 86400 in
  let s := t `mod` 86400 in
  let '(y, m, d) := civil (days + EPOCH_DAYS) in
  mkTm (s `mod` 60) ((s / 60) `mod` 60) (s / 3600) d m (y - 1900) ((days + 4) `mod` 7).

(** ** Printing: [mkrfc1123] *)

Definition days : list bytes := map str ["Sun"; "Mon"; "Tue"; "Wed"; "Thu"; "Fri"; "Sat"].
Definition months : list bytes :=
  map str ["Jan"; "Feb"; "Mar"; "Apr"; "May"; "Jun"; "Jul"; "Aug"; "Sep"; "Oct"; "Nov"; "Dec"].

(** C division and remainder truncate. *)
Definition digit (n k : Z) : Z := Z.rem (Z.quot n k) 10 + 48.
Definition two (n : Z) : bytes := [digit n 10; Z.rem n 10 + 48].

(** The characters written to the 128 bytes of [buf], without the NUL. *)
Definition mkrfc1123 (t : Z) : option bytes :=
  let gmt := gmtime t in
  let? wday := days !! Z.to_nat (tm_wday gmt) in
  let? mon := months !! Z.to_nat (tm_mon gmt) in
  let y := wrap_s 16 (1900 + tm_year gmt) in
  Some (wday ++ str ", " ++ two (tm_mday gmt) ++ str " " ++ mon ++ str " " ++
        [digit y 1000; digit y 100; digit y 10; Z.rem y 10 + 48] ++ str " " ++
        two (tm_hour gmt) ++ str ":" ++ two (tm_min gmt) ++ str ":" ++ two (tm_sec gmt) ++ str " GMT").

(** ** Parsing *)

(** Two characters; the string has at least one. *)
Definition make_num (s : bytes) : Z :=
  let s1 := deref (drop 1 s) in
  if isdigit (deref s) then 10 * (deref s - 48) + s1 - 48 else s1 - 48.

(** The index of a name.  [off] is where [s] is in the array of the caller,
    three characters of which are read, also past the NUL: what is there does
    not matter for the comparison, since no name has a NUL. *)
Definition TIMEBUFLEN : Z := 128.

Fixpoint find_name (names : list bytes) (i : Z) (month : bytes) : Z :=
  match names with
  | [] => -1
  | n :: names => if bool_decide (take 3 n = month) then i else find_name names (i + 1) month
  end.

Definition make_month (off : Z) (s : bytes) : option Z :=
  assert? (off + 2 <? TIMEBUFLEN) in
  Some (find_name months 0 [toupper (deref s); tolower (deref (drop 1 s)); tolower (deref (drop 2 s))]).

Definition tmSaneValues (t : tm) : bool :=
  negb ((tm_sec t <? 0) || (59 <? tm_sec t)) && negb ((tm_min t <? 0) || (59 <? tm_min t)) &&
  negb ((tm_hour t <? 0) || (23 <? tm_hour t)) && negb ((tm_mday t <? 1) || (31 <? tm_mday t)) &&
  negb ((tm_mon t <? 0) || (11 <? tm_mon t)).

(** A piece of the text: its offset in [tmp] and its characters. *)
Abbreviation piece := (Z * bytes)%type.

(** [None] inside is the NULL that is returned for a bad date. *)
Definition parse_date_elements (day month year time : option piece) : option (option tm) :=
  match day, month, year, time with
  | Some (_, day), Some (moff, month), Some (_, year), Some (_, time) =>
      let mday := atoi day in
      let? mon := make_month moff month in
      if mon <? 0 then Some None
      else
        let y := atoi year in
        let y := if (length year =? 4)%nat then y - 1900
                 else if y <? 70 then y + 100
                 else if 19000 <? y then y - 19000 else y in
        let hour := make_num time in
        match strchr time 58 with
        | None => Some None
        | Some t =>
            let t := drop 1 t in
            let min := atoi t in
            let sec := match strchr t 58 with Some t => atoi (drop 1 t) | None => 0 end in
            let r := mkTm sec min hour mday mon y 0 in
            Some (if tmSaneValues r then Some r else None)
        end
  | _, _, _, _ => Some None
  end.

Definition is_delim (c : Z) : bool := (c =? 44) || (c =? 32).

(** The tokens [strtok(tmp, ", ")] returns one after the other. *)
Fixpoint tokens (fuel : nat) (off : Z) (p : bytes) : list piece :=
  match fuel with
  | O => []
  | S fuel =>
      let k := span is_delim p in
      let p := drop k p in
      let off := off + Z.of_nat k in
      let n := span (fun c => negb (is_delim c)) p in
      match p with
      | [] => []
      | _ :: _ => (off, take n p) :: tokens fuel (off + Z.of_nat n + 1) (drop (S n) p)
      end
  end.

Record elements := mkEl {
  el_wday : option piece; el_day : option piece; el_month : option piece;
  el_year : option piece; el_time : option piece; el_zone : option piece
}.

(** The body of the loop for one token; [None] is [return NULL]. *)
Definition element (e : elements) (tok : piece) : option elements :=
  let '(off, t) := tok in
  if isdigit (deref t) then
    match el_day e with
    | None =>
        match strchr t 45 with
        | None => Some (mkEl (el_wday e) (Some tok) (el_month e) (el_year e) (el_time e) (el_zone e))
        | Some r =>
            (* the '-' is overwritten by a NUL: the day ends there *)
            let day := (off, take (length t - length r) t) in
            let month := drop 1 r in
            let moff := off + Z.of_nat (length t - length month) in
            match strchr month 45 with
            | None => None
            | Some r2 =>
                let year := drop 1 r2 in
                Some (mkEl (el_wday e) (Some day) (Some (moff, take (length month - length r2) month))
                        (Some (off + Z.of_nat (length t - length year), year)) (el_time e) (el_zone e))
            end
        end
    | Some _ =>
        match strchr t 58 with
        | Some _ => Some (mkEl (el_wday e) (el_day e) (el_month e) (el_year e) (Some tok) (el_zone e))
        | None =>
            match el_year e with
            | None => Some (mkEl (el_wday e) (el_day e) (el_month e) (Some tok) (el_time e) (el_zone e))
            | Some _ => Some e
            end
        end
    end
  else
    match el_wday e, el_month e, el_zone e with
    | None, _, _ => Some (mkEl (Some tok) (el_day e) (el_month e) (el_year e) (el_time e) (el_zone e))
    | Some _, None, _ => Some (mkEl (el_wday e) (el_day e) (Some tok) (el_year e) (el_time e) (el_zone e))
    | Some _, Some _, None => Some (mkEl (el_wday e) (el_day e) (el_month e) (el_year e) (el_time e) (Some tok))
    | Some _, Some _, Some _ => Some e
    end.

Fixpoint element_loop (e : elements) (toks : list piece) : option elements :=
  match toks with
  | [] => Some e
  | tok :: toks => match element e tok with None => None | Some e => element_loop e toks end
  end.

(** [str] points to [buf]; [len] of its bytes are the text. *)
Definition parse_date (buf : bytes) (len : Z) : option (option tm) :=
  let bl := Z.min len (TIMEBUFLEN - 1) in
  assert? ((0 <=? bl) && (bl <=? Z.of_nat (length buf))) in
  let tmp := take (Z.to_nat bl) buf in
  let tmp := take (span (fun c => negb (c =? 0)) tmp) tmp in
  match element_loop (mkEl None None None None None None) (tokens (S (length tmp)) 0 tmp) with
  | None => Some None
  | Some e => parse_date_elements (el_day e) (el_month e) (el_year e) (el_time e)
  end.

Definition parse_rfc1123 (buf : bytes) (len : Z) : option Z :=
  let? r := parse_date buf len in
  Some match r with None => -1 | Some t => timegm t end.

(** *** [parse_iso3307_time] *)

Definition ASCII_DIGIT (c : Z) : Z := c - 48.

Definition parse_iso3307_time (buf : bytes) : Z :=
  let buf := drop (span (fun c => (c =? 32) || (c =? 9)) buf) buf in
  let d i := ASCII_DIGIT (nth i buf 0) in
  if (length buf <? 14)%nat then 0
  else timegm (mkTm (d 12%nat * 10 + d 13%nat) (d 10%nat * 10 + d 11%nat) (d 8%nat * 10 + d 9%nat)
                 (d 6%nat * 10 + d 7%nat) (d 4%nat * 10 + d 5%nat - 1)
                 (d 0%nat * 1000 + d 1%nat * 100 + d 2%nat * 10 + d 3%nat - 1900) 0).

Example ex_mk : mkrfc1123 784111777 = Some (str "Sun, 06 Nov 1994 08:49:37 GMT").
Proof. vm_compute. reflexivity. Qed.
Example ex_parse : parse_rfc1123 (str "Sun, 06 Nov 1994 08:49:37 GMT") 29 = Some 784111777.
Proof. vm_compute. reflexivity. Qed.
Example ex_850 : parse_rfc1123 (str "Sunday, 06-Nov-94 08:49:37 GMT") 30 = Some 784111777.
Proof. vm_compute. reflexivity. Qed.
Example ex_asctime : parse_rfc1123 (str "Sun Nov  6 08:49:37 1994") 24 = Some 784111777.
Proof. vm_compute. reflexivity. Qed.
Example ex_iso : parse_iso3307_time (str "19941106084937") = 784111777.
Proof. vm_compute. reflexivity. Qed.

(** ** The calendar functions are inverse *)

Lemma find_month_ok lp r : 0 <= r < 365 ->
  let m := find_month 12 lp 0 r in 0 <= m < 12 /\ 1 <= r - days_before_month lp m + 1 <= 31.
Proof.
  intros Hr. cbn zeta.
  assert (forallb (fun n => let r := Z.of_nat n in let m := find_month 12 lp 0 r in
    (0 <=? m) && (m <? 12) && (1 <=? r - days_before_month lp m + 1) && (r - days_before_month lp m + 1 <=? 31))
    (seq 0 365) = true) as Hb by (destruct lp; vm_compute; reflexivity).
  rewrite forallb_forall in Hb. specialize (Hb (Z.to_nat r)). rewrite Z2Nat.id in Hb by lia.
  cbn zeta in Hb. rewrite !andb_true_iff in Hb. destruct Hb as [[[? ?] ?] ?]; [apply in_seq; lia|]. zify_bools. lia.
Qed.

Definition valid_date (r : Z) (ymd : Z * Z * Z) : Prop :=
  let '(y, m, d) := ymd in
  1 <= y <= 400 /\ 0 <= m < 12 /\ 1 <= d <= 31 /\ days_before_year y + days_before_month (leap y) m + d - 1 = r.

Lemma dby_parts a b c : 0 <= a <= 4 -> 0 <= b <= 24 -> 0 <= c <= 3 -> (a = 4 -> b = 0 /\ c = 0) ->
  days_before_year (100 * a + 4 * b + c + 1) = 36524 * a + 1461 * b + 365 * c + (if a =? 4 then 1 else 0).
Proof.
  intros Ha Hb Hc H4. unfold days_before_year. replace (100 * a + 4 * b + c + 1 - 1) with (100 * a + 4 * b + c) by lia.
  assert ((100 * a + 4 * b + c) / 4 = 25 * a + b) as -> by (symmetry; apply (Z.div_unique _ _ _ c); lia).
  assert ((100 * a + 4 * b + c) / 100 = a) as -> by (symmetry; apply (Z.div_unique _ _ _ (4 * b + c)); lia).
  destruct (Z.eqb_spec a 4) as [->|].
  - destruct H4 as [-> ->]; [done|]. reflexivity.
  - assert ((100 * a + 4 * b + c) / 400 = 0) as -> by (apply Z.div_small; lia). lia.
Qed.

(** The last day of a leap year. *)
Lemma dec31 y r : 1 <= y <= 400 -> leap y = true -> days_before_year (y + 1) = r + 1 -> valid_date r (y, 11, 31).
Proof.
  intros Hy Hl Hr. unfold valid_date. rewrite Hl. unfold days_before_month. change (nth (Z.to_nat 11) month_days 0) with 334.
  splits; [lia..|]. assert (days_before_year (y + 1) = days_before_year y + 366) as He; [|cbn; lia].
  unfold days_before_year. replace (y + 1 - 1) with y by lia. unfold leap in Hl.
  apply andb_true_iff in Hl as [H4 H100]. zify_bools. apply orb_true_iff in H100.
  assert (y mod 100 <> 0 \/ y mod 400 = 0) as Hc by (destruct H100; zify_bools; auto).
  pose proof (Z.div_mod y 4 ltac:(lia)). pose proof (Z.div_mod (y - 1) 4 ltac:(lia)).
  pose proof (Z.mod_pos_bound (y - 1) 4 ltac:(lia)).
  pose proof (Z.div_mod y 100 ltac:(lia)). pose proof (Z.mod_pos_bound y 100 ltac:(lia)).
  pose proof (Z.div_mod (y - 1) 100 ltac:(lia)). pose proof (Z.mod_pos_bound (y - 1) 100 ltac:(lia)).
  pose proof (Z.div_mod y 400 ltac:(lia)). pose proof (Z.mod_pos_bound y 400 ltac:(lia)).
  pose proof (Z.div_mod (y - 1) 400 ltac:(lia)). pose proof (Z.mod_pos_bound (y - 1) 400 ltac:(lia)). lia.
Qed.

Lemma civil400_ok r : 0 <= r < 146097 -> valid_date r (civil400 r).
Proof.
  intros Hr. unfold civil400.
  pose proof (Z.div_mod r 36524 ltac:(lia)) as Ha. pose proof (Z.mod_pos_bound r 36524 ltac:(lia)) as Hra.
  set (a := r / 36524) in *. set (r1 := r `mod` 36524) in *.
  pose proof (Z.div_mod r1 1461 ltac:(lia)) as Hb. pose proof (Z.mod_pos_bound r1 1461 ltac:(lia)) as Hrb.
  set (b := r1 / 1461) in *. set (r2 := r1 `mod` 1461) in *.
  pose proof (Z.div_mod r2 365 ltac:(lia)) as Hc. pose proof (Z.mod_pos_bound r2 365 ltac:(lia)) as Hrc.
  set (c := r2 / 365) in *. set (r3 := r2 `mod` 365) in *.
  assert (0 <= a <= 4 /\ 0 <= b <= 24 /\ 0 <= c <= 4) as (? & ? & ?) by lia.
  destruct (Z.eqb_spec a 4) as [Ha4|Ha4]; [|destruct (Z.eqb_spec c 4) as [Hc4|Hc4]]; cbn [orb]; rewrite ?orb_true_r.
  - assert (b = 0 /\ c = 0 /\ r3 = 0 /\ r = 146096) as (-> & -> & _ & ->) by lia. rewrite Ha4. apply dec31; [lia|reflexivity|reflexivity].
  - replace (100 * a + 4 * b + c + 1 - 1) with (100 * a + 4 * b + 4) by lia. assert (b <= 23) by lia.
    apply dec31; [lia| |].
    + unfold leap. apply andb_true_iff. split; [apply Z.eqb_eq; symmetry; apply (Z.mod_unique _ _ (25 * a + b + 1)); lia|].
      apply orb_true_iff. left. apply negb_true_iff, Z.eqb_neq.
      rewrite <- (Z.mod_unique (100 * a + 4 * b + 4) 100 a (4 * b + 4)); lia.
    + replace (100 * a + 4 * b + 4 + 1) with (100 * a + 4 * (b + 1) + 0 + 1) by lia. rewrite dby_parts by lia.
      destruct (Z.eqb_spec a 4); lia.
  - destruct (find_month_ok (leap (100 * a + 4 * b + c + 1)) r3) as [? ?]; [lia|]. unfold valid_date.
    rewrite dby_parts by lia. destruct (Z.eqb_spec a 4); [lia|]. lia.
Qed.

Lemma leap_400 q y : leap (400 * q + y) = leap y.
Proof.
  unfold leap. replace (400 * q + y) with (y + (100 * q) * 4) at 1 by lia. replace (400 * q + y) with (y + (4 * q) * 100) at 1 by lia.
  replace (400 * q + y) with (y + q * 400) by lia. by rewrite !Z.mod_add by lia.
Qed.

Lemma dby_400 q y : days_before_year (400 * q + y) = 146097 * q + days_before_year y.
Proof.
  unfold days_before_year. replace (400 * q + y - 1) with ((y - 1) + (100 * q) * 4) by lia.
  rewrite Z.div_add by lia. replace (y - 1 + 100 * q * 4) with ((y - 1) + (4 * q) * 100) by lia.
  rewrite Z.div_add by lia. replace (y - 1 + 4 * q * 100) with ((y - 1) + q * 400) by lia.
  rewrite Z.div_add by lia. lia.
Qed.

Lemma gmtime_ok t : exists y m d, civil (t / 86400 + EPOCH_DAYS) = (y, m, d) /\ 0 <= m < 12 /\ 1 <= d <= 31 /\
  days_before_year y + days_before_month (leap y) m + d - 1 = t / 86400 + EPOCH_DAYS.
Proof.
  set (n := t / 86400 + EPOCH_DAYS). unfold civil.
  pose proof (civil400_ok (n `mod` 146097) (Z.mod_pos_bound n 146097 ltac:(lia))) as Hv.
  destruct (civil400 (n `mod` 146097)) as [[y m] d]. destruct Hv as (Hy & Hm & Hd & He).
  exists (400 * (n / 146097) + y), m, d. splits; [lia..|]. rewrite leap_400, dby_400.
  pose proof (Z.div_mod n 146097 ltac:(lia)). lia.
Qed.

(** Hours, minutes and seconds. *)
Lemma hms s : 0 <= s < 86400 ->
  0 <= s / 3600 < 24 /\ 0 <= (s / 60) `mod` 60 < 60 /\ 0 <= s `mod` 60 < 60 /\
  s / 3600 * 3600 + (s / 60) `mod` 60 * 60 + s `mod` 60 = s.
Proof.
  intros Hs. change 3600 with (60 * 60). rewrite <- Z.div_div by lia.
  pose proof (Z.div_mod s 60 ltac:(lia)). pose proof (Z.mod_pos_bound s 60 ltac:(lia)). set (q := s / 60) in *.
  pose proof (Z.div_mod q 60 ltac:(lia)). pose proof (Z.mod_pos_bound q 60 ltac:(lia)). lia.
Qed.

Definition tm_ok (t : tm) : Prop :=
  0 <= tm_sec t < 60 /\ 0 <= tm_min t < 60 /\ 0 <= tm_hour t < 24 /\ 1 <= tm_mday t <= 31 /\ 0 <= tm_mon t < 12 /\ 0 <= tm_wday t < 7.

Lemma gmtime_range t : tm_ok (gmtime t).
Proof.
  unfold gmtime, tm_ok. destruct (gmtime_ok t) as (y & m & d & -> & Hm & Hd & _). cbn.
  destruct (hms (t `mod` 86400) (Z.mod_pos_bound t 86400 ltac:(lia))) as (? & ? & ? & _).
  pose proof (Z.mod_pos_bound (t / 86400 + 4) 7 ltac:(lia)). done.
Qed.

Lemma timegm_gmtime t : timegm (gmtime t) = t.
Proof.
  unfold gmtime. destruct (gmtime_ok t) as (y & m & d & -> & Hm & Hd & He). unfold timegm. cbn.
  rewrite (Z.div_small m 12), (Z.mod_small m 12) by lia. replace (1900 + (y - 1900) + 0) with y by lia.
  destruct (hms (t `mod` 86400) (Z.mod_pos_bound t 86400 ltac:(lia))) as (_ & _ & _ & Hs).
  pose proof (Z.div_mod t 86400 ltac:(lia)). lia.
Qed.

(** ** Reading back what was printed *)

Lemma digit_ok n k : 0 <= n -> 0 < k -> digit n k = 48 + (n / k) `mod` 10.
Proof.
  intros Hn Hk. unfold digit. rewrite Z.quot_div_nonneg by lia. rewrite Z.rem_mod_nonneg; [lia| |lia].
  apply Z.div_pos; lia.
Qed.

Lemma rem10 n : 0 <= n -> Z.rem n 10 + 48 = 48 + n `mod` 10.
Proof. intros Hn. rewrite Z.rem_mod_nonneg by lia. lia. Qed.

(** A text of digits with a value. *)
Definition numeral (l : bytes) (n : Z) : Prop :=
  l <> [] /\ Forall (fun c => isdigit c = true) l /\ digits 0 l = n.

Lemma two_numeral n : 0 <= n < 100 -> numeral (two n) n.
Proof.
  intros Hn. unfold two, numeral. rewrite digit_ok, rem10 by lia. splits.
  - repeat constructor; apply isdigit_mod.
  - cbn [digits]. rewrite !isdigit_mod. pose proof (Z.div_mod n 10 ltac:(lia)).
    rewrite (Z.mod_small (n / 10)) by (split; [apply Z.div_pos|apply Z.div_lt_upper_bound]; lia). lia.
Qed.

Definition four (y : Z) : bytes := [digit y 1000; digit y 100; digit y 10; Z.rem y 10 + 48].

Lemma four_numeral y : 0 <= y <= 9999 -> numeral (four y) y.
Proof.
  intros Hy. unfold four, numeral. rewrite !digit_ok, rem10 by lia. splits.
  - repeat constructor; apply isdigit_mod.
  - cbn [digits]. rewrite !isdigit_mod. change 1000 with (10 * 10 * 10). change 100 with (10 * 10).
    rewrite <- !Z.div_div by lia. pose proof (Z.div_mod y 10 ltac:(lia)). set (a := y / 10) in *.
    pose proof (Z.div_mod a 10 ltac:(lia)). set (b := a / 10) in *. pose proof (Z.div_mod b 10 ltac:(lia)). set (c := b / 10) in *.
    pose proof (Z.mod_pos_bound y 10 ltac:(lia)). pose proof (Z.mod_pos_bound a 10 ltac:(lia)).
    pose proof (Z.mod_pos_bound b 10 ltac:(lia)). rewrite (Z.mod_small c) by lia. lia.
Qed.

Lemma atoi_numeral l n r : numeral l n -> n < 2 ^ 31 -> not_digit_head r -> atoi (l ++ r) = n.
Proof.
  intros (Hne & Hd & <-) Hn Hr. pose proof (digits_nonneg l 0 ltac:(lia)). unfold atoi.
  rewrite strtol_digits by (done || lia). cbn [st_val]. apply wrap_s_small; lia.
Qed.

Lemma atoi_numeral_end l n : numeral l n -> n < 2 ^ 31 -> atoi l = n.
Proof. intros Hl Hn. rewrite <- (app_nil_r l). by apply atoi_numeral. Qed.

Lemma digit_char c : isdigit c = true -> 48 <= c <= 57.
Proof. unfold isdigit. intros H. zify_bools. lia. Qed.

(** *** Tokens *)

Definition word (w : bytes) : Prop := w <> [] /\ Forall (fun c => is_delim c = false) w.

Lemma numeral_word l n : numeral l n -> word l.
Proof.
  intros (Hne & Hd & _). split; [done|]. eapply List.Forall_impl; [|exact Hd]. cbn. intros c Hc%digit_char.
  unfold is_delim. apply orb_false_iff. lia.
Qed.

Lemma word_negb w : word w -> Forall (fun c => negb (is_delim c) = true) w.
Proof. intros [_ Hw]. eapply List.Forall_impl; [|exact Hw]. cbn. by intros c ->. Qed.

(** The next token: delimiters, a word, a delimiter. *)
Lemma tokens_word fuel off ds w c rest :
  Forall (fun c => is_delim c = true) ds -> word w -> is_delim c = true ->
  tokens (S fuel) off (ds ++ w ++ c :: rest) =
    (off + Z.of_nat (length ds), w) :: tokens fuel (off + Z.of_nat (length ds) + Z.of_nat (length w) + 1) rest.
Proof.
  intros Hds Hw Hc. cbn [tokens]. rewrite span_app by done.
  assert (span is_delim (w ++ c :: rest) = 0%nat) as ->.
  { destruct Hw as [Hne Hw]. destruct w as [|x w]; [done|]. apply List.Forall_cons_iff in Hw as [Hx _]. by apply span_stop. }
  rewrite Nat.add_0_r, drop_app_length.
  assert (span (fun c => negb (is_delim c)) (w ++ c :: rest) = length w) as ->.
  { rewrite span_app by (by apply word_negb). rewrite span_stop by (by rewrite Hc). lia. }
  destruct w as [|x w]; [by destruct Hw|]. cbn [app]. f_equal.
  - f_equal. change (x :: w ++ c :: rest) with ((x :: w) ++ c :: rest). by rewrite take_app_length.
  - f_equal. change (x :: w ++ c :: rest) with ((x :: w) ++ c :: rest).
    rewrite <- Nat.add_1_r, <- drop_drop, drop_app_length. done.
Qed.

Lemma tokens_last fuel off ds w :
  Forall (fun c => is_delim c = true) ds -> word w -> tokens (S fuel) off (ds ++ w) = [(off + Z.of_nat (length ds), w)].
Proof.
  intros Hds Hw. cbn [tokens]. rewrite span_app by done.
  assert (span is_delim w = 0%nat) as ->.
  { destruct Hw as [Hne Hw]. destruct w as [|x w]; [done|]. apply List.Forall_cons_iff in Hw as [Hx _]. by apply span_stop. }
  rewrite Nat.add_0_r, drop_app_length.
  assert (span (fun c => negb (is_delim c)) w = length w) as ->.
  { rewrite <- (app_nil_r w) at 1. rewrite span_app by (by apply word_negb). cbn. lia. }
  destruct w as [|x w]; [by destruct Hw|]. rewrite take_ge, drop_ge by lia. f_equal. by destruct fuel.
Qed.

Lemma tokens_word0 fuel off w c rest : word w -> is_delim c = true ->
  tokens (S fuel) off (w ++ c :: rest) = (off, w) :: tokens fuel (off + Z.of_nat (length w) + 1) rest.
Proof. intros Hw Hc. pose proof (tokens_word fuel off [] w c rest) as Ht. rewrite Z.add_0_r in Ht. by apply Ht. Qed.

Lemma tokens_word1 fuel off w c rest : word w -> is_delim c = true ->
  tokens (S fuel) off (32 :: w ++ c :: rest) = (off + 1, w) :: tokens fuel (off + 1 + Z.of_nat (length w) + 1) rest.
Proof. intros Hw Hc. apply (tokens_word fuel off [32] w c rest); [by repeat constructor|done..]. Qed.

Lemma tokens_last0 fuel off w : word w -> tokens (S fuel) off w = [(off, w)].
Proof. intros Hw. pose proof (tokens_last fuel off [] w) as Ht. rewrite Z.add_0_r in Ht. by apply Ht. Qed.

Lemma strchr_none l c : Forall (fun x => x <> c) l -> strchr l c = None.
Proof. induction 1 as [|x l Hx _ IH]; cbn; [done|]. by destruct (Z.eqb_spec x c). Qed.

Lemma strchr_app l c r : Forall (fun x => x <> c) l -> strchr (l ++ c :: r) c = Some (c :: r).
Proof. induction 1 as [|x l Hx _ IH]; cbn; [by rewrite Z.eqb_refl|]. by destruct (Z.eqb_spec x c). Qed.

Lemma numeral_no l n c : numeral l n -> ~ (48 <= c <= 57) -> Forall (fun x => x <> c) l.
Proof. intros (_ & Hd & _) Hc. eapply List.Forall_impl; [|exact Hd]. cbn. intros x Hx%digit_char. lia. Qed.

Lemma numeral_head l n r : numeral l n -> isdigit (deref (l ++ r)) = true.
Proof. intros (Hne & Hd & _). destruct l; [done|]. by apply List.Forall_cons_iff in Hd as [? _]. Qed.

(** Names of days and months. *)
Definition name_ok (w : bytes) : bool :=
  (length w =? 3)%nat && forallb (fun c => negb (is_delim c) && negb (isdigit c) && negb (c =? 0)) w.

Lemma name_word w : name_ok w = true ->
  length w = 3%nat /\ word w /\ isdigit (deref w) = false /\ Forall (fun c => c <> 0) w.
Proof.
  intros Hw. apply andb_true_iff in Hw as [Hl Hf]. apply Nat.eqb_eq in Hl. rewrite forallb_forall in Hf.
  assert (forall c, In c w -> is_delim c = false /\ isdigit c = false /\ c <> 0) as Hc.
  { intros c Hin. specialize (Hf c Hin). rewrite !andb_true_iff, !negb_true_iff in Hf. destruct Hf as [[? ?] ?]. by zify_bools. }
  destruct w as [|x w]; [done|]. splits.
  - split; [done|]. apply List.Forall_forall. intros c Hin. by apply Hc.
  - apply Hc. by left.
  - apply List.Forall_forall. intros c Hin. by apply Hc.
Qed.

Lemma days_ok i w : days !! i = Some w -> name_ok w = true.
Proof.
  assert (Forall (fun w => name_ok w = true) days) as H by (repeat constructor). intros Hi. by eapply Forall_lookup_1 in H.
Qed.

Lemma months_ok i w : months !! i = Some w -> name_ok w = true /\ make_month 8 w = Some (Z.of_nat i).
Proof. intros Hi. do 12 (destruct i as [|i]; [cbn in Hi; simplify_eq; by vm_compute|]). done. Qed.

Definition clock (h m s : Z) : bytes := two h ++ str ":" ++ two m ++ str ":" ++ two s.

Lemma parse_elements_ok mday mon w year h m s offs :
  1 <= mday <= 31 -> months !! mon = Some w -> 0 <= year <= 9999 -> 0 <= h < 24 -> 0 <= m < 60 -> 0 <= s < 60 ->
  let '(o1, o3, o4) := offs in
  parse_date_elements (Some (o1, two mday)) (Some (8, w)) (Some (o3, four year)) (Some (o4, clock h m s)) =
    Some (Some (mkTm s m h mday (Z.of_nat mon) (year - 1900) 0)).
Proof.
  intros Hd Hmon Hy Hh Hm Hs. destruct offs as [[o1 o3] o4]. unfold parse_date_elements.
  rewrite (atoi_numeral_end (two mday) mday) by (try apply two_numeral; lia).
  destruct (months_ok _ _ Hmon) as [_ ->]. bind_simpl. destruct (Z.ltb_spec (Z.of_nat mon) 0); [lia|].
  rewrite (atoi_numeral_end (four year) year) by (try apply four_numeral; lia). cbn [length four Nat.eqb].
  unfold clock. change (str ":") with [58]. cbn [app].
  rewrite strchr_app by (eapply numeral_no; [by apply two_numeral; lia|lia]). cbn [drop]. rewrite ?drop_0.
  rewrite strchr_app by (eapply numeral_no; [by apply two_numeral; lia|lia]). cbn [drop]. rewrite ?drop_0.
  rewrite (atoi_numeral (two m) m) by (try apply two_numeral; lia || done).
  rewrite (atoi_numeral_end (two s) s) by (try apply two_numeral; lia).
  assert (make_num (two h ++ 58 :: two m ++ 58 :: two s) = h) as ->.
  { unfold make_num. rewrite (numeral_head _ h) by (apply two_numeral; lia). unfold two at 1 3 4. cbn [app drop deref hd].
    rewrite digit_ok, rem10 by lia. rewrite (Z.mod_small (h / 10)) by (split; [apply Z.div_pos|apply Z.div_lt_upper_bound]; lia).
    pose proof (Z.div_mod h 10 ltac:(lia)). lia. }
  assert (mon < 12)%nat by (by eapply lookup_lt_Some in Hmon).
  unfold tmSaneValues. cbn [tm_sec tm_min tm_hour tm_mday tm_mon].
  repeat match goal with |- context [?a <? ?b] => destruct (Z.ltb_spec a b); [lia|] end. done.
Qed.

(** The text of a date. *)
Definition date_text (wday mon : bytes) (mday year h m s : Z) : bytes :=
  wday ++ str ", " ++ two mday ++ str " " ++ mon ++ str " " ++ four year ++ str " " ++ clock h m s ++ str " GMT".

Lemma date_tokens fuel wday mon mday year h m s :
  name_ok wday = true -> name_ok mon = true -> 0 <= mday < 100 -> 0 <= year <= 9999 -> 0 <= h < 100 -> 0 <= m < 100 -> 0 <= s < 100 ->
  tokens (6 + fuel) 0 (date_text wday mon mday year h m s) =
    [(0, wday); (5, two mday); (8, mon); (12, four year); (17, clock h m s); (26, str "GMT")].
Proof.
  intros Hw Hmon Hd Hy Hh Hm Hs. destruct (name_word _ Hw) as (Lw & Ww & _). destruct (name_word _ Hmon) as (Lm & Wm & _).
  assert (word (clock h m s)) as Wc.
  { unfold clock. split; [done|]. rewrite !List.Forall_app. splits; try apply (numeral_word _ _ (two_numeral _ Hh));
    try apply (numeral_word _ _ (two_numeral _ Hm)); try apply (numeral_word _ _ (two_numeral _ Hs)); by repeat constructor. }
  unfold date_text. change (6 + fuel)%nat with (S (S (S (S (S (S fuel)))))).
  change (str ", ") with ([44] ++ [32]). change (str " ") with [32]. change (str " GMT") with ([32] ++ str "GMT").
  rewrite <- !app_assoc. cbn [app].
  rewrite tokens_word0 by done. rewrite Lw.
  rewrite tokens_word1 by (done || by eapply numeral_word, two_numeral).
  rewrite tokens_word0 by done. rewrite Lm.
  rewrite tokens_word0 by (done || by eapply numeral_word, four_numeral).
  rewrite tokens_word0 by done.
  rewrite tokens_last0 by (split; [done|by repeat constructor]). done.
Qed.

Lemma date_elements wday mon mday year h m s :
  name_ok wday = true -> name_ok mon = true -> 0 <= mday < 100 -> 0 <= year <= 9999 -> 0 <= h < 100 ->
  element_loop (mkEl None None None None None None)
    [(0, wday); (5, two mday); (8, mon); (12, four year); (17, clock h m s); (26, str "GMT")] =
  Some (mkEl (Some (0, wday)) (Some (5, two mday)) (Some (8, mon)) (Some (12, four year)) (Some (17, clock h m s)) (Some (26, str "GMT"))).
Proof.
  intros Hw Hmon Hd Hy Hh. destruct (name_word _ Hw) as (_ & _ & Dw & _). destruct (name_word _ Hmon) as (_ & _ & Dm & _).
  cbn [element_loop]. unfold element at 1. rewrite Dw. cbn [el_wday el_day el_month el_year el_time el_zone].
  unfold element at 1. rewrite <- (app_nil_r (two mday)) at 1. rewrite (numeral_head (two mday) mday) by (by apply two_numeral).
  cbn [el_wday el_day el_month el_year el_time el_zone].
  rewrite (strchr_none (two mday)) by (eapply numeral_no; [by apply two_numeral|lia]).
  unfold element at 1. rewrite Dm. cbn [el_wday el_day el_month el_year el_time el_zone].
  unfold element at 1. rewrite <- (app_nil_r (four year)) at 1. rewrite (numeral_head (four year) year) by (by apply four_numeral).
  cbn [el_wday el_day el_month el_year el_time el_zone].
  rewrite (strchr_none (four year)) by (eapply numeral_no; [by apply four_numeral|lia]).
  unfold element at 1. unfold clock at 1 2. rewrite (numeral_head (two h) h) by (by apply two_numeral).
  cbn [el_wday el_day el_month el_year el_time el_zone]. change (str ":") with [58]. cbn [app].
  rewrite strchr_app by (eapply numeral_no; [by apply two_numeral|lia]). done.
Qed.

Lemma date_text_nonzero wday mon mday year h m s :
  name_ok wday = true -> name_ok mon = true -> 0 <= mday < 100 -> 0 <= year <= 9999 -> 0 <= h < 100 -> 0 <= m < 100 -> 0 <= s < 100 ->
  Forall (fun c => c <> 0) (date_text wday mon mday year h m s) /\ length (date_text wday mon mday year h m s) = 29%nat.
Proof.
  intros Hw Hmon Hd Hy Hh Hm Hs. destruct (name_word _ Hw) as (Lw & _ & _ & Zw). destruct (name_word _ Hmon) as (Lm & _ & _ & Zm).
  unfold date_text, clock. split.
  - rewrite !List.Forall_app. splits; try (eapply numeral_no; [by apply two_numeral|lia]);
      try (eapply numeral_no; [by apply four_numeral|lia]); by repeat constructor.
  - rewrite !length_app, Lw, Lm. reflexivity.
Qed.

(** Years that print as four digits. *)
Lemma year_range t : -62135596800 <= t < 253402300800 -> 0 <= 1900 + tm_year (gmtime t) <= 9999.
Proof.
  intros Ht. unfold gmtime. destruct (gmtime_ok t) as (y & m & d & -> & Hm & Hd & He). cbn [tm_year].
  assert (0 <= days_before_month (leap y) m <= 335) as Hdm.
  { unfold days_before_month. assert (0 <= nth (Z.to_nat m) month_days 0 <= 334); [|case_ifs; lia].
    generalize (Z.to_nat m). intros n. unfold month_days. do 13 (destruct n as [|n]; [cbn; lia|]). cbn. lia. }
  unfold EPOCH_DAYS, days_before_year in He.
  pose proof (Z.div_mod t 86400 ltac:(lia)). pose proof (Z.mod_pos_bound t 86400 ltac:(lia)).
  pose proof (Z.div_mod (y - 1) 4 ltac:(lia)). pose proof (Z.mod_pos_bound (y - 1) 4 ltac:(lia)).
  pose proof (Z.div_mod (y - 1) 100 ltac:(lia)). pose proof (Z.mod_pos_bound (y - 1) 100 ltac:(lia)).
  pose proof (Z.div_mod (y - 1) 400 ltac:(lia)). pose proof (Z.mod_pos_bound (y - 1) 400 ltac:(lia)).
  split.
  - destruct (Z.lt_ge_cases y 1); lia.
  - destruct (Z.lt_ge_cases y 10000); lia.
Qed.

(** Every result is read from inside the buffers when the text is short
    enough. *)

Definition piece_ok (n : Z) (p : piece) : Prop := 0 <= fst p < n.
Definition el_ok (n : Z) (e : elements) : Prop := forall p, el_month e = Some p -> piece_ok n p.

Lemma tokens_ok fuel : forall off p, 0 <= off ->
  Forall (fun q => 0 <= fst q /\ fst q + Z.of_nat (length (snd q)) <= off + Z.of_nat (length p) /\ snd q <> []) (tokens fuel off p).
Proof.
  induction fuel as [|fuel IH]; intros off p Hoff; cbn [tokens]; [constructor|].
  pose proof (span_le is_delim p) as Hk. set (k := span is_delim p) in *.
  destruct (drop k p) as [|x q] eqn:Eq; [constructor|].
  pose proof (f_equal length Eq) as Hlen. rewrite length_drop in Hlen. cbn [length] in Hlen.
  pose proof (span_le (fun c => negb (is_delim c)) (x :: q)) as Hn. cbn [length] in Hn.
  set (n := span (fun c => negb (is_delim c)) (x :: q)) in *.
  apply List.Forall_cons_iff. split.
  - cbn [fst snd]. splits; [lia|rewrite length_take; cbn [length]; lia|].
    assert (is_delim x = false) as Hx.
    { destruct (is_delim x) eqn:E; [|done]. exfalso. unfold k in Eq. apply span_drop in Eq. congruence. }
    unfold n. cbn [span]. rewrite Hx. done.
  - clearbody n. destruct (decide (n = S (length q))) as [->|Hlt].
    { rewrite drop_ge by (cbn [length]; lia). destruct fuel; constructor. }
    eapply List.Forall_impl; [|apply IH; lia]. intros [o w] (? & H2 & ?). cbn [fst snd] in *.
    rewrite length_drop in H2. cbn [length] in H2. splits; lia.
Qed.

Lemma element_ok n e tok e' :
  0 <= fst tok -> fst tok + Z.of_nat (length (snd tok)) <= n -> snd tok <> [] ->
  el_ok n e -> element e tok = Some e' -> el_ok n e'.
Proof.
  destruct tok as [off t]. cbn [fst snd]. intros H0 Hl Hne He. unfold element.
  assert (piece_ok n (off, t)) as Ht. { split; cbn [fst]; [done|]. destruct t; [done|]. cbn [length] in Hl. lia. }
  destruct (isdigit (deref t)).
  - destruct (el_day e); [destruct (strchr t 58); [|destruct (el_year e)]; intros [= <-]; done|].
    destruct (strchr t 45) as [r|] eqn:E1; [|intros [= <-]; done].
    destruct (strchr (drop 1 r) 45) as [r2|] eqn:E2; [|done]. intros [= <-]. intros p Hp. cbn [el_month] in Hp. simplify_eq.
    destruct (strchr_suffix _ _ _ E1) as (u & -> & Hr). destruct (strchr_suffix _ _ _ E2) as (v & Hv & Hr2).
    apply (f_equal length) in Hv. rewrite length_drop, length_app in Hv. destruct r as [|x r]; [cbn in Hr; lia|].
    destruct r2 as [|x2 r2]; [cbn in Hr2; lia|]. split; cbn [fst]; [lia|].
    rewrite length_app in *. cbn [length drop] in *. rewrite ?drop_0 in *. lia.
  - destruct (el_wday e); [|intros [= <-]; done]. destruct (el_month e) as [mp|] eqn:Em.
    + destruct (el_zone e); intros [= <-]; [done|]. intros p' Hp. cbn in Hp. apply He. congruence.
    + intros [= <-] p' Hp. cbn in Hp. by simplify_eq.
Qed.

Lemma element_loop_ok n toks : forall e e',
  Forall (fun q : piece => 0 <= fst q /\ fst q + Z.of_nat (length (snd q)) <= n /\ snd q <> []) toks ->
  el_ok n e -> element_loop e toks = Some e' -> el_ok n e'.
Proof.
  induction toks as [|tok toks IH]; intros e e' Hf He; cbn [element_loop]; [by intros [= <-]|].
  apply List.Forall_cons_iff in Hf as [(? & ? & ?) Hf]. destruct (element e tok) eqn:E; [|done].
  apply IH; [done|]. by eapply element_ok.
Qed.

Lemma parse_elements_safe day month year time :
  (forall p, month = Some p -> fst p + 2 < TIMEBUFLEN) -> is_Some (parse_date_elements day month year time).
Proof.
  intros Hm. unfold parse_date_elements.
  destruct day as [[? d]|]; [|eauto]. destruct month as [[mo m]|]; [|eauto]. destruct year as [[? y]|]; [|eauto].
  destruct time as [[? t]|]; [|eauto]. specialize (Hm _ eq_refl). cbn [fst] in Hm. unfold make_month.
  destruct (Z.ltb_spec (mo + 2) TIMEBUFLEN); [|lia]. bind_simpl. repeat case_match; eauto.
Qed.

Lemma parse_rfc1123_some buf len :
  0 <= len <= Z.of_nat (length buf) -> len < TIMEBUFLEN - 1 -> is_Some (parse_rfc1123 buf len).
Proof.
  intros Hl Hb. unfold parse_rfc1123, parse_date. rewrite Z.min_l by lia.
  destruct (Z.leb_spec 0 len); [|lia]. destruct (Z.leb_spec len (Z.of_nat (length buf))); [|lia]. cbn [andb].
  set (tmp := take _ (take (Z.to_nat len) buf)).
  assert (Z.of_nat (length tmp) <= len) as Htmp by (unfold tmp; rewrite !length_take; lia).
  destruct (element_loop _ _) as [e|] eqn:E; [|bind_simpl; eauto].
  assert (el_ok (TIMEBUFLEN - 2) e) as Hok.
  { eapply element_loop_ok; [|..|exact E].
    - eapply List.Forall_impl; [|apply (tokens_ok _ 0 tmp); lia]. cbn beta. intros q (? & ? & ?). splits; lia.
    - by intros p [=]. }
  destruct (parse_elements_safe (el_day e) (el_month e) (el_year e) (el_time e)) as [r ->].
  - intros p Hp%Hok. unfold piece_ok in Hp. lia.
  - bind_simpl. eauto.
Qed.

Lemma date_roundtrip t :
  -62135596800 <= t < 253402300800 ->
  exists s, mkrfc1123 t = Some s /\ length s = 29%nat /\ parse_rfc1123 s 29 = Some t.
Proof.
  intros Ht. pose proof (gmtime_range t) as (Hs & Hm & Hh & Hd & Hmon & Hwd). pose proof (year_range t Ht) as Hy.
  destruct (lookup_lt_is_Some_2 days (Z.to_nat (tm_wday (gmtime t)))) as [wd Hwday]; [cbn; lia|].
  destruct (lookup_lt_is_Some_2 months (Z.to_nat (tm_mon (gmtime t)))) as [mo Hmo]; [cbn; lia|].
  pose proof (days_ok _ _ Hwday) as Nw. destruct (months_ok _ _ Hmo) as [Nm _].
  exists (date_text wd mo (tm_mday (gmtime t)) (1900 + tm_year (gmtime t)) (tm_hour (gmtime t)) (tm_min (gmtime t)) (tm_sec (gmtime t))).
  destruct (date_text_nonzero wd mo (tm_mday (gmtime t)) (1900 + tm_year (gmtime t)) (tm_hour (gmtime t)) (tm_min (gmtime t))
    (tm_sec (gmtime t))) as [Hnz Hlen]; [done..|lia|lia|lia|lia|lia|]. splits.
  - unfold mkrfc1123. rewrite Hwday. bind_simpl. rewrite Hmo. bind_simpl. rewrite wrap_s_small by lia.
    unfold date_text, clock, four. by rewrite <- !app_assoc.
  - unfold parse_rfc1123, parse_date. rewrite Hlen. change (Z.min 29 (TIMEBUFLEN - 1)) with 29. change ((0 <=? 29) && (29 <=? Z.of_nat 29)) with true. cbn iota.
    rewrite (take_ge _ (Z.to_nat 29)) by (rewrite Hlen; done).
    assert (forall l, Forall (fun c => c <> 0) l -> span (fun c => negb (c =? 0)) l = length l) as Hspan.
    { induction 1 as [|c l Hc _ IH]; [done|]. cbn. destruct (Z.eqb_spec c 0); [done|]. cbn. by rewrite IH. }
    rewrite Hspan, take_ge, Hlen by done. change 30%nat with (6 + 24)%nat. rewrite date_tokens by (done || lia).
    rewrite date_elements by (done || lia). cbn [el_day el_month el_year el_time].
    pose proof (parse_elements_ok (tm_mday (gmtime t)) _ mo (1900 + tm_year (gmtime t)) (tm_hour (gmtime t)) (tm_min (gmtime t))
      (tm_sec (gmtime t)) (5, 12, 17) Hd Hmo Hy Hh Hm Hs) as Hp. cbn beta iota in Hp. rewrite Hp. bind_simpl. f_equal.
    rewrite Z2Nat.id by lia. etransitivity; [|apply timegm_gmtime]. unfold timegm. cbn. f_equal. f_equal. f_equal.
    replace (1900 + (1900 + tm_year (gmtime t) - 1900)) with (1900 + tm_year (gmtime t)) by lia. done.
Qed.

(** ** Properties *)

(** C35. A date printed for HTTP reads back as the same time, for every second of
    the years 1 to 9999, and is 29 characters long. *)
Theorem rfc1123_roundtrip t :
  -62135596800 <= t < 253402300800 ->
  exists s, mkrfc1123 t = Some s /\ length s = 29%nat /\ parse_rfc1123 s 29 = Some t.
Proof. apply date_roundtrip. Qed.

Lemma rfc1123_roundtrip_witness :
  exists s, mkrfc1123 784111777 = Some s /\ length s = 29%nat /\ parse_rfc1123 s 29 = Some 784111777.
Proof. apply (rfc1123_roundtrip 784111777). lia. Defined.

(** Parsing any text shorter than 127 bytes as a date ends with a time or
    -1 and reads only the text and the local array, whatever the text is. *)
Theorem parse_rfc1123_safe buf len :
  0 <= len <= Z.of_nat (length buf) -> len < 127 -> is_Some (parse_rfc1123 buf len).
Proof. intros Hl Hb. apply parse_rfc1123_some; [done|unfold TIMEBUFLEN; lia]. Qed.

Lemma parse_rfc1123_safe_witness : is_Some (parse_rfc1123 (str "06-Nov 12:x") 11).
Proof. apply (parse_rfc1123_safe (str "06-Nov 12:x") 11); cbn; lia. Defined.

(** Longer texts are cut to 127 bytes; [make_month] then reads one byte past the
    array when the month is a single character at its end. *)
Lemma parse_rfc1123_overread :
  parse_rfc1123 (str "Mon 1 1999 1:1:1 " ++ replicate 109 32 ++ str "J") 127 = None.
Proof. vm_compute. reflexivity. Qed.

(** An hour of one digit is not read as such: the colon counts as a digit. *)
Lemma make_num_one_digit : make_num (str "8:49:37") = 90.
Proof. reflexivity. Qed.
End Rfc1123.
