(* ===== verification/HttpMsg.v ===== *)
(** * HTTP messages: the first line and the end of the headers

    libhttp/HttpMsg.c, libmime/MimeHdrs.c, and httpMsgParseRequestHeader of
    src/HttpMsg.c.  A message is parsed in place: the buffer is a list of bytes
    and everything found in it is an index, so that each read is checked
    against the length of the buffer. *)

From Stdlib Require Import ZArith Lia.
From stdpp Require Import base strings list numbers option.
From S2P Require Import Prelude CStr StrList HttpTools HttpHeaderType HttpHeader HttpHeaderParse.

Module HttpMsg.
Import HttpHeaderType.HttpHeaderType HttpHeader.HttpHeader HttpHeaderParse.HttpHeaderParse.

Record HttpMsgBuf := mkMsg {
  buf : bytes;
  h_start : Z; h_end : Z; h_len : Z;
  req_start : Z; req_end : Z; r_len : Z;
  m_start : Z; m_end : Z; m_len : Z;
  u_start : Z; u_end : Z; u_len : Z;
  v_start : Z; v_end : Z; v_len : Z;
  v_maj : Z; v_min : Z
}.

(** [size] is the length of the buffer.  The fields that are not set hold
    whatever was there before; they are left alone here. *)
Definition HttpMsgBufInit (h : HttpMsgBuf) (b : bytes) : HttpMsgBuf :=
  mkMsg b (-1) (-1) 0 (-1) (-1) 0 (m_start h) (m_end h) 0 (u_start h) (u_end h) 0 (v_start h) (v_end h) 0 (v_maj h) (v_min h).

Definition set_req_end (e : Z) (h : HttpMsgBuf) : HttpMsgBuf :=
  mkMsg (buf h) (h_start h) (h_end h) (h_len h) (req_start h) e (r_len h) (m_start h) (m_end h) (m_len h)
    (u_start h) (u_end h) (u_len h) (v_start h) (v_end h) (v_len h) (v_maj h) (v_min h).
Definition set_method_start (i : Z) (h : HttpMsgBuf) : HttpMsgBuf :=
  mkMsg (buf h) (h_start h) (h_end h) (h_len h) i (req_end h) (req_end h - i + 1) i (m_end h) (m_len h)
    (u_start h) (u_end h) (u_len h) (v_start h) (v_end h) (v_len h) (v_maj h) (v_min h).
Definition set_method_end (e : Z) (h : HttpMsgBuf) : HttpMsgBuf :=
  mkMsg (buf h) (h_start h) (h_end h) (h_len h) (req_start h) (req_end h) (r_len h) (m_start h) e (e - m_start h + 1)
    (u_start h) (u_end h) (u_len h) (v_start h) (v_end h) (v_len h) (v_maj h) (v_min h).
Definition set_u_start (i : Z) (h : HttpMsgBuf) : HttpMsgBuf :=
  mkMsg (buf h) (h_start h) (h_end h) (h_len h) (req_start h) (req_end h) (r_len h) (m_start h) (m_end h) (m_len h)
    i (u_end h) (u_len h) (v_start h) (v_end h) (v_len h) (v_maj h) (v_min h).
Definition set_u_end (e : Z) (h : HttpMsgBuf) : HttpMsgBuf :=
  mkMsg (buf h) (h_start h) (h_end h) (h_len h) (req_start h) (req_end h) (r_len h) (m_start h) (m_end h) (m_len h)
    (u_start h) e (u_len h) (v_start h) (v_end h) (v_len h) (v_maj h) (v_min h).
Definition set_u_len (n : Z) (h : HttpMsgBuf) : HttpMsgBuf :=
  mkMsg (buf h) (h_start h) (h_end h) (h_len h) (req_start h) (req_end h) (r_len h) (m_start h) (m_end h) (m_len h)
    (u_start h) (u_end h) n (v_start h) (v_end h) (v_len h) (v_maj h) (v_min h).
Definition set_v_start (i : Z) (h : HttpMsgBuf) : HttpMsgBuf :=
  mkMsg (buf h) (h_start h) (h_end h) (h_len h) (req_start h) (req_end h) (r_len h) (m_start h) (m_end h) (m_len h)
    (u_start h) (u_end h) (u_len h) i (v_end h) (v_len h) (v_maj h) (v_min h).
Definition set_v_end (e : Z) (h : HttpMsgBuf) : HttpMsgBuf :=
  mkMsg (buf h) (h_start h) (h_end h) (h_len h) (req_start h) (req_end h) (r_len h) (m_start h) (m_end h) (m_len h)
    (u_start h) (u_end h) (u_len h) (v_start h) e (e - v_start h + 1) (v_maj h) (v_min h).
Definition set_version (maj min : Z) (h : HttpMsgBuf) : HttpMsgBuf :=
  mkMsg (buf h) (h_start h) (h_end h) (h_len h) (req_start h) (req_end h) (r_len h) (m_start h) (m_end h) (m_len h)
    (u_start h) (u_end h) (u_len h) (v_start h) (v_end h) (v_len h) maj min.
Definition set_headers (s e : Z) (h : HttpMsgBuf) : HttpMsgBuf :=
  mkMsg (buf h) s e (e - s) (req_start h) (req_end h) (r_len h) (m_start h) (m_end h) (m_len h)
    (u_start h) (u_end h) (u_len h) (v_start h) (v_end h) (v_len h) (v_maj h) (v_min h).

(** [buf[i]] *)
Definition rd (b : bytes) (i : Z) : option Z := assert? (0 <=? i) in b !! Z.to_nat i.

(** [for (; i < lim && f(buf[i]); i++);] *)
Fixpoint scan (fuel : nat) (f : Z -> bool) (b : bytes) (i lim : Z) : option Z :=
  if i <? lim then
    match fuel with
    | O => None
    | S fuel => let? c := rd b i in if f c then scan fuel f b (i + 1) lim else Some i
    end
  else Some i.

(** The loop that looks for the end of the line: the index where it stops, the
    end of the line and the last blank, -1 when there is none. *)
Fixpoint line_loop (fuel : nat) (b : bytes) (i req_end last_ws : Z) : option (Z * Z * Z) :=
  if i <=? req_end then
    match fuel with
    | O => None
    | S fuel =>
        let? c := rd b i in
        if c =? 10 then Some (i, i, last_ws)
        else
          let? crlf := if c =? 13 then let? d := rd b (i + 1) in Some (d =? 10) else Some false in
          if (crlf : bool) then Some (i, i, last_ws)
          else line_loop fuel b (i + 1) req_end (if (c =? 32) || (c =? 9) then i else last_ws)
    end
  else Some (i, -1, last_ws).

(** [for (; i < req_end && xisdigit(buf[i]) && n < 65536; i++)]: where it stops
    and the number. *)
Fixpoint number_loop (fuel : nat) (b : bytes) (i lim n : Z) : option (Z * Z) :=
  if i <? lim then
    match fuel with
    | O => None
    | S fuel =>
        let? c := rd b i in
        if isdigit c && (n <? 65536) then number_loop fuel b (i + 1) lim (n * 10 + c - 48) else Some (i, n)
    end
  else Some (i, n).

(** The tests of the version, from [v_start] on: the new message, the return
    code, major and minor number. *)
Definition parse_version (h : HttpMsgBuf) (i last_ws : Z) : option (HttpMsgBuf * Z * Z * Z) :=
  let b := buf h in
  let h := set_v_start i h in
  let? (i, maj) := number_loop (length b) b (i + 5) (req_end h) 0 in
  if (req_end h <=? i) || (65536 <=? maj) then Some (h, -1, maj, -1)
  else
    let? c := rd b i in
    if negb (c =? 46) then Some (h, 0, maj, -1)
    else if req_end h <=? i + 1 then Some (h, -1, maj, -1)
    else
      let? (i, min) := number_loop (length b) b (i + 1) (req_end h) 0 in
      if 65536 <=? min then Some (h, -1, maj, min)
      else
        let h := set_u_end (last_ws - 1) (set_v_end i h) in
        Some (set_u_len (u_end h - u_start h + 1) h, 1, maj, min).

(** The URL is the rest of the line: HTTP/0.9. *)
Definition parse_09 (h : HttpMsgBuf) (line_end : Z) : option (HttpMsgBuf * Z * Z * Z) :=
  let h := set_u_end (line_end - 1) h in
  assert? (u_start h <=? u_end h) in
  Some (set_u_len (u_end h - u_start h + 1) h, 1, 0, 9).

(** [strncasecmp(&buf[i], "HTTP/", 5) == 0] inside the buffer. *)
Definition at_http (b : bytes) (i : Z) : bool := strncaseeq (drop (Z.to_nat i) b) (str "HTTP/") 5.

(** Everything up to the label [finish]: the message, the return code and the
    two numbers of the version. *)
Definition parse_request_line (h : HttpMsgBuf) : option (HttpMsgBuf * Z * Z * Z) :=
  let b := buf h in
  let n := length b in
  match memchr b 10 n with
  | None => Some (h, 0, -1, -1)
  | Some t =>
      let h := set_req_end (Z.of_nat t) h in
      let? i := scan n isspace b 0 (req_end h) in
      if req_end h <=? i then Some (h, 0, -1, -1)
      else
        let h := set_method_start i h in
        let? i := scan n (fun c => negb (isspace c)) b i (req_end h) in
        if req_end h <=? i then Some (h, -1, -1, -1)
        else
          let h := set_method_end (i - 1) h in
          let? i := scan n isspace b i (req_end h) in
          if req_end h <=? i then Some (h, -1, -1, -1)
          else
            let h := set_u_start i h in
            let? (i, line_end, last_ws) := line_loop (S n) b i (req_end h) (-1) in
            if req_end h <? i then Some (h, -1, -1, -1)
            else if last_ws =? -1 then parse_09 h line_end
            else
              let? i := scan (S n) isspace b last_ws (req_end h + 1) in
              if req_end h <? i then Some (h, -1, -1, -1)
              else if (req_end h <=? i + 5) || negb (at_http b i) then parse_09 h line_end
              else parse_version h i last_ws
  end.

Definition httpMsgParseRequestLine (h : HttpMsgBuf) : option (HttpMsgBuf * Z) :=
  let? (h, retcode, maj, min) := parse_request_line h in
  Some (set_version maj min h, retcode).

(** ** The end of the headers *)

(** One step of the automaton. *)
Definition step (state c : Z) : Z :=
  if state =? 0 then (if c =? 10 then 1 else 0)
  else if state =? 1 then (if c =? 13 then 2 else if c =? 10 then 3 else 0)
  else if state =? 2 then (if c =? 10 then 3 else 0)
  else state.

(** The loops of [headersEnd] and [httpMsgFindHeadersEnd]: [e], [state] and
    [he], the last newline met in state 0. *)
Fixpoint end_loop (mime : bytes) (e state he : Z) : Z * Z * Z :=
  match mime with
  | c :: mime =>
      if state <? 3 then end_loop mime (e + 1) (step state c) (if (state =? 0) && (c =? 10) then e else he)
      else (e, state, he)
  | [] => (e, state, he)
  end.

Definition headersEnd (mime : bytes) : Z :=
  let '(e, state, _) := end_loop mime 0 1 (-1) in if state =? 3 then e else 0.

Definition httpMsgFindHeadersEnd (h : HttpMsgBuf) : HttpMsgBuf * Z :=
  if (v_maj h =? 0) && (v_min h =? 9) then (h, 1)
  else
    let '(e, state, he) := end_loop (buf h) 0 1 (-1) in
    if state =? 3 then (set_headers (req_end h + 1) he h, e) else (h, 0).

(** The loop that moves [blk_end] back over CR characters. *)
Fixpoint strip_cr (fuel : nat) (b : bytes) (blk_end : Z) : option Z :=
  let? c := rd b (blk_end - 1) in
  if c =? 13 then match fuel with O => None | S fuel => strip_cr fuel b (blk_end - 1) end else Some blk_end.

(** The loop that skips CR up to the first newline. *)
Fixpoint skip_empty (fuel : nat) (b : bytes) (p : Z) : option Z :=
  match fuel with
  | O => None
  | S fuel =>
      let? c := rd b p in
      if c =? 13 then skip_empty fuel b (p + 1) else if c =? 10 then Some (p + 1) else Some p
  end.

(** The headers start at [parse_start] in a buffer of which [l] more bytes are
    to be looked at.  The result: new [parse_start], [blk_start], [blk_end], or
    [None] inside for failure. *)
Definition httpMsgIsolateHeaders (b : bytes) (parse_start l : Z) : option (option (Z * Z * Z)) :=
  let end_ := headersEnd (take (Z.to_nat l) (drop (Z.to_nat parse_start) b)) in
  if negb (end_ =? 0) then
    let blk_end := parse_start + end_ - 1 in
    let? c := rd b blk_end in
    assert? (c =? 10) in
    let? blk_end := strip_cr (length b) b blk_end in
    let? c := rd b (blk_end - 1) in
    assert? (c =? 10) in
    Some (Some (parse_start + end_, parse_start, blk_end))
  else
    let? c := rd b parse_start in
    if negb (c =? 13) && negb (c =? 10) then Some None
    else
      let? p := skip_empty (S (length b)) b parse_start in
      Some (Some (p, parse_start, parse_start)).

(** [httpMsgParseRequestHeader]: the header block goes to the header parser. *)
Definition httpMsgParseRequestHeader (relaxed : bool) (hdr : HttpHeader) (h : HttpMsgBuf) : option (HttpHeader * Z) :=
  httpHeaderParse relaxed hdr (take (Z.to_nat (h_end h + 1 - h_start h)) (drop (Z.to_nat (h_start h)) (buf h))).

(** ** Persistent connections *)

Record http_version := mkVersion { major : Z; minor : Z }.

Definition httpMsgIsPersistent (http_ver : http_version) (hdr : HttpHeader) : option bool :=
  let? close := httpHeaderHasConnDir hdr (str "close") in
  if (close : bool) then Some false
  else if ((1 <=? major http_ver) && (1 <=? minor http_ver)) || (1 <? major http_ver) then Some true
  else
    let? agent := httpHeaderGetStr hdr HDR_USER_AGENT in
    let? via := httpHeaderHas hdr HDR_VIA in
    let old := match (agent : option bytes) with
               | Some a => negb (via : bool) && (strncaseeq a (str "Mozilla/3.") 10 || strncaseeq a (str "Netscape/3.") 11)
               | None => false
               end in
    if old then Some false else httpHeaderHasConnDir hdr (str "keep-alive").

Definition msg0 (b : bytes) : HttpMsgBuf := HttpMsgBufInit (mkMsg [] 0 0 0 0 0 0 0 0 0 0 0 0 0 0 0 0 0) b.

Definition slice (b : bytes) (start len : Z) : bytes := take (Z.to_nat len) (drop (Z.to_nat start) b).

Definition CRLF : bytes := [13; 10].
Example ex1 : exists h, httpMsgParseRequestLine (msg0 (str "GET /index.html HTTP/1.1" ++ CRLF ++ CRLF)) = Some (h, 1) /\
  slice (buf h) (m_start h) (m_len h) = str "GET" /\ slice (buf h) (u_start h) (u_len h) = str "/index.html" /\ v_maj h = 1 /\ v_min h = 1.
Proof. eexists. split; [vm_compute; reflexivity|]. vm_compute. done. Qed.

(** ** Lemmas: the loops *)

Lemma rd_ok b i : 0 <= i < Z.of_nat (length b) -> exists c, rd b i = Some c /\ b !! Z.to_nat i = Some c.
Proof.
  intros Hi. destruct (lookup_lt_is_Some_2 b (Z.to_nat i)) as [c Hc]; [lia|]. exists c. unfold rd.
  by destruct (Z.leb_spec 0 i); [|lia].
Qed.

(** All bytes from [i] up to [j] satisfy [f]. *)
Definition all_in (f : Z -> bool) (b : bytes) (i j : Z) : Prop :=
  forall k c, i <= k < j -> rd b k = Some c -> f c = true.

Lemma all_in_nil f b i : all_in f b i i.
Proof. intros k c Hk. lia. Qed.

(** One more byte in front. *)
Lemma all_in_cons f b i j c : rd b i = Some c -> f c = true -> all_in f b (i + 1) j -> all_in f b i j.
Proof.
  intros Hc Hf Ha k d Hk Hd. destruct (decide (k = i)) as [->|]; [congruence|]. apply (Ha k d); [lia|done].
Qed.

Lemma scan_ok f b lim fuel : forall i,
  0 <= i <= lim -> lim <= Z.of_nat (length b) -> lim - i <= Z.of_nat fuel ->
  exists j, scan fuel f b i lim = Some j /\ i <= j <= lim /\ all_in f b i j /\
    (j < lim -> exists c, rd b j = Some c /\ f c = false).
Proof.
  induction fuel as [|fuel IH]; intros i Hi Hl Hf; cbn [scan]; destruct (Z.ltb_spec i lim).
  - lia.
  - exists i. lsplits. apply all_in_nil.
  - destruct (rd_ok b i) as (c & Hc & _); [lia|]. rewrite Hc. bind_simpl. destruct (f c) eqn:Ef.
    + destruct (IH (i + 1)) as (j & Hj & Hr & Ha & He); [lia..|]. exists j. lsplits. by eapply all_in_cons.
    + exists i. lsplits; [apply all_in_nil|eauto].
  - exists i. lsplits. apply all_in_nil.
Qed.

Definition blank (c : Z) : bool := (c =? 32) || (c =? 9).

Lemma line_loop_ok b req_end fuel : forall i lw,
  rd b req_end = Some 10 -> 0 <= i <= req_end -> req_end < Z.of_nat (length b) -> req_end - i < Z.of_nat fuel -> lw < i ->
  exists j lw', line_loop fuel b i req_end lw = Some (j, j, lw') /\ i <= j <= req_end /\
    (exists c, rd b j = Some c /\ (c = 10 \/ c = 13)) /\
    ((lw' = lw /\ all_in (fun c => negb (blank c)) b i j) \/ (i <= lw' < j /\ exists c, rd b lw' = Some c /\ blank c = true)).
Proof.
  induction fuel as [|fuel IH]; intros i lw Hn Hi Hl Hf Hlw; [lia|]. cbn [line_loop].
  destruct (Z.leb_spec i req_end); [|lia]. destruct (rd_ok b i) as (c & Hc & _); [lia|]. rewrite Hc. bind_simpl.
  pose proof (all_in_nil (fun c => negb (blank c)) b i) as Hnil.
  destruct (Z.eqb_spec c 10) as [->|Hc10]; [exists i, lw; lsplits; [eauto|auto]|].
  assert (i < req_end) as Hlt. { destruct (decide (i = req_end)) as [->|]; [congruence|lia]. }
  assert (exists crlf, (if c =? 13 then let? d := rd b (i + 1) in Some (d =? 10) else Some false) = Some crlf /\ (crlf = true -> c = 13)) as (crlf & -> & Hcr).
  { destruct (Z.eqb_spec c 13); [|by eexists]. destruct (rd_ok b (i + 1)) as (d & -> & _); [lia|]. by eexists. }
  bind_simpl. destruct crlf; [exists i, lw; lsplits; [exists c; auto|auto]|].
  change ((c =? 32) || (c =? 9)) with (blank c). destruct (blank c) eqn:Eb.
  - destruct (IH (i + 1) i) as (j & lw' & Hj & Hr & He & Hor); [done|lia..|]. exists j, lw'. lsplits.
    right. destruct Hor as [[-> _]|[? ?]]; [split; [lia|eauto]|split; [lia|done]].
  - destruct (IH (i + 1) lw) as (j & lw' & Hj & Hr & He & Hor); [done|lia..|]. exists j, lw'. lsplits.
    destruct Hor as [[-> Ha]|[? ?]]; [left|right; split; [lia|done]]. split; [done|].
    eapply all_in_cons; [done| |done]. by rewrite Eb.
Qed.

Lemma slice_cons b i n c : rd b i = Some c -> 0 < n -> slice b i n = c :: slice b (i + 1) (n - 1).
Proof.
  unfold rd, slice. destruct (Z.leb_spec 0 i); [|done]. intros Hc Hn. rewrite (drop_S _ _ _ Hc). replace (Z.to_nat n) with (S (Z.to_nat (n - 1))) by lia. cbn [take].
  by replace (Z.to_nat (i + 1)) with (S (Z.to_nat i)) by lia.
Qed.

Lemma slice_app b i n m : 0 <= i -> 0 <= n -> 0 <= m -> slice b i (n + m) = slice b i n ++ slice b (i + n) m.
Proof. intros. unfold slice. rewrite !Z2Nat.inj_add by lia. rewrite <- drop_drop. by rewrite take_take_drop. Qed.

Lemma slice_zero b i : slice b i 0 = [].
Proof. done. Qed.

(** The loop stops behind the digits it has read. *)
Lemma number_loop_ok b lim fuel : forall i n,
  0 <= i <= lim -> lim <= Z.of_nat (length b) -> lim - i <= Z.of_nat fuel -> 0 <= n ->
  exists j m, number_loop fuel b i lim n = Some (j, m) /\ i <= j <= lim /\ 0 <= m /\
    Forall (fun x => isdigit x = true) (slice b i (j - i)) /\ m = digits n (slice b i (j - i)).
Proof.
  induction fuel as [|fuel IH]; intros i n Hi Hl Hf Hn; cbn [number_loop].
  all: assert (forall k, k = n -> exists j m, Some (i, k) = Some (j, m) /\ i <= j <= lim /\ 0 <= m /\ Forall (fun x => isdigit x = true) (slice b i (j - i)) /\ m = digits n (slice b i (j - i))) as Hstop
    by (intros k ->; exists i, n; rewrite Z.sub_diag, slice_zero; lsplits; by constructor).
  all: destruct (Z.ltb_spec i lim); [|by apply Hstop].
  { lia. }
  destruct (rd_ok b i) as (c & Hc & _); [lia|]. rewrite Hc. bind_simpl. destruct (isdigit c) eqn:Ed; cbn [andb]; [|by apply Hstop].
  destruct (n <? 65536); [|by apply Hstop]. pose proof Ed as Ed'. unfold isdigit in Ed. zify_bools. destruct (IH (i + 1) (n * 10 + c - 48)) as (j & m & Hj & ? & ? & Hd & Hm); [lia..|].
  exists j, m. rewrite (slice_cons b i (j - i) c Hc) by lia. replace (j - i - 1) with (j - (i + 1)) by lia. lsplits; [by constructor|]. rewrite Hm. cbn [digits]. rewrite Ed'. f_equal. lia.
Qed.

(** *** The line *)

(** What a message holds when its first line was parsed: method and URL are
    non-empty and apart, inside the first line, the method has no white space
    and the version numbers are in range. *)
Definition parsed (h : HttpMsgBuf) : Prop :=
  0 <= m_start h /\ 0 < m_len h /\ m_start h + m_len h < u_start h /\ 0 < u_len h /\
  u_start h + u_len h <= req_end h /\ req_end h < Z.of_nat (length (buf h)) /\ rd (buf h) (req_end h) = Some 10 /\
  req_start h = m_start h /\ r_len h = req_end h - m_start h + 1 /\
  all_in (fun c => negb (isspace c)) (buf h) (m_start h) (m_start h + m_len h) /\
  all_in (fun c => negb (c =? 10)) (buf h) 0 (req_end h).

(** Where the version is: a line without one is of HTTP/0.9, and the fields are
    left as they were in [h0]; else it is the word behind the URL and the white
    space after it, "HTTP/" and two numbers with a dot between, which end at
    [v_end].  [v_len] is one more than its length. *)
Definition version_placed (h0 h : HttpMsgBuf) (maj min : Z) : Prop :=
  (maj = 0 /\ min = 9 /\ v_start h = v_start h0 /\ v_end h = v_end h0 /\ v_len h = v_len h0) \/
  (u_start h + u_len h < v_start h /\ v_start h + 5 < v_end h <= req_end h /\ v_len h = v_end h - v_start h + 1 /\
   all_in isspace (buf h) (u_start h + u_len h) (v_start h) /\ at_http (buf h) (v_start h) = true /\
   exists d1 d2, slice (buf h) (v_start h + 5) (v_end h - v_start h - 5) = d1 ++ 46 :: d2 /\
     Forall (fun x => isdigit x = true) d1 /\ Forall (fun x => isdigit x = true) d2 /\ maj = digits 0 d1 /\ min = digits 0 d2).

Definition good (h0 : HttpMsgBuf) (r : option (HttpMsgBuf * Z * Z * Z)) : Prop :=
  exists h ret maj min, r = Some (h, ret, maj, min) /\ buf h = buf h0 /\ (ret = -1 \/ ret = 0 \/ ret = 1) /\
    (ret = 1 -> parsed h /\ version_placed h0 h maj min /\ 0 <= maj < 65536 /\ 0 <= min < 65536).

Lemma good_fail h0 h ret maj min : buf h = buf h0 -> ret = -1 \/ ret = 0 -> good h0 (Some (h, ret, maj, min)).
Proof. intros Hb Hr. exists h, ret, maj, min. lsplits; tauto. Qed.

(** The method has been found and the URL starts at [u_start]. *)
Definition half (h : HttpMsgBuf) : Prop :=
  0 <= m_start h /\ 0 < m_len h /\ m_start h + m_len h < u_start h /\ u_start h < req_end h /\
  req_end h < Z.of_nat (length (buf h)) /\ rd (buf h) (req_end h) = Some 10 /\
  req_start h = m_start h /\ r_len h = req_end h - m_start h + 1 /\
  all_in (fun c => negb (isspace c)) (buf h) (m_start h) (m_start h + m_len h) /\
  all_in (fun c => negb (c =? 10)) (buf h) 0 (req_end h).

Lemma parse_09_ok h line_end : half h -> u_start h < line_end <= req_end h -> good h (parse_09 h line_end).
Proof.
  intros Hh Hl. unfold half in Hh. unfold parse_09. cbn [set_u_end u_start u_end].
  destruct (Z.leb_spec (u_start h) (line_end - 1)); [|lia].
  eexists _, 1, 0, 9. split; [done|]. split; [done|]. split; [auto|]. intros _. split; [|split; [by left|lia]].
  unfold parsed. cbn. destruct Hh as (? & ? & ? & ? & ? & ? & ? & ? & ? & ?). lsplits.
Qed.

Lemma parse_version_ok h i last_ws :
  half h -> u_start h < last_ws <= req_end h -> last_ws < i -> i + 5 < req_end h -> all_in isspace (buf h) last_ws i -> at_http (buf h) i = true -> good h (parse_version h i last_ws).
Proof.
  intros Hh Hws Hi H5 Hsp Hat. assert (0 <= u_start h /\ req_end h < Z.of_nat (length (buf h))) as [? ?] by (unfold half in Hh; lia).
  unfold parse_version. cbn [set_v_start req_end].
  destruct (number_loop_ok (buf h) (req_end h) (length (buf h)) (i + 5) 0) as (j & maj & -> & Hj & Hm & Hd1 & Ev1); [lia..|]. bind_simpl.
  destruct (Z.leb_spec (req_end h) j); cbn [orb]; [apply good_fail; auto|].
  destruct (Z.leb_spec 65536 maj); [apply good_fail; auto|].
  destruct (rd_ok (buf h) j) as (c & Hc & _); [lia|]. rewrite Hc. bind_simpl. destruct (Z.eqb_spec c 46) as [->|]; cbn [negb]; [|apply good_fail; auto].
  destruct (Z.leb_spec (req_end h) (j + 1)); [apply good_fail; auto|].
  destruct (number_loop_ok (buf h) (req_end h) (length (buf h)) (j + 1) 0) as (k & min & -> & Hk & Hn & Hd2 & Ev2); [lia..|]. bind_simpl.
  destruct (Z.leb_spec 65536 min); [apply good_fail; auto|].
  eexists _, 1, maj, min. split; [done|]. split; [done|]. split; [auto|]. intros _. split; [|split; [|lia]].
  - unfold parsed, half in *. cbn. destruct Hh as (? & ? & ? & ? & ? & ? & ? & ? & ? & ?). lsplits.
  - right. cbn. replace (u_start h + (last_ws - 1 - u_start h + 1)) with last_ws by lia. split; [lia|]. split; [lia|]. split; [done|]. split; [done|]. split; [done|].
    exists (slice (buf h) (i + 5) (j - (i + 5))), (slice (buf h) (j + 1) (k - (j + 1))). split; [|done].
    replace (k - i - 5) with ((j - (i + 5)) + (k - j)) by lia. rewrite slice_app by lia. replace (i + 5 + (j - (i + 5))) with j by lia. f_equal. rewrite (slice_cons _ _ _ _ Hc) by lia. f_equal. f_equal. lia.
Qed.

Lemma memchr_ok b c t : memchr b c (length b) = Some t -> (t < length b)%nat /\ rd b (Z.of_nat t) = Some c /\
  forall k d, (k < t)%nat -> b !! k = Some d -> d <> c.
Proof.
  unfold memchr. rewrite take_ge by lia. set (f := fun d => negb (d =? c)). pose proof (span_take f b) as Ht.
  destruct (Nat.ltb_spec (span f b) (length b)) as [Hlt|]; [|done]. intros [= <-]. split; [done|]. split.
  - destruct (lookup_lt_is_Some_2 b (span f b) Hlt) as [d Hd]. unfold rd. destruct (Z.leb_spec 0 (Z.of_nat (span f b))); [|lia].
    rewrite Nat2Z.id, Hd. pose proof (drop_S _ _ _ Hd) as Hdr. apply span_drop in Hdr. unfold f in Hdr. apply negb_false_iff, Z.eqb_eq in Hdr. by subst.
  - intros k d Hk Hd ->. eapply Forall_lookup_1 in Ht; [|rewrite lookup_take_lt by done; exact Hd].
    unfold f in Ht. by rewrite Z.eqb_refl in Ht.
Qed.

Create Rewrite HintDb lusca_msg.

(** Setting other fields leaves [req_end]. *)
Lemma req_end_req e h : req_end (set_req_end e h) = e. Proof. done. Qed.
Lemma req_end_ms i h : req_end (set_method_start i h) = req_end h. Proof. done. Qed.
Lemma req_end_me i h : req_end (set_method_end i h) = req_end h. Proof. done. Qed.
Lemma req_end_us i h : req_end (set_u_start i h) = req_end h. Proof. done. Qed.
#[local] Hint Rewrite req_end_req req_end_ms req_end_me req_end_us : lusca_msg.

Lemma parse_request_line_ok h : good h (parse_request_line h).
Proof.
  unfold parse_request_line. destruct (memchr (buf h) 10 (length (buf h))) as [t|] eqn:Et; [|apply good_fail; auto].
  destruct (memchr_ok _ _ _ Et) as (Ht & Hnl & Hfst).
  assert (all_in (fun c => negb (c =? 10)) (buf h) 0 (Z.of_nat t)) as Hno.
  { intros k c Hk Hc. unfold rd in Hc. destruct (Z.leb_spec 0 k); [|lia]. apply negb_true_iff, Z.eqb_neq. by eapply (Hfst (Z.to_nat k)); [lia|]. } autorewrite with lusca_msg.
  destruct (scan_ok isspace (buf h) (Z.of_nat t) (length (buf h)) 0) as (i & -> & Hi & _ & Hi2); [lia..|]. bind_simpl. autorewrite with lusca_msg.
  destruct (Z.leb_spec (Z.of_nat t) i); [apply good_fail; auto|]. destruct Hi2 as (c1 & Hc1 & Hs1); [lia|]. autorewrite with lusca_msg.
  destruct (scan_ok (fun c => negb (isspace c)) (buf h) (Z.of_nat t) (length (buf h)) i) as (j & -> & Hj & Hall & Hj2); [lia..|]. bind_simpl. autorewrite with lusca_msg.
  destruct (Z.leb_spec (Z.of_nat t) j); [apply good_fail; auto|]. destruct Hj2 as (c2 & Hc2 & Hs2); [lia|]. autorewrite with lusca_msg.
  assert (i < j) as Hij. { destruct (decide (i = j)) as [->|]; [|lia]. rewrite Hc1 in Hc2. simplify_eq. by rewrite Hs1 in Hs2. }
  destruct (scan_ok isspace (buf h) (Z.of_nat t) (length (buf h)) j) as (k & -> & Hk & _ & Hk2); [lia..|]. bind_simpl. autorewrite with lusca_msg.
  destruct (Z.leb_spec (Z.of_nat t) k); [apply good_fail; auto|]. destruct Hk2 as (c3 & Hc3 & Hs3); [lia|]. autorewrite with lusca_msg.
  assert (j < k) as Hjk. { destruct (decide (j = k)) as [->|]; [|lia]. rewrite Hc2 in Hc3. simplify_eq. by rewrite Hs3 in Hs2. }
  set (h' := set_u_start k _). change (good h) with (good h'). change (buf h) with (buf h').
  assert (half h') as Hh by (unfold half, h'; cbn; lsplits; by replace (i + (j - 1 - i + 1)) with j by lia).
  assert (u_start h' = k /\ req_end h' = Z.of_nat t) as [Eu Er] by done.
  destruct (line_loop_ok (buf h') (Z.of_nat t) (S (length (buf h'))) k (-1)) as (e & lw & -> & He & (ce & Hce & Hcr) & Hlw);
    [done|lia|change (buf h') with (buf h); lia|change (buf h') with (buf h); lia|lia|]. bind_simpl.
  destruct (Z.ltb_spec (Z.of_nat t) e); [lia|].
  assert (blank c3 = false /\ c3 <> 10 /\ c3 <> 13) as (Hb3 & H10 & H13).
  { unfold isspace in Hs3. apply orb_false_iff in Hs3 as [? Hs3]. apply andb_false_iff in Hs3. unfold blank.
    split; [apply orb_false_iff|]; zify_bools; destruct Hs3; zify_bools; split; lia. }
  assert (k < e) as Hke.
  { destruct (decide (k = e)) as [->|]; [|lia]. change (buf h') with (buf h) in Hce. rewrite Hc3 in Hce. simplify_eq. lia. }
  destruct (Z.eqb_spec lw (-1)) as [->|Hlw1]; [apply parse_09_ok; [done|lia]|].
  destruct Hlw as [[? _]|(Hlw & cw & Hcw & Hbw)]; [lia|].
  assert (k < lw). { destruct (decide (k = lw)) as [->|]; [|lia]. change (buf h') with (buf h) in Hcw. congruence. }
  destruct (scan_ok isspace (buf h') (Z.of_nat t + 1) (S (length (buf h'))) lw) as (v & -> & Hv & Hvs & Hv2);
    [lia|change (buf h') with (buf h); lia|change (buf h') with (buf h); lia|]. bind_simpl.
  destruct (Z.ltb_spec (Z.of_nat t) v); [apply good_fail; auto|].
  destruct (Z.leb_spec (Z.of_nat t) (v + 5)); cbn [orb]; [apply parse_09_ok; [done|lia]|].
  destruct (at_http (buf h') v) eqn:Eat; cbn [negb]; [|apply parse_09_ok; [done|lia]]. apply parse_version_ok; [done|lia| |lia|done|done].
  destruct (decide (lw = v)) as [->|]; [|lia]. destruct Hv2 as (cv & Hcv & Hsv); [lia|]. rewrite Hcw in Hcv. simplify_eq. unfold blank in Hbw. unfold isspace in Hsv. apply orb_false_iff in Hsv as [Hs32 Hsv]. apply andb_false_iff in Hsv. rewrite Hs32 in Hbw. cbn [orb] in Hbw. zify_bools. destruct Hsv; zify_bools; lia.
Qed.

(** *** The end of the headers

    [p] ends at a line start, or one CR after it; it ends with an empty line. *)
Definition line_start (p : bytes) : Prop := p = [] \/ exists q, p = q ++ [10].
Definition line_cr (p : bytes) : Prop := exists q, line_start q /\ p = q ++ [13].
Definition empty_line (p : bytes) : Prop := exists q, (line_start q \/ line_cr q) /\ p = q ++ [10].

(** What the automaton knows of what it has read: its state, and the newline it
    remembers. *)
Definition knows (p : bytes) (s he : Z) : Prop :=
  (s = 1 /\ line_start p /\ he = Z.of_nat (length p) - 1) \/
  (s = 2 /\ line_cr p /\ he = Z.of_nat (length p) - 2) \/
  (s = 0 /\ ~ line_start p /\ ~ line_cr p /\ -1 <= he < Z.of_nat (length p)).

Lemma snoc_inj (q p : bytes) c d : q ++ [c] = p ++ [d] -> q = p /\ c = d.
Proof. intros H. apply app_inj_tail in H. done. Qed.

Lemma line_start_snoc p c : line_start (p ++ [c]) <-> c = 10.
Proof.
  split; [|intros ->; right; eauto]. intros [H|[q H]]; [by destruct p|]. by apply snoc_inj in H as [_ ?].
Qed.

Lemma line_cr_snoc p c : line_cr (p ++ [c]) <-> line_start p /\ c = 13.
Proof.
  split; [|intros [? ->]; exists p; auto]. intros (q & Hq & H). by apply snoc_inj in H as [-> ->].
Qed.

Lemma empty_line_snoc p c : empty_line (p ++ [c]) <-> (line_start p \/ line_cr p) /\ c = 10.
Proof.
  split; [|intros [? ->]; exists p; auto]. intros (q & Hq & H). by apply snoc_inj in H as [-> ->].
Qed.

Lemma step_knows p s he c :
  knows p s he ->
  (step s c = 3 /\ empty_line (p ++ [c]) /\ (s = 1 \/ s = 2)) \/
  (~ empty_line (p ++ [c]) /\ knows (p ++ [c]) (step s c) (if (s =? 0) && (c =? 10) then Z.of_nat (length p) else he)).
Proof.
  intros Hk. rewrite empty_line_snoc. unfold knows at 1. rewrite line_start_snoc, line_cr_snoc, length_app. cbn [length].
  assert (forall q, line_start q -> line_cr q -> False) as Hexcl.
  { intros q [->|[q' ->]] (r & _ & Hr); [by destruct r|]. by apply snoc_inj in Hr as [_ ?]. }
  destruct Hk as [(-> & Hp & Hhe)|[(-> & Hp & Hhe)|(-> & H1 & H2 & Hhe)]]; unfold step; cbn [Z.eqb Pos.eqb andb].
  - destruct (Z.eqb_spec c 13) as [->|]; [right; split; [lia|]; right; left; lsplits|].
    destruct (Z.eqb_spec c 10) as [->|]; [left; auto|]. right. split; [tauto|]. right; right. lsplits; tauto.
  - destruct (Z.eqb_spec c 10) as [->|]; [left; auto|]. right. split; [tauto|]. right; right.
    assert (1 <= length p)%nat by (destruct Hp as (q & _ & ->); rewrite length_app; cbn; lia). lsplits. intros [? _]. by eapply Hexcl.
  - right. split; [tauto|]. destruct (Z.eqb_spec c 10) as [->|]; [left; lsplits|]. right; right. lsplits; tauto.
Qed.

(** The loop stops at the first empty line or at the end of the buffer; at an
    empty line it remembers where that line starts. *)
Lemma end_loop_ok mime : forall p s he, knows p s he ->
  exists e s' he', end_loop mime (Z.of_nat (length p)) s he = (e, s', he') /\
  ((exists k, (0 < k <= length mime)%nat /\ e = Z.of_nat (length p + k) /\ s' = 3 /\ empty_line (p ++ take k mime) /\
      (forall j, (0 < j < k)%nat -> ~ empty_line (p ++ take j mime)) /\
      exists q, line_start q /\ he' = Z.of_nat (length q) - 1 /\
        (p ++ take k mime = q ++ [10] \/ p ++ take k mime = q ++ [13; 10])) \/
   (s' <> 3 /\ forall j, (0 < j <= length mime)%nat -> ~ empty_line (p ++ take j mime))).
Proof.
  induction mime as [|c mime IH]; intros p s he Hk.
  { exists (Z.of_nat (length p)), s, he. split; [done|]. right. cbn [length]. split; [|lia]. unfold knows in Hk. lia. }
  assert (s <? 3 = true) as Hs by (unfold knows in Hk; apply Z.ltb_lt; lia). cbn [end_loop]. rewrite Hs.
  destruct (step_knows p s he c Hk) as [(H3 & Hel & H12)|[Hne Hk']].
  - rewrite H3. assert (s =? 0 = false) as -> by (apply Z.eqb_neq; lia). cbn [andb].
    exists (Z.of_nat (length p) + 1), 3, he. split; [by destruct mime|]. left. exists 1%nat. cbn [take length].
    lsplits. unfold knows in Hk. destruct Hk as [(_ & Hls & ->)|[(_ & (q & Hq & ->) & ->)|(-> & _)]]; [| |lia].
    + exists p. apply empty_line_snoc in Hel as [_ ->]. splits. by left.
    + exists q. apply empty_line_snoc in Hel as [_ ->]. rewrite length_app. cbn [length]. lsplits. right. by rewrite <- app_assoc.
  - specialize (IH _ _ _ Hk'). rewrite length_app in IH. cbn [length] in IH.
    replace (Z.of_nat (length p + 1)) with (Z.of_nat (length p) + 1) in IH by lia.
    destruct IH as (e & s' & he' & He & Hor). exists e, s', he'. split; [done|].
    destruct Hor as [(k & Hkr & -> & -> & Hel & Hmin & q & Hq)|(Hs' & Hno)].
    + left. exists (S k). cbn [take length]. rewrite <- app_assoc in Hel, Hq. cbn [app] in Hel, Hq. lsplits; [|by exists q].
      intros [|j] Hj; [lia|]. cbn [take]. destruct j as [|j]; [done|].
      specialize (Hmin (S j)). rewrite <- app_assoc in Hmin. apply Hmin. lia.
    + right. split; [done|]. cbn [length]. intros [|j] Hj; [lia|]. cbn [take]. destruct j as [|j]; [done|].
      specialize (Hno (S j)). rewrite <- app_assoc in Hno. apply Hno. lia.
Qed.

Lemma knows_init : knows [] 1 (-1).
Proof. left. splits. by left. Qed.

(** *** Reading a well-formed line *)

Abbreviation zlen l := (Z.of_nat (length l)).

Lemma rd_app (pre : bytes) c post : rd (pre ++ c :: post) (zlen pre) = Some c.
Proof.
  unfold rd. destruct (Z.leb_spec 0 (zlen pre)); [|lia]. rewrite Nat2Z.id, lookup_app_r by lia. by rewrite Nat.sub_diag.
Qed.

(** Moving on by one byte. *)
Lemma app_shift (pre : bytes) x (l : bytes) : pre ++ x :: l = (pre ++ [x]) ++ l.
Proof. by rewrite <- app_assoc. Qed.

Lemma scan_run f (w : bytes) : forall pre c post lim fuel,
  Forall (fun x => f x = true) w -> f c = false -> zlen pre + zlen w < lim -> (length w < fuel)%nat ->
  scan fuel f (pre ++ w ++ c :: post) (zlen pre) lim = Some (zlen pre + zlen w).
Proof.
  induction w as [|x w IH]; intros pre c post lim [|fuel] Hw Hc Hl Hf; cbn [length] in *; try lia; cbn [scan app].
  - destruct (Z.ltb_spec (zlen pre) lim); [|lia]. rewrite rd_app. bind_simpl. rewrite Hc. f_equal. lia.
  - destruct (Z.ltb_spec (zlen pre) lim); [|lia]. rewrite rd_app. bind_simpl. apply List.Forall_cons_iff in Hw as [-> Hw].
    rewrite app_shift. specialize (IH (pre ++ [x]) c post lim fuel Hw Hc). rewrite length_app in IH. cbn [length] in IH.
    replace (zlen pre + 1) with (Z.of_nat (length pre + 1)) by lia. rewrite IH by lia. f_equal. lia.
Qed.

Definition plain (c : Z) : bool := negb (isspace c).

Lemma plain_ok c : plain c = true -> c <> 10 /\ c <> 13 /\ blank c = false.
Proof.
  unfold plain, isspace, blank. intros H. apply negb_true_iff, orb_false_iff in H as [H1 H2].
  apply andb_false_iff in H2. split; [|split; [|apply orb_false_iff]]; destruct H2; zify_bools; lia.
Qed.

Lemma line_run (w : bytes) : forall pre post re fuel lw,
  Forall (fun x => plain x = true) w -> zlen pre + zlen w <= re ->
  line_loop (length w + fuel) (pre ++ w ++ post) (zlen pre) re lw = line_loop fuel (pre ++ w ++ post) (zlen pre + zlen w) re lw.
Proof.
  induction w as [|x w IH]; intros pre post re fuel lw Hw Hl; cbn [length] in *; [cbn [Nat.add]; by rewrite Z.add_0_r|].
  apply List.Forall_cons_iff in Hw as [Hx Hw]. destruct (plain_ok _ Hx) as (H10 & H13 & Hb).
  cbn [Nat.add line_loop app]. destruct (Z.leb_spec (zlen pre) re); [|lia]. rewrite rd_app. bind_simpl.
  destruct (Z.eqb_spec x 10); [done|]. destruct (Z.eqb_spec x 13); [done|]. bind_simpl.
  change ((x =? 32) || (x =? 9)) with (blank x). rewrite Hb, app_shift.
  specialize (IH (pre ++ [x]) post re fuel lw Hw). rewrite length_app in IH. cbn [length] in IH.
  replace (zlen pre + 1) with (Z.of_nat (length pre + 1)) by lia. rewrite IH by lia. f_equal. lia.
Qed.

Lemma line_blank pre c post re fuel lw :
  blank c = true -> zlen pre <= re ->
  line_loop (S fuel) (pre ++ c :: post) (zlen pre) re lw = line_loop fuel (pre ++ c :: post) (zlen pre + 1) re (zlen pre).
Proof.
  intros Hb Hl. cbn [line_loop]. destruct (Z.leb_spec (zlen pre) re); [|lia]. rewrite rd_app. bind_simpl.
  assert (c <> 10 /\ c <> 13) as [H10 H13] by (unfold blank in Hb; apply orb_true_iff in Hb; destruct Hb; zify_bools; lia).
  destruct (Z.eqb_spec c 10); [done|]. destruct (Z.eqb_spec c 13); [done|]. bind_simpl.
  change ((c =? 32) || (c =? 9)) with (blank c). by rewrite Hb.
Qed.

Lemma digits_mono l n : 0 <= n -> Forall (fun c => isdigit c = true) l -> n <= digits n l.
Proof.
  revert n. induction l as [|c l IH]; intros n Hn Hl; cbn [digits]; [lia|].
  apply List.Forall_cons_iff in Hl as [Hc Hl]. rewrite Hc. unfold isdigit in Hc. zify_bools.
  etransitivity; [|apply IH; [lia|done]]. lia.
Qed.

Lemma number_run (w : bytes) : forall pre c post lim fuel n,
  Forall (fun x => isdigit x = true) w -> isdigit c = false -> zlen pre + zlen w < lim -> (length w < fuel)%nat ->
  0 <= n -> digits n w < 65536 ->
  number_loop fuel (pre ++ w ++ c :: post) (zlen pre) lim n = Some (zlen pre + zlen w, digits n w).
Proof.
  induction w as [|x w IH]; intros pre c post lim [|fuel] n Hw Hc Hl Hf Hn Hd; cbn [length] in *; try lia; cbn [number_loop app].
  - destruct (Z.ltb_spec (zlen pre) lim); [|lia]. rewrite rd_app. bind_simpl. rewrite Hc. cbn. do 2 f_equal. lia.
  - destruct (Z.ltb_spec (zlen pre) lim); [|lia]. rewrite rd_app. bind_simpl. apply List.Forall_cons_iff in Hw as [Hx Hw].
    pose proof (digits_mono (x :: w) n Hn (List.Forall_cons _ _ _ Hx Hw)) as Hm. cbn [digits] in *. rewrite Hx in *.
    unfold isdigit in Hx. zify_bools. destruct (Z.ltb_spec n 65536); [|lia]. cbn [andb].
    rewrite app_shift. specialize (IH (pre ++ [x]) c post lim fuel (n * 10 + x - 48) Hw Hc). rewrite length_app in IH. cbn [length] in IH.
    replace (10 * n + (x - 48)) with (n * 10 + x - 48) in * by lia.
    replace (zlen pre + 1) with (Z.of_nat (length pre + 1)) by lia. rewrite IH by lia. do 2 f_equal. lia.
Qed.

Lemma memchr_app (l post : bytes) c : Forall (fun x => x <> c) l -> memchr (l ++ c :: post) c (length (l ++ c :: post)) = Some (length l).
Proof.
  intros Hl. unfold memchr. rewrite take_ge by lia. rewrite span_app.
  - rewrite span_stop by (by rewrite Z.eqb_refl). rewrite Nat.add_0_r.
    destruct (Nat.ltb_spec (length l) (length (l ++ c :: post))) as [|Hge]; [done|]. rewrite length_app in Hge. cbn [length] in Hge. lia.
  - eapply List.Forall_impl; [|exact Hl]. cbn. intros x Hx. by apply negb_true_iff, Z.eqb_neq.
Qed.

(** The line of a request as a client sends it. *)
Definition request_line (m u : bytes) (maj min : Z) : bytes :=
  m ++ 32 :: u ++ 32 :: str "HTTP/" ++ dec maj ++ 46 :: dec min ++ CRLF.

Lemma digits_plain l : Forall (fun c => isdigit c = true) l -> Forall (fun c => plain c = true) l.
Proof.
  intros Hl. eapply List.Forall_impl; [|exact Hl]. cbn. intros c Hc. unfold isdigit in Hc. zify_bools. unfold plain, isspace.
  apply negb_true_iff, orb_false_iff. split; [lia|]. apply andb_false_iff. lia.
Qed.

Lemma plain_not c x : plain c = true -> isspace x = true -> c <> x.
Proof. unfold plain. intros H1 H2 ->. by rewrite H2 in H1. Qed.

(** The end of the line: CR LF. *)
Lemma line_crlf pre post re fuel lw :
  zlen pre <= re -> line_loop (S fuel) (pre ++ 13 :: 10 :: post) (zlen pre) re lw = Some (zlen pre, zlen pre, lw).
Proof.
  intros Hl. cbn [line_loop]. destruct (Z.leb_spec (zlen pre) re); [|lia]. rewrite rd_app. bind_simpl. cbn [Z.eqb Pos.eqb].
  rewrite app_shift. pose proof (rd_app (pre ++ [13]) 10 post) as Hr. rewrite length_app in Hr. cbn [length] in Hr.
  replace (zlen pre + 1) with (Z.of_nat (length pre + 1)) by lia. rewrite Hr. done.
Qed.

Lemma line_loop_request pre u v post re lw fuel :
  Forall (fun c => plain c = true) u -> Forall (fun c => plain c = true) v ->
  re = zlen pre + zlen u + 1 + zlen v + 1 -> (length u + length v + 2 < fuel)%nat ->
  line_loop fuel (pre ++ u ++ 32 :: v ++ 13 :: 10 :: post) (zlen pre) re lw =
    Some (zlen pre + zlen u + 1 + zlen v, zlen pre + zlen u + 1 + zlen v, zlen pre + zlen u).
Proof.
  intros Hu Hv -> Hf. replace fuel with (length u + (S (length v + S (fuel - length u - length v - 2))))%nat by lia.
  rewrite line_run by (done || lia).
  pose proof (line_blank (pre ++ u) 32 (v ++ 13 :: 10 :: post) (zlen pre + zlen u + 1 + zlen v + 1) (length v + S (fuel - length u - length v - 2)) lw) as Hb.
  rewrite length_app, <- app_assoc, Nat2Z.inj_add in Hb. rewrite Hb by (done || lia).
  pose proof (line_run v (pre ++ u ++ [32]) (13 :: 10 :: post) (zlen pre + zlen u + 1 + zlen v + 1) (S (fuel - length u - length v - 2)) (zlen pre + zlen u)) as Hr.
  rewrite !length_app, <- !app_assoc in Hr. cbn [length app] in Hr.
  replace (Z.of_nat (length pre + (length u + 1))) with (zlen pre + zlen u + 1) in Hr by lia. rewrite Hr by (done || lia).
  pose proof (line_crlf (pre ++ u ++ 32 :: v) post (zlen pre + zlen u + 1 + zlen v + 1) (fuel - length u - length v - 2) (zlen pre + zlen u)) as He.
  rewrite !length_app, <- !app_assoc in He. cbn [length] in He. rewrite <- app_comm_cons in He.
  replace (Z.of_nat (length pre + (length u + S (length v)))) with (zlen pre + zlen u + 1 + zlen v) in He by lia. apply He. lia.
Qed.

Lemma parse_version_request h pre maj min rest last_ws :
  buf h = pre ++ str "HTTP/" ++ dec maj ++ 46 :: dec min ++ CRLF ++ rest ->
  req_end h = zlen pre + 5 + zlen (dec maj) + 1 + zlen (dec min) + 1 ->
  0 <= maj < 65536 -> 0 <= min < 65536 ->
  exists h', parse_version h (zlen pre) last_ws = Some (h', 1, maj, min) /\ buf h' = buf h /\ m_start h' = m_start h /\
    m_len h' = m_len h /\ u_start h' = u_start h /\ u_len h' = last_ws - 1 - u_start h + 1 /\ r_len h' = r_len h /\ req_end h' = req_end h.
Proof.
  intros Hb Hre Hmaj Hmin. destruct (dec_spec maj) as (Hn1 & Hd1 & Hv1); [lia|]. destruct (dec_spec min) as (Hn2 & Hd2 & Hv2); [lia|].
  unfold parse_version. cbn [set_v_start req_end]. rewrite Hre.
  assert (length (buf h) = (length pre + 5 + length (dec maj) + 1 + length (dec min) + 2 + length rest)%nat) as Hlen.
  { rewrite Hb, !length_app. cbn [length]. rewrite !length_app. cbn [length str CRLF]. lia. }
  pose proof (number_run (dec maj) (pre ++ str "HTTP/") 46 (dec min ++ CRLF ++ rest)
    (zlen pre + 5 + zlen (dec maj) + 1 + zlen (dec min) + 1) (length (buf h)) 0 Hd1 eq_refl) as H1.
  rewrite length_app, Hv1, <- app_assoc, <- Hb in H1. cbn [length str] in H1.
  replace (Z.of_nat (length pre + 5)) with (zlen pre + 5) in H1 by lia. rewrite H1 by lia. bind_simpl.
  set (j := zlen pre + 5 + zlen (dec maj)).
  destruct (Z.leb_spec (j + 1 + zlen (dec min) + 1) j); [lia|]. destruct (Z.leb_spec 65536 maj); [lia|]. cbn [orb].
  pose proof (rd_app (pre ++ str "HTTP/" ++ dec maj) 46 (dec min ++ CRLF ++ rest)) as H46.
  rewrite !length_app, <- !app_assoc, <- Hb in H46. cbn [length str] in H46.
  replace (Z.of_nat (length pre + (5 + length (dec maj)))) with j in H46 by (unfold j; lia). rewrite H46. bind_simpl. cbn [Z.eqb Pos.eqb negb].
  assert (1 <= zlen (dec min)) by (destruct (dec min); [done|cbn [length]; lia]).
  destruct (Z.leb_spec (j + 1 + zlen (dec min) + 1) (j + 1)); [lia|].
  pose proof (number_run (dec min) (pre ++ str "HTTP/" ++ dec maj ++ [46]) 13 (10 :: rest) (j + 1 + zlen (dec min) + 1) (length (buf h)) 0 Hd2 eq_refl) as Hmn.
  rewrite !length_app, Hv2, <- !app_assoc in Hmn. cbn [length app] in Hmn.
  change (length (str "HTTP/")) with 5%nat in Hmn. change (13 :: 10 :: rest) with (CRLF ++ rest) in Hmn.
  rewrite <- Hb in Hmn. replace (Z.of_nat (length pre + (5 + (length (dec maj) + 1)))) with (j + 1) in Hmn by (unfold j; lia).
  rewrite Hmn by lia. bind_simpl. destruct (Z.leb_spec 65536 min); [lia|]. eexists. split; [done|]. done.
Qed.

(** Equality of concatenations. *)
Ltac napp := repeat (progress (rewrite <- ?app_assoc; cbn [app])); done.

(** The newline that ends the line is the first. *)
Lemma request_memchr b m u v rest :
  Forall (fun c => plain c = true) m -> Forall (fun c => plain c = true) u -> Forall (fun c => plain c = true) v ->
  b = m ++ 32 :: u ++ 32 :: v ++ 13 :: 10 :: rest ->
  memchr b 10 (length b) = Some (Z.to_nat (zlen m + 1 + zlen u + 1 + zlen v + 1)).
Proof.
  intros Hpm Hpu Hpv Hb'. pose proof (memchr_app (m ++ 32 :: u ++ 32 :: v ++ [13]) rest 10) as H.
  assert ((m ++ 32 :: u ++ 32 :: v ++ [13]) ++ 10 :: rest = b) as He by (rewrite Hb'; napp).
  rewrite He in H. rewrite H.
  - f_equal. rewrite !length_app. cbn [length]. rewrite !length_app. cbn [length]. rewrite !length_app. cbn [length]. lia.
  - rewrite !List.Forall_app, !List.Forall_cons_iff, !List.Forall_app, !List.Forall_cons_iff, !List.Forall_app, !List.Forall_cons_iff.
    splits; try (by apply List.Forall_nil); eapply List.Forall_impl; try eassumption; cbn; intros c Hc; by apply plain_not with (x := 10).
Qed.

Lemma request_line_parses h m u maj min rest :
  m <> [] -> u <> [] -> Forall (fun c => plain c = true) m -> Forall (fun c => plain c = true) u ->
  0 <= maj < 65536 -> 0 <= min < 65536 -> buf h = request_line m u maj min ++ rest ->
  exists h', parse_request_line h = Some (h', 1, maj, min) /\ buf h' = buf h /\ m_start h' = 0 /\ m_len h' = zlen m /\
    u_start h' = zlen m + 1 /\ u_len h' = zlen u /\ r_len h' = zlen (request_line m u maj min).
Proof.
  intros Hm Hu Hpm Hpu Hmaj Hmin Hb.
  destruct (dec_spec maj) as (_ & Hd1 & _); [lia|]. destruct (dec_spec min) as (_ & Hd2 & _); [lia|].
  set (v := str "HTTP/" ++ dec maj ++ 46 :: dec min).
  assert (Forall (fun c => plain c = true) v) as Hpv.
  { unfold v. rewrite !List.Forall_app, List.Forall_cons_iff. splits; try (by apply digits_plain). repeat constructor. }
  assert (buf h = m ++ 32 :: u ++ 32 :: v ++ 13 :: 10 :: rest) as Hb'.
  { rewrite Hb. unfold request_line, v, CRLF. napp. }
  assert (zlen v = 5 + zlen (dec maj) + 1 + zlen (dec min)) as Hlv by (unfold v; rewrite !length_app; cbn [length str]; lia).
  set (re := zlen m + 1 + zlen u + 1 + zlen v + 1).
  assert (zlen (request_line m u maj min) = re + 1) as Hrl.
  { unfold request_line, re. rewrite Hlv. rewrite !length_app. cbn [length]. rewrite !length_app. cbn [length]. rewrite !length_app. cbn [length str CRLF]. rewrite !length_app. cbn [length CRLF]. lia. }
  assert (zlen (buf h) = re + 1 + zlen rest) as Hlen by (rewrite Hb, length_app, Nat2Z.inj_add, Hrl; lia).
  destruct m as [|m0 m']; [done|]. destruct u as [|u0 u']; [done|]. set (m := m0 :: m') in *. set (u := u0 :: u') in *.
  pose proof (request_memchr (buf h) m u v rest Hpm Hpu Hpv Hb') as Hmem. fold re in Hmem.
  unfold parse_request_line. rewrite Hmem. autorewrite with lusca_msg. rewrite Z2Nat.id by (unfold re; lia).
  assert (isspace m0 = false /\ isspace u0 = false) as [Hm0 Hu0].
  { apply List.Forall_cons_iff in Hpm as [Hm0 _]. apply List.Forall_cons_iff in Hpu as [Hu0 _]. unfold plain in *. by zify_bools. }
  assert (scan (length (buf h)) isspace (buf h) 0 re = Some 0) as ->.
  { rewrite Hb' at 2. apply (scan_run isspace [] [] m0 (m' ++ 32 :: u ++ 32 :: v ++ 13 :: 10 :: rest)); [constructor|done|cbn; unfold re; lia|cbn; lia]. }
  bind_simpl. destruct (Z.leb_spec re 0); [unfold re in *; lia|]. autorewrite with lusca_msg.
  assert (scan (length (buf h)) (fun c => negb (isspace c)) (buf h) 0 re = Some (zlen m)) as ->.
  { rewrite Hb' at 2. apply (scan_run (fun c => negb (isspace c)) m [] 32 (u ++ 32 :: v ++ 13 :: 10 :: rest)); [done|done|cbn [length]; unfold re; lia|lia]. }
  bind_simpl. autorewrite with lusca_msg. destruct (Z.leb_spec re (zlen m)); [unfold re in *; lia|]. autorewrite with lusca_msg.
  assert (scan (length (buf h)) isspace (buf h) (zlen m) re = Some (zlen m + 1)) as ->.
  { rewrite Hb' at 2. apply (scan_run isspace [32] m u0 (u' ++ 32 :: v ++ 13 :: 10 :: rest)); [by repeat constructor|done|cbn [length]; unfold re; lia|cbn [length]; lia]. }
  bind_simpl. autorewrite with lusca_msg. destruct (Z.leb_spec re (zlen m + 1)); [unfold re in *; lia|]. autorewrite with lusca_msg.
  pose proof (line_loop_request (m ++ [32]) u v rest re (-1) (S (length (buf h))) Hpu Hpv) as Hll.
  rewrite length_app, <- app_assoc in Hll. cbn [length app] in Hll. rewrite <- Hb' in Hll.
  replace (Z.of_nat (length m + 1)) with (zlen m + 1) in Hll by lia. rewrite Hll by (unfold re in *; lia). bind_simpl.
  autorewrite with lusca_msg. destruct (Z.ltb_spec re (zlen m + 1 + zlen u + 1 + zlen v)); [unfold re in *; lia|].
  destruct (Z.eqb_spec (zlen m + 1 + zlen u) (-1)); [lia|].
  pose proof (scan_run isspace [32] (m ++ 32 :: u) 72 (84 :: 84 :: 80 :: 47 :: dec maj ++ 46 :: dec min ++ 13 :: 10 :: rest) (re + 1) (S (length (buf h)))) as Hsc.
  assert ((m ++ 32 :: u) ++ [32] ++ 72 :: 84 :: 84 :: 80 :: 47 :: dec maj ++ 46 :: dec min ++ 13 :: 10 :: rest = buf h) as He.
  { rewrite Hb'. unfold v. change (str "HTTP/") with [72; 84; 84; 80; 47]. napp. }
  rewrite He in Hsc. rewrite length_app in Hsc. cbn [length] in Hsc.
  replace (Z.of_nat (length m + S (length u))) with (zlen m + 1 + zlen u) in Hsc by lia.
  rewrite Hsc by (done || (by repeat constructor) || (unfold re; lia) || lia). change (Z.of_nat 1) with 1. bind_simpl. clear Hsc.
  destruct (Z.ltb_spec re (zlen m + 1 + zlen u + 1)); [unfold re in *; lia|].
  destruct (Z.leb_spec re (zlen m + 1 + zlen u + 1 + 5)); [unfold re in *; lia|]. cbn [orb].
  assert (zlen m + 1 + zlen u + 1 = zlen (m ++ 32 :: u ++ [32])) as Hpre by (rewrite length_app; cbn [length]; rewrite length_app; cbn [length]; lia).
  assert (buf h = (m ++ 32 :: u ++ [32]) ++ str "HTTP/" ++ dec maj ++ 46 :: dec min ++ CRLF ++ rest) as Hb2.
  { rewrite Hb'. unfold v, CRLF. napp. }
  rewrite Hpre. assert (at_http (buf h) (zlen (m ++ 32 :: u ++ [32])) = true) as ->.
  { unfold at_http. rewrite Nat2Z.id, Hb2, drop_app_length. reflexivity. }
  cbn [negb].
  edestruct (parse_version_request (set_u_start (zlen m + 1) (set_method_end (zlen m - 1) (set_method_start 0 (set_req_end re h))))
    (m ++ 32 :: u ++ [32]) maj min rest (zlen m + 1 + zlen u)) as (h' & -> & K1 & K2 & K3 & K4 & K5 & K6 & _);
    [done|cbn [req_end set_u_start set_method_end set_method_start set_req_end]; rewrite <- Hpre; unfold re; lia|done|done|].
  exists h'. cbn in K1, K2, K3, K4, K5, K6.
  assert (length m = S (length m')) as Lm by done. assert (length u = S (length u')) as Lu by done. rewrite Hrl. lsplits.
Qed.

(** *** From the first line to the header block *)

Lemma find_headers_end_ok h : (v_maj h =? 0) && (v_min h =? 9) = false ->
  exists h' e, httpMsgFindHeadersEnd h = (h', e) /\ e = headersEnd (buf h) /\ buf h' = buf h /\ req_end h' = req_end h /\
  (e <> 0 -> exists q eol, line_start q /\ (eol = [10] \/ eol = [13; 10]) /\ take (Z.to_nat e) (buf h) = q ++ eol /\
    0 < e <= zlen (buf h) /\ h_end h' = zlen q - 1 /\ h_start h' = req_end h + 1).
Proof.
  intros Hv. unfold httpMsgFindHeadersEnd, headersEnd. rewrite Hv.
  destruct (end_loop_ok (buf h) [] 1 (-1) knows_init) as (e & s & he & He & Hor). cbn [length] in He. change (Z.of_nat 0) with 0 in He.
  rewrite He. destruct Hor as [(k & Hk & -> & -> & _ & _ & q & Hq & -> & Heq)|(Hs & _)].
  - cbn [Z.eqb Pos.eqb]. eexists _, _. split; [done|]. lsplits. intros _. cbn [Nat.add app] in *.
    rewrite Nat2Z.id. destruct Heq as [Heq|Heq]; [exists q, [10]|exists q, [13; 10]]; cbn [length Nat.add]; lsplits; auto.
  - destruct (Z.eqb_spec s 3); [done|]. eexists _, _. split; [done|]. lsplits.
Qed.

Lemma rd_take b n i : 0 <= i < Z.of_nat n -> rd (take n b) i = rd b i.
Proof. intros Hi. unfold rd. destruct (0 <=? i); [|done]. rewrite lookup_take_lt by lia. done. Qed.

(** The first line ends before the empty line does. *)
Lemma req_end_before h e q eol :
  parsed h -> line_start q -> eol = [10] \/ eol = [13; 10] -> take (Z.to_nat e) (buf h) = q ++ eol -> 0 < e <= zlen (buf h) ->
  req_end h < zlen q.
Proof.
  intros (Hm & Hml & Hmu & Hul & Hue & Hre & Hnl & _ & _ & Hpl & Hno) Hq Heol Htake He.
  destruct (Z.lt_ge_cases (req_end h) (zlen q)) as [|Hge]; [done|]. exfalso.
  pose proof (f_equal length Htake) as Hlen. rewrite length_take, length_app in Hlen.
  destruct Hq as [->|[q' ->]].
  - cbn [app length] in *. assert (exists c, rd (buf h) 0 = Some c /\ isspace c = true /\ (c = 10 \/ (c = 13 /\ rd (buf h) 1 = Some 10))) as (c & Hc & Hsp & Hcase).
    { rewrite <- (rd_take (buf h) (Z.to_nat e)) by lia. rewrite Htake. destruct Heol as [->| ->]; cbn [length] in *.
      - exists 10. auto.
      - exists 13. splits. right. split; [done|]. rewrite <- (rd_take (buf h) (Z.to_nat e)) by lia. by rewrite Htake. }
    assert (req_end h <= 1) as H1.
    { destruct Hcase as [->|[-> Hc1]].
      - destruct (Z.lt_ge_cases 0 (req_end h)); [|lia]. specialize (Hno 0 10 ltac:(lia) Hc). done.
      - destruct (Z.lt_ge_cases 1 (req_end h)); [|lia]. specialize (Hno 1 10 ltac:(lia) Hc1). done. }
    assert (m_start h = 0) as Hm0 by lia. rewrite Hm0 in Hpl. specialize (Hpl 0 c ltac:(lia) Hc). cbn beta in Hpl. by rewrite Hsp in Hpl.
  - rewrite length_app in *. cbn [length] in *.
    assert (rd (buf h) (zlen q') = Some 10) as Hr.
    { rewrite <- (rd_take (buf h) (Z.to_nat e)) by lia. rewrite Htake, <- app_assoc. apply rd_app. }
    specialize (Hno (zlen q') 10 ltac:(lia) Hr). done.
Qed.

(** ** Properties *)

(** C25. Parsing the first line of a request never fails an assertion or reads
    outside the buffer, whatever the bytes are, and answers 1, 0 (more data
    needed) or -1.  When it answers 1, the method and the URL are non-empty
    parts of the first line, in this order and apart, the method is free of
    white space, and both version numbers are below 65536.  A version, if
    there is one, starts at [v_start], behind the URL and white space, and is
    "HTTP/", the digits of the major number, a dot and the digits of the minor
    number up to [v_end]; the code sets [v_len] to one more than its length.
    Without one the line is of HTTP/0.9, and these fields are left alone. *)
Theorem request_line_safe h :
  exists h' ret, httpMsgParseRequestLine h = Some (h', ret) /\ buf h' = buf h /\ (ret = -1 \/ ret = 0 \/ ret = 1) /\
    (ret = 1 -> parsed h' /\ version_placed h h' (v_maj h') (v_min h') /\ 0 <= v_maj h' < 65536 /\ 0 <= v_min h' < 65536).
Proof.
  unfold httpMsgParseRequestLine. destruct (parse_request_line_ok h) as (h' & ret & maj & min & -> & Hb & Hr & Hp).
  bind_simpl. exists (set_version maj min h'), ret. splits.
Qed.

(** C32. The request line a client sends reads back: method, URL and version come
    out as the parts they were printed from, and the line is consumed with its
    CR LF, whatever follows. *)
Theorem request_line_roundtrip h m u maj min rest :
  m <> [] -> u <> [] -> Forall (fun c => isspace c = false) m -> Forall (fun c => isspace c = false) u ->
  0 <= maj < 65536 -> 0 <= min < 65536 -> buf h = request_line m u maj min ++ rest ->
  exists h', httpMsgParseRequestLine h = Some (h', 1) /\
    slice (buf h') (m_start h') (m_len h') = m /\ slice (buf h') (u_start h') (u_len h') = u /\
    v_maj h' = maj /\ v_min h' = min /\ r_len h' = zlen (request_line m u maj min).
Proof.
  intros Hm Hu Hpm Hpu Hmaj Hmin Hb.
  assert (forall l, Forall (fun c => isspace c = false) l -> Forall (fun c => plain c = true) l) as Hpl.
  { intros l Hl. eapply List.Forall_impl; [|exact Hl]. unfold plain. cbn. by intros c ->. }
  destruct (request_line_parses h m u maj min rest) as (h' & Hp & Hb' & H1 & H2 & H3 & H4 & H5); auto.
  unfold httpMsgParseRequestLine. rewrite Hp. bind_simpl. eexists. split; [done|]. cbn. splits.
  - rewrite Hb', H1, H2, Hb. unfold slice, request_line. rewrite Nat2Z.id. cbn [Z.to_nat drop]. rewrite drop_0, <- app_assoc. by rewrite take_app_length.
  - rewrite Hb', H3, H4, Hb. unfold slice, request_line. rewrite Nat2Z.id.
    replace (Z.to_nat (zlen m + 1)) with (length (m ++ [32])) by (rewrite length_app; cbn; lia).
    replace ((m ++ 32 :: u ++ 32 :: str "HTTP/" ++ dec maj ++ 46 :: dec min ++ CRLF) ++ rest) with
      ((m ++ [32]) ++ u ++ (32 :: str "HTTP/" ++ dec maj ++ 46 :: dec min ++ CRLF) ++ rest) by napp.
    by rewrite drop_app_length, take_app_length.
Qed.

Lemma request_line_roundtrip_witness :
  exists h', httpMsgParseRequestLine (msg0 (request_line (str "GET") (str "http://a/") 1 1 ++ CRLF)) = Some (h', 1) /\
    slice (buf h') (u_start h') (u_len h') = str "http://a/" /\ v_maj h' = 1.
Proof.
  destruct (request_line_roundtrip (msg0 (request_line (str "GET") (str "http://a/") 1 1 ++ CRLF)) (str "GET") (str "http://a/") 1 1 CRLF)
    as (h' & H1 & _ & H2 & H3 & _); try done; try lia; [by repeat constructor|by repeat constructor|]. by exists h'.
Defined.

(** The end of the headers is the end of the first empty line, LF or CR LF
    after an LF or at the start, and 0 when there is none: the automaton finds
    exactly that. *)
Theorem headersEnd_correct b :
  (headersEnd b = 0 /\ forall j, ~ empty_line (take j b)) \/
  (exists k, (0 < k <= length b)%nat /\ headersEnd b = Z.of_nat k /\ empty_line (take k b) /\
    forall j, (j < k)%nat -> ~ empty_line (take j b)).
Proof.
  assert (~ empty_line []) as Hnil by (intros (q & _ & Hq); by destruct q).
  unfold headersEnd. destruct (end_loop_ok b [] 1 (-1) knows_init) as (e & s & he & He & Hor). cbn [length] in He.
  change (Z.of_nat 0) with 0 in He. rewrite He. destruct Hor as [(k & Hk & -> & -> & Hel & Hmin & _)|(Hs & Hno)].
  - right. exists k. lsplits. intros [|j] Hj; [done|]. apply (Hmin (S j)). lia.
  - left. destruct (Z.eqb_spec s 3); [done|]. split; [done|]. intros [|j]; [done|].
    destruct (decide (S j <= length b)%nat); [apply (Hno (S j)); lia|]. rewrite take_ge by lia.
    destruct b as [|c b]; [done|]. specialize (Hno (length (c :: b))). rewrite take_ge in Hno by lia. apply Hno. cbn. lia.
Qed.

(** A request with a first line of HTTP/1.0 or later is cut at the right
    places: when the end of the headers is found, the message is the first
    line, the block of bytes that is given to the header parser, and an empty
    line, up to the end that [headersEnd] finds; the block is inside the
    buffer. *)
Theorem request_header_block h h' e :
  parsed h -> (v_maj h =? 0) && (v_min h =? 9) = false -> httpMsgFindHeadersEnd h = (h', e) -> e <> 0 ->
  e = headersEnd (buf h) /\ h_start h' = req_end h + 1 /\ h_start h' <= h_end h' + 1 <= e /\ e <= zlen (buf h) /\
  exists eol, (eol = [10] \/ eol = [13; 10]) /\
    take (Z.to_nat e) (buf h) =
      take (Z.to_nat (req_end h + 1)) (buf h) ++ slice (buf h) (h_start h') (h_end h' + 1 - h_start h') ++ eol.
Proof.
  intros Hp Hv Hf Hne. destruct (find_headers_end_ok h Hv) as (h2 & e2 & Hf2 & He & Hb & _ & Hpost).
  rewrite Hf in Hf2. simplify_eq. destruct (Hpost Hne) as (q & eol & Hq & Heol & Htake & Hr & Hend & Hstart).
  pose proof (req_end_before h _ q eol Hp Hq Heol Htake Hr) as Hlt. pose proof Hp as (Hm & Hml & Hmu & Hul & Hue & _).
  pose proof (f_equal length Htake) as Hlen. rewrite length_take, length_app in Hlen.
  rewrite Hend, Hstart. lsplits. exists eol. split; [done|]. rewrite Htake, app_assoc. f_equal.
  assert (q = take (length q) (buf h)) as Hqb.
  { rewrite <- (take_app_length q eol), <- Htake at 1. rewrite take_take. f_equal. lia. }
  unfold slice. rewrite take_take_drop, Hqb at 1. f_equal. lia.
Qed.

Lemma request_header_block_witness :
  exists h h' e, buf h = str "GET / HTTP/1.0" ++ CRLF ++ str "A: b" ++ CRLF ++ CRLF ++ str "body" /\
    httpMsgFindHeadersEnd h = (h', e) /\ e = 24 /\ h_start h' <= h_end h' + 1 <= e.
Proof.
  destruct (parse_request_line_ok (msg0 (str "GET / HTTP/1.0" ++ CRLF ++ str "A: b" ++ CRLF ++ CRLF ++ str "body")))
    as (h & ret & maj & min & Hp & Hb & _ & Hok).
  vm_compute in Hp. injection Hp as <- <- <- <-. destruct (Hok eq_refl) as (Hpd & _).
  match type of Hpd with parsed ?h0 => pose (H0 := set_version 1 0 h0) end.
  assert (httpMsgFindHeadersEnd H0 = (fst (httpMsgFindHeadersEnd H0), 24)) as Hf by (vm_compute; reflexivity).
  exists H0, (fst (httpMsgFindHeadersEnd H0)), 24. split; [done|]. split; [exact Hf|]. split; [done|].
  exact (proj1 (proj2 (proj2 (request_header_block H0 _ 24 Hpd eq_refl Hf ltac:(done))))).
Defined.

(** A complete line whose version has no dot is answered with "more data
    needed" and not with an error. *)
Lemma version_without_dot :
  exists h, httpMsgParseRequestLine (msg0 (str "GET / HTTP/1" ++ CRLF ++ CRLF)) = Some (h, 0).
Proof. eexists. vm_compute. reflexivity. Qed.

(** Blanks before the version are part of the URL, and what follows the minor
    number is not looked at. *)
Lemma request_line_lenient :
  exists h, httpMsgParseRequestLine (msg0 (str "GET /a  HTTP/1.0junk" ++ CRLF)) = Some (h, 1) /\
    slice (buf h) (u_start h) (u_len h) = str "/a " /\ v_min h = 0.
Proof. eexists. split; [vm_compute; reflexivity|]. done. Qed.
End HttpMsg.
