(* ===== verification/HttpMethod.v ===== *)
(** * Request methods

    libhttp/HttpMethod.c.  A method that is not in the table is allocated; known
    methods are the entries of the table, which is indexed by their codes. *)

From Stdlib Require Import ZArith Lia.
From stdpp Require Import base strings list numbers option.
From S2P Require Import Prelude CStr.

Module HttpMethod.

(** [method_code_t]: the codes are the positions of the enumeration. *)
Definition METHOD_NONE : Z := 0.
Definition METHOD_GET : Z := 1.
Definition METHOD_POST : Z := 2.
Definition METHOD_PUT : Z := 3.
Definition METHOD_HEAD : Z := 4.
Definition METHOD_CONNECT : Z := 5.
Definition METHOD_TRACE : Z := 6.
Definition METHOD_PURGE : Z := 7.
Definition METHOD_OPTIONS : Z := 8.
Definition METHOD_DELETE : Z := 9.
Definition METHOD_PROPFIND : Z := 10.
Definition METHOD_PROPPATCH : Z := 11.
Definition METHOD_MKCOL : Z := 12.
Definition METHOD_COPY : Z := 13.
Definition METHOD_MOVE : Z := 14.
Definition METHOD_LOCK : Z := 15.
Definition METHOD_UNLOCK : Z := 16.
Definition METHOD_BMOVE : Z := 17.
Definition METHOD_BDELETE : Z := 18.
Definition METHOD_BPROPFIND : Z := 19.
Definition METHOD_BPROPPATCH : Z := 20.
Definition METHOD_BCOPY : Z := 21.
Definition METHOD_SEARCH : Z := 22.
Definition METHOD_SUBSCRIBE : Z := 23.
Definition METHOD_UNSUBSCRIBE : Z := 24.
Definition METHOD_POLL : Z := 25.
Definition METHOD_REPORT : Z := 26.
Definition METHOD_MKACTIVITY : Z := 27.
Definition METHOD_CHECKOUT : Z := 28.
Definition METHOD_MERGE : Z := 29.
Definition METHOD_OTHER : Z := 30.

Record method_t := mkMethod { code : Z; string : option bytes; cachable : bool; purges_all : bool }.

(** [struct rms]: a method and the length of its name; a length of 0 ends the
    table. *)
Record rms := mkRms { method : method_t; string_len : Z }.

Definition request_methods : list rms :=
  [ mkRms (mkMethod METHOD_NONE (Some (str "NONE")) false false) 4;
    mkRms (mkMethod METHOD_GET (Some (str "GET")) true false) 3;
    mkRms (mkMethod METHOD_POST (Some (str "POST")) false true) 4;
    mkRms (mkMethod METHOD_PUT (Some (str "PUT")) false true) 3;
    mkRms (mkMethod METHOD_HEAD (Some (str "HEAD")) true false) 4;
    mkRms (mkMethod METHOD_CONNECT (Some (str "CONNECT")) false false) 7;
    mkRms (mkMethod METHOD_TRACE (Some (str "TRACE")) false false) 5;
    mkRms (mkMethod METHOD_PURGE (Some (str "PURGE")) false true) 5;
    mkRms (mkMethod METHOD_OPTIONS (Some (str "OPTIONS")) false false) 7;
    mkRms (mkMethod METHOD_DELETE (Some (str "DELETE")) false true) 6;
    mkRms (mkMethod METHOD_PROPFIND (Some (str "PROPFIND")) false false) 8;
    mkRms (mkMethod METHOD_PROPPATCH (Some (str "PROPPATCH")) false true) 9;
    mkRms (mkMethod METHOD_MKCOL (Some (str "MKCOL")) false true) 5;
    mkRms (mkMethod METHOD_COPY (Some (str "COPY")) false false) 4;
    mkRms (mkMethod METHOD_MOVE (Some (str "MOVE")) false true) 4;
    mkRms (mkMethod METHOD_LOCK (Some (str "LOCK")) false false) 4;
    mkRms (mkMethod METHOD_UNLOCK (Some (str "UNLOCK")) false false) 6;
    mkRms (mkMethod METHOD_BMOVE (Some (str "BMOVE")) false true) 5;
    mkRms (mkMethod METHOD_BDELETE (Some (str "BDELETE")) false true) 7;
    mkRms (mkMethod METHOD_BPROPFIND (Some (str "BPROPFIND")) false false) 9;
    mkRms (mkMethod METHOD_BPROPPATCH (Some (str "BPROPPATCH")) false false) 10;
    mkRms (mkMethod METHOD_BCOPY (Some (str "BCOPY")) false false) 5;
    mkRms (mkMethod METHOD_SEARCH (Some (str "SEARCH")) false false) 6;
    mkRms (mkMethod METHOD_SUBSCRIBE (Some (str "SUBSCRIBE")) false false) 9;
    mkRms (mkMethod METHOD_UNSUBSCRIBE (Some (str "UNSUBSCRIBE")) false false) 11;
    mkRms (mkMethod METHOD_POLL (Some (str "POLL")) false false) 4;
    mkRms (mkMethod METHOD_REPORT (Some (str "REPORT")) false false) 6;
    mkRms (mkMethod METHOD_MKACTIVITY (Some (str "MKACTIVITY")) false false) 10;
    mkRms (mkMethod METHOD_CHECKOUT (Some (str "CHECKOUT")) false false) 8;
    mkRms (mkMethod METHOD_MERGE (Some (str "MERGE")) false false) 5;
    mkRms (mkMethod METHOD_OTHER None false false) 0 ].

(** [s] points to at least [len] bytes. *)
Fixpoint known_loop (l : list rms) (s : bytes) (len : Z) : option method_t :=
  match l with
  | [] => None
  | r :: l =>
      if string_len r =? 0 then None
      else if negb (len =? string_len r) then known_loop l s len
      else if strncaseeq s (default [] (string (method r))) (Z.to_nat len) then Some (method r)
      else known_loop l s len
  end.

Definition urlMethodGetKnown (s : bytes) (len : Z) : option method_t := known_loop request_methods s len.

Definition urlMethodGet (s : bytes) (len : Z) : method_t :=
  match urlMethodGetKnown s len with
  | Some m => m
  | None => mkMethod METHOD_OTHER (Some (take (Z.to_nat len) s)) false true
  end.

Definition urlMethodGetKnownByCode (c : Z) : option method_t :=
  if (c <? 0) || (METHOD_OTHER <=? c) then None
  else method <$> request_methods !! Z.to_nat c.

(** A copy of a method that is not in the table, the entry itself otherwise. *)
Definition urlMethodDup (orig : option method_t) : option method_t := orig.

Definition urlMethodGetConstStr (m : option method_t) : bytes :=
  match m with
  | None => str "NULL"
  | Some m => match string m with None => str "NULL" | Some s => s end
  end.

(** ** Properties *)

(** The table is in the order of the codes, with the lengths of its names. *)
Lemma request_methods_ordered i r :
  request_methods !! i = Some r ->
  code (method r) = Z.of_nat i /\ string_len r = Z.of_nat (length (default [] (string (method r)))).
Proof. intros Hi. do 31 (destruct i as [|i]; [cbn in Hi; simplify_eq; by vm_compute|]). done. Qed.

Lemma known_loop_code l s len m : known_loop l s len = Some m -> exists r, r ∈ l /\ m = method r /\ string_len r <> 0 /\
  len = string_len r /\ strncaseeq s (default [] (string m)) (Z.to_nat len) = true.
Proof.
  induction l as [|r l IH]; cbn; [done|]. destruct (Z.eqb_spec (string_len r) 0); [done|].
  destruct (Z.eqb_spec len (string_len r)) as [->|]; cbn [negb].
  - destruct (strncaseeq s (default [] (string (method r))) (Z.to_nat (string_len r))) eqn:E.
    + intros [= <-]. exists r. splits. apply elem_of_cons. by left.
    + intros (r' & ? & ?)%IH. exists r'. split; [apply elem_of_cons; by right|done].
  - intros (r' & ? & ?)%IH. exists r'. split; [apply elem_of_cons; by right|done].
Qed.

(** Comparing without case is comparing the lower case texts. *)
Lemma tolower_idem c : tolower (tolower c) = tolower c.
Proof.
  unfold tolower. destruct ((65 <=? c) && (c <=? 90)) eqn:E; [|by rewrite E].
  zify_bools. destruct (Z.leb_spec 65 (c + 32)), (Z.leb_spec (c + 32) 90); cbn; lia.
Qed.

Lemma strncaseeq_lower a b n : strncaseeq a b n = strncaseeq (map tolower a) b n.
Proof. revert a b. induction n as [|n IH]; intros [|x a] [|y b]; cbn; try done. by rewrite tolower_idem, IH. Qed.

Lemma known_loop_lower l s len : known_loop l s len = known_loop l (map tolower s) len.
Proof. induction l as [|r l IH]; cbn; [done|]. by rewrite IH, <- strncaseeq_lower. Qed.

(** Only the first [len] bytes are looked at. *)
Lemma strncaseeq_app_le a rest b n : (n <= length a)%nat -> strncaseeq (a ++ rest) b n = strncaseeq a b n.
Proof.
  revert a b. induction n as [|n IH]; intros [|x a] b Hn; cbn in *; try done; [lia|].
  destruct b as [|y b]; [done|]. by rewrite IH by lia.
Qed.

Lemma known_loop_app l s rest len : 0 <= len <= Z.of_nat (length s) -> known_loop l (s ++ rest) len = known_loop l s len.
Proof. intros Hl. induction l as [|r l IH]; cbn; [done|]. by rewrite IH, strncaseeq_app_le by lia. Qed.

Lemma known_table i r : (i < 30)%nat -> request_methods !! i = Some r ->
  exists n, string (method r) = Some n /\ known_loop request_methods n (Z.of_nat (length n)) = Some (method r).
Proof.
  intros Hi Hr. do 30 (destruct i as [|i]; [cbn in Hr; simplify_eq; eexists; split; [reflexivity|vm_compute; reflexivity]|]). lia.
Qed.

(** Method names: every code but METHOD_OTHER has a table entry with that
    code, and its name in any mixture of cases, whatever follows it in the
    buffer, is read as that entry; any other name gives a METHOD_OTHER with
    this name, which is not cachable and invalidates what is stored. *)
Theorem urlMethodGet_correct :
  (forall c, 0 <= c < METHOD_OTHER -> exists m n, urlMethodGetKnownByCode c = Some m /\ code m = c /\ string m = Some n /\
    forall s rest, map tolower s = map tolower n -> urlMethodGet (s ++ rest) (Z.of_nat (length s)) = m) /\
  (forall s len, 0 <= len <= Z.of_nat (length s) -> urlMethodGetKnown s len = None ->
    urlMethodGet s len = mkMethod METHOD_OTHER (Some (take (Z.to_nat len) s)) false true).
Proof.
  split; [|intros s len _ Hn; unfold urlMethodGet; by rewrite Hn].
  intros c Hc. unfold METHOD_OTHER in Hc. destruct (lookup_lt_is_Some_2 request_methods (Z.to_nat c)) as [r Hr]; [cbn; lia|].
  destruct (known_table (Z.to_nat c) r) as (n & En & Hk); [lia|done|]. exists (method r), n. split; [|split; [|split; [done|]]].
  - unfold urlMethodGetKnownByCode. destruct (Z.ltb_spec c 0); [lia|]. cbn [orb].
    destruct (Z.leb_spec METHOD_OTHER c); [unfold METHOD_OTHER in *; lia|]. by rewrite Hr.
  - destruct (request_methods_ordered _ _ Hr) as [-> _]. lia.
  - intros s rest Hs. unfold urlMethodGet, urlMethodGetKnown.
    pose proof (f_equal length Hs) as Hlen. rewrite !length_map in Hlen.
    by rewrite known_loop_app, known_loop_lower, Hs, Hlen, <- known_loop_lower, Hk by lia.
Qed.

Lemma urlMethodGet_correct_witness :
  urlMethodGet (str "pUrGe /x") 5 = mkMethod METHOD_PURGE (Some (str "PURGE")) false true /\
  urlMethodGet (str "FROB /x") 4 = mkMethod METHOD_OTHER (Some (str "FROB")) false true.
Proof.
  split.
  - destruct (proj1 urlMethodGet_correct METHOD_PURGE) as (m & n & H1 & _ & H2 & H3); [unfold METHOD_PURGE, METHOD_OTHER; lia|].
    vm_compute in H1. injection H1 as <-. injection H2 as <-. exact (H3 (str "pUrGe") (str " /x") eq_refl).
  - apply (proj2 urlMethodGet_correct); [cbn; lia|vm_compute; reflexivity].
Defined.
End HttpMethod.
