(* ===== verification/Md5.v ===== *)
(** * Message digests

    lib/md5.c: MD5, which names the objects of the store.  A context has the
    four words of the state, the length in two words and the 64 bytes of the
    block under way; on a little-endian machine the words of a block are its
    bytes.  Arithmetic is that of [uint32_t].

    The digest of a message is compared with the algorithm as RFC 1321
    describes it, on the whole message. *)

From Stdlib Require Import ZArith Lia Ascii String.
From stdpp Require Import base strings list numbers option.
From S2P Require Import Prelude CStr.

Module Md5.

Definition u32 (z : Z) : Z := wrap_u 32 z.

Record state := mkState { sa : Z; sb : Z; sc : Z; sd : Z }.

(** [bytes_]: the two words of [ctx->bytes]; [block]: [ctx->in] *)
Record MD5Context := mkCtx { buf : state; bytes0 : Z; bytes1 : Z; block : bytes }.

(** ** The step *)

Definition F1 (x y z : Z) : Z := Z.lxor z (Z.land x (Z.lxor y z)).
Definition F2 (x y z : Z) : Z := F1 z x y.
Definition F3 (x y z : Z) : Z := Z.lxor x (Z.lxor y z).
Definition F4 (x y z : Z) : Z := Z.lxor y (Z.lor x (Z.lxor z 0xffffffff)).

Definition MD5STEP (f : Z -> Z -> Z -> Z) (w x y z inp s : Z) : Z :=
  let w := u32 (w + f x y z + inp) in
  u32 (Z.lor (Z.shiftl w s) (Z.shiftr w (32 - s)) + x).

(** The words of a block. *)
Definition word (inp : bytes) (k : nat) : Z := le_val (take 4 (drop (4 * k) inp)).

(** The lines of [SQUID_MD5Transform]: function, word, constant and shift.  The
    line computes [a], the next one [d], then [c], then [b]. *)
Definition lines : list ((Z -> Z -> Z -> Z) * nat * Z * Z) :=
  [(F1, 0%nat, 0xd76aa478, 7); (F1, 1%nat, 0xe8c7b756, 12); (F1, 2%nat, 0x242070db, 17); (F1, 3%nat, 0xc1bdceee, 22);
   (F1, 4%nat, 0xf57c0faf, 7); (F1, 5%nat, 0x4787c62a, 12); (F1, 6%nat, 0xa8304613, 17); (F1, 7%nat, 0xfd469501, 22);
   (F1, 8%nat, 0x698098d8, 7); (F1, 9%nat, 0x8b44f7af, 12); (F1, 10%nat, 0xffff5bb1, 17); (F1, 11%nat, 0x895cd7be, 22);
   (F1, 12%nat, 0x6b901122, 7); (F1, 13%nat, 0xfd987193, 12); (F1, 14%nat, 0xa679438e, 17); (F1, 15%nat, 0x49b40821, 22);
   (F2, 1%nat, 0xf61e2562, 5); (F2, 6%nat, 0xc040b340, 9); (F2, 11%nat, 0x265e5a51, 14); (F2, 0%nat, 0xe9b6c7aa, 20);
   (F2, 5%nat, 0xd62f105d, 5); (F2, 10%nat, 0x02441453, 9); (F2, 15%nat, 0xd8a1e681, 14); (F2, 4%nat, 0xe7d3fbc8, 20);
   (F2, 9%nat, 0x21e1cde6, 5); (F2, 14%nat, 0xc33707d6, 9); (F2, 3%nat, 0xf4d50d87, 14); (F2, 8%nat, 0x455a14ed, 20);
   (F2, 13%nat, 0xa9e3e905, 5); (F2, 2%nat, 0xfcefa3f8, 9); (F2, 7%nat, 0x676f02d9, 14); (F2, 12%nat, 0x8d2a4c8a, 20);
   (F3, 5%nat, 0xfffa3942, 4); (F3, 8%nat, 0x8771f681, 11); (F3, 11%nat, 0x6d9d6122, 16); (F3, 14%nat, 0xfde5380c, 23);
   (F3, 1%nat, 0xa4beea44, 4); (F3, 4%nat, 0x4bdecfa9, 11); (F3, 7%nat, 0xf6bb4b60, 16); (F3, 10%nat, 0xbebfbc70, 23);
   (F3, 13%nat, 0x289b7ec6, 4); (F3, 0%nat, 0xeaa127fa, 11); (F3, 3%nat, 0xd4ef3085, 16); (F3, 6%nat, 0x04881d05, 23);
   (F3, 9%nat, 0xd9d4d039, 4); (F3, 12%nat, 0xe6db99e5, 11); (F3, 15%nat, 0x1fa27cf8, 16); (F3, 2%nat, 0xc4ac5665, 23);
   (F4, 0%nat, 0xf4292244, 6); (F4, 7%nat, 0x432aff97, 10); (F4, 14%nat, 0xab9423a7, 15); (F4, 5%nat, 0xfc93a039, 21);
   (F4, 12%nat, 0x655b59c3, 6); (F4, 3%nat, 0x8f0ccc92, 10); (F4, 10%nat, 0xffeff47d, 15); (F4, 1%nat, 0x85845dd1, 21);
   (F4, 8%nat, 0x6fa87e4f, 6); (F4, 15%nat, 0xfe2ce6e0, 10); (F4, 6%nat, 0xa3014314, 15); (F4, 13%nat, 0x4e0811a1, 21);
   (F4, 4%nat, 0xf7537e82, 6); (F4, 11%nat, 0xbd3af235, 10); (F4, 2%nat, 0x2ad7d2bb, 15); (F4, 9%nat, 0xeb86d391, 21)].

Definition line (inp : bytes) (st : state) (l : (Z -> Z -> Z -> Z) * nat * Z * Z) : state :=
  let '(f, k, t, s) := l in
  let a := MD5STEP f (sa st) (sb st) (sc st) (sd st) (u32 (word inp k + t)) s in
  mkState (sd st) a (sb st) (sc st).

Definition SQUID_MD5Transform (st : state) (inp : bytes) : state :=
  let r := fold_left (line inp) lines st in
  mkState (u32 (sa st + sa r)) (u32 (sb st + sb r)) (u32 (sc st + sc r)) (u32 (sd st + sd r)).

(** ** Contexts *)

(** What is in the block before the first bytes come is left open. *)
Definition SQUID_MD5Init (ctx : MD5Context) : MD5Context :=
  mkCtx (mkState 0x67452301 0xefcdab89 0x98badcfe 0x10325476) 0 0 (block ctx).

(** [memcpy(dst + off, src, len)], within [dst] *)
Definition memcpy (dst : bytes) (off : nat) (src : bytes) : option bytes :=
  if (off + length src <=? length dst)%nat then Some (take off dst ++ src ++ drop (off + length src) dst) else None.

Fixpoint chunk_loop (fuel : nat) (st : state) (blk data : bytes) : option (state * bytes) :=
  if (64 <=? length data)%nat then
    match fuel with
    | O => None
    | S fuel =>
        let? blk := memcpy blk 0 (take 64 data) in
        chunk_loop fuel (SQUID_MD5Transform st blk) blk (drop 64 data)
    end
  else
    let? blk := memcpy blk 0 data in
    Some (st, blk).

Definition SQUID_MD5Update (ctx : MD5Context) (data : bytes) : option MD5Context :=
  let t := bytes0 ctx in
  let len := Z.of_nat (length data) in
  let b0 := u32 (t + len) in
  let b1 := if b0 <? t then u32 (bytes1 ctx + 1) else bytes1 ctx in
  let t := 64 - Z.land t 63 in
  if len <? t then
    let? blk := memcpy (block ctx) (Z.to_nat (64 - t)) data in
    Some (mkCtx (buf ctx) b0 b1 blk)
  else
    let? blk := memcpy (block ctx) (Z.to_nat (64 - t)) (take (Z.to_nat t) data) in
    let? (st, blk) := chunk_loop (length data) (SQUID_MD5Transform (buf ctx) blk) blk (drop (Z.to_nat t) data) in
    Some (mkCtx st b0 b1 blk).

Definition digest_of (st : state) : bytes := le_bytes 4 (sa st) ++ le_bytes 4 (sb st) ++ le_bytes 4 (sc st) ++ le_bytes 4 (sd st).

Definition SQUID_MD5Final (ctx : MD5Context) : option bytes :=
  let count := Z.land (bytes0 ctx) 63 in
  let? blk := memcpy (block ctx) (Z.to_nat count) [0x80] in
  let p := Z.to_nat (count + 1) in
  let count := 56 - 1 - count in
  let? (st, blk, p, count) :=
    if count <? 0 then
      let? blk := memcpy blk p (repeat 0 (Z.to_nat (count + 8))) in
      Some (SQUID_MD5Transform (buf ctx) blk, blk, O, 56)
    else Some (buf ctx, blk, p, count) in
  let? blk := memcpy blk p (repeat 0 (Z.to_nat count)) in
  let? blk := memcpy blk 56 (le_bytes 4 (u32 (Z.shiftl (bytes0 ctx) 3))) in
  let? blk := memcpy blk 60 (le_bytes 4 (Z.lor (u32 (Z.shiftl (bytes1 ctx) 3)) (Z.shiftr (bytes0 ctx) 29))) in
  Some (digest_of (SQUID_MD5Transform st blk)).

(** A digest from a message in pieces, as its users compute it. *)
Fixpoint update_all (ctx : MD5Context) (l : list bytes) : option MD5Context :=
  match l with
  | [] => Some ctx
  | d :: l => let? ctx := SQUID_MD5Update ctx d in update_all ctx l
  end.

Definition md5_pieces (ctx : MD5Context) (l : list bytes) : option bytes :=
  let? ctx := update_all (SQUID_MD5Init ctx) l in SQUID_MD5Final ctx.

(** ** RFC 1321 *)

Definition IV : state := mkState 0x67452301 0xefcdab89 0x98badcfe 0x10325476.

Module Rfc.

Definition not32 (z : Z) : Z := 2 ^ 32 - 1 - z.
Definition F (x y z : Z) : Z := Z.lor (Z.land x y) (Z.land (not32 x) z).
Definition G (x y z : Z) : Z := Z.lor (Z.land x z) (Z.land y (not32 z)).
Definition H (x y z : Z) : Z := Z.lxor (Z.lxor x y) z.
Definition I (x y z : Z) : Z := Z.lxor y (Z.lor x (not32 z)).

(** floor(2^32 * abs(sin(i + 1))) *)
Definition T : list Z :=
  [0xd76aa478; 0xe8c7b756; 0x242070db; 0xc1bdceee; 0xf57c0faf; 0x4787c62a; 0xa8304613; 0xfd469501;
   0x698098d8; 0x8b44f7af; 0xffff5bb1; 0x895cd7be; 0x6b901122; 0xfd987193; 0xa679438e; 0x49b40821;
   0xf61e2562; 0xc040b340; 0x265e5a51; 0xe9b6c7aa; 0xd62f105d; 0x02441453; 0xd8a1e681; 0xe7d3fbc8;
   0x21e1cde6; 0xc33707d6; 0xf4d50d87; 0x455a14ed; 0xa9e3e905; 0xfcefa3f8; 0x676f02d9; 0x8d2a4c8a;
   0xfffa3942; 0x8771f681; 0x6d9d6122; 0xfde5380c; 0xa4beea44; 0x4bdecfa9; 0xf6bb4b60; 0xbebfbc70;
   0x289b7ec6; 0xeaa127fa; 0xd4ef3085; 0x04881d05; 0xd9d4d039; 0xe6db99e5; 0x1fa27cf8; 0xc4ac5665;
   0xf4292244; 0x432aff97; 0xab9423a7; 0xfc93a039; 0x655b59c3; 0x8f0ccc92; 0xffeff47d; 0x85845dd1;
   0x6fa87e4f; 0xfe2ce6e0; 0xa3014314; 0x4e0811a1; 0xf7537e82; 0xbd3af235; 0x2ad7d2bb; 0xeb86d391].

(** The operation [abcd k s i] of step [i], counted from 0. *)
Definition fn (i : nat) : Z -> Z -> Z -> Z := nth (i / 16) [F; G; H; I] F.
Definition ix (i : nat) : nat := nth (i / 16) [i; 5 * i + 1; 3 * i + 5; 7 * i]%nat 0%nat mod 16.
Definition sh (i : nat) : Z := nth (i mod 4) (nth (i / 16) [[7; 12; 17; 22]; [5; 9; 14; 20]; [4; 11; 16; 23]; [6; 10; 15; 21]] []) 0.

Definition rotl (x n : Z) : Z := Z.lor ((x * 2 ^ n) mod 2 ^ 32) (x / 2 ^ (32 - n)).

Definition op (X : bytes) (st : state) (i : nat) : state :=
  let a := (sb st + rotl ((sa st + fn i (sb st) (sc st) (sd st) + word X (ix i) + nth i T 0) mod 2 ^ 32) (sh i)) mod 2 ^ 32 in
  mkState (sd st) a (sb st) (sc st).

Definition compress (st : state) (X : bytes) : state :=
  let r := fold_left (op X) (seq 0 64) st in
  mkState ((sa st + sa r) mod 2 ^ 32) ((sb st + sb r) mod 2 ^ 32) ((sc st + sc r) mod 2 ^ 32) ((sd st + sd r) mod 2 ^ 32).

(** The whole blocks of a message. *)
Fixpoint absorb (n : nat) (st : state) (m : bytes) : state :=
  match n with
  | O => st
  | S n => absorb n (compress st (take 64 m)) (drop 64 m)
  end.

Definition pad (m : bytes) : bytes :=
  m ++ 0x80 :: repeat 0 ((119 - length m mod 64) mod 64) ++ le_bytes 8 (8 * Z.of_nat (length m)).

Definition md5 (m : bytes) : bytes :=
  digest_of (absorb (length (pad m) / 64) IV (pad m)).

End Rfc.

Definition hexes (s : string) : bytes :=
  (fix go l := match l with a :: b :: l => (a * 16 + b) :: go l | _ => [] end) (map (fun c => if c <? 58 then c - 48 else c - 87) (str s)).

Example rfc_empty : Rfc.md5 [] = hexes "d41d8cd98f00b204e9800998ecf8427e".
Proof. vm_compute. reflexivity. Qed.

Example rfc_abc : Rfc.md5 (str "abc") = hexes "900150983cd24fb0d6963f7d28e17f72".
Proof. vm_compute. reflexivity. Qed.

Example rfc_digits : Rfc.md5 (str "12345678901234567890123456789012345678901234567890123456789012345678901234567890") = hexes "57edf4a22be3c955ac49da2e2107b67a".
Proof. vm_compute. reflexivity. Qed.

Definition ctx0 : MD5Context := mkCtx (mkState 0 0 0 0) 0 0 (repeat 170 64).

Example pieces_abc : md5_pieces ctx0 [str "a"; []; str "bc"] = Some (hexes "900150983cd24fb0d6963f7d28e17f72").
Proof. vm_compute. reflexivity. Qed.

(** ** The step of the code is that of the RFC *)

Definition word_ok (z : Z) : Prop := 0 <= z < 2 ^ 32.
Definition state_ok (st : state) : Prop := word_ok (sa st) /\ word_ok (sb st) /\ word_ok (sc st) /\ word_ok (sd st).

Lemma not32_ldiff z : word_ok z -> Rfc.not32 z = Z.ldiff (Z.ones 32) z.
Proof.
  intros Hz. unfold Rfc.not32. rewrite <- Z.sub_nocarry_ldiff; [by rewrite Z.ones_equiv; lia|]. apply Z.ldiff_ones_r_low; [apply Hz|].
  destruct (Z.eq_dec z 0) as [->|]; [done|]. apply Z.log2_lt_pow2; unfold word_ok in Hz; lia.
Qed.

Lemma high_bit z i : word_ok z -> 32 <= i -> Z.testbit z i = false.
Proof. intros Hz Hi. rewrite <- (Z.mod_small z (2 ^ 32)) by (unfold word_ok in Hz; lia). apply Z.mod_pow2_bits_high. lia. Qed.

Ltac bits Hx Hy Hz :=
  apply Z.bits_inj'; let i := fresh "i" in let Hi := fresh "Hi" in intros i Hi;
  repeat first [rewrite Z.lxor_spec | rewrite Z.land_spec | rewrite Z.lor_spec | rewrite Z.ldiff_spec | rewrite Z.testbit_ones_nonneg by lia];
  destruct (Z.ltb_spec i 32) as [?|?]; [|rewrite ?(high_bit _ _ Hx), ?(high_bit _ _ Hy), ?(high_bit _ _ Hz) by lia];
  repeat match goal with |- context [Z.testbit ?a i] => destruct (Z.testbit a i) end; reflexivity.

Lemma F1_rfc x y z : word_ok x -> word_ok y -> word_ok z -> F1 x y z = Rfc.F x y z.
Proof. intros Hx Hy Hz. unfold F1, Rfc.F. rewrite not32_ldiff by done. bits Hx Hy Hz. Qed.

Lemma F2_rfc x y z : word_ok x -> word_ok y -> word_ok z -> F2 x y z = Rfc.G x y z.
Proof. intros Hx Hy Hz. unfold F2, F1, Rfc.G. rewrite not32_ldiff by done. bits Hx Hy Hz. Qed.

Lemma F3_rfc x y z : F3 x y z = Rfc.H x y z.
Proof. unfold F3, Rfc.H. by rewrite Z.lxor_assoc. Qed.

Lemma F4_rfc x y z : word_ok x -> word_ok y -> word_ok z -> F4 x y z = Rfc.I x y z.
Proof. intros Hx Hy Hz. unfold F4, Rfc.I. rewrite not32_ldiff by done. change 0xffffffff with (Z.ones 32). bits Hx Hy Hz. Qed.

Lemma rotl_rfc w x s : word_ok w -> 0 < s < 32 -> u32 (Z.lor (Z.shiftl w s) (Z.shiftr w (32 - s)) + x) = (x + Rfc.rotl w s) mod 2 ^ 32.
Proof.
  intros Hw Hs. unfold u32, wrap_u, Rfc.rotl. rewrite Z.shiftl_mul_pow2, Z.shiftr_div_pow2 by lia.
  assert (Z.lor ((w * 2 ^ s) mod 2 ^ 32) (w / 2 ^ (32 - s)) = Z.lor (w * 2 ^ s) (w / 2 ^ (32 - s)) mod 2 ^ 32) as ->.
  { rewrite <- !Z.land_ones, Z.land_lor_distr_l by lia. f_equal. rewrite Z.land_ones by lia. symmetry. apply Z.mod_small. unfold word_ok in Hw.
    split; [apply Z.div_pos; lia|]. apply Z.div_lt_upper_bound; [lia|]. nia. }
  rewrite Z.add_mod_idemp_r by lia. f_equal. lia.
Qed.

Definition cfn (i : nat) : Z -> Z -> Z -> Z := nth (i / 16) [F1; F2; F3; F4] F1.

Lemma lines_rfc : lines = map (fun i => (cfn i, Rfc.ix i, nth i Rfc.T 0, Rfc.sh i)) (seq 0 64).
Proof. vm_compute. reflexivity. Qed.

Lemma cfn_rfc i x y z : (i < 64)%nat -> word_ok x -> word_ok y -> word_ok z -> cfn i x y z = Rfc.fn i x y z.
Proof.
  intros Hi Hx Hy Hz. unfold cfn, Rfc.fn. assert (i / 16 < 4)%nat by (apply Nat.Div0.div_lt_upper_bound; lia).
  destruct (i / 16)%nat as [|[|[|[|?]]]]; cbn [nth]; [by apply F1_rfc|by apply F2_rfc|apply F3_rfc|by apply F4_rfc|lia].
Qed.

Lemma sh_range i : (i < 64)%nat -> 0 < Rfc.sh i < 32.
Proof.
  intros Hi. assert (forallb (fun i => (0 <? Rfc.sh i) && (Rfc.sh i <? 32)) (seq 0 64) = true) as H by (vm_compute; reflexivity).
  rewrite forallb_forall in H. specialize (H i). rewrite in_seq, andb_true_iff, !Z.ltb_lt in H. lia.
Qed.

Lemma mod_word z : word_ok (z mod 2 ^ 32).
Proof. apply Z.mod_pos_bound. lia. Qed.

Lemma line_rfc X st i : state_ok st -> (i < 64)%nat -> line X st (cfn i, Rfc.ix i, nth i Rfc.T 0, Rfc.sh i) = Rfc.op X st i /\ state_ok (Rfc.op X st i).
Proof.
  intros (Ha & Hb & Hc & Hd) Hi. split; [|split; [exact Hd|split; [apply mod_word|split; [exact Hb|exact Hc]]]]. unfold line, Rfc.op, MD5STEP. f_equal.
  rewrite rotl_rfc by (try apply mod_word; by apply sh_range). do 2 f_equal. unfold u32, wrap_u. rewrite cfn_rfc by done. rewrite Z.add_mod_idemp_r by lia. do 2 f_equal. lia.
Qed.

Lemma fold_rfc X l : forall st, state_ok st -> Forall (fun i => i < 64)%nat l ->
  fold_left (line X) (map (fun i => (cfn i, Rfc.ix i, nth i Rfc.T 0, Rfc.sh i)) l) st = fold_left (Rfc.op X) l st.
Proof.
  induction l as [|i l IH]; intros st Hs Hl; [done|]. apply List.Forall_cons_iff in Hl as [Hi Hl]. cbn [map fold_left]. destruct (line_rfc X st i Hs Hi) as [-> Hs']. by apply IH.
Qed.

Lemma transform_rfc st X : state_ok st -> SQUID_MD5Transform st X = Rfc.compress st X.
Proof.
  intros Hs. unfold SQUID_MD5Transform, Rfc.compress. rewrite lines_rfc, fold_rfc; [done|done|]. apply List.Forall_forall. intros i Hi. apply in_seq in Hi. lia.
Qed.

Lemma compress_ok st X : state_ok (Rfc.compress st X).
Proof. repeat split; apply mod_word. Qed.

(** ** Whole blocks *)

Lemma absorb_ok n : forall st m, state_ok st -> state_ok (Rfc.absorb n st m).
Proof. induction n as [|n IH]; intros st m Hs; [done|]. apply IH, compress_ok. Qed.

Lemma absorb_add a : forall b st m, Rfc.absorb (a + b) st m = Rfc.absorb b (Rfc.absorb a st m) (drop (64 * a) m).
Proof.
  induction a as [|a IH]; intros b st m; [by rewrite drop_0|]. change (Rfc.absorb (a + b) (Rfc.compress st (take 64 m)) (drop 64 m) = Rfc.absorb b (Rfc.absorb a (Rfc.compress st (take 64 m)) (drop 64 m)) (drop (64 * S a) m)).
  rewrite IH, drop_drop. do 2 f_equal. lia.
Qed.

Lemma absorb_prefix n : forall st m x, (64 * n <= length m)%nat -> Rfc.absorb n st (m ++ x) = Rfc.absorb n st m.
Proof.
  induction n as [|n IH]; intros st m x Hl; [done|]. change (Rfc.absorb n (Rfc.compress st (take 64 (m ++ x))) (drop 64 (m ++ x)) = Rfc.absorb n (Rfc.compress st (take 64 m)) (drop 64 m)).
  rewrite take_app_le, drop_app_le by lia. apply IH. rewrite length_drop. lia.
Qed.

Lemma absorb_next n st m : Rfc.absorb (S n) st m = Rfc.compress (Rfc.absorb n st m) (take 64 (drop (64 * n) m)).
Proof. replace (S n) with (n + 1)%nat by lia. by rewrite absorb_add. Qed.

(** ** Messages under way *)

Lemma IV_ok : state_ok IV.
Proof. unfold state_ok, word_ok, IV. cbn. lia. Qed.

Opaque IV Rfc.compress SQUID_MD5Transform.

(** The context of a message. *)
Record rep (ctx : MD5Context) (m : bytes) : Prop := {
  r_buf : buf ctx = Rfc.absorb (length m / 64) IV m;
  r_b0 : bytes0 ctx = Z.of_nat (length m) mod 2 ^ 32;
  r_b1 : bytes1 ctx = (Z.of_nat (length m) / 2 ^ 32) mod 2 ^ 32;
  r_len : length (block ctx) = 64%nat;
  r_block : take (length m mod 64) (block ctx) = drop (64 * (length m / 64)) m
}.

Lemma memcpy_ok dst off src : (off + length src <= length dst)%nat -> memcpy dst off src = Some (take off dst ++ src ++ drop (off + length src) dst) /\ length (take off dst ++ src ++ drop (off + length src) dst) = length dst.
Proof. intros H. unfold memcpy. rewrite (proj2 (Nat.leb_le _ _) H). split; [done|]. rewrite !length_app, length_take, length_drop. lia. Qed.

Lemma chunk_loop_ok fuel M : forall j st blk, (length M <= fuel + 64 * j)%nat -> (64 * j <= length M)%nat -> st = Rfc.absorb j IV M -> length blk = 64%nat ->
  exists blk', chunk_loop fuel st blk (drop (64 * j) M) = Some (Rfc.absorb (length M / 64) IV M, blk') /\ length blk' = 64%nat /\ take (length M mod 64) blk' = drop (64 * (length M / 64)) M.
Proof.
  induction fuel as [|fuel IH]; intros j st blk Hf Hj Hst Hb; cbn [chunk_loop]; rewrite length_drop; destruct (Nat.leb_spec 64 (length M - 64 * j)) as [Hge|Hlt]; try lia.
  2: { destruct (memcpy_ok blk 0 (take 64 (drop (64 * j) M))) as [E El]; [rewrite length_take, length_drop; lia|]. rewrite E. bind_simpl. rewrite take_0 in *. cbn [app] in *.
    rewrite length_take, length_drop in *. rewrite (drop_ge blk), app_nil_r by lia. rewrite drop_drop. replace (64 * j + 64)%nat with (64 * S j)%nat by lia. apply IH; [lia|lia| |].
    - rewrite absorb_next, Hst. apply transform_rfc. apply absorb_ok, IV_ok.
    - rewrite length_take, length_drop. lia. }
  all: assert (length M / 64 = j)%nat as -> by (symmetry; apply (Nat.div_unique _ _ _ (length M - 64 * j)); lia).
  all: assert (length M mod 64 = length M - 64 * j)%nat as -> by (symmetry; apply (Nat.mod_unique _ _ j); lia).
  all: destruct (memcpy_ok blk 0 (drop (64 * j) M)) as [E El]; [rewrite length_drop; lia|]; rewrite E; bind_simpl; rewrite take_0 in *; cbn [app] in *.
  all: eexists; split; [by rewrite Hst|]; split; [lia|]; rewrite <- length_drop; by rewrite take_app_length.
Qed.

Lemma mod64 (n : nat) : Z.land (Z.of_nat n mod 2 ^ 32) 63 = Z.of_nat (n mod 64).
Proof.
  change 63 with (Z.ones 6). rewrite Z.land_ones by lia. rewrite Nat2Z.inj_mod. change (2 ^ 6) with (Z.of_nat 64). change (2 ^ 32) with (Z.of_nat 64 * 67108864).
  rewrite Z.rem_mul_r by lia. rewrite (Z.mul_comm (Z.of_nat 64)), Z.mod_add by lia. apply Z.mod_mod. lia.
Qed.

(** The length, with the carry from its low to its high word. *)
Lemma carry_ok (m d : nat) : Z.of_nat d < 2 ^ 32 -> let b0 := u32 (Z.of_nat m mod 2 ^ 32 + Z.of_nat d) in let b1 := (Z.of_nat m / 2 ^ 32) mod 2 ^ 32 in
  b0 = Z.of_nat (m + d) mod 2 ^ 32 /\
  (if Z.of_nat (m + d) mod 2 ^ 32 <? Z.of_nat m mod 2 ^ 32 then u32 (b1 + 1) else b1) = (Z.of_nat (m + d) / 2 ^ 32) mod 2 ^ 32.
Proof.
  intros Hd. cbv zeta. unfold u32, wrap_u. rewrite Nat2Z.inj_add. set (x := Z.of_nat m). set (y := Z.of_nat d) in *. assert (0 <= x /\ 0 <= y) as [Hx Hy] by lia.
  split; [by rewrite Z.add_mod_idemp_l by lia|].
  pose proof (Z.div_mod x (2 ^ 32) ltac:(lia)) as Ex. pose proof (Z.mod_pos_bound x (2 ^ 32) ltac:(lia)) as Bx. set (xq := x / 2 ^ 32) in *. set (xr := x mod 2 ^ 32) in *.
  destruct (Z.lt_ge_cases (xr + y) (2 ^ 32)) as [Hlt|Hge].
  - assert ((x + y) mod 2 ^ 32 = xr + y) as -> by (symmetry; apply (Z.mod_unique _ _ xq); lia). assert ((x + y) / 2 ^ 32 = xq) as -> by (symmetry; apply (Z.div_unique _ _ _ (xr + y)); lia).
    destruct (Z.ltb_spec (xr + y) xr); [lia|done].
  - assert ((x + y) mod 2 ^ 32 = xr + y - 2 ^ 32) as -> by (symmetry; apply (Z.mod_unique _ _ (xq + 1)); lia). assert ((x + y) / 2 ^ 32 = xq + 1) as -> by (symmetry; apply (Z.div_unique _ _ _ (xr + y - 2 ^ 32)); lia).
    destruct (Z.ltb_spec (xr + y - 2 ^ 32) xr); [|lia]. by rewrite Z.add_mod_idemp_l by lia.
Qed.

Lemma update_ok ctx m d : rep ctx m -> Z.of_nat (length d) < 2 ^ 32 -> exists ctx', SQUID_MD5Update ctx d = Some ctx' /\ rep ctx' (m ++ d).
Proof.
  intros [] Hd. unfold SQUID_MD5Update. rewrite r_b2, mod64. set (r := (length m mod 64)%nat) in *. set (k := (length m / 64)%nat) in *.
  assert (length m = 64 * k + r)%nat as Hm by (apply Nat.div_mod_eq). assert (r < 64)%nat as Hr by (apply Nat.mod_upper_bound; lia).
  destruct (carry_ok (length m) (length d) Hd) as [-> E1]. rewrite <- length_app in *. rewrite r_b3, E1.
  replace (64 - (64 - Z.of_nat r)) with (Z.of_nat r) by lia. rewrite Nat2Z.id. destruct (Z.ltb_spec (Z.of_nat (length d)) (64 - Z.of_nat r)) as [Hlt|Hge].
  - destruct (memcpy_ok (block ctx) r d) as [-> Hl]; [lia|]. bind_simpl. eexists. split; [done|].
    assert (length (m ++ d) / 64 = k)%nat as Ek by (symmetry; apply (Nat.div_unique _ _ _ (r + length d)); rewrite ?length_app; lia).
    assert (length (m ++ d) mod 64 = r + length d)%nat as Er by (symmetry; apply (Nat.mod_unique _ _ k); rewrite ?length_app; lia).
    constructor; cbn [buf bytes0 bytes1 block]; rewrite ?Ek, ?Er; try done; try lia.
    + rewrite absorb_prefix by lia. done.
    + rewrite app_assoc, take_app_le by (rewrite length_app, length_take; lia). rewrite take_ge by (rewrite length_app, length_take; lia). rewrite r_block0. by rewrite drop_app_le by lia.
  - replace (Z.to_nat (64 - Z.of_nat r)) with (64 - r)%nat by lia. destruct (memcpy_ok (block ctx) r (take (64 - r) d)) as [-> Hl]; [rewrite length_take; lia|]. bind_simpl. rewrite length_take in *.
    rewrite (drop_ge (block ctx)), app_nil_r in * by lia. rewrite r_block0 in *.
    assert (drop (64 - r) d = drop (64 * S k) (m ++ d)) as -> by (rewrite drop_app_ge by lia; f_equal; lia).
    assert (drop (64 * k) m ++ take (64 - r) d = take 64 (drop (64 * k) (m ++ d))) as Eblk.
    { rewrite drop_app_le by lia. rewrite take_app_ge by (rewrite length_drop; lia). rewrite length_drop. do 2 f_equal. lia. }
    rewrite Eblk in *. destruct (chunk_loop_ok (length d) (m ++ d) (S k) (SQUID_MD5Transform (buf ctx) (take 64 (drop (64 * k) (m ++ d)))) (take 64 (drop (64 * k) (m ++ d)))) as (blk' & -> & L1 & L2).
    + rewrite length_app. lia.
    + rewrite length_app. lia.
    + rewrite absorb_next, absorb_prefix by lia. rewrite transform_rfc by (rewrite r_buf0; apply absorb_ok, IV_ok). by rewrite r_buf0.
    + rewrite Hl. done.
    + bind_simpl. eexists. split; [done|]. by constructor.
Qed.

Lemma md5_init_ok ctx : length (block ctx) = 64%nat -> rep (SQUID_MD5Init ctx) [].
Proof. intros H. by constructor. Qed.

Lemma update_all_ok l : forall ctx m, rep ctx m -> Forall (fun d => Z.of_nat (length d) < 2 ^ 32) l -> exists ctx', update_all ctx l = Some ctx' /\ rep ctx' (m ++ concat l).
Proof.
  induction l as [|d l IH]; intros ctx m Hr Hl; cbn [update_all concat]; [exists ctx; split; [done|by rewrite app_nil_r]|]. apply List.Forall_cons_iff in Hl as [Hd Hl].
  destruct (update_ok ctx m d Hr Hd) as (c1 & -> & H1). bind_simpl. destruct (IH c1 _ H1 Hl) as (c2 & E2 & H2). exists c2. split; [done|]. by rewrite app_assoc.
Qed.

(** ** The end *)

Lemma le_bytes_app a b z : le_bytes (a + b) z = le_bytes a z ++ le_bytes b (z / 256 ^ Z.of_nat a).
Proof.
  revert z. induction a as [|a IH]; intros z; [cbn; by rewrite Z.div_1_r|]. change (z mod 256 :: le_bytes (a + b) (z / 256) = z mod 256 :: le_bytes a (z / 256) ++ le_bytes b (z / 256 ^ Z.of_nat (S a))).
  f_equal. rewrite IH. do 2 f_equal. rewrite Nat2Z.inj_succ, Z.pow_succ_r by lia. by rewrite Z.div_div by (try apply Z.pow_pos_nonneg; lia).
Qed.

Lemma le_bytes_mod n z : le_bytes n (z mod 256 ^ Z.of_nat n) = le_bytes n z.
Proof.
  revert z. induction n as [|n IH]; intros z; [done|]. cbn [le_bytes]. rewrite Nat2Z.inj_succ, Z.pow_succ_r by lia. assert (0 < 256 ^ Z.of_nat n) by (apply Z.pow_pos_nonneg; lia).
  rewrite Z.rem_mul_r by lia. f_equal.
  - rewrite (Z.mul_comm 256), Z.mod_add by lia. apply Z.mod_mod. lia.
  - rewrite <- (IH (z / 256)). f_equal. rewrite (Z.mul_comm 256), Z.div_add by lia. rewrite (Z.div_small (z mod 256)) by (apply Z.mod_pos_bound; lia). lia.
Qed.

(** The length in bits, from the two words of the length in bytes. *)
Lemma length_words (n : nat) : let b0 := Z.of_nat n mod 2 ^ 32 in let b1 := (Z.of_nat n / 2 ^ 32) mod 2 ^ 32 in
  le_bytes 4 (u32 (Z.shiftl b0 3)) ++ le_bytes 4 (Z.lor (u32 (Z.shiftl b1 3)) (Z.shiftr b0 29)) = le_bytes 8 (8 * Z.of_nat n).
Proof.
  cbv zeta. set (x := Z.of_nat n). assert (0 <= x) as Hx by lia. rewrite (le_bytes_app 4 4). unfold u32, wrap_u. change (2 ^ 32) with (256 ^ Z.of_nat 4). f_equal.
  - rewrite le_bytes_mod. rewrite <- (le_bytes_mod 4 (8 * x)), <- (le_bytes_mod 4 (Z.shiftl _ 3)). f_equal. rewrite Z.shiftl_mul_pow2 by lia. rewrite Z.mul_mod_idemp_l by lia. f_equal. lia.
  - rewrite <- (le_bytes_mod 4 (8 * x / _)). f_equal. change (256 ^ Z.of_nat 4) with (2 ^ 32).
    pose proof (Z.div_mod x (2 ^ 32) ltac:(lia)) as Ex. pose proof (Z.mod_pos_bound x (2 ^ 32) ltac:(lia)) as Bx. set (q := x / 2 ^ 32) in *. set (r := x mod 2 ^ 32) in *.
    rewrite Z.shiftl_mul_pow2, Z.shiftr_div_pow2 by lia. rewrite Z.mul_mod_idemp_l by lia.
    assert (8 * x / 2 ^ 32 = q * 2 ^ 3 + r / 2 ^ 29) as ->.
    { pose proof (Z.div_mod r (2 ^ 29) ltac:(lia)). pose proof (Z.mod_pos_bound r (2 ^ 29) ltac:(lia)). symmetry. apply (Z.div_unique _ _ _ (8 * (r mod 2 ^ 29))); lia. }
    assert (0 <= r / 2 ^ 29 < 8) as Hr by (split; [apply Z.div_pos; lia|apply Z.div_lt_upper_bound; lia]).
    assert ((q * 2 ^ 3) mod 2 ^ 32 = (q mod 2 ^ 29) * 2 ^ 3) as -> by (change (2 ^ 32) with (2 ^ 29 * 2 ^ 3); rewrite Z.mul_mod_distr_r by lia; done).
    pose proof (Z.mod_pos_bound q (2 ^ 29) ltac:(lia)) as Bq. pose proof (Z.div_mod q (2 ^ 29) ltac:(lia)) as Eq.
    assert (Z.lor (q mod 2 ^ 29 * 2 ^ 3) (r / 2 ^ 29) = q mod 2 ^ 29 * 2 ^ 3 + r / 2 ^ 29) as ->.
    { pose proof (Z.add_lor_land (q mod 2 ^ 29 * 2 ^ 3) (r / 2 ^ 29)) as Hsum. enough (Z.land (q mod 2 ^ 29 * 2 ^ 3) (r / 2 ^ 29) = 0) as Hz by (rewrite Hz in Hsum; lia). rewrite <- Z.shiftl_mul_pow2 by lia. apply Z.bits_inj'. intros i Hi. rewrite Z.land_spec, Z.bits_0. destruct (Z.lt_ge_cases i 3).
      - by rewrite Z.shiftl_spec_low.
      - rewrite <- (Z.mod_small (r / 2 ^ 29) (2 ^ 3)) by lia. rewrite Z.mod_pow2_bits_high by lia. by rewrite andb_false_r. }
    apply (Z.mod_unique _ _ (q / 2 ^ 29)); [left; lia|]. lia.
Qed.

Lemma last_blocks ctx m z b0 : rep ctx m -> b0 = le_bytes 8 (8 * Z.of_nat (length m)) -> z = ((119 - length m mod 64) mod 64)%nat ->
  exists k, (length (Rfc.pad m) = 64 * k)%nat /\ drop (64 * (length m / 64)) (Rfc.pad m) = take (length m mod 64) (block ctx) ++ 0x80 :: repeat 0 z ++ b0.
Proof.
  intros [] -> ->. pose proof (Nat.div_mod_eq (length m) 64) as Hm. pose proof (Nat.mod_upper_bound (length m) 64 ltac:(lia)) as Hr. unfold Rfc.pad. set (r := (length m mod 64)%nat) in *. set (k := (length m / 64)%nat) in *.
  exists (k + (if (r <? 56)%nat then 1 else 2))%nat. split; [|rewrite drop_app_le by lia; by rewrite r_block0].
  rewrite length_app. cbn [length]. rewrite length_app, repeat_length, length_le_bytes. destruct (Nat.ltb_spec r 56).
  - rewrite <- (Nat.mod_unique (119 - r) 64 1 (55 - r)) by lia. lia.
  - rewrite <- (Nat.mod_unique (119 - r) 64 0 (119 - r)) by lia. lia.
Qed.

Lemma final_ok ctx m : rep ctx m -> SQUID_MD5Final ctx = Some (Rfc.md5 m).
Proof.
  intros Hrep. destruct (last_blocks ctx m _ _ Hrep eq_refl eq_refl) as (n & Hn & Hdrop). pose proof (r_buf _ _ Hrep) as Hbuf. pose proof (r_len _ _ Hrep) as Hlen.
  unfold SQUID_MD5Final. rewrite (r_b0 _ _ Hrep), (r_b1 _ _ Hrep), mod64. pose proof (length_words (length m)) as Hw. cbv zeta in Hw. set (w0 := le_bytes 4 (u32 _)) in *. set (w1 := le_bytes 4 (Z.lor _ _)) in *.
  assert (length w0 = 4%nat /\ length w1 = 4%nat) as [L0 L1] by (split; apply length_le_bytes). clearbody w0 w1.
  pose proof (Nat.div_mod_eq (length m) 64) as Hm. pose proof (Nat.mod_upper_bound (length m) 64 ltac:(lia)) as Hr. set (r := (length m mod 64)%nat) in *. set (k := (length m / 64)%nat) in *. clearbody r k. rewrite Nat2Z.id.
  assert (state_ok (Rfc.absorb k IV m)) as Hok by apply absorb_ok, IV_ok.
  assert (Rfc.absorb k IV m = Rfc.absorb k IV (Rfc.pad m)) as Hpre by (unfold Rfc.pad; symmetry; apply absorb_prefix; lia).
  destruct (memcpy_ok (block ctx) r [0x80]) as [-> Hl1]; [cbn; lia|]. bind_simpl. set (t := take r (block ctx)) in *. assert (length t = r) as Ht by (unfold t; rewrite length_take; lia).
  set (blk1 := t ++ [0x80] ++ _) in *. replace (Z.to_nat (Z.of_nat r + 1)) with (r + 1)%nat by lia. cbn [length] in *.
  assert (take (r + 1) blk1 = t ++ [0x80]) as Htk.
  { assert (blk1 = (t ++ [0x80]) ++ drop (r + 1) (block ctx)) as -> by (unfold blk1; by rewrite <- app_assoc). apply take_app_length'. rewrite length_app. cbn [length]. lia. }
  assert (forall st blk, length blk = 56%nat -> length st = 64%nat -> take 56 st = blk -> exists b1 b2, memcpy st 56 w0 = Some b1 /\ memcpy b1 60 w1 = Some b2 /\ b2 = blk ++ le_bytes 8 (8 * Z.of_nat (length m))) as Hend.
  { intros st blk Hb Hs Htake. destruct (memcpy_ok st 56 w0) as [E1 El1]; [lia|]. rewrite E1. eexists _, _. split; [done|]. destruct (memcpy_ok (take 56 st ++ w0 ++ drop (56 + length w0) st) 60 w1) as [E2 El2]; [lia|]. split; [exact E2|].
    rewrite <- Hw, Htake. rewrite (drop_ge (blk ++ _)) by (rewrite <- Htake, El1; lia). rewrite app_nil_r. rewrite !app_assoc. f_equal. rewrite take_app_le by (rewrite length_app; lia). apply take_ge. rewrite length_app. lia. }
  destruct (Z.ltb_spec (56 - 1 - Z.of_nat r) 0) as [Hneg|Hpos].
  - replace (Z.to_nat (56 - 1 - Z.of_nat r + 8)) with (63 - r)%nat by lia. destruct (memcpy_ok blk1 (r + 1) (repeat 0 (63 - r))) as [-> Hl2]; [rewrite repeat_length; lia|]. bind_simpl. rewrite repeat_length in *.
    rewrite Htk in *. rewrite (drop_ge blk1), app_nil_r in * by lia. set (blk2 := (t ++ [128]) ++ repeat 0 (63 - r)) in *.
    change (Z.to_nat 56) with 56%nat. destruct (memcpy_ok blk2 0 (repeat 0 56)) as [-> Hl3]; [rewrite repeat_length; lia|]. bind_simpl. rewrite take_0, repeat_length in *. cbn [app] in *.
    destruct (Hend (repeat 0 56 ++ drop (0 + 56) blk2) (repeat 0 56)) as (b1 & b2 & -> & E2 & Eb); [by rewrite repeat_length|lia|by rewrite (take_app_length' (repeat 0 56)) by (by rewrite repeat_length)|]. bind_simpl. rewrite E2. bind_simpl. unfold Rfc.md5. do 2 f_equal.
    rewrite (Nat.mod_small (119 - r) 64) in Hdrop by lia.
    assert (drop (64 * k) (Rfc.pad m) = blk2 ++ b2) as Hd2.
    { rewrite Hdrop, Eb. unfold blk2. rewrite <- !app_assoc. f_equal. cbn [app]. f_equal. rewrite app_assoc. f_equal. rewrite <- repeat_app. f_equal. lia. }
    assert (length b2 = 64)%nat as Lb2 by (rewrite Eb, length_app, repeat_length, length_le_bytes; done). assert (length blk2 = 64)%nat as Lk2 by lia.
    assert (length (Rfc.pad m) / 64 = S (S k))%nat as ->. { assert (length (drop (64 * k) (Rfc.pad m)) = 128)%nat as Hx by (rewrite Hd2, length_app; lia). rewrite length_drop in Hx. symmetry. apply (Nat.div_unique _ _ _ 0); lia. }
    rewrite !absorb_next. replace (64 * S k)%nat with (64 * k + 64)%nat by lia. rewrite <- drop_drop, Hd2. rewrite <- Hpre.
    rewrite (take_app_length' blk2 b2) by done. rewrite (drop_app_length' blk2 b2) by done. rewrite (take_ge b2) by lia.
    rewrite !transform_rfc; [by rewrite Hbuf|by rewrite Hbuf|rewrite transform_rfc by (by rewrite Hbuf); apply compress_ok].
  - bind_simpl. replace (Z.to_nat (56 - 1 - Z.of_nat r)) with (55 - r)%nat by lia. destruct (memcpy_ok blk1 (r + 1) (repeat 0 (55 - r))) as [-> Hl2]; [rewrite repeat_length; lia|]. bind_simpl. rewrite repeat_length in *. rewrite Htk in *.
    destruct (Hend ((t ++ [128]) ++ repeat 0 (55 - r) ++ drop (r + 1 + (55 - r)) blk1) ((t ++ [128]) ++ repeat 0 (55 - r))) as (b1 & b2 & -> & E2 & Eb).
    { rewrite !length_app, repeat_length, Ht. cbn [length]. lia. } { lia. }
    { rewrite app_assoc. apply take_app_length'. rewrite !length_app, repeat_length, Ht. cbn [length]. lia. }
    bind_simpl. rewrite E2. bind_simpl. unfold Rfc.md5. do 2 f_equal. rewrite <- (Nat.mod_unique (119 - r) 64 1 (55 - r)) in Hdrop by lia.
    assert (drop (64 * k) (Rfc.pad m) = b2) as Hd2 by (rewrite Hdrop, Eb, <- !app_assoc; done).
    assert (length b2 = 64)%nat as Lb2 by (rewrite Eb, !length_app, repeat_length, length_le_bytes; cbn; lia).
    assert (length (Rfc.pad m) / 64 = S k)%nat as ->. { rewrite <- Hd2, length_drop in Lb2. symmetry. apply (Nat.div_unique _ _ _ 0); lia. }
    rewrite absorb_next, Hd2, <- Hpre, (take_ge b2) by lia. rewrite transform_rfc by (by rewrite Hbuf). by rewrite Hbuf.
Qed.

Lemma pieces_ok ctx l : length (block ctx) = 64%nat -> Forall (fun d => Z.of_nat (length d) < 2 ^ 32) l -> md5_pieces ctx l = Some (Rfc.md5 (concat l)).
Proof.
  intros Hb Hl. unfold md5_pieces. destruct (update_all_ok l (SQUID_MD5Init ctx) [] (md5_init_ok ctx Hb) Hl) as (c & -> & Hc). bind_simpl. by apply final_ok.
Qed.

(** C28. MD5 of a message that is given in any number of pieces of any length
    is MD5 of the whole message as RFC 1321 defines it; no write leaves the
    block of the context, whatever was in it. *)
Theorem md5_correct ctx l : length (block ctx) = 64%nat -> Forall (fun d => Z.of_nat (length d) < 2 ^ 32) l -> md5_pieces ctx l = Some (Rfc.md5 (concat l)).
Proof. apply pieces_ok. Qed.

Lemma md5_correct_witness : md5_pieces ctx0 [str "GET"; str "http://example.com/"] = Some (Rfc.md5 (str "GEThttp://example.com/")).
Proof. apply (md5_correct ctx0 [str "GET"; str "http://example.com/"]); [reflexivity|]. repeat constructor. Defined.

End Md5.
