(* ===== verification/StoreKey.v ===== *)
(** * Keys of the store (src/store_key_md5.c)

    An object is found by a digest: of a number for private objects, of the
    method, the URL and what the reply varies on for public ones.  Keys are
    lists of 16 bytes; the digest is that of Md5.v.  [inputs] functions give
    the pieces that are digested. *)

From Stdlib Require Import ZArith Lia Ascii String.
From stdpp Require Import base strings list numbers option.
From S2P Require Import Prelude CStr Md5 HashTable HttpMethod.

Module StoreKey.

Definition SQUID_MD5_DIGEST_LENGTH : nat := 16.

(** ** Text *)

(** lib/hex.c *)
Definition tohex : bytes := str "0123456789ABCDEF".

Fixpoint hex_from_byte_array (src : bytes) : bytes :=
  match src with
  | [] => []
  | c :: src => nth (Z.to_nat (Z.land (Z.shiftr c 4) 15)) tohex 0 :: nth (Z.to_nat (Z.land c 15)) tohex 0 :: hex_from_byte_array src
  end.

Definition storeKeyText (key : bytes) : bytes := hex_from_byte_array key.

Definition hexval (c : Z) : option Z :=
  if isdigit c then Some (c - 48)
  else let c := tolower c in if (97 <=? c) && (c <=? 102) then Some (c - 87) else None.

Fixpoint hexdigits (acc : Z) (p : bytes) : Z :=
  match p with
  | [] => acc
  | c :: p => match hexval c with Some v => hexdigits (16 * acc + v) p | None => acc end
  end.

(** [strtol(t, NULL, 16)] of a short string *)
Definition strtol16 (t : bytes) : Z :=
  let t := drop (span isspace t) t in
  let neg := deref t =? 45 in
  let t := if neg || (deref t =? 43) then tail t else t in
  let t := match t with
           | z :: x :: h :: t' => if (z =? 48) && (tolower x =? 120) && bool_decide (is_Some (hexval h)) then h :: t' else t
           | _ => t
           end in
  if neg then - hexdigits 0 t else hexdigits 0 t.

(** A C string of the text; reading behind its NUL has no result. *)
Definition at_char (buf : bytes) (j : nat) : option Z := if (j =? length buf)%nat then Some 0 else buf !! j.

Fixpoint scan_loop (n j : nat) (buf : bytes) : option bytes :=
  match n with
  | O => Some []
  | S n =>
      let? a := at_char buf j in
      let? b := at_char buf (S j) in
      let t := if a =? 0 then [] else if b =? 0 then [a] else [a; b] in
      let? r := scan_loop n (S (S j)) buf in
      Some (wrap_u 8 (strtol16 t) :: r)
  end.

Definition storeKeyScan (buf : bytes) : option bytes := scan_loop SQUID_MD5_DIGEST_LENGTH 0 buf.

(** ** Comparing and hashing *)

Fixpoint cmp_loop (n : nat) (A B : bytes) : option Z :=
  match n with
  | O => Some 0
  | S n =>
      match A, B with
      | a :: A, b :: B => if a <? b then Some (-1) else if b <? a then Some 1 else cmp_loop n A B
      | _, _ => None
      end
  end.

Definition storeKeyHashCmp (a b : bytes) : option Z := cmp_loop SQUID_MD5_DIGEST_LENGTH a b.

(** [digest[3] << 24] has the sign bit of [int] for bytes above 127; the
    result is converted to [unsigned int] with its bits. *)
Definition storeKeyHashHash (key : bytes) (n : Z) : option Z :=
  let? d0 := key !! 0%nat in let? d1 := key !! 1%nat in let? d2 := key !! 2%nat in let? d3 := key !! 3%nat in
  let i := wrap_u 32 (Z.lor (Z.lor (Z.lor d0 (Z.shiftl d1 8)) (Z.shiftl d2 16)) (Z.shiftl d3 24)) in
  Some (Z.land i (wrap_u 32 (n - 1))).

Fixpoint buckets_loop (fuel : nat) (n nbuckets : Z) : option Z :=
  if n <? nbuckets then match fuel with O => None | S fuel => buckets_loop fuel (Z.shiftl n 1) nbuckets end else Some n.

Definition storeKeyHashBuckets (nbuckets : Z) : option Z := buckets_loop 18 0x2000 nbuckets.

Definition storeKeyNull (key : bytes) : bool := bool_decide (take SQUID_MD5_DIGEST_LENGTH key = repeat 0 SQUID_MD5_DIGEST_LENGTH).

(** ** Keys *)

Section keys.
Context (M : Md5.MD5Context).

Definition private_input (url : bytes) (method : option HttpMethod.method_t) (id : Z) : list bytes :=
  [le_bytes 4 id; match method with None => le_bytes 4 0 | Some m => le_bytes 4 (HttpMethod.code m) end; url].

Definition storeKeyPrivate (url : bytes) (method : option HttpMethod.method_t) (id : Z) : option bytes :=
  assert? 0 <? id in
  Md5.md5_pieces M (private_input url method id).

Definition method_byte (method : option HttpMethod.method_t) : Z := match method with None => 0 | Some m => wrap_u 8 (HttpMethod.code m) end.

Definition storeKeyPublic (url : bytes) (method : option HttpMethod.method_t) : option bytes :=
  Md5.md5_pieces M [[method_byte method]; url].

(** What a request is looked up by; [canonical] is the result of [urlCanonical]. *)
Record request_key := mkRq {
  store_url : option bytes;
  canonical : bytes;
  vary_headers : option bytes;
  vary_encoding : option bytes;
  urlgroup : option bytes;
  rq_method : option HttpMethod.method_t
}.

Definition marked (c : Z) (s : option bytes) : list bytes := match s with None => [] | Some s => [[0; c]; s] end.

Definition public_input (r : request_key) (method : option HttpMethod.method_t) : list bytes :=
  [[method_byte method]; default (canonical r) (store_url r)] ++
  match vary_headers r with None => [] | Some v => [[0; 86]; v] ++ marked 69 (vary_encoding r) end ++
  marked 71 (urlgroup r).

Definition storeKeyPublicByRequestMethod (r : request_key) (method : option HttpMethod.method_t) : option bytes := Md5.md5_pieces M (public_input r method).

Definition storeKeyPublicByRequest (r : request_key) : option bytes := storeKeyPublicByRequestMethod r (rq_method r).

End keys.

(** ** Text of keys *)

Lemma hex_byte b : 0 <= b < 256 -> hex_from_byte_array [b] = [nth (Z.to_nat (Z.land (Z.shiftr b 4) 15)) tohex 0; nth (Z.to_nat (Z.land b 15)) tohex 0] /\
  wrap_u 8 (strtol16 (hex_from_byte_array [b])) = b /\ Forall (fun c => c <> 0) (hex_from_byte_array [b]).
Proof.
  intros Hb. split; [done|]. assert (forallb (fun i => let b := Z.of_nat i in (wrap_u 8 (strtol16 (hex_from_byte_array [b])) =? b) && forallb (fun c => negb (c =? 0)) (hex_from_byte_array [b])) (seq 0 256) = true) as H by (vm_compute; reflexivity).
  rewrite forallb_forall in H. specialize (H (Z.to_nat b)). rewrite in_seq in H. specialize (H ltac:(lia)). cbv zeta in H. rewrite Z2Nat.id in H by lia. apply andb_true_iff in H as [H1 H2]. split; [by apply Z.eqb_eq|].
  rewrite forallb_forall in H2. apply List.Forall_forall. intros c Hc. specialize (H2 c Hc). by apply negb_true_iff, Z.eqb_neq in H2.
Qed.

Lemma scan_text key : forall n pre, length key = n -> Forall is_byte key -> scan_loop n (length pre) (pre ++ hex_from_byte_array key) = Some key.
Proof.
  induction key as [|b key IH]; intros n pre Hn Hb; [by subst n|]. destruct n as [|n]; [done|]. injection Hn as Hn. apply List.Forall_cons_iff in Hb as [Hb1 Hb]. destruct (hex_byte b Hb1) as (E & Hv & Hz).
  cbn [hex_from_byte_array]. set (x := nth (Z.to_nat (Z.land (Z.shiftr b 4) 15)) tohex 0) in *. set (y := nth (Z.to_nat (Z.land b 15)) tohex 0) in *. rewrite E in Hv, Hz.
  apply List.Forall_cons_iff in Hz as [Hx Hz]. apply List.Forall_cons_iff in Hz as [Hy _]. cbn [scan_loop]. unfold at_char. rewrite !length_app. cbn [length].
  destruct (Nat.eqb_spec (length pre) (length pre + S (S (length (hex_from_byte_array key))))); [lia|]. destruct (Nat.eqb_spec (S (length pre)) (length pre + S (S (length (hex_from_byte_array key))))); [lia|].
  rewrite (list_lookup_middle pre _ x (length pre)) by done. bind_simpl. rewrite lookup_app_r by lia. replace (S (length pre) - length pre)%nat with 1%nat by lia. cbn [lookup list_lookup]. bind_simpl.
  rewrite (proj2 (Z.eqb_neq x 0)), (proj2 (Z.eqb_neq y 0)) by done. specialize (IH n (pre ++ [x; y]) Hn Hb). rewrite length_app, <- app_assoc in IH. cbn [length app] in IH.
  replace (length pre + 2)%nat with (S (S (length pre))) in IH by lia. rewrite IH. bind_simpl. by rewrite Hv.
Qed.

(** ** Comparing keys *)

Lemma cmp_refl n : forall A, (n <= length A)%nat -> cmp_loop n A A = Some 0.
Proof. induction n as [|n IH]; intros A Ha; [done|]. destruct A as [|a A]; cbn in *; [lia|]. rewrite Z.ltb_irrefl. apply IH. lia. Qed.

Lemma cmp_spec n : forall A B, length A = n -> length B = n -> exists c, cmp_loop n A B = Some c /\ (c = 0 <-> A = B).
Proof.
  induction n as [|n IH]; intros [|a A] [|b B] Ha Hb; try done; [by exists 0|]. cbn [cmp_loop]. destruct (Z.ltb_spec a b); [exists (-1); split; [done|]; split; [done|]; intros [= -> _]; lia|].
  destruct (Z.ltb_spec b a); [exists 1; split; [done|]; split; [done|]; intros [= -> _]; lia|]. assert (a = b) as -> by lia. destruct (IH A B) as (c & E & Hc); [by injection Ha|by injection Hb|].
  exists c. split; [done|]. rewrite Hc. split; [by intros ->|by intros [= ->]].
Qed.

(** ** The table of keys *)

Definition skey : Type := { k : bytes | length k = SQUID_MD5_DIGEST_LENGTH }.

(** [storeKeyHashCmp] and [storeKeyHashHash], with which [store_table] is
    created, satisfy what the hash table needs. *)
#[export] Instance store_key_fns : HashTable.HashFns skey :=
  {| HashTable.cmp a b := default 0 (storeKeyHashCmp (`a) (`b)); HashTable.hash k n := default 0 (storeKeyHashHash (`k) n) |}.

Lemma cmp_eq (a b : skey) : HashTable.key_eq a b <-> `a = `b.
Proof.
  destruct a as [a Ha], b as [b Hb]. destruct (cmp_spec SQUID_MD5_DIGEST_LENGTH a b Ha Hb) as (c & E & Hc). change (default 0 (cmp_loop SQUID_MD5_DIGEST_LENGTH a b) = 0 <-> a = b). rewrite E. exact Hc.
Qed.

Lemma land_le i w : 0 <= w -> 0 <= Z.land i w <= w.
Proof.
  intros Hw. assert (0 <= Z.land i w) as H0 by (apply Z.land_nonneg; by right). split; [done|].
  assert (w - Z.land i w = Z.ldiff w (Z.land i w)) as E.
  { apply Z.sub_nocarry_ldiff. apply Z.bits_inj'. intros k Hk. rewrite Z.ldiff_spec, Z.land_spec, Z.bits_0. by destruct (Z.testbit i k), (Z.testbit w k). }
  assert (0 <= Z.ldiff w (Z.land i w)) by (apply Z.ldiff_nonneg; by left). lia.
Qed.

#[export] Instance store_key_laws : HashTable.HashLaws skey.
Proof.
  split.
  - split; [intros a; by apply cmp_eq|intros a b H; apply cmp_eq; symmetry; by apply cmp_eq|]. intros a b c H1 H2. apply cmp_eq. rewrite cmp_eq in H1, H2. congruence.
  - intros a b H n m ->. rewrite cmp_eq in H. cbn [HashTable.hash store_key_fns]. by rewrite H.
  - intros [k Hk] n Hn. cbn. unfold storeKeyHashHash. do 16 (destruct k as [|? k]; [done|]). cbn [lookup list_lookup mbind option_bind default].
    set (i := wrap_u 32 _). assert (0 <= i) as Hi by (apply Z.mod_pos_bound; lia). assert (0 <= wrap_u 32 (n - 1) <= n - 1) as Hw by (unfold wrap_u; split; [apply Z.mod_pos_bound; lia|apply Z.mod_le; lia]).
    pose proof (land_le i _ (proj1 Hw)). unfold id. lia.
Qed.

(** ** What a key stands for *)

Definition no_nul (s : bytes) : Prop := Forall (fun c => c <> 0) s.
Definition opt_no_nul (s : option bytes) : Prop := match s with None => True | Some s => no_nul s end.

(** A string without NUL ends at the first NUL that follows it. *)
Lemma split_nul a b x y : no_nul a -> no_nul b -> (x = [] \/ exists x', x = 0 :: x') -> (y = [] \/ exists y', y = 0 :: y') -> a ++ x = b ++ y -> a = b /\ x = y.
Proof.
  revert b. induction a as [|c a IH]; intros [|d b] Ha Hb Hx Hy E.
  - done.
  - apply List.Forall_cons_iff in Hb as [Hd _]. cbn in E. destruct Hx as [->|[x' ->]]; [done|]. injection E as Ed _. by destruct Hd.
  - apply List.Forall_cons_iff in Ha as [Hc _]. cbn in E. destruct Hy as [->|[y' ->]]; [done|]. injection E as Ec _. by destruct Hc.
  - apply List.Forall_cons_iff in Ha as [_ Ha]. apply List.Forall_cons_iff in Hb as [_ Hb]. injection E as <- E. destruct (IH b Ha Hb Hx Hy E) as [-> ->]. done.
Qed.

Lemma marked_start c s : concat (marked c s) = [] \/ exists x, concat (marked c s) = 0 :: x.
Proof. destruct s; [right|by left]. by eexists. Qed.

Lemma marked_inj c s t : opt_no_nul s -> opt_no_nul t -> concat (marked c s) = concat (marked c t) -> s = t.
Proof. destruct s as [s|], t as [t|]; cbn; try done. rewrite !app_nil_r. by intros _ _ [= ->]. Qed.

Definition rq_url (r : request_key) : bytes := default (canonical r) (store_url r).

Definition rq_ok (r : request_key) : Prop := no_nul (rq_url r) /\ opt_no_nul (vary_headers r) /\ opt_no_nul (vary_encoding r) /\ opt_no_nul (urlgroup r).

(** What the key of a request depends on. *)
Definition rq_name (r : request_key) : bytes * option (bytes * option bytes) * option bytes :=
  (rq_url r, (fun v => (v, vary_encoding r)) <$> vary_headers r, urlgroup r).

Lemma vary_group_inj r r' : rq_ok r -> rq_ok r' ->
  concat (match vary_headers r with None => [] | Some v => [[0; 86]; v] ++ marked 69 (vary_encoding r) end ++ marked 71 (urlgroup r)) =
  concat (match vary_headers r' with None => [] | Some v => [[0; 86]; v] ++ marked 69 (vary_encoding r') end ++ marked 71 (urlgroup r')) ->
  (fun v => (v, vary_encoding r)) <$> vary_headers r = (fun v => (v, vary_encoding r')) <$> vary_headers r' /\ urlgroup r = urlgroup r'.
Proof.
  intros (_ & Hv & He & Hg) (_ & Hv' & He' & Hg'). destruct (vary_headers r) as [v|], (vary_headers r') as [v'|]; cbn [app concat fmap option_fmap option_map].
  - rewrite !concat_app. cbn [concat]. intros [= E].
    assert (forall e g, concat (marked 69 e) ++ concat (marked 71 g) = [] \/ exists x, concat (marked 69 e) ++ concat (marked 71 g) = 0 :: x) as Hst.
    { intros e g. destruct (marked_start 69 e) as [->|[x ->]]; [apply marked_start|right; by eexists]. }
    destruct (split_nul v v' _ _ Hv Hv' (Hst _ _) (Hst _ _) E) as [-> E2].
    destruct (vary_encoding r) as [e|], (vary_encoding r') as [e'|]; cbn [marked concat app] in E2.
    + rewrite !app_nil_r in E2. injection E2 as E2. destruct (split_nul e e' _ _ He He' (marked_start _ _) (marked_start _ _) E2) as [-> E3]. split; [done|]. by apply (marked_inj 71).
    + destruct (urlgroup r'); done.
    + destruct (urlgroup r); done.
    + split; [done|]. by apply (marked_inj 71).
  - destruct (urlgroup r'); done.
  - destruct (urlgroup r); done.
  - intros E. split; [done|]. by apply (marked_inj 71).
Qed.

Lemma public_input_inj r r' m m' : rq_ok r -> rq_ok r' -> concat (public_input r m) = concat (public_input r' m') -> method_byte m = method_byte m' /\ rq_name r = rq_name r'.
Proof.
  intros Hr Hr'. unfold public_input. cbn [app concat]. intros [= -> E]. split; [done|]. fold (rq_url r) in E. fold (rq_url r') in E.
  assert (forall r, concat (match vary_headers r with None => [] | Some v => [[0; 86]; v] ++ marked 69 (vary_encoding r) end ++ marked 71 (urlgroup r)) = [] \/
    exists x, concat (match vary_headers r with None => [] | Some v => [[0; 86]; v] ++ marked 69 (vary_encoding r) end ++ marked 71 (urlgroup r)) = 0 :: x) as Hst.
  { intros q. destruct (vary_headers q); [right; by eexists|apply marked_start]. }
  destruct (split_nul _ _ _ _ (proj1 Hr) (proj1 Hr') (Hst r) (Hst r') E) as [Eu E2]. destruct (vary_group_inj r r' Hr Hr' E2) as [Ev Eg]. unfold rq_name. by rewrite Eu, Ev, Eg.
Qed.

(** No two NULs follow each other in what is digested for a public key. *)
Fixpoint two_nuls (l : bytes) : bool :=
  match l with
  | a :: (b :: _) as l' => (a =? 0) && (b =? 0) || two_nuls l'
  | _ => false
  end.

Lemma two_nuls_app a x : no_nul a -> two_nuls (a ++ x) = two_nuls x.
Proof.
  induction a as [|c a IH]; intros Ha; [done|]. apply List.Forall_cons_iff in Ha as [Hc Ha]. specialize (IH Ha). cbn [app two_nuls]. destruct (a ++ x) as [|d l] eqn:E; [by rewrite <- IH|].
  rewrite (proj2 (Z.eqb_neq c 0)) by done. exact IH.
Qed.

Lemma two_nuls_nul c x : c <> 0 -> two_nuls (0 :: c :: x) = two_nuls (c :: x).
Proof. intros Hc. cbn [two_nuls]. by rewrite (proj2 (Z.eqb_neq c 0)). Qed.

Lemma two_nuls_skip c x : c <> 0 -> two_nuls (c :: x) = two_nuls x.
Proof. intros Hc. apply (two_nuls_app [c]). by repeat constructor. Qed.

Lemma two_nuls_marked c s x : c <> 0 -> opt_no_nul s -> two_nuls (concat (marked c s) ++ x) = two_nuls x.
Proof.
  intros Hc Hs. destruct s as [s|]; [|done]. cbn [marked concat]. rewrite app_nil_r. cbn [app]. rewrite two_nuls_nul, two_nuls_skip by done. by apply two_nuls_app.
Qed.

Lemma public_two_nuls r m : rq_ok r -> two_nuls (tail (concat (public_input r m))) = false.
Proof.
  intros (Hu & Hv & He & Hg). unfold public_input. cbn [app concat tail]. fold (rq_url r). rewrite two_nuls_app by done. rewrite concat_app. rewrite <- (app_nil_r (concat (marked 71 _))).
  destruct (vary_headers r) as [v|].
  - cbn [app concat]. rewrite two_nuls_nul, two_nuls_skip by lia. rewrite <- app_assoc, two_nuls_app by done. rewrite !two_nuls_marked by (done || lia). done.
  - cbn [concat app]. by rewrite two_nuls_marked by (done || lia).
Qed.

(** A private key has the code of its method in four bytes, of which three are 0. *)
Lemma private_two_nuls url m id : (forall x, m = Some x -> 0 <= HttpMethod.code x < 256) -> two_nuls (tail (concat (private_input url m id))) = true.
Proof.
  intros Hm. unfold private_input. cbn [concat]. rewrite app_nil_r. set (z := match m with None => 0 | Some x => HttpMethod.code x end).
  assert (match m with None => le_bytes 4 0 | Some x => le_bytes 4 (HttpMethod.code x) end = le_bytes 4 z) as -> by (unfold z; by destruct m).
  assert (0 <= z < 256) as Hz by (unfold z; destruct m as [x|]; [by apply Hm|lia]).
  assert (le_bytes 4 z = [z; 0; 0; 0]) as ->.
  { cbn [le_bytes]. rewrite (Z.mod_small z 256), (Z.div_small z 256) by lia. done. }
  cbn [le_bytes app tail]. cbn [two_nuls]. rewrite !Z.eqb_refl. cbn [andb orb]. by rewrite ?orb_true_r.
Qed.

Lemma public_private_input r m url m' id : rq_ok r -> (forall x, m' = Some x -> 0 <= HttpMethod.code x < 256) -> concat (public_input r m) <> concat (private_input url m' id).
Proof. intros Hr Hm' E. pose proof (public_two_nuls r m Hr) as H1. rewrite E, private_two_nuls in H1; done. Qed.

Lemma private_input_id url m id url' m' id' : 0 < id < 2 ^ 31 -> 0 < id' < 2 ^ 31 -> concat (private_input url m id) = concat (private_input url' m' id') -> id = id'.
Proof.
  intros Hi Hi' E. apply (f_equal (fun l => le_val (take 4 l))) in E. unfold private_input in E. cbn [concat] in E.
  rewrite !(take_app_length' (le_bytes 4 _)) in E by (by rewrite length_le_bytes). rewrite !le_val_bytes in E. rewrite !Z.mod_small in E by (cbn; lia). done.
Qed.

(** C30. What a key stands for.  Requests are digested alike exactly if their
    methods have the same code and they agree in URL, variance and group; what
    is digested for a private key is never digested for a public one, and tells
    the number of the private key.  So unless MD5 collides, objects are found
    under their own names only. *)
Theorem store_keys_distinct :
  (forall r r' m m', rq_ok r -> rq_ok r' ->
    concat (public_input r m) = concat (public_input r' m') <-> method_byte m = method_byte m' /\ rq_name r = rq_name r') /\
  (forall r m url m' id, rq_ok r -> (forall x, m' = Some x -> 0 <= HttpMethod.code x < 256) -> concat (public_input r m) <> concat (private_input url m' id)) /\
  (forall url m id url' m' id', 0 < id < 2 ^ 31 -> 0 < id' < 2 ^ 31 -> concat (private_input url m id) = concat (private_input url' m' id') -> id = id').
Proof.
  split; [|split].
  - intros r r' m m' Hr Hr'. split; [by apply public_input_inj|]. intros [Em En]. unfold public_input. unfold rq_name in En. injection En as Eu Ev Eg. fold (rq_url r) (rq_url r'). rewrite Em, Eu, Eg. do 2 f_equal.
    destruct (vary_headers r), (vary_headers r'); cbn in Ev; try done. by injection Ev as -> ->.
  - apply public_private_input.
  - apply private_input_id.
Qed.

(** A key survives being written as text and read back, for all keys. *)
Theorem storeKey_text_roundtrip key : length key = SQUID_MD5_DIGEST_LENGTH -> Forall is_byte key -> storeKeyScan (storeKeyText key) = Some key.
Proof. intros Hl Hb. exact (scan_text key SQUID_MD5_DIGEST_LENGTH [] Hl Hb). Qed.

Lemma storeKey_text_roundtrip_witness : storeKeyScan (storeKeyText (Md5.Rfc.md5 (str "abc"))) = Some (Md5.Rfc.md5 (str "abc")).
Proof.
  apply (storeKey_text_roundtrip (Md5.Rfc.md5 (str "abc"))); [vm_compute; reflexivity|]. vm_compute. repeat constructor; discriminate.
Defined.

Definition ex_rq (v : option bytes) : request_key := mkRq None (str "http://example.com/") v None None None.

Lemma store_keys_distinct_witness : concat (public_input (ex_rq None) None) <> concat (public_input (ex_rq (Some (str "accept-encoding"))) None).
Proof.
  assert (forall v, opt_no_nul v -> rq_ok (ex_rq v)) as Hok by (intros v Hv; split; [vm_compute; repeat constructor; discriminate|split; [exact Hv|split; exact I]]).
  intros E. destruct store_keys_distinct as [H _]. apply H in E; [|apply Hok; exact I|apply Hok; vm_compute; repeat constructor; discriminate]. destruct E as [_ E]. discriminate E.
Defined.

End StoreKey.
