(* ===== verification/Url.v ===== *)
(** * URLs

    libsqurl/domain.c, proto.c and url.c, and src/url.c.  Strings are C strings;
    the local arrays of [MAX_URL] bytes that URLs are taken apart in are
    represented by their contents, with the length checked at every write.  The
    parts of the configuration that are used are a record. *)

From Stdlib Require Import ZArith Lia.
From stdpp Require Import base strings list numbers option.
From S2P Require Import Prelude CStr Rfc1738 HttpMethod.

Module Url.
Import HttpMethod.HttpMethod.

Definition SQUIDHOSTNAMELEN : Z := 256.
Definition MAX_URL : Z := 4096.
Definition MAX_LOGIN_SZ : Z := 128.

(** ** Domain names *)

(** [s[i]] of a C string: its bytes and the NUL. *)
Definition rd (s : bytes) (i : Z) : option Z :=
  assert? ((0 <=? i) && (i <=? Z.of_nat (length s))) in Some (nth (Z.to_nat i) s 0).

Fixpoint skip_dots (h : bytes) : bytes :=
  match h with 46 :: h => skip_dots h | _ => h end.

(** The loop from the ends of the strings; [hl] and [dl] as they are before
    their decrement. *)
Fixpoint match_loop (fuel : nat) (h d : bytes) (hl dl : Z) : option Z :=
  let hl := hl - 1 in
  let dl := dl - 1 in
  let? ch := rd h hl in
  let? cd := rd d dl in
  if tolower ch =? tolower cd then
    if (hl =? 0) && (dl =? 0) then Some 0
    else if hl =? 0 then
      let? d0 := rd d 0 in Some (if (dl =? 1) && (d0 =? 46) then 0 else -1)
    else if dl =? 0 then
      let? d0 := rd d 0 in Some (if d0 =? 46 then 0 else 1)
    else match fuel with O => None | S fuel => match_loop fuel h d hl dl end
  else if cd =? 46 then Some 1
  else if ch =? 46 then Some (-1)
  else Some (tolower ch - tolower cd).

Definition matchDomainName (h d : bytes) : option Z :=
  let h := skip_dots h in
  match_loop (length h) h d (Z.of_nat (length h)) (Z.of_nat (length d)).

(** ** Protocols *)

Definition PROTO_NONE : Z := 0.
Definition PROTO_HTTP : Z := 1.
Definition PROTO_FTP : Z := 2.
Definition PROTO_GOPHER : Z := 3.
Definition PROTO_WAIS : Z := 4.
Definition PROTO_CACHEOBJ : Z := 5.
Definition PROTO_ICP : Z := 6.
Definition PROTO_HTCP : Z := 7.
Definition PROTO_URN : Z := 8.
Definition PROTO_WHOIS : Z := 9.
Definition PROTO_INTERNAL : Z := 10.
Definition PROTO_HTTPS : Z := 11.

Definition ProtocolStr : list bytes :=
  map str ["NONE"; "http"; "ftp"; "gopher"; "wais"; "cache_object"; "icp"; "htcp"; "urn"; "whois"; "internal"; "https"; "TOTAL"].

(** [strcasecmp(a, b) == 0] *)
Definition strcaseeq (a b : bytes) : bool := bool_decide (map tolower a = map tolower b).

Definition urlParseProtocol (s : bytes) : Z :=
  if strcaseeq s (str "http") then PROTO_HTTP
  else if strcaseeq s (str "ftp") then PROTO_FTP
  else if strcaseeq s (str "https") then PROTO_HTTPS
  else if strcaseeq s (str "file") then PROTO_FTP
  else if strcaseeq s (str "gopher") then PROTO_GOPHER
  else if strcaseeq s (str "wais") then PROTO_WAIS
  else if strcaseeq s (str "cache_object") then PROTO_CACHEOBJ
  else if strcaseeq s (str "urn") then PROTO_URN
  else if strcaseeq s (str "whois") then PROTO_WHOIS
  else if strcaseeq s (str "internal") then PROTO_INTERNAL
  else PROTO_NONE.

(** The port the build listens on by default. *)
Definition CACHE_HTTP_PORT : Z := 3128.

Definition urlDefaultPort (p : Z) : Z :=
  if p =? PROTO_HTTP then 80
  else if p =? PROTO_HTTPS then 443
  else if p =? PROTO_FTP then 21
  else if p =? PROTO_GOPHER then 70
  else if p =? PROTO_WAIS then 210
  else if (p =? PROTO_CACHEOBJ) || (p =? PROTO_INTERNAL) then CACHE_HTTP_PORT
  else if p =? PROTO_WHOIS then 43
  else 0.

(** ** Small functions of libsqurl/url.c *)

Definition hexval (c : Z) : option Z :=
  if isdigit c then Some (c - 48)
  else if (97 <=? tolower c) && (tolower c <=? 102) then Some (tolower c - 87)
  else None.

(** [strtol(code, NULL, 16)] of a string of two characters. *)
Definition strtol16 (a b : Z) : Z :=
  match hexval a with
  | Some x => match hexval b with Some y => 16 * x + y | None => x end
  | None =>
      match hexval b with
      | Some y => if isspace a || (a =? 43) then y else if a =? 45 then - y else 0
      | None => 0
      end
  end.

(** The loop; characters are stored as bytes. *)
Fixpoint convert_loop (s : bytes) : bytes :=
  match s with
  | [] => []
  | c :: s1 =>
      match s1 with
      | a :: b :: s2 => if c =? 37 then wrap_u 8 (strtol16 a b) :: convert_loop s2 else c :: convert_loop s1
      | _ => c :: convert_loop s1
      end
  end.

Definition url_convert_hex (url : bytes) : bytes :=
  if (length url <? 3)%nat || bool_decide (strchr url 37 = None) then url else convert_loop url.

Definition urlIsRelative (url : option bytes) : bool :=
  match url with
  | None | Some [] => false
  | Some url => negb (deref (drop (span (fun c => negb (c =? 58) && negb (c =? 47)) url) url) =? 58)
  end.

(** [xstrncpy(dst, src, n)] *)
Definition xstrncpy (src : bytes) (n : Z) : bytes := take (Z.to_nat (n - 1)) src.

(** What follows the last [c]; [None] when there is none. *)
Fixpoint strrchr (s : bytes) (c : Z) : option bytes :=
  match s with
  | [] => None
  | d :: s1 => match strrchr s1 c with Some r => Some r | None => if d =? c then Some s else None end
  end.

(** The text up to the first [c]. *)
Definition upto (s : bytes) (c : Z) : bytes := take (span (fun d => negb (d =? c)) s) s.

Definition urlHostname (url : bytes) : option bytes :=
  let? t := strchr url 58 in
  let t := drop 1 t in
  let t := drop (span (fun c => c =? 47) t) t in
  let host := xstrncpy t SQUIDHOSTNAMELEN in
  let host := upto (upto host 47) 58 in
  Some match strrchr host 64 with Some t => drop 1 t | None => host end.

(** ** Requests *)

Record request_t := mkReq {
  rmethod : method_t;
  protocol : Z;
  urlpath : bytes;
  host : bytes;
  login : bytes;
  port : Z
}.

(** [Config.uri_whitespace] *)
Inductive uri_whitespace := WS_STRIP | WS_ALLOW | WS_ENCODE | WS_CHOP | WS_DENY.

Record url_config := mkCfg {
  appendDomain : option bytes;
  check_hostnames : bool;
  allow_underscore : bool;
  whitespace : uri_whitespace
}.

Definition appendDomainLen (cfg : url_config) : Z :=
  match appendDomain cfg with Some d => Z.of_nat (length d) | None => 0 end.

Definition valid_hostname_chars_u : bytes := str "ABCDEFGHIJKLMNOPQRSTUVWXYZabcdefghijklmnopqrstuvwxyz0123456789-._".
Definition valid_hostname_chars : bytes := str "ABCDEFGHIJKLMNOPQRSTUVWXYZabcdefghijklmnopqrstuvwxyz0123456789-.".
Definition w_space : bytes := [32; 9; 10; 13].

Definition stringHasWhitespace (s : bytes) : bool := existsb (mem_set w_space) s.
Definition stringHasCntl (s : bytes) : bool := existsb (fun c => (c <=? 31) || ((127 <=? c) && (c <=? 159))) s.

(** The text without the characters [xisspace] accepts. *)
Definition strip_space (s : bytes) : bytes := List.filter (fun c => negb (isspace c)) s.

(** A string fits an array of [MAX_URL] bytes. *)
Definition fits (s : bytes) : bool := Z.of_nat (length s) <? MAX_URL.

Definition CONNECT_PORT : Z := 443.

(** [sscanf(url, "%[^:]:%d", host, &port)]: [None] when nothing was read. *)
Definition scan_connect (url : bytes) : option (bytes * Z) :=
  let n := span (fun c => negb (c =? 58)) url in
  if (n =? 0)%nat then None
  else
    let rest := drop n url in
    let r := strtol (drop 1 rest) in
    Some (take n url, if (deref rest =? 58) && negb (st_len r =? 0)%nat then wrap_s 32 (st_val r) else CONNECT_PORT).

(** Everything before the last [@] is the login. *)
Definition split_login (host : bytes) : bytes * bytes :=
  match strrchr host 64 with
  | Some t => (take (length host - length t) host, drop 1 t)
  | None => ([], host)
  end.

(** Everything after the last colon is the port. *)
Definition split_port (host : bytes) (port : Z) : bytes * Z :=
  match strrchr host 58 with
  | Some t => (take (length host - length t) host, match drop 1 t with [] => port | p => atoi p end)
  | None => (host, port)
  end.

(** The parts of a URL: protocol, login, host, port, path; [None] inside for a
    URL that is refused. *)
Definition split_url (url : bytes) : option (option (Z * bytes * bytes * Z * bytes)) :=
  let n := span (fun c => negb (c =? 58)) url in
  let proto := take n url in
  let src := drop n url in
  assert? fits proto in
  if bool_decide (take 3 src = str "://") then
    let src := drop 3 src in
    let n := span (fun c => negb (c =? 47)) src in
    let host := take n src in
    let src := drop n src in
    assert? fits host in
    let urlpath := take (span (fun c => negb (c =? 13) && negb (c =? 10)) src) src in
    let urlpath := match urlpath with [] => [47] | _ => urlpath end in
    assert? fits urlpath in
    let protocol := urlParseProtocol proto in
    let port := urlDefaultPort protocol in
    let (login, host) := split_login host in
    let (host, port) := split_port host port in
    Some (Some (protocol, login, host, port, urlpath))
  else Some None.

(** Trailing dots are taken off one by one. *)
Fixpoint drop_dots (rev_host : bytes) : bytes :=
  match rev_host with 46 :: r => drop_dots r | _ => rev_host end.
Definition remove_trailing_dots (host : bytes) : bytes := rev (drop_dots (rev host)).

Fixpoint has_dotdot (s : bytes) : bool :=
  match s with
  | 46 :: ((46 :: _) as s1) => true
  | _ :: s1 => has_dotdot s1
  | [] => false
  end.

(** What is done to the host; [None] inside for a host that is refused. *)
Definition check_host (cfg : url_config) (host : bytes) : option (option bytes) :=
  let host := map tolower host in
  let host := if stringHasWhitespace host
              then match whitespace cfg with WS_STRIP => strip_space host | _ => host end
              else host in
  let valid := if allow_underscore cfg then valid_hostname_chars_u else valid_hostname_chars in
  if check_hostnames cfg && negb (strspn host valid =? length host)%nat then Some None
  else
    let host := match appendDomain cfg with
                | Some d => if bool_decide (strchr host 46 = None)
                            then host ++ take (Z.to_nat (wrap_u 64 (SQUIDHOSTNAMELEN - Z.of_nat (length host) - 1))) d
                            else host
                | None => host
                end in
    assert? fits host in
    let host := remove_trailing_dots host in
    if has_dotdot host || (deref host =? 46) then Some None else Some (Some host).

(** What is done to a path with white space; [esc] is the length of the static
    buffer of the escaping function. *)
Definition clean_path (cfg : url_config) (esc : option Z) (urlpath : bytes) : option (option bytes) :=
  if stringHasWhitespace urlpath then
    match whitespace cfg with
    | WS_DENY => Some None
    | WS_ALLOW => Some (Some urlpath)
    | WS_ENCODE =>
        let? (_, t) := Rfc1738.rfc1738_escape_unescaped esc urlpath in Some (Some (xstrncpy t MAX_URL))
    | WS_CHOP => Some (Some (take (strcspn urlpath w_space) urlpath))
    | WS_STRIP => Some (Some (strip_space urlpath))
    end
  else Some (Some urlpath).

Definition urnParse (method : method_t) (urn : bytes) : request_t :=
  mkReq method PROTO_URN (drop 4 urn) [] [] 0.

(** The checks and the construction of the request that all schemes share. *)
Definition make_request (cfg : url_config) (esc : option Z) (method : method_t)
    (protocol : Z) (login host : bytes) (port : Z) (urlpath : bytes) : option (option request_t) :=
  let? h := check_host cfg host in
  match h with
  | None => Some None
  | Some host =>
      if (port <? 1) || (65535 <? port) then Some None
      else
        let? p := clean_path cfg esc urlpath in
        match p with
        | None => Some None
        | Some urlpath =>
            Some (Some (mkReq method protocol urlpath (xstrncpy host SQUIDHOSTNAMELEN) (xstrncpy login MAX_LOGIN_SZ) (wrap_u 16 port)))
        end
  end.

(** The request, [None] inside for a URL that is refused, and the string
    [url] points to afterwards: one that is too long is cut by a write, which
    has to be inside the string. *)
Definition urlParse (cfg : url_config) (esc : option Z) (method : method_t) (url : bytes) : option (option request_t * bytes) :=
  if MAX_URL - 1 <? Z.of_nat (length url) + appendDomainLen cfg then
    assert? (Z.shiftr MAX_URL 1 <=? Z.of_nat (length url)) in
    Some (None, take (Z.to_nat (Z.shiftr MAX_URL 1)) url)
  else
    let? r :=
      if code method =? METHOD_CONNECT then
        match scan_connect url with
        | None => Some None
        | Some (host, port) => assert? fits host in make_request cfg esc method PROTO_NONE [] host port []
        end
      else if bool_decide (take 4 url = str "urn:") then Some (Some (urnParse method url))
      else
        let? parts := split_url url in
        match parts with
        | None => Some None
        | Some (protocol, login, host, port, urlpath) => make_request cfg esc method protocol login host port urlpath
        end in
    Some (r, url).

(** ** Printing *)

(** [snprintf] into a buffer of [n] bytes: the text it holds. *)
Definition snprintf (n : Z) (s : bytes) : bytes := take (Z.to_nat (n - 1)) s.

(** [%d] *)
Definition print_int (n : Z) : bytes := if n <? 0 then 45 :: dec (- n) else dec n.

Definition portbuf (protocol port : Z) : bytes :=
  if negb (port =? urlDefaultPort protocol) then snprintf 32 (58 :: print_int port) else [].

(** The text and the value of [snprintf], which is the untruncated length. *)
Definition urlMakeHttpCanonical (protocol : Z) (login host : bytes) (port : Z) (urlpath : bytes) : option (bytes * Z) :=
  let? proto := ProtocolStr !! Z.to_nat protocol in
  let s := proto ++ str "://" ++ login ++ (match login with [] => [] | _ => [64] end) ++ host ++ portbuf protocol port ++ urlpath in
  Some (snprintf MAX_URL s, Z.of_nat (length s)).

(** [for (; i < MAX_URL && *s != '\0'; i++, s++) buf[i] = *s;] *)
Fixpoint copy_loop (buf s : bytes) : bytes :=
  match s with
  | [] => buf
  | c :: s => if Z.of_nat (length buf) <? MAX_URL then copy_loop (buf ++ [c]) s else buf
  end.

(** [strcpy] and [strcat] into [loginbuf], an array of [MAX_LOGIN_SZ + 1]
    bytes. *)
Definition loginbuf (login : bytes) : option bytes :=
  match login with
  | [] => Some []
  | _ =>
      assert? (Z.of_nat (length login) <? MAX_LOGIN_SZ + 1) in
      let l := upto login 58 in
      assert? (Z.of_nat (length l) + 1 <? MAX_LOGIN_SZ + 1) in
      Some (l ++ [64])
  end.

(** The text in the buffer and the value returned. *)
Definition urlMakeHttpCanonical2 (protocol : Z) (login host : bytes) (port : Z) (urlpath : bytes) : option (bytes * Z) :=
  let? proto := ProtocolStr !! Z.to_nat protocol in
  let? lb := loginbuf login in
  let buf := copy_loop [] proto in
  let buf := copy_loop buf (str "://") in
  let buf := copy_loop buf lb in
  let buf := copy_loop buf host in
  let buf := copy_loop buf (portbuf protocol port) in
  let buf := copy_loop buf urlpath in
  let i := Z.of_nat (length buf) in
  Some (if MAX_URL - 1 <=? i then take (Z.to_nat (MAX_URL - 1)) buf else buf, i).

(** The text [urlCanonical] computes for a request that has none yet. *)
Definition urlCanonical (r : request_t) : option bytes :=
  if protocol r =? PROTO_URN then Some (snprintf MAX_URL (str "urn:" ++ urlpath r))
  else if code (rmethod r) =? METHOD_CONNECT then Some (snprintf MAX_URL (host r ++ 58 :: print_int (port r)))
  else let? (s, _) := urlMakeHttpCanonical (protocol r) (login r) (host r) (port r) (urlpath r) in Some s.

Definition urlCanonicalClean (strip_query_terms : bool) (esc : option Z) (r : request_t) : option bytes :=
  let? buf :=
    if protocol r =? PROTO_URN then Some (snprintf MAX_URL (str "urn:" ++ urlpath r))
    else if code (rmethod r) =? METHOD_CONNECT then Some (snprintf MAX_URL (host r ++ 58 :: print_int (port r)))
    else
      let? (s, _) := urlMakeHttpCanonical2 (protocol r) (login r) (host r) (port r) (urlpath r) in
      Some (if strip_query_terms
            then match strchr s 63 with Some t => take (length s - length t + 1) s | None => s end
            else s) in
  if stringHasCntl buf then
    let? (_, t) := Rfc1738.rfc1738_escape_unescaped esc buf in Some (xstrncpy t MAX_URL)
  else Some buf.

(** [urlMakeAbsolute]: the text written to the buffer of [MAX_URL] bytes and
    whether a NUL follows it; [None] inside is the NULL of the CONNECT
    method.  [strncpy] writes a NUL only when it has room left. *)
Definition strncpy_at (buf src : bytes) (n : Z) : bytes * bool :=
  (buf ++ take (Z.to_nat n) src, Z.of_nat (length src) <? n).

Definition urlMakeAbsolute (r : request_t) (relUrl : bytes) : option (option (bytes * bool)) :=
  if code (rmethod r) =? METHOD_CONNECT then Some None
  else if protocol r =? PROTO_URN then Some (Some (snprintf MAX_URL (str "urn:" ++ urlpath r), true))
  else
    let? proto := ProtocolStr !! Z.to_nat (protocol r) in
    let s := proto ++ str "://" ++ login r ++ (match login r with [] => [] | _ => [64] end) ++ host r ++
             (if negb (port r =? urlDefaultPort (protocol r)) then 58 :: print_int (port r) else []) in
    let urllen := Z.of_nat (length s) in
    let urlbuf := snprintf MAX_URL s in
    assert? (urllen <? MAX_URL) in
    if deref relUrl =? 47 then Some (Some (strncpy_at urlbuf relUrl (MAX_URL - urllen - 1)))
    else
      match strrchr (urlpath r) 47 with
      | None => Some (Some (strncpy_at (urlbuf ++ [47]) relUrl (MAX_URL - (urllen + 1) - 1)))
      | Some t =>
          let path := take (length (urlpath r) - length t + 1) (urlpath r) in
          let pathlen := Z.min (Z.of_nat (length path)) (MAX_URL - urllen - 1) in
          let urlbuf := urlbuf ++ take (Z.to_nat pathlen) path in
          let urllen := urllen + pathlen in
          Some (Some (if urllen + 1 <? MAX_URL then strncpy_at urlbuf relUrl (MAX_URL - urllen - 1) else (urlbuf, false)))
      end.

(** Does the method fit the protocol?  A build without SSL. *)
Definition urlCheckRequest (r : request_t) : bool :=
  let c := code (rmethod r) in
  let p := protocol r in
  if c =? METHOD_CONNECT then true
  else if c =? METHOD_TRACE then true
  else if c =? METHOD_PURGE then true
  else if (p =? PROTO_URN) || (p =? PROTO_HTTP) || (p =? PROTO_INTERNAL) || (p =? PROTO_CACHEOBJ) then true
  else if (p =? PROTO_FTP) || (p =? PROTO_GOPHER) || (p =? PROTO_WAIS) || (p =? PROTO_WHOIS) then
    ((p =? PROTO_FTP) && (c =? METHOD_PUT)) || (c =? METHOD_GET) || (c =? METHOD_HEAD)
  else false.

Definition GET : method_t := mkMethod METHOD_GET (Some (str "GET")) true false.
Definition cfg0 : url_config := mkCfg None true true WS_STRIP.
Example ex_url_parse : urlParse cfg0 None GET (str "HTTP://me:pw@WWW.Example.COM:8080/a?b") =
  Some (Some (mkReq GET PROTO_HTTP (str "/a?b") (str "www.example.com") (str "me:pw") 8080), str "HTTP://me:pw@WWW.Example.COM:8080/a?b").
Proof. vm_compute. reflexivity. Qed.
Example ex_canon : urlCanonical (mkReq GET PROTO_HTTP (str "/a?b") (str "www.example.com") (str "me:pw") 8080) =
  Some (str "http://me:pw@www.example.com:8080/a?b").
Proof. vm_compute. reflexivity. Qed.
(** The tests of [urlInitialize]. *)
Example ex_domains :
  matchDomainName (str "foo.com") (str "foo.com") = Some 0 /\ matchDomainName (str ".foo.com") (str "foo.com") = Some 0 /\
  matchDomainName (str "foo.com") (str ".foo.com") = Some 0 /\ matchDomainName (str "x.foo.com") (str ".foo.com") = Some 0 /\
  matchDomainName (str "x.foo.com") (str "foo.com") = Some 1 /\ matchDomainName (str "foo.com") (str "x.foo.com") = Some (-1) /\
  matchDomainName (str "x-foo.com") (str ".foo.com") = Some 1.
Proof. vm_compute. done. Qed.

(** ** Domain matching *)

(** What the table in domain.c says of lower case names: the names are the
    same, or the domain has a leading dot and is the host after it or a proper
    suffix of the host. *)
Definition domain_match (h d : bytes) : Prop :=
  h = d \/ exists d', d = 46 :: d' /\ (h = d' \/ exists p, h = p ++ d).

Lemma tolower_dot c : tolower c = 46 <-> c = 46.
Proof. unfold tolower. destruct ((65 <=? c) && (c <=? 90)) eqn:E; zify_bools; lia. Qed.

Lemma domain_match_snoc a x b y : a <> [] -> b <> [] ->
  domain_match (a ++ [x]) (b ++ [y]) <-> x = y /\ domain_match a b.
Proof.
  intros Ha Hb. destruct b as [|b0 b]; [done|]. unfold domain_match. split.
  - intros [[? ?]%app_inj_tail|(d' & [= -> <-] & [[? ?]%app_inj_tail|[p E]])].
    + split; [done|]. by left.
    + split; [done|]. right. exists b. auto.
    + rewrite app_assoc in E. apply app_inj_tail in E as [-> ->]. split; [done|]. right. exists b. split; [done|]. right. by exists p.
  - intros [-> [->|(d' & [= -> ->] & [->|[p ->]])]]; [by left| |].
    + right. exists (d' ++ [y]). auto.
    + right. exists (d' ++ [y]). split; [done|]. right. exists p. by rewrite <- app_assoc.
Qed.

Lemma domain_match_one_l x b y : b <> [] -> domain_match [x] (b ++ [y]) <-> x = y /\ b = [46].
Proof.
  intros Hb. destruct b as [|b0 b]; [done|]. unfold domain_match. split.
  - intros [E|(d' & [= -> <-] & [E|[p E]])].
    + injection E as _ E. by destruct b.
    + destruct b as [|? b]; [by injection E as ->|]. injection E as _ E. by destruct b.
    + apply (f_equal length) in E. rewrite length_app in E. cbn in E. rewrite length_app in E. cbn in E. lia.
  - intros [-> [= -> ->]]. right. exists [y]. auto.
Qed.

Lemma domain_match_one_r a x y : a <> [] -> domain_match (a ++ [x]) [y] <-> x = y /\ y = 46.
Proof.
  intros Ha. unfold domain_match. split.
  - intros [E|(d' & [= -> <-] & [E|[p [_ ->]%app_inj_tail]])]; [|by destruct a|done].
    destruct a as [|? [|? a]]; done.
  - intros [-> ->]. right. exists []. split; [done|]. right. by exists a.
Qed.

Lemma domain_match_last a x b y : domain_match (a ++ [x]) (b ++ [y]) -> x = y.
Proof.
  destruct a as [|a0 a], b as [|b0 b].
  - intros [[= ->]|(d' & [= -> <-] & [?|[p [_ ?]%app_inj_tail]])]; done.
  - intros [? ?]%(domain_match_one_l x (b0 :: b) y); done.
  - intros [? ?]%(domain_match_one_r (a0 :: a) x y); done.
  - intros [? ?]%(domain_match_snoc (a0 :: a) x (b0 :: b) y); done.
Qed.

Lemma rd_mid a x r n : n = Z.of_nat (length a) -> rd ((a ++ [x]) ++ r) n = Some x.
Proof.
  intros ->. unfold rd. rewrite !length_app. cbn [length].
  destruct (Z.leb_spec 0 (Z.of_nat (length a))); [|lia]. destruct (Z.leb_spec (Z.of_nat (length a)) (Z.of_nat (length a + 1 + length r))); [|lia].
  cbn [andb]. rewrite Nat2Z.id, <- app_assoc. f_equal. rewrite app_nth2 by lia. by rewrite Nat.sub_diag.
Qed.

Lemma rd_0 c l : rd (c :: l) 0 = Some c.
Proof. done. Qed.

(** One round of the loop, [again] being the rest of it. *)
Lemma match_round a x b y rb (again : option Z) :
  (tolower x = tolower y -> a <> [] -> b <> [] ->
    exists r, again = Some r /\ (r = 0 <-> domain_match (map tolower a) (map tolower b))) ->
  exists r,
  (if tolower x =? tolower y then
     if (Z.of_nat (length a) =? 0) && (Z.of_nat (length b) =? 0) then Some 0
     else if Z.of_nat (length a) =? 0 then
       let? d0 := rd ((b ++ [y]) ++ rb) 0 in Some (if (Z.of_nat (length b) =? 1) && (d0 =? 46) then 0 else -1)
     else if Z.of_nat (length b) =? 0 then
       let? d0 := rd ((b ++ [y]) ++ rb) 0 in Some (if d0 =? 46 then 0 else 1)
     else again
   else if y =? 46 then Some 1
   else if x =? 46 then Some (-1)
   else Some (tolower x - tolower y)) = Some r /\
  (r = 0 <-> domain_match (map tolower (a ++ [x])) (map tolower (b ++ [y]))).
Proof.
  intros Hagain. rewrite !map_app. cbn [map]. destruct (Z.eqb_spec (tolower x) (tolower y)) as [E|E].
  - destruct (decide (a = [])) as [->|Ha]; destruct (decide (b = [])) as [->|Hb]; cbn [length Z.of_nat map app].
    + exists 0. rewrite E. split; [done|]. split; [by left|done].
    + destruct b as [|b0 b]; [done|]. cbn [app]. rewrite rd_0. bind_simpl. cbn [length].
      destruct (Z.eqb_spec (Z.of_nat (S (length b))) 0); [lia|]. cbn [Z.eqb andb].
      eexists; split; [done|]. change (tolower b0 :: map tolower b ++ [tolower y]) with (map tolower (b0 :: b) ++ [tolower y]).
      rewrite domain_match_one_l by done. cbn [map]. rewrite E.
      destruct (Z.eqb_spec (Z.of_nat (S (length b))) 1); cbn [andb].
      * destruct b; [|cbn in *; lia]. cbn. destruct (Z.eqb_spec b0 46) as [->|Hd]; [done|].
        split; [done|]. intros [_ [= H0]]. by apply (proj1 (tolower_dot _)) in H0.
      * split; [done|]. intros [_ [= _ Hb']]. destruct b; [cbn in *; lia|done].
    + destruct a as [|a0 a]; [done|]. rewrite rd_0. bind_simpl. cbn [length].
      destruct (Z.eqb_spec (Z.of_nat (S (length a))) 0); [lia|]. cbn [Z.eqb andb].
      eexists; split; [done|]. rewrite domain_match_one_r by done. rewrite E, tolower_dot.
      destruct (Z.eqb_spec y 46); naive_solver.
    + destruct (Z.eqb_spec (Z.of_nat (length a)) 0); [by destruct a|]. destruct (Z.eqb_spec (Z.of_nat (length b)) 0); [by destruct b|].
      cbn [andb]. destruct (Hagain E Ha Hb) as (r & -> & Hr). exists r. split; [done|].
      rewrite Hr, domain_match_snoc by (by destruct a, b). tauto.
  - exists (if y =? 46 then 1 else if x =? 46 then -1 else tolower x - tolower y). split; [by case_ifs|].
    split; [|intros Hm; by apply domain_match_last in Hm]. case_ifs. lia.
Qed.

Lemma match_loop_ok fuel a x ra b y rb : (length a <= fuel)%nat ->
  exists r, match_loop fuel ((a ++ [x]) ++ ra) ((b ++ [y]) ++ rb) (Z.of_nat (length a) + 1) (Z.of_nat (length b) + 1) = Some r /\
  (r = 0 <-> domain_match (map tolower (a ++ [x])) (map tolower (b ++ [y]))).
Proof.
  revert a x ra b y rb. induction fuel as [|fuel IH]; intros a x ra b y rb Hf; cbn [match_loop];
    rewrite !Z.add_simpl_r; rewrite (rd_mid a x ra (Z.of_nat (length a)) eq_refl), (rd_mid b y rb (Z.of_nat (length b)) eq_refl); bind_simpl; apply match_round.
  - intros _ Ha. destruct a; [done|cbn in Hf; lia].
  - intros _ Ha Hb. destruct (exists_last Ha) as (a' & x' & ->), (exists_last Hb) as (b' & y' & ->).
    rewrite <- !(app_assoc (_ ++ [_]) [_]), !length_app. cbn [length]. rewrite !Nat2Z.inj_add. apply IH.
    rewrite length_app in Hf. cbn in Hf. lia.
Qed.

Lemma matchDomainName_ok h d : skip_dots h <> [] -> d <> [] ->
  exists r, matchDomainName h d = Some r /\
  (r = 0 <-> domain_match (map tolower (skip_dots h)) (map tolower d)).
Proof.
  intros Hh Hd. unfold matchDomainName. destruct (exists_last Hh) as (a & x & E), (exists_last Hd) as (b & y & ->). rewrite E.
  destruct (match_loop_ok (length (a ++ [x])) a x [] b y []) as (r & Hr & Hm); [len_lia|]. exists r. split; [|done].
  rewrite !app_nil_r in Hr. rewrite <- Hr. f_equal; len_lia.
Qed.

(** Domain names are matched as the table in domain.c says: for a host
    that has a character other than a dot and a non-empty domain, the result
    is 0 exactly when the host without its leading dots equals the domain, or
    the domain has a leading dot and the host is what follows it or ends with
    it, all without regard to case.  No read is outside the strings. *)
Theorem matchDomainName_correct h d : skip_dots h <> [] -> d <> [] ->
  exists r, matchDomainName h d = Some r /\
  (r = 0 <-> domain_match (map tolower (skip_dots h)) (map tolower d)).
Proof. apply matchDomainName_ok. Qed.

Lemma matchDomainName_correct_witness :
  matchDomainName (str "..www.Foo.com") (str ".fOO.com") = Some 0 /\ skip_dots (str "..www.Foo.com") = str "www.Foo.com".
Proof.
  split; [|done]. destruct (matchDomainName_correct (str "..www.Foo.com") (str ".fOO.com")) as (r & -> & Hr); [done..|].
  f_equal. apply Hr. right. exists (str "foo.com"). split; [done|]. right. by exists (str "www").
Defined.

(** A host of dots only, or an empty domain, is read before its start. *)
Lemma matchDomainName_underflow h d : skip_dots h = [] \/ d = [] -> matchDomainName h d = None.
Proof.
  unfold matchDomainName. intros [->| ->]; cbn [length Z.of_nat match_loop]; [done|].
  destruct (length (skip_dots h)); cbn [match_loop]; destruct (rd (skip_dots h) _); done.
Qed.

(** ** What [urlParse] accepts *)

Lemma fits_ok s : Z.of_nat (length s) < MAX_URL -> fits s = true.
Proof. intros ?. unfold fits. by apply Z.ltb_lt. Qed.

Lemma length_filter_le {A} (f : A -> bool) l : (length (List.filter f l) <= length l)%nat.
Proof. induction l as [|x l IH]; cbn; [lia|]. destruct (f x); cbn; lia. Qed.

Lemma drop_dots_tail l : exists n, drop_dots l = drop n l /\ deref (drop_dots l) <> 46.
Proof.
  induction l as [|c l IH]; [by exists 0%nat|]. destruct (decide (c = 46)) as [->|Hc]; cbn [drop_dots].
  - destruct IH as (n & E & Hn). exists (S n). by rewrite E in *.
  - exists 0%nat. rewrite drop_0. destruct (decide (c = 46)); [done|].
    assert (match c with 46 => drop_dots l | _ => c :: l end = c :: l) as -> by (repeat (case_match; try done)). done.
Qed.

Lemma remove_trailing_dots_take h : exists n, remove_trailing_dots h = take n h /\ list.last (remove_trailing_dots h) <> Some 46.
Proof.
  unfold remove_trailing_dots. destruct (drop_dots_tail (rev h)) as (n & E & Hd). exists (length h - n)%nat. split.
  - rewrite E, skipn_rev, rev_involutive. done.
  - destruct (drop_dots (rev h)) as [|c l]; [done|]. cbn in *. rewrite last_snoc. naive_solver.
Qed.

Lemma has_dotdot_tail c s : has_dotdot (c :: s) = false -> has_dotdot s = false.
Proof. cbn. repeat (case_match; try done). Qed.

Lemma has_dotdot_take n s : has_dotdot s = false -> has_dotdot (take n s) = false.
Proof.
  revert s. induction n as [|n IH]; intros [|c s] H; try done. cbn [take].
  specialize (IH s (has_dotdot_tail c s H)). destruct s as [|d s]; [by rewrite take_nil|]. destruct n as [|n].
  - cbn. repeat (case_match; try done).
  - cbn [take] in *. revert H IH. cbn [has_dotdot]. repeat (case_match; try done).
Qed.

Lemma deref_take n (s : bytes) : deref s <> 46 -> deref (take n s) <> 46.
Proof. destruct s, n; cbn; lia. Qed.

(** A host of a request; [n] is the length the domain that is appended may
    have. *)
Definition host_wf (cfg : url_config) (h : bytes) : Prop :=
  has_dotdot h = false /\ deref h <> 46 /\ Z.of_nat (length h) < SQUIDHOSTNAMELEN /\
  (default [] (appendDomain cfg) = map tolower (default [] (appendDomain cfg)) -> h = map tolower h).

Lemma map_take_fix {A} (f : A -> A) n (l : list A) : l = map f l -> take n l = map f (take n l).
Proof. intros E. rewrite <- firstn_map. by rewrite <- E. Qed.

Lemma map_filter_fix (f : Z -> Z) g l : l = map f l -> List.filter g l = map f (List.filter g l).
Proof.
  induction l as [|x l IH]; [done|]. cbn. intros [= Ex El]. destruct (g x); cbn; [rewrite <- Ex; f_equal|]; by apply IH.
Qed.

Lemma map_app_fix {A} (f : A -> A) (a b : list A) : a = map f a -> b = map f b -> a ++ b = map f (a ++ b).
Proof. rewrite map_app. by intros <- <-. Qed.

Lemma check_host_ok cfg h : Z.of_nat (length h) + appendDomainLen cfg < MAX_URL ->
  exists r, check_host cfg h = Some r /\ forall h', r = Some h' -> host_wf cfg (xstrncpy h' SQUIDHOSTNAMELEN).
Proof.
  intros Hl. unfold check_host. cbn zeta.
  set (h1 := if stringHasWhitespace (map tolower h) then _ else _).
  assert (H1 : (length h1 <= length h)%nat /\ h1 = map tolower h1).
  { assert (map tolower h = map tolower (map tolower h)) by (rewrite map_map; apply map_ext; intros; by rewrite tolower_idem).
    unfold h1, strip_space. case_ifs; [case_match|]; split; rewrite ?length_map; try done; [|by apply map_filter_fix].
    etransitivity; [apply length_filter_le|]. by rewrite length_map. }
  destruct H1 as [Hl1 Hlow]. clearbody h1.
  destruct (check_hostnames cfg && _); [by eexists|].
  set (h2 := match appendDomain cfg with Some _ => _ | None => _ end).
  assert (H2 : Z.of_nat (length h2) < MAX_URL /\ (default [] (appendDomain cfg) = map tolower (default [] (appendDomain cfg)) -> h2 = map tolower h2)).
  { unfold h2, appendDomainLen in *. destruct (appendDomain cfg) as [d|]; cbn [default]; [|split; [lia|done]].
    case_bool_decide; [|split; [lia|done]]. split; [len_lia|]. intros Hd. apply map_app_fix; [done|]. by apply map_take_fix. }
  destruct H2 as [Hl2 Hlow2]. clearbody h2. rewrite fits_ok by done.
  destruct (remove_trailing_dots_take h2) as (n & E & _). rewrite E.
  destruct (has_dotdot (take n h2)) eqn:Hdd; [by eexists|]. destruct (Z.eqb_spec (deref (take n h2)) 46); [by eexists|]. cbn [orb].
  eexists. split; [done|]. intros ? [= <-]. unfold host_wf, xstrncpy. split; [by apply has_dotdot_take|]. split; [by apply deref_take|].
  split; [rewrite length_take; unfold SQUIDHOSTNAMELEN in *; lia|]. intros Hd. do 2 apply map_take_fix. by apply Hlow2.
Qed.

Lemma escape_loop_prefix enc n p out out' : Rfc1738.escape_loop enc n p out = Some out' -> exists t, out' = out ++ t.
Proof.
  revert out. induction p as [|c p IH]; intros out; cbn [Rfc1738.escape_loop]; intros H; inv_opt H.
  - simplify_eq. exists []. by rewrite app_nil_r.
  - case_match; inv_opt H; apply IH in H as [t ->]; eexists; by rewrite <- app_assoc.
Qed.

(** Escaping keeps the slash a path starts with. *)
Lemma escape_slash esc p : Rfc1738.buf_ok esc -> Forall Rfc1738.ascii7 (47 :: p) ->
  exists esc' t, Rfc1738.rfc1738_escape_unescaped esc (47 :: p) = Some (esc', 47 :: t).
Proof.
  intros Hb Hp. destruct (Rfc1738.do_escape_ok esc (47 :: p) (-1) Hb Hp) as (esc' & t & E & _).
  exists esc'. unfold Rfc1738.rfc1738_escape_unescaped in *. rewrite E. revert E. unfold Rfc1738.rfc1738_do_escape. cbn zeta.
  set (n := match esc with Some _ => _ | None => _ end). clearbody n. cbn [Rfc1738.escape_loop].
  change (Rfc1738.do_escape (-1) 47) with (Some false). bind_simpl. intros H. inv_opt H. simplify_eq.
  inv_opt E. apply escape_loop_prefix in E as [t' ->]. by exists t'.
Qed.

Lemma clean_path_ok cfg esc p : Z.of_nat (length p) < MAX_URL ->
  (whitespace cfg = WS_ENCODE -> Rfc1738.buf_ok esc /\ Forall Rfc1738.ascii7 p) -> p = [] \/ deref p = 47 ->
  exists r, clean_path cfg esc p = Some r /\
  forall p', r = Some p' -> Z.of_nat (length p') < MAX_URL /\ (p = [] /\ p' = [] \/ deref p = 47 /\ deref p' = 47).
Proof.
  intros Hl He Hp. unfold clean_path. destruct p as [|c p].
  { eexists. split; [done|]. intros ? [= <-]. split; [done|by left]. }
  destruct Hp as [|Hp]; [done|]. cbn in Hp. subst c. case_ifs; [|eexists; split; [done|]; intros ? [= <-]; by auto].
  destruct (whitespace cfg) eqn:Ew.
  - eexists. split; [done|]. intros ? [= <-]. split; [|by right]. unfold strip_space.
    pose proof (length_filter_le (fun c => negb (isspace c)) p). cbn [length]. lia.
  - eexists. split; [done|]. intros ? [= <-]. by auto.
  - destruct He as [Hb Ha]; [done|]. destruct (escape_slash esc p Hb Ha) as (esc' & t & ->). bind_simpl.
    eexists. split; [done|]. intros ? [= <-]. unfold xstrncpy. split; [rewrite length_take; unfold MAX_URL in *; lia|by right].
  - eexists. split; [done|]. intros ? [= <-]. split; [|by right]. cbn [length]. rewrite length_take. lia.
  - by eexists.
Qed.

(** The requests [urlParse] gives. *)
Definition request_wf (cfg : url_config) (m : method_t) (r : request_t) : Prop :=
  rmethod r = m /\ host_wf cfg (host r) /\ Z.of_nat (length (login r)) < MAX_LOGIN_SZ /\
  Z.of_nat (length (urlpath r)) < MAX_URL /\
  if code m =? METHOD_CONNECT then protocol r = PROTO_NONE /\ login r = [] /\ urlpath r = [] /\ 1 <= port r <= 65535
  else (protocol r = PROTO_URN /\ host r = [] /\ login r = [] /\ port r = 0) \/ (deref (urlpath r) = 47 /\ 1 <= port r <= 65535).

Lemma make_request_ok cfg esc m pr l h po p : Z.of_nat (length h) + appendDomainLen cfg < MAX_URL -> Z.of_nat (length p) < MAX_URL ->
  (whitespace cfg = WS_ENCODE -> Rfc1738.buf_ok esc /\ Forall Rfc1738.ascii7 p) -> p = [] \/ deref p = 47 ->
  exists r, make_request cfg esc m pr l h po p = Some r /\
  forall q, r = Some q -> rmethod q = m /\ protocol q = pr /\ login q = xstrncpy l MAX_LOGIN_SZ /\ host_wf cfg (host q) /\
    1 <= port q <= 65535 /\ Z.of_nat (length (urlpath q)) < MAX_URL /\
    (p = [] /\ urlpath q = [] \/ deref p = 47 /\ deref (urlpath q) = 47).
Proof.
  intros Hh Hl He Hp. unfold make_request. destruct (check_host_ok cfg h Hh) as ([h'|] & -> & Hw); bind_simpl; [|by eexists].
  destruct (Z.ltb_spec po 1), (Z.ltb_spec 65535 po); cbn [orb]; [by eexists..|].
  destruct (clean_path_ok cfg esc p Hl He Hp) as ([p'|] & -> & Hc); bind_simpl; [|by eexists].
  eexists. split; [done|]. intros ? [= <-]. cbn. destruct (Hc p' eq_refl). rewrite wrap_u_small by lia. lsplits. by apply Hw.
Qed.

Lemma strrchr_suffix s c t : strrchr s c = Some t -> exists a, s = a ++ t /\ deref t = c.
Proof.
  revert t. induction s as [|d s IH]; cbn; [done|]. intros t. destruct (strrchr s c) as [r|].
  - intros [= ->]. destruct (IH t eq_refl) as (a & -> & Hd). by exists (d :: a).
  - destruct (Z.eqb_spec d c); [|done]. intros [= <-]. by exists [].
Qed.

Lemma strrchr_length s c t : strrchr s c = Some t -> (length t <= length s)%nat.
Proof. intros (a & -> & _)%strrchr_suffix. len_lia. Qed.

Lemma split_login_length h l h' : split_login h = (l, h') -> (length h' <= length h)%nat.
Proof. unfold split_login. destruct (strrchr h 64) as [t|] eqn:E; intros [= <- <-]; [|lia]. apply strrchr_length in E. len_lia. Qed.

Lemma split_port_length h po h' po' : split_port h po = (h', po') -> (length h' <= length h)%nat.
Proof. unfold split_port. destruct (strrchr h 58) as [t|] eqn:E; intros [= <- <-]; len_lia. Qed.

(** The path: a slash is supplied when there is none. *)
Lemma path_slash src (f : Z -> bool) : let p := take (span f (drop (span (fun c => negb (c =? 47)) src) src)) (drop (span (fun c => negb (c =? 47)) src) src) in
  deref (match p with [] => [47] | _ => p end) = 47.
Proof.
  cbn zeta. set (r := drop _ src). destruct r as [|c r'] eqn:E; [done|]. unfold r in E. apply span_drop in E.
  destruct (Z.eqb_spec c 47) as [->|]; [|done]. cbn. by destruct (f 47).
Qed.

Lemma split_url_ok url : Z.of_nat (length url) < MAX_URL ->
  exists r, split_url url = Some r /\
  forall pr l h po p, r = Some (pr, l, h, po, p) ->
    (length h <= length url)%nat /\ Z.of_nat (length p) < MAX_URL /\ deref p = 47 /\
    (Forall Rfc1738.ascii7 url -> Forall Rfc1738.ascii7 p).
Proof.
  intros Hl. unfold split_url. rewrite fits_ok by len_lia. case_bool_decide; [|by eexists].
  set (src := drop 3 _). rewrite fits_ok by (unfold src; len_lia).
  assert (Hs : (length src <= length url)%nat) by (unfold src; len_lia).
  assert (Ha : Forall Rfc1738.ascii7 url -> Forall Rfc1738.ascii7 src) by (intros; unfold src; by do 2 apply Forall_drop).
  clearbody src. pose proof (path_slash src (fun c => negb (c =? 13) && negb (c =? 10))) as Hp. cbn zeta in Hp.
  set (h := drop _ src) in *. set (p := take _ h) in *.
  assert (Hpl : (length p <= length src)%nat) by (unfold p, h; len_lia).
  assert (Hpa : Forall Rfc1738.ascii7 url -> Forall Rfc1738.ascii7 p) by (intros; unfold p, h; auto using Forall_take, Forall_drop).
  clearbody p. rewrite fits_ok by (destruct p; cbn in *; unfold MAX_URL in *; lia).
  destruct (split_login _) as [l h1] eqn:El. destruct (split_port h1 _) as [h2 po] eqn:Ep.
  eexists. split; [done|]. intros ? ? ? ? ? [= <- <- <- <- <-].
  apply split_login_length in El. apply split_port_length in Ep. split; [len_lia|]. destruct p; [|by auto with lia].
  splits. intros _. repeat constructor.
Qed.

Lemma xstrncpy_length s n : 0 < n -> Z.of_nat (length (xstrncpy s n)) < n.
Proof. intros ?. unfold xstrncpy. rewrite length_take. lia. Qed.

(** C19. Parsing a URL is memory safe, and gives well-formed requests only: for
    every URL, method and configuration (with the ENCODE treatment of white
    space, every URL of 7-bit characters; the domain to append shorter than half
    the buffers) [urlParse] returns; the string it
    leaves fits the buffers of [MAX_URL] bytes; a request it gives has the
    method, a host without leading or doubled dots that fits its array and
    is in lower case if the domain that is appended is, a login and a path
    that fit, and a port from 1 to 65535 and a path that starts with a slash
    unless it is a CONNECT, which has no path, or a URN, which has no host. *)
Theorem urlParse_wf cfg esc m url : appendDomainLen cfg < MAX_URL / 2 ->
  (whitespace cfg = WS_ENCODE -> Rfc1738.buf_ok esc /\ Forall Rfc1738.ascii7 url) ->
  exists r url', urlParse cfg esc m url = Some (r, url') /\ Z.of_nat (length url') < MAX_URL /\ url' `prefix_of` url /\
  match r with Some q => request_wf cfg m q | None => True end.
Proof.
  intros Hd He. unfold urlParse. destruct (Z.ltb_spec (MAX_URL - 1) (Z.of_nat (length url) + appendDomainLen cfg)) as [|Hl].
  { change (Z.shiftr MAX_URL 1) with (MAX_URL / 2). change (MAX_URL / 2) with 2048 in *. unfold MAX_URL in *.
    destruct (Z.leb_spec 2048 (Z.of_nat (length url))); [|lia].
    eexists None, _. split; [done|]. split; [|split; [apply prefix_take|done]]. rewrite length_take. lia. }
  assert (0 <= appendDomainLen cfg) as Ha by (unfold appendDomainLen; destruct (appendDomain cfg); lia).
  assert (Hr : forall x, (exists r, x = Some r /\ match r with Some q => request_wf cfg m q | None => True end) ->
    exists r url', (let? r := x in Some (r, url)) = Some (r, url') /\ Z.of_nat (length url') < MAX_URL /\ url' `prefix_of` url /\
    match r with Some q => request_wf cfg m q | None => True end).
  { intros x (r & -> & Hr). exists r, url. bind_simpl. splits; lia. }
  apply Hr. clear Hr. unfold request_wf. destruct (code m =? METHOD_CONNECT) eqn:Ec.
  - unfold scan_connect. destruct (_ =? 0)%nat; [by eexists|]. rewrite fits_ok by len_lia.
    match goal with |- context [make_request cfg esc m PROTO_NONE [] ?h ?po []] =>
      destruct (make_request_ok cfg esc m PROTO_NONE [] h po []) as (r & E & Hq); [len_lia|done| |by left|] end.
    { intros Hw. split; [by apply He|done]. }
    exists r. split; [exact E|]. destruct r as [q|]; [|done]. destruct (Hq q eq_refl) as (-> & -> & -> & Hh & Hp & _ & [[_ ->]|[? _]]); [|done].
    unfold xstrncpy. rewrite take_nil. splits; lia.
  - case_bool_decide.
    { eexists. split; [done|]. cbn [rmethod host login urlpath protocol port urnParse].
      splits; [len_lia|by left]. }
    destruct (split_url_ok url) as ([[[[[pr l] h] po] p]|] & -> & Hs); [lia| |by eexists]. bind_simpl.
    destruct (Hs pr l h po p eq_refl) as (Hh & Hp & Hp0 & Hpa).
    destruct (make_request_ok cfg esc m pr l h po p) as (r & -> & Hq); [lia|lia| |by right|].
    { intros Hw. destruct (He Hw). auto. }
    exists r. split; [done|]. destruct r as [q|]; [|done].
    destruct (Hq q eq_refl) as (-> & -> & -> & Hh' & Hpo & Hpl & [[-> _]|[_ Hp']]); [done|]. splits; [|by right].
    by apply xstrncpy_length.
Qed.

Lemma urlParse_wf_witness :
  exists r url', urlParse cfg0 None GET (str "http://WWW.x.org/a b") = Some (r, url') /\ Z.of_nat (length url') < MAX_URL /\
  url' `prefix_of` str "http://WWW.x.org/a b" /\ match r with Some q => request_wf cfg0 GET q | None => True end.
Proof. apply urlParse_wf; [by vm_compute|done]. Defined.

(** ** Round trip *)

(** A host as [urlParse] leaves it, of characters that are valid under every
    configuration. *)
Definition host_ok (cfg : url_config) (h : bytes) : Prop :=
  Forall (fun c => mem_set valid_hostname_chars c = true) h /\ h = map tolower h /\
  has_dotdot h = false /\ deref h <> 46 /\ list.last h <> Some 46 /\ Z.of_nat (length h) < SQUIDHOSTNAMELEN /\
  (appendDomain cfg = None \/ strchr h 46 <> None).

Lemma strrchr_none s c : Forall (fun d => d <> c) s -> strrchr s c = None.
Proof. induction 1 as [|d s Hd Hs IH]; cbn; [done|]. rewrite IH. by destruct (Z.eqb_spec d c). Qed.

Lemma strrchr_last a b c : Forall (fun d => d <> c) b -> strrchr (a ++ c :: b) c = Some (c :: b).
Proof.
  intros Hb. induction a as [|d a IH]; cbn.
  - rewrite strrchr_none by done. by rewrite Z.eqb_refl.
  - by rewrite IH.
Qed.

(** Characters of a host name are none of the delimiters. *)
Lemma valid_char c : mem_set valid_hostname_chars c = true ->
  c <> 47 /\ c <> 58 /\ c <> 64 /\ mem_set w_space c = false /\ mem_set valid_hostname_chars_u c = true.
Proof.
  intros Hc. assert (Hall : forallb (fun c => negb (c =? 47) && negb (c =? 58) && negb (c =? 64) && negb (mem_set w_space c) &&
    mem_set valid_hostname_chars_u c) valid_hostname_chars = true) by (vm_compute; reflexivity).
  unfold mem_set in Hc. apply existsb_exists in Hc as (d & Hin & ->%Z.eqb_eq). rewrite forallb_forall in Hall.
  specialize (Hall d Hin). zify_bools. splits.
Qed.

Lemma Forall_existsb_false (f : Z -> bool) l : Forall (fun c => f c = false) l -> existsb f l = false.
Proof. induction 1 as [|c l Hc _ IH]; [done|]. cbn. by rewrite Hc, IH. Qed.

Lemma remove_trailing_dots_id h : list.last h <> Some 46 -> remove_trailing_dots h = h.
Proof.
  intros Hl. unfold remove_trailing_dots. destruct (decide (h = [])) as [->|Hh]; [done|]. destruct (exists_last Hh) as (a & x & ->).
  rewrite last_snoc in Hl. rewrite rev_app_distr. cbn [rev app].
  assert (drop_dots (x :: rev a) = x :: rev a) as -> by (cbn; repeat (case_match; try done)). cbn. by rewrite rev_involutive.
Qed.

Lemma check_host_id cfg h : host_ok cfg h -> check_host cfg h = Some (Some h).
Proof.
  intros (Hv & Hlow & Hdd & Hd & Hl & Hlen & Ha). unfold check_host. rewrite <- Hlow.
  assert (stringHasWhitespace h = false) as ->.
  { apply Forall_existsb_false. eapply List.Forall_impl; [|exact Hv]. cbn. by intros c (_ & _ & _ & ? & _)%valid_char. }
  assert (forall set, (forall c, mem_set valid_hostname_chars c = true -> mem_set set c = true) -> (strspn h set =? length h)%nat = true) as Hs.
  { intros set Hset. apply Nat.eqb_eq. unfold strspn. rewrite <- (app_nil_r h) at 1. rewrite span_app; [cbn; lia|].
    eapply List.Forall_impl; [|exact Hv]. cbn. auto. }
  assert (negb (strspn h (if allow_underscore cfg then valid_hostname_chars_u else valid_hostname_chars) =? length h)%nat = false) as ->.
  { rewrite Hs; [done|]. destruct (allow_underscore cfg); [|done]. by intros c (_ & _ & _ & _ & ?)%valid_char. }
  rewrite andb_false_r. assert (match appendDomain cfg with Some d => if bool_decide (strchr h 46 = None) then _ else h | None => h end = h) as ->.
  { destruct Ha as [->|Ha]; [done|]. destruct (appendDomain cfg); [|done]. by rewrite bool_decide_false. }
  rewrite fits_ok by (unfold SQUIDHOSTNAMELEN, MAX_URL in *; lia). rewrite remove_trailing_dots_id, Hdd by done. cbn [orb].
  by destruct (Z.eqb_spec (deref h) 46).
Qed.

Lemma dec_aux_length fuel n tl : (length (dec_aux fuel n tl) <= fuel + length tl)%nat.
Proof.
  revert n tl. induction fuel as [|fuel IH]; intros n tl; cbn [dec_aux]; [lia|]. cbn zeta.
  case_match; [cbn; lia|]. etransitivity; [apply IH|]. cbn. lia.
Qed.

Lemma portbuf_ok pr po : 1 <= po <= 65535 -> portbuf pr po = if po =? urlDefaultPort pr then [] else 58 :: dec po.
Proof.
  intros Hp. unfold portbuf. destruct (po =? urlDefaultPort pr); [done|]. cbn [negb]. unfold print_int, snprintf.
  destruct (Z.ltb_spec po 0); [lia|]. apply take_ge. cbn [length]. pose proof (dec_aux_length 20 po []). unfold dec. cbn [length] in *. lia.
Qed.

Lemma dec_no_delim po : 0 <= po < 2 ^ 63 -> Forall (fun c => 48 <= c <= 57) (dec po).
Proof.
  intros Hp. destruct (dec_spec po) as (_ & Hd & _); [lia|]. eapply List.Forall_impl; [|exact Hd]. unfold isdigit. cbn. intros c Hc. zify_bools. lia.
Qed.

Lemma atoi_dec po : 0 <= po <= 65535 -> atoi (dec po) = po.
Proof.
  intros Hp. unfold atoi. rewrite <- (app_nil_r (dec po)), strtol_dec by (done || lia). cbn [st_val]. apply wrap_s_small; lia.
Qed.

(** The authority part is taken apart as it was put together. *)
Lemma split_port_ok h po pr : Forall (fun c => c <> 58) h -> 1 <= po <= 65535 ->
  split_port (h ++ portbuf pr po) (urlDefaultPort pr) = (h, po).
Proof.
  intros Hh Hp. rewrite portbuf_ok by done. unfold split_port. destruct (Z.eqb_spec po (urlDefaultPort pr)) as [->|].
  - by rewrite app_nil_r, strrchr_none.
  - rewrite strrchr_last; [|eapply List.Forall_impl; [|apply (dec_no_delim po); lia]; cbn; lia].
    rewrite length_app, Nat.add_sub, take_app_length. cbn [drop]. destruct (dec_spec po) as (Hne & _); [lia|].
    pose proof (atoi_dec po ltac:(lia)) as Hat. rewrite drop_0. destruct (dec po); [done|by rewrite Hat].
Qed.

Lemma split_login_ok l h : Forall (fun c => c <> 64) h ->
  split_login (l ++ match l with [] => [] | _ => [64] end ++ h) = (l, h).
Proof.
  intros Hh. unfold split_login. destruct l as [|c l]; cbn [app]; [by rewrite strrchr_none|].
  change (c :: l ++ 64 :: h) with ((c :: l) ++ 64 :: h). by rewrite strrchr_last, length_app, Nat.add_sub, take_app_length.
Qed.

(** A text up to a delimiter. *)
Lemma span_delim f p c r : Forall (fun c => f c = true) p -> f c = false ->
  take (span f (p ++ c :: r)) (p ++ c :: r) = p /\ drop (span f (p ++ c :: r)) (p ++ c :: r) = c :: r.
Proof.
  intros Hp Hc. rewrite span_app, span_stop, Nat.add_0_r by done. by rewrite take_app_length, drop_app_length.
Qed.

Lemma split_url_join proto auth path : Forall (fun c => c <> 58) proto -> Forall (fun c => c <> 47) auth ->
  deref path = 47 -> Forall (fun c => c <> 13 /\ c <> 10) path -> Z.of_nat (length (proto ++ str "://" ++ auth ++ path)) < MAX_URL ->
  split_url (proto ++ str "://" ++ auth ++ path) =
    let pr := urlParseProtocol proto in
    let (l, h) := split_login auth in
    let (h, po) := split_port h (urlDefaultPort pr) in
    Some (Some (pr, l, h, po, path)).
Proof.
  intros Hpr Ha Hp Hp' Hlen. unfold split_url. destruct path as [|c path]; [done|]. cbn in Hp. subst c.
  change (str "://") with (58 :: 47 :: 47 :: []) in *. cbn [app] in *.
  rewrite length_app in Hlen. cbn [length] in Hlen. rewrite length_app in Hlen. cbn [length] in Hlen.
  destruct (span_delim (fun c => negb (c =? 58)) proto 58 (47 :: 47 :: auth ++ 47 :: path)) as [-> ->]; [|done|].
  { eapply List.Forall_impl; [|exact Hpr]. cbn. intros c Hc. by destruct (Z.eqb_spec c 58). }
  rewrite fits_ok by (cbn [length]; lia). cbn [take drop]. rewrite bool_decide_true, drop_0 by done.
  destruct (span_delim (fun c => negb (c =? 47)) auth 47 path) as [-> ->]; [|done|].
  { eapply List.Forall_impl; [|exact Ha]. cbn. intros c Hc. by destruct (Z.eqb_spec c 47). }
  rewrite fits_ok by (cbn [length]; lia). assert (span (fun c => negb (c =? 13) && negb (c =? 10)) (47 :: path) = length (47 :: path)) as ->.
  { rewrite <- (app_nil_r (47 :: path)) at 1. rewrite span_app; [cbn; lia|]. eapply List.Forall_impl; [|exact Hp']. cbn.
    intros c [? ?]. destruct (Z.eqb_spec c 13), (Z.eqb_spec c 10); done. }
  rewrite take_ge by lia. by rewrite fits_ok by (cbn [length]; lia).
Qed.

(** The requests whose text reads back: those with a host, a login without a
    slash, an explicit port and a path without white space; a CONNECT; a URN. *)
Inductive canonical (cfg : url_config) : request_t -> Prop :=
  | canonical_http m pr p h l po :
      code m <> METHOD_CONNECT ->
      pr ∈ [PROTO_HTTP; PROTO_FTP; PROTO_GOPHER; PROTO_WAIS; PROTO_CACHEOBJ; PROTO_WHOIS; PROTO_INTERNAL; PROTO_HTTPS] ->
      host_ok cfg h -> Forall (fun c => c <> 47) l -> Z.of_nat (length l) < MAX_LOGIN_SZ -> 1 <= po <= 65535 ->
      deref p = 47 -> Forall (fun c => mem_set w_space c = false) p ->
      canonical cfg (mkReq m pr p h l po)
  | canonical_connect m h po :
      code m = METHOD_CONNECT -> host_ok cfg h -> h <> [] -> 1 <= po <= 65535 ->
      canonical cfg (mkReq m PROTO_NONE [] h [] po)
  | canonical_urn m p :
      code m <> METHOD_CONNECT -> canonical cfg (mkReq m PROTO_URN p [] [] 0).

(** The text without the limit of the buffer. *)
Definition request_text (r : request_t) : bytes :=
  if protocol r =? PROTO_URN then str "urn:" ++ urlpath r
  else if code (rmethod r) =? METHOD_CONNECT then host r ++ 58 :: print_int (port r)
  else default [] (ProtocolStr !! Z.to_nat (protocol r)) ++ str "://" ++ login r ++
       (match login r with [] => [] | _ => [64] end) ++ host r ++ portbuf (protocol r) (port r) ++ urlpath r.

Lemma make_request_id cfg esc m pr l h po p : host_ok cfg h -> Z.of_nat (length l) < MAX_LOGIN_SZ -> 1 <= po <= 65535 ->
  Forall (fun c => mem_set w_space c = false) p -> make_request cfg esc m pr l h po p = Some (Some (mkReq m pr p h l po)).
Proof.
  intros Hh Hl Hp Hw. pose proof Hh as (_ & _ & _ & _ & _ & Hhl & _). unfold make_request. rewrite (check_host_id cfg h Hh). bind_simpl.
  destruct (Z.ltb_spec po 1), (Z.ltb_spec 65535 po); [lia..|]. cbn [orb]. unfold clean_path, stringHasWhitespace.
  rewrite Forall_existsb_false by done. bind_simpl. rewrite wrap_u_small by lia. unfold xstrncpy.
  rewrite !take_ge by (unfold SQUIDHOSTNAMELEN, MAX_LOGIN_SZ in *; lia). done.
Qed.

(** The names of the protocols read back, and none starts like a URN. *)
Lemma protocol_names pr : pr ∈ [PROTO_HTTP; PROTO_FTP; PROTO_GOPHER; PROTO_WAIS; PROTO_CACHEOBJ; PROTO_WHOIS; PROTO_INTERNAL; PROTO_HTTPS] ->
  exists name, ProtocolStr !! Z.to_nat pr = Some name /\ urlParseProtocol name = pr /\ Forall (fun c => c <> 58) name /\
  (forall r, take 4 (name ++ str "://" ++ r) <> str "urn:") /\ pr <> PROTO_URN.
Proof.
  intros Hin. repeat (apply elem_of_cons in Hin as [->|Hin]); [..|by apply elem_of_nil in Hin];
    (eexists; split; [reflexivity|]; split; [vm_compute; reflexivity|]; split; [|split; [intros r; vm_compute; congruence|done]]);
    repeat (constructor; [done|]); constructor.
Qed.

Lemma host_no_delim cfg h : host_ok cfg h -> Forall (fun c => c <> 47) h /\ Forall (fun c => c <> 58) h /\ Forall (fun c => c <> 64) h.
Proof.
  intros [Hv _]. splits; (eapply List.Forall_impl; [|exact Hv]); cbn; by intros c (? & ? & ? & _)%valid_char.
Qed.

Lemma portbuf_chars pr po : 1 <= po <= 65535 -> Forall (fun c => 48 <= c <= 58) (portbuf pr po).
Proof.
  intros Hp. rewrite portbuf_ok by done. destruct (_ =? _); [done|]. constructor; [lia|].
  eapply List.Forall_impl; [|apply (dec_no_delim po); lia]. cbn. lia.
Qed.

Lemma parse_http cfg esc m pr p h l po : canonical cfg (mkReq m pr p h l po) -> code m <> METHOD_CONNECT -> pr <> PROTO_URN ->
  let s := request_text (mkReq m pr p h l po) in
  Z.of_nat (length s) + appendDomainLen cfg < MAX_URL -> urlParse cfg esc m s = Some (Some (mkReq m pr p h l po), s).
Proof.
  intros Hc Hm Hu s Hs. inversion Hc as [? ? ? ? ? ? _ Hin Hh Hl Hll Hp Hp0 Hpw| |]; [|done..]. subst.
  assert (0 <= appendDomainLen cfg) as Ha by (unfold appendDomainLen; destruct (appendDomain cfg); lia).
  unfold urlParse. destruct (Z.ltb_spec (MAX_URL - 1) (Z.of_nat (length s) + appendDomainLen cfg)); [lia|].
  destruct (Z.eqb_spec (code m) METHOD_CONNECT); [done|]. destruct (protocol_names pr Hin) as (name & En & Hpr & Hn & Hurn & _).
  destruct (host_no_delim cfg h Hh) as (Hh1 & Hh2 & Hh3). pose proof (portbuf_chars pr po Hp) as Hpc.
  assert (Es : s = name ++ str "://" ++ (l ++ match l with [] => [] | _ => [64] end ++ h ++ portbuf pr po) ++ p).
  { unfold s, request_text. cbn [protocol rmethod login host port urlpath]. rewrite En. cbn [default].
    destruct (Z.eqb_spec pr PROTO_URN); [done|]. destruct (Z.eqb_spec (code m) METHOD_CONNECT); [done|]. by rewrite <- !app_assoc. }
  clearbody s. subst s. rewrite bool_decide_false by apply Hurn. rewrite split_url_join; [|done| |done| |lia].
  - cbn zeta. rewrite Hpr, split_login_ok.
    + rewrite split_port_ok by done. bind_simpl. by rewrite make_request_id.
    + apply List.Forall_app. split; [done|]. eapply List.Forall_impl; [|exact Hpc]. cbn. lia.
  - rewrite !List.Forall_app. splits; [by destruct l; repeat constructor|]. eapply List.Forall_impl; [|exact Hpc]. cbn. lia.
  - eapply List.Forall_impl; [|exact Hpw]. cbn. intros c Hc'. split; intros ->; done.
Qed.

Lemma parse_connect cfg esc m h po : code m = METHOD_CONNECT -> host_ok cfg h -> h <> [] -> 1 <= po <= 65535 ->
  let s := h ++ 58 :: dec po in
  Z.of_nat (length s) + appendDomainLen cfg < MAX_URL -> urlParse cfg esc m s = Some (Some (mkReq m PROTO_NONE [] h [] po), s).
Proof.
  intros Hm Hh Hne Hp s Hs. assert (0 <= appendDomainLen cfg) as Ha by (unfold appendDomainLen; destruct (appendDomain cfg); lia).
  unfold urlParse. destruct (Z.ltb_spec (MAX_URL - 1) (Z.of_nat (length s) + appendDomainLen cfg)); [lia|].
  rewrite (proj2 (Z.eqb_eq _ _) Hm). unfold scan_connect, s in *. destruct (host_no_delim cfg h Hh) as (_ & Hh2 & _).
  assert (Hf : Forall (fun c => negb (c =? 58) = true) h).
  { eapply List.Forall_impl; [|exact Hh2]. cbn. intros c ?. by destruct (Z.eqb_spec c 58). }
  destruct (span_delim (fun c => negb (c =? 58)) h 58 (dec po) Hf eq_refl) as [-> ->].
  rewrite span_app, span_stop, Nat.add_0_r by done. destruct (Nat.eqb_spec (length h) 0); [by destruct h|].
  rewrite fits_ok by len_lia. cbn [drop deref hd]. rewrite drop_0. rewrite <- (app_nil_r (dec po)), strtol_dec by (done || lia). cbn [st_len st_val].
  destruct (dec_spec po) as (Hd & _); [lia|]. destruct (Nat.eqb_spec (length (dec po)) 0); [by destruct (dec po)|].
  rewrite Z.eqb_refl. cbn [andb negb]. rewrite wrap_s_small by lia. by rewrite make_request_id.
Qed.

(** C20. The canonical text of a request reads back as the request: a request
    for one of the known protocols with a valid host, a login without a
    slash, a port (written when it is not the protocol's own) and a path
    without white space, a CONNECT request, or a URN, whose text with the
    appended domain fits the buffer, is printed by [urlCanonical] as that
    text, and [urlParse] of the text gives the request. *)
Theorem url_roundtrip cfg esc r : canonical cfg r ->
  Z.of_nat (length (request_text r)) + appendDomainLen cfg < MAX_URL ->
  urlCanonical r = Some (request_text r) /\ urlParse cfg esc (rmethod r) (request_text r) = Some (Some r, request_text r).
Proof.
  intros Hc Hl. assert (0 <= appendDomainLen cfg) as Ha by (unfold appendDomainLen; destruct (appendDomain cfg); lia).
  assert (Hfit : forall s, request_text r = s -> snprintf MAX_URL s = s).
  { intros s <-. apply take_ge. unfold MAX_URL in *. lia. }
  pose proof Hc as Hc'. destruct Hc as [m pr p h l po Hm Hin Hh Hl1 Hl2 Hp Hp0 Hpw|m h po Hm Hh Hne Hp|m p Hm].
  - destruct (protocol_names pr Hin) as (name & En & _ & _ & _ & Hu). split; [|by apply parse_http].
    revert Hfit. unfold urlCanonical, request_text, urlMakeHttpCanonical. cbn [protocol rmethod login host port urlpath].
    destruct (Z.eqb_spec pr PROTO_URN); [done|]. destruct (Z.eqb_spec (code m) METHOD_CONNECT); [done|]. rewrite En. cbn [default].
    intros Hfit. bind_simpl. by rewrite Hfit.
  - revert Hfit Hl. unfold urlCanonical, request_text, print_int. cbn [protocol rmethod login host port urlpath].
    change (PROTO_NONE =? PROTO_URN) with false. cbv iota. rewrite (proj2 (Z.eqb_eq _ _) Hm).
    destruct (Z.ltb_spec po 0); [lia|]. intros Hfit Hl. split; [by rewrite Hfit|by apply parse_connect].
  - split; [unfold urlCanonical; cbn [protocol urlpath]; rewrite Z.eqb_refl; by rewrite Hfit|].
    revert Hl. unfold urlParse, request_text. cbn [protocol rmethod urlpath]. rewrite Z.eqb_refl. intros Hl.
    destruct (Z.ltb_spec (MAX_URL - 1) (Z.of_nat (length (str "urn:" ++ p)) + appendDomainLen cfg)); [lia|].
    destruct (Z.eqb_spec (code m) METHOD_CONNECT); [done|]. by rewrite bool_decide_true.
Qed.

Lemma url_roundtrip_witness :
  urlCanonical (mkReq GET PROTO_FTP (str "/a?b") (str "ftp.x-1.org") (str "me:p@w") 2121) = Some (str "ftp://me:p@w@ftp.x-1.org:2121/a?b") /\
  urlParse cfg0 None GET (str "ftp://me:p@w@ftp.x-1.org:2121/a?b") =
    Some (Some (mkReq GET PROTO_FTP (str "/a?b") (str "ftp.x-1.org") (str "me:p@w") 2121), str "ftp://me:p@w@ftp.x-1.org:2121/a?b").
Proof.
  apply (url_roundtrip cfg0 None (mkReq GET PROTO_FTP (str "/a?b") (str "ftp.x-1.org") (str "me:p@w") 2121)); [|by vm_compute].
  apply canonical_http; try (by vm_compute); try lia; try (repeat constructor; by vm_compute).
Defined.

(** ** The two printers *)

Lemma copy_loop_take buf s : Z.of_nat (length buf) <= MAX_URL -> copy_loop buf s = take (Z.to_nat MAX_URL) (buf ++ s).
Proof.
  revert buf. induction s as [|c s IH]; intros buf Hl; cbn [copy_loop].
  - rewrite app_nil_r, take_ge; [done|lia].
  - destruct (Z.ltb_spec (Z.of_nat (length buf)) MAX_URL).
    + rewrite IH by len_lia. by rewrite <- app_assoc.
    + rewrite take_app_le by lia. by rewrite take_ge by lia.
Qed.

(** Copying one piece after the other is copying them all. *)
Lemma copy_loops (s : bytes) l : foldl copy_loop (take (Z.to_nat MAX_URL) s) l = take (Z.to_nat MAX_URL) (s ++ concat l).
Proof.
  revert s. induction l as [|x l IH]; intros s; cbn [foldl concat]; [by rewrite app_nil_r|].
  rewrite copy_loop_take by (rewrite length_take; unfold MAX_URL; lia). rewrite app_assoc, <- IH. f_equal.
  destruct (decide (Z.to_nat MAX_URL <= length s)%nat).
  - rewrite !take_app_le by (rewrite ?length_take; lia). by rewrite take_take, Nat.min_id.
  - by rewrite (take_ge s) by lia.
Qed.

(** The printer that hides passwords, which copies character by
    character, agrees with the formatted printer: for a login that fits its
    array, its text is that of [urlMakeHttpCanonical] for the login up to its
    first colon, and its result is the length up to the size of the buffer;
    the two print the same when there is no password. *)
Theorem urlMakeHttpCanonical2_equiv pr l h po p : 0 <= pr <= 12 -> Z.of_nat (length l) < MAX_LOGIN_SZ -> deref l <> 58 ->
  exists s n, urlMakeHttpCanonical pr (upto l 58) h po p = Some (s, n) /\
    urlMakeHttpCanonical2 pr l h po p = Some (s, Z.min n MAX_URL).
Proof.
  intros Hpr Hl Hl0. unfold urlMakeHttpCanonical, urlMakeHttpCanonical2.
  destruct (lookup_lt_is_Some_2 ProtocolStr (Z.to_nat pr)) as [proto ->]; [cbn; lia|]. bind_simpl.
  assert (Hlb : loginbuf l = Some (upto l 58 ++ match upto l 58 with [] => [] | _ => [64] end)).
  { unfold loginbuf. destruct l as [|c l]; [done|]. destruct (Z.ltb_spec (Z.of_nat (length (c :: l))) (MAX_LOGIN_SZ + 1)); [|lia].
    pose proof (length_take (c :: l) (span (fun d => negb (d =? 58)) (c :: l))) as Ht. fold (upto (c :: l) 58) in Ht.
    destruct (Z.ltb_spec (Z.of_nat (length (upto (c :: l) 58)) + 1) (MAX_LOGIN_SZ + 1)); [|lia].
    cbn in Hl0. unfold upto in *. cbn [span]. by destruct (Z.eqb_spec c 58). }
  rewrite Hlb. bind_simpl. eexists _, _. split; [done|]. cbn zeta.
  pose proof (copy_loops [] [proto; str "://"; upto l 58 ++ match upto l 58 with [] => [] | _ => [64] end; h; portbuf pr po; p]) as Hc.
  rewrite take_nil in Hc. cbn [foldl concat app] in Hc. rewrite Hc, app_nil_r, <- !app_assoc. clear Hc Hlb.
  match goal with |- context [take _ ?t] => set (s := t) end. clearbody s.
  rewrite length_take. unfold snprintf. f_equal. f_equal; [|unfold MAX_URL; lia].
  destruct (Z.leb_spec (MAX_URL - 1) (Z.of_nat (Z.to_nat MAX_URL `min` length s))).
  - rewrite take_take. f_equal.
  - by rewrite !take_ge by (unfold MAX_URL in *; lia).
Qed.

Lemma urlMakeHttpCanonical2_equiv_witness :
  exists s n, urlMakeHttpCanonical PROTO_HTTP (str "me") (str "x.org") 80 (str "/a") = Some (s, n) /\
    urlMakeHttpCanonical2 PROTO_HTTP (str "me:pw") (str "x.org") 80 (str "/a") = Some (s, Z.min n MAX_URL).
Proof. apply (urlMakeHttpCanonical2_equiv PROTO_HTTP (str "me:pw")); [unfold PROTO_HTTP; lia|by vm_compute|done]. Defined.

(** ** Corner cases *)

(** A host name longer than the array is cut: the request is for another
    host, here one that ends with a dot. *)
Example host_cut :
  let h := replicate 254 97 ++ str "." in
  urlParse cfg0 None GET (str "http://" ++ h ++ str "evil.com/") =
    Some (Some (mkReq GET PROTO_HTTP (str "/") h [] 80), str "http://" ++ h ++ str "evil.com/").
Proof. vm_compute. reflexivity. Qed.

(** A location that fills the buffer leaves no room for a NUL, and none is
    written. *)
Lemma urlMakeAbsolute_unterminated r relUrl proto :
  code (rmethod r) <> METHOD_CONNECT -> protocol r <> PROTO_URN -> ProtocolStr !! Z.to_nat (protocol r) = Some proto ->
  login r = [] -> port r = urlDefaultPort (protocol r) -> Z.of_nat (length (proto ++ str "://" ++ host r)) < MAX_URL ->
  deref relUrl = 47 -> MAX_URL <= Z.of_nat (length relUrl) ->
  exists buf, urlMakeAbsolute r relUrl = Some (Some (buf, false)).
Proof.
  intros Hm Hu Hp Hl Hpo Hlen Hr Hrl. unfold urlMakeAbsolute. destruct (Z.eqb_spec (code (rmethod r)) METHOD_CONNECT); [done|].
  destruct (Z.eqb_spec (protocol r) PROTO_URN); [done|]. rewrite Hp, Hl, Hpo, Z.eqb_refl. bind_simpl. cbn [negb app]. rewrite app_nil_r.
  destruct (Z.ltb_spec (Z.of_nat (length (proto ++ str "://" ++ host r))) MAX_URL); [|lia]. rewrite Hr. cbn [Z.eqb Pos.eqb].
  unfold strncpy_at. destruct (Z.ltb_spec (Z.of_nat (length relUrl)) (MAX_URL - Z.of_nat (length (proto ++ str "://" ++ host r)) - 1)); [lia|].
  by eexists.
Qed.

(** The scheme of a URN in capitals is not recognised as one; with a port it
    is taken for a URL, and its canonical text has lost the host. *)
Example urn_capitals :
  (let? (r, _) := urlParse cfg0 None GET (str "URN://a.org:80/x") in let? r := r in urlCanonical r) = Some (str "urn:/x").
Proof. vm_compute. reflexivity. Qed.
End Url.
