(* ===== verification/HttpStatusLine.v ===== *)
(** * Status lines

    libhttp/HttpStatusLine.c and src/HttpStatusLine.c.  The text is a buffer with
    offsets; the number loops are those of the request line. *)

From Stdlib Require Import ZArith Lia.
From stdpp Require Import base strings list numbers option.
From S2P Require Import Prelude CStr HttpMsg.

Module HttpStatusLine.
Import HttpMsg.HttpMsg.

Definition HTTP_STATUS_NONE : Z := 0.
Definition HTTP_CONTINUE : Z := 100.
Definition HTTP_SWITCHING_PROTOCOLS : Z := 101.
Definition HTTP_PROCESSING : Z := 102.
Definition HTTP_OK : Z := 200.
Definition HTTP_CREATED : Z := 201.
Definition HTTP_ACCEPTED : Z := 202.
Definition HTTP_NON_AUTHORITATIVE_INFORMATION : Z := 203.
Definition HTTP_NO_CONTENT : Z := 204.
Definition HTTP_RESET_CONTENT : Z := 205.
Definition HTTP_PARTIAL_CONTENT : Z := 206.
Definition HTTP_MULTI_STATUS : Z := 207.
Definition HTTP_MULTIPLE_CHOICES : Z := 300.
Definition HTTP_MOVED_PERMANENTLY : Z := 301.
Definition HTTP_MOVED_TEMPORARILY : Z := 302.
Definition HTTP_SEE_OTHER : Z := 303.
Definition HTTP_NOT_MODIFIED : Z := 304.
Definition HTTP_USE_PROXY : Z := 305.
Definition HTTP_TEMPORARY_REDIRECT : Z := 307.
Definition HTTP_BAD_REQUEST : Z := 400.
Definition HTTP_UNAUTHORIZED : Z := 401.
Definition HTTP_PAYMENT_REQUIRED : Z := 402.
Definition HTTP_FORBIDDEN : Z := 403.
Definition HTTP_NOT_FOUND : Z := 404.
Definition HTTP_METHOD_NOT_ALLOWED : Z := 405.
Definition HTTP_NOT_ACCEPTABLE : Z := 406.
Definition HTTP_PROXY_AUTHENTICATION_REQUIRED : Z := 407.
Definition HTTP_REQUEST_TIMEOUT : Z := 408.
Definition HTTP_CONFLICT : Z := 409.
Definition HTTP_GONE : Z := 410.
Definition HTTP_LENGTH_REQUIRED : Z := 411.
Definition HTTP_PRECONDITION_FAILED : Z := 412.
Definition HTTP_REQUEST_ENTITY_TOO_LARGE : Z := 413.
Definition HTTP_REQUEST_URI_TOO_LONG : Z := 414.
Definition HTTP_UNSUPPORTED_MEDIA_TYPE : Z := 415.
Definition HTTP_EXPECTATION_FAILED : Z := 417.
Definition HTTP_UNPROCESSABLE_ENTITY : Z := 422.
Definition HTTP_LOCKED : Z := 423.
Definition HTTP_FAILED_DEPENDENCY : Z := 424.
Definition HTTP_INTERNAL_SERVER_ERROR : Z := 500.
Definition HTTP_NOT_IMPLEMENTED : Z := 501.
Definition HTTP_BAD_GATEWAY : Z := 502.
Definition HTTP_SERVICE_UNAVAILABLE : Z := 503.
Definition HTTP_GATEWAY_TIMEOUT : Z := 504.
Definition HTTP_HTTP_VERSION_NOT_SUPPORTED : Z := 505.
Definition HTTP_INSUFFICIENT_STORAGE : Z := 507.
Definition HTTP_INVALID_HEADER : Z := 1001.
Definition HTTP_HEADER_TOO_LARGE : Z := 1002.

Record HttpStatusLine := mkSline { version : http_version; reason : option bytes; status : Z }.

Definition httpBuildVersion (major minor : Z) : http_version := mkVersion major minor.

Definition httpStatusLineSet (version : http_version) (status : Z) (reason : option bytes) : HttpStatusLine :=
  mkSline version reason status.

Definition httpStatusLineInit : HttpStatusLine := httpStatusLineSet (httpBuildVersion 0 0) HTTP_STATUS_NONE None.

Definition httpStatusLineClean : HttpStatusLine := httpStatusLineSet (httpBuildVersion 0 0) HTTP_INTERNAL_SERVER_ERROR None.

(** The loop over the status code, an [int]. *)
Fixpoint status_loop (fuel : nat) (b : bytes) (s end_ n : Z) : option (Z * Z) :=
  if s <? end_ then
    match fuel with
    | O => None
    | S fuel =>
        let? c := rd b s in
        if isdigit c then
          let n := n * 10 + c - 48 in
          assert? (n <? 2 ^ 31) in status_loop fuel b (s + 1) end_ n
        else Some (s, n)
    end
  else Some (s, n).

(** [b] is the memory from [start] on and [end_] an offset into it. *)
Definition httpStatusLineParse (sline : HttpStatusLine) (b : bytes) (end_ : Z) : option (HttpStatusLine * Z) :=
  let bad := (mkSline (version sline) (reason sline) HTTP_INVALID_HEADER, 0) in
  if negb (strncaseeq b (str "HTTP/") 5) then Some bad
  else
    let? c := rd b 5 in
    if negb (isdigit c) then Some bad
    else
      let? (s, maj) := number_loop (length b) b 5 end_ 0 in
      if (end_ <=? s) || (65536 <=? maj) then Some bad
      else
        let? c := rd b s in
        if negb (c =? 46) then Some bad
        else
          let? (s, min) := number_loop (length b) b (s + 1) end_ 0 in
          if (end_ <=? s) || (65536 <=? min) then Some bad
          else
            let? (s, st) := status_loop (length b) b (s + 1) end_ 0 in
            if end_ <=? s then Some bad
            else Some (mkSline (mkVersion maj min) (reason sline) st, 1).

Definition httpStatusString (status : Z) : bytes :=
  if status =? 0 then str "Init"
  else if status =? HTTP_CONTINUE then str "Continue"
  else if status =? HTTP_SWITCHING_PROTOCOLS then str "Switching Protocols"
  else if status =? HTTP_OK then str "OK"
  else if status =? HTTP_CREATED then str "Created"
  else if status =? HTTP_ACCEPTED then str "Accepted"
  else if status =? HTTP_NON_AUTHORITATIVE_INFORMATION then str "Non-Authoritative Information"
  else if status =? HTTP_NO_CONTENT then str "No Content"
  else if status =? HTTP_RESET_CONTENT then str "Reset Content"
  else if status =? HTTP_PARTIAL_CONTENT then str "Partial Content"
  else if status =? HTTP_MULTIPLE_CHOICES then str "Multiple Choices"
  else if status =? HTTP_MOVED_PERMANENTLY then str "Moved Permanently"
  else if status =? HTTP_MOVED_TEMPORARILY then str "Moved Temporarily"
  else if status =? HTTP_SEE_OTHER then str "See Other"
  else if status =? HTTP_NOT_MODIFIED then str "Not Modified"
  else if status =? HTTP_USE_PROXY then str "Use Proxy"
  else if status =? HTTP_TEMPORARY_REDIRECT then str "Temporary Redirect"
  else if status =? HTTP_BAD_REQUEST then str "Bad Request"
  else if status =? HTTP_UNAUTHORIZED then str "Unauthorized"
  else if status =? HTTP_PAYMENT_REQUIRED then str "Payment Required"
  else if status =? HTTP_FORBIDDEN then str "Forbidden"
  else if status =? HTTP_NOT_FOUND then str "Not Found"
  else if status =? HTTP_METHOD_NOT_ALLOWED then str "Method Not Allowed"
  else if status =? HTTP_NOT_ACCEPTABLE then str "Not Acceptable"
  else if status =? HTTP_PROXY_AUTHENTICATION_REQUIRED then str "Proxy Authentication Required"
  else if status =? HTTP_REQUEST_TIMEOUT then str "Request Time-out"
  else if status =? HTTP_CONFLICT then str "Conflict"
  else if status =? HTTP_GONE then str "Gone"
  else if status =? HTTP_LENGTH_REQUIRED then str "Length Required"
  else if status =? HTTP_PRECONDITION_FAILED then str "Precondition Failed"
  else if status =? HTTP_REQUEST_ENTITY_TOO_LARGE then str "Request Entity Too Large"
  else if status =? HTTP_REQUEST_URI_TOO_LONG then str "Request-URI Too Long"
  else if status =? HTTP_UNSUPPORTED_MEDIA_TYPE then str "Unsupported Media Type"
  else if status =? HTTP_INTERNAL_SERVER_ERROR then str "Internal Server Error"
  else if status =? HTTP_NOT_IMPLEMENTED then str "Not Implemented"
  else if status =? HTTP_BAD_GATEWAY then str "Bad Gateway"
  else if status =? HTTP_SERVICE_UNAVAILABLE then str "Service Unavailable"
  else if status =? HTTP_GATEWAY_TIMEOUT then str "Gateway Time-out"
  else if status =? HTTP_HTTP_VERSION_NOT_SUPPORTED then str "HTTP Version not supported"
  else if status =? HTTP_EXPECTATION_FAILED then str "Expectation failed"
  else str "Unknown".

Definition httpStatusLineReason (sline : HttpStatusLine) : bytes :=
  match reason sline with Some r => r | None => httpStatusString (status sline) end.

(** [%3d] *)
Definition pad3 (s : bytes) : bytes := repeat 32 (3 - length s) ++ s.

Definition print_int (n : Z) : bytes := if n <? 0 then 45 :: dec (- n) else dec n.

Definition httpStatusLinePackInto (sline : HttpStatusLine) : bytes :=
  str "HTTP/" ++ print_int (major (version sline)) ++ [46] ++ print_int (minor (version sline)) ++ [32] ++
  pad3 (print_int (status sline)) ++ [32] ++ httpStatusLineReason sline ++ CRLF.

Example ex_pack : httpStatusLinePackInto (httpStatusLineSet (httpBuildVersion 1 1) HTTP_NOT_FOUND None) = str "HTTP/1.1 404 Not Found" ++ CRLF.
Proof. reflexivity. Qed.
Example ex_parse_status : httpStatusLineParse httpStatusLineInit (str "http/1.0 200 OK" ++ CRLF) 16 = Some (mkSline (mkVersion 1 0) None 200, 1).
Proof. vm_compute. reflexivity. Qed.

(** ** Properties *)

(** No ten digits in a row before [end_]. *)
Definition short_numbers (b : bytes) (end_ : Z) : Prop :=
  forall i, 0 <= i -> i + 10 <= end_ -> exists j, i <= j < i + 10 /\ isdigit (nth (Z.to_nat j) b 0) = false.

(** Digits from [s0] on, at most nine of them, do not overflow. *)
Lemma status_loop_ok fuel b end_ : end_ <= Z.of_nat (length b) -> short_numbers b end_ -> forall s0 s n, 0 <= s0 -> s0 <= s <= s0 + 9 -> s <= end_ ->
  (forall j, s0 <= j < s -> isdigit (nth (Z.to_nat j) b 0) = true) -> 0 <= n < 10 ^ (s - s0) -> end_ - s <= Z.of_nat fuel ->
  exists s' m, status_loop fuel b s end_ n = Some (s', m) /\ s <= s' <= end_ /\ 0 <= m < 10 ^ 9.
Proof.
  intros Hl Hsh. induction fuel as [|fuel IH]; intros s0 s n H0 Hs He Hd Hn Hf; cbn [status_loop]; destruct (Z.ltb_spec s end_).
  - lia.
  - exists s, n. pose proof (Z.pow_le_mono_r 10 (s - s0) 9). lsplits.
  - destruct (rd_ok b s) as (c & -> & Hc); [lia|]. bind_simpl. destruct (isdigit c) eqn:Ed.
    + assert (s < s0 + 9) as Hlt.
      { destruct (decide (s < s0 + 9)); [done|]. destruct (Hsh s0) as (j & Hj & Hj'); [lia|lia|].
        destruct (decide (j = s)) as [->|]; [|rewrite Hd in Hj'; [done|lia]]. by rewrite (nth_lookup_Some _ _ _ _ Hc), Ed in Hj'. }
      pose proof Ed as Ed'. unfold isdigit in Ed'. zify_bools.
      assert (0 <= n * 10 + c - 48 < 10 ^ (s + 1 - s0)) as Hn' by (replace (s + 1 - s0) with (Z.succ (s - s0)) by lia; rewrite Z.pow_succ_r; lia).
      pose proof (Z.pow_le_mono_r 10 (s + 1 - s0) 9 ltac:(lia) ltac:(lia)). destruct (Z.ltb_spec (n * 10 + c - 48) (2 ^ 31)); [|lia].
      destruct (IH s0 (s + 1) (n * 10 + c - 48)) as (s' & m & -> & ? & ?); [lia..| |lia|lia|exists s', m; lsplits].
      intros j Hj. destruct (decide (j = s)) as [->|]; [by rewrite (nth_lookup_Some _ _ _ _ Hc)|]. apply Hd. lia.
    + exists s, n. pose proof (Z.pow_le_mono_r 10 (s - s0) 9). lsplits.
  - exists s, n. pose proof (Z.pow_le_mono_r 10 (s - s0) 9). lsplits.
Qed.

(** A line that starts with the protocol name has its newline after it. *)
Lemma http_prefix b end_ : strncaseeq b (str "HTTP/") 5 = true -> 0 <= end_ -> b !! Z.to_nat end_ = Some 10 -> 5 <= end_.
Proof.
  intros Hs He Hn. destruct (decide (5 <= end_)); [done|]. exfalso. revert Hs.
  destruct (Z.to_nat end_) as [|[|[|[|[|k]]]]] eqn:E; [..|lia]; clear E;
    destruct b as [|? [|? [|? [|? [|? ?]]]]]; cbn in Hn; simplify_eq; cbn; rewrite ?andb_false_r; done.
Qed.

Definition sline_ok (sl : HttpStatusLine) : Prop :=
  0 <= major (version sl) < 65536 /\ 0 <= minor (version sl) < 65536 /\ 0 <= status sl < 10 ^ 9.

Lemma status_line_ok sl b end_ : 0 <= end_ -> b !! Z.to_nat end_ = Some 10 -> short_numbers b end_ ->
  exists sl' r, httpStatusLineParse sl b end_ = Some (sl', r) /\ reason sl' = reason sl /\
  (r = 0 /\ status sl' = HTTP_INVALID_HEADER /\ version sl' = version sl \/ r = 1 /\ sline_ok sl').
Proof.
  intros H0 Hnl Hsh. assert (Hl : end_ < Z.of_nat (length b)) by (apply lookup_lt_Some in Hnl; lia).
  unfold httpStatusLineParse. set (bad := (mkSline _ _ _, 0)).
  assert (Hbad : exists sl' r, Some bad = Some (sl', r) /\ reason sl' = reason sl /\
    (r = 0 /\ status sl' = HTTP_INVALID_HEADER /\ version sl' = version sl \/ r = 1 /\ sline_ok sl')) by (do 2 eexists; splits; by left).
  clearbody bad. destruct (strncaseeq b (str "HTTP/") 5) eqn:Eh; cbn [negb]; [|done].
  pose proof (http_prefix b end_ Eh H0 Hnl). destruct (rd_ok b 5) as (c & -> & _); [lia|]. bind_simpl.
  destruct (isdigit c); cbn [negb]; [|done].
  destruct (number_loop_ok b end_ (length b) 5 0) as (j & maj & -> & Hj & Hm); [lia..|]. bind_simpl.
  destruct (Z.leb_spec end_ j), (Z.leb_spec 65536 maj); cbn [orb]; try done. destruct (rd_ok b j) as (d & -> & _); [lia|]. bind_simpl.
  destruct (d =? 46); cbn [negb]; [|done].
  destruct (number_loop_ok b end_ (length b) (j + 1) 0) as (k & min & -> & Hk & Hn); [lia..|]. bind_simpl.
  destruct (Z.leb_spec end_ k), (Z.leb_spec 65536 min); cbn [orb]; try done.
  destruct (status_loop_ok (length b) b end_ ltac:(lia) Hsh (k + 1) (k + 1) 0) as (s' & m & -> & Hs & Hmm); [lia..|rewrite Z.sub_diag; lia|lia|].
  bind_simpl. destruct (Z.leb_spec end_ s'); [done|]. do 2 eexists. splits. right. unfold sline_ok. cbn [version major minor status]. splits; lia.
Qed.

(** Parsing the status line of a reply reads only the line, up to the
    newline the caller found, and ends with an error, which leaves the status
    HTTP_INVALID_HEADER, or with version numbers below 65536 and a
    non-negative status, for every line without ten digits in a row. *)
Theorem status_line_safe sl b end_ : 0 <= end_ -> b !! Z.to_nat end_ = Some 10 -> short_numbers b end_ ->
  exists sl' r, httpStatusLineParse sl b end_ = Some (sl', r) /\ reason sl' = reason sl /\
  (r = 0 /\ status sl' = HTTP_INVALID_HEADER /\ version sl' = version sl \/ r = 1 /\ sline_ok sl').
Proof. apply status_line_ok. Qed.

Lemma status_line_safe_witness :
  exists sl' r, httpStatusLineParse httpStatusLineInit (str "HTTP/1.0 2000" ++ CRLF) 14 = Some (sl', r) /\ reason sl' = None /\
  (r = 0 /\ status sl' = HTTP_INVALID_HEADER /\ version sl' = mkVersion 0 0 \/ r = 1 /\ sline_ok sl').
Proof.
  apply (status_line_safe httpStatusLineInit); [lia|done|]. intros i Hi Hl.
  exists 8. split; [|done]. cbn in Hl. lia.
Defined.

(** ** Round trip *)

Lemma digits_lt l : forall acc, 0 <= acc -> Forall (fun c => isdigit c = true) l -> digits acc l < (acc + 1) * 10 ^ Z.of_nat (length l).
Proof.
  induction l as [|c l IH]; intros acc Ha Hl; cbn [digits length]; [lia|]. apply List.Forall_cons_iff in Hl as [Hc Hl]. rewrite Hc.
  unfold isdigit in Hc. zify_bools. rewrite Nat2Z.inj_succ, Z.pow_succ_r by lia.
  eapply Z.lt_le_trans; [apply IH; [lia|done]|]. rewrite Z.mul_assoc. apply Z.mul_le_mono_nonneg_r; lia.
Qed.

Lemma status_run (w : bytes) : forall pre c post lim fuel n,
  Forall (fun x => isdigit x = true) w -> isdigit c = false -> zlen pre + zlen w < lim -> (length w < fuel)%nat ->
  0 <= n -> digits n w < 2 ^ 31 ->
  status_loop fuel (pre ++ w ++ c :: post) (zlen pre) lim n = Some (zlen pre + zlen w, digits n w).
Proof.
  induction w as [|x w IH]; intros pre c post lim [|fuel] n Hw Hc Hl Hf Hn Hd; cbn [length] in *; try lia; cbn [status_loop app].
  - destruct (Z.ltb_spec (zlen pre) lim); [|lia]. rewrite rd_app. bind_simpl. rewrite Hc. cbn. do 2 f_equal. lia.
  - destruct (Z.ltb_spec (zlen pre) lim); [|lia]. rewrite rd_app. bind_simpl. apply List.Forall_cons_iff in Hw as [Hx Hw].
    cbn [digits] in *. rewrite Hx in *. unfold isdigit in Hx. zify_bools.
    replace (10 * n + (x - 48)) with (n * 10 + x - 48) in * by lia.
    pose proof (digits_mono w (n * 10 + x - 48) ltac:(lia) Hw) as Hm. destruct (Z.ltb_spec (n * 10 + x - 48) (2 ^ 31)); [|lia].
    rewrite app_shift. specialize (IH (pre ++ [x]) c post lim fuel (n * 10 + x - 48) Hw Hc). rewrite length_app in IH. cbn [length] in IH.
    replace (zlen pre + 1) with (Z.of_nat (length pre + 1)) by lia. rewrite IH by lia. do 2 f_equal. lia.
Qed.

(** The loops at a given place of a buffer. *)
Lemma number_at b pre w c post i lim : b = pre ++ w ++ c :: post -> i = zlen pre -> Forall (fun x => isdigit x = true) w -> isdigit c = false ->
  i + zlen w < lim -> digits 0 w < 65536 -> number_loop (length b) b i lim 0 = Some (i + zlen w, digits 0 w).
Proof. intros -> -> Hw Hc Hl Hd. apply number_run; try done. rewrite !length_app. cbn. lia. Qed.

Lemma status_at b pre w c post i lim : b = pre ++ w ++ c :: post -> i = zlen pre -> Forall (fun x => isdigit x = true) w -> isdigit c = false ->
  i + zlen w < lim -> digits 0 w < 2 ^ 31 -> status_loop (length b) b i lim 0 = Some (i + zlen w, digits 0 w).
Proof. intros -> -> Hw Hc Hl Hd. apply status_run; try done. rewrite !length_app. cbn. lia. Qed.

Lemma rd_at b pre c post i : b = pre ++ c :: post -> i = zlen pre -> rd b i = Some c.
Proof. intros -> ->. apply rd_app. Qed.

(** The status lines that read back. *)
Definition printable_sline (sl : HttpStatusLine) : Prop :=
  0 <= major (version sl) < 65536 /\ 0 <= minor (version sl) < 65536 /\ 100 <= status sl < 2 ^ 31.

(** The line without its line end. *)
Definition sline_text (sl : HttpStatusLine) : bytes :=
  str "HTTP/" ++ dec (major (version sl)) ++ 46 :: dec (minor (version sl)) ++ 32 :: dec (status sl) ++ 32 :: httpStatusLineReason sl.

Lemma pack_text sl : printable_sline sl -> httpStatusLinePackInto sl = sline_text sl ++ CRLF.
Proof.
  intros (H1 & H2 & H3). unfold httpStatusLinePackInto, sline_text, print_int.
  destruct (Z.ltb_spec (major (version sl)) 0), (Z.ltb_spec (minor (version sl)) 0), (Z.ltb_spec (status sl) 0); try lia.
  destruct (dec_spec (status sl)) as (_ & Hd & Hv); [lia|]. pose proof (digits_lt (dec (status sl)) 0 ltac:(lia) Hd) as Hlt.
  assert (2 < length (dec (status sl)))%nat.
  { destruct (decide (2 < length (dec (status sl)))%nat); [done|]. pose proof (Z.pow_le_mono_r 10 (zlen (dec (status sl))) 2). lia. }
  unfold pad3. replace (3 - length (dec (status sl)))%nat with 0%nat by lia. cbn [repeat app]. rewrite <- !app_assoc. cbn [app].
  rewrite <- !app_assoc. cbn [app]. by rewrite <- !app_assoc.
Qed.

Lemma status_line_parse_text sl0 sl rest e : printable_sline sl -> zlen (sline_text sl) <= e <= zlen (sline_text sl ++ rest) ->
  httpStatusLineParse sl0 (sline_text sl ++ rest) e = Some (mkSline (version sl) (reason sl0) (status sl), 1).
Proof.
  intros (H1 & H2 & H3) Hle. set (b := sline_text sl ++ rest) in *.
  destruct (dec_spec (major (version sl))) as (Hne1 & Hd1 & Hv1); [lia|]. destruct (dec_spec (minor (version sl))) as (_ & Hd2 & Hv2); [lia|].
  destruct (dec_spec (status sl)) as (_ & Hd3 & Hv3); [lia|].
  set (p1 := str "HTTP/"). set (p2 := p1 ++ dec (major (version sl)) ++ [46]). set (p3 := p2 ++ dec (minor (version sl)) ++ [32]).
  assert (He : zlen (sline_text sl) = zlen p3 + zlen (dec (status sl)) + 1 + zlen (httpStatusLineReason sl)).
  { unfold p3, p2, sline_text. fold p1. rewrite !length_app. cbn [length]. rewrite !length_app. cbn [length]. rewrite !length_app. cbn [length]. lia. }
  assert (Hp3 : zlen p3 = zlen p2 + zlen (dec (minor (version sl))) + 1) by (unfold p3; rewrite !length_app; cbn [length]; lia).
  assert (Hp2 : zlen p2 = zlen p1 + zlen (dec (major (version sl))) + 1) by (unfold p2; rewrite !length_app; cbn [length]; lia).
  assert (B3 : b = p3 ++ dec (status sl) ++ 32 :: httpStatusLineReason sl ++ rest).
  { unfold b, sline_text, p3, p2. fold p1. rewrite <- !app_assoc. cbn [app]. rewrite <- !app_assoc. cbn [app]. rewrite <- !app_assoc. done. }
  assert (B2 : b = p2 ++ dec (minor (version sl)) ++ 32 :: dec (status sl) ++ 32 :: httpStatusLineReason sl ++ rest).
  { rewrite B3. unfold p3. rewrite <- !app_assoc. done. }
  assert (B1 : b = p1 ++ dec (major (version sl)) ++ 46 :: dec (minor (version sl)) ++ 32 :: dec (status sl) ++ 32 :: httpStatusLineReason sl ++ rest).
  { rewrite B2. unfold p2. rewrite <- !app_assoc. done. }
  unfold httpStatusLineParse. assert (strncaseeq b (str "HTTP/") 5 = true) as -> by (rewrite B1; done). cbn [negb].
  assert (Hr5 : exists c, rd b 5 = Some c /\ isdigit c = true).
  { rewrite B1. destruct (dec (major (version sl))) as [|c d]; [done|]. exists c. split; [apply (rd_app p1)|]. by apply List.Forall_cons_iff in Hd1 as [? _]. }
  destruct Hr5 as (c & -> & Hc). bind_simpl. rewrite Hc. cbn [negb].
  assert (Hp1 : zlen p1 = 5) by done. clearbody b. rewrite (number_at b p1 (dec (major (version sl))) 46 _ 5 e B1) by (first [lia | assumption | reflexivity]). bind_simpl. rewrite Hv1.
  destruct (Z.leb_spec e (5 + zlen (dec (major (version sl))))), (Z.leb_spec 65536 (major (version sl))); try lia. cbn [orb].
  rewrite (rd_at b (p1 ++ dec (major (version sl))) 46 (dec (minor (version sl)) ++ 32 :: dec (status sl) ++ 32 :: httpStatusLineReason sl ++ rest))
    by (rewrite ?length_app, <- ?app_assoc; first [lia | reflexivity | assumption]). bind_simpl. rewrite Z.eqb_refl. cbn [negb].
  rewrite (number_at b p2 (dec (minor (version sl))) 32 _ _ e B2) by (first [lia | assumption | reflexivity]). bind_simpl. rewrite Hv2.
  match goal with |- context [(e <=? ?x) || _] => destruct (Z.leb_spec e x), (Z.leb_spec 65536 (minor (version sl))); try lia end. cbn [orb].
  rewrite (status_at b p3 (dec (status sl)) 32 _ _ e B3) by (first [lia | assumption | reflexivity]). bind_simpl. rewrite Hv3.
  match goal with |- context [(e <=? ?x)] => destruct (Z.leb_spec e x); try lia end. by destruct (version sl).
Qed.

(** A status line reads back: the line printed for version numbers below
    65536 and a status from 100 on, whatever follows it, parses into the
    version and the status, up to the end of the line. *)
Theorem status_line_roundtrip sl0 sl rest : printable_sline sl ->
  exists line, httpStatusLinePackInto sl = line ++ CRLF /\
  httpStatusLineParse sl0 (line ++ rest) (zlen line) = Some (mkSline (version sl) (reason sl0) (status sl), 1).
Proof. intros Hp. exists (sline_text sl). split; [by apply pack_text|]. apply status_line_parse_text; [done|len_lia]. Qed.

Lemma status_line_roundtrip_witness : exists line,
  httpStatusLinePackInto (mkSline (mkVersion 1 1) None HTTP_GONE) = line ++ CRLF /\
  httpStatusLineParse httpStatusLineInit (line ++ CRLF) (zlen line) = Some (mkSline (mkVersion 1 1) None HTTP_GONE, 1).
Proof. apply (status_line_roundtrip httpStatusLineInit (mkSline (mkVersion 1 1) None HTTP_GONE)). repeat split; by vm_compute. Defined.

(** A long status code overflows the [int]. *)
Lemma status_overflow : httpStatusLineParse httpStatusLineInit (str "HTTP/1.0 2147483648 x" ++ CRLF) 22 = None.
Proof. vm_compute. reflexivity. Qed.

(** The character after the version is not looked at. *)
Lemma status_line_lenient : httpStatusLineParse httpStatusLineInit (str "HTTP/1.0/200 x" ++ CRLF) 15 = Some (mkSline (mkVersion 1 0) None 200, 1).
Proof. vm_compute. reflexivity. Qed.
End HttpStatusLine.
