(* ===== verification/HttpHdrPack.v ===== *)
(** * Typed header fields

    The access functions that tie the structured fields to the header set:
    libhttp/HttpHeaderGet.c and HttpHeaderPut.c (dates, credentials), the
    [httpHeaderGet] functions of HttpHdrCc.c, HttpHdrContRange.c and
    HttpHdrRange.c, and the packers of src/HttpHdrCc.c, HttpHdrContRange.c,
    HttpHdrRange.c and HttpHeader.c. *)

From Stdlib Require Import ZArith Lia.
From stdpp Require Import base strings list numbers option.
From S2P Require Import Prelude CStr Cbit StrList HttpTools HttpHdrCc HttpHdrRange HttpHeaderType HttpHeader HttpHeaderParse Rfc1123 Base64.

Module HttpHdrPack.
Import StrList.StrList HttpTools.HttpTools HttpHdrRange.HttpHdrRange HttpHeaderType.HttpHeaderType HttpHeader.HttpHeader.
Import HttpHdrCc.HttpHdrCc(CC_ENUM_END, CC_OTHER, CC_MAX_AGE, CC_S_MAXAGE, CC_MAX_STALE, CC_STALE_WHILE_REVALIDATE, CC_STALE_IF_ERROR,
  CcFieldsInfo, HttpHdrCc, mkCc, max_age, s_maxage, max_stale, stale_while_revalidate, stale_if_error, other,
  httpHdrCcCreate, httpHdrCcParseCreate, httpHdrCcParseInit, cc_item, cc_split, cc_type, cc_number).
Abbreviation cc_mask := HttpHdrCc.HttpHdrCc.mask.

(** ** Reading *)

Definition httpHeaderGetTime (h : HttpHeader) (id : Z) : option Z :=
  assert? assert_eid id in
  assert? header_type id =? ftDate_1123 in
  let? e := httpHeaderFindEntry h id in
  match (e : option HttpHeaderEntry) with
  | Some e => Rfc1123.parse_rfc1123 (evalue e) (Z.of_nat (length (evalue e)))
  | None => Some (-1)
  end.

(** The zeroed record of a field that is not there has [time] -1. *)
Record TimeOrTag := mkTot { tag : option bytes; time : Z; valid : bool }.

Definition httpHeaderGetTimeOrTag (h : HttpHeader) (id : Z) : option TimeOrTag :=
  assert? header_type id =? ftDate_1123_or_ETag in
  let? e := httpHeaderFindEntry h id in
  match (e : option HttpHeaderEntry) with
  | Some e =>
      let s := evalue e in
      if (deref s =? 34) || ((deref s =? 87) && (nth 1 s 0 =? 47)) then Some (mkTot (Some s) (-1) true)
      else
        let? t := Rfc1123.parse_rfc1123 s (Z.of_nat (length s)) in
        Some (mkTot None t (0 <=? t))
  | None => Some (mkTot None (-1) false)
  end.

(** [None] inside is the NULL result. *)
Definition httpHeaderGetAuth (h : HttpHeader) (id : Z) (auth_scheme : bytes) : option (option bytes) :=
  let? field := httpHeaderGetStr h id in
  match (field : option bytes) with
  | None => Some None
  | Some field =>
      let l := length auth_scheme in
      if (l =? 0)%nat || negb (strncaseeq field auth_scheme l) then Some None
      else
        let field := drop l field in
        if negb (isspace (deref field)) then Some None
        else
          let field := drop (span isspace field) field in
          if bool_decide (field = []) then Some None
          else let? t := Base64.base64_decode field in Some (Some t)
  end.

Definition httpHeaderGetCc (h : HttpHeader) : option (option HttpHdrCc) :=
  let? t := Cbit.CBIT_TEST (mask h) HDR_CACHE_CONTROL in
  if negb t then Some None
  else let? s := httpHeaderGetList h HDR_CACHE_CONTROL in httpHdrCcParseCreate s.

Definition httpHeaderGetContRange (h : HttpHeader) : option (option HttpHdrContRange) :=
  let? e := httpHeaderFindEntry h HDR_CONTENT_RANGE in
  Some match (e : option HttpHeaderEntry) with Some e => httpHdrContRangeParseCreate (evalue e) | None => None end.

Definition httpHeaderGetRange (h : HttpHeader) : option (option HttpHdrRange) :=
  let? e := httpHeaderFindEntry h HDR_RANGE in
  let? e := match (e : option HttpHeaderEntry) with Some e => Some (Some e) | None => httpHeaderFindEntry h HDR_REQUEST_RANGE end in
  match (e : option HttpHeaderEntry) with
  | Some e => httpHdrRangeParseCreate (evalue e)
  | None => Some None
  end.

(** ** Printing *)

Definition print_int (n : Z) : bytes := if n <? 0 then 45 :: dec (- n) else dec n.

(** What is printed for a directive after its name; an [int] is printed. *)
Definition cc_suffix (cc : HttpHdrCc) (flag : Z) : bytes :=
  (if flag =? CC_MAX_AGE then 61 :: print_int (wrap_s 32 (max_age cc)) else []) ++
  (if flag =? CC_S_MAXAGE then 61 :: print_int (wrap_s 32 (s_maxage cc)) else []) ++
  (if (flag =? CC_MAX_STALE) && (0 <=? max_stale cc) then 61 :: print_int (wrap_s 32 (max_stale cc)) else []) ++
  (if flag =? CC_STALE_WHILE_REVALIDATE then 61 :: print_int (wrap_s 32 (stale_while_revalidate cc)) else []).

(** One round of the loop: the text so far and [pcount]. *)
Definition cc_pack_flag (cc : HttpHdrCc) (st : bytes * Z) (flag : Z) : bytes * Z :=
  let '(out, pcount) := st in
  if EBIT_TEST (cc_mask cc) flag && negb (flag =? CC_OTHER) then
    (out ++ (if pcount =? 0 then [] else str ", ") ++ nth (Z.to_nat flag) CcFieldsInfo [] ++ cc_suffix cc flag, pcount + 1)
  else st.

Definition httpHdrCcPackInto (cc : HttpHdrCc) : bytes :=
  let '(out, pcount) := foldl (cc_pack_flag cc) ([], 0) (seqZ 0 CC_ENUM_END) in
  if (length (other cc) =? 0)%nat then out else out ++ (if pcount =? 0 then [] else str ", ") ++ other cc.

Definition httpHdrRangeRespSpecPackInto (s : HttpHdrRangeSpec) : bytes :=
  if negb (known_spec (offset s)) || negb (known_spec (length_ s)) then str "*"
  else str "bytes " ++ print_int (offset s) ++ 45 :: print_int (wrap_s 64 (offset s + length_ s - 1)).

Definition httpHdrContRangePackInto (r : HttpHdrContRange) : bytes :=
  httpHdrRangeRespSpecPackInto (spec r) ++ (if negb (known_spec (elength r)) then str "/*" else 47 :: print_int (elength r)).

Definition httpHdrRangeSpecPackInto (s : HttpHdrRangeSpec) : bytes :=
  if negb (known_spec (offset s)) then 45 :: print_int (length_ s)
  else if negb (known_spec (length_ s)) then print_int (offset s) ++ [45]
  else print_int (offset s) ++ 45 :: print_int (wrap_s 64 (offset s + length_ s - 1)).

(** [HttpHdrRangeInitPos] is -1 and the position is tested after it was
    advanced. *)
Fixpoint range_pack_loop (fuel : nat) (range : HttpHdrRange) (pos : Z) (out : bytes) : option bytes :=
  let? (s, pos) := httpHdrRangeGetSpec range pos in
  match (s : option HttpHdrRangeSpec) with
  | None => Some out
  | Some s =>
      match fuel with
      | O => None
      | S fuel =>
          let out := if negb (pos =? -1) then out ++ [44] else out in
          range_pack_loop fuel range pos (out ++ httpHdrRangeSpecPackInto s)
      end
  end.

Definition httpHdrRangePackInto (range : HttpHdrRange) : option bytes := range_pack_loop (range_fuel range) range (-1) [].

(** ** Writing *)

Definition httpHeaderPutTime (h : HttpHeader) (id htime : Z) : option HttpHeader :=
  assert? assert_eid id in
  assert? header_type id =? ftDate_1123 in
  assert? 0 <=? htime in
  let? t := Rfc1123.mkrfc1123 htime in
  httpHeaderAddEntryStr h id [] t.

Definition httpHeaderInsertTime (h : HttpHeader) (pos id htime : Z) : option HttpHeader :=
  assert? assert_eid id in
  assert? header_type id =? ftDate_1123 in
  assert? 0 <=? htime in
  let? t := Rfc1123.mkrfc1123 htime in
  httpHeaderInsertEntryStr h pos id [] t.

Definition httpHeaderPutAuth (h : HttpHeader) (auth_scheme realm : bytes) : option HttpHeader :=
  httpHeaderPutStr h HDR_WWW_AUTHENTICATE (auth_scheme ++ str " realm=" ++ [34] ++ realm ++ [34]).

(** The old fields are deleted and the packed text is added. *)
Definition put_packed (h : HttpHeader) (id : Z) (text : bytes) : option HttpHeader :=
  let? (h, _) := httpHeaderDelById h id in
  let? (h, _) := httpHeaderAddEntryStr2 h id [] text in
  Some h.

Definition httpHeaderPutCc (h : HttpHeader) (cc : HttpHdrCc) : option HttpHeader :=
  put_packed h HDR_CACHE_CONTROL (httpHdrCcPackInto cc).

Definition httpHeaderPutContRange (h : HttpHeader) (cr : HttpHdrContRange) : option HttpHeader :=
  put_packed h HDR_CONTENT_RANGE (httpHdrContRangePackInto cr).

Definition httpHeaderPutRange (h : HttpHeader) (range : HttpHdrRange) : option HttpHeader :=
  let? text := httpHdrRangePackInto range in put_packed h HDR_RANGE text.

Definition httpHeaderAddContRange (h : HttpHeader) (s : HttpHdrRangeSpec) (ent_len : Z) : option HttpHeader :=
  assert? 0 <=? ent_len in
  let? cr := httpHdrContRangeSet httpHdrContRangeCreate s ent_len in
  httpHeaderPutContRange h cr.

Example ex_cc : option_map httpHdrCcPackInto (default None (httpHdrCcParseCreate (Some (str "max-age=10, Public, foo=1,max-stale")))) =
  Some (str "public, max-age=10, max-stale, foo=1").
Proof. vm_compute. reflexivity. Qed.
Example ex_range_pack : httpHdrRangePackInto [mkSpec 0 500; mkSpec (-1) 5] = Some (str ",0-499,-5").
Proof. vm_compute. reflexivity. Qed.

(** ** Round trip of Cache-Control *)

(** A directive without a name of its own, as the parser keeps one. *)
Definition extension (t : bytes) : Prop := token t /\ cc_type t (length t) = CC_OTHER /\ Z.of_nat (length t) <= 60000.

(** An object as the parser builds it: values are there for the directives
    that have one, and there is text for other directives if there are any. *)
Definition cc_packable (cc : HttpHdrCc) : Prop :=
  0 < cc_mask cc < 2 ^ 14 /\
  (if EBIT_TEST (cc_mask cc) CC_MAX_AGE then 0 <= max_age cc < 2 ^ 31 else max_age cc = -1) /\
  (if EBIT_TEST (cc_mask cc) CC_S_MAXAGE then 0 <= s_maxage cc < 2 ^ 31 else s_maxage cc = -1) /\
  (if EBIT_TEST (cc_mask cc) CC_MAX_STALE then -1 <= max_stale cc < 2 ^ 31 else max_stale cc = -1) /\
  (if EBIT_TEST (cc_mask cc) CC_STALE_WHILE_REVALIDATE then 0 <= stale_while_revalidate cc < 2 ^ 31 else stale_while_revalidate cc = 0) /\
  (if EBIT_TEST (cc_mask cc) CC_STALE_IF_ERROR then True else stale_if_error cc = 0) /\
  (if EBIT_TEST (cc_mask cc) CC_OTHER then extension (other cc) else other cc = []).

(** What is read of an object that was printed: the value of stale-if-error
    is not printed, and without its value the directive is dropped. *)
Definition cc_read (cc : HttpHdrCc) : option HttpHdrCc :=
  let m := EBIT_CLR (cc_mask cc) CC_STALE_IF_ERROR in
  if m =? 0 then None
  else Some (mkCc m (max_age cc) (s_maxage cc) (max_stale cc) (stale_while_revalidate cc) (if EBIT_TEST (cc_mask cc) CC_STALE_IF_ERROR then -1 else 0) (other cc)).

Lemma cc_read_all cc : cc_packable cc -> EBIT_TEST (cc_mask cc) CC_STALE_IF_ERROR = false -> cc_read cc = Some cc.
Proof.
  intros (Hm & _ & _ & _ & _ & Hs & _) Ht. unfold cc_read. rewrite Ht in *. assert (EBIT_CLR (cc_mask cc) CC_STALE_IF_ERROR = cc_mask cc) as ->.
  { apply Z.bits_inj'. intros i Hi. rewrite EBIT_CLR_testbit by done. case_bool_decide; [|by rewrite andb_true_r]. subst. rewrite EBIT_TEST_testbit in Ht by done. by rewrite Ht. }
  destruct (Z.eqb_spec (cc_mask cc) 0); [lia|]. destruct cc. cbn in *. by subst.
Qed.

(** What the object holds of [cc] once the directives below [k] are read. *)
Definition restrict (k : Z) (cc : HttpHdrCc) : HttpHdrCc :=
  mkCc (cc_mask cc `mod` 2 ^ k) (if CC_MAX_AGE <? k then max_age cc else -1) (if CC_S_MAXAGE <? k then s_maxage cc else -1)
       (if CC_MAX_STALE <? k then max_stale cc else -1) (if CC_STALE_WHILE_REVALIDATE <? k then stale_while_revalidate cc else 0) 0 [].

Definition cc_text (cc : HttpHdrCc) (flag : Z) : bytes := nth (Z.to_nat flag) CcFieldsInfo [] ++ cc_suffix cc flag.

Lemma httpHeaderParseInt_dec n r : 0 <= n < 2 ^ 31 -> not_digit_head r -> httpHeaderParseInt (dec n ++ r) = (true, n).
Proof.
  intros Hn Hr. unfold httpHeaderParseInt. rewrite strtol_dec by (done || lia). cbn [st_len st_erange st_val].
  destruct (dec_spec n ltac:(lia)) as (Hne & _). rewrite wrap_s_small by lia. rewrite Z.eqb_refl. by destruct (dec n).
Qed.

Lemma mod_bit m k : 0 <= k -> 
  EBIT_TEST (m `mod` 2 ^ k) k = false /\
  (EBIT_TEST m k = true -> EBIT_SET (m `mod` 2 ^ k) k = m `mod` 2 ^ (k + 1)) /\
  (EBIT_TEST m k = false -> m `mod` 2 ^ k = m `mod` 2 ^ (k + 1)).
Proof.
  intros Hk. rewrite !EBIT_TEST_testbit by done. split; [apply Z.mod_pow2_bits_high; lia|].
  assert (forall i, 0 <= i -> Z.testbit (m `mod` 2 ^ (k + 1)) i = (i <? k + 1) && Z.testbit m i) as Hb.
  { intros i Hi. destruct (Z.ltb_spec i (k + 1)); [by rewrite Z.mod_pow2_bits_low by lia|by rewrite Z.mod_pow2_bits_high by lia]. }
  assert (forall i, 0 <= i -> Z.testbit (m `mod` 2 ^ k) i = (i <? k) && Z.testbit m i) as Hb0.
  { intros i Hi. destruct (Z.ltb_spec i k); [by rewrite Z.mod_pow2_bits_low by lia|by rewrite Z.mod_pow2_bits_high by lia]. }
  split; intros Ht; apply Z.bits_inj'; intros i Hi.
  - rewrite EBIT_SET_testbit, Hb, Hb0 by done.
    destruct (Z.ltb_spec i k), (Z.ltb_spec i (k + 1)); try lia; case_bool_decide; try lia; subst; rewrite ?orb_false_r, ?Ht; done.
  - rewrite Hb, Hb0 by done. destruct (Z.ltb_spec i k), (Z.ltb_spec i (k + 1)); try lia; try done. assert (i = k) as -> by lia. by rewrite Ht.
Qed.

(** A name, and a value after it or not. *)
Lemma cc_split_value name v r : Forall (fun c => c <> 61) name ->
  cc_split ((name ++ 61 :: v) ++ r) (length (name ++ 61 :: v)) = (length name, Some (v ++ r)).
Proof.
  intros Hn. unfold cc_split. rewrite <- app_assoc. cbn [app]. rewrite HttpHeaderParse.memchr_found; [|done|len_lia].
  f_equal. f_equal. replace (S (length name)) with (length (name ++ [61])) by len_lia.
  rewrite app_comm_cons, <- (drop_app_length (name ++ [61]) (v ++ r)). by rewrite <- app_assoc.
Qed.

Lemma cc_split_plain name r : Forall (fun c => c <> 61) name -> cc_split (name ++ r) (length name) = (length name, None).
Proof. intros Hn. unfold cc_split. by rewrite HttpHeaderParse.memchr_none. Qed.

Definition name_of (flag : Z) : bytes := nth (Z.to_nat flag) CcFieldsInfo [].

Lemma cc_names flag : 0 <= flag < 13 ->
  name_of flag <> [] /\ Forall (fun c => c <> 61 /\ token_char c = true) (name_of flag) /\
  forall x, httpHeaderIdByName (name_of flag ++ x) (Z.of_nat (length (name_of flag))) CcFieldsInfo = flag.
Proof.
  intros Hf. assert (Hall : forallb (fun flag => negb (length (name_of flag) =? 0)%nat && forallb (fun c => negb (c =? 61) && token_char c) (name_of flag) &&
    (httpHeaderIdByName (name_of flag) (Z.of_nat (length (name_of flag))) CcFieldsInfo =? flag)) (seqZ 0 13) = true) by (vm_compute; reflexivity).
  rewrite forallb_forall in Hall. specialize (Hall flag). rewrite <- list_elem_of_In, elem_of_seqZ in Hall. specialize (Hall ltac:(lia)).
  rewrite !andb_true_iff, forallb_forall in Hall. destruct Hall as [[H1 H2] H3]. split; [by destruct (name_of flag)|]. split.
  - apply List.Forall_forall. intros c Hc. specialize (H2 c Hc). zify_bools. done.
  - intros x. rewrite HttpHeaderParse.httpHeaderIdByName_app. by apply Z.eqb_eq.
Qed.

(** The value printed for a directive. *)
Definition cc_printed (cc : HttpHdrCc) (flag : Z) : option Z :=
  if flag =? CC_MAX_AGE then Some (max_age cc)
  else if flag =? CC_S_MAXAGE then Some (s_maxage cc)
  else if (flag =? CC_MAX_STALE) && (0 <=? max_stale cc) then Some (max_stale cc)
  else if flag =? CC_STALE_WHILE_REVALIDATE then Some (stale_while_revalidate cc) else None.

Lemma cc_suffix_printed cc flag : cc_packable cc -> EBIT_TEST (cc_mask cc) flag = true ->
  cc_suffix cc flag = match cc_printed cc flag with Some v => 61 :: dec v | None => [] end /\
  match cc_printed cc flag with Some v => 0 <= v < 2 ^ 31 | None => True end.
Proof.
  intros (_ & H1 & H2 & H3 & H4 & _) Ht. unfold cc_suffix, cc_printed.
  assert (forall v, 0 <= v < 2 ^ 31 -> print_int (wrap_s 32 v) = dec v) as Hp.
  { intros v Hv. rewrite wrap_s_small by lia. unfold print_int. by destruct (Z.ltb_spec v 0); [lia|]. }
  destruct (Z.eqb_spec flag CC_MAX_AGE) as [->|]; [rewrite Ht in H1; rewrite (Hp (max_age cc)) by done; split; [cbn -[dec]; by rewrite ?app_nil_r|done]|].
  destruct (Z.eqb_spec flag CC_S_MAXAGE) as [->|]; [rewrite Ht in H2; rewrite (Hp (s_maxage cc)) by done; split; [cbn -[dec]; by rewrite ?app_nil_r|done]|].
  destruct (Z.eqb_spec flag CC_MAX_STALE) as [->|]; cbn [andb app].
  { rewrite Ht in H3. destruct (Z.leb_spec 0 (max_stale cc)); [rewrite (Hp (max_stale cc)) by lia; split; [cbn -[dec]; by rewrite ?app_nil_r|lia]|done]. }
  destruct (Z.eqb_spec flag CC_STALE_WHILE_REVALIDATE) as [->|]; [rewrite Ht in H4; rewrite (Hp (stale_while_revalidate cc)) by done; split; [cbn -[dec]; by rewrite ?app_nil_r|done]|done].
Qed.

Lemma cc_split_text cc flag r : cc_packable cc -> 0 <= flag < 12 -> EBIT_TEST (cc_mask cc) flag = true -> list_tail r ->
  cc_type (cc_text cc flag ++ r) (length (cc_text cc flag)) = flag /\
  snd (cc_split (cc_text cc flag ++ r) (length (cc_text cc flag))) = match cc_printed cc flag with Some v => Some (dec v ++ r) | None => None end.
Proof.
  intros Hc Hf Ht Hr. unfold cc_text, cc_type. fold (name_of flag). destruct (cc_suffix_printed cc flag Hc Ht) as [-> _].
  destruct (cc_names flag ltac:(lia)) as (_ & Hn & Hid).
  assert (Hn' : Forall (fun c => c <> 61) (name_of flag)) by (eapply List.Forall_impl; [|exact Hn]; by intros c [? _]).
  destruct (cc_printed cc flag) as [v|].
  - rewrite cc_split_value by done. cbn [fst snd]. rewrite <- app_assoc, Hid. destruct (Z.ltb_spec flag 0); [lia|done].
  - rewrite app_nil_r, cc_split_plain by done. cbn [fst snd]. rewrite Hid. destruct (Z.ltb_spec flag 0); [lia|done].
Qed.

(** One directive is read. *)
Lemma cc_item_step cc flag r : cc_packable cc -> 0 <= flag < 12 -> EBIT_TEST (cc_mask cc) flag = true -> list_tail r ->
  cc_item (restrict flag cc) (cc_text cc flag ++ r) (length (cc_text cc flag)) = restrict (flag + 1) cc.
Proof.
  intros Hc Hf Ht Hr. destruct (cc_split_text cc flag r Hc Hf Ht Hr) as [Hty Hsp]. unfold cc_item. rewrite Hty, Hsp.
  destruct (mod_bit (cc_mask cc) flag ltac:(lia)) as (Hz & Hs & _). specialize (Hs Ht). pose proof (cc_suffix_printed cc flag Hc Ht) as [_ Hv].
  apply list_tail_not_digit in Hr. destruct Hc as (_ & H1 & H2 & H3 & H4 & _).
  assert (flag ∈ seqZ 0 12) as Hin by (apply elem_of_seqZ; lia). revert H1 H2 H3 H4 Hz Hs Hv Ht. unfold restrict, cc_printed. clear Hsp Hty Hf.
  change (seqZ 0 12) with [0;1;2;3;4;5;6;7;8;9;10;11] in Hin.
  repeat (apply elem_of_cons in Hin as [->|Hin]); [..|by apply elem_of_nil in Hin].
  all: intros H1 H2 H3 H4 Hz Hs Hv Ht; cbn -[dec EBIT_TEST EBIT_SET httpHeaderParseInt Z.pow Z.modulo Z.leb] in *; rewrite Hz;
    unfold HttpHdrCc.HttpHdrCc.set_mask, HttpHdrCc.HttpHdrCc.set_max_age, HttpHdrCc.HttpHdrCc.set_s_maxage,
      HttpHdrCc.HttpHdrCc.set_max_stale, HttpHdrCc.HttpHdrCc.set_swr;
    cbn -[dec EBIT_TEST EBIT_SET httpHeaderParseInt Z.pow Z.modulo Z.leb]; rewrite Hs.
  all: try reflexivity.
  all: rewrite ?httpHeaderParseInt_dec by done; try reflexivity.
  destruct (Z.leb_spec 0 (max_stale cc)); [by rewrite httpHeaderParseInt_dec|]. change 9 with CC_MAX_STALE in Ht. rewrite Ht in H3.
  by replace (max_stale cc) with (-1) by lia.
Qed.

(** An absent directive leaves the defaults. *)
Lemma restrict_skip cc flag : cc_packable cc -> 0 <= flag < 12 -> EBIT_TEST (cc_mask cc) flag = false -> restrict flag cc = restrict (flag + 1) cc.
Proof.
  intros (_ & H1 & H2 & H3 & H4 & _) Hf Ht. destruct (mod_bit (cc_mask cc) flag ltac:(lia)) as (_ & _ & Hs). specialize (Hs Ht).
  unfold restrict. rewrite Hs.
  assert (Hd : forall n (a b : Z), (EBIT_TEST (cc_mask cc) n = false -> a = b) -> (if n <? flag then a else b) = (if n <? flag + 1 then a else b)).
  { intros n a b Hab. destruct (Z.ltb_spec n flag), (Z.ltb_spec n (flag + 1)); try lia; try done. assert (n = flag) as -> by lia. by rewrite Hab. }
  f_equal; apply Hd; intros E; rewrite E in *; done.
Qed.

Definition present (cc : HttpHdrCc) (flags : list Z) : list Z := List.filter (fun flag => EBIT_TEST (cc_mask cc) flag) flags.

Lemma fold_items cc k n rest : cc_packable cc -> 0 <= k -> k + Z.of_nat n = 12 ->
  foldl (fun a d => cc_item a (fst d) (snd d)) (restrict k cc) (ptrs (map (cc_text cc) (present cc (seqZ k (Z.of_nat n))) ++ rest)) =
  foldl (fun a d => cc_item a (fst d) (snd d)) (restrict 12 cc) (ptrs rest).
Proof.
  intros Hc. revert k. induction n as [|n IH]; intros k Hk Hn.
  { replace k with 12 by lia. done. }
  rewrite seqZ_cons by lia. cbn [present List.filter]. fold (present cc (seqZ (Z.succ k) (Z.pred (Z.of_nat (S n))))).
  replace (Z.succ k) with (k + 1) by lia. replace (Z.pred (Z.of_nat (S n))) with (Z.of_nat n) by lia.
  destruct (EBIT_TEST (cc_mask cc) k) eqn:Et.
  - cbn [map app ptrs foldl fst snd]. rewrite cc_item_step; [apply IH; lia|done|lia|done|].
    destruct (map (cc_text cc) _ ++ rest); [by left|by right].
  - rewrite (restrict_skip cc k) by (done || lia). apply IH; lia.
Qed.

(** The directives after stale-while-revalidate. *)
Definition last_texts (cc : HttpHdrCc) : list bytes :=
  (if EBIT_TEST (cc_mask cc) CC_STALE_IF_ERROR then [cc_text cc CC_STALE_IF_ERROR] else []) ++ (if EBIT_TEST (cc_mask cc) CC_OTHER then [other cc] else []).

Lemma restrict_12 cc : cc_packable cc ->
  restrict 12 cc = mkCc (cc_mask cc `mod` 2 ^ 12) (max_age cc) (s_maxage cc) (max_stale cc) (stale_while_revalidate cc) 0 [] /\
  EBIT_TEST (cc_mask cc `mod` 2 ^ 12) 12 = false /\ EBIT_TEST (cc_mask cc `mod` 2 ^ 12) 13 = false.
Proof. intros Hc. split; [done|]. rewrite !EBIT_TEST_testbit by done. split; apply Z.mod_pow2_bits_high; lia. Qed.

(** stale-if-error without its value leaves only a mark in its field. *)
Lemma cc_item_error m a b c d r : EBIT_TEST m 12 = false -> 0 <= m ->
  cc_item (mkCc m a b c d 0 []) (str "stale-if-error" ++ r) 14 = mkCc m a b c d (-1) [].
Proof.
  intros Hm H0. assert (cc_type (str "stale-if-error" ++ r) 14 = 12 /\ snd (cc_split (str "stale-if-error" ++ r) 14) = None) as [Ht Hs].
  { destruct (cc_names 12 ltac:(lia)) as (_ & Hn & Hid). assert (Hn' : Forall (fun c => c <> 61) (name_of 12)) by (eapply List.Forall_impl; [|exact Hn]; by intros ? [? _]).
    change (str "stale-if-error") with (name_of 12). change 14%nat with (length (name_of 12)). unfold cc_type. rewrite cc_split_plain by done. cbn [fst snd]. by rewrite Hid. }
  unfold cc_item. rewrite Ht, Hs. change (HttpHdrCc.HttpHdrCc.mask (mkCc m a b c d 0 [])) with m. rewrite Hm.
  cbn -[EBIT_SET EBIT_CLR]. unfold HttpHdrCc.HttpHdrCc.set_mask. cbn -[EBIT_SET EBIT_CLR]. f_equal. apply Z.bits_inj'. intros i Hi.
  rewrite EBIT_CLR_testbit, EBIT_SET_testbit by done. case_bool_decide; [subst; rewrite EBIT_TEST_testbit in Hm by done; by rewrite Hm, andb_false_r|].
  by rewrite orb_false_r, andb_true_r.
Qed.

Lemma cc_item_other m a b c d e t : EBIT_TEST m 13 = false -> cc_type t (length t) = CC_OTHER ->
  cc_item (mkCc m a b c d e []) t (length t) = mkCc (EBIT_SET m 13) a b c d e t.
Proof.
  intros Hm Ht. unfold cc_item. rewrite Ht. change (HttpHdrCc.HttpHdrCc.mask (mkCc m a b c d e [])) with m. change CC_OTHER with 13. rewrite Hm.
  cbn -[EBIT_SET take]. by rewrite take_ge.
Qed.

(** The bits that are left. *)
Lemma last_bits m : 0 <= m < 2 ^ 14 ->
  EBIT_CLR m 12 = if EBIT_TEST m 13 then EBIT_SET (m `mod` 2 ^ 12) 13 else m `mod` 2 ^ 12.
Proof.
  intros Hm. apply Z.bits_inj'. intros i Hi.
  assert (Z.testbit (m `mod` 2 ^ 12) i = (i <? 12) && Z.testbit m i) as Hb.
  { destruct (Z.ltb_spec i 12); [by rewrite Z.mod_pow2_bits_low by lia|by rewrite Z.mod_pow2_bits_high by lia]. }
  assert (14 <= i -> Z.testbit m i = false) as Hh by (intros Hi14; rewrite <- (Z.mod_small m (2 ^ 14)) by lia; apply Z.mod_pow2_bits_high; lia).
  rewrite EBIT_CLR_testbit by done. rewrite EBIT_TEST_testbit by done.
  destruct (decide (14 <= i)) as [H14|H14].
  - rewrite (Hh H14) in *. cbn [andb]. rewrite andb_false_r in Hb. destruct (Z.testbit m 13); [rewrite EBIT_SET_testbit, Hb by done|by rewrite Hb]. rewrite bool_decide_false by lia. done.
  - destruct (Z.testbit m 13) eqn:E13; [rewrite EBIT_SET_testbit by done|]; rewrite Hb; destruct (Z.ltb_spec i 12); cbn [andb orb].
    + rewrite !bool_decide_false by lia. by rewrite andb_true_r, orb_false_r.
    + destruct (decide (i = 12)) as [->|]; [by rewrite andb_false_r|]. assert (i = 13) as -> by lia. by rewrite E13.
    + rewrite bool_decide_false by lia. by rewrite andb_true_r.
    + destruct (decide (i = 12)) as [->|]; [by rewrite andb_false_r|]. assert (i = 13) as -> by lia. by rewrite E13.
Qed.

Lemma fold_last cc : cc_packable cc ->
  let c := foldl (fun a d => cc_item a (fst d) (snd d)) (restrict 12 cc) (ptrs (last_texts cc)) in
  (if negb (cc_mask c =? 0) then Some c else None) = cc_read cc.
Proof.
  intros Hc. destruct (restrict_12 cc Hc) as (-> & H12 & H13). destruct Hc as (Hm & _ & _ & _ & _ & _ & Ho). unfold cc_read, last_texts.
  change CC_STALE_IF_ERROR with 12 in *. change CC_OTHER with 13 in *. rewrite (last_bits (cc_mask cc)) by lia.
  pose proof (Z.mod_pos_bound (cc_mask cc) (2 ^ 12) ltac:(lia)) as Hmod. set (m := cc_mask cc `mod` 2 ^ 12) in *. change (cc_text cc 12) with (str "stale-if-error").
  assert (forall t : bytes, t ++ join [] = t) as Hj by (intros t; apply app_nil_r).
  destruct (EBIT_TEST (cc_mask cc) 12), (EBIT_TEST (cc_mask cc) 13); cbn [app ptrs foldl fst snd]; rewrite ?Hj; change (length (str "stale-if-error")) with 14%nat.
  - destruct Ho as (_ & Ht & _). change 13 with CC_OTHER in Ht. rewrite (cc_item_error m) by (done || lia). rewrite (cc_item_other m) by done. cbn [HttpHdrCc.HttpHdrCc.mask]. by destruct (_ =? 0).
  - rewrite <- (Hj (str "stale-if-error")), (cc_item_error m) by (done || lia). rewrite Ho. cbn [HttpHdrCc.HttpHdrCc.mask]. by destruct (_ =? 0).
  - destruct Ho as (_ & Ht & _). change 13 with CC_OTHER in Ht. rewrite (cc_item_other m) by done. cbn [HttpHdrCc.HttpHdrCc.mask]. by destruct (_ =? 0).
  - rewrite Ho. cbn [HttpHdrCc.HttpHdrCc.mask]. by destruct (_ =? 0).
Qed.

(** What is packed is the list of the directives that are present. *)
Definition text_of (l : list bytes) : bytes := match l with [] => [] | x :: l => x ++ join l end.

Lemma text_of_snoc l o : text_of (l ++ [o]) = text_of l ++ (if (length l =? 0)%nat then [] else str ", ") ++ o.
Proof.
  destruct l as [|x l]; [cbn; by rewrite app_nil_r|]. cbn [app text_of length Nat.eqb]. unfold join. rewrite map_app, concat_app. cbn [map concat]. by rewrite app_nil_r, <- !app_assoc.
Qed.

Lemma present_app cc l l' : present cc (l ++ l') = present cc l ++ present cc l'.
Proof. apply filter_app. Qed.

Lemma cc_pack_flags cc n : (n <= 13)%nat ->
  foldl (cc_pack_flag cc) ([], 0) (seqZ 0 (Z.of_nat n)) =
    (text_of (map (cc_text cc) (present cc (seqZ 0 (Z.of_nat n)))), Z.of_nat (length (present cc (seqZ 0 (Z.of_nat n))))).
Proof.
  induction n as [|n IH]; intros Hn; [done|]. replace (Z.of_nat (S n)) with (Z.of_nat n + 1) by lia. rewrite seqZ_app by lia. rewrite foldl_app, IH by lia.
  rewrite present_app, map_app, length_app. rewrite Z.add_0_l. replace (seqZ (Z.of_nat n) 1) with [Z.of_nat n] by (rewrite seqZ_cons by lia; done).
  cbn [foldl present List.filter]. unfold cc_pack_flag at 1. destruct (Z.eqb_spec (Z.of_nat n) CC_OTHER); [unfold CC_OTHER in *; lia|]. rewrite andb_true_r.
  destruct (EBIT_TEST (cc_mask cc) (Z.of_nat n)); cbn [map length]; [|by rewrite app_nil_r, Nat.add_0_r]. rewrite text_of_snoc, length_map. f_equal; [|lia].
  f_equal. unfold cc_text. destruct (present cc (seqZ 0 (Z.of_nat n))); cbn [length Nat.eqb]; [done|]. by destruct (Z.eqb_spec (Z.of_nat (S (length l))) 0); [lia|].
Qed.

Lemma mask_bits m k n : 0 <= m < 2 ^ n -> 0 <= n <= k -> EBIT_TEST m k = false.
Proof. intros Hm Hn. rewrite EBIT_TEST_testbit by lia. rewrite <- (Z.mod_small m (2 ^ n)) by done. apply Z.mod_pow2_bits_high. lia. Qed.

Definition cc_texts (cc : HttpHdrCc) : list bytes := map (cc_text cc) (present cc (seqZ 0 12)) ++ last_texts cc.

Lemma extension_nonempty t : extension t -> t <> [].
Proof. by intros [[? _] _]. Qed.

Lemma cc_texts_nonempty cc : cc_packable cc -> cc_texts cc <> [].
Proof.
  intros Hc E. pose proof Hc as (Hm & _). unfold cc_texts, last_texts in E. apply app_nil in E as [E1 [E2 E3]%app_nil]. apply map_eq_nil in E1.
  assert (cc_mask cc = 0); [|lia]. apply Z.bits_inj'. intros i Hi. rewrite Z.testbit_0_l, <- EBIT_TEST_testbit by done.
  destruct (decide (i < 12)).
  - destruct (EBIT_TEST (cc_mask cc) i) eqn:Et; [|done]. assert (i ∈ present cc (seqZ 0 12)) as Hin; [|rewrite E1 in Hin; by apply elem_of_nil in Hin].
    apply list_elem_of_In, filter_In. split; [|done]. apply list_elem_of_In, elem_of_seqZ. lia.
  - destruct (decide (i = 12)) as [->|]; [change 12 with CC_STALE_IF_ERROR; by destruct (EBIT_TEST (cc_mask cc) CC_STALE_IF_ERROR)|].
    destruct (decide (i = 13)) as [->|]; [change 13 with CC_OTHER; by destruct (EBIT_TEST (cc_mask cc) CC_OTHER)|]. apply (mask_bits _ _ 14); lia.
Qed.

Lemma cc_pack_ok cc : cc_packable cc -> httpHdrCcPackInto cc = text_of (cc_texts cc).
Proof.
  intros (_ & _ & _ & _ & _ & _ & Ho). unfold httpHdrCcPackInto, cc_texts, last_texts.
  change (seqZ 0 CC_ENUM_END) with (seqZ 0 (Z.of_nat 13) ++ [13]). rewrite foldl_app, (cc_pack_flags cc 13) by lia. cbn [foldl cc_pack_flag].
  change (13 =? CC_OTHER) with true. rewrite andb_false_r.
  assert (map (cc_text cc) (present cc (seqZ 0 (Z.of_nat 13))) = map (cc_text cc) (present cc (seqZ 0 12)) ++ (if EBIT_TEST (cc_mask cc) CC_STALE_IF_ERROR then [cc_text cc CC_STALE_IF_ERROR] else [])) as E.
  { change (seqZ 0 (Z.of_nat 13)) with (seqZ 0 12 ++ [12]). rewrite present_app, map_app. f_equal. cbn [present List.filter]. change 12 with CC_STALE_IF_ERROR. destruct (EBIT_TEST (cc_mask cc) CC_STALE_IF_ERROR); reflexivity. }
  rewrite (app_assoc (map (cc_text cc) (present cc (seqZ 0 12)))), <- E. set (l := present cc _). destruct (EBIT_TEST (cc_mask cc) CC_OTHER).
  - apply extension_nonempty in Ho. destruct (other cc) as [|c o]; [done|]. cbn [length Nat.eqb]. rewrite text_of_snoc, length_map. f_equal. f_equal.
    destruct l; cbn [length Nat.eqb]; [done|]. by destruct (Z.eqb_spec (Z.of_nat (S (length l))) 0); [lia|].
  - rewrite Ho. cbn [length Nat.eqb]. by rewrite app_nil_r.
Qed.

Lemma cc_text_token cc flag : cc_packable cc -> 0 <= flag < 13 -> EBIT_TEST (cc_mask cc) flag = true -> token (cc_text cc flag).
Proof.
  intros Hc Hf Ht. destruct (cc_names flag ltac:(lia)) as (Hne & Hn & _). unfold cc_text. fold (name_of flag).
  destruct (cc_suffix_printed cc flag Hc Ht) as [-> Hv]. split; [by destruct (name_of flag)|]. apply List.Forall_app. split.
  - eapply List.Forall_impl; [|exact Hn]. by intros c [_ ?].
  - destruct (cc_printed cc flag) as [v|]; [|done]. constructor; [done|]. destruct (dec_spec v ltac:(lia)) as (_ & Hd & _).
    eapply List.Forall_impl; [|exact Hd]. apply digit_token_char.
Qed.

Lemma cc_texts_tokens cc : cc_packable cc -> Forall token (cc_texts cc).
Proof.
  intros Hc. unfold cc_texts, last_texts. rewrite !List.Forall_app. split; [|split].
  - apply List.Forall_map, List.Forall_forall. intros f [Hin Ht]%filter_In. apply list_elem_of_In, elem_of_seqZ in Hin. apply cc_text_token; [done|lia|done].
  - destruct (EBIT_TEST (cc_mask cc) CC_STALE_IF_ERROR) eqn:Et; [|done]. constructor; [|done]. by apply cc_text_token.
  - destruct Hc as (_ & _ & _ & _ & _ & _ & Ho). destruct (EBIT_TEST (cc_mask cc) CC_OTHER); [|done]. constructor; [by destruct Ho|done].
Qed.

(** Cache-Control directives survive being sent on, but for stale-if-error:
    an object with any set of directives and their values is packed into a
    text that parses into [cc_read] of it. *)
Lemma httpHdrCc_text_roundtrip cc : cc_packable cc -> httpHdrCcParseCreate (Some (httpHdrCcPackInto cc)) = Some (cc_read cc).
Proof.
  intros Hc. unfold httpHdrCcParseCreate, httpHdrCcParseInit. rewrite cc_pack_ok by done. pose proof (cc_texts_nonempty cc Hc) as Hne. pose proof (cc_texts_tokens cc Hc) as Htok.
  pose proof (fold_items cc 0 12 (last_texts cc) Hc ltac:(lia) ltac:(lia)) as Hf. change (Z.of_nat 12) with 12 in Hf. fold (cc_texts cc) in Hf.
  pose proof (fold_last cc Hc) as Hl. cbn zeta in Hl. rewrite <- Hf in Hl.
  destruct (cc_texts cc) as [|x l]; [done|]. cbn [text_of].
  assert (x <> []) as Hx by (inversion Htok as [|? ? [? _]]; done).
  unfold list_fuel. cbn [default from_option id]. rewrite strListWhile_start.
  rewrite (strListWhile_tokens _ _ [] x l (fun cc it n => cc_item cc it n)); [|by left|done|cbn; lia].
  assert (httpHdrCcCreate = restrict 0 cc) as -> by (unfold restrict; cbn -[Z.modulo]; by rewrite Z.mod_1_r).
  bind_simpl. by rewrite <- Hl.
Qed.

(** The value of stale-if-error is not printed. *)
Lemma stale_if_error_lost : httpHdrCcPackInto (mkCc 4096 (-1) (-1) (-1) 0 60 []) = str "stale-if-error" /\
  httpHdrCcParseCreate (Some (str "stale-if-error")) = Some None.
Proof. by vm_compute. Qed.

(** ** Content-Range and Range *)

(** The text of a Content-Range for a part of an entity. *)
Lemma cont_range_text first last total : 0 <= first <= last -> last < 2 ^ 63 - 1 -> 0 <= total < 2 ^ 63 ->
  httpHdrContRangePackInto (mkContRange (mkSpec first (last - first + 1)) total) = print_cont_range first last total.
Proof.
  intros Hf Hl Ht. unfold httpHdrContRangePackInto, httpHdrRangeRespSpecPackInto, known_spec, range_spec_unknown, print_int. cbn [spec offset length_ elength].
  replace (first + (last - first + 1) - 1) with last by lia. rewrite wrap_s_small by lia.
  destruct (Z.eqb_spec first (-1)), (Z.eqb_spec (last - first + 1) (-1)), (Z.eqb_spec total (-1)); try lia. cbn [negb orb].
  destruct (Z.ltb_spec first 0), (Z.ltb_spec last 0), (Z.ltb_spec total 0); try lia. unfold print_cont_range. by rewrite <- !app_assoc.
Qed.

(** A Range field as it is packed has a comma before its first range and no
    unit; it does not parse. *)
Lemma range_pack_broken : httpHdrRangePackInto [mkSpec 0 500] = Some (str ",0-499") /\ httpHdrRangeParseCreate (str ",0-499") = Some None.
Proof. by vm_compute. Qed.

(** Without a known range the unit is missing, and the text does not parse. *)
Lemma cont_range_star : httpHdrContRangePackInto (mkContRange (mkSpec (-1) (-1)) 1000) = str "*/1000" /\ httpHdrContRangeParseCreate (str "*/1000") = None.
Proof. by vm_compute. Qed.

(** ** Fields in a header set *)

Lemma add_str_ok h id text : hdr_ok h -> 0 <= id < HDR_ENUM_END -> id <> HDR_OTHER -> Z.of_nat (length text) < 65535 ->
  exists h' n, httpHeaderAddEntryStr2 h id [] text = Some (h', n) /\ hdr_ok h' /\ live h' = live h ++ [mkEntry id (header_name id) text].
Proof.
  intros Hok Hid Hne Hl. unfold httpHeaderAddEntryStr2. destruct (httpHeaderEntryCreate_ok id [] text Hid) as ([i n v] & -> & Hee & Hi & Hv & Hn); [done..|].
  cbn in Hi, Hv, Hn. rewrite (proj2 (Z.eqb_neq _ _) Hne) in Hn. subst. bind_simpl.
  destruct (httpHeaderAddEntry_ok h _ Hok Hee) as (h' & -> & Hok' & _ & Hlive & _). bind_simpl. by eexists _, _.
Qed.

Lemma put_packed_ok h id text : hdr_ok h -> 0 <= id < HDR_ENUM_END -> id <> HDR_OTHER -> Z.of_nat (length text) < 65535 ->
  exists h', put_packed h id text = Some h' /\ hdr_ok h' /\
    live h' = List.filter (fun e => negb (eid e =? id)) (live h) ++ [mkEntry id (header_name id) text].
Proof.
  intros Hok Hid Hne Hl. unfold put_packed. destruct (httpHeaderDelById_ok h id Hok Hid Hne) as (h1 & -> & Hok1 & Hl1 & _). bind_simpl.
  destruct (add_str_ok h1 id text) as (h2 & n & -> & Hok2 & Hl2); [done..|]. bind_simpl. exists h2. splits. by rewrite Hl2, Hl1.
Qed.

(** The field that was put is the only one with its id. *)
Lemma only_field id l e : eid e = id ->
  List.filter (fun e => eid e =? id) (List.filter (fun e => negb (eid e =? id)) l ++ [e]) = [e] /\
  List.find (fun e => eid e =? id) (List.filter (fun e => negb (eid e =? id)) l ++ [e]) = Some e.
Proof.
  intros He. induction l as [|x l [IH1 IH2]]; cbn; [by rewrite He, Z.eqb_refl|].
  destruct (eid x =? id) eqn:Ex; cbn; [done|]. by rewrite Ex.
Qed.

Lemma dec_length n : (length (dec n) <= 20)%nat.
Proof.
  unfold dec. assert (forall fuel n tl, (length (dec_aux fuel n tl) <= fuel + length tl)%nat) as H; [|etransitivity; [apply H|done]].
  clear. induction fuel as [|fuel IH]; intros n tl; cbn [dec_aux]; [lia|]. cbn zeta. case_match; [cbn; lia|]. etransitivity; [apply IH|]. cbn. lia.
Qed.

Lemma cc_text_length cc flag : cc_packable cc -> 0 <= flag < 13 -> EBIT_TEST (cc_mask cc) flag = true -> (length (cc_text cc flag) <= 43)%nat.
Proof.
  intros Hc Hf Ht. unfold cc_text. fold (name_of flag). destruct (cc_suffix_printed cc flag Hc Ht) as [-> _]. rewrite length_app.
  assert (length (name_of flag) <= 22)%nat.
  { assert (Hall : forallb (fun flag => length (name_of flag) <=? 22)%nat (seqZ 0 13) = true) by (vm_compute; reflexivity).
    rewrite forallb_forall in Hall. apply Nat.leb_le, Hall, list_elem_of_In, elem_of_seqZ. lia. }
  destruct (cc_printed cc flag); cbn [length]; [pose proof (dec_length z)|]; lia.
Qed.

Lemma text_of_length n l : Forall (fun t => (length t <= n)%nat) l -> (length (text_of l) <= (n + 2) * length l)%nat.
Proof.
  intros Hl. assert (forall l, Forall (fun t => (length t <= n)%nat) l -> (length (join l) <= (n + 2) * length l)%nat) as Hj.
  { clear. induction 1 as [|t l Ht _ IH]; [cbn; lia|]. unfold join in *. cbn [map concat]. rewrite !length_app. cbn [length]. lia. }
  destruct Hl as [|x l Hx Hl]; [cbn; lia|]. cbn [text_of length]. rewrite length_app. specialize (Hj l Hl). lia.
Qed.

Lemma cc_pack_length cc : cc_packable cc -> Z.of_nat (length (httpHdrCcPackInto cc)) < 65535.
Proof.
  intros Hc. pose proof Hc as (_ & _ & _ & _ & _ & _ & Ho). rewrite cc_pack_ok by done. unfold cc_texts, last_texts. rewrite app_assoc. set (l := map _ _ ++ _).
  assert (Forall (fun t => (length t <= 43)%nat) l) as Hl.
  { apply List.Forall_app. split.
    - apply List.Forall_map, List.Forall_forall. intros f [Hin Ht]%filter_In. apply list_elem_of_In, elem_of_seqZ in Hin. apply cc_text_length; [done|lia|done].
    - destruct (EBIT_TEST (cc_mask cc) CC_STALE_IF_ERROR) eqn:Et; [|done]. constructor; [|done]. by apply cc_text_length. }
  assert (length l <= 13)%nat as Hn.
  { unfold l. rewrite length_app, length_map. assert (length (present cc (seqZ 0 12)) <= 12)%nat by (unfold present; etransitivity; [apply filter_length_le|]; done).
    destruct (EBIT_TEST (cc_mask cc) CC_STALE_IF_ERROR); cbn [length]; lia. }
  pose proof (text_of_length 43 l Hl) as Ht. destruct (EBIT_TEST (cc_mask cc) CC_OTHER); [|rewrite app_nil_r; lia].
  destruct Ho as (_ & _ & Ho). rewrite text_of_snoc, !length_app. assert (length (if (length l =? 0)%nat then [] else str ", ") <= 2)%nat by (by destruct (length l =? 0)%nat; cbn; lia). lia.
Qed.


End HttpHdrPack.
