(* ===== verification/HttpReply.v ===== *)
(** * Replies

    src/HttpReply.c over the status line, the header parser and the typed header
    fields.  A reply is a record of its own; a buffer is the bytes the caller
    says it has.  [curtime] is [squid_curtime] and [relaxed], [vary_ignore]
    are the configuration switches that are read. *)

From Stdlib Require Import ZArith Lia.
From stdpp Require Import base strings list numbers option sets.
From S2P Require Import Prelude CStr Cbit StrList HttpHdrCc HttpHdrRange HttpHeaderType HttpHeader HttpHeaderParse Rfc1123 HttpMsg HttpMethod HttpStatusLine HttpHdrPack.

Module HttpReply.
Import HttpHeaderType.HttpHeaderType HttpHeader.HttpHeader HttpHeaderParse.HttpHeaderParse HttpMsg.HttpMsg HttpStatusLine.HttpStatusLine HttpHdrPack.HttpHdrPack.

Definition psReadyToParseStartLine : Z := 0.
Definition psReadyToParseHeaders : Z := 1.
Definition psParsed : Z := 2.
Definition psError : Z := 3.

(** [body] is [None] for a null [MemBuf], [content_type] for a null string. *)
Record HttpReply := mkReply {
  hdr_sz : Z;
  content_length : Z;
  date : Z;
  last_modified : Z;
  expires : Z;
  content_type : option bytes;
  cache_control : option HttpHdrCc.HttpHdrCc.HttpHdrCc;
  content_range : option HttpHdrRange.HttpHdrRange.HttpHdrContRange;
  keep_alive : bool;
  pstate : Z;
  sline : HttpStatusLine;
  header : HttpHeader;
  body : option bytes
}.

Definition set_hdr_sz (n : Z) (r : HttpReply) : HttpReply :=
  mkReply n (content_length r) (date r) (last_modified r) (expires r) (content_type r) (cache_control r) (content_range r)
    (keep_alive r) (pstate r) (sline r) (header r) (body r).
Definition set_pstate (n : Z) (r : HttpReply) : HttpReply :=
  mkReply (hdr_sz r) (content_length r) (date r) (last_modified r) (expires r) (content_type r) (cache_control r) (content_range r)
    (keep_alive r) n (sline r) (header r) (body r).
Definition set_sline (s : HttpStatusLine) (r : HttpReply) : HttpReply :=
  mkReply (hdr_sz r) (content_length r) (date r) (last_modified r) (expires r) (content_type r) (cache_control r) (content_range r)
    (keep_alive r) (pstate r) s (header r) (body r).
Definition set_header (h : HttpHeader) (r : HttpReply) : HttpReply :=
  mkReply (hdr_sz r) (content_length r) (date r) (last_modified r) (expires r) (content_type r) (cache_control r) (content_range r)
    (keep_alive r) (pstate r) (sline r) h (body r).

Section reply.
Variable curtime : Z.
Variable vary_ignore : bool.

(** ** The fields kept from the headers *)

(** [httpReplyHdrExpirationTime]: from the date, the directives and the header. *)
Definition httpReplyHdrExpirationTime (date : Z) (cc : option HttpHdrCc.HttpHdrCc.HttpHdrCc) (hdr : HttpHeader) : option Z :=
  let from_cc :=
    match cc with
    | Some cc =>
        if 0 <=? date then
          if 0 <=? HttpHdrCc.s_maxage cc then Some (date + HttpHdrCc.s_maxage cc)
          else if 0 <=? HttpHdrCc.max_age cc then Some (date + HttpHdrCc.max_age cc) else None
        else
          if 0 <=? HttpHdrCc.s_maxage cc then Some curtime
          else if 0 <=? HttpHdrCc.max_age cc then Some curtime else None
    | None => None
    end in
  match from_cc with
  | Some t => Some t
  | None =>
      let? vary := httpHeaderHas hdr HDR_VARY in
      let? same :=
        if vary_ignore && (vary : bool) then
          let? d := httpHeaderGetTime hdr HDR_DATE in
          let? e := httpHeaderGetTime hdr HDR_EXPIRES in
          Some (d =? e)
        else Some false in
      if (same : bool) then Some (-1)
      else
        let? has := httpHeaderHas hdr HDR_EXPIRES in
        if (has : bool) then
          let? e := httpHeaderGetTime hdr HDR_EXPIRES in Some (if e <? 0 then curtime else e)
        else Some (-1)
  end.

Definition httpReplyHdrCacheInit (rep : HttpReply) : option HttpReply :=
  let hdr := header rep in
  let? clen := httpHeaderGetSize hdr HDR_CONTENT_LENGTH in
  let? d := httpHeaderGetTime hdr HDR_DATE in
  let? lmt := httpHeaderGetTime hdr HDR_LAST_MODIFIED in
  let? s := httpHeaderGetStr hdr HDR_CONTENT_TYPE in
  let ctype := match (s : option bytes) with
               | Some s => Some (take (strcspn s [59; 9; 32]) s)
               | None => None
               end in
  let? cc := httpHeaderGetCc hdr in
  let? cr := httpHeaderGetContRange hdr in
  let? keep := httpMsgIsPersistent (version (sline rep)) hdr in
  let? exp := httpReplyHdrExpirationTime d cc hdr in
  Some (mkReply (hdr_sz rep) clen d lmt exp ctype cc cr keep (pstate rep) (sline rep) hdr (body rep)).

(** ** Life cycle *)

(** A new reply, or one that was cleaned: the status line has version 0.0. *)
Definition httpReplyInit : option HttpReply :=
  let? hdr := httpHeaderInit hoReply in
  let? rep := httpReplyHdrCacheInit (mkReply 0 0 0 0 0 None None None false psReadyToParseStartLine httpStatusLineClean hdr None) in
  Some (set_sline httpStatusLineInit rep).

Definition httpReplyCreate : option HttpReply := httpReplyInit.

Definition httpReplyReset (rep : HttpReply) : option HttpReply := httpReplyInit.

(** The old contents are freed. *)
Definition httpReplyAbsorb (rep new_rep : HttpReply) : HttpReply := new_rep.

(** ** Parsing *)

Definition httpReplyParseError (rep : HttpReply) : option (HttpReply * Z) :=
  let? rep := httpReplyReset rep in
  Some (set_sline (mkSline (version (sline rep)) (reason (sline rep)) HTTP_INVALID_HEADER) rep, -1).

Definition httpReplyParseStep (relaxed : bool) (rep : HttpReply) (buf : bytes) : option (HttpReply * Z) :=
  assert? pstate rep <? psParsed in
  match memchr buf 10 (length buf) with
  | None => httpReplyParseError rep
  | Some k =>
      let i := Z.of_nat k + 1 in
      if Z.of_nat (length buf) <=? i then httpReplyParseError rep
      else
        let? (sl, ok) := httpStatusLineParse (sline rep) buf (i - 1) in
        if ok =? 0 then httpReplyParseError rep
        else
          let rep := set_pstate (pstate rep + 1) (set_sline sl rep) in
          let? r := httpMsgIsolateHeaders buf i (Z.of_nat (length buf) - i) in
          match r with
          | None => httpReplyParseError rep
          | Some (parse_start, blk_start, blk_end) =>
              let? (h, ok) := httpHeaderParse relaxed (header rep) (slice buf blk_start (blk_end - blk_start)) in
              if ok =? 0 then httpReplyParseError rep
              else
                let? rep := httpReplyHdrCacheInit (set_header h rep) in
                Some (set_pstate (pstate rep + 1) (set_hdr_sz parse_start rep), 1)
          end
  end.

Definition httpReplyParse (relaxed : bool) (rep : HttpReply) (buf : bytes) : option (HttpReply * bool) :=
  let? rep := httpReplyReset rep in
  let? (rep, r) := httpReplyParseStep relaxed rep buf in
  Some (rep, r =? 1).

(** ** Printing *)

Definition httpReplyPackInto (rep : HttpReply) : option bytes :=
  let? h := httpHeaderPackInto (header rep) in
  Some (httpStatusLinePackInto (sline rep) ++ h ++ CRLF ++ default [] (body rep)).

Definition ImsEntries : list Z := [HDR_DATE; HDR_CONTENT_TYPE; HDR_EXPIRES; HDR_LAST_MODIFIED; HDR_ETAG].

Fixpoint pack_ims (h : HttpHeader) (ids : list Z) : option bytes :=
  match ids with
  | [] => Some []
  | id :: ids =>
      let? e := httpHeaderFindEntry h id in
      let? rest := pack_ims h ids in
      Some (match (e : option HttpHeaderEntry) with Some e => httpHeaderEntryPackInto e | None => [] end ++ rest)
  end.

Definition httpPacked304Reply (rep : HttpReply) (http11 : Z) : option bytes :=
  let? h := pack_ims (header rep) ImsEntries in
  Some (str "HTTP/1." ++ HttpStatusLine.print_int http11 ++ str " 304 Not Modified" ++ CRLF ++ h ++ CRLF).

(** ** Building *)

(** [appname] is [visible_appname_string]. *)
Definition httpReplySetHeaders (appname : bytes) (reply : HttpReply) (status : Z) (reason ctype : option bytes) (clen lmt expires : Z) : option HttpReply :=
  let hdr := header reply in
  let? hdr := httpHeaderPutStr hdr HDR_SERVER appname in
  let? hdr := httpHeaderPutTime hdr HDR_DATE curtime in
  let? hdr := match ctype with Some c => httpHeaderPutStr hdr HDR_CONTENT_TYPE c | None => Some hdr end in
  let? hdr := if 0 <=? clen then httpHeaderPutSize hdr HDR_CONTENT_LENGTH clen else Some hdr in
  let? hdr := if 0 <=? expires then httpHeaderPutTime hdr HDR_EXPIRES expires else Some hdr in
  let? hdr := if 0 <? lmt then httpHeaderPutTime hdr HDR_LAST_MODIFIED lmt else Some hdr in
  Some (mkReply (hdr_sz reply) clen curtime lmt expires ctype (cache_control reply) (content_range reply) (keep_alive reply) psParsed
          (httpStatusLineSet (mkVersion 1 0) status reason) hdr (body reply)).

(** [appname] is [full_appname_string]. *)
Definition httpRedirectReply (appname : bytes) (reply : HttpReply) (status : Z) (loc : bytes) : option HttpReply :=
  let hdr := header reply in
  let? hdr := httpHeaderPutStr hdr HDR_SERVER appname in
  let? hdr := httpHeaderPutTime hdr HDR_DATE curtime in
  let? hdr := httpHeaderPutSize hdr HDR_CONTENT_LENGTH 0 in
  let? hdr := httpHeaderPutStr hdr HDR_LOCATION loc in
  Some (mkReply (hdr_sz reply) 0 curtime (last_modified reply) (expires reply) (content_type reply) (cache_control reply) (content_range reply)
          (keep_alive reply) psParsed (httpStatusLineSet (mkVersion 1 1) status (Some (httpStatusString status))) hdr (body reply)).

Definition Denied304HeadersArr : list Z :=
  [HDR_CONTENT_ENCODING; HDR_CONTENT_LANGUAGE; HDR_CONTENT_LENGTH; HDR_CONTENT_LOCATION; HDR_CONTENT_RANGE].

Definition Denied304HeadersMask : list Z := Eval vm_compute in default [] (httpHeaderCalcMask (httpHeaderMaskInit 0) Denied304HeadersArr).

Definition httpReplyUpdateOnNotModified (rep freshRep : HttpReply) : option HttpReply :=
  let? (h, _) := httpHeaderDelById (header rep) HDR_AGE in
  let? h := httpHeaderUpdate h (header freshRep) (Some Denied304HeadersMask) in
  httpReplyHdrCacheInit (set_header h rep).

(** The body is copied from the new reply, which has none. *)
Definition httpReplyClone (src : HttpReply) : option HttpReply :=
  let? dst := httpReplyCreate in
  let? h := httpHeaderAppend (header dst) (header src) in
  let b := match body dst with Some b => Some (b ++ b) | None => None end in
  let? cc := httpHeaderGetCc h in
  let? cr := httpHeaderGetContRange h in
  Some (mkReply (hdr_sz src) (content_length src) (date src) (last_modified src) (expires src) (content_type src) cc cr (keep_alive src)
          (pstate src) (sline src) h b).

(** [None] is the NULL method. *)
Definition httpReplyBodySize (method : option HttpMethod.method_t) (reply : HttpReply) : Z :=
  let st := status (sline reply) in
  if major (version (sline reply)) <? 1 then -1
  else if match method with Some m => HttpMethod.code m =? HttpMethod.METHOD_HEAD | None => false end then 0
  else if st =? HTTP_OK then content_length reply
  else if st =? HTTP_NO_CONTENT then 0
  else if st =? HTTP_NOT_MODIFIED then 0
  else if st <? HTTP_OK then 0
  else content_length reply.
End reply.

Definition rep0 : HttpReply := Eval vm_compute in default (mkReply 0 0 0 0 0 None None None false 0 httpStatusLineInit (mkHdr [] [] 0 0) None) (httpReplyInit 0 false).

Example ex_reply :
  match httpReplyParse 1000 false true rep0 (str "HTTP/1.1 200 OK" ++ CRLF ++ str "Date: Sun, 06 Nov 1994 08:49:37 GMT" ++ CRLF ++
    str "Cache-Control: max-age=60" ++ CRLF ++ str "Content-Type: text/html; charset=x" ++ CRLF ++ CRLF ++ str "body") with
  | Some (r, true) => (date r, expires r, content_type r, keep_alive r, hdr_sz r, content_length r) = (784111777, 784111837, Some (str "text/html"), true, 119, -1)
  | _ => False
  end.
Proof. vm_compute. reflexivity. Qed.

(** ** The header fields are always readable *)

Lemma getSize_total h id : hdr_ok h -> 0 <= id < HDR_ENUM_END -> is_list_id id = false -> header_type id = ftInt64 ->
  exists n, httpHeaderGetSize h id = Some n.
Proof.
  intros Hok Hid Hl Ht. unfold httpHeaderGetSize. rewrite assert_eid_true, (proj2 (Z.eqb_eq _ _) Ht), httpHeaderFindEntry_ok by done. by eexists.
Qed.

Lemma getStr_total h id : hdr_ok h -> 0 <= id < HDR_ENUM_END -> is_list_id id = false -> header_type id = ftStr ->
  exists s, httpHeaderGetStr h id = Some s.
Proof.
  intros Hok Hid Hl Ht. unfold httpHeaderGetStr. rewrite assert_eid_true, (proj2 (Z.eqb_eq _ _) Ht), httpHeaderFindEntry_ok by done. by eexists.
Qed.

(** Dates that fit the buffer of the date parser. *)
Definition dates_ok (h : HttpHeader) : Prop :=
  forall e, In e (live h) -> eid e ∈ [HDR_DATE; HDR_LAST_MODIFIED; HDR_EXPIRES] -> (length (evalue e) < 127)%nat.

Lemma getTime_total h id : hdr_ok h -> dates_ok h -> id ∈ [HDR_DATE; HDR_LAST_MODIFIED; HDR_EXPIRES] -> exists t, httpHeaderGetTime h id = Some t.
Proof.
  intros Hok Hd Hid. assert (Hi : 0 <= id < HDR_ENUM_END /\ is_list_id id = false /\ header_type id = ftDate_1123).
  { repeat (apply elem_of_cons in Hid as [->|Hid]); [by vm_compute..|by apply elem_of_nil in Hid]. }
  destruct Hi as (Hr & Hl & Ht). unfold httpHeaderGetTime. rewrite assert_eid_true, (proj2 (Z.eqb_eq _ _) Ht), httpHeaderFindEntry_ok by done. bind_simpl.
  destruct (List.find (fun e => eid e =? id) (live h)) as [e|] eqn:E; [|by eexists]. apply find_some in E as [Hin Heq%Z.eqb_eq].
  destruct (Rfc1123.parse_rfc1123_some (evalue e) (Z.of_nat (length (evalue e)))) as [t ->]; [lia| |by exists t].
  pose proof (Hd e Hin). rewrite Heq in *. specialize (H Hid). unfold Rfc1123.TIMEBUFLEN. lia.
Qed.

Lemma getCc_total h : hdr_ok h -> exists cc, httpHeaderGetCc h = Some cc.
Proof.
  intros Hok. unfold httpHeaderGetCc. rewrite Cbit.CBIT_TEST_cbit by (apply in_mask_hdr; [apply Hok|done]). bind_simpl.
  destruct (negb _); [by eexists|]. rewrite httpHeaderGetList_ok by done. bind_simpl.
  unfold HttpHdrCc.httpHdrCcParseCreate, HttpHdrCc.httpHdrCcParseInit. rewrite StrList.strListWhile_visited. bind_simpl. by eexists.
Qed.

Lemma member_total s m : exists b, StrList.strListIsMember s m 44 = Some b.
Proof.
  unfold StrList.strListIsMember, StrList.list_fuel. destruct s as [s|]; [|by eexists]. cbn [default from_option id].
  rewrite StrList.strListWhile_start. apply StrList.strListWhile_total. lia.
Qed.

Lemma hasConnDir_total h d : hdr_ok h -> exists b, httpHeaderHasConnDir h d = Some b.
Proof.
  intros Hok. unfold httpHeaderHasConnDir. rewrite !httpHeaderHas_ok by done. bind_simpl.
  destruct (has_id HDR_PROXY_CONNECTION (live h)); [rewrite httpHeaderGetList_ok by done; apply member_total|].
  destruct (has_id HDR_CONNECTION (live h)); [rewrite httpHeaderGetList_ok by done; apply member_total|by eexists].
Qed.

Lemma persistent_total v h : hdr_ok h -> exists b, httpMsgIsPersistent v h = Some b.
Proof.
  intros Hok. unfold httpMsgIsPersistent. destruct (hasConnDir_total h (str "close") Hok) as [c ->]. bind_simpl. destruct c; [by eexists|].
  destruct (_ || _); [by eexists|]. destruct (getStr_total h HDR_USER_AGENT Hok) as [s ->]; [done..|]. rewrite httpHeaderHas_ok by done. bind_simpl.
  destruct (match s with Some _ => _ | None => _ end); [by eexists|]. by apply hasConnDir_total.
Qed.

Lemma expiration_total ct vi d cc h : hdr_ok h -> dates_ok h -> exists t, httpReplyHdrExpirationTime ct vi d cc h = Some t.
Proof.
  intros Hok Hd. unfold httpReplyHdrExpirationTime. cbn zeta. match goal with |- context [match ?m with Some t => Some t | None => _ end] => destruct m end; [by eexists|].
  destruct (getTime_total h HDR_DATE Hok Hd) as [t1 E1]; [set_solver|]. destruct (getTime_total h HDR_EXPIRES Hok Hd) as [t2 E2]; [set_solver|].
  rewrite !httpHeaderHas_ok by done. bind_simpl. rewrite E1, E2. destruct (vi && has_id HDR_VARY (live h)); bind_simpl;
    [destruct (t1 =? t2); [by eexists|]|]; (destruct (has_id HDR_EXPIRES (live h)); by eexists).
Qed.

(** Filling the fields of a reply keeps the rest. *)
Lemma cache_init_ok ct vi rep : hdr_ok (header rep) -> dates_ok (header rep) ->
  exists rep', httpReplyHdrCacheInit ct vi rep = Some rep' /\ header rep' = header rep /\ sline rep' = sline rep /\ pstate rep' = pstate rep /\
    hdr_sz rep' = hdr_sz rep /\ body rep' = body rep.
Proof.
  intros Hok Hd. unfold httpReplyHdrCacheInit. cbn zeta.
  destruct (getSize_total (header rep) HDR_CONTENT_LENGTH Hok) as [cl ->]; [done..|]. bind_simpl.
  destruct (getTime_total (header rep) HDR_DATE Hok Hd) as [d ->]; [set_solver|]. bind_simpl.
  destruct (getTime_total (header rep) HDR_LAST_MODIFIED Hok Hd) as [lm ->]; [set_solver|]. bind_simpl.
  destruct (getStr_total (header rep) HDR_CONTENT_TYPE Hok) as [ty ->]; [done..|]. bind_simpl.
  destruct (getCc_total (header rep) Hok) as [cc ->]. bind_simpl.
  unfold httpHeaderGetContRange. rewrite httpHeaderFindEntry_ok by done. bind_simpl.
  destruct (persistent_total (version (sline rep)) (header rep) Hok) as [k ->]. bind_simpl.
  destruct (expiration_total ct vi d cc (header rep) Hok Hd) as [t ->]. bind_simpl. by eexists.
Qed.

(** ** Parsing is safe *)

Definition empty_header : HttpHeader := mkHdr [] (httpHeaderMaskInit 0) hoReply 0.

Lemma empty_header_ok : hdr_ok empty_header.
Proof. destruct (httpHeaderInit_ok hoReply ltac:(done)) as (h & Hi & Hok & _). injection Hi as <-. exact Hok. Qed.

Lemma init_ok ct vi : exists rep, httpReplyInit ct vi = Some rep /\ header rep = empty_header /\ hdr_ok (header rep) /\ live (header rep) = [] /\
  sline rep = httpStatusLineInit /\ pstate rep = psReadyToParseStartLine /\ body rep = None.
Proof.
  destruct (httpHeaderInit_ok hoReply ltac:(done)) as (h & Hi & Hok & Hl). unfold httpReplyInit. rewrite Hi. bind_simpl.
  destruct (cache_init_ok ct vi (mkReply 0 0 0 0 0 None None None false psReadyToParseStartLine httpStatusLineClean h None)) as (rep & -> & Hh & Hs & Hp & _ & Hb);
    [done| |]. { intros e He. cbn in He. destruct Hl as [Hl _]. by rewrite Hl in He. }
  bind_simpl. eexists. split; [done|]. cbn. cbn in Hh. rewrite Hh. splits; [by injection Hi as <-|apply Hl].
Qed.

(** The reply after an error: empty, with the status that tells so. *)
Definition failed (r : HttpReply) : Prop := live (header r) = [] /\ hdr_ok (header r) /\ status (sline r) = HTTP_INVALID_HEADER.

Lemma error_ok ct vi rep : exists rep', httpReplyParseError ct vi rep = Some (rep', -1) /\ failed rep'.
Proof.
  unfold httpReplyParseError, httpReplyReset. destruct (init_ok ct vi) as (r & -> & _ & Hok & Hl & _). bind_simpl. eexists. split; [done|]. unfold failed. cbn. by split_and!.
Qed.

Lemma headersEnd_ok b : (headersEnd b = 0 /\ forall j, ~ empty_line (take j b)) \/
  (exists k, (0 < k <= length b)%nat /\ headersEnd b = Z.of_nat k /\ empty_line (take k b)).
Proof.
  unfold headersEnd. destruct (end_loop_ok b [] 1 (-1) knows_init) as (e & s & he & He & Hor). cbn [length] in He.
  change (Z.of_nat 0) with 0 in He. rewrite He. assert (~ empty_line []) as Hnil by (intros (q & _ & Hq); by destruct q).
  destruct Hor as [(k & Hk & -> & -> & Hel & _)|(Hs & Hno)].
  - right. exists k. lsplits.
  - left. destruct (Z.eqb_spec s 3); [done|]. split; [done|]. intros [|j]; [done|].
    destruct (decide (S j <= length b)%nat); [apply (Hno (S j)); lia|]. rewrite take_ge by lia.
    destruct b as [|c b]; [done|]. specialize (Hno (length (c :: b))). rewrite take_ge in Hno by lia. apply Hno. cbn. lia.
Qed.

Lemma rd_app2 (pre : bytes) c post i : i = zlen pre -> rd (pre ++ c :: post) i = Some c.
Proof. intros ->. apply rd_app. Qed.

Lemma skip_empty_ok fuel rest : forall pre, (length rest < fuel)%nat -> ~ Forall (fun c => c = 13) rest ->
  exists p, skip_empty fuel (pre ++ rest) (zlen pre) = Some p /\ zlen pre <= p <= zlen (pre ++ rest).
Proof.
  revert rest. induction fuel as [|fuel IH]; intros rest pre Hf Hcr; [lia|]. destruct rest as [|c rest]; [by destruct Hcr|]. cbn [skip_empty length] in *.
  rewrite rd_app. bind_simpl. rewrite length_app. cbn [length].
  destruct (Z.eqb_spec c 13) as [->|]; [|destruct (Z.eqb_spec c 10); eexists; split; [done|lia|done|lia]].
  destruct (IH rest (pre ++ [13])) as (p & Hp & Hr); [lia|intros H; apply Hcr; by constructor|].
  rewrite <- app_shift in Hp, Hr. exists p. rewrite length_app in Hp, Hr. cbn [length] in Hp. rewrite length_app in Hr. cbn [length] in Hr.
  replace (zlen pre + 1) with (Z.of_nat (length pre + 1)) by lia. rewrite Hp. split; [done|]. lia.
Qed.

Lemma line_start_last pre q : line_start q -> exists x, pre ++ 10 :: q = x ++ [10].
Proof. intros [->|[q' ->]]; [by exists pre|]. exists (pre ++ 10 :: q'). by rewrite <- app_assoc. Qed.

Lemma rd_last x c post : rd ((x ++ [c]) ++ post) (zlen (x ++ [c]) - 1) = Some c.
Proof. rewrite <- app_assoc. apply rd_app2. len_lia. Qed.

Lemma strip_stop fuel x post : strip_cr fuel ((x ++ [10]) ++ post) (zlen (x ++ [10])) = Some (zlen (x ++ [10])).
Proof.
  destruct fuel; cbn [strip_cr]; by rewrite rd_last.
Qed.

(** The block before an empty line. *)
Lemma isolate_ok pre rest : rest <> [] -> ~ Forall (fun c => c = 13) rest ->
  exists r, httpMsgIsolateHeaders (pre ++ 10 :: rest) (zlen pre + 1) (zlen rest) = Some r /\
  forall p s e, r = Some (p, s, e) -> s = zlen pre + 1 /\ s <= e <= zlen (pre ++ 10 :: rest) /\ p <= zlen (pre ++ 10 :: rest).
Proof.
  intros Hne Hcr. unfold httpMsgIsolateHeaders.
  assert (take (Z.to_nat (zlen rest)) (drop (Z.to_nat (zlen pre + 1)) (pre ++ 10 :: rest)) = rest) as ->.
  { replace (Z.to_nat (zlen pre + 1)) with (length (pre ++ [10])) by len_lia. rewrite (app_shift pre 10 rest), drop_app_length. apply take_ge. lia. }
  destruct (headersEnd_ok rest) as [[-> _]|(k & Hk & -> & q & Hq & Et)].
  - cbn [negb Z.eqb]. destruct rest as [|c rest]; [done|]. rewrite (app_shift pre 10), rd_app2 by len_lia. bind_simpl.
    destruct (_ && _); [by eexists|]. replace (zlen pre + 1) with (zlen (pre ++ [10])) by len_lia.
    destruct (skip_empty_ok (S (length ((pre ++ [10]) ++ c :: rest))) (c :: rest) (pre ++ [10])) as (p & -> & Hp); [len_lia|done|].
    bind_simpl. eexists. split; [done|]. intros ? ? ? [= <- <- <-]. len_lia.
  - destruct (Z.eqb_spec (Z.of_nat k) 0); [lia|]. cbn [negb].
    assert (Hb : pre ++ 10 :: rest = (pre ++ 10 :: q) ++ 10 :: drop k rest).
    { rewrite <- (take_drop k rest) at 1. rewrite Et, <- !app_assoc. done. }
    assert (Hkq : k = S (length q)) by (apply (f_equal length) in Et; rewrite length_take, length_app in Et; cbn in Et; lia).
    rewrite Hb. replace (zlen pre + 1 + Z.of_nat k - 1) with (zlen (pre ++ 10 :: q)) by len_lia. rewrite rd_app. bind_simpl. cbn [Z.eqb Pos.eqb].
    assert (Hlen : zlen ((pre ++ 10 :: q) ++ 10 :: drop k rest) = zlen pre + 1 + zlen rest) by (rewrite <- Hb; len_lia).
    destruct Hq as [Hq|(q0 & Hq & ->)].
    + destruct (line_start_last pre q Hq) as [x Hx]. rewrite Hx, strip_stop. bind_simpl.
      rewrite rd_last. bind_simpl. cbn [Z.eqb Pos.eqb]. eexists. split; [done|]. intros ? ? ? [= <- <- <-].
      rewrite <- Hx, Hlen. len_lia.
    + destruct (line_start_last pre q0 Hq) as [x Hx].
      assert (Hx' : pre ++ 10 :: q0 ++ [13] = (x ++ [10]) ++ [13]) by (rewrite <- Hx, <- app_assoc; done). rewrite Hx'.
      pose proof (f_equal length Hx) as Hxl. rewrite !length_app in Hxl. cbn [length] in Hxl.
      assert (Hst : forall post, strip_cr (length (((x ++ [10]) ++ [13]) ++ post)) (((x ++ [10]) ++ [13]) ++ post) (zlen ((x ++ [10]) ++ [13])) = Some (zlen (x ++ [10]))).
      { intros post. destruct (length (((x ++ [10]) ++ [13]) ++ post)) as [|n'] eqn:En; [rewrite !length_app in En; cbn in En; lia|]. cbn [strip_cr].
        rewrite rd_last. bind_simpl. cbn [Z.eqb Pos.eqb]. replace (zlen ((x ++ [10]) ++ [13]) - 1) with (zlen (x ++ [10])) by len_lia.
        rewrite <- (app_assoc (x ++ [10])). apply strip_stop. }
      rewrite Hst. bind_simpl. rewrite <- (app_assoc (x ++ [10])), rd_last. bind_simpl. cbn [Z.eqb Pos.eqb].
      eexists. split; [done|]. intros ? ? ? [= <- <- <-]. rewrite (app_assoc (x ++ [10])), <- Hx', Hlen. rewrite <- Hx in *. len_lia.
Qed.

(** What the theorem asks of a buffer: no ten digits in a row in the first
    line, something besides CR after it, and dates that fit their buffer. *)
Definition reply_text_ok (relaxed : bool) (buf : bytes) : Prop :=
  (forall k, memchr buf 10 (length buf) = Some k ->
    short_numbers buf (Z.of_nat k) /\ (drop (S k) buf <> [] -> ~ Forall (fun c => c = 13) (drop (S k) buf))) /\
  (forall k p s e h, memchr buf 10 (length buf) = Some k ->
    httpMsgIsolateHeaders buf (Z.of_nat k + 1) (zlen buf - (Z.of_nat k + 1)) = Some (Some (p, s, e)) ->
    httpHeaderParse relaxed empty_header (slice buf s (e - s)) = Some (h, 1) -> dates_ok h).

Lemma memchr_split b c k : memchr b c (length b) = Some k -> b = take k b ++ c :: drop (S k) b /\ (k < length b)%nat.
Proof.
  intros Hk. destruct (memchr_ok b c k Hk) as (Hlt & Hrd & _). split; [|done]. unfold rd in Hrd. destruct (Z.leb_spec 0 (Z.of_nat k)); [|lia].
  rewrite Nat2Z.id in Hrd. by rewrite take_drop_middle.
Qed.

(** C14. Parsing a reply never reads outside the buffer or fails an assertion,
    and ends in one of two ways: an empty reply with the status
    HTTP_INVALID_HEADER, or a parsed reply with a status line in range, a
    consistent header set with at most one Content-Length, and a header size
    inside the buffer.  This holds for every buffer whose first line has no
    ten digits in a row and is not followed by CR only, and whose dates are
    shorter than the buffer of the date parser. *)
Theorem reply_parse_safe ct vi relaxed rep buf : reply_text_ok relaxed buf ->
  exists rep' ok, httpReplyParse ct vi relaxed rep buf = Some (rep', ok) /\ hdr_ok (header rep') /\
  (ok = false /\ failed rep' \/
   ok = true /\ pstate rep' = psParsed /\ sline_ok (sline rep') /\ (cl_count (live (header rep')) <= 1)%nat /\ hdr_sz rep' <= zlen buf).
Proof.
  intros [Hfirst Hdates]. unfold httpReplyParse, httpReplyReset. destruct (init_ok ct vi) as (r & -> & Hh & Hok & Hl & Hs & Hp & _). bind_simpl.
  assert (Herr : forall r, exists rep' ok, (let? (rep0, r0) := httpReplyParseError ct vi r in Some (rep0, r0 =? 1)) = Some (rep', ok) /\ hdr_ok (header rep') /\
    (ok = false /\ failed rep' \/ ok = true /\ pstate rep' = psParsed /\ sline_ok (sline rep') /\ (cl_count (live (header rep')) <= 1)%nat /\ hdr_sz rep' <= zlen buf)).
  { intros r'. destruct (error_ok ct vi r') as (rep' & -> & Hf). bind_simpl. exists rep', false. split; [done|]. split; [apply Hf|by left]. }
  unfold httpReplyParseStep. rewrite Hp. cbn [psReadyToParseStartLine Z.ltb]. change (0 <? psParsed) with true. cbv iota.
  destruct (memchr buf 10 (length buf)) as [k|] eqn:Ek; [|apply Herr]. destruct (memchr_split buf 10 k Ek) as [Hb Hk].
  destruct (Z.leb_spec (zlen buf) (Z.of_nat k + 1)); [apply Herr|]. destruct (Hfirst k eq_refl) as [Hsh Hcr].
  assert (drop (S k) buf <> []) as Hne by (intros E; apply (f_equal length) in E; rewrite length_drop in E; cbn in E; lia).
  rewrite Z.add_simpl_r. destruct (status_line_ok (sline r) buf (Z.of_nat k)) as (sl & ok & -> & _ & Hsl); [lia| |done|].
  { rewrite Nat2Z.id, Hb, lookup_app_r by (rewrite length_take; lia). rewrite length_take, Nat.min_l by lia. by rewrite Nat.sub_diag. }
  bind_simpl. destruct Hsl as [(-> & _)|[-> Hsl]]; [apply Herr|]. cbn [Z.eqb].
  destruct (isolate_ok (take k buf) (drop (S k) buf) Hne (Hcr Hne)) as (iso & Hi & Hio).
  rewrite <- Hb, length_take, Nat.min_l in Hi, Hio by lia. replace (zlen (drop (S k) buf)) with (zlen buf - (Z.of_nat k + 1)) in Hi by len_lia.
  rewrite Hi. bind_simpl. destruct iso as [[[p s] e]|]; [|apply Herr]. destruct (Hio p s e eq_refl) as (-> & He & Hpp).
  change (header (set_pstate (psReadyToParseStartLine + 1) (set_sline sl r))) with (header r). rewrite Hh in *.
  destruct (httpHeaderParse_ok relaxed empty_header (slice buf (Z.of_nat k + 1) (e - (Z.of_nat k + 1))) Hok) as (h & hr & Eh & Hok' & Hcl & Hr).
  { rewrite Hl. cbn. lia. }
  rewrite Eh. bind_simpl. destruct Hr as [[-> _]| ->]; [apply Herr|]. cbn [Z.eqb].
  destruct (cache_init_ok ct vi (set_header h (set_pstate (psReadyToParseStartLine + 1) (set_sline sl r)))) as (rep' & -> & Hh' & Hs' & Hp' & _); [done|by eapply (Hdates k)|].
  bind_simpl. eexists _, true. split; [done|]. cbn in *. rewrite Hh', Hs', Hp'. split; [done|]. right. lsplits.
Qed.

Definition ex_text : bytes :=
  str "HTTP/1.0 200 OK" ++ CRLF ++ str "Date: Sun, 06 Nov 1994 08:49:37 GMT" ++ CRLF ++ str "Content-Length: 4" ++ CRLF ++ CRLF ++ str "body".

Lemma reply_parse_safe_witness :
  exists rep' ok, httpReplyParse 0 false false rep0 ex_text = Some (rep', ok) /\ hdr_ok (header rep') /\
  (ok = false /\ failed rep' \/
   ok = true /\ pstate rep' = psParsed /\ sline_ok (sline rep') /\ (cl_count (live (header rep')) <= 1)%nat /\ hdr_sz rep' <= zlen ex_text).
Proof.
  apply (reply_parse_safe 0 false false rep0 ex_text). split.
  - intros k Hk. vm_compute in Hk. injection Hk as <-. split.
    + intros i Hi Hl. exists 8. split; [|done]. cbn in Hl. lia.
    + intros _ Hf. inversion Hf. lia.
  - intros k p s e h Hk. vm_compute in Hk. injection Hk as <-. intros Hi. vm_compute in Hi. injection Hi as <- <- <-.
    intros Hp. vm_compute in Hp. injection Hp as <-. intros e He _. cbn in He. destruct He as [<-|[<-|[]]]; cbn; lia.
Defined.

(** ** Round trip *)

(** A line that is not empty takes the automaton from line start to line
    start. *)
Lemma end_loop_text (w : bytes) : forall e he rest, Forall (fun c => c <> 10) w ->
  exists he', end_loop (w ++ 10 :: rest) e 0 he = end_loop rest (e + zlen w + 1) 1 he'.
Proof.
  induction w as [|c w IH]; intros e he rest Hw; cbn [app end_loop length].
  - exists e. cbn. f_equal. lia.
  - apply List.Forall_cons_iff in Hw as [Hc Hw]. unfold step at 1. cbn [Z.ltb Z.compare Z.eqb andb]. destruct (Z.eqb_spec c 10); [done|].
    destruct (IH (e + 1) he rest Hw) as [he' ->]. exists he'. f_equal. lia.
Qed.

Lemma end_loop_line e he (w : bytes) rest : w <> [] -> Forall (fun c => c <> 10 /\ c <> 13) w ->
  exists he', end_loop (w ++ 13 :: 10 :: rest) e 1 he = end_loop rest (e + zlen w + 2) 1 he'.
Proof.
  intros Hne Hw. destruct w as [|c w]; [done|]. apply List.Forall_cons_iff in Hw as [[H10 H13] Hw]. cbn [app end_loop]. unfold step. cbn [Z.ltb Z.compare Z.eqb Pos.eqb Pos.compare Pos.compare_cont andb].
  destruct (Z.eqb_spec c 13); [done|]. destruct (Z.eqb_spec c 10); [done|].
  destruct (end_loop_text (w ++ [13]) (e + 1) he rest) as [he' Hl].
  { apply List.Forall_app. split; [|by constructor]. eapply List.Forall_impl; [|exact Hw]. by intros d [? _]. }
  rewrite <- app_assoc in Hl. cbn [app] in Hl. exists he'. rewrite Hl. f_equal. len_lia.
Qed.

Lemma end_loop_pack l : forall e he body, Forall printable l ->
  exists he', end_loop (pack l ++ CRLF ++ body) e 1 he = (e + zlen (pack l) + 2, 3, he').
Proof.
  induction l as [|x l IH]; intros e he body Hp.
  - exists he. cbn. destruct body; cbn; do 2 f_equal; lia.
  - apply List.Forall_cons_iff in Hp as [Hx Hp]. rewrite pack_line, <- app_assoc. cbn [app].
    destruct (end_loop_line e he (line_of x) (pack l ++ CRLF ++ body)) as [he' Hl].
    { pose proof (line_nonempty x Hx) as Hn. intros E. rewrite E in Hn. cbn in Hn. lia. }
    { apply Forall_and. split; apply line_no; auto. }
    rewrite Hl. destruct (IH (e + zlen (line_of x) + 2) he' body Hp) as [he2 ->]. exists he2. do 2 f_equal. len_lia.
Qed.

Lemma pack_last x l : Forall printable l -> exists y, (x ++ [10]) ++ pack l = y ++ [10].
Proof.
  intros Hp. destruct (decide (l = [])) as [->|Hne]; [exists x; by rewrite app_nil_r|]. destruct (exists_last Hne) as (l' & e & ->).
  exists ((x ++ [10]) ++ pack l' ++ line_of e ++ [13]). unfold pack. rewrite map_app, concat_app. fold (pack l'). cbn [map concat].
  change (httpHeaderEntryPackInto e ++ []) with (pack [e]). rewrite pack_line, <- !app_assoc. done.
Qed.

(** The block of headers is found between the status line and the empty line. *)
Lemma isolate_pack x l body : Forall printable l ->
  let b := (x ++ [10]) ++ pack l ++ CRLF ++ body in let i := zlen (x ++ [10]) in
  httpMsgIsolateHeaders b i (zlen b - i) = Some (Some (i + zlen (pack l) + 2, i, i + zlen (pack l))).
Proof.
  intros Hp b i. unfold httpMsgIsolateHeaders.
  assert (take (Z.to_nat (zlen b - i)) (drop (Z.to_nat i) b) = pack l ++ CRLF ++ body) as ->.
  { unfold b, i. rewrite Nat2Z.id, drop_app_length. apply take_ge. len_lia. }
  assert (headersEnd (pack l ++ CRLF ++ body) = zlen (pack l) + 2) as ->.
  { unfold headersEnd. destruct (end_loop_pack l 0 (-1) body Hp) as [he ->]. cbn. lia. }
  destruct (Z.eqb_spec (zlen (pack l) + 2) 0); [lia|]. cbn [negb]. destruct (pack_last x l Hp) as [y Hy].
  assert (Hb : b = (y ++ [10]) ++ 13 :: 10 :: body) by (unfold b; rewrite app_assoc, Hy; done).
  assert (Hi : i + zlen (pack l) = zlen (y ++ [10])) by (rewrite <- Hy; unfold i; len_lia).
  replace (i + (zlen (pack l) + 2) - 1) with (zlen (y ++ [10]) + 1) by lia. rewrite Hb.
  rewrite (app_shift (y ++ [10]) 13), rd_app2 by len_lia. bind_simpl. cbn [Z.eqb Pos.eqb].
  assert (Hst : forall post, strip_cr (length (((y ++ [10]) ++ [13]) ++ post)) (((y ++ [10]) ++ [13]) ++ post) (zlen (y ++ [10]) + 1) = Some (zlen (y ++ [10]))).
  { intros post. destruct (length (((y ++ [10]) ++ [13]) ++ post)) as [|n'] eqn:En; [rewrite !length_app in En; cbn in En; lia|]. cbn [strip_cr].
    rewrite Z.add_simpl_r, <- app_assoc. cbn [app]. rewrite rd_app. bind_simpl. cbn [Z.eqb Pos.eqb]. apply strip_stop. }
  rewrite Hst. bind_simpl. rewrite <- app_assoc, rd_last. bind_simpl. cbn [Z.eqb Pos.eqb]. do 3 f_equal; [f_equal|]; lia.
Qed.

(** Replies whose text reads back. *)
Record printable_reply (rep : HttpReply) : Prop := {
  pr_sline : printable_sline (sline rep);
  pr_reason : Forall (fun c => c <> 10) (httpStatusLineReason (sline rep));
  pr_header : hdr_ok (header rep);
  pr_entries : Forall printable (live (header rep));
  pr_length : (cl_count (live (header rep)) <= 1)%nat;
  pr_dates : dates_ok (header rep)
}.

Lemma pack_reply rep : printable_sline (sline rep) ->
  httpReplyPackInto rep = Some (((sline_text (sline rep) ++ [13]) ++ [10]) ++ pack (live (header rep)) ++ CRLF ++ default [] (body rep)).
Proof.
  intros Hs. unfold httpReplyPackInto, httpHeaderPackInto. rewrite hdrRead_live, rfold_total, foldl_pack. bind_simpl. rewrite pack_text by done.
  f_equal. rewrite <- !app_assoc. done.
Qed.

Lemma sline_text_no_lf sl : printable_sline sl -> Forall (fun c => c <> 10) (httpStatusLineReason sl) -> Forall (fun c => c <> 10) (sline_text sl ++ [13]).
Proof.
  intros (H1 & H2 & H3) Hr. assert (Hd : forall n, 0 <= n < 2 ^ 31 -> Forall (fun c => c <> 10) (dec n)).
  { intros n Hn. destruct (dec_spec n ltac:(lia)) as (_ & Hd & _). eapply List.Forall_impl; [|exact Hd]. unfold isdigit. cbn. intros c Hc. zify_bools. lia. }
  unfold sline_text. repeat first [rewrite List.Forall_app | rewrite List.Forall_cons_iff]. splits; try (apply Hd; lia); by repeat constructor.
Qed.

(** C16. A reply reads back: the text packed for a reply with a printable
    status line and printable headers parses into a reply with the same
    version and status, the same headers in the same order, and a header size
    after which the body follows. *)
Theorem reply_roundtrip ct vi relaxed rep0 rep : printable_reply rep ->
  exists text rep', httpReplyPackInto rep = Some text /\ httpReplyParse ct vi relaxed rep0 text = Some (rep', true) /\
    version (sline rep') = version (sline rep) /\ status (sline rep') = status (sline rep) /\
    live (header rep') = live (header rep) /\ hdr_ok (header rep') /\ drop (Z.to_nat (hdr_sz rep')) text = default [] (body rep).
Proof.
  intros [Hs Hr Hh He Hcl Hd]. set (x := sline_text (sline rep) ++ [13]). set (l := live (header rep)) in *. set (bd := default [] (body rep)).
  set (text := (x ++ [10]) ++ pack l ++ CRLF ++ bd). exists text.
  unfold httpReplyParse, httpReplyReset. destruct (init_ok ct vi) as (r & -> & Eh & Hok & Hl & Hsl & Hp & _). bind_simpl.
  unfold httpReplyParseStep. rewrite Hp. change (psReadyToParseStartLine <? psParsed) with true. cbv iota.
  assert (Hk : memchr text 10 (length text) = Some (length x)).
  { unfold text. rewrite <- app_assoc. cbn [app]. apply memchr_app. by apply sline_text_no_lf. }
  assert (Hi : zlen (x ++ [10]) = zlen x + 1) by len_lia.
  assert (Hlen : zlen text = zlen x + 1 + zlen (pack l) + 2 + zlen bd) by (unfold text, CRLF; rewrite !length_app; cbn [length]; lia).
  rewrite Hk. destruct (Z.leb_spec (zlen text) (zlen x + 1)); [lia|]. rewrite Z.add_simpl_r.
  assert (Hsp : httpStatusLineParse (sline r) text (zlen x) = Some (mkSline (version (sline rep)) (reason (sline r)) (status (sline rep)), 1)).
  { unfold text, x. rewrite <- !app_assoc. apply status_line_parse_text; [done|]. rewrite !length_app. cbn [length]. lia. }
  rewrite Hsp. bind_simpl. cbn [Z.eqb].
  pose proof (isolate_pack x l bd He) as Hiso. cbn zeta in Hiso. fold text in Hiso. rewrite Hi in Hiso. rewrite Hiso. bind_simpl.
  assert (slice text (zlen x + 1) (zlen x + 1 + zlen (pack l) - (zlen x + 1)) = pack l) as ->.
  { unfold slice, text. replace (Z.to_nat (zlen x + 1)) with (length (x ++ [10])) by len_lia. rewrite drop_app_length.
    replace (Z.to_nat (zlen x + 1 + zlen (pack l) - (zlen x + 1))) with (length (pack l)) by lia. apply take_app_length. }
  match goal with |- context [httpHeaderParse relaxed ?h _] => change h with (header r) end.
  destruct (httpHeaderParse_pack relaxed (header r) l Hok Hl He Hcl) as (h & -> & Hok' & Hl'). bind_simpl. cbn [Z.eqb].
  match goal with |- context [httpReplyHdrCacheInit ct vi ?r1] => destruct (cache_init_ok ct vi r1) as (rep' & -> & Hh' & Hs' & Hp' & _) end; [done| |].
  { unfold dates_ok in *. cbn [header set_header]. by rewrite Hl'. }
  bind_simpl. eexists. split; [by apply pack_reply|]. split; [reflexivity|].
  cbn [header sline hdr_sz set_pstate set_hdr_sz set_header set_sline] in *. rewrite Hh', Hs'. cbn [version status]. splits.
  replace (Z.to_nat (zlen x + 1 + zlen (pack l) + 2)) with (length ((x ++ [10]) ++ pack l ++ CRLF)) by (rewrite !length_app; cbn; lia).
  unfold text. rewrite !app_assoc. apply drop_app_length.
Qed.

Definition ex_rep : HttpReply :=
  mkReply 0 3 0 0 0 None None None false psParsed (mkSline (mkVersion 1 1) None HTTP_OK)
    (default empty_header (httpHeaderPutStr empty_header HDR_SERVER (str "lusca"))) (Some (str "abc")).

Lemma reply_roundtrip_witness :
  exists text rep', httpReplyPackInto ex_rep = Some text /\ httpReplyParse 0 false false rep0 text = Some (rep', true) /\
    version (sline rep') = mkVersion 1 1 /\ status (sline rep') = HTTP_OK /\
    live (header rep') = [mkEntry HDR_SERVER (str "Server") (str "lusca")] /\ hdr_ok (header rep') /\ drop (Z.to_nat (hdr_sz rep')) text = str "abc".
Proof.
  apply (reply_roundtrip 0 false false rep0 ex_rep). constructor.
  - vm_compute. repeat split; done.
  - repeat constructor; done.
  - destruct (add_str_ok empty_header HDR_SERVER (str "lusca")) as (h & n & E & Hok & _); [exact empty_header_ok|done..|].
    vm_compute in E. injection E as <- <-. exact Hok.
  - repeat constructor; try done; try (by right); by left.
  - vm_compute. lia.
  - intros e He. cbn in He. destruct He as [<-|[]]. cbn. lia.
Defined.

(** ** Updating after a 304 *)

Lemma denied_mask id : 0 <= id < HDR_ENUM_END -> Cbit.cbit Denied304HeadersMask id = bool_decide (id ∈ Denied304HeadersArr).
Proof.
  intros Hid. assert (Hall : forallb (fun id => Bool.eqb (Cbit.cbit Denied304HeadersMask id) (bool_decide (id ∈ Denied304HeadersArr))) (seqZ 0 HDR_ENUM_END) = true)
    by (vm_compute; reflexivity). rewrite forallb_forall in Hall. apply eqb_prop, Hall, list_elem_of_In, elem_of_seqZ. lia.
Qed.

(** The fields of a 304 that go into the stored reply. *)
Definition updates (fresh : HttpHeader) : list HttpHeaderEntry :=
  List.filter (fun e => negb (bool_decide (eid e ∈ Denied304HeadersArr))) (live fresh).

Lemma update_304_ok ct vi rep fresh : hdr_ok (header rep) -> hdr_ok (header fresh) -> dates_ok (header rep) -> dates_ok (header fresh) ->
  exists h rep', httpReplyUpdateOnNotModified ct vi rep fresh = Some rep' /\ httpReplyHdrCacheInit ct vi (set_header h rep) = Some rep' /\
    header rep' = h /\ hdr_ok h /\ sline rep' = sline rep /\ body rep' = body rep /\
    live h = List.filter (fun e => negb (eid e =? HDR_AGE) && negb (existsb (fun f => replaces f e) (updates (header fresh)))) (live (header rep)) ++
             updates (header fresh).
Proof.
  intros Hok Hok2 Hd Hd2. unfold httpReplyUpdateOnNotModified. destruct (httpHeaderDelById_ok (header rep) HDR_AGE Hok) as (h1 & -> & Hok1 & Hl1 & _); [done..|].
  bind_simpl. destruct (httpHeaderUpdate_ok h1 (header fresh) (Some Denied304HeadersMask) Hok1 Hok2) as (h & -> & Hokh & _ & Hl & _); [by intros ? [= <-]|]. bind_simpl.
  assert (Hup : allowed (Some Denied304HeadersMask) (header fresh) = updates (header fresh)).
  { unfold allowed, updates. apply filter_ext_in. intros e He. rewrite denied_mask; [done|].
    pose proof (ok_entries _ Hok2) as Hen. rewrite List.Forall_forall in Hen. destruct (Hen e He). done. }
  rewrite Hup, Hl1 in Hl.
  assert (Hff : forall (f g : HttpHeaderEntry -> bool) l, List.filter g (List.filter f l) = List.filter (fun e => f e && g e) l).
  { clear. intros f g l. induction l as [|x l IH]; cbn; [done|]. destruct (f x); cbn; [destruct (g x); by rewrite IH|done]. }
  rewrite Hff in Hl.
  assert (Hdh : dates_ok h).
  { intros e He. rewrite Hl in He. apply in_app_iff in He as [He|He]; apply filter_In in He as [He _]; auto. }
  destruct (cache_init_ok ct vi (set_header h rep) Hokh Hdh) as (rep' & E & Hh & Hs & _ & _ & Hb). exists h, rep'. splits.
Qed.

(** C29. A 304 brings a stored reply up to date: its fields replace those of
    the same name, except Content-Encoding, -Language, -Length, -Location and
    -Range, which describe the stored body; the old Age is gone; status line
    and body stay; and the fields kept from the headers are computed anew
    from the merged header set, which is consistent. *)
Theorem update_304 ct vi rep fresh : hdr_ok (header rep) -> hdr_ok (header fresh) -> dates_ok (header rep) -> dates_ok (header fresh) ->
  exists h rep', httpReplyUpdateOnNotModified ct vi rep fresh = Some rep' /\ httpReplyHdrCacheInit ct vi (set_header h rep) = Some rep' /\
    header rep' = h /\ hdr_ok h /\ sline rep' = sline rep /\ body rep' = body rep /\
    live h = List.filter (fun e => negb (eid e =? HDR_AGE) && negb (existsb (fun f => replaces f e) (updates (header fresh)))) (live (header rep)) ++
             updates (header fresh).
Proof. apply update_304_ok. Qed.

Lemma update_304_witness :
  exists h rep', httpReplyUpdateOnNotModified 0 false ex_rep ex_rep = Some rep' /\ httpReplyHdrCacheInit 0 false (set_header h ex_rep) = Some rep' /\
    header rep' = h /\ hdr_ok h /\ sline rep' = sline ex_rep /\ body rep' = body ex_rep /\
    live h = List.filter (fun e => negb (eid e =? HDR_AGE) && negb (existsb (fun f => replaces f e) (updates (header ex_rep)))) (live (header ex_rep)) ++
             updates (header ex_rep).
Proof.
  assert (Hok : hdr_ok (header ex_rep)).
  { destruct (add_str_ok empty_header HDR_SERVER (str "lusca")) as (h & n & E & Hok & _); [exact empty_header_ok|done..|].
    vm_compute in E. injection E as <- <-. exact Hok. }
  assert (Hd : dates_ok (header ex_rep)) by (intros e He; cbn in He; destruct He as [<-|[]]; cbn; lia).
  exact (update_304 0 false ex_rep ex_rep Hok Hok Hd Hd).
Defined.

(** ** Corner cases *)

(** A clone has no body, whatever the original has. *)
Lemma clone_loses_body ct vi src dst : httpReplyClone ct vi src = Some dst -> body dst = None.
Proof.
  unfold httpReplyClone, httpReplyCreate. destruct (init_ok ct vi) as (r & -> & _ & _ & _ & _ & _ & Hb). bind_simpl. intros H. inv_opt H.
  injection H as <-. cbn. by rewrite Hb.
Qed.

(** After the status line only CR: the search for the end of an empty header
    block runs out of the buffer. *)
Lemma isolate_overread : httpReplyParse 0 false false rep0 (str "HTTP/1.0 200 OK" ++ [10; 13]) = None.
Proof. vm_compute. reflexivity. Qed.
End HttpReply.
