(* ===== verification/AclData.v ===== *)
(** * Values of access lists: the comparisons and matchers of src/acl.c

    The data an access list element carries and the functions that look a
    value up in it.  Networks and domains are kept in splay trees, numbers,
    port ranges and regular expressions in lists that are reordered by every
    match; a match is a function from the data to its answer and the data left
    behind.  Addresses are integers in host byte order. *)

From Stdlib Require Import ZArith Lia Sorted Ascii String.
From stdpp Require Import base strings list numbers option sorting.
From S2P Require Import Prelude CStr Splay Url.
Import Splay Url.

Module AclData.

(** ** Networks *)

Record acl_ip_data := mkIp { addr1 : Z; addr2 : Z; mask : Z }.

Definition NO_ADDR : Z := 4294967295.

Definition aclIpNetworkCompare2 (p : Z) (q : acl_ip_data) : Z :=
  let A := Z.land p (mask q) in
  let B := addr1 q in
  let C := addr2 q in
  if C =? 0 then
    if B <? A then 1 else if A <? B then -1 else 0
  else
    if C <? A then 1 else if A <? B then -1 else 0.

(** The warnings apart. *)
Definition aclIpNetworkCompare (a b : acl_ip_data) : Z :=
  let ret := aclIpNetworkCompare2 (addr1 b) a in
  if negb (ret =? 0) then aclIpNetworkCompare2 (addr1 a) b else ret.

Definition aclIpAddrNetworkCompare (a : Z) (b : acl_ip_data) : Z := aclIpNetworkCompare2 a b.

Definition aclMatchIp (Top : splayNode acl_ip_data) (c : Z) : option (splayNode acl_ip_data * bool) :=
  let? (Top, res) := splay_splay (aclIpAddrNetworkCompare c) Top in
  Some (Top, res =? 0).

(** The insertion step of [aclParseIpList]. *)
Definition ip_insert (q : acl_ip_data) (Top : splayNode acl_ip_data) : option (splayNode acl_ip_data) :=
  let? (Top, _) := splay_insert aclIpNetworkCompare q Top in Some Top.

(** ** Domains *)

Definition aclHostDomainCompare (h d : bytes) : option Z := matchDomainName h d.

Definition aclDomainCompare (a b : bytes) : option Z :=
  let? ret := aclHostDomainCompare b a in
  if negb (ret =? 0) then aclHostDomainCompare a b else Some ret.

Definition is_some {A} (o : option A) : bool := match o with Some _ => true | None => false end.

(** A search by a comparison that may read outside a string: it is defined
    when the comparisons made are. *)
Definition splay_splay_p {A} (cmp : A -> option Z) (Top : splayNode A) : option (splayNode A * Z) :=
  let f x := default 0 (cmp x) in
  assert? forallb (fun x => is_some (cmp x)) (splay_visits f Top) in
  splay_splay f Top.

Definition splay_insert_p {A} (cmp : A -> A -> option Z) (data : A) (Top : splayNode A) : option (splayNode A * Z) :=
  let f x y := default 0 (cmp x y) in
  assert? forallb (fun x => is_some (cmp data x)) (splay_visits (f data) Top) in
  splay_insert f data Top.

Definition aclMatchDomainList (Top : splayNode bytes) (host : option bytes) : option (splayNode bytes * bool) :=
  match host with
  | None => Some (Top, false)
  | Some host =>
      let? (Top, res) := splay_splay_p (aclHostDomainCompare host) Top in
      Some (Top, res =? 0)
  end.

(** ** Lists reordered by a match *)

(** The loop shared by [aclMatchInteger], [aclMatchIntegerRange] and
    [aclMatchRegex]: [seen] is what was passed, the last first. *)
Fixpoint second_loop {A} (f : A -> bool) (seen : list A) (data : list A) : option (list A) :=
  match data with
  | [] => None
  | x :: l =>
      if f x then
        Some match rev seen with
             | [] => x :: l
             | first :: rest => first :: x :: rest ++ l   (* to the second position *)
             end
      else second_loop f (x :: seen) l
  end.

Definition match_second {A} (f : A -> bool) (data : list A) : list A * bool :=
  match second_loop f [] data with Some l => (l, true) | None => (data, false) end.

Definition aclMatchInteger (data : list Z) (i : Z) : list Z * bool := match_second (fun x => x =? i) data.

(** [intrange] *)
Record intrange := mkRange { ir_i : Z; ir_j : Z }.

Definition aclMatchIntegerRange (data : list intrange) (i : Z) : list intrange * bool :=
  match_second (fun x => negb (i <? ir_i x) && negb (ir_j x <? i)) data.

(** A compiled expression is known by its pattern and its flags. *)
Record relist := mkRe { pattern : bytes; icase : bool }.

(** [regexec] belongs to the C library: whether an expression matches a
    string. *)
Definition aclMatchRegex (regexec : relist -> bytes -> bool) (data : list relist) (word : option bytes) : list relist * bool :=
  match word with
  | None => (data, false)
  | Some word => match_second (fun r => regexec r word) data
  end.

(** ** Users *)

(** The sign of [strcmp]. *)
Fixpoint strcmp (a b : bytes) : Z :=
  match a, b with
  | [], [] => 0
  | [], _ :: _ => -1
  | _ :: _, [] => 1
  | x :: a, y :: b => if x <? y then -1 else if y <? x then 1 else strcmp a b
  end.

Definition strcasecmp (a b : bytes) : Z := strcmp (map tolower a) (map tolower b).

Record acl_user_data := mkUsers { names : splayNode bytes; case_insensitive : bool; required : bool }.

Definition aclMatchUser (data : acl_user_data) (user : option bytes) : option (acl_user_data * bool) :=
  match user with
  | None => Some (data, false)
  | Some user =>
      if bool_decide (user = str "-") then Some (data, false)
      else if required data then Some (data, true)
      else
        let? (Top, res) := splay_splay ((if case_insensitive data then strcasecmp else strcmp) user) (names data) in
        Some (mkUsers Top (case_insensitive data) (required data), res =? 0)
  end.

(** ** Times *)

Record acl_time_data := mkTime { weekbits : Z; start : Z; stop : Z }.

Record tm := mkTm { tm_hour : Z; tm_min : Z; tm_wday : Z }.

(** The static variables of [aclMatchTime]. *)
Record time_cache := mkTc { last_when : Z; last_tm : tm }.

Definition time_cache_init : time_cache := mkTc 0 (mkTm 0 0 0).

Definition aclMatchTime (localtime : Z -> tm) (c : time_cache) (data : list acl_time_data) (when : Z) : option (time_cache * bool) :=
  assert? negb (bool_decide (data = [])) in
  let c := if negb (when =? last_when c) then mkTc when (localtime when) else c in
  let t := tm_hour (last_tm c) * 60 + tm_min (last_tm c) in
  Some (c, existsb (fun d => (start d <=? t) && (t <=? stop d) && negb (Z.land (weekbits d) (Z.shiftl 1 (tm_wday (last_tm c))) =? 0)) data).

(** ** Words and request types *)

Definition aclMatchWordList (w : list bytes) (word : bytes) : bool := existsb (fun key => bool_decide (key = word)) w.
Definition aclMatchWordListInsensitive (w : list bytes) (word : bytes) : bool := existsb (fun key => strcaseeq key word) w.

(** The flags of a request an element of type "type" looks at; also the
    element's own data. *)
Record acl_request_type := mkType { accelerated : bool; transparent : bool; internal : bool }.

Definition aclMatchType (type flags : acl_request_type) : bool :=
  if accelerated type && accelerated flags then true
  else if transparent type && transparent flags then true
  else if internal type && internal flags then true
  else false.

(** ** Examples *)

Definition ip (a b c d : Z) : Z := a * 16777216 + b * 65536 + c * 256 + d.
Definition net (a b c d bits : Z) : acl_ip_data := mkIp (ip a b c d) 0 (4294967296 - 2 ^ (32 - bits)).

Example ex_ip_compare :
  aclIpNetworkCompare2 (ip 10 1 2 3) (net 10 0 0 0 8) = 0 /\ aclIpNetworkCompare2 (ip 9 255 2 3) (net 10 0 0 0 8) = -1 /\
  aclIpNetworkCompare2 (ip 11 0 0 0) (net 10 0 0 0 8) = 1 /\ aclIpNetworkCompare (net 10 1 0 0 16) (net 10 0 0 0 8) = 0 /\
  aclIpNetworkCompare2 (ip 10 0 0 5) (mkIp (ip 10 0 0 1) (ip 10 0 0 9) NO_ADDR) = 0.
Proof. by vm_compute. Qed.

Example ex_second : match_second (fun x => x =? 4) [1; 2; 3; 4; 5] = ([1; 4; 2; 3; 5], true).
Proof. done. Qed.

(** ** Network masks *)

(** The first [bits] bits set. *)
Definition contiguous (m : Z) : Prop := exists j, 0 <= j <= 32 /\ m = 2 ^ 32 - 2 ^ j.
Definition is_addr (p : Z) : Prop := 0 <= p < 2 ^ 32.

Lemma mask_testbit j i : 0 <= j <= 32 -> 0 <= i -> Z.testbit (2 ^ 32 - 2 ^ j) i = (j <=? i) && (i <? 32).
Proof.
  intros Hj Hi. replace (2 ^ 32 - 2 ^ j) with (Z.shiftl (Z.ones (32 - j)) j).
  - rewrite Z.shiftl_spec by done. destruct (Z.leb_spec j i) as [H|H]; cbn [andb].
    + rewrite Z.testbit_ones_nonneg by lia. destruct (Z.ltb_spec (i - j) (32 - j)), (Z.ltb_spec i 32); lia.
    + by apply Z.testbit_neg_r; lia.
  - rewrite Z.shiftl_mul_pow2, Z.ones_equiv by lia. unfold Z.pred. rewrite Z.mul_add_distr_r, <- Z.pow_add_r by lia.
    replace (32 - j + j) with 32 by lia. lia.
Qed.

(** Masking rounds an address down to the start of its network. *)
Lemma land_mask p j : is_addr p -> 0 <= j <= 32 -> Z.land p (2 ^ 32 - 2 ^ j) = 2 ^ j * (p / 2 ^ j).
Proof.
  intros Hp Hj. rewrite Z.mul_comm, <- Z.shiftl_mul_pow2, <- Z.shiftr_div_pow2 by lia. apply Z.bits_inj'. intros i Hi.
  rewrite Z.land_spec, mask_testbit, Z.shiftl_spec by lia. destruct (Z.leb_spec j i) as [H|H]; cbn [andb].
  - rewrite Z.shiftr_spec by lia. replace (i - j + j) with i by lia. destruct (Z.ltb_spec i 32) as [H'|H']; [by rewrite andb_true_r|].
    rewrite andb_false_r. symmetry. destruct (Z.eq_dec p 0) as [->|]; [apply Z.bits_0|].
    apply Z.bits_above_log2; [apply Hp|]. assert (Z.log2 p < 32); [|lia]. apply Z.log2_lt_pow2; destruct Hp; lia.
  - rewrite andb_false_r, Z.testbit_neg_r; [done|lia].
Qed.

Lemma land_mask_mono p q m : is_addr p -> is_addr q -> contiguous m -> p <= q -> Z.land p m <= Z.land q m.
Proof.
  intros Hp Hq (j & Hj & ->) Hl. rewrite !land_mask by done. apply Z.mul_le_mono_nonneg_l; [lia|]. apply Z.div_le_mono; lia.
Qed.

Lemma land_mask_le p m : is_addr p -> contiguous m -> Z.land p m <= p.
Proof. intros Hp (j & Hj & ->). rewrite land_mask by done. apply Z.mul_div_le. lia. Qed.

(** A network or range as the parser leaves it, the first address of a range
    not after the last. *)
Definition ip_wf (q : acl_ip_data) : Prop :=
  is_addr (addr1 q) /\ contiguous (mask q) /\ Z.land (addr1 q) (mask q) = addr1 q /\ (addr2 q = 0 \/ addr1 q <= addr2 q).

(** The address is in the network. *)
Definition ip_contains (q : acl_ip_data) (c : Z) : Prop :=
  let a := Z.land c (mask q) in if addr2 q =? 0 then a = addr1 q else addr1 q <= a <= addr2 q.

#[export] Instance ip_contains_dec q c : Decision (ip_contains q c).
Proof. unfold ip_contains. destruct (addr2 q =? 0); apply _. Defined.

Lemma ip_contains_compare q c : ip_contains q c <-> aclIpNetworkCompare2 c q = 0.
Proof. unfold ip_contains, aclIpNetworkCompare2. case_ifs; zify_bools; lia. Qed.

(** A network is the interval of the addresses that begin with its bits. *)
Lemma ip_contains_interval a j c : is_addr c -> 0 <= j <= 32 -> a = 2 ^ j * (a / 2 ^ j) ->
  ip_contains (mkIp a 0 (2 ^ 32 - 2 ^ j)) c <-> a <= c < a + 2 ^ j.
Proof.
  intros Hc Hj Ha. unfold ip_contains. cbn [addr2 mask addr1 Z.eqb]. rewrite land_mask by done. rewrite Ha.
  assert (0 < 2 ^ j) by lia. pose proof (Z.div_mod c (2 ^ j)). pose proof (Z.mod_pos_bound c (2 ^ j)). split; [nia|].
  intros Hi. f_equal. set (x := a / 2 ^ j) in *. symmetry. apply Z.div_unique with (r := c - 2 ^ j * x); lia.
Qed.

#[export] Instance ip_range : SplayRange aclIpNetworkCompare2 addr1 ip_wf is_addr Z.le.
Proof.
  assert (forall p q a, is_addr p -> is_addr q -> ip_wf a -> p <= q -> Z.land p (mask a) <= Z.land q (mask a)) as Hm.
  { intros p q a Hp Hq (_ & Hc & _) Hl. by apply land_mask_mono. }
  split.
  - lia.
  - intros p q a Hp Hq Ha Hl. pose proof (Hm p q a Hp Hq Ha Hl). unfold aclIpNetworkCompare2. case_ifs; zify_bools; lia.
  - intros p q a Hp Hq Ha Hl. pose proof (Hm p q a Hp Hq Ha Hl). unfold aclIpNetworkCompare2. case_ifs; zify_bools; lia.
  - by intros a (? & _).
  - intros a (_ & _ & E & Hr). unfold aclIpNetworkCompare2. rewrite E. case_ifs; zify_bools; lia.
  - intros p a Hp (_ & Hc & _). pose proof (land_mask_le p (mask a) Hp Hc). unfold aclIpNetworkCompare2. case_ifs; zify_bools; lia.
Qed.

Lemma aclIpNetworkCompare_range a b : aclIpNetworkCompare a b = range_cmp aclIpNetworkCompare2 addr1 a b.
Proof. unfold aclIpNetworkCompare, range_cmp. destruct (Z.eqb_spec (aclIpNetworkCompare2 (addr1 b) a) 0); done. Qed.

(** Two networks have an address in common. *)
Definition ip_overlap (a b : acl_ip_data) : Prop := exists c, is_addr c /\ ip_contains a c /\ ip_contains b c.

Lemma aclIpNetworkCompare_overlap a b : ip_wf a -> ip_wf b -> aclIpNetworkCompare a b = 0 <-> ip_overlap a b.
Proof.
  intros Ha Hb. rewrite aclIpNetworkCompare_range, (range_cmp_overlap _ _ _ _ _ a b Ha Hb). unfold ip_overlap.
  by setoid_rewrite ip_contains_compare.
Qed.

(** What a tree of networks satisfies. *)
Definition ip_tree (t : splayNode acl_ip_data) : Prop := ranged aclIpNetworkCompare2 addr1 ip_wf t.

Lemma aclMatchIp_ok t c : ip_tree t -> is_addr c ->
  exists t' b, aclMatchIp t c = Some (t', b) /\ flatten t' = flatten t /\ ip_tree t' /\
    (b = true <-> Exists (fun q => ip_contains q c) (flatten t)).
Proof.
  intros Ht Hc. unfold aclMatchIp. destruct (range_search_ok _ _ _ _ _ c t Hc Ht) as (t' & res & E & Hf & Ht' & Hr).
  unfold aclIpAddrNetworkCompare. change (aclIpNetworkCompare2 c) with (fun b => aclIpNetworkCompare2 c b) in E. rewrite E. bind_simpl.
  exists t', (res =? 0). do 3 (split; [done|]). rewrite Z.eqb_eq, Hr. by setoid_rewrite ip_contains_compare.
Qed.

(** ** Domains in order

    Hosts are ordered from their last character, the dot before every other
    one: then a domain with its subdomains is an interval. *)

Definition dkey (c : Z) : Z := if c =? 46 then -1 else tolower c.
Definition dkeys (h : bytes) : list Z := rev (map dkey (skip_dots h)).

Fixpoint lexle (p q : list Z) : Prop :=
  match p, q with
  | [], _ => True
  | _ :: _, [] => False
  | x :: p, y :: q => x < y \/ x = y /\ lexle p q
  end.

Lemma lexle_total p : forall q, lexle p q \/ lexle q p.
Proof.
  induction p as [|x p IH]; intros [|y q]; cbn; [by left..|by right|].
  destruct (Z.lt_trichotomy x y) as [|[->|]]; [by left; left| |by right; left]. destruct (IH q); [left|right]; by right.
Qed.

(** The sign of a comparison of the keys [H] with a domain whose body has the
    keys [r], [dot] telling whether its subdomains belong to it. *)
Fixpoint dsign (dot : bool) (r H : list Z) : Z :=
  match r, H with
  | [], [] => 0
  | [], c :: _ => if dot && (c =? -1) then 0 else 1
  | _ :: _, [] => -1
  | y :: r, x :: H => if x <? y then -1 else if y <? x then 1 else dsign dot r H
  end.

Lemma dsign_range dot r : forall H, -1 <= dsign dot r H <= 1.
Proof. induction r as [|y r IH]; intros [|x H]; cbn; try lia; case_ifs; try lia. Qed.

Lemma dsign_mono dot r : forall p q, Forall (fun c => -1 <= c) p -> Forall (fun c => -1 <= c) q -> lexle p q -> dsign dot r p <= dsign dot r q.
Proof.
  induction r as [|y r IH]; intros [|x p] [|z q] Hp Hq Hl; cbn in *; try lia; try done.
  - case_ifs; lia.
  - apply Forall_cons in Hp as [Hx _]. destruct dot; cbn; [|lia].
    destruct (Z.eqb_spec x (-1)), (Z.eqb_spec z (-1)); try lia. 
  - pose proof (dsign_range dot r q). case_ifs; lia.
  - apply Forall_cons in Hp as [_ Hp]. apply Forall_cons in Hq as [_ Hq]. pose proof (dsign_range dot r p). pose proof (dsign_range dot r q).
    destruct Hl as [Hl|[-> Hl]]; [case_ifs; zify_bools; lia|]. specialize (IH p q Hp Hq Hl). case_ifs; lia.
Qed.

Lemma dsign_refl dot r : dsign dot r r = 0.
Proof. induction r as [|y r IH]; cbn; [done|]. by rewrite Z.ltb_irrefl. Qed.

Lemma dsign_least dot r : forall p, dsign dot r p = 0 -> lexle r p.
Proof.
  induction r as [|y r IH]; intros [|x p]; cbn; [done..|]. case_ifs. intros Hd. zify_bools. right. split; [lia|by apply IH].
Qed.

(** The loop of [matchDomainName] on the reversed strings. *)
Fixpoint dloop (h d : bytes) : Z :=
  match h, d with
  | x :: h, y :: d =>
      if tolower x =? tolower y then
        match h, d with
        | [], [] => 0
        | [], _ => if bool_decide (d = [46]) then 0 else -1
        | _, [] => if y =? 46 then 0 else 1
        | _, _ => dloop h d
        end
      else if y =? 46 then 1
      else if x =? 46 then -1
      else tolower x - tolower y
  | _, _ => 0
  end.

Lemma nonempty_rev {A} (l : list A) : l <> [] -> exists x k, rev l = x :: k.
Proof. intros Hl. destruct (rev l) eqn:E; [|eauto]. apply (f_equal (@rev A)) in E. by rewrite rev_involutive in E. Qed.

(** The host ends before the domain does. *)
Lemma host_end b0 b :
  (if (Z.of_nat (S (length b)) =? 1) && (b0 =? 46) then 0 else -1) = if bool_decide (rev (b0 :: b) = [46]) then 0 else -1.
Proof.
  destruct b as [|b1 b]; cbn; [destruct (Z.eqb_spec b0 46); case_bool_decide; naive_solver|].
  destruct (Z.eqb_spec (Z.of_nat (S (S (length b)))) 1); [lia|]. cbn [andb]. rewrite bool_decide_false; [done|].
  intros Hr. apply (f_equal length) in Hr. rewrite !length_app, length_rev in Hr. cbn in Hr. lia.
Qed.

Lemma match_loop_dloop fuel a x ra b y rb : (length a <= fuel)%nat ->
  match_loop fuel ((a ++ [x]) ++ ra) ((b ++ [y]) ++ rb) (Z.of_nat (length a) + 1) (Z.of_nat (length b) + 1) =
  Some (dloop (rev (a ++ [x])) (rev (b ++ [y]))).
Proof.
  revert a x ra b y rb. induction fuel as [|fuel IH]; intros a x ra b y rb Hf; cbn [match_loop]; rewrite !Z.add_simpl_r;
    rewrite (rd_mid a x ra (Z.of_nat (length a)) eq_refl), (rd_mid b y rb (Z.of_nat (length b)) eq_refl); bind_simpl;
    rewrite !rev_unit; cbn [dloop]; (destruct (tolower x =? tolower y); [|by case_ifs]).
  - destruct a; [|cbn in Hf; lia]. cbn [length Z.of_nat rev]. destruct b as [|b0 b]; [done|]. cbn [length app].
    rewrite rd_0. bind_simpl. destruct (Z.eqb_spec (Z.of_nat (S (length b))) 0); [lia|]. cbn [Z.eqb andb].
    destruct (nonempty_rev (b0 :: b)) as (z & k & E); [done|]. rewrite E. f_equal. rewrite <- E. apply host_end.
  - destruct (decide (a = [])) as [->|Ha]; destruct (decide (b = [])) as [->|Hb]; cbn [length Z.of_nat rev app].
    + done.
    + destruct b as [|b0 b]; [done|]. cbn [length app].
      rewrite rd_0. bind_simpl. destruct (Z.eqb_spec (Z.of_nat (S (length b))) 0); [lia|]. cbn [Z.eqb andb].
      destruct (nonempty_rev (b0 :: b)) as (z & k & E); [done|]. rewrite E. f_equal. rewrite <- E. apply host_end.
    + destruct (nonempty_rev a Ha) as (z & k & ->). destruct a as [|a0 a]; [done|]. rewrite rd_0. bind_simpl. cbn [length].
      destruct (Z.eqb_spec (Z.of_nat (S (length a))) 0); [lia|]. done.
    + destruct (nonempty_rev a Ha) as (z & k & Ea), (nonempty_rev b Hb) as (z' & k' & Eb). rewrite Ea, Eb.
      destruct (Z.eqb_spec (Z.of_nat (length a)) 0); [by destruct a|]. destruct (Z.eqb_spec (Z.of_nat (length b)) 0); [by destruct b|].
      cbn [andb]. rewrite <- Ea, <- Eb. destruct (exists_last Ha) as (a' & x' & ->), (exists_last Hb) as (b' & y' & ->).
      rewrite <- !(app_assoc (_ ++ [_]) [_]), !length_app. cbn [length]. rewrite !Nat2Z.inj_add. apply IH.
      rewrite length_app in Hf. cbn in Hf. lia.
Qed.

Lemma matchDomainName_dloop h d : skip_dots h <> [] -> d <> [] -> matchDomainName h d = Some (dloop (rev (skip_dots h)) (rev d)).
Proof.
  intros Hh Hd. unfold matchDomainName. destruct (exists_last Hh) as (a & x & E), (exists_last Hd) as (b & y & ->). rewrite E.
  rewrite <- (match_loop_dloop (length (a ++ [x])) a x [] b y []) by len_lia. rewrite !app_nil_r. f_equal; len_lia.
Qed.

Lemma tolower_dkey x y : tolower x = tolower y -> dkey x = dkey y.
Proof.
  intros E. unfold dkey. destruct (Z.eqb_spec x 46) as [->|Hx], (Z.eqb_spec y 46) as [->|Hy]; try done.
  - symmetry in E. by apply (proj1 (tolower_dot y)) in E.
  - by apply (proj1 (tolower_dot x)) in E.
Qed.

Lemma dkey_nonneg x : 0 <= x -> -1 <= dkey x /\ (x <> 46 -> 0 <= dkey x).
Proof. unfold dkey, tolower. case_ifs; zify_bools; lia. Qed.

Lemma dloop_differ x y : 0 <= x -> 0 <= y -> tolower x <> tolower y ->
  Z.sgn (if y =? 46 then 1 else if x =? 46 then -1 else tolower x - tolower y) = if dkey x <? dkey y then -1 else if dkey y <? dkey x then 1 else 0.
Proof.
  intros Hx Hy Hne. pose proof (dkey_nonneg x Hx). pose proof (dkey_nonneg y Hy). revert H H0. unfold dkey.
  destruct (Z.eqb_spec y 46) as [->|Hy'], (Z.eqb_spec x 46) as [->|Hx']; [done|..]; intros; case_ifs; zify_bools; try lia.
Qed.

(** The comparison of a host with a domain, [tl] being the dot it begins
    with. *)
Lemma dloop_dsign (dot : bool) R : forall H, R <> [] -> H <> [] -> Forall (fun c => 0 <= c) R -> Forall (fun c => 0 <= c) H ->
  list.last R <> Some 46 -> Z.sgn (dloop H (R ++ if dot then [46] else [])) = dsign dot (map dkey R) (map dkey H).
Proof.
  induction R as [|y R IH]; intros [|x H] HR HH FR FH HL; try done. cbn [app dloop map dsign].
  apply Forall_cons in FR as [Fy FR]. apply Forall_cons in FH as [Fx FH].
  destruct (Z.eqb_spec (tolower x) (tolower y)) as [E|E].
  - rewrite (tolower_dkey x y E), Z.ltb_irrefl. destruct R as [|y2 R].
    + cbn [app map]. destruct H as [|x2 H]; [by destruct dot|]. destruct dot; cbn [map dsign dloop andb].
      * apply Forall_cons in FH as [Fx2 _]. destruct (Z.eqb_spec (tolower x2) (tolower 46)) as [E2|E2].
        -- rewrite (tolower_dkey x2 46 E2). by destruct H.
        -- cbn. pose proof (dkey_nonneg x2 Fx2). destruct (Z.eqb_spec (dkey x2) (-1)); [|done]. assert (x2 <> 46) by (by intros ->). lia.
      * destruct (Z.eqb_spec y 46) as [->|]; done.
    + destruct H as [|x2 H]; cbn [app map dsign].
      * rewrite bool_decide_false; [done|]. destruct R, dot; try done. cbn. intros [= ->]. done.
      * apply (IH (x2 :: H)); try done.
  - rewrite dloop_differ by done. pose proof (dkey_nonneg x Fx). pose proof (dkey_nonneg y Fy).
    destruct (Z.ltb_spec (dkey x) (dkey y)); [done|]. destruct (Z.ltb_spec (dkey y) (dkey x)); [done|].
    destruct E. assert (dkey x = dkey y) as E by lia. revert E. unfold dkey, tolower in *. 
    destruct (Z.eqb_spec x 46), (Z.eqb_spec y 46); case_ifs; lia.
Qed.

(** A domain as it is written: not empty, with at most one leading dot. *)
Definition dom_wf (d : bytes) : Prop :=
  Forall (fun c => 0 <= c) d /\ skip_dots d <> [] /\ (d = skip_dots d \/ d = 46 :: skip_dots d).
Definition is_host (h : bytes) : Prop := Forall (fun c => 0 <= c) h /\ skip_dots h <> [].

Lemma skip_dots_cons c h : skip_dots (c :: h) = if c =? 46 then skip_dots h else c :: h.
Proof. destruct c as [|p|p]; try done. do 6 (destruct p as [p|p|]; try done). Qed.

Lemma skip_dots_forall (P : Z -> Prop) h : Forall P h -> Forall P (skip_dots h).
Proof. induction 1 as [|c h Hc Hh IH]; [done|]. rewrite skip_dots_cons. destruct (c =? 46); [done|by constructor]. Qed.

Lemma skip_dots_idem h : skip_dots (skip_dots h) = skip_dots h.
Proof.
  induction h as [|c h IH]; [done|]. rewrite skip_dots_cons. destruct (c =? 46) eqn:E; [done|]. rewrite skip_dots_cons. by rewrite E.
Qed.

Lemma skip_dots_deref h : deref (skip_dots h) <> 46.
Proof. induction h as [|c h IH]; [done|]. rewrite skip_dots_cons. by destruct (Z.eqb_spec c 46). Qed.

Lemma rev_skip_dots_last h : list.last (rev (skip_dots h)) <> Some 46.
Proof.
  induction h as [|c h IH]; [done|]. rewrite skip_dots_cons. destruct (Z.eqb_spec c 46); [done|].
  cbn [rev]. rewrite last_snoc. naive_solver.
Qed.

(** The domain comparison as a total function. *)
Definition dom_cmp (h d : bytes) : Z := default 0 (aclHostDomainCompare h d).
Definition has_dot (d : bytes) : bool := deref d =? 46.

Lemma dom_wf_split d : dom_wf d -> rev d = rev (skip_dots d) ++ (if has_dot d then [46] else []).
Proof.
  intros (_ & Hn & [E|E]); unfold has_dot.
  - rewrite <- E. assert (deref d =? 46 = false) as ->; [|by rewrite app_nil_r].
    apply Z.eqb_neq. rewrite E. apply skip_dots_deref.
  - assert (deref d =? 46 = true) as -> by (by rewrite E). by rewrite E at 1.
Qed.

Lemma dom_cmp_sign h d : is_host h -> dom_wf d ->
  aclHostDomainCompare h d = Some (dom_cmp h d) /\ Z.sgn (dom_cmp h d) = dsign (has_dot d) (dkeys d) (dkeys h).
Proof.
  intros [Fh Hh] Hd. assert (d <> []) as Hne. { destruct Hd as (_ & Hn & _). by intros ->. }
  unfold dom_cmp, aclHostDomainCompare. rewrite (matchDomainName_dloop h d Hh Hne). split; [done|]. cbn [default].
  rewrite (dom_wf_split d Hd). destruct Hd as (Fd & Hn & _). unfold dkeys. rewrite <- !map_rev. apply dloop_dsign.
  - intros E. apply Hn. by rewrite <- (rev_involutive (skip_dots d)), E.
  - intros E. apply Hh. by rewrite <- (rev_involutive (skip_dots h)), E.
  - apply Forall_rev. by apply skip_dots_forall.
  - apply Forall_rev. by apply skip_dots_forall.
  - apply rev_skip_dots_last.
Qed.

#[export] Instance dom_range : SplayRange dom_cmp (fun d => d) dom_wf is_host (fun p q => lexle (dkeys p) (dkeys q)).
Proof.
  assert (forall p q d, is_host p -> is_host q -> dom_wf d -> lexle (dkeys p) (dkeys q) -> Z.sgn (dom_cmp p d) <= Z.sgn (dom_cmp q d)) as Hm.
  { intros p q d Hp Hq Hd Hl. rewrite (proj2 (dom_cmp_sign p d Hp Hd)), (proj2 (dom_cmp_sign q d Hq Hd)).
    assert (forall h, is_host h -> Forall (fun c => -1 <= c) (dkeys h)) as Hk; [|by apply dsign_mono; auto].
    intros h [Fh _]. apply Forall_rev, Forall_map. eapply Forall_impl; [by apply skip_dots_forall|]. intros c Hc. by apply dkey_nonneg. }
  assert (forall d, dom_wf d -> is_host d) as Hpt by (intros d (? & ? & _); split; done).
  split.
  - intros p q. apply lexle_total.
  - intros p q d Hp Hq Hd Hl Hc. pose proof (Hm p q d Hp Hq Hd Hl). destruct (Z.sgn_spec (dom_cmp p d)), (Z.sgn_spec (dom_cmp q d)); lia.
  - intros p q d Hp Hq Hd Hl Hc. pose proof (Hm p q d Hp Hq Hd Hl). destruct (Z.sgn_spec (dom_cmp p d)), (Z.sgn_spec (dom_cmp q d)); lia.
  - exact Hpt.
  - intros d Hd. apply Z.sgn_null_iff. rewrite (proj2 (dom_cmp_sign d d (Hpt d Hd) Hd)). apply dsign_refl.
  - intros p d Hp Hd Hc. apply dsign_least with (dot := has_dot d). rewrite <- (proj2 (dom_cmp_sign p d Hp Hd)), Hc. done.
Qed.

Definition dom_tree (t : splayNode bytes) : Prop := ranged dom_cmp (fun d => d) dom_wf t.

(** The host is the domain or below it. *)
Definition dom_contains (d h : bytes) : Prop := domain_match (map tolower (skip_dots h)) (map tolower d).

Lemma dom_contains_compare d h : is_host h -> dom_wf d -> dom_contains d h <-> dom_cmp h d = 0.
Proof.
  intros Hh Hd. destruct (matchDomainName_ok h d) as (r & E & Hr); [apply Hh|destruct Hd as (_ & Hn & _); by intros ->|].
  unfold dom_cmp, aclHostDomainCompare. rewrite E. cbn [default]. by rewrite Hr.
Qed.

(** The comparisons that a search makes are defined. *)
Lemma visits_defined {A} (cmp : A -> option Z) (P : A -> Prop) f t : Forall P (flatten t) -> (forall x, P x -> is_Some (cmp x)) ->
  forallb (fun x => is_some (cmp x)) (splay_visits f t) = true.
Proof.
  intros Ht Hs. apply forallb_forall. intros x Hx%list_elem_of_In. apply splay_visits_elem in Hx.
  rewrite Forall_forall in Ht. by destruct (Hs x (Ht x Hx)) as [r ->].
Qed.

Lemma aclMatchDomainList_ok t h : dom_tree t -> is_host h ->
  exists t' b, aclMatchDomainList t (Some h) = Some (t', b) /\ flatten t' = flatten t /\ dom_tree t' /\
    (b = true <-> Exists (fun d => dom_contains d h) (flatten t)).
Proof.
  intros Ht Hh. unfold aclMatchDomainList, splay_splay_p. rewrite (visits_defined _ dom_wf); [|apply Ht|].
  - destruct (range_search_ok dom_cmp _ _ _ _ h t Hh Ht) as (t' & res & E & Hf & Ht' & Hr). fold (dom_cmp h).
    change (fun x => default 0 (aclHostDomainCompare h x)) with (dom_cmp h). rewrite E. bind_simpl.
    exists t', (res =? 0). do 3 (split; [done|]). rewrite Z.eqb_eq, Hr. destruct Ht as [Hw _]. rewrite !Exists_exists. rewrite Forall_forall in Hw.
    split; intros (d & Hin & Hd); exists d; (split; [done|]); apply dom_contains_compare; auto.
  - intros d Hd. destruct (dom_cmp_sign h d Hh Hd) as [-> _]. eauto.
Qed.

(** ** Reordered lists *)

Lemma second_loop_ok {A} (f : A -> bool) data : forall seen,
  match second_loop f seen data with
  | Some l => existsb f data = true /\ l ≡ₚ rev seen ++ data
  | None => existsb f data = false
  end.
Proof.
  induction data as [|x data IH]; intros seen; cbn [second_loop existsb]; [done|]. destruct (f x); cbn [orb].
  - split; [done|]. destruct (rev seen) as [|first rest]; [done|]. cbn [app]. by rewrite Permutation_middle.
  - specialize (IH (x :: seen)). cbn [rev] in IH. by rewrite <- app_assoc in IH.
Qed.

(** A match finds an element exactly when there is one, and only reorders the
    list. *)
Lemma match_second_ok {A} (f : A -> bool) data :
  snd (match_second f data) = existsb f data /\ fst (match_second f data) ≡ₚ data.
Proof. unfold match_second. pose proof (second_loop_ok f data []) as H. destruct (second_loop f [] data); naive_solver. Qed.

Lemma existsb_perm {A} (f : A -> bool) l k : l ≡ₚ k -> existsb f l = existsb f k.
Proof. induction 1; cbn; [done|by f_equal|by rewrite !orb_assoc, (orb_comm (f y))|by etrans]. Qed.

(** ** Names in order *)

Lemma strcmp_zero a : forall b, strcmp a b = 0 <-> a = b.
Proof.
  induction a as [|x a IH]; intros [|y b]; cbn; [done..|]. destruct (Z.ltb_spec x y), (Z.ltb_spec y x); try lia; split; intros E; try lia; try (injection E as -> ->; lia).
  - apply IH in E as ->. f_equal. lia.
  - injection E as -> ->. by apply IH.
Qed.

Lemma strcmp_flip a : forall b, strcmp b a = - strcmp a b.
Proof. induction a as [|x a IH]; intros [|y b]; cbn; [done..|]. case_ifs; zify_bools; try lia. Qed.

Lemma strcmp_trans a : forall b c, strcmp a b <= 0 -> strcmp b c < 0 -> strcmp a c < 0.
Proof.
  induction a as [|x a IH]; intros [|y b] [|z c]; cbn; try done; try lia.
  destruct (Z.ltb_spec x y), (Z.ltb_spec y x), (Z.ltb_spec y z), (Z.ltb_spec z y), (Z.ltb_spec x z), (Z.ltb_spec z x); try lia. apply IH.
Qed.

#[export] Instance strcmp_order : SplayOrder strcmp.
Proof. split; [|exact strcmp_trans]. intros a b. rewrite strcmp_flip. apply Z.sgn_opp. Qed.

(** What a list of users satisfies: its names are in order, and in lower case
    when it is searched without regard to case. *)
Definition users_ok (d : acl_user_data) : Prop :=
  sorted strcmp (names d) /\ (case_insensitive d = true -> Forall (fun n => map tolower n = n) (flatten (names d))).

Lemma users_searchable d u : users_ok d -> searchable ((if case_insensitive d then strcasecmp else strcmp) u) (flatten (names d)).
Proof.
  intros [Hs Hc]. destruct (case_insensitive d); [|by apply (sorted_searchable strcmp)].
  pose proof (sorted_searchable strcmp (map tolower u) _ Hs) as H. unfold searchable in *. specialize (Hc eq_refl).
  induction H as [|x l H IH Hx]; constructor; apply Forall_cons in Hc as [Ex Hc].
  - by apply IH.
  - unfold strcasecmp. rewrite Ex. apply Forall_forall. intros y Hy. rewrite Forall_forall in Hx, Hc. rewrite (Hc y Hy). by apply Hx.
Qed.

(** The user belongs to the list. *)
Definition user_listed (d : acl_user_data) (u : bytes) : Prop :=
  u <> str "-" /\ (required d = true \/
    if case_insensitive d then map tolower u ∈ flatten (names d) else u ∈ flatten (names d)).

Lemma users_cmp_eq d u x : users_ok d -> x ∈ flatten (names d) ->
  (if case_insensitive d then strcasecmp else strcmp) u x = 0 <-> x = if case_insensitive d then map tolower u else u.
Proof.
  intros [_ Hc] Hx. destruct (case_insensitive d).
  - specialize (Hc eq_refl). rewrite Forall_forall in Hc. unfold strcasecmp. rewrite strcmp_zero, (Hc x Hx). naive_solver.
  - rewrite strcmp_zero. naive_solver.
Qed.

Lemma aclMatchUser_ok d u : users_ok d ->
  exists d' b, aclMatchUser d (Some u) = Some (d', b) /\ users_ok d' /\ flatten (names d') = flatten (names d) /\
    case_insensitive d' = case_insensitive d /\ required d' = required d /\ (b = true <-> user_listed d u).
Proof.
  intros Hd. unfold aclMatchUser, user_listed. destruct (bool_decide_reflect (u = str "-")) as [->|Hu].
  { exists d, false. do 5 (split; [done|]). naive_solver. }
  destruct (required d) eqn:Er.
  { exists d, true. do 5 (split; [done|]). naive_solver. }
  assert (exists Top res, splay_splay ((if case_insensitive d then strcasecmp else strcmp) u) (names d) = Some (Top, res) /\
    flatten Top = flatten (names d) /\ (res = 0 <-> (if case_insensitive d then map tolower u else u) ∈ flatten (names d))) as (Top & res & -> & Hf & Hr).
  { destruct (names d) as [|tl td tr] eqn:Et.
    - exists NULL, (-1). do 2 (split; [done|]). split; [done|]. by intros ?%not_elem_of_nil.
    - rewrite <- Et in *. destruct (splay_search_ok ((if case_insensitive d then strcasecmp else strcmp) u) (names d)) as (lt & x & rt & res & E & Hf & Hz & _ & _ & Hr);
        [by apply users_searchable|by rewrite Et|]. exists (Node lt x rt), res. do 2 (split; [done|]). rewrite Hr, Exists_exists.
      split; [intros (y & Hy & Hc); apply users_cmp_eq in Hc as <-; done|]. intros Hin. eexists. split; [exact Hin|]. by apply users_cmp_eq. }
  bind_simpl. eexists _, _. split; [done|]. unfold users_ok, sorted in *. cbn [names case_insensitive required]. rewrite Hf.
  do 4 (split; [done|]). rewrite Z.eqb_eq, Hr. destruct (case_insensitive d); naive_solver.
Qed.

End AclData.
