(* ===== verification/AclParse.v ===== *)
(** * Access lists of the configuration: the parsers of src/acl.c

    [acl] lines define named elements, [http_access] and the like are lists of
    rules over them.  A line is the sequence of its words as [strtok] delivers
    them; [strtokFile] (src/cache_cf.c) replaces a quoted word by the lines of
    a file.  [Config.aclList] is the list of elements in order, an [acl *] is
    a position in it: elements are only appended.

    The configuration modelled has ident lookups and SNMP compiled in, and ARP
    and SSL elements not. *)

From Stdlib Require Import ZArith Lia Ascii String.
From stdpp Require Import base strings list numbers option.
From S2P Require Import Prelude CStr Splay Url HttpHeader AclData.
Import Splay Url AclData.

Module AclParse.

(** ** Results

    [Exit]: the process ends with a message ([self_destruct], [fatal]);
    [Undef]: undefined behaviour of C. *)
Inductive res (A : Type) := Ret (a : A) | Exit | Undef.
Arguments Ret {A} a.
Arguments Exit {A}.
Arguments Undef {A}.

#[export] Instance res_bind : MBind res :=
  fun A B f m => match m with Ret a => f a | Exit => Exit | Undef => Undef end.

Definition of_option {A} (o : option A) : res A := match o with Some a => Ret a | None => Undef end.

(** ** Elements *)

Inductive squid_acl :=
  | ACL_NONE | ACL_SRC_IP | ACL_DST_IP | ACL_MY_IP | ACL_SRC_DOMAIN | ACL_DST_DOMAIN | ACL_SRC_DOM_REGEX | ACL_DST_DOM_REGEX
  | ACL_TIME | ACL_URLPATH_REGEX | ACL_URL_REGEX | ACL_URL_PORT | ACL_MY_PORT | ACL_MY_PORT_NAME | ACL_IDENT | ACL_IDENT_REGEX
  | ACL_TYPE | ACL_PROTO | ACL_METHOD | ACL_BROWSER | ACL_REFERER_REGEX | ACL_PROXY_AUTH | ACL_PROXY_AUTH_REGEX
  | ACL_SRC_ASN | ACL_DST_ASN | ACL_SNMP_COMMUNITY | ACL_MAXCONN | ACL_REQ_MIME_TYPE | ACL_REP_MIME_TYPE
  | ACL_REP_HEADER | ACL_REQ_HEADER | ACL_MAX_USER_IP | ACL_EXTERNAL | ACL_URLLOGIN | ACL_URLGROUP | ACL_EXTUSER
  | ACL_EXTUSER_REGEX | ACL_HIER_CODE | ACL_DSTFWD_IP | ACL_ANY_OF.

#[export] Instance squid_acl_eq_dec : EqDecision squid_acl.
Proof. solve_decision. Defined.

(** The tests of [aclStrToType] in order; all compare whole strings but that
    of "proto", which compares five characters. *)
Definition type_names : list (string * squid_acl) :=
  [("src", ACL_SRC_IP); ("dst", ACL_DST_IP); ("myip", ACL_MY_IP); ("domain", ACL_DST_DOMAIN); ("dstdomain", ACL_DST_DOMAIN);
   ("srcdomain", ACL_SRC_DOMAIN); ("dstdom_regex", ACL_DST_DOM_REGEX); ("srcdom_regex", ACL_SRC_DOM_REGEX); ("time", ACL_TIME);
   ("pattern", ACL_URLPATH_REGEX); ("urlpath_regex", ACL_URLPATH_REGEX); ("url_regex", ACL_URL_REGEX); ("port", ACL_URL_PORT);
   ("myport", ACL_MY_PORT); ("myportname", ACL_MY_PORT_NAME); ("maxconn", ACL_MAXCONN); ("ident", ACL_IDENT);
   ("ident_regex", ACL_IDENT_REGEX); ("type", ACL_TYPE)]%string.

Definition type_names_after_proto : list (string * squid_acl) :=
  [("method", ACL_METHOD); ("browser", ACL_BROWSER); ("referer_regex", ACL_REFERER_REGEX); ("referrer_regex", ACL_REFERER_REGEX);
   ("proxy_auth", ACL_PROXY_AUTH); ("proxy_auth_regex", ACL_PROXY_AUTH_REGEX); ("src_as", ACL_SRC_ASN); ("dst_as", ACL_DST_ASN);
   ("snmp_community", ACL_SNMP_COMMUNITY); ("req_mime_type", ACL_REQ_MIME_TYPE); ("rep_mime_type", ACL_REP_MIME_TYPE);
   ("rep_header", ACL_REP_HEADER); ("req_header", ACL_REQ_HEADER); ("max_user_ip", ACL_MAX_USER_IP); ("external", ACL_EXTERNAL);
   ("urllogin", ACL_URLLOGIN); ("urlgroup", ACL_URLGROUP); ("ext_user", ACL_EXTUSER); ("ext_user_regex", ACL_EXTUSER_REGEX);
   ("hier_code", ACL_HIER_CODE); ("dstfwdip", ACL_DSTFWD_IP); ("any-of", ACL_ANY_OF)]%string.

Fixpoint find_type (l : list (string * squid_acl)) (s : bytes) : option squid_acl :=
  match l with
  | [] => None
  | (n, t) :: l => if bool_decide (s = str n) then Some t else find_type l s
  end.

Definition aclStrToType (s : bytes) : squid_acl :=
  match find_type type_names s with
  | Some t => t
  | None =>
      if bool_decide (take 5 s = str "proto") then ACL_PROTO
      else default ACL_NONE (find_type type_names_after_proto s)
  end.

Definition aclTypeToStr (t : squid_acl) : string :=
  match t with
  | ACL_SRC_IP => "src" | ACL_DST_IP => "dst" | ACL_MY_IP => "myip" | ACL_DST_DOMAIN => "dstdomain" | ACL_SRC_DOMAIN => "srcdomain"
  | ACL_DST_DOM_REGEX => "dstdom_regex" | ACL_SRC_DOM_REGEX => "srcdom_regex" | ACL_TIME => "time"
  | ACL_URLPATH_REGEX => "urlpath_regex" | ACL_URL_REGEX => "url_regex" | ACL_URL_PORT => "port" | ACL_MY_PORT => "myport"
  | ACL_MY_PORT_NAME => "myportname" | ACL_MAXCONN => "maxconn" | ACL_IDENT => "ident" | ACL_IDENT_REGEX => "ident_regex"
  | ACL_TYPE => "type" | ACL_PROTO => "proto" | ACL_METHOD => "method" | ACL_BROWSER => "browser"
  | ACL_REFERER_REGEX => "referer_regex" | ACL_PROXY_AUTH => "proxy_auth" | ACL_PROXY_AUTH_REGEX => "proxy_auth_regex"
  | ACL_SRC_ASN => "src_as" | ACL_DST_ASN => "dst_as" | ACL_SNMP_COMMUNITY => "snmp_community"
  | ACL_REQ_MIME_TYPE => "req_mime_type" | ACL_REP_MIME_TYPE => "rep_mime_type" | ACL_REP_HEADER => "rep_header"
  | ACL_REQ_HEADER => "req_header" | ACL_MAX_USER_IP => "max_user_ip" | ACL_EXTERNAL => "external" | ACL_URLLOGIN => "urllogin"
  | ACL_URLGROUP => "urlgroup" | ACL_EXTUSER => "ext_user" | ACL_EXTUSER_REGEX => "ext_user_regex" | ACL_HIER_CODE => "hier_code"
  | ACL_DSTFWD_IP => "dstfwdip" | ACL_ANY_OF => "any-of" | ACL_NONE => "ERROR"
  end%string.

(** [acl_hdr_data] *)
Record acl_hdr_data := mkHdrData { hdr_name : bytes; hdr_id : Z; reglist : list relist }.
(** [acl_user_ip_data] *)
Record acl_user_ip_data := mkUserIp { max_ip : Z; strict : bool }.
(** A cell of an [acl_list]: [op] is false after "!". *)
Record acl_ref := mkAclRef { op : bool; acl_ix : nat }.

(** [a->data] by the types that use it; [NULL] is the empty tree or list, or
    [None]. *)
Inductive acl_data :=
  | D_ip (t : splayNode acl_ip_data)
  | D_domain (t : splayNode bytes)
  | D_users (u : option acl_user_data)
  | D_regex (l : list relist)
  | D_header (l : list acl_hdr_data)
  | D_time (l : list acl_time_data)
  | D_int (l : list Z)
  | D_range (l : list intrange)
  | D_words (l : list bytes)
  | D_type (t : option acl_request_type)
  | D_user_ip (d : option acl_user_ip_data)
  | D_external (d : option Z)
  | D_any_of (l : list acl_ref).

Record acl := mkAcl { name : bytes; type : squid_acl; data : acl_data }.

(** The data of a new element. *)
Definition null_data (t : squid_acl) : acl_data :=
  match t with
  | ACL_SRC_IP | ACL_DST_IP | ACL_MY_IP | ACL_DSTFWD_IP => D_ip NULL
  | ACL_SRC_DOMAIN | ACL_DST_DOMAIN => D_domain NULL
  | ACL_TIME => D_time []
  | ACL_URL_REGEX | ACL_URLLOGIN | ACL_URLPATH_REGEX | ACL_BROWSER | ACL_REFERER_REGEX | ACL_SRC_DOM_REGEX | ACL_DST_DOM_REGEX
  | ACL_REQ_MIME_TYPE | ACL_REP_MIME_TYPE | ACL_IDENT_REGEX | ACL_PROXY_AUTH_REGEX | ACL_EXTUSER_REGEX => D_regex []
  | ACL_REP_HEADER | ACL_REQ_HEADER => D_header []
  | ACL_SRC_ASN | ACL_MAXCONN | ACL_DST_ASN | ACL_PROTO => D_int []
  | ACL_MAX_USER_IP => D_user_ip None
  | ACL_URL_PORT | ACL_MY_PORT => D_range []
  | ACL_MY_PORT_NAME | ACL_METHOD | ACL_SNMP_COMMUNITY | ACL_HIER_CODE | ACL_URLGROUP | ACL_NONE => D_words []
  | ACL_IDENT | ACL_PROXY_AUTH | ACL_EXTUSER => D_users None
  | ACL_TYPE => D_type None
  | ACL_EXTERNAL => D_external None
  | ACL_ANY_OF => D_any_of []
  end.

(** ** Words *)

(** What the parsers take from outside: the lines of a file as [fgets]
    delivers them, host names, the regular expression compiler, the
    authentication schemes and external helper definitions configured. *)
Record cfg_env := mkEnv {
  fopen : bytes -> option (list bytes);
  gethostbyname : bytes -> option (list Z);
  regcomp : bytes -> bool -> bool;
  authenticateSchemeCount : Z;
  authenticateActiveSchemeCount : Z;
  aclParseExternal : option Z -> bytes -> list bytes -> res (option Z)
}.

Definition skip_space (t : bytes) : bytes := drop (strspn t w_space) t.

(** The end of the last word of a line before a word that begins with "#". *)
Fixpoint line_words (fuel : nat) (t : bytes) : bytes :=
  let n := strcspn t w_space in
  let t2 := drop n t in
  let t3 := skip_space t2 in
  if (deref t3 =? 0) || (deref t3 =? 35) then take n t
  else match fuel with
       | O => t
       | S fuel => take n t ++ take (length t2 - length t3) t2 ++ line_words fuel t3
       end.

(** A line of a file: its words, or nothing for a blank line or a comment. *)
Definition file_line (buf : bytes) : option bytes :=
  let t := skip_space buf in
  let t' := line_words (length t) t in
  if deref t =? 35 then None else if deref t' =? 0 then None else Some t'.

Definition is_quote (c : Z) : bool := (c =? 34) || (c =? 39).

(** The words that the calls of [strtokFile] return until NULL. *)
Fixpoint strtokFile (env : cfg_env) (line : list bytes) : list bytes :=
  match line with
  | [] => []
  | t :: line =>
      if deref t =? 35 then []
      else if is_quote (deref t) then
        let t := tail t in
        let fn := take (span (fun c => negb (is_quote c)) t) t in
        match fopen env fn with
        | None => []
        | Some lines => omap file_line lines ++ strtokFile env line
        end
      else t :: strtokFile env line
  end.

(** ** Numbers *)

Definition xatol (token : bytes) : res Z :=
  let r := strtol token in
  if (st_len r =? 0)%nat || negb (st_len r =? length token)%nat then Exit else Ret (st_val r).

Definition xatoi (token : bytes) : res Z := let? v := xatol token in Ret (wrap_s 32 v).

Definition xatos (token : bytes) : res Z :=
  let? port := xatol token in
  if negb (Z.land port (Z.lnot 65535) =? 0) then Exit else Ret port.

(** [intlistAddTail] appends after the last cell of the list it is given; the
    loop before it has run off the end, so that its [Tail] is NULL: the values
    are linked to each other but only a list that was empty gets them. *)
Fixpoint int_values (env : cfg_env) (toks : list bytes) : res (list Z) :=
  match toks with
  | [] => Ret []
  | t :: toks => let? i := xatoi t in let? l := int_values env toks in Ret (i :: l)
  end.

Definition aclParseIntlist (env : cfg_env) (head : list Z) (toks : list bytes) : res (list Z) :=
  let? l := int_values env toks in
  Ret (match head with [] => l | _ => head end).

Definition aclParseProtoList (head : list Z) (toks : list bytes) : res (list Z) :=
  let l := map urlParseProtocol toks in
  Ret (match head with [] => l | _ => head end).

Definition port_range (a : bytes) : res intrange :=
  match strchr a 45 with
  | Some b =>
      let? port1 := xatos (upto a 45) in
      let? port2 := xatos (tail b) in
      if port1 <=? port2 then Ret (mkRange port1 port2) else Exit
  | None => let? port1 := xatos a in Ret (mkRange port1 port1)
  end.

Fixpoint aclParsePortRange (l : list intrange) (toks : list bytes) : res (list intrange) :=
  match toks with
  | [] => Ret l
  | a :: toks => let? q := port_range a in aclParsePortRange (l ++ [q]) toks
  end.

(** ** Request types, words, users *)

Fixpoint aclParseType (type : acl_request_type) (toks : list bytes) : res acl_request_type :=
  match toks with
  | [] => Ret type
  | t :: toks =>
      if bool_decide (t = str "accelerated") then aclParseType (mkType true (transparent type) (internal type)) toks
      else if bool_decide (t = str "accel") then aclParseType (mkType true (transparent type) (internal type)) toks
      else if bool_decide (t = str "transparent") then aclParseType (mkType (accelerated type) true (internal type)) toks
      else if bool_decide (t = str "internal") then aclParseType (mkType (accelerated type) (transparent type) true) toks
      else if bool_decide (t = str "auth") then aclParseType (mkType (accelerated type) (transparent type) true) toks
      else Exit
  end.

Definition aclParseWordList (l toks : list bytes) : list bytes := l ++ toks.

Definition user_insert (ci : bool) (Top : splayNode bytes) (t : bytes) : res (splayNode bytes) :=
  let? (Top, _) := of_option (splay_insert strcmp (if ci then map tolower t else t) Top) in Ret Top.

Fixpoint user_loop (ci : bool) (Top : splayNode bytes) (toks : list bytes) : res (splayNode bytes) :=
  match toks with
  | [] => Ret Top
  | t :: toks => let? Top := user_insert ci Top t in user_loop ci Top toks
  end.

Definition users_empty : acl_user_data := mkUsers NULL false false.

Definition aclParseUserList (current : option acl_user_data) (toks : list bytes) : res (option acl_user_data) :=
  let data := default users_empty current in
  match toks with
  | [] => Ret (Some data)
  | t :: toks =>
      let ci := case_insensitive data || bool_decide (t = str "-i") in
      let rq := required data || bool_decide (t = str "REQUIRED") in
      let? Top := if bool_decide (t = str "-i") || bool_decide (t = str "REQUIRED") then Ret (names data)
                  else user_insert ci (names data) t in
      let? Top := user_loop ci Top toks in
      Ret (Some (mkUsers Top ci rq))
  end.

Definition aclParseUserMaxIP (data : option acl_user_ip_data) (toks : list bytes) : res (option acl_user_ip_data) :=
  match data with
  | Some _ => Ret data
  | None =>
      match toks with
      | [] => Exit
      | t :: toks =>
          if bool_decide (t = str "-s") then
            match toks with
            | [] => Exit
            | t :: _ => let? m := xatoi t in Ret (Some (mkUserIp m true))
            end
          else let? m := xatoi t in Ret (Some (mkUserIp m false))
      end
  end.

(** ** Regular expressions and header fields *)

Fixpoint regex_loop (env : cfg_env) (icase : bool) (toks : list bytes) : list relist :=
  match toks with
  | [] => []
  | t :: toks =>
      if bool_decide (t = str "-i") then regex_loop env true toks
      else if bool_decide (t = str "+i") then regex_loop env false toks
      else if negb (regcomp env t icase) then regex_loop env icase toks   (* a message *)
      else mkRe t icase :: regex_loop env icase toks
  end.

Definition aclParseRegexList (env : cfg_env) (l : list relist) (toks : list bytes) : list relist :=
  l ++ regex_loop env false toks.

Definition aclParseHeader (env : cfg_env) (hd : list acl_hdr_data) (toks : list bytes) : list acl_hdr_data :=
  match toks with
  | [] => hd
  | t :: toks =>
      let reglist := aclParseRegexList env [] toks in
      if bool_decide (reglist = []) then hd
      else hd ++ [mkHdrData t (HttpHeader.httpHeaderIdByNameDef t (Z.of_nat (length t))) reglist]
  end.

(** ** Times *)

Definition ACL_SUNDAY : Z := 1.
Definition ACL_MONDAY : Z := 2.
Definition ACL_TUESDAY : Z := 4.
Definition ACL_WEDNESDAY : Z := 8.
Definition ACL_THURSDAY : Z := 16.
Definition ACL_FRIDAY : Z := 32.
Definition ACL_SATURDAY : Z := 64.
Definition ACL_ALLWEEK : Z := 127.
Definition ACL_WEEKDAYS : Z := 62.

Definition day_bits (c : Z) : res Z :=
  if c =? 83 then Ret ACL_SUNDAY else if c =? 77 then Ret ACL_MONDAY else if c =? 84 then Ret ACL_TUESDAY
  else if c =? 87 then Ret ACL_WEDNESDAY else if c =? 72 then Ret ACL_THURSDAY else if c =? 70 then Ret ACL_FRIDAY
  else if c =? 65 then Ret ACL_SATURDAY else if c =? 68 then Ret ACL_WEEKDAYS else if c =? 45 then Ret 0
  else Exit.

Fixpoint day_spec (weekbits : Z) (t : bytes) : res Z :=
  match t with
  | [] => Ret weekbits
  | c :: t => let? b := day_bits c in day_spec (Z.lor weekbits b) t
  end.

(** [sscanf] of "%d" followed by a literal, for each character of [seps], and
    a last "%d": the values read and the rest. *)
Fixpoint scan_ints (seps : bytes) (s : bytes) : list Z * bytes :=
  let r := strtol s in
  if (st_len r =? 0)%nat then ([], s)
  else
    let v := wrap_s 32 (st_val r) in
    let s := drop (st_len r) s in
    match seps with
    | [] => ([v], s)
    | c :: seps =>
        match s with
        | d :: s' => if d =? c then let '(l, s) := scan_ints seps s' in (v :: l, s) else ([v], s)
        | [] => ([v], s)
        end
    end.

Definition time_range (weekbits : Z) (t : bytes) : res acl_time_data :=
  match fst (scan_ints (str ":-:") t) with
  | [h1; m1; h2; m2] =>
      if ((0 <=? h1) && (h1 <? 24)) && (((0 <=? h2) && (h2 <? 24)) || ((h2 =? 24) && (m2 =? 0))) &&
         ((0 <=? m1) && (m1 <? 60)) && ((0 <=? m2) && (m2 <? 60)) then
        let start := h1 * 60 + m1 in
        let stop := h2 * 60 + m2 in
        if stop <? start then Exit
        else Ret (mkTime (if weekbits =? 0 then ACL_ALLWEEK else weekbits) start stop)
      else Exit
  | _ => Exit
  end.

Fixpoint time_loop (weekbits : Z) (l : list acl_time_data) (toks : list bytes) : res (list acl_time_data) :=
  match toks with
  | [] => Ret (if weekbits =? 0 then l else l ++ [mkTime weekbits 0 1440])
  | t :: toks =>
      if (deref t <? 48) || (57 <? deref t) then
        let? weekbits := day_spec weekbits t in time_loop weekbits l toks
      else
        let? q := time_range weekbits t in time_loop 0 (l ++ [q]) toks
  end.

Definition aclParseTimeSpec (l : list acl_time_data) (toks : list bytes) : res (list acl_time_data) := time_loop 0 l toks.

(** ** Addresses *)

(** lib/safe_inet_addr.c; [inet_addr] is given four numbers printed in
    decimal. *)
Definition safe_inet_addr (buf : bytes) : option Z :=
  match scan_ints (str "...") buf with
  | ([a1; a2; a3; a4], []) =>
      if (a1 <? 0) || (255 <? a1) then None
      else if (a2 <? 0) || (255 <? a2) then None
      else if (a3 <? 0) || (255 <? a3) then None
      else if (a4 <? 0) || (255 <? a4) then None
      else Some (ip a1 a2 a3 a4)
  | _ => None
  end.

(** [Ret None]: not a valid address. *)
Definition decode_addr (asc : bytes) : res (option Z) :=
  match fst (scan_ints (str "...") asc) with
  | [_; _; _; _] => match safe_inet_addr asc with Some a => Ret (Some a) | None => Exit end
  | [a1] =>
      if (0 <=? a1) && (a1 <? 33) then
        Ret (Some (if a1 =? 0 then 0 else wrap_u 32 (Z.shiftl 4294967295 (32 - a1))))
      else Ret None
  | _ => Ret None
  end.

Definition is_addr_char (c : Z) : bool := isdigit c || (c =? 46).

(** [%[0123456789.]]: the bytes stored, at least one, and the rest. *)
Definition scan_set (f : Z -> bool) (s : bytes) : option (bytes * bytes) :=
  let n := span f s in
  if (n =? 0)%nat then None else Some (take n s, drop n s).

(** The conversions store to arrays of 256 bytes. *)
Definition fits256 (s : bytes) : bool := Z.of_nat (length s) <? 256.

(** What the scans of [aclParseIpData] leave in [addr1], [addr2] and [mask],
    or the host name. *)
Inductive ip_scan := Scan (a1 a2 m : bytes) | ScanHost (h : bytes) | ScanBad.

(** "%[^/]/%s" and "%s"; the words have no white space before their first
    character. *)
Definition scan_host (t : bytes) : option ip_scan :=
  match scan_set (fun c => negb (c =? 47)) t with
  | Some (a1, 47 :: m) =>
      assert? fits256 a1 in
      let m := drop (span isspace m) m in
      let m := take (span (fun c => negb (isspace c)) m) m in
      assert? fits256 m in
      if bool_decide (m = []) then
        let h := take (span (fun c => negb (isspace c)) t) t in
        assert? fits256 h in Some (ScanHost h)
      else Some (Scan a1 [] m)
  | Some (a1, _) =>
      assert? fits256 a1 in Some (ScanHost (take (span (fun c => negb (isspace c)) t) t))
  | None =>
      let h := take (span (fun c => negb (isspace c)) t) t in
      assert? fits256 h in
      if bool_decide (h = []) then Some ScanBad else Some (ScanHost h)
  end.

Definition scan_ip (t : bytes) : option ip_scan :=
  match scan_set is_addr_char t with
  | None => scan_host t
  | Some (a1, rest) =>
      assert? fits256 a1 in
      match rest with
      | [] => Some (Scan a1 [] [])                                        (* SCAN_ACL4 *)
      | 45 :: rest =>
          match scan_set is_addr_char rest with
          | None => scan_host t
          | Some (a2, rest) =>
              assert? fits256 a2 in
              match rest with
              | [] => Some (Scan a1 a2 [])                                (* SCAN_ACL2 *)
              | 47 :: rest =>
                  match scan_set is_addr_char rest with
                  | Some (m, _) => assert? fits256 m in Some (Scan a1 a2 m)   (* SCAN_ACL1 *)
                  | None => scan_host t
                  end
              | _ => scan_host t
              end
          end
      | 47 :: rest =>
          match scan_set is_addr_char rest with
          | Some (m, _) => assert? fits256 m in Some (Scan a1 [] m)           (* SCAN_ACL3 *)
          | None => scan_host t
          end
      | _ => scan_host t
      end
  end.

Definition ip_zero : acl_ip_data := mkIp 0 0 NO_ADDR.

Definition aclParseIpData (env : cfg_env) (t : bytes) : res (list acl_ip_data) :=
  if strcaseeq t (str "all") then Ret [mkIp 0 0 0]
  else
    let? sc := of_option (scan_ip t) in
    match sc with
    | ScanBad => Ret []
    | ScanHost h =>
        match gethostbyname env h with
        | None => Ret []
        | Some [] => Ret [ip_zero]
        | Some l => Ret (map (fun a => mkIp a 0 NO_ADDR) l)
        end
    | Scan a1 a2 m =>
        let? q1 := decode_addr a1 in
        match q1 with
        | None => Ret []
        | Some q1 =>
            let? q2 := if bool_decide (a2 = []) then Ret (Some 0) else decode_addr a2 in
            match q2 with
            | None => Ret []
            | Some q2 =>
                let? qm := if bool_decide (m = []) then Ret (Some NO_ADDR) else decode_addr m in
                match qm with
                | None => Ret []
                | Some qm => Ret [mkIp (Z.land q1 qm) (Z.land q2 qm) qm]
                end
            end
        end
    end.

Fixpoint ip_insert_list (l : list acl_ip_data) (Top : splayNode acl_ip_data) : res (splayNode acl_ip_data) :=
  match l with
  | [] => Ret Top
  | q :: l => let? Top := of_option (ip_insert q Top) in ip_insert_list l Top
  end.

Fixpoint aclParseIpList (env : cfg_env) (Top : splayNode acl_ip_data) (toks : list bytes) : res (splayNode acl_ip_data) :=
  match toks with
  | [] => Ret Top
  | t :: toks =>
      let? l := aclParseIpData env t in
      let? Top := ip_insert_list l Top in
      aclParseIpList env Top toks
  end.

Fixpoint aclParseDomainList (Top : splayNode bytes) (toks : list bytes) : res (splayNode bytes) :=
  match toks with
  | [] => Ret Top
  | t :: toks =>
      let? (Top, _) := of_option (splay_insert_p aclDomainCompare (map tolower t) Top) in
      aclParseDomainList Top toks
  end.

(** ** Lists of elements *)

Fixpoint find_loop (l : list acl) (n : bytes) (i : nat) : option nat :=
  match l with
  | [] => None
  | a :: l => if strcaseeq (name a) n then Some i else find_loop l n (S i)
  end.

Definition aclFindByName (aclList : list acl) (n : bytes) : option nat := find_loop aclList n 0.

(** The cells that [aclParseAclList] and [aclParseAnyOfList] link; a name that
    is not defined ends the process. *)
Fixpoint acl_refs (aclList : list acl) (line : list bytes) : res (list acl_ref) :=
  match line with
  | [] => Ret []
  | t :: line =>
      let neg := deref t =? 33 in
      let t := if neg then tail t else t in
      match aclFindByName aclList t with
      | None => Exit
      | Some a => let? l := acl_refs aclList line in Ret (mkAclRef (negb neg) a :: l)
      end
  end.

(** The first cell is stored to [*head], whatever was there. *)
Definition aclParseAclList (aclList : list acl) (head : list acl_ref) (line : list bytes) : res (list acl_ref) :=
  let? l := acl_refs aclList line in Ret (match l with [] => head | _ => l end).

Definition aclParseAnyOfList (aclList : list acl) (curlist : list acl_ref) (line : list bytes) : res (list acl_ref) :=
  let? l := acl_refs aclList line in Ret (match l with [] => curlist | _ => l end).

Definition ACL_NAME_SZ : Z := 32.

(** The [switch] of [aclParseAclLine]. *)
Definition parse_data (env : cfg_env) (aclList : list acl) (t : squid_acl) (n : bytes) (d : acl_data) (line : list bytes) : res acl_data :=
  let toks := strtokFile env line in
  match t, d with
  | (ACL_SRC_IP | ACL_DST_IP | ACL_MY_IP | ACL_DSTFWD_IP), D_ip Top => let? x := aclParseIpList env Top toks in Ret (D_ip x)
  | (ACL_SRC_DOMAIN | ACL_DST_DOMAIN), D_domain Top => let? x := aclParseDomainList Top toks in Ret (D_domain x)
  | ACL_TIME, D_time l => let? x := aclParseTimeSpec l toks in Ret (D_time x)
  | (ACL_URL_REGEX | ACL_URLLOGIN | ACL_URLPATH_REGEX | ACL_BROWSER | ACL_REFERER_REGEX | ACL_SRC_DOM_REGEX | ACL_DST_DOM_REGEX
    | ACL_REQ_MIME_TYPE | ACL_REP_MIME_TYPE | ACL_IDENT_REGEX | ACL_EXTUSER_REGEX), D_regex l => Ret (D_regex (aclParseRegexList env l toks))
  | ACL_PROXY_AUTH_REGEX, D_regex l =>
      if authenticateSchemeCount env =? 0 then Exit
      else if authenticateActiveSchemeCount env =? 0 then Exit
      else Ret (D_regex (aclParseRegexList env l toks))
  | (ACL_REP_HEADER | ACL_REQ_HEADER), D_header l => Ret (D_header (aclParseHeader env l toks))
  | (ACL_SRC_ASN | ACL_MAXCONN | ACL_DST_ASN), D_int l => let? x := aclParseIntlist env l toks in Ret (D_int x)
  | ACL_PROTO, D_int l => let? x := aclParseProtoList l toks in Ret (D_int x)
  | ACL_MAX_USER_IP, D_user_ip u => let? x := aclParseUserMaxIP u toks in Ret (D_user_ip x)
  | (ACL_URL_PORT | ACL_MY_PORT), D_range l => let? x := aclParsePortRange l toks in Ret (D_range x)
  | (ACL_MY_PORT_NAME | ACL_METHOD | ACL_SNMP_COMMUNITY | ACL_HIER_CODE | ACL_URLGROUP), D_words l => Ret (D_words (aclParseWordList l toks))
  | (ACL_IDENT | ACL_EXTUSER), D_users u => let? x := aclParseUserList u toks in Ret (D_users x)
  | ACL_PROXY_AUTH, D_users u =>
      if authenticateSchemeCount env =? 0 then Exit
      else if authenticateActiveSchemeCount env =? 0 then Exit
      else let? x := aclParseUserList u toks in Ret (D_users x)
  | ACL_TYPE, D_type u => let? x := aclParseType (default (mkType false false false) u) toks in Ret (D_type (Some x))
  | ACL_EXTERNAL, D_external e => let? x := aclParseExternal env e n line in Ret (D_external x)
  | ACL_ANY_OF, D_any_of l => let? x := aclParseAnyOfList aclList l line in Ret (D_any_of x)
  | _, _ => Undef
  end.

Definition aclParseAclLine (env : cfg_env) (aclList : list acl) (line : list bytes) : res (list acl) :=
  match line with
  | [] => Exit
  | aclname :: line =>
      if ACL_NAME_SZ <=? Z.of_nat (length aclname) then Exit
      else
        match line with
        | [] => Exit
        | t :: line =>
            let acltype := aclStrToType t in
            if bool_decide (acltype = ACL_NONE) then Exit
            else
              match aclFindByName aclList aclname with
              | None =>
                  let? d := parse_data env aclList acltype aclname (null_data acltype) line in
                  Ret (aclList ++ [mkAcl aclname acltype d])
              | Some i =>
                  match aclList !! i with
                  | None => Undef
                  | Some A =>
                      if negb (bool_decide (acltype = type A)) then Exit
                      else
                        let? d := parse_data env aclList acltype (name A) (data A) line in
                        Ret (<[i := mkAcl (name A) (type A) d]> aclList)
                  end
              end
        end
  end.

Fixpoint parse_acl_lines (env : cfg_env) (aclList : list acl) (lines : list (list bytes)) : res (list acl) :=
  match lines with
  | [] => Ret aclList
  | line :: lines => let? aclList := aclParseAclLine env aclList line in parse_acl_lines env aclList lines
  end.

(** ** Rules *)

Record acl_access := mkAccess { allow : bool; acl_list : list acl_ref }.

Definition aclParseAccessLine (aclList : list acl) (head : list acl_access) (line : list bytes) : res (list acl_access) :=
  match line with
  | [] => Ret head
  | t :: line =>
      if negb (bool_decide (t = str "allow") || bool_decide (t = str "deny")) then Ret head
      else
        let? l := aclParseAclList aclList [] line in
        match l with
        | [] => Ret head
        | _ => Ret (head ++ [mkAccess (bool_decide (t = str "allow")) l])
        end
  end.

Definition aclIsProxyAuth (externalAclRequiresAuth : option Z -> bool) (aclList : list acl) (n : option bytes) : bool :=
  match n with
  | None => false
  | Some n =>
      match aclFindByName aclList n with
      | None => false
      | Some i =>
          match aclList !! i with
          | Some (mkAcl _ (ACL_PROXY_AUTH | ACL_PROXY_AUTH_REGEX) _) => true
          | Some (mkAcl _ ACL_EXTERNAL (D_external e)) => externalAclRequiresAuth e
          | _ => false
          end
      end
  end.

(** [acl_deny_info_list]: the page and the names of elements. *)
Record acl_deny_info := mkDeny { err_page_id : Z; err_page_name : bytes; deny_acls : list bytes }.

Definition aclParseDenyInfoLine (errorReservePageId : bytes -> Z) (head : list acl_deny_info) (line : list bytes) : list acl_deny_info :=
  match line with
  | [] => head
  | t :: line =>
      match line with
      | [] => head
      | _ => head ++ [mkDeny (errorReservePageId t) t (map (fun n => xstrncpy n ACL_NAME_SZ) line)]
      end
  end.

Definition ERR_NONE : Z := 0.

Fixpoint aclGetDenyInfoPage (l : list acl_deny_info) (n : bytes) (redirect_allowed : bool) : Z :=
  match l with
  | [] => ERR_NONE
  | A :: l =>
      if negb redirect_allowed && is_some (strchr (err_page_name A) 58) then aclGetDenyInfoPage l n redirect_allowed
      else if existsb (fun k => bool_decide (n = k)) (deny_acls A) then err_page_id A
      else aclGetDenyInfoPage l n redirect_allowed
  end.

(** Whether a rule refers to an element of type "method" with the word PURGE. *)
Definition aclPurgeMethodInUse (aclList : list acl) (a : list acl_access) : bool :=
  existsb (fun A => existsb (fun b =>
    match aclList !! acl_ix b with
    | Some (mkAcl _ ACL_METHOD (D_words l)) => aclMatchWordList l (str "PURGE")
    | _ => false
    end) (acl_list A)) a.

(** ** Printing the configuration *)

(** [inet_ntoa] *)
Definition inet_ntoa (a : Z) : bytes :=
  dec (a / 16777216) ++ [46] ++ dec (a / 65536 mod 256) ++ [46] ++ dec (a / 256 mod 256) ++ [46] ++ dec (a mod 256).

Definition aclDumpIpListWalkee (q : acl_ip_data) : bytes :=
  inet_ntoa (addr1 q) ++ (if negb (addr2 q =? 0) then 45 :: inet_ntoa (addr2 q) else []) ++
  (if negb (mask q =? NO_ADDR) then 47 :: inet_ntoa (mask q) else []).

(** [None] for the tree of an element without values, which [splay_walk]
    reads. *)
Definition aclDumpIpList (t : splayNode acl_ip_data) : option (list bytes) :=
  splay_walk (fun q w => w ++ [aclDumpIpListWalkee q]) t [].

Definition aclDumpDomainList (t : splayNode bytes) : option (list bytes) := splay_walk (fun d w => w ++ [d]) t [].

Definition aclDumpUserList (u : acl_user_data) : option (list bytes) :=
  let wl := if case_insensitive u then [str "-i"] else [] in
  if required u then Some (wl ++ [str "REQUIRED"])
  else if is_null (names u) then Some wl
  else splay_walk (fun n w => w ++ [n]) (names u) wl.

(** "%02d" of a number that is not negative. *)
Definition dec2 (n : Z) : bytes := if n <? 10 then 48 :: dec n else dec n.

Definition time_word (t : acl_time_data) : bytes :=
  let day bit c := if Z.land (weekbits t) bit =? 0 then 45 else c in
  [day ACL_SUNDAY 83; day ACL_MONDAY 77; day ACL_TUESDAY 84; day ACL_WEDNESDAY 87; day ACL_THURSDAY 72; day ACL_FRIDAY 70; day ACL_SATURDAY 65]
  ++ [32] ++ dec2 (start t / 60) ++ [58] ++ dec2 (start t mod 60) ++ [45] ++ dec2 (stop t / 60) ++ [58] ++ dec2 (stop t mod 60).

Definition aclDumpTimeSpecList (l : list acl_time_data) : list bytes := map (fun t => snprintf 128 (time_word t)) l.
Definition aclDumpRegexList (l : list relist) : list bytes := map pattern l.
Definition aclDumpIntlistList (l : list Z) : list bytes := map (fun i => snprintf 32 (print_int i)) l.
Definition range_word (r : intrange) : bytes :=
  if ir_i r =? ir_j r then snprintf 32 (print_int (ir_i r)) else snprintf 32 (print_int (ir_i r) ++ [45] ++ print_int (ir_j r)).
Definition aclDumpIntRangeList (l : list intrange) : list bytes := map range_word l.
Definition aclDumpProtoList (l : list Z) : option (list bytes) := mapM (fun i => ProtocolStr !! Z.to_nat i) l.
Definition aclDumpType (t : acl_request_type) : list bytes :=
  (if accelerated t then [str "accelerated"] else []) ++ (if internal t then [str "internal"] else []) ++
  (if transparent t then [str "transparent"] else []).
Definition aclDumpHeader (l : list acl_hdr_data) : list bytes :=
  map (fun h => hdr_name h ++ concat (map (fun r => 32 :: pattern r) (reglist h))) l.
Definition aclDumpUserMaxIP (d : acl_user_ip_data) : list bytes :=
  (if strict d then [str "-s"] else []) ++ [dec (wrap_u 64 (max_ip d))].

(** ** Examples *)

Definition env0 : cfg_env := mkEnv (fun _ => None) (fun _ => None) (fun _ _ => true) 1 1 (fun d _ _ => Ret d).
Definition words (l : list string) : list bytes := map str l.

Example ex_acl_lines :
  match parse_acl_lines env0 [] [words ["local"; "src"; "10.0.0.0/8"; "192.168.1.1-192.168.1.9"; "all"]; words ["safe"; "port"; "80"; "1025-65535"];
      words ["either"; "any-of"; "local"; "!safe"]] with
  | Ret [mkAcl _ ACL_SRC_IP (D_ip t); mkAcl _ ACL_URL_PORT (D_range r); mkAcl _ ACL_ANY_OF (D_any_of l)] =>
      aclDumpIpList t = Some (words ["10.0.0.0/255.0.0.0"; "192.168.1.1-192.168.1.9"]) /\
      aclDumpIntRangeList r = words ["80"; "1025-65535"] /\ l = [mkAclRef true 0; mkAclRef false 1]
  | _ => False
  end.
Proof. vm_compute. auto. Qed.

Example ex_times :
  aclParseTimeSpec [] (words ["MTW"; "09:00-17:30"; "A"]) = Ret [mkTime 14 540 1050; mkTime 64 0 1440].
Proof. done. Qed.

End AclParse.
