(* ===== verification/Acl.v ===== *)
(** * Access checks: the evaluation of rules in src/acl.c

    A check runs over the rules of an access list in order.  [aclCheckFast]
    answers at once; [aclCheck] suspends itself when an element needs a name
    or address that is not cached, an ident or an authentication, and is run
    again by the callback of that lookup.

    The elements, whose trees and lists are rearranged by every match, are a
    store shared by all checks.  What other components know at the time of a
    run (the address caches, the client table, the authentication modules, the
    helpers) is the parameter [aclenv]; a check that was suspended continues
    with what is known then. *)

From Stdlib Require Import ZArith Lia Sorted Ascii String.
From stdpp Require Import base strings list numbers option functions.
From S2P Require Import Prelude CStr StrList Splay HttpHeaderType HttpHeader HttpMethod Rfc1738 Url AclData AclParse.
Import Splay Url AclData AclParse.

Module Acl.

(** ** Checklists *)

(** The parts of [checklist->state] in use, by the element type that indexes
    them. *)
Inductive slot := S_DST_IP | S_DST_ASN | S_SRC_DOMAIN | S_DST_DOMAIN | S_PROXY_AUTH | S_IDENT | S_EXTERNAL.

#[export] Instance slot_eq_dec : EqDecision slot.
Proof. solve_decision. Defined.

Inductive acl_lookup_state := ACL_LOOKUP_NONE | ACL_LOOKUP_NEEDED | ACL_LOOKUP_PENDING | ACL_LOOKUP_DONE | ACL_PROXY_AUTH_NEEDED.

#[export] Instance acl_lookup_state_eq_dec : EqDecision acl_lookup_state.
Proof. solve_decision. Defined.

(** What an element looks at in a request. *)
Record acl_request := mkRequest {
  url : request_t;
  header : HttpHeader.HttpHeader;
  flags : acl_request_type;
  client_addr : Z;
  rq_my_addr : Z;
  rq_my_port : Z;
  urlgroup : option bytes;
  extacl_user : option bytes;
  hier_code : Z
}.

(** [conn]: the name of its port, if it has one, and the ident result. *)
Record conn_view := mkConn { port_name : option bytes; conn_rfc931 : bytes }.

(** The fields of [aclCheck_t]; [access_list] is kept by the check itself. *)
Record aclCheck_t := mkCheck {
  src_addr : Z;
  my_addr : Z;
  fwdip_addr : Z;
  my_port : Z;
  request : option acl_request;
  reply : option HttpHeader.HttpHeader;
  conn : option conn_view;
  rfc931 : bytes;
  snmp_community : bytes;
  auth_user_request : bool;             (** not NULL *)
  state : slot -> acl_lookup_state;
  current_acl : option nat
}.

Definition set_state (s : slot) (v : acl_lookup_state) (c : aclCheck_t) : aclCheck_t :=
  mkCheck (src_addr c) (my_addr c) (fwdip_addr c) (my_port c) (request c) (reply c) (conn c) (rfc931 c) (snmp_community c)
    (auth_user_request c) (<[s := v]> (state c)) (current_acl c).
Definition set_current (a : option nat) (c : aclCheck_t) : aclCheck_t :=
  mkCheck (src_addr c) (my_addr c) (fwdip_addr c) (my_port c) (request c) (reply c) (conn c) (rfc931 c) (snmp_community c)
    (auth_user_request c) (state c) a.
Definition set_auth (b : bool) (c : aclCheck_t) : aclCheck_t :=
  mkCheck (src_addr c) (my_addr c) (fwdip_addr c) (my_port c) (request c) (reply c) (conn c) (rfc931 c) (snmp_community c)
    b (state c) (current_acl c).
Definition set_ident (s : bytes) (cn : option conn_view) (c : aclCheck_t) : aclCheck_t :=
  mkCheck (src_addr c) (my_addr c) (fwdip_addr c) (my_port c) (request c) (reply c) cn s (snmp_community c)
    (auth_user_request c) (state c) (current_acl c).
Definition set_addrs (src my port : Z) (c : aclCheck_t) : aclCheck_t :=
  mkCheck src my (fwdip_addr c) port (request c) (reply c) (conn c) (rfc931 c) (snmp_community c)
    (auth_user_request c) (state c) (current_acl c).

(** ** The other components during a run *)

Inductive auth_acl_t := AUTH_ACL_CHALLENGE | AUTH_ACL_HELPER | AUTH_ACL_CANNOT_AUTHENTICATE | AUTH_AUTHENTICATED.

(** The external helpers' cache (src/external_acl.c) has an answer for the
    request, or a lookup is needed. *)
Inductive ext_answer := E_answer (r : Z) | E_lookup.

Record aclenv := mkAclEnv {
  regexec : relist -> bytes -> bool;
  localtime : Z -> tm;
  squid_curtime : Z;
  ipcache_gethostbyname : bytes -> option (list Z);
  ipcacheCheckNumeric : bytes -> option Z;             (** its first address *)
  fqdncache_gethostbyaddr : Z -> option bytes;
  clientdbEstablished : Z -> Z;
  asnMatchIp4 : list Z -> Z -> bool;
  authenticate : Z -> auth_acl_t * bool;               (** by header field; the second part: [auth_user_request] is left set *)
  authUsername : option bytes;                         (** of [request->auth_user_request] *)
  externalAclRequiresAuth : option Z -> bool;
  external_cache : option Z -> ext_answer
}.

(** The state that a run changes: the elements, the static variables of
    [aclMatchTime], the results cached with the authenticated user and the
    addresses he came from, and the checklist. *)
Record st := mkSt {
  acls : list acl;
  times : time_cache;
  proxy_match_cache : list (nat * Z);
  user_ips : list Z;
  ck : aclCheck_t
}.

Definition set_ck (c : aclCheck_t) (σ : st) : st := mkSt (acls σ) (times σ) (proxy_match_cache σ) (user_ips σ) c.
Definition set_data (i : nat) (d : acl_data) (σ : st) : st :=
  mkSt (alter (fun a => mkAcl (name a) (type a) d) i (acls σ)) (times σ) (proxy_match_cache σ) (user_ips σ) (ck σ).
Definition set_times (t : time_cache) (σ : st) : st := mkSt (acls σ) t (proxy_match_cache σ) (user_ips σ) (ck σ).
Definition set_cache (l : list (nat * Z)) (σ : st) : st := mkSt (acls σ) (times σ) l (user_ips σ) (ck σ).
Definition set_ips (l : list Z) (σ : st) : st := mkSt (acls σ) (times σ) (proxy_match_cache σ) l (ck σ).
Definition need (s : slot) (σ : st) : st := set_ck (set_state s ACL_LOOKUP_NEEDED (ck σ)) σ.

Definition bz (b : bool) : Z := if b then 1 else 0.

(** ** Matching one element *)

Section run.
Context (E : aclenv).

(** A match in the data of element [i]. *)
Definition m_ip (i : nat) (t : splayNode acl_ip_data) (c : Z) (σ : st) : option (Z * st) :=
  let? (t, b) := aclMatchIp t c in Some (bz b, set_data i (D_ip t) σ).
Definition m_domain (i : nat) (t : splayNode bytes) (h : option bytes) (σ : st) : option (Z * st) :=
  let? (t, b) := aclMatchDomainList t h in Some (bz b, set_data i (D_domain t) σ).
Definition m_regex (i : nat) (l : list relist) (w : option bytes) (σ : st) : option (Z * st) :=
  let '(l, b) := aclMatchRegex (regexec E) l w in Some (bz b, set_data i (D_regex l) σ).
Definition m_user (i : nat) (u : option acl_user_data) (w : option bytes) (σ : st) : option (Z * st) :=
  let? u := u in let? (u, b) := aclMatchUser u w in Some (bz b, set_data i (D_users (Some u)) σ).
Definition m_range (i : nat) (l : list intrange) (n : Z) (σ : st) : option (Z * st) :=
  let '(l, b) := aclMatchIntegerRange l n in Some (bz b, set_data i (D_range l) σ).

(** The loop over the addresses of a host. *)
Fixpoint ip_loop (i : nat) (t : splayNode acl_ip_data) (addrs : list Z) (σ : st) : option (Z * st) :=
  match addrs with
  | [] => Some (0, set_data i (D_ip t) σ)
  | a :: addrs =>
      let? (t, b) := aclMatchIp t a in
      if (b : bool) then Some (1, set_data i (D_ip t) σ) else ip_loop i t addrs σ
  end.

Fixpoint aclMatchHeader_loop (seen hdrs : list acl_hdr_data) (hdr : HttpHeader.HttpHeader) : option (list acl_hdr_data * bool) :=
  match hdrs with
  | [] => Some (seen, false)
  | hd :: hdrs =>
      let? h := if negb (hdr_id hd =? -1) then HttpHeader.httpHeaderGetStrOrList hdr (hdr_id hd)
                else HttpHeader.httpHeaderGetByName hdr (hdr_name hd) in
      match (h : option bytes) with
      | None => aclMatchHeader_loop (seen ++ [hd]) hdrs hdr
      | Some h =>
          let '(l, b) := aclMatchRegex (regexec E) (reglist hd) (Some h) in
          let hd := mkHdrData (hdr_name hd) (hdr_id hd) l in
          if b then Some (seen ++ hd :: hdrs, true) else aclMatchHeader_loop (seen ++ [hd]) hdrs hdr
      end
  end.

Definition aclMatchHeader (hdrs : list acl_hdr_data) (hdr : HttpHeader.HttpHeader) : option (list acl_hdr_data * bool) :=
  aclMatchHeader_loop [] hdrs hdr.

Definition m_header (i : nat) (l : list acl_hdr_data) (hdr : HttpHeader.HttpHeader) (σ : st) : option (Z * st) :=
  let? (l, b) := aclMatchHeader l hdr in Some (bz b, set_data i (D_header l) σ).

(** ** Authentication *)

Definition aclAuthenticated (σ : st) : option (Z * st) :=
  let c := ck σ in
  match request c with
  | None => Some (-1, σ)
  | Some r =>
      if negb (accelerated (flags r)) && transparent (flags r) then Some (-1, σ)
      else
        let '(a, keep) := authenticate E (if accelerated (flags r) then HttpHeaderType.HDR_AUTHORIZATION else HttpHeaderType.HDR_PROXY_AUTHORIZATION) in
        let c := set_auth keep c in
        match a with
        | AUTH_ACL_CANNOT_AUTHENTICATE => Some (0, set_ck c σ)
        | AUTH_AUTHENTICATED => Some (1, set_ck (set_auth false c) σ)
        | AUTH_ACL_HELPER => Some (-1, set_ck (set_state S_PROXY_AUTH ACL_LOOKUP_NEEDED c) σ)
        | AUTH_ACL_CHALLENGE => Some (-1, set_ck (set_state S_PROXY_AUTH ACL_PROXY_AUTH_NEEDED c) σ)
        end
  end.

Fixpoint cache_find (l : list (nat * Z)) (i : nat) : option Z :=
  match l with [] => None | (k, v) :: l => if (k =? i)%nat then Some v else cache_find l i end.

(** [aclMatchProxyAuth] and [aclCacheMatchAcl]: the result for the user is
    kept with him. *)
Definition aclCacheMatchAcl (i : nat) (d : acl_data) (σ : st) : option (Z * st) :=
  match cache_find (proxy_match_cache σ) i with
  | Some v => Some (v, σ)
  | None =>
      let? (v, σ) := match d with
                     | D_users u => m_user i u (authUsername E) σ
                     | D_regex l => m_regex i l (authUsername E) σ
                     | _ => None
                     end in
      Some (v, set_cache (proxy_match_cache σ ++ [(i, v)]) σ)
  end.

(** [authenticateAuthUserRequestRemoveIp]: the first entry of the address. *)
Fixpoint remove_ip (l : list Z) (a : Z) : list Z :=
  match l with [] => [] | x :: l => if x =? a then l else x :: remove_ip l a end.

Definition aclMatchUserMaxIP (d : acl_user_ip_data) (src : Z) (σ : st) : Z * st :=
  if Z.of_nat (length (user_ips σ)) <=? max_ip d then (0, σ)
  else if strict d then (1, set_ips (remove_ip (user_ips σ) src) σ)
  else (1, set_ips [] σ).

(** [aclMatchExternal] of src/external_acl.c.  The search in the cache of the
    helper's answers, the entry that a finished lookup left in the check, the
    load of the helper and the answer -1 when it is overloaded are one
    parameter: an answer, or a lookup that is needed.  The name, password and
    log text that an answer carries are stored in the request for logging and
    for elements of type ext_user; this is not modelled, so that ext_user
    elements see the name that the request had before the check. *)
Definition aclMatchExternal (d : option Z) (σ : st) : option (Z * st) :=
  let? (ti, σ) := if externalAclRequiresAuth E d then aclAuthenticated σ else Some (1, σ) in
  if negb (ti =? 1) then Some (ti, σ)
  else match external_cache E d with
       | E_answer v => Some (v, σ)
       | E_lookup => Some (-1, need S_EXTERNAL σ)
       end.

(** ** The types *)

(** The first [switch] of [aclMatchAcl]. *)
Definition requires_request (t : squid_acl) : bool :=
  match t with
  | ACL_BROWSER | ACL_REFERER_REGEX | ACL_DST_ASN | ACL_DST_DOMAIN | ACL_DST_DOM_REGEX | ACL_DST_IP | ACL_MAX_USER_IP | ACL_METHOD
  | ACL_TYPE | ACL_PROTO | ACL_PROXY_AUTH | ACL_PROXY_AUTH_REGEX | ACL_REQ_MIME_TYPE | ACL_REQ_HEADER | ACL_URLPATH_REGEX
  | ACL_URL_PORT | ACL_URL_REGEX | ACL_URLLOGIN | ACL_HIER_CODE => true
  | _ => false
  end.

(** A name that is not known yet: [s] is asked for once, later on the name is
    "none". *)
Definition no_name (s : slot) (m : option bytes -> st -> option (Z * st)) (σ : st) : option (Z * st) :=
  if bool_decide (state (ck σ) s = ACL_LOOKUP_NONE) then Some (0, need s σ) else m (Some (str "none")) σ.

(** The name of the address of a client. *)
Definition src_name (m : option bytes -> st -> option (Z * st)) (σ : st) : option (Z * st) :=
  match fqdncache_gethostbyaddr E (src_addr (ck σ)) with
  | Some fqdn => m (Some fqdn) σ
  | None => no_name S_SRC_DOMAIN m σ
  end.

(** The host of the URL, and then its name when it is an address.  [m] is the
    match with the data the element has at that time. *)
Definition dst_name (host : bytes) (m : option bytes -> st -> option (Z * st)) (σ : st) : option (Z * st) :=
  let? (k, σ) := m (Some host) σ in
  if negb (k =? 0) then Some (1, σ)
  else
    match ipcacheCheckNumeric E host with
    | None => Some (0, σ)
    | Some a =>
        match fqdncache_gethostbyaddr E a with
        | Some fqdn => m (Some fqdn) σ
        | None => no_name S_DST_DOMAIN m σ
        end
    end.

(** Matches with the current data of element [i]. *)
Definition at_domain (i : nat) (h : option bytes) (σ : st) : option (Z * st) :=
  match acls σ !! i with Some (mkAcl _ _ (D_domain t)) => m_domain i t h σ | _ => None end.
Definition at_regex (i : nat) (w : option bytes) (σ : st) : option (Z * st) :=
  match acls σ !! i with Some (mkAcl _ _ (D_regex l)) => m_regex i l w σ | _ => None end.

(** An URL part that is unescaped before it is matched. *)
Definition unescaped (i : nat) (w : option bytes) (σ : st) : option (Z * st) :=
  let? w := w in let? b := Rfc1738.rfc1738_unescape (w ++ [0]) in at_regex i (Some (StrList.cstr_of b)) σ.

Definition ident_name (m : option bytes -> st -> option (Z * st)) (σ : st) : option (Z * st) :=
  let c := ck σ in
  if negb (bool_decide (rfc931 c = [])) then m (Some (rfc931 c)) σ
  else match conn c with
       | Some cn => if negb (bool_decide (conn_rfc931 cn = [])) then m (Some (conn_rfc931 cn)) σ else Some (0, need S_IDENT σ)
       | None => Some (0, need S_IDENT σ)
       end.

Definition hier_strings : list bytes :=
  map str ["NONE"; "DIRECT"; "SIBLING_HIT"; "PARENT_HIT"; "DEFAULT_PARENT"; "SINGLE_PARENT"; "FIRST_UP_PARENT"; "FIRST_PARENT_MISS";
           "CLOSEST_PARENT_MISS"; "CLOSEST_PARENT"; "CLOSEST_DIRECT"; "NO_DIRECT_FAIL"; "SOURCE_FASTEST"; "ROUNDROBIN_PARENT";
           "CD_PARENT_HIT"; "CD_SIBLING_HIT"; "CARP"; "ANY_PARENT"; "USERHASH_PARENT"; "SOURCEHASH_PARENT"; "PINNED"; "INVALID CODE"].

(** The second [switch] of [aclMatchAcl] but for [ACL_ANY_OF]; [r] is
    [checklist->request]. *)
Definition match_type (i : nat) (ae : acl) (σ : st) : option (Z * st) :=
  let c := ck σ in
  match type ae, data ae with
  | ACL_SRC_IP, D_ip t => m_ip i t (src_addr c) σ
  | ACL_MY_IP, D_ip t => m_ip i t (my_addr c) σ
  | ACL_DST_IP, D_ip t =>
      let? r := request c in
      match ipcache_gethostbyname E (host (url r)) with
      | Some ia => ip_loop i t ia σ
      | None => if bool_decide (state c S_DST_IP = ACL_LOOKUP_NONE) then Some (0, need S_DST_IP σ) else Some (0, σ)
      end
  | ACL_DST_DOMAIN, D_domain _ => let? r := request c in dst_name (host (url r)) (at_domain i) σ
  | ACL_SRC_DOMAIN, D_domain _ => src_name (at_domain i) σ
  | ACL_DST_DOM_REGEX, D_regex _ => let? r := request c in dst_name (host (url r)) (at_regex i) σ
  | ACL_SRC_DOM_REGEX, D_regex _ => src_name (at_regex i) σ
  | ACL_TIME, D_time l =>
      let? (t, b) := aclMatchTime (localtime E) (times σ) l (squid_curtime E) in Some (bz b, set_times t σ)
  | ACL_URLPATH_REGEX, D_regex _ => let? r := request c in unescaped i (Some (urlpath (url r))) σ
  | ACL_URL_REGEX, D_regex _ => let? r := request c in unescaped i (urlCanonical (url r)) σ
  | ACL_URLLOGIN, D_regex _ => let? r := request c in unescaped i (Some (login (url r))) σ
  | ACL_MAXCONN, D_int l => let? m := head l in Some (bz (m <? clientdbEstablished E (src_addr c)), σ)
  | ACL_URL_PORT, D_range l => let? r := request c in m_range i l (port (url r)) σ
  | ACL_MY_PORT, D_range l => m_range i l (my_port c) σ
  | ACL_MY_PORT_NAME, D_words l =>
      match conn c with
      | None => Some (0, σ)
      | Some cn => match port_name cn with None => Some (0, σ) | Some n => Some (bz (aclMatchWordList l n), σ) end
      end
  | ACL_IDENT, D_users u => ident_name (m_user i u) σ
  | ACL_IDENT_REGEX, D_regex l => ident_name (m_regex i l) σ
  | ACL_TYPE, D_type t => let? r := request c in let? t := t in Some (bz (aclMatchType t (flags r)), σ)
  | ACL_PROTO, D_int l =>
      let? r := request c in
      let '(l, b) := aclMatchInteger l (protocol (url r)) in Some (bz b, set_data i (D_int l) σ)
  | ACL_METHOD, D_words l =>
      let? r := request c in Some (bz (aclMatchWordListInsensitive l (HttpMethod.urlMethodGetConstStr (Some (rmethod (url r))))), σ)
  | ACL_BROWSER, D_regex l =>
      let? r := request c in
      let? v := HttpHeader.httpHeaderGetStr (header r) HttpHeaderType.HDR_USER_AGENT in
      match v with None => Some (0, σ) | Some _ => m_regex i l v σ end
  | ACL_REFERER_REGEX, D_regex l =>
      let? r := request c in
      let? v := HttpHeader.httpHeaderGetStr (header r) HttpHeaderType.HDR_REFERER in
      match v with None => Some (0, σ) | Some _ => m_regex i l v σ end
  | (ACL_PROXY_AUTH | ACL_PROXY_AUTH_REGEX), d =>
      let? (ti, σ) := aclAuthenticated σ in
      if negb (ti =? 1) then Some (ti, σ) else aclCacheMatchAcl i d σ
  | ACL_MAX_USER_IP, D_user_ip d =>
      let? (ti, σ) := aclAuthenticated σ in
      if negb (ti =? 1) then Some (ti, σ) else let? d := d in Some (aclMatchUserMaxIP d (src_addr c) σ)
  | ACL_SNMP_COMMUNITY, D_words l => Some (bz (aclMatchWordList l (snmp_community c)), σ)
  | ACL_SRC_ASN, D_int l => Some (bz (asnMatchIp4 E l (src_addr c)), σ)
  | ACL_DST_ASN, D_int l =>
      let? r := request c in
      match ipcache_gethostbyname E (host (url r)) with
      | Some ia => Some (bz (existsb (asnMatchIp4 E l) ia), σ)
      | None => if bool_decide (state c S_DST_ASN = ACL_LOOKUP_NONE) then Some (0, need S_DST_ASN σ)
                else Some (bz (asnMatchIp4 E l NO_ADDR), σ)
      end
  | ACL_REQ_MIME_TYPE, D_regex l =>
      let? r := request c in
      let? v := HttpHeader.httpHeaderGetStr (header r) HttpHeaderType.HDR_CONTENT_TYPE in m_regex i l (Some (default [] v)) σ
  | ACL_REP_MIME_TYPE, D_regex l =>
      match reply c with
      | None => Some (0, σ)
      | Some h => let? v := HttpHeader.httpHeaderGetStr h HttpHeaderType.HDR_CONTENT_TYPE in m_regex i l (Some (default [] v)) σ
      end
  | ACL_REP_HEADER, D_header l => match reply c with None => Some (0, σ) | Some h => m_header i l h σ end
  | ACL_REQ_HEADER, D_header l => let? r := request c in m_header i l (header r) σ
  | ACL_EXTERNAL, D_external d => aclMatchExternal d σ
  | ACL_URLGROUP, D_words l =>
      let? r := request c in match urlgroup r with None => Some (0, σ) | Some g => Some (bz (aclMatchWordList l g), σ) end
  | ACL_EXTUSER, D_users u =>
      let? r := request c in match extacl_user r with None => Some (-1, σ) | Some n => m_user i u (Some n) σ end
  | ACL_EXTUSER_REGEX, D_regex l =>
      let? r := request c in match extacl_user r with None => Some (-1, σ) | Some n => m_regex i l (Some n) σ end
  | ACL_HIER_CODE, D_words l =>
      let? r := request c in let? s := hier_strings !! Z.to_nat (hier_code r) in Some (bz (aclMatchWordList l s), σ)
  | ACL_DSTFWD_IP, D_ip t => if fwdip_addr c =? 0 then Some (-1, σ) else m_ip i t (fwdip_addr c) σ
  | ACL_NONE, _ => Some (0, σ)
  | _, _ => None
  end.

Definition op_z (b : bool) : Z := if b then 1 else 0.

(** [aclMatchAnyOf] and [aclMatchAclList], [match_acl] being
    [aclMatchAcl]. *)
Fixpoint aclMatchAnyOf (match_acl : nat -> st -> option (Z * st)) (l : list acl_ref) (σ : st) : option (Z * st) :=
  match l with
  | [] => Some (0, σ)
  | x :: l =>
      let? (answer, σ) := match_acl (acl_ix x) (set_ck (set_current (Some (acl_ix x)) (ck σ)) σ) in
      if negb (answer =? op_z (op x)) then aclMatchAnyOf match_acl l σ else Some (1, σ)
  end.

Fixpoint aclMatchAclList_with (match_acl : nat -> st -> option (Z * st)) (l : list acl_ref) (σ : st) : option (Z * st) :=
  match l with
  | [] => Some (1, σ)
  | x :: l =>
      let? (answer, σ) := match_acl (acl_ix x) (set_ck (set_current (Some (acl_ix x)) (ck σ)) σ) in
      if negb (answer =? op_z (op x)) then Some (0, σ) else aclMatchAclList_with match_acl l σ
  end.

(** The depth of the recursion through elements of type "any-of" is bounded
    by the fuel; [None] below it is the overflow of the stack. *)
Fixpoint aclMatchAcl (fuel : nat) (i : nat) (σ : st) : option (Z * st) :=
  match fuel with
  | O => None
  | S fuel =>
      let? ae := acls σ !! i in
      if requires_request (type ae) && negb (is_some (request (ck σ))) then Some (0, σ)
      else
        match type ae, data ae with
        | ACL_ANY_OF, D_any_of l => aclMatchAnyOf (aclMatchAcl fuel) l σ
        | _, _ => match_type i ae σ
        end
  end.

Definition depth (σ : st) : nat := S (length (acls σ)).

Definition aclMatchAclList (l : list acl_ref) (σ : st) : option (Z * st) := aclMatchAclList_with (aclMatchAcl (depth σ)) l σ.

(** ** Checks that answer at once *)

Definition aclCheckCleanup (σ : st) : st := set_ck (set_current None (set_auth false (ck σ))) σ.

Definition aclChecklistCacheInit (σ : st) : st :=
  match request (ck σ) with
  | Some r =>
      if src_addr (ck σ) =? 0 then set_ck (set_addrs (client_addr r) (rq_my_addr r) (rq_my_port r) (ck σ)) σ else σ
  | None => σ
  end.

(** [allow] is that of the last rule seen. *)
Fixpoint fast_loop (A : list acl_access) (last : bool) (σ : st) : option (bool * st) :=
  match A with
  | [] => Some (negb last, aclCheckCleanup σ)
  | a :: A =>
      let? (answer, σ) := aclMatchAclList (acl_list a) σ in
      if negb (answer =? 0) then
        if answer <? 0 then Some (false, σ) else Some (allow a, aclCheckCleanup σ)
      else fast_loop A (allow a) σ
  end.

Definition aclCheckFast (A : list acl_access) (σ : st) : option (bool * st) := fast_loop A false (aclChecklistCacheInit σ).

Definition check_zero (r : option acl_request) : aclCheck_t :=
  mkCheck 0 0 0 0 r None None [] [] false (fun _ => ACL_LOOKUP_NONE) None.

Definition aclCheckFastRequest (A : list acl_access) (r : option acl_request) (σ : st) : option (bool * st) :=
  aclCheckFast A (set_ck (check_zero r) σ).

(** ** Checks that wait for lookups *)

Inductive allow_t := ACCESS_DENIED | ACCESS_ALLOWED | ACCESS_REQ_PROXY_AUTH.

(** A run ends with a lookup under way, with the answer given to the
    callback, or returns without either. *)
Inductive outcome :=
  | Lookup (s : slot) (A : list acl_access)
  | Answer (a : allow_t)
  | Nothing.

(** Which of the objects that a suspended check holds are still good: the
    rules, freed by a reconfiguration, the client connection, and the
    credentials being checked. *)
Record validity := mkValid { rules_valid : bool; conn_valid : bool; user_valid : bool }.

Definition allow_of (b : bool) : allow_t := if b then ACCESS_ALLOWED else ACCESS_DENIED.
Definition is_denied (a : allow_t) : bool := match a with ACCESS_DENIED => true | _ => false end.

Definition needed (s : slot) (σ : st) : bool := bool_decide (state (ck σ) s = ACL_LOOKUP_NEEDED).
Definition pending (s : slot) (σ : st) : st := set_ck (set_state s ACL_LOOKUP_PENDING (ck σ)) σ.

(** What a rule leads to after its match: a lookup or another outcome, or the
    answer and whether the rule matched. *)
Inductive rule_result := Suspend (o : outcome) (σ : st) | Decided (al : allow_t) (m : Z) (σ : st).

Definition rule_lookups (V : validity) (A : list acl_access) (al : allow_t) (m : Z) (σ : st) : option rule_result :=
  if needed S_DST_IP σ then
    let? _ := request (ck σ) in Some (Suspend (Lookup S_DST_IP A) (pending S_DST_IP σ))
  else if needed S_DST_ASN σ then
    let? _ := request (ck σ) in Some (Suspend (Lookup S_DST_ASN A) (pending S_DST_ASN σ))
  else if needed S_SRC_DOMAIN σ then
    Some (Suspend (Lookup S_SRC_DOMAIN A) (pending S_SRC_DOMAIN σ))
  else if needed S_DST_DOMAIN σ then
    let? r := request (ck σ) in
    match ipcacheCheckNumeric E (host (url r)) with
    | None => Some (Suspend Nothing (set_ck (set_state S_DST_DOMAIN ACL_LOOKUP_DONE (ck σ)) σ))
    | Some _ => Some (Suspend (Lookup S_DST_DOMAIN A) (pending S_DST_DOMAIN σ))
    end
  else if needed S_PROXY_AUTH σ then
    assert? auth_user_request (ck σ) in Some (Suspend (Lookup S_PROXY_AUTH A) (pending S_PROXY_AUTH σ))
  else if bool_decide (state (ck σ) S_PROXY_AUTH = ACL_PROXY_AUTH_NEEDED) then Some (Decided ACCESS_REQ_PROXY_AUTH (-1) σ)
  else if needed S_IDENT σ then
    match conn (ck σ) with
    | None => None                       (* cbdataValid(NULL) is true *)
    | Some _ =>
        if conn_valid V then Some (Suspend (Lookup S_IDENT A) (pending S_IDENT σ))
        else Some (Decided ACCESS_DENIED (-1) (set_ck (set_ident (rfc931 (ck σ)) None (ck σ)) σ))
    end
  else if needed S_EXTERNAL σ then
    let? i := current_acl (ck σ) in
    let? a := acls σ !! i in
    assert? bool_decide (type a = ACL_EXTERNAL) in
    Some (Suspend (Lookup S_EXTERNAL A) (pending S_EXTERNAL σ))
  else Some (Decided al m σ).

Fixpoint check_loop (V : validity) (A : list acl_access) (al : allow_t) (σ : st) : option (outcome * st) :=
  let callback a σ := Some (Answer a, aclCheckCleanup σ) in
  let no_match al σ := callback (if is_denied al then ACCESS_ALLOWED else ACCESS_DENIED) σ in
  match A with
  | [] => no_match al σ
  | a :: A' =>
      if negb (rules_valid V) then no_match al σ
      else
        let? (m, σ) := aclMatchAclList (acl_list a) σ in
        let al := if m =? -1 then ACCESS_DENIED else allow_of (allow a) in
        let? r := rule_lookups V A al m σ in
        match r with
        | Suspend o σ => Some (o, σ)
        | Decided al m σ => if negb (m =? 0) then callback al σ else check_loop V A' al σ
        end
  end.

Definition aclCheck (V : validity) (A : list acl_access) (σ : st) : option (outcome * st) := check_loop V A ACCESS_DENIED σ.

Definition aclNBCheck (V : validity) (A : list acl_access) (σ : st) : option (outcome * st) := aclCheck V A (aclChecklistCacheInit σ).

(** The callbacks of the lookups; [ident] is the answer of the ident server. *)
Definition lookup_done (V : validity) (s : slot) (ident : option bytes) (σ : st) : st :=
  match s with
  | S_IDENT =>
      let id := xstrncpy (default (str "-") ident) 64 in
      let cn := match conn (ck σ) with
                | Some cn => if conn_valid V && bool_decide (conn_rfc931 cn = []) then Some (mkConn (port_name cn) (xstrncpy id 64)) else Some cn
                | None => None
                end in
      set_ck (set_ident id cn (ck σ)) σ
  | S_PROXY_AUTH =>
      let c := set_state S_PROXY_AUTH ACL_LOOKUP_DONE (ck σ) in
      set_ck (if negb (user_valid V) || negb (is_some (conn c)) then set_auth false c else c) σ
  | _ => set_ck (set_state s ACL_LOOKUP_DONE (ck σ)) σ
  end.
End run.

(** A whole check: the world at the first run, and at each later one with the
    validity and the ident answer there. *)
Fixpoint check_run (E : aclenv) (V : validity) (A : list acl_access) (σ : st) (later : list (aclenv * validity * option bytes)) : option (outcome * st) :=
  let? (o, σ) := aclCheck E V A σ in
  match o, later with
  | Lookup s A, (E, V, id) :: later => check_run E V A (lookup_done V s id σ) later
  | _, _ => Some (o, σ)
  end.

(** ** Examples and defects *)

Definition no_world : aclenv :=
  mkAclEnv (fun _ _ => false) (fun _ => mkTm 12 0 1) 1000000 (fun _ => None) (fun _ => None) (fun _ => None) (fun _ => 0) (fun _ _ => false)
    (fun _ => (AUTH_ACL_CHALLENGE, false)) None (fun _ => false) (fun _ => E_lookup).
Definition all_valid : validity := mkValid true true true.

Definition st0 (l : list acl) (c : aclCheck_t) : st := mkSt l time_cache_init [] [] c.

Definition from (a : Z) (r : option acl_request) : aclCheck_t :=
  mkCheck a 0 0 0 r None None [] [] false (fun _ => ACL_LOOKUP_NONE) None.

Definition ex_config : list acl :=
  [mkAcl (str "local") ACL_SRC_IP (D_ip (Node NULL (net 10 0 0 0 8) NULL)); mkAcl (str "all") ACL_SRC_IP (D_ip (Node NULL (mkIp 0 0 0) NULL))].

Example ex_fast :
  fst <$> aclCheckFast no_world [mkAccess true [mkAclRef true 0]; mkAccess false [mkAclRef true 1]] (st0 ex_config (from (ip 10 1 1 1) None)) = Some true /\
  fst <$> aclCheckFast no_world [mkAccess true [mkAclRef true 0]; mkAccess false [mkAclRef true 1]] (st0 ex_config (from (ip 11 1 1 1) None)) = Some false.
Proof. by vm_compute. Qed.

(** The rules were freed while a lookup was under way: the comment in
    [aclCheck] says the check answers ACCESS_DENIED, but the answer is that of
    an access list without a match whose last rule denies. *)
Lemma reconfigure_allows E V A σ : rules_valid V = false ->
  aclCheck E V A σ = Some (Answer ACCESS_ALLOWED, aclCheckCleanup σ).
Proof. intros HV. unfold aclCheck. destruct A; cbn [check_loop]; [done|]. by rewrite HV. Qed.

(** An element of type "any-of" goes on after a helper's element that needs a
    lookup, and the assertion on the current element fails. *)
Definition ext_config : list acl :=
  [mkAcl (str "helper") ACL_EXTERNAL (D_external (Some 0)); mkAcl (str "local") ACL_SRC_IP (D_ip (Node NULL (net 10 0 0 0 8) NULL));
   mkAcl (str "either") ACL_ANY_OF (D_any_of [mkAclRef true 0; mkAclRef true 1])].

Lemma any_of_external_assert :
  aclCheck no_world all_valid [mkAccess true [mkAclRef true 2]] (st0 ext_config (from (ip 11 1 1 1) None)) = None /\
  aclCheck no_world all_valid [mkAccess true [mkAclRef true 0]] (st0 ext_config (from (ip 11 1 1 1) None)) <> None.
Proof. split; [by vm_compute|]. intros H. vm_compute in H. discriminate H. Qed.

(** A check without a client connection that needs an ident reads through the
    NULL connection. *)
Lemma ident_without_connection :
  aclCheck no_world all_valid [mkAccess true [mkAclRef true 0]]
    (st0 [mkAcl (str "me") ACL_IDENT (D_users (Some (mkUsers NULL false true)))] (from (ip 10 1 1 1) None)) = None.
Proof. by vm_compute. Qed.

(** An element of type "urlgroup" or "ext_user" in a check without a request
    reads through the NULL request. *)
Lemma urlgroup_without_request :
  aclCheckFast no_world [mkAccess true [mkAclRef true 0]] (st0 [mkAcl (str "g") ACL_URLGROUP (D_words [str "x"])] (from 1 None)) = None.
Proof. by vm_compute. Qed.

(** An element of type "time" or "maxconn" without values, which only gets a
    warning when it is parsed, ends the process at the first check. *)
Lemma empty_element_aborts :
  parse_acl_lines env0 [] [words ["t"; "time"]] = Ret [mkAcl (str "t") ACL_TIME (D_time [])] /\
  aclCheckFast no_world [mkAccess true [mkAclRef true 0]] (st0 [mkAcl (str "t") ACL_TIME (D_time [])] (from 1 None)) = None.
Proof. by vm_compute. Qed.

(** ** Answers of a list of elements *)

(** An element that cannot be evaluated answers -1, which is neither 0 nor 1:
    the rule does not match, also when the element is negated, and the code
    for a list that fails is never reached. *)
Lemma aclMatchAclList_range f l σ m σ' : aclMatchAclList_with f l σ = Some (m, σ') -> m = 0 \/ m = 1.
Proof.
  revert σ. induction l as [|x l IH]; intros σ; cbn [aclMatchAclList_with]; [intros [= <- _]; by right|].
  intros H. inv_opt H. destruct p as [answer σ1]. destruct (negb (answer =? op_z (op x))); [injection H as <- _; by left|]. by eapply IH.
Qed.

(** ** Configurations up to the order that matches leave behind *)

Definition hdr_equiv (a b : acl_hdr_data) : Prop := hdr_name a = hdr_name b /\ hdr_id a = hdr_id b /\ reglist a ≡ₚ reglist b.

Definition users_equiv (u v : acl_user_data) : Prop :=
  users_ok u /\ users_ok v /\ flatten (names u) = flatten (names v) /\ case_insensitive u = case_insensitive v /\ required u = required v.

(** The same values: trees with the same elements, lists up to order.  Numbers
    are reordered for the type "proto" only. *)
Definition data_equiv (t : squid_acl) (d d' : acl_data) : Prop :=
  match d, d' with
  | D_ip a, D_ip b => ip_tree a /\ ip_tree b /\ flatten a = flatten b
  | D_domain a, D_domain b => dom_tree a /\ dom_tree b /\ flatten a = flatten b
  | D_users (Some u), D_users (Some v) => users_equiv u v
  | D_regex l, D_regex k => l ≡ₚ k
  | D_header l, D_header k => Forall2 hdr_equiv l k
  | D_range l, D_range k => l ≡ₚ k
  | D_int l, D_int k => if decide (t = ACL_PROTO) then l ≡ₚ k else l = k
  | _, _ => d = d'
  end.

Definition acl_equiv (a b : acl) : Prop := name a = name b /\ type a = type b /\ data_equiv (type a) (data a) (data b).

Definition time_ok (lt : Z -> tm) (c : time_cache) : Prop := last_when c = 0 \/ last_tm c = lt (last_when c).

(** Strings have no negative bytes, addresses are 32 bits wide. *)
Definition bytes_ok (h : bytes) : Prop := Forall (fun c => 0 <= c) h.

Definition check_ok (c : aclCheck_t) : Prop :=
  is_addr (src_addr c) /\ is_addr (my_addr c) /\ is_addr (fwdip_addr c) /\
  forall r, request c = Some r -> bytes_ok (host (url r)) /\ is_addr (client_addr r) /\ is_addr (rq_my_addr r).

Record env_ok (E : aclenv) : Prop := {
  eo_time : squid_curtime E <> 0;
  eo_host : forall h l, ipcache_gethostbyname E h = Some l -> Forall is_addr l;
  eo_name : forall a n, fqdncache_gethostbyaddr E a = Some n -> bytes_ok n
}.

(** The time of day and the day of the week are in an interval. *)
Definition time_in (t : tm) (d : acl_time_data) : bool :=
  let now := tm_hour t * 60 + tm_min t in
  (start d <=? now) && (now <=? stop d) && negb (Z.land (weekbits d) (Z.shiftl 1 (tm_wday t)) =? 0).

(** The static variables do not matter. *)
Lemma aclMatchTime_val E c l : env_ok E -> time_ok (localtime E) c -> l <> [] ->
  exists c', aclMatchTime (localtime E) c l (squid_curtime E) = Some (c', existsb (time_in (localtime E (squid_curtime E))) l) /\ time_ok (localtime E) c'.
Proof.
  intros HE Hc Hl. unfold aclMatchTime. rewrite bool_decide_false by done. cbn [negb].
  destruct (Z.eqb_spec (squid_curtime E) (last_when c)) as [Ec|]; cbn [negb]; [|eexists; split; [done|by right]].
  exists c. assert (last_tm c = localtime E (squid_curtime E)) as Et; [|by rewrite Et].
  destruct Hc as [Hc|Hc]; [|by rewrite Ec]. by destruct (eo_time E HE); rewrite Ec.
Qed.

Section equiv.
Context (E : aclenv) (HE : env_ok E) (B : list acl).

(** Two states whose elements have the values of the configuration [B]. *)
Record st_equiv (σ σ' : st) : Prop := {
  se_acls1 : Forall2 acl_equiv B (acls σ);
  se_acls2 : Forall2 acl_equiv B (acls σ');
  se_t1 : time_ok (localtime E) (times σ);
  se_t2 : time_ok (localtime E) (times σ');
  se_cache : proxy_match_cache σ = proxy_match_cache σ';
  se_ips : user_ips σ = user_ips σ';
  se_ck : ck σ = ck σ';
  se_ok : check_ok (ck σ)
}.

Definition res_equiv {A} (r r' : option (A * st)) : Prop := option_Forall2 (fun x y => x.1 = y.1 /\ st_equiv x.2 y.2) r r'.

Lemma res_some {A} (z : A) σ σ' : st_equiv σ σ' -> res_equiv (Some (z, σ)) (Some (z, σ')).
Proof. intros H. by constructor. Qed.

Lemma res_bind_equiv {A C} (r r' : option (A * st)) (f f' : A * st -> option (C * st)) :
  res_equiv r r' -> (forall z σ σ', st_equiv σ σ' -> res_equiv (f (z, σ)) (f' (z, σ'))) -> res_equiv (r ≫= f) (r' ≫= f').
Proof. intros [[z σ] [z' σ'] [[= <-] H]|] Hf; [by apply Hf|constructor]. Qed.

Lemma set_ck_equiv c σ σ' : check_ok c -> st_equiv σ σ' -> st_equiv (set_ck c σ) (set_ck c σ').
Proof. intros Hc []. by constructor. Qed.

Lemma need_equiv s σ σ' : st_equiv σ σ' -> st_equiv (need s σ) (need s σ').
Proof. intros H. unfold need. rewrite <- (se_ck _ _ H). apply set_ck_equiv; [|done]. apply (se_ok _ _ H). Qed.

Lemma data_equiv_shape t d d' : data_equiv t d d' ->
  match d, d' with
  | D_ip _, D_ip _ | D_domain _, D_domain _ | D_users _, D_users _ | D_regex _, D_regex _ | D_header _, D_header _ | D_range _, D_range _
  | D_int _, D_int _ => True
  | D_time _, D_time _ | D_words _, D_words _ | D_type _, D_type _ | D_user_ip _, D_user_ip _ | D_external _, D_external _ | D_any_of _, D_any_of _ => d = d'
  | _, _ => False
  end.
Proof. destruct d, d'; cbn; try done; try (by destruct u). Qed.

(** Data for element [i] in the two states. *)
Definition at_base (i : nat) (d d' : acl_data) : Prop :=
  exists b, B !! i = Some b /\ data_equiv (type b) (data b) d /\ data_equiv (type b) (data b) d'.

Lemma set_data_equiv i d d' σ σ' : st_equiv σ σ' -> at_base i d d' -> st_equiv (set_data i d σ) (set_data i d' σ').
Proof.
  intros H (b & Hb & H1 & H2).
  assert (forall l k, Forall2 acl_equiv B l -> data_equiv (type b) (data b) k -> Forall2 acl_equiv B (alter (fun a => mkAcl (name a) (type a) k) i l)) as Hk.
  { intros l k Hl Hk. apply Forall2_same_length_lookup. split; [rewrite length_alter; by eapply Forall2_length|].
    intros j x y Hx Hy. destruct (decide (i = j)) as [->|Hj].
    - rewrite list_lookup_alter, decide_True in Hy by done. destruct (l !! j) as [z|] eqn:Ez; [|done]. injection Hy as <-.
      assert (acl_equiv x z) as (N1 & N2 & _) by (by eapply Forall2_lookup_lr). rewrite Hb in Hx. injection Hx as <-. done.
    - rewrite list_lookup_alter_ne in Hy by done. by eapply Forall2_lookup_lr. }
  destruct H. constructor; try done; cbn; by apply Hk.
Qed.

Lemma at_base_shape i d d' : at_base i d d' ->
  match d, d' with
  | D_ip _, D_ip _ | D_domain _, D_domain _ | D_users _, D_users _ | D_regex _, D_regex _ | D_header _, D_header _ | D_range _, D_range _
  | D_int _, D_int _ | D_time _, D_time _ | D_words _, D_words _ | D_type _, D_type _ | D_user_ip _, D_user_ip _ | D_external _, D_external _
  | D_any_of _, D_any_of _ => True
  | _, _ => False
  end.
Proof.
  intros (b & _ & H1%data_equiv_shape & H2%data_equiv_shape). destruct (data b), d; try (exfalso; exact H1); destruct d'; try (exfalso; exact H2); done.
Qed.

Lemma at_base_ip i t t' : at_base i (D_ip t) (D_ip t') -> ip_tree t /\ ip_tree t' /\ flatten t = flatten t' /\
  forall u u', ip_tree u -> ip_tree u' -> flatten u = flatten t -> flatten u' = flatten t' -> at_base i (D_ip u) (D_ip u').
Proof.
  intros (b & Hb & H1 & H2). destruct b as [n ty d]. cbn [type data] in *. pose proof (data_equiv_shape _ _ _ H1) as Hs. destruct d; try done.
  destruct H1 as (O1 & O2 & F1), H2 as (_ & O3 & F2). split_and!; [done..|congruence|]. intros u u' U1 U2 G1 G2.
  exists (mkAcl n ty (D_ip t0)). cbn. split_and!; try done; congruence.
Qed.

Lemma at_base_domain i t t' : at_base i (D_domain t) (D_domain t') -> dom_tree t /\ dom_tree t' /\ flatten t = flatten t' /\
  forall u u', dom_tree u -> dom_tree u' -> flatten u = flatten t -> flatten u' = flatten t' -> at_base i (D_domain u) (D_domain u').
Proof.
  intros (b & Hb & H1 & H2). destruct b as [n ty d]. cbn [type data] in *. pose proof (data_equiv_shape _ _ _ H1) as Hs. destruct d; try done.
  destruct H1 as (O1 & O2 & F1), H2 as (_ & O3 & F2). split_and!; [done..|congruence|]. intros u u' U1 U2 G1 G2.
  exists (mkAcl n ty (D_domain t0)). cbn. split_and!; try done; congruence.
Qed.

Lemma at_base_regex i l k : at_base i (D_regex l) (D_regex k) -> l ≡ₚ k /\ forall l' k', l' ≡ₚ l -> k' ≡ₚ k -> at_base i (D_regex l') (D_regex k').
Proof.
  intros ([n ty d] & Hb & H1 & H2). cbn [type data] in *. pose proof (data_equiv_shape _ _ _ H1) as Hs. destruct d; try done. cbn in H1, H2.
  split; [by rewrite <- H1|]. intros l' k' Hl Hk. eexists. split; [done|]. cbn. by rewrite Hl, Hk.
Qed.

Lemma at_base_range i l k : at_base i (D_range l) (D_range k) -> l ≡ₚ k /\ forall l' k', l' ≡ₚ l -> k' ≡ₚ k -> at_base i (D_range l') (D_range k').
Proof.
  intros ([n ty d] & Hb & H1 & H2). cbn [type data] in *. pose proof (data_equiv_shape _ _ _ H1) as Hs. destruct d; try done. cbn in H1, H2.
  split; [by rewrite <- H1|]. intros l' k' Hl Hk. eexists. split; [done|]. cbn. by rewrite Hl, Hk.
Qed.

Lemma hdr_equiv_trans l k m : Forall2 hdr_equiv l k -> Forall2 hdr_equiv k m -> Forall2 hdr_equiv l m.
Proof.
  intros H1. revert m. induction H1 as [|x y l k (N1 & N2 & N3) _ IH]; intros m H2; inversion H2 as [|? z ? m' (M1 & M2 & M3)]; subst; constructor; [|by apply IH].
  split_and!; [congruence..|by rewrite N3].
Qed.

Lemma hdr_equiv_sym l k : Forall2 hdr_equiv l k -> Forall2 hdr_equiv k l.
Proof. induction 1 as [|x y l k (N1 & N2 & N3) _ IH]; constructor; [by split_and!|done]. Qed.

Lemma at_base_header i l k : at_base i (D_header l) (D_header k) -> Forall2 hdr_equiv l k /\
  forall l' k', Forall2 hdr_equiv l l' -> Forall2 hdr_equiv k k' -> at_base i (D_header l') (D_header k').
Proof.
  intros ([n ty d] & Hb & H1 & H2). cbn [type data] in *. pose proof (data_equiv_shape _ _ _ H1) as Hs. destruct d; try done. cbn in H1, H2.
  split; [eapply hdr_equiv_trans; [by apply hdr_equiv_sym|done]|]. intros l' k' Hl Hk. eexists. split; [done|]. cbn. split; [exact (hdr_equiv_trans _ _ _ H1 Hl)|exact (hdr_equiv_trans _ _ _ H2 Hk)].
Qed.

Lemma at_base_users i u v : at_base i (D_users u) (D_users v) ->
  match u, v with
  | Some u, Some v => users_equiv u v /\ forall u' v', users_equiv u u' -> users_equiv v v' -> at_base i (D_users (Some u')) (D_users (Some v'))
  | None, None => True
  | _, _ => False
  end.
Proof.
  intros ([n ty d] & Hb & H1 & H2). cbn [type data] in *. pose proof (data_equiv_shape _ _ _ H1) as Hs. destruct d as [| |w| | | | | | | | | |]; try done.
  destruct w as [w|], u as [u|], v as [v|]; try done. cbn in H1, H2. unfold users_equiv in *.
  split; [naive_solver congruence|]. intros u' v' Hu Hv. eexists. split; [done|]. cbn. unfold users_equiv. split; naive_solver congruence.
Qed.

Lemma same_answer b b' (P P' : Prop) : (b = true <-> P) -> (b' = true <-> P') -> (P <-> P') -> b = b'.
Proof. destruct b, b'; naive_solver. Qed.

Lemma m_ip_equiv i t t' c σ σ' : st_equiv σ σ' -> is_addr c -> at_base i (D_ip t) (D_ip t') -> res_equiv (m_ip i t c σ) (m_ip i t' c σ').
Proof.
  intros H Hc (Ht & Ht' & Hf & Hd)%at_base_ip.
  destruct (aclMatchIp_ok t c Ht Hc) as (u & b & E1 & F1 & T1 & B1), (aclMatchIp_ok t' c Ht' Hc) as (u' & b' & E2 & F2 & T2 & B2).
  unfold m_ip. rewrite E1, E2. bind_simpl. assert (b = b') as -> by (eapply same_answer; [done..|by rewrite Hf]).
  apply res_some, set_data_equiv; [done|]. by apply Hd.
Qed.

Lemma domain_dots t h : skip_dots h = [] -> aclMatchDomainList t (Some h) = if is_null t then Some (NULL, false) else None.
Proof.
  intros Hh. unfold aclMatchDomainList, splay_splay_p. destruct t as [|l d r]; [done|]. cbn [splay_visits forallb is_null].
  unfold aclHostDomainCompare at 1. by rewrite matchDomainName_underflow by (by left).
Qed.

Lemma flatten_null {A} (t : splayNode A) : flatten t = [] <-> t = NULL.
Proof. split; [|by intros ->]. destruct t; [done|]. cbn. intros H. by apply app_eq_nil in H as [_ ?]. Qed.

Lemma m_domain_equiv i t t' h σ σ' : st_equiv σ σ' -> bytes_ok h -> at_base i (D_domain t) (D_domain t') ->
  res_equiv (m_domain i t (Some h) σ) (m_domain i t' (Some h) σ').
Proof.
  intros H Hh (Ht & Ht' & Hf & Hb)%at_base_domain. unfold m_domain. destruct (decide (skip_dots h = [])) as [Hd|Hd].
  - rewrite !domain_dots by done. destruct t as [|l x r].
    + symmetry in Hf. apply flatten_null in Hf as ->. cbn. apply res_some, set_data_equiv; [done|]. by apply Hb.
    + destruct t'; [by apply flatten_null in Hf|]. constructor.
  - destruct (aclMatchDomainList_ok t h Ht) as (u & b & E1 & F1 & T1 & B1); [done|].
    destruct (aclMatchDomainList_ok t' h Ht') as (u' & b' & E2 & F2 & T2 & B2); [done|].
    rewrite E1, E2. bind_simpl. assert (b = b') as -> by (eapply same_answer; [done..|by rewrite Hf]).
    apply res_some, set_data_equiv; [done|]. by apply Hb.
Qed.

Lemma match_second_equiv {A} (f : A -> bool) l k : l ≡ₚ k ->
  snd (match_second f l) = snd (match_second f k) /\ fst (match_second f l) ≡ₚ l /\ fst (match_second f k) ≡ₚ k.
Proof.
  intros Hp. destruct (match_second_ok f l) as [-> H1], (match_second_ok f k) as [-> H2]. split; [by apply existsb_perm|done].
Qed.

Lemma aclMatchRegex_equiv l k w : l ≡ₚ k ->
  snd (aclMatchRegex (regexec E) l w) = snd (aclMatchRegex (regexec E) k w) /\
  fst (aclMatchRegex (regexec E) l w) ≡ₚ l /\ fst (aclMatchRegex (regexec E) k w) ≡ₚ k.
Proof. intros Hp. destruct w as [w|]; [by apply match_second_equiv|done]. Qed.

Lemma m_regex_equiv i l k w σ σ' : st_equiv σ σ' -> at_base i (D_regex l) (D_regex k) -> res_equiv (m_regex E i l w σ) (m_regex E i k w σ').
Proof.
  intros H [Hp Hb]%at_base_regex. unfold m_regex. destruct (aclMatchRegex_equiv l k w Hp) as (H1 & H2 & H3).
  destruct (aclMatchRegex _ l w), (aclMatchRegex _ k w). cbn in *. subst. apply res_some, set_data_equiv; [done|]. by apply Hb.
Qed.

Lemma m_range_equiv i l k n σ σ' : st_equiv σ σ' -> at_base i (D_range l) (D_range k) -> res_equiv (m_range i l n σ) (m_range i k n σ').
Proof.
  intros H [Hp Hb]%at_base_range. unfold m_range, aclMatchIntegerRange.
  destruct (match_second_equiv (fun x => negb (n <? ir_i x) && negb (ir_j x <? n)) l k Hp) as (H1 & H2 & H3).
  destruct (match_second _ l), (match_second _ k). cbn in *. subst. apply res_some, set_data_equiv; [done|]. by apply Hb.
Qed.

Lemma m_user_equiv i u v w σ σ' : st_equiv σ σ' -> at_base i (D_users u) (D_users v) -> res_equiv (m_user i u w σ) (m_user i v w σ').
Proof.
  intros H Hd%at_base_users. unfold m_user. destruct u as [u|], v as [v|]; try done; bind_simpl; [|constructor].
  destruct Hd as ((Hu & Hv & Hf & Hc & Hr) & Hb). destruct w as [w|]; cbn; [|by apply res_some, set_data_equiv; [|apply Hb; by split_and!]].
  destruct (aclMatchUser_ok u w Hu) as (u' & b & E1 & O1 & F1 & C1 & R1 & B1), (aclMatchUser_ok v w Hv) as (v' & b' & E2 & O2 & F2 & C2 & R2 & B2).
  cbn in E1, E2. rewrite E1, E2. bind_simpl. assert (b = b') as -> by (eapply same_answer; [done..|unfold user_listed; by rewrite Hf, Hc, Hr]).
  apply res_some, set_data_equiv; [done|]. apply Hb; by split_and!.
Qed.

Lemma ip_loop_equiv i l : forall t t' σ σ', st_equiv σ σ' -> Forall is_addr l -> at_base i (D_ip t) (D_ip t') ->
  res_equiv (ip_loop i t l σ) (ip_loop i t' l σ').
Proof.
  induction l as [|c l IH]; intros t t' σ σ' H Hl Hd; cbn [ip_loop]; [by apply res_some, set_data_equiv|].
  apply List.Forall_cons_iff in Hl as [Hc Hl]. destruct (at_base_ip _ _ _ Hd) as (Ht & Ht' & Hf & Hb).
  destruct (aclMatchIp_ok t c Ht Hc) as (u & b & E1 & F1 & T1 & B1), (aclMatchIp_ok t' c Ht' Hc) as (u' & b' & E2 & F2 & T2 & B2).
  rewrite E1, E2. bind_simpl. assert (b = b') as -> by (eapply same_answer; [done..|by rewrite Hf]).
  specialize (Hb u u' T1 T2 F1 F2). destruct b'; [by apply res_some, set_data_equiv|by apply IH].
Qed.

Lemma hdr_equiv_refl l : Forall2 hdr_equiv l l.
Proof. induction l; constructor; [by split_and!|done]. Qed.

(** The answers agree, and the data keep their values. *)
Lemma header_loop_equiv h l : forall k s s', Forall2 hdr_equiv l k -> Forall2 hdr_equiv s s' ->
  option_Forall2 (fun x y => x.2 = y.2 /\ Forall2 hdr_equiv (s ++ l) x.1 /\ Forall2 hdr_equiv (s' ++ k) y.1)
    (aclMatchHeader_loop E s l h) (aclMatchHeader_loop E s' k h).
Proof.
  assert (forall s a a' l, hdr_equiv a a' -> forall x, Forall2 hdr_equiv ((s ++ [a']) ++ l) x -> Forall2 hdr_equiv (s ++ a :: l) x) as Hcons.
  { intros s a a' l0 Ha x Hx. eapply hdr_equiv_trans; [|exact Hx]. rewrite <- app_assoc. apply Forall2_app; [apply hdr_equiv_refl|].
    constructor; [done|apply hdr_equiv_refl]. }
  induction l as [|a l IH]; intros k s s' Hl Hs.
  { apply Forall2_nil_inv_l in Hl as ->. cbn. rewrite !app_nil_r. constructor. split_and!; [done|apply hdr_equiv_refl..]. }
  apply Forall2_cons_inv_l in Hl as (b & k' & (Hn & Hi & Hr) & Hl & ->). cbn [aclMatchHeader_loop]. rewrite Hn, Hi.
  assert (forall a' b', hdr_equiv a a' -> hdr_equiv b b' -> hdr_equiv a' b' ->
    option_Forall2 (fun x y => x.2 = y.2 /\ Forall2 hdr_equiv (s ++ a :: l) x.1 /\ Forall2 hdr_equiv (s' ++ b :: k') y.1)
      (aclMatchHeader_loop E (s ++ [a']) l h) (aclMatchHeader_loop E (s' ++ [b']) k' h)) as Hgo.
  { intros a' b' Ha Hb Hab. pose proof (IH k' (s ++ [a']) (s' ++ [b']) Hl) as Hq.
    destruct Hq as [x y (Q1 & Q2 & Q3)|]; [by apply Forall2_app; [|constructor; [|constructor]]| |constructor].
    constructor. split_and!; [done|by apply (Hcons s a a')|by apply (Hcons s' b b')]. }
  destruct (if negb (hdr_id b =? -1) then _ else _) as [[v|]|]; bind_simpl; [|by apply Hgo; split_and!|constructor].
  destruct (aclMatchRegex_equiv (reglist a) (reglist b) (Some v) Hr) as (H1 & H2 & H3).
  destruct (aclMatchRegex _ (reglist a) _) as [la ba], (aclMatchRegex _ (reglist b) _) as [lb bb]. cbn in H1, H2, H3. subst bb.
  assert (la ≡ₚ lb) as H4 by (by rewrite H2, H3). destruct ba; [|by apply Hgo; split_and!].
  constructor. split_and!; [done|..]; (apply Forall2_app; [apply hdr_equiv_refl|]); (constructor; [by split_and!|apply hdr_equiv_refl]).
Qed.

Lemma m_header_equiv i l k h σ σ' : st_equiv σ σ' -> at_base i (D_header l) (D_header k) -> res_equiv (m_header E i l h σ) (m_header E i k h σ').
Proof.
  intros H [Hl Hb]%at_base_header. unfold m_header, aclMatchHeader. pose proof (header_loop_equiv h l k [] [] Hl (Forall2_nil _)) as Hq.
  destruct Hq as [[x b] [y b'] (Q1 & Q2 & Q3)|]; cbn in *; [subst|constructor].
  apply res_some, set_data_equiv; [done|]. by apply Hb.
Qed.

(** The data of an element in the two states. *)
Lemma lookup_base i σ σ' : st_equiv σ σ' ->
  match acls σ !! i, acls σ' !! i with
  | Some a, Some b => type a = type b /\ at_base i (data a) (data b) /\
      match data a, data b with
      | D_ip _, D_ip _ | D_domain _, D_domain _ | D_users _, D_users _ | D_regex _, D_regex _ | D_header _, D_header _ | D_range _, D_range _ => True
      | D_int l, D_int k => if decide (type a = ACL_PROTO) then l ≡ₚ k else l = k
      | D_time _, D_time _ | D_words _, D_words _ | D_type _, D_type _ | D_user_ip _, D_user_ip _ | D_external _, D_external _
      | D_any_of _, D_any_of _ => data a = data b
      | _, _ => False
      end
  | None, None => True
  | _, _ => False
  end.
Proof.
  intros H. pose proof (proj1 (Forall2_lookup _ _ _) (se_acls1 _ _ H) i) as H1. pose proof (proj1 (Forall2_lookup _ _ _) (se_acls2 _ _ H) i) as H2.
  destruct (B !! i) as [b|] eqn:Eb; inversion H1 as [? x (N1 & N2 & N3)|]; inversion H2 as [? y (M1 & M2 & M3)|]; subst; try done.
  split; [congruence|]. split; [exists b; by split_and!|].
  pose proof (data_equiv_shape _ _ _ N3) as S1. pose proof (data_equiv_shape _ _ _ M3) as S2. rewrite <- N2.
  destruct (data b), (data x); try (exfalso; exact S1); destruct (data y); try (exfalso; exact S2); try done; try congruence.
  cbn in N3, M3. case_decide; [by rewrite <- N3|congruence].
Qed.

Lemma at_domain_equiv i h σ σ' : bytes_ok h -> st_equiv σ σ' -> res_equiv (at_domain i (Some h) σ) (at_domain i (Some h) σ').
Proof.
  intros Hh H. unfold at_domain. pose proof (lookup_base i σ σ' H) as Hb. destruct (acls σ !! i) as [[n t d]|], (acls σ' !! i) as [[n' t' d']|]; try done; [|constructor].
  cbn in Hb. destruct Hb as (_ & Hb & Hs). destruct d, d'; try (exfalso; exact Hs); try constructor. by apply m_domain_equiv.
Qed.

Lemma at_regex_equiv i w σ σ' : st_equiv σ σ' -> res_equiv (at_regex E i w σ) (at_regex E i w σ').
Proof.
  intros H. unfold at_regex. pose proof (lookup_base i σ σ' H) as Hb. destruct (acls σ !! i) as [[n t d]|], (acls σ' !! i) as [[n' t' d']|]; try done; [|constructor].
  cbn in Hb. destruct Hb as (_ & Hb & Hs). destruct d, d'; try (exfalso; exact Hs); try constructor. by apply m_regex_equiv.
Qed.

(** A match of names that respects the equivalence. *)
Definition name_match (m m' : option bytes -> st -> option (Z * st)) : Prop :=
  forall h σ σ', bytes_ok h -> st_equiv σ σ' -> res_equiv (m (Some h) σ) (m' (Some h) σ').

Lemma no_name_equiv s m m' σ σ' : name_match m m' -> st_equiv σ σ' -> res_equiv (no_name s m σ) (no_name s m' σ').
Proof.
  intros Hm H. unfold no_name. rewrite <- (se_ck _ _ H). case_bool_decide; [by apply res_some, need_equiv|]. apply Hm; [|done].
  repeat constructor; lia.
Qed.

Lemma src_name_equiv m m' σ σ' : name_match m m' -> st_equiv σ σ' -> res_equiv (src_name E m σ) (src_name E m' σ').
Proof.
  intros Hm H. unfold src_name. rewrite <- (se_ck _ _ H). destruct (fqdncache_gethostbyaddr E _) eqn:Ef; [|by apply no_name_equiv].
  apply Hm; [|done]. by apply (eo_name E HE) in Ef.
Qed.

Lemma dst_name_equiv host m m' σ σ' : bytes_ok host -> name_match m m' -> st_equiv σ σ' ->
  res_equiv (dst_name E host m σ) (dst_name E host m' σ').
Proof.
  intros Hh Hm H. unfold dst_name. apply res_bind_equiv; [by apply Hm|]. intros z τ τ' Ht. cbn.
  destruct (z =? 0); cbn; [|by apply res_some]. destruct (ipcacheCheckNumeric E host); [|by apply res_some].
  destruct (fqdncache_gethostbyaddr E _) eqn:Ef; [|by apply no_name_equiv]. apply Hm; [|done]. by apply (eo_name E HE) in Ef.
Qed.

Lemma unescaped_equiv i w σ σ' : st_equiv σ σ' -> res_equiv (unescaped E i w σ) (unescaped E i w σ').
Proof. intros H. unfold unescaped. destruct w as [w|]; bind_simpl; [|constructor]. destruct (Rfc1738.rfc1738_unescape _); bind_simpl; [by apply at_regex_equiv|constructor]. Qed.

Lemma ident_name_equiv m m' σ σ' : (forall w σ σ', st_equiv σ σ' -> res_equiv (m (Some w) σ) (m' (Some w) σ')) -> st_equiv σ σ' ->
  res_equiv (ident_name m σ) (ident_name m' σ').
Proof.
  intros Hm H. unfold ident_name. rewrite <- (se_ck _ _ H). destruct (negb _); [by apply Hm|].
  destruct (conn (ck σ)) as [cn|]; [destruct (negb _); [by apply Hm|]|]; by apply res_some, need_equiv.
Qed.

Lemma aclAuthenticated_equiv σ σ' : st_equiv σ σ' -> res_equiv (aclAuthenticated E σ) (aclAuthenticated E σ').
Proof.
  intros H. unfold aclAuthenticated. rewrite <- (se_ck _ _ H). destruct (request (ck σ)); [|by apply res_some].
  destruct (negb _ && _); [by apply res_some|]. destruct (authenticate E _) as [[] k];
    apply res_some, set_ck_equiv; try done; apply (se_ok _ _ H).
Qed.

Lemma aclCacheMatchAcl_equiv i d d' σ σ' : at_base i d d' -> st_equiv σ σ' ->
  res_equiv (aclCacheMatchAcl E i d σ) (aclCacheMatchAcl E i d' σ').
Proof.
  intros Hd H. unfold aclCacheMatchAcl. rewrite <- (se_cache _ _ H). destruct (cache_find _ i); [by apply res_some|].
  assert (forall (r r' : option (Z * st)), res_equiv r r' -> res_equiv
    (let? (v, σ) := r in Some (v, set_cache (proxy_match_cache σ ++ [(i, v)]) σ))
    (let? (v, σ) := r' in Some (v, set_cache (proxy_match_cache σ ++ [(i, v)]) σ))) as Hb.
  { intros r r' Hr. apply res_bind_equiv; [done|]. intros z τ τ' []. apply res_some. constructor; cbn; try done. congruence. }
  apply Hb. pose proof (at_base_shape _ _ _ Hd) as Hs. destruct d, d'; try (exfalso; exact Hs); try constructor; [by apply m_user_equiv|by apply m_regex_equiv].
Qed.

Lemma aclMatchExternal_equiv d σ σ' : st_equiv σ σ' -> res_equiv (aclMatchExternal E d σ) (aclMatchExternal E d σ').
Proof.
  intros H. unfold aclMatchExternal. apply res_bind_equiv.
  - destruct (externalAclRequiresAuth E d); [by apply aclAuthenticated_equiv|by apply res_some].
  - intros z τ τ' Ht. cbn. destruct (z =? 1); cbn; [|by apply res_some]. destruct (external_cache E d); [by apply res_some|].
    by apply res_some, need_equiv.
Qed.

Lemma aclMatchTime_equiv l σ σ' : st_equiv σ σ' ->
  res_equiv (let? (t, b) := aclMatchTime (localtime E) (times σ) l (squid_curtime E) in Some (bz b, set_times t σ))
    (let? (t, b) := aclMatchTime (localtime E) (times σ') l (squid_curtime E) in Some (bz b, set_times t σ')).
Proof.
  intros H. destruct (decide (l = [])) as [->|Hl]; [constructor|].
  destruct (aclMatchTime_val E _ l HE (se_t1 _ _ H) Hl) as (c1 & -> & T1), (aclMatchTime_val E _ l HE (se_t2 _ _ H) Hl) as (c2 & -> & T2).
  apply res_some. destruct H. by constructor.
Qed.

Lemma set_ips_equiv l σ σ' : st_equiv σ σ' -> st_equiv (set_ips l σ) (set_ips l σ').
Proof. intros []. by constructor. Qed.

Lemma aclMatchUserMaxIP_equiv d a σ σ' : st_equiv σ σ' ->
  res_equiv (Some (aclMatchUserMaxIP d a σ)) (Some (aclMatchUserMaxIP d a σ')).
Proof.
  intros H. unfold aclMatchUserMaxIP. rewrite <- (se_ips _ _ H). case_ifs; apply res_some; [done|..]; by apply set_ips_equiv.
Qed.


Lemma none_equiv {A} : res_equiv (A := A) None None.
Proof. constructor. Qed.

(** With the request at hand. *)
Lemma request_equiv (o : option acl_request) (f g : acl_request -> option (Z * st)) :
  (forall r, o = Some r -> res_equiv (f r) (g r)) -> res_equiv (o ≫= f) (o ≫= g).
Proof. intros Hf. destruct o as [r|]; [by apply Hf|constructor]. Qed.

Lemma opt_equiv {A} (o : option A) (f g : A -> option (Z * st)) : (forall x, res_equiv (f x) (g x)) -> res_equiv (o ≫= f) (o ≫= g).
Proof. intros Hf. destruct o as [r|]; [by apply Hf|constructor]. Qed.

Lemma match_type_equiv i a b σ σ' : st_equiv σ σ' -> acls σ !! i = Some a -> acls σ' !! i = Some b ->
  res_equiv (match_type E i a σ) (match_type E i b σ').
Proof.
  intros H Ha Hb. pose proof (lookup_base i σ σ' H) as Hl. rewrite Ha, Hb in Hl. destruct a as [n t d], b as [n' t' d']. cbn [type data] in Hl.
  destruct Hl as (<- & Hd & Hs). unfold match_type. cbn [type data]. rewrite <- (se_ck _ _ H).
  destruct (se_ok _ _ H) as (A1 & A2 & A3 & A4).
  destruct d, d'; try (exfalso; exact Hs); try injection Hs as <-; destruct t; try exact none_equiv; try (apply res_some; exact H).
  all: try (rewrite decide_False in Hs by discriminate; subst).
  all: try (apply request_equiv; intros r Hr; destruct (A4 r Hr) as (B1 & B2 & B3)).
  all: try (apply res_bind_equiv; [by apply aclAuthenticated_equiv|]; intros z τ τ' Hτ; destruct (z =? 1); cbn [negb]; [|by apply res_some];
    first [by apply aclCacheMatchAcl_equiv | by apply opt_equiv; intros ?; apply aclMatchUserMaxIP_equiv]).
  all: try first [by apply m_ip_equiv | by apply m_regex_equiv | by apply m_range_equiv | by apply m_header_equiv | by apply m_user_equiv
    | by apply unescaped_equiv | by apply aclMatchTime_equiv | by apply aclMatchExternal_equiv
    | by apply dst_name_equiv; [|intros h τ τ' ? ?; apply at_domain_equiv|] | by apply src_name_equiv; [intros h τ τ' ? ?; apply at_domain_equiv|]
    | by apply dst_name_equiv; [|intros h τ τ' ? ?; apply at_regex_equiv|] | by apply src_name_equiv; [intros h τ τ' ? ?; apply at_regex_equiv|]
    | by apply opt_equiv; intros ?; apply res_some ].
  all: try by apply ident_name_equiv; [intros ? ? ? ?; first [apply m_user_equiv | apply m_regex_equiv]|].
  all: repeat match goal with
    | |- res_equiv (mbind _ ?o) (mbind _ ?o) => apply opt_equiv; intros ?
    | |- res_equiv (if ?b then _ else _) _ => destruct b eqn:?
    | |- res_equiv (match ?x with Some _ => _ | None => _ end) _ => destruct x eqn:?
    end.
  all: try first [by apply res_some | by apply res_some, need_equiv | by apply m_ip_equiv | by apply m_user_equiv | by apply m_regex_equiv
    | by apply m_header_equiv | by apply ip_loop_equiv; [|by eapply (eo_host E HE)|] ].
  rewrite decide_True in Hs by done. unfold aclMatchInteger.
  destruct (match_second_equiv (fun x => x =? protocol (url r)) _ _ Hs) as (H1 & H2 & H3).
  destruct (match_second _ l), (match_second _ l0). cbn in H1, H2, H3. subst. apply res_some, set_data_equiv; [done|].
  destruct Hd as (b & Hb' & D1 & D2). exists b. split; [done|]. destruct b as [n0 t0 d0]. cbn [type data] in *.
  pose proof (data_equiv_shape _ _ _ D1) as Hs1. destruct d0; try (exfalso; exact Hs1). cbn in D1, D2 |- *. 
  assert (t0 = ACL_PROTO) as ->; [|].
  { pose proof (proj1 (Forall2_lookup _ _ _) (se_acls1 _ _ H) i) as Hq. rewrite Ha, Hb' in Hq. inversion Hq as [? ? (_ & Q & _)|]; subst. done. }
  rewrite !decide_True in * by done. by rewrite H2, H3.
Qed.

Lemma set_current_equiv x σ σ' : st_equiv σ σ' -> st_equiv (set_ck (set_current x (ck σ)) σ) (set_ck (set_current x (ck σ')) σ').
Proof. intros H. rewrite <- (se_ck _ _ H). apply set_ck_equiv; [|done]. apply (se_ok _ _ H). Qed.

Definition acl_match (m m' : nat -> st -> option (Z * st)) : Prop := forall i σ σ', st_equiv σ σ' -> res_equiv (m i σ) (m' i σ').

Lemma aclMatchAnyOf_equiv m m' l : forall σ σ', acl_match m m' -> st_equiv σ σ' -> res_equiv (aclMatchAnyOf m l σ) (aclMatchAnyOf m' l σ').
Proof.
  induction l as [|x l IH]; intros σ σ' Hm H; cbn [aclMatchAnyOf]; [by apply res_some|].
  apply res_bind_equiv; [by apply Hm, set_current_equiv|]. intros z τ τ' Ht. cbn. destruct (negb _); [by apply IH|by apply res_some].
Qed.

Lemma aclMatchAclList_with_equiv m m' l : forall σ σ', acl_match m m' -> st_equiv σ σ' ->
  res_equiv (aclMatchAclList_with m l σ) (aclMatchAclList_with m' l σ').
Proof.
  induction l as [|x l IH]; intros σ σ' Hm H; cbn [aclMatchAclList_with]; [by apply res_some|].
  apply res_bind_equiv; [by apply Hm, set_current_equiv|]. intros z τ τ' Ht. cbn. destruct (negb _); [by apply res_some|by apply IH].
Qed.

Lemma aclMatchAcl_equiv fuel : acl_match (aclMatchAcl E fuel) (aclMatchAcl E fuel).
Proof.
  induction fuel as [|fuel IH]; intros i σ σ' H; cbn [aclMatchAcl]; [constructor|]. rewrite <- (se_ck _ _ H).
  pose proof (lookup_base i σ σ' H) as Hl. destruct (acls σ !! i) as [a|] eqn:Ea, (acls σ' !! i) as [b|] eqn:Eb; try done; [|constructor].
  bind_simpl. pose proof (match_type_equiv i a b σ σ' H Ea Eb) as Hm. destruct a as [n t d], b as [n' t' d']. cbn [type data] in *.
  destruct Hl as (<- & Hd & Hs). destruct (requires_request t && _); [by apply res_some|].
  destruct t; try exact Hm. destruct d, d'; try (exfalso; exact Hs); try exact Hm. injection Hs as <-. by apply aclMatchAnyOf_equiv.
Qed.
End equiv.
End Acl.
