(* ===== verification/AclCheck.v ===== *)
(** * What access checks compute: properties of src/acl.c

    Every match rearranges the trees and lists of the elements it looks at,
    which all checks share.  The theorems here show that this never changes an
    answer, what the answer is for rules over elements that need no lookup,
    and that a check that waits for lookups comes to an end. *)

From Stdlib Require Import ZArith Lia Sorted Ascii String.
From stdpp Require Import base strings list numbers option functions.
From S2P Require Import Prelude CStr StrList Splay HttpHeaderType HttpHeader HttpMethod Rfc1738 Url AclData AclParse Acl.
Import Splay Url AclData AclParse Acl.

Module AclCheck.

(** ** Earlier checks do not matter *)

Section history.
Context (E : aclenv) (HE : env_ok E) (B : list acl).

Lemma aclMatchAclList_equiv l σ σ' : st_equiv E B σ σ' -> res_equiv E B (aclMatchAclList E l σ) (aclMatchAclList E l σ').
Proof.
  intros H. unfold aclMatchAclList, depth. rewrite <- (Forall2_length (se_acls1 _ _ _ _ H)), <- (Forall2_length (se_acls2 _ _ _ _ H)).
  apply aclMatchAclList_with_equiv; [|done]. by apply aclMatchAcl_equiv.
Qed.

Lemma cleanup_equiv σ σ' : st_equiv E B σ σ' -> st_equiv E B (aclCheckCleanup σ) (aclCheckCleanup σ').
Proof. intros H. unfold aclCheckCleanup. rewrite <- (se_ck _ _ _ _ H). apply set_ck_equiv; [|done]. apply (se_ok _ _ _ _ H). Qed.

Lemma cache_init_equiv σ σ' : st_equiv E B σ σ' -> st_equiv E B (aclChecklistCacheInit σ) (aclChecklistCacheInit σ').
Proof.
  intros H. unfold aclChecklistCacheInit. rewrite <- (se_ck _ _ _ _ H). destruct (se_ok _ _ _ _ H) as (A1 & A2 & A3 & A4).
  destruct (request (ck σ)) as [r|] eqn:Er; [|done]. destruct (_ =? 0); [|done]. destruct (A4 r eq_refl) as (B1 & B2 & B3).
  apply set_ck_equiv; [|done]. split_and!; cbn; try done. by rewrite Er.
Qed.

Lemma fast_loop_equiv A : forall last σ σ', st_equiv E B σ σ' -> res_equiv E B (fast_loop E A last σ) (fast_loop E A last σ').
Proof.
  induction A as [|a A IH]; intros last σ σ' H; cbn [fast_loop]; [by apply res_some, cleanup_equiv|].
  apply res_bind_equiv; [by apply aclMatchAclList_equiv|]. intros z τ τ' Ht. cbn. destruct (negb (z =? 0)); [|by apply IH].
  destruct (z <? 0); [by apply res_some|by apply res_some, cleanup_equiv].
Qed.

Lemma aclCheckFast_equiv A σ σ' : st_equiv E B σ σ' -> res_equiv E B (aclCheckFast E A σ) (aclCheckFast E A σ').
Proof. intros H. by apply fast_loop_equiv, cache_init_equiv. Qed.
End history.

(** A check made at some time: the world then, the rules, and the state that
    belongs to its request. *)
Record check := mkChk { c_env : aclenv; c_rules : list acl_access; c_cache : list (nat * Z); c_ips : list Z; c_ck : aclCheck_t }.

Definition check_state (q : check) (l : list acl) (t : time_cache) : st := mkSt l t (c_cache q) (c_ips q) (c_ck q).

Definition run_check (q : check) (l : list acl) (t : time_cache) : option (bool * st) := aclCheckFast (c_env q) (c_rules q) (check_state q l t).

(** The elements and the static variables after a sequence of checks. *)
Fixpoint run_checks (h : list check) (l : list acl) (t : time_cache) : option (list acl * time_cache) :=
  match h with
  | [] => Some (l, t)
  | q :: h => let? (_, σ) := run_check q l t in run_checks h (acls σ) (times σ)
  end.

(** A configuration whose trees are in order. *)
Definition config_ok (l : list acl) : Prop := Forall2 acl_equiv l l.

Definition check_wf (lt : Z -> tm) (q : check) : Prop := env_ok (c_env q) /\ localtime (c_env q) = lt /\ check_ok (c_ck q).

Lemma check_state_equiv lt q B l l' t t' : check_wf lt q -> Forall2 acl_equiv B l -> Forall2 acl_equiv B l' -> time_ok lt t -> time_ok lt t' ->
  st_equiv (c_env q) B (check_state q l t) (check_state q l' t').
Proof. intros (_ & <- & Hc) H1 H2 T1 T2. by constructor. Qed.

Lemma run_checks_keep lt h B : forall l t l' t', Forall (check_wf lt) h -> Forall2 acl_equiv B l -> time_ok lt t ->
  run_checks h l t = Some (l', t') -> Forall2 acl_equiv B l' /\ time_ok lt t'.
Proof.
  induction h as [|q h IH]; intros l t l' t' Hh Hl Ht; cbn [run_checks]; [by intros [= <- <-]|].
  apply List.Forall_cons_iff in Hh as [Hq Hh]. intros Hr. inv_opt Hr. destruct p as [b σ].
  pose proof (aclCheckFast_equiv _ (proj1 Hq) B (c_rules q) _ _ (check_state_equiv lt q B l l t t Hq Hl Hl Ht Ht)) as He.
  unfold run_check in E. rewrite E in He. inversion He as [? ? [_ Hs]|]; subst. cbn in Hs. destruct Hs as [S1 S2 S3 S4 S5 S6 S7].
  eapply IH; [done|exact S1| |exact Hr]. by destruct Hq as (_ & <- & _).
Qed.

(** C5. Access checks are independent of each other although they share the
    configuration and reorder it: after any sequence of other checks, a check
    gives the answer, and leaves the checklist, that it would have on the
    configuration as it was read, for all types of elements. *)
Theorem acl_checks_independent lt cfg h l t q :
  config_ok cfg -> Forall (check_wf lt) h -> check_wf lt q ->
  run_checks h cfg time_cache_init = Some (l, t) ->
  fst <$> run_check q l t = fst <$> run_check q cfg time_cache_init /\
  (fun r => ck (snd r)) <$> run_check q l t = (fun r => ck (snd r)) <$> run_check q cfg time_cache_init.
Proof.
  intros Hc Hh Hq Hr. assert (time_ok lt time_cache_init) as Ht by (by left).
  destruct (run_checks_keep lt h cfg _ _ _ _ Hh Hc Ht Hr) as [Hl Ht'].
  pose proof (aclCheckFast_equiv _ (proj1 Hq) cfg (c_rules q) _ _ (check_state_equiv lt q cfg l cfg t time_cache_init Hq Hl Hc Ht' Ht)) as He.
  unfold run_check. destruct He as [[b σ] [b' σ'] [Hb Hs]|]; [|done]. cbn in *. destruct Hs. split; congruence.
Qed.

(** ** The answer for elements that need no lookup *)

(** The host is the domain or below it, as a test. *)
Definition domain_in (d h : bytes) : bool :=
  let h := map tolower (skip_dots h) in
  let d := map tolower d in
  bool_decide (h = d) || bool_decide (d = 46 :: h) || (bool_decide (head d = Some 46) && bool_decide (d `suffix_of` h)).

Lemma domain_in_ok d h : domain_in d h = true <-> dom_contains d h.
Proof.
  unfold domain_in, dom_contains, domain_match. rewrite !orb_true_iff, andb_true_iff, !bool_decide_eq_true.
  set (a := map tolower (skip_dots h)). set (b := map tolower d). split.
  - intros [[->|Hb]|[Hd [k Hk]]]; [by left|right; exists a; naive_solver|]. right. destruct b as [|x b']; [done|]. injection Hd as ->.
    exists b'. split; [done|]. right. by exists k.
  - intros [->|(d' & Hd & [->|[p Hp]])]; [by left; left|by left; right|right]. split; [by rewrite Hd|]. by exists p.
Qed.

(** The value of an element other than "any-of" that is given by the
    checklist and the configuration alone. *)
Definition static_val (E : aclenv) (c : aclCheck_t) (a : acl) : option bool :=
  let in_nets t x := bool_decide (Exists (fun q => ip_contains q x) (flatten t)) in
  let in_domains t h := existsb (fun d => domain_in d h) (flatten t) in
  let matches l w := existsb (fun r => regexec E r w) l in
  let in_ranges l n := existsb (fun r => (ir_i r <=? n) && (n <=? ir_j r)) l in
  match type a, data a with
  | ACL_SRC_IP, D_ip t => Some (in_nets t (src_addr c))
  | ACL_MY_IP, D_ip t => Some (in_nets t (my_addr c))
  | ACL_DSTFWD_IP, D_ip t => if fwdip_addr c =? 0 then None else Some (in_nets t (fwdip_addr c))
  | ACL_TIME, D_time l =>
      if bool_decide (l = []) then None else Some (existsb (time_in (localtime E (squid_curtime E))) l)
  | ACL_MY_PORT, D_range l => Some (in_ranges l (my_port c))
  | ACL_SNMP_COMMUNITY, D_words l => Some (aclMatchWordList l (snmp_community c))
  | ACL_SRC_ASN, D_int l => Some (asnMatchIp4 E l (src_addr c))
  | t, d =>
      match request c with
      | None => if requires_request t then Some false else None
      | Some r =>
          match t, d with
          | ACL_DST_IP, D_ip t => (fun ia => existsb (in_nets t) ia) <$> ipcache_gethostbyname E (host (url r))
          | ACL_DST_ASN, D_int l => (fun ia => existsb (asnMatchIp4 E l) ia) <$> ipcache_gethostbyname E (host (url r))
          | ACL_DST_DOMAIN, D_domain t =>
              match skip_dots (host (url r)), ipcacheCheckNumeric E (host (url r)) with
              | _ :: _, None => Some (in_domains t (host (url r)))
              | _, _ => None
              end
          | ACL_DST_DOM_REGEX, D_regex l =>
              match ipcacheCheckNumeric E (host (url r)) with None => Some (matches l (host (url r))) | Some _ => None end
          | ACL_URL_PORT, D_range l => Some (in_ranges l (port (url r)))
          | ACL_TYPE, D_type (Some t) =>
              Some ((accelerated t && accelerated (flags r)) || (transparent t && transparent (flags r)) || (internal t && internal (flags r)))
          | ACL_PROTO, D_int l => Some (existsb (fun x => x =? protocol (url r)) l)
          | ACL_METHOD, D_words l => Some (aclMatchWordListInsensitive l (HttpMethod.urlMethodGetConstStr (Some (rmethod (url r)))))
          | ACL_URLGROUP, D_words l => match urlgroup r with Some g => Some (aclMatchWordList l g) | None => Some false end
          | _, _ => None
          end
      end
  end.

(** With the elements of type "any-of", nested at most [fuel] deep. *)
Fixpoint acl_val (E : aclenv) (c : aclCheck_t) (cfg : list acl) (fuel : nat) (i : nat) : option bool :=
  match fuel with
  | O => None
  | S fuel =>
      let? a := cfg !! i in
      match type a, data a with
      | ACL_ANY_OF, D_any_of l =>
          let? vs := mapM (fun x => (fun v => eqb v (op x)) <$> acl_val E c cfg fuel (acl_ix x)) l in
          Some (existsb (fun b => b) vs)
      | _, _ => static_val E c a
      end
  end.

Lemma bz_inj_true b : (b = true <-> bz b <> 0).
Proof. by destruct b. Qed.

Lemma in_range_eq n r : negb (n <? ir_i r) && negb (ir_j r <? n) = (ir_i r <=? n) && (n <=? ir_j r).
Proof. destruct (Z.ltb_spec n (ir_i r)), (Z.leb_spec (ir_i r) n), (Z.ltb_spec (ir_j r) n), (Z.leb_spec n (ir_j r)); lia. Qed.

Lemma m_ip_val i t x σ : ip_tree t -> is_addr x ->
  exists σ', m_ip i t x σ = Some (bz (bool_decide (Exists (fun q => ip_contains q x) (flatten t))), σ') /\ ck σ' = ck σ.
Proof.
  intros Ht Hx. destruct (aclMatchIp_ok t x Ht Hx) as (u & b & E1 & _ & _ & B1). unfold m_ip. rewrite E1. bind_simpl. exists (set_data i (D_ip u) σ). split; [|done].
  do 3 f_equal. apply eq_true_iff_eq. by rewrite bool_decide_eq_true.
Qed.

Lemma ip_loop_val i l σ : forall t, ip_tree t -> Forall is_addr l ->
  exists σ', ip_loop i t l σ = Some (bz (existsb (fun x => bool_decide (Exists (fun q => ip_contains q x) (flatten t))) l), σ') /\ ck σ' = ck σ.
Proof.
  induction l as [|x l IH]; intros t Ht Hl; cbn [ip_loop existsb]; [by eexists|]. apply List.Forall_cons_iff in Hl as [Hx Hl].
  destruct (aclMatchIp_ok t x Ht Hx) as (u & b & -> & Hf & Hu & B1). bind_simpl. rewrite <- Hf in *.
  assert (bool_decide (Exists (fun q => ip_contains q x) (flatten u)) = b) as ->.
  { apply eq_true_iff_eq. by rewrite bool_decide_eq_true. }
  destruct b; [by eexists|]. by apply IH.
Qed.

Lemma at_domain_val i n ty t h σ : acls σ !! i = Some (mkAcl n ty (D_domain t)) -> dom_tree t -> is_host h ->
  exists σ', at_domain i (Some h) σ = Some (bz (existsb (fun d => domain_in d h) (flatten t)), σ') /\ ck σ' = ck σ.
Proof.
  intros Hi Ht Hh. destruct (aclMatchDomainList_ok t h Ht Hh) as (u & b & E1 & _ & _ & B1). unfold at_domain, m_domain. rewrite Hi, E1. bind_simpl.
  exists (set_data i (D_domain u) σ). split; [|done]. do 3 f_equal. apply eq_true_iff_eq. rewrite B1, existsb_exists, Exists_exists.
  by setoid_rewrite domain_in_ok.
Qed.

Lemma at_regex_val E i n ty l w σ : acls σ !! i = Some (mkAcl n ty (D_regex l)) ->
  exists σ', at_regex E i (Some w) σ = Some (bz (existsb (fun r => regexec E r w) l), σ') /\ ck σ' = ck σ.
Proof.
  intros Hi. unfold at_regex, m_regex, aclMatchRegex. rewrite Hi. destruct (match_second_ok (fun r => regexec E r w) l) as [H1 _].
  destruct (match_second _ l). cbn in H1. subst. by eexists.
Qed.

Lemma m_range_val i l n σ :
  exists σ', m_range i l n σ = Some (bz (existsb (fun r => (ir_i r <=? n) && (n <=? ir_j r)) l), σ') /\ ck σ' = ck σ.
Proof.
  unfold m_range, aclMatchIntegerRange. destruct (match_second_ok (fun x => negb (n <? ir_i x) && negb (ir_j x <? n)) l) as [H1 _].
  destruct (match_second _ l) as [k b]. cbn in H1. subst. exists (set_data i (D_range k) σ). split; [|done]. do 3 f_equal.
  clear k. induction l as [|x l' IH]; cbn [existsb]; [done|]. by rewrite IH, in_range_eq.
Qed.

Lemma dst_name_val E h m σ b σ' : m (Some h) σ = Some (bz b, σ') -> ipcacheCheckNumeric E h = None -> 
  dst_name E h m σ = Some (bz b, σ').
Proof. intros Hm Hn. unfold dst_name. rewrite Hm. bind_simpl. by destruct b; cbn; [|rewrite Hn]. Qed.

(** One element on the configuration as it was read. *)
Lemma static_ok E fuel i a σ b : env_ok E -> check_ok (ck σ) -> time_ok (localtime E) (times σ) -> acls σ !! i = Some a -> acl_equiv a a ->
  static_val E (ck σ) a = Some b -> exists σ', aclMatchAcl E (S fuel) i σ = Some (bz b, σ') /\ ck σ' = ck σ.
Proof.
  intros HE (A1 & A2 & A3 & A4) Ht Hi (_ & _ & Hd) Hv. cbn [aclMatchAcl]. rewrite Hi. bind_simpl. destruct a as [n t d]. cbn [type data] in *.
  unfold static_val in Hv. cbn [type data] in Hv. unfold match_type. cbn [type data].
  destruct (request (ck σ)) as [r|] eqn:Er; destruct t; try discriminate Hv; destruct d; try discriminate Hv; cbn [requires_request is_some negb andb].
  all: try (injection Hv as <-; first [exists σ; done | apply m_range_val | apply m_ip_val; [apply Hd|done]]).
  all: try (destruct (fwdip_addr (ck σ) =? 0); [done|]; injection Hv as <-; apply m_ip_val; [apply Hd|done]).
  all: try (case_bool_decide as El; [done|]; injection Hv as <-; destruct (aclMatchTime_val E _ l HE Ht El) as (c' & -> & _); by exists (set_times c' σ)).
  all: bind_simpl; try (destruct (A4 r eq_refl) as (B1 & B2 & B3)).
  - destruct (ipcache_gethostbyname E _) as [ia|] eqn:Eh; [|done]. injection Hv as <-. apply ip_loop_val; [apply Hd|by eapply (eo_host E HE)].
  - destruct (skip_dots (host (url r))) eqn:Es; [done|]. destruct (ipcacheCheckNumeric E _) eqn:En; [done|]. injection Hv as <-.
    destruct (at_domain_val i n _ t (host (url r)) σ Hi) as (σ' & Hm & Hc); [apply Hd|split; [done|by rewrite Es]|].
    exists σ'. split; [|done]. by apply dst_name_val.
  - destruct (ipcacheCheckNumeric E _) eqn:En; [done|]. injection Hv as <-.
    destruct (at_regex_val E i n _ l (host (url r)) σ Hi) as (σ' & Hm & Hc). exists σ'. split; [|done]. by apply dst_name_val.
  - destruct t as [t|]; [|done]. injection Hv as <-. exists σ. split; [|done]. bind_simpl. do 3 f_equal. unfold aclMatchType.
    by destruct (accelerated t && _), (transparent t && _), (internal t && _).
  - injection Hv as <-. unfold aclMatchInteger. destruct (match_second_ok (fun x => x =? protocol (url r)) l) as [H1 _].
    destruct (match_second _ l) as [k b]. cbn in H1. subst. by exists (set_data i (D_int k) σ).
  - destruct (ipcache_gethostbyname E _) as [ia|] eqn:Eh; [|done]. injection Hv as <-. by exists σ.
  - destruct (urlgroup r); injection Hv as <-; by exists σ.
Qed.

(** ** Rules *)

Section rules.
Context (E : aclenv) (HE : env_ok E) (cfg : list acl) (Hcfg : config_ok cfg) (c : aclCheck_t).

(** A state that has the values of the configuration, with the checklist [c]
    but for the current element. *)
Definition runs (σ : st) : Prop :=
  Forall2 acl_equiv cfg (acls σ) /\ time_ok (localtime E) (times σ) /\ check_ok (ck σ) /\ exists x, ck σ = set_current x c.

(** The state with the configuration itself. *)
Definition base (σ : st) : st := mkSt cfg (times σ) (proxy_match_cache σ) (user_ips σ) (ck σ).

Lemma runs_base σ : runs σ -> st_equiv E cfg (base σ) σ.
Proof. intros (H1 & H2 & H3 & _). by constructor. Qed.

Lemma runs_current x σ : runs σ -> runs (set_ck (set_current x (ck σ)) σ).
Proof. intros (H1 & H2 & H3 & y & Hy). split_and!; try done. exists x. cbn. by rewrite Hy. Qed.

(** An element whose value is known gives that value. *)
Definition gives (m : nat -> st -> option (Z * st)) (i : nat) (b : bool) : Prop :=
  forall σ, runs σ -> exists σ', m i σ = Some (bz b, σ') /\ runs σ'.

Lemma static_gives fuel i a b : cfg !! i = Some a -> static_val E c a = Some b -> gives (aclMatchAcl E (S fuel)) i b.
Proof.
  intros Hi Hv σ Hσ. pose proof (runs_base σ Hσ) as Hb. destruct Hσ as (H1 & H2 & H3 & x & Hx).
  destruct (static_ok E fuel i a (base σ) b HE H3 H2 Hi) as (σ1 & E1 & C1).
  { exact (Forall2_lookup_lr _ _ _ _ _ _ Hcfg Hi Hi). }
  { cbn. rewrite Hx. exact Hv. }
  pose proof (aclMatchAcl_equiv E HE cfg (S fuel) i _ _ Hb) as He. rewrite E1 in He. inversion He as [? [z σ'] [Hz Hs]|]; subst. cbn in *. subst z.
  exists σ'. split; [done|]. destruct Hs as [S1 S2 S3 S4 S5 S6 S7 S8]. split_and!; try done; [by rewrite <- S7|]. exists x. rewrite <- S7, C1. done.
Qed.

Lemma any_of_gives m l vs : Forall2 (fun x v => exists u, gives m (acl_ix x) u /\ v = eqb u (op x)) l vs ->
  forall σ, runs σ -> exists σ', aclMatchAnyOf m l σ = Some (bz (existsb (fun b => b) vs), σ') /\ runs σ'.
Proof.
  induction 1 as [|x v l vs (u & Hu & ->) Hl IH]; intros σ Hσ; cbn [aclMatchAnyOf existsb]; [by exists σ|].
  destruct (Hu _ (runs_current (Some (acl_ix x)) σ Hσ)) as (σ1 & -> & H1). bind_simpl. destruct u, (op x); cbn; (by apply IH) || by exists σ1.
Qed.

Lemma acl_val_gives fuel i b : acl_val E c cfg fuel i = Some b -> gives (aclMatchAcl E fuel) i b.
Proof.
  revert i b. induction fuel as [|fuel IH]; intros i b Hv; [done|]. cbn [acl_val] in Hv. destruct (cfg !! i) as [a|] eqn:Ei; [|done].
  cbn [mbind option_bind] in Hv.
  assert (static_val E c a = Some b -> gives (aclMatchAcl E (S fuel)) i b) as Hst by (by apply static_gives).
  destruct a as [n t d]. cbn [type data] in *. destruct t; try (by apply Hst). destruct d; try (by apply Hst).
  destruct (mapM _ l) as [vs|] eqn:Em; [|done]. injection Hv as <-. intros σ Hσ. cbn [aclMatchAcl].
  assert (exists a, acls σ !! i = Some a /\ type a = ACL_ANY_OF /\ data a = D_any_of l) as ([n' t' d'] & -> & Ht & Hd).
  { destruct Hσ as (H1 & _). destruct (Forall2_lookup_l _ _ _ _ _ H1 Ei) as (a & Ha & _ & Q2 & Q3). exists a. split; [done|]. split; [done|].
    cbn in Q3. by destruct (data a). }
  cbn [mbind option_bind]. cbn [type data] in *. subst. cbn [requires_request andb].
  apply any_of_gives; [|done]. apply mapM_Some_1 in Em. eapply Forall2_impl; [|exact Em]. cbn. intros x v Hx.
  destruct (acl_val E c cfg fuel (acl_ix x)) as [u|] eqn:Eu; [|done]. injection Hx as <-. exists u. split; [by apply IH|done].
Qed.

Lemma acl_list_gives m (v : nat -> bool) l : Forall (fun x => gives m (acl_ix x) (v (acl_ix x))) l ->
  forall σ, runs σ -> exists σ', aclMatchAclList_with m l σ = Some (bz (forallb (fun x => eqb (v (acl_ix x)) (op x)) l), σ') /\ runs σ'.
Proof.
  induction 1 as [|x l Hx Hl IH]; intros σ Hσ; cbn [aclMatchAclList_with forallb]; [by exists σ|].
  destruct (Hx _ (runs_current (Some (acl_ix x)) σ Hσ)) as (σ1 & -> & H1). bind_simpl.
  destruct (v (acl_ix x)), (op x); cbn; (by apply IH) || by exists σ1.
Qed.

(** The decision of rules from the values of the elements: the first rule all
    of whose conditions hold decides, and if there is none, the opposite of
    the last rule. *)
Fixpoint decide_rules (v : nat -> bool) (A : list acl_access) (last : bool) : bool :=
  match A with
  | [] => negb last
  | a :: A => if forallb (fun x => eqb (v (acl_ix x)) (op x)) (acl_list a) then allow a else decide_rules v A (allow a)
  end.

Lemma fast_loop_decides (v : nat -> bool) A :
  Forall (fun a => Forall (fun x => acl_val E c cfg (S (length cfg)) (acl_ix x) = Some (v (acl_ix x))) (acl_list a)) A ->
  forall last σ, runs σ -> exists σ', fast_loop E A last σ = Some (decide_rules v A last, σ').
Proof.
  induction 1 as [|a A Ha HA IH]; intros last σ Hσ; cbn [fast_loop decide_rules]; [by eexists|].
  unfold aclMatchAclList, depth. rewrite <- (Forall2_length (proj1 Hσ)).
  destruct (acl_list_gives (aclMatchAcl E (S (length cfg))) v (acl_list a)) with (σ := σ) as (σ1 & -> & H1); [|done|].
  { eapply List.Forall_impl; [|exact Ha]. intros x Hx. by apply acl_val_gives. }
  bind_simpl. destruct (forallb _ (acl_list a)); cbn; [by eexists|]. by apply IH.
Qed.
End rules.

Lemma cache_init_runs E cfg c σ : check_ok c -> Forall2 acl_equiv cfg (acls σ) -> time_ok (localtime E) (times σ) -> ck (aclChecklistCacheInit σ) = c ->
  runs E cfg c (aclChecklistCacheInit σ).
Proof.
  intros Hc Ha Ht Hck. assert (acls (aclChecklistCacheInit σ) = acls σ /\ times (aclChecklistCacheInit σ) = times σ) as [E1 E2].
  { unfold aclChecklistCacheInit. by case_ifs. }
  split_and!; [by rewrite E1|by rewrite E2|by rewrite Hck|]. exists (current_acl c). rewrite Hck. by destruct c.
Qed.

(** C6. The meaning of an access list: for rules over elements whose values
    are known without a lookup (client, server and destination addresses,
    domains of names, ports, times, protocols, methods, request types and the
    like, and "any-of" elements over them), [aclCheckFast] returns the action
    of the first rule all of whose conditions hold, each negated or not, and
    when no rule matches the opposite of the last rule's action, on every
    state the configuration is in after other checks. *)
Theorem aclCheckFast_decides E cfg c A v σ :
  env_ok E -> config_ok cfg -> check_ok c ->
  Forall2 acl_equiv cfg (acls σ) -> time_ok (localtime E) (times σ) -> ck (aclChecklistCacheInit σ) = c ->
  Forall (fun a => Forall (fun x => acl_val E c cfg (S (length cfg)) (acl_ix x) = Some (v (acl_ix x))) (acl_list a)) A ->
  fst <$> aclCheckFast E A σ = Some (decide_rules v A false).
Proof.
  intros HE Hcfg Hc Ha Ht Hck HA. unfold aclCheckFast. pose proof (cache_init_runs E cfg c σ Hc Ha Ht Hck) as Hr.
  destruct (fast_loop_decides E HE cfg Hcfg c v A HA false _ Hr) as (σ' & Hf). by rewrite Hf.
Qed.


(** ** Instances *)

Definition wit_cfg : list acl :=
  [mkAcl (str "local") ACL_SRC_IP (D_ip (Node NULL (net 10 0 0 0 8) (Node NULL (net 192 168 0 0 16) NULL)));
   mkAcl (str "safe") ACL_URL_PORT (D_range [mkRange 80 80; mkRange 1025 65535]);
   mkAcl (str "ours") ACL_DST_DOMAIN (D_domain (Node NULL (str ".example.com") NULL));
   mkAcl (str "either") ACL_ANY_OF (D_any_of [mkAclRef true 2; mkAclRef false 1]);
   mkAcl (str "office") ACL_TIME (D_time [mkTime 62 540 1050]);
   mkAcl (str "byname") ACL_SRC_DOMAIN (D_domain (Node NULL (str ".example.com") NULL))].

Lemma net_wf a j : is_addr a -> 0 <= j <= 32 -> Z.land a (4294967296 - 2 ^ j) = a -> ip_wf (mkIp a 0 (4294967296 - 2 ^ j)).
Proof. intros Ha Hj He. split_and!; [done|by exists j|done|by left]. Qed.

Lemma wit_cfg_ok : config_ok wit_cfg.
Proof.
  assert (ip_tree (Node NULL (net 10 0 0 0 8) (Node NULL (net 192 168 0 0 16) NULL))) as Ht.
  { split; cbn [flatten app].
    - apply List.Forall_cons; [apply (net_wf (ip 10 0 0 0) 24); [split; [done|by vm_compute]|lia|done]|].
      apply List.Forall_cons; [apply (net_wf (ip 192 168 0 0) 16); [split; [done|by vm_compute]|lia|done]|constructor].
    - repeat constructor. }
  assert (dom_tree (Node NULL (str ".example.com") NULL)) as Hd.
  { split; cbn [flatten app]; [|repeat constructor]. constructor; [|constructor]. split_and!; [repeat constructor; lia|done|by right]. }
  unfold config_ok, wit_cfg. do 6 (apply Forall2_cons; [do 2 (split; [reflexivity|]); cbn [data_equiv data type]; try reflexivity; (by split; [apply Ht|]) || by split; [apply Hd|]|]).
  apply Forall2_nil.
Qed.

Definition wit_world : aclenv :=
  mkAclEnv (fun _ _ => false) (fun _ => mkTm 12 0 1) 1000000 (fun _ => None) (fun _ => None) (fun _ => None) (fun _ => 0) (fun _ _ => false)
    (fun _ => (AUTH_ACL_CHALLENGE, false)) None (fun _ => false) (fun _ => E_lookup).

Lemma wit_world_ok : env_ok wit_world.
Proof. by constructor. Qed.

Definition wit_header : HttpHeader.HttpHeader := default (HttpHeader.mkHdr [] [] 0 0) (HttpHeader.httpHeaderInit HttpHeader.hoRequest).

Definition wit_request : acl_request :=
  mkRequest (mkReq GET PROTO_HTTP (str "/a%20b") (str "www.example.com") [] 80) wit_header (mkType false false false) (ip 10 1 2 3) (ip 10 0 0 1) 3128 None None 1.

Definition wit_rules : list acl_access := [mkAccess false [mkAclRef false 1]; mkAccess true [mkAclRef true 0; mkAclRef true 3; mkAclRef true 4]].
Definition wit_check (a : Z) : aclCheck_t := from a (Some wit_request).

Lemma wit_check_ok a : is_addr a -> check_ok (wit_check a).
Proof. intros Ha. split_and!; [done|done|done|]. intros r [= <-]. split_and!; [repeat constructor; lia|done|done]. Qed.

Lemma wit_check_wf a : is_addr a -> check_wf (localtime wit_world) (mkChk wit_world wit_rules [] [] (wit_check a)).
Proof. intros Ha. split; [apply wit_world_ok|]. split; [done|by apply wit_check_ok]. Qed.

Lemma acl_checks_independent_witness :
  exists l t, run_checks [mkChk wit_world wit_rules [] [] (wit_check (ip 8 8 8 8)); mkChk wit_world wit_rules [] [] (wit_check (ip 192 168 7 7))] wit_cfg time_cache_init = Some (l, t) /\
    l <> wit_cfg /\ fst <$> run_check (mkChk wit_world wit_rules [] [] (wit_check (ip 10 1 2 3))) l t = Some true.
Proof.
  eexists _, _. split; [by vm_compute|]. split; [intros H; vm_compute in H; discriminate H|].
  match goal with |- fst <$> run_check _ ?l ?t = _ => destruct (acl_checks_independent (localtime wit_world) wit_cfg [mkChk wit_world wit_rules [] [] (wit_check (ip 8 8 8 8)); mkChk wit_world wit_rules [] [] (wit_check (ip 192 168 7 7))]
    l t (mkChk wit_world wit_rules [] [] (wit_check (ip 10 1 2 3))) wit_cfg_ok) as [H _] end.
  - apply List.Forall_cons; [|apply List.Forall_cons; [|constructor]]; by apply wit_check_wf.
  - by apply wit_check_wf.
  - vm_compute. reflexivity.
  - rewrite H. by vm_compute.
Defined.

Lemma aclCheckFast_decides_witness :
  fst <$> aclCheckFast wit_world wit_rules (st0 wit_cfg (wit_check (ip 10 1 2 3))) = Some true /\
  fst <$> aclCheckFast wit_world wit_rules (st0 wit_cfg (wit_check (ip 11 1 2 3))) = Some false.
Proof.
  split.
  - rewrite (aclCheckFast_decides wit_world wit_cfg (wit_check (ip 10 1 2 3)) wit_rules (fun _ => true)); [done|apply wit_world_ok|apply wit_cfg_ok| |apply wit_cfg_ok|by left|done|].
    + apply wit_check_ok. by vm_compute.
    + repeat constructor; by vm_compute.
  - rewrite (aclCheckFast_decides wit_world wit_cfg (wit_check (ip 11 1 2 3)) wit_rules (fun i => negb (i =? 0)%nat)); [done|apply wit_world_ok|apply wit_cfg_ok| |apply wit_cfg_ok|by left|done|].
    + apply wit_check_ok. by vm_compute.
    + repeat constructor; by vm_compute.
Defined.
End AclCheck.
