(* ===== verification/AclWait.v ===== *)
(** * Access checks that wait for lookups come to an end

    [aclCheck] of src/acl.c returns while an address or a name is looked up,
    and is run again by the callback of the lookup, in the world of that time.
    For rules that need addresses and names only, each of the four kinds of
    lookup is made at most once for a check, so that it answers after at most
    four of them; when nothing has to be looked up its answer is that of
    [aclCheckFast]. *)

From Stdlib Require Import ZArith Lia Sorted Ascii String.
From stdpp Require Import base strings list numbers option functions.
From S2P Require Import Prelude CStr StrList Splay HttpHeaderType HttpHeader HttpMethod Rfc1738 Url AclData AclParse Acl AclCheck.
Import Splay Url AclData AclParse Acl AclCheck.

Module AclWait.

(** ** Checks that wait *)

(** The element can make a check wait for names and addresses only. *)
Definition dns_only (t : squid_acl) : bool :=
  match t with
  | ACL_PROXY_AUTH | ACL_PROXY_AUTH_REGEX | ACL_MAX_USER_IP | ACL_IDENT | ACL_IDENT_REGEX | ACL_EXTERNAL => false
  | _ => true
  end.

(** An element that was given the values its type needs, elements of type
    "any-of" referring to earlier elements. *)
Definition elem_ok (h : list HttpHeader.HttpHeader) (i : nat) (a : acl) : Prop :=
  dns_only (type a) = true /\
  match type a, data a with
  | (ACL_SRC_IP | ACL_DST_IP | ACL_MY_IP | ACL_DSTFWD_IP), D_ip _ => True
  | (ACL_SRC_DOMAIN | ACL_DST_DOMAIN), D_domain _ => True
  | ACL_TIME, D_time l => l <> []
  | (ACL_URL_REGEX | ACL_URLLOGIN | ACL_URLPATH_REGEX | ACL_BROWSER | ACL_REFERER_REGEX | ACL_SRC_DOM_REGEX | ACL_DST_DOM_REGEX
    | ACL_REQ_MIME_TYPE | ACL_REP_MIME_TYPE | ACL_EXTUSER_REGEX), D_regex _ => True
  | (ACL_REP_HEADER | ACL_REQ_HEADER), D_header l =>
      Forall (fun x => Forall (fun hdr => is_Some (if negb (hdr_id x =? -1) then HttpHeader.httpHeaderGetStrOrList hdr (hdr_id x)
                                                   else HttpHeader.httpHeaderGetByName hdr (hdr_name x))) h) l
  | ACL_MAXCONN, D_int l => l <> []
  | (ACL_SRC_ASN | ACL_DST_ASN | ACL_PROTO), D_int _ => True
  | (ACL_URL_PORT | ACL_MY_PORT), D_range _ => True
  | (ACL_MY_PORT_NAME | ACL_METHOD | ACL_SNMP_COMMUNITY | ACL_HIER_CODE | ACL_URLGROUP), D_words _ => True
  | ACL_TYPE, D_type t => is_Some t
  | ACL_EXTUSER, D_users u => is_Some u
  | ACL_ANY_OF, D_any_of l => Forall (fun x => (acl_ix x < i)%nat) l
  | _, _ => False
  end.

(** A string can be unescaped, see [rfc1738_unescape_overread]. *)
Definition unescapes (w : option bytes) : Prop := exists t b, w = Some t /\ Rfc1738.rfc1738_unescape (t ++ [0]) = Some b.

Record request_ok (r : acl_request) : Prop := {
  ro_host : is_host (host (url r));
  ro_path : unescapes (Some (urlpath (url r)));
  ro_url : unescapes (urlCanonical (url r));
  ro_login : unescapes (Some (login (url r)));
  ro_agent : is_Some (HttpHeader.httpHeaderGetStr (header r) HttpHeaderType.HDR_USER_AGENT);
  ro_referer : is_Some (HttpHeader.httpHeaderGetStr (header r) HttpHeaderType.HDR_REFERER);
  ro_ctype : is_Some (HttpHeader.httpHeaderGetStr (header r) HttpHeaderType.HDR_CONTENT_TYPE);
  ro_hier : is_Some (hier_strings !! Z.to_nat (hier_code r))
}.

(** The checklist of a request. *)
Record input_ok (c : aclCheck_t) (r : acl_request) : Prop := {
  io_check : check_ok c;
  io_request : request c = Some r;
  io_ok : request_ok r;
  io_reply : forall h, reply c = Some h -> is_Some (HttpHeader.httpHeaderGetStr h HttpHeaderType.HDR_CONTENT_TYPE)
}.

(** A world at some run: names that are found are names, and which strings
    are numeric addresses does not change. *)
Record world_ok (lt : Z -> tm) (num : bytes -> option Z) (E : aclenv) : Prop := {
  wo_env : env_ok E;
  wo_time : localtime E = lt;
  wo_num : ipcacheCheckNumeric E = num;
  wo_name : forall a n, fqdncache_gethostbyaddr E a = Some n -> is_host n
}.

Definition headers (c : aclCheck_t) (r : acl_request) : list HttpHeader.HttpHeader := header r :: option_list (reply c).

Definition dns_slot (s : slot) : bool := match s with S_DST_IP | S_DST_ASN | S_SRC_DOMAIN | S_DST_DOMAIN => true | _ => false end.

(** What a match may change in a checklist: slots that were not asked for are
    asked for, and the current element. *)
Definition asks (num : bytes -> option Z) (host : bytes) (c c' : aclCheck_t) : Prop :=
  (exists x, c' = set_current x (mkCheck (src_addr c) (my_addr c) (fwdip_addr c) (my_port c) (request c) (reply c) (conn c) (rfc931 c)
     (snmp_community c) (auth_user_request c) (state c') (current_acl c))) /\
  forall s, state c' s = state c s \/ dns_slot s = true /\ state c s = ACL_LOOKUP_NONE /\ state c' s = ACL_LOOKUP_NEEDED /\
    (s = S_DST_DOMAIN -> is_Some (num host)).

Lemma asks_refl num h c : asks num h c c.
Proof. split; [exists (current_acl c); by destruct c|]. by left. Qed.

Lemma asks_trans num h c1 c2 c3 : asks num h c1 c2 -> asks num h c2 c3 -> asks num h c1 c3.
Proof.
  intros [[x ->] H1] [[y ->] H2]. split; [by exists y|]. intros s. cbn in *. specialize (H1 s). specialize (H2 s). destruct H1 as [E1|(D1 & N1 & S1 & M1)], H2 as [E2|(D2 & N2 & S2 & M2)];
    [left; congruence|right; split_and!; try congruence; done|right; split_and!; try congruence; done|congruence].
Qed.

Lemma asks_current num h x c : asks num h c (set_current x c).
Proof. split; [by exists x|]. by left. Qed.

Lemma asks_need num h s c : dns_slot s = true -> state c s = ACL_LOOKUP_NONE -> (s = S_DST_DOMAIN -> is_Some (num h)) ->
  asks num h c (set_state s ACL_LOOKUP_NEEDED c).
Proof.
  intros Hd Hs Hn. split; [exists (current_acl c); by destruct c|]. intros s'. cbn. destruct (decide (s' = s)) as [->|Hne].
  - right. by rewrite fn_lookup_insert.
  - left. by rewrite fn_lookup_insert_ne.
Qed.

(** ** Every match is defined *)

Section total.
Context (lt : Z -> tm) (num : bytes -> option Z) (E : aclenv) (HW : world_ok lt num E).
Context (r : acl_request).

(** The match returns and only asks. *)
Definition returns (σ : st) (o : option (Z * st)) : Prop := exists z σ', o = Some (z, σ') /\ asks num (host (url r)) (ck σ) (ck σ').

Lemma returns_same z σ : returns σ (Some (z, σ)).
Proof. exists z, σ. split; [done|apply asks_refl]. Qed.

Lemma returns_ck z σ σ' : ck σ' = ck σ -> returns σ (Some (z, σ')).
Proof. intros Hc. exists z, σ'. split; [done|]. rewrite Hc. apply asks_refl. Qed.

Lemma returns_need z s σ : dns_slot s = true -> state (ck σ) s = ACL_LOOKUP_NONE -> (s = S_DST_DOMAIN -> is_Some (num (host (url r)))) ->
  returns σ (Some (z, need s σ)).
Proof. intros Hd Hs Hn. eexists _, _. split; [done|]. by apply asks_need. Qed.

Lemma returns_some z b σ o : (exists σ', o = Some (bz b, σ') /\ ck σ' = ck σ) -> z = bz b -> returns σ o.
Proof. intros (σ' & -> & Hc) _. by apply returns_ck. Qed.

Lemma returns_ip i t x σ : ip_tree t -> is_addr x -> returns σ (m_ip i t x σ).
Proof. intros Ht Hx. eapply returns_some; [by apply m_ip_val|done]. Qed.

Lemma returns_regex i l w σ : returns σ (m_regex E i l w σ).
Proof. unfold m_regex. destruct (aclMatchRegex _ l w). by apply returns_ck. Qed.

Lemma returns_range i l n σ : returns σ (m_range i l n σ).
Proof. eapply returns_some; [apply m_range_val|done]. Qed.

Lemma returns_user i u w σ : users_ok u -> returns σ (m_user i (Some u) w σ).
Proof.
  intros Hu. unfold m_user. bind_simpl. destruct w as [w|]; [|by apply returns_ck].
  destruct (aclMatchUser_ok u w Hu) as (u' & b & -> & _). by apply returns_ck.
Qed.

Lemma returns_header i l h σ :
  Forall (fun x => is_Some (if negb (hdr_id x =? -1) then HttpHeader.httpHeaderGetStrOrList h (hdr_id x) else HttpHeader.httpHeaderGetByName h (hdr_name x))) l ->
  returns σ (m_header E i l h σ).
Proof.
  intros Hl. unfold m_header, aclMatchHeader. assert (forall s, is_Some (aclMatchHeader_loop E s l h)) as Ht.
  { induction Hl as [|x l [v Hx] Hl IH]; intros s; cbn [aclMatchHeader_loop]; [by eexists|]. rewrite Hx. bind_simpl.
    destruct v as [v|]; [|by apply IH]. destruct (aclMatchRegex _ _ _) as [k []]; [by eexists|by apply IH]. }
  destruct (Ht []) as [[k b] ->]. by apply returns_ck.
Qed.

Context (cfg : list acl).

(** The state has the values of the configuration. *)
Abbreviation keeps σ := (st_equiv E cfg σ σ).

(** A match of names that returns. *)
Definition name_returns (m : option bytes -> st -> option (Z * st)) : Prop :=
  (forall h σ, is_host h -> keeps σ -> returns σ (m (Some h) σ)) /\ name_match E cfg m m.

Lemma is_host_none : is_host (str "none").
Proof. split; [repeat constructor; lia|done]. Qed.

Lemma returns_no_name s m σ : name_returns m -> dns_slot s = true -> (s = S_DST_DOMAIN -> is_Some (num (host (url r)))) -> keeps σ ->
  returns σ (no_name s m σ).
Proof. intros [Hm _] Hd Hn Hk. unfold no_name. case_bool_decide; [by apply returns_need|]. by apply Hm; [apply is_host_none|]. Qed.

Lemma returns_src_name m σ : name_returns m -> keeps σ -> returns σ (src_name E m σ).
Proof.
  intros Hm Hk. unfold src_name. destruct (fqdncache_gethostbyaddr E _) eqn:Ef; [|by apply returns_no_name].
  apply Hm; [|done]. by apply (wo_name _ _ _ HW) in Ef.
Qed.

Lemma returns_bind σ o (f : Z * st -> option (Z * st)) : returns σ o -> res_equiv E cfg o o -> (forall z σ', keeps σ' -> returns σ' (f (z, σ'))) ->
  returns σ (o ≫= f).
Proof.
  intros (z & σ' & -> & H1) Ho Hf. inversion Ho as [? ? [_ Hk]|]; subst. bind_simpl. destruct (Hf z σ' Hk) as (z' & σ2 & -> & H2). exists z', σ2.
  split; [done|]. by eapply asks_trans.
Qed.

Lemma returns_dst_name m σ : is_host (host (url r)) -> name_returns m -> keeps σ -> returns σ (dst_name E (host (url r)) m σ).
Proof.
  intros Hh Hm Hk. unfold dst_name. apply returns_bind; [by apply Hm|by apply Hm; [apply Hh|]|]. intros z τ Hτ. cbn. destruct (negb _); [apply returns_same|].
  destruct (ipcacheCheckNumeric E _) as [a|] eqn:En; [|apply returns_same]. rewrite (wo_num _ _ _ HW) in En.
  destruct (fqdncache_gethostbyaddr E a) eqn:Ef; [apply Hm; [|done]; by apply (wo_name _ _ _ HW) in Ef|]. apply returns_no_name; [done..| |done]. by rewrite En.
Qed.

(** The element in the store. *)
Lemma keeps_lookup i a σ : cfg !! i = Some a -> keeps σ ->
  exists b, acls σ !! i = Some b /\ type b = type a /\ data_equiv (type a) (data a) (data b).
Proof.
  intros Hi Hk. destruct (Forall2_lookup_l _ _ _ _ _ (se_acls1 _ _ _ _ Hk) Hi) as (b & Hb & _ & H2 & H3). by exists b.
Qed.

Lemma domain_returns i n ty t : cfg !! i = Some (mkAcl n ty (D_domain t)) -> name_returns (at_domain i).
Proof.
  intros Hi. split; [|intros h σ σ' Hh H; by apply at_domain_equiv]. intros h σ Hh Hk. destruct (keeps_lookup i _ σ Hi Hk) as ([n' ty' d] & Hb & _ & Hd).
  cbn in Hd. destruct d; try done. destruct (at_domain_val i n' ty' t0 h σ Hb) as (σ' & -> & Hc); [apply Hd|done|]. by apply returns_ck.
Qed.

Lemma regex_returns i n ty l : cfg !! i = Some (mkAcl n ty (D_regex l)) -> name_returns (at_regex E i).
Proof.
  intros Hi. split; [|intros h σ σ' _ H; by apply at_regex_equiv]. intros h σ Hh Hk. destruct (keeps_lookup i _ σ Hi Hk) as ([n' ty' d] & Hb & _ & Hd).
  cbn in Hd. destruct d; try done. destruct (at_regex_val E i n' ty' l0 h σ Hb) as (σ' & -> & Hc). by apply returns_ck.
Qed.

Lemma returns_unescaped i n ty l w σ : acls σ !! i = Some (mkAcl n ty (D_regex l)) -> unescapes w -> returns σ (unescaped E i w σ).
Proof.
  intros Hi (t & b & -> & Hb). unfold unescaped. bind_simpl. rewrite Hb. bind_simpl.
  destruct (at_regex_val E i n ty l (cstr_of b) σ Hi) as (σ' & -> & Hc). by apply returns_ck.
Qed.

Lemma hdr_equiv_gets (h : HttpHeader.HttpHeader) l k : Forall2 hdr_equiv l k ->
  Forall (fun x => is_Some (if negb (hdr_id x =? -1) then HttpHeader.httpHeaderGetStrOrList h (hdr_id x) else HttpHeader.httpHeaderGetByName h (hdr_name x))) l ->
  Forall (fun x => is_Some (if negb (hdr_id x =? -1) then HttpHeader.httpHeaderGetStrOrList h (hdr_id x) else HttpHeader.httpHeaderGetByName h (hdr_name x))) k.
Proof. induction 1 as [|x y l k (H1 & H2 & _) _ IH]; intros Hl; [constructor|]. apply List.Forall_cons_iff in Hl as [Hx Hl]. constructor; [by rewrite <- H1, <- H2|by apply IH]. Qed.

Lemma header_gets h hs l : h ∈ hs ->
  Forall (fun x => Forall (fun hdr => is_Some (if negb (hdr_id x =? -1) then HttpHeader.httpHeaderGetStrOrList hdr (hdr_id x)
                                               else HttpHeader.httpHeaderGetByName hdr (hdr_name x))) hs) l ->
  Forall (fun x => is_Some (if negb (hdr_id x =? -1) then HttpHeader.httpHeaderGetStrOrList h (hdr_id x) else HttpHeader.httpHeaderGetByName h (hdr_name x))) l.
Proof. intros Hh Hl. eapply List.Forall_impl; [|exact Hl]. intros x Hx. cbn in *. rewrite List.Forall_forall in Hx. apply Hx. by apply list_elem_of_In. Qed.

(** One element other than "any-of". *)
Lemma match_type_returns i a b σ : keeps σ -> input_ok (ck σ) r -> cfg !! i = Some a -> elem_ok (headers (ck σ) r) i a -> type a <> ACL_ANY_OF ->
  acls σ !! i = Some b -> type b = type a -> data_equiv (type a) (data a) (data b) -> returns σ (match_type E i b σ).
Proof.
  intros Hk [(A1 & A2 & A3 & A4) Hr Hro Hre] Hi [_ He] Hany Hb Ht Hd. destruct a as [n t d], b as [n' t' d']. cbn [type data] in *. subst t'.
  pose proof (data_equiv_shape _ _ _ Hd) as Hs. unfold match_type. cbn [type data]. rewrite Hr.
  destruct t; try done; destruct d; try (exfalso; exact He); destruct d'; try (exfalso; exact Hs); bind_simpl.
  all: try (apply returns_ip; [apply Hd|done]).
  all: try (apply returns_range). all: try (apply returns_regex). all: try apply returns_same.
  all: try (apply returns_src_name; [|done]; by eapply domain_returns || by eapply regex_returns).
  all: try (apply returns_dst_name; [apply Hro| |done]; by eapply domain_returns || by eapply regex_returns).
  all: try (eapply returns_unescaped; [exact Hb|apply Hro]).
  - destruct (ipcache_gethostbyname E _) as [ia|] eqn:Eh; [|case_bool_decide; [by apply returns_need|apply returns_same]].
    eapply returns_some; [apply ip_loop_val; [apply Hd|by eapply (eo_host E (wo_env _ _ _ HW))]|done].
  - injection Hs as <-. destruct (aclMatchTime_val E _ l (wo_env _ _ _ HW) (se_t1 _ _ _ _ Hk) He) as (c' & -> & _). by apply returns_ck.
  - destruct (conn (ck σ)) as [cn|]; [destruct (port_name cn)|]; apply returns_same.
  - injection Hs as <-. destruct He as [x ->]. apply returns_same.
  - unfold aclMatchInteger. destruct (match_second _ _). by apply returns_ck.
  - destruct (ro_agent r Hro) as [[v|] ->]; [apply returns_regex|apply returns_same].
  - destruct (ro_referer r Hro) as [[v|] ->]; [apply returns_regex|apply returns_same].
  - destruct (ipcache_gethostbyname E _); [apply returns_same|]. case_bool_decide; [by apply returns_need|apply returns_same].
  - cbn [data_equiv] in Hd. rewrite decide_False in Hd by done. subst. destruct l0; [done|]. apply returns_same.
  - destruct (ro_ctype r Hro) as [v ->]. apply returns_regex.
  - destruct (reply (ck σ)) as [h|]; [|apply returns_same]. destruct (Hre h eq_refl) as [v ->]. apply returns_regex.
  - destruct (reply (ck σ)) as [h|] eqn:Eh; [|apply returns_same]. apply returns_header. eapply hdr_equiv_gets; [exact Hd|].
    eapply header_gets; [|exact He]. unfold headers. rewrite Eh. apply list_elem_of_In. cbn. auto.
  - apply returns_header. eapply hdr_equiv_gets; [exact Hd|]. eapply header_gets; [|exact He]. apply list_elem_of_In. cbn. auto.
  - destruct (urlgroup r); apply returns_same.
  - destruct He as [v ->]. destruct u0 as [u0|]; [|done]. destruct (extacl_user r); [|apply returns_same]. apply returns_user. apply Hd.
  - destruct (extacl_user r); [apply returns_regex|apply returns_same].
  - destruct (ro_hier r Hro) as [v ->]. apply returns_same.
  - destruct (fwdip_addr (ck σ) =? 0); [apply returns_same|]. apply returns_ip; [apply Hd|done].
Qed.

(** The checklist of the request, with values for every element. *)
Definition inputs (c : aclCheck_t) : Prop :=
  input_ok c r /\ forall i a, cfg !! i = Some a -> elem_ok (headers c r) i a.

Lemma asks_inputs c c' : asks num (host (url r)) c c' -> inputs c -> inputs c'.
Proof. intros [[x ->] _] [[H1 H2 H3 H4] H5]. split; [by constructor|]. done. Qed.

Lemma asks_keeps c σ : keeps σ -> check_ok c -> keeps (set_ck c σ).
Proof. intros [] Hc. by constructor. Qed.

Definition acl_returns (m : nat -> st -> option (Z * st)) (i : nat) : Prop :=
  forall σ, keeps σ -> inputs (ck σ) -> returns σ (m i σ) /\ res_equiv E cfg (m i σ) (m i σ).

Lemma acl_returns_bind m i σ (f : Z * st -> option (Z * st)) : acl_returns m i -> keeps σ -> inputs (ck σ) ->
  (forall z σ', keeps σ' -> inputs (ck σ') -> returns σ' (f (z, σ'))) ->
  returns σ (m i (set_ck (set_current (Some i) (ck σ)) σ) ≫= f).
Proof.
  intros Hm Hk Hi Hf. pose proof (asks_current num (host (url r)) (Some i) (ck σ)) as Ha.
  destruct (Hm (set_ck (set_current (Some i) (ck σ)) σ)) as [(z & σ' & Ez & H1) H2].
  { apply asks_keeps; [done|]. apply (asks_inputs _ _ Ha Hi). }
  { by eapply asks_inputs. }
  rewrite Ez in H2 |- *. inversion H2 as [? ? [_ Hk']|]; subst. bind_simpl. cbn in H1. pose proof (asks_trans _ _ _ _ _ Ha H1) as H3.
  destruct (Hf z σ' Hk') as (z2 & σ2 & -> & H4); [by eapply asks_inputs|]. exists z2, σ2. split; [done|]. by eapply asks_trans.
Qed.

Lemma any_of_returns m l : Forall (fun x => acl_returns m (acl_ix x)) l -> forall σ, keeps σ -> inputs (ck σ) -> returns σ (aclMatchAnyOf m l σ).
Proof.
  induction 1 as [|x l Hx Hl IH]; intros σ Hk Hi; cbn [aclMatchAnyOf]; [apply returns_same|].
  apply acl_returns_bind; [done..|]. intros z σ' Hk' Hi'. destruct (negb _); [by apply IH|apply returns_same].
Qed.

Lemma list_returns m l : Forall (fun x => acl_returns m (acl_ix x)) l -> forall σ, keeps σ -> inputs (ck σ) -> returns σ (aclMatchAclList_with m l σ).
Proof.
  induction 1 as [|x l Hx Hl IH]; intros σ Hk Hi; cbn [aclMatchAclList_with]; [apply returns_same|].
  apply acl_returns_bind; [done..|]. intros z σ' Hk' Hi'. destruct (negb _); [apply returns_same|by apply IH].
Qed.

Lemma aclMatchAcl_returns fuel : forall i, (i < fuel)%nat -> (i < length cfg)%nat -> acl_returns (aclMatchAcl E fuel) i.
Proof.
  induction fuel as [|fuel IH]; intros i Hf Hl σ Hk [Hin Hel]; [lia|]. split; [|apply aclMatchAcl_equiv; [apply (wo_env _ _ _ HW)|done]].
  cbn [aclMatchAcl]. destruct (lookup_lt_is_Some_2 cfg i Hl) as [a Ha]. destruct (keeps_lookup i a σ Ha Hk) as (b & Hb & Ht & Hd). rewrite Hb. bind_simpl.
  rewrite (io_request _ _ Hin). cbn [is_some negb]. rewrite andb_false_r.
  pose proof (Hel i a Ha) as He. assert (type a <> ACL_ANY_OF -> returns σ (match_type E i b σ)) as Hm by (intros ?; by eapply match_type_returns).
  destruct a as [n t d], b as [n' t' d']. cbn [type data] in *. subst t'. destruct t; try (by apply Hm).
  destruct He as [_ He]. destruct d; try done. cbn in Hd. destruct d'; try done. injection Hd as <-. cbn [type data] in He.
  apply any_of_returns; [|done..]. eapply List.Forall_impl; [|exact He]. cbn. intros x Hx. apply IH; lia.
Qed.
End total.

(** ** Lookups still to be made *)

Lemma surj_st σ : σ = set_ck (ck σ) σ.
Proof. by destruct σ. Qed.

Definition open_state (v : acl_lookup_state) : nat := match v with ACL_LOOKUP_NONE | ACL_LOOKUP_NEEDED => 1 | _ => 0 end.

(** How many kinds of lookup a check can still make. *)
Definition open_slots (c : aclCheck_t) : nat :=
  open_state (state c S_DST_IP) + open_state (state c S_DST_ASN) + open_state (state c S_SRC_DOMAIN) + open_state (state c S_DST_DOMAIN).

Lemma asks_open num h c c' : asks num h c c' -> open_slots c' = open_slots c.
Proof.
  intros [_ Hs]. unfold open_slots.
  assert (forall s, open_state (state c' s) = open_state (state c s)) as Ho; [|by rewrite !Ho].
  intros s. destruct (Hs s) as [->|(_ & -> & -> & _)]; done.
Qed.

(** Nothing but names and addresses has been asked for. *)
Definition quiet (num : bytes -> option Z) (h : bytes) (c : aclCheck_t) : Prop :=
  (forall s, dns_slot s = false -> state c s = ACL_LOOKUP_NONE) /\ (state c S_DST_DOMAIN = ACL_LOOKUP_NEEDED -> is_Some (num h)).

Lemma asks_quiet num h c c' : asks num h c c' -> quiet num h c -> quiet num h c'.
Proof.
  intros [_ Hs] [Q1 Q2]. split.
  - intros s Hd. destruct (Hs s) as [->|(Hd' & _)]; [by apply Q1|congruence].
  - intros H. destruct (Hs S_DST_DOMAIN) as [E|(_ & _ & _ & Hn)]; [apply Q2; congruence|by apply Hn].
Qed.

Lemma set_state_open s v c : dns_slot s = true -> open_state v = 0%nat -> open_state (state c s) = 1%nat ->
  (open_slots (set_state s v c) + 1 = open_slots c)%nat.
Proof.
  intros Hd Hv Hs. unfold open_slots. cbn [state set_state]. destruct s; try done; rewrite fn_lookup_insert, Hv, !fn_lookup_insert_ne by done; lia.
Qed.

Lemma set_state_quiet num h s v c : dns_slot s = true -> v <> ACL_LOOKUP_NEEDED -> quiet num h c -> quiet num h (set_state s v c).
Proof.
  intros Hd Hv [Q1 Q2]. split; cbn [state set_state].
  - intros s' Hd'. rewrite fn_lookup_insert_ne by congruence. by apply Q1.
  - destruct (decide (s = S_DST_DOMAIN)) as [->|]; [by rewrite fn_lookup_insert|]. by rewrite fn_lookup_insert_ne.
Qed.

Section check.
Context (lt : Z -> tm) (num : bytes -> option Z) (r : acl_request) (cfg : list acl).

(** Between runs. *)
Record ready (σ : st) : Prop := {
  rd_acls : Forall2 acl_equiv cfg (acls σ);
  rd_time : time_ok lt (times σ);
  rd_in : inputs r cfg (ck σ);
  rd_quiet : quiet num (host (url r)) (ck σ)
}.

Lemma ready_keeps E σ : world_ok lt num E -> ready σ -> st_equiv E cfg σ σ.
Proof. intros HW []. constructor; try done; rewrite ?(wo_time _ _ _ HW); try done. by destruct rd_in0 as [[] _]. Qed.

Lemma keeps_ready E σ c : world_ok lt num E -> st_equiv E cfg σ σ -> inputs r cfg c -> quiet num (host (url r)) c -> ready (set_ck c σ).
Proof. intros HW [] Hi Hq. constructor; try done. cbn. by rewrite <- (wo_time _ _ _ HW). Qed.

Lemma set_state_inputs s v c : inputs r cfg c -> inputs r cfg (set_state s v c).
Proof. intros [[H1 H2 H3 H4] H5]. split; [by constructor|done]. Qed.

(** The rules refer to elements of the configuration. *)
Definition refs_ok (A : list acl_access) : Prop := Forall (fun a => Forall (fun x => (acl_ix x < length cfg)%nat) (acl_list a)) A.

(** How a run ends: with an answer, or with one kind of lookup less to make. *)
Definition progress (A : list acl_access) (n : nat) (o : option (outcome * st)) : Prop :=
  exists o' σ', o = Some (o', σ') /\ match o' with
    | Answer _ => True
    | Lookup s A' => dns_slot s = true /\ refs_ok A' /\ ready σ' /\ (open_slots (ck σ') < n)%nat /\ state (ck σ') s = ACL_LOOKUP_PENDING
    | Nothing => False
    end.

Context (E : aclenv) (HW : world_ok lt num E).

Lemma rule_list_ok a σ : refs_ok [a] -> ready σ ->
  exists m σ', aclMatchAclList E (acl_list a) σ = Some (m, σ') /\ ready σ' /\ open_slots (ck σ') = open_slots (ck σ).
Proof.
  intros Hr Hσ. pose proof (ready_keeps E σ HW Hσ) as Hk. unfold aclMatchAclList, depth. rewrite <- (Forall2_length (rd_acls σ Hσ)).
  assert (Forall (fun x => acl_returns num E r cfg (aclMatchAcl E (S (length cfg))) (acl_ix x)) (acl_list a)) as Hl.
  { apply List.Forall_cons_iff in Hr as [Hr _]. eapply List.Forall_impl; [|exact Hr]. intros x Hx. cbn beta in Hx.
    apply (aclMatchAcl_returns lt num E HW); lia. }
  destruct (list_returns num E r cfg _ _ Hl σ Hk (rd_in σ Hσ)) as (m & σ' & Em & Ha). exists m, σ'. split; [done|].
  pose proof (aclMatchAclList_with_equiv E cfg _ _ (acl_list a) σ σ (aclMatchAcl_equiv E (wo_env _ _ _ HW) cfg (S (length cfg))) Hk) as He.
  rewrite Em in He. inversion He as [? ? [_ Hk']|]; subst. cbn in Hk'. split; [|by eapply asks_open].
  rewrite (surj_st σ'). apply (keeps_ready E); [done|done|eapply asks_inputs; [exact Ha|apply Hσ]|eapply asks_quiet; [exact Ha|apply Hσ]].
Qed.

(** After the match of a rule. *)
Lemma rule_lookups_ok V A al m σ : ready σ -> refs_ok A ->
  rule_lookups E V A al m σ = Some (Decided al m σ) \/
  exists s, dns_slot s = true /\ state (ck σ) s = ACL_LOOKUP_NEEDED /\ rule_lookups E V A al m σ = Some (Suspend (Lookup s A) (pending s σ)).
Proof.
  intros [_ _ [Hin _] [Q1 Q2]] Hr. unfold rule_lookups, needed. rewrite (io_request _ _ Hin). bind_simpl.
  assert (forall s, dns_slot s = false -> bool_decide (state (ck σ) s = ACL_LOOKUP_NEEDED) = false) as Hq.
  { intros s Hs. rewrite (Q1 s Hs). done. }
  case_bool_decide; [right; by exists S_DST_IP|]. case_bool_decide; [right; by exists S_DST_ASN|].
  case_bool_decide; [right; by exists S_SRC_DOMAIN|]. case_bool_decide as Hd.
  - right. exists S_DST_DOMAIN. split_and!; try done. rewrite (wo_num _ _ _ HW). by destruct (Q2 Hd) as [x ->].
  - left. rewrite !Hq by done. rewrite (Q1 S_PROXY_AUTH) by done. done.
Qed.

Lemma check_loop_ok V A : refs_ok A -> forall al σ, ready σ -> progress A (open_slots (ck σ)) (check_loop E V A al σ).
Proof.
  induction A as [|a A IH]; intros Hr al σ Hσ; cbn [check_loop]; [by eexists _, _|].
  destruct (rules_valid V); cbn [negb]; [|by eexists _, _]. pose proof Hr as Hr'. apply List.Forall_cons_iff in Hr' as [Ha HA].
  destruct (rule_list_ok a σ) as (m & σ1 & -> & H1 & Ho); [by constructor|done|]. bind_simpl.
  destruct (rule_lookups_ok V (a :: A) (if m =? -1 then ACCESS_DENIED else allow_of (allow a)) m σ1 H1 Hr) as [->|(s & Hd & Hs & ->)]; bind_simpl.
  - destruct (negb (m =? 0)); [by eexists _, _|]. rewrite <- Ho. by apply IH.
  - eexists _, _. split; [done|]. pose proof (set_state_open s ACL_LOOKUP_PENDING (ck σ1) Hd eq_refl ltac:(by rewrite Hs)) as Hn.
    split_and!; [done|done| |cbn; lia|cbn; by rewrite fn_lookup_insert].
    apply (keeps_ready E); [done|by apply ready_keeps|apply set_state_inputs, H1|by apply set_state_quiet; [| |apply H1]].
Qed.
End check.

(** The callbacks of the lookups of names and addresses. *)
Lemma lookup_done_ready lt num r cfg V s id σ : dns_slot s = true -> state (ck σ) s = ACL_LOOKUP_PENDING -> ready lt num r cfg σ ->
  ready lt num r cfg (lookup_done V s id σ) /\ open_slots (ck (lookup_done V s id σ)) = open_slots (ck σ).
Proof.
  intros Hd Hp [R1 R2 R3 R4]. assert (lookup_done V s id σ = set_ck (set_state s ACL_LOOKUP_DONE (ck σ)) σ) as -> by (by destruct s). split.
  - constructor; [done|done|by apply set_state_inputs|by apply set_state_quiet].
  - unfold open_slots. cbn [state set_state ck set_ck].
    assert (forall s', open_state ((<[s:=ACL_LOOKUP_DONE]> (state (ck σ))) s') = open_state (state (ck σ) s')) as Ho; [|by rewrite !Ho].
    intros s'. destruct (decide (s = s')) as [->|]; [by rewrite fn_lookup_insert, Hp|by rewrite fn_lookup_insert_ne].
Qed.

Lemma check_run_ok lt num r cfg later : forall E V A σ, world_ok lt num E -> Forall (fun w => world_ok lt num w.1.1) later ->
  refs_ok cfg A -> ready lt num r cfg σ -> (open_slots (ck σ) <= length later)%nat ->
  exists a σ', check_run E V A σ later = Some (Answer a, σ').
Proof.
  induction later as [|[[E' V'] id] later IH]; intros E V A σ HW Hl Hr Hσ Hn; cbn [check_run];
    destruct (check_loop_ok lt num r cfg E HW V A Hr ACCESS_DENIED σ Hσ) as (o & σ1 & E1 & Ho); unfold aclCheck; rewrite E1; bind_simpl.
  - destruct o as [s A'|a|]; [|by eexists _, _|done]. destruct Ho as (_ & _ & _ & Ho & _). cbn in Hn. lia.
  - destruct o as [s A'|a|]; [|by eexists _, _|done]. destruct Ho as (Hd & Hr' & Hrd & Ho & Hp). apply List.Forall_cons_iff in Hl as [HW' Hl].
    destruct (lookup_done_ready lt num r cfg V' s id σ1 Hd Hp Hrd) as [Hrd' Ho']. cbn in Hn. apply IH; try done. rewrite Ho'. lia.
Qed.

(** C7. A check that waits for names and addresses is answered: with a new
    checklist, rules over sane elements that need no authentication, ident or
    helper, a well-formed request and any sequence of worlds to be resumed in,
    [aclNBCheck] calls its callback after at most four lookups, one of each
    kind.  Also the rules may have been freed in the meantime. *)
Theorem aclNBCheck_answers lt num r cfg later E V A σ :
  world_ok lt num E -> Forall (fun w => world_ok lt num w.1.1) later -> (4 <= length later)%nat ->
  refs_ok cfg A -> ready lt num r cfg (aclChecklistCacheInit σ) ->
  exists a σ', check_run E V A (aclChecklistCacheInit σ) later = Some (Answer a, σ').
Proof.
  intros HW Hl Hn Hr Hσ. apply (check_run_ok lt num r cfg); try done.
  assert (open_slots (ck (aclChecklistCacheInit σ)) <= 4)%nat; [|lia]. unfold open_slots.
  assert (forall v, open_state v <= 1)%nat as Ho by (by intros []; cbn; lia).
  pose proof (Ho (state (ck (aclChecklistCacheInit σ)) S_DST_IP)). pose proof (Ho (state (ck (aclChecklistCacheInit σ)) S_DST_ASN)).
  pose proof (Ho (state (ck (aclChecklistCacheInit σ)) S_SRC_DOMAIN)). pose proof (Ho (state (ck (aclChecklistCacheInit σ)) S_DST_DOMAIN)). lia.
Qed.

(** ** Both kinds of check agree *)

Lemma check_loop_decides E cfg c V (v : nat -> bool) A : env_ok E -> config_ok cfg -> rules_valid V = true ->
  (forall s, state c s <> ACL_LOOKUP_NEEDED) -> state c S_PROXY_AUTH <> ACL_PROXY_AUTH_NEEDED ->
  Forall (fun a => Forall (fun x => acl_val E c cfg (S (length cfg)) (acl_ix x) = Some (v (acl_ix x))) (acl_list a)) A ->
  forall last σ, runs E cfg c σ -> exists σ', check_loop E V A (allow_of last) σ = Some (Answer (allow_of (decide_rules v A last)), σ').
Proof.
  intros HE Hcfg HV Hs Hp. induction 1 as [|a A Ha HA IH]; intros last σ Hσ; cbn [check_loop decide_rules]; [destruct last; by eexists|]. rewrite HV. cbn [negb].
  unfold aclMatchAclList, depth. rewrite <- (Forall2_length (proj1 Hσ)).
  destruct (acl_list_gives E cfg c (aclMatchAcl E (S (length cfg))) v (acl_list a)) with (σ := σ) as (σ1 & -> & H1); [|done|].
  { eapply List.Forall_impl; [|exact Ha]. intros x Hx. by apply acl_val_gives. }
  bind_simpl. assert (forall al m, rule_lookups E V (a :: A) al m σ1 = Some (Decided al m σ1)) as Hl.
  { destruct H1 as (_ & _ & _ & x & Hx). intros al m. unfold rule_lookups, needed. rewrite Hx. cbn [state set_current].
    rewrite !bool_decide_false by (done || apply Hs). done. }
  rewrite Hl. bind_simpl. destruct (forallb _ (acl_list a)); cbn; [by eexists|]. by apply IH.
Qed.

(** C22. When no element of the rules needs a lookup, a check that may wait
    answers at once, with the answer of [aclCheckFast]. *)
Theorem aclNBCheck_fast E cfg c A v V σ :
  env_ok E -> config_ok cfg -> check_ok c ->
  Forall2 acl_equiv cfg (acls σ) -> time_ok (localtime E) (times σ) -> ck (aclChecklistCacheInit σ) = c ->
  rules_valid V = true -> (forall s, state c s = ACL_LOOKUP_NONE) ->
  Forall (fun a => Forall (fun x => acl_val E c cfg (S (length cfg)) (acl_ix x) = Some (v (acl_ix x))) (acl_list a)) A ->
  fst <$> aclNBCheck E V A σ = (fun r => Answer (allow_of (fst r))) <$> aclCheckFast E A σ.
Proof.
  intros HE Hcfg Hc Ha Ht Hck HV Hs HA.
  pose proof (cache_init_runs E cfg c σ Hc Ha Ht Hck) as Hr.
  destruct (fast_loop_decides E HE cfg Hcfg c v A HA false _ Hr) as (σ1 & Hf). unfold aclCheckFast. rewrite Hf.
  destruct (check_loop_decides E cfg c V v A HE Hcfg HV) with (last := false) (σ := aclChecklistCacheInit σ) as (σ2 & Hl); try done.
  { intros s. by rewrite Hs. }
  { by rewrite Hs. }
  unfold aclNBCheck, aclCheck. change ACCESS_DENIED with (allow_of false). by rewrite Hl.
Qed.

(** ** Instances *)

(** The world after the client's name was found. *)
Definition named_world : aclenv :=
  mkAclEnv (fun _ _ => false) (fun _ => mkTm 12 0 1) 1000001 (fun _ => None) (fun _ => None) (fun _ => Some (str "pc7.example.com")) (fun _ => 0) (fun _ _ => false)
    (fun _ => (AUTH_ACL_CHALLENGE, false)) None (fun _ => false) (fun _ => E_lookup).

Definition name_rules : list acl_access := [mkAccess false [mkAclRef false 1]; mkAccess true [mkAclRef true 5; mkAclRef true 4]].

Lemma is_host_pc7 : is_host (str "pc7.example.com").
Proof. split; [repeat constructor; lia|done]. Qed.

Lemma named_world_ok : world_ok (localtime wit_world) (fun _ => None) named_world.
Proof.
  constructor; try done; [constructor; try done|]; intros a n [= <-]; [|apply is_host_pc7]. apply is_host_pc7.
Qed.

Lemma wit_world_wait_ok : world_ok (localtime wit_world) (fun _ => None) wit_world.
Proof. by constructor. Qed.

Lemma wit_request_ok : request_ok wit_request.
Proof.
  assert (forall w, match w with Some t => is_Some (Rfc1738.rfc1738_unescape (t ++ [0])) | None => False end -> unescapes w) as Hu.
  { intros [t|]; [intros [b Hb]; by exists t, b|done]. }
  constructor; try (apply Hu); try (vm_compute; eexists; reflexivity). split; [repeat constructor; lia|done].
Qed.

Lemma wit_ready : ready (localtime wit_world) (fun _ => None) wit_request wit_cfg (aclChecklistCacheInit (st0 wit_cfg (wit_check (ip 10 1 2 3)))).
Proof.
  constructor; [apply wit_cfg_ok|by left| |by split].
  split; [constructor; [|done|apply wit_request_ok|done]|].
  - split_and!; [done|done|done|]. intros q [= <-]. split_and!; [repeat constructor; lia|done|done].
  - intros i e He. do 6 (destruct i as [|i]; [injection He as <-; split; [done|]; cbn; repeat constructor; (done || lia)|]). done.
Qed.

Lemma aclNBCheck_answers_witness :
  (exists a σ', check_run wit_world all_valid name_rules (aclChecklistCacheInit (st0 wit_cfg (wit_check (ip 10 1 2 3)))) (repeat (named_world, all_valid, None) 4) = Some (Answer a, σ')) /\
  fst <$> check_run wit_world all_valid name_rules (aclChecklistCacheInit (st0 wit_cfg (wit_check (ip 10 1 2 3)))) (repeat (named_world, all_valid, None) 4) = Some (Answer ACCESS_ALLOWED).
Proof.
  split; [|by vm_compute].
  apply (aclNBCheck_answers (localtime wit_world) (fun _ => None) wit_request wit_cfg); [apply wit_world_wait_ok| |cbn; lia| |apply wit_ready].
  - apply List.Forall_forall. intros w Hw. apply List.repeat_spec in Hw. subst w. apply named_world_ok.
  - repeat constructor; cbn; lia.
Defined.

Lemma aclNBCheck_fast_witness :
  fst <$> aclNBCheck wit_world all_valid wit_rules (st0 wit_cfg (wit_check (ip 10 1 2 3))) = Some (Answer ACCESS_ALLOWED).
Proof.
  rewrite (aclNBCheck_fast wit_world wit_cfg (wit_check (ip 10 1 2 3)) wit_rules (fun _ => true));
    [by vm_compute|apply wit_world_ok|apply wit_cfg_ok|by apply wit_check_ok|apply wit_cfg_ok|by left|done..|].
  repeat constructor; by vm_compute.
Defined.
End AclWait.
