(* ===== verification/AclConfig.v ===== *)
(** * Reading the access lists of a configuration

    What the parsers of src/acl.c give, for the checks of the other files:
    the elements of a configuration are of the types they are declared with,
    their trees are in order, names are unique and references are defined; the
    networks and domains of an element are those of its words; the errors of
    rule lines.  Then the ways a configuration is read that are not what its
    author means: cycles of "any-of" elements, lines that are lost. *)

From Stdlib Require Import ZArith Lia Sorted Ascii String.
From stdpp Require Import base strings list numbers option.
From S2P Require Import Prelude CStr StrList Splay HttpHeaderType HttpHeader HttpMethod Url AclData AclParse Acl AclCheck.
Import Splay Url AclData AclParse Acl AclCheck.

Module AclConfig.

(** ** Insertions *)

Lemma splay_loop_ext {A} (f g : A -> Z) n : (forall x, f x = g x) -> forall top, (length (flatten top) <= n)%nat ->
  forall l r, splay_loop f l r top = splay_loop g l r top.
Proof.
  intros Hfg. induction n as [|n IH]; intros [|lt d rt] Hn l r; try done; cbn [flatten] in Hn; rewrite length_app in Hn; cbn [length] in Hn; [lia|].
  cbn [splay_loop]. rewrite !Hfg. destruct (g d <? 0).
  - destruct lt as [|yl yd yr]; [done|]. rewrite Hfg. cbn [flatten] in Hn. rewrite length_app in Hn. cbn [length] in Hn.
    destruct (g yd <? 0); [destruct yl; [done|]|]; apply IH; cbn [flatten length] in *; rewrite ?length_app in *; cbn [length] in *; lia.
  - destruct (0 <? g d); [|done]. destruct rt as [|yl yd yr]; [done|]. rewrite Hfg. cbn [flatten] in Hn. rewrite length_app in Hn. cbn [length] in Hn.
    destruct (0 <? g yd); [destruct yr; [done|]|]; apply IH; cbn [flatten length] in *; rewrite ?length_app in *; cbn [length] in *; lia.
Qed.

Lemma splay_insert_ext {A} (f g : A -> A -> Z) d t : (forall x, f d x = g d x) -> splay_insert f d t = splay_insert g d t.
Proof.
  intros Hfg. unfold splay_insert, splay_splay. destruct t; [done|]. by rewrite (splay_loop_ext (f d) (g d) _ Hfg _ (le_n _)).
Qed.

Lemma of_option_Ret {A} (o : option A) a : o = Some a -> of_option o = Ret a.
Proof. by intros ->. Qed.

(** The networks of a list of words, and the tree of those kept. *)
Lemma ip_insert_list_all l t : ip_insert_list l t = of_option (insert_all aclIpNetworkCompare2 addr1 l t).
Proof.
  revert t. induction l as [|q l IH]; intros t; [done|]. cbn [ip_insert_list insert_all]. unfold ip_insert.
  rewrite (splay_insert_ext aclIpNetworkCompare (range_cmp aclIpNetworkCompare2 addr1)) by apply aclIpNetworkCompare_range.
  destruct (splay_insert _ q t) as [[t' res]|]; [|done]. cbn. apply IH.
Qed.

Abbreviation ip_kept := (kept aclIpNetworkCompare2 addr1).
Abbreviation dom_kept := (kept dom_cmp (fun d => d)).

Lemma kept_app {A P} (cmp : P -> A -> Z) rep acc l k : kept cmp rep acc (l ++ k) = kept cmp rep (kept cmp rep acc l) k.
Proof. unfold kept. by rewrite foldl_app. Qed.

Lemma ip_insert_list_ok l t acc : Forall ip_wf l -> ip_tree t -> flatten t ≡ₚ acc ->
  exists t', ip_insert_list l t = Ret t' /\ ip_tree t' /\ flatten t' ≡ₚ ip_kept acc l.
Proof.
  intros Hl Ht Hp. destruct (insert_all_ok _ _ _ _ _ l t acc Hl Ht Hp) as (t' & E & H). exists t'. split; [|done].
  rewrite ip_insert_list_all. by apply of_option_Ret.
Qed.

Lemma aclParseIpList_ok env toks nets : forall t acc, Forall2 (fun w l => aclParseIpData env w = Ret l) toks nets ->
  Forall ip_wf (concat nets) -> ip_tree t -> flatten t ≡ₚ acc ->
  exists t', aclParseIpList env t toks = Ret t' /\ ip_tree t' /\ flatten t' ≡ₚ ip_kept acc (concat nets).
Proof.
  intros t acc H. revert t acc. induction H as [|w l toks nets Hw _ IH]; intros t acc Hn Ht Hp; cbn [aclParseIpList concat] in *; [by exists t|].
  apply Forall_app in Hn as [H1 H2]. rewrite Hw. cbn [mbind res_bind]. destruct (ip_insert_list_ok l t acc H1 Ht Hp) as (t1 & -> & Ht1 & Hp1).
  cbn [mbind res_bind]. destruct (IH t1 _ H2 Ht1 Hp1) as (t2 & -> & Ht2 & Hp2). exists t2. by rewrite kept_app.
Qed.

Lemma dom_insert_ok d t acc : dom_wf d -> dom_tree t -> flatten t ≡ₚ acc ->
  exists t' res, splay_insert_p aclDomainCompare d t = Some (t', res) /\ dom_tree t' /\ flatten t' ≡ₚ dom_kept acc [d].
Proof.
  intros Hd Ht Hp. unfold splay_insert_p. rewrite (visits_defined _ dom_wf); [|apply Ht|].
  - rewrite (splay_insert_ext _ (range_cmp dom_cmp (fun d => d))).
    + destruct (insert_all_ok dom_cmp _ _ _ _ [d] t acc) as (t' & E & H); [by constructor|done|done|]. cbn [insert_all] in E.
      destruct (splay_insert _ d t) as [[t1 res]|]; [|done]. injection E as <-. by exists t1, res.
    + intros x. unfold aclDomainCompare, range_cmp, dom_cmp. destruct (aclHostDomainCompare x d) as [z|]; [|done]. cbn.
      destruct (Z.eqb_spec z 0) as [->|]; done.
  - intros x Hx. unfold aclDomainCompare. assert (forall y, dom_wf y -> is_host y) as Hh by (by intros y (? & ? & _)).
    destruct (dom_cmp_sign x d (Hh x Hx) Hd) as [-> _]. destruct (dom_cmp_sign d x (Hh d Hd) Hx) as [-> _]. cbn. destruct (negb _); by eexists.
Qed.

Lemma aclParseDomainList_ok toks : forall t acc, Forall (fun w => dom_wf (map tolower w)) toks -> dom_tree t -> flatten t ≡ₚ acc ->
  exists t', aclParseDomainList t toks = Ret t' /\ dom_tree t' /\ flatten t' ≡ₚ dom_kept acc (map (map tolower) toks).
Proof.
  induction toks as [|w toks IH]; intros t acc Hw Ht Hp; cbn [aclParseDomainList map]; [by exists t|]. apply List.Forall_cons_iff in Hw as [Hw Hws].
  destruct (dom_insert_ok _ t acc Hw Ht Hp) as (t1 & res & -> & Ht1 & Hp1). cbn [of_option mbind res_bind].
  destruct (IH t1 _ Hws Ht1 Hp1) as (t2 & -> & Ht2 & Hp2). exists t2. split; [done|]. split; [done|]. rewrite Hp2. by rewrite <- kept_app.
Qed.

(** ** Users *)

Definition user_word (ci : bool) (w : bytes) : bytes := if ci then map tolower w else w.

Lemma user_insert_ok ci t w : sorted strcmp t -> (ci = true -> Forall (fun n => map tolower n = n) (flatten t)) ->
  exists t', user_insert ci t w = Ret t' /\ sorted strcmp t' /\ (ci = true -> Forall (fun n => map tolower n = n) (flatten t')) /\
    forall n, n ∈ flatten t' <-> n ∈ flatten t \/ n = user_word ci w.
Proof.
  intros Hs Hc. unfold user_insert. fold (user_word ci w). destruct (splay_insert_ok strcmp (user_word ci w) t Hs) as (t' & res & -> & Hs' & Hi).
  exists t'. split; [done|]. split; [done|]. assert (forall n, n ∈ flatten t' <-> n ∈ flatten t \/ n = user_word ci w) as Hn.
  { intros n. unfold inserted in Hi. destruct (decide _) as [He|_].
    - rewrite Hi. apply Exists_exists in He as (x & Hx%list_elem_of_In & E). apply strcmp_zero in E. subst x. naive_solver.
    - destruct Hi as (l1 & l2 & -> & ->). rewrite !elem_of_app, elem_of_cons. naive_solver. }
  split; [|done]. intros E. apply List.Forall_forall. intros n Hin%list_elem_of_In. apply Hn in Hin as [Hin| ->].
  - specialize (Hc E). rewrite List.Forall_forall in Hc. by apply Hc, list_elem_of_In.
  - rewrite E. cbn. rewrite map_map. apply map_ext. intros c. apply HttpMethod.tolower_idem.
Qed.

Lemma user_loop_ok ci toks : forall t, sorted strcmp t -> (ci = true -> Forall (fun n => map tolower n = n) (flatten t)) ->
  exists t', user_loop ci t toks = Ret t' /\ sorted strcmp t' /\ (ci = true -> Forall (fun n => map tolower n = n) (flatten t')) /\
    forall n, n ∈ flatten t' <-> n ∈ flatten t \/ n ∈ map (user_word ci) toks.
Proof.
  induction toks as [|w toks IH]; intros t Hs Hc; cbn [user_loop map].
  { exists t. do 3 (split; [done|]). intros n. rewrite elem_of_nil. naive_solver. }
  destruct (user_insert_ok ci t w Hs Hc) as (t1 & -> & Hs1 & Hc1 & Hn1). cbn [mbind res_bind].
  destruct (IH t1 Hs1 Hc1) as (t2 & -> & Hs2 & Hc2 & Hn2). exists t2. do 3 (split; [done|]). intros n. rewrite Hn2, Hn1, elem_of_cons. naive_solver.
Qed.

(** Lines of users, "-i" standing at the beginning of the first line only. *)
Definition user_line_sane (u : option acl_user_data) (toks : list bytes) : Prop :=
  match toks with
  | [] => True
  | w :: _ => w = str "-i" -> match u with None => True | Some d => case_insensitive d = true \/ flatten (names d) = [] end
  end.

Lemma aclParseUserList_ok u toks : (forall d, u = Some d -> users_ok d) -> user_line_sane u toks ->
  exists d, aclParseUserList u toks = Ret (Some d) /\ users_ok d.
Proof.
  intros Hu Hl. unfold aclParseUserList. assert (users_ok (default users_empty u)) as [Hs Hc].
  { destruct u as [d|]; [by apply Hu|]. split; [constructor|]. done. }
  destruct toks as [|w toks]; [by eexists|]. set (d := default users_empty u) in *. set (ci := case_insensitive d || _).
  assert (ci = true -> Forall (fun n => map tolower n = n) (flatten (names d))) as Hci.
  { unfold ci. destruct (case_insensitive d) eqn:Ed; [done|]. cbn [orb]. intros E%bool_decide_eq_true. specialize (Hl E). unfold d in *.
    destruct u as [d'|]; cbn in *; [|constructor]. destruct Hl as [Hl|Hl]; [congruence|]. rewrite Hl. constructor. }
  assert (exists t, (if bool_decide (w = str "-i") || bool_decide (w = str "REQUIRED") then Ret (names d) else user_insert ci (names d) w) = Ret t /\
    sorted strcmp t /\ (ci = true -> Forall (fun n => map tolower n = n) (flatten t))) as (t & -> & Ht & Htc).
  { clearbody ci. destruct (_ || _); [by exists (names d)|]. destruct (user_insert_ok ci (names d) w Hs Hci) as (t & -> & ? & ? & _). by exists t. }
  cbn [mbind res_bind]. destruct (user_loop_ok ci toks t Ht Htc) as (t' & -> & Ht' & Htc' & _). cbn. eexists. split; [done|]. by split.
Qed.

(** ** The configuration *)

(** The data of an element is of its type. *)
Definition same_shape (d d' : acl_data) : bool :=
  match d, d' with
  | D_ip _, D_ip _ | D_domain _, D_domain _ | D_users _, D_users _ | D_regex _, D_regex _ | D_header _, D_header _ | D_time _, D_time _
  | D_int _, D_int _ | D_range _, D_range _ | D_words _, D_words _ | D_type _, D_type _ | D_user_ip _, D_user_ip _
  | D_external _, D_external _ | D_any_of _, D_any_of _ => true
  | _, _ => false
  end.

(** An element of a configuration of [n] elements. *)
Record acl_wf (n : nat) (a : acl) : Prop := {
  aw_type : type a <> ACL_NONE;
  aw_shape : same_shape (null_data (type a)) (data a) = true;
  aw_data : data_equiv (type a) (data a) (data a);
  aw_name : Z.of_nat (length (name a)) < ACL_NAME_SZ;
  aw_refs : match data a with D_any_of l => Forall (fun x => (acl_ix x < n)%nat) l | _ => True end
}.

(** No two elements have the same name. *)
Definition names_unique (l : list acl) : Prop :=
  forall i j a b, l !! i = Some a -> l !! j = Some b -> strcaseeq (name a) (name b) = true -> i = j.

Record config_wf (l : list acl) : Prop := { cw_acls : Forall (acl_wf (length l)) l; cw_names : names_unique l }.

(** A line whose words are what they should be: networks with contiguous masks
    and ranges in order, domains with at most one leading dot, and no "-i"
    after names already read. *)
Definition values_sane (env : cfg_env) (t : squid_acl) (d : acl_data) (line : list bytes) : Prop :=
  let toks := strtokFile env line in
  match d with
  | D_ip _ => Forall (fun w => aclParseIpData env w = Exit \/ exists l, aclParseIpData env w = Ret l /\ Forall ip_wf l) toks
  | D_domain _ => Forall (fun w => dom_wf (map tolower w)) toks
  | D_users u => user_line_sane u toks
  | _ => True
  end.

Definition line_sane (env : cfg_env) (l : list acl) (line : list bytes) : Prop :=
  match line with
  | n :: t :: line =>
      values_sane env (aclStrToType t)
        (match aclFindByName l n ≫= (l !!.) with Some A => data A | None => null_data (aclStrToType t) end) line
  | _ => True
  end.

Fixpoint lines_sane (env : cfg_env) (l : list acl) (lines : list (list bytes)) : Prop :=
  match lines with
  | [] => True
  | line :: lines => line_sane env l line /\ forall l', aclParseAclLine env l line = Ret l' -> lines_sane env l' lines
  end.

Definition env_sane (env : cfg_env) : Prop := forall d n line, aclParseExternal env d n line <> Undef.

(** The data parsed, or an exit. *)
Definition parsed (n : nat) (t : squid_acl) (r : res acl_data) : Prop :=
  match r with
  | Exit => True
  | Undef => False
  | Ret d => same_shape (null_data t) d = true /\ data_equiv t d d /\ match d with D_any_of l => Forall (fun x => (acl_ix x < n)%nat) l | _ => True end
  end.

Lemma find_loop_spec l n : forall i,
  match find_loop l n i with
  | Some j => exists k a, j = (i + k)%nat /\ l !! k = Some a /\ strcaseeq (name a) n = true
  | None => Forall (fun a => strcaseeq (name a) n = false) l
  end.
Proof.
  induction l as [|a l IH]; intros i; cbn [find_loop]; [constructor|]. destruct (strcaseeq (name a) n) eqn:E.
  - exists 0%nat, a. split; [lia|done].
  - specialize (IH (S i)). destruct (find_loop l n (S i)); [|by constructor]. destruct IH as (k & b & -> & H1 & H2). exists (S k), b. split; [lia|done].
Qed.

Lemma aclFindByName_spec l n :
  match aclFindByName l n with
  | Some j => exists a, l !! j = Some a /\ strcaseeq (name a) n = true
  | None => Forall (fun a => strcaseeq (name a) n = false) l
  end.
Proof.
  pose proof (find_loop_spec l n 0) as H. unfold aclFindByName. destruct (find_loop l n 0); [|done]. destruct H as (k & a & -> & H). by exists a.
Qed.

Lemma acl_refs_ok l line : match acl_refs l line with Ret r => Forall (fun x => (acl_ix x < length l)%nat) r | Exit => True | Undef => False end.
Proof.
  induction line as [|w line IH]; cbn [acl_refs]; [constructor|]. set (n := if deref w =? 33 then tail w else w).
  pose proof (aclFindByName_spec l n) as Hf. destruct (aclFindByName l n) as [j|]; [|done]. destruct Hf as (a & Ha & _).
  destruct (acl_refs l line); cbn; try done. constructor; [by apply lookup_lt_Some in Ha|done].
Qed.

Lemma users_equiv_refl u : users_ok u -> users_equiv u u.
Proof. by split. Qed.

Lemma networks_of_words env toks : Forall (fun w => aclParseIpData env w = Exit \/ exists l, aclParseIpData env w = Ret l /\ Forall ip_wf l) toks ->
  forall t, ip_tree t -> match aclParseIpList env t toks with Ret t' => ip_tree t' | Exit => True | Undef => False end.
Proof.
  induction 1 as [|w toks [Hw|(l & Hw & Hl)] _ IH]; intros t Ht; cbn [aclParseIpList]; [done|by rewrite Hw|]. rewrite Hw. cbn [mbind res_bind].
  destruct (ip_insert_list_ok l t _ Hl Ht (Permutation_refl _)) as (t1 & -> & Ht1 & _). cbn [mbind res_bind]. by apply IH.
Qed.

(** None of these parsers does anything undefined. *)
Definition defined {A} (r : res A) : Prop := match r with Undef => False | _ => True end.

Lemma defined_bind {A B} (r : res A) (f : A -> res B) : defined r -> (forall a, defined (f a)) -> defined (r ≫= f).
Proof. destruct r; cbn; auto. Qed.

Lemma xatol_defined w : defined (xatol w).
Proof. unfold xatol. by case_ifs. Qed.

Lemma xatoi_defined w : defined (xatoi w).
Proof. apply defined_bind; [apply xatol_defined|done]. Qed.

Lemma xatos_defined w : defined (xatos w).
Proof. apply defined_bind; [apply xatol_defined|]. intros a. by case_ifs. Qed.

Lemma ints_defined env head toks : defined (aclParseIntlist env head toks).
Proof.
  apply defined_bind; [|done]. induction toks as [|w toks IH]; [done|]. apply defined_bind; [apply xatoi_defined|]. intros i. by apply defined_bind.
Qed.

Lemma ports_defined toks : forall l, defined (aclParsePortRange l toks).
Proof.
  induction toks as [|w toks IH]; intros l; [done|]. apply defined_bind; [|intros; apply IH]. unfold port_range. destruct (strchr w 45).
  - apply defined_bind; [apply xatos_defined|]. intros a. apply defined_bind; [apply xatos_defined|]. intros b. by case_ifs.
  - apply defined_bind; [apply xatos_defined|done].
Qed.

Lemma times_defined toks : forall wb l, defined (time_loop wb l toks).
Proof.
  induction toks as [|w toks IH]; intros wb l; [done|]. cbn [time_loop]. destruct (_ || _).
  - apply defined_bind; [|intros; apply IH]. revert wb. induction w as [|c w IHw]; intros wb; [done|]. apply defined_bind; [|intros; apply IHw].
    unfold day_bits. by case_ifs.
  - apply defined_bind; [|intros; apply IH]. unfold time_range. repeat case_match; done.
Qed.

Lemma types_defined toks : forall t, defined (aclParseType t toks).
Proof. induction toks as [|w toks IH]; intros t; [done|]. cbn [aclParseType]. by repeat case_bool_decide. Qed.

Lemma max_ip_defined u toks : defined (aclParseUserMaxIP u toks).
Proof.
  unfold aclParseUserMaxIP. destruct u; [done|]. destruct toks as [|w toks]; [done|]. case_bool_decide; [destruct toks; [done|]|];
    apply defined_bind; done || apply xatoi_defined.
Qed.

Lemma parsed_bind {A} n t (r : res A) (f : A -> acl_data) : defined r -> (forall a, r = Ret a -> parsed n t (Ret (f a))) -> parsed n t (let? x := r in Ret (f x)).
Proof. destruct r; cbn; auto. Qed.

Lemma parse_data_ok env l t n d line : env_sane env -> t <> ACL_NONE -> same_shape (null_data t) d = true -> data_equiv t d d ->
  match d with D_any_of k => Forall (fun x => (acl_ix x < length l)%nat) k | _ => True end ->
  values_sane env t d line -> parsed (length l) t (parse_data env l t n d line).
Proof.
  intros Henv Ht Hs Hd Hr Hv. unfold parse_data, values_sane in *. set (toks := strtokFile env line) in *.
  destruct t; try done; cbn [null_data] in Hs; destruct d; try discriminate Hs.
  all: try (pose proof (networks_of_words env toks Hv _ (proj1 Hd)) as H; destruct (aclParseIpList _ _ _); cbn in *; done).
  all: try (destruct (aclParseDomainList_ok toks _ _ Hv (proj1 Hd) (Permutation_refl _)) as (t' & -> & Ht' & _); cbn; done).
  all: try (cbn; done).
  all: try (apply parsed_bind; [apply times_defined || apply ints_defined || apply ports_defined || apply types_defined || apply max_ip_defined || done|]; intros; cbn; by case_match || done).
  all: try (destruct (aclParseUserList_ok u toks) as (u' & E & Hu'); [intros u1 ->; apply Hd|done|]; case_ifs; rewrite ?E; cbn; auto using users_equiv_refl).
  all: try (cbn; case_ifs; cbn; auto using hdr_equiv_refl).
  - apply parsed_bind; [|done]. specialize (Henv d n line). by destruct (aclParseExternal env d n line).
  - pose proof (acl_refs_ok l line) as H. unfold aclParseAnyOfList. destruct (acl_refs l line) as [r| |]; cbn; try done. destruct r; done.
Qed.

Lemma acl_wf_more n m a : (n <= m)%nat -> acl_wf n a -> acl_wf m a.
Proof.
  intros Hn [H1 H2 H3 H4 H5]. constructor; try done. destruct (data a); try done. eapply List.Forall_impl; [|exact H5]. cbn. intros. lia.
Qed.

Lemma null_data_ok n t : parsed n t (Ret (null_data t)).
Proof. destruct t; cbn; split_and!; try done; repeat constructor. Qed.

(** What a line may change: it adds an element at the end, or values to the
    element it names. *)
Definition line_changes (l l' : list acl) : Prop :=
  (exists a, l' = l ++ [a]) \/
  exists i a d, l !! i = Some a /\ l' = <[i := mkAcl (name a) (type a) d]> l.

Lemma aclParseAclLine_ok env l line : env_sane env -> config_wf l -> line_sane env l line ->
  match aclParseAclLine env l line with Ret l' => config_wf l' /\ line_changes l l' | Exit => True | Undef => False end.
Proof.
  intros Henv [Hl Hn] Hs. unfold aclParseAclLine. destruct line as [|n line]; [done|]. destruct (Z.leb_spec ACL_NAME_SZ (Z.of_nat (length n))); [done|].
  destruct line as [|w line]; [done|]. destruct (bool_decide_reflect (aclStrToType w = ACL_NONE)) as [|Ht]; [done|]. unfold line_sane in Hs.
  pose proof (aclFindByName_spec l n) as Hf. destruct (aclFindByName l n) as [i|]; cbn [mbind option_bind] in Hs.
  - destruct Hf as (a & Ha & Hname). rewrite Ha in Hs |- *. destruct (bool_decide_reflect (aclStrToType w = type a)) as [E|]; [|done]. cbn [negb]. rewrite E in *.
    pose proof (proj1 (List.Forall_forall _ _) Hl a (proj1 (list_elem_of_In _ _) (list_elem_of_lookup_2 _ _ _ Ha))) as [W1 W2 W3 W4 W5].
    pose proof (parse_data_ok env l (type a) (name a) (data a) line Henv W1 W2 W3 W5 Hs) as Hp. destruct (parse_data _ _ _ _ _ _) as [d| |]; try done. cbn in Hp |- *.
    split; [|right; by exists i, a, d]. destruct Hp as (P1 & P2 & P3). pose proof (lookup_lt_Some _ _ _ Ha) as Hi. constructor.
    + rewrite length_insert. by apply Forall_insert.
    + assert (forall j b, <[i:=mkAcl (name a) (type a) d]> l !! j = Some b -> exists c, l !! j = Some c /\ name c = name b) as Hsame.
      { intros j b. rewrite list_lookup_insert_Some. intros [(<- & <- & _)|[_ Hj]]; [by exists a|by exists b]. }
      intros j k b c (b' & Hb & Eb)%Hsame (c' & Hc & Ec)%Hsame. rewrite <- Eb, <- Ec. by apply (Hn j k b' c').
  - pose proof (parse_data_ok env l (aclStrToType w) n (null_data (aclStrToType w)) line Henv Ht) as Hp.
    destruct (null_data_ok (length l) (aclStrToType w)) as (N1 & N2 & N3). specialize (Hp N1 N2 N3 Hs).
    destruct (parse_data _ _ _ _ _ _) as [d| |].
    + destruct Hp as (P1 & P2 & P3).
      cbn. split; [|left; by eexists]. constructor.
      * rewrite length_app. cbn. apply Forall_app. split; [eapply List.Forall_impl; [|exact Hl]; intros b; apply acl_wf_more; lia|].
        apply List.Forall_cons; [|constructor]. apply (acl_wf_more (length l)); [lia|]. by constructor.
      * intros j k b c Hj Hk Hbc. rewrite List.Forall_forall in Hf. rewrite lookup_snoc_Some in Hj, Hk.
        destruct Hj as [[Hj Eb]|[-> <-]], Hk as [[Hk Ec]|[-> <-]]; [by eapply Hn| | |done].
        -- rewrite Hf in Hbc; [done|]. by apply list_elem_of_In, list_elem_of_lookup_2 with j.
        -- unfold strcaseeq in *. apply bool_decide_eq_true in Hbc. cbn in Hbc. specialize (Hf c). rewrite Hbc in Hf. rewrite bool_decide_true in Hf by done.
           discriminate Hf. by apply list_elem_of_In, list_elem_of_lookup_2 with k.
    + done.
    + done.
Qed.

Lemma line_changes_keep l l' i a : line_changes l l' -> l !! i = Some a -> exists a', l' !! i = Some a' /\ name a' = name a /\ type a' = type a.
Proof.
  intros [[b ->]|(j & b & d & Hj & ->)] Hi; [exists a; split; [by apply lookup_app_l_Some|done]|].
  destruct (decide (i = j)) as [->|Hne]; [|exists a; by rewrite list_lookup_insert_ne].
  assert (a = b) as -> by congruence. eexists. split; [by apply list_lookup_insert_eq, (lookup_lt_Some _ _ _ Hj)|done].
Qed.


(** C23. The networks of an element, for words that are networks with
    contiguous masks or ranges with ordered ends: an address matches the
    element exactly when it belongs to one of the networks that the element
    kept, which are those that do not overlap an earlier network that was
    kept; when no two networks of the words overlap these are all of them. *)
Theorem acl_networks_match env toks nets c :
  Forall2 (fun w l => aclParseIpData env w = Ret l) toks nets -> Forall ip_wf (concat nets) -> is_addr c ->
  exists t t' b, aclParseIpList env NULL toks = Ret t /\ aclMatchIp t c = Some (t', b) /\
    (b = true <-> Exists (fun q => ip_contains q c) (ip_kept [] (concat nets))) /\
    ((forall i j p q, concat nets !! i = Some p -> concat nets !! j = Some q -> i <> j -> ~ ip_overlap p q) ->
     ip_kept [] (concat nets) = concat nets).
Proof.
  intros Hw Hn Hc. destruct (aclParseIpList_ok env toks nets NULL [] Hw Hn) as (t & Et & Ht & Hp); [by split; constructor|done|].
  destruct (aclMatchIp_ok t c Ht Hc) as (t' & b & Em & _ & _ & Hb). exists t, t', b. do 2 (split; [done|]). split; [by rewrite Hb, (Exists_perm _ _ _ Hp)|].
  intros Hd. apply (kept_disjoint aclIpNetworkCompare2 addr1). cbn [app]. intros i j p q Hi Hj Hij. rewrite <- aclIpNetworkCompare_range.
  rewrite List.Forall_forall in Hn. rewrite aclIpNetworkCompare_overlap; [by eapply Hd|..]; by eapply Hn, list_elem_of_In, list_elem_of_lookup_2.
Qed.

(** The same for domains. *)
Lemma acl_domains_match toks h : Forall (fun w => dom_wf (map tolower w)) toks -> is_host h ->
  exists t t' b, aclParseDomainList NULL toks = Ret t /\ aclMatchDomainList t (Some h) = Some (t', b) /\
    (b = true <-> Exists (fun d => dom_contains d h) (dom_kept [] (map (map tolower) toks))).
Proof.
  intros Hw Hh. destruct (aclParseDomainList_ok toks NULL [] Hw) as (t & Et & Ht & Hp); [by split; constructor|done|].
  destruct (aclMatchDomainList_ok t h Ht Hh) as (t' & b & Em & _ & _ & Hb). exists t, t', b. do 2 (split; [done|]). by rewrite Hb, (Exists_perm _ _ _ Hp).
Qed.

(** ** Rule lines *)

(** The name of a condition, after "!". *)
Definition cond_name (w : bytes) : bytes := if deref w =? 33 then tail w else w.
Definition acl_defined (l : list acl) (w : bytes) : Prop := is_Some (aclFindByName l (cond_name w)).

#[export] Instance acl_defined_dec l w : Decision (acl_defined l w).
Proof. unfold acl_defined. apply _. Defined.

(** A condition as it is meant. *)
Definition cond_of (l : list acl) (w : bytes) : acl_ref := mkAclRef (negb (deref w =? 33)) (default 0%nat (aclFindByName l (cond_name w))).

Lemma acl_refs_spec l line : acl_refs l line = if decide (Forall (acl_defined l) line) then Ret (map (cond_of l) line) else Exit.
Proof.
  induction line as [|w line IH]; cbn [acl_refs map]; [done|]. fold (cond_name w). destruct (aclFindByName l (cond_name w)) as [i|] eqn:E.
  - rewrite IH. destruct (decide (Forall (acl_defined l) line)) as [H|H].
    + rewrite decide_True; [unfold cond_of at 2; by rewrite E|]. constructor; [by exists i|done].
    + rewrite decide_False; [done|]. by intros [_ ?]%List.Forall_cons_iff.
  - rewrite decide_False; [done|]. intros [[x Hx] _]%List.Forall_cons_iff. congruence.
Qed.

(** C24. The errors of rule lines ("http_access" and the like): the process
    ends with a message exactly when the line begins with "allow" or "deny"
    and names an element that is not defined, negated or not; a line without
    an action, with another action, or without conditions is ignored, with a
    message; every other line adds its rule after those read before. *)
Theorem access_line_errors l head line :
  aclParseAccessLine l head line =
    match line with
    | action :: conds =>
        if decide (action = str "allow" \/ action = str "deny") then
          if decide (Forall (acl_defined l) conds) then
            if decide (conds = []) then Ret head
            else Ret (head ++ [mkAccess (bool_decide (action = str "allow")) (map (cond_of l) conds)])
          else Exit
        else Ret head
    | [] => Ret head
    end.
Proof.
  destruct line as [|w conds]; [done|]. cbn [aclParseAccessLine]. unfold aclParseAclList. rewrite acl_refs_spec.
  destruct (decide (w = str "allow" \/ w = str "deny")) as [H|H].
  - rewrite <- bool_decide_or, bool_decide_true by done. cbn [negb]. destruct (decide (Forall _ conds)); [|done]. cbn [mbind res_bind]. by destruct conds.
  - by rewrite <- bool_decide_or, bool_decide_false.
Qed.

(** ** Instances *)

Definition wit_lines : list (list bytes) :=
  [words ["local"; "src"; "10.0.0.0/8"; "192.168.1.1-192.168.1.9"]; words ["Ours"; "dstdomain"; ".example.com"]; words ["staff"; "ext_user"; "-i"; "Bob"];
   words ["ours"; "dstdomain"; "example.org"]; words ["either"; "any-of"; "local"; "!ours"]].

Lemma wit_networks : Forall ip_wf [net 10 0 0 0 8; mkIp (ip 192 168 1 1) (ip 192 168 1 9) NO_ADDR].
Proof.
  apply List.Forall_cons; [apply (net_wf (ip 10 0 0 0) 24); [split; [done|by vm_compute]|lia|done]|]. apply List.Forall_cons; [|constructor].
  split; [split; [done|by vm_compute]|]. split; [by exists 0|]. split; [done|right; by vm_compute].
Qed.

Lemma wit_words_ok : Forall2 (fun w l => aclParseIpData env0 w = Ret l) (words ["10.0.0.0/8"; "192.168.1.1-192.168.1.9"])
  [[net 10 0 0 0 8]; [mkIp (ip 192 168 1 1) (ip 192 168 1 9) NO_ADDR]].
Proof. repeat constructor. Qed.

Lemma dom_word_wf w : forallb (fun c => 0 <=? c) w = true -> (bool_decide (skip_dots w <> []) && (bool_decide (w = skip_dots w) || bool_decide (w = 46 :: skip_dots w))) = true -> dom_wf w.
Proof.
  intros Hp [H1%bool_decide_eq_true [H2%bool_decide_eq_true|H2%bool_decide_eq_true]%orb_true_iff]%andb_true_iff; (split; [|split; [done|auto]]);
    apply List.Forall_forall; intros c Hc; rewrite forallb_forall in Hp; specialize (Hp c Hc); lia.
Qed.


Lemma acl_networks_match_witness :
  exists t t', aclParseIpList env0 NULL (words ["10.0.0.0/8"; "192.168.1.1-192.168.1.9"]) = Ret t /\ aclMatchIp t (ip 192 168 1 5) = Some (t', true) /\
    Exists (fun q => ip_contains q (ip 192 168 1 5)) (ip_kept [] [net 10 0 0 0 8; mkIp (ip 192 168 1 1) (ip 192 168 1 9) NO_ADDR]).
Proof.
  destruct (acl_networks_match env0 _ _ (ip 192 168 1 5) wit_words_ok wit_networks) as (t & t' & b & H1 & H2 & H3 & _); [by vm_compute|].
  exists t, t'. split; [exact H1|]. assert (b = true) as ->.
  { vm_compute in H1. injection H1 as <-. vm_compute in H2. by injection H2 as _ <-. }
  split; [exact H2|]. by apply H3.
Defined.

(** ** Configurations that are not read as they are written *)

(** A network that contains one read before is dropped: here 10.9.9.9 is not
    in the element although the second word says that it is. *)
Lemma larger_network_ignored :
  exists t, aclParseIpList env0 NULL (words ["10.1.2.3"; "10.0.0.0/8"]) = Ret t /\ snd <$> aclMatchIp t (ip 10 9 9 9) = Some false /\
    ip_contains (net 10 0 0 0 8) (ip 10 9 9 9).
Proof. eexists. split; [vm_compute; reflexivity|]. split; [by vm_compute|by vm_compute]. Qed.

(** A second line of numbers or protocols for an element adds nothing. *)
Lemma second_int_line_lost env head toks l : head <> [] -> aclParseIntlist env head toks = Ret l -> l = head.
Proof. unfold aclParseIntlist. intros Hh. destruct (int_values env toks); [|done..]. cbn. by destruct head; intros [= <-]. Qed.

Lemma second_proto_line_lost head toks : head <> [] -> aclParseProtoList head toks = Ret head.
Proof. by destruct head. Qed.

(** A second line of an element of type "any-of" replaces the first, and can
    refer to the element itself: matching it does not end. *)
Definition cycle_lines : list (list bytes) := [words ["a"; "src"; "10.0.0.0/8"]; words ["b"; "any-of"; "a"]; words ["b"; "any-of"; "b"]].

Lemma any_of_cycle_match E σ k n : acls σ !! k = Some (mkAcl n ACL_ANY_OF (D_any_of [mkAclRef true k])) -> forall fuel, aclMatchAcl E fuel k σ = None.
Proof.
  intros Hk fuel. revert σ Hk. induction fuel as [|fuel IH]; intros σ Hk; [done|]. cbn [aclMatchAcl]. rewrite Hk. bind_simpl. cbn [type data requires_request andb aclMatchAnyOf acl_ix].
  rewrite IH; [done|]. done.
Qed.

Lemma any_of_cycle :
  exists l n, parse_acl_lines env0 [] cycle_lines = Ret l /\ l !! 1%nat = Some (mkAcl n ACL_ANY_OF (D_any_of [mkAclRef true 1])).
Proof. eexists _, _. split; vm_compute; reflexivity. Qed.

(** "type auth" selects internal requests. *)
Lemma type_auth_internal : aclParseType (mkType false false false) (words ["auth"]) = Ret (mkType false false true).
Proof. done. Qed.

(** A number alone is an address made of that many leading bits. *)
Lemma number_is_mask : aclParseIpData env0 (str "10") = Ret [mkIp (ip 255 192 0 0) 0 NO_ADDR].
Proof. by vm_compute. Qed.

(** "-i" on a later line makes the search ignore case while the names read
    before keep theirs: "Bob" is not found any more. *)
Lemma late_ignore_case :
  exists u, (let? u := aclParseUserList None (words ["Bob"]) in aclParseUserList u (words ["-i"; "al"])) = Ret (Some u) /\
    snd <$> aclMatchUser u (Some (str "Bob")) = Some false.
Proof. eexists. split; vm_compute; reflexivity. Qed.

(** Masks with holes and reversed ranges are accepted: no address is in the
    range. *)
Lemma reversed_range_accepted :
  aclParseIpData env0 (str "10.0.0.9-10.0.0.1") = Ret [mkIp (ip 10 0 0 9) (ip 10 0 0 1) NO_ADDR] /\
  forall c, ~ ip_contains (mkIp (ip 10 0 0 9) (ip 10 0 0 1) NO_ADDR) c.
Proof. split; [by vm_compute|]. intros c. unfold ip_contains, ip. cbn [addr2 addr1 mask]. case_ifs; zify_bools; lia. Qed.
End AclConfig.
