(* ===== verification/DelayPools.v ===== *)
(** * Delay pools: limits on the rate of replies (src/delay_pools.c)

    A pool has a bucket of bytes for all its clients, and for classes 2 and 3
    one for each host and each network seen.  Buckets are refilled once a
    second and drained by what is read.  A host is found through a table of
    the hosts seen so far, whose end is marked by 255; host 255 has a place of
    its own.

    The configuration of the pools is in src/cache_cf.c; which pool a client
    belongs to is decided by the access lists of Acl.v. *)

From Stdlib Require Import ZArith Lia.
From stdpp Require Import base gmap list numbers option sorting.
From S2P Require Import Prelude CStr AclParse Acl.

Module DelayPools.

Definition IND_MAP_SZ : Z := 256.
Definition NET_MAP_SZ : Z := 256.
Definition C3_IND_SZ : Z := NET_MAP_SZ * IND_MAP_SZ.

(** ** Configuration *)

Record delaySpec := mkSpec { restore_bps : Z; max_bytes : Z }.

(** Allocated only as far as the class of the pool uses it. *)
Record delaySpecSet := mkRates { r_aggregate : delaySpec; r_individual : option delaySpec; r_network : option delaySpec }.

Record delayConfig := mkDelayConfig {
  pools : Z;
  initial : Z;
  class : list Z;
  rates : list (option delaySpecSet);
  access : list (list AclParse.acl_access)
}.

(** ** Pools *)

Record class1DelayPool := mkC1 { c1_aggregate : Z; c1_aggregate_bytes : Z }.

Record class2DelayPool := mkC2 {
  c2_aggregate : Z;
  c2_aggregate_bytes : Z;
  individual_map : list Z;
  individual_255_used : Z;
  individual : list Z;
  individual_bytes : list Z
}.

Record class3DelayPool := mkC3 {
  c3_aggregate : Z;
  c3_aggregate_bytes : Z;
  network_map : list Z;
  network_255_used : Z;
  network : list Z;
  network_bytes : list Z;
  c3_individual_map : list (list Z);
  c3_individual_255_used : list Z;
  c3_individual : list Z;
  c3_individual_bytes : list Z
}.

(** The union, with the member that its [class] selects. *)
Inductive delayPool := Class1 (p : class1DelayPool) | Class2 (p : class2DelayPool) | Class3 (p : class3DelayPool).

(** Elements of arrays; outside of the array nothing is defined. *)
Definition rd {A} (a : list A) (i : Z) : option A := assert? (0 <=? i) in a !! Z.to_nat i.
Definition wr {A} (a : list A) (i : Z) (v : A) : option (list A) :=
  assert? (0 <=? i) && (i <? Z.of_nat (length a)) in Some (<[Z.to_nat i := v]> a).

(** Arithmetic of type [int], which must not overflow. *)
Definition INT_MAX : Z := 2147483647.
Definition int (z : Z) : option Z := assert? (- INT_MAX - 1 <=? z) && (z <=? INT_MAX) in Some z.

(** [(int) (((double) max_bytes * Config.Delay.initial) / 100)]: the product
    is exact in a double, and the quotient of numbers of this size is not
    rounded up to an integer. *)
Definition initial_level (sp : delaySpec) (init : Z) : option Z := int (Z.quot (max_bytes sp * init) 100).

Definition delayId (pool position : Z) : Z := Z.lor (Z.shiftl pool 16) position.

(** ** New pools *)

(** The memory comes from [xmalloc]: what it holds before is an argument. *)
Definition delayCreateDelayPool (junk1 : class1DelayPool) (junk2 : class2DelayPool) (junk3 : class3DelayPool)
    (delay_data : list (option delayPool)) (pool cl : Z) : option (list (option delayPool)) :=
  if cl =? 1 then wr delay_data pool (Some (Class1 junk1))
  else if cl =? 2 then wr delay_data pool (Some (Class2 junk2))
  else if cl =? 3 then wr delay_data pool (Some (Class3 junk3))
  else None.

Definition init_pool (init : Z) (p : delayPool) (cl : Z) (sp : delaySpecSet) : option delayPool :=
  let? v := initial_level (r_aggregate sp) init in
  match p with
  | Class1 p => assert? cl =? 1 in Some (Class1 (mkC1 v (c1_aggregate_bytes p)))
  | Class2 p =>
      assert? cl =? 2 in
      let? m := wr (individual_map p) 0 255 in
      Some (Class2 (mkC2 v (c2_aggregate_bytes p) m 0 (individual p) (individual_bytes p)))
  | Class3 p =>
      assert? cl =? 3 in
      let? m := wr (network_map p) 0 255 in
      Some (Class3 (mkC3 v (c3_aggregate_bytes p) m 0 (network p) (network_bytes p) (c3_individual_map p)
        (repeat 0 32) (c3_individual p) (c3_individual_bytes p)))
  end.

Definition get_pool (delay_data : list (option delayPool)) (pool : Z) : option delayPool := let? o := rd delay_data pool in o.

Definition delayInitDelayPool (init : Z) (delay_data : list (option delayPool)) (pool cl : Z) (sp : delaySpecSet)
    : option (list (option delayPool)) :=
  let? p := get_pool delay_data pool in
  let? p := init_pool init p cl sp in
  wr delay_data pool (Some p).

Definition delayFreeDelayPool (delay_data : list (option delayPool)) (pool : Z) : option (list (option delayPool)) :=
  let? _ := get_pool delay_data pool in
  wr delay_data pool None.

(** ** The buckets of a client *)

(** The loops over [individual_map] and [network_map]: the place of [host], a
    new place with the table after it is entered, or none. *)
Inductive slot := Found (i : Z) | New (i : Z) (m : list Z) | NoSlot.

Fixpoint map_loop (fuel : nat) (m : list Z) (host i : Z) : option slot :=
  match fuel with
  | O => Some NoSlot
  | S fuel =>
      let? c := rd m i in
      if c =? host then Some (Found i)
      else if c =? 255 then
        let? m := wr m i host in
        assert? i <? IND_MAP_SZ - 1 in
        let? m := wr m (i + 1) 255 in
        Some (New i m)
      else map_loop fuel m host (i + 1)
  end.

Definition map_slot (m : list Z) (host : Z) : option slot := map_loop (Z.to_nat IND_MAP_SZ) m host 0.

Definition is_used (u : Z) : bool := negb (u =? 0).

(** The bits of [individual_255_used] of a pool of class 3. *)
Definition net_bit (u : list Z) (i : Z) : option bool :=
  let? b := rd u (i / 8) in Some (negb (Z.land b (Z.shiftl 1 (i mod 8)) =? 0)).
Definition set_net_bit (u : list Z) (i : Z) : option (list Z) :=
  let? b := rd u (i / 8) in wr u (i / 8) (Z.lor b (Z.shiftl 1 (i mod 8))).

Definition client2 (init : Z) (sp : delaySpecSet) (p : class2DelayPool) (host : Z) : option (Z * class2DelayPool) :=
  let? isp := r_individual sp in
  if host =? 255 then
    if is_used (individual_255_used p) then Some (255, p)
    else
      let? v := initial_level isp init in
      let? l := wr (individual p) (IND_MAP_SZ - 1) v in
      Some (255, mkC2 (c2_aggregate p) (c2_aggregate_bytes p) (individual_map p) 1 l (individual_bytes p))
  else
    let? s := map_slot (individual_map p) host in
    match s with
    | Found i => Some (i, p)
    | NoSlot => Some (IND_MAP_SZ, p)
    | New i m =>
        let? v := initial_level isp init in
        let? l := wr (individual p) i v in
        Some (i, mkC2 (c2_aggregate p) (c2_aggregate_bytes p) m (individual_255_used p) l (individual_bytes p))
    end.

(** The network's place. *)
Definition client3_net (init : Z) (sp : delaySpecSet) (p : class3DelayPool) (net : Z) : option (Z * class3DelayPool) :=
  let? nsp := r_network sp in
  if net =? 255 then
    if is_used (network_255_used p) then Some (255, p)
    else
      let? v := initial_level nsp init in
      let? l := wr (network p) 255 v in
      let? im := rd (c3_individual_map p) 255 in
      let? im := wr im 0 255 in
      let? ims := wr (c3_individual_map p) 255 im in
      Some (255, mkC3 (c3_aggregate p) (c3_aggregate_bytes p) (network_map p) 1 l (network_bytes p) ims
        (c3_individual_255_used p) (c3_individual p) (c3_individual_bytes p))
  else
    let? s := map_slot (network_map p) net in
    match s with
    | Found i => Some (i, p)
    | NoSlot => Some (NET_MAP_SZ, p)
    | New i m =>
        let? im := rd (c3_individual_map p) i in
        let? im := wr im 0 255 in
        let? ims := wr (c3_individual_map p) i im in
        let? v := initial_level nsp init in
        let? l := wr (network p) i v in
        Some (i, mkC3 (c3_aggregate p) (c3_aggregate_bytes p) m (network_255_used p) l (network_bytes p) ims
          (c3_individual_255_used p) (c3_individual p) (c3_individual_bytes p))
    end.

(** The host's place in network [i]. *)
Definition client3_host (init : Z) (sp : delaySpecSet) (p : class3DelayPool) (i host : Z) : option (Z * class3DelayPool) :=
  let? isp := r_individual sp in
  let position := wrap_u 16 (Z.shiftl i 8) in
  let with_level p' position :=
    let? v := initial_level isp init in
    let? l := wr (c3_individual p') position v in
    Some (position, mkC3 (c3_aggregate p') (c3_aggregate_bytes p') (network_map p') (network_255_used p') (network p') (network_bytes p')
      (c3_individual_map p') (c3_individual_255_used p') l (c3_individual_bytes p')) in
  if host =? 255 then
    let position := Z.lor position 255 in
    let? used := net_bit (c3_individual_255_used p) i in
    if (used : bool) then Some (position, p)
    else
      let? u := set_net_bit (c3_individual_255_used p) i in
      with_level (mkC3 (c3_aggregate p) (c3_aggregate_bytes p) (network_map p) (network_255_used p) (network p) (network_bytes p)
        (c3_individual_map p) u (c3_individual p) (c3_individual_bytes p)) position
  else
    assert? i <? NET_MAP_SZ in
    let? im := rd (c3_individual_map p) i in
    let? s := map_slot im host in
    match s with
    | Found j => Some (Z.lor position j, p)
    | NoSlot => Some (position, p)
    | New j im =>
        let? ims := wr (c3_individual_map p) i im in
        with_level (mkC3 (c3_aggregate p) (c3_aggregate_bytes p) (network_map p) (network_255_used p) (network p) (network_bytes p)
          ims (c3_individual_255_used p) (c3_individual p) (c3_individual_bytes p)) (Z.lor position j)
    end.

Definition client3 (init : Z) (sp : delaySpecSet) (p : class3DelayPool) (net host : Z) : option (Z * class3DelayPool) :=
  let? (i, p) := client3_net init sp p net in
  client3_host init sp p i host.

(** [addr] in host byte order. *)
Definition delayPoolClient (cfg : delayConfig) (delay_data : list (option delayPool)) (pool addr : Z)
    : option (Z * list (option delayPool)) :=
  let? cl := rd (class cfg) pool in
  if cl =? 0 then Some (delayId 0 0, delay_data)
  else if cl =? 1 then Some (delayId (wrap_u 16 (pool + 1)) 0, delay_data)
  else
    let? o := rd (rates cfg) pool in
    let? sp := o in
    let? p := get_pool delay_data pool in
    match p with
    | Class2 p =>
        assert? cl =? 2 in
        let? (position, p) := client2 (initial cfg) sp p (Z.land addr 255) in
        let? d := wr delay_data pool (Some (Class2 p)) in
        Some (delayId (wrap_u 16 (pool + 1)) position, d)
    | Class3 p =>
        assert? negb (cl =? 2) in
        let h := Z.land addr 65535 in
        let? (position, p) := client3 (initial cfg) sp p (Z.shiftr h 8) (Z.land h 255) in
        let? d := wr delay_data pool (Some (Class3 p)) in
        Some (delayId (wrap_u 16 (pool + 1)) position, d)
    | Class1 _ => None
    end.

(** ** Refilling *)

(** [(level += bytes) > max], and then [level = max]. *)
Definition restore (sp : delaySpec) (bytes level : Z) : option Z :=
  let? l := int (level + bytes) in
  Some (if max_bytes sp <? l then max_bytes sp else l).

Definition update_aggregate (sp : delaySpec) (incr level : Z) : option Z :=
  if restore_bps sp =? -1 then Some level
  else let? b := int (restore_bps sp * incr) in restore sp b level.

(** The bucket at a place of an array. *)
Definition update_at (sp : delaySpec) (bytes : Z) (a : list Z) (i : Z) : option (list Z) :=
  let? v := rd a i in
  if v =? max_bytes sp then Some a
  else let? v := restore sp bytes v in wr a i v.

Definition delayUpdateClass1 (p : class1DelayPool) (sp : delaySpecSet) (incr : Z) : option class1DelayPool :=
  let? a := update_aggregate (r_aggregate sp) incr (c1_aggregate p) in
  Some (mkC1 a (c1_aggregate_bytes p)).

(** [i] is an [unsigned char]; the loop starts at 255 or 0 and ends at 254 at
    the latest. *)
Fixpoint update2_loop (fuel : nat) (sp : delaySpec) (bytes : Z) (m ind : list Z) (i : Z) : option (list Z) :=
  match fuel with
  | O => None
  | S fuel =>
      let? c := rd m i in
      if negb (i =? 255) && (c =? 255) then Some ind
      else
        let? ind := update_at sp bytes ind i in
        if i =? 254 then Some ind
        else update2_loop fuel sp bytes m ind (wrap_u 8 (i + 1))
  end.

Definition first_place (used : Z) : Z := if is_used used then 255 else 0.

Definition delayUpdateClass2 (p : class2DelayPool) (sp : delaySpecSet) (incr : Z) : option class2DelayPool :=
  let? a := update_aggregate (r_aggregate sp) incr (c2_aggregate p) in
  let? isp := r_individual sp in
  if restore_bps isp =? -1 then
    Some (mkC2 a (c2_aggregate_bytes p) (individual_map p) (individual_255_used p) (individual p) (individual_bytes p))
  else
    let? b := int (restore_bps isp * incr) in
    let? l := update2_loop 256 isp b (individual_map p) (individual p) (first_place (individual_255_used p)) in
    Some (mkC2 a (c2_aggregate_bytes p) (individual_map p) (individual_255_used p) l (individual_bytes p)).

(** The hosts of a network, from place [mpos] on; the last [mpos] is needed
    for host 255. *)
Fixpoint update3_hosts (fuel : nat) (sp : delaySpec) (bytes : Z) (m ind : list Z) (j mpos : Z) : option (list Z * Z) :=
  match fuel with
  | O => None
  | S fuel =>
      let? c := rd m j in
      if c =? 255 then Some (ind, mpos)
      else
        assert? mpos <? C3_IND_SZ in
        let? ind := update_at sp bytes ind mpos in
        if j =? 254 then Some (ind, mpos)
        else update3_hosts fuel sp bytes m ind (wrap_u 8 (j + 1)) (mpos + 1)
  end.

Definition update3_network (isp : delaySpec) (ib : Z) (p : class3DelayPool) (ind : list Z) (i : Z) : option (list Z) :=
  let? m := rd (c3_individual_map p) i in
  let? (ind, mpos) := update3_hosts 256 isp ib m ind 0 (Z.shiftl i 8) in
  let? used := net_bit (c3_individual_255_used p) i in
  if (used : bool) then
    let mpos := Z.lor mpos 255 in
    assert? mpos <? C3_IND_SZ in
    update_at isp ib ind mpos
  else Some ind.

Fixpoint update3_loop (fuel : nat) (isp nsp : delaySpec) (ib nb incr : Z) (p : class3DelayPool) (ind net : list Z) (i : Z)
    : option (list Z * list Z) :=
  match fuel with
  | O => None
  | S fuel =>
      let? c := rd (network_map p) i in
      if negb (i =? 255) && (c =? 255) then Some (ind, net)
      else
        let? ind := if negb (ib =? - incr) then update3_network isp ib p ind i else Some ind in
        let? net := if negb (nb =? - incr) then update_at nsp nb net i else Some net in
        if i =? 254 then Some (ind, net)
        else update3_loop fuel isp nsp ib nb incr p ind net (wrap_u 8 (i + 1))
  end.

Definition delayUpdateClass3 (p : class3DelayPool) (sp : delaySpecSet) (incr : Z) : option class3DelayPool :=
  let? a := update_aggregate (r_aggregate sp) incr (c3_aggregate p) in
  let? isp := r_individual sp in
  let? nsp := r_network sp in
  let with_levels ind net := mkC3 a (c3_aggregate_bytes p) (network_map p) (network_255_used p) net (network_bytes p)
    (c3_individual_map p) (c3_individual_255_used p) ind (c3_individual_bytes p) in
  if (restore_bps nsp =? -1) && (restore_bps isp =? -1) then Some (with_levels (c3_individual p) (network p))
  else
    let? ib := int (restore_bps isp * incr) in
    let? nb := int (restore_bps nsp * incr) in
    let? (ind, net) := update3_loop 256 isp nsp ib nb incr p (c3_individual p) (network p) (first_place (network_255_used p)) in
    Some (with_levels ind net).

Definition update_pool (sp : delaySpecSet) (incr : Z) (p : delayPool) : option delayPool :=
  match p with
  | Class1 p => Class1 <$> delayUpdateClass1 p sp incr
  | Class2 p => Class2 <$> delayUpdateClass2 p sp incr
  | Class3 p => Class3 <$> delayUpdateClass3 p sp incr
  end.

Definition class_of (p : delayPool) : Z := match p with Class1 _ => 1 | Class2 _ => 2 | Class3 _ => 3 end.

Fixpoint update_loop (cfg : delayConfig) (incr : Z) (n : nat) (delay_data : list (option delayPool)) (i : Z) : option (list (option delayPool)) :=
  match n with
  | O => Some delay_data
  | S n =>
      let? cl := rd (class cfg) i in
      if cl =? 0 then update_loop cfg incr n delay_data (i + 1)
      else
        let? p := get_pool delay_data i in
        assert? cl =? class_of p in
        let? o := rd (rates cfg) i in
        let? sp := o in
        let? p := update_pool sp incr p in
        let? d := wr delay_data i (Some p) in
        update_loop cfg incr n d (i + 1)
  end.

(** The pools and [delay_pools_last_update]. *)
Definition delayPoolsUpdate (cfg : delayConfig) (squid_curtime : Z) (delay_data : list (option delayPool)) (last_update : Z)
    : option (list (option delayPool) * Z) :=
  let incr := wrap_s 32 (squid_curtime - last_update) in
  if pools cfg =? 0 then Some (delay_data, last_update)
  else if incr <? 1 then Some (delay_data, last_update)
  else
    let? d := update_loop cfg incr (Z.to_nat (pools cfg)) delay_data 0 in
    Some (d, squid_curtime).

(** ** Reading *)

Definition id_position (d : Z) : Z := Z.land d 65535.
Definition id_pool (d : Z) : Z := wrap_u 16 (Z.shiftr d 16 - 1).

(** [nbytes = XMIN(nbytes, level)] unless the limit is off. *)
Definition limit (sp : delaySpec) (nbytes level : Z) : Z := if restore_bps sp =? -1 then nbytes else Z.min nbytes level.

Definition pool_wanted (sp : delaySpecSet) (p : delayPool) (position nbytes : Z) : option Z :=
  match p with
  | Class1 p => Some (limit (r_aggregate sp) nbytes (c1_aggregate p))
  | Class2 p =>
      let nbytes := limit (r_aggregate sp) nbytes (c2_aggregate p) in
      let? isp := r_individual sp in
      if restore_bps isp =? -1 then Some nbytes
      else let? l := rd (individual p) position in Some (limit isp nbytes l)
  | Class3 p =>
      let nbytes := limit (r_aggregate sp) nbytes (c3_aggregate p) in
      let? isp := r_individual sp in
      let? nbytes := if restore_bps isp =? -1 then Some nbytes
                     else let? l := rd (c3_individual p) position in Some (limit isp nbytes l) in
      let? nsp := r_network sp in
      if restore_bps nsp =? -1 then Some nbytes
      else let? l := rd (network p) (Z.shiftr position 8) in Some (limit nsp nbytes l)
  end.

Definition delayBytesWanted (cfg : delayConfig) (delay_data : list (option delayPool)) (d min max : Z) : option Z :=
  let pool := id_pool d in
  let? cl := if pool =? 65535 then Some 0 else rd (class cfg) pool in
  if cl =? 0 then Some (Z.max min max)
  else
    let? p := get_pool delay_data pool in
    assert? cl =? class_of p in
    let? o := rd (rates cfg) pool in
    let? sp := o in
    let? nbytes := pool_wanted sp p (id_position d) max in
    Some (Z.max min nbytes).

(** Levels lose [qty], counters of 64 bits gain it. *)
Definition sub_at (a : list Z) (i qty : Z) : option (list Z) := let? v := rd a i in let? v := int (v - qty) in wr a i v.
Definition count_at (a : list Z) (i qty : Z) : option (list Z) := let? v := rd a i in wr a i (wrap_u 64 (v + qty)).

Definition pool_in (p : delayPool) (position qty : Z) : option delayPool :=
  match p with
  | Class1 p =>
      let? a := int (c1_aggregate p - qty) in
      Some (Class1 (mkC1 a (wrap_u 64 (c1_aggregate_bytes p + qty))))
  | Class2 p =>
      let? a := int (c2_aggregate p - qty) in
      let? l := sub_at (individual p) position qty in
      let? b := count_at (individual_bytes p) position qty in
      Some (Class2 (mkC2 a (wrap_u 64 (c2_aggregate_bytes p + qty)) (individual_map p) (individual_255_used p) l b))
  | Class3 p =>
      let? a := int (c3_aggregate p - qty) in
      let? n := sub_at (network p) (Z.shiftr position 8) qty in
      let? l := sub_at (c3_individual p) position qty in
      let? nb := count_at (network_bytes p) (Z.shiftr position 8) qty in
      let? b := count_at (c3_individual_bytes p) position qty in
      Some (Class3 (mkC3 a (wrap_u 64 (c3_aggregate_bytes p + qty)) (network_map p) (network_255_used p) n nb
        (c3_individual_map p) (c3_individual_255_used p) l b))
  end.

Definition delayBytesIn (cfg : delayConfig) (delay_data : list (option delayPool)) (d qty : Z) : option (list (option delayPool)) :=
  let pool := id_pool d in
  if pool =? 65535 then Some delay_data
  else
    let? cl := rd (class cfg) pool in
    let? p := get_pool delay_data pool in
    assert? cl =? class_of p in
    let? p := pool_in p (id_position d) qty in
    wr delay_data pool (Some p).

(** [clients]: the ids of the store clients of the object. *)
Fixpoint most_wanted (cfg : delayConfig) (delay_data : list (option delayPool)) (clients : list Z) (i max : Z) : option Z :=
  match clients with
  | [] => Some i
  | d :: clients => let? i := delayBytesWanted cfg delay_data d i max in most_wanted cfg delay_data clients i max
  end.

Definition delayMostBytesWanted (cfg : delayConfig) (delay_data : list (option delayPool)) (clients : list Z) (max : Z) : option Z :=
  match clients with
  | [] => Some max
  | _ => most_wanted cfg delay_data clients 0 max
  end.

Fixpoint most_allowed (cfg : delayConfig) (delay_data : list (option delayPool)) (clients : list Z) (jmax d : Z) : option (Z * Z) :=
  match clients with
  | [] => Some (jmax, d)
  | c :: clients =>
      let? j := delayBytesWanted cfg delay_data c 0 INT_MAX in
      if jmax <? j then most_allowed cfg delay_data clients j c else most_allowed cfg delay_data clients jmax d
  end.

(** The id to be charged and the size of the read. *)
Definition delayMostBytesAllowed (cfg : delayConfig) (delay_data : list (option delayPool)) (clients : list Z) (read_sz : Z) : option (Z * Z) :=
  let? (jmax, d) := most_allowed cfg delay_data clients (-1) 0 in
  if (0 <=? jmax) && (jmax <? wrap_s 32 read_sz) then
    let jmax := if jmax =? 0 then 1 else jmax in
    let jmax := if 1460 <? jmax then 1460 else jmax in
    Some (d, jmax)
  else Some (d, read_sz).

(** ** The pool of a client *)

Fixpoint find_pool (E : Acl.aclenv) (n : nat) (lists : list (list AclParse.acl_access)) (pool : Z) (σ : Acl.st) : option (Z * Acl.st) :=
  match n with
  | O => Some (pool, σ)
  | S n =>
      let? A := rd lists pool in
      match A with
      | [] => find_pool E n lists (pool + 1) σ
      | _ =>
          let? (b, σ) := Acl.aclCheckFast E A σ in
          if (b : bool) then Some (pool, σ) else find_pool E n lists (pool + 1) σ
      end
  end.

(** The request [r] and the connection of the client, checked in the state
    [σ] of the access lists. *)
Definition delayClient (E : Acl.aclenv) (cfg : delayConfig) (delay_data : list (option delayPool)) (r : Acl.acl_request) (cn : option Acl.conn_view) (σ : Acl.st)
    : option (Z * list (option delayPool)) :=
  if Acl.client_addr r =? 4294967295 then Some (delayId 0 0, delay_data)
  else
    let ch := Acl.mkCheck 0 0 0 0 (Some r) None cn [] [] false (fun _ => Acl.ACL_LOOKUP_NONE) None in
    let? (pool, σ) := find_pool E (Z.to_nat (pools cfg)) (access cfg) 0 (Acl.set_ck ch σ) in
    if pool =? pools cfg then Some (delayId 0 0, delay_data)
    else delayPoolClient cfg delay_data pool (Acl.src_addr (Acl.ck σ)).

(** ** Arrays *)

Lemma rd_Some {A} (a : list A) i v : rd a i = Some v <-> 0 <= i /\ a !! Z.to_nat i = Some v.
Proof. unfold rd. destruct (Z.leb_spec 0 i); [naive_solver|]. split; [done|]. intros [? _]. lia. Qed.

Lemma rd_nat {A} (a : list A) (i : nat) : rd a (Z.of_nat i) = a !! i.
Proof. unfold rd. rewrite Nat2Z.id. destruct (Z.leb_spec 0 (Z.of_nat i)); [done|lia]. Qed.

Lemma wr_nat {A} (a : list A) (i : nat) v : (i < length a)%nat -> wr a (Z.of_nat i) v = Some (<[i := v]> a).
Proof. intros Hi. unfold wr. rewrite Nat2Z.id. destruct (Z.leb_spec 0 (Z.of_nat i)), (Z.ltb_spec (Z.of_nat i) (Z.of_nat (length a))); try lia. done. Qed.

Lemma int_ok z : - INT_MAX - 1 <= z <= INT_MAX -> int z = Some z.
Proof. intros [H1 H2]. unfold int. apply Z.leb_le in H1, H2. by rewrite H1, H2. Qed.

Lemma int_Some z v : int z = Some v -> v = z /\ - INT_MAX - 1 <= z <= INT_MAX.
Proof. unfold int. case_ifs. intros [= <-]. zify_bools. lia. Qed.

Lemma lor_add n i j : 0 <= n -> 0 <= j < 2 ^ n -> Z.lor (i * 2 ^ n) j = i * 2 ^ n + j.
Proof.
  intros Hn Hj. rewrite <- (Z.add_lor_land (i * 2 ^ n) j). assert (Z.land (i * 2 ^ n) j = 0) as ->; [|lia]. apply Z.bits_inj'. intros k Hk.
  rewrite Z.land_spec, Z.testbit_0_l. destruct (Z.ltb_spec k n); [by rewrite Z.mul_pow2_bits_low|].
  destruct (Z.eq_dec j 0) as [->|]; [by rewrite Z.testbit_0_l, andb_false_r|].
  rewrite (Z.bits_above_log2 j k); [apply andb_false_r|lia|]. assert (Z.log2 j < n); [|lia]. apply Z.log2_lt_pow2; lia.
Qed.

(** ** Tables of hosts *)

(** The table [m] has the hosts [hs], in order of their places. *)
Definition table (hs m : list Z) : Prop :=
  (exists rest, m = hs ++ 255 :: rest) /\ length m = 256%nat /\ NoDup hs /\ Forall (fun h => 0 <= h < 255) hs.

Lemma table_length hs m : table hs m -> (length hs <= 255)%nat.
Proof. intros ([rest ->] & Hl & _). rewrite length_app in Hl. cbn in Hl. lia. Qed.

Lemma hosts_length hs : NoDup hs -> Forall (fun h => 0 <= h < 255) hs -> (length hs <= 255)%nat.
Proof.
  intros Hn Hh. change 255%nat with (length (seqZ 0 255)). apply submseteq_length, NoDup_submseteq; [done|].
  intros h Hin. apply elem_of_seqZ. rewrite Forall_forall in Hh. specialize (Hh h Hin). lia.
Qed.

Lemma map_loop_spec fuel h m pre : 0 <= h < 255 -> forall post rest, m = (pre ++ post) ++ 255 :: rest -> h ∉ pre ->
  Forall (fun x => 0 <= x < 255) (pre ++ post) -> (length post < fuel)%nat -> length m = 256%nat ->
  match list_find (eq h) post with
  | Some (k, _) => map_loop fuel m h (Z.of_nat (length pre)) = Some (Found (Z.of_nat (length pre + k)))
  | None => (length (pre ++ post) < 255)%nat -> exists m', map_loop fuel m h (Z.of_nat (length pre)) = Some (New (Z.of_nat (length (pre ++ post))) m') /\
      length m' = 256%nat /\ exists rest', m' = (pre ++ post ++ [h]) ++ 255 :: rest'
  end.
Proof.
  intros Hh. revert pre. induction fuel as [|fuel IH]; intros pre post rest Hm Hp Hf Hl Hlen; [lia|]. cbn [map_loop]. rewrite rd_nat.
  destruct post as [|x post]; cbn [list_find].
  - rewrite app_nil_r in *. intros Hs. assert (m !! length pre = Some 255) as -> by (rewrite Hm; by apply list_lookup_middle). bind_simpl.
    destruct (Z.eqb_spec 255 h); [lia|]. cbn [Z.eqb]. change (255 =? 255) with true. cbv iota.
    rewrite wr_nat by lia. bind_simpl. destruct (Z.ltb_spec (Z.of_nat (length pre)) (IND_MAP_SZ - 1)) as [_|Hx]; [|unfold IND_MAP_SZ in Hx; lia].
    replace (Z.of_nat (length pre) + 1) with (Z.of_nat (S (length pre))) by lia. rewrite wr_nat by (rewrite length_insert; lia). bind_simpl.
    eexists. split; [done|]. split; [by rewrite !length_insert|]. subst m. destruct rest as [|r rest].
    { rewrite length_app in Hlen. cbn in Hlen. lia. }
    exists rest. rewrite insert_app_r_alt by lia. rewrite Nat.sub_diag. cbn [insert list_insert].
    rewrite insert_app_r_alt by lia. replace (S (length pre) - length pre)%nat with 1%nat by lia. cbn [insert list_insert]. by rewrite <- app_assoc.
  - assert (m !! length pre = Some x) as -> by (rewrite Hm, <- app_assoc; by apply list_lookup_middle). bind_simpl.
    destruct (Z.eqb_spec x h) as [->|Hx].
    + rewrite decide_True by done. f_equal. f_equal. lia.
    + rewrite decide_False by congruence. apply Forall_app in Hf as [Hf1 Hf2]. apply Forall_cons in Hf2 as [Hx1 Hf2].
      destruct (Z.eqb_spec x 255); [lia|]. replace (Z.of_nat (length pre) + 1) with (Z.of_nat (length (pre ++ [x]))) by (rewrite length_app; cbn; lia).
      assert (m = ((pre ++ [x]) ++ post) ++ 255 :: rest) as Hm' by (rewrite Hm; by rewrite <- !app_assoc).
      assert (h ∉ pre ++ [x]) as Hp' by (rewrite elem_of_app, list_elem_of_singleton; naive_solver).
      assert (Forall (fun x => 0 <= x < 255) ((pre ++ [x]) ++ post)) as Hf'.
      { rewrite <- app_assoc. apply Forall_app. split; [done|]. by constructor. }
      specialize (IH (pre ++ [x]) post rest Hm' Hp' Hf' ltac:(cbn in Hl; lia) Hlen). destruct (list_find (eq h) post) as [[k y]|]; cbn.
      * rewrite IH. f_equal. f_equal. rewrite length_app. cbn. lia.
      * intros Hs. destruct IH as (m' & E & L & rest' & R); [by rewrite <- app_assoc|]. exists m'. rewrite <- app_assoc in E. split; [done|]. split; [done|].
        exists rest'. rewrite R. by rewrite <- (app_assoc pre [x]).
Qed.

Lemma map_slot_spec hs m h : table hs m -> 0 <= h < 255 ->
  match list_find (eq h) hs with
  | Some (k, _) => map_slot m h = Some (Found (Z.of_nat k))
  | None => exists m', map_slot m h = Some (New (Z.of_nat (length hs)) m') /\ table (hs ++ [h]) m'
  end.
Proof.
  intros ([rest Hm] & Hl & Hn & Hf) Hh. pose proof (map_loop_spec (Z.to_nat IND_MAP_SZ) h m [] Hh hs rest Hm (not_elem_of_nil _) Hf) as H.
  assert (length hs <= 255)%nat as Hlen by (by apply hosts_length). specialize (H ltac:(unfold IND_MAP_SZ; lia) Hl). unfold map_slot.
  destruct (list_find (eq h) hs) as [[k y]|] eqn:E; [done|]. apply list_find_None in E.
  assert (NoDup (hs ++ [h]) /\ Forall (fun x => 0 <= x < 255) (hs ++ [h])) as [Hn' Hf'].
  { split; [|apply Forall_app; split; [done|by constructor]]. apply NoDup_app. split; [done|]. split; [|apply NoDup_singleton].
    intros x Hx ->%list_elem_of_singleton. rewrite Forall_forall in E. by eapply E. }
  assert (length (hs ++ [h]) <= 255)%nat as Hs by (by apply hosts_length). rewrite length_app in Hs. cbn in Hs.
  destruct H as (m' & E1 & L & R); [cbn; lia|]. exists m'. split; [done|]. destruct R as [rest' ->]. split; [by exists rest'|]. done.
Qed.

(** The place of a host, 255 having its own. *)
Definition place (hs : list Z) (used : bool) (h : Z) : option nat :=
  if h =? 255 then if used then Some 255%nat else None else fst <$> list_find (eq h) hs.

Lemma place_host hs used h i : place hs used h = Some i -> h = 255 /\ i = 255%nat /\ used = true \/ h <> 255 /\ hs !! i = Some h.
Proof.
  unfold place. destruct (Z.eqb_spec h 255) as [->|]; [destruct used; [intros [= <-]; auto|done]|].
  intros H. right. split; [done|]. destruct (list_find (eq h) hs) as [[k x]|] eqn:E; [|done]. injection H as <-. apply list_find_Some in E. naive_solver.
Qed.

Lemma place_lt hs m used h i : table hs m -> place hs used h = Some i -> (i < 256)%nat.
Proof. intros Ht [(_ & -> & _)|[_ Hi]]%place_host; [lia|]. apply lookup_lt_Some in Hi. pose proof (table_length hs m Ht). lia. Qed.

Lemma place_inj hs m used h h' i : table hs m -> place hs used h = Some i -> place hs used h' = Some i -> h = h'.
Proof.
  intros Ht [(-> & -> & _)|[_ H1]]%place_host [(-> & E & _)|[_ H2]]%place_host; try done; try congruence;
    pose proof (table_length hs m Ht); [apply lookup_lt_Some in H2; lia|apply lookup_lt_Some in H1; lia].
Qed.

Lemma list_find_snoc (x h : Z) l : list_find (eq x) (l ++ [h]) =
  match list_find (eq x) l with Some r => Some r | None => if decide (x = h) then Some (length l, h) else None end.
Proof.
  induction l as [|y l IH]; cbn; [by destruct (decide (x = h))|]. destruct (decide (x = y)); [done|]. rewrite IH.
  destruct (list_find (eq x) l) as [[k z]|]; [done|]. by destruct (decide (x = h)).
Qed.

Lemma place_snoc hs h used h' : h ∉ hs -> h <> 255 -> place (hs ++ [h]) used h' = if decide (h' = h) then Some (length hs) else place hs used h'.
Proof.
  intros Hh Hne. unfold place. rewrite list_find_snoc. destruct (decide (h' = h)) as [->|Hn].
  - destruct (Z.eqb_spec h 255); [done|]. destruct (list_find (eq h) hs) as [[k x]|] eqn:E.
    + apply list_find_Some in E as (E & <- & _). destruct Hh. by apply list_elem_of_lookup_2 in E.
    + done.
  - destruct (Z.eqb_spec h' 255); [done|]. destruct (list_find (eq h') hs) as [[k x]|]; done.
Qed.

(** ** What a pool is: buckets by name

    The abstract pool has the bucket of all clients, one for each network and
    one for each host seen; hosts of pools of class 2 are in network 0. *)
Record apool := mkAp { ap_all : Z; ap_nets : gmap Z Z; ap_hosts : gmap (Z * Z) Z }.

(** The level of a bucket after a refill. *)
Definition refill (sp : delaySpec) (bytes v : Z) : Z :=
  if v =? max_bytes sp then v else if max_bytes sp <? v + bytes then max_bytes sp else v + bytes.

Definition fits (bytes v : Z) : Prop := - INT_MAX - 1 <= v + bytes <= INT_MAX.

Lemma restore_ok sp b v : fits b v -> restore sp b v = Some (if max_bytes sp <? v + b then max_bytes sp else v + b).
Proof. intros Hf. unfold restore. by rewrite int_ok. Qed.

Lemma update_at_ok sp b a (i : nat) v : a !! i = Some v -> fits b v -> update_at sp b a (Z.of_nat i) = Some (<[i := refill sp b v]> a).
Proof.
  intros Hi Hf. unfold update_at, refill. rewrite rd_nat, Hi. bind_simpl. destruct (v =? max_bytes sp); [by rewrite list_insert_id|].
  rewrite restore_ok by done. bind_simpl. rewrite wr_nat by (by apply lookup_lt_Some in Hi). done.
Qed.

(** Refilling the places from [i] to the end of the table. *)
Lemma update2_loop_spec sp b hs m n : forall i ind, table hs m -> (i <= length hs)%nat -> (i <= 254)%nat -> length ind = 256%nat -> (255 - i <= n)%nat ->
  (forall k v, (i <= k < length hs)%nat -> ind !! k = Some v -> fits b v) ->
  exists ind', update2_loop n sp b m ind (Z.of_nat i) = Some ind' /\ length ind' = 256%nat /\
    forall k, ind' !! k = if decide (i <= k < length hs)%nat then refill sp b <$> ind !! k else ind !! k.
Proof.
  induction n as [|n IH]; intros i ind Ht Hi Hi' Hl Hn Hf; [lia|]. cbn [update2_loop]. rewrite rd_nat. pose proof (table_length hs m Ht) as Hlen.
  pose proof Ht as ([rest Hm] & Hml & Hnd & Hr).
  destruct (decide (i = length hs)) as [->|Hne].
  - assert (m !! length hs = Some 255) as -> by (rewrite Hm; by apply list_lookup_middle). bind_simpl.
    destruct (Z.eqb_spec (Z.of_nat (length hs)) 255); [lia|]. cbn. exists ind. split; [done|]. split; [done|]. intros k. by rewrite decide_False by lia.
  - destruct (lookup_lt_is_Some_2 hs i) as [h Hh]; [lia|]. assert (m !! i = Some h) as -> by (rewrite Hm; by apply lookup_app_l_Some). bind_simpl.
    assert (0 <= h < 255) as Hhr by (rewrite Forall_forall in Hr; by apply Hr, list_elem_of_lookup_2 with i).
    destruct (Z.eqb_spec h 255); [lia|]. rewrite andb_false_r. destruct (lookup_lt_is_Some_2 ind i) as [v Hv]; [lia|].
    rewrite (update_at_ok _ _ _ _ v Hv) by (by eapply Hf; [|exact Hv]; lia). bind_simpl.
    destruct (Z.eqb_spec (Z.of_nat i) 254) as [E|E].
    + eexists. split; [done|]. split; [by rewrite length_insert|]. intros k. assert (i = 254%nat) as -> by lia. assert (length hs = 255%nat) as Hls by lia.
      destruct (decide (k = 254%nat)) as [->|Hk]; [rewrite list_lookup_insert_eq, decide_True by lia; by rewrite Hv|].
      rewrite list_lookup_insert_ne by done. rewrite decide_False by lia. done.
    + replace (wrap_u 8 (Z.of_nat i + 1)) with (Z.of_nat (S i)) by (rewrite wrap_u_small; lia).
      destruct (IH (S i) (<[i:=refill sp b v]> ind)) as (ind' & E' & L' & H'); [done|lia|lia|by rewrite length_insert|lia| |].
      { intros k w Hk. rewrite list_lookup_insert_ne by lia. apply Hf. lia. }
      exists ind'. split; [done|]. split; [done|]. intros k. rewrite H'. destruct (decide (k = i)) as [->|Hk].
      * rewrite decide_False, decide_True, list_lookup_insert_eq, Hv by lia. done.
      * rewrite list_lookup_insert_ne by done. destruct (decide (S i <= k < length hs)%nat), (decide (i <= k < length hs)%nat); try lia; done.
Qed.

(** The operations on abstract pools. *)

(** A client is seen: its buckets exist from now on. *)
Definition see {K} `{Countable K} (k : K) (v : option Z) (m : gmap K Z) : gmap K Z :=
  match v, m !! k with Some v, None => <[k := v]> m | _, _ => m end.

Definition a_see (nv hv : option Z) (n h : Z) (a : apool) : apool := mkAp (ap_all a) (see n nv (ap_nets a)) (see (n, h) hv (ap_hosts a)).

Definition top_up (sp : delaySpec) (bytes v : Z) : Z := if max_bytes sp <? v + bytes then max_bytes sp else v + bytes.

Definition refill_all {K} `{Countable K} (sp : option delaySpec) (incr : Z) (m : gmap K Z) : gmap K Z :=
  match sp with
  | Some sp => if restore_bps sp =? -1 then m else refill sp (restore_bps sp * incr) <$> m
  | None => m
  end.

Definition a_refill (sp : delaySpecSet) (incr : Z) (a : apool) : apool :=
  mkAp (if restore_bps (r_aggregate sp) =? -1 then ap_all a else top_up (r_aggregate sp) (restore_bps (r_aggregate sp) * incr) (ap_all a))
    (refill_all (r_network sp) incr (ap_nets a)) (refill_all (r_individual sp) incr (ap_hosts a)).

Definition limit_by (sp : option delaySpec) (nb : Z) (l : option Z) : Z := match sp, l with Some sp, Some l => limit sp nb l | _, _ => nb end.

Definition a_wanted (sp : delaySpecSet) (a : apool) (n h nb : Z) : Z :=
  limit_by (r_network sp) (limit_by (r_individual sp) (limit (r_aggregate sp) nb (ap_all a)) (ap_hosts a !! (n, h))) (ap_nets a !! n).

Definition a_in (n h q : Z) (a : apool) : apool :=
  mkAp (ap_all a - q) (alter (fun v => v - q) n (ap_nets a)) (alter (fun v => v - q) (n, h) (ap_hosts a)).

(** No level leaves the range of [int]. *)
Definition level_ok (z : Z) : Prop := - INT_MAX - 1 <= z <= INT_MAX.

Definition fits_map {K} `{Countable K} (sp : option delaySpec) (incr : Z) (m : gmap K Z) : Prop :=
  forall s, sp = Some s -> level_ok (restore_bps s * incr) /\ (restore_bps s <> -1 -> forall k v, m !! k = Some v -> fits (restore_bps s * incr) v).

Record fits_all (sp : delaySpecSet) (incr : Z) (a : apool) : Prop := {
  fa_all : restore_bps (r_aggregate sp) <> -1 -> level_ok (restore_bps (r_aggregate sp) * incr) /\ fits (restore_bps (r_aggregate sp) * incr) (ap_all a);
  fa_nets : fits_map (r_network sp) incr (ap_nets a);
  fa_hosts : fits_map (r_individual sp) incr (ap_hosts a)
}.

(** ** Pools of class 2 *)

Record rep2 (hs : list Z) (p : class2DelayPool) (a : apool) : Prop := {
  r2_table : table hs (individual_map p);
  r2_len : length (individual p) = 256%nat;
  r2_len' : length (individual_bytes p) = 256%nat;
  r2_all : ap_all a = c2_aggregate p;
  r2_nets : ap_nets a = ∅;
  r2_hosts : forall n h, ap_hosts a !! (n, h) = if n =? 0 then let? i := place hs (is_used (individual_255_used p)) h in individual p !! i else None
}.

Lemma place_level hs m used (ind : list Z) h i : table hs m -> length ind = 256%nat -> place hs used h = Some i -> exists l, ind !! i = Some l.
Proof. intros Ht Hl Hi. apply lookup_lt_is_Some_2. rewrite Hl. by eapply place_lt. Qed.

Lemma client2_ok hs p a init sp isp v h : rep2 hs p a -> r_individual sp = Some isp -> initial_level isp init = Some v -> 0 <= h <= 255 ->
  exists hs' i p', client2 init sp p h = Some (Z.of_nat i, p') /\ rep2 hs' p' (a_see None (Some v) 0 h a) /\
    place hs' (is_used (individual_255_used p')) h = Some i.
Proof.
  intros [Ht Hl Hl' Ha Hn Hh] Hsp Hv Hr. unfold client2. rewrite Hsp. bind_simpl.
  assert (ap_hosts a !! (0, h) = let? i := place hs (is_used (individual_255_used p)) h in individual p !! i) as Hah by (by rewrite Hh).
  destruct (Z.eqb_spec h 255) as [->|H255].
  - unfold place in Hah. change (255 =? 255) with true in Hah. cbv iota in Hah. destruct (is_used (individual_255_used p)) eqn:Eu in Hah |- *.
    + destruct (lookup_lt_is_Some_2 (individual p) 255) as [l El]; [lia|]. cbn in Hah. rewrite El in Hah.
      exists hs, 255%nat, p. split; [done|]. split; [constructor; try done; cbn [ap_hosts a_see]; unfold see; rewrite Hah; done|]. by rewrite Eu.
    + rewrite Hv. bind_simpl. change (IND_MAP_SZ - 1) with (Z.of_nat 255). rewrite wr_nat by lia. bind_simpl.
      eexists hs, 255%nat, _. split; [done|]. split; [|done]. constructor; cbn; try done; [by rewrite length_insert|].
      intros n h. unfold see. rewrite Hah. cbn. destruct (decide ((n, h) = (0, 255))) as [[= -> ->]|Hne].
      * rewrite lookup_insert_eq. cbn. by rewrite list_lookup_insert_eq by lia.
      * rewrite lookup_insert_ne, Hh by congruence. destruct (Z.eqb_spec n 0) as [->|]; [|done]. rewrite Eu. unfold place.
        destruct (Z.eqb_spec h 255) as [->|Hx]; [congruence|]. destruct (list_find (eq h) hs) as [[k y]|] eqn:E; [|done]. cbn.
        rewrite list_lookup_insert_ne; [done|]. apply list_find_Some in E as (E & _ & _). apply lookup_lt_Some in E. pose proof (table_length _ _ Ht). lia.
  - pose proof (map_slot_spec hs (individual_map p) h Ht ltac:(lia)) as Hs. unfold place in Hah.
    destruct (Z.eqb_spec h 255) as [|_]; [done|]. destruct (list_find (eq h) hs) as [[k y]|] eqn:E.
    + rewrite Hs. bind_simpl. cbn in Hah. exists hs, k, p. split; [done|].
      assert (place hs (is_used (individual_255_used p)) h = Some k) as Hp by (unfold place; destruct (Z.eqb_spec h 255); [done|]; by rewrite E).
      split; [|done]. destruct (place_level _ _ _ (individual p) _ _ Ht Hl Hp) as [l El]. rewrite El in Hah.
      constructor; try done. cbn [ap_hosts a_see]. unfold see. by rewrite Hah.
    + destruct Hs as (m' & -> & Ht'). bind_simpl. rewrite Hv. bind_simpl. pose proof (table_length _ _ Ht') as Hlen. rewrite length_app in Hlen. cbn in Hlen.
      rewrite wr_nat by lia. bind_simpl. assert (h ∉ hs) as Hnin.
      { intros Hin. apply list_find_None in E. rewrite Forall_forall in E. by eapply E. }
      eexists (hs ++ [h]), (length hs), _. split; [done|]. cbn [individual_255_used]. split; [|rewrite place_snoc by done; by rewrite decide_True].
      constructor; cbn; try done; [by rewrite length_insert|]. intros n h'. unfold see. rewrite Hah. cbn. rewrite place_snoc by done.
      destruct (decide ((n, h') = (0, h))) as [[= -> ->]|Hne].
      * rewrite lookup_insert_eq. cbn. rewrite decide_True by done. cbn. by rewrite list_lookup_insert_eq by lia.
      * rewrite lookup_insert_ne, Hh by congruence. destruct (Z.eqb_spec n 0) as [->|]; [|done]. rewrite decide_False by congruence.
        destruct (place hs _ h') as [i|] eqn:Ei; [|done]. cbn. rewrite list_lookup_insert_ne; [done|]. apply place_host in Ei as [(_ & -> & _)|[_ Ei]]; [lia|].
        apply lookup_lt_Some in Ei. lia.
Qed.

Lemma wanted2_ok hs p a sp isp h i nb : rep2 hs p a -> r_individual sp = Some isp -> r_network sp = None -> place hs (is_used (individual_255_used p)) h = Some i ->
  pool_wanted sp (Class2 p) (Z.of_nat i) nb = Some (a_wanted sp a 0 h nb).
Proof.
  intros [Ht Hl Hl' Ha Hn Hh] Hsp Hns Hi. unfold pool_wanted, a_wanted. rewrite Hsp, Hns. bind_simpl. rewrite Hh, Hi, rd_nat, Ha. cbn.
  destruct (place_level _ _ _ _ _ _ Ht Hl Hi) as [l ->]. cbn. unfold limit. by destruct (restore_bps isp =? -1).
Qed.

Lemma sub_at_ok a (i : nat) v q : a !! i = Some v -> level_ok (v - q) -> sub_at a (Z.of_nat i) q = Some (<[i := v - q]> a).
Proof. intros Hv Hq. unfold sub_at. rewrite rd_nat, Hv. bind_simpl. rewrite int_ok by done. bind_simpl. apply wr_nat. by apply lookup_lt_Some in Hv. Qed.

Lemma count_at_ok a (i : nat) q : (i < length a)%nat -> exists v, count_at a (Z.of_nat i) q = Some (<[i := v]> a).
Proof. intros Hi. unfold count_at. rewrite rd_nat. destruct (lookup_lt_is_Some_2 a i Hi) as [v ->]. bind_simpl. rewrite wr_nat by done. by eexists. Qed.

Lemma in2_ok hs p a h i q l : rep2 hs p a -> place hs (is_used (individual_255_used p)) h = Some i -> level_ok (ap_all a - q) ->
  ap_hosts a !! (0, h) = Some l -> level_ok (l - q) ->
  exists p', pool_in (Class2 p) (Z.of_nat i) q = Some (Class2 p') /\ rep2 hs p' (a_in 0 h q a) /\ individual_255_used p' = individual_255_used p.
Proof.
  intros [Ht Hl Hl' Ha Hn Hh] Hi Hq Hlv Hlq. pose proof Hlv as Hlv'. rewrite Hh, Hi in Hlv'. cbn in Hlv'. cbn [pool_in]. rewrite <- Ha, int_ok by done. bind_simpl.
  rewrite (sub_at_ok _ _ _ _ Hlv' Hlq). bind_simpl. destruct (count_at_ok (individual_bytes p) i q) as [w ->]; [rewrite Hl'; by eapply place_lt|]. bind_simpl.
  eexists. split; [done|]. split; [|done]. constructor; cbn; try done; [by rewrite length_insert|by rewrite length_insert|by rewrite Hn|].
  intros n h'. destruct (decide ((n, h') = (0, h))) as [[= -> ->]|Hne].
  - rewrite lookup_alter_eq, Hlv. cbn. rewrite Hi. cbn. by rewrite list_lookup_insert_eq by (by apply lookup_lt_Some in Hlv').
  - rewrite lookup_alter_ne, Hh by congruence. destruct (Z.eqb_spec n 0) as [->|]; [|done]. destruct (place hs _ h') as [k|] eqn:Ek; [|done]. cbn.
    rewrite list_lookup_insert_ne; [done|]. intros ->. destruct Hne. f_equal. by eapply place_inj.
Qed.

Lemma aggregate_ok sp incr a : fits_all sp incr a -> update_aggregate (r_aggregate sp) incr (ap_all a) = Some (ap_all (a_refill sp incr a)).
Proof.
  intros [H _ _]. unfold update_aggregate, a_refill. cbn [ap_all]. destruct (Z.eqb_spec (restore_bps (r_aggregate sp)) (-1)) as [|Hr]; [done|].
  destruct (H Hr) as [H1 H2]. rewrite int_ok by done. bind_simpl. by rewrite restore_ok.
Qed.

(** The first round for host 255. *)
Lemma update2_loop_255 n sp b m ind v c : m !! 255%nat = Some c -> ind !! 255%nat = Some v -> fits b v ->
  update2_loop (S n) sp b m ind 255 = update2_loop n sp b m (<[255%nat := refill sp b v]> ind) (Z.of_nat 0).
Proof.
  intros Hc Hv Hf. cbn [update2_loop]. rewrite (rd_nat m 255 : rd m 255 = _), Hc. bind_simpl. cbn [Z.eqb Pos.eqb negb andb].
  by rewrite (update_at_ok sp b ind 255 v Hv Hf : update_at sp b ind 255 = _).
Qed.

(** All places of a table, with that of host 255. *)
Lemma update2_places sp b hs m ind u : table hs m -> length ind = 256%nat ->
  (forall h i v, place hs (is_used u) h = Some i -> ind !! i = Some v -> fits b v) ->
  exists ind', update2_loop 256 sp b m ind (first_place u) = Some ind' /\ length ind' = 256%nat /\
    forall h i, place hs (is_used u) h = Some i -> ind' !! i = refill sp b <$> ind !! i.
Proof.
  intros Ht Hl Hf. pose proof (table_length hs m Ht) as Hlen. unfold first_place.
  assert (forall k h, hs !! k = Some h -> place hs (is_used u) h = Some k) as Hpl.
  { intros k h Hk. pose proof Ht as (_ & _ & Hn & Hr). unfold place. rewrite Forall_forall in Hr. pose proof (Hr h (list_elem_of_lookup_2 _ _ _ Hk)).
    destruct (Z.eqb_spec h 255); [lia|]. assert (list_find (eq h) hs = Some (k, h)) as ->; [|done]. apply list_find_Some. split; [done|]. split; [done|].
    intros j y Hj Hlt <-. pose proof (NoDup_lookup _ _ _ _ Hn Hj Hk). lia. }
  assert (forall ind0, length ind0 = 256%nat -> (forall k, (k < length hs)%nat -> ind0 !! k = ind !! k) ->
    exists ind', update2_loop 255 sp b m ind0 (Z.of_nat 0) = Some ind' /\ length ind' = 256%nat /\
      forall k, ind' !! k = if decide (k < length hs)%nat then refill sp b <$> ind !! k else ind0 !! k) as Hloop.
  { intros ind0 Hl0 Hsame. destruct (update2_loop_spec sp b hs m 255 0 ind0 Ht) as (ind' & E & L & H); [lia|lia|done|lia| |].
    { intros k v Hk Hv. rewrite Hsame in Hv by lia. destruct (lookup_lt_is_Some_2 hs k) as [h Hh]; [lia|]. by eapply Hf; [apply Hpl|]. }
    exists ind'. split; [done|]. split; [done|]. intros k. rewrite H. destruct (decide (k < length hs)%nat).
    - rewrite decide_True by lia. by rewrite Hsame.
    - by rewrite decide_False by lia. }
  destruct (is_used u) eqn:Eu.
  - destruct (lookup_lt_is_Some_2 ind 255) as [v Hv]; [lia|]. destruct (Hloop (<[255%nat := refill sp b v]> ind)) as (ind' & E & L & H).
    { by rewrite length_insert. }
    { intros k Hk. by rewrite list_lookup_insert_ne by lia. }
    exists ind'. split; [|split; [done|]].
    + destruct (lookup_lt_is_Some_2 m 255) as [c Hc]; [destruct Ht as (_ & -> & _); lia|]. change 256%nat with (S 255).
      rewrite (update2_loop_255 255 sp b m ind v c Hc Hv); [exact E|]. by eapply (Hf 255 255%nat).
    + intros h i Hi. rewrite H. pose proof (place_host _ _ _ _ Hi) as [(-> & -> & _)|[_ Hi']].
      * rewrite decide_False by lia. rewrite list_lookup_insert_eq by lia. by rewrite Hv.
      * rewrite decide_True; [done|]. by apply lookup_lt_Some in Hi'.
  - destruct (Hloop ind Hl) as (ind' & E & L & H); [done|]. exists ind'. split; [|split; [done|]].
    + pose proof (update2_loop_spec sp b hs m 256 0 ind Ht) as (ind2 & E2 & L2 & H2); [lia|lia|done|lia| |].
      { intros k v Hk Hv. destruct (lookup_lt_is_Some_2 hs k) as [h Hh]; [lia|]. by eapply Hf; [apply Hpl|]. }
      change 0 with (Z.of_nat 0). rewrite E2. f_equal. apply list_eq. intros k. rewrite H, H2. destruct (decide (k < length hs)%nat), (decide (0 <= k < length hs)%nat); try lia; done.
    + intros h i Hi. rewrite H. pose proof (place_host _ _ _ _ Hi) as [(_ & _ & E')|[_ Hi']]; [done|]. rewrite decide_True; [done|]. by apply lookup_lt_Some in Hi'.
Qed.

Lemma update2_ok hs p a sp isp incr : rep2 hs p a -> r_individual sp = Some isp -> fits_all sp incr a ->
  exists p', delayUpdateClass2 p sp incr = Some p' /\ rep2 hs p' (a_refill sp incr a) /\ individual_255_used p' = individual_255_used p.
Proof.
  intros [Ht Hl Hl' Ha Hn Hh] Hsp Hf. pose proof (aggregate_ok sp incr a Hf) as Hag. unfold delayUpdateClass2. rewrite <- Ha, Hag, Hsp. bind_simpl.
  assert (refill_all (r_network sp) incr (ap_nets a) = ∅) as Hnet.
  { rewrite Hn. unfold refill_all. destruct (r_network sp); [|done]. destruct (_ =? -1); [done|]. apply fmap_empty. }
  destruct (restore_bps isp =? -1) eqn:Er.
  { eexists. split; [done|]. split; [|done]. constructor; try done. cbn [ap_hosts a_refill]. unfold refill_all. by rewrite Hsp, Er. }
  destruct (fa_hosts _ _ _ Hf isp Hsp) as [F1 F2]. rewrite int_ok by done. bind_simpl.
  destruct (update2_places isp (restore_bps isp * incr) hs (individual_map p) (individual p) (individual_255_used p) Ht Hl) as (ind' & -> & L & H).
  { intros h i v Hi Hv. apply (F2 ltac:(by apply Z.eqb_neq) (0, h)). rewrite Hh. cbn. rewrite Hi. done. }
  bind_simpl. eexists. split; [done|]. split; [|done]. constructor; try done. cbn [ap_hosts a_refill individual individual_255_used]. intros n h.
  unfold refill_all. rewrite Hsp, Er, lookup_fmap, Hh. destruct (n =? 0); [|done]. destruct (place hs _ h) as [i|] eqn:Ei; [|done]. cbn. by rewrite (H h i Ei).
Qed.
End DelayPools.
