(* ===== verification/DelayClass3.v ===== *)
(** * Delay pools of class 3 (src/delay_pools.c)

    A pool of class 3 has a table of networks, and for each of its places a
    table of hosts; the buckets of the hosts are in one array, 256 to a
    network.  The operations of DelayPools.v on such pools are those on
    buckets by name. *)

From Stdlib Require Import ZArith Lia.
From stdpp Require Import base gmap list numbers option.
From S2P Require Import Prelude DelayPools.
Import DelayPools.

Module DelayClass3.

(** ** Positions and bits *)

Lemma lor_low i j : 0 <= j < 256 -> Z.lor (i * 256) j = i * 256 + j.
Proof. apply (lor_add 8). lia. Qed.

Lemma position_lor i j : (i < 256)%nat -> (j < 256)%nat -> Z.lor (wrap_u 16 (Z.shiftl (Z.of_nat i) 8)) (Z.of_nat j) = Z.of_nat (i * 256 + j).
Proof.
  intros Hi Hj. rewrite Z.shiftl_mul_pow2 by lia. change (2 ^ 8) with 256. rewrite wrap_u_small by (change (2 ^ 16) with 65536; lia).
  rewrite lor_low by lia. lia.
Qed.

Lemma position_net i j : (j < 256)%nat -> Z.shiftr (Z.of_nat (i * 256 + j)) 8 = Z.of_nat i.
Proof. intros Hj. rewrite Z.shiftr_div_pow2 by lia. change (2 ^ 8) with 256. rewrite Nat2Z.inj_add, Nat2Z.inj_mul. change (Z.of_nat 256) with 256. rewrite Z.div_add_l by lia. rewrite Z.div_small; lia. Qed.

(** The bit of place [i]. *)
Definition ubit (u : list Z) (i : nat) : bool := default false (net_bit u (Z.of_nat i)).

Lemma div8_lt i : (i < 256)%nat -> Z.of_nat i / 8 = Z.of_nat (i / 8) /\ (i / 8 < 32)%nat.
Proof. intros Hi. rewrite Nat2Z.inj_div. split; [done|]. apply Nat.Div0.div_lt_upper_bound. lia. Qed.

Lemma net_bit_ok u i : length u = 32%nat -> (i < 256)%nat -> net_bit u (Z.of_nat i) = Some (ubit u i).
Proof.
  intros Hu Hi. unfold ubit, net_bit. destruct (div8_lt i Hi) as [-> Hd]. rewrite rd_nat. by destruct (lookup_lt_is_Some_2 u (i / 8)) as [b ->]; [lia|].
Qed.

Lemma ubit_testbit u i b : u !! (i / 8)%nat = Some b -> ubit u i = Z.testbit b (Z.of_nat i mod 8).
Proof.
  intros Hb. unfold ubit, net_bit. rewrite <- (Nat2Z.inj_div i 8 : Z.of_nat (i / 8) = Z.of_nat i / 8), rd_nat, Hb. cbn.
  rewrite <- EBIT_TEST_testbit by (apply Z.mod_pos_bound; lia). done.
Qed.

Lemma set_net_bit_ok u i : length u = 32%nat -> (i < 256)%nat ->
  exists u', set_net_bit u (Z.of_nat i) = Some u' /\ length u' = 32%nat /\ forall k, (k < 256)%nat -> ubit u' k = if decide (k = i) then true else ubit u k.
Proof.
  intros Hu Hi. unfold set_net_bit. destruct (div8_lt i Hi) as [-> Hd]. rewrite rd_nat. destruct (lookup_lt_is_Some_2 u (i / 8)) as [b Hb]; [lia|].
  rewrite Hb. bind_simpl. rewrite wr_nat by lia. eexists. split; [done|]. split; [by rewrite length_insert|]. intros k Hk.
  destruct (decide (k / 8 = i / 8)%nat) as [E|E].
  - erewrite (ubit_testbit _ k) by (rewrite E; apply list_lookup_insert_eq; lia). rewrite Z.lor_spec, testbit_one_shift by (apply Z.mod_pos_bound; lia).
    rewrite (ubit_testbit u k b) by (by rewrite E). destruct (decide (k = i)) as [->|Hne]; [rewrite bool_decide_true by done; apply orb_true_r|].
    rewrite bool_decide_false; [apply orb_false_r|]. intros Hm. apply Hne. rewrite <- !(Nat2Z.inj_mod _ 8 : Z.of_nat (_ mod 8) = _) in Hm. apply Nat2Z.inj in Hm.
    rewrite (Nat.div_mod_eq k 8), (Nat.div_mod_eq i 8). lia.
  - destruct (lookup_lt_is_Some_2 u (k / 8)) as [c Hc]; [destruct (div8_lt k Hk); lia|]. rewrite (ubit_testbit u k c Hc).
    rewrite (ubit_testbit _ k c) by (by rewrite list_lookup_insert_ne). rewrite decide_False; [done|]. by intros ->.
Qed.

(** ** The pool *)

(** [nets]: the networks in order of their places; [hss]: the hosts of the
    network at each place. *)
Record rep3 (nets : list Z) (hss : nat -> list Z) (p : class3DelayPool) (a : apool) : Prop := {
  r3_table : table nets (network_map p);
  r3_net : length (network p) = 256%nat;
  r3_netb : length (network_bytes p) = 256%nat;
  r3_maps : length (c3_individual_map p) = 256%nat;
  r3_map : forall i m, c3_individual_map p !! i = Some m -> length m = 256%nat;
  r3_bits : length (c3_individual_255_used p) = 32%nat;
  r3_ind : Z.of_nat (length (c3_individual p)) = 65536;
  r3_indb : Z.of_nat (length (c3_individual_bytes p)) = 65536;
  r3_tables : forall n i, place nets (is_used (network_255_used p)) n = Some i -> exists m, c3_individual_map p !! i = Some m /\ table (hss i) m;
  r3_fresh : forall i, (i < 256)%nat -> ubit (c3_individual_255_used p) i = true -> exists n, place nets (is_used (network_255_used p)) n = Some i;
  r3_all : ap_all a = c3_aggregate p;
  r3_nets : forall n, ap_nets a !! n = let? i := place nets (is_used (network_255_used p)) n in network p !! i;
  r3_hosts : forall n h, ap_hosts a !! (n, h) = let? i := place nets (is_used (network_255_used p)) n in
    let? j := place (hss i) (ubit (c3_individual_255_used p) i) h in c3_individual p !! (i * 256 + j)%nat
}.

Lemma hosts_in_net i j i' j' : (j < 256)%nat -> (j' < 256)%nat -> (i * 256 + j = i' * 256 + j')%nat -> i = i' /\ j = j'.
Proof. lia. Qed.

(** ** A network is seen *)

Lemma table_empty m : length m = 256%nat -> table [] (<[0%nat := 255]> m).
Proof. intros Hl. destruct m as [|x m]; [done|]. split; [by exists m|]. split; [done|]. split; constructor. Qed.

(** Network [n] gets the free place [k]. *)
Lemma see_net nets hss p a n k v nets' m' u' im :
  rep3 nets hss p a -> (k < 256)%nat -> place nets (is_used (network_255_used p)) n = None -> (forall n', place nets (is_used (network_255_used p)) n' <> Some k) ->
  table nets' m' -> (forall n', place nets' (is_used u') n' = if decide (n' = n) then Some k else place nets (is_used (network_255_used p)) n') ->
  c3_individual_map p !! k = Some im ->
  rep3 nets' (fun i => if decide (i = k) then [] else hss i)
    (mkC3 (c3_aggregate p) (c3_aggregate_bytes p) m' u' (<[k := v]> (network p)) (network_bytes p) (<[k := <[0%nat := 255]> im]> (c3_individual_map p))
       (c3_individual_255_used p) (c3_individual p) (c3_individual_bytes p))
    (mkAp (ap_all a) (<[n := v]> (ap_nets a)) (ap_hosts a)).
Proof.
  intros [] Hk Hnone Hfree Ht' Hp' Him. constructor; cbn; try done; try (by rewrite length_insert).
  - intros i m. rewrite list_lookup_insert_Some. intros [(<- & <- & _)|[_ H]]; [rewrite length_insert|]; by eapply r3_map0.
  - intros n' i. rewrite Hp'. destruct (decide (n' = n)) as [->|Hne].
    + intros [= <-]. rewrite decide_True by done. eexists. split; [apply list_lookup_insert_eq; lia|]. apply table_empty. by eapply r3_map0.
    + intros Hi. assert (i <> k) by (intros ->; by eapply Hfree). rewrite decide_False, list_lookup_insert_ne by done. by eapply r3_tables0.
  - intros i Hi Hb. destruct (r3_fresh0 i Hi Hb) as [n' Hn']. exists n'. rewrite Hp'. destruct (decide (n' = n)) as [->|]; [|done].
    congruence.
  - intros n'. rewrite Hp'. destruct (decide (n' = n)) as [->|Hne].
    + rewrite lookup_insert_eq. cbn. by rewrite list_lookup_insert_eq by lia.
    + rewrite lookup_insert_ne, r3_nets0 by done. destruct (place nets _ n') as [i|] eqn:Ei; [|done]. cbn. rewrite list_lookup_insert_ne; [done|].
      intros ->. by eapply Hfree.
  - intros n' h. rewrite r3_hosts0, Hp'. destruct (decide (n' = n)) as [->|Hne].
    + cbn. rewrite decide_True by done. assert (ubit (c3_individual_255_used p) k = false) as ->.
      { apply not_true_iff_false. intros Hb. destruct (r3_fresh0 k Hk Hb) as [n' Hn']. by eapply Hfree. }
      rewrite Hnone. unfold place. by destruct (h =? 255).
    + destruct (place nets _ n') as [i|] eqn:Ei; [|done]. cbn. rewrite decide_False; [done|]. intros ->. by eapply Hfree.
Qed.

(** An entry beyond the hosts of a table. *)
Lemma place_not_new hs used h' : (length hs < 255)%nat -> place hs used h' <> Some (length hs).
Proof. intros Hl Hi. apply place_host in Hi as [(_ & E & _)|[_ Hi]]; [lia|]. apply lookup_lt_Some in Hi. lia. Qed.

Lemma place_unused_255 hs m h' : table hs m -> place hs false h' <> Some 255%nat.
Proof. intros Ht Hi. apply place_host in Hi as [(_ & _ & E)|[_ Hi]]; [done|]. apply lookup_lt_Some in Hi. pose proof (table_length _ _ Ht). lia. Qed.

Lemma place_use_255 hs u h' : is_used u = false -> place hs (is_used 1) h' = if decide (h' = 255) then Some 255%nat else place hs (is_used u) h'.
Proof. intros ->. unfold place. destruct (Z.eqb_spec h' 255) as [->|]; [by rewrite decide_True|by rewrite decide_False]. Qed.

Lemma list_find_place hs used h : h <> 255 -> place hs used h = fst <$> list_find (eq h) hs.
Proof. intros Hh. unfold place. by destruct (Z.eqb_spec h 255). Qed.

Lemma list_find_notin hs (h : Z) : list_find (eq h) hs = None -> h ∉ hs.
Proof. intros E Hin. apply list_find_None in E. rewrite List.Forall_forall in E. by apply (E h); [apply list_elem_of_In|]. Qed.

Lemma client3_net_ok nets hss p a init sp nsp v n : rep3 nets hss p a -> r_network sp = Some nsp -> initial_level nsp init = Some v -> 0 <= n <= 255 ->
  exists nets' hss' i p', client3_net init sp p n = Some (Z.of_nat i, p') /\ rep3 nets' hss' p' (mkAp (ap_all a) (see n (Some v) (ap_nets a)) (ap_hosts a)) /\
    place nets' (is_used (network_255_used p')) n = Some i.
Proof.
  intros Hr Hsp Hv Hn. pose proof Hr as []. unfold client3_net. rewrite Hsp. bind_simpl.
  assert (forall i, place nets (is_used (network_255_used p)) n = Some i -> rep3 nets hss p (mkAp (ap_all a) (see n (Some v) (ap_nets a)) (ap_hosts a))) as Hold.
  { intros i Hi. assert (see n (Some v) (ap_nets a) = ap_nets a) as ->; [|by destruct a]. unfold see. rewrite r3_nets0, Hi. cbn.
    destruct (place_level _ _ _ (network p) _ _ r3_table0 r3_net0 Hi) as [l ->]. done. }
  assert (place nets (is_used (network_255_used p)) n = None -> see n (Some v) (ap_nets a) = <[n := v]> (ap_nets a)) as Hnew.
  { intros Hi. unfold see. by rewrite r3_nets0, Hi. }
  destruct (Z.eqb_spec n 255) as [->|H255].
  - destruct (is_used (network_255_used p)) eqn:Eu in |- *.
    + assert (place nets (is_used (network_255_used p)) 255 = Some 255%nat) as Hp by (by rewrite Eu). exists nets, hss, 255%nat, p. eauto.
    + assert (place nets (is_used (network_255_used p)) 255 = None) as Hp by (by rewrite Eu).
      rewrite Hv. bind_simpl. rewrite (wr_nat (network p) 255 v : _ -> wr (network p) 255 v = _) by lia. bind_simpl.
      destruct (lookup_lt_is_Some_2 (c3_individual_map p) 255) as [im Him]; [lia|]. rewrite (rd_nat (c3_individual_map p) 255 : rd _ 255 = _), Him. bind_simpl.
      rewrite (wr_nat im 0 255 : _ -> wr im 0 255 = _) by (rewrite (r3_map0 _ _ Him); lia). bind_simpl.
      rewrite (wr_nat (c3_individual_map p) 255 _ : _ -> wr _ 255 _ = _) by lia. bind_simpl. eexists nets, _, 255%nat, _. split; [done|]. split; [|done].
      rewrite Hnew by done. apply (see_net nets hss p a 255 255 v nets (network_map p) 1 im); try done; [lia|by intros n'; rewrite Eu; eapply place_unused_255|].
      intros n'. by apply place_use_255.
  - pose proof (map_slot_spec nets (network_map p) n r3_table0 ltac:(lia)) as Hs. pose proof (list_find_place nets (is_used (network_255_used p)) n H255) as Hp.
    destruct (list_find (eq n) nets) as [[k y]|] eqn:E; cbn in Hp.
    + rewrite Hs. bind_simpl. exists nets, hss, k, p. eauto.
    + destruct Hs as (m' & -> & Ht'). bind_simpl. pose proof (table_length _ _ Ht') as Hlen. rewrite length_app in Hlen. cbn in Hlen.
      destruct (lookup_lt_is_Some_2 (c3_individual_map p) (length nets)) as [im Him]; [lia|]. rewrite rd_nat, Him. bind_simpl.
      rewrite (wr_nat im 0 255 : _ -> wr im 0 255 = _) by (rewrite (r3_map0 _ _ Him); lia). bind_simpl. rewrite wr_nat by lia. bind_simpl.
      rewrite Hv. bind_simpl. rewrite wr_nat by lia. bind_simpl. pose proof (list_find_notin _ _ E) as Hnin.
      eexists (nets ++ [n]), _, (length nets), _. split; [done|]. cbn [network_255_used]. split; [|rewrite place_snoc by done; by rewrite decide_True].
      rewrite Hnew by done. apply (see_net nets hss p a n (length nets) v (nets ++ [n]) m' (network_255_used p) im); try done; [lia|intros n'; apply place_not_new; lia|].
      intros n'. by apply place_snoc.
Qed.

(** ** A host of a network is seen *)

(** Host [h] of the network at place [i] gets the free place [k]. *)
Lemma see_host nets hss p a n h i k v hs' m' u' :
  rep3 nets hss p a -> place nets (is_used (network_255_used p)) n = Some i -> (k < 256)%nat ->
  place (hss i) (ubit (c3_individual_255_used p) i) h = None ->
  (forall h', place (hss i) (ubit (c3_individual_255_used p) i) h' <> Some k) -> table hs' m' -> length u' = 32%nat ->
  (forall h', place hs' (ubit u' i) h' = if decide (h' = h) then Some k else place (hss i) (ubit (c3_individual_255_used p) i) h') ->
  (forall i', (i' < 256)%nat -> i' <> i -> ubit u' i' = ubit (c3_individual_255_used p) i') ->
  rep3 nets (fun i' => if decide (i' = i) then hs' else hss i')
    (mkC3 (c3_aggregate p) (c3_aggregate_bytes p) (network_map p) (network_255_used p) (network p) (network_bytes p) (<[i := m']> (c3_individual_map p))
       u' (<[(i * 256 + k)%nat := v]> (c3_individual p)) (c3_individual_bytes p))
    (mkAp (ap_all a) (ap_nets a) (<[(n, h) := v]> (ap_hosts a))).
Proof.
  intros [] Hi Hk Hnone Hfree Ht' Hu' Hp' Hbits. pose proof (place_lt _ _ _ _ _ r3_table0 Hi) as Hi256.
  constructor; cbn; try done; try (by rewrite length_insert).
  - intros i' m. rewrite list_lookup_insert_Some. intros [(<- & <- & _)|[_ H]]; [by destruct Ht' as (_ & ? & _)|by eapply r3_map0].
  - intros n' i' Hi'. destruct (decide (i' = i)) as [->|Hne].
    + eexists. split; [apply list_lookup_insert_eq; lia|done].
    + rewrite list_lookup_insert_ne by done. by eapply r3_tables0.
  - intros i' Hi' Hb. destruct (decide (i' = i)) as [->|Hne]; [by exists n|]. rewrite Hbits in Hb by done. by apply r3_fresh0.
  - intros n' h'. destruct (decide (n' = n)) as [->|Hne].
    + rewrite Hi. cbn. rewrite decide_True, Hp' by done. destruct (decide (h' = h)) as [->|Hh].
      * rewrite lookup_insert_eq. cbn. rewrite list_lookup_insert_eq by lia. done.
      * rewrite lookup_insert_ne, r3_hosts0, Hi by congruence. cbn. destruct (place (hss i) _ h') as [j|] eqn:Ej; [|done]. cbn.
        rewrite list_lookup_insert_ne; [done|]. intros Heq. assert (j = k) as -> by lia. by eapply Hfree.
    + rewrite lookup_insert_ne, r3_hosts0 by congruence. destruct (place nets _ n') as [i'|] eqn:Ei'; [|done]. cbn.
      assert (i' <> i) as Hii by (intros ->; exact (Hne (place_inj _ _ _ _ _ _ r3_table0 Ei' Hi))). pose proof (place_lt _ _ _ _ _ r3_table0 Ei').
      rewrite decide_False, Hbits by done. destruct (place (hss i') _ h') as [j|] eqn:Ej; [|done]. cbn.
      destruct (r3_tables0 _ _ Ei') as (mm & _ & Hmm). pose proof (place_lt _ _ _ _ _ Hmm Ej). rewrite list_lookup_insert_ne by lia. done.
Qed.

Lemma host_level nets hss p a n h i j : rep3 nets hss p a -> place nets (is_used (network_255_used p)) n = Some i ->
  place (hss i) (ubit (c3_individual_255_used p) i) h = Some j ->
  (i < 256)%nat /\ (j < 256)%nat /\ ap_hosts a !! (n, h) = c3_individual p !! (i * 256 + j)%nat /\ is_Some (ap_hosts a !! (n, h)).
Proof.
  intros [] Hi Hj. pose proof (place_lt _ _ _ _ _ r3_table0 Hi) as Hi256. destruct (r3_tables0 _ _ Hi) as (m & _ & Hm).
  pose proof (place_lt _ _ _ _ _ Hm Hj) as Hj256. do 2 (split; [done|]). assert (ap_hosts a !! (n, h) = c3_individual p !! (i * 256 + j)%nat) as E.
  { rewrite r3_hosts0, Hi. cbn. by rewrite Hj. }
  split; [done|]. rewrite E. apply lookup_lt_is_Some_2. lia.
Qed.

Lemma client3_host_ok nets hss p a init sp isp v n h i : rep3 nets hss p a -> place nets (is_used (network_255_used p)) n = Some i ->
  r_individual sp = Some isp -> initial_level isp init = Some v -> 0 <= h <= 255 ->
  exists hss' j p', client3_host init sp p (Z.of_nat i) h = Some (Z.of_nat (i * 256 + j), p') /\
    rep3 nets hss' p' (mkAp (ap_all a) (ap_nets a) (see (n, h) (Some v) (ap_hosts a))) /\
    network_255_used p' = network_255_used p /\ place (hss' i) (ubit (c3_individual_255_used p') i) h = Some j.
Proof.
  intros Hr Hi Hsp Hv Hh. pose proof Hr as []. pose proof (place_lt _ _ _ _ _ r3_table0 Hi) as Hi256. destruct (r3_tables0 _ _ Hi) as (im & Him & Ht).
  unfold client3_host. rewrite Hsp. bind_simpl.
  assert (forall j, place (hss i) (ubit (c3_individual_255_used p) i) h = Some j ->
    rep3 nets hss p (mkAp (ap_all a) (ap_nets a) (see (n, h) (Some v) (ap_hosts a)))) as Hold.
  { intros j Hj. destruct (host_level _ _ _ _ _ _ _ _ Hr Hi Hj) as (_ & _ & _ & l & El). assert (see (n, h) (Some v) (ap_hosts a) = ap_hosts a) as ->; [|by destruct a].
    unfold see. by rewrite El. }
  assert (place (hss i) (ubit (c3_individual_255_used p) i) h = None -> see (n, h) (Some v) (ap_hosts a) = <[(n, h) := v]> (ap_hosts a)) as Hnew.
  { intros Hj. unfold see. rewrite r3_hosts0, Hi. cbn. by rewrite Hj. }
  destruct (Z.eqb_spec h 255) as [->|H255].
  - rewrite (net_bit_ok _ _ r3_bits0 Hi256). bind_simpl. rewrite (position_lor i 255 Hi256 ltac:(lia) : Z.lor _ 255 = _).
    destruct (ubit (c3_individual_255_used p) i) eqn:Eu in |- *.
    + assert (place (hss i) (ubit (c3_individual_255_used p) i) 255 = Some 255%nat) as Hj by (by rewrite Eu). exists hss, 255%nat, p. eauto.
    + assert (place (hss i) (ubit (c3_individual_255_used p) i) 255 = None) as Hj by (by rewrite Eu).
      destruct (set_net_bit_ok _ i r3_bits0 Hi256) as (u' & -> & Hu' & Hub). bind_simpl. rewrite Hv. bind_simpl. cbn [c3_individual].
      rewrite wr_nat by lia. bind_simpl. eexists _, 255%nat, _. split; [done|].
      pose proof (see_host nets hss p a n 255 i 255 v (hss i) im u' Hr Hi ltac:(lia) Hj) as Hs. cbn [network_map network_255_used network network_bytes c3_individual_map c3_aggregate c3_aggregate_bytes c3_individual_bytes c3_individual_255_used].
      rewrite (list_insert_id (c3_individual_map p) i im Him) in Hs. rewrite Hnew by done. split; [apply Hs; try done|].
      * intros h'. rewrite Eu. by eapply place_unused_255.
      * intros h'. rewrite Hub, decide_True, Eu by done. unfold place. destruct (Z.eqb_spec h' 255) as [->|]; [by rewrite decide_True|by rewrite decide_False].
      * intros i' Hi' Hne. by rewrite Hub, decide_False.
      * split; [done|]. rewrite Hub, decide_True by done. cbn. by rewrite decide_True.
  - assert ((Z.of_nat i <? NET_MAP_SZ) = true) as -> by (unfold NET_MAP_SZ; lia). rewrite rd_nat, Him. bind_simpl.
    pose proof (map_slot_spec (hss i) im h Ht ltac:(lia)) as Hs. pose proof (list_find_place (hss i) (ubit (c3_individual_255_used p) i) h H255) as Hp.
    destruct (list_find (eq h) (hss i)) as [[k y]|] eqn:E; cbn in Hp.
    + rewrite Hs. bind_simpl. destruct (host_level _ _ _ _ _ _ _ _ Hr Hi Hp) as (_ & Hk & _). rewrite position_lor by done. exists hss, k, p. eauto.
    + destruct Hs as (m' & -> & Ht'). bind_simpl. pose proof (table_length _ _ Ht') as Hlen. rewrite length_app in Hlen. cbn in Hlen.
      rewrite wr_nat by lia. bind_simpl. rewrite Hv. bind_simpl. cbn [c3_individual]. rewrite position_lor by lia. rewrite wr_nat by lia. bind_simpl.
      pose proof (list_find_notin _ _ E) as Hnin. eexists _, (length (hss i)), _. split; [done|].
      cbn [network_map network_255_used network network_bytes c3_individual_map c3_aggregate c3_aggregate_bytes c3_individual_bytes c3_individual_255_used].
      rewrite Hnew by done. split; [|split; [done|]].
      * apply (see_host nets hss p a n h i (length (hss i)) v (hss i ++ [h]) m' (c3_individual_255_used p)); try done; [lia|intros h'; apply place_not_new; lia|].
        intros h'. by apply place_snoc.
      * cbn. rewrite decide_True by done. rewrite place_snoc by done. by rewrite decide_True.
Qed.

Lemma client3_ok nets hss p a init sp isp nsp iv nv n h : rep3 nets hss p a -> r_individual sp = Some isp -> r_network sp = Some nsp ->
  initial_level isp init = Some iv -> initial_level nsp init = Some nv -> 0 <= n <= 255 -> 0 <= h <= 255 ->
  exists nets' hss' i j p', client3 init sp p n h = Some (Z.of_nat (i * 256 + j), p') /\ rep3 nets' hss' p' (a_see (Some nv) (Some iv) n h a) /\
    place nets' (is_used (network_255_used p')) n = Some i /\ place (hss' i) (ubit (c3_individual_255_used p') i) h = Some j.
Proof.
  intros Hr Hisp Hnsp Hiv Hnv Hn Hh. unfold client3.
  destruct (client3_net_ok nets hss p a init sp nsp nv n Hr Hnsp Hnv Hn) as (nets' & hss1 & i & p1 & -> & Hr1 & Hi). bind_simpl.
  destruct (client3_host_ok nets' hss1 p1 _ init sp isp iv n h i Hr1 Hi Hisp Hiv Hh) as (hss' & j & p2 & -> & Hr2 & Hu & Hj).
  exists nets', hss', i, j, p2. split; [done|]. split; [exact Hr2|]. by rewrite Hu.
Qed.

Lemma wanted3_ok nets hss p a sp isp nsp n h i j nb : rep3 nets hss p a -> r_individual sp = Some isp -> r_network sp = Some nsp ->
  place nets (is_used (network_255_used p)) n = Some i -> place (hss i) (ubit (c3_individual_255_used p) i) h = Some j ->
  pool_wanted sp (Class3 p) (Z.of_nat (i * 256 + j)) nb = Some (a_wanted sp a n h nb).
Proof.
  intros Hr Hisp Hnsp Hi Hj. destruct (host_level _ _ _ _ _ _ _ _ Hr Hi Hj) as (Hi256 & Hj256 & Hl & l & Hs). destruct Hr.
  unfold pool_wanted, a_wanted. rewrite Hisp, Hnsp. bind_simpl. rewrite position_net, !rd_nat, r3_all0, Hs by done. rewrite <- Hl, Hs. cbn.
  destruct (place_level _ _ _ (network p) _ _ r3_table0 r3_net0 Hi) as [nl Hnl]. rewrite r3_nets0, Hi. cbn. rewrite Hnl. cbn.
  unfold limit. by destruct (restore_bps isp =? -1); cbn; destruct (restore_bps nsp =? -1).
Qed.

Lemma in3_ok nets hss p a n h i j q l nl : rep3 nets hss p a ->
  place nets (is_used (network_255_used p)) n = Some i -> place (hss i) (ubit (c3_individual_255_used p) i) h = Some j ->
  level_ok (ap_all a - q) -> ap_hosts a !! (n, h) = Some l -> level_ok (l - q) -> ap_nets a !! n = Some nl -> level_ok (nl - q) ->
  exists p', pool_in (Class3 p) (Z.of_nat (i * 256 + j)) q = Some (Class3 p') /\ rep3 nets hss p' (a_in n h q a).
Proof.
  intros Hr Hi Hj Hq Hl Hlq Hnl Hnlq. destruct (host_level _ _ _ _ _ _ _ _ Hr Hi Hj) as (Hi256 & Hj256 & Hlv & _). destruct Hr.
  pose proof Hnl as Hnl'. rewrite r3_nets0, Hi in Hnl'. cbn in Hnl'. rewrite Hlv in Hl.
  cbn [pool_in]. rewrite <- r3_all0, int_ok by done. bind_simpl. rewrite position_net by done. rewrite (sub_at_ok _ _ _ _ Hnl' Hnlq). bind_simpl.
  rewrite (sub_at_ok _ _ _ _ Hl Hlq). bind_simpl. destruct (count_at_ok (network_bytes p) i q) as [w ->]; [lia|]. bind_simpl.
  destruct (count_at_ok (c3_individual_bytes p) (i * 256 + j) q) as [w' ->]; [lia|]. bind_simpl. eexists. split; [done|].
  constructor; cbn; try done; try (by rewrite length_insert).
  - intros n'. destruct (decide (n' = n)) as [->|Hne].
    + rewrite lookup_alter_eq, Hnl, Hi. cbn. by rewrite list_lookup_insert_eq by lia.
    + rewrite lookup_alter_ne, r3_nets0 by done. destruct (place nets _ n') as [i'|] eqn:Ei'; [|done]. cbn. rewrite list_lookup_insert_ne; [done|].
      intros ->. exact (Hne (place_inj _ _ _ _ _ _ r3_table0 Ei' Hi)).
  - intros n' h'. destruct (decide ((n', h') = (n, h))) as [[= -> ->]|Hne].
    + rewrite lookup_alter_eq, Hlv, Hl, Hi. cbn. rewrite Hj. cbn. by rewrite list_lookup_insert_eq by lia.
    + rewrite lookup_alter_ne, r3_hosts0 by congruence. destruct (place nets _ n') as [i'|] eqn:Ei'; [|done]. cbn.
      destruct (place (hss i') _ h') as [j'|] eqn:Ej'; [|done]. cbn. rewrite list_lookup_insert_ne; [done|]. intros Heq.
      destruct (r3_tables0 _ _ Ei') as (mm & _ & Hmm). pose proof (place_lt _ _ _ _ _ Hmm Ej'). assert (i = i' /\ j = j') as [<- <-] by lia.
      apply Hne. f_equal; [exact (place_inj _ _ _ _ _ _ r3_table0 Ei' Hi)|exact (place_inj _ _ _ _ _ _ Hmm Ej' Hj)].
Qed.

(** ** Refilling *)

(** The place has a bucket. *)
Definition occupied (hs : list Z) (used : bool) (j : nat) : bool := (j <? length hs)%nat || ((j =? 255)%nat && used).

Lemma place_occupied hs used h j : place hs used h = Some j -> occupied hs used j = true.
Proof.
  intros [(_ & -> & ->)|[_ Hj]]%place_host; unfold occupied; [apply orb_true_r|]. apply lookup_lt_Some in Hj. apply Nat.ltb_lt in Hj. by rewrite Hj.
Qed.

Lemma occupied_place hs m used j : table hs m -> occupied hs used j = true -> exists h, place hs used h = Some j.
Proof.
  intros Ht [Hj|[->%Nat.eqb_eq ->]%andb_true_iff]%orb_true_iff; [|by exists 255]. apply Nat.ltb_lt in Hj. destruct (lookup_lt_is_Some_2 hs j Hj) as [h Hh].
  pose proof Ht as (_ & _ & Hn & Hr). exists h. rewrite List.Forall_forall in Hr. pose proof (Hr h (proj1 (list_elem_of_In _ _) (list_elem_of_lookup_2 _ _ _ Hh))).
  rewrite list_find_place by lia. assert (list_find (eq h) hs = Some (j, h)) as ->; [|done]. apply list_find_Some. split; [done|]. split; [done|].
  intros k y Hk Hlt <-. pose proof (NoDup_lookup _ _ _ _ Hn Hk Hh). lia.
Qed.

(** The hosts of one network from place [j] on. *)
Lemma update3_hosts_spec sp b hs m i n : (i < 256)%nat -> table hs m -> forall j ind, (j <= length hs)%nat -> (j <= 254)%nat -> Z.of_nat (length ind) = 65536 -> (255 - j <= n)%nat ->
  (forall k v, (j <= k < length hs)%nat -> ind !! (i * 256 + k)%nat = Some v -> fits b v) ->
  exists ind' q, update3_hosts n sp b m ind (Z.of_nat j) (Z.of_nat (i * 256 + j)) = Some (ind', Z.of_nat (i * 256 + q)) /\ (q < 255)%nat /\ length ind' = length ind /\
    forall x, ind' !! x = if decide (i * 256 + j <= x < i * 256 + length hs)%nat then refill sp b <$> ind !! x else ind !! x.
Proof.
  intros Hi Ht. pose proof (table_length hs m Ht) as Hlen. pose proof Ht as ([rest Hm] & Hml & Hnd & Hr).
  induction n as [|n IH]; intros j ind Hj Hj' Hl Hn Hf; [lia|]. cbn [update3_hosts]. rewrite rd_nat.
  destruct (decide (j = length hs)) as [->|Hne].
  - assert (m !! length hs = Some 255) as -> by (rewrite Hm; by apply list_lookup_middle). bind_simpl. change (255 =? 255) with true. cbv iota.
    exists ind, (length hs). split; [done|]. split; [lia|]. split; [done|]. intros x. by rewrite decide_False by lia.
  - destruct (lookup_lt_is_Some_2 hs j) as [h Hh]; [lia|]. assert (m !! j = Some h) as -> by (rewrite Hm; by apply lookup_app_l_Some). bind_simpl.
    assert (0 <= h < 255) as Hhr. { rewrite List.Forall_forall in Hr. apply Hr, list_elem_of_In. by apply list_elem_of_lookup_2 with j. }
    destruct (Z.eqb_spec h 255); [lia|]. assert ((Z.of_nat (i * 256 + j) <? C3_IND_SZ) = true) as -> by (apply Z.ltb_lt; change C3_IND_SZ with 65536; lia).
    destruct (lookup_lt_is_Some_2 ind (i * 256 + j)) as [v Hv]; [lia|]. rewrite (update_at_ok _ _ _ _ v Hv) by (by eapply Hf; [|exact Hv]; lia). bind_simpl.
    destruct (Z.eqb_spec (Z.of_nat j) 254) as [E|E].
    + eexists _, j. split; [done|]. split; [lia|]. split; [by rewrite length_insert|]. intros x. assert (length hs = S j) as Hls by lia.
      destruct (decide (x = i * 256 + j)%nat) as [->|Hx]; [rewrite list_lookup_insert_eq, decide_True by lia; by rewrite Hv|].
      rewrite list_lookup_insert_ne by done. by rewrite decide_False by lia.
    + replace (wrap_u 8 (Z.of_nat j + 1)) with (Z.of_nat (S j)) by (rewrite wrap_u_small; lia). replace (Z.of_nat (i * 256 + j) + 1) with (Z.of_nat (i * 256 + S j)) by lia.
      destruct (IH (S j) (<[(i * 256 + j)%nat:=refill sp b v]> ind)) as (ind' & q & E' & Hq & L' & H'); [lia|lia|by rewrite length_insert|lia| |].
      { intros k w Hk. rewrite list_lookup_insert_ne by lia. apply Hf. lia. }
      exists ind', q. split; [done|]. split; [done|]. split; [by rewrite L', length_insert|]. intros x. rewrite H'. destruct (decide (x = i * 256 + j)%nat) as [->|Hx].
      * rewrite decide_False, decide_True, list_lookup_insert_eq, Hv by lia. done.
      * rewrite list_lookup_insert_ne by done. destruct (decide (i * 256 + S j <= x < i * 256 + length hs)%nat), (decide (i * 256 + j <= x < i * 256 + length hs)%nat); try lia; done.
Qed.

(** All hosts of the network at place [i]. *)
Lemma update3_network_ok isp ib hs p ind i m : (i < 256)%nat -> c3_individual_map p !! i = Some m -> table hs m -> length (c3_individual_255_used p) = 32%nat ->
  Z.of_nat (length ind) = 65536 ->
  (forall j v, occupied hs (ubit (c3_individual_255_used p) i) j = true -> ind !! (i * 256 + j)%nat = Some v -> fits ib v) ->
  exists ind', update3_network isp ib p ind (Z.of_nat i) = Some ind' /\ length ind' = length ind /\
    forall x, ind' !! x = if (x / 256 =? i)%nat && occupied hs (ubit (c3_individual_255_used p) i) (x mod 256) then refill isp ib <$> ind !! x else ind !! x.
Proof.
  intros Hi Hm Ht Hb Hl Hf. unfold update3_network. rewrite rd_nat, Hm. bind_simpl. pose proof (table_length hs m Ht) as Hlen.
  replace (Z.shiftl (Z.of_nat i) 8) with (Z.of_nat (i * 256 + 0)) by (rewrite Z.shiftl_mul_pow2 by lia; change (2 ^ 8) with 256; lia).
  destruct (update3_hosts_spec isp ib hs m i 256 Hi Ht 0 ind) as (ind1 & q & E & Hq & L & H); [lia|lia|done|lia| |].
  { intros k v Hk. apply Hf. unfold occupied. destruct (Nat.ltb_spec k (length hs)); [done|lia]. }
  change 0 with (Z.of_nat 0) at 1. rewrite E. bind_simpl. rewrite net_bit_ok by done. bind_simpl.
  assert (forall x, (x / 256 =? i)%nat && occupied hs (ubit (c3_individual_255_used p) i) (x mod 256) =
    bool_decide (i * 256 <= x < i * 256 + length hs)%nat || bool_decide (x = i * 256 + 255)%nat && ubit (c3_individual_255_used p) i) as Hocc.
  { intros x. pose proof (Nat.div_mod_eq x 256) as Hdm. pose proof (Nat.mod_upper_bound x 256). unfold occupied.
    destruct (Nat.eqb_spec (x / 256) i) as [Hx|Hx]; cbn [andb].
    - f_equal; [apply eq_true_iff_eq; rewrite Nat.ltb_lt, bool_decide_eq_true; lia|]. f_equal. apply eq_true_iff_eq. rewrite Nat.eqb_eq, bool_decide_eq_true. lia.
    - rewrite !bool_decide_false; [done|..]; intros ?; apply Hx; symmetry; apply (Nat.div_unique _ _ _ (x - i * 256)); lia. }
  destruct (ubit (c3_individual_255_used p) i) eqn:Eu in |- *.
  - assert (Z.lor (Z.of_nat (i * 256 + q)) 255 = Z.of_nat (i * 256 + 255)) as ->.
    { rewrite !Nat2Z.inj_add, Nat2Z.inj_mul. change (Z.of_nat 256) with 256. rewrite <- (lor_low _ (Z.of_nat q)) by lia. rewrite <- Z.lor_assoc.
      change (Z.of_nat 255) with 255. assert (Z.lor (Z.of_nat q) 255 = 255) as ->; [|rewrite lor_low; lia].
      apply Z.bits_inj'. intros k Hk. rewrite Z.lor_spec. destruct (Z.ltb_spec k 8) as [Hk8|Hk8].
      - change 255 with (Z.ones 8). rewrite Z.ones_spec_low by lia. apply orb_true_r.
      - change 255 with (Z.ones 8). rewrite Z.ones_spec_high, orb_false_r by lia. apply Z.bits_above_log2; [lia|].
        destruct (Z.eq_dec (Z.of_nat q) 0) as [->|]; [cbn; lia|]. assert (Z.log2 (Z.of_nat q) < 8); [|lia]. apply Z.log2_lt_pow2; [lia|]. change (2 ^ 8) with 256. lia. }
    assert ((Z.of_nat (i * 256 + 255) <? C3_IND_SZ) = true) as -> by (apply Z.ltb_lt; change C3_IND_SZ with 65536; lia).
    destruct (lookup_lt_is_Some_2 ind (i * 256 + 255)) as [v Hv]; [lia|].
    assert (ind1 !! (i * 256 + 255)%nat = Some v) as Hv1 by (rewrite H, decide_False by lia; done).
    rewrite (update_at_ok _ _ _ _ v Hv1) by (eapply Hf; [|exact Hv]; unfold occupied; rewrite Eu; apply orb_true_r).
    eexists. split; [done|]. split; [by rewrite length_insert|]. intros x. pose proof (Hocc x) as Ho. rewrite Eu in Ho. rewrite Ho, andb_true_r.
    destruct (decide (x = i * 256 + 255)%nat) as [->|Hx].
    + rewrite list_lookup_insert_eq by lia. rewrite (bool_decide_true (_ = _)) by done. rewrite orb_true_r, Hv. done.
    + rewrite list_lookup_insert_ne, H, (bool_decide_false (x = _)), orb_false_r by done.
      destruct (decide (i * 256 + 0 <= x < i * 256 + length hs)%nat); [rewrite bool_decide_true by lia|rewrite bool_decide_false by lia]; done.
  - exists ind1. split; [done|]. split; [done|]. intros x. pose proof (Hocc x) as Ho. rewrite Eu in Ho. rewrite Ho, andb_false_r, orb_false_r, H.
    destruct (decide (i * 256 + 0 <= x < i * 256 + length hs)%nat); [rewrite bool_decide_true by lia|rewrite bool_decide_false by lia]; done.
Qed.

Section refill3.
Context (isp nsp : delaySpec) (ib nb incr : Z) (p : class3DelayPool) (hss : nat -> list Z).
Context (Hbits : length (c3_individual_255_used p) = 32%nat).

Definition occ (x : nat) : bool := occupied (hss (x / 256)) (ubit (c3_individual_255_used p) (x / 256)) (x mod 256).

(** What a round of the loop does to the two arrays. *)
Definition one_round (ind net : list Z) (i : Z) : option (list Z * list Z) :=
  let? ind := if negb (ib =? - incr) then update3_network isp ib p ind i else Some ind in
  let? net := if negb (nb =? - incr) then update_at nsp nb net i else Some net in
  Some (ind, net).

Lemma update3_loop_round n ind net i c : rd (network_map p) i = Some c -> negb (i =? 255) && (c =? 255) = false ->
  update3_loop (S n) isp nsp ib nb incr p ind net i =
    let? (ind, net) := one_round ind net i in
    if i =? 254 then Some (ind, net) else update3_loop n isp nsp ib nb incr p ind net (wrap_u 8 (i + 1)).
Proof.
  intros Hc Hi. cbn [update3_loop]. rewrite Hc. bind_simpl. rewrite Hi. unfold one_round.
  destruct (if negb (ib =? - incr) then _ else _) as [ind1|]; [|done]. bind_simpl. by destruct (if negb (nb =? - incr) then _ else _).
Qed.

(** The buckets of the places in [S] fit. *)
Definition fits_places (S : nat -> bool) (ind net : list Z) : Prop :=
  (ib <> - incr -> forall (x : nat) v, S (x / 256)%nat = true -> occ x = true -> ind !! x = Some v -> fits ib v) /\
  (nb <> - incr -> forall y v, S y = true -> net !! y = Some v -> fits nb v).

Definition refilled (S : nat -> bool) (ind net ind' net' : list Z) : Prop :=
  length ind' = length ind /\ length net' = length net /\
  (forall x, ind' !! x = if negb (ib =? - incr) && S (x / 256)%nat && occ x then refill isp ib <$> ind !! x else ind !! x) /\
  (forall y, net' !! y = if negb (nb =? - incr) && S y then refill nsp nb <$> net !! y else net !! y).

Lemma one_round_ok ind net (i : nat) m : (i < 256)%nat -> c3_individual_map p !! i = Some m -> table (hss i) m -> Z.of_nat (length ind) = 65536 -> length net = 256%nat ->
  fits_places (Nat.eqb i) ind net ->
  exists ind' net', one_round ind net (Z.of_nat i) = Some (ind', net') /\ refilled (Nat.eqb i) ind net ind' net'.
Proof.
  intros Hi Hm Ht Hl Hn [F1 F2]. unfold one_round.
  assert (exists ind', (if negb (ib =? - incr) then update3_network isp ib p ind (Z.of_nat i) else Some ind) = Some ind' /\ length ind' = length ind /\
    forall x, ind' !! x = if negb (ib =? - incr) && (i =? x / 256)%nat && occ x then refill isp ib <$> ind !! x else ind !! x) as (ind' & -> & L1 & H1).
  { destruct (Z.eqb_spec ib (- incr)) as [|Hib]; cbn [negb]; [by exists ind|]. destruct (update3_network_ok isp ib (hss i) p ind i m Hi Hm Ht Hbits Hl) as (ind' & E & L & H).
    - intros j v Ho Hv. assert (j < 256)%nat as Hj. { pose proof (table_length _ _ Ht). unfold occupied in Ho. apply orb_true_iff in Ho as [Ho|Ho]; zify_bools; [lia|]. apply Nat.eqb_eq in H0. lia. }
      assert ((i * 256 + j) / 256 = i)%nat as Hd by (symmetry; apply (Nat.div_unique _ _ _ j); lia).
      assert ((i * 256 + j) mod 256 = j)%nat as Hmod by (symmetry; apply (Nat.mod_unique _ _ i); lia).
      eapply (F1 Hib); [| |exact Hv]; [rewrite Hd; apply Nat.eqb_refl|]. unfold occ. by rewrite Hd, Hmod.
    - exists ind'. split; [done|]. split; [done|]. intros x. rewrite H. cbn [andb]. rewrite (Nat.eqb_sym i). unfold occ.
      by destruct (Nat.eqb_spec (x / 256) i) as [->|]. }
  bind_simpl. destruct (lookup_lt_is_Some_2 net i) as [v Hv]; [lia|].
  destruct (Z.eqb_spec nb (- incr)) as [En|En]; cbn [negb].
  - eexists _, _. split; [done|]. split; [done|]. split; [done|]. split; [done|]. intros y. by rewrite (proj2 (Z.eqb_eq _ _) En).
  - rewrite (update_at_ok _ _ _ _ v Hv) by (eapply (F2 En); [apply Nat.eqb_refl|done]). eexists _, _. split; [done|]. split; [done|]. split; [by rewrite length_insert|]. split; [done|].
    intros y. rewrite (proj2 (Z.eqb_neq _ _) En). cbn [negb andb]. destruct (Nat.eqb_spec i y) as [<-|Hy]; [rewrite list_lookup_insert_eq, Hv by lia; done|by rewrite list_lookup_insert_ne].
Qed.

Lemma fits_places_sub (S S' : nat -> bool) ind net : (forall x, S' x = true -> S x = true) -> fits_places S ind net -> fits_places S' ind net.
Proof. intros H [F1 F2]. split; intros Hb; intros; [eapply (F1 Hb)|eapply (F2 Hb)]; eauto. Qed.

(** Two rounds over places that have nothing in common. *)
Lemma refilled_trans (S1 S2 S : nat -> bool) ind net ind1 net1 ind2 net2 :
  (forall x, S x = S1 x || S2 x) -> (forall x, S1 x && S2 x = false) ->
  refilled S1 ind net ind1 net1 -> refilled S2 ind1 net1 ind2 net2 -> refilled S ind net ind2 net2.
Proof.
  intros Hs Hd (L1 & L1' & H1 & H1') (L2 & L2' & H2 & H2'). split; [congruence|]. split; [congruence|]. split.
  - intros x. rewrite H2, H1, Hs. specialize (Hd (x / 256)%nat). destruct (negb _), (S1 (x / 256)%nat), (S2 (x / 256)%nat), (occ x); done.
  - intros y. rewrite H2', H1', Hs. specialize (Hd y). destruct (negb (nb =? - incr)), (S1 y), (S2 y); done.
Qed.

Lemma fits_places_after (S1 S2 : nat -> bool) ind net ind1 net1 :
  (forall x, S1 x && S2 x = false) -> refilled S1 ind net ind1 net1 -> fits_places S2 ind net -> fits_places S2 ind1 net1.
Proof.
  intros Hd (_ & _ & H1 & H1') [F1 F2]. split.
  - intros Hb x v Hs Ho. specialize (Hd (x / 256)%nat). rewrite H1, Hs in *. rewrite andb_true_r in Hd. rewrite Hd, andb_false_r. by apply (F1 Hb).
  - intros Hb y v Hs. specialize (Hd y). rewrite H1', Hs in *. rewrite andb_true_r in Hd. rewrite Hd, andb_false_r. by apply (F2 Hb).
Qed.

Context (nets : list Z) (Hnets : table nets (network_map p)).
Context (Htabs : forall k, (k < length nets)%nat -> exists m, c3_individual_map p !! k = Some m /\ table (hss k) m).

Lemma update3_loop_spec n : forall k ind net, (k <= length nets)%nat -> (k <= 254)%nat -> (255 - k <= n)%nat -> Z.of_nat (length ind) = 65536 -> length net = 256%nat ->
  fits_places (fun y => (k <=? y)%nat && (y <? length nets)%nat) ind net ->
  exists ind' net', update3_loop n isp nsp ib nb incr p ind net (Z.of_nat k) = Some (ind', net') /\
    refilled (fun y => (k <=? y)%nat && (y <? length nets)%nat) ind net ind' net'.
Proof.
  pose proof (table_length _ _ Hnets) as Hlen. pose proof Hnets as ([rest Hm] & Hml & Hnd & Hr).
  induction n as [|n IH]; intros k ind net Hk Hk' Hn Hl Hl' Hf; [lia|]. destruct (decide (k = length nets)) as [->|Hne].
  - cbn [update3_loop]. rewrite rd_nat. assert (network_map p !! length nets = Some 255) as -> by (rewrite Hm; by apply list_lookup_middle). bind_simpl.
    destruct (Z.eqb_spec (Z.of_nat (length nets)) 255); [lia|]. cbn. exists ind, net. split; [done|]. split; [done|]. split; [done|].
    assert (forall y, (length nets <=? y)%nat && (y <? length nets)%nat = false) as Hno by (intros y; destruct (Nat.leb_spec (length nets) y), (Nat.ltb_spec y (length nets)); try lia; done).
    split; intros; by rewrite Hno, andb_false_r.
  - destruct (lookup_lt_is_Some_2 nets k) as [h Hh]; [lia|]. assert (network_map p !! k = Some h) as Hkm by (rewrite Hm; by apply lookup_app_l_Some).
    assert (0 <= h < 255) as Hhr. { rewrite List.Forall_forall in Hr. apply Hr, list_elem_of_In. by apply list_elem_of_lookup_2 with k. }
    assert (negb (Z.of_nat k =? 255) && (h =? 255) = false) as Hgo by (destruct (Z.eqb_spec h 255); [lia|apply andb_false_r]).
    rewrite (update3_loop_round n ind net _ h (eq_trans (rd_nat _ _) Hkm) Hgo).
    destruct (Htabs k) as (m & Hmk & Htk); [lia|].
    assert (forall y, (k =? y)%nat && ((S k <=? y)%nat && (y <? length nets)%nat) = false) as Hdis.
    { intros y. destruct (Nat.eqb_spec k y), (Nat.leb_spec (S k) y); try lia; done. }
    assert (forall y, (k <=? y)%nat && (y <? length nets)%nat = (k =? y)%nat || ((S k <=? y)%nat && (y <? length nets)%nat)) as Huni.
    { intros y. destruct (Nat.eqb_spec k y), (Nat.leb_spec (S k) y), (Nat.leb_spec k y), (Nat.ltb_spec y (length nets)); try lia; done. }
    destruct (one_round_ok ind net k m) as (ind1 & net1 & -> & H1); [lia|done|done|done|done| |].
    { eapply fits_places_sub; [|exact Hf]. intros y Hy. cbn beta in *. by rewrite Huni, Hy. }
    bind_simpl. destruct (Z.eqb_spec (Z.of_nat k) 254) as [E|E].
    + exists ind1, net1. split; [done|]. destruct H1 as (L1 & L2 & A & B). split; [done|]. split; [done|].
      assert (forall y, (k <=? y)%nat && (y <? length nets)%nat = (k =? y)%nat) as Hone.
      { intros y. destruct (Nat.eqb_spec k y), (Nat.leb_spec k y), (Nat.ltb_spec y (length nets)); try lia; done. }
      split; intros; by rewrite ?A, ?B, Hone.
    + replace (wrap_u 8 (Z.of_nat k + 1)) with (Z.of_nat (S k)) by (rewrite wrap_u_small; lia). pose proof H1 as (L1 & L2 & _).
      destruct (IH (S k) ind1 net1) as (ind2 & net2 & -> & H2); [lia|lia|lia|congruence|congruence| |].
      { eapply fits_places_after; [exact Hdis|exact H1|]. eapply fits_places_sub; [|exact Hf]. intros y Hy. cbn beta in *. rewrite Huni, Hy. apply orb_true_r. }
      exists ind2, net2. split; [done|]. eapply refilled_trans; [|exact Hdis|exact H1|exact H2]. exact Huni.
Qed.

(** From the first place on, with that of network 255. *)
Lemma update3_places u ind net : Z.of_nat (length ind) = 65536 -> length net = 256%nat ->
  (is_used u = true -> exists m, c3_individual_map p !! 255%nat = Some m /\ table (hss 255%nat) m) ->
  fits_places (occupied nets (is_used u)) ind net ->
  exists ind' net', update3_loop 256 isp nsp ib nb incr p ind net (first_place u) = Some (ind', net') /\ refilled (occupied nets (is_used u)) ind net ind' net'.
Proof.
  intros Hl Hl' H255 Hf. pose proof (table_length _ _ Hnets) as Hlen. unfold first_place. destruct (is_used u) eqn:Eu.
  - destruct (H255 eq_refl) as (m & Hm & Ht). destruct (lookup_lt_is_Some_2 (network_map p) 255) as [c Hc]; [destruct Hnets as (_ & -> & _); lia|].
    change 256%nat with (S 255). rewrite (update3_loop_round 255 ind net 255 c (eq_trans (rd_nat (network_map p) 255 : rd (network_map p) 255 = _) Hc) eq_refl).
    assert (forall y, (255 =? y)%nat && ((0 <=? y)%nat && (y <? length nets)%nat) = false) as Hdis.
    { intros y. destruct (Nat.eqb_spec 255 y), (Nat.ltb_spec y (length nets)); try lia; by rewrite ?andb_false_r. }
    assert (forall y, occupied nets true y = (255 =? y)%nat || ((0 <=? y)%nat && (y <? length nets)%nat)) as Huni.
    { intros y. unfold occupied. rewrite andb_true_r, (Nat.eqb_sym y), orb_comm. done. }
    destruct (one_round_ok ind net 255 m) as (ind1 & net1 & E1 & H1); [lia|done|done|done|done| |].
    { eapply fits_places_sub; [|exact Hf]. intros y Hy. by rewrite Huni, Hy. }
    rewrite (E1 : one_round ind net 255 = _). bind_simpl. pose proof H1 as (L1 & L2 & _).
    destruct (update3_loop_spec 255 0 ind1 net1) as (ind2 & net2 & E2 & H2); [lia|lia|lia|congruence|congruence| |].
    { eapply fits_places_after; [exact Hdis|exact H1|]. eapply fits_places_sub; [|exact Hf]. intros y Hy. rewrite Huni, Hy. apply orb_true_r. }
    exists ind2, net2. split; [exact E2|]. eapply refilled_trans; [|exact Hdis|exact H1|exact H2]. exact Huni.
  - assert (forall y, occupied nets false y = (0 <=? y)%nat && (y <? length nets)%nat) as Huni.
    { intros y. unfold occupied. by rewrite andb_false_r, orb_false_r. }
    destruct (update3_loop_spec 256 0 ind net) as (ind2 & net2 & E2 & H2); [lia|lia|lia|done|done| |].
    { eapply fits_places_sub; [|exact Hf]. intros y Hy. by rewrite Huni. }
    exists ind2, net2. split; [exact E2|]. destruct H2 as (A & B & C & D). split; [done|]. split; [done|]. split; intros; rewrite ?C, ?D; by rewrite Huni.
Qed.
End refill3.

Lemma refill_all_lookup {K} `{Countable K} sp b incr (m : gmap K Z) k : 0 < incr -> b = restore_bps sp * incr ->
  refill_all (Some sp) incr m !! k = if negb (b =? - incr) then refill sp b <$> m !! k else m !! k.
Proof.
  intros Hi ->. unfold refill_all. destruct (Z.eqb_spec (restore_bps sp) (-1)) as [->|Hr].
  - by destruct (Z.eqb_spec (-1 * incr) (- incr)); [|lia].
  - destruct (Z.eqb_spec (restore_bps sp * incr) (- incr)); [nia|]. by rewrite lookup_fmap.
Qed.

Lemma update3_ok nets hss p a sp isp nsp incr : rep3 nets hss p a -> r_individual sp = Some isp -> r_network sp = Some nsp -> 0 < incr -> fits_all sp incr a ->
  exists p', delayUpdateClass3 p sp incr = Some p' /\ rep3 nets hss p' (a_refill sp incr a) /\ network_255_used p' = network_255_used p /\
    c3_individual_255_used p' = c3_individual_255_used p.
Proof.
  intros Hr Hisp Hnsp Hi Hf. pose proof Hr as []. pose proof (aggregate_ok sp incr a Hf) as Hag. unfold delayUpdateClass3. rewrite <- r3_all0, Hag, Hisp, Hnsp. bind_simpl.
  destruct (fa_hosts _ _ _ Hf isp Hisp) as [F1 F2]. destruct (fa_nets _ _ _ Hf nsp Hnsp) as [G1 G2].
  destruct ((restore_bps nsp =? -1) && (restore_bps isp =? -1)) eqn:Er.
  { apply andb_true_iff in Er as [E1 E2]. eexists. split; [done|]. split; [|done]. constructor; try done; cbn [ap_nets ap_hosts a_refill]; unfold refill_all; rewrite ?Hisp, ?Hnsp, ?E1, ?E2; done. }
  clear Er. rewrite !int_ok by done. bind_simpl.
  destruct (update3_places isp nsp (restore_bps isp * incr) (restore_bps nsp * incr) incr p hss r3_bits0 nets r3_table0) with (u := network_255_used p) (ind := c3_individual p) (net := network p)
    as (ind' & net' & -> & L1 & L2 & A & B); try done.
  { intros k Hk. assert (occupied nets (is_used (network_255_used p)) k = true) as Ho by (unfold occupied; by apply Nat.ltb_lt in Hk as ->).
    destruct (occupied_place _ _ _ _ r3_table0 Ho) as [n Hn]. by apply (r3_tables0 n). }
  { intros Eu. apply (r3_tables0 255). by rewrite Eu. }
  { split.
    - intros Hne x v Ho Hox Hv. destruct (occupied_place _ _ _ _ r3_table0 Ho) as [n Hn]. destruct (r3_tables0 n _ Hn) as (m & _ & Ht).
      destruct (occupied_place _ _ _ _ Ht Hox) as [h Hh]. apply (F2 ltac:(lia) (n, h)). rewrite r3_hosts0, Hn. bind_simpl. rewrite Hh. bind_simpl.
      rewrite <- Hv. f_equal. rewrite (Nat.div_mod_eq x 256) at 3. lia.
    - intros Hne y v Ho Hv. destruct (occupied_place _ _ _ _ r3_table0 Ho) as [n Hn]. apply (G2 ltac:(lia) n). by rewrite r3_nets0, Hn. }
  bind_simpl. eexists. split; [done|]. split; [|done]. constructor; cbn [ap_all ap_nets ap_hosts a_refill c3_aggregate c3_individual network network_bytes c3_individual_map c3_individual_255_used c3_individual_bytes network_map network_255_used]; try done; try congruence.
  - intros n. rewrite Hnsp, (refill_all_lookup nsp (restore_bps nsp * incr)), r3_nets0 by done. destruct (place nets _ n) as [i|] eqn:Ei; bind_simpl; [|by destruct (negb (restore_bps nsp * incr =? - incr))].
    rewrite B, (place_occupied _ _ _ _ Ei), andb_true_r. done.
  - intros n h. rewrite Hisp, (refill_all_lookup isp (restore_bps isp * incr)), r3_hosts0 by done. destruct (place nets _ n) as [i|] eqn:Ei; bind_simpl; [|by destruct (negb (restore_bps isp * incr =? - incr))].
    destruct (place (hss i) _ h) as [j|] eqn:Ej; bind_simpl; [|by destruct (negb (restore_bps isp * incr =? - incr))]. destruct (host_level _ _ _ _ _ _ _ _ Hr Ei Ej) as (Hi256 & Hj256 & _).
    assert ((i * 256 + j) / 256 = i)%nat as Hd by (symmetry; apply (Nat.div_unique _ _ _ j); lia).
    assert ((i * 256 + j) mod 256 = j)%nat as Hm by (symmetry; apply (Nat.mod_unique _ _ i); lia).
    rewrite A. unfold occ. rewrite Hd, Hm, (place_occupied _ _ _ _ Ei), (place_occupied _ _ _ _ Ej), !andb_true_r. done.
Qed.
End DelayClass3.
