(* ===== verification/DelayRate.v ===== *)
(** * Delay pools limit the rate of replies

    The pools of DelayPools.v behave as buckets by name: a run of reads and
    refills on the arrays of the code has the results of the run on abstract
    pools.  Hence the limits: in any run, what the clients of a pool, of one
    of its networks, or one of its hosts read is at most the level of the
    bucket plus the rate times the time, and the bytes that they may read
    whatever the level. *)

From Stdlib Require Import ZArith Lia.
From stdpp Require Import base gmap list numbers option.
From S2P Require Import Prelude DelayPools DelayClass3.
Import DelayPools DelayClass3.

Module DelayRate.

(** ** A pool and its buckets *)

Definition Rep (p : delayPool) (a : apool) : Prop :=
  match p with
  | Class1 p => ap_all a = c1_aggregate p /\ ap_nets a = ∅ /\ ap_hosts a = ∅
  | Class2 p => exists hs, rep2 hs p a
  | Class3 p => exists nets hss, rep3 nets hss p a
  end.

(** ** New pools *)

(** The arrays of a pool have their sizes. *)
Definition sizes (p : delayPool) : Prop :=
  match p with
  | Class1 _ => True
  | Class2 p => length (individual_map p) = 256%nat /\ length (individual p) = 256%nat /\ length (individual_bytes p) = 256%nat
  | Class3 p => length (network_map p) = 256%nat /\ length (network p) = 256%nat /\ length (network_bytes p) = 256%nat /\
      length (c3_individual_map p) = 256%nat /\ (forall i m, c3_individual_map p !! i = Some m -> length m = 256%nat) /\
      Z.of_nat (length (c3_individual p)) = 65536 /\ Z.of_nat (length (c3_individual_bytes p)) = 65536
  end.

Definition int_range (z : Z) : Prop := - INT_MAX - 1 <= z <= INT_MAX.

(** A pool that is initialised has its level and no clients. *)
Lemma init_pool_ok init p cl sp : class_of p = cl -> sizes p -> 0 <= init <= 100 -> int_range (max_bytes (r_aggregate sp)) ->
  exists p', init_pool init p cl sp = Some p' /\ class_of p' = cl /\ sizes p' /\ Rep p' (mkAp (Z.quot (max_bytes (r_aggregate sp) * init) 100) ∅ ∅).
Proof.
  intros Hc Hsz Hi Hm. unfold init_pool, initial_level. set (v := Z.quot (max_bytes (r_aggregate sp) * init) 100).
  assert (int_range v) as Hv.
  { unfold v, int_range, INT_MAX in *. destruct (Z.leb_spec 0 (max_bytes (r_aggregate sp))) as [H|H].
    - rewrite Z.quot_div_nonneg by nia. split; [assert (0 <= max_bytes (r_aggregate sp) * init / 100) by (apply Z.div_pos; nia); lia|]. apply Z.div_le_upper_bound; nia.
    - replace (max_bytes (r_aggregate sp) * init) with (- (- max_bytes (r_aggregate sp) * init)) by lia. rewrite Z.quot_opp_l, Z.quot_div_nonneg by nia.
      assert (0 <= - max_bytes (r_aggregate sp) * init / 100 <= - max_bytes (r_aggregate sp)); [|lia]. split; [apply Z.div_pos; nia|apply Z.div_le_upper_bound; nia]. }
  rewrite int_ok by done. bind_simpl. destruct p as [p|p|p]; cbn [class_of] in Hc; subst cl; cbn [Z.eqb Pos.eqb].
  - eexists. split; [done|]. done.
  - destruct Hsz as (S1 & S2 & S3). rewrite (wr_nat (individual_map p) 0 255 : _ -> wr (individual_map p) 0 255 = _) by lia. bind_simpl. eexists. split; [done|]. split; [done|].
    split; [cbn [sizes individual_map individual individual_bytes]; by rewrite length_insert|]. exists []. constructor; try done; [by apply table_empty|].
    intros n h. cbn [ap_hosts]. rewrite lookup_empty. cbn [individual_255_used is_used Z.eqb negb]. unfold place. destruct (n =? 0), (h =? 255); done.
  - destruct Hsz as (S1 & S2 & S3 & S4 & S5 & S6 & S7). rewrite (wr_nat (network_map p) 0 255 : _ -> wr (network_map p) 0 255 = _) by lia. bind_simpl.
    eexists. split; [done|]. split; [done|]. split; [cbn [sizes network_map network network_bytes c3_individual_map c3_individual c3_individual_bytes]; by rewrite length_insert|].
    assert (forall n, place [] (is_used 0) n = None) as Hno by (intros n; unfold place; by destruct (n =? 255)).
    assert (forall i, (i < 256)%nat -> ubit (repeat 0 32) i = false) as Hb.
    { intros i Hib. destruct (div8_lt i Hib) as [_ H8]. rewrite (ubit_testbit _ i 0); [apply Z.testbit_0_l|]. change (repeat 0 32) with (replicate 32 0). by apply lookup_replicate_2. }
    exists [], (fun _ => []). constructor; try done.
    + by apply table_empty.
    + intros n i. cbn [network_255_used]. by rewrite Hno.
    + intros i Hi256. cbn [c3_individual_255_used]. by rewrite Hb.
    + intros n. cbn [network_255_used]. by rewrite Hno.
    + intros n h. cbn [network_255_used]. by rewrite Hno.
Qed.

(** ** Clients *)

(** The rates are allocated for the class. *)
Definition rates_for (cl : Z) (sp : delaySpecSet) : Prop :=
  match r_individual sp, r_network sp with
  | None, None => cl = 1
  | Some _, None => cl = 2
  | Some _, Some _ => cl = 3
  | None, Some _ => False
  end.

(** The names of the buckets of an address. *)
Definition key (cl addr : Z) : Z * Z :=
  if cl =? 3 then (Z.shiftr (Z.land addr 65535) 8, Z.land (Z.land addr 65535) 255)
  else (0, Z.land addr 255).

(** The levels that new buckets get. *)
Definition new_level (init : Z) (sp : option delaySpec) : option Z := let? s := sp in Some (Z.quot (max_bytes s * init) 100).

Definition a_client (init : Z) (sp : delaySpecSet) (k : Z * Z) (a : apool) : apool :=
  a_see (new_level init (r_network sp)) (new_level init (r_individual sp)) k.1 k.2 a.

Definition client_pool (init : Z) (sp : delaySpecSet) (p : delayPool) (addr : Z) : option (Z * delayPool) :=
  match p with
  | Class1 p => Some (0, Class1 p)
  | Class2 p => let? (i, p) := client2 init sp p (Z.land addr 255) in Some (i, Class2 p)
  | Class3 p => let? (i, p) := client3 init sp p (Z.shiftr (Z.land addr 65535) 8) (Z.land (Z.land addr 65535) 255) in Some (i, Class3 p)
  end.

Lemma low_byte z : 0 <= Z.land z 255 <= 255.
Proof. change 255 with (Z.ones 8) at 1 2. rewrite Z.land_ones by lia. pose proof (Z.mod_pos_bound z (2 ^ 8)). change (2 ^ 8) with 256 in *. lia. Qed.

Lemma net_byte z : 0 <= Z.shiftr (Z.land z 65535) 8 <= 255.
Proof.
  change 65535 with (Z.ones 16). rewrite Z.land_ones by lia. rewrite Z.shiftr_div_pow2 by lia. pose proof (Z.mod_pos_bound z (2 ^ 16)). change (2 ^ 8) with 256.
  change (2 ^ 16) with 65536 in *. split; [apply Z.div_pos; lia|]. assert (z mod 65536 / 256 < 256); [apply Z.div_lt_upper_bound; lia|lia].
Qed.

(** The levels of new buckets are of type [int]. *)
Definition new_levels_ok (init : Z) (sp : delaySpecSet) : Prop :=
  (forall v, new_level init (r_individual sp) = Some v -> level_ok v) /\ (forall v, new_level init (r_network sp) = Some v -> level_ok v).

Lemma initial_level_ok init sp s : new_levels_ok init sp -> (r_individual sp = Some s \/ r_network sp = Some s) ->
  initial_level s init = Some (Z.quot (max_bytes s * init) 100).
Proof. intros [H1 H2] Hs. unfold initial_level. apply int_ok. destruct Hs as [Hs|Hs]; [apply H1|apply H2]; unfold new_level; by rewrite Hs. Qed.

(** A client's buckets, what they allow, and reading from them. *)
Lemma read_pool_ok init sp p a addr : Rep p a -> rates_for (class_of p) sp -> new_levels_ok init sp ->
  exists pos p1, client_pool init sp p addr = Some (pos, p1) /\ class_of p1 = class_of p /\ 0 <= pos < 65536 /\
    let k := key (class_of p) addr in let a1 := a_client init sp k a in
    Rep p1 a1 /\ (forall nb, pool_wanted sp p1 pos nb = Some (a_wanted sp a1 k.1 k.2 nb)) /\
    forall q, level_ok (ap_all a1 - q) -> (forall l, ap_hosts a1 !! k = Some l -> level_ok (l - q)) -> (forall l, ap_nets a1 !! k.1 = Some l -> level_ok (l - q)) ->
      exists p2, pool_in p1 pos q = Some p2 /\ class_of p2 = class_of p /\ Rep p2 (a_in k.1 k.2 q a1).
Proof.
  intros Hr Hc Hl. unfold rates_for in Hc. destruct p as [p|p|p]; cbn [class_of] in *; destruct (r_individual sp) as [isp|] eqn:Ei, (r_network sp) as [nsp|] eqn:En; try lia.
  - destruct Hr as (Ha & Hn & Hh). exists 0, (Class1 p). do 3 (split; [done|]). cbn zeta. unfold a_client, a_see, new_level. rewrite Ei, En. cbn.
    split; [done|]. split; [intros nb; unfold a_wanted; by rewrite Ei, En; cbn; rewrite Ha|]. intros q Hq _ _. rewrite <- Ha. unfold level_ok in Hq. rewrite int_ok by done. cbn.
    eexists. split; [done|]. split; [done|]. cbn. by rewrite Hn, Hh.
  - destruct Hr as [hs Hr]. cbn [client_pool]. pose proof (low_byte addr) as Hb.
    destruct (client2_ok hs p a init sp isp _ (Z.land addr 255) Hr Ei (initial_level_ok init sp isp Hl (or_introl Ei)) Hb) as (hs' & i & p1 & -> & Hr1 & Hi). bind_simpl.
    eexists _, _. split; [done|]. split; [done|]. pose proof (place_lt _ _ _ _ _ (r2_table _ _ _ Hr1) Hi). split; [lia|]. cbn zeta.
    unfold a_client, new_level. rewrite Ei, En. cbn [fst snd key Z.eqb Pos.eqb mbind option_bind]. split; [by exists hs'|].
    split; [intros nb; by eapply wanted2_ok|]. intros q Hq Hhq _. destruct (place_level _ _ _ _ _ _ (r2_table _ _ _ Hr1) (r2_len _ _ _ Hr1) Hi) as [l Hlv].
    assert (ap_hosts (a_see None (Some (max_bytes isp * init ÷ 100)) 0 (Z.land addr 255) a) !! (0, Z.land addr 255) = Some l) as Hal.
    { rewrite (r2_hosts _ _ _ Hr1). cbn. rewrite Hi. done. }
    destruct (in2_ok hs' p1 _ (Z.land addr 255) i q l Hr1 Hi Hq Hal (Hhq _ Hal)) as (p2 & E2 & Hr2 & _). exists (Class2 p2). split; [done|]. split; [done|]. by exists hs'.
  - destruct Hr as (nets & hss & Hr). cbn [client_pool]. pose proof (low_byte (Z.land addr 65535)) as Hb. pose proof (net_byte addr) as Hnb.
    destruct (client3_ok nets hss p a init sp isp nsp _ _ _ _ Hr Ei En (initial_level_ok init sp isp Hl (or_introl Ei)) (initial_level_ok init sp nsp Hl (or_intror En)) Hnb Hb)
      as (nets' & hss' & i & j & p1 & -> & Hr1 & Hi & Hj). bind_simpl. eexists _, _. split; [done|]. split; [done|].
    destruct (host_level _ _ _ _ _ _ _ _ Hr1 Hi Hj) as (Hi256 & Hj256 & _ & l & Hal). split; [lia|]. cbn zeta.
    unfold a_client, new_level. rewrite Ei, En. cbn [fst snd key Z.eqb Pos.eqb mbind option_bind]. split; [by exists nets', hss'|].
    split; [intros nb; by eapply wanted3_ok|]. intros q Hq Hhq Hnq. destruct (place_level _ _ _ _ _ _ (r3_table _ _ _ _ Hr1) (r3_net _ _ _ _ Hr1) Hi) as [nl Hnl].
    match type of Hal with ap_hosts ?a1 !! (?n, _) = _ => assert (ap_nets a1 !! n = Some nl) as Hanl by (rewrite (r3_nets _ _ _ _ Hr1), Hi; done) end.
    destruct (in3_ok nets' hss' p1 _ _ _ i j q l nl Hr1 Hi Hj Hq Hal (Hhq _ Hal) Hanl (Hnq _ Hanl)) as (p2 & E2 & Hr2). exists (Class3 p2). split; [done|]. split; [done|]. by exists nets', hss'.
Qed.

Lemma update_pool_ok sp incr p a : Rep p a -> rates_for (class_of p) sp -> 0 < incr -> fits_all sp incr a ->
  exists p', update_pool sp incr p = Some p' /\ class_of p' = class_of p /\ Rep p' (a_refill sp incr a).
Proof.
  intros Hr Hc Hi Hf. unfold rates_for in Hc. destruct p as [p|p|p]; cbn [class_of update_pool] in *; destruct (r_individual sp) as [isp|] eqn:Ei, (r_network sp) as [nsp|] eqn:En; try lia.
  - destruct Hr as (Ha & Hn & Hh). unfold delayUpdateClass1. rewrite <- Ha, (aggregate_ok sp incr a Hf). cbn. eexists. split; [done|]. split; [done|]. cbn.
    unfold refill_all. by rewrite Ei, En, Hn, Hh.
  - destruct Hr as [hs Hr]. destruct (update2_ok hs p a sp isp incr Hr Ei Hf) as (p' & -> & Hr' & _). eexists. split; [done|]. split; [done|]. by exists hs.
  - destruct Hr as (nets & hss & Hr). destruct (update3_ok nets hss p a sp isp nsp incr Hr Ei En Hi Hf) as (p' & -> & Hr' & _). eexists. split; [done|]. split; [done|]. by exists nets, hss.
Qed.

(** ** Sane rates and levels

    A limit is off, or its bucket can be refilled for [I] seconds at once
    without an overflow.  A bucket whose limit is off is drained all the same,
    and never refilled: then the bytes [B] still to be read must fit.  A bucket
    with a limit goes below zero only by bytes that are read whatever the
    level; there are [F] of these still to come. *)
Definition spec_sane (I B F : Z) (s : delaySpec) : Prop :=
  (restore_bps s = -1 /\ -1 <= max_bytes s <= INT_MAX /\ B <= INT_MAX) \/
  (0 <= restore_bps s /\ 0 <= max_bytes s /\ max_bytes s + restore_bps s * I <= INT_MAX /\ F <= INT_MAX).

Record rates_sane (I B F init : Z) (sp : delaySpecSet) : Prop := {
  rs_init : 0 <= init <= 100;
  rs_all : spec_sane I B F (r_aggregate sp);
  rs_ind : forall s, r_individual sp = Some s -> spec_sane I B F s;
  rs_net : forall s, r_network sp = Some s -> spec_sane I B F s
}.

(** A level, when [B] bytes are still to be read, [F] of them whatever the
    level. *)
Definition bucket (s : delaySpec) (B F v : Z) : Prop :=
  v <= INT_MAX /\ if restore_bps s =? -1 then - INT_MAX - 1 <= v - B else F <= INT_MAX /\ - INT_MAX - 1 <= v - F /\ v <= max_bytes s.

Definition buckets {K} `{Countable K} (s : option delaySpec) (B F : Z) (m : gmap K Z) : Prop :=
  forall k v, m !! k = Some v -> exists s', s = Some s' /\ bucket s' B F v.

Record pool_inv (sp : delaySpecSet) (B F : Z) (a : apool) : Prop := {
  pi_all : bucket (r_aggregate sp) B F (ap_all a);
  pi_nets : buckets (r_network sp) B F (ap_nets a);
  pi_hosts : buckets (r_individual sp) B F (ap_hosts a)
}.

Lemma spec_sane_less I B F B' F' s : B' <= B -> F' <= F -> spec_sane I B F s -> spec_sane I B' F' s.
Proof. unfold spec_sane. lia. Qed.

Lemma rates_sane_less I B F B' F' init sp : B' <= B -> F' <= F -> rates_sane I B F init sp -> rates_sane I B' F' init sp.
Proof. intros HB HF []. constructor; [done|..]; intros; eapply (spec_sane_less I B F); eauto. Qed.

Lemma new_level_range I B F init s : 0 <= init <= 100 -> 0 <= I -> spec_sane I B F s ->
  let v := Z.quot (max_bytes s * init) 100 in -1 <= v <= INT_MAX /\ (restore_bps s <> -1 -> 0 <= v <= max_bytes s).
Proof.
  intros Hi HI Hs. cbn zeta. unfold spec_sane in Hs. destruct (Z.leb_spec 0 (max_bytes s)) as [H|H].
  - rewrite Z.quot_div_nonneg by nia. assert (0 <= max_bytes s * init / 100 <= max_bytes s); [|nia]. split; [apply Z.div_pos; nia|].
    apply Z.div_le_upper_bound; nia.
  - assert (max_bytes s = -1) as -> by lia. replace (-1 * init) with (- init) by lia. rewrite Z.quot_opp_l, Z.quot_div_nonneg by lia.
    assert (0 <= init / 100 <= 1); [|unfold INT_MAX in *; lia]. split; [apply Z.div_pos; lia|apply Z.div_le_upper_bound; lia].
Qed.

Lemma new_bucket I B F init s : 0 <= init <= 100 -> 0 <= I -> spec_sane I B F s -> bucket s B F (Z.quot (max_bytes s * init) 100).
Proof.
  intros Hi HI Hs. destruct (new_level_range I B F init s Hi HI Hs) as [H1 H2]. split; [lia|].
  unfold spec_sane in Hs. destruct (Z.eqb_spec (restore_bps s) (-1)) as [E|E]; [lia|]. specialize (H2 E). lia.
Qed.

Lemma rates_new_levels I B F init sp : 0 <= I -> rates_sane I B F init sp -> new_levels_ok init sp.
Proof.
  intros HI [Hi _ H1 H2]. split; intros v; unfold new_level; [destruct (r_individual sp) as [s|]|destruct (r_network sp) as [s|]]; cbn; try done; intros [= <-].
  - destruct (new_level_range I B F init s Hi HI (H1 s eq_refl)). unfold level_ok, INT_MAX in *. lia.
  - destruct (new_level_range I B F init s Hi HI (H2 s eq_refl)). unfold level_ok, INT_MAX in *. lia.
Qed.

Lemma see_buckets {K} `{Countable K} I B F init s k (m : gmap K Z) : 0 <= init <= 100 -> 0 <= I -> (forall s', s = Some s' -> spec_sane I B F s') ->
  buckets s B F m -> buckets s B F (see k (new_level init s) m).
Proof.
  intros Hi HI Hs Hm. unfold see, new_level. destruct s as [s|]; cbn; [|done]. destruct (m !! k) eqn:E; [done|]. intros k' v. rewrite lookup_insert_Some.
  intros [(<- & <-)|[_ Hv]]; [|by apply (Hm k')]. exists s. split; [done|]. apply (new_bucket I); [done|done|by apply Hs].
Qed.

Lemma client_inv I B F init sp k a : 0 <= I -> rates_sane I B F init sp -> pool_inv sp B F a -> pool_inv sp B F (a_client init sp k a).
Proof.
  intros HI [Hi H1 H2 H3] [P1 P2 P3]. constructor; cbn [ap_all ap_nets ap_hosts a_client a_see]; [done|by apply (see_buckets I)|by apply (see_buckets I)].
Qed.

(** Reading [q] bytes, of which [mn] are there whatever the level. *)
Lemma bucket_drain s B F v mn q : 0 <= q <= B -> 0 <= mn -> Z.min q mn <= F -> bucket s B F v -> (restore_bps s <> -1 -> q <= Z.max mn v) ->
  bucket s (B - q) (F - Z.min q mn) (v - q) /\ level_ok (v - q).
Proof.
  intros Hq Hm HF [Hv Hb] Hw. unfold bucket, level_ok. destruct (Z.eqb_spec (restore_bps s) (-1)) as [E|E]; [lia|]. specialize (Hw E). unfold INT_MAX in *. lia.
Qed.

Lemma bucket_less s B F v q f : 0 <= q -> 0 <= f -> bucket s B F v -> bucket s (B - q) (F - f) v.
Proof. intros Hq Hf [Hv Hb]. split; [done|]. destruct (restore_bps s =? -1); lia. Qed.

Lemma limit_le s nb l : limit s nb l <= nb /\ (restore_bps s <> -1 -> limit s nb l <= l).
Proof. unfold limit. destruct (Z.eqb_spec (restore_bps s) (-1)); lia. Qed.

Lemma limit_by_le s nb l : limit_by s nb l <= nb.
Proof. unfold limit_by. destruct s, l; try lia. apply limit_le. Qed.

Lemma wanted_le sp a n h nb : a_wanted sp a n h nb <= nb /\
  (restore_bps (r_aggregate sp) <> -1 -> a_wanted sp a n h nb <= ap_all a) /\
  (forall s l, r_individual sp = Some s -> ap_hosts a !! (n, h) = Some l -> restore_bps s <> -1 -> a_wanted sp a n h nb <= l) /\
  (forall s l, r_network sp = Some s -> ap_nets a !! n = Some l -> restore_bps s <> -1 -> a_wanted sp a n h nb <= l).
Proof.
  unfold a_wanted. set (x := limit (r_aggregate sp) nb (ap_all a)). set (y := limit_by (r_individual sp) x (ap_hosts a !! (n, h))).
  pose proof (limit_le (r_aggregate sp) nb (ap_all a)) as [H1 H2]. fold x in H1, H2. pose proof (limit_by_le (r_individual sp) x (ap_hosts a !! (n, h))) as H3. fold y in H3.
  pose proof (limit_by_le (r_network sp) y (ap_nets a !! n)) as H4. split; [lia|]. split; [intros E; specialize (H2 E); lia|]. split.
  - intros s l Hs Hl Hr. assert (y <= l); [|lia]. unfold y. rewrite Hs, Hl. cbn. apply limit_le. done.
  - intros s l Hs Hl Hr. rewrite Hs, Hl. cbn. by apply limit_le.
Qed.

Lemma drain_buckets {K} `{Countable K} s B F mn q k (m : gmap K Z) : 0 <= q <= B -> 0 <= mn -> Z.min q mn <= F -> buckets s B F m ->
  (forall s' l, s = Some s' -> m !! k = Some l -> restore_bps s' <> -1 -> q <= Z.max mn l) ->
  buckets s (B - q) (F - Z.min q mn) (alter (fun v => v - q) k m) /\ (forall l, m !! k = Some l -> level_ok (l - q)).
Proof.
  intros Hq Hn HF Hm Hw. split.
  - intros k' v. rewrite lookup_alter_Some. intros [(<- & l & Hl & ->)|[_ Hv]].
    + destruct (Hm k l Hl) as (s' & Es & Hb). exists s'. split; [done|]. apply bucket_drain; [done..|]. by apply Hw.
    + destruct (Hm k' v Hv) as (s' & Es & Hb). exists s'. split; [done|]. apply bucket_less; [lia|lia|done].
  - intros l Hl. destruct (Hm k l Hl) as (s' & Es & Hb). apply (bucket_drain s' B F l mn q Hq Hn HF Hb). by apply Hw.
Qed.

Lemma drain_inv sp B F a n h mn nb q : pool_inv sp B F a -> 0 <= q <= B -> 0 <= mn -> Z.min q mn <= F -> q <= Z.max mn (a_wanted sp a n h nb) ->
  pool_inv sp (B - q) (F - Z.min q mn) (a_in n h q a) /\ level_ok (ap_all a - q) /\ (forall l, ap_hosts a !! (n, h) = Some l -> level_ok (l - q)) /\
  (forall l, ap_nets a !! n = Some l -> level_ok (l - q)).
Proof.
  intros [P1 P2 P3] Hq Hn HF Hw. destruct (wanted_le sp a n h nb) as (_ & W1 & W2 & W3).
  destruct (bucket_drain (r_aggregate sp) B F (ap_all a) mn q Hq Hn HF P1) as [D1 L1].
  { intros Hr. specialize (W1 Hr). lia. }
  destruct (drain_buckets (r_network sp) B F mn q n (ap_nets a) Hq Hn HF P2) as [D2 L2].
  { intros s l Hs Hl Hr. specialize (W3 s l Hs Hl Hr). lia. }
  destruct (drain_buckets (r_individual sp) B F mn q (n, h) (ap_hosts a) Hq Hn HF P3) as [D3 L3].
  { intros s l Hs Hl Hr. specialize (W2 s l Hs Hl Hr). lia. }
  split; [by constructor|]. done.
Qed.

(** Refilling for at most [I] seconds. *)
Lemma bucket_refill I B F s incr v : spec_sane I B F s -> bucket s B F v -> 0 < incr <= I -> 0 <= F -> restore_bps s <> -1 ->
  level_ok (restore_bps s * incr) /\ fits (restore_bps s * incr) v /\ bucket s B F (top_up s (restore_bps s * incr) v) /\ bucket s B F (refill s (restore_bps s * incr) v).
Proof.
  intros Hs [Hv Hb] Hi HF Hr. destruct Hs as [[? _]|(H1 & H2 & H3 & H4)]; [done|]. unfold bucket, top_up, refill, fits, level_ok, INT_MAX in *.
  destruct (Z.eqb_spec (restore_bps s) (-1)); [done|]. assert (0 <= restore_bps s * incr <= restore_bps s * I) by nia. split; [lia|]. split; [lia|].
  split; case_ifs; zify_bools; lia.
Qed.

Lemma refill_buckets {K} `{Countable K} I B F s incr (m : gmap K Z) : (forall s', s = Some s' -> spec_sane I B F s') -> buckets s B F m -> 0 < incr <= I -> 0 <= B -> 0 <= F ->
  I <= INT_MAX -> buckets s B F (refill_all s incr m) /\ fits_map s incr m.
Proof.
  intros Hs Hm Hi HB HF HI. split.
  - unfold refill_all. destruct s as [s|]; [|done]. destruct (Z.eqb_spec (restore_bps s) (-1)) as [E|E]; [done|]. intros k v. rewrite lookup_fmap_Some.
    intros (l & <- & Hl). destruct (Hm k l Hl) as (s' & [= <-] & Hb). exists s. split; [done|]. by apply (bucket_refill I B F s incr l (Hs s eq_refl) Hb Hi HF E).
  - intros s' ->. specialize (Hs s' eq_refl). split.
    + destruct Hs as [(-> & _)|(H1 & H2 & H3 & _)]; unfold level_ok, INT_MAX in *; nia.
    + intros Hr k v Hv. destruct (Hm k v Hv) as (s'' & [= <-] & Hb). by apply (bucket_refill I B F s' incr v Hs Hb Hi HF Hr).
Qed.

Lemma refill_inv I B F init sp incr a : rates_sane I B F init sp -> pool_inv sp B F a -> 0 < incr <= I -> 0 <= B -> 0 <= F -> I <= INT_MAX ->
  pool_inv sp B F (a_refill sp incr a) /\ fits_all sp incr a.
Proof.
  intros [_ H1 H2 H3] [P1 P2 P3] Hi HB HF HI. destruct (refill_buckets I B F (r_network sp) incr (ap_nets a) H3 P2 Hi HB HF HI) as [R2 F2].
  destruct (refill_buckets I B F (r_individual sp) incr (ap_hosts a) H2 P3 Hi HB HF HI) as [R3 F3].
  split; constructor; cbn [ap_all ap_nets ap_hosts a_refill]; try done.
  - destruct (Z.eqb_spec (restore_bps (r_aggregate sp)) (-1)) as [E|E]; [done|]. by apply (bucket_refill I B F _ incr (ap_all a) H1 P1 Hi HF E).
  - intros E. destruct (bucket_refill I B F _ incr (ap_all a) H1 P1 Hi HF E) as (A & C & _). done.
Qed.

(** ** All pools *)

(** A client of [pool] asks for at most [max] bytes and, whatever the levels
    are, at least [min] (0 or 1 in the code), and reads [q]; time goes on. *)
Inductive op := Read (pool addr min max q : Z) | Tick (now : Z).

(** The functions of the code in a row, as in sslReadServer: the id of the
    client, the size of the read from [delayBytesWanted], the read itself,
    which may be shorter, and [delayBytesIn]. *)
Definition step (cfg : delayConfig) (o : op) (s : list (option delayPool) * Z) : option (list (option delayPool) * Z) :=
  match o with
  | Read pool addr min max q =>
      let? (id, d) := delayPoolClient cfg s.1 pool addr in
      let? w := delayBytesWanted cfg d id min max in
      assert? q <=? w in
      let? d := delayBytesIn cfg d id q in
      Some (d, s.2)
  | Tick now => delayPoolsUpdate cfg now s.1 s.2
  end.

Fixpoint run (cfg : delayConfig) (l : list op) (s : list (option delayPool) * Z) : option (list (option delayPool) * Z) :=
  match l with
  | [] => Some s
  | o :: l => let? s := step cfg o s in run cfg l s
  end.

(** The same with abstract pools. *)
Definition a_refill_all (cfg : delayConfig) (incr : Z) (ad : list apool) : list apool :=
  imap (fun k a => match class cfg !! k, rates cfg !! k with
                   | Some cl, Some (Some sp) => if cl =? 0 then a else a_refill sp incr a
                   | _, _ => a
                   end) ad.

Definition a_step (cfg : delayConfig) (o : op) (s : list apool * Z) : option (list apool * Z) :=
  match o with
  | Read pool addr min max q =>
      let? cl := rd (class cfg) pool in
      if cl =? 0 then assert? q <=? Z.max min max in Some s
      else
        let? sp := mjoin (rd (rates cfg) pool) in
        let? a := rd s.1 pool in
        let k := key cl addr in
        let a := a_client (initial cfg) sp k a in
        assert? q <=? Z.max min (a_wanted sp a k.1 k.2 max) in
        Some (<[Z.to_nat pool := a_in k.1 k.2 q a]> s.1, s.2)
  | Tick now =>
      let incr := wrap_s 32 (now - s.2) in
      if (pools cfg =? 0) || (incr <? 1) then Some s else Some (a_refill_all cfg incr s.1, now)
  end.

Fixpoint a_run (cfg : delayConfig) (l : list op) (s : list apool * Z) : option (list apool * Z) :=
  match l with
  | [] => Some s
  | o :: l => let? s := a_step cfg o s in a_run cfg l s
  end.

Definition pool_ok (cfg : delayConfig) (k : nat) (o : option delayPool) (a : apool) : Prop :=
  forall cl, class cfg !! k = Some cl -> cl <> 0 ->
    exists p sp, o = Some p /\ class_of p = cl /\ rates cfg !! k = Some (Some sp) /\ rates_for cl sp /\ Rep p a.

Record data_ok (cfg : delayConfig) (d : list (option delayPool)) (ad : list apool) : Prop := {
  do_pools : 0 <= pools cfg < 65535;
  do_class : Z.of_nat (length (class cfg)) = pools cfg;
  do_data : length d = length (class cfg);
  do_pool : Forall2 (fun ko a => pool_ok cfg ko.1 ko.2 a) (imap pair d) ad
}.

(** The levels of all pools. *)
Definition levels_ok (cfg : delayConfig) (I B F : Z) (ad : list apool) : Prop :=
  forall k cl sp a, class cfg !! k = Some cl -> cl <> 0 -> rates cfg !! k = Some (Some sp) -> ad !! k = Some a ->
    rates_sane I B F (initial cfg) sp /\ pool_inv sp B F a.

Lemma data_ok_lookup cfg d ad : data_ok cfg d ad <-> 0 <= pools cfg < 65535 /\ Z.of_nat (length (class cfg)) = pools cfg /\ length d = length (class cfg) /\
  length ad = length d /\ forall k o a, d !! k = Some o -> ad !! k = Some a -> pool_ok cfg k o a.
Proof.
  split.
  - intros [H1 H2 H3 H4]. split; [done|]. split; [done|]. split; [done|]. pose proof (Forall2_length H4) as Hl. rewrite length_imap in Hl. split; [done|].
    intros k o a Ho Ha. assert (imap pair d !! k = Some (k, o)) as Hi by (by rewrite list_lookup_imap, Ho). by apply (Forall2_lookup_lr _ _ _ _ _ _ H4 Hi Ha).
  - intros (H1 & H2 & H3 & H4 & H5). constructor; [done..|]. apply Forall2_same_length_lookup_2; [by rewrite length_imap|].
    intros k [k' o] a Hi Ha. rewrite list_lookup_imap in Hi. destruct (d !! k) as [o'|] eqn:Ho; [|done]. injection Hi as <- <-. by apply H5.
Qed.

(** ** Ids *)

Lemma delayId_split k pos : 0 <= k < 65535 -> 0 <= pos < 65536 -> id_pool (delayId (wrap_u 16 (k + 1)) pos) = k /\ id_position (delayId (wrap_u 16 (k + 1)) pos) = pos.
Proof.
  intros Hk Hp. rewrite wrap_u_small by (change (2 ^ 16) with 65536; lia). unfold id_pool, id_position, delayId. rewrite Z.shiftl_mul_pow2 by lia.
  rewrite (lor_add 16 (k + 1) pos) by (change (2 ^ 16) with 65536; lia). change (2 ^ 16) with 65536.
  split.
  - rewrite Z.shiftr_div_pow2 by lia. change (2 ^ 16) with 65536. rewrite Z.div_add_l, Z.div_small by lia. rewrite wrap_u_small by (change (2 ^ 16) with 65536; lia). lia.
  - change 65535 with (Z.ones 16). rewrite Z.land_ones by lia. change (2 ^ 16) with 65536. rewrite Z.add_comm, Z_mod_plus_full. apply Z.mod_small. lia.
Qed.

(** The id of a client, through its pool. *)
Lemma delayPoolClient_pool cfg d (k : nat) addr p sp pos p1 : d !! k = Some (Some p) -> class cfg !! k = Some (class_of p) -> rates cfg !! k = Some (Some sp) ->
  client_pool (initial cfg) sp p addr = Some (pos, p1) ->
  delayPoolClient cfg d (Z.of_nat k) addr = Some (delayId (wrap_u 16 (Z.of_nat k + 1)) pos, <[k := Some p1]> d).
Proof.
  intros Hd Hc Hr Hp. unfold delayPoolClient, get_pool. rewrite (rd_nat (class cfg)), Hc. bind_simpl. rewrite (rd_nat (rates cfg)), (rd_nat d), Hr, Hd. bind_simpl. pose proof (lookup_lt_Some _ _ _ Hd).
  destruct p as [p|p|p]; cbn [class_of client_pool Z.eqb Pos.eqb negb] in *.
  - injection Hp as <- <-. by rewrite list_insert_id.
  - destruct (client2 _ _ _ _) as [[i p']|]; [|done]. injection Hp as <- <-. bind_simpl. by rewrite wr_nat.
  - destruct (client3 _ _ _ _ _) as [[i p']|]; [|done]. injection Hp as <- <-. bind_simpl. by rewrite wr_nat.
Qed.

Lemma delayBytesWanted_pool cfg d (k : nat) p sp pos mn mx w : Z.of_nat k < 65535 -> 0 <= pos < 65536 -> d !! k = Some (Some p) -> class cfg !! k = Some (class_of p) ->
  rates cfg !! k = Some (Some sp) -> pool_wanted sp p pos mx = Some w ->
  delayBytesWanted cfg d (delayId (wrap_u 16 (Z.of_nat k + 1)) pos) mn mx = Some (Z.max mn w).
Proof.
  intros Hk Hp Hd Hc Hr Hw. unfold delayBytesWanted, get_pool. destruct (delayId_split (Z.of_nat k) pos) as [-> ->]; [lia|done|].
  destruct (Z.eqb_spec (Z.of_nat k) 65535); [lia|]. rewrite (rd_nat (class cfg)), Hc. bind_simpl. rewrite (rd_nat d), Hd, (rd_nat (rates cfg)), Hr. bind_simpl.
  rewrite Z.eqb_refl. assert ((class_of p =? 0) = false) as -> by (by destruct p). by rewrite Hw.
Qed.

Lemma delayBytesIn_pool cfg d (k : nat) p pos q p' : Z.of_nat k < 65535 -> 0 <= pos < 65536 -> d !! k = Some (Some p) -> class cfg !! k = Some (class_of p) ->
  pool_in p pos q = Some p' -> delayBytesIn cfg d (delayId (wrap_u 16 (Z.of_nat k + 1)) pos) q = Some (<[k := Some p']> d).
Proof.
  intros Hk Hp Hd Hc Hi. unfold delayBytesIn, get_pool. destruct (delayId_split (Z.of_nat k) pos) as [-> ->]; [lia|done|].
  destruct (Z.eqb_spec (Z.of_nat k) 65535); [lia|]. rewrite (rd_nat (class cfg)), Hc, (rd_nat d), Hd. bind_simpl. rewrite Z.eqb_refl, Hi. bind_simpl.
  apply wr_nat. by apply lookup_lt_Some in Hd.
Qed.

(** The id of clients of no pool. *)
Lemma wanted_no_pool cfg d mn mx : delayBytesWanted cfg d (delayId 0 0) mn mx = Some (Z.max mn mx).
Proof. reflexivity. Qed.

Lemma in_no_pool cfg d q : delayBytesIn cfg d (delayId 0 0) q = Some d.
Proof. reflexivity. Qed.

(** ** The simulation *)

Lemma data_ok_insert cfg d ad k p a : data_ok cfg d ad -> pool_ok cfg k (Some p) a -> data_ok cfg (<[k := Some p]> d) (<[k := a]> ad).
Proof.
  rewrite !data_ok_lookup. intros (H1 & H2 & H3 & H4 & H5) Hp. rewrite !length_insert. do 4 (split; [done|]). intros j o a'.
  rewrite !list_lookup_insert_Some. intros [(<- & <- & _)|[Hne Ho]] [(E & <- & _)|[Hne' Ha]]; try done. by apply H5.
Qed.

Lemma pool_inv_less sp B F q f a : 0 <= q -> 0 <= f -> pool_inv sp B F a -> pool_inv sp (B - q) (F - f) a.
Proof.
  intros Hq Hf [P1 P2 P3]. constructor; [by apply bucket_less|..]; intros k v Hv; [destruct (P2 k v Hv) as (s & Hs & Hb)|destruct (P3 k v Hv) as (s & Hs & Hb)];
    exists s; (split; [done|by apply bucket_less]).
Qed.

Lemma levels_ok_less cfg I B F q f ad : 0 <= q -> 0 <= f -> levels_ok cfg I B F ad -> levels_ok cfg I (B - q) (F - f) ad.
Proof.
  intros Hq Hf Hl k cl sp a Hc Hcl Hr Ha. destruct (Hl k cl sp a Hc Hcl Hr Ha) as [Hs Hi].
  split; [eapply (rates_sane_less I B F); [lia|lia|exact Hs]|by apply pool_inv_less].
Qed.

Lemma levels_ok_insert cfg I B F ad k a : levels_ok cfg I B F ad -> (forall sp, rates cfg !! k = Some (Some sp) -> pool_inv sp B F a) ->
  levels_ok cfg I B F (<[k := a]> ad).
Proof.
  intros Hl Hk j cl sp a' Hc Hcl Hr. rewrite list_lookup_insert_Some. intros [(<- & <- & Hlt)|[Hne Ha]]; [|by apply (Hl j cl)].
  destruct (lookup_lt_is_Some_2 ad k Hlt) as [a0 Ha0]. destruct (Hl k cl sp a0 Hc Hcl Hr Ha0) as [Hs _]. split; [done|by apply Hk].
Qed.

(** The bytes of a read, and those of them that are read whatever the level. *)
Definition op_bytes (o : op) : Z := match o with Read _ _ _ _ q => q | Tick _ => 0 end.
Definition op_floor (o : op) : Z := match o with Read _ _ min _ q => Z.min q min | Tick _ => 0 end.

Definition op_ok (I last : Z) (o : op) : Prop := match o with Read _ _ min _ q => 0 <= q /\ 0 <= min | Tick now => - INT_MAX <= now - last <= I end.

(** The two runs fail together or go on together. *)
Definition agree (cfg : delayConfig) (I B F : Z) (s : option (list (option delayPool) * Z)) (t : option (list apool * Z)) : Prop :=
  match s, t with
  | Some (d, last), Some (ad, last') => last = last' /\ data_ok cfg d ad /\ levels_ok cfg I B F ad
  | None, None => True
  | _, _ => False
  end.

(** A read by a client of pool [j], in the abstract pools. *)
Lemma read_levels cfg I B F ad j c sp a addr mn mx q : 0 <= I -> levels_ok cfg I B F ad -> class cfg !! j = Some c -> c <> 0 -> rates cfg !! j = Some (Some sp) ->
  ad !! j = Some a -> 0 <= q <= B -> 0 <= mn -> Z.min q mn <= F ->
  let k := key c addr in let a1 := a_client (initial cfg) sp k a in
  q <= Z.max mn (a_wanted sp a1 k.1 k.2 mx) ->
  levels_ok cfg I (B - q) (F - Z.min q mn) (<[j := a_in k.1 k.2 q a1]> ad) /\
  level_ok (ap_all a1 - q) /\ (forall l, ap_hosts a1 !! k = Some l -> level_ok (l - q)) /\ (forall l, ap_nets a1 !! k.1 = Some l -> level_ok (l - q)).
Proof.
  intros HI Hl Hc Hc0 Hr Ha Hq Hm HF k a1 Hw. destruct (Hl j c sp a Hc Hc0 Hr Ha) as [Hrs Hinv].
  destruct (drain_inv sp B F a1 k.1 k.2 mn mx q (client_inv I B F _ sp k a HI Hrs Hinv) Hq Hm HF Hw) as (Hinv2 & L1 & L2 & L3).
  rewrite <- surjective_pairing in L2. split; [|done]. apply levels_ok_insert; [apply levels_ok_less; [lia|lia|done]|].
  intros sp' Hsp'. by assert (sp' = sp) as -> by congruence.
Qed.

Lemma read_step_ok cfg I B F d ad last pool addr mn mx q : 0 <= I <= INT_MAX -> data_ok cfg d ad -> levels_ok cfg I B F ad -> 0 <= q <= B -> 0 <= mn -> Z.min q mn <= F ->
  agree cfg I (B - q) (F - Z.min q mn) (step cfg (Read pool addr mn mx q) (d, last)) (a_step cfg (Read pool addr mn mx q) (ad, last)).
Proof.
  intros HI Hd Hl Hq Hm HF. pose proof Hd as (H1 & H2 & H3 & H4 & H5)%data_ok_lookup. cbn [step a_step fst snd].
  destruct (rd (class cfg) pool) as [cl|] eqn:Ec; [|unfold delayPoolClient; by rewrite Ec]. bind_simpl. apply rd_Some in Ec as [Hp Ec].
  destruct (Z_of_nat_complete pool Hp) as [k ->]. rewrite Nat2Z.id in *. pose proof (lookup_lt_Some _ _ _ Ec) as Hk.
  destruct (Z.eqb_spec cl 0) as [->|Hcl].
  - unfold delayPoolClient. rewrite (rd_nat (class cfg)), Ec. bind_simpl. cbn [Z.eqb].
    bind_simpl. rewrite wanted_no_pool. bind_simpl. destruct (q <=? Z.max mn mx); [|done]. rewrite in_no_pool. cbn. split; [done|]. split; [done|].
    apply levels_ok_less; [lia|lia|done].
  - destruct (lookup_lt_is_Some_2 d k) as [o Ho]; [lia|]. destruct (lookup_lt_is_Some_2 ad k) as [a Ha]; [lia|].
    destruct (H5 k o a Ho Ha cl Ec Hcl) as (p & sp & -> & Hcp & Hsp & Hrf & Hrep). destruct (Hl k cl sp a Ec Hcl Hsp Ha) as [Hrs _].
    rewrite (rd_nat (rates cfg)), Hsp, (rd_nat ad), Ha. cbn [mjoin option_join mbind option_bind].
    pose proof (rates_new_levels I B F (initial cfg) sp ltac:(lia) Hrs) as Hnl. subst cl.
    destruct (read_pool_ok (initial cfg) sp p a addr Hrep Hrf Hnl) as (pos & p1 & Ecl & Hc1 & Hpos & Hrep1 & Hw & Hin).
    rewrite (delayPoolClient_pool cfg d k addr p sp pos p1 Ho Ec Hsp Ecl). bind_simpl.
    assert (<[k := Some p1]> d !! k = Some (Some p1)) as Ho1 by (apply list_lookup_insert_eq; lia).
    rewrite (delayBytesWanted_pool cfg _ k p1 sp pos mn mx _ ltac:(lia) Hpos Ho1 ltac:(congruence) Hsp (Hw mx)). bind_simpl. cbn [fst snd].
    destruct (Z.leb_spec q (Z.max mn (a_wanted sp (a_client (initial cfg) sp (key (class_of p) addr) a) (key (class_of p) addr).1 (key (class_of p) addr).2 mx))) as [Hqw|]; [|done].
    destruct (read_levels cfg I B F ad k (class_of p) sp a addr mn mx q ltac:(lia) Hl Ec Hcl Hsp Ha Hq Hm HF Hqw) as (Hl2 & L1 & L2 & L3).
    destruct (Hin q L1 L2 L3) as (p2 & Ei & Hc2 & Hrep2).
    rewrite (delayBytesIn_pool cfg _ k p1 pos q p2 ltac:(lia) Hpos Ho1 ltac:(congruence) Ei). bind_simpl. rewrite list_insert_insert_eq. cbn.
    split; [done|]. split; [|done]. apply data_ok_insert; [done|]. intros cl Hcl' _. assert (cl = class_of p) as -> by congruence. by exists p2, sp.
Qed.

(** The loop over the pools, from pool [j] on. *)
Lemma update_loop_ok cfg I B F incr n : forall d ad j, 0 < incr <= I -> 0 <= B -> 0 <= F -> I <= INT_MAX -> data_ok cfg d ad -> levels_ok cfg I B F ad -> (j + n = length d)%nat ->
  exists d', update_loop cfg incr n d (Z.of_nat j) = Some d' /\
    data_ok cfg d' (imap (fun k a => if decide (j <= k)%nat then match class cfg !! k, rates cfg !! k with
                                     | Some cl, Some (Some sp) => if cl =? 0 then a else a_refill sp incr a
                                     | _, _ => a
                                     end else a) ad).
Proof.
  induction n as [|n IH]; intros d ad j Hi HB HF HI Hd Hl Hj; pose proof Hd as (H1 & H2 & H3 & H4 & H5)%data_ok_lookup; cbn [update_loop].
  - exists d. split; [done|]. apply data_ok_lookup. rewrite length_imap. do 4 (split; [done|]). intros k o a Ho. rewrite list_lookup_imap.
    destruct (ad !! k) as [a0|] eqn:Ea; [|done]. cbn. rewrite decide_False by (apply lookup_lt_Some in Ho; lia). intros [= <-]. by apply H5.
  - destruct (lookup_lt_is_Some_2 (class cfg) j) as [cl Hc]; [lia|]. rewrite (rd_nat (class cfg)), Hc. bind_simpl.
    destruct (lookup_lt_is_Some_2 d j) as [o Ho]; [lia|]. destruct (lookup_lt_is_Some_2 ad j) as [a Ha]; [lia|].
    destruct (Z.eqb_spec cl 0) as [->|Hcl].
    + replace (Z.of_nat j + 1) with (Z.of_nat (S j)) by lia. destruct (IH d ad (S j) Hi HB HF HI Hd Hl ltac:(lia)) as (d' & E & Hd'). exists d'. split; [done|].
      erewrite imap_ext; [exact Hd'|]. intros k a' Ha'. cbn. destruct (decide (S j <= k)%nat), (decide (j <= k)%nat); try lia; [done| |done].
      assert (k = j) as -> by lia. rewrite Hc. by destruct (rates cfg !! j) as [[?|]|].
    + destruct (H5 j o a Ho Ha cl Hc Hcl) as (p & sp & -> & Hcp & Hsp & Hrf & Hrep). destruct (Hl j cl sp a Hc Hcl Hsp Ha) as [Hrs Hinv].
      unfold get_pool. rewrite (rd_nat d), Ho. bind_simpl. rewrite Hcp, Z.eqb_refl, (rd_nat (rates cfg)), Hsp. bind_simpl. subst cl.
      destruct (refill_inv I B F (initial cfg) sp incr a Hrs Hinv Hi HB HF HI) as [Hinv' Hfit].
      destruct (update_pool_ok sp incr p a Hrep Hrf ltac:(lia) Hfit) as (p' & -> & Hc' & Hrep'). bind_simpl. rewrite wr_nat by lia. bind_simpl.
      replace (Z.of_nat j + 1) with (Z.of_nat (S j)) by lia.
      destruct (IH (<[j := Some p']> d) (<[j := a_refill sp incr a]> ad) (S j) Hi HB HF HI) as (d' & E & Hd').
      * apply data_ok_insert; [done|]. intros c Hcc _. assert (c = class_of p) as -> by congruence. by exists p', sp.
      * apply levels_ok_insert; [done|]. intros sp' Hsp'. by assert (sp' = sp) as -> by congruence.
      * rewrite length_insert. lia.
      * exists d'. split; [done|].
        match goal with |- data_ok _ _ ?l => match type of Hd' with data_ok _ _ ?l' => assert (l = l') as ->; [|done] end end.
        apply list_eq. intros k. rewrite !list_lookup_imap. destruct (decide (k = j)) as [->|Hne].
        -- rewrite Ha, list_lookup_insert_eq by lia. cbn. rewrite decide_True, decide_False by lia. rewrite Hc, Hsp. by destruct (Z.eqb_spec (class_of p) 0).
        -- rewrite list_lookup_insert_ne by done. destruct (ad !! k) as [a'|]; [|done]. cbn. destruct (decide (S j <= k)%nat), (decide (j <= k)%nat); try lia; done.
Qed.

Lemma levels_refill cfg I B F incr ad : 0 < incr <= I -> 0 <= B -> 0 <= F -> I <= INT_MAX -> levels_ok cfg I B F ad -> levels_ok cfg I B F (a_refill_all cfg incr ad).
Proof.
  intros Hi HB HF HI Hl k cl sp a Hc Hcl Hr. unfold a_refill_all. rewrite list_lookup_imap. destruct (ad !! k) as [a0|] eqn:Ea; [|done]. cbn. rewrite Hc, Hr.
  destruct (Z.eqb_spec cl 0); [done|]. intros [= <-]. destruct (Hl k cl sp a0 Hc Hcl Hr Ea) as [Hrs Hinv]. split; [done|].
  by apply (refill_inv I B F (initial cfg) sp incr a0 Hrs Hinv Hi HB HF HI).
Qed.

Lemma tick_step_ok cfg I B F d ad last now : 0 <= I <= INT_MAX -> 0 <= B -> 0 <= F -> data_ok cfg d ad -> levels_ok cfg I B F ad -> - INT_MAX <= now - last <= I ->
  agree cfg I B F (step cfg (Tick now) (d, last)) (a_step cfg (Tick now) (ad, last)).
Proof.
  intros HI HB HF Hd Hl Hn. cbn [step a_step fst snd]. unfold delayPoolsUpdate. rewrite wrap_s_small by (change (2 ^ (32 - 1)) with 2147483648; unfold INT_MAX in *; lia).
  destruct (Z.eqb_spec (pools cfg) 0) as [|Hp]; cbn [orb]; [done|]. destruct (Z.ltb_spec (now - last) 1) as [|Hinc]; [done|].
  pose proof Hd as (H1 & H2 & H3 & H4 & H5)%data_ok_lookup.
  destruct (update_loop_ok cfg I B F (now - last) (Z.to_nat (pools cfg)) d ad 0) as (d' & E & Hd'); [lia|done|done|lia|done|done|lia|].
  rewrite (E : update_loop cfg (now - last) (Z.to_nat (pools cfg)) d 0 = _). bind_simpl. cbn. split; [done|]. split; [|apply levels_refill; [lia|done|done|lia|done]].
  unfold a_refill_all. erewrite imap_ext; [exact Hd'|]. intros k a Ha. cbn. by rewrite decide_True by lia.
Qed.

Definition total (l : list op) : Z := foldr (fun o n => op_bytes o + n) 0 l.
Definition floors (l : list op) : Z := foldr (fun o n => op_floor o + n) 0 l.

(** The time of the last update after a step. *)
Definition next_last (last : Z) (o : op) : Z := match o with Tick now => if 0 <? now - last then now else last | _ => last end.

(** The steps of a run are those the theorem allows: reads of what is there,
    and updates less than [I] seconds apart. *)
Fixpoint ops_ok (I last : Z) (l : list op) : Prop :=
  match l with
  | [] => True
  | o :: l => op_ok I last o /\ ops_ok I (next_last last o) l
  end.

Lemma total_nonneg I last l : ops_ok I last l -> 0 <= total l /\ 0 <= floors l.
Proof.
  revert last. induction l as [|o l IH]; intros last; [cbn; lia|]. intros [Ho Hl]. specialize (IH _ Hl). cbn [total floors foldr]. fold (total l) (floors l).
  destruct o; cbn in *; lia.
Qed.

Lemma step_agrees cfg I o B F d ad last : 0 <= I <= INT_MAX -> 0 < pools cfg -> data_ok cfg d ad -> levels_ok cfg I (op_bytes o + B) (op_floor o + F) ad -> op_ok I last o ->
  0 <= B -> 0 <= F ->
  agree cfg I B F (step cfg o (d, last)) (a_step cfg o (ad, last)) /\ forall s, a_step cfg o (ad, last) = Some s -> s.2 = next_last last o.
Proof.
  intros HI Hp Hd Hl Ho HB HF. destruct o as [pool addr mn mx q|now]; cbn [op_ok op_bytes op_floor next_last] in *.
  - split.
    + replace B with (q + B - q) by lia. replace F with (Z.min q mn + F - Z.min q mn) by lia. apply read_step_ok; try done; lia.
    + intros s Hs. cbn in Hs. inv_opt Hs. destruct (z =? 0); inv_opt Hs; by injection Hs as <-.
  - split; [apply tick_step_ok; done|]. intros s Hs. cbn in Hs. rewrite wrap_s_small in Hs by (change (2 ^ (32 - 1)) with 2147483648; unfold INT_MAX in *; lia).
    destruct (Z.eqb_spec (pools cfg) 0); [lia|]. cbn [orb] in Hs. destruct (Z.ltb_spec (now - last) 1), (Z.ltb_spec 0 (now - last)); try lia; by injection Hs as <-.
Qed.

Lemma run_agrees cfg I l : 0 <= I <= INT_MAX -> 0 < pools cfg -> forall d ad last, data_ok cfg d ad -> levels_ok cfg I (total l) (floors l) ad -> ops_ok I last l ->
  agree cfg I 0 0 (run cfg l (d, last)) (a_run cfg l (ad, last)).
Proof.
  intros HI Hp. induction l as [|o l IH]; intros d ad last Hd Hl Ho; cbn [run a_run]; [done|]. destruct Ho as [Ho Hos].
  pose proof (total_nonneg _ _ _ Hos) as [Ht Hf]. cbn [total floors foldr] in Hl. fold (total l) (floors l) in Hl.
  destruct (step_agrees cfg I o (total l) (floors l) d ad last HI Hp Hd Hl Ho Ht Hf) as [Ha Hlast].
  destruct (step cfg o (d, last)) as [[d' last']|], (a_step cfg o (ad, last)) as [[ad' last'']|]; try done; cbn in Ha. destruct Ha as (-> & Hd' & Hl').
  bind_simpl. apply IH; [done|done|]. specialize (Hlast _ eq_refl). cbn [snd] in Hlast. by rewrite Hlast.
Qed.

(** ** Accounts *)

(** The bytes that the clients of pool [k] that satisfy [f] read. *)
Fixpoint bytes_of (k : Z) (f : Z -> bool) (l : list op) : Z :=
  match l with
  | [] => 0
  | Read pool addr _ _ q :: l => (if (pool =? k) && f addr then q else 0) + bytes_of k f l
  | Tick _ :: l => bytes_of k f l
  end.

(** Those of them that they may read whatever the levels are. *)
Fixpoint floor_of (k : Z) (f : Z -> bool) (l : list op) : Z :=
  match l with
  | [] => 0
  | Read pool addr min _ q :: l => (if (pool =? k) && f addr then Z.min q min else 0) + floor_of k f l
  | Tick _ :: l => floor_of k f l
  end.

(** An account [phi] of a pool: it grows by at most [r] a second, and pays for
    what the clients in [f] read above the floor. *)
Record account (cfg : delayConfig) (cl : Z) (sp : delaySpecSet) (r : Z) (f : Z -> bool) (phi : apool -> Z) : Prop := {
  ac_refill : forall a incr, 0 < incr -> phi (a_refill sp incr a) <= phi a + r * incr;
  ac_read : forall a addr mn mx q, let k := key cl addr in let a1 := a_client (initial cfg) sp k a in
    0 <= q -> 0 <= mn -> q <= Z.max mn (a_wanted sp a1 k.1 k.2 mx) ->
    phi (a_in k.1 k.2 q a1) + (if f addr then q else 0) <= phi a + (if f addr then Z.min q mn else 0)
}.

Lemma a_run_account cfg I k cl sp r f phi l : class cfg !! k = Some cl -> cl <> 0 -> rates cfg !! k = Some (Some sp) -> 0 <= I <= INT_MAX -> 0 < pools cfg ->
  account cfg cl sp r f phi ->
  forall ad last ad' last' a, ops_ok I last l -> ad !! k = Some a -> a_run cfg l (ad, last) = Some (ad', last') ->
    exists a', ad' !! k = Some a' /\ phi a' + bytes_of (Z.of_nat k) f l <= phi a + r * (last' - last) + floor_of (Z.of_nat k) f l.
Proof.
  intros Hc Hcl Hr HI Hp Hac. induction l as [|o l IH]; intros ad last ad' last' a Ho Ha Hrun; cbn [a_run bytes_of floor_of] in *.
  { injection Hrun as <- <-. exists a. split; [done|]. rewrite Z.sub_diag. lia. }
  destruct Ho as [Ho Hos]. destruct (a_step cfg o (ad, last)) as [[ad1 last1]|] eqn:Es; [|done]. bind_simpl. cbn [mbind option_bind] in Hrun.
  destruct o as [pool addr mn mx q|now]; cbn [op_ok a_step fst snd next_last] in *.
  - destruct (rd (class cfg) pool) as [c|] eqn:Ec; [|done]. cbn [mbind option_bind] in Es. apply rd_Some in Ec as [Hpp Ec].
    destruct (Z_of_nat_complete pool Hpp) as [j ->]. rewrite Nat2Z.id in *. rewrite (rd_nat (rates cfg)) in Es. destruct (Z.eqb_spec c 0) as [->|Hc0].
    { destruct (q <=? _) eqn:Eq; [|done]. injection Es as <- <-. destruct (Z.eqb_spec (Z.of_nat j) (Z.of_nat k)) as [E|E]; [assert (j = k) as -> by lia; congruence|].
      cbn [andb]. by eapply IH. }
    destruct (rates cfg !! j) as [[spj|]|] eqn:Erj; cbn [mjoin option_join mbind option_bind] in Es; try done. rewrite (rd_nat ad) in Es.
    destruct (ad !! j) as [aj|] eqn:Eaj; [|done]. cbn [mbind option_bind] in Es. destruct (q <=? _) eqn:Eq; [|done]. injection Es as <- <-. zify_bools.
    destruct (Z.eqb_spec (Z.of_nat j) (Z.of_nat k)) as [E|E].
    + assert (j = k) as -> by lia. assert (aj = a /\ spj = sp /\ c = cl) as (-> & -> & ->) by (split_and!; congruence). cbn [andb].
      edestruct IH as (a' & Ha' & Hle); [exact Hos|apply list_lookup_insert_eq; by apply lookup_lt_Some in Ha|exact Hrun|]. exists a'. split; [done|].
      pose proof (ac_read _ _ _ _ _ _ Hac a addr mn mx q ltac:(lia) ltac:(lia) Eq) as Hpay. cbn zeta in Hpay. lia.
    + cbn [andb]. eapply IH; [done| |done]. by rewrite list_lookup_insert_ne by lia.
  - rewrite wrap_s_small in Es by (change (2 ^ (32 - 1)) with 2147483648; unfold INT_MAX in *; lia). destruct (Z.eqb_spec (pools cfg) 0); [lia|]. cbn [orb] in Es.
    destruct (Z.ltb_spec (now - last) 1), (Z.ltb_spec 0 (now - last)); try lia; injection Es as <- <-; [by eapply IH|].
    destruct (IH (a_refill_all cfg (now - last) ad) _ ad' last' (a_refill sp (now - last) a) Hos) as (a' & Ha' & Hle); [|exact Hrun|].
    + unfold a_refill_all. rewrite list_lookup_imap, Ha. cbn. rewrite Hc, Hr. by destruct (Z.eqb_spec cl 0).
    + exists a'. split; [done|]. pose proof (ac_refill _ _ _ _ _ _ Hac a (now - last) ltac:(lia)). lia.
Qed.

(** What is there of a level, when it is not below zero. *)
Definition there (v : Z) : Z := Z.max 0 v.

Lemma account_all cfg cl sp : 0 <= restore_bps (r_aggregate sp) -> account cfg cl sp (restore_bps (r_aggregate sp)) (fun _ => true) (fun a => there (ap_all a)).
Proof.
  intros Hr. constructor; unfold there.
  - intros a incr Hi. cbn [ap_all a_refill]. destruct (Z.eqb_spec (restore_bps (r_aggregate sp)) (-1)); [lia|].
    unfold top_up. case_ifs; zify_bools; nia.
  - intros a addr mn mx q Hq Hm Hw. destruct (wanted_le sp (a_client (initial cfg) sp (key cl addr) a) (key cl addr).1 (key cl addr).2 mx) as (_ & H & _).
    specialize (H ltac:(lia)). cbn [ap_all a_in a_client a_see] in *. lia.
Qed.

(** A bucket of a map, which new clients find at level [v]. *)
Definition level_at {K} `{Countable K} (v : Z) (k : K) (m : gmap K Z) : Z := default v (m !! k).

Lemma level_refill {K} `{Countable K} s incr v k (m : gmap K Z) : 0 <= restore_bps s -> 0 < incr ->
  there (level_at v k (refill_all (Some s) incr m)) <= there (level_at v k m) + restore_bps s * incr.
Proof.
  intros Hr Hi. unfold there, level_at, refill_all. destruct (Z.eqb_spec (restore_bps s) (-1)); [lia|]. rewrite lookup_fmap.
  destruct (m !! k) as [l|] eqn:E; cbn; [|nia]. unfold refill. case_ifs; zify_bools; nia.
Qed.

Lemma level_see {K} `{Countable K} v (k k' : K) (m : gmap K Z) : level_at v k (see k' (Some v) m) = level_at v k m.
Proof. unfold level_at, see. destruct (m !! k') eqn:E; [done|]. destruct (decide (k' = k)) as [->|Hne]; [by rewrite lookup_insert_eq, E|by rewrite lookup_insert_ne]. Qed.

Lemma see_there {K} `{Countable K} v (k : K) (m : gmap K Z) : see k (Some v) m !! k = Some (level_at v k m).
Proof. unfold level_at, see. destruct (m !! k) eqn:E; [done|]. by rewrite lookup_insert_eq. Qed.

(** A read from the bucket [k'] of what is there or of the floor. *)
Lemma level_read {K} `{Countable K} v (k k' : K) mn q (m : gmap K Z) : 0 <= q -> 0 <= mn ->
  (forall l, see k' (Some v) m !! k' = Some l -> q <= Z.max mn l) ->
  there (level_at v k (alter (fun x => x - q) k' (see k' (Some v) m))) + (if decide (k' = k) then q else 0) <=
  there (level_at v k m) + (if decide (k' = k) then Z.min q mn else 0).
Proof.
  intros Hq Hm Hw. rewrite <- (level_see v k k' m). specialize (Hw _ (see_there v k' m)). destruct (decide (k' = k)) as [->|Hne].
  - rewrite level_see. unfold level_at at 1. rewrite lookup_alter_eq, see_there. cbn. unfold there. lia.
  - unfold level_at. rewrite lookup_alter_ne by done. lia.
Qed.

Definition level_of (cfg : delayConfig) (s : delaySpec) : Z := Z.quot (max_bytes s * initial cfg) 100.

Lemma account_host cfg cl sp s k : r_individual sp = Some s -> 0 <= restore_bps s ->
  account cfg cl sp (restore_bps s) (fun addr => bool_decide (key cl addr = k)) (fun a => there (level_at (level_of cfg s) k (ap_hosts a))).
Proof.
  intros Hs Hr. constructor.
  - intros a incr Hi. cbn [ap_hosts a_refill]. rewrite Hs. by apply level_refill.
  - intros a addr mn mx q kk a1 Hq Hm Hw. destruct (wanted_le sp a1 kk.1 kk.2 mx) as (_ & _ & H & _). rewrite <- surjective_pairing in H.
    specialize (fun l Hl => H s l Hs Hl ltac:(lia)). unfold a1 in *. cbn [ap_hosts a_in a_client a_see] in *. unfold new_level in *. rewrite Hs, <- surjective_pairing in *.
    cbn [mbind option_bind] in *. fold (level_of cfg s) in *. pose proof (level_read (level_of cfg s) k kk mn q (ap_hosts a) Hq Hm) as Hrd.
    specialize (Hrd ltac:(intros l Hl; specialize (H l Hl); lia)). unfold kk in *. by destruct (decide (key cl addr = k)), (bool_decide_reflect (key cl addr = k)).
Qed.

Lemma account_net cfg cl sp s n : r_network sp = Some s -> 0 <= restore_bps s ->
  account cfg cl sp (restore_bps s) (fun addr => bool_decide ((key cl addr).1 = n)) (fun a => there (level_at (level_of cfg s) n (ap_nets a))).
Proof.
  intros Hs Hr. constructor.
  - intros a incr Hi. cbn [ap_nets a_refill]. rewrite Hs. by apply level_refill.
  - intros a addr mn mx q kk a1 Hq Hm Hw. destruct (wanted_le sp a1 kk.1 kk.2 mx) as (_ & _ & _ & H).
    specialize (fun l Hl => H s l Hs Hl ltac:(lia)). unfold a1 in *. cbn [ap_nets a_in a_client a_see] in *. unfold new_level in *. rewrite Hs in *.
    cbn [mbind option_bind] in *. fold (level_of cfg s) in *. pose proof (level_read (level_of cfg s) n kk.1 mn q (ap_nets a) Hq Hm) as Hrd.
    specialize (Hrd ltac:(intros l Hl; specialize (H l Hl); lia)). unfold kk in *. by destruct (decide ((key cl addr).1 = n)), (bool_decide_reflect ((key cl addr).1 = n)).
Qed.

(** ** Reads for an object

    The other readers (http.c, ftp.c, gopher.c) read for all clients of an
    object and charge the one that may read most. *)
Lemma limit_min s sz x l : limit s (Z.min sz x) l = Z.min sz (limit s x l).
Proof. unfold limit. destruct (restore_bps s =? -1); lia. Qed.

Lemma pool_wanted_min sp p pos sz x a : pool_wanted sp p pos x = Some a -> pool_wanted sp p pos (Z.min sz x) = Some (Z.min sz a).
Proof.
  destruct p as [p|p|p]; cbn [pool_wanted]; rewrite ?limit_min; intros H.
  - by injection H as <-.
  - inv_opt H. bind_simpl. destruct (restore_bps d =? -1); [by injection H as <-|]. inv_opt H. injection H as <-. bind_simpl. by rewrite limit_min.
  - inv_opt H. bind_simpl. assert (forall o : option Z, (if restore_bps d =? -1 then Some (limit (r_aggregate sp) x (c3_aggregate p)) else let? l := o in
        Some (limit d (limit (r_aggregate sp) x (c3_aggregate p)) l)) = Some z ->
      (if restore_bps d =? -1 then Some (sz `min` limit (r_aggregate sp) x (c3_aggregate p)) else let? l := o in
        Some (limit d (sz `min` limit (r_aggregate sp) x (c3_aggregate p)) l)) = Some (sz `min` z)) as Hi.
    { intros o. destruct (restore_bps d =? -1); [by intros [= <-]|]. destruct o; [|done]. cbn. rewrite limit_min. by intros [= <-]. }
    rewrite (Hi _ E0). bind_simpl. destruct (restore_bps d0 =? -1); [by injection H as <-|]. inv_opt H. injection H as <-. bind_simpl. by rewrite limit_min.
Qed.

Lemma delayBytesWanted_min cfg d id mn sz j : 0 < sz <= INT_MAX -> delayBytesWanted cfg d id 0 INT_MAX = Some j ->
  0 <= j /\ exists w, delayBytesWanted cfg d id mn sz = Some w /\ Z.min sz j <= Z.max 0 w /\ mn <= w.
Proof.
  intros Hsz. unfold delayBytesWanted. intros H. destruct (if id_pool id =? 65535 then _ else _) as [cl|]; [|done]. cbn [mbind option_bind] in *.
  destruct (cl =? 0); [injection H as <-; split; [unfold INT_MAX; lia|]; eexists; split; [done|]; lia|]. inv_opt H. injection H as <-. split; [lia|].
  replace sz with (Z.min sz INT_MAX) by lia. bind_simpl. erewrite pool_wanted_min by eassumption. rewrite E0. bind_simpl. eexists. split; [reflexivity|]. lia.
Qed.

Lemma most_allowed_in cfg d ids : forall jmax id j id', most_allowed cfg d ids jmax id = Some (j, id') ->
  jmax <= j /\ ((j, id') = (jmax, id) \/ id' ∈ ids /\ delayBytesWanted cfg d id' 0 INT_MAX = Some j).
Proof.
  induction ids as [|c ids IH]; intros jmax id j id'; cbn [most_allowed]; [intros [= -> ->]; split; [lia|by left]|]. intros H. inv_opt H.
  destruct (Z.ltb_spec jmax z) as [Hlt|Hge]; destruct (IH _ _ _ _ H) as [Hle [E'|[Hin Hw]]].
  - injection E' as -> ->. split; [lia|]. right. split; [left|done].
  - split; [lia|]. right. split; [by right|done].
  - split; [done|]. by left.
  - split; [done|]. right. split; [by right|done].
Qed.

(** The size of such a read is one that [delayBytesWanted] allows the client
    that is charged, with a floor of one byte. *)
Definition fetches_are_reads (cfg : delayConfig) (d : list (option delayPool)) : Prop :=
  forall ids sz id sz', ids <> [] -> 0 < sz <= INT_MAX -> delayMostBytesAllowed cfg d ids sz = Some (id, sz') ->
    id ∈ ids /\ exists w, delayBytesWanted cfg d id 1 sz = Some w /\ sz' <= w.

Lemma fetch_is_read cfg d : fetches_are_reads cfg d.
Proof.
  intros ids sz id sz' Hne Hsz H. unfold delayMostBytesAllowed in H. inv_opt H. destruct p as [j id'].
  assert (id' ∈ ids /\ delayBytesWanted cfg d id' 0 INT_MAX = Some j) as [Hin Hj].
  { destruct ids as [|c ids]; [done|]. cbn [most_allowed] in E. inv_opt E. destruct (delayBytesWanted_min cfg d c 0 sz z Hsz E0) as [Hz _].
    destruct (Z.ltb_spec (-1) z); [|lia]. destruct (most_allowed_in _ _ _ _ _ _ _ E) as [_ [E'|[Hin Hw]]]; [injection E' as -> ->; split; [left|done]|].
    split; [by right|done]. }
  destruct (delayBytesWanted_min cfg d id' 1 sz j Hsz Hj) as (H0 & w & Hw & Hle & H1). rewrite wrap_s_small in H by (change (2 ^ (32 - 1)) with 2147483648; unfold INT_MAX in *; lia).
  destruct ((0 <=? j) && (j <? sz)) eqn:Eb; injection H as <- <-; (split; [done|]; exists w; split; [done|]); zify_bools; [|lia].
  destruct (Z.eqb_spec j 0); case_ifs; zify_bools; lia.
Qed.

Lemma sane_rate I B F s : spec_sane I B F s -> restore_bps s <> -1 -> 0 <= restore_bps s.
Proof. unfold spec_sane. lia. Qed.

(** C10. The arrays of hosts and networks implement buckets by name: in any run
    of reads by clients of the pools and of the passing of time, the id that
    the code finds for a client charges the client's own buckets, new clients
    get buckets of their own at the initial level, however many hosts and
    networks there are, and every result is that of the run on abstract pools.  The run fails only
    where a client reads more than it may: no assertion fails and no index is
    outside its array.  No level overflows either as long as the numbers are
    those that the hypotheses allow: every level, and every maximum plus what
    [I] seconds restore, fit an int, updates are at most [I] seconds apart, the
    bytes of the whole run fit below the levels of the buckets whose limit is
    off (these are charged and never refilled), and the bytes that are read
    whatever the level fit below those of the others.  The code does not check
    any of this, and beyond it [restore_bps * incr] or a level does overflow. *)
Theorem delay_pools_refine cfg I l d ad last :
  0 <= I <= INT_MAX -> 0 < pools cfg -> data_ok cfg d ad -> levels_ok cfg I (total l) (floors l) ad -> ops_ok I last l ->
  match run cfg l (d, last), a_run cfg l (ad, last) with
  | Some (d', last'), Some (ad', last'') => last' = last'' /\ data_ok cfg d' ad' /\ levels_ok cfg I 0 0 ad'
  | None, None => True
  | _, _ => False
  end.
Proof. intros HI Hp Hd Hl Ho. exact (run_agrees cfg I l HI Hp d ad last Hd Hl Ho). Qed.

(** C9. Delay pools limit the rate: in any run in which clients read no more
    than [delayBytesWanted] allows, all clients of a pool together read at
    most what is in its bucket at the beginning, plus its rate times the time
    that has passed, plus the floor of each of their reads (the bytes that
    [delayBytesWanted] allows whatever the level, at most one a read in the
    code), and so does each host from the bucket it has or will get, and each
    network.  What [delayMostBytesAllowed] lets the code read for a client of
    an object is within [delayBytesWanted] with a floor of one byte, so these
    reads are reads of such a run.  The levels and rates are those for which
    no level overflows, as for the refinement above. *)
Theorem delay_rate_limit cfg I l d ad last d' last' k cl sp a :
  0 <= I <= INT_MAX -> 0 < pools cfg -> data_ok cfg d ad -> levels_ok cfg I (total l) (floors l) ad -> ops_ok I last l ->
  class cfg !! k = Some cl -> cl <> 0 -> rates cfg !! k = Some (Some sp) -> ad !! k = Some a ->
  run cfg l (d, last) = Some (d', last') ->
  (restore_bps (r_aggregate sp) <> -1 -> let all := fun _ => true in
    bytes_of (Z.of_nat k) all l <= Z.max 0 (ap_all a) + restore_bps (r_aggregate sp) * (last' - last) + floor_of (Z.of_nat k) all l) /\
  (forall s host, r_individual sp = Some s -> restore_bps s <> -1 -> let of_host := fun addr => bool_decide (key cl addr = host) in
    bytes_of (Z.of_nat k) of_host l <= Z.max 0 (level_at (level_of cfg s) host (ap_hosts a)) + restore_bps s * (last' - last) + floor_of (Z.of_nat k) of_host l) /\
  (forall s net, r_network sp = Some s -> restore_bps s <> -1 -> let of_net := fun addr => bool_decide ((key cl addr).1 = net) in
    bytes_of (Z.of_nat k) of_net l <= Z.max 0 (level_at (level_of cfg s) net (ap_nets a)) + restore_bps s * (last' - last) + floor_of (Z.of_nat k) of_net l) /\
  fetches_are_reads cfg d'.
Proof.
  intros HI Hp Hd Hl Ho Hc Hcl Hr Ha Hrun. pose proof (run_agrees cfg I l HI Hp d ad last Hd Hl Ho) as Hag. rewrite Hrun in Hag.
  destruct (a_run cfg l (ad, last)) as [[ad' last'']|] eqn:Ear; [|done]. destruct Hag as (<- & _ & _).
  destruct (Hl k cl sp a Hc Hcl Hr Ha) as [[_ S1 S2 S3] _].
  assert (forall r f level, account cfg cl sp r f (fun a => there (level a)) ->
    bytes_of (Z.of_nat k) f l <= there (level a) + r * (last' - last) + floor_of (Z.of_nat k) f l) as Hmain.
  { intros r f level Hac. destruct (a_run_account cfg I k cl sp r f _ l Hc Hcl Hr HI Hp Hac ad last ad' last' a Ho Ha Ear) as (a' & _ & Hle).
    unfold there in *. lia. }
  split; [|split; [|split; [|apply fetch_is_read]]].
  - intros Hre. apply (Hmain _ _ ap_all), account_all. by eapply sane_rate.
  - intros s host Hs Hre. apply (Hmain _ _ (fun a => level_at (level_of cfg s) host (ap_hosts a))), account_host; [done|]. eapply sane_rate; [by apply S2|done].
  - intros s net Hs Hre. apply (Hmain _ _ (fun a => level_at (level_of cfg s) net (ap_nets a))), account_net; [done|]. eapply sane_rate; [by apply S3|done].
Qed.

(** Two hosts share a pool of class 2: 1000 bytes a second for all, 100 for
    each host, and half of the levels at the beginning.  The first host reads
    all it may, and one byte more. *)
Definition wit_rates : delaySpecSet := mkRates (mkSpec 1000 2000) (Some (mkSpec 100 200)) None.
Definition wit_cfg : delayConfig := mkDelayConfig 1 50 [2] [Some wit_rates] [[]].
Definition wit_pool : class2DelayPool := mkC2 1000 0 (255 :: replicate 255 0) 0 (replicate 256 0) (replicate 256 0).
Definition wit_data : list (option delayPool) := [Some (Class2 wit_pool)].
Definition wit_apools : list apool := [mkAp 1000 ∅ ∅].
Definition wit_ops : list op := [Read 0 167772165 0 500 100; Read 0 167772165 1 500 1; Read 0 167772166 1 500 60; Tick 2; Read 0 167772165 1 500 150].

Lemma wit_data_ok : data_ok wit_cfg wit_data wit_apools.
Proof.
  apply data_ok_lookup. do 4 (split; [done|]). intros [|k] o a [= <-] [= <-]. intros cl [= <-] _. exists (Class2 wit_pool), wit_rates. do 4 (split; [done|]).
  destruct (init_pool_ok 50 (Class2 wit_pool) 2 wit_rates) as (p' & E & _ & _ & Hr); [done|done|done|unfold int_range; cbn; unfold INT_MAX; lia|].
  vm_compute in E. injection E as <-. exact Hr.
Qed.

Lemma wit_levels_ok : levels_ok wit_cfg 10 (total wit_ops) (floors wit_ops) wit_apools.
Proof.
  intros [|k] cl sp a [= <-] _ [= <-] [= <-]. assert (spec_sane 10 311 3 (mkSpec 1000 2000) /\ spec_sane 10 311 3 (mkSpec 100 200)) as [S1 S2] by (unfold spec_sane, INT_MAX; cbn; lia).
  split; constructor; cbn; try done; try lia.
  - by intros s [= <-].
Qed.

Lemma wit_ops_ok : ops_ok 10 0 wit_ops.
Proof. cbn. unfold INT_MAX. lia. Qed.

Lemma delay_pools_refine_witness :
  match run wit_cfg wit_ops (wit_data, 0), a_run wit_cfg wit_ops (wit_apools, 0) with
  | Some (d', last'), Some (ad', last'') => last' = last'' /\ data_ok wit_cfg d' ad' /\ levels_ok wit_cfg 10 0 0 ad'
  | None, None => True
  | _, _ => False
  end /\ option_map snd (run wit_cfg wit_ops (wit_data, 0)) = Some 2.
Proof.
  split; [|vm_compute; reflexivity].
  apply (delay_pools_refine wit_cfg 10 wit_ops wit_data wit_apools 0); [unfold INT_MAX; lia|reflexivity|exact wit_data_ok|exact wit_levels_ok|exact wit_ops_ok].
Defined.

Lemma delay_rate_limit_witness :
  bytes_of 0 (fun _ => true) wit_ops = 311 /\ bytes_of 0 (fun addr => bool_decide (key 2 addr = (0, 5))) wit_ops = 251 /\
  bytes_of 0 (fun addr => bool_decide (key 2 addr = (0, 5))) wit_ops <= 100 + 100 * 2 + 2.
Proof.
  split; [reflexivity|]. split; [vm_compute; reflexivity|].
  destruct (run wit_cfg wit_ops (wit_data, 0)) as [[d' last']|] eqn:E; [|vm_compute in E; discriminate E].
  assert (last' = 2) as -> by (assert (H : option_map snd (run wit_cfg wit_ops (wit_data, 0)) = Some last') by (rewrite E; reflexivity); vm_compute in H; congruence).
  destruct (delay_rate_limit wit_cfg 10 wit_ops wit_data wit_apools 0 d' 2 0 2 wit_rates (mkAp 1000 ∅ ∅)) as (_ & H & _);
    [unfold INT_MAX; lia|reflexivity|exact wit_data_ok|exact wit_levels_ok|exact wit_ops_ok|reflexivity|done|reflexivity|reflexivity|exact E|].
  specialize (H (mkSpec 100 200) (0, 5) eq_refl). exact (H ltac:(discriminate)).
Defined.
End DelayRate.
