(* ===== verification/DelayIds.v ===== *)
(** * The ids of clients of delay pools (src/delay_pools.c)

    A store client keeps the id it was given: its pool and its place there.
    Places are never given up, so that an id stays that of its client as long
    as the configuration lasts.  The locations of the ids in use are entered
    in a table; when the configuration is read again all of them are set to 0,
    the id of clients of no pool. *)

From Stdlib Require Import ZArith Lia.
From stdpp Require Import base gmap list numbers option.
From S2P Require Import Prelude DelayPools DelayClass3 DelayRate.
Import DelayPools DelayClass3 DelayRate.

Module DelayIds.

(** ** Places stay *)

Lemma rd_wr_ne {A} (a a' : list A) i v j : wr a i v = Some a' -> j <> i -> rd a' j = rd a j.
Proof.
  unfold wr, rd. intros H Hj. inv_opt H. injection H as <-. zify_bools. destruct (Z.leb_spec 0 j); [|done]. by rewrite list_lookup_insert_ne by lia.
Qed.

Lemma rd_wr_eq {A} (a a' : list A) i v : wr a i v = Some a' -> rd a' i = Some v.
Proof. unfold wr, rd. intros H. inv_opt H. injection H as <-. zify_bools. destruct (Z.leb_spec 0 i); [|lia]. by rewrite list_lookup_insert_eq by lia. Qed.

(** The cells from [i] to [k] hold other hosts. *)
Definition passed (m : list Z) (h i k : Z) : Prop := forall x, i <= x < k -> exists c, rd m x = Some c /\ c <> h /\ c <> 255.

Lemma passed_step m h i k c : rd m i = Some c -> c <> h -> c <> 255 -> passed m h (i + 1) k -> passed m h i k.
Proof. intros Hc H1 H2 Hp x Hx. destruct (decide (x = i)) as [->|]; [by exists c|]. apply Hp. lia. Qed.

(** What the loop over a table finds. *)
Lemma map_loop_inv fuel m h : forall i r, map_loop fuel m h i = Some r ->
  match r with
  | Found k => i <= k < i + Z.of_nat fuel /\ rd m k = Some h /\ passed m h i k
  | New k m' => i <= k < i + Z.of_nat fuel /\ k < 255 /\ rd m k = Some 255 /\ passed m h i k /\ rd m' k = Some h /\ forall x, x < k -> rd m' x = rd m x
  | NoSlot => passed m h i (i + Z.of_nat fuel)
  end.
Proof.
  induction fuel as [|fuel IH]; intros i r; cbn [map_loop]; [intros [= <-] x Hx; lia|]. intros H. inv_opt H. destruct (Z.eqb_spec z h) as [->|Hz].
  { injection H as <-. split; [lia|]. split; [done|]. intros x Hx. lia. }
  destruct (Z.eqb_spec z 255) as [->|Hz'].
  - inv_opt H. injection H as <-. unfold IND_MAP_SZ in *. zify_bools.
    split; [lia|]. split; [lia|]. split; [done|]. split; [intros x Hx; lia|]. split.
    + rewrite (rd_wr_ne _ _ _ _ i E2), (rd_wr_eq _ _ _ _ E0) by lia. done.
    + intros x Hx. by rewrite (rd_wr_ne _ _ _ _ x E2), (rd_wr_ne _ _ _ _ x E0) by lia.
  - specialize (IH _ _ H). destruct r as [k|k m'|].
    + destruct IH as (H1 & H2 & H3). split; [lia|]. split; [done|]. by eapply passed_step.
    + destruct IH as (H1 & H2 & H3 & H4 & H5). split; [lia|]. split; [done|]. split; [done|]. split; [by eapply passed_step|done].
    + eapply passed_step; [done..|]. by replace (i + 1 + Z.of_nat fuel) with (i + Z.of_nat (S fuel)) in IH by lia.
Qed.

Lemma map_loop_finds fuel m h k : forall i, i <= k < i + Z.of_nat fuel -> rd m k = Some h -> passed m h i k -> map_loop fuel m h i = Some (Found k).
Proof.
  induction fuel as [|fuel IH]; intros i Hk Hr Hp; [lia|]. cbn [map_loop]. destruct (decide (i = k)) as [->|Hne].
  - rewrite Hr. bind_simpl. by rewrite Z.eqb_refl.
  - destruct (Hp i ltac:(lia)) as (c & -> & H1 & H2). bind_simpl. destruct (Z.eqb_spec c h), (Z.eqb_spec c 255); try done. apply IH; [lia|done|].
    intros x Hx. apply Hp. lia.
Qed.

(** A host that is entered is found, and those found before still are. *)
Lemma map_slot_new m h k m' : map_slot m h = Some (New k m') -> map_slot m' h = Some (Found k) /\ 0 <= k < 255.
Proof.
  intros (H1 & H2 & H3 & H4 & H5 & H6)%map_loop_inv. split; [|lia]. apply map_loop_finds; [lia|done|]. intros x Hx. rewrite H6 by lia. by apply H4.
Qed.

Lemma map_slot_keep m h k h' k' m' : h <> 255 -> map_slot m h = Some (Found k) -> map_slot m h' = Some (New k' m') -> map_slot m' h = Some (Found k) /\ k < k'.
Proof.
  intros Hh (H1 & H2 & H3)%map_loop_inv (N1 & N2 & N3 & N4 & N5 & N6)%map_loop_inv.
  assert (k < k').
  { destruct (Z.lt_ge_cases k k') as [|Hge]; [done|]. destruct (decide (k = k')) as [->|]; [congruence|]. destruct (H3 k' ltac:(lia)) as (c & Hc & _ & H255). congruence. }
  split; [|done]. apply map_loop_finds; [lia|by rewrite N6|]. intros x Hx. rewrite N6 by lia. by apply H3.
Qed.

Lemma map_slot_full m h h' k' m' : map_slot m h = Some NoSlot -> map_slot m h' = Some (New k' m') -> False.
Proof. intros H1%map_loop_inv (N1 & N2 & N3 & _)%map_loop_inv. destruct (H1 k' N1) as (c & Hc & _ & H255). congruence. Qed.

(** ** Clients stay *)

(** The place of [h] in a table, if it is entered. *)
Definition seen (m : list Z) (used : bool) (h : Z) : option Z :=
  if h =? 255 then if used then Some 255 else None
  else match map_slot m h with Some (Found k) => Some k | _ => None end.

Lemma seen_new m used h k m' : h <> 255 -> map_slot m h = Some (New k m') ->
  seen m' used h = Some k /\ forall h' k', seen m used h' = Some k' -> seen m' used h' = Some k' /\ k' <> k.
Proof.
  intros Hh Hn. destruct (map_slot_new _ _ _ _ Hn) as [E Hk]. unfold seen. destruct (Z.eqb_spec h 255); [done|]. rewrite E. split; [done|]. intros h' k'.
  destruct (Z.eqb_spec h' 255); [destruct used; [intros [= <-]; split; [done|lia]|done]|]. destruct (map_slot m h') as [[k1|?|]|] eqn:E'; try done. intros [= <-].
  destruct (map_slot_keep m h' k1 h k m') as [-> ?]; [done..|]. split; [done|lia].
Qed.

Lemma seen_used m h k : seen m false h = Some k -> seen m true h = Some k.
Proof. unfold seen. by destruct (h =? 255). Qed.

Lemma seen_255 hs m h k : table hs m -> 0 <= h <= 255 -> seen m false h = Some k -> k <> 255.
Proof.
  intros Ht Hh. unfold seen. destruct (Z.eqb_spec h 255); [done|]. pose proof (map_slot_spec hs m h Ht ltac:(lia)) as Hs.
  destruct (list_find (eq h) hs) as [[i x]|] eqn:E; [|by destruct Hs as (m' & -> & _)]. rewrite Hs. intros [= <-]. apply list_find_Some in E as (Hi & _ & _).
  apply lookup_lt_Some in Hi. pose proof (table_length hs m Ht). lia.
Qed.

Definition seen2 (p : class2DelayPool) (h : Z) : option Z := seen (individual_map p) (is_used (individual_255_used p)) h.

Lemma no_full hs m h : table hs m -> 0 <= h < 255 -> map_slot m h <> Some NoSlot.
Proof. intros Ht Hh. pose proof (map_slot_spec hs m h Ht Hh) as Hs. destruct (list_find (eq h) hs) as [[i x]|]; [by rewrite Hs|]. by destruct Hs as (m' & -> & _). Qed.

Lemma client2_seen init sp p a h k p' : Rep (Class2 p) a -> 0 <= h <= 255 -> client2 init sp p h = Some (k, p') ->
  seen2 p' h = Some k /\ (forall h' k', seen2 p h' = Some k' -> seen2 p' h' = Some k') /\ (seen2 p h <> None -> p' = p).
Proof.
  intros [hs Hr] Hh. unfold client2, seen2. intros H. inv_opt H. destruct (Z.eqb_spec h 255) as [->|Hne].
  - destruct (is_used (individual_255_used p)) eqn:Eu; [injection H as <- <-; rewrite Eu; done|]. inv_opt H. injection H as <- <-. cbn. split; [done|].
    split; [intros h' k'; apply seen_used|done].
  - pose proof (no_full _ _ h (r2_table _ _ _ Hr) ltac:(lia)) as Hfull. inv_opt H. destruct s as [i|i m|]; [|inv_opt H|done]; injection H as <- <-.
    + split; [|done]. unfold seen. destruct (Z.eqb_spec h 255); [done|]. by rewrite E0.
    + destruct (seen_new _ (is_used (individual_255_used p)) h i m Hne E0) as [S1 S2]. cbn. split; [done|]. split; [intros h' k' Hk'; by apply S2|].
      unfold seen. destruct (Z.eqb_spec h 255); [done|]. by rewrite E0.
Qed.

(** The place of a network, and the position of a host there. *)
Definition seen_net (p : class3DelayPool) (n : Z) : option Z := seen (network_map p) (is_used (network_255_used p)) n.
Definition seen_host (p : class3DelayPool) (i h : Z) : option Z :=
  let? m := rd (c3_individual_map p) i in
  let? u := net_bit (c3_individual_255_used p) i in
  let? j := seen m u h in
  Some (Z.lor (wrap_u 16 (Z.shiftl i 8)) j).
Definition seen3 (p : class3DelayPool) (n h : Z) : option Z := let? i := seen_net p n in seen_host p i h.

Lemma client3_net_seen init sp nets hss p a n i p' : rep3 nets hss p a -> 0 <= n <= 255 -> client3_net init sp p n = Some (i, p') ->
  seen_net p' n = Some i /\ (forall n' h k, 0 <= n' <= 255 -> seen3 p n' h = Some k -> seen3 p' n' h = Some k) /\ (seen_net p n <> None -> p' = p).
Proof.
  intros Hr Hn. unfold client3_net, seen_net. intros H. inv_opt H. destruct (Z.eqb_spec n 255) as [->|Hne].
  - destruct (is_used (network_255_used p)) eqn:Eu; [injection H as <- <-; rewrite Eu; done|]. inv_opt H. injection H as <- <-. cbn [network_map network_255_used]. split; [done|].
    split; [|done]. intros n' h k Hn' Hk. unfold seen3, seen_net in *. cbn [network_map network_255_used]. rewrite Eu in Hk. destruct (seen _ false n') as [i|] eqn:Es; [|done].
    rewrite (seen_used _ _ _ Es : seen _ (is_used 1) n' = _). bind_simpl. rewrite <- Hk. unfold seen_host. cbn [c3_individual_map c3_individual_255_used mbind option_bind].
    pose proof (seen_255 _ _ _ _ (r3_table _ _ _ _ Hr) Hn' Es) as Hi. by rewrite (rd_wr_ne _ _ _ _ i E4 Hi).
  - pose proof (no_full _ _ n (r3_table _ _ _ _ Hr) ltac:(lia)) as Hfull. inv_opt H. destruct s as [k|k m|]; [|inv_opt H|done]; injection H as <- <-.
    + split; [|done]. unfold seen. destruct (Z.eqb_spec n 255); [done|]. by rewrite E0.
    + destruct (seen_new _ (is_used (network_255_used p)) n k m Hne E0) as [S1 S2]. cbn [network_map network_255_used]. split; [done|].
      split; [|unfold seen; destruct (Z.eqb_spec n 255); [done|]; by rewrite E0].
      intros n' h k' Hn' Hk'. unfold seen3, seen_net in *. cbn [network_map network_255_used]. destruct (seen _ _ n') as [i|] eqn:Es; [|done]. destruct (S2 _ _ Es) as [-> Hi].
      bind_simpl. rewrite <- Hk'. unfold seen_host. cbn [c3_individual_map c3_individual_255_used mbind option_bind]. by rewrite (rd_wr_ne _ _ _ _ i E3 Hi).
Qed.

Lemma net_bit_set u i u' j : set_net_bit u i = Some u' -> 0 <= i -> 0 <= j ->
  (net_bit u' i = Some true) /\ (net_bit u j = Some true -> net_bit u' j = Some true) /\ (j <> i -> net_bit u' j = net_bit u j).
Proof.
  unfold set_net_bit, net_bit. intros H Hi Hj. inv_opt H. assert (0 <= i mod 8 /\ 0 <= j mod 8) as [Hm Hm'] by (split; apply Z.mod_pos_bound; lia).
  assert (forall b n, 0 <= n -> negb (Z.land b (Z.shiftl 1 n) =? 0) = Z.testbit b n) as Ht by (intros b n Hn; by apply EBIT_TEST_testbit).
  split; [|split].
  - rewrite (rd_wr_eq _ _ _ _ H). bind_simpl. by rewrite Ht, Z.lor_spec, testbit_one_shift, bool_decide_true, orb_true_r by done.
  - destruct (decide (j / 8 = i / 8)) as [Ed|Ed]; [|by rewrite (rd_wr_ne _ _ _ _ _ H Ed)]. rewrite Ed, E, (rd_wr_eq _ _ _ _ H). bind_simpl. rewrite !Ht, Z.lor_spec by done.
    intros [= ->]. done.
  - intros Hne. destruct (decide (j / 8 = i / 8)) as [Ed|Ed]; [|by rewrite (rd_wr_ne _ _ _ _ _ H Ed)]. rewrite Ed, E, (rd_wr_eq _ _ _ _ H). bind_simpl.
    rewrite !Ht, Z.lor_spec, testbit_one_shift, bool_decide_false, orb_false_r by (done || (intros Em; apply Hne; rewrite (Z.div_mod j 8), (Z.div_mod i 8); lia)). done.
Qed.

Lemma client3_host_seen init sp nets hss p a n h i k p' : rep3 nets hss p a -> seen_net p n = Some i -> 0 <= n <= 255 -> 0 <= h <= 255 -> client3_host init sp p i h = Some (k, p') ->
  seen3 p' n h = Some k /\ (forall n' h' k', seen3 p n' h' = Some k' -> seen3 p' n' h' = Some k') /\ (seen_host p i h <> None -> p' = p).
Proof.
  intros Hr Hi Hn Hh. assert (exists im, rd (c3_individual_map p) i = Some im /\ table (hss (Z.to_nat i)) im /\ 0 <= i) as (im & Him & Ht & Hi0).
  { unfold seen_net, seen in Hi. pose proof (r3_tables _ _ _ _ Hr) as Hts. unfold rd. destruct (Z.eqb_spec n 255) as [->|Hne].
    - destruct (is_used _) eqn:Eu; [|done]. injection Hi as <-. destruct (Hts 255 255%nat) as (im & E & T); [done|]. by exists im.
    - pose proof (map_slot_spec nets _ n (r3_table _ _ _ _ Hr) ltac:(lia)) as Hs. pose proof (list_find_place nets (is_used (network_255_used p)) n Hne) as Hp.
      destruct (list_find (eq n) nets) as [[j x]|]; [|by destruct Hs as (m' & E & _); rewrite E in Hi]. rewrite Hs in Hi. injection Hi as <-. rewrite Nat2Z.id.
      destruct (Z.leb_spec 0 (Z.of_nat j)); [|lia]. destruct (Hts n j Hp) as (im & E & T). exists im. split; [done|]. split; [done|lia]. }
  unfold client3_host. intros H. inv_opt H. destruct (Z.eqb_spec h 255) as [->|Hne].
  - inv_opt H. destruct b.
    + injection H as <- <-. split; [|done]. unfold seen3. rewrite Hi. bind_simpl. unfold seen_host. by rewrite Him, E0.
    + inv_opt H. injection H as <- <-. split; [|split].
      * unfold seen3, seen_net in *. cbn [network_map network_255_used]. rewrite Hi. bind_simpl. unfold seen_host. cbn [c3_individual_map c3_individual_255_used].
        rewrite Him. destruct (net_bit_set _ _ _ 0 E1 Hi0 ltac:(done)) as [-> _]. done.
      * intros n' h' k'. unfold seen3, seen_net. cbn [network_map network_255_used]. destruct (seen _ _ n') as [i'|]; [|done]. bind_simpl.
        unfold seen_host. cbn [c3_individual_map c3_individual_255_used]. destruct (rd _ i') as [m'|] eqn:Em; [|done]. bind_simpl.
        assert (0 <= i') as Hi' by (unfold rd in Em; destruct (Z.leb_spec 0 i'); done). destruct (net_bit_set _ _ _ i' E1 Hi0 Hi') as (B1 & _ & B3).
        destruct (decide (i' = i)) as [->|Hii]; [|by rewrite (B3 Hii)]. rewrite B1, E0. bind_simpl. destruct (seen m' false h') as [j|] eqn:Es; [|done]. by rewrite (seen_used _ _ _ Es).
      * unfold seen_host. rewrite Him, E0. done.
  - inv_opt H. pose proof (no_full _ _ h Ht ltac:(lia)) as Hfull. injection Him as ->. unfold NET_MAP_SZ in E0. zify_bools.
    assert (net_bit (c3_individual_255_used p) i = Some (ubit (c3_individual_255_used p) (Z.to_nat i))) as Hb.
    { rewrite <- (Z2Nat.id i) at 1 by done. apply net_bit_ok; [apply Hr|lia]. }
    destruct s as [j|j m|]; [|inv_opt H|done]; injection H as <- <-.
    + assert (forall u, seen im u h = Some j) as Hs by (intros u; unfold seen; destruct (Z.eqb_spec h 255); [done|]; by rewrite E2).
      split; [|done]. unfold seen3. rewrite Hi. bind_simpl. unfold seen_host. rewrite E1, Hb. bind_simpl. by rewrite Hs.
    + destruct (seen_new _ (ubit (c3_individual_255_used p) (Z.to_nat i)) h j m Hne E2) as [S1 S2].
      unfold seen3, seen_net in *. cbn [network_map network_255_used]. unfold seen_host. cbn [c3_individual_map c3_individual_255_used]. split; [|split].
      * rewrite Hi. bind_simpl. rewrite (rd_wr_eq _ _ _ _ E3), Hb. bind_simpl. by rewrite S1.
      * intros n' h' k'. destruct (seen _ _ n') as [i'|]; [|done]. bind_simpl. destruct (decide (i' = i)) as [->|Hii]; [|by rewrite (rd_wr_ne _ _ _ _ _ E3 Hii)].
        rewrite (rd_wr_eq _ _ _ _ E3), E1, Hb. bind_simpl. destruct (seen im _ h') as [j'|] eqn:Es; [|done]. by destruct (S2 _ _ Es) as [-> _].
      * rewrite E1, Hb. bind_simpl. unfold seen. destruct (Z.eqb_spec h 255); [done|]. by rewrite E2.
Qed.

(** ** The same for any pool *)

Definition seen_by (p : delayPool) (addr : Z) : option Z :=
  match p with
  | Class1 _ => Some 0
  | Class2 p => seen2 p (Z.land addr 255)
  | Class3 p => seen3 p (Z.shiftr (Z.land addr 65535) 8) (Z.land (Z.land addr 65535) 255)
  end.

Lemma client3_seen init sp isp nsp nv nets hss p a n h k p' : rep3 nets hss p a -> r_individual sp = Some isp -> r_network sp = Some nsp -> initial_level nsp init = Some nv ->
  0 <= n <= 255 -> 0 <= h <= 255 -> client3 init sp p n h = Some (k, p') ->
  seen3 p' n h = Some k /\ (forall n' h' k', 0 <= n' <= 255 -> seen3 p n' h' = Some k' -> seen3 p' n' h' = Some k') /\ (seen3 p n h <> None -> p' = p).
Proof.
  intros Hr Hisp Hnsp Hnv Hn Hh. unfold client3. intros H. inv_opt H. destruct p0 as [i p1].
  destruct (client3_net_ok nets hss p a init sp nsp nv n Hr Hnsp Hnv Hn) as (nets' & hss' & i' & p1' & E' & Hr1 & _). rewrite E in E'. injection E' as -> <-.
  destruct (client3_net_seen init sp nets hss p a n _ p1 Hr Hn E) as (N1 & N2 & N3). destruct (client3_host_seen init sp nets' hss' p1 _ n h _ k p' Hr1 N1 Hn Hh H) as (H1 & H2 & H3).
  split; [done|]. split; [intros n' h' k' Hn' Hk'; by apply H2, N2|]. unfold seen3. destruct (seen_net p n) as [i|] eqn:Es; [|done]. bind_simpl. intros Hs.
  rewrite <- (N3 ltac:(done)) in *. assert (i = Z.of_nat i') as -> by congruence. by apply H3.
Qed.

Lemma client_pool_seen init sp p a addr pos p' : Rep p a -> rates_for (class_of p) sp -> new_levels_ok init sp -> client_pool init sp p addr = Some (pos, p') ->
  class_of p' = class_of p /\ seen_by p' addr = Some pos /\ (forall addr' pos', seen_by p addr' = Some pos' -> seen_by p' addr' = Some pos') /\ (seen_by p addr <> None -> p' = p).
Proof.
  intros Hr Hc Hl. destruct p as [p|p|p]; cbn [client_pool seen_by class_of] in *; intros H.
  - by injection H as <- <-.
  - inv_opt H. destruct p0 as [i p1]. injection H as <- <-. destruct (client2_seen _ _ _ _ _ _ _ Hr (low_byte addr) E) as (H1 & H2 & H3).
    split; [done|]. split; [done|]. split; [intros addr'; apply H2|]. intros Hs. by rewrite H3.
  - inv_opt H. destruct p0 as [i p1]. injection H as <- <-. destruct Hr as (nets & hss & Hr). unfold rates_for in Hc.
    destruct (r_individual sp) as [isp|] eqn:Ei, (r_network sp) as [nsp|] eqn:En; try lia.
    destruct (client3_seen _ _ isp nsp _ nets hss _ _ _ _ _ _ Hr Ei En (initial_level_ok init sp nsp Hl (or_intror En)) (net_byte addr) (low_byte _) E) as (H1 & H2 & H3).
    split; [done|]. split; [done|]. split; [intros addr' pos'; apply H2, net_byte|]. intros Hs. by rewrite H3.
Qed.

Lemma pool_in_seen p pos q p' addr : pool_in p pos q = Some p' -> seen_by p' addr = seen_by p addr /\ class_of p' = class_of p.
Proof. destruct p as [p|p|p]; cbn [pool_in]; intros H; inv_opt H; by injection H as <-. Qed.

Lemma update_pool_seen sp incr p p' addr : update_pool sp incr p = Some p' -> seen_by p' addr = seen_by p addr /\ class_of p' = class_of p.
Proof.
  destruct p as [p|p|p]; cbn [update_pool]; intros (p1 & H & ->)%fmap_Some.
  - unfold delayUpdateClass1 in H. inv_opt H. by injection H as <-.
  - unfold delayUpdateClass2 in H. inv_opt H. destruct (restore_bps d =? -1); [by injection H as <-|]. inv_opt H. by injection H as <-.
  - unfold delayUpdateClass3 in H. inv_opt H. destruct ((restore_bps d0 =? -1) && (restore_bps d =? -1)); [by injection H as <-|]. inv_opt H. destruct p0. by injection H as <-.
Qed.

(** ** Runs *)

(** What is seen in [d] is seen at the same place in [d']. *)
Definition kept (d d' : list (option delayPool)) : Prop :=
  length d' = length d /\
  forall (k : nat) p, d !! k = Some (Some p) -> exists p', d' !! k = Some (Some p') /\ class_of p' = class_of p /\
    forall addr pos, seen_by p addr = Some pos -> seen_by p' addr = Some pos.

#[export] Instance kept_preorder : PreOrder kept.
Proof.
  split; [intros d; split; [done|]; intros k p Hp; by exists p|]. intros d1 d2 d3 [L1 H1] [L2 H2]. split; [congruence|]. intros k p Hp.
  destruct (H1 k p Hp) as (p' & Hp' & Hc & Hs). destruct (H2 k p' Hp') as (p'' & Hp'' & Hc' & Hs'). exists p''. split; [done|]. split; [congruence|].
  intros addr pos Hpos. by apply Hs', Hs.
Qed.

Lemma kept_insert d k p p' : d !! k = Some (Some p) -> class_of p' = class_of p -> (forall addr pos, seen_by p addr = Some pos -> seen_by p' addr = Some pos) -> kept d (<[k := Some p']> d).
Proof.
  intros Hk Hc Hs. split; [apply length_insert|]. intros j q Hq. destruct (decide (j = k)) as [->|Hne].
  - exists p'. assert (q = p) as -> by congruence. split; [|done]. apply list_lookup_insert_eq. by apply lookup_lt_Some in Hk.
  - exists q. by rewrite list_lookup_insert_ne.
Qed.

Lemma update_loop_kept cfg incr n : forall d i d', update_loop cfg incr n d i = Some d' -> kept d d'.
Proof.
  induction n as [|n IH]; intros d i d'; cbn [update_loop]; [by intros [= <-]|]. intros H. inv_opt H. destruct (z =? 0); [by eapply IH|]. inv_opt H. etrans; [|by eapply IH].
  unfold get_pool, rd in E0. inv_opt E0. subst. unfold wr in E5. inv_opt E5. injection E5 as <-. destruct (update_pool_seen _ _ _ _ 0 E4) as [_ Hc]. inv_opt E6.
  eapply kept_insert; [done|done|]. intros addr pos Hpos. destruct (update_pool_seen _ _ _ _ addr E4) as [-> _]. done.
Qed.

(** [id] is the id of the client [addr] of pool [k]. *)
Definition holds (cfg : delayConfig) (d : list (option delayPool)) (k : nat) (addr id : Z) : Prop :=
  exists cl, class cfg !! k = Some cl /\
    if cl =? 0 then id = delayId 0 0
    else exists p pos, d !! k = Some (Some p) /\ seen_by p addr = Some pos /\ id = delayId (wrap_u 16 (Z.of_nat k + 1)) pos.

Lemma holds_kept cfg d d' k addr id : kept d d' -> holds cfg d k addr id -> holds cfg d' k addr id.
Proof.
  intros [_ Hk] (cl & Hc & H). exists cl. split; [done|]. destruct (cl =? 0); [done|]. destruct H as (p & pos & Hp & Hs & ->).
  destruct (Hk k p Hp) as (p' & Hp' & _ & Hs'). exists p', pos. split; [done|]. split; [by apply Hs'|done].
Qed.

Lemma pool_parts cfg I B F d ad (k : nat) cl : 0 <= I -> data_ok cfg d ad -> levels_ok cfg I B F ad -> class cfg !! k = Some cl -> cl <> 0 ->
  exists p sp a, d !! k = Some (Some p) /\ class_of p = cl /\ rates cfg !! k = Some (Some sp) /\ rates_for cl sp /\ ad !! k = Some a /\ Rep p a /\
    new_levels_ok (initial cfg) sp /\ rates_sane I B F (initial cfg) sp /\ pool_inv sp B F a.
Proof.
  intros HI Hd Hl Hc Hcl. pose proof Hd as (H1 & H2 & H3 & H4 & H5)%data_ok_lookup. pose proof (lookup_lt_Some _ _ _ Hc) as Hk.
  destruct (lookup_lt_is_Some_2 d k) as [o Ho]; [lia|]. destruct (lookup_lt_is_Some_2 ad k) as [a Ha]; [lia|].
  destruct (H5 k o a Ho Ha cl Hc Hcl) as (p & sp & -> & Hcp & Hsp & Hrf & Hrep). destruct (Hl k cl sp a Hc Hcl Hsp Ha) as [Hrs Hinv].
  exists p, sp, a. do 6 (split; [done|]). split; [by eapply rates_new_levels|]. done.
Qed.

Lemma client_holds cfg I B F d ad pool addr id d' : 0 <= I -> data_ok cfg d ad -> levels_ok cfg I B F ad -> delayPoolClient cfg d pool addr = Some (id, d') ->
  holds cfg d' (Z.to_nat pool) addr id /\ 0 <= pool /\ kept d d' /\ exists ad', data_ok cfg d' ad' /\ levels_ok cfg I B F ad'.
Proof.
  intros HI Hd Hl Hcl. assert (exists cl, rd (class cfg) pool = Some cl) as [cl Hc] by (unfold delayPoolClient in Hcl; inv_opt Hcl; eauto).
  apply rd_Some in Hc as [Hp Hc]. destruct (Z_of_nat_complete pool Hp) as [k ->]. rewrite Nat2Z.id in *. unfold holds. destruct (decide (cl = 0)) as [->|Hc0].
  - unfold delayPoolClient in Hcl. rewrite (rd_nat (class cfg)), Hc in Hcl. injection Hcl as <- <-. split; [by exists 0|]. split; [done|]. split; [done|]. by exists ad.
  - destruct (pool_parts cfg I B F d ad k cl HI Hd Hl Hc Hc0) as (p & sp & a & Hk & <- & Hsp & Hrf & Ha & Hrep & Hnl & Hrs & Hinv).
    destruct (read_pool_ok (initial cfg) sp p a addr Hrep Hrf Hnl) as (pos & p1 & Ec & Hc1 & Hpos & Hrep1 & _).
    rewrite (delayPoolClient_pool cfg d k addr p sp pos p1 Hk Hc Hsp Ec) in Hcl. injection Hcl as <- <-.
    destruct (client_pool_seen _ _ _ _ _ _ _ Hrep Hrf Hnl Ec) as (_ & S1 & S2 & _). split; [|split; [done|split; [by eapply kept_insert|]]].
    + exists (class_of p). split; [done|]. destruct (Z.eqb_spec (class_of p) 0); [done|]. exists p1, pos. split; [|done]. apply list_lookup_insert_eq. by apply lookup_lt_Some in Hk.
    + eexists. split; [eapply data_ok_insert; [exact Hd|]|].
      * intros cl' Hcl' _. assert (cl' = class_of p) as -> by congruence. exists p1, sp. split; [done|]. split; [done|]. split; [done|]. split; [done|exact Hrep1].
      * apply levels_ok_insert; [done|]. intros sp' Hsp'. assert (sp' = sp) as -> by congruence. by apply (client_inv I).
Qed.

Lemma holds_client cfg I B F d ad k addr id : 0 <= I -> data_ok cfg d ad -> levels_ok cfg I B F ad -> holds cfg d k addr id -> delayPoolClient cfg d (Z.of_nat k) addr = Some (id, d).
Proof.
  intros HI Hd Hl (cl & Hc & H). destruct (Z.eqb_spec cl 0) as [->|Hc0].
  - subst id. unfold delayPoolClient. by rewrite (rd_nat (class cfg)), Hc.
  - destruct H as (p & pos & Hp & Hs & ->). destruct (pool_parts cfg I B F d ad k cl HI Hd Hl Hc Hc0) as (p' & sp & a & Hk & <- & Hsp & Hrf & Ha & Hrep & Hnl & _).
    assert (p' = p) as -> by congruence. destruct (read_pool_ok (initial cfg) sp p a addr Hrep Hrf Hnl) as (pos1 & p1 & Ec & _).
    destruct (client_pool_seen _ _ _ _ _ _ _ Hrep Hrf Hnl Ec) as (_ & S1 & S2 & S3). specialize (S2 _ _ Hs). assert (pos1 = pos) as -> by congruence.
    rewrite S3 in Ec by congruence. rewrite (delayPoolClient_pool cfg d k addr p sp pos p Hk Hc Hsp Ec). by rewrite list_insert_id.
Qed.

Lemma step_kept cfg I B F d ad last o d' last' : 0 <= I -> data_ok cfg d ad -> levels_ok cfg I B F ad -> step cfg o (d, last) = Some (d', last') -> kept d d'.
Proof.
  intros HI Hd Hl H. destruct o as [pool addr mn mx q|now]; cbn [step fst snd] in H.
  - inv_opt H. destruct p as [id d1]. inv_opt H. injection H as <- <-. destruct (client_holds cfg I B F d ad pool addr id d1 HI Hd Hl E) as (_ & _ & Hk & _).
    etrans; [exact Hk|]. clear - E2. unfold delayBytesIn in E2. destruct (id_pool id =? 65535); [by injection E2 as <-|]. inv_opt E2. unfold get_pool in E0. inv_opt E0. subst.
    apply rd_Some in E4 as [_ Hp]. unfold wr in E2. inv_opt E2. injection E2 as <-. destruct (pool_in_seen _ _ _ _ 0 E3) as [_ Hc].
    eapply kept_insert; [exact Hp|done|]. intros a pos. by destruct (pool_in_seen _ _ _ _ a E3) as [-> _].
  - unfold delayPoolsUpdate in H. destruct (pools cfg =? 0); [by injection H as <- <-|]. destruct (_ <? 1); [by injection H as <- <-|]. inv_opt H. injection H as <- <-.
    by eapply update_loop_kept.
Qed.

Lemma run_kept cfg I l : 0 <= I <= INT_MAX -> 0 < pools cfg -> forall d ad last d' last', data_ok cfg d ad -> levels_ok cfg I (total l) (floors l) ad -> ops_ok I last l ->
  run cfg l (d, last) = Some (d', last') -> kept d d' /\ exists ad', data_ok cfg d' ad' /\ levels_ok cfg I 0 0 ad'.
Proof.
  intros HI Hp. induction l as [|o l IH]; intros d ad last d' last' Hd Hl Ho H; cbn [run] in H.
  { injection H as <- <-. split; [done|]. by exists ad. }
  destruct Ho as [Ho Hos]. pose proof (total_nonneg _ _ _ Hos) as [Ht Hf]. cbn [total floors foldr] in Hl. fold (total l) (floors l) in Hl.
  destruct (step_agrees cfg I o (total l) (floors l) d ad last HI Hp Hd Hl Ho Ht Hf) as [Ha Hlast]. destruct (step cfg o (d, last)) as [[d1 last1]|] eqn:Es; [|done].
  destruct (a_step cfg o (ad, last)) as [[ad1 last1']|]; [|done]. destruct Ha as (-> & Hd1 & Hl1). specialize (Hlast _ eq_refl). cbn [snd] in Hlast. subst last1'.
  cbn [mbind option_bind] in H. destruct (IH _ _ _ _ _ Hd1 Hl1 Hos H) as [Hk Had]. split; [|done]. etrans; [|exact Hk]. eapply step_kept; [|exact Hd|exact Hl|exact Es]. lia.
Qed.

(** An id stays that of its client: after any run of reads, new clients
    and refills, the client that was given [id] is found at the place of [id]
    again and nothing changes.  So the id that a store client keeps for the
    time of its reply charges the buckets of its own address. *)
Theorem delay_id_stable cfg I l d ad last pool addr id d1 d2 last2 :
  0 <= I <= INT_MAX -> 0 < pools cfg -> data_ok cfg d ad -> levels_ok cfg I (total l) (floors l) ad -> ops_ok I last l ->
  delayPoolClient cfg d pool addr = Some (id, d1) -> run cfg l (d1, last) = Some (d2, last2) ->
  delayPoolClient cfg d2 pool addr = Some (id, d2).
Proof.
  intros HI Hp Hd Hl Ho Hc Hrun. destruct (client_holds cfg I _ _ d ad pool addr id d1 ltac:(lia) Hd Hl Hc) as (Hh & H0 & _ & ad1 & Hd1 & Hl1).
  destruct (run_kept cfg I l HI Hp d1 ad1 last d2 last2 Hd1 Hl1 Ho Hrun) as (Hk & ad2 & Hd2 & Hl2). rewrite <- (Z2Nat.id pool) by done.
  eapply (holds_client cfg I 0 0); [lia|exact Hd2|exact Hl2|]. by eapply holds_kept.
Qed.

Lemma delay_id_stable_witness : exists d1 d2, delayPoolClient wit_cfg wit_data 0 167772170 = Some (65536, d1) /\ run wit_cfg wit_ops (d1, 0) = Some (d2, 2) /\
  delayPoolClient wit_cfg d2 0 167772170 = Some (65536, d2).
Proof.
  destruct (delayPoolClient wit_cfg wit_data 0 167772170) as [[id d1]|] eqn:E; [|vm_compute in E; discriminate E].
  assert (id = 65536) as -> by (vm_compute in E; congruence).
  destruct (run wit_cfg wit_ops (d1, 0)) as [[d2 last2]|] eqn:Er.
  - assert (last2 = 2) as -> by (vm_compute in E; injection E as <-; vm_compute in Er; congruence). exists d1, d2. split; [reflexivity|]. split; [exact Er|].
    apply (delay_id_stable wit_cfg 10 wit_ops wit_data wit_apools 0 0 167772170 65536 d1 d2 2);
      [unfold INT_MAX; lia|reflexivity|exact wit_data_ok|exact wit_levels_ok|exact wit_ops_ok|exact E|exact Er].
  - exfalso. vm_compute in E. injection E as <-. vm_compute in Er. discriminate Er.
Defined.

End DelayIds.
