(* ===== verification/CfLex.v ===== *)
(** * Words and numbers of configuration lines (src/cache_cf.c)

    The functions that read squid.conf take the words of a line one after
    the other with [strtok], whose state is the rest of the line, and convert
    them to numbers; what is not a number ends the process ([Exit]). *)

From Stdlib Require Import ZArith Lia.
From stdpp Require Import base list numbers option strings.
From S2P Require Import Prelude CStr HttpHeaderParse AclParse.
Import CStr AclParse.

Module CfLex.

(** ** Words *)

(** [strtok(NULL, sep)] with [rest] left of the line: the word, if there is
    one, and what is left behind the separator that ends it. *)
Definition strtok (sep rest : bytes) : option bytes * bytes :=
  let p := drop (strspn rest sep) rest in
  match p with
  | [] => (None, [])
  | _ => let n := strcspn p sep in (Some (take n p), drop (S n) p)
  end.

(** All words of the rest of a line, for functions that take them all. *)
Fixpoint words_from (fuel : nat) (rest : bytes) : list bytes :=
  match fuel with
  | O => []
  | S fuel =>
      match strtok HttpHeaderParse.w_space rest with
      | (None, _) => []
      | (Some t, rest) => t :: words_from fuel rest
      end
  end.

Definition words (rest : bytes) : list bytes := words_from (length rest) rest.

(** ** Digits of a base *)

Definition digit_value (c : Z) : option Z :=
  if isdigit c then Some (c - 48)
  else if (97 <=? c) && (c <=? 102) then Some (c - 87)
  else if (65 <=? c) && (c <=? 70) then Some (c - 55)
  else None.

Definition is_digit_in (base c : Z) : bool := match digit_value c with Some v => v <? base | None => false end.

(** The value of the first [n] bytes, which are digits. *)
Fixpoint value_in (base acc : Z) (p : bytes) : Z :=
  match p with
  | [] => acc
  | c :: p => value_in base (base * acc + default 0 (digit_value c)) p
  end.

(** The digits at the beginning, and what follows. *)
Definition digits_in (base : Z) (p : bytes) : bytes * bytes := let n := span (is_digit_in base) p in (take n p, drop n p).

(** White space and a sign. *)
Definition skip_sign (p : bytes) : bool * bytes :=
  let p := drop (span isspace p) p in
  if deref p =? 45 then (true, drop 1 p) else if deref p =? 43 then (false, drop 1 p) else (false, p).

(** "0x" and a character that may follow it. *)
Definition hex_prefix (ok : bytes -> bool) (p : bytes) : bool := (deref p =? 48) && (tolower (deref (drop 1 p)) =? 120) && ok (drop 2 p).

(** [strtol(p, &end, 0)]: [None] when there is no number ([end == p]). *)
Definition strtol0 (p : bytes) : option Z :=
  let '(neg, p) := skip_sign p in
  let '(base, p) := if hex_prefix (fun q => is_digit_in 16 (deref q)) p then (16, drop 2 p) else if deref p =? 48 then (8, p) else (10, p) in
  let '(ds, _) := digits_in base p in
  match ds with
  | [] => None
  | _ =>
      let v := value_in base 0 ds in
      Some (Z.max (- 2 ^ 63) (Z.min (2 ^ 63 - 1) (if neg : bool then - v else v)))
  end.

(** [strtod(p, NULL) > INT_MAX].  The text is [m * b ^ e] with a mantissa with
    or without a point, in base 10 or after "0x" in base 16 with an exponent
    of 2.  The double nearest to it is above [2^31 - 1] when the number is more
    than half of the distance [2^-22] of doubles above.  ("inf" and "nan" are
    left out: [strtol] finds no number there.) *)
Definition exponent (mark : Z) (p : bytes) : Z :=
  if tolower (deref p) =? mark then
    let q := drop 1 p in
    let '(neg, q) := if deref q =? 45 then (true, drop 1 q) else if deref q =? 43 then (false, drop 1 q) else (false, q) in
    let '(ds, _) := digits_in 10 q in
    let e := value_in 10 0 ds in if neg : bool then - e else e
  else 0.

Definition mantissa (base : Z) (p : bytes) : Z * Z * bytes :=
  let '(int, p) := digits_in base p in
  let '(frac, p) := if deref p =? 46 then digits_in base (drop 1 p) else ([], p) in
  (value_in base 0 (int ++ frac), Z.of_nat (length frac), p).

Definition above_int_max (m b e : Z) : bool :=
  let bound := (2 ^ 31 - 1) * 2 ^ 23 + 1 in
  if 0 <=? e then bound <? m * b ^ e * 2 ^ 23 else bound * b ^ (- e) <? m * 2 ^ 23.

Definition strtod_above_int_max (p : bytes) : bool :=
  let '(neg, p) := skip_sign p in
  if neg : bool then false
  else if hex_prefix (fun q => is_digit_in 16 (deref q) || ((deref q =? 46) && is_digit_in 16 (deref (drop 1 q)))) p then
    let '(m, f, rest) := mantissa 16 (drop 2 p) in above_int_max m 2 (exponent 112 rest - 4 * f)
  else
    let '(m, f, rest) := mantissa 10 p in above_int_max m 10 (exponent 101 rest - f).

(** ** The functions of the source *)

Definition GetInteger (rest : bytes) : res (Z * bytes) :=
  let '(token, rest) := strtok HttpHeaderParse.w_space rest in
  match token with
  | None => Exit
  | Some token =>
      match strtol0 token with
      | None => Exit
      | Some v => if strtod_above_int_max token then Exit else Ret (wrap_s 32 v, rest)
      end
  end.

Definition GetShort (rest : bytes) : res (Z * bytes) :=
  let '(token, rest) := strtok HttpHeaderParse.w_space rest in
  match token with
  | None => Exit
  | Some token => let? v := xatos token in Ret (v, rest)
  end.

(** [sscanf(token, "%d", &i) != 1] ends the process; the conversion is that of
    [strtol], stored in an int. *)
Definition scan_int (token : bytes) : res Z :=
  let r := strtol token in if (st_len r =? 0)%nat then Exit else Ret (wrap_s 32 (st_val r)).

(** ** What they return *)

Lemma xatol_cases t : xatol t = Exit \/ exists v, xatol t = Ret v.
Proof. unfold xatol. destruct (_ || _); eauto. Qed.

(** The result of [GetShort] is 16 bits wide. *)
Lemma GetShort_ok rest : GetShort rest = Exit \/ exists n r, GetShort rest = Ret (n, r) /\ 0 <= n < 65536.
Proof.
  unfold GetShort. destruct (strtok _ rest) as [[t|] r]; [|by left]. unfold xatos. destruct (xatol_cases t) as [->|[v ->]]; [by left|]. cbn [mbind res_bind].
  destruct (Z.eqb_spec (Z.land v (Z.lnot 65535)) 0) as [E|]; [|by left]. right. exists v, r. split; [done|].
  assert (v = Z.land v 65535) as Hv.
  { rewrite <- (Z.land_m1_r v) at 1. rewrite <- (Z.lor_lnot_diag 65535), Z.land_lor_distr_r, E. by rewrite Z.lor_0_r. }
  rewrite Hv. change 65535 with (Z.ones 16). rewrite Z.land_ones by lia. pose proof (Z.mod_pos_bound v (2 ^ 16)). lia.
Qed.

Lemma scan_int_ok t : scan_int t = Exit \/ exists v, scan_int t = Ret v /\ - 2 ^ 31 <= v < 2 ^ 31.
Proof. unfold scan_int. destruct (_ =? _)%nat; [by left|]. right. eexists. split; [done|]. apply (wrap_s_range 32). lia. Qed.

Lemma GetInteger_ok rest : GetInteger rest = Exit \/ exists v r, GetInteger rest = Ret (v, r) /\ - 2 ^ 31 <= v < 2 ^ 31.
Proof.
  unfold GetInteger. destruct (strtok _ rest) as [[t|] r]; [|by left]. destruct (strtol0 t) as [v|]; [|by left]. destruct (strtod_above_int_max t); [by left|].
  right. eexists _, _. split; [done|]. apply (wrap_s_range 32). lia.
Qed.

(** Numbers in the three bases, and numbers that are refused. *)
Example get_numbers :
  GetInteger (str " 64000/x 7") = Ret (64000, str "7") /\ GetInteger (str "0x10") = Ret (16, []) /\ GetInteger (str "010") = Ret (8, []) /\
  GetInteger (str "2147483647") = Ret (2147483647, []) /\ GetInteger (str "2147483648") = Exit /\ GetInteger (str "1e10") = Exit /\
  GetInteger (str "-1") = Ret (-1, []) /\ GetInteger (str "x") = Exit /\ GetInteger (str " ") = Exit /\
  GetShort (str "65535 1") = Ret (65535, str "1") /\ GetShort (str "65536") = Exit /\ GetShort (str "-1") = Exit /\ GetShort (str "7x") = Exit.
Proof. vm_compute. repeat split. Qed.

End CfLex.
