(* ===== verification/DelayConfig.v ===== *)
(** * The configuration of delay pools (src/cache_cf.c, src/delay_pools.c)

    [delay_pools] allocates the pools, [delay_class] one pool, and
    [delay_parameters] sets its rates and initialises it.  Store clients and
    tunnels keep the ids that they are given; where they are kept is entered
    in [delay_id_ptr_hash], so that a new configuration can set them to 0. *)

From Stdlib Require Import ZArith Lia.
From stdpp Require Import base strings gmap list numbers option.
From S2P Require Import Prelude CStr AclParse AclConfig CfLex DelayPools DelayClass3 DelayRate.
Import AclParse CfLex DelayPools DelayClass3 DelayRate.

Module DelayConfig.

(** [dhash]: the keys of [delay_id_ptr_hash], which are addresses of ids;
    [ids]: the ids in allocated memory. *)
Record dstate := mkD {
  dcfg : delayConfig;
  ddata : list (option delayPool);
  dhash : option (list positive);
  ids : gmap positive Z
}.

(** ** The ids in use *)

Definition delayInitDelayData (pools : Z) (s : dstate) : dstate :=
  if pools =? 0 then s else mkD (dcfg s) (repeat None (Z.to_nat pools)) (Some []) (ids s).

Definition delayIdZero (loc : positive) (m : gmap positive Z) : option (gmap positive Z) :=
  let? _ := m !! loc in Some (<[loc := 0]> m).

Fixpoint zero_all (l : list positive) (m : gmap positive Z) : option (gmap positive Z) :=
  match l with
  | [] => Some m
  | loc :: l => let? m := delayIdZero loc m in zero_all l m
  end.

Definition delayFreeDelayData (s : dstate) : option dstate :=
  match dhash s with
  | None => Some s
  | Some l => let? m := zero_all l (ids s) in Some (mkD (dcfg s) [] None m)
  end.

Definition delayRegisterDelayIdPtr (loc : positive) (s : dstate) : option dstate :=
  match dhash s with
  | None => Some s
  | Some l =>
      let? v := ids s !! loc in
      if v =? 0 then Some s else Some (mkD (dcfg s) (ddata s) (Some (loc :: l)) (ids s))
  end.

(** One entry with the key [loc]. *)
Fixpoint remove_one (loc : positive) (l : list positive) : option (list positive) :=
  match l with
  | [] => None
  | x :: l => if decide (x = loc) then Some l else let? l := remove_one loc l in Some (x :: l)
  end.

Definition delayUnregisterDelayIdPtr (loc : positive) (s : dstate) : option dstate :=
  match dhash s with
  | None => Some s
  | Some l =>
      let? v := ids s !! loc in
      if v =? 0 then Some s
      else let? l := remove_one loc l in Some (mkD (dcfg s) (ddata s) (Some l) (ids s))
  end.

Definition delaySetStoreClient (loc : positive) (id : Z) (s : dstate) : option dstate :=
  let? _ := ids s !! loc in
  delayRegisterDelayIdPtr loc (mkD (dcfg s) (ddata s) (dhash s) (<[loc := id]> (ids s))).

(** ** The lines of the configuration

    [rest] is what is left of the line behind its first word; the functions
    read their numbers from it as they come. *)

Fixpoint free_pools (n : nat) (i : Z) (cls : list Z) (data : list (option delayPool)) (rts : list (option delaySpecSet))
    : option (list (option delayPool) * list (option delaySpecSet)) :=
  match n with
  | O => Some (data, rts)
  | S n =>
      let? c := rd cls i in
      if c =? 0 then free_pools n (i + 1) cls data rts
      else
        let? data := delayFreeDelayPool data i in
        let? rts := wr rts i None in
        free_pools n (i + 1) cls data rts
  end.

Definition free_delay_pool_count (s : dstate) : option dstate :=
  let c := dcfg s in
  if pools c =? 0 then Some s
  else
    let? (data, rts) := free_pools (Z.to_nat (pools c)) 0 (class c) (ddata s) (rates c) in
    let? s := delayFreeDelayData (mkD (mkDelayConfig (pools c) (initial c) (class c) rts (access c)) data (dhash s) (ids s)) in
    Some (mkD (mkDelayConfig 0 0 [] [] []) (ddata s) (dhash s) (ids s)).

Definition parse_delay_pool_count (rest : bytes) (s : dstate) : res dstate :=
  let? s := of_option (if negb (pools (dcfg s) =? 0) then free_delay_pool_count s else Some s) in
  let? (n, _) := GetShort rest in
  let c := dcfg s in
  if n =? 0 then Ret (mkD (mkDelayConfig n (initial c) (class c) (rates c) (access c)) (ddata s) (dhash s) (ids s))
  else
    let s := delayInitDelayData n s in
    let k := Z.to_nat n in
    Ret (mkD (mkDelayConfig n (initial c) (repeat 0 k) (repeat None k) (repeat [] k)) (ddata s) (dhash s) (ids s)).

(** Rates of a class, all limits off. *)
Definition no_limit : delaySpec := mkSpec (-1) (-1).
Definition new_rates (cl : Z) : delaySpecSet :=
  mkRates no_limit (if 2 <=? cl then Some no_limit else None) (if 3 <=? cl then Some no_limit else None).

Definition parse_delay_pool_class (junk1 : class1DelayPool) (junk2 : class2DelayPool) (junk3 : class3DelayPool) (rest : bytes) (s : dstate) : res dstate :=
  let c := dcfg s in
  let? (pool, rest) := GetShort rest in
  if (pool <? 1) || (pools c <? pool) then Ret s
  else
    let? (cl, _) := GetShort rest in
    if (cl <? 1) || (3 <? cl) then Ret s
    else
      let pool := pool - 1 in
      of_option
        (let? old := rd (class c) pool in
         let? (data, rts) :=
           if negb (old =? 0) then
             let? data := delayFreeDelayPool (ddata s) pool in
             let? rts := wr (rates c) pool None in
             Some (data, rts)
           else Some (ddata s, rates c) in
         let? rts := wr rts pool (Some (new_rates cl)) in
         let? cls := wr (class c) pool cl in
         let? data := delayCreateDelayPool junk1 junk2 junk3 data pool cl in
         Some (mkD (mkDelayConfig (pools c) (initial c) cls rts (access c)) data (dhash s) (ids s))).

(** The pairs of numbers of the line, stored one after the other. *)
Fixpoint read_specs (n : nat) (rest : bytes) : res (list delaySpec) :=
  match n with
  | O => Ret []
  | S n =>
      let '(token, rest) := strtok [47] rest in
      match token with
      | None => Exit
      | Some token =>
          let? r := scan_int token in
          let? (m, rest) := GetInteger rest in
          let? l := read_specs n rest in
          Ret (mkSpec r m :: l)
      end
  end.

Definition store_specs (l : list delaySpec) : option delaySpecSet :=
  let? a := l !! 0%nat in Some (mkRates a (l !! 1%nat) (l !! 2%nat)).

Definition parse_delay_pool_rates (rest : bytes) (s : dstate) : res dstate :=
  let c := dcfg s in
  let? (pool, rest) := GetShort rest in
  if (pool <? 1) || (pools c <? pool) then Ret s
  else
    let pool := pool - 1 in
    let? cl := of_option (rd (class c) pool) in
    if cl =? 0 then Ret s
    else
      let? l := read_specs (Z.to_nat cl) rest in
      of_option
        (let? sp := store_specs l in
         let sp := if cl =? 3 then mkRates (r_aggregate sp) (r_network sp) (r_individual sp) else sp in
         let? rts := wr (rates c) pool (Some sp) in
         let? data := delayInitDelayPool (initial c) (ddata s) pool cl sp in
         Some (mkD (mkDelayConfig (pools c) (initial c) (class c) rts (access c)) data (dhash s) (ids s))).

Definition parse_delay_pool_access (aclList : list acl) (rest : bytes) (s : dstate) : res dstate :=
  let c := dcfg s in
  let? (pool, rest) := GetShort rest in
  if (pool <? 1) || (pools c <? pool) then Ret s
  else
    let? A := of_option (rd (access c) (pool - 1)) in
    let? A := aclParseAccessLine aclList A (words rest) in
    let? ac := of_option (wr (access c) (pool - 1) A) in
    Ret (mkD (mkDelayConfig (pools c) (initial c) (class c) (rates c) ac) (ddata s) (dhash s) (ids s)).

(** [parse_ushort] of delay_initial_bucket_level. *)
Definition parse_initial (rest : bytes) (s : dstate) : res dstate :=
  let c := dcfg s in
  let? (v, _) := GetShort rest in
  Ret (mkD (mkDelayConfig (pools c) v (class c) (rates c) (access c)) (ddata s) (dhash s) (ids s)).

(** Lines of the configuration, as texts, and what the clients do.  [junk] is
    what the memory of a new pool holds. *)
Inductive event :=
  | Pools (rest : bytes)
  | PoolClass (junk1 : class1DelayPool) (junk2 : class2DelayPool) (junk3 : class3DelayPool) (rest : bytes)
  | Parameters (rest : bytes)
  | Access (aclList : list acl) (rest : bytes)
  | InitialLevel (rest : bytes)
  | NewClient (loc : positive)
  | Assign (loc : positive) (id : Z)
  | FreeClient (loc : positive).

(** A client that changes its id, or is freed, unregisters it first. *)
Definition handle (e : event) (s : dstate) : res dstate :=
  match e with
  | Pools rest => parse_delay_pool_count rest s
  | PoolClass j1 j2 j3 rest => parse_delay_pool_class j1 j2 j3 rest s
  | Parameters rest => parse_delay_pool_rates rest s
  | Access aclList rest => parse_delay_pool_access aclList rest s
  | InitialLevel rest => parse_initial rest s
  | NewClient loc => Ret (mkD (dcfg s) (ddata s) (dhash s) (<[loc := 0]> (ids s)))
  | Assign loc id => of_option (let? s := delayUnregisterDelayIdPtr loc s in delaySetStoreClient loc id s)
  | FreeClient loc => of_option (let? s := delayUnregisterDelayIdPtr loc s in Some (mkD (dcfg s) (ddata s) (dhash s) (delete loc (ids s))))
  end.

Fixpoint handle_all (l : list event) (s : dstate) : res dstate :=
  match l with
  | [] => Ret s
  | e :: l => let? s := handle e s in handle_all l s
  end.

(** ** What is configured

    Each pool has a class, rates and, once it is initialised, a level; each
    client has an id. *)
Record pool_conf := mkConf { pc_class : Z; pc_rates : delaySpecSet; pc_level : option Z }.

Record aconf := mkA {
  a_initial : Z;
  a_pools : list (option pool_conf);
  a_access : list (list acl_access);
  a_ids : gmap positive Z
}.

Definition set_pool (k : Z) (p : pool_conf) (A : aconf) : aconf := mkA (a_initial A) (<[Z.to_nat (k - 1) := Some p]> (a_pools A)) (a_access A) (a_ids A).

Definition in_range (k : Z) (A : aconf) : bool := (1 <=? k) && (k <=? Z.of_nat (length (a_pools A))).

(** The numbers of a line: [None] where the process ends. *)
Definition number (rest : bytes) : option (Z * bytes) := match GetShort rest with Ret x => Some x | _ => None end.

(** A pair [restore/max], and what follows. *)
Definition pair_of (rest : bytes) : option (Z * Z * bytes) :=
  let '(token, rest) := strtok [47] rest in
  let? token := token in
  match scan_int token, GetInteger rest with
  | Ret r, Ret (m, rest) => Some (r, m, rest)
  | _, _ => None
  end.

Fixpoint pairs_of (n : nat) (rest : bytes) : option (list (Z * Z)) :=
  match n with
  | O => Some []
  | S n => let? (r, m, rest) := pair_of rest in let? l := pairs_of n rest in Some ((r, m) :: l)
  end.

(** The rates of a line: all clients, the network, the host. *)
Definition rates_of (cl : Z) (nums : list (Z * Z)) : option delaySpecSet :=
  let spec '(r, m) := mkSpec r m in
  match nums with
  | a :: rest =>
      if cl =? 1 then Some (mkRates (spec a) None None)
      else match rest with
           | b :: rest =>
               if cl =? 2 then Some (mkRates (spec a) (Some (spec b)) None)
               else match rest with
                    | c :: _ => Some (mkRates (spec a) (Some (spec c)) (Some (spec b)))
                    | [] => None
                    end
           | [] => None
           end
  | [] => None
  end.

(** [None]: the process ends. *)
Definition a_handle (e : event) (A : aconf) : option aconf :=
  match e with
  | Pools rest =>
      let? (n, _) := number rest in
      let old := a_pools A in
      let k := Z.to_nat n in
      Some (mkA (if old is [] then a_initial A else 0) (repeat None k) (repeat [] k) (if old is [] then a_ids A else (fun _ => 0) <$> a_ids A))
  | PoolClass _ _ _ rest =>
      let? (k, rest) := number rest in
      if in_range k A then
        let? (cl, _) := number rest in
        Some (if (1 <=? cl) && (cl <=? 3) then set_pool k (mkConf cl (new_rates cl) None) A else A)
      else Some A
  | Parameters rest =>
      let? (k, rest) := number rest in
      if in_range k A then
        match mjoin (a_pools A !! Z.to_nat (k - 1)) with
        | None => Some A
        | Some p =>
            let? nums := pairs_of (Z.to_nat (pc_class p)) rest in
            let? sp := rates_of (pc_class p) nums in
            Some (set_pool k (mkConf (pc_class p) sp (Some (Z.quot (max_bytes (r_aggregate sp) * a_initial A) 100))) A)
        end
      else Some A
  | Access aclList rest =>
      let? (k, rest) := number rest in
      if in_range k A then
        let? rules := a_access A !! Z.to_nat (k - 1) in
        match aclParseAccessLine aclList rules (words rest) with
        | Ret rules => Some (mkA (a_initial A) (a_pools A) (<[Z.to_nat (k - 1) := rules]> (a_access A)) (a_ids A))
        | _ => None
        end
      else Some A
  | InitialLevel rest => let? (v, _) := number rest in Some (mkA v (a_pools A) (a_access A) (a_ids A))
  | NewClient loc => Some (mkA (a_initial A) (a_pools A) (a_access A) (<[loc := 0]> (a_ids A)))
  | Assign loc id => Some (mkA (a_initial A) (a_pools A) (a_access A) (<[loc := id]> (a_ids A)))
  | FreeClient loc => Some (mkA (a_initial A) (a_pools A) (a_access A) (delete loc (a_ids A)))
  end.

Fixpoint a_handle_all (l : list event) (A : aconf) : option aconf :=
  match l with
  | [] => Some A
  | e :: l => let? A := a_handle e A in a_handle_all l A
  end.

(** ** The invariant *)

Definition conf_class (o : option pool_conf) : Z := match o with Some p => pc_class p | None => 0 end.
Definition conf_rates (o : option pool_conf) : option delaySpecSet := pc_rates <$> o.

(** The memory of a pool. *)
Definition pool_matches (o : option pool_conf) (d : option delayPool) : Prop :=
  match o with
  | None => d = None
  | Some c => exists p, d = Some p /\ class_of p = pc_class c /\ sizes p /\ rates_for (pc_class c) (pc_rates c) /\
      match pc_level c with Some v => Rep p (mkAp v ∅ ∅) | None => True end
  end.

(** The table has exactly the ids that are not 0. *)
Definition registered (m : gmap positive Z) (l : list positive) : Prop :=
  NoDup l /\ forall loc, loc ∈ l <-> exists v, m !! loc = Some v /\ v <> 0.

Record conf_inv (s : dstate) (A : aconf) : Prop := {
  ci_cfg : dcfg s = mkDelayConfig (Z.of_nat (length (a_pools A))) (a_initial A) (conf_class <$> a_pools A) (conf_rates <$> a_pools A) (a_access A);
  ci_access : length (a_access A) = length (a_pools A);
  ci_initial : 0 <= a_initial A <= 100;
  ci_data : Forall2 pool_matches (a_pools A) (ddata s);
  ci_ids : ids s = a_ids A;
  ci_hash : match dhash s with
            | None => a_pools A = [] /\ forall loc v, a_ids A !! loc = Some v -> v = 0
            | Some l => a_pools A <> [] /\ registered (a_ids A) l
            end
}.

(** The memory of a pool has the size of its class, the initial level is a
    percentage (the code does not check it), addresses of ids are those of
    clients that exist, and ids are given out only when there are pools. *)
Definition event_ok (A : aconf) (e : event) : Prop :=
  match e with
  | Pools _ | Parameters _ | Access _ _ => True
  | PoolClass j1 j2 j3 _ => sizes (Class2 j2) /\ sizes (Class3 j3)
  | InitialLevel rest => forall v r, number rest = Some (v, r) -> 0 <= v <= 100
  | NewClient loc => a_ids A !! loc = None
  | Assign loc id => is_Some (a_ids A !! loc) /\ (a_pools A = [] -> id = 0)
  | FreeClient loc => is_Some (a_ids A !! loc)
  end.

Fixpoint events_ok (A : aconf) (l : list event) : Prop :=
  match l with
  | [] => True
  | e :: l => event_ok A e /\ forall A', a_handle e A = Some A' -> events_ok A' l
  end.

(** ** Ids *)

Lemma zero_all_ok l : forall m, NoDup l -> (forall loc, loc ∈ l -> is_Some (m !! loc)) ->
  exists m', zero_all l m = Some m' /\ forall loc, m' !! loc = if decide (loc ∈ l) then Some 0 else m !! loc.
Proof.
  induction l as [|x l IH]; intros m Hn Hd; [by exists m|]. apply list.NoDup_cons in Hn as [Hx Hn]. cbn [zero_all]. unfold delayIdZero.
  destruct (Hd x) as [v ->]; [by left|]. bind_simpl. destruct (IH (<[x := 0]> m) Hn) as (m' & -> & Hm').
  { intros loc Hl. destruct (decide (loc = x)) as [->|]; [rewrite lookup_insert_eq; eauto|]. rewrite lookup_insert_ne by done. apply Hd. by right. }
  exists m'. split; [done|]. intros loc. rewrite Hm'. destruct (decide (loc = x)) as [->|Hne].
  - rewrite decide_False, lookup_insert_eq, decide_True by (done || by left). done.
  - rewrite lookup_insert_ne by done. destruct (decide (loc ∈ l)); [rewrite decide_True by (by right); done|]. rewrite decide_False; [done|]. by intros [->|]%elem_of_cons.
Qed.

(** All ids become 0. *)
Lemma zero_registered m l : registered m l -> zero_all l m = Some ((fun _ => 0) <$> m).
Proof.
  intros [Hn Hr]. destruct (zero_all_ok l m Hn) as (m' & -> & Hm'); [intros loc (v & Hv & _)%Hr; eauto|]. f_equal. apply map_eq. intros loc. rewrite Hm', lookup_fmap.
  destruct (decide (loc ∈ l)) as [(v & -> & _)%Hr|Hl]; [done|]. destruct (m !! loc) as [v|] eqn:E; [|done]. cbn. destruct (decide (v = 0)) as [->|Hv]; [done|].
  destruct Hl. apply Hr. by exists v.
Qed.

Lemma remove_one_ok loc l : NoDup l -> loc ∈ l -> exists l', remove_one loc l = Some l' /\ NoDup l' /\ forall x, x ∈ l' <-> x ∈ l /\ x <> loc.
Proof.
  induction l as [|y l IH]; intros Hn Hl; [by apply not_elem_of_nil in Hl|]. apply list.NoDup_cons in Hn as [Hy Hn]. cbn [remove_one]. destruct (decide (y = loc)) as [->|Hne].
  - exists l. split; [done|]. split; [done|]. intros x. rewrite elem_of_cons. split; [intros Hx; split; [by right|by intros ->]|]. intros [[->|Hx] Hx']; done.
  - apply elem_of_cons in Hl as [->|Hl]; [done|]. destruct (IH Hn Hl) as (l' & -> & Hn' & Hl'). bind_simpl. exists (y :: l'). split; [done|].
    split; [apply list.NoDup_cons; split; [intros [? _]%Hl'; done|done]|]. intros x. rewrite !elem_of_cons. pose proof (Hl' x). naive_solver.
Qed.

(** After it is unregistered, [loc] is not in the table, whatever its id. *)
Definition unregistered (m : gmap positive Z) (loc : positive) (l : list positive) : Prop :=
  NoDup l /\ forall x, x ∈ l <-> x <> loc /\ exists v, m !! x = Some v /\ v <> 0.

Lemma unregister_ok s A loc : conf_inv s A -> is_Some (a_ids A !! loc) ->
  exists h, delayUnregisterDelayIdPtr loc s = Some (mkD (dcfg s) (ddata s) h (ids s)) /\
    match h with
    | None => dhash s = None
    | Some l => a_pools A <> [] /\ unregistered (a_ids A) loc l
    end.
Proof.
  intros [_ _ _ _ Hi Hh] [v Hv]. destruct s as [c d h m]; cbn [ids dhash dcfg ddata] in *. subst m. unfold delayUnregisterDelayIdPtr; cbn [ids dhash dcfg ddata]. rewrite Hv.
  destruct h as [l|]; [|by exists None]. destruct Hh as [Hne [Hn Hr]]. bind_simpl.
  destruct (Z.eqb_spec v 0) as [->|Hv0].
  - exists (Some l). split; [done|]. split; [done|]. split; [done|]. intros x. rewrite Hr. split; [|naive_solver]. intros (w & Hw & Hw0). split; [congruence|eauto].
  - destruct (remove_one_ok loc l Hn) as (l' & -> & Hn' & Hl'); [apply Hr; eauto|]. exists (Some l'). split; [done|]. split; [done|]. split; [done|].
    intros x. rewrite Hl', Hr. naive_solver.
Qed.

Lemma assign_ok s A loc id : conf_inv s A -> is_Some (a_ids A !! loc) -> (a_pools A = [] -> id = 0) ->
  exists s', (let? s := delayUnregisterDelayIdPtr loc s in delaySetStoreClient loc id s) = Some s' /\
    conf_inv s' (mkA (a_initial A) (a_pools A) (a_access A) (<[loc := id]> (a_ids A))).
Proof.
  intros Hs Hl Hid. destruct (unregister_ok s A loc Hs Hl) as (h & -> & Hh). bind_simpl. destruct Hs as [H1 H2 H3 H4 Hi Hd]. destruct Hl as [v Hv].
  unfold delaySetStoreClient. cbn [ids]. rewrite Hi, Hv. bind_simpl. unfold delayRegisterDelayIdPtr. cbn [ids dhash dcfg ddata]. rewrite lookup_insert_eq.
  destruct h as [l|].
  - destruct Hh as [Hne [Hn Hr]]. bind_simpl. destruct (Z.eqb_spec id 0) as [->|Hid0]; (eexists; split; [done|]; constructor; cbn; try done; split; [done|]).
    + split; [done|]. intros x. rewrite Hr. destruct (decide (x = loc)) as [->|Hx]; [rewrite lookup_insert_eq|rewrite lookup_insert_ne by done]; naive_solver.
    + split; [apply list.NoDup_cons; split; [intros [? _]%Hr; done|done]|]. intros x. rewrite elem_of_cons, Hr.
      destruct (decide (x = loc)) as [->|Hx]; [rewrite lookup_insert_eq|rewrite lookup_insert_ne by done]; naive_solver.
  - rewrite Hh in Hd. destruct Hd as [Hp Hz]. eexists. split; [done|]. constructor; cbn; try done. split; [done|]. intros x w. rewrite lookup_insert_Some.
    intros [(_ & <-)|[_ Hw]]; [by apply Hid|by apply (Hz x)].
Qed.

Lemma free_client_ok s A loc : conf_inv s A -> is_Some (a_ids A !! loc) ->
  exists s', (let? s := delayUnregisterDelayIdPtr loc s in Some (mkD (dcfg s) (ddata s) (dhash s) (delete loc (ids s)))) = Some s' /\
    conf_inv s' (mkA (a_initial A) (a_pools A) (a_access A) (delete loc (a_ids A))).
Proof.
  intros Hs Hl. destruct (unregister_ok s A loc Hs Hl) as (h & -> & Hh). bind_simpl. destruct Hs as [H1 H2 H3 H4 Hi Hd]. eexists. split; [done|].
  constructor; cbn; try done; [by rewrite Hi|]. destruct h as [l|].
  - destruct Hh as [Hne [Hn Hr]]. split; [done|]. split; [done|]. intros x. rewrite Hr. setoid_rewrite lookup_delete_Some. naive_solver.
  - rewrite Hh in Hd. destruct Hd as [Hp Hz]. split; [done|]. intros x w. rewrite lookup_delete_Some. intros [_ Hw]. by apply (Hz x).
Qed.

(** ** Pools *)

Lemma conf_lookup s A k : conf_inv s A -> in_range k A = true ->
  exists o d, a_pools A !! Z.to_nat (k - 1) = Some o /\ ddata s !! Z.to_nat (k - 1) = Some d /\ pool_matches o d.
Proof.
  intros [_ _ _ Hd _ _] Hk. unfold in_range in Hk. zify_bools. destruct (lookup_lt_is_Some_2 (a_pools A) (Z.to_nat (k - 1))) as [o Ho]; [lia|].
  destruct (Forall2_lookup_l _ _ _ _ _ Hd Ho) as (d & Hdk & Hm). by exists o, d.
Qed.

Lemma in_range_test s A k : conf_inv s A -> (k <? 1) || (pools (dcfg s) <? k) = negb (in_range k A).
Proof. intros [Hc _ _ _ _ _]. rewrite Hc. cbn. unfold in_range. destruct (Z.ltb_spec k 1), (Z.leb_spec 1 k); try lia; destruct (Z.ltb_spec (Z.of_nat (length (a_pools A))) k), (Z.leb_spec k (Z.of_nat (length (a_pools A)))); try lia; done. Qed.

(** The memory and the rates of a pool are replaced. *)
Lemma set_pool_inv s A k p d : conf_inv s A -> in_range k A = true -> pool_matches (Some p) (Some d) ->
  conf_inv (mkD (mkDelayConfig (pools (dcfg s)) (initial (dcfg s)) (<[Z.to_nat (k - 1) := pc_class p]> (class (dcfg s))) (<[Z.to_nat (k - 1) := Some (pc_rates p)]> (rates (dcfg s))) (access (dcfg s)))
    (<[Z.to_nat (k - 1) := Some d]> (ddata s)) (dhash s) (ids s)) (set_pool k p A).
Proof.
  intros [Hc Ha Hi Hd Hids Hh] Hk Hm. constructor; cbn [a_pools a_initial a_access a_ids set_pool dcfg ddata dhash ids]; try done.
  - rewrite Hc. cbn. by rewrite length_insert, !list_fmap_insert.
  - by rewrite length_insert.
  - by apply Forall2_insert.
  - destruct (dhash s); [|destruct Hh as [Hp ?]; unfold in_range in Hk; rewrite Hp in Hk; cbn in Hk; zify_bools; lia]. destruct Hh as [Hne Hr]. split; [|done].
    intros Hn. apply (f_equal length) in Hn. rewrite length_insert in Hn. by destruct (a_pools A).
Qed.

Lemma pool_index k A : in_range k A = true -> k - 1 = Z.of_nat (Z.to_nat (k - 1)) /\ (Z.to_nat (k - 1) < length (a_pools A))%nat.
Proof. unfold in_range. intros H. zify_bools. lia. Qed.

Lemma new_rates_for cl : 1 <= cl <= 3 -> rates_for cl (new_rates cl).
Proof. intros H. unfold rates_for, new_rates. cbn. destruct (Z.leb_spec 2 cl), (Z.leb_spec 3 cl); lia. Qed.

(** A number of a line, for the code and for the description. *)
Ltac read_number rest :=
  let n := fresh "n" in let r := fresh "r" in let H := fresh "Hn" in
  unfold number; destruct (GetShort_ok rest) as [->|(n & r & -> & H)]; cbn [mbind res_bind option_bind]; [done|].

Lemma class_line_ok s A j1 j2 j3 rest : conf_inv s A -> sizes (Class2 j2) -> sizes (Class3 j3) ->
  match parse_delay_pool_class j1 j2 j3 rest s, a_handle (PoolClass j1 j2 j3 rest) A with
  | Ret s', Some A' => conf_inv s' A'
  | Exit, None => True
  | _, _ => False
  end.
Proof.
  intros Hs Hj2 Hj3. unfold parse_delay_pool_class. cbn [a_handle]. read_number rest. rename n into k. rewrite (in_range_test s A k Hs).
  destruct (in_range k A) eqn:Hk; cbn [negb]; [|done]. read_number r. rename n into cl.
  destruct ((cl <? 1) || (3 <? cl)) eqn:Ecl.
  { destruct (Z.leb_spec 1 cl), (Z.leb_spec cl 3); try done. apply orb_true_iff in Ecl as [?|?]; zify_bools; lia. }
  zify_bools. assert ((1 <=? cl) && (cl <=? 3) = true) as -> by lia.
  pose proof (fun p d => set_pool_inv s A k p d Hs Hk) as Hset. destruct (conf_lookup s A k Hs Hk) as (o & d & Ho & Hdk & Hm). destruct (pool_index k A Hk) as [-> Hlen].
  rewrite Nat2Z.id in *. set (i := Z.to_nat (k - 1)) in *. pose proof Hs as [Hc Hac _ Hd _ _].
  pose proof (Forall2_length Hd) as Hdl. assert (class (dcfg s) !! i = Some (conf_class o)) as Hcl by (rewrite Hc; cbn; by rewrite list_lookup_fmap, Ho).
  assert (length (rates (dcfg s)) = length (a_pools A) /\ length (class (dcfg s)) = length (a_pools A)) as [Hrl Hcll] by (rewrite Hc; cbn; by rewrite !length_fmap).
  rewrite (rd_nat (class (dcfg s))), Hcl. bind_simpl.
  assert (exists d', delayCreateDelayPool j1 j2 j3 (ddata s) (Z.of_nat i) cl = Some (<[i := Some d']> (ddata s)) /\ pool_matches (Some (mkConf cl (new_rates cl) None)) (Some d') /\
    delayCreateDelayPool j1 j2 j3 (<[i := None]> (ddata s)) (Z.of_nat i) cl = Some (<[i := Some d']> (ddata s))) as (d' & Ed1 & Hd' & Ed2).
  { pose proof (new_rates_for cl ltac:(lia)). unfold delayCreateDelayPool. destruct (Z.eqb_spec cl 1) as [->|]; [|destruct (Z.eqb_spec cl 2) as [->|]; [|destruct (Z.eqb_spec cl 3) as [->|]; [|lia]]];
      rewrite !wr_nat, list_insert_insert_eq by (rewrite ?length_insert; lia); (eexists; split; [done|]; split; [|done]; eexists; split; [done|]; done). }
  specialize (Hset _ _ Hd'). cbn [pc_class pc_rates] in Hset. destruct o as [c|]; cbn [conf_class].
  - destruct Hm as (p & -> & Hpc & _). destruct (Z.eqb_spec (pc_class c) 0) as [E|_]; [rewrite E in Hpc; by destruct p|]. cbn [negb].
    unfold delayFreeDelayPool, get_pool. rewrite (rd_nat (ddata s)), Hdk. bind_simpl. repeat (rewrite wr_nat by (rewrite ?length_insert; lia); bind_simpl). rewrite Ed2, list_insert_insert_eq. bind_simpl. exact Hset.
  - cbn [Z.eqb negb]. rewrite wr_nat by lia. bind_simpl. rewrite wr_nat by lia. bind_simpl. rewrite Ed1. bind_simpl. exact Hset.
Qed.

(** The rates that a line sets. *)
Lemma read_specs_pairs n : forall rest,
  match read_specs n rest, pairs_of n rest with
  | Ret l, Some nums => l = (fun '(r, m) => mkSpec r m) <$> nums /\ length nums = n /\ Forall (fun p => int_range p.1 /\ int_range p.2) nums
  | Exit, None => True
  | _, _ => False
  end.
Proof.
  induction n as [|n IH]; intros rest; cbn [read_specs pairs_of]; [done|]. unfold pair_of. destruct (strtok [47] rest) as [[t|] rest1]; [|done]. cbn [mbind option_bind].
  destruct (scan_int_ok t) as [->|(r & -> & Hr)]; [done|]. destruct (GetInteger_ok rest1) as [->|(m & rest2 & -> & Hm)]; [done|]. cbn [mbind res_bind option_bind].
  specialize (IH rest2). destruct (read_specs n rest2) as [l| |], (pairs_of n rest2) as [nums|]; try done. cbn [mbind res_bind option_bind].
  destruct IH as (-> & <- & Hn). split; [done|]. split; [done|]. rewrite List.Forall_cons_iff. split; [|done]. unfold int_range, INT_MAX. cbn. lia.
Qed.

Lemma read_rates cl nums : 1 <= cl <= 3 -> length nums = Z.to_nat cl ->
  exists sp, store_specs ((fun '(r, m) => mkSpec r m) <$> nums) = Some sp /\
    rates_of cl nums = Some (if cl =? 3 then mkRates (r_aggregate sp) (r_network sp) (r_individual sp) else sp).
Proof.
  intros Hcl Hl. assert (cl = 1 \/ cl = 2 \/ cl = 3) as [->|[->| ->]] by lia; (destruct nums as [|[a b] [|[c d] [|[e f] [|? ?]]]]; try done; (eexists; split; done)).
Qed.

Lemma rates_of_for cl nums sp : 1 <= cl <= 3 -> rates_of cl nums = Some sp -> rates_for cl sp /\ exists r m rest, nums = (r, m) :: rest /\ r_aggregate sp = mkSpec r m.
Proof.
  intros Hcl. assert (cl = 1 \/ cl = 2 \/ cl = 3) as [->|[->| ->]] by lia; destruct nums as [|[a b] [|[c d] [|[e f] nums]]]; cbn; try done; intros [= <-]; (split; [done|]); eauto.
Qed.

Lemma rates_line_ok s A rest : conf_inv s A ->
  match parse_delay_pool_rates rest s, a_handle (Parameters rest) A with
  | Ret s', Some A' => conf_inv s' A'
  | Exit, None => True
  | _, _ => False
  end.
Proof.
  intros Hs. unfold parse_delay_pool_rates. cbn [a_handle]. read_number rest. rename n into k. clear Hn. rewrite (in_range_test s A k Hs). destruct (in_range k A) eqn:Hk; cbn [negb]; [|done].
  pose proof (fun p d => set_pool_inv s A k p d Hs Hk) as Hset. destruct (conf_lookup s A k Hs Hk) as (o & d & Ho & Hdk & Hm). destruct (pool_index k A Hk) as [-> Hlen].
  rewrite !Nat2Z.id in *. set (i := Z.to_nat (k - 1)) in *. pose proof Hs as [Hc Hac Hi Hd _ _].
  pose proof (Forall2_length Hd) as Hdl. assert (class (dcfg s) !! i = Some (conf_class o)) as Hcl by (rewrite Hc; cbn; by rewrite list_lookup_fmap, Ho).
  assert (length (rates (dcfg s)) = length (a_pools A) /\ initial (dcfg s) = a_initial A) as [Hrl Hin] by (rewrite Hc; cbn; by rewrite !length_fmap).
  rewrite (rd_nat (class (dcfg s))), Hcl, Ho. cbn [of_option mbind res_bind mjoin option_join]. destruct o as [c|]; cbn [conf_class]; [|done].
  destruct Hm as (p & -> & Hpc & Hsz & _). assert (1 <= pc_class c <= 3) as Hc13 by (rewrite <- Hpc; by destruct p). destruct (Z.eqb_spec (pc_class c) 0); [lia|].
  pose proof (read_specs_pairs (Z.to_nat (pc_class c)) r) as Hrr. destruct (read_specs (Z.to_nat (pc_class c)) r) as [l| |], (pairs_of (Z.to_nat (pc_class c)) r) as [nums|]; try done.
  destruct Hrr as (-> & Hnl & Hn). destruct (read_rates (pc_class c) nums Hc13 Hnl) as (sp0 & Esp & Er). cbn [mbind res_bind option_bind].
  rewrite Er. cbn [mbind res_bind option_bind]. rewrite Esp. bind_simpl. set (sp := if pc_class c =? 3 then _ else sp0) in *.
  destruct (rates_of_for _ _ _ Hc13 Er) as (Hrf & rb & m & more & -> & Hagg). rewrite List.Forall_cons_iff in Hn. destruct Hn as [[_ Hmr] _]. cbn [snd] in Hmr.
  rewrite wr_nat by lia. bind_simpl. unfold delayInitDelayPool, get_pool. rewrite (rd_nat (ddata s)), Hdk. bind_simpl. rewrite Hin.
  destruct (init_pool_ok (a_initial A) p (pc_class c) sp Hpc Hsz Hi) as (p' & -> & Hpc' & Hsz' & Hrep); [by rewrite Hagg|]. bind_simpl. rewrite wr_nat by lia. bind_simpl.
  cbn [of_option]. specialize (Hset (mkConf (pc_class c) sp (Some (Z.quot (max_bytes (r_aggregate sp) * a_initial A) 100))) p'). rewrite Hin in Hset.
  cbn [pc_class pc_rates] in Hset. rewrite (list_insert_id (class (dcfg s)) i (pc_class c)) in Hset by done. apply Hset. exists p'. done.
Qed.

Lemma free_pools_ok cls os n : forall (i : nat) data rts, (i + n = length os)%nat -> cls = conf_class <$> os -> length rts = length os -> length data = length os ->
  (forall k o, (i <= k)%nat -> os !! k = Some o -> exists d, data !! k = Some d /\ pool_matches o d) ->
  exists data' rts', free_pools n (Z.of_nat i) cls data rts = Some (data', rts').
Proof.
  induction n as [|n IH]; intros i data rts Hl Hcls Hr Hd Hm; cbn [free_pools]; [by exists data, rts|]. destruct (lookup_lt_is_Some_2 os i) as [o Ho]; [lia|].
  rewrite (rd_nat cls), Hcls, list_lookup_fmap, Ho. cbn [fmap option_fmap option_map mbind option_bind]. replace (Z.of_nat i + 1) with (Z.of_nat (S i)) by lia.
  destruct (Hm i o ltac:(lia) Ho) as (d & Hdi & Hod). destruct (Z.eqb_spec (conf_class o) 0) as [Ec|Ec].
  - rewrite <- Hcls. apply IH; [lia|done|done|done|]. intros k o' Hk. apply Hm. lia.
  - destruct o as [c|]; [|done]. destruct Hod as (p & -> & _). unfold delayFreeDelayPool, get_pool. rewrite (rd_nat data), Hdi. bind_simpl.
    rewrite wr_nat by lia. bind_simpl. rewrite wr_nat by lia. bind_simpl. rewrite <- Hcls. apply IH; [lia|done|by rewrite length_insert|by rewrite length_insert|].
    intros k o' Hk Ho'. rewrite list_lookup_insert_ne by lia. apply Hm; [lia|done].
Qed.

Lemma repeat_replicate {X} n (x : X) : repeat x n = replicate n x.
Proof. induction n; cbn; congruence. Qed.

Lemma pools_line_ok s A rest : conf_inv s A ->
  match parse_delay_pool_count rest s, a_handle (Pools rest) A with
  | Ret s', Some A' => conf_inv s' A'
  | Exit, None => True
  | _, _ => False
  end.
Proof.
  intros Hs. pose proof Hs as [Hc Hac Hi Hd Hids Hh]. unfold parse_delay_pool_count.
  assert (exists s1, (if negb (pools (dcfg s) =? 0) then free_delay_pool_count s else Some s) = Some s1 /\
    conf_inv s1 (mkA (if a_pools A is [] then a_initial A else 0) [] [] (if a_pools A is [] then a_ids A else (fun _ => 0) <$> a_ids A))) as (s1 & -> & Hs1).
  { rewrite Hc. cbn [pools]. destruct (a_pools A) as [|o os] eqn:Eos; [exists s; split; [done|]; destruct (a_access A) eqn:Ea; [|done]; destruct A as [a1 a2 a3 a4]; cbn in *; subst a2 a3; exact Hs|].
    destruct (Z.eqb_spec (Z.of_nat (length (o :: os))) 0) as [E|_]; [cbn in E; lia|]. cbn [negb]. unfold free_delay_pool_count. rewrite Hc. cbn [pools class rates access initial].
    destruct (Z.eqb_spec (Z.of_nat (length (o :: os))) 0) as [E|_]; [cbn in E; lia|]. rewrite Nat2Z.id.
    destruct (free_pools_ok (conf_class <$> o :: os) (o :: os) (length (o :: os)) 0 (ddata s) (conf_rates <$> o :: os)) as (data' & rts' & Ef); try done.
    { by rewrite length_fmap. } { symmetry. by eapply Forall2_length. } { intros k o' _ Ho'. destruct (Forall2_lookup_l _ _ _ _ _ Hd Ho') as (d & ? & ?). eauto. }
    change (Z.of_nat 0) with 0 in Ef. rewrite Ef. bind_simpl. unfold delayFreeDelayData. cbn [dhash ids dcfg ddata]. destruct (dhash s) as [l|]; [|by destruct Hh].
    destruct Hh as [_ Hr]. rewrite Hids, (zero_registered _ _ Hr). bind_simpl. eexists. split; [done|]. constructor; cbn; try done. split; [done|].
    intros loc v. rewrite lookup_fmap_Some. by intros (w & <- & _). }
  cbn [of_option mbind res_bind a_handle]. read_number rest. destruct Hs1 as [Hc1 Hac1 Hi1 Hd1 Hids1 Hh1]. cbn [a_pools a_initial a_access a_ids] in *. rewrite Hc1. cbn [initial class rates access pools].
  destruct (Z.eqb_spec n 0) as [->|Hn0].
  - by constructor.
  - unfold delayInitDelayData. destruct (Z.eqb_spec n 0); [done|]. cbn [ddata dhash ids dcfg]. rewrite !repeat_replicate.
    constructor; cbn [a_pools a_initial a_access a_ids dcfg ddata dhash ids]; rewrite ?length_replicate; try done.
    + rewrite !fmap_replicate. cbn. rewrite Z2Nat.id by lia. done.
    + by apply Forall2_replicate.
    + split; [destruct (Z.to_nat n) eqn:E; [lia|done]|]. split; [constructor|]. intros loc. rewrite elem_of_nil. split; [done|]. destruct (dhash s1); [by destruct Hh1|].
      destruct Hh1 as [_ Hz]. intros (v & Hv & Hv0). by apply Hv0, (Hz loc).
Qed.

Lemma access_line_ok s A aclList rest : conf_inv s A ->
  match parse_delay_pool_access aclList rest s, a_handle (Access aclList rest) A with
  | Ret s', Some A' => conf_inv s' A'
  | Exit, None => True
  | _, _ => False
  end.
Proof.
  intros Hs. unfold parse_delay_pool_access. cbn [a_handle]. read_number rest. rename n into k. generalize (words r). intros line. rewrite (in_range_test s A k Hs). destruct (in_range k A) eqn:Hk; cbn [negb]; [|done].
  destruct (pool_index k A Hk) as [-> Hlen]. rewrite !Nat2Z.id. set (i := Z.to_nat (k - 1)) in *. pose proof Hs as [Hc Hac Hi Hd Hids Hh]. rewrite Hc. cbn [access pools initial class rates].
  rewrite (rd_nat (a_access A)). destruct (lookup_lt_is_Some_2 (a_access A) i) as [ru Hr]; [lia|]. rewrite Hr. cbn [of_option mbind res_bind option_bind].
  assert (aclParseAccessLine aclList ru line <> Undef) as Hu.
  { destruct line as [|w line]; [done|]. cbn [aclParseAccessLine]. destruct (negb _); [done|]. pose proof (AclConfig.AclConfig.acl_refs_ok aclList line) as Hr'. unfold aclParseAclList.
    destruct (acl_refs aclList line) as [x| |]; try done. cbn. by destruct x. }
  destruct (aclParseAccessLine aclList ru line) as [r'| |]; try done. cbn [mbind res_bind]. rewrite wr_nat by lia. cbn. constructor; cbn; try done. by rewrite length_insert.
Qed.

Lemma handle_ok s A e : conf_inv s A -> event_ok A e ->
  match handle e s, a_handle e A with
  | Ret s', Some A' => conf_inv s' A'
  | Exit, None => True
  | _, _ => False
  end.
Proof.
  intros Hs He. destruct e as [rest|j1 j2 j3 rest|rest|acls rest|rest|loc|loc id|loc]; cbn [handle event_ok] in *.
  - by apply pools_line_ok.
  - destruct He as [H2 H3]. by apply class_line_ok.
  - by apply rates_line_ok.
  - by apply access_line_ok.
  - unfold parse_initial. cbn [a_handle]. unfold number in *. destruct (GetShort_ok rest) as [->|(v & r & E & Hv)]; [done|]. rewrite E in *. cbn [mbind res_bind option_bind].
    destruct Hs as [Hc Hac Hi Hd Hids Hh]. constructor; cbn; try done; [by rewrite Hc|by apply (He v r)].
  - destruct Hs as [Hc Hac Hi Hd Hids Hh]. cbn [a_handle]. constructor; cbn; try done; [by rewrite Hids|]. destruct (dhash s) as [l|].
    + destruct Hh as [Hne [Hn Hr]]. split; [done|]. split; [done|]. intros x. rewrite Hr. setoid_rewrite lookup_insert_Some. naive_solver congruence.
    + destruct Hh as [Hp Hz]. split; [done|]. intros x v. rewrite lookup_insert_Some. intros [(_ & <-)|[_ Hv]]; [done|by apply (Hz x)].
  - destruct He as [H1 H2]. by destruct (assign_ok s A loc id Hs H1 H2) as (s' & -> & H).
  - by destruct (free_client_ok s A loc Hs He) as (s' & -> & H).
Qed.

Lemma handle_all_ok l : forall s A, conf_inv s A -> events_ok A l ->
  match handle_all l s, a_handle_all l A with
  | Ret s', Some A' => conf_inv s' A'
  | Exit, None => True
  | _, _ => False
  end.
Proof.
  induction l as [|e l IH]; intros s A Hs Hl; cbn [handle_all a_handle_all]; [done|]. destruct Hl as [He Hl]. pose proof (handle_ok s A e Hs He) as H.
  destruct (handle e s) as [s'| |], (a_handle e A) as [A'|]; try done. cbn [mbind res_bind option_bind]. apply IH; [done|by apply Hl].
Qed.

(** Pools that are all initialised are those that the theorems on rates are
    about. *)
Definition fresh_pool (o : option pool_conf) : apool := mkAp (default 0 (let? p := o in pc_level p)) ∅ ∅.

Definition all_initialised (A : aconf) : Prop := Forall (fun o => match o with Some p => is_Some (pc_level p) | None => True end) (a_pools A).

Lemma conf_data_ok s A : conf_inv s A -> all_initialised A -> Z.of_nat (length (a_pools A)) < 65535 -> data_ok (dcfg s) (ddata s) (fresh_pool <$> a_pools A).
Proof.
  intros [Hc Hac Hi Hd Hids Hh] Ha Hn. apply data_ok_lookup. rewrite Hc. cbn [pools class]. rewrite !length_fmap. split; [lia|]. split; [done|]. split; [symmetry; by eapply Forall2_length|].
  split; [by eapply Forall2_length|]. intros k o a Ho. rewrite list_lookup_fmap. destruct (a_pools A !! k) as [c|] eqn:Ec; [|done]. intros [= <-] cl. cbn [class rates].
  rewrite !list_lookup_fmap, Ec. intros [= <-] Hcl. destruct c as [c|]; [|done]. destruct (Forall2_lookup_lr _ _ _ _ _ _ Hd Ec Ho) as (p & -> & Hpc & _ & Hrf & Hl).
  exists p, (pc_rates c). do 4 (split; [done|]). unfold all_initialised in Ha. rewrite List.Forall_forall in Ha. destruct (Ha (Some c)) as [v Hv]; [apply list_elem_of_In; by eapply list_elem_of_lookup_2|].
  rewrite Hv in Hl. unfold fresh_pool. cbn. by rewrite Hv.
Qed.

Definition empty_state : dstate := mkD (mkDelayConfig 0 50 [] [] []) [] None ∅.
Definition empty_conf : aconf := mkA 50 [] [] ∅.

Lemma empty_inv : conf_inv empty_state empty_conf.
Proof. by constructor. Qed.

(** C17. Reading the configuration of delay pools from the text of its lines,
    while clients come and go: lines set what they say of the pools in range,
    lines for other pools and classes are ignored, and a line ends the process
    exactly where one of its numbers cannot be read (missing, not a number, too
    large) or where an access list is wrong; no assertion fails and no array is
    left.  A reconfiguration sets the id of every client that exists to 0 and
    touches no freed memory, and the table has exactly the clients whose id is
    not 0.  If every pool that was given a class has then got its parameters
    too, and there are fewer than 65535 pools, the pools are fit for use: each
    has the initial level and no clients, whatever the memory held before.  (A pool with a class and no parameters
    is not.)  The initial level is assumed to be the percentage that it is
    documented to be. *)
Theorem delay_config_read l :
  events_ok empty_conf l ->
  match handle_all l empty_state, a_handle_all l empty_conf with
  | Ret s, Some A => conf_inv s A /\
      (all_initialised A -> Z.of_nat (length (a_pools A)) < 65535 -> data_ok (dcfg s) (ddata s) (fresh_pool <$> a_pools A))
  | Exit, None => True
  | _, _ => False
  end.
Proof.
  intros Hl. pose proof (handle_all_ok l _ _ empty_inv Hl) as H. destruct (handle_all l empty_state), (a_handle_all l empty_conf); try done.
  split; [done|]. by apply conf_data_ok.
Qed.

(** Two pools; the second gets rates without a class, which is ignored. *)
Definition wit_junk3 : class3DelayPool := mkC3 0 0 (replicate 256 7) 9 (replicate 256 0) (replicate 256 0) (replicate 256 (replicate 256 3)) (replicate 32 0)
  (concat (replicate 256 (replicate 256 0))) (concat (replicate 256 (replicate 256 0))).
Definition wit_junk2 : class2DelayPool := mkC2 0 0 (replicate 256 7) 9 (replicate 256 0) (replicate 256 0).

Definition wit_lines (j2 : class2DelayPool) (j3 : class3DelayPool) : list event :=
  [Pools (str "2"); PoolClass (mkC1 0 0) j2 j3 (str "1 2"); Parameters (str "1 1000/2000 100/200"); Parameters (str "2 5/5");
   NewClient 1; Assign 1 65536; Pools (str "1"); PoolClass (mkC1 0 0) j2 j3 (str "1 3"); InitialLevel (str "50");
   Parameters (str "1 1000/2000 500/600 100/200");
   NewClient 2; Assign 2 65540; FreeClient 2].

Definition wit_events : list event := wit_lines wit_junk2 wit_junk3.

Lemma wit_sizes : sizes (Class2 wit_junk2) /\ sizes (Class3 wit_junk3).
Proof.
  split; [done|]. cbn [sizes]. do 4 (split; [done|]). split; [|split; vm_compute; reflexivity].
  intros i m Hm. apply lookup_replicate_1 in Hm as [-> _]. done.
Qed.

Lemma delay_config_read_witness : match handle_all wit_events empty_state with
  | Ret s => ids s = {[ 1%positive := 0 ]} /\ dhash s = Some [] /\ data_ok (dcfg s) (ddata s) [mkAp 1000 ∅ ∅]
  | _ => False
  end.
Proof.
  assert (events_ok empty_conf wit_events) as Hok.
  { unfold wit_events. generalize wit_sizes. generalize wit_junk2, wit_junk3. intros j2 j3 Hj. assert (forall e l A A', event_ok A e -> a_handle e A = Some A' -> events_ok A' l -> events_ok A (e :: l)) as Hcons
      by (intros e l A A' H1 H2 H3; split; [exact H1|]; intros A'' H4; rewrite H2 in H4; injection H4 as <-; exact H3).
    unfold wit_lines.
    repeat match goal with |- events_ok _ (_ :: _) => eapply Hcons; [cbn [event_ok]|vm_compute; reflexivity|] end.
    all: match goal with
         | |- True => exact I
         | |- events_ok _ [] => exact I
         | |- sizes _ /\ _ => exact Hj
         | |- forall v r, _ => intros v r Hv; vm_compute in Hv; injection Hv as <- <-; lia
         | |- _ !! _ = None => vm_compute; reflexivity
         | |- is_Some _ /\ _ => split; [vm_compute; eexists; reflexivity|discriminate]
         | |- is_Some _ => vm_compute; eexists; reflexivity
         end. }
  pose proof (delay_config_read wit_events Hok) as H.
  assert (exists A, a_handle_all wit_events empty_conf = Some A /\ a_ids A = {[ 1%positive := 0 ]} /\ fresh_pool <$> a_pools A = [mkAp 1000 ∅ ∅] /\ all_initialised A) as (A & EA & E1 & E2 & E3).
  { eexists. split; [vm_compute; reflexivity|]. split; [vm_compute; reflexivity|]. split; [vm_compute; reflexivity|]. apply List.Forall_cons; [vm_compute; eexists; reflexivity|]. apply List.Forall_nil. }
  rewrite EA in H. destruct (handle_all wit_events empty_state) as [s| |]; [|exact H|exact H]. destruct H as [Hinv Hdata]. rewrite E2 in Hdata.
  split; [rewrite (ci_ids _ _ Hinv); exact E1|]. split; [|apply Hdata; [exact E3|]; apply (f_equal length) in E2; rewrite length_fmap in E2; cbn in E2; lia].
  pose proof (ci_hash _ _ Hinv) as Hh. destruct (dhash s) as [l|].
  - destruct Hh as [_ [_ Hr]]. destruct l as [|x l]; [reflexivity|]. exfalso. destruct (proj1 (Hr x)) as (v & Hv & Hv0); [left|]. rewrite E1 in Hv. apply lookup_singleton_Some in Hv as [_ <-]. exact (Hv0 eq_refl).
  - destruct Hh as [Hp _]. apply (f_equal (fmap fresh_pool)) in Hp. rewrite E2 in Hp. discriminate Hp.
Defined.

End DelayConfig.
