(* ===== verification/Store.v ===== *)
(** * The storage manager: keys, locks and releases (src/store.c)

    Entries are found by their keys in [store_table].  A key is private, known
    to the owner of the entry only, or public.  Whoever uses an entry holds a
    lock; an entry whose last lock is gone is kept in memory, or given up but
    for its place on disk, or released.  A release that finds the entry in use
    only marks it, and gives it a private key.

    The entries are a memory indexed by address; [None] is a failed assertion
    or the use of an entry that was freed.  [store_table] is the list of its
    links, the last one joined first, as HashTable.v shows lookups to see it.
    The memory policy is the list of its members (ReplLru.v and ReplHeap.v
    have the policies); that a reference moves an entry within the policies is
    left out.  [swaplog] is what [storeDirSwapLog] was given, [unlinked] what
    [storeUnlink] was.  Replies with a Vary header (src/store_vary.c), shutting
    down, the shared memory cache and HTCP are left out.

    Fetching the object of an entry, its clients and its swap file are in
    StorePump.v; here they are seen by the locks they hold. *)

From Stdlib Require Import ZArith Lia Ascii String.
From stdpp Require Import base gmap strings list numbers option fin_maps.
From S2P Require Import Prelude CStr StoreEntry HttpMethod StoreKey.
Import StoreEntry.

Module Store.

Abbreviation key := bytes.

(** What an object is public under. *)
Inductive name :=
| ByUrl (u : bytes) (m : option HttpMethod.method_t)
| ByRequest (r : StoreKey.request_key).

(** What the store needs of src/store_key_md5.c; private keys are told apart
    for numbers below [key_limit]. *)
Class StoreKeys := {
  key_limit : Z;
  storeKeyPrivate : bytes -> option HttpMethod.method_t -> Z -> option key;
  storeKeyPublic : bytes -> option HttpMethod.method_t -> option key;
  storeKeyPublicByRequest : StoreKey.request_key -> option key
}.

Definition key_of `{StoreKeys} (n : name) : option key :=
  match n with ByUrl u m => storeKeyPublic u m | ByRequest r => storeKeyPublicByRequest r end.

(** Keys are told apart, for the URLs [P] of private and the names [K] of public objects. *)
Class StoreKeyLaws `{StoreKeys} (P : bytes -> option HttpMethod.method_t -> Prop) (K : name -> Prop) := {
  limit_ok : key_limit <= 2 ^ 31;
  private_some : forall u m i, P u m -> 0 < i < key_limit -> exists k, storeKeyPrivate u m i = Some k;
  public_some : forall n, K n -> exists k, key_of n = Some k;
  private_id : forall u m i u' m' i' k, P u m -> P u' m' -> 0 < i < key_limit -> 0 < i' < key_limit -> storeKeyPrivate u m i = Some k -> storeKeyPrivate u' m' i' = Some k -> i = i';
  private_public : forall u m i n k, P u m -> K n -> 0 < i < key_limit -> storeKeyPrivate u m i = Some k -> key_of n <> Some k
}.

Inductive mem_status_t := NOT_IN_MEMORY | IN_MEMORY.

#[global] Instance mem_status_eq_dec : EqDecision mem_status_t.
Proof. solve_decision. Defined.

(** [head]: [data_hdr.head] is not NULL; [sio]: [swapout.sio] is not NULL *)
Record MemObject := mkMem {
  url : bytes;
  store_url : option bytes;
  method : option HttpMethod.method_t;
  request : option StoreKey.request_key;
  id : Z;
  head : bool;
  inmem_lo : Z;
  sio : bool;
  nclients : nat;
  ims_entry : option positive;
  old_entry : option positive
}.

Record entry := mkE {
  hkey : option key;
  mem_obj : option MemObject;
  expires : Z;
  lastref : Z;
  swap_filen : Z;
  lock_count : Z;
  mem_status : mem_status_t;
  store_status : store_status_t;
  swap_status : swap_status_t;
  SPECIAL : bool;
  CACHABLE : bool;
  RELEASE_REQUEST : bool;
  PRIVATE : bool;
  EARLY_PUBLIC : bool
}.

Record store := mkS {
  entries : gmap positive entry;
  table : list (key * positive);
  key_counter : Z;
  hot : list positive;
  hot_obj_count : Z;
  late : list positive;
  rebuilding : bool;
  curtime : Z;
  swaplog : list (bool * Z);
  unlinked : list Z
}.

Definition set_entries (m : gmap positive entry) (s : store) : store :=
  mkS m (table s) (key_counter s) (hot s) (hot_obj_count s) (late s) (rebuilding s) (curtime s) (swaplog s) (unlinked s).
Definition set_table (t : list (key * positive)) (s : store) : store :=
  mkS (entries s) t (key_counter s) (hot s) (hot_obj_count s) (late s) (rebuilding s) (curtime s) (swaplog s) (unlinked s).
Definition set_counter (n : Z) (s : store) : store :=
  mkS (entries s) (table s) n (hot s) (hot_obj_count s) (late s) (rebuilding s) (curtime s) (swaplog s) (unlinked s).
Definition set_hot (l : list positive) (n : Z) (s : store) : store :=
  mkS (entries s) (table s) (key_counter s) l n (late s) (rebuilding s) (curtime s) (swaplog s) (unlinked s).
Definition set_late (l : list positive) (s : store) : store :=
  mkS (entries s) (table s) (key_counter s) (hot s) (hot_obj_count s) l (rebuilding s) (curtime s) (swaplog s) (unlinked s).
Definition set_log (l : list (bool * Z)) (s : store) : store :=
  mkS (entries s) (table s) (key_counter s) (hot s) (hot_obj_count s) (late s) (rebuilding s) (curtime s) l (unlinked s).
Definition set_unlinked (l : list Z) (s : store) : store :=
  mkS (entries s) (table s) (key_counter s) (hot s) (hot_obj_count s) (late s) (rebuilding s) (curtime s) (swaplog s) l.
Definition set_rebuilding (b : bool) (s : store) : store :=
  mkS (entries s) (table s) (key_counter s) (hot s) (hot_obj_count s) (late s) b (curtime s) (swaplog s) (unlinked s).
Definition set_time (t : Z) (s : store) : store :=
  mkS (entries s) (table s) (key_counter s) (hot s) (hot_obj_count s) (late s) (rebuilding s) t (swaplog s) (unlinked s).

Definition set_key (k : option key) (p : bool) (e : entry) : entry :=
  mkE k (mem_obj e) (expires e) (lastref e) (swap_filen e) (lock_count e) (mem_status e) (store_status e) (swap_status e) (SPECIAL e) (CACHABLE e) (RELEASE_REQUEST e) p (EARLY_PUBLIC e).
Definition set_mem (m : option MemObject) (e : entry) : entry :=
  mkE (hkey e) m (expires e) (lastref e) (swap_filen e) (lock_count e) (mem_status e) (store_status e) (swap_status e) (SPECIAL e) (CACHABLE e) (RELEASE_REQUEST e) (PRIVATE e) (EARLY_PUBLIC e).
Definition set_expires (t : Z) (e : entry) : entry :=
  mkE (hkey e) (mem_obj e) t (lastref e) (swap_filen e) (lock_count e) (mem_status e) (store_status e) (swap_status e) (SPECIAL e) (CACHABLE e) (RELEASE_REQUEST e) (PRIVATE e) (EARLY_PUBLIC e).
Definition set_lastref (t : Z) (e : entry) : entry :=
  mkE (hkey e) (mem_obj e) (expires e) t (swap_filen e) (lock_count e) (mem_status e) (store_status e) (swap_status e) (SPECIAL e) (CACHABLE e) (RELEASE_REQUEST e) (PRIVATE e) (EARLY_PUBLIC e).
Definition set_locks (n : Z) (e : entry) : entry :=
  mkE (hkey e) (mem_obj e) (expires e) (lastref e) (swap_filen e) n (mem_status e) (store_status e) (swap_status e) (SPECIAL e) (CACHABLE e) (RELEASE_REQUEST e) (PRIVATE e) (EARLY_PUBLIC e).
Definition set_mem_status (m : mem_status_t) (e : entry) : entry :=
  mkE (hkey e) (mem_obj e) (expires e) (lastref e) (swap_filen e) (lock_count e) m (store_status e) (swap_status e) (SPECIAL e) (CACHABLE e) (RELEASE_REQUEST e) (PRIVATE e) (EARLY_PUBLIC e).
Definition set_store_status (st : store_status_t) (e : entry) : entry :=
  mkE (hkey e) (mem_obj e) (expires e) (lastref e) (swap_filen e) (lock_count e) (mem_status e) st (swap_status e) (SPECIAL e) (CACHABLE e) (RELEASE_REQUEST e) (PRIVATE e) (EARLY_PUBLIC e).
Definition set_swap (fn : Z) (st : swap_status_t) (e : entry) : entry :=
  mkE (hkey e) (mem_obj e) (expires e) (lastref e) fn (lock_count e) (mem_status e) (store_status e) st (SPECIAL e) (CACHABLE e) (RELEASE_REQUEST e) (PRIVATE e) (EARLY_PUBLIC e).
Definition set_flags (c r : bool) (e : entry) : entry :=
  mkE (hkey e) (mem_obj e) (expires e) (lastref e) (swap_filen e) (lock_count e) (mem_status e) (store_status e) (swap_status e) (SPECIAL e) c r (PRIVATE e) (EARLY_PUBLIC e).
Definition set_early (b : bool) (e : entry) : entry :=
  mkE (hkey e) (mem_obj e) (expires e) (lastref e) (swap_filen e) (lock_count e) (mem_status e) (store_status e) (swap_status e) (SPECIAL e) (CACHABLE e) (RELEASE_REQUEST e) (PRIVATE e) b.

Definition set_id (i : Z) (m : MemObject) : MemObject :=
  mkMem (url m) (store_url m) (method m) (request m) i (head m) (inmem_lo m) (sio m) (nclients m) (ims_entry m) (old_entry m).
Definition set_request (r : option StoreKey.request_key) (m : MemObject) : MemObject :=
  mkMem (url m) (store_url m) (method m) r (id m) (head m) (inmem_lo m) (sio m) (nclients m) (ims_entry m) (old_entry m).
Definition set_links (i o : option positive) (m : MemObject) : MemObject :=
  mkMem (url m) (store_url m) (method m) (request m) (id m) (head m) (inmem_lo m) (sio m) (nclients m) i o.
Definition set_data (h : bool) (lo : Z) (m : MemObject) : MemObject :=
  mkMem (url m) (store_url m) (method m) (request m) (id m) h lo (sio m) (nclients m) (ims_entry m) (old_entry m).
Definition set_sio (b : bool) (m : MemObject) : MemObject :=
  mkMem (url m) (store_url m) (method m) (request m) (id m) (head m) (inmem_lo m) b (nclients m) (ims_entry m) (old_entry m).
Definition set_nclients (n : nat) (m : MemObject) : MemObject :=
  mkMem (url m) (store_url m) (method m) (request m) (id m) (head m) (inmem_lo m) (sio m) n (ims_entry m) (old_entry m).

Definition pending (e : entry) : bool := match store_status e with STORE_PENDING => true | STORE_OK => false end.
Definition writing (e : entry) : bool := match swap_status e with SWAPOUT_WRITING => true | _ => false end.
Definition done_ (e : entry) : bool := match swap_status e with SWAPOUT_DONE => true | _ => false end.

(** [e->field = ...] *)
Definition upd (a : positive) (f : entry -> entry) (s : store) : option store :=
  let? e := entries s !! a in Some (set_entries (<[a := f e]> (entries s)) s).

(** ** The table *)

Definition hash_lookup (k : key) (s : store) : option positive := snd <$> List.find (fun p => bool_decide (p.1 = k)) (table s).

Definition storeGet (k : key) (s : store) : option positive := hash_lookup k s.

Definition storeHashInsert (a : positive) (k : key) (p : bool) (s : store) : option store :=
  let? s := upd a (set_key (Some k) p) s in Some (set_table ((k, a) :: table s) s).

(** [hash_remove_link] does not find a link that is not there. *)
Definition storeHashDelete (a : positive) (s : store) : option store :=
  let? e := entries s !! a in
  assert? bool_decide (a ∈ (table s).*2) in
  upd a (set_key None (PRIVATE e)) (set_table (filter (fun p => p.2 <> a) (table s)) s).

Section operations.
Context `{StoreKeys}.

(** [++key_counter] *)
Definition getKeyCounter (s : store) : Z * store :=
  let n := wrap_s 32 (key_counter s + 1) in
  let n := if n <? 0 then 1 else n in
  (n, set_counter n s).

Definition is_some {A} (x : option A) : bool := match x with None => false | Some _ => true end.

Definition storeDirSwapLog (add : bool) (a : positive) (s : store) : option store :=
  let? e := entries s !! a in Some (set_log ((add, swap_filen e) :: swaplog s) s).

Definition JUNK : bytes := str "JUNK".
Definition NONE : option HttpMethod.method_t := HttpMethod.urlMethodGetKnown (str "NONE") 4.

Definition storeSetPrivateKey (a : positive) (s : store) : option store :=
  let? e := entries s !! a in
  if is_some (hkey e) && PRIVATE e then Some s
  else
    let? s := if is_some (hkey e) then
                let? s := if -1 <? swap_filen e then storeDirSwapLog false a s else Some s in
                storeHashDelete a s
              else Some s in
    let '(n, s) := getKeyCounter s in
    let? s := if is_some (mem_obj e) then upd a (fun e => set_mem (set_id n <$> mem_obj e) e) s else Some s in
    let? newkey := match mem_obj e with
                   | Some mem => storeKeyPrivate (url mem) (method mem) n
                   | None => storeKeyPrivate JUNK NONE n
                   end in
    assert? negb (is_some (hash_lookup newkey s)) in
    storeHashInsert a newkey true s.

Definition storeReleaseRequest (a : positive) (s : store) : option store :=
  let? e := entries s !! a in
  if RELEASE_REQUEST e then Some s
  else
    let? s := upd a (set_flags false true) s in
    storeSetPrivateKey a s.

Definition storeExpireNow (a : positive) (s : store) : option store := upd a (set_expires (curtime s)) s.

Definition storeSetMemStatus (a : positive) (new_status : mem_status_t) (s : store) : option store :=
  let? e := entries s !! a in
  if bool_decide (mem_status e = new_status) then Some s
  else
    let? mem := mem_obj e in
    let? s := match new_status with
              | IN_MEMORY =>
                  assert? inmem_lo mem =? 0 in
                  Some (set_hot (if SPECIAL e then hot s else a :: hot s) (hot_obj_count s + 1) s)
              | NOT_IN_MEMORY =>
                  assert? SPECIAL e || bool_decide (a ∈ hot s) in
                  Some (set_hot (if SPECIAL e then hot s else filter (fun b => b <> a) (hot s)) (hot_obj_count s - 1) s)
              end in
    upd a (set_mem_status new_status) s.

Definition storeEntryLocked (e : entry) : bool :=
  if negb (lock_count e =? 0) then true
  else if writing e then true
  else if pending e then true
  else SPECIAL e && negb (PRIVATE e).

Definition storeKeepInMemory (e : entry) : bool :=
  match mem_obj e with None => false | Some mem => head mem && (inmem_lo mem =? 0) end.

Definition storeLockObject (a : positive) (s : store) : option store :=
  upd a (fun e => set_lastref (curtime s) (set_locks (wrap_u 16 (lock_count e + 1)) e)) s.

(** [unlock]: [storeUnlockObject] *)
Definition destroy_MemObject (unlock : positive -> store -> option store) (a : positive) (s : store) : option store :=
  let? e := entries s !! a in
  let? mem := mem_obj e in
  let? s := upd a (set_mem None) s in
  assert? negb (sio mem) in
  let? s := match ims_entry mem with Some b => unlock b s | None => Some s end in
  match old_entry mem with Some b => unlock b s | None => Some s end.

Definition destroy_StoreEntry (unlock : positive -> store -> option store) (a : positive) (s : store) : option store :=
  let? e := entries s !! a in
  let? s := if is_some (mem_obj e) then destroy_MemObject unlock a s else Some s in
  let? s := storeHashDelete a s in
  Some (set_entries (delete a (entries s)) s).

Definition storeRelease_with (unlock : positive -> store -> option store) (a : positive) (s : store) : option store :=
  let? e := entries s !! a in
  if storeEntryLocked e then
    let? s := storeExpireNow a s in
    storeReleaseRequest a s
  else
    let? (go, s) :=
      if rebuilding s && (-1 <? swap_filen e) then
        let? s := storeSetPrivateKey a s in
        let? s := if is_some (mem_obj e) then
                    let? s := storeSetMemStatus a NOT_IN_MEMORY s in
                    destroy_MemObject unlock a s
                  else Some s in
        let? e := entries s !! a in
        if -1 <? swap_filen e then
          let? s := upd a (fun e => set_flags (CACHABLE e) true (set_locks (wrap_u 16 (lock_count e + 1)) e)) s in
          Some (false, set_late (a :: late s) s)
        else
          let? s := destroy_StoreEntry unlock a s in Some (true, s)
      else Some (true, s) in
    if negb go then Some s
    else
      let? e := entries s !! a in
      let? s := if -1 <? swap_filen e then
                  let s := set_unlinked (swap_filen e :: unlinked s) s in
                  if negb (PRIVATE e) then storeDirSwapLog false a s else Some s
                else Some s in
      let? s := storeSetMemStatus a NOT_IN_MEMORY s in
      destroy_StoreEntry unlock a s.

Definition storePurgeMem_with (unlock : positive -> store -> option store) (a : positive) (s : store) : option store :=
  let? e := entries s !! a in
  if is_some (mem_obj e) then
    let? s := storeSetMemStatus a NOT_IN_MEMORY s in
    let? s := destroy_MemObject unlock a s in
    let? e := entries s !! a in
    if negb (done_ e) then storeRelease_with unlock a s else Some s
  else Some s.

(** Each entry that is given up on the way gives up its references. *)
Fixpoint unlock_fuel (fuel : nat) (a : positive) (s : store) : option store :=
  match fuel with
  | O => None
  | S fuel =>
      let? s := upd a (fun e => set_locks (wrap_u 16 (lock_count e - 1)) e) s in
      let? e := entries s !! a in
      if negb (lock_count e =? 0) then Some s
      else
        let? s := if pending e then upd a (fun e => set_flags (CACHABLE e) true e) s else Some s in
        let? e := entries s !! a in
        assert? match mem_obj e with None => true | Some mem => (nclients mem =? 0)%nat end in
        if RELEASE_REQUEST e then storeRelease_with (unlock_fuel fuel) a s
        else if storeKeepInMemory e then
          let? s := storeSetMemStatus a IN_MEMORY s in
          upd a (fun e => set_mem (set_request None <$> mem_obj e) e) s
        else
          let? s := storePurgeMem_with (unlock_fuel fuel) a s in
          let? _ := entries s !! a in
          Some s
  end.

Definition fuel (s : store) : nat := S (size (entries s)).

Definition storeUnlockObject (a : positive) (s : store) : option store := unlock_fuel (fuel s) a s.
Definition storeRelease (a : positive) (s : store) : option store := storeRelease_with (unlock_fuel (fuel s)) a s.
Definition storePurgeMem (a : positive) (s : store) : option store := storePurgeMem_with (unlock_fuel (fuel s)) a s.

Definition storeLookupUrl (m : MemObject) : bytes := default (url m) (store_url m).

(** For an object that does not vary. *)
Definition name_of (m : MemObject) : name :=
  match request m with
  | Some r => ByRequest r
  | None => ByUrl (storeLookupUrl m) (method m)
  end.

Definition no_vary (r : StoreKey.request_key) : StoreKey.request_key :=
  StoreKey.mkRq (StoreKey.store_url r) (StoreKey.canonical r) None (StoreKey.vary_encoding r) (StoreKey.urlgroup r) (StoreKey.rq_method r).

Definition storeSetPublicKey (a : positive) (s : store) : option store :=
  let? e := entries s !! a in
  let? (go, s) :=
    if is_some (hkey e) && negb (PRIVATE e) then
      if EARLY_PUBLIC e then
        let? s := upd a (set_early false) s in
        let? s := storeSetPrivateKey a s in Some (true, s)
      else Some (false, s)
    else Some (true, s) in
  if negb go then Some s
  else
    let? e := entries s !! a in
    assert? is_some (mem_obj e) in
    assert? negb (RELEASE_REQUEST e) in
    let? s := upd a (fun e => set_mem ((fun m => set_request (no_vary <$> request m) m) <$> mem_obj e) e) s in
    let? e := entries s !! a in
    let? mem := mem_obj e in
    let? newkey := key_of (name_of mem) in
    let? (newkey, s) :=
      match hash_lookup newkey s with
      | Some b =>
          let? s := storeSetPrivateKey b s in
          let? s := storeRelease b s in
          let? e := entries s !! a in
          let? mem := mem_obj e in
          let? newkey := key_of (name_of mem) in
          Some (newkey, s)
      | None => Some (newkey, s)
      end in
    let? e := entries s !! a in
    let? s := if is_some (hkey e) then storeHashDelete a s else Some s in
    let? s := storeHashInsert a newkey false s in
    if -1 <? swap_filen e then storeDirSwapLog true a s else Some s.

(** [a]: the address of the new entry *)
Definition storeCreateEntry (a : positive) (u : bytes) (m : option HttpMethod.method_t) (private_keys cachable : bool) (s : store) : option store :=
  let mem := mkMem u None m None 0 false 0 false 0 None None in
  let e := mkE None (Some mem) (-1) (-1) (-1) 1 NOT_IN_MEMORY STORE_OK SWAPOUT_NONE false false false false false in
  let s := set_entries (<[a := e]> (entries s)) s in
  let? s := if private_keys then storeSetPrivateKey a s else storeSetPublicKey a s in
  let? s := if cachable then upd a (set_flags true false) s
            else let? s := upd a (fun e => set_flags false (RELEASE_REQUEST e) e) s in storeReleaseRequest a s in
  let? s := upd a (set_store_status STORE_PENDING) s in
  let? s := storeSetMemStatus a NOT_IN_MEMORY s in
  upd a (fun e => set_lastref (curtime s) (set_swap (-1) SWAPOUT_NONE e)) s.

Fixpoint late_loop (n : nat) (s : store) : option store :=
  match n with
  | O => Some s
  | S n =>
      match late s with
      | [] => Some s
      | a :: l => let? s := storeUnlockObject a (set_late l s) in late_loop n s
      end
  end.

Definition storeLateRelease (s : store) : option store := if rebuilding s then Some s else late_loop 10 s.

(** [walk]: the entries that the purge walker of the memory policy comes
    across until there is enough memory; it passes over those in use. *)
Fixpoint storeGetMemSpace (walk : list positive) (s : store) : option store :=
  match walk with
  | [] => Some s
  | a :: walk =>
      let? s := match entries s !! a with
                | Some e => if bool_decide (a ∈ hot s) && negb (storeEntryLocked e) then storePurgeMem a s else Some s
                | None => Some s
                end in
      storeGetMemSpace walk s
  end.

(** ** Other parts of the cache *)

(** src/store_client.c; what else a client does when it goes is in StorePump.v. *)
Definition storeClientRegister (a : positive) (s : store) : option store :=
  let? e := entries s !! a in
  assert? is_some (mem_obj e) in
  let? s := upd a (fun e => set_mem ((fun m => set_nclients (S (nclients m)) m) <$> mem_obj e) e) s in
  storeLockObject a s.

Definition storeClientUnregister (a : positive) (s : store) : option store :=
  let? e := entries s !! a in
  let? mem := mem_obj e in
  if (nclients mem =? 0)%nat then Some s
  else
    let? s := upd a (set_mem (Some (set_nclients (pred (nclients mem)) mem))) s in
    storeUnlockObject a s.

(** src/store_swapout.c; [fn]: the file number if [storeCreate] returns a file *)
Definition storeSwapOutStart (a : positive) (fn : option Z) (s : store) : option store :=
  let? e := entries s !! a in
  assert? is_some (mem_obj e) in
  let? s := upd a (fun e => set_swap (swap_filen e) SWAPOUT_WRITING e) s in
  match fn with
  | None => upd a (fun e => set_swap (swap_filen e) SWAPOUT_NONE e) s
  | Some fn =>
      let? s := upd a (fun e => set_mem (set_sio true <$> mem_obj e) e) s in
      let? s := storeLockObject a s in
      upd a (fun e => set_swap fn (swap_status e) e) s
  end.

(** [cachable]: the answer of [storeCheckCachable], which asks for the release
    of the entry if it is negative *)
Definition storeSwapOutFileClosed (a : positive) (err cachable : bool) (s : store) : option store :=
  let? e := entries s !! a in
  assert? writing e in
  let? s := if err then
              let s := if 0 <? swap_filen e then set_unlinked (swap_filen e :: unlinked s) s else s in
              let? s := upd a (set_swap (-1) SWAPOUT_NONE) s in
              storeReleaseRequest a s
            else
              let? s := upd a (fun e => set_swap (swap_filen e) SWAPOUT_DONE e) s in
              if cachable then storeDirSwapLog true a s else storeReleaseRequest a s in
  let? e := entries s !! a in
  assert? is_some (mem_obj e) in
  let? s := upd a (fun e => set_mem (set_sio false <$> mem_obj e) e) s in
  storeUnlockObject a s.

(** A reference of an entry: [ims_entry] or [old_entry]. *)
Definition link (ims : bool) (m : MemObject) : option positive := if ims then ims_entry m else old_entry m.
Definition set_link (ims : bool) (x : option positive) (m : MemObject) : MemObject := if ims then set_links x (old_entry m) m else set_links (ims_entry m) x m.

(** Where revalidation gives up a reference of [a] (src/client_side_ims.c, src/client_side.c) *)
Definition drop_link (ims : bool) (a : positive) (s : store) : option store :=
  let? e := entries s !! a in
  let? mem := mem_obj e in
  match link ims mem with
  | None => Some s
  | Some b =>
      let? s := storeUnlockObject b s in
      let? e := entries s !! a in
      let? mem := mem_obj e in
      upd a (set_mem (Some (set_link ims None mem))) s
  end.

(** [clientProcessExpired]: the reference to the new or the old entry *)
Definition make_link (ims : bool) (a b : positive) (s : store) : option store :=
  let? s := drop_link ims a s in
  let? e := entries s !! a in
  let? mem := mem_obj e in
  let? s := upd a (set_mem (Some (set_link ims (Some b) mem))) s in
  storeLockObject b s.

(** src/http.c *)
Definition httpMakePublic (a : positive) (s : store) : option store :=
  let? e := entries s !! a in
  if CACHABLE e then storeSetPublicKey a s else Some s.

(** Collapsed forwarding makes an entry public before its reply has come (src/client_side.c). *)
Definition early_public (a : positive) (r : StoreKey.request_key) (s : store) : option store :=
  let? e := entries s !! a in
  assert? is_some (mem_obj e) in
  let? s := upd a (fun e => set_mem (set_request (Some r) <$> mem_obj e) e) s in
  let? s := upd a (set_early true) s in
  storeSetPublicKey a s.

(** [fwdComplete] tries another server with the same entry (src/forward.c). *)
Definition reforward (a : positive) (negcached cachable : bool) (s : store) : option store :=
  let? s := if negcached then let? s := storeSetPrivateKey a s in upd a (set_early false) s else Some s in
  let? e := entries s !! a in
  let? s := if RELEASE_REQUEST e then upd a (fun e => set_early false (set_flags (CACHABLE e) false e)) s else Some s in
  if cachable then upd a (fun e => set_flags true (RELEASE_REQUEST e) e) s else Some s.

(** An entry of a cache directory (src/fs/aufs/store_rebuild_aufs.c), with the
    key, the file number, the times and the flags that were found *)
Definition storeAufsDirAddDiskRestore (a : positive) (k : key) (fn exp lastr : Z) (special early : bool) (s : store) : option store :=
  let e := mkE None None exp lastr fn 0 NOT_IN_MEMORY STORE_OK SWAPOUT_DONE special true false false early in
  storeHashInsert a k false (set_entries (<[a := e]> (entries s)) s).

(** [storeCreateMemObject], and the method its callers set *)
Definition storeCreateMemObject (a : positive) (u : bytes) (m : option HttpMethod.method_t) (s : store) : option store :=
  upd a (fun e => set_mem (Some (default (mkMem u None m None 0 false 0 false 0 None None) (mem_obj e))) e) s.

End operations.

End Store.
