(* ===== verification/StoreInv.v ===== *)
(** * The storage manager: what always holds of keys and locks

    [inv T X N s]: every live entry is in the table under its own key; its lock
    count is the number of those who hold it: tokens of other parts [T], locks
    that are about to be given back [X], references of memory objects, late
    releases, clients and the swap file.  [N] bounds the private keys that can
    be given out before the counter starts over. *)

From Stdlib Require Import ZArith Lia.
From stdpp Require Import base gmap list numbers option fin_maps.
From S2P Require Import Prelude CStr StoreEntry HttpMethod StoreKey Store.
Import StoreEntry Store.

Module StoreInv.

(** ** Sums over the entries *)

Definition msum (f : positive -> entry -> Z) (m : gmap positive entry) : Z := map_fold (fun a e n => f a e + n) 0 m.

Lemma msum_new f m a e : m !! a = None -> msum f (<[a := e]> m) = f a e + msum f m.
Proof. intros Ha. unfold msum. rewrite map_fold_insert_L; [done| |done]. intros. lia. Qed.

Lemma msum_delete f m a e : m !! a = Some e -> msum f (delete a m) = msum f m - f a e.
Proof. intros Ha. unfold msum. rewrite (map_fold_delete_L (fun a e n => f a e + n) 0 a e m); [lia| |done]. intros. lia. Qed.

Lemma msum_upd f m a e e' : m !! a = Some e -> msum f (<[a := e']> m) = msum f m - f a e + f a e'.
Proof. intros Ha. rewrite <- insert_delete_eq, msum_new by apply lookup_delete_eq. rewrite (msum_delete f m a e Ha). lia. Qed.

Lemma msum_pos f m : (forall a e, 0 <= f a e) -> 0 <= msum f m.
Proof. intros Hf. unfold msum. apply (map_fold_weak_ind (fun n _ => 0 <= n)); [lia|]. intros a e m' n _ Hn. pose proof (Hf a e). lia. Qed.

Lemma msum_in f m a e : (forall a e, 0 <= f a e) -> m !! a = Some e -> f a e <= msum f m.
Proof. intros Hf Ha. pose proof (msum_delete f m a e Ha). pose proof (msum_pos f (delete a m) Hf). lia. Qed.

Lemma msum_size f m : (forall a e, f a e <= 1) -> msum f m <= Z.of_nat (size m).
Proof.
  intros Hf. induction m as [|a e m Ha IH] using map_ind; [by cbn|]. rewrite msum_new, map_size_insert_None by done. pose proof (Hf a e). lia.
Qed.

Lemma msum_ext f g m : (forall a e, m !! a = Some e -> f a e = g a e) -> msum f m = msum g m.
Proof.
  induction m as [|a e m Ha IH] using map_ind; intros Hf; [done|]. rewrite !msum_new by done. rewrite IH, (Hf a e); [done|by map_simpl|]. intros b x Hb. apply Hf. destruct (decide (b = a)) as [->|]; [congruence|by map_simpl].
Qed.

Definition cnt (a : positive) (l : list positive) : Z := Z.of_nat (length (filter (fun b => b = a) l)).

Lemma cnt_pos a l : 0 <= cnt a l.
Proof. unfold cnt. lia. Qed.

Lemma cnt_cons a b l : cnt a (b :: l) = (if bool_decide (b = a) then 1 else 0) + cnt a l.
Proof. unfold cnt. rewrite filter_cons. case_decide; case_bool_decide; cbn [length]; first [lia|done]. Qed.

Lemma cnt_app a l l' : cnt a (l ++ l') = cnt a l + cnt a l'.
Proof. unfold cnt. rewrite filter_app, length_app. lia. Qed.

Lemma cnt_in a l : a ∈ l <-> 1 <= cnt a l.
Proof.
  induction l as [|b l IH]; [split; [by intros ?%not_elem_of_nil|change (cnt a []) with 0; lia]|]. rewrite cnt_cons, elem_of_cons, IH. pose proof (cnt_pos a l). case_bool_decide as Hb; [split; [lia|by left]|].
  split; [intros [->|?]; [done|lia]|right; lia].
Qed.

(** ** The invariant *)

Definition one (b : bool) : Z := if b then 1 else 0.
Definition opt_is (a : positive) (x : option positive) : Z := match x with Some b => one (bool_decide (b = a)) | None => 0 end.

Definition self (e : entry) : Z := match mem_obj e with Some m => Z.of_nat (nclients m) | None => 0 end + one (writing e).
Definition public (_ : positive) (e : entry) : Z := one (negb (PRIVATE e)).
Definition hasmem (_ : positive) (e : entry) : Z := one (is_some (mem_obj e)).
Definition inmem (_ : positive) (e : entry) : Z := one (bool_decide (mem_status e = IN_MEMORY)).
Definition unwritten (e : entry) : bool := match swap_status e with SWAPOUT_NONE => true | _ => false end.

(** Nothing remains of such an entry when its memory is given up. *)
Definition weak (e : entry) : bool :=
  pending e || negb (RELEASE_REQUEST e) && unwritten e && is_some (mem_obj e) && negb (storeKeepInMemory e).

Section inv.
Context `{SK : StoreKeys} (P : bytes -> option HttpMethod.method_t -> Prop) (K : name -> Prop).

(** A reference whose lock was given back, and which is not yet cleared: that
    to the fresh object of the entry, or that to the old one. *)
Context (Y : option (positive * bool)).

(** References of the entry [b] to [a]. *)
Definition links (a b : positive) (e : entry) : Z :=
  match mem_obj e with
  | Some m => (if bool_decide (Y = Some (b, true)) then 0 else opt_is a (ims_entry m)) + (if bool_decide (Y = Some (b, false)) then 0 else opt_is a (old_entry m))
  | None => 0
  end.

(** Locks of others than the entry itself. *)
Definition held (T X : list positive) (a : positive) (s : store) : Z := cnt a T + cnt a X + cnt a (late s) + msum (links a) (entries s).

Definition key_ok (n : Z) (e : entry) (k : key) : Prop :=
  if PRIVATE e then exists u m i, P u m /\ 0 < i <= n /\ storeKeyPrivate u m i = Some k else exists nm, K nm /\ key_of nm = Some k.

Definition count (N : Z) (s : store) : Prop := 0 <= key_counter s /\ key_counter s + msum public (entries s) <= N < key_limit - 1.

Record keys (s : store) : Prop := {
  k_tab : forall k a, (k, a) ∈ table s <-> exists e, entries s !! a = Some e /\ hkey e = Some k;
  k_uniq : NoDup (table s).*1;
  k_ok : forall a e k, entries s !! a = Some e -> hkey e = Some k -> key_ok (key_counter s) e k
}.

Record locks (T X : list positive) (s : store) : Prop := {
  l_live : forall a e, entries s !! a = Some e -> lock_count e = held T X a s + self e /\ lock_count e < 2 ^ 16;
  l_dead : forall a, entries s !! a = None -> held T X a s = 0;
  l_weak : forall a e, entries s !! a = Some e -> weak e = true -> 1 <= cnt a T;
  l_cach : forall a e, entries s !! a = Some e -> RELEASE_REQUEST e = true -> CACHABLE e = true -> cnt a T = 0;
  l_key : forall a e, entries s !! a = Some e -> hkey e = None -> 1 <= cnt a T;
  l_stale : forall c b, Y = Some (c, b) -> 1 <= cnt c T
}.

Record hots (s : store) : Prop := {
  h_in : forall a, a ∈ hot s <-> exists e, entries s !! a = Some e /\ mem_status e = IN_MEMORY /\ SPECIAL e = false;
  h_uniq : NoDup (hot s);
  h_count : hot_obj_count s = msum inmem (entries s)
}.

Record entry_ok (e : entry) : Prop := {
  e_key : hkey e = None -> PRIVATE e = false;
  e_rel : RELEASE_REQUEST e = true -> PRIVATE e = true;
  e_writing : writing e = match mem_obj e with Some m => sio m | None => false end;
  e_mem : mem_status e = IN_MEMORY -> mem_obj e <> None;
  e_url : forall m, mem_obj e = Some m -> P (url m) (method m)
}.

Record inv (T X : list positive) (N : Z) (s : store) : Prop := {
  i_keys : keys s;
  i_count : count N s;
  i_locks : locks T X s;
  i_hots : hots s;
  i_ok : forall a e, entries s !! a = Some e -> entry_ok e
}.

(** What happens to other entries than [ex] when locks are given back:
    entries without locks stay as they are, those with tokens lose locks only,
    and no entry becomes public. *)
Record frame (ex : option positive) (T : list positive) (s s' : store) : Prop := {
  f_free : forall a e, ex <> Some a -> entries s !! a = Some e -> lock_count e = 0 -> entries s' !! a = Some e;
  f_held : forall a e, ex <> Some a -> entries s !! a = Some e -> 1 <= cnt a T -> exists n, n <= lock_count e /\ entries s' !! a = Some (set_locks n e);
  f_old : forall a e', entries s' !! a = Some e' -> exists e, entries s !! a = Some e /\ (PRIVATE e' = false -> PRIVATE e = false /\ hkey e' = hkey e);
  f_mem : msum hasmem (entries s') <= msum hasmem (entries s);
  f_time : curtime s' = curtime s /\ rebuilding s' = rebuilding s
}.

(** ** Changes of one entry *)

Lemma upd_eq a f s e : entries s !! a = Some e -> upd a f s = Some (set_entries (<[a := f e]> (entries s)) s).
Proof. intros E. unfold upd. by rewrite E. Qed.

Lemma keys_upd s s' a e e' : keys s -> entries s !! a = Some e -> entries s' = <[a := e']> (entries s) -> table s' = table s -> key_counter s' = key_counter s ->
  hkey e' = hkey e -> PRIVATE e' = PRIVATE e -> keys s'.
Proof.
  intros [H1 H2 H3] Ha Es Et Ec Ek Ep. split.
  - intros k x. rewrite Et, H1, Es. destruct (decide (x = a)) as [->|Hx]; map_simpl; [|done]. rewrite Ha. split; intros (y & [= <-] & Hy); [exists e'|exists e]; split; congruence.
  - by rewrite Et.
  - intros x y k. rewrite Es, Ec. unfold key_ok. destruct (decide (x = a)) as [->|Hx]; map_simpl; [|apply H3]. intros [= <-] Hk. rewrite Ep. rewrite Ek in Hk. by apply (H3 a).
Qed.

Lemma count_upd N s s' a e e' : count N s -> entries s !! a = Some e -> entries s' = <[a := e']> (entries s) -> key_counter s' = key_counter s -> PRIVATE e' = PRIVATE e -> count N s'.
Proof. intros Hc Ha Es Ec Ep. unfold count in *. rewrite Ec, Es, (msum_upd _ _ _ _ _ Ha). unfold public at 2 3. rewrite Ep. lia. Qed.

Lemma held_upd T X s s' x a e e' : entries s !! a = Some e -> entries s' = <[a := e']> (entries s) -> late s' = late s -> held T X x s' = held T X x s - links x a e + links x a e'.
Proof. intros Ha Es El. unfold held. rewrite El, Es, (msum_upd _ _ _ _ _ Ha). lia. Qed.

Lemma locks_gen T X T' X' s s' a e e' : locks T X s -> entries s !! a = Some e -> entries s' = <[a := e']> (entries s) ->
  (forall x, x <> a -> held T' X' x s' = held T X x s /\ cnt x T' = cnt x T) ->
  lock_count e' - self e' - held T' X' a s' = lock_count e - self e - held T X a s -> lock_count e' < 2 ^ 16 ->
  (weak e' = true -> 1 <= cnt a T') -> (RELEASE_REQUEST e' = true -> CACHABLE e' = true -> cnt a T' = 0) -> (hkey e' = None -> 1 <= cnt a T') -> (forall c b, Y = Some (c, b) -> 1 <= cnt c T') -> locks T' X' s'.
Proof.
  intros [H1 H2 H3 H4 H5 H6] Ha Es Hx Hl Hb Hw Hc Hk Hy. split; [| | | | |exact Hy]; intros x; rewrite Es; (destruct (decide (x = a)) as [->|Hn]; map_simpl; [|destruct (Hx x Hn) as [Eh Ec]; rewrite ?Eh, ?Ec; solve [apply H1|apply H2|apply H3|apply H4|apply H5]]).
  - intros y [= <-]. pose proof (H1 a e Ha). lia.
  - done.
  - intros y [= <-]. done.
  - intros y [= <-]. done.
  - intros y [= <-]. done.
Qed.

Lemma locks_upd T X s s' a e e' : locks T X s -> entries s !! a = Some e -> entries s' = <[a := e']> (entries s) -> late s' = late s -> (forall x b, links x b e' = links x b e) ->
  lock_count e' = lock_count e -> self e' = self e -> (weak e' = true -> weak e = true) ->
  (RELEASE_REQUEST e' = true -> CACHABLE e' = true -> cnt a T = 0) -> (hkey e' = None -> hkey e = None) -> locks T X s'.
Proof.
  intros H Ha Es El Hl Ec Ef Hw Hc Hk. apply (locks_gen T X T X s s' a e e'); try done.
  - intros x _. rewrite (held_upd T X s s' x a e e') by done. rewrite Hl. lia.
  - rewrite (held_upd T X s s' a a e e') by done. rewrite Hl. lia.
  - rewrite Ec. apply (l_live _ _ _ H a e Ha).
  - intros W. apply (l_weak _ _ _ H a e Ha). auto.
  - intros En. apply (l_key _ _ _ H a e Ha). auto.
  - apply H.
Qed.

Lemma hots_upd s s' a e e' : hots s -> entries s !! a = Some e -> entries s' = <[a := e']> (entries s) -> hot s' = hot s -> hot_obj_count s' = hot_obj_count s ->
  mem_status e' = mem_status e -> SPECIAL e' = SPECIAL e -> hots s'.
Proof.
  intros [H1 H2 H3] Ha Es Eh Ec Em Ep. split.
  - intros x. rewrite Eh, H1, Es. destruct (decide (x = a)) as [->|Hx]; map_simpl; [|done]. rewrite Ha. split; intros (y & [= <-] & Hy); [exists e'|exists e]; split; congruence.
  - by rewrite Eh.
  - rewrite Ec, H3, Es, (msum_upd _ _ _ _ _ Ha). unfold inmem at 3 4. rewrite Em. lia.
Qed.

Lemma ok_upd s s' a e' : (forall x e, entries s !! x = Some e -> entry_ok e) -> entries s' = <[a := e']> (entries s) -> entry_ok e' -> forall x e, entries s' !! x = Some e -> entry_ok e.
Proof. intros H Es He x y. rewrite Es. destruct (decide (x = a)) as [->|Hx]; map_simpl; [by intros [= <-]|apply H]. Qed.

(** ** The table *)

Lemma find_key k s a : NoDup (table s).*1 -> hash_lookup k s = Some a <-> (k, a) ∈ table s.
Proof.
  unfold hash_lookup. induction (table s) as [|[k' b] l IH]; [by intros _; split; [|intros ?%not_elem_of_nil]|]. intros Hn. rewrite fmap_cons in Hn. apply list.NoDup_cons in Hn as [Hn Hl]. cbn [List.find fst].
  rewrite elem_of_cons. case_bool_decide as Hk.
  - subst k'. cbn [fmap option_fmap option_map snd]. split; [intros [= ->]; by left|]. intros [[= ->]|Hin]; [done|]. destruct Hn. apply list_elem_of_fmap. by exists (k, a).
  - rewrite (IH Hl). split; [by right|]. intros [[= -> ->]|Hin]; done.
Qed.

Lemma find_none k s : hash_lookup k s = None <-> forall a, (k, a) ∉ table s.
Proof.
  unfold hash_lookup. induction (table s) as [|[k' b] l IH]; [split; [intros _ a; apply not_elem_of_nil|done]|]. cbn [List.find fst]. case_bool_decide as Hk.
  - subst k'. split; [done|]. intros Ha. destruct (Ha b). by left.
  - rewrite IH. split; intros Ha a; [rewrite elem_of_cons; intros [[= -> ->]|Hin]; [done|by apply (Ha a)]|]. intros Hin. apply (Ha a). by right.
Qed.

(** A key names one entry. *)
Lemma find_entry s k a e : keys s -> entries s !! a = Some e -> hkey e = Some k -> hash_lookup k s = Some a.
Proof. intros Hk Ha He. apply find_key; [apply Hk|]. apply Hk. by exists e. Qed.

Lemma find_absent s k : keys s -> hash_lookup k s = None <-> forall a e, entries s !! a = Some e -> hkey e <> Some k.
Proof.
  intros Hk. rewrite find_none. split; [intros Hn a e Ha He; apply (Hn a), Hk; by exists e|]. intros Hn a Hin. apply Hk in Hin as (e & Ha & He). by apply (Hn a e).
Qed.

(** The parts of the store that keys are not about. *)
Definition rest (s s' : store) : Prop :=
  hot s' = hot s /\ hot_obj_count s' = hot_obj_count s /\ late s' = late s /\ rebuilding s' = rebuilding s /\ curtime s' = curtime s.

Lemma unlink_ok s a e k : keys s -> entries s !! a = Some e -> hkey e = Some k -> exists s', storeHashDelete a s = Some s' /\
  entries s' = <[a := set_key None (PRIVATE e) e]> (entries s) /\ table s' = filter (fun p => p.2 <> a) (table s) /\ key_counter s' = key_counter s /\ keys s' /\ rest s s'.
Proof.
  intros Hk Ha He. unfold storeHashDelete. rewrite Ha. bind_simpl. rewrite bool_decide_true; [|apply list_elem_of_fmap; exists (k, a); split; [done|]; apply Hk; by exists e].
  rewrite (upd_eq _ _ _ e) by done. eexists. split; [done|]. cbn [entries table key_counter set_entries set_table]. split; [done|]. split; [done|]. split; [done|]. split; [|done]. split; cbn [entries table key_counter set_entries set_table].
  - intros k' x. rewrite list_elem_of_filter. cbn [snd]. rewrite (k_tab _ Hk). destruct (decide (x = a)) as [->|Hx]; map_simpl; [|tauto]. split; [intros [? _]; done|]. intros (y & [= <-] & Hy). done.
  - apply (sublist_NoDup _ (table s).*1); [apply Hk|]. apply fmap_sublist, sublist_filter.
  - intros x y k'. destruct (decide (x = a)) as [->|Hx]; map_simpl; [by intros [= <-]|apply Hk].
Qed.

Lemma link_ok s a e k p : keys s -> entries s !! a = Some e -> hkey e = None -> hash_lookup k s = None -> key_ok (key_counter s) (set_key (Some k) p e) k ->
  exists s', storeHashInsert a k p s = Some s' /\ keys s' /\ entries s' = <[a := set_key (Some k) p e]> (entries s) /\ key_counter s' = key_counter s /\ rest s s'.
Proof.
  intros Hk Ha He Hn Ho. unfold storeHashInsert. rewrite (upd_eq _ _ _ e) by done. bind_simpl. eexists. split; [done|]. cbn [entries table key_counter set_entries set_table]. split; [|done].
  split; cbn [entries table key_counter set_entries set_table].
  - intros k' x. rewrite elem_of_cons, (k_tab _ Hk). destruct (decide (x = a)) as [->|Hx]; map_simpl.
    + rewrite Ha. split.
      * intros [[= ->]|(y & [= <-] & Hy)]; [|congruence]. by eexists.
      * intros (y & [= <-] & [= ->]). by left.
    + split; [by intros [[= _ ->]|Hy]|by right].
  - rewrite fmap_cons. apply list.NoDup_cons. split; [|apply Hk]. cbn [fst]. intros ([k' x] & E & Hin)%list_elem_of_fmap. cbn [fst] in E. subst k'. rewrite find_none in Hn. by apply (Hn x).
  - intros x y k'. destruct (decide (x = a)) as [->|Hx]; map_simpl; [|apply Hk]. intros [= <-] [= <-]. done.
Qed.

(** ** Private keys *)

Context `{SL : !StoreKeyLaws P K} (junk : P JUNK NONE).

Definition rekeyed (e e' : entry) : Prop := e' = e \/ exists k i, e' = set_key (Some k) true (set_mem (set_id i <$> mem_obj e) e).

Lemma keys_ext s s' : entries s' = entries s -> table s' = table s -> key_counter s <= key_counter s' -> keys s -> keys s'.
Proof.
  intros Ee Et Ec [H1 H2 H3]. split; rewrite ?Ee, ?Et; [done|done|]. intros a e k Ha Hk. specialize (H3 a e k Ha Hk). unfold key_ok in *. destruct (PRIVATE e); [|done].
  destruct H3 as (u & m & i & H3 & H4 & H5). exists u, m, i. split; [done|]. split; [lia|done].
Qed.

(** The number of a new private key is not that of another. *)
Lemma private_fresh s u m k : keys s -> 0 <= key_counter s < key_limit - 1 -> P u m -> storeKeyPrivate u m (key_counter s + 1) = Some k -> hash_lookup k s = None.
Proof.
  intros Hk Hc Hp Ek. apply find_absent; [done|]. intros a e Ha He. pose proof (k_ok _ Hk a e k Ha He) as Ho. unfold key_ok in Ho. destruct (PRIVATE e).
  - destruct Ho as (u' & m' & i & Hp' & Hi & E). assert (key_counter s + 1 = i); [|lia]. apply (private_id u m _ u' m' i k); first [done|lia].
  - destruct Ho as (n & Hn & E). by apply (private_public u m (key_counter s + 1) n k); first [done|lia].
Qed.

Lemma private_ok N s a e : keys s -> count N s -> entries s !! a = Some e -> (hkey e = None -> PRIVATE e = false) -> (forall m, mem_obj e = Some m -> P (url m) (method m)) ->
  exists s' e', storeSetPrivateKey a s = Some s' /\ keys s' /\ count N s' /\ entries s' = <[a := e']> (entries s) /\ rekeyed e e' /\ PRIVATE e' = true /\ hkey e' <> None /\ rest s s'.
Proof.
  intros Hk Hc Ha Hp Hu. unfold storeSetPrivateKey. rewrite Ha. bind_simpl. destruct (is_some (hkey e) && PRIVATE e) eqn:E0.
  { apply andb_true_iff in E0 as [E1 E2]. exists s, e. rewrite insert_id by done. unfold is_some in E1. destruct (hkey e); [|done]. by splits; try left. }
  assert (PRIVATE e = false) as Hf by (destruct (hkey e); cbn in E0; auto).
  assert (exists s1, (if is_some (hkey e) then let? s := if -1 <? swap_filen e then storeDirSwapLog false a s else Some s in storeHashDelete a s else Some s) = Some s1 /\
    keys s1 /\ entries s1 = <[a := set_key None false e]> (entries s) /\ key_counter s1 = key_counter s /\ rest s s1) as (s1 & -> & Hk1 & Ee1 & Ec1 & Hr1).
  { destruct (hkey e) as [k|] eqn:Ek; cbn [is_some].
    - assert (exists l, (if -1 <? swap_filen e then storeDirSwapLog false a s else Some s) = Some (set_log l s)) as [l ->].
      { unfold storeDirSwapLog. rewrite Ha. bind_simpl. destruct (-1 <? swap_filen e); [by eexists|]. exists (swaplog s). by destruct s. }
      bind_simpl. destruct (unlink_ok (set_log l s) a e k) as (s1 & -> & E1 & _ & E2 & Hk1 & Hr1); [by apply (keys_ext s); first [done|cbn; lia]|done|done|]. exists s1. rewrite Hf in E1. done.
    - exists s. assert (set_key None false e = e) as -> by (clear -Ek Hf; destruct e; cbn in Ek, Hf; by subst). rewrite insert_id by done. done. }
  bind_simpl. unfold getKeyCounter. rewrite Ec1. destruct Hc as [Hc0 Hc]. pose proof (msum_in public (entries s) a e ltac:(intros ? x; unfold public; by destruct (PRIVATE x)) Ha) as Hm.
  unfold public at 1 in Hm. rewrite Hf in Hm. cbn [negb one] in Hm. pose proof limit_ok as Hlim. rewrite wrap_s_small by (cbn; lia). rewrite (proj2 (Z.ltb_ge _ 0)) by lia.
  set (n := key_counter s + 1) in *. set (s2 := set_counter n s1).
  assert (exists s3, (if is_some (mem_obj e) then upd a (fun e => set_mem (set_id n <$> mem_obj e) e) s2 else Some s2) = Some s3 /\
    keys s3 /\ entries s3 = <[a := set_key None false (set_mem (set_id n <$> mem_obj e) e)]> (entries s) /\ key_counter s3 = n /\ rest s s3) as (s3 & -> & Hk3 & Ee3 & Ec3 & Hr3).
  { assert (keys s2) as Hk2 by (apply (keys_ext s1); first [done|cbn; lia]). destruct (mem_obj e) as [m|] eqn:Em; cbn [is_some].
    - rewrite (upd_eq _ _ _ (set_key None false e)) by (cbn; rewrite Ee1; by map_simpl). cbn [mem_obj set_key]. rewrite Em. eexists. split; [done|].
      split; [apply (keys_upd s2 _ a (set_key None false e) (set_mem (set_id n <$> Some m) (set_key None false e))); try done; cbn; rewrite Ee1; by map_simpl|].
      cbn [entries set_entries set_counter s2 key_counter]. rewrite Ee1, insert_insert_eq. split; [|split; [done|exact Hr1]]. f_equal.
    - exists s2. split; [done|]. split; [done|]. cbn [entries set_entries set_counter s2 key_counter]. rewrite Ee1. split; [|split; [done|exact Hr1]]. f_equal. destruct e; cbn in *. by subst. }
  bind_simpl. assert (exists k, match mem_obj e with Some mem => storeKeyPrivate (url mem) (method mem) n | None => storeKeyPrivate JUNK NONE n end = Some k /\
    exists u m, P u m /\ storeKeyPrivate u m n = Some k) as (k & -> & u & m & Hum & Ek).
  { assert (0 < n < key_limit) as Hnk by (unfold n; lia). destruct (mem_obj e) as [m|] eqn:Em.
    - assert (P (url m) (method m)) as Hum by auto. destruct (private_some (url m) (method m) n Hum Hnk) as [k Ek]. exists k. split; [done|]. by exists (url m), (method m).
    - destruct (private_some JUNK NONE n junk Hnk) as [k Ek]. exists k. split; [done|]. by exists JUNK, NONE. }
  bind_simpl. assert (hash_lookup k s3 = None) as Hn.
  { pose proof (private_fresh s1 u m k Hk1) as Hf1. rewrite Ec1 in Hf1. specialize (Hf1 ltac:(lia) Hum Ek). rewrite find_absent in Hf1 by done. apply find_absent; [done|]. intros x y.
    rewrite Ee3. specialize (Hf1 x). rewrite Ee1 in Hf1. destruct (decide (x = a)) as [->|Hx]; revert Hf1; map_simpl; [|auto]. by intros _ [= <-]. }
  rewrite Hn. cbn [is_some negb]. destruct (link_ok s3 a (set_key None false (set_mem (set_id n <$> mem_obj e) e)) k true) as (s' & -> & Hk' & Ee' & Ec' & Hr'); try done.
  - rewrite Ee3. by map_simpl.
  - unfold key_ok. cbn [PRIVATE set_key]. exists u, m, n. split; [done|]. split; [lia|done].
  - exists s', (set_key (Some k) true (set_mem (set_id n <$> mem_obj e) e)). split; [done|]. split; [done|].
    assert (entries s' = <[a := set_key (Some k) true (set_mem (set_id n <$> mem_obj e) e)]> (entries s)) as Es' by (rewrite Ee', Ee3, insert_insert_eq; done).
    split; [|split; [exact Es'|split; [right; by eexists _, _|split; [done|split; [done|]]]]].
    + unfold count. rewrite Ec', Ec3, Es', (msum_upd _ _ _ _ _ Ha). unfold public at 2 3. rewrite Hf. cbn [PRIVATE set_key negb one]. lia.
    + unfold rest in *. intuition congruence.
Qed.

(** ** Keys of entries in the store *)

Lemma inv_upd T X N s s' a e e' : inv T X N s -> entries s !! a = Some e -> entries s' = <[a := e']> (entries s) -> keys s' -> count N s' -> rest s s' -> (forall x b, links x b e' = links x b e) ->
  lock_count e' = lock_count e -> self e' = self e -> (weak e' = true -> weak e = true) -> (RELEASE_REQUEST e' = true -> CACHABLE e' = true -> cnt a T = 0) -> (hkey e' = None -> hkey e = None) ->
  mem_status e' = mem_status e -> SPECIAL e' = SPECIAL e -> entry_ok e' -> inv T X N s'.
Proof.
  intros [H1 H2 H3 H4 H5] Ha Es Hk Hc (R1 & R2 & R3 & _) L1 L2 L3 L4 L5 L6 M1 M2 Ho. split; [done|done|by apply (locks_upd T X s s' a e e')|by apply (hots_upd s s' a e e')|by apply (ok_upd s s' a e')].
Qed.

Lemma rekeyed_facts e e' : rekeyed e e' -> (forall x b, links x b e' = links x b e) /\ lock_count e' = lock_count e /\ self e' = self e /\ weak e' = weak e /\ RELEASE_REQUEST e' = RELEASE_REQUEST e /\
  CACHABLE e' = CACHABLE e /\ mem_status e' = mem_status e /\ SPECIAL e' = SPECIAL e /\ swap_filen e' = swap_filen e /\ swap_status e' = swap_status e /\ store_status e' = store_status e /\
  storeKeepInMemory e' = storeKeepInMemory e /\ exists i, mem_obj e' = set_id i <$> mem_obj e.
Proof.
  intros [->|(k & i & ->)]; [splits; destruct (mem_obj e) as [m|]; [exists (id m); by destruct m|by exists 0]|]. unfold links, self, weak, storeKeepInMemory, writing, pending, unwritten.
  cbn [set_key set_mem mem_obj lock_count swap_status store_status RELEASE_REQUEST CACHABLE mem_status SPECIAL]. destruct (mem_obj e); splits; by exists i.
Qed.

Lemma rekeyed_ok e e' : rekeyed e e' -> PRIVATE e' = true -> hkey e' <> None -> (writing e = match mem_obj e with Some m => sio m | None => false end) ->
  (mem_status e = IN_MEMORY -> mem_obj e <> None) -> (forall m, mem_obj e = Some m -> P (url m) (method m)) -> entry_ok e'.
Proof.
  intros Hr Hp Hk H3 H4 H5. destruct (rekeyed_facts e e' Hr) as (_ & _ & _ & _ & _ & _ & Em & _ & _ & Es & _ & _ & i & E). split; [done|done| | |].
  - unfold writing in *. rewrite Es, H3, E. by destruct (mem_obj e).
  - rewrite Em, E. intros Hm. specialize (H4 Hm). by destruct (mem_obj e).
  - intros m. rewrite E. destruct (mem_obj e) as [m0|]; [|done]. intros [= <-]. cbn [url method set_id]. by apply H5.
Qed.

Lemma private_inv T X N s a e : inv T X N s -> entries s !! a = Some e ->
  exists s' e', storeSetPrivateKey a s = Some s' /\ inv T X N s' /\ entries s' = <[a := e']> (entries s) /\ rekeyed e e' /\ PRIVATE e' = true /\ rest s s'.
Proof.
  intros Hi Ha. pose proof (i_ok _ _ _ _ Hi a e Ha) as Ho. destruct (private_ok N s a e) as (s' & e' & E & Hk & Hc & Es & Hr & Hp & Hh & Hs); try apply Hi; try done.
  { apply Ho. } { apply Ho. }
  exists s', e'. split; [done|]. split; [|done]. destruct (rekeyed_facts e e' Hr) as (F1 & F2 & F3 & F4 & F5 & F6 & F7 & F8 & _).
  apply (inv_upd T X N s s' a e e'); try done; [by rewrite F4| |by apply (rekeyed_ok e); try apply Ho]. rewrite F5, F6. apply (l_cach _ _ _ (i_locks _ _ _ _ Hi) a e Ha).
Qed.

Lemma releaseRequest_ok N s a e : keys s -> count N s -> entries s !! a = Some e -> (hkey e = None -> PRIVATE e = false) -> (RELEASE_REQUEST e = true -> PRIVATE e = true) ->
  (forall m, mem_obj e = Some m -> P (url m) (method m)) ->
  exists s' e', storeReleaseRequest a s = Some s' /\ keys s' /\ count N s' /\ entries s' = <[a := e']> (entries s) /\ (e' = e \/ rekeyed (set_flags false true e) e') /\
    RELEASE_REQUEST e' = true /\ PRIVATE e' = true /\ hkey e' <> None /\ rest s s'.
Proof.
  intros Hk Hc Ha Hn Hr Hu. unfold storeReleaseRequest. rewrite Ha. bind_simpl. destruct (RELEASE_REQUEST e) eqn:Er.
  { exists s, e. rewrite insert_id by done. specialize (Hr eq_refl). assert (hkey e <> None) by (intros En; specialize (Hn En); congruence). by splits; try left. }
  rewrite (upd_eq _ _ _ e) by done. bind_simpl. set (e1 := set_flags false true e). set (s1 := set_entries _ s). assert (entries s1 !! a = Some e1) as Ha1 by (cbn; by map_simpl).
  destruct (private_ok N s1 a e1) as (s' & e' & E & Hk' & Hc' & Es & Hr' & Hp' & Hh & Hs); try done; [by apply (keys_upd s s1 a e e1)|by apply (count_upd N s s1 a e e1)|].
  destruct (rekeyed_facts e1 e' Hr') as (_ & _ & _ & _ & F5 & _). exists s', e'. split; [done|]. split; [done|]. split; [done|]. split; [rewrite Es; apply insert_insert_eq|]. split; [by right|]. by rewrite F5.
Qed.

Lemma releaseRequest_inv T X N s a e : inv T X N s -> entries s !! a = Some e ->
  exists s' e', storeReleaseRequest a s = Some s' /\ inv T X N s' /\ entries s' = <[a := e']> (entries s) /\ (e' = e \/ rekeyed (set_flags false true e) e') /\ RELEASE_REQUEST e' = true /\ PRIVATE e' = true /\ rest s s'.
Proof.
  intros Hi Ha. pose proof (i_ok _ _ _ _ Hi a e Ha) as Ho.
  destruct (releaseRequest_ok N s a e) as (s' & e' & E & Hk & Hc & Es & Hr & Hrel & Hp & Hh & Hs); try apply Hi; try apply Ho; try done. exists s', e'. split; [done|]. split; [|done].
  destruct Hr as [->|Hr]; [by apply (inv_upd T X N s s' a e e); try done; apply (l_cach _ _ _ (i_locks _ _ _ _ Hi) a e Ha)|].
  set (e1 := set_flags false true e) in *. destruct (rekeyed_facts e1 e' Hr) as (F1 & F2 & F3 & F4 & F5 & F6 & F7 & F8 & _). assert (entry_ok e') as Ho'.
  { apply (rekeyed_ok e1); try done; apply Ho. }
  apply (inv_upd T X N s s' a e e'); try done; [|by rewrite F6].
  rewrite F4. unfold weak. cbn. rewrite orb_false_r. change (pending e1) with (pending e). by intros ->.
Qed.

End inv.

End StoreInv.
