(* ===== verification/StoreLocks.v ===== *)
(** * The storage manager: giving back locks

    Releasing, purging and unlocking keep the invariant of StoreInv.v and come
    to an end, although unlocking an entry can unlock others, which it refers
    to, and so on. *)

From Stdlib Require Import ZArith Lia.
From stdpp Require Import base gmap list numbers option fin_maps.
From S2P Require Import Prelude CStr StoreEntry HttpMethod StoreKey Store StoreInv.
Import StoreEntry Store StoreInv.

Module StoreLocks.

(** ** Frames *)

Lemma set_locks_same e : set_locks (lock_count e) e = e.
Proof. by destruct e. Qed.

Lemma frame_refl ex T s : frame ex T s s.
Proof. split; [done| |intros a e Ha; by exists e|lia|done]. intros a e _ Ha _. exists (lock_count e). split; [lia|]. by rewrite set_locks_same. Qed.

Lemma frame_trans ex T s1 s2 s3 : frame ex T s1 s2 -> frame ex T s2 s3 -> frame ex T s1 s3.
Proof.
  intros [A1 A2 A3 A4 A5] [B1 B2 B3 B4 B5]. split.
  - intros a e Hx Ha Hl. apply B1; auto.
  - intros a e Hx Ha Hc. destruct (A2 a e Hx Ha Hc) as (n & Hle & Hn). destruct (B2 a _ Hx Hn Hc) as (n' & Hle' & Hn'). exists n'. split; [cbn in Hle'; lia|done].
  - intros a e3 H3. destruct (B3 a e3 H3) as (e2 & H2 & F2). destruct (A3 a e2 H2) as (e1 & H1 & F1). exists e1. split; [done|]. intros Hp. destruct (F2 Hp) as [Hp2 ->]. auto.
  - lia.
  - destruct A5, B5. split; congruence.
Qed.

Lemma frame_weaken a T s s' : frame None T s s' -> frame (Some a) T s s'.
Proof. intros [A1 A2 A3 A4 A5]. split; try done; intros x e _; [apply (A1 x e)|apply (A2 x e)]; done. Qed.

(** An entry that had locks and no token is free to change. *)
Lemma frame_whole a T s s' e : frame (Some a) T s s' -> entries s !! a = Some e -> lock_count e <> 0 -> cnt a T = 0 -> frame None T s s'.
Proof.
  intros [A1 A2 A3 A4 A5] Ha Hl Hc. split; try done; intros x y _ Hx Hy; destruct (decide (x = a)) as [->|Hn].
  - congruence.
  - apply A1; congruence.
  - lia.
  - apply A2; congruence.
Qed.

Lemma frame_upd T s s' a e e' : entries s !! a = Some e -> entries s' = <[a := e']> (entries s) -> (PRIVATE e' = false -> PRIVATE e = false /\ hkey e' = hkey e) -> hasmem a e' <= hasmem a e ->
  curtime s' = curtime s -> rebuilding s' = rebuilding s -> frame (Some a) T s s'.
Proof.
  intros Ha Es Hp Hm Ht Hr. split; [| | | |done].
  - intros x y Hx. rewrite Es. map_simpl. done.
  - intros x y Hx Hy _. exists (lock_count y). split; [lia|]. rewrite Es, set_locks_same. by map_simpl.
  - intros x y. rewrite Es. destruct (decide (x = a)) as [->|Hx]; map_simpl; [intros [= <-]; by exists e|]. intros Hy. by exists y.
  - rewrite Es, (msum_upd _ _ _ _ _ Ha). lia.
Qed.

Lemma frame_ext ex T s s' : entries s' = entries s -> curtime s' = curtime s -> rebuilding s' = rebuilding s -> frame ex T s s'.
Proof. intros Es Ht Hr. destruct (frame_refl ex T s) as [A1 A2 A3 A4 A5]. split; rewrite ?Es; done. Qed.

Lemma frame_delete T s s' a e : entries s !! a = Some e -> entries s' = delete a (entries s) -> curtime s' = curtime s -> rebuilding s' = rebuilding s -> frame (Some a) T s s'.
Proof.
  intros Ha Es Ht Hr. split; [| | | |done].
  - intros x y Hx. rewrite Es. map_simpl. done.
  - intros x y Hx Hy _. exists (lock_count y). split; [lia|]. rewrite Es, set_locks_same. by map_simpl.
  - intros x y. rewrite Es. destruct (decide (x = a)) as [->|Hx]; map_simpl; [done|]. intros Hy. by exists y.
  - rewrite Es, (msum_delete _ _ _ _ Ha). unfold hasmem at 2. destruct (mem_obj e); cbn; lia.
Qed.

Section locks.
Context `{SK : StoreKeys} (P : bytes -> option HttpMethod.method_t -> Prop) (K : name -> Prop).
Context (Y : option (positive * bool)).
Context `{SL : !StoreKeyLaws P K} (junk : P JUNK NONE).

#[local] Abbreviation inv := (inv P K Y).
#[local] Abbreviation locks := (locks Y).
#[local] Abbreviation held := (held Y).
#[local] Abbreviation links := (links Y).
#[local] Abbreviation entry_ok := (entry_ok P).

(** ** Memory *)

Definition aside (s s' : store) : Prop := late s' = late s /\ rebuilding s' = rebuilding s /\ curtime s' = curtime s.

Lemma hots_off s s' a e : hots s -> entries s !! a = Some e -> mem_status e = IN_MEMORY -> entries s' = <[a := set_mem_status NOT_IN_MEMORY e]> (entries s) ->
  hot s' = (if SPECIAL e then hot s else filter (fun b => b <> a) (hot s)) -> hot_obj_count s' = hot_obj_count s - 1 -> hots s'.
Proof.
  intros [H1 H2 H3] Ha Hm Es Eh Ec. split.
  - intros x. rewrite Eh, Es. destruct (decide (x = a)) as [->|Hx]; map_simpl.
    + split; [|by intros (y & [= <-] & ? & _)]. destruct (SPECIAL e) eqn:Ep; [|by intros [? _]%list_elem_of_filter]. rewrite H1. intros (y & Hy & _ & Hs). congruence.
    + rewrite <- H1. destruct (SPECIAL e); [done|]. rewrite list_elem_of_filter. tauto.
  - rewrite Eh. destruct (SPECIAL e); [done|]. by apply list.NoDup_filter.
  - rewrite Ec, H3, Es, (msum_upd _ _ _ _ _ Ha). unfold inmem at 3 4. cbn [mem_status set_mem_status]. rewrite Hm, (bool_decide_true (IN_MEMORY = IN_MEMORY)), (bool_decide_false (NOT_IN_MEMORY = IN_MEMORY)) by done. cbn [one]. lia.
Qed.

Lemma hots_on s s' a e : hots s -> entries s !! a = Some e -> mem_status e = NOT_IN_MEMORY -> entries s' = <[a := set_mem_status IN_MEMORY e]> (entries s) ->
  hot s' = (if SPECIAL e then hot s else a :: hot s) -> hot_obj_count s' = hot_obj_count s + 1 -> hots s'.
Proof.
  intros [H1 H2 H3] Ha Hm Es Eh Ec. assert (a ∉ hot s) as Hn by (rewrite H1; intros (y & Hy & Hs & _); congruence). split.
  - intros x. rewrite Eh, Es. destruct (decide (x = a)) as [->|Hx]; map_simpl.
    + destruct (SPECIAL e) eqn:Ep; split; try done; [intros (y & [= <-] & _ & ?); cbn in *; congruence|intros _; by eexists|intros _; by left].
    + rewrite <- H1. destruct (SPECIAL e); [done|]. rewrite elem_of_cons. tauto.
  - rewrite Eh. destruct (SPECIAL e); [done|]. by apply list.NoDup_cons.
  - rewrite Ec, H3, Es, (msum_upd _ _ _ _ _ Ha). unfold inmem at 3 4. cbn [mem_status set_mem_status]. rewrite Hm, (bool_decide_true (IN_MEMORY = IN_MEMORY)), (bool_decide_false (NOT_IN_MEMORY = IN_MEMORY)) by done. cbn [one]. lia.
Qed.

Lemma mem_status_inv T X N s s' a e st : inv T X N s -> entries s !! a = Some e -> entries s' = <[a := set_mem_status st e]> (entries s) -> hots s' ->
  (st = IN_MEMORY -> mem_obj e <> None) -> table s' = table s -> key_counter s' = key_counter s -> late s' = late s -> inv T X N s'.
Proof.
  intros [H1 H2 H3 H4 H5] Ha Es Hh Hm Et Ec El. pose proof (H5 a e Ha) as [O1 O2 O3 O4 O5].
  split; [by apply (keys_upd P K s s' a e (set_mem_status st e))|by apply (count_upd N s s' a e (set_mem_status st e))| |done|by apply (ok_upd P s s' a (set_mem_status st e))].
  apply (locks_upd Y T X s s' a e (set_mem_status st e)); try done. apply (l_cach _ _ _ _ H3 a e Ha).
Qed.

Lemma cool T X N s a e : inv T X N s -> entries s !! a = Some e ->
  exists s', storeSetMemStatus a NOT_IN_MEMORY s = Some s' /\ inv T X N s' /\ entries s' = <[a := set_mem_status NOT_IN_MEMORY e]> (entries s) /\ aside s s'.
Proof.
  intros Hi Ha. unfold storeSetMemStatus. rewrite Ha. bind_simpl. case_bool_decide as Hm.
  { exists s. rewrite <- Hm. assert (set_mem_status (mem_status e) e = e) as -> by (by destruct e). by rewrite insert_id. }
  assert (mem_status e = IN_MEMORY) as Hin by (by destruct (mem_status e)). pose proof (e_mem _ _ (i_ok _ _ _ _ _ _ _ Hi a e Ha) Hin) as Hne. destruct (mem_obj e) as [m|] eqn:Em; [|done]. bind_simpl.
  assert (SPECIAL e || bool_decide (a ∈ hot s) = true) as ->.
  { destruct (SPECIAL e) eqn:Ep; [done|]. apply bool_decide_true. apply (i_hots _ _ _ _ _ _ _ Hi). by exists e. }
  bind_simpl. set (s1 := set_hot _ _ s). rewrite (upd_eq _ _ _ e) by done. eexists. split; [done|]. split; [|done].
  apply (mem_status_inv T X N s _ a e NOT_IN_MEMORY); try done. by apply (hots_off s _ a e); try apply Hi.
Qed.

Lemma heat T X N s a e m : inv T X N s -> entries s !! a = Some e -> mem_obj e = Some m -> inmem_lo m = 0 ->
  exists s', storeSetMemStatus a IN_MEMORY s = Some s' /\ inv T X N s' /\ entries s' = <[a := set_mem_status IN_MEMORY e]> (entries s) /\ aside s s'.
Proof.
  intros Hi Ha Em Hlo. unfold storeSetMemStatus. rewrite Ha. bind_simpl. case_bool_decide as Hm.
  { exists s. rewrite <- Hm. assert (set_mem_status (mem_status e) e = e) as -> by (by destruct e). by rewrite insert_id. }
  assert (mem_status e = NOT_IN_MEMORY) as Hin by (by destruct (mem_status e)). rewrite Em. bind_simpl. rewrite Hlo, Z.eqb_refl. bind_simpl.
  set (s1 := set_hot _ _ s). rewrite (upd_eq _ _ _ e) by done. eexists. split; [done|]. split; [|done].
  apply (mem_status_inv T X N s _ a e IN_MEMORY); try done; [|by rewrite Em]. by apply (hots_on s _ a e); try apply Hi.
Qed.

(** ** Giving up memory *)

(** What unlocking does, for stores with fewer than [f] memory objects. *)
Definition unlock_spec (f : Z) (u : positive -> store -> option store) : Prop :=
  forall T X N s a, inv T (a :: X) N s -> msum hasmem (entries s) < f -> exists s', u a s = Some s' /\ inv T X N s' /\ frame None T s s'.

Definition refs (m : MemObject) : list positive := option_list (ims_entry m) ++ option_list (old_entry m).

Lemma cnt_option a x : cnt a (option_list x) = opt_is a x.
Proof. destruct x as [b|]; [|done]. change (option_list (Some b)) with [b]. cbn [opt_is]. rewrite cnt_cons. change (cnt a []) with 0. unfold one. lia. Qed.

Lemma links_pos a b e : 0 <= links a b e.
Proof. unfold links, opt_is, one. destruct (mem_obj e) as [m|]; [|lia]. destruct (ims_entry m), (old_entry m); repeat case_bool_decide; lia. Qed.

(** An entry without locks is held by nobody. *)
Lemma unlocked_facts T X N s a e : inv T X N s -> entries s !! a = Some e -> lock_count e = 0 -> held T X a s = 0 /\ self e = 0 /\ writing e = false /\ cnt a T = 0 /\ weak e = false.
Proof.
  intros Hi Ha Hl. destruct (l_live _ _ _ _ (i_locks _ _ _ _ _ _ _ Hi) a e Ha) as [E _].
  assert (0 <= msum (links a) (entries s)) by (apply msum_pos; apply links_pos).
  pose proof (cnt_pos a T). pose proof (cnt_pos a X). pose proof (cnt_pos a (late s)). assert (0 <= self e) by (unfold self, one; destruct (mem_obj e), (writing e); lia).
  unfold held in E. unfold held. split; [lia|]. split; [lia|]. assert (self e = 0) as Hs by lia. split; [unfold self, one in Hs; destruct (writing e); [|done]; destruct (mem_obj e); lia|].
  split; [lia|]. destruct (weak e) eqn:Hw; [|done]. pose proof (l_weak _ _ _ _ (i_locks _ _ _ _ _ _ _ Hi) a e Ha Hw). lia.
Qed.

Lemma weak_none e : mem_obj e = None -> weak e = pending e.
Proof. intros E. unfold weak. rewrite E. cbn [is_some]. by rewrite andb_false_r, orb_false_r. Qed.

Lemma weak_pending e : weak e = false -> pending e = false.
Proof. unfold weak. by intros [? _]%orb_false_iff. Qed.

(** Without its memory object an entry refers to no other. *)
Lemma drop_mem T X N s a e m : inv T X N s -> entries s !! a = Some e -> mem_obj e = Some m -> lock_count e = 0 -> mem_status e = NOT_IN_MEMORY ->
  inv T (refs m ++ X) N (set_entries (<[a := set_mem None e]> (entries s)) s).
Proof.
  intros Hi Ha Em Hl Hm. destruct (unlocked_facts T X N s a e Hi Ha Hl) as (Hh & Hs & Hw & Hc & Hk). set (s' := set_entries _ s). set (e' := set_mem None e).
  pose proof (i_ok _ _ _ _ _ _ _ Hi a e Ha) as [O1 O2 O3 O4 O5].
  split; [by apply (keys_upd P K s s' a e e'); try apply Hi|by apply (count_upd N s s' a e e'); try apply Hi| |by apply (hots_upd s s' a e e'); try apply Hi|].
  - assert (forall x, held T (refs m ++ X) x s' = held T X x s) as Hheld.
    { intros x. rewrite (held_upd Y T (refs m ++ X) s s' x a e e') by done. assert (forall b, Y <> Some (a, b)) as Hy by (intros b E; pose proof (l_stale _ _ _ _ (i_locks _ _ _ _ _ _ _ Hi) a b E); lia).
      unfold held, refs, links. rewrite Em. cbn [mem_obj set_mem e']. rewrite !cnt_app, !cnt_option, !(bool_decide_false (Y = Some (a, _))) by apply Hy. lia. }
    apply (locks_gen Y T X T (refs m ++ X) s s' a e e'); try done; [apply Hi| | | |apply (l_key _ _ _ _ (i_locks _ _ _ _ _ _ _ Hi) a e Ha)|apply (i_locks _ _ _ _ _ _ _ Hi)].
    + rewrite Hheld. cbn [lock_count set_mem e']. assert (self e' = 0); [|lia]. unfold self. change (writing e') with (writing e). by rewrite Hw.
    + cbn. lia.
    + rewrite weak_none by done. change (pending e') with (pending e). rewrite weak_pending by done. done.
  - apply (ok_upd P s s' a e'); [apply Hi|done|]. split; try done. cbn. congruence.
Qed.

Lemma unlock_opt u f T X N s x : unlock_spec f u -> inv T (option_list x ++ X) N s -> msum hasmem (entries s) < f ->
  exists s', match x with Some b => u b s | None => Some s end = Some s' /\ inv T X N s' /\ frame None T s s'.
Proof. intros Hu Hi Hf. destruct x as [b|]; [by apply (Hu T X N s b)|]. exists s. split; [done|]. split; [done|]. apply frame_refl. Qed.

Lemma destroyMem_ok u f T X N s a e : unlock_spec f u -> inv T X N s -> entries s !! a = Some e -> mem_obj e <> None -> lock_count e = 0 -> mem_status e = NOT_IN_MEMORY -> msum hasmem (entries s) <= f ->
  exists s', destroy_MemObject u a s = Some s' /\ inv T X N s' /\ frame (Some a) T s s' /\ entries s' !! a = Some (set_mem None e).
Proof.
  intros Hu Hi Ha Hm Hl Hst Hf. destruct (mem_obj e) as [m|] eqn:Em; [|done]. clear Hm. unfold destroy_MemObject. rewrite Ha. bind_simpl. rewrite Em. bind_simpl. rewrite (upd_eq _ _ _ e) by done. bind_simpl.
  pose proof (drop_mem T X N s a e m Hi Ha Em Hl Hst) as H1. set (s1 := set_entries _ s) in *.
  assert (sio m = false) as ->. { pose proof (e_writing _ _ (i_ok _ _ _ _ _ _ _ Hi a e Ha)) as Hw. rewrite Em in Hw. rewrite <- Hw. by apply (unlocked_facts T X N s a e). }
  cbn [negb]. unfold refs in H1. rewrite <- app_assoc in H1. assert (entries s1 !! a = Some (set_mem None e)) as Ha1 by (cbn; by map_simpl).
  assert (frame (Some a) T s s1) as F1. { apply (frame_upd T s s1 a e (set_mem None e)); try done. unfold hasmem. rewrite Em. cbn. lia. }
  assert (msum hasmem (entries s1) < f) as Hf1. { cbn [entries set_entries s1]. rewrite (msum_upd _ _ _ _ _ Ha). unfold hasmem at 2 3. rewrite Em. cbn [mem_obj set_mem is_some one]. lia. }
  destruct (unlock_opt u f T _ N s1 (ims_entry m) Hu H1 Hf1) as (s2 & -> & H2 & F2). bind_simpl. pose proof (f_mem _ _ _ _ F2) as M2.
  destruct (unlock_opt u f T _ N s2 (old_entry m) Hu H2 ltac:(lia)) as (s3 & -> & H3 & F3). exists s3. split; [done|]. split; [done|]. split.
  - apply (frame_trans _ _ _ s1); [done|]. apply (frame_trans _ _ _ s2); by apply frame_weaken.
  - apply (f_free _ _ _ _ F3); try done. by apply (f_free _ _ _ _ F2).
Qed.

(** ** Releasing *)

Lemma delete_ok T X N s a e : inv T X N s -> entries s !! a = Some e -> lock_count e = 0 -> mem_obj e = None ->
  exists s1, storeHashDelete a s = Some s1 /\ inv T X N (set_entries (delete a (entries s1)) s1) /\ delete a (entries s1) = delete a (entries s) /\ aside s s1.
Proof.
  intros Hi Ha Hl Em. pose proof (i_ok _ _ _ _ _ _ _ Hi a e Ha) as Ho. destruct (hkey e) as [k|] eqn:Ek; [|exfalso; pose proof (l_key _ _ _ _ (i_locks _ _ _ _ _ _ _ Hi) a e Ha Ek); destruct (unlocked_facts T X N s a e Hi Ha Hl) as (_ & _ & _ & ? & _); lia].
  destruct (unlink_ok P K s a e k (i_keys _ _ _ _ _ _ _ Hi) Ha Ek) as (s1 & E & Es & Et & Ec & Hk & (R1 & R2 & R3 & R4 & R5)). exists s1. split; [done|].
  assert (delete a (entries s1) = delete a (entries s)) as Ed by (rewrite Es; apply delete_insert_eq). split; [|done]. set (s' := set_entries _ s1).
  assert (entries s' = delete a (entries s)) as Es' by exact Ed. destruct (unlocked_facts T X N s a e Hi Ha Hl) as (Hh & Hs & Hw & Hc & Hwk).
  assert (mem_status e = NOT_IN_MEMORY) as Hm. { destruct (mem_status e) eqn:E1; [done|]. by destruct (e_mem _ _ Ho E1). }
  assert (forall x, held T X x s' = held T X x s) as Hheld.
  { intros x. unfold held. change (late s') with (late s1). rewrite R3, Es', (msum_delete _ _ _ _ Ha). unfold links at 2. rewrite Em. lia. }
  assert (forall x y, entries s' !! x = Some y -> x <> a /\ entries s !! x = Some y) as Hin.
  { intros x y. rewrite Es'. destruct (decide (x = a)) as [->|Hx]; map_simpl; done. }
  split.
  - split; [intros k' x|cbn; rewrite Et|intros x y k' Hx Hy].
    + change (table s') with (table s1). rewrite Et, list_elem_of_filter, (k_tab _ _ _ (i_keys _ _ _ _ _ _ _ Hi)), Es'. cbn [snd]. destruct (decide (x = a)) as [->|Hx]; map_simpl; [split; [by intros [? _]|by intros (? & ? & _)]|tauto].
    + apply (sublist_NoDup _ (table s).*1); [apply Hi|]. apply fmap_sublist, sublist_filter.
    + change (key_counter s') with (key_counter s1). rewrite Ec. destruct (Hin x y Hx) as [_ Hx']. by apply (k_ok _ _ _ (i_keys _ _ _ _ _ _ _ Hi) x).
  - unfold count. change (key_counter s') with (key_counter s1). rewrite Ec, Es', (msum_delete _ _ _ _ Ha). pose proof (i_count _ _ _ _ _ _ _ Hi) as Hcn. unfold count in Hcn. assert (0 <= public a e) by (unfold public, one; by destruct (negb _)). lia.
  - destruct (i_locks _ _ _ _ _ _ _ Hi) as [L1 L2 L3 L4 L5 L6]. split; [intros x y Hx|intros x|intros x y Hx|intros x y Hx|intros x y Hx|exact L6]; rewrite ?Hheld; try (destruct (Hin x y Hx) as [_ Hx']; solve [by apply L1|by apply L3|by apply L4|by apply L5]).
    rewrite Es'. destruct (decide (x = a)) as [->|Hx]; map_simpl; [done|apply L2].
  - destruct (i_hots _ _ _ _ _ _ _ Hi) as [H1 H2 H3]. split; cbn [hot hot_obj_count set_entries s']; rewrite ?R1, ?R2; [intros x|done|].
    + rewrite H1, Es'. destruct (decide (x = a)) as [->|Hx]; map_simpl; [|done]. split; intros (y & Hy & Hy1 & _); [congruence|done].
    + rewrite Es', (msum_delete _ _ _ _ Ha), H3. unfold inmem at 3. rewrite Hm, bool_decide_false by done. cbn. lia.
  - intros x y Hx. apply (i_ok _ _ _ _ _ _ _ Hi x). by apply Hin.
Qed.

Lemma destroyEntry_ok u f T X N s a e : unlock_spec f u -> inv T X N s -> entries s !! a = Some e -> lock_count e = 0 -> mem_status e = NOT_IN_MEMORY -> msum hasmem (entries s) <= f ->
  exists s', destroy_StoreEntry u a s = Some s' /\ inv T X N s' /\ frame (Some a) T s s' /\ entries s' !! a = None.
Proof.
  intros Hu Hi Ha Hl Hm Hf. unfold destroy_StoreEntry. rewrite Ha. bind_simpl.
  assert (exists s1 e1, (if is_some (mem_obj e) then destroy_MemObject u a s else Some s) = Some s1 /\ inv T X N s1 /\ frame (Some a) T s s1 /\ entries s1 !! a = Some e1 /\ lock_count e1 = 0 /\ mem_obj e1 = None)
    as (s1 & e1 & -> & H1 & F1 & Ha1 & Hl1 & Em1).
  { destruct (mem_obj e) as [m|] eqn:Em; cbn [is_some]; [|exists s, e; split; [done|]; split; [done|]; split; [apply frame_refl|done]].
    destruct (destroyMem_ok u f T X N s a e) as (s1 & E & H1 & F1 & Ha1); try done; [by rewrite Em|]. by exists s1, (set_mem None e). }
  bind_simpl. destruct (delete_ok T X N s1 a e1 H1 Ha1 Hl1 Em1) as (s2 & -> & H2 & Ed & (A1 & A2 & A3)). bind_simpl. eexists. split; [done|]. split; [done|].
  split; [|cbn; by map_simpl]. apply (frame_trans _ _ _ s1); [done|]. by apply (frame_delete T s1 _ a e1).
Qed.

Lemma ext_inv T X N s s' : inv T X N s -> entries s' = entries s -> table s' = table s -> key_counter s' = key_counter s -> hot s' = hot s -> hot_obj_count s' = hot_obj_count s -> late s' = late s -> inv T X N s'.
Proof.
  intros [[A1 A2 A3] B [C1 C2 C3 C4 C5 C6] [D1 D2 D3] E] Ee Et Ek Eh Ec El. unfold count in *. split; [split|unfold count|split|split|]; unfold held in *; rewrite ?Ee, ?Et, ?Ek, ?Eh, ?Ec, ?El; done.
Qed.

(** While a cache directory is scanned, an entry on disk waits for the end of the scan. *)
Lemma late_inv T X N s a e : inv T X N s -> entries s !! a = Some e -> lock_count e = 0 -> mem_obj e = None -> PRIVATE e = true ->
  inv T X N (set_late (a :: late s) (set_entries (<[a := set_flags (CACHABLE e) true (set_locks (wrap_u 16 (lock_count e + 1)) e)]> (entries s)) s)).
Proof.
  intros Hi Ha Hl Em Hp. destruct (unlocked_facts T X N s a e Hi Ha Hl) as (Hh & Hs & Hw & Hc & Hk). rewrite Hl. change (wrap_u 16 (0 + 1)) with 1. set (e' := set_flags _ _ _). set (s' := set_late _ _).
  assert (entries s' = <[a := e']> (entries s)) as Es by done. pose proof (i_ok _ _ _ _ _ _ _ Hi a e Ha) as [O1 O2 O3 O4 O5].
  split; [by apply (keys_upd P K s s' a e e'); try apply Hi|by apply (count_upd N s s' a e e'); try apply Hi| |by apply (hots_upd s s' a e e'); try apply Hi|by apply (ok_upd P s s' a e'); try apply Hi].
  assert (forall x, held T X x s' = held T X x s + one (bool_decide (a = x))) as Hheld.
  { intros x. unfold held. rewrite Es, (msum_upd _ _ _ _ _ Ha). change (late s') with (a :: late s). rewrite cnt_cons. change (links x a e') with (links x a e). unfold one. lia. }
  apply (locks_gen Y T X T X s s' a e e'); try done; [apply Hi| | | |apply (l_key _ _ _ _ (i_locks _ _ _ _ _ _ _ Hi) a e Ha)|apply (i_locks _ _ _ _ _ _ _ Hi)].
  - intros x Hx. rewrite Hheld, bool_decide_false by congruence. cbn [one]. lia.
  - rewrite Hheld, bool_decide_true by done. change (self e') with (self e). cbn [lock_count set_flags set_locks e' one]. lia.
  - rewrite weak_none by done. change (pending e') with (pending e). rewrite weak_pending by done. done.
Qed.

(** A release of an entry in use. *)
Lemma mark_ok T X N s a e : inv T X N s -> entries s !! a = Some e ->
  exists s' e', (let? s := storeExpireNow a s in storeReleaseRequest a s) = Some s' /\ inv T X N s' /\ frame (Some a) T s s' /\ entries s' !! a = Some e' /\ PRIVATE e' = true /\ RELEASE_REQUEST e' = true.
Proof.
  intros Hi Ha. unfold storeExpireNow. rewrite (upd_eq _ _ _ e) by done. bind_simpl. set (e1 := set_expires _ e). set (s1 := set_entries _ s). assert (entries s1 !! a = Some e1) as Ha1 by (cbn; by map_simpl).
  assert (inv T X N s1) as H1.
  { pose proof (i_ok _ _ _ _ _ _ _ Hi a e Ha) as [O1 O2 O3 O4 O5]. apply (inv_upd P K Y T X N s s1 a e e1); try done; [by apply (keys_upd P K s s1 a e e1); try apply Hi|by apply (count_upd N s s1 a e e1); try apply Hi|].
    apply (l_cach _ _ _ _ (i_locks _ _ _ _ _ _ _ Hi) a e Ha). }
  destruct (releaseRequest_inv P K Y junk T X N s1 a e1 H1 Ha1) as (s' & e' & -> & H' & Es & Hr & Hrel & Hp & (_ & _ & _ & R4 & R5)). exists s', e'. split; [done|]. split; [done|].
  split; [|split; [rewrite Es; by map_simpl|done]]. apply (frame_trans _ _ _ s1); [by apply (frame_upd T s s1 a e e1)|]. apply (frame_upd T s1 s' a e1 e'); try done; [congruence|].
  destruct Hr as [->|Hr]; [done|]. destruct (rekeyed_facts Y _ _ Hr) as (_ & _ & _ & _ & _ & _ & _ & _ & _ & _ & _ & _ & i & E). unfold hasmem. rewrite E. cbn. by destruct (mem_obj e).
Qed.

(** A release of an entry on disk while a cache directory is scanned. *)
Lemma postpone_ok u f T X N s a e : unlock_spec f u -> inv T X N s -> entries s !! a = Some e -> lock_count e = 0 -> msum hasmem (entries s) <= f ->
  exists s' e', (let? s := storeSetPrivateKey a s in
    if is_some (mem_obj e) then let? s := storeSetMemStatus a NOT_IN_MEMORY s in destroy_MemObject u a s else Some s) = Some s' /\ inv T X N s' /\ frame (Some a) T s s' /\
    entries s' !! a = Some e' /\ lock_count e' = 0 /\ mem_obj e' = None /\ PRIVATE e' = true /\ swap_filen e' = swap_filen e.
Proof.
  intros Hu Hi Ha Hl Hf. destruct (private_inv P K Y junk T X N s a e Hi Ha) as (s1 & e1 & -> & H1 & Es1 & Hr & Hp & (_ & _ & _ & R4 & R5)). bind_simpl.
  destruct (rekeyed_facts Y _ _ Hr) as (_ & F2 & _ & _ & _ & _ & _ & _ & F9 & _ & _ & _ & i & Em1). assert (entries s1 !! a = Some e1) as Ha1 by (rewrite Es1; by map_simpl).
  assert (is_some (mem_obj e1) = is_some (mem_obj e)) as Em by (rewrite Em1; by destruct (mem_obj e)).
  assert (frame (Some a) T s s1) as Fr1. { apply (frame_upd T s s1 a e e1); try done; [congruence|]. unfold hasmem. by rewrite Em. }
  rewrite <- Em. destruct (mem_obj e1) as [m|] eqn:Em'; cbn [is_some]; [|exists s1, e1; splits; congruence].
  destruct (cool T X N s1 a e1 H1 Ha1) as (s2 & -> & H2 & Es2 & (A1 & A2 & A3)). bind_simpl. set (e2 := set_mem_status NOT_IN_MEMORY e1) in *. assert (entries s2 !! a = Some e2) as Ha2 by (rewrite Es2; by map_simpl).
  assert (frame (Some a) T s1 s2) as Fr2 by (by apply (frame_upd T s1 s2 a e1 e2)). pose proof (f_mem _ _ _ _ Fr1). pose proof (f_mem _ _ _ _ Fr2).
  destruct (destroyMem_ok u f T X N s2 a e2) as (s3 & -> & H3 & Fr3 & Ha3); try done; [cbn; by rewrite Em'|cbn; congruence|lia|]. exists s3, (set_mem None e2). split; [done|]. split; [done|].
  split; [apply (frame_trans _ _ _ s1); [done|]; by apply (frame_trans _ _ _ s2)|]. split; [done|]. split; [cbn; congruence|]. split; [done|]. split; [done|cbn; congruence].
Qed.

Lemma release_ok u f T X N s a e : unlock_spec f u -> inv T X N s -> entries s !! a = Some e -> msum hasmem (entries s) <= f ->
  exists s', storeRelease_with u a s = Some s' /\ inv T X N s' /\ frame (Some a) T s s' /\ forall e', entries s' !! a = Some e' -> PRIVATE e' = true /\ RELEASE_REQUEST e' = true.
Proof.
  intros Hu Hi Ha Hf. unfold storeRelease_with. rewrite Ha. bind_simpl. destruct (storeEntryLocked e) eqn:El.
  { destruct (mark_ok T X N s a e Hi Ha) as (s' & e' & -> & H' & Fr & Ha' & Hp & Hr). exists s'. split; [done|]. split; [done|]. split; [done|]. rewrite Ha'. by intros ? [= <-]. }
  assert (lock_count e = 0) as Hl. { unfold storeEntryLocked in El. destruct (lock_count e =? 0) eqn:E; [by apply Z.eqb_eq|done]. }
  destruct (rebuilding s && (-1 <? swap_filen e)) eqn:Ereb.
  - apply andb_true_iff in Ereb as [_ Ef]. destruct (postpone_ok u f T X N s a e Hu Hi Ha Hl Hf) as (s1 & e1 & E1 & H1 & Fr1 & Ha1 & Hl1 & Em1 & Hp1 & Ef1).
    revert E1. destruct (storeSetPrivateKey a s) as [s0|]; [|done]. bind_simpl. intros ->. bind_simpl. rewrite Ha1. bind_simpl. rewrite Ef1, Ef. rewrite (upd_eq _ _ _ e1) by done. bind_simpl. cbn [negb].
    eexists. split; [done|]. split; [exact (late_inv T X N s1 a e1 H1 Ha1 Hl1 Em1 Hp1)|]. cbn [entries set_late set_entries]. split; [|map_simpl; by intros ? [= <-]].
    apply (frame_trans _ _ _ s1); [done|]. by apply (frame_upd T s1 _ a e1 (set_flags (CACHABLE e1) true (set_locks (wrap_u 16 (lock_count e1 + 1)) e1))).
  - bind_simpl. cbn [negb]. rewrite Ha. bind_simpl.
    assert (exists s1, (if -1 <? swap_filen e then let s := set_unlinked (swap_filen e :: unlinked s) s in if negb (PRIVATE e) then storeDirSwapLog false a s else Some s else Some s) = Some s1 /\
      inv T X N s1 /\ entries s1 = entries s /\ curtime s1 = curtime s /\ rebuilding s1 = rebuilding s) as (s1 & E1 & H1 & Es1 & Et1 & Er1).
    { unfold storeDirSwapLog. cbn [entries set_unlinked]. rewrite Ha. bind_simpl. destruct (-1 <? swap_filen e), (PRIVATE e); cbn [negb]; eexists; (split; [reflexivity|]); (split; [|done]); by apply (ext_inv T X N s). }
    cbv zeta in E1 |- *. rewrite E1. bind_simpl. clear E1. rewrite <- Es1 in Ha, Hf. destruct (cool T X N s1 a e H1 Ha) as (s2 & -> & H2 & Es2 & (A1 & A2 & A3)). bind_simpl.
    set (e2 := set_mem_status NOT_IN_MEMORY e) in *. assert (entries s2 !! a = Some e2) as Ha2 by (rewrite Es2; by map_simpl). assert (frame (Some a) T s1 s2) as Fr2 by (by apply (frame_upd T s1 s2 a e e2)).
    pose proof (f_mem _ _ _ _ Fr2). destruct (destroyEntry_ok u f T X N s2 a e2) as (s3 & -> & H3 & Fr3 & Ha3); try done; [lia|]. exists s3. split; [done|]. split; [done|]. split; [|by rewrite Ha3].
    apply (frame_trans _ _ _ s1); [by apply frame_ext|]. by apply (frame_trans _ _ _ s2).
Qed.

(** ** Purging and unlocking *)

Lemma purge_ok u f T X N s a e : unlock_spec f u -> inv T X N s -> entries s !! a = Some e -> lock_count e = 0 -> msum hasmem (entries s) <= f ->
  exists s', storePurgeMem_with u a s = Some s' /\ inv T X N s' /\ frame (Some a) T s s' /\ (mem_obj e = None \/ done_ e = true -> exists e', entries s' !! a = Some e').
Proof.
  intros Hu Hi Ha Hl Hf. unfold storePurgeMem_with. rewrite Ha. bind_simpl. destruct (mem_obj e) as [m|] eqn:Em; cbn [is_some].
  2:{ exists s. split; [done|]. split; [done|]. split; [apply frame_refl|]. intros _. by exists e. }
  destruct (cool T X N s a e Hi Ha) as (s1 & -> & H1 & Es1 & (A1 & A2 & A3)). bind_simpl. set (e1 := set_mem_status NOT_IN_MEMORY e) in *. assert (entries s1 !! a = Some e1) as Ha1 by (rewrite Es1; by map_simpl).
  assert (frame (Some a) T s s1) as Fr1 by (by apply (frame_upd T s s1 a e e1)). pose proof (f_mem _ _ _ _ Fr1).
  destruct (destroyMem_ok u f T X N s1 a e1) as (s2 & -> & H2 & Fr2 & Ha2); try done; [cbn; by rewrite Em|lia|]. bind_simpl. rewrite Ha2. bind_simpl. pose proof (f_mem _ _ _ _ Fr2).
  assert (frame (Some a) T s s2) as Fr by (by apply (frame_trans _ _ _ s1)). change (done_ (set_mem None e1)) with (done_ e). destruct (done_ e); cbn [negb].
  - exists s2. split; [done|]. split; [done|]. split; [done|]. intros _. by eexists.
  - destruct (release_ok u f T X N s2 a _ Hu H2 Ha2 ltac:(lia)) as (s3 & -> & H3 & Fr3 & _). exists s3. split; [done|]. split; [done|]. split; [by apply (frame_trans _ _ _ s2)|]. by intros [?|?].
Qed.

(** The lock itself. *)
Lemma unlock_count T X N s a : inv T (a :: X) N s -> exists e, entries s !! a = Some e /\ 0 < lock_count e /\ wrap_u 16 (lock_count e - 1) = lock_count e - 1 /\
  inv T X N (set_entries (<[a := set_locks (lock_count e - 1) e]> (entries s)) s).
Proof.
  intros Hi. pose proof (i_locks _ _ _ _ _ _ _ Hi) as Hl. assert (1 <= held T (a :: X) a s) as Hh.
  { unfold held. rewrite cnt_cons, bool_decide_true by done. pose proof (cnt_pos a T). pose proof (cnt_pos a X). pose proof (cnt_pos a (late s)).
    assert (0 <= msum (links a) (entries s)); [|lia]. apply msum_pos, links_pos. }
  destruct (entries s !! a) as [e|] eqn:Ha; [|pose proof (l_dead _ _ _ _ Hl a Ha); lia]. exists e. split; [done|]. destruct (l_live _ _ _ _ Hl a e Ha) as [E Hb].
  assert (0 <= self e) by (unfold self, one; destruct (mem_obj e), (writing e); lia). split; [lia|]. split; [apply wrap_u_small; lia|].
  set (e' := set_locks _ e). set (s' := set_entries _ s). pose proof (i_ok _ _ _ _ _ _ _ Hi a e Ha) as [O1 O2 O3 O4 O5].
  split; [by apply (keys_upd P K s s' a e e'); try apply Hi|by apply (count_upd N s s' a e e'); try apply Hi| |by apply (hots_upd s s' a e e'); try apply Hi|by apply (ok_upd P s s' a e'); try apply Hi].
  assert (forall x, held T X x s' = held T (a :: X) x s - one (bool_decide (a = x))) as Hheld.
  { intros x. rewrite (held_upd Y T X s s' x a e e') by done. change (links x a e') with (links x a e). unfold held. rewrite cnt_cons. unfold one. lia. }
  apply (locks_gen Y T (a :: X) T X s s' a e e'); try done.
  - intros x Hx. rewrite Hheld, bool_decide_false by congruence. cbn [one]. lia.
  - rewrite Hheld, bool_decide_true by done. change (self e') with (self e). cbn [lock_count set_locks e' one]. lia.
  - cbn. lia.
  - apply (l_weak _ _ _ _ Hl a e Ha).
  - apply (l_cach _ _ _ _ Hl a e Ha).
  - apply (l_key _ _ _ _ Hl a e Ha).
  - apply Hl.
Qed.

(** An entry that is kept has no request. *)
Lemma request_inv T X N s a e m r : inv T X N s -> entries s !! a = Some e -> mem_obj e = Some m -> inv T X N (set_entries (<[a := set_mem (Some (set_request r m)) e]> (entries s)) s).
Proof.
  intros Hi Ha Em. set (e' := set_mem _ e). set (s' := set_entries _ s). pose proof (i_ok _ _ _ _ _ _ _ Hi a e Ha) as [O1 O2 O3 O4 O5]. rewrite Em in O3.
  apply (inv_upd P K Y T X N s s' a e e'); try done; [by apply (keys_upd P K s s' a e e'); try apply Hi|by apply (count_upd N s s' a e e'); try apply Hi| | | | |].
  - intros x. unfold links. cbn [mem_obj e' set_mem]. by rewrite Em.
  - unfold self. cbn [mem_obj e' set_mem]. change (writing e') with (writing e). by rewrite Em.
  - unfold weak, storeKeepInMemory. cbn [mem_obj e' set_mem RELEASE_REQUEST]. by rewrite Em.
  - apply (l_cach _ _ _ _ (i_locks _ _ _ _ _ _ _ Hi) a e Ha).
  - split; try done. cbn. intros x [= <-]. cbn. by apply O5.
Qed.

Lemma unlock_fuel_ok n : unlock_spec (Z.of_nat n) (unlock_fuel n).
Proof.
  induction n as [|n IH]; intros T X N s a Hi Hf; [pose proof (msum_pos hasmem (entries s) ltac:(intros ? x; unfold hasmem, one; by destruct (is_some _))); lia|].
  destruct (unlock_count T X N s a Hi) as (e & Ha & Hpos & Ew & H1). cbn [unlock_fuel]. rewrite (upd_eq _ _ _ e) by done. bind_simpl. rewrite Ew. set (e1 := set_locks _ e) in *. set (s1 := set_entries _ s) in *.
  assert (entries s1 !! a = Some e1) as Ha1 by (cbn; by map_simpl). rewrite Ha1. bind_simpl. assert (frame (Some a) T s s1) as Fr1 by (by apply (frame_upd T s s1 a e e1)).
  destruct (Z.eqb_spec (lock_count e1) 0) as [Hl|Hl]; cbn [negb].
  2:{ exists s1. split; [done|]. split; [done|]. destruct Fr1 as [F1 F2 F3 F4 F5]. split; try done; intros x y _ Hx Hy; (destruct (decide (x = a)) as [->|Hn]; [|by (apply F1 || apply F2); congruence]); [|exists (lock_count e - 1); assert (y = e) as -> by congruence; split; [lia|done]].
      assert (y = e) as -> by congruence. lia. }
  destruct (unlocked_facts T X N s1 a e1 H1 Ha1 Hl) as (_ & Hs & Hw & Hc & Hwk). rewrite (weak_pending e1 Hwk). bind_simpl. rewrite Ha1. bind_simpl. pose proof (f_mem _ _ _ _ Fr1).
  assert (forall s', frame (Some a) T s1 s' -> frame None T s s') as Hfr by (intros s' Fr; apply (frame_whole a T s s' e); [by apply (frame_trans _ _ _ s1)|done|lia|done]).
  assert (match mem_obj e1 with None => true | Some mem => (nclients mem =? 0)%nat end = true) as ->.
  { unfold self in Hs. rewrite Hw in Hs. destruct (mem_obj e1) as [m|]; [|done]. cbn [one] in Hs. apply Nat.eqb_eq. lia. }
  destruct (RELEASE_REQUEST e1) eqn:Er; [|destruct (storeKeepInMemory e1) eqn:Ek].
  - destruct (release_ok _ _ T X N s1 a e1 IH H1 Ha1 ltac:(lia)) as (s' & -> & H' & Fr & _). exists s'. split; [done|]. split; [done|]. auto.
  - unfold storeKeepInMemory in Ek. destruct (mem_obj e1) as [m|] eqn:Em; [|done]. apply andb_true_iff in Ek as [_ Ek]. apply Z.eqb_eq in Ek.
    destruct (heat T X N s1 a e1 m H1 Ha1 Em Ek) as (s2 & -> & H2 & Es2 & (A1 & A2 & A3)). bind_simpl. set (e2 := set_mem_status IN_MEMORY e1) in *. assert (entries s2 !! a = Some e2) as Ha2 by (rewrite Es2; by map_simpl).
    rewrite (upd_eq _ _ _ e2) by done. change (mem_obj e2) with (mem_obj e1). rewrite Em. eexists. split; [done|]. split; [by apply (request_inv T X N s2 a e2 m None)|].
    apply Hfr. apply (frame_trans _ _ _ s2); [by apply (frame_upd T s1 s2 a e1 e2)|]. apply (frame_upd T s2 _ a e2 (set_mem (set_request None <$> Some m) e2)); try done. change (hasmem a e2) with (one (is_some (mem_obj e1))). by rewrite Em.
  - destruct (purge_ok _ _ T X N s1 a e1 IH H1 Ha1 Hl ltac:(lia)) as (s2 & -> & H2 & Fr2 & Hlive). bind_simpl. destruct Hlive as [e2 Ha2].
    { unfold weak in Hwk. apply orb_false_iff in Hwk as [_ Hwk]. rewrite Er, Ek in Hwk. cbn [negb andb] in Hwk. rewrite andb_true_r in Hwk. destruct (mem_obj e1) as [m|]; [right|by left]. cbn [is_some] in Hwk. rewrite andb_true_r in Hwk.
      unfold done_, unwritten, writing in *. by destruct (swap_status e1). }
    rewrite Ha2. bind_simpl. exists s2. split; [done|]. split; [done|]. auto.
Qed.

End locks.

End StoreLocks.
