(* ===== verification/StoreEvents.v ===== *)
(** * The storage manager: what the rest of the cache may do with entries

    The calls of the other parts of the cache on the entries of the store, in
    any order that respects what these parts promise ([allowed]).  [T] has an
    address for every lock that a part has taken and not given back. *)

From Stdlib Require Import ZArith Lia Ascii String.
From stdpp Require Import base gmap strings list numbers option fin_maps.
From S2P Require Import Prelude CStr StoreEntry HttpMethod StoreKey Store StoreInv StoreLocks.
Import StoreEntry Store StoreInv StoreLocks.

Module StoreEvents.

Inductive event :=
| Create (a : positive) (u : bytes) (m : option HttpMethod.method_t) (private_keys cachable : bool)
| Restore (a : positive) (n : name) (k : key) (fn exp lastr : Z) (special early : bool)
| Lock (a : positive)
| Unlock (a : positive)
| Register (a : positive)
| Unregister (a : positive)
| MakePublic (a : positive)
| EarlyPublic (a : positive) (r : StoreKey.request_key)
| SetRequest (a : positive) (r : option StoreKey.request_key)
| SetStoreUrl (a : positive) (u : bytes)
| CreateMem (a : positive) (u : bytes) (m : option HttpMethod.method_t)
| Data (a : positive) (h : bool) (lo : Z)
| Complete (a : positive)
| Reforward (a : positive) (negcached cachable : bool)
| Special (a : positive)
| SwapOut (a : positive) (fn : option Z)
| SwapClosed (a : positive) (err cachable : bool)
| Link (ims : bool) (a b : positive)
| Unlink (ims : bool) (a : positive)
| Release (a : positive)
| ReleaseRequest (a : positive)
| MemSpace (walk : list positive)
| LateRelease
| Rebuilding (b : bool)
| Time (t : Z).

Fixpoint give_back (a : positive) (l : list positive) : list positive :=
  match l with
  | [] => []
  | b :: l => if bool_decide (b = a) then l else b :: give_back a l
  end.

(** The locks that are held after an event. *)
Definition tokens_after (ev : event) (T : list positive) : list positive :=
  match ev with
  | Create a _ _ _ _ | Lock a => a :: T
  | Unlock a => give_back a T
  | _ => T
  end.

Definition set_store_url (u : option bytes) (m : MemObject) : MemObject :=
  mkMem (url m) u (method m) (request m) (id m) (head m) (inmem_lo m) (sio m) (nclients m) (ims_entry m) (old_entry m).
Definition set_special (e : entry) : entry :=
  mkE (hkey e) (mem_obj e) (expires e) (lastref e) (swap_filen e) (lock_count e) (mem_status e) (store_status e) (swap_status e) true (CACHABLE e) (RELEASE_REQUEST e) (PRIVATE e) (EARLY_PUBLIC e).

Definition upd_mem (a : positive) (f : MemObject -> MemObject) (s : store) : option store :=
  let? e := entries s !! a in
  let? m := mem_obj e in
  upd a (set_mem (Some (f m))) s.

Section events.
Context `{SK : StoreKeys}.

Definition handle (ev : event) (s : store) : option store :=
  match ev with
  | Create a u m p c => storeCreateEntry a u m p c s
  | Restore a _ k fn exp lastr sp ea => storeAufsDirAddDiskRestore a k fn exp lastr sp ea s
  | Lock a => storeLockObject a s
  | Unlock a => storeUnlockObject a s
  | Register a => storeClientRegister a s
  | Unregister a => storeClientUnregister a s
  | MakePublic a => httpMakePublic a s
  | EarlyPublic a r => early_public a r s
  | SetRequest a r => upd_mem a (set_request r) s
  | SetStoreUrl a u => upd_mem a (set_store_url (Some u)) s
  | CreateMem a u m => storeCreateMemObject a u m s
  | Data a h lo => upd_mem a (set_data h lo) s
  | Complete a => upd a (set_store_status STORE_OK) s
  | Reforward a n c => reforward a n c s
  | Special a => upd a set_special s
  | SwapOut a fn => storeSwapOutStart a fn s
  | SwapClosed a err c => storeSwapOutFileClosed a err c s
  | Link ims a b => make_link ims a b s
  | Unlink ims a => drop_link ims a s
  | Release a => storeRelease a s
  | ReleaseRequest a => storeReleaseRequest a s
  | MemSpace walk => storeGetMemSpace walk s
  | LateRelease => storeLateRelease s
  | Rebuilding b => Some (set_rebuilding b s)
  | Time t => Some (set_time t s)
  end.

Context (P : bytes -> option HttpMethod.method_t -> Prop) (K : name -> Prop).

Definition has_mem (e : entry) : Prop := mem_obj e <> None.
Definition lockable (e : entry) : Prop := lock_count e < 2 ^ 16 - 1.

(** What the callers promise.  Only live entries are named.  Locks are counted
    in 16 bits.  An entry that is to be released is locked only by those who
    hold it already.  The last one who holds an entry that is being fetched
    completes it or has it released, with its bytes in memory or on disk.
    Public names are set, and memory is added, by holders of the entry; an
    entry gets a name under which it can be found; data is not taken away from entries that
    are kept in memory for others. *)
Definition allowed (ev : event) (T : list positive) (s : store) : Prop :=
  match ev with
  | Create a u m p _ => entries s !! a = None /\ P u m /\ (p = false -> K (ByUrl u m))
  | Restore a n k _ _ _ _ _ => entries s !! a = None /\ K n /\ key_of n = Some k /\ hash_lookup k s = None
  | Lock a => exists e, entries s !! a = Some e /\ lockable e /\ (RELEASE_REQUEST e = false \/ a ∈ T)
  | Unlock a => exists e, entries s !! a = Some e /\ a ∈ T /\ (a ∈ give_back a T \/ weak e = false)
  | Register a => exists e, entries s !! a = Some e /\ has_mem e /\ lockable e
  | Unregister a => exists e, entries s !! a = Some e /\ has_mem e
  | MakePublic a => exists e m, entries s !! a = Some e /\ a ∈ T /\ mem_obj e = Some m /\ K (name_of (set_request (no_vary <$> request m) m))
  | EarlyPublic a r => exists e, entries s !! a = Some e /\ a ∈ T /\ has_mem e /\ RELEASE_REQUEST e = false /\ K (ByRequest (no_vary r))
  | SetRequest a _ | SetStoreUrl a _ => exists e, entries s !! a = Some e /\ has_mem e
  | CreateMem a u m => exists e, entries s !! a = Some e /\ a ∈ T /\ P u m
  | Data a h lo => exists e m, entries s !! a = Some e /\ mem_obj e = Some m /\ (a ∈ T \/ weak (set_mem (Some (set_data h lo m)) e) = false)
  | Complete a => exists e, entries s !! a = Some e /\ a ∈ T
  | Reforward a _ _ => exists e, entries s !! a = Some e /\ a ∈ T
  | Special a => exists e, entries s !! a = Some e /\ mem_status e = NOT_IN_MEMORY
  | SwapOut a _ => exists e, entries s !! a = Some e /\ has_mem e /\ swap_status e = SWAPOUT_NONE /\ lockable e
  | SwapClosed a _ _ => exists e, entries s !! a = Some e /\ writing e = true
  | Link _ a b => exists e f, entries s !! a = Some e /\ a ∈ T /\ has_mem e /\ entries s !! b = Some f /\ b ∈ T /\ lockable f
  | Unlink _ a => exists e, entries s !! a = Some e /\ a ∈ T /\ has_mem e
  | Release a | ReleaseRequest a => exists e, entries s !! a = Some e
  | _ => True
  end.

Fixpoint run (evs : list event) (T : list positive) (s : store) : option (list positive * store) :=
  match evs with
  | [] => Some (T, s)
  | ev :: evs => let? s := handle ev s in run evs (tokens_after ev T) s
  end.

(** Every event is allowed when it comes. *)
Fixpoint disciplined (evs : list event) (T : list positive) (s : store) : Prop :=
  match evs with
  | [] => True
  | ev :: evs => allowed ev T s /\ forall s', handle ev s = Some s' -> disciplined evs (tokens_after ev T) s'
  end.

Definition empty_store (reb : bool) (now : Z) : store := mkS ∅ [] 0 [] 0 [] reb now [] [].

Context `{SL : !StoreKeyLaws P K} (junk : P JUNK NONE).

#[local] Abbreviation invY := (inv P K).
#[local] Abbreviation inv := (inv P K None).
#[local] Abbreviation entry_ok := (entry_ok P).

(** ** One entry changes *)

Lemma mod_gen Y T X T' X' N N' s s' a e e' : invY Y T X N s -> entries s !! a = Some e -> entries s' = <[a := e']> (entries s) -> keys P K s' -> count N' s' -> rest s s' ->
  mem_status e' = mem_status e -> SPECIAL e' = SPECIAL e -> entry_ok e' ->
  (forall x, x <> a -> cnt x T' = cnt x T /\ cnt x X' + links Y x a e' = cnt x X + links Y x a e) ->
  lock_count e' - self e' - cnt a T' - cnt a X' - links Y a a e' = lock_count e - self e - cnt a T - cnt a X - links Y a a e -> lock_count e' < 2 ^ 16 ->
  (weak e' = true -> 1 <= cnt a T') -> (RELEASE_REQUEST e' = true -> CACHABLE e' = true -> cnt a T' = 0) -> (hkey e' = None -> 1 <= cnt a T') -> cnt a T <= cnt a T' -> invY Y T' X' N' s'.
Proof.
  intros Hi Ha Ee Hk Hn (R1 & R2 & R3 & _) Em Es Ho Hx Hl Hb Hw Hc Hy Ht. assert (forall c, cnt c T <= cnt c T') as Hle by (intros c; destruct (decide (c = a)) as [->|?]; [done|destruct (Hx c); [done|lia]]).
  split; [done|done| |by apply (hots_upd s s' a e e'); try apply Hi|by apply (ok_upd P s s' a e'); try apply Hi].
  apply (locks_gen Y T X T' X' s s' a e e'); try done; [apply Hi| | |].
  - intros x Hq. rewrite (held_upd Y T' X' s s' x a e e') by done. destruct (Hx x Hq). unfold held. split; lia.
  - rewrite (held_upd Y T' X' s s' a a e e') by done. unfold held. lia.
  - intros c b E. pose proof (l_stale _ _ _ _ (i_locks _ _ _ _ _ _ _ Hi) c b E). pose proof (Hle c). lia.
Qed.

Lemma mod_inv Y T X T' X' N s a e e' : invY Y T X N s -> entries s !! a = Some e -> hkey e' = hkey e -> PRIVATE e' = PRIVATE e -> mem_status e' = mem_status e -> SPECIAL e' = SPECIAL e -> entry_ok e' ->
  (forall x, x <> a -> cnt x T' = cnt x T /\ cnt x X' + links Y x a e' = cnt x X + links Y x a e) ->
  lock_count e' - self e' - cnt a T' - cnt a X' - links Y a a e' = lock_count e - self e - cnt a T - cnt a X - links Y a a e -> lock_count e' < 2 ^ 16 ->
  (weak e' = true -> 1 <= cnt a T') -> (RELEASE_REQUEST e' = true -> CACHABLE e' = true -> cnt a T' = 0) -> cnt a T <= cnt a T' ->
  invY Y T' X' N (set_entries (<[a := e']> (entries s)) s).
Proof.
  intros Hi Ha Ek Ep Em Es Ho Hx Hl Hb Hw Hc Ht. set (s' := set_entries _ s).
  apply (mod_gen Y T X T' X' N N s s' a e e'); try done; [by apply (keys_upd P K s s' a e e'); try apply Hi|by apply (count_upd N s s' a e e'); try apply Hi|].
  rewrite Ek. intros En. pose proof (l_key _ _ _ _ (i_locks _ _ _ _ _ _ _ Hi) a e Ha En). lia.
Qed.

(** A change that locks do not depend on. *)
Lemma plain_inv T X N s a e e' : inv T X N s -> entries s !! a = Some e -> hkey e' = hkey e -> PRIVATE e' = PRIVATE e -> mem_status e' = mem_status e -> SPECIAL e' = SPECIAL e -> entry_ok e' ->
  (forall x, links None x a e' = links None x a e) -> lock_count e' = lock_count e -> self e' = self e ->
  (weak e' = true -> 1 <= cnt a T) -> (RELEASE_REQUEST e' = true -> CACHABLE e' = true -> cnt a T = 0) -> inv T X N (set_entries (<[a := e']> (entries s)) s).
Proof.
  intros Hi Ha Ek Ep Em Es Ho Hx Hl Hb Hw Hc. apply (mod_inv None T X T X N s a e e'); try done; [intros x _; rewrite Hx; lia|rewrite Hx; lia|rewrite Hl; apply (l_live _ _ _ _ (i_locks _ _ _ _ _ _ _ Hi) a e Ha)].
Qed.

Lemma weak_token T X N s a e : inv T X N s -> entries s !! a = Some e -> weak e = true -> 1 <= cnt a T.
Proof. intros Hi. apply (l_weak _ _ _ _ (i_locks _ _ _ _ _ _ _ Hi)). Qed.

Lemma cach_token T X N s a e : inv T X N s -> entries s !! a = Some e -> RELEASE_REQUEST e = true -> CACHABLE e = true -> cnt a T = 0.
Proof. intros Hi. apply (l_cach _ _ _ _ (i_locks _ _ _ _ _ _ _ Hi)). Qed.

Lemma lock_bounds Y T X N s a e : invY Y T X N s -> entries s !! a = Some e -> 0 <= lock_count e < 2 ^ 16.
Proof.
  intros Hi Ha. destruct (l_live _ _ _ _ (i_locks _ _ _ _ _ _ _ Hi) a e Ha) as [E Hb]. split; [|done]. unfold held in E. pose proof (cnt_pos a T). pose proof (cnt_pos a X). pose proof (cnt_pos a (late s)).
  assert (0 <= msum (links Y a) (entries s)) by (apply msum_pos; apply links_pos). assert (0 <= self e) by (unfold self, one; destruct (mem_obj e), (writing e); lia). lia.
Qed.

(** The new lock is one of the tokens, or waits in [X] for its owner. *)
Lemma lock_inv T X T' X' N s a e : inv T X N s -> entries s !! a = Some e -> lockable e -> (forall x, cnt x T' + cnt x X' = one (bool_decide (a = x)) + cnt x T + cnt x X) -> (forall x, x <> a -> cnt x T' = cnt x T) -> cnt a T <= cnt a T' ->
  (cnt a T' = cnt a T \/ RELEASE_REQUEST e = false \/ 1 <= cnt a T) ->
  exists s' e', storeLockObject a s = Some s' /\ e' = set_lastref (curtime s) (set_locks (lock_count e + 1) e) /\ s' = set_entries (<[a := e']> (entries s)) s /\ inv T' X' N s'.
Proof.
  intros Hi Ha Hb Hs Hx Ht Hr. pose proof (lock_bounds None T X N s a e Hi Ha) as Hlb. unfold lockable in Hb. unfold storeLockObject. rewrite (upd_eq _ _ _ e) by done. rewrite wrap_u_small by lia.
  eexists _, _. split; [done|]. split; [done|]. split; [done|]. pose proof (i_ok _ _ _ _ _ _ _ Hi a e Ha) as [O1 O2 O3 O4 O5]. set (e' := set_lastref _ _).
  apply (mod_inv None T X T' X' N s a e e'); try done.
  - intros x Hn. specialize (Hs x). rewrite bool_decide_false in Hs by congruence. cbn [one] in Hs. change (links None x a e') with (links None x a e). rewrite (Hx x Hn) in *. lia.
  - specialize (Hs a). rewrite bool_decide_true in Hs by done. cbn [one] in Hs. change (links None a a e') with (links None a a e). change (self e') with (self e). cbn [lock_count set_lastref set_locks e']. lia.
  - cbn. lia.
  - change (weak e') with (weak e). intros W. pose proof (weak_token T X N s a e Hi Ha W). lia.
  - change (RELEASE_REQUEST e') with (RELEASE_REQUEST e). change (CACHABLE e') with (CACHABLE e). intros R C. pose proof (cach_token T X N s a e Hi Ha R C). destruct Hr as [?|[?|?]]; [lia|congruence|lia].
Qed.

(** Two changes of an entry are one. *)
Lemma upd_twice a e1 g s : upd a g (set_entries (<[a := e1]> (entries s)) s) = Some (set_entries (<[a := g e1]> (entries s)) s).
Proof. rewrite (upd_eq _ _ _ e1) by (cbn; by map_simpl). cbn [entries set_entries]. by rewrite insert_insert_eq. Qed.

(** ** Unlocking *)

Definition keyed (s : store) : Prop := forall a e, entries s !! a = Some e -> hkey e <> None.

Lemma keyed_frame ex T' Y T X N s s' : frame ex T' s s' -> invY Y T X N s' -> keyed s -> keyed s'.
Proof.
  intros F Hi Hk a e' Ha En. destruct (f_old _ _ _ _ F a e' Ha) as (e & He & Hp). pose proof (e_key _ _ (i_ok _ _ _ _ _ _ _ Hi a e' Ha) En) as Hf. destruct (Hp Hf) as [_ E]. apply (Hk a e He). congruence.
Qed.

Lemma keyed_upd s a e e' : keyed s -> entries s !! a = Some e -> hkey e' = hkey e -> keyed (set_entries (<[a := e']> (entries s)) s).
Proof. intros Hk Ha E x y. cbn [entries set_entries]. destruct (decide (x = a)) as [->|Hx]; map_simpl; [intros [= <-]; rewrite E; by apply (Hk a)|apply Hk]. Qed.

Lemma fuel_enough s : msum hasmem (entries s) < Z.of_nat (fuel s).
Proof. unfold fuel. pose proof (msum_size hasmem (entries s) ltac:(intros ? x; unfold hasmem, one; destruct (is_some _); lia)). lia. Qed.

Lemma unlock_inv Y T X N s a : invY Y T (a :: X) N s -> exists s', storeUnlockObject a s = Some s' /\ invY Y T X N s' /\ frame None T s s'.
Proof. intros Hi. apply (unlock_fuel_ok P K Y junk (fuel s) T X N s a Hi), fuel_enough. Qed.

Lemma release_inv Y T X N s a e : invY Y T X N s -> entries s !! a = Some e ->
  exists s', storeRelease a s = Some s' /\ invY Y T X N s' /\ frame (Some a) T s s' /\ forall e', entries s' !! a = Some e' -> PRIVATE e' = true /\ RELEASE_REQUEST e' = true.
Proof. intros Hi Ha. pose proof (fuel_enough s) as Hf. exact (release_ok P K Y junk (unlock_fuel (fuel s)) (Z.of_nat (fuel s)) T X N s a e (unlock_fuel_ok P K Y junk (fuel s)) Hi Ha ltac:(lia)). Qed.

Lemma cnt_remove a T x : a ∈ T -> cnt x T = one (bool_decide (a = x)) + cnt x (give_back a T).
Proof.
  induction T as [|b T IH]; [by intros ?%not_elem_of_nil|]. intros Ha. cbn [give_back]. destruct (bool_decide_reflect (b = a)) as [Hb|Hb]; [subst b; rewrite cnt_cons; unfold one; done|].
  apply elem_of_cons in Ha as [Ha|Ha]; [congruence|]. rewrite !cnt_cons, (IH Ha). unfold one. lia.
Qed.

(** A token is given back. *)
Lemma token_out T X N s a e : inv T X N s -> keyed s -> entries s !! a = Some e -> a ∈ T -> (a ∈ give_back a T \/ weak e = false) -> inv (give_back a T) (a :: X) N s.
Proof.
  intros [H1 H2 [L1 L2 L3 L4 L5 L6] H4 H5] Hk Ha Hin Hw. pose proof (fun x => cnt_remove a T x Hin) as Hc. split; try done.
  assert (forall x, held None (give_back a T) (a :: X) x s = held None T X x s) as Hh by (intros x; unfold held; rewrite cnt_cons, (Hc x); unfold one; lia).
  assert (forall x, cnt x (give_back a T) = cnt x T - one (bool_decide (a = x))) as Hx by (intros x; rewrite (Hc x); lia).
  split; [intros x y; rewrite Hh; apply L1|intros x; rewrite Hh; apply L2|intros x y Hy W|intros x y Hy R C|intros x y Hy En; by destruct (Hk x y)|done].
  - pose proof (L3 x y Hy W) as Hp. rewrite Hx. destruct (decide (a = x)) as [->|Hn]; [|rewrite bool_decide_false by done; cbn; lia].
    destruct Hw as [Hw|Hw]; [|congruence]. apply cnt_in in Hw. rewrite Hx in Hw. done.
  - pose proof (L4 x y Hy R C) as Hp. rewrite Hx. unfold one. case_bool_decide as E; [|lia]. subst x. apply cnt_in in Hin. lia.
Qed.

Definition good (T : list positive) (N : Z) (s : store) : Prop := inv T [] N s /\ keyed s.

(** A change of the memory object that keeps what locks, keys and the swap file depend on. *)
Lemma mem_ok e m m' : entry_ok e -> mem_obj e = Some m -> sio m' = sio m -> url m' = url m -> method m' = method m -> entry_ok (set_mem (Some m') e).
Proof.
  intros [O1 O2 O3 O4 O5] Em Es Eu Et. rewrite Em in O3. split; [done|done|cbn; change (writing (set_mem (Some m') e)) with (writing e); congruence|done|]. cbn. intros x [= <-]. rewrite Eu, Et. auto.
Qed.

Lemma register_ev T N s a e : good T N s -> entries s !! a = Some e -> has_mem e -> lockable e -> exists s', storeClientRegister a s = Some s' /\ good T N s'.
Proof.
  intros [Hi Hk] Ha Hm Hb. unfold has_mem in Hm. unfold lockable in Hb. pose proof (lock_bounds None T [] N s a e Hi Ha) as Hlb. destruct (mem_obj e) as [m|] eqn:Em; [|done]. unfold storeClientRegister. rewrite Ha. bind_simpl. rewrite Em. cbn [is_some].
  rewrite (upd_eq _ _ _ e) by done. bind_simpl. unfold storeLockObject. rewrite upd_twice. cbn [curtime set_entries]. rewrite Em. cbn [fmap option_fmap option_map]. set (m' := set_nclients _ m). set (e1 := set_mem (Some m') e).
  change (lock_count e1) with (lock_count e). rewrite wrap_u_small by lia. set (e' := set_lastref _ _). eexists. split; [done|]. split; [|by apply (keyed_upd s a e e')].
  assert (forall x, links None x a e' = links None x a e) as Hl by (intros x; unfold links; cbn [mem_obj e' set_lastref set_locks e1 set_mem]; by rewrite Em).
  assert (self e' = self e + 1) as Hs. { unfold self. change (writing e') with (writing e). cbn [mem_obj e' set_lastref set_locks e1 set_mem m' nclients set_nclients]. rewrite Em. lia. }
  apply (mod_inv None T [] T [] N s a e e'); try done.
  - destruct (mem_ok e m m' (i_ok _ _ _ _ _ _ _ Hi a e Ha)); done.
  - intros x _. rewrite Hl. done.
  - rewrite Hl, Hs. cbn [lock_count e' set_lastref set_locks]. lia.
  - cbn. lia.
  - intros W. apply (weak_token T [] N s a e Hi Ha). rewrite <- W. unfold weak, storeKeepInMemory. cbn [mem_obj e' set_lastref set_locks e1 set_mem]. by rewrite Em.
  - apply (cach_token T [] N s a e Hi Ha).
Qed.

Lemma unregister_ev T N s a e : good T N s -> entries s !! a = Some e -> has_mem e -> exists s', storeClientUnregister a s = Some s' /\ good T N s'.
Proof.
  intros [Hi Hk] Ha Hm. unfold has_mem in Hm. destruct (mem_obj e) as [m|] eqn:Em; [|done]. unfold storeClientUnregister. rewrite Ha. bind_simpl. rewrite Em. bind_simpl.
  destruct (Nat.eqb_spec (nclients m) 0) as [Hn|Hn]; [by exists s|]. rewrite (upd_eq _ _ _ e) by done. bind_simpl. set (m' := set_nclients _ m). set (e' := set_mem (Some m') e). set (s1 := set_entries _ s).
  assert (forall x, links None x a e' = links None x a e) as Hl by (intros x; unfold links; cbn [mem_obj e' set_mem]; by rewrite Em).
  assert (self e' = self e - 1) as Hs. { unfold self. change (writing e') with (writing e). cbn [mem_obj e' set_mem m' nclients set_nclients]. rewrite Em. lia. }
  assert (inv T [a] N s1) as H1.
  { apply (mod_inv None T [] T [a] N s a e e'); try done.
    - by apply (mem_ok e m m' (i_ok _ _ _ _ _ _ _ Hi a e Ha)).
    - intros x Hx. rewrite Hl, cnt_cons, bool_decide_false by congruence. done.
    - rewrite Hl, Hs, cnt_cons, bool_decide_true by done. cbn [lock_count e' set_mem]. lia.
    - apply (lock_bounds None T [] N s a e Hi Ha).
    - intros W. apply (weak_token T [] N s a e Hi Ha). rewrite <- W. unfold weak, storeKeepInMemory. cbn [mem_obj e' set_mem]. by rewrite Em.
    - apply (cach_token T [] N s a e Hi Ha). }
  destruct (unlock_inv None T [] N s1 a H1) as (s' & E & H' & F). exists s'. split; [done|]. split; [done|]. apply (keyed_frame None T None T [] N s1 s'); try done. by apply (keyed_upd s a e e').
Qed.

Lemma unlock_ev T N s a e : good T N s -> entries s !! a = Some e -> a ∈ T -> (a ∈ give_back a T \/ weak e = false) -> exists s', storeUnlockObject a s = Some s' /\ good (give_back a T) N s'.
Proof.
  intros [Hi Hk] Ha Hin Hw. pose proof (token_out T [] N s a e Hi Hk Ha Hin Hw) as H1. destruct (unlock_inv None _ [] N s a H1) as (s' & E & H' & F). exists s'. split; [done|]. split; [done|]. by eapply (keyed_frame None _ None).
Qed.

Lemma swapout_ev T N s a e fn : good T N s -> entries s !! a = Some e -> has_mem e -> swap_status e = SWAPOUT_NONE -> lockable e -> exists s', storeSwapOutStart a fn s = Some s' /\ good T N s'.
Proof.
  intros [Hi Hk] Ha Hm Hsw Hb. unfold has_mem in Hm. unfold lockable in Hb. pose proof (lock_bounds None T [] N s a e Hi Ha) as Hlb. destruct (mem_obj e) as [m|] eqn:Em; [|done]. unfold storeSwapOutStart. rewrite Ha. bind_simpl. rewrite Em. cbn [is_some].
  rewrite (upd_eq _ _ _ e) by done. bind_simpl. pose proof (i_ok _ _ _ _ _ _ _ Hi a e Ha) as [O1 O2 O3 O4 O5]. rewrite Em in O3. destruct fn as [fn|].
  2:{ rewrite upd_twice. eexists. split; [done|]. cbn [swap_filen set_swap]. assert (set_swap (swap_filen e) SWAPOUT_NONE (set_swap (swap_filen e) SWAPOUT_WRITING e) = e) as -> by (clear -Hsw; destruct e; cbn in Hsw; by subst).
      rewrite insert_id by done. assert (set_entries (entries s) s = s) as -> by (by destruct s). done. }
  rewrite upd_twice. bind_simpl. unfold storeLockObject. rewrite upd_twice. bind_simpl. rewrite upd_twice. cbn [curtime set_entries]. set (e1 := set_swap _ SWAPOUT_WRITING e). change (mem_obj e1) with (mem_obj e). rewrite Em.
  cbn [fmap option_fmap option_map]. set (m' := set_sio true m). change (lock_count (set_mem (Some m') e1)) with (lock_count e). rewrite wrap_u_small by lia. set (e' := set_swap fn _ _). eexists. split; [done|]. split; [|by apply (keyed_upd s a e e')].
  assert (forall x, links None x a e' = links None x a e) as Hl by (intros x; unfold links; cbn [mem_obj e' set_swap set_lastref set_locks e1 set_mem]; by rewrite Em).
  assert (self e' = self e + 1) as Hs. { unfold self, writing. cbn [mem_obj swap_status e' set_swap set_lastref set_locks e1 set_mem m' nclients set_sio]. rewrite Em, Hsw. cbn. lia. }
  apply (mod_inv None T [] T [] N s a e e'); try done.
  - split; try done. cbn. intros x [= <-]. cbn. by apply O5.
  - intros x _. rewrite Hl. done.
  - rewrite Hl, Hs. cbn [lock_count e' set_swap set_lastref set_locks]. lia.
  - cbn. lia.
  - intros W. apply (weak_token T [] N s a e Hi Ha). revert W. unfold weak. change (pending e') with (pending e). unfold unwritten at 1. cbn [swap_status e' set_swap set_lastref set_locks set_mem e1]. rewrite andb_false_r. cbn. rewrite orb_false_r. by intros ->.
  - apply (cach_token T [] N s a e Hi Ha).
Qed.

(** What is known of an entry whose swap file was closed: its lock is still there. *)
Definition closed_entry (T : list positive) (a : positive) (e e' : entry) : Prop :=
  hkey e' <> None /\ (RELEASE_REQUEST e' = true -> PRIVATE e' = true) /\ (RELEASE_REQUEST e' = true -> CACHABLE e' = true -> cnt a T = 0) /\ (weak e' = true -> pending e = true) /\
  lock_count e' = lock_count e /\ mem_status e' = mem_status e /\ SPECIAL e' = SPECIAL e /\ writing e' = false /\ exists i, mem_obj e' = set_id i <$> mem_obj e.

Lemma closing_release T N s a e e1 s1 : inv T [] N s -> entries s !! a = Some e -> e1 = set_swap (-1) SWAPOUT_NONE e \/ e1 = set_swap (swap_filen e) SWAPOUT_DONE e -> entries s1 = entries s -> table s1 = table s -> key_counter s1 = key_counter s -> rest s s1 ->
  exists s' e', storeReleaseRequest a (set_entries (<[a := e1]> (entries s1)) s1) = Some s' /\ keys P K s' /\ count N s' /\ entries s' = <[a := e']> (entries s) /\ rest s s' /\ closed_entry T a e e'.
Proof.
  intros Hi Ha He1 Es1 Et1 Ec1 Hr1. pose proof (i_ok _ _ _ _ _ _ _ Hi a e Ha) as [O1 O2 O3 O4 O5]. pose proof (cach_token T [] N s a e Hi Ha) as Hct. set (s2 := set_entries _ s1).
  assert (entries s2 !! a = Some e1) as Ha2 by (cbn; by map_simpl).
  assert (hkey e1 = hkey e /\ PRIVATE e1 = PRIVATE e /\ RELEASE_REQUEST e1 = RELEASE_REQUEST e /\ CACHABLE e1 = CACHABLE e /\ mem_obj e1 = mem_obj e /\ pending e1 = pending e /\ lock_count e1 = lock_count e /\ mem_status e1 = mem_status e /\
    SPECIAL e1 = SPECIAL e /\ writing e1 = false) as (E1 & E2 & E3 & E4 & E5 & E6 & E7 & E8 & E9 & E10) by (by destruct He1 as [->| ->]).
  destruct (releaseRequest_ok P K None junk N s2 a e1) as (s' & e' & E & Hk' & Hc' & Ee' & Hr & R1 & R2 & R3 & R4); rewrite ?E1, ?E2, ?E3, ?E5; try done.
  { apply (keys_upd P K s s2 a e e1); try done; [apply Hi|cbn; by rewrite Es1]. } { apply (count_upd N s s2 a e e1); try done; [apply Hi|cbn; by rewrite Es1]. }
  exists s', e'. split; [done|]. split; [done|]. split; [done|]. split; [rewrite Ee'; cbn [s2 entries set_entries]; by rewrite Es1, insert_insert_eq|]. split; [unfold rest in *; cbn in R4; intuition congruence|].
  split; [done|]. split; [done|]. destruct Hr as [->|Hr].
  - split; [by rewrite E3, E4|]. split; [unfold weak; rewrite R1, E6; cbn [negb andb]; by rewrite orb_false_r|]. split; [done|]. split; [done|]. split; [done|]. split; [done|].
    rewrite E5. destruct (mem_obj e) as [m|]; [exists (id m); by destruct m|by exists 0].
  - destruct (rekeyed_facts None _ _ Hr) as (_ & F2 & _ & F4 & F5 & F6 & F7 & F8 & _ & F9 & _ & _ & i & F10). split; [by rewrite F6|].
    split; [rewrite F4; unfold weak; cbn; rewrite orb_false_r; change (pending (set_flags false true e1)) with (pending e1); by rewrite E6|]. split; [by rewrite F2|]. split; [by rewrite F7|].
    split; [by rewrite F8|]. split; [unfold writing in *; by rewrite F9|]. exists i. by rewrite F10, <- E5.
Qed.

Lemma swap_closed_ok T N s a e (err cachable : bool) : good T N s -> entries s !! a = Some e ->
  exists s' e', (if err then
      let s := if 0 <? swap_filen e then set_unlinked (swap_filen e :: unlinked s) s else s in
      let? s := upd a (set_swap (-1) SWAPOUT_NONE) s in storeReleaseRequest a s
    else
      let? s := upd a (fun e => set_swap (swap_filen e) SWAPOUT_DONE e) s in
      if cachable then storeDirSwapLog true a s else storeReleaseRequest a s) = Some s' /\
    keys P K s' /\ count N s' /\ entries s' = <[a := e']> (entries s) /\ rest s s' /\ closed_entry T a e e'.
Proof.
  intros [Hi Hk] Ha. pose proof (i_ok _ _ _ _ _ _ _ Hi a e Ha) as [O1 O2 O3 O4 O5]. pose proof (cach_token T [] N s a e Hi Ha) as Hct. destruct err.
  - cbv zeta. set (s1 := if 0 <? swap_filen e then _ else s). assert (entries s1 = entries s /\ table s1 = table s /\ key_counter s1 = key_counter s /\ rest s s1) as (E1 & E2 & E3 & E4) by (unfold s1; by destruct (0 <? swap_filen e)).
    rewrite (upd_eq _ _ _ e) by congruence. bind_simpl. apply (closing_release T N s a e); try done. by left.
  - rewrite (upd_eq _ _ _ e) by done. bind_simpl. destruct cachable; [|apply (closing_release T N s a e); try done; by right]. set (e1 := set_swap _ _ e). unfold storeDirSwapLog.
    assert (entries (set_entries (<[a := e1]> (entries s)) s) !! a = Some e1) as -> by (cbn; by map_simpl). bind_simpl.
    eexists _, e1. split; [done|]. split; [apply (keys_upd P K s _ a e e1); try done; apply Hi|]. split; [apply (count_upd N s _ a e e1); try done; apply Hi|]. split; [done|]. split; [done|]. split; [exact (Hk a e Ha)|].
    split; [done|]. split; [done|]. split; [unfold weak, unwritten; cbn; rewrite andb_false_r; cbn; by rewrite orb_false_r|]. split; [done|]. split; [done|]. split; [done|]. split; [done|].
    cbn [mem_obj set_swap e1]. destruct (mem_obj e) as [m|]; [exists (id m); by destruct m|by exists 0].
Qed.

Lemma swapclosed_ev T N s a e err cachable : good T N s -> entries s !! a = Some e -> writing e = true -> exists s', storeSwapOutFileClosed a err cachable s = Some s' /\ good T N s'.
Proof.
  intros [Hi Hk] Ha Hw. pose proof (i_ok _ _ _ _ _ _ _ Hi a e Ha) as [O1 O2 O3 O4 O5]. destruct (mem_obj e) as [m|] eqn:Em; [|congruence]. unfold storeSwapOutFileClosed. rewrite Ha. bind_simpl. rewrite Hw.
  destruct (swap_closed_ok T N s a e err cachable (conj Hi Hk) Ha) as (s1 & e1 & E & K1 & C1 & Es1 & R1 & H1 & H2 & H3 & H4 & H5 & H6 & H7 & H8 & i & H9). cbv zeta in *. rewrite E. bind_simpl. clear E.
  assert (entries s1 !! a = Some e1) as Ha1 by (rewrite Es1; by map_simpl). rewrite Ha1. bind_simpl. rewrite H9, Em. cbn [is_some fmap option_fmap option_map]. rewrite (upd_eq _ _ _ e1) by done. bind_simpl. rewrite H9, Em. cbn [fmap option_fmap option_map].
  set (m' := set_sio false _). set (e' := set_mem (Some m') e1). set (s2 := set_entries _ s1). assert (entries s2 = <[a := e']> (entries s)) as Es2 by (cbn; by rewrite Es1, insert_insert_eq).
  assert (forall x, links None x a e' = links None x a e) as Hl by (intros x; unfold links; cbn [mem_obj e' set_mem]; by rewrite Em).
  assert (self e' = self e - 1) as Hs. { unfold self. change (writing e') with (writing e1). cbn [mem_obj e' set_mem m' nclients set_sio set_id]. rewrite Em, Hw, H8. cbn. lia. }
  assert (inv T [a] N s2) as Hi2.
  { apply (mod_gen None T [] T [a] N N s s2 a e e'); try done.
    - by apply (keys_upd P K s1 s2 a e1 e').
    - by apply (count_upd N s1 s2 a e1 e').
    - split; [done|done|exact H8|done|]. cbn. intros x [= <-]. cbn. by apply O5.
    - intros x Hx. rewrite Hl, cnt_cons, bool_decide_false by congruence. done.
    - rewrite Hl, Hs, cnt_cons, bool_decide_true by done. cbn [lock_count e' set_mem]. lia.
    - cbn. rewrite H5. apply (lock_bounds None T [] N s a e Hi Ha).
    - intros W. apply (weak_token T [] N s a e Hi Ha). unfold weak at 1. rewrite H4; [done|]. rewrite <- W. unfold weak, storeKeepInMemory. cbn [mem_obj e' set_mem]. by rewrite H9, Em. }
  destruct (unlock_inv None T [] N s2 a Hi2) as (s' & E & H' & F). exists s'. split; [done|]. split; [done|]. apply (keyed_frame None T None T [] N s2 s'); try done.
  intros x y. rewrite Es2. destruct (decide (x = a)) as [->|Hx]; map_simpl; [by intros [= <-]|apply Hk].
Qed.

(** ** References *)

Lemma links_other c ims x m : m !! c = None -> msum (links (Some (c, ims)) x) m = msum (links None x) m.
Proof. intros Hc. apply msum_ext. intros a e Ha. unfold links. assert (a <> c) by congruence. rewrite !bool_decide_false by congruence. done. Qed.

Lemma stale_bit (c : positive) (i j : bool) : bool_decide (Some (c, i) = Some (c, j)) = Bool.eqb i j.
Proof. destruct i, j; first [by rewrite bool_decide_true|by rewrite bool_decide_false]. Qed.

(** A stale reference is not counted. *)
Lemma links_stale c ims x s e m : entries s !! c = Some e -> mem_obj e = Some m -> msum (links None x) (entries s) = msum (links (Some (c, ims)) x) (entries s) + opt_is x (link ims m).
Proof.
  intros Hc Em. pose proof (msum_delete (links None x) _ _ _ Hc) as E1. pose proof (msum_delete (links (Some (c, ims)) x) _ _ _ Hc) as E2. rewrite links_other in E2 by apply lookup_delete_eq.
  unfold links at 3 in E1. unfold links at 3 in E2. rewrite Em in E1, E2. rewrite !(bool_decide_false (None = Some _)) in E1 by done.
  rewrite stale_bit, stale_bit in E2. destruct ims; cbn [link Bool.eqb] in *; lia.
Qed.

Lemma stale_on T X N s c e m ims b : inv T X N s -> entries s !! c = Some e -> mem_obj e = Some m -> link ims m = Some b -> 1 <= cnt c T -> invY (Some (c, ims)) T (b :: X) N s.
Proof.
  intros [H1 H2 [L1 L2 L3 L4 L5 L6] H4 H5] Hc Em El Ht. split; try done.
  assert (forall x, held (Some (c, ims)) T (b :: X) x s = held None T X x s) as Hh.
  { intros x. unfold held. rewrite (links_stale c ims x s e m Hc Em), El, cnt_cons. cbn [opt_is]. unfold one. lia. }
  split; try done; [intros x y; rewrite Hh; apply L1|intros x; rewrite Hh; apply L2|]. by intros c' b' [= -> ->].
Qed.

Lemma stale_off T X N s c e m ims : invY (Some (c, ims)) T X N s -> entries s !! c = Some e -> mem_obj e = Some m -> inv T X N (set_entries (<[c := set_mem (Some (set_link ims None m)) e]> (entries s)) s).
Proof.
  intros Hi Hc Em. set (m' := set_link ims None m). set (e' := set_mem (Some m') e). set (s' := set_entries _ s). pose proof (i_ok _ _ _ _ _ _ _ Hi c e Hc) as Ho.
  assert (entry_ok e') as Ho' by (apply (mem_ok e m m'); try done; by destruct ims). assert (weak e' = weak e) as Hw by (unfold weak, storeKeepInMemory; cbn [mem_obj e' set_mem]; rewrite Em; by destruct ims).
  assert (forall x, held None T X x s' = held (Some (c, ims)) T X x s) as Hh.
  { intros x. unfold held. change (late s') with (late s). assert (entries s' !! c = Some e') as Hc' by (cbn; by map_simpl). rewrite (links_stale c ims x s' e' m' Hc' eq_refl). cbn [entries set_entries s'].
    rewrite (msum_upd _ _ _ _ _ Hc). assert (links (Some (c, ims)) x c e' = links (Some (c, ims)) x c e) as -> by (unfold links; cbn [mem_obj e' set_mem]; rewrite Em, !stale_bit; by destruct ims).
    assert (link ims m' = None) as -> by (by destruct ims). cbn [opt_is]. lia. }
  assert (self e' = self e) as Hs by (unfold self; change (writing e') with (writing e); cbn [mem_obj e' set_mem]; rewrite Em; by destruct ims).
  split; [by apply (keys_upd P K s s' c e e'); try apply Hi|by apply (count_upd N s s' c e e'); try apply Hi| |by apply (hots_upd s s' c e e'); try apply Hi|by apply (ok_upd P s s' c e'); try apply Hi].
  destruct (i_locks _ _ _ _ _ _ _ Hi) as [L1 L2 L3 L4 L5 L6].
  split; [intros x y; rewrite Hh|intros x; rewrite Hh|intros x y|intros x y|intros x y|done]; cbn [entries set_entries s']; (destruct (decide (x = c)) as [->|Hx]; map_simpl; [|solve [apply L1|apply L2|apply L3|apply L4|apply L5]]); try (intros [= <-]).
  - rewrite Hs. exact (L1 c e Hc).
  - rewrite Hw. exact (L3 c e Hc).
  - exact (L4 c e Hc).
  - exact (L5 c e Hc).
Qed.

Lemma drop_link_ok T N s a e ims : good T N s -> entries s !! a = Some e -> a ∈ T -> has_mem e ->
  exists s' e' m', drop_link ims a s = Some s' /\ good T N s' /\ entries s' !! a = Some e' /\ mem_obj e' = Some m' /\ link ims m' = None /\
    (forall b f, b ∈ T -> entries s !! b = Some f -> exists f', entries s' !! b = Some f' /\ lock_count f' <= lock_count f).
Proof.
  intros [Hi Hk] Ha Hin Hm. unfold has_mem in Hm. destruct (mem_obj e) as [m|] eqn:Em; [|done]. unfold drop_link. rewrite Ha. bind_simpl. rewrite Em. bind_simpl. destruct (link ims m) as [b|] eqn:El.
  2:{ exists s, e, m. split; [done|]. split; [done|]. split; [done|]. split; [done|]. split; [done|]. intros b f _ Hf. exists f. split; [done|lia]. }
  apply cnt_in in Hin as Hc. pose proof (stale_on T [] N s a e m ims b Hi Ha Em El Hc) as H1. destruct (unlock_inv _ T [] N s b H1) as (s1 & -> & H2 & F). bind_simpl.
  destruct (f_held _ _ _ _ F a e ltac:(done) Ha Hc) as (n & Hn & Ha1). rewrite Ha1. bind_simpl. change (mem_obj (set_locks n e)) with (mem_obj e). rewrite Em. bind_simpl. rewrite (upd_eq _ _ _ (set_locks n e)) by done.
  pose proof (stale_off T [] N s1 a (set_locks n e) m ims H2 Ha1 Em) as H3. eexists _, (set_mem (Some (set_link ims None m)) (set_locks n e)), (set_link ims None m). split; [done|].
  split; [split; [exact H3|]; apply (keyed_upd s1 a (set_locks n e)); try done; by apply (keyed_frame None T _ T [] N s s1 F H2)|]. cbn [entries set_entries]. split; [by map_simpl|]. split; [done|]. split; [by destruct ims|].
  intros c f Hc' Hf. apply cnt_in in Hc'. destruct (f_held _ _ _ _ F c f ltac:(done) Hf Hc') as (n' & Hn' & Hf1). destruct (decide (c = a)) as [->|Hne]; map_simpl.
  - assert (f = e) as -> by congruence. eexists. split; [done|]. cbn. done.
  - eexists. split; [done|]. cbn. done.
Qed.

(** A reference and the lock it holds. *)
Lemma set_link_ok T N s a b e m f ims : good T N s -> entries s !! a = Some e -> mem_obj e = Some m -> link ims m = None -> entries s !! b = Some f -> lockable f ->
  exists s', (let? s := upd a (set_mem (Some (set_link ims (Some b) m))) s in storeLockObject b s) = Some s' /\ good T N s'.
Proof.
  intros [Hi Hk] Ha Em El Hb Hlk. destruct (lock_inv T [] T [b] N s b f Hi Hb Hlk) as (s1 & f1 & E1 & Ef1 & Es1 & H1); [|done|lia|by left|].
  { intros x. rewrite cnt_cons. change (cnt x []) with 0. unfold one. lia. }
  set (m' := set_link ims (Some b) m). assert (exists e1, entries s1 !! a = Some e1 /\ mem_obj e1 = Some m /\ hkey e1 = hkey e) as (e1 & Ha1 & Em1 & Ek1).
  { rewrite Es1. cbn [entries set_entries]. destruct (decide (a = b)) as [->|Hn]; map_simpl; [|by exists e]. exists f1. assert (f = e) as -> by congruence. by rewrite Ef1. }
  set (e2 := set_mem (Some m') e1). set (s2 := set_entries (<[a := e2]> (entries s1)) s1). exists s2. split.
  - rewrite (upd_eq _ _ _ e) by done. bind_simpl. pose proof (lock_bounds None T [] N s b f Hi Hb). unfold lockable in Hlk. unfold storeLockObject. unfold upd. cbn [entries set_entries curtime].
    destruct (decide (a = b)) as [->|Hn]; map_simpl.
    + assert (f = e) as -> by congruence. unfold s2. rewrite Es1 in *. cbn [entries set_entries] in *. rewrite lookup_insert_eq in Ha1. injection Ha1 as <-. subst f1. rewrite !insert_insert_eq. cbn [lock_count set_mem].
      rewrite wrap_u_small by lia. done.
    + rewrite Hb. bind_simpl. rewrite wrap_u_small by lia. unfold s2. rewrite Es1 in *. cbn [entries set_entries] in *. rewrite lookup_insert_ne in Ha1 by congruence. assert (e1 = e) as -> by congruence.
      rewrite (insert_insert_ne (entries s) a b) by done. by rewrite <- Ef1.
  - assert (keyed s1) as Hk1 by (rewrite Es1; apply (keyed_upd s b f f1); try done; by rewrite Ef1). split; [|by apply (keyed_upd s1 a e1 e2)].
    assert (forall x, links None x a e2 = links None x a e1 + one (bool_decide (b = x))) as Hl.
    { intros x. unfold links. cbn [mem_obj e2 set_mem]. rewrite Em1, !(bool_decide_false (None = Some _)) by done. unfold m'. destruct ims; cbn [link] in El; cbn [set_link set_links ims_entry old_entry]; rewrite El; cbn [opt_is]; lia. }
    apply (mod_inv None T [b] T [] N s1 a e1 e2); try done.
    + apply (mem_ok e1 m m'); try (by destruct ims); try done. apply (i_ok _ _ _ _ _ _ _ H1 a e1 Ha1).
    + intros x Hx. rewrite Hl, cnt_cons. change (cnt x []) with 0. unfold one. lia.
    + rewrite Hl, cnt_cons. change (cnt a []) with 0. assert (self e2 = self e1) as -> by (unfold self; change (writing e2) with (writing e1); cbn [mem_obj e2 set_mem]; rewrite Em1; by destruct ims). cbn [lock_count e2 set_mem]. unfold one. lia.
    + apply (lock_bounds None T [b] N s1 a e1 H1 Ha1).
    + intros W. apply (weak_token T [b] N s1 a e1 H1 Ha1). rewrite <- W. unfold weak, storeKeepInMemory. cbn [mem_obj e2 set_mem]. rewrite Em1. by destruct ims.
    + apply (cach_token T [b] N s1 a e1 H1 Ha1).
Qed.

Lemma link_ev T N s a b e f ims : good T N s -> entries s !! a = Some e -> a ∈ T -> has_mem e -> entries s !! b = Some f -> b ∈ T -> lockable f -> exists s', make_link ims a b s = Some s' /\ good T N s'.
Proof.
  intros Hg Ha Hin Hm Hb Hbin Hlk. destruct (drop_link_ok T N s a e ims Hg Ha Hin Hm) as (s1 & e1 & m1 & E & Hg1 & Ha1 & Em1 & El & Hh). unfold make_link. rewrite E. bind_simpl. rewrite Ha1. bind_simpl. rewrite Em1. bind_simpl.
  destruct (Hh b f Hbin Hb) as (f1 & Hb1 & Hle). apply (set_link_ok T N s1 a b e1 m1 f1 ims); try done. unfold lockable in *. lia.
Qed.

End events.

End StoreEvents.
