(* ===== verification/StoreSafe.v ===== *)
(** * The storage manager: keys and locks are safe

    Public keys, new entries and the events of StoreEvents.v keep the
    invariant.  Whatever the other parts do within their promises, no assertion
    fails, no entry is used after it was freed, and entries are found by their
    own keys only. *)

From Stdlib Require Import ZArith Lia Ascii String.
From stdpp Require Import base gmap strings list numbers option fin_maps.
From S2P Require Import Prelude CStr Md5 StoreEntry HttpMethod StoreKey Store StoreInv StoreLocks StoreEvents.
Import StoreEntry Store StoreInv StoreLocks StoreEvents.

Module StoreSafe.

Section safe.
Context `{SK : StoreKeys} (P : bytes -> option HttpMethod.method_t -> Prop) (K : name -> Prop).
Context `{SL : !StoreKeyLaws P K} (junk : P JUNK NONE).

#[local] Abbreviation inv := (inv P K None).
#[local] Abbreviation entry_ok := (entry_ok P).
#[local] Abbreviation good := (good P K).

Lemma inv_le T X N N' s : inv T X N s -> N <= N' < key_limit - 1 -> inv T X N' s.
Proof. intros [H1 H2 H3 H4 H5] Hn. split; try done. unfold count in *. lia. Qed.

(** Entries other than [a] have keys. *)
Definition keyed_but (a : positive) (s : store) : Prop := forall x e, x <> a -> entries s !! x = Some e -> hkey e <> None.

Lemma keyed_but_frame ex T' a T X N s s' : frame ex T' s s' -> inv T X N s' -> keyed_but a s -> keyed_but a s'.
Proof.
  intros F Hi Hk x e' Hx Ha En. destruct (f_old _ _ _ _ F x e' Ha) as (e & He & Hp). pose proof (e_key _ _ (i_ok _ _ _ _ _ _ _ Hi x e' Ha) En) as Hf. destruct (Hp Hf) as [_ E]. apply (Hk x e Hx He). congruence.
Qed.

(** ** Public keys *)

(** A public key is taken from the entry that has it. *)
Lemma take_name T X N s a e n k b : inv T X N s -> keyed_but a s -> K n -> key_of n = Some k -> entries s !! a = Some e -> hkey e <> Some k -> 1 <= cnt a T -> hash_lookup k s = Some b ->
  exists s' l, (let? s := storeSetPrivateKey b s in storeRelease b s) = Some s' /\ inv T X N s' /\ keyed_but a s' /\ hash_lookup k s' = None /\ entries s' !! a = Some (set_locks l e).
Proof.
  intros Hi Hk Hn Ek Ha Hne Hc Hl. pose proof (i_keys _ _ _ _ _ _ _ Hi) as Hkeys. apply find_key in Hl as Hin; [|apply Hkeys]. apply Hkeys in Hin as (f & Hb & Ef). assert (b <> a) as Hba by (intros ->; congruence).
  destruct (private_inv P K None junk T X N s b f Hi Hb) as (s1 & f1 & -> & H1 & Es1 & Hr & Hp & (_ & _ & _ & R4 & R5)). bind_simpl. assert (entries s1 !! b = Some f1) as Hb1 by (rewrite Es1; by map_simpl).
  destruct (release_inv P K junk None T X N s1 b f1 H1 Hb1) as (s2 & E2 & H2 & F2 & _). assert (entries s1 !! a = Some e) as Ha1 by (rewrite Es1; by map_simpl).
  destruct (f_held _ _ _ _ F2 a e ltac:(congruence) Ha1 Hc) as (l & _ & Ha2). exists s2, l. split; [done|]. split; [done|].
  assert (forall x y, entries s2 !! x = Some y -> hkey y <> Some k) as Habs.
  { intros x y Hy Hky. pose proof (k_ok _ _ _ (i_keys _ _ _ _ _ _ _ H2) x y k Hy Hky) as Ho. unfold key_ok in Ho. destruct (PRIVATE y) eqn:Epy.
    - destruct Ho as (u & m & i & Hum & Hi' & Eu). pose proof (i_count _ _ _ _ _ _ _ H2) as Hct. pose proof (msum_pos public (entries s2) ltac:(intros ? z; unfold public, one; by destruct (negb _))). unfold count in Hct.
      by apply (private_public u m i n k); first [done|lia].
    - destruct (f_old _ _ _ _ F2 x y Hy) as (z & Hz & Hzp). destruct (Hzp Epy) as [Epz Ekz]. rewrite Es1 in Hz. destruct (decide (x = b)) as [->|Hx]; revert Hz; map_simpl; [intros [= <-]; congruence|]. intros Hz.
      assert (hash_lookup k s = Some x) by (apply (find_entry P K s k x z); [done|done|congruence]). congruence. }
  split; [|split; [by apply (find_absent P K s2 k (i_keys _ _ _ _ _ _ _ H2))|done]].
  apply (keyed_but_frame (Some b) T a T X N s1 s2 F2 H2). intros x y Hx. rewrite Es1. destruct (decide (x = b)) as [->|Hxb]; map_simpl; [|by apply Hk]. intros [= <-]. intros En. pose proof (e_key _ _ (i_ok _ _ _ _ _ _ _ H1 b f1 Hb1) En). congruence.
Qed.

(** The entry gets a key that nobody has. *)
Lemma give_name T X N s a e n k : inv T X N s -> keyed_but a s -> K n -> key_of n = Some k -> entries s !! a = Some e -> hash_lookup k s = None -> PRIVATE e = true \/ hkey e = None -> RELEASE_REQUEST e = false -> 1 <= cnt a T -> N + 1 < key_limit - 1 ->
  exists s', (let? s := if is_some (hkey e) then storeHashDelete a s else Some s in let? s := storeHashInsert a k false s in if -1 <? swap_filen e then storeDirSwapLog true a s else Some s) = Some s' /\
    inv T X (N + 1) s' /\ keyed s' /\ entries s' !! a = Some (set_key (Some k) false e).
Proof.
  intros Hi Hk Hn Ek Ha Hl Hpr Hrel Hc Hb. pose proof (i_keys _ _ _ _ _ _ _ Hi) as Hkeys. pose proof (i_ok _ _ _ _ _ _ _ Hi a e Ha) as [O1 O2 O3 O4 O5].
  assert (exists s1 e1, (if is_some (hkey e) then storeHashDelete a s else Some s) = Some s1 /\ keys P K s1 /\ entries s1 = <[a := e1]> (entries s) /\ key_counter s1 = key_counter s /\ rest s s1 /\
    hkey e1 = None /\ hash_lookup k s1 = None /\ set_key (Some k) false e1 = set_key (Some k) false e) as (s1 & e1 & -> & Hk1 & Es1 & Ec1 & Hr1 & En1 & Hl1 & Ee1).
  { destruct (hkey e) as [k0|] eqn:Ek0; cbn [is_some]; [|exists s, e; by rewrite insert_id].
    destruct (unlink_ok P K s a e k0 Hkeys Ha Ek0) as (s1 & E & Es & Et & Ec & Hk1 & Hr). exists s1, (set_key None (PRIVATE e) e). split; [done|]. split; [done|]. split; [done|]. split; [done|]. split; [done|]. split; [done|]. split; [|done].
    apply find_none. intros x Hin. rewrite Et in Hin. apply list_elem_of_filter in Hin as [_ Hin]. rewrite find_none in Hl. by apply (Hl x). }
  bind_simpl. assert (entries s1 !! a = Some e1) as Ha1 by (rewrite Es1; by map_simpl). destruct (link_ok P K s1 a e1 k false Hk1 Ha1 En1 Hl1) as (s2 & -> & Hk2 & Es2 & Ec2 & Hr2); [unfold key_ok; cbn; by exists n|]. bind_simpl.
  set (e2 := set_key (Some k) false e1) in *. assert (entries s2 !! a = Some e2) as Ha2 by (rewrite Es2; by map_simpl). assert (entries s2 = <[a := e2]> (entries s)) as Es2' by (by rewrite Es2, Es1, insert_insert_eq).
  assert (exists s3, (if -1 <? swap_filen e then storeDirSwapLog true a s2 else Some s2) = Some s3 /\ entries s3 = entries s2 /\ table s3 = table s2 /\ key_counter s3 = key_counter s2 /\ rest s2 s3) as (s3 & -> & Es3 & Et3 & Ec3 & Hr3).
  { unfold storeDirSwapLog. rewrite Ha2. bind_simpl. destruct (-1 <? swap_filen e); by eexists. }
  exists s3. split; [done|]. rewrite Es3. split; [|split; [|by rewrite Ha2, Ee1]].
  - apply (mod_gen P K None T X T X N (N + 1) s s3 a e e2); try done.
    + by rewrite Es3.
    + apply (keys_ext P K s2); try done. lia.
    + unfold count. pose proof (i_count _ _ _ _ _ _ _ Hi) as Hct. unfold count in Hct. rewrite Es3, Es2', Ec3, Ec2, Ec1, (msum_upd _ _ _ _ _ Ha). unfold public at 2 3. cbn [PRIVATE set_key e2 negb one]. destruct (PRIVATE e); cbn [negb one]; lia.
    + unfold rest in *. intuition congruence.
    + rewrite Ee1. done.
    + rewrite Ee1. done.
    + rewrite Ee1. split; try done. cbn. congruence.
    + intros x _. rewrite Ee1. done.
    + rewrite Ee1. done.
    + rewrite Ee1. cbn. apply (lock_bounds P K None T X N s a e Hi Ha).
    + rewrite Ee1. change (RELEASE_REQUEST (set_key (Some k) false e)) with (RELEASE_REQUEST e). congruence.
  - intros x y. rewrite Es3, Es2'. destruct (decide (x = a)) as [->|Hx]; map_simpl; [by intros [= <-]|by apply Hk].
Qed.

(** From a private to a public key. *)
Definition publish (a : positive) (s : store) : option store :=
  let? e := entries s !! a in
  assert? is_some (mem_obj e) in
  assert? negb (RELEASE_REQUEST e) in
  let? s := upd a (fun e => set_mem ((fun m => set_request (no_vary <$> request m) m) <$> mem_obj e) e) s in
  let? e := entries s !! a in
  let? mem := mem_obj e in
  let? newkey := key_of (name_of mem) in
  let? (newkey, s) :=
    match hash_lookup newkey s with
    | Some b =>
        let? s := storeSetPrivateKey b s in
        let? s := storeRelease b s in
        let? e := entries s !! a in
        let? mem := mem_obj e in
        let? newkey := key_of (name_of mem) in
        Some (newkey, s)
    | None => Some (newkey, s)
    end in
  let? e := entries s !! a in
  let? s := if is_some (hkey e) then storeHashDelete a s else Some s in
  let? s := storeHashInsert a newkey false s in
  if -1 <? swap_filen e then storeDirSwapLog true a s else Some s.

Definition plain_name (m : MemObject) : name := name_of (set_request (no_vary <$> request m) m).

(** What stays when an entry gets a public key. *)
Definition kept (e e' : entry) : Prop := mem_obj e' <> None /\ RELEASE_REQUEST e' = RELEASE_REQUEST e /\ CACHABLE e' = CACHABLE e /\ swap_status e' = swap_status e /\ mem_status e' = mem_status e.

Lemma private_not_public T X N s n k e a : inv T X N s -> K n -> key_of n = Some k -> entries s !! a = Some e -> PRIVATE e = true \/ hkey e = None -> hkey e <> Some k.
Proof.
  intros Hi Hn Ek Ha [Hp|Hp]; [|congruence]. intros E. pose proof (k_ok _ _ _ (i_keys _ _ _ _ _ _ _ Hi) a e k Ha E) as Ho. unfold key_ok in Ho. rewrite Hp in Ho.
  destruct Ho as (u & m & i & Hum & Hir & Eu). pose proof (i_count _ _ _ _ _ _ _ Hi) as Hct. unfold count in Hct. pose proof (msum_pos public (entries s) ltac:(intros ? z; unfold public, one; by destruct (negb _))).
  by apply (private_public u m i n k); first [done|lia].
Qed.

Lemma publish_ok T N s a e m : inv T [] N s -> keyed_but a s -> entries s !! a = Some e -> mem_obj e = Some m -> PRIVATE e = true \/ hkey e = None -> RELEASE_REQUEST e = false -> 1 <= cnt a T -> K (plain_name m) -> N + 1 < key_limit - 1 ->
  exists s' e', publish a s = Some s' /\ inv T [] (N + 1) s' /\ keyed s' /\ entries s' !! a = Some e' /\ kept e e'.
Proof.
  intros Hi Hk Ha Em Hp Hr Hc Hn Hb. unfold publish. rewrite Ha. bind_simpl. rewrite Em. cbn [is_some]. rewrite Hr. cbn [negb]. rewrite (upd_eq _ _ _ e) by done. bind_simpl. rewrite Em. cbn [fmap option_fmap option_map].
  pose proof (request_inv P K None T [] N s a e m (no_vary <$> request m) Hi Ha Em) as H1. set (m1 := set_request (no_vary <$> request m) m) in *. set (e1 := set_mem (Some m1) e) in *. set (s1 := set_entries _ s) in *.
  assert (entries s1 !! a = Some e1) as Ha1 by (cbn; by map_simpl). rewrite Ha1. bind_simpl. change (mem_obj e1) with (Some m1). bind_simpl. destruct (public_some (plain_name m) Hn) as [k Ek]. change (name_of m1) with (plain_name m). rewrite Ek. bind_simpl.
  assert (keyed_but a s1) as Hk1 by (intros x y Hx; cbn; map_simpl; by apply Hk). pose proof (private_not_public T [] N s1 (plain_name m) k e1 a H1 Hn Ek Ha1 Hp) as Hne.
  assert (exists s2 l, match hash_lookup k s1 with
    | Some b => let? s := storeSetPrivateKey b s1 in let? s := storeRelease b s in let? e := entries s !! a in let? mem := mem_obj e in let? newkey := key_of (name_of mem) in Some (newkey, s)
    | None => Some (k, s1) end = Some (k, s2) /\ inv T [] N s2 /\ keyed_but a s2 /\ hash_lookup k s2 = None /\ entries s2 !! a = Some (set_locks l e1)) as (s2 & l & -> & H2 & Hk2 & Hl2 & Ha2).
  { destruct (hash_lookup k s1) as [b|] eqn:El.
    - destruct (take_name T [] N s1 a e1 (plain_name m) k b H1 Hk1 Hn Ek Ha1 Hne Hc El) as (s2 & l & E & H2 & Hk2 & Hl2 & Ha2). exists s2, l. split; [|done].
      destruct (storeSetPrivateKey b s1) as [s0|]; [|done]. cbn [mbind option_bind] in E |- *. rewrite E. bind_simpl. rewrite Ha2. bind_simpl. change (mem_obj (set_locks l e1)) with (Some m1). bind_simpl. change (name_of m1) with (plain_name m). by rewrite Ek.
    - exists s1, (lock_count e1). rewrite set_locks_same. done. }
  bind_simpl. rewrite Ha2. bind_simpl. destruct (give_name T [] N s2 a (set_locks l e1) (plain_name m) k H2 Hk2 Hn Ek Ha2 Hl2 Hp Hr Hc Hb) as (s3 & E & H3 & Hk3 & Ha3).
  exists s3, (set_key (Some k) false (set_locks l e1)). split; [exact E|]. split; [done|]. split; [done|]. split; [done|]. by splits.
Qed.

Lemma setPublicKey_ok T N s a e m : inv T [] N s -> keyed_but a s -> entries s !! a = Some e -> mem_obj e = Some m -> RELEASE_REQUEST e = false -> 1 <= cnt a T -> K (plain_name m) -> N + 1 < key_limit - 1 ->
  exists s' e', storeSetPublicKey a s = Some s' /\ inv T [] (N + 1) s' /\ keyed s' /\ entries s' !! a = Some e' /\ kept e e'.
Proof.
  intros Hi Hk Ha Em Hr Hc Hn Hb. unfold storeSetPublicKey. rewrite Ha. bind_simpl. pose proof (i_ok _ _ _ _ _ _ _ Hi a e Ha) as [O1 O2 O3 O4 O5]. destruct (is_some (hkey e) && negb (PRIVATE e)) eqn:E0.
  - apply andb_true_iff in E0 as [E1 E2]. assert (hkey e <> None) as Hne by (by destruct (hkey e)). destruct (EARLY_PUBLIC e).
    + rewrite (upd_eq _ _ _ e) by done. bind_simpl. set (e1 := set_early false e). set (s1 := set_entries _ s). assert (entries s1 !! a = Some e1) as Ha1 by (cbn; by map_simpl).
      assert (inv T [] N s1) as H1. { apply (plain_inv P K T [] N s a e e1); try done. apply (cach_token P K T [] N s a e Hi Ha). }
      destruct (private_inv P K None junk T [] N s1 a e1 H1 Ha1) as (s2 & e2 & -> & H2 & Es2 & Hrk & Hp2 & _). bind_simpl. cbn [negb]. destruct (rekeyed_facts None _ _ Hrk) as (_ & _ & _ & _ & F5 & F6 & F7 & _ & _ & F9 & _ & _ & i & F10).
      cbn [mem_obj set_early e1] in F10. rewrite Em in F10. assert (entries s2 !! a = Some e2) as Ha2 by (rewrite Es2; by map_simpl).
      destruct (publish_ok T N s2 a e2 (set_id i m)) as (s' & e' & E & H' & Hk' & Ha' & (K1 & K2 & K3 & K4 & K5)); try done; [|by left|by rewrite F5|].
      { intros x y Hx. rewrite Es2. map_simpl. cbn. map_simpl. by apply Hk. }
      exists s', e'. split; [exact E|]. split; [done|]. split; [done|]. split; [done|]. split; [done|]. rewrite K2, K3, K4, K5, F5, F6, F7, F9. done.
    + bind_simpl. cbn [negb]. exists s, e. split; [done|]. split; [apply (inv_le T [] N); [done|pose proof (i_count _ _ _ _ _ _ _ Hi) as Hct; unfold count in Hct; lia]|].
      split; [|split; [done|split; [by rewrite Em|done]]]. intros x y Hx. destruct (decide (x = a)) as [->|Hne']; [congruence|by apply (Hk x)].
  - bind_simpl. cbn [negb]. destruct (publish_ok T N s a e m) as (s' & e' & E & H'); try done; [|by exists s', e'].
    destruct (hkey e); [left|by right]. cbn [is_some] in E0. by destruct (PRIVATE e).
Qed.

(** ** New entries *)

Lemma keys_new s a e : keys P K s -> entries s !! a = None -> hkey e = None -> keys P K (set_entries (<[a := e]> (entries s)) s).
Proof.
  intros [H1 H2 H3] Ha He. split; cbn [table entries set_entries key_counter]; [|done|].
  - intros k x. rewrite H1. destruct (decide (x = a)) as [->|Hx]; map_simpl; [|done]. rewrite Ha. split; [by intros (? & ? & _)|]. intros (y & [= <-] & Hy). congruence.
  - intros x y k. destruct (decide (x = a)) as [->|Hx]; map_simpl; [intros [= <-]; congruence|apply H3].
Qed.

Lemma add_inv T T' N N' s s' a e : inv T [] N s -> entries s !! a = None -> entries s' = <[a := e]> (entries s) -> keys P K s' -> count N' s' -> rest s s' ->
  (forall x, links None x a e = 0) -> mem_status e = NOT_IN_MEMORY -> entry_ok e -> (forall x, x <> a -> cnt x T' = cnt x T) -> lock_count e = cnt a T' + self e -> lock_count e < 2 ^ 16 ->
  (weak e = true -> 1 <= cnt a T') -> RELEASE_REQUEST e = false -> (hkey e = None -> 1 <= cnt a T') -> inv T' [] N' s'.
Proof.
  intros [H1 H2 [L1 L2 L3 L4 L5 L6] [D1 D2 D3] H5] Ha Es Hk Hc (R1 & R2 & R3 & _) Hl Hm Ho Ht Hn Hb Hw Hr Hy.
  assert (forall x, held None T' [] x s' = held None T [] x s - cnt x T + cnt x T') as Hh.
  { intros x. unfold held. rewrite R3, Es, msum_new, Hl by done. lia. }
  assert (cnt a T = 0 /\ held None T [] a s = 0) as [Hz Hz'].
  { pose proof (L2 a Ha) as E. split; [|done]. unfold held in E. pose proof (cnt_pos a T). pose proof (cnt_pos a []). pose proof (cnt_pos a (late s)). pose proof (msum_pos (links None a) (entries s) (links_pos None a)). lia. }
  split; [done|done| | |by apply (ok_upd P s s' a e)].
  - split; [intros x y; rewrite Hh|intros x; rewrite Hh|intros x y|intros x y|intros x y|done]; rewrite Es; (destruct (decide (x = a)) as [->|Hx]; map_simpl; [try (intros [= <-])|rewrite ?(Ht x Hx)]).
    + split; [lia|done].
    + intros Hx'. pose proof (L1 x y Hx'). lia.
    + intros Hx'. pose proof (L2 x Hx'). lia.
    + done.
    + by apply L3.
    + congruence.
    + by apply L4.
    + done.
    + by apply L5.
  - split; rewrite ?R1; [|done|].
    + intros x. rewrite D1, Es. destruct (decide (x = a)) as [->|Hx]; map_simpl; [|done]. rewrite Ha. split; [by intros (? & ? & _)|]. intros (y & [= <-] & Hy' & _). congruence.
    + rewrite R2, D3, Es, msum_new by done. unfold inmem at 2. rewrite Hm, bool_decide_false by done. cbn [one]. lia.
Qed.

Lemma restore_ev T N s a n k fn exp lastr sp ea : good T N s -> entries s !! a = None -> K n -> key_of n = Some k -> hash_lookup k s = None -> N + 1 < key_limit - 1 ->
  exists s', storeAufsDirAddDiskRestore a k fn exp lastr sp ea s = Some s' /\ good T (N + 1) s'.
Proof.
  intros [Hi Hk] Ha Hn Ek Hl Hb. unfold storeAufsDirAddDiskRestore. set (e := mkE _ _ _ _ _ _ _ _ _ _ _ _ _ _). set (s0 := set_entries _ s). assert (entries s0 !! a = Some e) as Ha0 by (cbn; by map_simpl).
  assert (keys P K s0) as Hk0 by (apply keys_new; [apply Hi|done|done]). destruct (link_ok P K s0 a e k false Hk0 Ha0) as (s1 & -> & Hk1 & Es1 & Ec1 & Hr1); [done|exact Hl|unfold key_ok; cbn; by exists n|].
  exists s1. split; [done|]. set (e1 := set_key (Some k) false e) in *. assert (entries s1 = <[a := e1]> (entries s)) as Es by (rewrite Es1; cbn; apply insert_insert_eq).
  assert (cnt a T = 0) as Hz. { pose proof (l_dead _ _ _ _ (i_locks _ _ _ _ _ _ _ Hi) a Ha) as E. unfold held in E. pose proof (cnt_pos a T). pose proof (cnt_pos a []). pose proof (cnt_pos a (late s)). pose proof (msum_pos (links None a) (entries s) (links_pos None a)). lia. }
  split; [|intros x y; rewrite Es; destruct (decide (x = a)) as [->|Hx]; map_simpl; [by intros [= <-]|apply Hk]].
  apply (add_inv T T N (N + 1) s s1 a e1); try done; [|by rewrite Hz]. pose proof (i_count _ _ _ _ _ _ _ Hi) as Hct. unfold count in *. rewrite Ec1, Es, msum_new by done. change (key_counter s0) with (key_counter s). unfold public at 1. cbn [PRIVATE set_key e1 negb one]. lia.
Qed.

(** What [storeCreateEntry] does when the entry has its key. *)
Definition complete_entry (a : positive) (cachable : bool) (s : store) : option store :=
  let? s := if cachable then upd a (set_flags true false) s
            else let? s := upd a (fun e => set_flags false (RELEASE_REQUEST e) e) s in storeReleaseRequest a s in
  let? s := upd a (set_store_status STORE_PENDING) s in
  let? s := storeSetMemStatus a NOT_IN_MEMORY s in
  upd a (fun e => set_lastref (curtime s) (set_swap (-1) SWAPOUT_NONE e)) s.

Lemma keyed_same s s' a e' : keyed s -> entries s' = <[a := e']> (entries s) -> hkey e' <> None -> keyed s'.
Proof. intros Hk Es He x y. rewrite Es. destruct (decide (x = a)) as [->|Hx]; map_simpl; [by intros [= <-]|apply Hk]. Qed.

Lemma ready_ok T N s a e c : inv T [] N s -> keyed s -> entries s !! a = Some e -> 1 <= cnt a T -> swap_status e = SWAPOUT_NONE -> exists s', complete_entry a c s = Some s' /\ good T N s'.
Proof.
  intros Hi Hk Ha Hc Hs. pose proof (i_ok _ _ _ _ _ _ _ Hi a e Ha) as [O1 O2 O3 O4 O5]. unfold complete_entry.
  assert (exists s1 e1, (if c then upd a (set_flags true false) s else let? s := upd a (fun e => set_flags false (RELEASE_REQUEST e) e) s in storeReleaseRequest a s) = Some s1 /\ inv T [] N s1 /\ keyed s1 /\
    entries s1 !! a = Some e1 /\ swap_status e1 = SWAPOUT_NONE) as (s1 & e1 & -> & H1 & Hk1 & Ha1 & Hs1).
  { destruct c; rewrite (upd_eq _ _ _ e) by done.
    - set (e1 := set_flags true false e). eexists _, e1. split; [done|]. split; [by apply (plain_inv P K T [] N s a e e1)|]. split; [by apply (keyed_upd s a e e1)|]. split; [cbn; by map_simpl|done].
    - bind_simpl. set (e1 := set_flags false _ e). set (s1 := set_entries _ s). assert (entries s1 !! a = Some e1) as Ha1 by (cbn; by map_simpl). assert (inv T [] N s1) as H1 by (by apply (plain_inv P K T [] N s a e e1)).
      destruct (releaseRequest_inv P K None junk T [] N s1 a e1 H1 Ha1) as (s2 & e2 & -> & H2 & Es2 & Hr & Hrel & Hp & _). assert (entries s2 !! a = Some e2) as Ha2 by (rewrite Es2; by map_simpl). exists s2, e2. split; [done|]. split; [done|].
      split; [|split; [done|]]; [apply (keyed_same s1 s2 a e2); [by apply (keyed_upd s a e e1)|done|intros En; pose proof (e_key _ _ (i_ok _ _ _ _ _ _ _ H2 a e2 Ha2) En); congruence]|].
      destruct Hr as [->|Hr]; [done|]. destruct (rekeyed_facts None _ _ Hr) as (_ & _ & _ & _ & _ & _ & _ & _ & _ & F9 & _). by rewrite F9. }
  bind_simpl. clear Hi Hk Ha Hs O1 O2 O3 O4 O5. pose proof (i_ok _ _ _ _ _ _ _ H1 a e1 Ha1) as [O1 O2 O3 O4 O5]. rewrite (upd_eq _ _ _ e1) by done. bind_simpl. set (e2 := set_store_status STORE_PENDING e1). set (s2 := set_entries _ s1).
  assert (entries s2 !! a = Some e2) as Ha2 by (cbn; by map_simpl). assert (inv T [] N s2) as H2 by (apply (plain_inv P K T [] N s1 a e1 e2); try done; apply (cach_token P K T [] N s1 a e1 H1 Ha1)).
  assert (keyed s2) as Hk2 by (by apply (keyed_upd s1 a e1 e2)). destruct (cool P K None T [] N s2 a e2 H2 Ha2) as (s3 & -> & H3 & Es3 & _). bind_simpl. set (e3 := set_mem_status NOT_IN_MEMORY e2) in *.
  assert (entries s3 !! a = Some e3) as Ha3 by (rewrite Es3; by map_simpl). rewrite (upd_eq _ _ _ e3) by done. eexists. split; [done|]. set (e4 := set_lastref _ _).
  assert (keyed s3) as Hk3 by (apply (keyed_same s2 s3 a e3); [done|done|exact (Hk2 a e2 Ha2)]). split; [|by apply (keyed_upd s3 a e3 e4)].
  assert (writing e1 = false) as Hw by (unfold writing; by rewrite Hs1).
  apply (plain_inv P K T [] N s3 a e3 e4); try done.
  - split; try done. cbn. change (writing e4) with false. congruence.
  - unfold self, writing. cbn [swap_status mem_obj e4 e3 e2 set_lastref set_swap set_mem_status set_store_status]. by rewrite Hs1.
  - apply (cach_token P K T [] N s3 a e3 H3 Ha3).
Qed.

Lemma create_ev T N s a u m (p c : bool) : good T N s -> entries s !! a = None -> P u m -> (p = false -> K (ByUrl u m)) -> N + 2 < key_limit - 1 -> exists s', storeCreateEntry a u m p c s = Some s' /\ good (a :: T) (N + 2) s'.
Proof.
  intros [Hi Hk] Ha Hp Hn Hb. unfold storeCreateEntry. set (mem := mkMem _ _ _ _ _ _ _ _ _ _ _). set (e := mkE _ _ _ _ _ _ _ _ _ _ _ _ _ _). set (s0 := set_entries _ s). assert (entries s0 !! a = Some e) as Ha0 by (cbn; by map_simpl).
  assert (cnt a (a :: T) = 1 + cnt a T) as Hca by (rewrite cnt_cons; by rewrite bool_decide_true).
  assert (cnt a T = 0) as Hz. { pose proof (l_dead _ _ _ _ (i_locks _ _ _ _ _ _ _ Hi) a Ha) as E. unfold held in E. pose proof (cnt_pos a T). pose proof (cnt_pos a []). pose proof (cnt_pos a (late s)). pose proof (msum_pos (links None a) (entries s) (links_pos None a)). lia. }
  assert (inv (a :: T) [] (N + 1) s0) as H0.
  { apply (add_inv T (a :: T) N (N + 1) s s0 a e); try done; [apply keys_new; [apply Hi|done|done]| | | | | |].
    - pose proof (i_count _ _ _ _ _ _ _ Hi) as Hct. unfold count in *. cbn [key_counter s0 entries set_entries]. rewrite msum_new by done. unfold public at 1. cbn [PRIVATE e negb one]. lia.
    - split; try done. cbn. by intros ? [= <-].
    - intros x Hx. rewrite cnt_cons, bool_decide_false by congruence. done.
    - rewrite Hca, Hz. done.
    - lia.
    - lia. }
  assert (keyed_but a s0) as Hk0 by (intros x y Hx; cbn; map_simpl; apply Hk).
  assert (exists s1 e1, (if p then storeSetPrivateKey a s0 else storeSetPublicKey a s0) = Some s1 /\ inv (a :: T) [] (N + 2) s1 /\ keyed s1 /\ entries s1 !! a = Some e1 /\ swap_status e1 = SWAPOUT_NONE) as (s1 & e1 & -> & H1 & Hk1 & Ha1 & Hs1).
  { destruct p.
    - destruct (private_inv P K None junk (a :: T) [] (N + 1) s0 a e H0 Ha0) as (s1 & e1 & -> & H1 & Es1 & Hr & Hpr & _). assert (entries s1 !! a = Some e1) as Ha1 by (rewrite Es1; by map_simpl). exists s1, e1. split; [done|].
      split; [apply (inv_le _ _ (N + 1)); [done|lia]|]. split; [|split; [done|]].
      + intros x y Hx En. destruct (decide (x = a)) as [->|Hne]; [assert (y = e1) as -> by congruence; pose proof (e_key _ _ (i_ok _ _ _ _ _ _ _ H1 a e1 Ha1) En); congruence|]. apply (Hk0 x y Hne); [|done]. revert Hx. rewrite Es1. by map_simpl.
      + destruct (rekeyed_facts None _ _ Hr) as (_ & _ & _ & _ & _ & _ & _ & _ & _ & F9 & _). by rewrite F9.
    - destruct (setPublicKey_ok (a :: T) (N + 1) s0 a e mem H0 Hk0 Ha0 eq_refl eq_refl ltac:(lia) (Hn eq_refl) ltac:(lia)) as (s1 & e1 & -> & H1 & Hk1 & Ha1 & (_ & _ & _ & K4 & _)). exists s1, e1. split; [done|].
      replace (N + 2) with (N + 1 + 1) by lia. done. }
  bind_simpl. exact (ready_ok (a :: T) (N + 2) s1 a e1 c H1 Hk1 Ha1 ltac:(lia) Hs1).
Qed.

(** ** The other events *)

Lemma good_le T N N' s : good T N s -> N <= N' < key_limit - 1 -> good T N' s.
Proof. intros [Hi Hk] Hn. split; [by apply (inv_le T [] N)|done]. Qed.

Lemma makePublic_ev T N s a e m : good T N s -> entries s !! a = Some e -> a ∈ T -> mem_obj e = Some m -> K (plain_name m) -> N + 1 < key_limit - 1 -> exists s', httpMakePublic a s = Some s' /\ good T (N + 1) s'.
Proof.
  intros [Hi Hk] Ha Hin Em Hn Hb. apply cnt_in in Hin. unfold httpMakePublic. rewrite Ha. bind_simpl. destruct (CACHABLE e) eqn:Ec; [|exists s; split; [done|apply (good_le T N); [done|lia]]].
  destruct (setPublicKey_ok T N s a e m) as (s' & e' & E & H' & Hk' & _); try done; [intros x y _; apply Hk| |by exists s'].
  destruct (RELEASE_REQUEST e) eqn:Er; [|done]. pose proof (cach_token P K T [] N s a e Hi Ha Er Ec). lia.
Qed.

Lemma memory_ev T N s a e m m' : good T N s -> entries s !! a = Some e -> mem_obj e = Some m -> sio m' = sio m -> url m' = url m -> method m' = method m -> nclients m' = nclients m -> ims_entry m' = ims_entry m -> old_entry m' = old_entry m ->
  (1 <= cnt a T \/ weak (set_mem (Some m') e) = false \/ head m' = head m /\ inmem_lo m' = inmem_lo m) -> good T N (set_entries (<[a := set_mem (Some m') e]> (entries s)) s).
Proof.
  intros [Hi Hk] Ha Em E1 E2 E3 E4 E5 E6 Hw. split; [|by apply (keyed_upd s a e)]. apply (plain_inv P K T [] N s a e (set_mem (Some m') e)); try done.
  - apply (mem_ok P e m m'); try done. apply (i_ok _ _ _ _ _ _ _ Hi a e Ha).
  - intros x. unfold links. cbn [mem_obj set_mem]. by rewrite Em, E5, E6.
  - unfold self. cbn [mem_obj set_mem]. by rewrite Em, E4.
  - intros W. destruct Hw as [?|[?|[E7 E8]]]; [done|congruence|]. apply (weak_token P K T [] N s a e Hi Ha). rewrite <- W. unfold weak, storeKeepInMemory. cbn [mem_obj set_mem]. by rewrite Em, E7, E8.
  - apply (cach_token P K T [] N s a e Hi Ha).
Qed.

Lemma early_ev T N s a e r : good T N s -> entries s !! a = Some e -> a ∈ T -> has_mem e -> RELEASE_REQUEST e = false -> K (ByRequest (no_vary r)) -> N + 1 < key_limit - 1 -> exists s', early_public a r s = Some s' /\ good T (N + 1) s'.
Proof.
  intros Hg Ha Hin Hm Hr Hn Hb. unfold has_mem in Hm. destruct (mem_obj e) as [m|] eqn:Em; [|done]. unfold early_public. rewrite Ha. bind_simpl. rewrite Em. cbn [is_some]. rewrite (upd_eq _ _ _ e) by done. bind_simpl. rewrite Em. cbn [fmap option_fmap option_map].
  set (m1 := set_request (Some r) m). set (e1 := set_mem (Some m1) e). apply cnt_in in Hin. assert (good T N (set_entries (<[a := e1]> (entries s)) s)) as [H1 Hk1] by (apply (memory_ev T N s a e m m1); try done; by left).
  set (s1 := set_entries _ s) in *. assert (entries s1 !! a = Some e1) as Ha1 by (cbn; by map_simpl). rewrite (upd_eq _ _ _ e1) by done. bind_simpl. set (e2 := set_early true e1). set (s2 := set_entries _ s1).
  pose proof (i_ok _ _ _ _ _ _ _ H1 a e1 Ha1) as [O1 O2 O3 O4 O5]. assert (inv T [] N s2) as H2 by (apply (plain_inv P K T [] N s1 a e1 e2); try done; apply (cach_token P K T [] N s1 a e1 H1 Ha1)).
  assert (keyed s2) as Hk2 by (by apply (keyed_upd s1 a e1 e2)). destruct (setPublicKey_ok T N s2 a e2 m1) as (s' & e' & E & H' & Hk' & _); try done; [intros x y _; apply Hk2|cbn; by map_simpl|by exists s'].
Qed.

Lemma reforward_ev T N s a e n c : good T N s -> entries s !! a = Some e -> a ∈ T -> exists s', reforward a n c s = Some s' /\ good T N s'.
Proof.
  intros Hg Ha Hin. apply cnt_in in Hin. unfold reforward.
  assert (forall s e e', good T N s -> entries s !! a = Some e -> hkey e' = hkey e -> PRIVATE e' = PRIVATE e -> mem_obj e' = mem_obj e -> mem_status e' = mem_status e -> SPECIAL e' = SPECIAL e -> lock_count e' = lock_count e -> swap_status e' = swap_status e ->
    (RELEASE_REQUEST e' = true -> RELEASE_REQUEST e = true /\ CACHABLE e' = CACHABLE e) -> good T N (set_entries (<[a := e']> (entries s)) s)) as Hup.
  { clear s e Hg Ha. intros s e e' [Hi Hk] Ha E1 E2 E3 E4 E5 E6 E7 Hr. split; [|by apply (keyed_upd s a e)]. pose proof (i_ok _ _ _ _ _ _ _ Hi a e Ha) as [O1 O2 O3 O4 O5].
    apply (plain_inv P K T [] N s a e e'); try done; [|intros x; unfold links; by rewrite E3|unfold self, writing; by rewrite E3, E7|intros R C; destruct (Hr R) as [R' C']; apply (cach_token P K T [] N s a e Hi Ha); congruence].
    split; unfold writing in *; rewrite ?E1, ?E2, ?E3, ?E4, ?E7; try done. intros R. apply O2, Hr, R. }
  assert (exists s1 e1, (if n then let? s := storeSetPrivateKey a s in upd a (set_early false) s else Some s) = Some s1 /\ good T N s1 /\ entries s1 !! a = Some e1) as (s1 & e1 & E1 & Hg1 & Ha1).
  { destruct n; [|by exists s, e]. destruct Hg as [Hi Hk]. destruct (private_inv P K None junk T [] N s a e Hi Ha) as (s1 & e1 & -> & H1 & Es1 & _ & Hp & _). bind_simpl. assert (entries s1 !! a = Some e1) as Ha1 by (rewrite Es1; by map_simpl).
    rewrite (upd_eq _ _ _ e1) by done. eexists _, (set_early false e1). split; [done|]. split; [|cbn; by map_simpl]. apply (Hup s1 e1); try done. split; [done|]. apply (keyed_same s s1 a e1); try done.
    intros En. pose proof (e_key _ _ (i_ok _ _ _ _ _ _ _ H1 a e1 Ha1) En). congruence. }
  rewrite E1. bind_simpl. rewrite Ha1. bind_simpl.
  assert (exists s2 e2, (if RELEASE_REQUEST e1 then upd a (fun e => set_early false (set_flags (CACHABLE e) false e)) s1 else Some s1) = Some s2 /\ good T N s2 /\ entries s2 !! a = Some e2 /\ RELEASE_REQUEST e2 = false) as (s2 & e2 & -> & Hg2 & Ha2 & Hr2).
  { destruct (RELEASE_REQUEST e1) eqn:Er; [|by exists s1, e1]. rewrite (upd_eq _ _ _ e1) by done. eexists _, (set_early false (set_flags (CACHABLE e1) false e1)). split; [done|]. split; [by apply (Hup s1 e1)|]. split; [cbn; by map_simpl|done]. }
  bind_simpl. destruct c; [|by exists s2]. rewrite (upd_eq _ _ _ e2) by done. eexists. split; [done|]. apply (Hup s2 e2); try done. cbn. congruence.
Qed.

Lemma createMem_ev T N s a e u m : good T N s -> entries s !! a = Some e -> a ∈ T -> P u m -> exists s', storeCreateMemObject a u m s = Some s' /\ good T N s'.
Proof.
  intros [Hi Hk] Ha Hin Hp. apply cnt_in in Hin. unfold storeCreateMemObject. rewrite (upd_eq _ _ _ e) by done. eexists. split; [done|]. destruct (mem_obj e) as [m0|] eqn:Em; cbn [default].
  - apply (memory_ev T N s a e m0 m0); try done. by left.
  - set (m1 := mkMem _ _ _ _ _ _ _ _ _ _ _). unfold id. set (e' := set_mem (Some m1) e). split; [|by apply (keyed_upd s a e e')]. pose proof (i_ok _ _ _ _ _ _ _ Hi a e Ha) as [O1 O2 O3 O4 O5]. rewrite Em in O3.
    apply (plain_inv P K T [] N s a e e'); try done; [split; try done; cbn; by intros ? [= <-]|intros x; unfold links; by rewrite Em|unfold self; cbn [mem_obj e' set_mem]; by rewrite Em|apply (cach_token P K T [] N s a e Hi Ha)].
Qed.

Lemma special_ev T N s a e : good T N s -> entries s !! a = Some e -> mem_status e = NOT_IN_MEMORY -> good T N (set_entries (<[a := set_special e]> (entries s)) s).
Proof.
  intros [Hi Hk] Ha Hm. split; [|by apply (keyed_upd s a e)]. pose proof (i_ok _ _ _ _ _ _ _ Hi a e Ha) as [O1 O2 O3 O4 O5]. set (e' := set_special e). set (s' := set_entries _ s).
  split; [by apply (keys_upd P K s s' a e e'); try apply Hi|by apply (count_upd N s s' a e e'); try apply Hi| | |by apply (ok_upd P s s' a e'); try apply Hi].
  - apply (locks_upd None T [] s s' a e e'); try done; [apply Hi|apply (cach_token P K T [] N s a e Hi Ha)].
  - destruct (i_hots _ _ _ _ _ _ _ Hi) as [D1 D2 D3]. split; cbn [hot hot_obj_count entries set_entries s']; [|done|].
    + intros x. rewrite D1. destruct (decide (x = a)) as [->|Hx]; map_simpl; [|done]. rewrite Ha. split; [intros (y & [= <-] & ? & _); congruence|intros (y & [= <-] & _ & Hy); done].
    + rewrite (msum_upd _ _ _ _ _ Ha), D3. change (inmem a e') with (inmem a e). lia.
Qed.

Lemma purge_ev T N s a e : good T N s -> entries s !! a = Some e -> storeEntryLocked e = false -> exists s', storePurgeMem a s = Some s' /\ good T N s'.
Proof.
  intros [Hi Hk] Ha Hl. assert (lock_count e = 0) as Hz. { unfold storeEntryLocked in Hl. destruct (lock_count e =? 0) eqn:E; [by apply Z.eqb_eq|done]. } pose proof (fuel_enough s).
  destruct (purge_ok P K None junk (unlock_fuel (fuel s)) (Z.of_nat (fuel s)) T [] N s a e (unlock_fuel_ok P K None junk (fuel s)) Hi Ha Hz ltac:(lia)) as (s' & E & H' & F & _).
  exists s'. split; [exact E|]. split; [done|]. by apply (keyed_frame P K (Some a) T None T [] N s s').
Qed.

Lemma memSpace_ev T N walk : forall s, good T N s -> exists s', storeGetMemSpace walk s = Some s' /\ good T N s'.
Proof.
  induction walk as [|a walk IH]; intros s Hg; [by exists s|]. cbn [storeGetMemSpace]. destruct (entries s !! a) as [e|] eqn:Ha; [|bind_simpl; by apply IH].
  destruct (bool_decide (a ∈ hot s) && negb (storeEntryLocked e)) eqn:E; [|bind_simpl; by apply IH]. apply andb_true_iff in E as [_ E]. apply negb_true_iff in E.
  destruct (purge_ev T N s a e Hg Ha E) as (s1 & -> & Hg1). bind_simpl. by apply IH.
Qed.

Lemma late_ev T N n : forall s, good T N s -> exists s', late_loop n s = Some s' /\ good T N s'.
Proof.
  induction n as [|n IH]; intros s Hg; [by exists s|]. cbn [late_loop]. destruct (late s) as [|a l] eqn:El; [by exists s|]. destruct Hg as [Hi Hk].
  assert (inv T [a] N (set_late l s)) as H1.
  { destruct Hi as [[A1 A2 A3] A [L1 L2 L3 L4 L5 L6] [D1 D2 D3] O]. assert (forall x, held None T [a] x (set_late l s) = held None T [] x s) as Hh by (intros x; unfold held; cbn [late set_late entries]; rewrite El, !cnt_cons; change (cnt x []) with 0; lia).
    split; [done|done| |done|done]. split; try done; [intros x y; rewrite Hh; apply L1|intros x; rewrite Hh; apply L2]. }
  destruct (unlock_inv P K junk None T [] N (set_late l s) a H1) as (s1 & -> & H2 & F). bind_simpl. apply IH. split; [done|]. by apply (keyed_frame P K None T None T [] N (set_late l s) s1).
Qed.

Lemma plain_ev T N s a e e' : good T N s -> entries s !! a = Some e -> 1 <= cnt a T -> hkey e' = hkey e -> PRIVATE e' = PRIVATE e -> mem_obj e' = mem_obj e -> mem_status e' = mem_status e -> SPECIAL e' = SPECIAL e ->
  lock_count e' = lock_count e -> swap_status e' = swap_status e -> RELEASE_REQUEST e' = RELEASE_REQUEST e -> CACHABLE e' = CACHABLE e -> good T N (set_entries (<[a := e']> (entries s)) s).
Proof.
  intros [Hi Hk] Ha Hc E1 E2 E3 E4 E5 E6 E7 E8 E9. split; [|by apply (keyed_upd s a e)]. pose proof (i_ok _ _ _ _ _ _ _ Hi a e Ha) as [O1 O2 O3 O4 O5].
  apply (plain_inv P K T [] N s a e e'); try done; [|intros x; unfold links; by rewrite E3|unfold self, writing; by rewrite E3, E7|rewrite E8, E9; apply (cach_token P K T [] N s a e Hi Ha)].
  split; unfold writing in *; rewrite ?E1, ?E2, ?E3, ?E4, ?E7, ?E8; done.
Qed.

Lemma upd_mem_eq a f s e m : entries s !! a = Some e -> mem_obj e = Some m -> upd_mem a f s = Some (set_entries (<[a := set_mem (Some (f m)) e]> (entries s)) s).
Proof. intros Ha Em. unfold upd_mem. rewrite Ha. bind_simpl. rewrite Em. bind_simpl. by rewrite (upd_eq _ _ _ e). Qed.

(** Every allowed event keeps the invariant. *)
Lemma event_ok T N s ev : good T N s -> allowed P K ev T s -> N + 2 < key_limit - 1 -> exists s', handle ev s = Some s' /\ good (tokens_after ev T) (N + 2) s'.
Proof.
  intros Hg Ha Hb. assert (forall T' s' N', good T' N' s' -> N' <= N + 2 -> good T' (N + 2) s') as Hle by (intros T' s' N' H1 H2; apply (good_le T' N'); [done|lia]).
  assert (forall T' (r : option store), (exists s', r = Some s' /\ good T' N s') -> exists s', r = Some s' /\ good T' (N + 2) s') as H0 by (intros T' r (s' & E & H1); exists s'; split; [done|apply (Hle T' s' N); [done|lia]]).
  assert (forall T' (r : option store), (exists s', r = Some s' /\ good T' (N + 1) s') -> exists s', r = Some s' /\ good T' (N + 2) s') as H1 by (intros T' r (s' & E & H1); exists s'; split; [done|apply (Hle T' s' (N + 1)); [done|lia]]).
  destruct ev as [a u m p c|a n k fn exp lastr sp ea|a|a|a|a|a|a r|a r|a u|a u m|a h lo|a|a n c|a|a fn|a err c|ims a b|ims a|a|a|walk| |b|t]; cbn [handle tokens_after allowed] in *.
  - destruct Ha as (A1 & A2 & A3). by apply create_ev.
  - destruct Ha as (A1 & A2 & A3 & A4). apply H1. apply (restore_ev T N s a n k); try done. lia.
  - destruct Ha as (e & A1 & A2 & A3). apply H0. destruct Hg as [Hi Hk].
    destruct (lock_inv P K T [] (a :: T) [] N s a e Hi A1 A2) as (s' & e' & E & Ee & Es & H').
    { intros x. rewrite cnt_cons. unfold one. lia. } { intros x Hx. rewrite cnt_cons, bool_decide_false by congruence. done. } { rewrite cnt_cons, bool_decide_true by done. lia. }
    { destruct A3 as [A3|A3]; [by right; left|right; right; by apply cnt_in]. }
    exists s'. split; [done|]. split; [done|]. rewrite Es. apply (keyed_upd s a e e'); try done. by rewrite Ee.
  - destruct Ha as (e & A1 & A2 & A3). apply H0. by apply (unlock_ev P K junk T N s a e).
  - destruct Ha as (e & A1 & A2 & A3). apply H0. by apply (register_ev P K T N s a e).
  - destruct Ha as (e & A1 & A2). apply H0. by apply (unregister_ev P K junk T N s a e).
  - destruct Ha as (e & m & A1 & A2 & A3 & A4). apply H1. apply (makePublic_ev T N s a e m); try done. lia.
  - destruct Ha as (e & A1 & A2 & A3 & A4 & A5). apply H1. apply (early_ev T N s a e r); try done. lia.
  - destruct Ha as (e & A1 & A2). unfold has_mem in A2. destruct (mem_obj e) as [m|] eqn:Em; [|done]. apply H0. rewrite (upd_mem_eq _ _ _ e m) by done. eexists. split; [done|]. apply (memory_ev T N s a e m); try done. by right; right.
  - destruct Ha as (e & A1 & A2). unfold has_mem in A2. destruct (mem_obj e) as [m|] eqn:Em; [|done]. apply H0. rewrite (upd_mem_eq _ _ _ e m) by done. eexists. split; [done|]. apply (memory_ev T N s a e m); try done. by right; right.
  - destruct Ha as (e & A1 & A2 & A3). apply H0. by apply (createMem_ev T N s a e u m).
  - destruct Ha as (e & m & A1 & A2 & A3). apply H0. rewrite (upd_mem_eq _ _ _ e m) by done. eexists. split; [done|]. apply (memory_ev T N s a e m); try done. destruct A3 as [A3|A3]; [left; by apply cnt_in|by right; left].
  - destruct Ha as (e & A1 & A2). apply H0. rewrite (upd_eq _ _ _ e) by done. eexists. split; [done|]. apply (plain_ev T N s a e); try done. by apply cnt_in.
  - destruct Ha as (e & A1 & A2). apply H0. by apply (reforward_ev T N s a e).
  - destruct Ha as (e & A1 & A2). apply H0. rewrite (upd_eq _ _ _ e) by done. eexists. split; [done|]. by apply special_ev.
  - destruct Ha as (e & A1 & A2 & A3 & A4). apply H0. by apply (swapout_ev P K T N s a e).
  - destruct Ha as (e & A1 & A2). apply H0. by apply (swapclosed_ev P K junk T N s a e).
  - destruct Ha as (e & f & A1 & A2 & A3 & A4 & A5 & A6). apply H0. by apply (link_ev P K junk T N s a b e f).
  - destruct Ha as (e & A1 & A2 & A3). apply H0. destruct (drop_link_ok P K junk T N s a e ims Hg A1 A2 A3) as (s' & e' & m' & E & Hg' & _). by exists s'.
  - destruct Ha as (e & A1). apply H0. destruct Hg as [Hi Hk]. destruct (release_inv P K junk None T [] N s a e Hi A1) as (s' & E & H' & F & _). exists s'. split; [done|]. split; [done|]. by apply (keyed_frame P K (Some a) T None T [] N s s').
  - destruct Ha as (e & A1). apply H0. destruct Hg as [Hi Hk]. destruct (releaseRequest_inv P K None junk T [] N s a e Hi A1) as (s' & e' & E & H' & Es & _ & _ & Hp & _). exists s'. split; [done|]. split; [done|].
    apply (keyed_same s s' a e'); try done. intros En. pose proof (e_key _ _ (i_ok _ _ _ _ _ _ _ H' a e' ltac:(rewrite Es; by map_simpl)) En). congruence.
  - apply H0. by apply memSpace_ev.
  - apply H0. unfold storeLateRelease. destruct (rebuilding s); [by exists s|by apply late_ev].
  - apply H0. eexists. split; [done|]. destruct Hg as [Hi Hk]. split; [by apply (ext_inv P K None T [] N s)|done].
  - apply H0. eexists. split; [done|]. destruct Hg as [Hi Hk]. split; [by apply (ext_inv P K None T [] N s)|done].
Qed.

Lemma store_run_ok evs : forall T N s, good T N s -> disciplined P K evs T s -> N + 2 * Z.of_nat (length evs) < key_limit - 1 -> exists T' N' s', run evs T s = Some (T', s') /\ good T' N' s'.
Proof.
  induction evs as [|ev evs IH]; intros T N s Hg Hd Hn; [by exists T, N, s|]. cbn [run disciplined length] in *. destruct Hd as [Ha Hd]. destruct (event_ok T N s ev Hg Ha ltac:(lia)) as (s1 & E & Hg1). rewrite E. bind_simpl. apply (IH _ (N + 2)); [done|by apply Hd|lia].
Qed.

Lemma empty_good reb now : 1 < key_limit -> good [] 0 (empty_store reb now).
Proof.
  intros Hlim. assert (forall A (x : A), x ∈ [] <-> False) as Hn by (intros A x; split; [apply not_elem_of_nil|done]). assert (forall a (f : entry -> Prop), (exists e : entry, entries (empty_store reb now) !! a = Some e /\ f e) <-> False) as He by (intros a f; split; [by intros (? & ? & _)|done]).
  split; [|done]. split; [|unfold count; cbn; change (msum public ∅) with 0; lia| | |done].
  - split; [intros k a; cbn [table empty_store]; by rewrite Hn, He|apply NoDup_nil_2|done].
  - split; done.
  - split; [intros a; cbn [hot empty_store]; by rewrite Hn, He|apply NoDup_nil_2|done].
Qed.

(** What the store promises to those who use it: entries that are locked are
    there, and are locked as often as they are held; each entry is found by its
    key, and nothing else is; what is found under a public name is public and
    not to be released; and the memory policy has the entries in memory. *)
Record contract (T : list positive) (s : store) : Prop := {
  c_tokens : forall a, a ∈ T -> exists e, entries s !! a = Some e;
  c_locks : forall a e, entries s !! a = Some e -> lock_count e = cnt a T + cnt a (late s) + msum (links None a) (entries s) + self e /\ lock_count e < 2 ^ 16;
  c_found : forall a e, entries s !! a = Some e -> exists k, hkey e = Some k /\ storeGet k s = Some a;
  c_live : forall k a, storeGet k s = Some a -> exists e, entries s !! a = Some e /\ hkey e = Some k;
  c_public : forall n k a e, K n -> key_of n = Some k -> storeGet k s = Some a -> entries s !! a = Some e -> PRIVATE e = false /\ RELEASE_REQUEST e = false;
  c_hot : forall a, a ∈ hot s <-> exists e, entries s !! a = Some e /\ mem_status e = IN_MEMORY /\ SPECIAL e = false
}.

Lemma good_contract T N s : good T N s -> contract T s.
Proof.
  intros [Hi Hk]. pose proof (i_keys _ _ _ _ _ _ _ Hi) as Hkeys. assert (forall k a, storeGet k s = Some a -> exists e, entries s !! a = Some e /\ hkey e = Some k) as Hlive.
  { intros k a Hg. apply find_key in Hg; [|apply Hkeys]. by apply Hkeys. }
  split; [|intros a e Ha| |exact Hlive| |apply (i_hots _ _ _ _ _ _ _ Hi)].
  - intros a Hin. apply cnt_in in Hin. destruct (entries s !! a) as [e|] eqn:Ha; [by exists e|]. pose proof (l_dead _ _ _ _ (i_locks _ _ _ _ _ _ _ Hi) a Ha) as E. unfold held in E.
    pose proof (cnt_pos a []). pose proof (cnt_pos a (late s)). pose proof (msum_pos (links None a) (entries s) (links_pos None a)). lia.
  - destruct (l_live _ _ _ _ (i_locks _ _ _ _ _ _ _ Hi) a e Ha) as [E Hb]. unfold held in E. change (cnt a []) with 0 in E. split; [lia|done].
  - intros a e Ha. destruct (hkey e) as [k|] eqn:Ek; [|by destruct (Hk a e Ha)]. exists k. split; [done|]. by apply (find_entry P K s k a e).
  - intros n k a e Hn Ek Hg Ha. destruct (Hlive k a Hg) as (e' & Ha' & Ek'). assert (e' = e) as -> by congruence. assert (PRIVATE e = false) as Hp.
    { destruct (PRIVATE e) eqn:Ep; [|done]. destruct (private_not_public T [] N s n k e a Hi Hn Ek Ha (or_introl Ep) Ek'). }
    split; [done|]. destruct (RELEASE_REQUEST e) eqn:Er; [|done]. pose proof (e_rel _ _ (i_ok _ _ _ _ _ _ _ Hi a e Ha) Er). congruence.
Qed.

End safe.

(** ** MD5 keys

    The keys of StoreKey.v are told apart if the digests of what is used are. *)

Definition md5_keys (M : Md5.MD5Context) (L : Z) : StoreKeys :=
  {| key_limit := L; storeKeyPrivate := StoreKey.storeKeyPrivate M; storeKeyPublic := StoreKey.storeKeyPublic M; storeKeyPublicByRequest := StoreKey.storeKeyPublicByRequest M |}.

Definition name_rq (n : name) : StoreKey.request_key := match n with ByUrl u m => StoreKey.mkRq None u None None None m | ByRequest r => r end.
Definition name_input (n : name) : list bytes := StoreKey.public_input (name_rq n) (StoreKey.rq_method (name_rq n)).

Definition inputs (L : Z) (urls : list (bytes * option HttpMethod.method_t)) (names : list name) : list bytes :=
  flat_map (fun um => map (fun i => concat (StoreKey.private_input um.1 um.2 (Z.of_nat i))) (seq 1 (Z.to_nat (L - 1)))) urls ++ map (fun n => concat (name_input n)) names.

Definition short (d : bytes) : Prop := Z.of_nat (length d) < 2 ^ 32.
Definition url_ok (um : bytes * option HttpMethod.method_t) : Prop := short um.1 /\ forall x, um.2 = Some x -> 0 <= HttpMethod.code x < 256.
Definition name_ok (n : name) : Prop := StoreKey.rq_ok (name_rq n) /\ Forall short (name_input n).

Lemma distinct_inj {A B} (f : A -> B) l x y : NoDup (f <$> l) -> x ∈ l -> y ∈ l -> f x = f y -> x = y.
Proof.
  induction l as [|z l IH]; [by intros _ ?%not_elem_of_nil|]. rewrite fmap_cons, list.NoDup_cons. intros [Hz Hl] Hx Hy E. apply elem_of_cons in Hx, Hy. destruct Hx as [->|Hx], Hy as [->|Hy]; [done| | |by apply IH].
  - destruct Hz. rewrite E. by apply list_elem_of_fmap_2.
  - destruct Hz. rewrite <- E. by apply list_elem_of_fmap_2.
Qed.

Section md5.
Context (M : Md5.MD5Context) (HM : length (Md5.block M) = 64%nat) (L : Z) (HL : L <= 2 ^ 31).

Lemma private_short u m i : short u -> Forall short (StoreKey.private_input u m i).
Proof.
  intros Hu. unfold StoreKey.private_input. assert (forall z, short (le_bytes 4 z)) as Hl by (intros z; unfold short; by rewrite length_le_bytes).
  apply List.Forall_cons; [apply Hl|]. apply List.Forall_cons; [destruct m; apply Hl|]. apply List.Forall_cons; [done|constructor].
Qed.

Lemma private_digest u m i k : url_ok (u, m) -> 0 < i -> StoreKey.storeKeyPrivate M u m i = Some k -> Md5.Rfc.md5 (concat (StoreKey.private_input u m i)) = k.
Proof.
  intros [Hu Hm] Hi. unfold StoreKey.storeKeyPrivate. rewrite (proj2 (Z.ltb_lt 0 i)) by done. rewrite Md5.pieces_ok; [by intros [= <-]|done|by apply private_short].
Qed.

Lemma public_digest n : name_ok n -> @key_of (md5_keys M L) n = Some (Md5.Rfc.md5 (concat (name_input n))).
Proof.
  intros [Hn Hs]. destruct n as [u m|r]; cbn [key_of storeKeyPublic storeKeyPublicByRequest md5_keys]; unfold StoreKey.storeKeyPublic, StoreKey.storeKeyPublicByRequest, StoreKey.storeKeyPublicByRequestMethod; rewrite Md5.pieces_ok; try done.
Qed.

Lemma private_used urls names u m i : (u, m) ∈ urls -> 0 < i < L -> concat (StoreKey.private_input u m i) ∈ inputs L urls names.
Proof.
  intros Hu Hi. unfold inputs. apply elem_of_app. left. apply list_elem_of_In, in_flat_map. exists (u, m). split; [by apply list_elem_of_In|]. cbn [fst snd].
  apply in_map_iff. exists (Z.to_nat i). rewrite Z2Nat.id by lia. split; [done|]. apply in_seq. lia.
Qed.

Lemma name_used urls names n : n ∈ names -> concat (name_input n) ∈ inputs L urls names.
Proof. intros Hn. unfold inputs. apply elem_of_app. right. apply list_elem_of_In, in_map_iff. exists n. split; [done|]. by apply list_elem_of_In. Qed.

Lemma md5_laws urls names : Forall url_ok urls -> Forall name_ok names -> NoDup (Md5.Rfc.md5 <$> inputs L urls names) -> @StoreKeyLaws (md5_keys M L) (fun u m => (u, m) ∈ urls) (fun n => n ∈ names).
Proof.
  intros Hu Hn Hd. assert (forall u m, (u, m) ∈ urls -> url_ok (u, m)) as Hu' by (intros u m Hin; rewrite List.Forall_forall in Hu; by apply Hu, list_elem_of_In).
  assert (forall n, n ∈ names -> name_ok n) as Hn' by (intros n Hin; rewrite List.Forall_forall in Hn; by apply Hn, list_elem_of_In). split; cbn [key_limit md5_keys storeKeyPrivate].
  - done.
  - intros u m i Hin Hi. destruct (Hu' u m Hin) as [Hs Hm]. unfold StoreKey.storeKeyPrivate. rewrite (proj2 (Z.ltb_lt 0 i)) by lia. rewrite Md5.pieces_ok; [by eexists|done|by apply private_short].
  - intros n Hin. rewrite public_digest by auto. by eexists.
  - intros u m i u' m' i' k Hin Hin' Hi Hi' E E'. apply private_digest in E; [|auto|lia]. apply private_digest in E'; [|auto|lia].
    apply (StoreKey.private_input_id u m i u' m' i'); [lia|lia|]. apply (distinct_inj _ _ _ _ Hd); [by apply private_used|by apply private_used|congruence].
  - intros u m i n k Hin Hnin Hi E E'. apply private_digest in E; [|auto|lia]. rewrite public_digest in E' by auto. apply (inj Some) in E'. destruct (Hn' n Hnin) as [Hrq _]. destruct (Hu' u m Hin) as [_ Hm].
    apply (StoreKey.public_private_input (name_rq n) (StoreKey.rq_method (name_rq n)) u m i Hrq Hm). apply (distinct_inj _ _ _ _ Hd); [by apply name_used|by apply private_used|]. fold (name_input n). exact (eq_trans E' (eq_sym E)).
Qed.

End md5.

(** C3. Keys and locks of the store.  From an empty store, whatever the server
    and client sides, the file system and the cleaning of memory do within
    their promises, in any order: no assertion of the store fails, no entry is
    used after it was freed, locks that cascade along references come to an
    end, and the store keeps its contract: who has locked an entry still has
    it, lock counts are exact, each entry is found by its own key and by no
    other, and what is found under a public name is not about to be released. *)
Theorem store_safe `{SK : StoreKeys} P K (SL : StoreKeyLaws P K) evs reb now : P JUNK NONE -> 2 * Z.of_nat (length evs) + 1 < key_limit -> disciplined P K evs [] (empty_store reb now) ->
  exists T s, run evs [] (empty_store reb now) = Some (T, s) /\ contract K T s.
Proof.
  intros junk Hn Hd. destruct (store_run_ok P K junk evs [] 0 (empty_store reb now)) as (T & N & s & E & Hg); [apply empty_good; lia|done|lia|]. exists T, s. split; [done|]. by apply (good_contract P K T N s).
Qed.

(** An object is fetched, revalidated and replaced, with MD5 keys. *)
Definition ex_url : bytes := str "http://example.com/".
Definition ex_urls : list (bytes * option HttpMethod.method_t) := [(JUNK, NONE); (ex_url, None)].
Definition ex_names : list name := [ByUrl ex_url None].
Definition ex_keys : StoreKeys := md5_keys Md5.ctx0 26.
Definition ex_events : list event :=
  [Create 1 ex_url None true true; MakePublic 1; Data 1 true 0; Complete 1; Register 1; Create 2 ex_url None true true; Link false 2 1; MakePublic 2; Unlock 1; Unregister 1; Release 2].

Ltac decided := apply (bool_decide_unpack _); vm_compute; exact I.

Lemma ex_laws : @StoreKeyLaws ex_keys (fun u m => (u, m) ∈ ex_urls) (fun n => n ∈ ex_names).
Proof.
  apply (md5_laws Md5.ctx0 ltac:(reflexivity) 26 ltac:(lia) ex_urls ex_names).
  - apply List.Forall_cons; [split; [vm_compute; reflexivity|intros x E; vm_compute in E; injection E as <-; split; vm_compute; [discriminate|reflexivity]]|]. apply List.Forall_cons; [split; [vm_compute; reflexivity|done]|constructor].
  - apply List.Forall_cons; [|constructor]. split; [split; [vm_compute; repeat constructor; discriminate|done]|].
    let l := eval vm_compute in (name_input (ByUrl ex_url None)) in change (Forall short l). repeat (apply List.Forall_cons; [reflexivity|]). constructor.
  - decided.
Qed.

Ltac member := apply list_elem_of_In; repeat first [left; reflexivity|right].
Ltac happens := split; [|let s' := fresh "s" in let E := fresh "E" in intros s' E; vm_compute in E; injection E as <-].
Ltac there := split; [vm_compute; reflexivity|].

Lemma ex_disciplined : @disciplined ex_keys (fun u m => (u, m) ∈ ex_urls) (fun n => n ∈ ex_names) ex_events [] (empty_store false 0).
Proof.
  unfold ex_events. cbn [disciplined tokens_after].
  happens. { there. split; [member|done]. }
  happens. { eexists _, _. there. split; [member|]. split; [reflexivity|]. member. }
  happens. { eexists _, _. there. split; [reflexivity|]. left. member. }
  happens. { eexists. there. member. }
  happens. { eexists. there. split; [done|]. vm_compute. reflexivity. }
  happens. { there. split; [member|done]. }
  happens. { eexists _, _. there. split; [member|]. split; [done|]. there. split; [member|]. vm_compute. reflexivity. }
  happens. { eexists _, _. there. split; [member|]. split; [reflexivity|]. member. }
  happens. { eexists. there. split; [member|]. right. vm_compute. reflexivity. }
  happens. { eexists. there. done. }
  happens. { eexists. vm_compute. reflexivity. }
  exact I.
Qed.

Lemma store_safe_witness : exists T s, @run ex_keys ex_events [] (empty_store false 0) = Some (T, s) /\ @contract ex_keys (fun n => n ∈ ex_names) T s.
Proof. apply (@store_safe ex_keys _ _ ex_laws ex_events false 0); [member|vm_compute; reflexivity|exact ex_disciplined]. Defined.

(** In the end the new entry is held by its owner and the old one by the new
    one; both are to be released.  When the owner of the new entry, complete,
    gives it back, both are gone. *)
Example ex_end : (fun r : list positive * store => (r.1, map_to_list (entries r.2) ≫= fun x => [(x.1, lock_count x.2, RELEASE_REQUEST x.2, PRIVATE x.2)])) <$> @run ex_keys ex_events [] (empty_store false 0) = Some ([2%positive], [(2%positive, 1, true, true); (1%positive, 1, true, true)]).
Proof. vm_compute. reflexivity. Qed.

Example ex_gone : (fun r : list positive * store => (r.1, map_to_list (entries r.2), table r.2)) <$> @run ex_keys (ex_events ++ [Complete 2; Unlock 2]) [] (empty_store false 0) = Some ([], [], []).
Proof. vm_compute. reflexivity. Qed.

End StoreSafe.
