(* ===== verification/StorePump.v ===== *)
(** * From servers to clients and to disk (src/store.c, src/store_client.c, src/store_swapout.c)

    An object that is being fetched: the server side appends its bytes to an
    entry, store clients copy them, and pages of it are written to a swap
    file.  Memory that was written, or that no client needs any more, is
    given back.  Clients that read from memory must not lose their place to
    that, and clients that read from disk must find there what memory has no
    longer.

    The state is one entry with its memory object, its clients and its swap
    file.  The chain of pages is the list of their bytes (Stmem.v has the
    chain).  The bits of [flags] are fields.  The owner of the entry keeps it
    locked, so that [storeUnlockObject] does not release it and its
    [mem_status] is [NOT_IN_MEMORY].  What the file system and resource limits
    answer is a list of answers; a client's reaction to a callback is part of
    the client.  [None] is an assertion that fails. *)

From Stdlib Require Import ZArith Lia.
From stdpp Require Import base list numbers option.
From S2P Require Import Prelude CStr Stmem StoreEntry.
Import StoreEntry.

Module StorePump.

Abbreviation SM_PAGE_SIZE := Stmem.SM_PAGE_SIZE.

Record config := mkCfg {
  maxObjectSize : Z;
  minObjectSize : Z;
  maxInMemObjSize : Z;
  store_maxobjsize : Z;
  readAheadGap : Z;
  quickAbort_min : Z;
  quickAbort_max : Z;
  quickAbort_pct : Z
}.

(** ** Clients *)

Inductive store_client_t := STORE_MEM_CLIENT | STORE_DISK_CLIENT.

(** What a client does when it is called: nothing, ask for the bytes at
    [skip] behind its place, of which it has seen [seen] more, or leave. *)
Inductive reaction := Wait | Ask (skip seen : N) (size : positive) | Leave.

Record store_client := mkSC {
  sc_type : store_client_t;
  copy_offset : Z;
  seen_offset : Z;
  copy_size : Z;
  new_callback : bool;
  node_ref : bool;
  swapin_sio : bool;
  disk_io_pending : bool;
  store_copying : bool;
  copy_event_pending : bool;
  script : list reaction
}.

Definition set_request (off seen size : Z) (c : store_client) : store_client :=
  mkSC (sc_type c) off seen size true (node_ref c) (swapin_sio c) (disk_io_pending c) (store_copying c) (copy_event_pending c) (script c).
Definition clear_callback (c : store_client) : store_client :=
  mkSC (sc_type c) (copy_offset c) (seen_offset c) (copy_size c) false false (swapin_sio c) (disk_io_pending c) (store_copying c) (copy_event_pending c) (tail (script c)).
Definition set_swapin (c : store_client) : store_client :=
  mkSC (sc_type c) (copy_offset c) (seen_offset c) (copy_size c) (new_callback c) (node_ref c) true (disk_io_pending c) (store_copying c) (copy_event_pending c) (script c).
Definition clear_swapin (c : store_client) : store_client :=
  mkSC (sc_type c) (copy_offset c) (seen_offset c) (copy_size c) (new_callback c) (node_ref c) false (disk_io_pending c) (store_copying c) (copy_event_pending c) (script c).
Definition set_io (b : bool) (c : store_client) : store_client :=
  mkSC (sc_type c) (copy_offset c) (seen_offset c) (copy_size c) (new_callback c) (b || node_ref c) (swapin_sio c) b (store_copying c) (copy_event_pending c) (script c).
Definition set_copying (b : bool) (c : store_client) : store_client :=
  mkSC (sc_type c) (copy_offset c) (seen_offset c) (copy_size c) (new_callback c) (node_ref c) (swapin_sio c) (disk_io_pending c) b (copy_event_pending c) (script c).
Definition set_event (b : bool) (c : store_client) : store_client :=
  mkSC (sc_type c) (copy_offset c) (seen_offset c) (copy_size c) (new_callback c) (node_ref c) (swapin_sio c) (disk_io_pending c) (store_copying c) b (script c).

(** What a callback says: bytes, the end of the object, an error, or that the
    client is unregistered. *)
Inductive outcome := Data (d : bytes) | Eof | Failed | Gone.

(** [leaving]: the client is called while it is being unregistered. *)
Record delivery := mkDel { to : nat; to_type : store_client_t; at_offset : Z; leaving : bool; what : outcome }.

(** ** Entry *)

Record mem := mkMem { pages : list bytes; inmem_lo : Z; inmem_hi : Z }.

(** [given]: the bytes given to [storeWrite]; [offset]: how many of them are
    on disk; [closing]: [storeClose] was called. *)
Record swapfile := mkFile { given : bytes; offset : Z; closing : bool; closed : bool }.

(** [memnode]: the page that was written last, by the offset of its first
    byte. *)
Record swap := mkSwap { queue_offset : Z; memnode : option Z; sio : bool; swap_hdr_sz : Z; file : option swapfile; swap_file_sz : Z }.

Record entry := mkE {
  store_status : store_status_t;
  swap_status : swap_status_t;
  object_sz : Z;
  SPECIAL : bool;
  CACHABLE : bool;
  RELEASE_REQUEST : bool;
  ABORTED : bool;
  PRIVATE : bool;
  NEGCACHED : bool;
  BAD_LENGTH : bool;
  DELAY_SENDING : bool;
  FWD_HDR_WAIT : bool;
  DEFER_READ : bool;
  content_length : Z;
  hdr_sz : Z;
  body_size : Z;
  request_cachable : option bool
}.

Record pump := mkP {
  pm : mem;
  pw : swap;
  pe : entry;
  clients : list (nat * store_client);
  answers : list (option bool);
  out : list delivery
}.

Definition set_mem (m : mem) (s : pump) : pump := mkP m (pw s) (pe s) (clients s) (answers s) (out s).
Definition set_swap (w : swap) (s : pump) : pump := mkP (pm s) w (pe s) (clients s) (answers s) (out s).
Definition set_entry (e : entry) (s : pump) : pump := mkP (pm s) (pw s) e (clients s) (answers s) (out s).
Definition set_clients (l : list (nat * store_client)) (s : pump) : pump := mkP (pm s) (pw s) (pe s) l (answers s) (out s).
Definition log (d : delivery) (s : pump) : pump := mkP (pm s) (pw s) (pe s) (clients s) (answers s) (d :: out s).

(** The next answer of the environment. *)
Definition ask (s : pump) : option bool * pump :=
  match answers s with
  | [] => (None, s)
  | a :: l => (a, mkP (pm s) (pw s) (pe s) (clients s) l (out s))
  end.

Definition set_sio (b : bool) (w : swap) : swap := mkSwap (queue_offset w) (memnode w) b (swap_hdr_sz w) (file w) (swap_file_sz w).
Definition set_file (f : option swapfile) (w : swap) : swap := mkSwap (queue_offset w) (memnode w) (sio w) (swap_hdr_sz w) f (swap_file_sz w).
Definition set_status (st : store_status_t) (sw : swap_status_t) (sz : Z) (e : entry) : entry :=
  mkE st sw sz (SPECIAL e) (CACHABLE e) (RELEASE_REQUEST e) (ABORTED e) (PRIVATE e) (NEGCACHED e) (BAD_LENGTH e) (DELAY_SENDING e) (FWD_HDR_WAIT e) (DEFER_READ e)
    (content_length e) (hdr_sz e) (body_size e) (request_cachable e).
Definition set_swap_status (sw : swap_status_t) (e : entry) : entry := set_status (store_status e) sw (object_sz e) e.
Definition set_flags (rel ab bad ds hw df : bool) (e : entry) : entry :=
  mkE (store_status e) (swap_status e) (object_sz e) (SPECIAL e) (if rel then false else CACHABLE e) (rel || RELEASE_REQUEST e) ab (rel || PRIVATE e) (NEGCACHED e) bad ds hw df
    (content_length e) (hdr_sz e) (body_size e) (request_cachable e).

Definition pending (e : entry) : bool := match store_status e with STORE_PENDING => true | STORE_OK => false end.
Definition swap_is (st : swap_status_t) (e : entry) : bool :=
  match swap_status e, st with
  | SWAPOUT_NONE, SWAPOUT_NONE | SWAPOUT_WRITING, SWAPOUT_WRITING | SWAPOUT_DONE, SWAPOUT_DONE => true
  | _, _ => false
  end.

(** [storeReleaseRequest]: the key becomes private. *)
Definition storeReleaseRequest (e : entry) : entry :=
  if RELEASE_REQUEST e then e
  else set_flags true (ABORTED e) (BAD_LENGTH e) (DELAY_SENDING e) (FWD_HDR_WAIT e) (DEFER_READ e) e.

Definition clear_cachable (e : entry) : entry :=
  mkE (store_status e) (swap_status e) (object_sz e) (SPECIAL e) false (RELEASE_REQUEST e) (ABORTED e) (PRIVATE e) (NEGCACHED e) (BAD_LENGTH e) (DELAY_SENDING e) (FWD_HDR_WAIT e) (DEFER_READ e)
    (content_length e) (hdr_sz e) (body_size e) (request_cachable e).

(** The reply of the entry is known. *)
Definition set_header (len hdr body : Z) (e : entry) : entry :=
  mkE (store_status e) (swap_status e) (object_sz e) (SPECIAL e) (CACHABLE e) (RELEASE_REQUEST e) (ABORTED e) (PRIVATE e) (NEGCACHED e) (BAD_LENGTH e) (DELAY_SENDING e) (FWD_HDR_WAIT e) (DEFER_READ e)
    len hdr body (request_cachable e).

Definition storeResumeRead (e : entry) : entry := set_flags false (ABORTED e) (BAD_LENGTH e) (DELAY_SENDING e) (FWD_HDR_WAIT e) false e.

(** ** Pages *)

(** [stmemAppend] *)
Fixpoint new_pages (fuel : nat) (d : bytes) : list bytes :=
  match fuel, d with
  | O, _ | _, [] => []
  | S fuel, _ => take (Z.to_nat SM_PAGE_SIZE) d :: new_pages fuel (drop (Z.to_nat SM_PAGE_SIZE) d)
  end.

Fixpoint append_pages (ps : list bytes) (d : bytes) : list bytes :=
  match ps with
  | [] => new_pages (length d) d
  | [p] =>
      let n := (Z.to_nat SM_PAGE_SIZE - length p)%nat in
      (p ++ take n d) :: new_pages (length d) (drop n d)
  | p :: ps => p :: append_pages ps d
  end.

(** [stmemFreeDataUpto]: the pages that are left and the offset of the first *)
Fixpoint free_upto (ps : list bytes) (current target : Z) : list bytes * Z :=
  match ps with
  | [] => ([], current)
  | p :: rest =>
      if current + Z.of_nat (length p) <=? target then
        match rest with
        | [] => (ps, current)
        | _ => free_upto rest (current + Z.of_nat (length p)) target
        end
      else (ps, current)
  end.

(** [stmemRef]: the rest of the page that has the offset *)
Fixpoint page_ref (ps : list bytes) (current off : Z) : option bytes :=
  match ps with
  | [] => None
  | p :: ps =>
      if current + Z.of_nat (length p) <=? off then page_ref ps (current + Z.of_nat (length p)) off
      else Some (drop (Z.to_nat (off - current)) p)
  end.

(** The page that starts at an offset. *)
Fixpoint page_at (ps : list bytes) (current off : Z) : option bytes :=
  match ps with
  | [] => None
  | p :: ps => if current =? off then Some p else page_at ps (current + Z.of_nat (length p)) off
  end.

(** ** Writing to disk *)

Section operations.
Context (cfg : config) (meta : bytes).

Definition storeSwapOutAble (s : pump) : bool :=
  if maxObjectSize cfg <? inmem_hi (pm s) then false
  else if negb (CACHABLE (pe s)) then false
  else if sio (pw s) then true
  else if negb (queue_offset (pw s) =? 0) && (queue_offset (pw s) =? inmem_hi (pm s)) then true
  else negb (0 <? inmem_lo (pm s)).

Definition storeSwapOutObjectBytesOnDisk (w : swap) : option Z :=
  if sio w then
    let? f := file w in
    Some (if offset f <=? swap_hdr_sz w then 0 else offset f - swap_hdr_sz w)
  else Some (queue_offset w).

Definition storeLowestMemReaderOffset (s : pump) : Z :=
  let '(lowest, highest) := fold_left (fun '(lowest, highest) '(_, c) =>
    let highest := if highest <? copy_offset c then copy_offset c else highest in
    if sio (pw s) && (match sc_type c with STORE_MEM_CLIENT => false | STORE_DISK_CLIENT => true end) then (lowest, highest)
    else (if copy_offset c <? lowest then copy_offset c else lowest, highest)) (clients s) (inmem_hi (pm s) + 1, -1) in
  if (highest <? lowest) && (0 <=? highest) then highest else lowest.

(** [close]: [storeSwapOutFileClose]; the other result is whether the entry
    may be written. *)
Definition maintain_with (close : pump -> option pump) (s : pump) : option (bool * pump) :=
  if SPECIAL (pe s) then Some (true, s)
  else
    let able := storeSwapOutAble s in
    let? s := if able then Some s
              else let s := set_entry (storeReleaseRequest (pe s)) s in if sio (pw s) then close s else Some s in
    let lowest_offset := storeLowestMemReaderOffset s in
    let new_mem_lo := if negb able then lowest_offset
                      else if maxInMemObjSize cfg <? inmem_hi (pm s) then lowest_offset
                      else if maxInMemObjSize cfg <? content_length (pe s) then lowest_offset
                      else inmem_lo (pm s) in
    let? new_mem_lo := if able && negb (new_mem_lo =? 0) then
                         let? on_disk := storeSwapOutObjectBytesOnDisk (pw s) in
                         Some (if on_disk - 1 <? new_mem_lo then on_disk - 1 else new_mem_lo)
                       else Some new_mem_lo in
    let new_mem_lo := if new_mem_lo <? inmem_lo (pm s) then inmem_lo (pm s) else new_mem_lo in
    if inmem_lo (pm s) =? new_mem_lo then Some (able, s)
    else
      let '(ps, lo) := free_upto (pages (pm s)) (inmem_lo (pm s)) new_mem_lo in
      let s := set_mem (mkMem ps lo (inmem_hi (pm s))) s in
      if DEFER_READ (pe s) && (inmem_hi (pm s) - lo <=? readAheadGap cfg) then Some (able, set_entry (storeResumeRead (pe s)) s)
      else Some (able, s).

Definition storeCheckTooSmall (s : pump) : bool :=
  let e := pe s in
  if SPECIAL e then false
  else (negb (pending e) && (object_sz e <? minObjectSize cfg)) || ((-1 <? content_length e) && (content_length e <? minObjectSize cfg)).

(** Limits on open files are answers. *)
Definition storeCheckCachable (s : pump) : bool * pump :=
  let e := pe s in
  let no s := (false, set_entry (clear_cachable (storeReleaseRequest (pe s))) s) in
  if negb (pending e) && BAD_LENGTH e then no s
  else if RELEASE_REQUEST e then no s
  else if negb (CACHABLE e) then no s
  else if NEGCACHED e then (false, s)
  else if ((0 <? content_length e) && (maxObjectSize cfg <? content_length e)) || (maxObjectSize cfg <? inmem_hi (pm s)) then no s
  else if storeCheckTooSmall s then no s
  else if PRIVATE e then no s
  else if negb (swap_is SWAPOUT_NONE e) then (true, s)
  else
    let '(a, s) := ask s in
    match a with
    | Some true => no s
    | _ => (true, s)
    end.

(** The swap file is closed, by an error or because it is complete. *)
Definition storeSwapOutFileClosed (err : bool) (s : pump) : option pump :=
  assert? swap_is SWAPOUT_WRITING (pe s) in
  let? f := file (pw s) in
  let s := set_swap (set_file (Some (mkFile (given f) (offset f) (closing f) true)) (pw s)) s in
  let s := if err then set_entry (storeReleaseRequest (set_swap_status SWAPOUT_NONE (pe s))) s
           else
             let w := pw s in
             let s := set_swap (mkSwap (queue_offset w) (memnode w) (sio w) (swap_hdr_sz w) (file w) (object_sz (pe s) + swap_hdr_sz w)) s in
             let s := set_entry (set_swap_status SWAPOUT_DONE (pe s)) s in
             (storeCheckCachable s).2 in
  let s := set_swap (set_sio false (pw s)) s in
  let? (_, s) := maintain_with Some s in
  Some s.

(** [storeClose] may call back at once, or later. *)
Definition storeSwapOutFileClose (s : pump) : option pump :=
  if negb (sio (pw s)) then Some s
  else
    let? f := file (pw s) in
    let s := set_swap (set_sio false (pw s)) s in
    if closing f then Some s
    else
      let s := set_swap (set_file (Some (mkFile (given f) (offset f) true (closed f))) (pw s)) s in
      let '(a, s) := ask s in
      match a with
      | None => Some s
      | Some err => storeSwapOutFileClosed err s
      end.

Definition storeSwapOutMaintainMemObject (s : pump) : option (bool * pump) := maintain_with storeSwapOutFileClose s.

(** A write may fail at once. *)
Definition storeWrite (d : bytes) (s : pump) : option pump :=
  let? f := file (pw s) in
  let s := set_swap (set_file (Some (mkFile (given f ++ d) (offset f) (closing f) (closed f))) (pw s)) s in
  let '(a, s) := ask s in
  match a with
  | None => Some s
  | Some _ => storeSwapOutFileClosed true s
  end.

(** [storeCreate] gives a new file or none. *)
Definition storeSwapOutStart (s : pump) : option pump :=
  let s := set_entry (set_swap_status SWAPOUT_WRITING (pe s)) s in
  let w := pw s in
  let s := set_swap (mkSwap (queue_offset w) (memnode w) (sio w) (Z.of_nat (length meta)) (file w) (swap_file_sz w)) s in
  let '(a, s) := ask s in
  match a with
  | None => Some (set_entry (set_swap_status SWAPOUT_NONE (pe s)) s)
  | Some _ => storeWrite meta (set_swap (set_sio true (set_file (Some (mkFile [] 0 false false)) (pw s))) s)
  end.

(** The page after the one written last, and its offset. *)
Definition next_page (s : pump) : option (Z * bytes) :=
  let m := pm s in
  match memnode (pw s) with
  | None => let? p := head (pages m) in Some (inmem_lo m, p)
  | Some o =>
      let? q := page_at (pages m) (inmem_lo m) o in
      let o := o + Z.of_nat (length q) in
      let? p := page_at (pages m) (inmem_lo m) o in Some (o, p)
  end.

Fixpoint swapout_loop (fuel : nat) (s : pump) : option pump :=
  match fuel with
  | O => None
  | S fuel =>
      let? (o, p) := next_page s in
      assert? negb (length p =? 0)%nat in
      let w := pw s in
      let s := set_swap (mkSwap (queue_offset w + Z.of_nat (length p)) (Some o) (sio w) (swap_hdr_sz w) (file w) (swap_file_sz w)) s in
      let? s := storeWrite p s in
      if negb (swap_is SWAPOUT_WRITING (pe s)) then Some s
      else
        let swapout_size := inmem_hi (pm s) - queue_offset (pw s) in
        if pending (pe s) && (swapout_size <? SM_PAGE_SIZE) then Some s
        else if 0 <? swapout_size then swapout_loop fuel s
        else Some s
  end.

(** [storeTooManyDiskFilesOpen() && !fwdCheckDeferRead(-1, e)] is an answer. *)
Definition storeSwapOut (s : pump) : option pump :=
  let e := pe s in
  if ABORTED e then assert? RELEASE_REQUEST e in storeSwapOutFileClose s
  else if SPECIAL e then Some s
  else
    assert? queue_offset (pw s) <=? inmem_hi (pm s) in
    let swapout_size := inmem_hi (pm s) - queue_offset (pw s) in
    if pending e && (swapout_size <? store_maxobjsize cfg) then Some s
    else
      let? (able, s) := storeSwapOutMaintainMemObject s in
      if negb able then Some s
      else if swapout_size =? 0 then if negb (pending (pe s)) then storeSwapOutFileClose s else Some s
      else if pending (pe s) && (swapout_size <? SM_PAGE_SIZE) then Some s
      else
        let '(a, s) := if pending (pe s) then ask s else (None, s) in
        if match a with Some true => true | _ => false end then Some s
        else
          let? (started, s) :=
            if swap_is SWAPOUT_NONE (pe s) && negb (FWD_HDR_WAIT (pe s)) then
              assert? negb (sio (pw s)) in
              assert? inmem_lo (pm s) =? 0 in
              let '(cachable, s) := storeCheckCachable s in
              if (cachable : bool) then let? s := storeSwapOutStart s in Some (true, s)
              else let? (_, s) := storeSwapOutMaintainMemObject s in Some (false, s)
            else Some (true, s) in
          if negb started then Some s
          else if negb (sio (pw s)) then Some s
          else
            let? s := swapout_loop (S (length (pages (pm s)))) s in
            if negb (sio (pw s)) then Some s
            else if negb (pending (pe s)) then
              assert? inmem_hi (pm s) =? queue_offset (pw s) in
              storeSwapOutFileClose s
            else Some s.

(** ** Copying to clients *)

Definition get (id : nat) (s : pump) : option store_client :=
  snd <$> find (fun p => (p.1 =? id)%nat) (clients s).

Definition put (id : nat) (f : store_client -> store_client) (s : pump) : pump :=
  set_clients (map (fun p => if (p.1 =? id)%nat then (p.1, f p.2) else p) (clients s)) s.

Definition storeClientType (s : pump) : store_client_t :=
  if negb (inmem_lo (pm s) =? 0) then STORE_DISK_CLIENT
  else if ABORTED (pe s) then STORE_MEM_CLIENT
  else if negb (pending (pe s)) then if 0 <? inmem_hi (pm s) then STORE_MEM_CLIENT else STORE_DISK_CLIENT
  else if (length (clients s) + 1 =? 1)%nat then STORE_MEM_CLIENT
  else if swap_is SWAPOUT_NONE (pe s) then STORE_MEM_CLIENT
  else STORE_DISK_CLIENT.

(** [dlinkAdd] puts the new client first. *)
Definition storeClientRegister (id : nat) (scr : list reaction) (s : pump) : pump :=
  set_clients ((id, mkSC (storeClientType s) 0 0 0 false false false false false false scr) :: clients s) s.

Definition CheckQuickAbort2 (s : pump) : bool :=
  let e := pe s in
  if match request_cachable e with Some false => true | _ => false end then true
  else if PRIVATE e then true
  else
    let expectlen := content_length e + hdr_sz e in
    let curlen := inmem_hi (pm s) in
    let minlen := Z.shiftl (quickAbort_min cfg) 10 in
    if minlen <? 0 then false
    else if expectlen <? curlen then true
    else if expectlen - curlen <? minlen then false
    else if Z.shiftl (quickAbort_max cfg) 10 <? expectlen - curlen then true
    else if expectlen <? 100 then false
    else negb (quickAbort_pct cfg <? Z.quot curlen (Z.quot expectlen 100)).

(** [storeAbort] up to the walk over the clients *)
Definition abort_mark (s : pump) : option pump :=
  assert? pending (pe s) in
  let e := storeReleaseRequest (pe s) in
  let e := set_flags false true (BAD_LENGTH e) (DELAY_SENDING e) (FWD_HDR_WAIT e) (DEFER_READ e) e in
  Some (set_entry (set_status STORE_OK (swap_status e) (inmem_hi (pm s)) e) s).

(** When the last client leaves, there are none to walk over. *)
Definition CheckQuickAbort (s : pump) : option pump :=
  if (0 <? length (clients s))%nat then Some s
  else if negb (pending (pe s)) then Some s
  else if SPECIAL (pe s) then Some s
  else if CheckQuickAbort2 s then let? s := abort_mark s in storeSwapOutFileClose s
  else Some s.

(** [storeClose] of the file that a client that leaves reads from.  The file
    system may call [storeSwapInFileClosed] at once, which answers the request
    of the client (0, the value for the end of the object, when there is no
    error), or later, when the client is freed and is not called.  The result
    is whether the client still has a request.  A client that is leaving does
    not react. *)
Definition close_swapin (id : nat) (c : store_client) (s : pump) : bool * pump :=
  if swapin_sio c then
    let '(a, s) := ask s in
    match a with
    | None => (new_callback c, s)
    | Some err =>
        let s := if err then set_entry (storeReleaseRequest (pe s)) s else s in
        (false, if new_callback c then log (mkDel id (sc_type c) (copy_offset c) true (if err then Failed else Eof)) s else s)
    end
  else (new_callback c, s).

Definition storeClientUnregister (id : nat) (s : pump) : option pump :=
  match clients s with
  | [] => Some s
  | _ =>
      let? c := get id s in
      let s := set_clients (filter (fun p => p.1 <> id) (clients s)) s in
      let? s := if negb (pending (pe s)) && negb (swap_is SWAPOUT_DONE (pe s)) then storeSwapOut s else Some s in
      let '(waiting, s) := close_swapin id c s in
      let s := if (waiting : bool) then log (mkDel id (sc_type c) (copy_offset c) true Gone) s else s in
      let? (_, s) := storeSwapOutMaintainMemObject s in
      CheckQuickAbort s
  end.

(** [storeClientRef] up to [storeClientCopy2] *)
Definition ref_fields (id : nat) (off seen size : Z) (s : pump) : option pump :=
  let? c := get id s in
  assert? negb (new_callback c) in
  let s := put id (set_request off seen size) s in
  if DEFER_READ (pe s) then storeSwapOut s else Some s.

(** [storeClientCopy2] for a client that is being served *)
Definition copy_later (id : nat) (s : pump) : option pump :=
  let? c := get id s in
  if copy_event_pending c then Some s
  else if FWD_HDR_WAIT (pe s) then Some s
  else assert? store_copying c in Some (put id (set_event true) s).

(** The client's reaction; [copy2] is [storeClientCopy2]. *)
Definition react (copy2 : nat -> pump -> option pump) (id : nat) (r : reaction) (s : pump) : option pump :=
  match r with
  | Wait => Some s
  | Leave => storeClientUnregister id s
  | Ask skip seen size =>
      let? c := get id s in
      let off := copy_offset c + Z.of_N skip in
      let? s := ref_fields id off (off + Z.of_N seen) (Z.pos size) s in
      copy2 id s
  end.

(** [storeClientCallback] *)
Definition callback (copy2 : nat -> pump -> option pump) (id : nat) (o : outcome) (s : pump) : option pump :=
  let? c := get id s in
  assert? new_callback c in
  let o := match o with Data d => Data (take (Z.to_nat (copy_size c)) d) | o => o end in
  let s := log (mkDel id (sc_type c) (copy_offset c) false o) (put id clear_callback s) in
  react copy2 id (default Wait (head (script c))) s.

Definition storeClientNoMoreToSend (c : store_client) (s : pump) : bool :=
  negb (pending (pe s)) && (0 <=? object_sz (pe s)) && (object_sz (pe s) <=? copy_offset c).

(** The page for the data; its contents arrive with [storeClientReadBody].
    The header of the file is read only by clients of other processes' files:
    here the size of the header is known. *)
Definition storeClientFileRead (id : nat) (s : pump) : option pump :=
  let? c := get id s in
  assert? new_callback c && negb (disk_io_pending c) && negb (node_ref c) in
  assert? negb (swap_hdr_sz (pw s) =? 0) in
  let? _ := if swap_is SWAPOUT_WRITING (pe s) then
              let? n := storeSwapOutObjectBytesOnDisk (pw s) in assert? copy_offset c <? n in Some tt
            else Some tt in
  Some (put id (set_io true) s).

(** [storeSwapInStart]: whether the file is open; the swap file can be opened
    while it is written or when it is complete. *)
Definition storeSwapInStart (s : pump) : bool * pump :=
  if swap_is SWAPOUT_NONE (pe s) then (false, s)
  else let '(a, s) := ask s in (match a with Some _ => true | None => false end, s).

Definition is_disk (c : store_client) : bool := match sc_type c with STORE_MEM_CLIENT => false | STORE_DISK_CLIENT => true end.

Definition storeClientCopy3 (id : nat) (s : pump) : option pump :=
  let? c := get id s in
  if storeClientNoMoreToSend c s then callback copy_later id Eof s
  else if pending (pe s) && (inmem_hi (pm s) <=? seen_offset c) then
    if DEFER_READ (pe s) && (storeLowestMemReaderOffset s =? inmem_hi (pm s)) then Some (set_entry (storeResumeRead (pe s)) s) else Some s
  else
    let '(go, s) :=
      if is_disk c && negb (swapin_sio c) then
        let '(too_many, s) := ask s in
        if match too_many with Some true => true | _ => false end then (Some false, s)
        else if negb (disk_io_pending c) then
          let '(opened, s) := storeSwapInStart s in
          if (opened : bool) then (Some true, put id set_swapin s) else (Some false, s)
        else (None, s)
      else (Some true, s) in
    match go with
    | None => Some s
    | Some false => callback copy_later id Failed s
    | Some true =>
        if (inmem_lo (pm s) <=? copy_offset c) && (copy_offset c <? inmem_hi (pm s)) then
          assert? new_callback c && negb (node_ref c) in
          let? d := page_ref (pages (pm s)) (inmem_lo (pm s)) (copy_offset c) in
          let? s := if RELEASE_REQUEST (pe s) then let? (_, s) := storeSwapOutMaintainMemObject s in Some s else Some s in
          callback copy_later id (Data d) s
        else
          assert? is_disk c && negb (disk_io_pending c) in
          storeClientFileRead id s
    end.

Definition storeClientCopy2 (id : nat) (s : pump) : option pump :=
  let? c := get id s in
  if copy_event_pending c then Some s
  else if FWD_HDR_WAIT (pe s) then Some s
  else if store_copying c then Some (put id (set_event true) s)
  else
    let s := put id (set_copying true) s in
    assert? new_callback c in
    let? s := storeClientCopy3 id s in
    Some (put id (set_copying false) s).

(** The walk goes on with the client that was next when the one before was
    visited. *)
Fixpoint invoke (ids : list nat) (s : pump) : option pump :=
  match ids with
  | [] => Some s
  | id :: ids =>
      match get id s with
      | None => None
      | Some c =>
          if negb (new_callback c) || disk_io_pending c then invoke ids s
          else let? s := storeClientCopy2 id s in invoke ids s
      end
  end.

Definition InvokeHandlers (s : pump) : option pump := invoke (clients s).*1 s.

(** ** Events *)

Definition storeAppend (d : bytes) (s : pump) : option pump :=
  assert? pending (pe s) in
  let m := pm s in
  let s := set_mem (mkMem (append_pages (pages m) d) (inmem_lo m) (inmem_hi m + Z.of_nat (length d))) s in
  if DELAY_SENDING (pe s) then Some s
  else let? s := InvokeHandlers s in storeSwapOut s.

Definition storeEntryValidLength (s : pump) : bool :=
  if body_size (pe s) <? 0 then true else hdr_sz (pe s) + body_size (pe s) =? object_sz (pe s).

Definition storeComplete (s : pump) : option pump :=
  if negb (pending (pe s)) then
    assert? ABORTED (pe s) in
    assert? (length (clients s) =? 0)%nat in
    Some s
  else
    let e := set_status STORE_OK (swap_status (pe s)) (inmem_hi (pm s)) (pe s) in
    let s := set_entry e s in
    let s := if storeEntryValidLength s then s
             else set_entry (storeReleaseRequest (set_flags false (ABORTED e) true (DELAY_SENDING e) (FWD_HDR_WAIT e) (DEFER_READ e) e)) s in
    let? s := storeSwapOut s in
    InvokeHandlers s.

Definition storeAbort (s : pump) : option pump :=
  let? s := abort_mark s in
  let? s := InvokeHandlers s in
  storeSwapOutFileClose s.

Definition storeBuffer (s : pump) : pump :=
  let e := pe s in set_entry (set_flags false (ABORTED e) (BAD_LENGTH e) true (FWD_HDR_WAIT e) (DEFER_READ e) e) s.

Definition storeBufferFlush (s : pump) : option pump :=
  let e := pe s in
  if DELAY_SENDING e then
    let s := set_entry (set_flags false (ABORTED e) (BAD_LENGTH e) false (FWD_HDR_WAIT e) (DEFER_READ e) e) s in
    let? s := InvokeHandlers s in
    storeSwapOut s
  else Some s.

(** The page for an error, [page], with the lengths of its reply. *)
Definition errorAppendEntry (page : bytes) (len hdr body : Z) (s : pump) : option pump :=
  assert? inmem_hi (pm s) =? 0 in
  if negb (pending (pe s)) then
    assert? ABORTED (pe s) in
    assert? (length (clients s) =? 0)%nat in
    Some s
  else
    let s := storeBuffer s in
    let s := set_entry (set_header len hdr body (pe s)) s in
    let? s := storeAppend page s in
    let e := pe s in
    let s := set_entry (set_flags false (ABORTED e) (BAD_LENGTH e) (DELAY_SENDING e) false (DEFER_READ e) e) s in
    let s := set_entry (storeReleaseRequest (pe s)) s in
    let? s := storeBufferFlush s in
    storeComplete s.

(** The server failed: clients that have nothing yet get an error page. *)
Definition storeRequestFailed (page : bytes) (len hdr body : Z) (s : pump) : option pump :=
  assert? pending (pe s) in
  let s := set_entry (storeReleaseRequest (pe s)) s in
  let? s := if inmem_hi (pm s) =? 0 then errorAppendEntry page len hdr body s
            else let e := pe s in Some (set_entry (set_flags false true (BAD_LENGTH e) (DELAY_SENDING e) false (DEFER_READ e) e) s) in
  let s := set_entry (set_status STORE_OK (swap_status (pe s)) (inmem_hi (pm s)) (pe s)) s in
  let? s := InvokeHandlers s in
  storeSwapOutFileClose s.

Definition storeDeferRead (s : pump) : pump :=
  let e := pe s in set_entry (set_flags false (ABORTED e) (BAD_LENGTH e) (DELAY_SENDING e) (FWD_HDR_WAIT e) true e) s.

Definition storeClientRef (id : nat) (off seen size : Z) (s : pump) : option pump :=
  let? s := ref_fields id off seen size s in
  storeClientCopy2 id s.

Definition storeClientCopyEvent (id : nat) (s : pump) : option pump :=
  let? c := get id s in
  let s := put id (set_event false) s in
  if new_callback c then storeClientCopy2 id s else Some s.

(** [len] bytes were read, or the read failed. *)
Definition storeClientReadBody (id : nat) (len : option nat) (s : pump) : option pump :=
  let? c := get id s in
  assert? disk_io_pending c && new_callback c && node_ref c in
  let s := put id (set_io false) s in
  match len with
  | None => callback storeClientCopy2 id Failed s
  | Some n =>
      let? f := file (pw s) in
      callback storeClientCopy2 id (Data (take n (drop (Z.to_nat (copy_offset c + swap_hdr_sz (pw s))) (given f)))) s
  end.

(** The file system closes a file that is read; the entry is locked, so that
    [storeRelease] asks for its release. *)
Definition storeSwapInFileClosed (id : nat) (err : bool) (s : pump) : option pump :=
  let? c := get id s in
  let s := put id clear_swapin s in
  let s := if err then set_entry (storeReleaseRequest (pe s)) s else s in
  if new_callback c then callback storeClientCopy2 id (if err then Failed else Eof) s else Some s.

End operations.

End StorePump.
