(* ===== verification/StorePumpInv.v ===== *)
(** * The invariant of objects that are being fetched

    Whatever the server, the clients and the file system do, the state of
    StorePump.v satisfies [inv]: memory and the swap file hold what they say
    of the object, and every client can go on from its place. *)

From Stdlib Require Import ZArith Lia.
From stdpp Require Import base list numbers option.
From S2P Require Import Prelude CStr Stmem StoreEntry StorePump.
Import StoreEntry StorePump.

Module StorePumpInv.

Definition PAGE : nat := Z.to_nat Stmem.SM_PAGE_SIZE.

Lemma PAGE_Z : Z.of_nat PAGE = 4096.
Proof. reflexivity. Qed.

Lemma PAGE_pos : (0 < PAGE)%nat.
Proof. unfold PAGE, Stmem.SM_PAGE_SIZE. lia. Qed.

#[local] Opaque PAGE.

(** ** Pages *)

(** All pages but the last are full. *)
Fixpoint paged (ps : list bytes) : Prop :=
  match ps with
  | [] => True
  | p :: rest => (0 < length p <= PAGE)%nat /\ (rest <> [] -> length p = PAGE) /\ paged rest
  end.

Lemma new_pages_ok fuel : forall d, (length d <= fuel)%nat -> paged (new_pages fuel d) /\ concat (new_pages fuel d) = d /\ (d <> [] -> new_pages fuel d <> []).
Proof.
  change (Z.to_nat Stmem.SM_PAGE_SIZE) with PAGE in *. induction fuel as [|fuel IH]; intros d Hd; [by destruct d; [|cbn in Hd; lia]|].
  destruct d as [|x d]; [done|]. pose proof PAGE_pos. cbn [new_pages]. change (Z.to_nat Stmem.SM_PAGE_SIZE) with PAGE. destruct (IH (drop PAGE (x :: d))) as (H1 & H2 & H3).
  { rewrite length_drop. cbn [length] in *. lia. }
  split; [|split; [|done]]; cbn [paged concat].
  - rewrite length_take. cbn [length]. split; [lia|]. split; [|done]. intros Hn. destruct (decide (drop PAGE (x :: d) = [])) as [E|E]; [by rewrite E in Hn; destruct fuel|].
    assert (length (drop PAGE (x :: d)) <> 0%nat) as Hl by (intros E'; by apply nil_length_inv in E'). rewrite length_drop in Hl. cbn [length] in Hl. lia.
  - rewrite H2. apply take_drop.
Qed.

Lemma append_pages_ok ps d : paged ps -> paged (append_pages ps d) /\ concat (append_pages ps d) = concat ps ++ d.
Proof.
  induction ps as [|p ps IH]; intros Hp; cbn [append_pages].
  - destruct (new_pages_ok (length d) d) as (H1 & H2 & _); [done|]. by rewrite H2.
  - destruct Hp as (Hl & Hf & Hp). change (Z.to_nat Stmem.SM_PAGE_SIZE) with PAGE. destruct ps as [|q ps].
    + destruct (new_pages_ok (length d) (drop (PAGE - length p) d)) as (H1 & H2 & _); [rewrite length_drop; lia|]. split.
      * cbn [paged]. rewrite length_app, length_take. split; [lia|]. split; [|done]. intros Hn.
        destruct (decide (length d <= PAGE - length p)%nat); [rewrite drop_ge in Hn by lia; by destruct (length d)|]. lia.
      * cbn [concat]. rewrite H2, app_nil_r, <- app_assoc. f_equal. apply take_drop.
    + destruct (IH Hp) as [H1 H2]. split.
      * cbn [paged]. split; [done|]. split; [intros _; by apply Hf|done].
      * change (p ++ concat (append_pages (q :: ps) d) = (p ++ concat (q :: ps)) ++ d). by rewrite H2, app_assoc.
Qed.

Definition aligned (z : Z) : Prop := z mod 4096 = 0.

Lemma aligned_add z : aligned z -> aligned (z + 4096).
Proof. unfold aligned. intros H. rewrite <- Z.add_mod_idemp_l, H by lia. done. Qed.

Lemma free_upto_ok ps : forall cur target ps' lo, paged ps -> aligned cur -> cur <= target -> free_upto ps cur target = (ps', lo) ->
  paged ps' /\ aligned lo /\ cur <= lo <= target /\ exists x, concat ps = x ++ concat ps' /\ Z.of_nat (length x) = lo - cur.
Proof.
  induction ps as [|p ps IH]; intros cur target ps' lo Hp Ha Hc; cbn [free_upto].
  { intros [= <- <-]. split; [done|]. split; [done|]. split; [lia|]. exists []. split; [done|]. cbn. lia. }
  assert (paged (p :: ps) /\ aligned cur /\ cur <= cur <= target /\ exists x, concat (p :: ps) = x ++ concat (p :: ps) /\ Z.of_nat (length x) = cur - cur) as Hsame.
  { split; [done|]. split; [done|]. split; [lia|]. exists []. split; [done|]. cbn. lia. }
  destruct (Z.leb_spec (cur + Z.of_nat (length p)) target) as [Hle|]; [|by intros [= <- <-]]. destruct ps as [|q ps]; [by intros [= <- <-]|]. intros Hf.
  destruct Hp as (Hl & Hfull & Hp). assert (Z.of_nat (length p) = 4096) as Hlen by (rewrite <- PAGE_Z; f_equal; by apply Hfull). rewrite Hlen in *.
  destruct (IH _ _ _ _ Hp (aligned_add _ Ha) Hle Hf) as (H1 & H2 & H3 & x & H4 & H5). split; [done|]. split; [done|]. split; [lia|]. exists (p ++ x).
  cbn [concat] in *. rewrite H4, app_assoc. split; [done|]. rewrite length_app. lia.
Qed.

Lemma page_ref_ok ps : forall cur off, cur <= off < cur + Z.of_nat (length (concat ps)) ->
  exists d, page_ref ps cur off = Some d /\ d <> [] /\ d = take (length d) (drop (Z.to_nat (off - cur)) (concat ps)).
Proof.
  induction ps as [|p ps IH]; intros cur off Ho; [cbn in Ho; lia|]. cbn [page_ref concat] in *. rewrite length_app in Ho.
  destruct (Z.leb_spec (cur + Z.of_nat (length p)) off) as [Hle|Hlt].
  - destruct (IH (cur + Z.of_nat (length p)) off) as (d & E & Hd & Hdd); [lia|]. exists d. split; [done|]. split; [done|]. rewrite Hdd at 1. f_equal.
    rewrite drop_app_ge by lia. f_equal. lia.
  - eexists. split; [done|]. assert (length (drop (Z.to_nat (off - cur)) p) <> 0)%nat as Hl by (rewrite length_drop; lia). split; [by intros E; rewrite E in Hl|].
    rewrite drop_app_le by lia. by rewrite take_app_length.
Qed.

Lemma page_at_ok ps : forall cur off, paged ps -> aligned cur -> aligned off -> cur <= off < cur + Z.of_nat (length (concat ps)) ->
  exists p, page_at ps cur off = Some p /\ p = take PAGE (drop (Z.to_nat (off - cur)) (concat ps)).
Proof.
  induction ps as [|p ps IH]; intros cur off Hp Ha Hb Ho; [cbn in Ho; lia|]. cbn [page_at concat] in *. rewrite length_app in Ho. destruct Hp as (Hl & Hf & Hp).
  destruct (Z.eqb_spec cur off) as [<-|Hne].
  - exists p. split; [done|]. rewrite Z.sub_diag. change (Z.to_nat 0) with 0%nat. rewrite drop_0. destruct ps as [|q ps]; [cbn [concat]; rewrite app_nil_r, take_ge; [done|lia]|]. rewrite <- (Hf ltac:(done)). by rewrite take_app_length.
  - destruct ps as [|q ps].
    { exfalso. cbn [concat length] in Ho. pose proof PAGE_Z. unfold aligned in *. assert ((off - cur) mod 4096 = 0) by (rewrite Zminus_mod, Ha, Hb; done).
      rewrite Z.mod_small in H0 by lia. lia. }
    assert (Z.of_nat (length p) = 4096) as Hlen by (rewrite <- PAGE_Z; f_equal; by apply Hf). rewrite Hlen in *.
    assert (cur + 4096 <= off) as Hge.
    { destruct (Z.le_gt_cases (cur + 4096) off); [done|]. exfalso. unfold aligned in *. assert ((off - cur) mod 4096 = 0) as Hm by (rewrite Zminus_mod, Ha, Hb; done).
      rewrite Z.mod_small in Hm by lia. lia. }
    destruct (IH (cur + 4096) off Hp (aligned_add _ Ha) Hb) as (r & E & Hr); [lia|]. exists r. split; [done|]. rewrite Hr. f_equal. rewrite drop_app_ge by lia. f_equal. lia.
Qed.

(** ** The invariant *)

Section invariant.
Context (cfg : config) (meta : bytes).

(** What a client was told is true of the object; but the end may be reported
    of any object to a client that reads from disk and is leaving. *)
Definition delivered (obj : bytes) (e : entry) (d : delivery) : Prop :=
  match what d with
  | Data x => x <> [] /\ 0 <= at_offset d /\ x = take (length x) (drop (Z.to_nat (at_offset d)) obj)
  | Eof => pending e = false /\ Z.of_nat (length obj) <= at_offset d \/ leaving d = true /\ to_type d = STORE_DISK_CLIENT
  | Failed => to_type d = STORE_DISK_CLIENT
  | Gone => True
  end.

Record client_ok (m : mem) (w : swap) (busy : bool) (c : store_client) : Prop := {
  co_off : 0 <= copy_offset c <= seen_offset c;
  co_size : new_callback c = true -> 0 < copy_size c;
  co_mem : sc_type c = STORE_MEM_CLIENT -> inmem_lo m <= copy_offset c;
  co_swapin : swapin_sio c = true -> sc_type c = STORE_DISK_CLIENT /\ file w <> None;
  co_io : disk_io_pending c = true -> new_callback c = true /\ node_ref c = true /\ sc_type c = STORE_DISK_CLIENT /\ file w <> None /\
    copy_offset c < queue_offset w /\ copy_event_pending c = false;
  co_node : disk_io_pending c = false -> node_ref c = false;
  co_copying : store_copying c = busy
}.

Definition on_disk (w : swap) : Z := default 0 (storeSwapOutObjectBytesOnDisk w).

(** [busy]: the client that is being served. *)
Record core (busy : option nat) (obj : bytes) (m : mem) (w : swap) (e : entry) (cl : list (nat * store_client)) (o : list delivery) : Prop := {
  i_hi : inmem_hi m = Z.of_nat (length obj);
  i_lo : 0 <= inmem_lo m <= inmem_hi m /\ aligned (inmem_lo m);
  i_pages : paged (pages m) /\ concat (pages m) = drop (Z.to_nat (inmem_lo m)) obj;
  i_queue : 0 <= queue_offset w <= inmem_hi m /\ (aligned (queue_offset w) \/ pending e = false /\ queue_offset w = inmem_hi m);
  i_node : match memnode w with None => queue_offset w = 0 | Some n => aligned n /\ 0 <= n < queue_offset w /\ queue_offset w <= n + 4096 end;
  i_file : match file w with
           | None => queue_offset w = 0 /\ sio w = false /\ swap_status e = SWAPOUT_NONE
           | Some f => given f = meta ++ take (Z.to_nat (queue_offset w)) obj /\ 0 <= offset f <= Z.of_nat (length (given f)) /\ swap_hdr_sz w = Z.of_nat (length meta)
           end;
  i_sio : sio w = true -> swap_status e = SWAPOUT_WRITING /\ exists f, file w = Some f /\ closing f = false;
  i_nosio : sio w = false -> file w <> None -> RELEASE_REQUEST e = true \/ pending e = false /\ queue_offset w = inmem_hi m;
  i_none : swap_status e = SWAPOUT_NONE -> file w <> None -> RELEASE_REQUEST e = true;
  i_writing : swap_status e = SWAPOUT_WRITING -> exists f, file w = Some f /\ closed f = false;
  i_open : forall f, file w = Some f -> closed f = false -> swap_status e = SWAPOUT_WRITING;
  i_done : swap_status e = SWAPOUT_DONE -> RELEASE_REQUEST e = false ->
    pending e = false /\ queue_offset w = inmem_hi m /\ swap_file_sz w = Z.of_nat (length meta) + Z.of_nat (length obj);
  i_release : RELEASE_REQUEST e = true -> CACHABLE e = false;
  i_aborted : ABORTED e = true -> RELEASE_REQUEST e = true;
  i_special : SPECIAL e = true -> file w = None /\ inmem_lo m = 0;
  i_size : pending e = false -> object_sz e = inmem_hi m;
  i_low : inmem_lo m = 0 \/ inmem_lo m < on_disk w \/ sio w = false /\ RELEASE_REQUEST e = true /\ Forall (fun p => inmem_lo m <= copy_offset p.2) cl;
  i_ids : NoDup cl.*1;
  i_clients : Forall (fun p => client_ok m w (bool_decide (busy = Some p.1)) p.2) cl;
  i_out : Forall (delivered obj e) o
}.

Definition inv (busy : option nat) (obj : bytes) (s : pump) : Prop := core busy obj (pm s) (pw s) (pe s) (clients s) (out s).

Lemma inv_ask busy obj s a s' : ask s = (a, s') -> inv busy obj s -> inv busy obj s' /\ pm s' = pm s /\ pw s' = pw s /\ pe s' = pe s /\ clients s' = clients s /\ out s' = out s.
Proof. unfold ask. destruct (answers s); intros [= <- <-]; done. Qed.

(** Changes of flags. *)
Lemma inv_entry busy obj s e : inv busy obj s -> store_status e = store_status (pe s) -> swap_status e = swap_status (pe s) -> object_sz e = object_sz (pe s) -> SPECIAL e = SPECIAL (pe s) ->
  (RELEASE_REQUEST (pe s) = true -> RELEASE_REQUEST e = true) -> (RELEASE_REQUEST e = true -> CACHABLE e = false) -> (ABORTED e = true -> RELEASE_REQUEST e = true) ->
  inv busy obj (set_entry e s).
Proof.
  intros H E1 E2 E3 E4 E5 E6 E7. assert (pending e = pending (pe s)) as Ep by (unfold pending; by rewrite E1).
  assert (RELEASE_REQUEST e = false -> RELEASE_REQUEST (pe s) = false) as E5' by (destruct (RELEASE_REQUEST (pe s)); [by intros E; rewrite E5 in E|done]).
  destruct H. constructor; cbn [pm pw pe clients out set_entry]; try done; rewrite ?Ep, ?E2, ?E3, ?E4; try done.
  - intros H1 H2. destruct (i_nosio0 H1 H2); auto.
  - intros H1 H2. auto.
  - intros H1 H2. auto.
  - destruct i_low0 as [?|[?|(?&?&?)]]; auto 6.
  - eapply List.Forall_impl; [|exact i_out0]. intros d. unfold delivered. by rewrite Ep.
Qed.

Lemma release_request_entry e : (RELEASE_REQUEST e = true -> CACHABLE e = false) -> RELEASE_REQUEST (storeReleaseRequest e) = true /\ CACHABLE (storeReleaseRequest e) = false /\
  store_status (storeReleaseRequest e) = store_status e /\ swap_status (storeReleaseRequest e) = swap_status e /\ object_sz (storeReleaseRequest e) = object_sz e /\
  SPECIAL (storeReleaseRequest e) = SPECIAL e /\ ABORTED (storeReleaseRequest e) = ABORTED e.
Proof. unfold storeReleaseRequest. destruct (RELEASE_REQUEST e) eqn:E; [intros H; by rewrite E, H|done]. Qed.

Lemma inv_release busy obj s : inv busy obj s -> inv busy obj (set_entry (storeReleaseRequest (pe s)) s).
Proof.
  intros H. destruct (release_request_entry (pe s) (i_release _ _ _ _ _ _ _ H)) as (H1 & H2 & H3 & H4 & H5 & H6 & H7). apply inv_entry; try done.
Qed.

(** What the operations on the swap file leave alone. *)
Record frame (s s' : pump) : Prop := {
  fr_clients : clients s' = clients s;
  fr_out : out s' = out s;
  fr_hi : inmem_hi (pm s') = inmem_hi (pm s);
  fr_status : store_status (pe s') = store_status (pe s);
  fr_special : SPECIAL (pe s') = SPECIAL (pe s);
  fr_wait : FWD_HDR_WAIT (pe s') = FWD_HDR_WAIT (pe s);
  fr_release : RELEASE_REQUEST (pe s) = true -> RELEASE_REQUEST (pe s') = true;
  fr_aborted : ABORTED (pe s') = ABORTED (pe s)
}.

#[local] Instance frame_preorder : PreOrder frame.
Proof. split; [by constructor|]. intros s1 s2 s3 [] []. constructor; try congruence. auto. Qed.

Lemma frame_ask s a s' : ask s = (a, s') -> frame s s'.
Proof. unfold ask. destruct (answers s); intros [= <- <-]; by constructor. Qed.

Lemma frame_pending s s' : frame s s' -> pending (pe s') = pending (pe s).
Proof. intros []. unfold pending. by rewrite fr_status0. Qed.

(** ** The lowest reader *)

Lemma lowest_fold sw cl lw hg :
  let '(l, h) := fold_left (fun '(lowest, highest) '(_, c) =>
    let highest := if highest <? copy_offset c then copy_offset c else highest in
    if sw && is_disk c then (lowest, highest) else (if copy_offset c <? lowest then copy_offset c else lowest, highest)) (cl : list (nat * store_client)) (lw, hg) in
  l <= lw /\ hg <= h /\ (forall p, p ∈ cl -> copy_offset p.2 <= h /\ (sw = false \/ sc_type p.2 = STORE_MEM_CLIENT -> l <= copy_offset p.2)) /\
  (Forall (fun p => 0 <= copy_offset p.2) cl -> 0 <= lw -> 0 <= l).
Proof.
  revert lw hg. induction cl as [|[id c] cl IH]; intros lw hg; cbn [fold_left].
  { split; [lia|]. split; [lia|]. split; [|done]. intros p Hp. by apply not_elem_of_nil in Hp. }
  set (h1 := if hg <? copy_offset c then copy_offset c else hg). set (l1 := if sw && is_disk c then lw else if copy_offset c <? lw then copy_offset c else lw).
  specialize (IH l1 h1). assert ((if sw && is_disk c then (lw, h1) else (if copy_offset c <? lw then copy_offset c else lw, h1)) = (l1, h1)) as -> by (unfold l1; by destruct (sw && is_disk c)).
  destruct (fold_left _ cl (l1, h1)) as [l h]. destruct IH as (I1 & I2 & I3 & I4).
  assert (hg <= h1 /\ copy_offset c <= h1) as [Hh1 Hh2] by (unfold h1; destruct (Z.ltb_spec hg (copy_offset c)); lia).
  assert (l1 <= lw /\ (sw = false \/ sc_type c = STORE_MEM_CLIENT -> l1 <= copy_offset c)) as [Hl1 Hl2].
  { unfold l1, is_disk. split; [destruct (sw && _); [lia|]; destruct (Z.ltb_spec (copy_offset c) lw); lia|].
    intros [-> | ->]; [|rewrite andb_false_r]; cbn [andb]; destruct (Z.ltb_spec (copy_offset c) lw); lia. }
  split; [lia|]. split; [lia|]. split.
  - intros p [->|Hp]%elem_of_cons; [cbn; split; [lia|]; intros H; specialize (Hl2 H); lia|by apply I3].
  - intros Hf Hw. rewrite List.Forall_cons_iff in Hf. destruct Hf as [Hc Hf]. apply I4; [done|]. unfold l1. destruct (sw && _); [done|]. destruct (copy_offset c <? lw); [exact Hc|done].
Qed.

Lemma lowest_ok s : 0 <= inmem_hi (pm s) -> Forall (fun p => 0 <= copy_offset p.2) (clients s) ->
  0 <= storeLowestMemReaderOffset s /\ forall p, p ∈ clients s -> sio (pw s) = false \/ sc_type p.2 = STORE_MEM_CLIENT -> storeLowestMemReaderOffset s <= copy_offset p.2.
Proof.
  intros Hh Hc. unfold storeLowestMemReaderOffset. pose proof (lowest_fold (sio (pw s)) (clients s) (inmem_hi (pm s) + 1) (-1)) as H. unfold is_disk in H.
  destruct (fold_left _ _ _) as [l h]. destruct H as (H1 & H2 & H3 & H4). specialize (H4 Hc ltac:(lia)).
  split; [destruct (Z.ltb_spec h l), (Z.leb_spec 0 h); cbn; lia|]. intros p Hp Ht. destruct (H3 p Hp) as [_ H5]. specialize (H5 Ht). destruct (Z.ltb_spec h l), (Z.leb_spec 0 h); cbn; lia.
Qed.

(** ** Giving memory back *)

Lemma inv_free busy obj s new ps lo : inv busy obj s -> SPECIAL (pe s) = false -> inmem_lo (pm s) <= new -> free_upto (pages (pm s)) (inmem_lo (pm s)) new = (ps, lo) ->
  (forall p, p ∈ clients s -> sc_type p.2 = STORE_MEM_CLIENT -> new <= copy_offset p.2) ->
  (new < on_disk (pw s) \/ sio (pw s) = false /\ RELEASE_REQUEST (pe s) = true /\ forall p, p ∈ clients s -> new <= copy_offset p.2) ->
  inv busy obj (set_mem (mkMem ps lo (inmem_hi (pm s))) s).
Proof.
  intros H Hs Hn Hf Hm Hd. destruct H. destruct i_pages0 as [P1 P2], i_lo0 as [L1 L2]. destruct (free_upto_ok _ _ _ _ _ P1 L2 Hn Hf) as (F1 & F2 & F3 & x & F4 & F5).
  assert (length x <= length (drop (Z.to_nat (inmem_lo (pm s))) obj))%nat as Hx by (rewrite <- P2, F4, length_app; lia). rewrite length_drop in Hx.
  constructor; cbn [pm pw pe clients out set_mem inmem_hi inmem_lo pages]; try done.
  - split; [lia|done].
  - split; [done|]. rewrite F4 in P2. replace (Z.to_nat lo) with (Z.to_nat (inmem_lo (pm s)) + length x)%nat by lia. rewrite <- drop_drop, <- P2. by rewrite drop_app_length.
  - by rewrite Hs.
  - destruct Hd as [Hd|(D1 & D2 & D3)]; [right; left; lia|]. right. right. split; [done|]. split; [done|]. apply List.Forall_forall. intros p Hp. apply list_elem_of_In in Hp. specialize (D3 p Hp). lia.
  - rewrite List.Forall_forall in *. intros p Hp. destruct (i_clients0 p Hp). constructor; try done. intros Ht. cbn. specialize (Hm p (proj2 (list_elem_of_In _ _) Hp) Ht). lia.
Qed.

Lemma copies_nonneg busy obj s : inv busy obj s -> Forall (fun p => 0 <= copy_offset p.2) (clients s).
Proof. intros H. eapply List.Forall_impl; [|exact (i_clients _ _ _ _ _ _ _ H)]. intros p []. cbn in *. lia. Qed.

Lemma on_disk_some busy obj s : inv busy obj s -> storeSwapOutObjectBytesOnDisk (pw s) = Some (on_disk (pw s)) /\ on_disk (pw s) <= queue_offset (pw s).
Proof.
  intros H. unfold on_disk, storeSwapOutObjectBytesOnDisk. destruct (sio (pw s)) eqn:E; [|cbn; split; [done|lia]]. destruct (i_sio _ _ _ _ _ _ _ H E) as (_ & f & Ef & _).
  pose proof (i_file _ _ _ _ _ _ _ H) as Hf. pose proof (i_queue _ _ _ _ _ _ _ H) as [Hq _]. rewrite Ef in *. destruct Hf as (H1 & H2 & H3). cbn. split; [done|].
  rewrite H1, length_app, length_take in H2. rewrite H3. destruct (Z.leb_spec (offset f) (Z.of_nat (length meta))); lia.
Qed.

Lemma able_cachable s : storeSwapOutAble cfg s = true -> CACHABLE (pe s) = true.
Proof. unfold storeSwapOutAble. by destruct (maxObjectSize cfg <? inmem_hi (pm s)), (CACHABLE (pe s)). Qed.

Lemma free_frame s ps lo : frame s (set_mem (mkMem ps lo (inmem_hi (pm s))) s).
Proof. by constructor. Qed.

Lemma resume_inv busy obj s : inv busy obj s -> inv busy obj (set_entry (storeResumeRead (pe s)) s) /\ frame s (set_entry (storeResumeRead (pe s)) s).
Proof.
  intros H. split; [|by constructor]. apply inv_entry; try done; cbn; [apply (i_release _ _ _ _ _ _ _ H)|apply (i_aborted _ _ _ _ _ _ _ H)].
Qed.

(** [close] stops writing. *)
Lemma maintain_ok close busy obj s : inv busy obj s ->
  (sio (pw s) = true -> forall s1, inv busy obj s1 -> sio (pw s1) = true -> RELEASE_REQUEST (pe s1) = true -> exists s2, close s1 = Some s2 /\ inv busy obj s2 /\ frame s1 s2 /\ sio (pw s2) = false) ->
  exists a s', maintain_with cfg close s = Some (a, s') /\ inv busy obj s' /\ frame s s' /\
    (a = false -> SPECIAL (pe s) = false /\ sio (pw s') = false) /\
    (a = true -> pw s' = pw s /\ swap_status (pe s') = swap_status (pe s) /\ CACHABLE (pe s') = CACHABLE (pe s) /\ (SPECIAL (pe s) = false -> CACHABLE (pe s) = true)) /\
    (SPECIAL (pe s) = false -> sio (pw s) = false -> pw s' = pw s /\ swap_status (pe s') = swap_status (pe s)).
Proof.
  intros H Hclose. unfold maintain_with. destruct (SPECIAL (pe s)) eqn:Es; [exists true, s; split; [done|]; split; [exact H|]; split; [reflexivity|]; done|]. destruct (storeSwapOutAble cfg s) eqn:Ea.
  - cbn [mbind option_bind negb andb]. pose proof (able_cachable s Ea) as Hcach. destruct (on_disk_some busy obj s H) as [-> Hdq].
    pose proof (lowest_ok s ltac:(pose proof (i_lo _ _ _ _ _ _ _ H); lia) (copies_nonneg _ _ _ H)) as [Hl0 Hl]. set (low := storeLowestMemReaderOffset s) in *.
    set (new0 := if maxInMemObjSize cfg <? inmem_hi (pm s) then low else if maxInMemObjSize cfg <? content_length (pe s) then low else inmem_lo (pm s)).
    assert (new0 = low \/ new0 = inmem_lo (pm s)) as Hnew0 by (unfold new0; destruct (_ <? _); [by left|]; destruct (_ <? _); [by left|by right]).
    pose proof (i_lo _ _ _ _ _ _ _ H) as [[Hlo1 Hlo2] _].
    assert (exists new1, (if negb (new0 =? 0) then Some (if on_disk (pw s) - 1 <? new0 then on_disk (pw s) - 1 else new0) else Some new0) = Some new1 /\
      new1 <= new0 /\ (new1 <> 0 \/ inmem_lo (pm s) < new1 -> new1 < on_disk (pw s))) as (new1 & E1 & Hn1 & Hn2).
    { destruct (Z.eqb_spec new0 0) as [->|]; cbn [negb]; eexists; (split; [done|]); [lia|]. destruct (Z.ltb_spec (on_disk (pw s) - 1) new0); lia. }
    cbn [mbind option_bind] in *. rewrite E1. bind_simpl. set (new2 := if new1 <? inmem_lo (pm s) then inmem_lo (pm s) else new1).
    destruct (Z.eqb_spec (inmem_lo (pm s)) new2) as [Eq|Hne]; [exists true, s; split; [done|]; split; [exact H|]; split; [reflexivity|]; done|].
    assert (new2 = new1 /\ inmem_lo (pm s) < new1) as [-> Hlt] by (unfold new2 in *; destruct (Z.ltb_spec new1 (inmem_lo (pm s))); lia).
    destruct (free_upto _ _ _) as [ps lo] eqn:Ef. pose proof (inv_free busy obj s new1 ps lo H Es ltac:(lia) Ef) as Hinv.
    assert (inv busy obj (set_mem (mkMem ps lo (inmem_hi (pm s))) s)) as Hi.
    { apply Hinv; [|left; apply Hn2; lia]. intros p Hp Ht. assert (new0 = low) as -> by lia. specialize (Hl p Hp (or_intror Ht)). lia. }
    destruct (_ && _).
    + destruct (resume_inv _ _ _ Hi) as [Hr1 Hr2]. eexists _, _. split; [done|]. split; [done|]. split; [by etrans; [apply free_frame|exact Hr2]|]. done.
    + eexists _, _. split; [done|]. split; [done|]. split; [apply free_frame|]. done.
  - cbn [negb andb]. set (s1 := set_entry (storeReleaseRequest (pe s)) s). assert (inv busy obj s1) as H1 by (by apply inv_release).
    destruct (release_request_entry (pe s) (i_release _ _ _ _ _ _ _ H)) as (R1 & R2 & R3 & R4 & R5 & R6 & R7).
    assert (frame s s1) as Hf1 by (constructor; try done; unfold s1, set_entry, storeReleaseRequest; cbn; by destruct (RELEASE_REQUEST (pe s))).
    assert (exists s2, (if sio (pw s1) then close s1 else Some s1) = Some s2 /\ inv busy obj s2 /\ frame s1 s2 /\ sio (pw s2) = false /\ (sio (pw s) = false -> s2 = s1)) as (s2 & -> & H2 & Hf2 & Hs2 & Hsame).
    { destruct (sio (pw s1)) eqn:Esio; [|by exists s1]. destruct (Hclose Esio s1 H1 Esio) as (s2 & ? & ? & ? & ?); [done|]. exists s2. do 4 (split; [done|]). intros E. cbn in Esio. congruence. }
    bind_simpl. assert (frame s s2) as Hf by (by etrans). assert (RELEASE_REQUEST (pe s2) = true) as Hrel by (by apply Hf2).
    pose proof (lowest_ok s2 ltac:(pose proof (i_lo _ _ _ _ _ _ _ H2); lia) (copies_nonneg _ _ _ H2)) as [Hl0 Hl]. set (low := storeLowestMemReaderOffset s2) in *.
    assert (forall s3, (s3 = s2 \/ pw s3 = pw s2 /\ swap_status (pe s3) = swap_status (pe s2)) -> sio (pw s) = false -> pw s3 = pw s /\ swap_status (pe s3) = swap_status (pe s)) as Hkeep.
    { intros s3 Hs3 E. rewrite (Hsame E) in *. destruct Hs3 as [->|[-> ->]]; unfold s1; cbn; split; done. }
    set (new2 := if low <? inmem_lo (pm s2) then inmem_lo (pm s2) else low). destruct (Z.eqb_spec (inmem_lo (pm s2)) new2) as [Eq|Hne].
    { exists false, s2. do 3 (split; [done|]). split; [done|]. split; [done|]. intros _. apply Hkeep. by left. }
    assert (new2 = low /\ inmem_lo (pm s2) < low) as [-> Hlt] by (unfold new2 in *; destruct (Z.ltb_spec low (inmem_lo (pm s2))); lia).
    destruct (free_upto _ _ _) as [ps lo] eqn:Ef.
    assert (inv busy obj (set_mem (mkMem ps lo (inmem_hi (pm s2))) s2)) as Hi.
    { eapply inv_free; [exact H2|by rewrite (fr_special _ _ Hf)| |exact Ef| |]; [lia|intros p Hp Ht; apply Hl; auto|]. right. split; [done|]. split; [done|]. intros p Hp. apply Hl; auto. }
    destruct (_ && _).
    + destruct (resume_inv _ _ _ Hi) as [Hr1 Hr2]. eexists _, _. split; [done|]. split; [done|]. split; [etrans; [exact Hf|]; etrans; [apply free_frame|exact Hr2]|].
      split; [done|]. split; [done|]. intros _. apply Hkeep. by right.
    + eexists _, _. split; [done|]. split; [done|]. split; [etrans; [exact Hf|apply free_frame]|]. split; [done|]. split; [done|]. intros _. apply Hkeep. by right.
Qed.

(** ** The swap file *)

Lemma check_cachable_raw s b s' : storeCheckCachable cfg s = (b, s') ->
  pm s' = pm s /\ pw s' = pw s /\ clients s' = clients s /\ out s' = out s /\
  (pe s' = pe s /\ (b = true -> RELEASE_REQUEST (pe s) = false) \/ b = false /\ pe s' = clear_cachable (storeReleaseRequest (pe s))).
Proof.
  unfold storeCheckCachable. destruct (ask s) as [a s1] eqn:Ea.
  assert (pm s1 = pm s /\ pw s1 = pw s /\ pe s1 = pe s /\ clients s1 = clients s /\ out s1 = out s) as (A1 & A2 & A3 & A4 & A5) by (unfold ask in Ea; destruct (answers s); by injection Ea as <- <-).
  destruct (negb (pending (pe s)) && BAD_LENGTH (pe s)); [intros [= <- <-]; cbn; auto 10|]. destruct (RELEASE_REQUEST (pe s)); [intros [= <- <-]; cbn; auto 10|].
  destruct (negb (CACHABLE (pe s))); [intros [= <- <-]; cbn; auto 10|]. destruct (NEGCACHED (pe s)); [intros [= <- <-]; cbn; auto 10|].
  destruct (_ || _); [intros [= <- <-]; cbn; auto 10|]. destruct (storeCheckTooSmall cfg s); [intros [= <- <-]; cbn; auto 10|]. destruct (PRIVATE (pe s)); [intros [= <- <-]; cbn; auto 10|].
  destruct (negb (swap_is SWAPOUT_NONE (pe s))); [intros [= <- <-]; auto 10|].
  destruct a as [[]|]; intros [= <- <-]; cbn; rewrite ?A1, ?A2, ?A3, ?A4, ?A5; auto 10.
Qed.

Lemma clear_inv busy obj s : inv busy obj s -> inv busy obj (set_entry (clear_cachable (storeReleaseRequest (pe s))) s) /\ frame s (set_entry (clear_cachable (storeReleaseRequest (pe s))) s).
Proof.
  intros H. destruct (release_request_entry (pe s) (i_release _ _ _ _ _ _ _ H)) as (R1 & R2 & R3 & R4 & R5 & R6 & R7).
  split; [apply inv_entry; try done|]. constructor; try done; cbn; unfold storeReleaseRequest; by destruct (RELEASE_REQUEST (pe s)).
Qed.

(** States that differ in the answers only. *)
Lemma inv_same busy obj s s' : inv busy obj s -> pm s' = pm s -> pw s' = pw s -> pe s' = pe s -> clients s' = clients s -> out s' = out s -> inv busy obj s' /\ frame s s'.
Proof. intros H E1 E2 E3 E4 E5. split; [unfold inv; by rewrite E1, E2, E3, E4, E5|]. constructor; rewrite ?E1, ?E2, ?E3, ?E4, ?E5; done. Qed.

Lemma check_cachable_ok busy obj s b s' : inv busy obj s -> storeCheckCachable cfg s = (b, s') ->
  inv busy obj s' /\ frame s s' /\ pm s' = pm s /\ pw s' = pw s /\ swap_status (pe s') = swap_status (pe s) /\ (b = true -> pe s' = pe s /\ RELEASE_REQUEST (pe s) = false).
Proof.
  intros H E. destruct (check_cachable_raw _ _ _ E) as (E1 & E2 & E3 & E4 & [[E5 E6]|[-> E5]]).
  - destruct (inv_same busy obj s s' H E1 E2 E5 E3 E4). split; [done|]. split; [done|]. split; [done|]. split; [done|]. rewrite E5. split; [done|]. auto.
  - destruct (clear_inv busy obj s H) as [H1 H2]. destruct (inv_same busy obj _ s' H1 E1 E2 E5 E3 E4) as [H3 H4]. split; [done|]. split; [by etrans|]. split; [done|]. split; [done|].
    rewrite E5. split; [|done]. cbn. unfold storeReleaseRequest. by destruct (RELEASE_REQUEST (pe s)).
Qed.

Lemma swap_is_spec st e : swap_is st e = true <-> swap_status e = st.
Proof. unfold swap_is. destruct (swap_status e), st; split; (done || discriminate). Qed.

(** The state of the swap file changes, its contents do not. *)
Lemma inv_swap_state busy obj s f f' sw sz rel : inv busy obj s -> file (pw s) = Some f -> given f' = given f -> offset f' = offset f ->
  swap_status rel = sw -> store_status rel = store_status (pe s) -> object_sz rel = object_sz (pe s) -> SPECIAL rel = SPECIAL (pe s) ->
  (RELEASE_REQUEST (pe s) = true -> RELEASE_REQUEST rel = true) -> (RELEASE_REQUEST rel = true -> CACHABLE rel = false) -> (ABORTED rel = true -> RELEASE_REQUEST rel = true) ->
  RELEASE_REQUEST rel = true \/ pending (pe s) = false /\ queue_offset (pw s) = inmem_hi (pm s) ->
  (sw = SWAPOUT_NONE -> RELEASE_REQUEST rel = true) -> (sw = SWAPOUT_WRITING <-> closed f' = false) ->
  (sw = SWAPOUT_DONE -> RELEASE_REQUEST rel = false -> sz = Z.of_nat (length meta) + Z.of_nat (length obj)) ->
  inv busy obj (set_entry rel (set_swap (mkSwap (queue_offset (pw s)) (memnode (pw s)) false (swap_hdr_sz (pw s)) (Some f') sz) s)).
Proof.
  intros H Hf Eg Eo Esw Est Esz Esp R1 R2 R3 R4 R5 R6 R7. pose proof (on_disk_some _ _ _ H) as [_ Hdq]. destruct H. rewrite Hf in i_file0. destruct i_file0 as (F1 & F2 & F3).
  assert (pending rel = pending (pe s)) as Ep by (unfold pending; by rewrite Est).
  constructor; cbn [pm pw pe clients out set_swap set_entry queue_offset memnode sio swap_hdr_sz file swap_file_sz]; try done; rewrite ?Ep, ?Esp, ?Esz; try done.
  - by rewrite Eg, Eo.
  - intros Hn. rewrite Esw in Hn. auto.
  - intros Hn. rewrite Esw in Hn. exists f'. split; [done|]. by apply R6.
  - intros f1 [= <-] Hn. rewrite Esw. by apply R6.
  - intros Hn Hr. rewrite Esw in Hn. destruct R4 as [R4|[R4 R4']]; [congruence|]. auto.
  - intros E. destruct (i_special0 E). congruence.
  - destruct i_low0 as [?|[?|(?&?&?)]]; [by left|right; left; cbn; lia|]. right. right. auto.
  - eapply List.Forall_impl; [|exact i_clients0]. intros p []. constructor; cbn [file queue_offset]; try done; [intros E; by destruct (co_swapin0 E)|].
    intros E. destruct (co_io0 E) as (?&?&?&?&?&?). by repeat split.
  - eapply List.Forall_impl; [|exact i_out0]. intros d. unfold delivered. by rewrite Ep.
Qed.

(** A file that is written is closed. *)
Lemma closed_inv busy obj s f err : inv busy obj s -> swap_status (pe s) = SWAPOUT_WRITING -> file (pw s) = Some f ->
  err = true \/ RELEASE_REQUEST (pe s) = true \/ pending (pe s) = false /\ queue_offset (pw s) = inmem_hi (pm s) ->
  exists s', storeSwapOutFileClosed cfg err s = Some s' /\ inv busy obj s' /\ frame s s' /\ sio (pw s') = false /\ swap_status (pe s') <> SWAPOUT_WRITING.
Proof.
  intros H Hw Hf Hc. unfold storeSwapOutFileClosed. assert (swap_is SWAPOUT_WRITING (pe s) = true) as -> by (by apply swap_is_spec). rewrite Hf. bind_simpl.
  set (f' := mkFile (given f) (offset f) (closing f) true). pose proof H as [].
  assert (SPECIAL (pe s) = false) as Hsp by (destruct (SPECIAL (pe s)) eqn:E; [|done]; destruct (i_special0 eq_refl); congruence).
  set (s2 := if err then _ else _).
  assert (inv busy obj (set_swap (set_sio false (pw s2)) s2) /\ frame s (set_swap (set_sio false (pw s2)) s2) /\ swap_status (pe s2) <> SWAPOUT_WRITING) as (H3 & Hf3 & Hst3).
  { destruct err.
    - set (e1 := set_swap_status SWAPOUT_NONE (pe s)). destruct (release_request_entry e1 i_release0) as (R1 & R2 & R3 & R4 & R5 & R6 & R7). split; [|split; [|change (swap_status (storeReleaseRequest e1) <> SWAPOUT_WRITING); by rewrite R4]].
      + apply (inv_swap_state busy obj s f f' SWAPOUT_NONE (swap_file_sz (pw s)) (storeReleaseRequest e1) H Hf); try done. by left.
      + constructor; cbn; try done; unfold storeReleaseRequest; cbn; by destruct (RELEASE_REQUEST (pe s)).
    - destruct Hc as [Hc|Hc]; [done|]. unfold s2. set (s1 := set_entry (set_swap_status SWAPOUT_DONE _) _).
      destruct (storeCheckCachable cfg s1) as [b s1'] eqn:E. cbn [snd]. destruct (check_cachable_raw _ _ _ E) as (E1 & E2 & E3 & E4 & E5).
      set (s4 := set_entry (set_swap_status SWAPOUT_DONE (pe s)) (set_swap (mkSwap (queue_offset (pw s)) (memnode (pw s)) false (swap_hdr_sz (pw s)) (Some f') (object_sz (pe s) + swap_hdr_sz (pw s))) s)).
      assert (inv busy obj s4) as H4.
      { apply (inv_swap_state busy obj s f f' SWAPOUT_DONE _ (set_swap_status SWAPOUT_DONE (pe s)) H Hf); try done. intros _ Hr. cbn in Hr. destruct Hc as [Hc|[Hc1 Hc2]]; [congruence|].
        rewrite (i_size0 Hc1), i_hi0. rewrite Hf in i_file0. destruct i_file0 as (_ & _ & ->). lia. }
      assert (exists e, set_swap (set_sio false (pw s1')) s1' = mkP (pm s4) (pw s4) e (clients s4) (answers s1') (out s4) /\ (e = pe s4 \/ e = clear_cachable (storeReleaseRequest (pe s4)))) as (e & -> & He).
      { exists (pe s1'). split; [unfold set_swap; by rewrite E1, E2, E3, E4|]. destruct E5 as [[-> _]|[_ ->]]; auto. }
      assert (frame s s4) as Hf4 by (by constructor).
      assert (swap_status (pe s1') <> SWAPOUT_WRITING) as Hst by (destruct E5 as [[-> _]|[_ ->]]; [done|]; cbn; unfold storeReleaseRequest; by destruct (RELEASE_REQUEST _)).
      destruct He as [->| ->].
      + destruct (inv_same busy obj s4 (mkP (pm s4) (pw s4) (pe s4) (clients s4) (answers s1') (out s4)) H4 eq_refl eq_refl eq_refl eq_refl eq_refl) as [I1 I2]. split; [done|]. split; [by etrans|done].
      + destruct (clear_inv busy obj s4 H4) as [H5 Hf5].
        destruct (inv_same busy obj _ (mkP (pm s4) (pw s4) (clear_cachable (storeReleaseRequest (pe s4))) (clients s4) (answers s1') (out s4)) H5 eq_refl eq_refl eq_refl eq_refl eq_refl) as [I1 I2].
        split; [done|]. split; [etrans; [exact Hf4|]; by etrans|done]. }
  destruct (maintain_ok Some busy obj _ H3) as (a & s4 & -> & H4 & Hf4 & _ & _ & Hk); [done|]. bind_simpl. exists s4. split; [done|]. split; [done|]. split; [by etrans|].
  destruct Hk as [-> Hst4]; [by rewrite (fr_special _ _ Hf3)|done|]. split; [done|]. rewrite Hst4. done.
Qed.

Lemma close_inv busy obj s : inv busy obj s -> sio (pw s) = true -> RELEASE_REQUEST (pe s) = true \/ pending (pe s) = false /\ queue_offset (pw s) = inmem_hi (pm s) ->
  exists s', storeSwapOutFileClose cfg s = Some s' /\ inv busy obj s' /\ frame s s' /\ sio (pw s') = false.
Proof.
  intros H Hs Hc. unfold storeSwapOutFileClose. rewrite Hs. cbn [negb]. destruct (i_sio _ _ _ _ _ _ _ H Hs) as (Hw & f & Hf & Hcl). rewrite Hf. bind_simpl. rewrite Hcl.
  set (f' := mkFile (given f) (offset f) true (closed f)). set (s1 := set_swap (set_file (Some f') _) _).
  destruct (i_writing _ _ _ _ _ _ _ H Hw) as (f0 & Ef0 & Hcl0). rewrite Hf in Ef0. injection Ef0 as <-.
  assert (inv busy obj s1) as H1.
  { pose proof (inv_swap_state busy obj s f f' SWAPOUT_WRITING (swap_file_sz (pw s)) (pe s) H Hf) as Hi. apply (inv_same busy obj _ s1 (Hi eq_refl eq_refl Hw eq_refl eq_refl eq_refl (fun x => x)
      (i_release _ _ _ _ _ _ _ H) (i_aborted _ _ _ _ _ _ _ H) Hc ltac:(done) ltac:(done) ltac:(done))); done. }
  assert (frame s s1) as Hf1 by (by constructor). destruct (ask s1) as [a s2] eqn:Ea. destruct (inv_ask busy obj s1 a s2 Ea H1) as (H2 & Em & Ew & Ee & Ec & Eo).
  pose proof (frame_ask _ _ _ Ea) as Hf2. destruct a as [err|].
  - destruct (closed_inv busy obj s2 f' err H2) as (s3 & -> & H3 & Hf3 & Hs3 & _); [by rewrite Ee|by rewrite Ew|rewrite Ee, Ew, Em; right; exact Hc|].
    exists s3. split; [done|]. split; [done|]. split; [|done]. etrans; [exact Hf1|]. by etrans.
  - exists s2. split; [done|]. split; [done|]. split; [by etrans|]. by rewrite Ew.
Qed.

Lemma close_any busy obj s : inv busy obj s -> RELEASE_REQUEST (pe s) = true \/ pending (pe s) = false /\ queue_offset (pw s) = inmem_hi (pm s) ->
  exists s', storeSwapOutFileClose cfg s = Some s' /\ inv busy obj s' /\ frame s s'.
Proof.
  intros H Hc. destruct (sio (pw s)) eqn:Es; [destruct (close_inv busy obj s H Es Hc) as (s' & ? & ? & ? & ?); eauto|].
  exists s. unfold storeSwapOutFileClose. rewrite Es. split; [done|]. split; [done|reflexivity].
Qed.

Lemma maintain_inv busy obj s : inv busy obj s ->
  exists a s', storeSwapOutMaintainMemObject cfg s = Some (a, s') /\ inv busy obj s' /\ frame s s' /\
    (a = false -> SPECIAL (pe s) = false /\ sio (pw s') = false) /\
    (a = true -> pw s' = pw s /\ swap_status (pe s') = swap_status (pe s) /\ CACHABLE (pe s') = CACHABLE (pe s) /\ (SPECIAL (pe s) = false -> CACHABLE (pe s) = true)).
Proof.
  intros H. destruct (maintain_ok (storeSwapOutFileClose cfg) busy obj s H) as (a & s' & ? & ? & ? & ? & ? & _); [|by exists a, s'].
  intros _ s1 H1 Hs Hr. apply close_inv; auto.
Qed.

(** ** Writing pages *)

(** A page more is given to the file system. *)
Lemma give_inv busy obj s f p : inv busy obj s -> sio (pw s) = true -> file (pw s) = Some f -> aligned (queue_offset (pw s)) ->
  p = take PAGE (drop (Z.to_nat (queue_offset (pw s))) obj) -> p <> [] -> (pending (pe s) = true -> length p = PAGE) ->
  inv busy obj (set_swap (mkSwap (queue_offset (pw s) + Z.of_nat (length p)) (Some (queue_offset (pw s))) (sio (pw s)) (swap_hdr_sz (pw s))
    (Some (mkFile (given f ++ p) (offset f) (closing f) (closed f))) (swap_file_sz (pw s))) s).
Proof.
  intros H Hs Hf Ha Hp Hne Hfull. pose proof PAGE_Z as HP. destruct H. rewrite Hf in i_file0. destruct i_file0 as (F1 & F2 & F3). set (q := queue_offset (pw s)) in *.
  assert (length p = Nat.min PAGE (length obj - Z.to_nat q)) as Hlen by (rewrite Hp, length_take, length_drop; lia).
  assert (0 < length p)%nat as Hpos by (destruct p; [done|cbn; lia]).
  assert (take (Z.to_nat (q + Z.of_nat (length p))) obj = take (Z.to_nat q) obj ++ p) as Htake.
  { replace (Z.to_nat (q + Z.of_nat (length p))) with (Z.to_nat q + length p)%nat by lia. rewrite <- take_take_drop. f_equal. rewrite Hp at 2. rewrite Hlen.
    destruct (Nat.le_ge_cases PAGE (length obj - Z.to_nat q)); [by rewrite Nat.min_l by lia|]. rewrite Nat.min_r by lia. rewrite !take_ge; [done|rewrite length_drop; lia..]. }
  destruct (i_sio0 Hs) as [Hw (f0 & Ef0 & Hcl)]. rewrite Hf in Ef0. injection Ef0 as <-.
  constructor; cbn [pm pw pe clients out set_swap queue_offset memnode sio swap_hdr_sz file swap_file_sz]; try assumption.
  - split; [lia|]. destruct (pending (pe s)) eqn:Ep.
    + left. rewrite (Hfull eq_refl), HP. by apply aligned_add.
    + destruct (decide (length p = PAGE)) as [E|E]; [left; rewrite E, HP; by apply aligned_add|right; split; [done|lia]].
  - cbn. split; [done|]. split; [lia|]. lia.
  - cbn. split; [by rewrite F1, Htake, app_assoc|]. rewrite length_app. lia.
  - intros _. split; [done|]. by eexists.
  - congruence.
  - congruence.
  - intros _. destruct (i_writing0 Hw) as (f1 & E1 & Hc1). rewrite Hf in E1. injection E1 as <-. by eexists.
  - done.
  - congruence.
  - intros E. destruct (i_special0 E). congruence.
  - destruct i_low0 as [?|[Hd|(?&?&?)]]; [by left| |congruence]. right. left. unfold on_disk, storeSwapOutObjectBytesOnDisk in *. rewrite Hs, Hf in Hd. cbn in *. by rewrite Hs.
  - eapply List.Forall_impl; [|exact i_clients0]. intros pc []. constructor; cbn [file queue_offset]; try assumption; [intros E; by destruct (co_swapin0 E)|].
    intros E. destruct (co_io0 E) as (?&?&?&?&?&?). repeat split; try assumption; [discriminate|lia].
Qed.

Lemma lo_queue busy obj s : inv busy obj s -> sio (pw s) = true -> inmem_lo (pm s) <= queue_offset (pw s) /\ (queue_offset (pw s) = 0 -> inmem_lo (pm s) = 0) /\ (queue_offset (pw s) <> 0 -> inmem_lo (pm s) < queue_offset (pw s)).
Proof.
  intros H Hs. pose proof (on_disk_some _ _ _ H) as [_ Hd]. pose proof (i_queue _ _ _ _ _ _ _ H) as [Hq _]. pose proof (i_lo _ _ _ _ _ _ _ H) as [Hl _].
  destruct (i_low _ _ _ _ _ _ _ H) as [E|[E|(E & _)]]; [lia|lia|congruence].
Qed.

Lemma next_page_ok busy obj s : inv busy obj s -> sio (pw s) = true -> aligned (queue_offset (pw s)) -> queue_offset (pw s) < inmem_hi (pm s) ->
  next_page s = Some (queue_offset (pw s), take PAGE (drop (Z.to_nat (queue_offset (pw s))) obj)).
Proof.
  intros H Hs Ha Hq. destruct (lo_queue _ _ _ H Hs) as (L1 & L2 & L3). pose proof PAGE_Z as HP. destruct H. destruct i_pages0 as [P1 P2], i_lo0 as [[Hl1 Hl2] Hla]. unfold next_page.
  assert (Z.of_nat (length (concat (pages (pm s)))) = inmem_hi (pm s) - inmem_lo (pm s)) as Hlen by (rewrite P2, length_drop; lia).
  assert (forall o, aligned o -> inmem_lo (pm s) <= o < inmem_hi (pm s) -> page_at (pages (pm s)) (inmem_lo (pm s)) o = Some (take PAGE (drop (Z.to_nat o) obj))) as Hat.
  { intros o Ho Hr. destruct (page_at_ok (pages (pm s)) (inmem_lo (pm s)) o P1 Hla Ho) as (p & -> & ->); [lia|]. rewrite P2, drop_drop. do 3 f_equal. lia. }
  destruct (memnode (pw s)) as [o|].
  - destruct i_node0 as (N1 & N2 & N3).
    assert (queue_offset (pw s) = o + 4096) as Eq.
    { unfold aligned in *. assert ((queue_offset (pw s) - o) mod 4096 = 0) as Hm by (rewrite Zminus_mod, Ha, N1; done). destruct (Z.eq_dec (queue_offset (pw s)) (o + 4096)); [done|].
      rewrite Z.mod_small in Hm by lia. lia. }
    assert (inmem_lo (pm s) <= o) as Hlo.
    { specialize (L3 ltac:(lia)). destruct (Z.le_gt_cases (inmem_lo (pm s)) o); [done|]. exfalso. unfold aligned in *.
      assert ((inmem_lo (pm s) - o) mod 4096 = 0) as Hm by (rewrite Zminus_mod, Hla, N1; done). rewrite Z.mod_small in Hm by lia. lia. }
    rewrite Hat by (done || lia). bind_simpl. assert (length (take PAGE (drop (Z.to_nat o) obj)) = PAGE) as -> by (rewrite length_take, length_drop; lia).
    rewrite HP, <- Eq, Hat by (done || lia). done.
  - rewrite i_node0 in *. specialize (L2 eq_refl). specialize (Hat 0 ltac:(done)). rewrite L2 in Hat. specialize (Hat ltac:(lia)). destruct (pages (pm s)) as [|p ps] eqn:Ep; [cbn in Hlen; lia|].
    cbn in Hat. cbn [head mbind option_bind]. injection Hat as ->. by rewrite L2.
Qed.

(** Enough turns for what is left to write. *)
Lemma loop_inv fuel busy obj : forall s, inv busy obj s -> sio (pw s) = true -> aligned (queue_offset (pw s)) -> queue_offset (pw s) < inmem_hi (pm s) ->
  (pending (pe s) = true -> 4096 <= inmem_hi (pm s) - queue_offset (pw s)) -> inmem_hi (pm s) - queue_offset (pw s) <= 4096 * Z.of_nat fuel ->
  exists s', swapout_loop cfg fuel s = Some s' /\ inv busy obj s' /\ frame s s' /\ (sio (pw s') = true -> pending (pe s') = false -> queue_offset (pw s') = inmem_hi (pm s')).
Proof.
  induction fuel as [|fuel IH]; intros s H Hs Ha Hq Hp Hfu; [lia|]. cbn [swapout_loop]. rewrite (next_page_ok busy obj s H Hs Ha Hq). bind_simpl. pose proof PAGE_Z as HP.
  set (p := take PAGE (drop (Z.to_nat (queue_offset (pw s))) obj)). pose proof (i_hi _ _ _ _ _ _ _ H) as Hhi. pose proof (i_queue _ _ _ _ _ _ _ H) as [Hq0 _].
  assert (length p = Nat.min PAGE (length obj - Z.to_nat (queue_offset (pw s)))) as Hlen by (unfold p; rewrite length_take, length_drop; lia).
  assert ((length p =? 0)%nat = false) as -> by (apply Nat.eqb_neq; lia). cbn [negb].
  destruct (i_sio _ _ _ _ _ _ _ H Hs) as (Hw & f & Hf & Hcl).
  assert (inv busy obj (set_swap (mkSwap (queue_offset (pw s) + Z.of_nat (length p)) (Some (queue_offset (pw s))) (sio (pw s)) (swap_hdr_sz (pw s))
    (Some (mkFile (given f ++ p) (offset f) (closing f) (closed f))) (swap_file_sz (pw s))) s)) as H1.
  { apply give_inv; try done; [intros E; rewrite E in Hlen; cbn in Hlen; lia|]. intros E. specialize (Hp E). lia. }
  unfold storeWrite. cbn [pw set_swap file set_file]. rewrite Hf. bind_simpl. unfold set_swap at 1, set_file. cbn [pm pw pe clients answers out queue_offset memnode sio swap_hdr_sz swap_file_sz set_swap].
  set (s1 := set_swap _ s) in H1. change (mkP _ _ _ _ _ _) with s1. assert (frame s s1) as Hf1 by (by constructor). destruct (ask s1) as [a s2] eqn:Ea.
  destruct (inv_ask busy obj s1 a s2 Ea H1) as (H2 & Em & Ew & Ee & Ec & Eo). pose proof (frame_ask _ _ _ Ea) as Hf2.
  assert (frame s s2) as Hf02 by (by etrans). destruct a as [err|].
  - destruct (closed_inv busy obj s2 (mkFile (given f ++ p) (offset f) (closing f) (closed f)) true H2) as (s3 & -> & H3 & Hf3 & Hs3 & Hst3); [by rewrite Ee|by rewrite Ew|by left|].
    bind_simpl. destruct (swap_is SWAPOUT_WRITING (pe s3)) eqn:Esw; [by apply swap_is_spec in Esw|]. cbn [negb]. exists s3. split; [done|]. split; [done|]. split; [by etrans|]. by rewrite Hs3.
  - bind_simpl. assert (swap_is SWAPOUT_WRITING (pe s2) = true) as -> by (apply swap_is_spec; by rewrite Ee). cbn [negb]. rewrite Em, Ew, Ee. cbn [pm pw pe s1 set_swap queue_offset].
    destruct (pending (pe s)) eqn:Epd; cbn [andb].
    + assert (length p = PAGE) as Hl by lia. rewrite Hl, HP. destruct (Z.ltb_spec (inmem_hi (pm s) - (queue_offset (pw s) + 4096)) SM_PAGE_SIZE) as [Hlt|Hge].
      { exists s2. split; [done|]. split; [done|]. split; [done|]. intros _ E. rewrite Ee in E. cbn in E. congruence. }
      unfold Stmem.SM_PAGE_SIZE in Hge. destruct (Z.ltb_spec 0 (inmem_hi (pm s) - (queue_offset (pw s) + 4096))); [|lia].
      destruct (IH s2 H2) as (s3 & -> & H3 & Hf3 & Hq3); rewrite ?Em, ?Ew, ?Ee; cbn [pm pw pe s1 set_swap queue_offset sio]; rewrite ?Hl, ?HP; try done; try lia; [by apply aligned_add|].
      exists s3. split; [done|]. split; [done|]. split; [by etrans|done].
    + destruct (Z.ltb_spec 0 (inmem_hi (pm s) - (queue_offset (pw s) + Z.of_nat (length p)))) as [Hlt|Hge].
      * assert (length p = PAGE) as Hl by lia. destruct (IH s2 H2) as (s3 & -> & H3 & Hf3 & Hq3); rewrite ?Em, ?Ew, ?Ee; cbn [pm pw pe s1 set_swap queue_offset sio]; rewrite ?Hl, ?HP; try done; try lia; [by apply aligned_add|congruence|].
        exists s3. split; [done|]. split; [done|]. split; [by etrans|done].
      * exists s2. split; [done|]. split; [done|]. split; [done|]. intros _ _. rewrite Em, Ew. cbn [pm pw s1 set_swap queue_offset]. lia.
Qed.

End invariant.

End StorePumpInv.
