(* ===== verification/StorePumpRun.v ===== *)
(** * Every step of an object that is being fetched keeps the invariant

    The operations of StorePump.v succeed and keep the invariant of
    StorePumpInv.v: no assertion fails, memory clients are never sent to disk,
    and what clients get is the object. *)

From Stdlib Require Import ZArith Lia.
From stdpp Require Import base list numbers option.
From S2P Require Import Prelude CStr Stmem StoreEntry StorePump StorePumpInv.
Import StoreEntry StorePump StorePumpInv.

Module StorePumpRun.

Section run.
Context (cfg : config) (meta : bytes).
Hypothesis meta_nonempty : meta <> [].

#[local] Abbreviation inv := (inv meta).

#[local] Existing Instance frame_preorder.

(** The number of pages bounds the turns of the loop. *)
Lemma paged_length ps : paged ps -> Z.of_nat (length (concat ps)) <= 4096 * Z.of_nat (length ps).
Proof.
  pose proof PAGE_Z as HP. induction ps as [|p ps IH]; intros Hp; cbn [concat length]; [lia|]. destruct Hp as (Hl & _ & Hp). specialize (IH Hp). rewrite length_app. lia.
Qed.

(** A new file, with its header. *)
Lemma start_inv busy obj s : inv busy obj s -> file (pw s) = None -> SPECIAL (pe s) = false -> RELEASE_REQUEST (pe s) = false ->
  inv busy obj (set_entry (set_swap_status SWAPOUT_WRITING (pe s)) (set_swap (mkSwap (queue_offset (pw s)) (memnode (pw s)) true (Z.of_nat (length meta)) (Some (mkFile meta 0 false false)) (swap_file_sz (pw s))) s)).
Proof.
  intros H Hf Hsp Hrel. destruct H. rewrite Hf in i_file0. destruct i_file0 as (F1 & F2 & F3).
  constructor; cbn [pm pw pe clients out set_swap set_entry queue_offset memnode sio swap_hdr_sz file swap_file_sz]; try assumption; try discriminate.
  - rewrite F1. change (Z.to_nat 0) with 0%nat. rewrite take_0, app_nil_r. cbn. split; [done|]. lia.
  - intros _. split; [done|]. by eexists.
  - intros _. by eexists.
  - done.
  - cbn. rewrite Hsp. discriminate.
  - destruct i_low0 as [?|[Hd|(?&?&?)]]; [by left| |]; exfalso.
    + unfold on_disk, storeSwapOutObjectBytesOnDisk in Hd. rewrite F2, F1 in Hd. cbn in Hd. lia.
    + congruence.
  - eapply List.Forall_impl; [|exact i_clients0]. intros pc []. constructor; cbn [file queue_offset]; try assumption.
    + intros E. destruct (co_swapin0 E). congruence.
    + intros E. destruct (co_io0 E) as (?&?&?&?&?&?). congruence.
Qed.

Lemma swapout_start_inv busy obj s : inv busy obj s -> file (pw s) = None -> SPECIAL (pe s) = false -> RELEASE_REQUEST (pe s) = false ->
  exists s', storeSwapOutStart cfg meta s = Some s' /\ inv busy obj s' /\ frame s s' /\ (sio (pw s') = true -> queue_offset (pw s') = queue_offset (pw s)).
Proof.
  intros H Hf Hsp Hrel. unfold storeSwapOutStart. set (s0 := set_swap _ (set_entry _ s)). destruct (ask s0) as [a s1] eqn:Ea.
  assert (pm s1 = pm s /\ pw s1 = mkSwap (queue_offset (pw s)) (memnode (pw s)) (sio (pw s)) (Z.of_nat (length meta)) (file (pw s)) (swap_file_sz (pw s)) /\
    pe s1 = set_swap_status SWAPOUT_WRITING (pe s) /\ clients s1 = clients s /\ out s1 = out s) as (A1 & A2 & A3 & A4 & A5).
  { unfold ask in Ea. destruct (answers s0); injection Ea as <- <-; done. }
  destruct a as [b|].
  - unfold storeWrite. cbn [pw set_swap set_sio set_file file mbind option_bind]. rewrite A2. cbn [set_sio set_file queue_offset memnode sio swap_hdr_sz file swap_file_sz given offset closing closed app].
    match goal with |- context [ask ?x] => set (s2 := x) end. pose proof (start_inv busy obj s H Hf Hsp Hrel) as Hi.
    destruct (inv_same meta busy obj _ s2 Hi) as [H2 Hf2]; [done|done|done|done|done|]. destruct (ask s2) as [a s3] eqn:Ea3.
    destruct (inv_ask meta busy obj s2 a s3 Ea3 H2) as (H3 & Em & Ew & Ee & Ec & Eo). pose proof (frame_ask _ _ _ Ea3) as Hf3.
    assert (frame s s3) as Hfr. { etrans; [|exact Hf3]. etrans; [|exact Hf2]. by constructor. }
    destruct a as [err|]; [|exists s3; split; [done|]; split; [done|]; split; [done|]; intros _; by rewrite Ew].
    destruct (closed_inv cfg meta busy obj s3 (mkFile meta 0 false false) true H3) as (s4 & E4 & H4 & Hf4 & Hs4 & _); [rewrite Ee; cbn; by rewrite A3|by rewrite Ew|by left|].
    exists s4. split; [done|]. split; [done|]. split; [by etrans|]. by rewrite Hs4.
  - assert (set_entry (set_swap_status SWAPOUT_NONE (pe s1)) s1 = mkP (pm s) (pw s1) (set_swap_status SWAPOUT_NONE (pe s1)) (clients s) (answers s1) (out s)) as -> by (unfold set_entry; by rewrite A1, A4, A5).
    eexists. split; [done|]. assert (swap_status (pe s) = SWAPOUT_NONE) as Hno by (pose proof (i_file _ _ _ _ _ _ _ _ H) as Hx; rewrite Hf in Hx; by destruct Hx as (_ & _ & ?)).
    rewrite A2, A3. split; [|split; [by constructor|done]]. destruct H. rewrite Hf in *. constructor; cbn [pm pw pe clients out queue_offset memnode sio swap_hdr_sz file swap_file_sz]; try assumption; try discriminate.
    + rewrite Hno in *. cbn. done.
    + intros E. destruct (i_sio0 E). congruence.
    + done.
    + destruct i_file0 as (_ & Hs0 & _). unfold on_disk, storeSwapOutObjectBytesOnDisk in *. cbn. rewrite Hs0 in *. exact i_low0.
    + eapply List.Forall_impl; [|exact i_clients0]. intros pc []. rewrite Hf in *. by constructor.
Qed.

Lemma swapout_inv busy obj s : inv busy obj s -> exists s', storeSwapOut cfg meta s = Some s' /\ inv busy obj s' /\ frame s s'.
Proof.
  intros H. unfold storeSwapOut. destruct (ABORTED (pe s)) eqn:Eab.
  { pose proof (i_aborted _ _ _ _ _ _ _ _ H Eab) as Hr. rewrite Hr. apply close_any; auto. }
  destruct (SPECIAL (pe s)) eqn:Esp; [exists s; split; [done|]; by split|]. pose proof (i_queue _ _ _ _ _ _ _ _ H) as [Hq _].
  destruct (Z.leb_spec (queue_offset (pw s)) (inmem_hi (pm s))); [|lia]. destruct (_ && _); [exists s; split; [done|]; by split|].
  destruct (maintain_inv cfg meta busy obj s H) as (able & s1 & -> & H1 & Hf1 & _ & Hable). bind_simpl. destruct able; cbn [negb]; [|by exists s1].
  destruct (Hable eq_refl) as (Ew & Est & Ecach & Hcach). specialize (Hcach Esp). rewrite Hcach in Ecach. clear Hable Hcach.
  pose proof (frame_pending _ _ Hf1) as Ep. pose proof (fr_hi _ _ Hf1) as Eh.
  assert (SPECIAL (pe s1) = false) as Hsp1 by (by rewrite (fr_special _ _ Hf1)).
  assert (RELEASE_REQUEST (pe s1) = false) as Hrel1 by (destruct (RELEASE_REQUEST (pe s1)) eqn:E; [|done]; pose proof (i_release _ _ _ _ _ _ _ _ H1 E); congruence).
  destruct (Z.eqb_spec (inmem_hi (pm s) - queue_offset (pw s)) 0) as [Ez|Hnz].
  { destruct (pending (pe s1)) eqn:Epd; cbn [negb]; [by exists s1|]. destruct (close_any cfg meta busy obj s1 H1) as (s2 & -> & H2 & Hf2); [right; rewrite Ew; split; [done|lia]|].
    exists s2. split; [done|]. split; [done|by etrans]. }
  destruct (pending (pe s1) && (inmem_hi (pm s) - queue_offset (pw s) <? SM_PAGE_SIZE)) eqn:Esmall; [by exists s1|].
  assert (exists a s2, (if pending (pe s1) then ask s1 else (None, s1)) = (a, s2) /\ inv busy obj s2 /\ frame s1 s2 /\ pm s2 = pm s1 /\ pw s2 = pw s1 /\ pe s2 = pe s1) as (a & s2 & -> & H2 & Hf2 & Em2 & Ew2 & Ee2).
  { destruct (pending (pe s1)); [|exists None, s1; split; [done|]; by split]. destruct (ask s1) as [a s2] eqn:Ea. destruct (inv_ask meta busy obj s1 a s2 Ea H1) as (? & ? & ? & ? & ? & ?).
    exists a, s2. split; [done|]. split; [done|]. split; [by eapply frame_ask|done]. }
  assert (frame s s2) as Hf02 by (by etrans). destruct (match a with Some true => true | _ => false end); [by exists s2|].
  assert (exists st s3, (if swap_is SWAPOUT_NONE (pe s2) && negb (FWD_HDR_WAIT (pe s2)) then
              assert? negb (sio (pw s2)) in
              assert? inmem_lo (pm s2) =? 0 in
              let '(cachable, s) := storeCheckCachable cfg s2 in
              if (cachable : bool) then let? s := storeSwapOutStart cfg meta s in Some (true, s)
              else let? (_, s) := storeSwapOutMaintainMemObject cfg s in Some (false, s)
            else Some (true, s2)) = Some (st, s3) /\ inv busy obj s3 /\ frame s2 s3 /\ (st = true -> sio (pw s3) = true -> queue_offset (pw s3) = queue_offset (pw s))) as (st & s3 & -> & H3 & Hf3 & Hq3).
  { destruct (swap_is SWAPOUT_NONE (pe s2)) eqn:Esn; cbn [andb]; [|exists true, s2; split; [done|]; split; [done|]; split; [reflexivity|]; intros _ _; by rewrite Ew2, Ew].
    apply swap_is_spec in Esn. destruct (negb (FWD_HDR_WAIT (pe s2))); [|exists true, s2; split; [done|]; split; [done|]; split; [reflexivity|]; intros _ _; by rewrite Ew2, Ew].
    assert (file (pw s2) = None) as Hnf.
    { destruct (file (pw s2)) eqn:E; [|done]. pose proof (i_none _ _ _ _ _ _ _ _ H2 Esn) as Hx. rewrite E in Hx. rewrite Ee2 in Hx. specialize (Hx ltac:(done)). congruence. }
    pose proof (i_file _ _ _ _ _ _ _ _ H2) as Hx. rewrite Hnf in Hx. destruct Hx as (X1 & X2 & X3). rewrite X2. cbn [negb].
    assert (inmem_lo (pm s2) = 0) as Hlo.
    { destruct (i_low _ _ _ _ _ _ _ _ H2) as [?|[Hd|(_ & Hd & _)]]; [done| |rewrite Ee2 in Hd; congruence]. unfold on_disk, storeSwapOutObjectBytesOnDisk in Hd. rewrite X2, X1 in Hd. cbn in Hd.
      pose proof (i_lo _ _ _ _ _ _ _ _ H2). lia. }
    rewrite Hlo. cbn [Z.eqb]. destruct (storeCheckCachable cfg s2) as [b s3] eqn:Ec. destruct (check_cachable_ok cfg meta busy obj s2 b s3 H2 Ec) as (H3 & Hf3 & C1 & C2 & C3 & C4).
    destruct b.
    - destruct (C4 eq_refl) as [C5 C6]. destruct (swapout_start_inv busy obj s3 H3) as (s4 & -> & H4 & Hf4 & Hq4); [by rewrite C2|by rewrite C5, Ee2|by rewrite C5|].
      bind_simpl. exists true, s4. split; [done|]. split; [done|]. split; [by etrans|]. intros _ Hs4. by rewrite (Hq4 Hs4), C2, Ew2, Ew.
    - destruct (maintain_inv cfg meta busy obj s3 H3) as (b' & s4 & -> & H4 & Hf4 & _). bind_simpl. exists false, s4. split; [done|]. split; [done|]. split; [by etrans|done]. }
  bind_simpl. assert (frame s s3) as Hf03 by (by etrans). destruct st; cbn [negb]; [|by exists s3]. destruct (sio (pw s3)) eqn:Es3; cbn [negb]; [|by exists s3]. specialize (Hq3 eq_refl eq_refl).
  destruct (loop_inv cfg meta (S (length (pages (pm s3)))) busy obj s3 H3 Es3) as (s4 & -> & H4 & Hf4 & Hq4).
  { pose proof (i_queue _ _ _ _ _ _ _ _ H3) as [_ [?|[_ ?]]]; [done|]. rewrite Hq3, (fr_hi _ _ Hf03) in *. lia. }
  { rewrite Hq3, (fr_hi _ _ Hf03). lia. }
  { intros Epd. rewrite (frame_pending _ _ Hf03), <- Ep in Epd. rewrite Epd in Esmall. cbn [andb] in Esmall. apply Z.ltb_ge in Esmall. rewrite Hq3, (fr_hi _ _ Hf03). exact Esmall. }
  { destruct (lo_queue meta busy obj s3 H3 Es3) as [Hlq _]. pose proof (i_pages _ _ _ _ _ _ _ _ H3) as [P1 P2]. pose proof (paged_length _ P1) as Hpl. rewrite P2, length_drop in Hpl.
    pose proof (i_hi _ _ _ _ _ _ _ _ H3). pose proof (i_lo _ _ _ _ _ _ _ _ H3). lia. }
  bind_simpl. assert (frame s s4) as Hf04 by (by etrans). destruct (sio (pw s4)) eqn:Es4; cbn [negb]; [|by exists s4]. destruct (pending (pe s4)) eqn:Ep4; cbn [negb]; [by exists s4|].
  specialize (Hq4 eq_refl eq_refl). rewrite <- Hq4, Z.eqb_refl. destruct (close_any cfg meta busy obj s4 H4) as (s5 & -> & H5 & Hf5); [by right|]. exists s5. split; [done|]. split; [done|by etrans].
Qed.

(** ** One client *)

Lemma find_map (f : store_client -> store_client) id id' l :
  snd <$> find (fun p => (p.1 =? id')%nat) (map (fun p : nat * store_client => if (p.1 =? id)%nat then (p.1, f p.2) else p) l) =
  (if (id' =? id)%nat then f else fun c => c) <$> (snd <$> find (fun p => (p.1 =? id')%nat) l).
Proof.
  induction l as [|[i c] l IH]; [by destruct (id' =? id)%nat|]. cbn [map find fst snd]. destruct (Nat.eqb_spec i id) as [->|Hi]; cbn [fst snd].
  - rewrite (Nat.eqb_sym id id'). destruct (Nat.eqb_spec id' id) as [->|Hne]; [done|]. exact IH.
  - destruct (Nat.eqb_spec i id') as [->|]; [|exact IH]. by destruct (Nat.eqb_spec id' id).
Qed.

Lemma get_put id id' f s : get id' (put id f s) = (if (id' =? id)%nat then f else fun c => c) <$> get id' s.
Proof. apply find_map. Qed.

Lemma get_put_eq id f s c : get id s = Some c -> get id (put id f s) = Some (f c).
Proof. intros H. by rewrite get_put, Nat.eqb_refl, H. Qed.

Lemma get_put_ne id id' f s : id' <> id -> get id' (put id f s) = get id' s.
Proof. intros H. rewrite get_put. destruct (Nat.eqb_spec id' id); [done|]. by destruct (get id' s). Qed.

Lemma get_in id s c : get id s = Some c -> (id, c) ∈ clients s.
Proof.
  unfold get. induction (clients s) as [|[i x] l IH]; [done|]. cbn. destruct (Nat.eqb_spec i id) as [->|]; [intros [= ->]; by left|]. intros H. right. by apply IH.
Qed.

Lemma get_present id s : id ∈ (clients s).*1 -> exists c, get id s = Some c.
Proof.
  unfold get. induction (clients s) as [|[i x] l IH]; cbn; [by intros H%not_elem_of_nil|]. destruct (Nat.eqb_spec i id) as [->|Hne]; [by eexists|].
  intros [->|H]%elem_of_cons; [done|]. by apply IH.
Qed.

Lemma get_absent id s : get id s = None -> id ∉ (clients s).*1.
Proof. intros H Hin. destruct (get_present _ _ Hin) as [c Hc]. congruence. Qed.

Lemma put_ids id f l : (map (fun p : nat * store_client => if (p.1 =? id)%nat then (p.1, f p.2) else p) l).*1 = l.*1.
Proof. induction l as [|[i c] l IH]; [done|]. cbn. rewrite IH. by destruct (i =? id)%nat. Qed.

(** A client changes, and never goes back. *)
Lemma inv_put busy busy' obj s id c f : inv busy obj s -> get id s = Some c -> client_ok (pm s) (pw s) (bool_decide (busy' = Some id)) (f c) -> copy_offset c <= copy_offset (f c) ->
  (forall id', id' <> id -> bool_decide (busy' = Some id') = bool_decide (busy = Some id')) -> inv busy' obj (put id f s).
Proof.
  intros H Hg Hc Hle Hb. pose proof (get_in _ _ _ Hg) as Hin. destruct H. constructor; cbn [pm pw pe clients out put set_clients]; try assumption.
  - destruct i_low0 as [?|[?|(?&?&Hf)]]; [by left|by right; left|]. right. right. split; [done|]. split; [done|]. rewrite List.Forall_forall in *. intros p Hp.
    apply in_map_iff in Hp as ([i x] & <- & Hp). specialize (Hf _ Hp). cbn in *. destruct (Nat.eqb_spec i id) as [->|]; [|done]. cbn.
    assert (x = c) as ->; [|lia]. apply list_elem_of_In in Hp. apply list_elem_of_lookup in Hp as [k Hk]. apply list_elem_of_lookup in Hin as [k' Hk'].
    assert (k = k') as ->; [|congruence]. eapply NoDup_lookup; [exact i_ids0| |]; rewrite list_lookup_fmap; [by rewrite Hk|by rewrite Hk'].
  - by rewrite put_ids.
  - rewrite List.Forall_forall in *. intros p Hp. apply in_map_iff in Hp as ([i x] & <- & Hp). specialize (i_clients0 _ Hp). cbn [fst snd] in *. destruct (Nat.eqb_spec i id) as [->|Hne]; cbn [fst snd].
    + assert (x = c) as ->; [|done]. apply list_elem_of_In in Hp. apply list_elem_of_lookup in Hp as [k Hk]. apply list_elem_of_lookup in Hin as [k' Hk'].
      assert (k = k') as ->; [|congruence]. eapply NoDup_lookup; [exact i_ids0| |]; rewrite list_lookup_fmap; [by rewrite Hk|by rewrite Hk'].
    + rewrite Hb by done. done.
Qed.

Lemma inv_client busy obj s id c : inv busy obj s -> get id s = Some c -> client_ok (pm s) (pw s) (bool_decide (busy = Some id)) c.
Proof.
  intros H Hg. pose proof (i_clients _ _ _ _ _ _ _ _ H) as Hc. rewrite List.Forall_forall in Hc. exact (Hc (id, c) (proj1 (list_elem_of_In _ _) (get_in _ _ _ Hg))).
Qed.

Lemma inv_log busy obj s d : inv busy obj s -> delivered obj (pe s) d -> inv busy obj (log d s).
Proof. intros [] Hd. constructor; cbn [pm pw pe clients out log]; try assumption. by apply List.Forall_cons. Qed.

(** The client that was served has left. *)
Lemma inv_left busy obj s id : inv (Some id) obj s -> get id s = None -> busy = None \/ busy = Some id -> inv busy obj s.
Proof.
  intros H Hg Hb. pose proof (get_absent _ _ Hg) as Ha. destruct H. constructor; try assumption. rewrite List.Forall_forall in *. intros p Hp. specialize (i_clients0 p Hp).
  assert (p.1 <> id) as Hne by (intros <-; apply Ha; apply list_elem_of_fmap; exists p; split; [done|by apply list_elem_of_In]).
  rewrite bool_decide_false in i_clients0 by congruence. rewrite bool_decide_false; [done|]. destruct Hb as [->| ->]; congruence.
Qed.

Lemma inv_filter busy obj s id : inv busy obj s -> inv busy obj (set_clients (filter (fun p => p.1 <> id) (clients s)) s).
Proof.
  intros []. constructor; cbn [pm pw pe clients out set_clients]; try assumption.
  - destruct i_low0 as [?|[?|(?&?&Hf)]]; [by left|by right; left|]. right. right. split; [done|]. split; [done|]. rewrite List.Forall_forall in *. intros p Hp. apply Hf.
    apply list_elem_of_In in Hp. apply list_elem_of_filter in Hp as [_ Hp]. by apply list_elem_of_In.
  - eapply sublist_NoDup; [exact i_ids0|]. apply fmap_sublist, sublist_filter.
  - rewrite List.Forall_forall in *. intros p Hp. apply i_clients0. apply list_elem_of_In in Hp. apply list_elem_of_filter in Hp as [_ Hp]. by apply list_elem_of_In.
Qed.

Lemma get_filter id id' s : get id' (set_clients (filter (fun p => p.1 <> id) (clients s)) s) = if decide (id' = id) then None else get id' s.
Proof.
  unfold get. cbn [clients set_clients]. induction (clients s) as [|[i c] l IH]; [by destruct (decide _)|]. rewrite filter_cons. cbn [fst]. destruct (decide (i <> id)) as [Hi|Hi].
  - cbn [find fst]. destruct (Nat.eqb_spec i id') as [->|]; [by rewrite decide_False|]. exact IH.
  - apply dec_stable in Hi. subst i. rewrite IH. destruct (decide (id' = id)) as [->|Hne]; [done|]. cbn. by destruct (Nat.eqb_spec id id').
Qed.

Lemma frame_get s s' id : frame s s' -> get id s' = get id s.
Proof. intros Hf. unfold get. by rewrite (fr_clients _ _ Hf). Qed.

End run.
End StorePumpRun.
