(* ===== verification/StorePumpClient.v ===== *)
(** * Clients of an object that is being fetched

    The operations of src/store_client.c succeed for every client, keep the
    invariant and leave the other clients alone, whatever the client does
    when it is called. *)

From Stdlib Require Import ZArith Lia.
From stdpp Require Import base list numbers option.
From S2P Require Import Prelude CStr Stmem StoreEntry StorePump StorePumpInv StorePumpRun.
Import StoreEntry StorePump StorePumpInv StorePumpRun.

Module StorePumpClient.

Section clients.
Context (cfg : config) (meta : bytes).
Hypothesis meta_nonempty : meta <> [].

#[local] Abbreviation inv := (inv meta).

#[local] Existing Instance frame_preorder.

(** What an operation for one client leaves alone. *)
Record step (id : nat) (s s' : pump) : Prop := {
  st_others : forall id', id' <> id -> get id' s' = get id' s;
  st_gone : get id s = None -> get id s' = None;
  st_wait : FWD_HDR_WAIT (pe s') = FWD_HDR_WAIT (pe s);
  st_pending : clients s' = [] /\ ABORTED (pe s') = true /\ pending (pe s') = false \/ pending (pe s') = pending (pe s);
  st_aborted : ABORTED (pe s) = true -> ABORTED (pe s') = true;
  st_hi : inmem_hi (pm s') = inmem_hi (pm s);
  st_release : RELEASE_REQUEST (pe s) = true -> RELEASE_REQUEST (pe s') = true
}.

Lemma no_clients s : clients s = [] <-> forall id, get id s = None.
Proof.
  split; [intros E id; unfold get; by rewrite E|]. intros H. destruct (clients s) as [|[i c] l] eqn:E; [done|]. specialize (H i). unfold get in H. rewrite E in H. cbn in H. by rewrite Nat.eqb_refl in H.
Qed.

Lemma step_empty id s s' : step id s s' -> clients s = [] -> clients s' = [].
Proof.
  intros [] E. rewrite no_clients in E |- *. intros id'. destruct (Nat.eq_dec id' id) as [->|Hid]; [auto|]. by rewrite st_others0.
Qed.

#[local] Instance step_preorder id : PreOrder (step id).
Proof.
  split; [intros s; constructor; auto|]. intros s1 s2 s3 H12 H23. pose proof (step_empty _ _ _ H23) as Hemp. destruct H12, H23. constructor; [|auto|congruence| |auto|congruence|auto].
  - intros id' Hid. by rewrite st_others1, st_others0.
  - destruct st_pending1 as [|E3]; [by left|]. destruct st_pending0 as [(E1 & E2 & E4)|E2]; [left; rewrite E3; auto|right; congruence].
Qed.

Lemma frame_step id s s' : frame s s' -> step id s s'.
Proof.
  intros Hf. constructor; [|by rewrite (frame_get s s')|apply Hf|right; by apply frame_pending|by rewrite (fr_aborted _ _ Hf)|apply Hf..]. intros id' _. by apply frame_get.
Qed.

Lemma put_step id f s : step id s (put id f s).
Proof. constructor; [|by rewrite get_put; intros ->|auto..]. intros id' Hid. by apply get_put_ne. Qed.

Lemma log_step id d s : step id s (log d s).
Proof. constructor; auto. Qed.

Lemma filter_step id s : step id s (set_clients (filter (fun p => p.1 <> id) (clients s)) s).
Proof. constructor; [| |auto..]; [intros id' Hid; rewrite get_filter; by rewrite decide_False|]. rewrite get_filter. by rewrite decide_True. Qed.

(** A client that still waits waits for something: for the file system, for
    its event, for the header, or for bytes that are not there. *)
Definition calm (id : nat) (s : pump) : Prop :=
  forall c, get id s = Some c -> new_callback c = true ->
    disk_io_pending c = true \/ copy_event_pending c = true \/ FWD_HDR_WAIT (pe s) = true \/ pending (pe s) = true /\ inmem_hi (pm s) <= seen_offset c.

Lemma calm_step id id' s s' : step id s s' -> id' <> id -> calm id' s -> calm id' s'.
Proof.
  intros [] Hid Hc c Hg Hn. rewrite st_others0 in Hg by done. destruct st_pending0 as [[E _]|E]; [rewrite no_clients in E; rewrite <- st_others0, E in Hg; done|].
  rewrite st_wait0, E, st_hi0. by apply Hc.
Qed.

Lemma calm_frame id s s' : frame s s' -> calm id s -> calm id s'.
Proof. intros Hf Hc c. rewrite (frame_get s s' id Hf), (fr_wait _ _ Hf), (frame_pending _ _ Hf), (fr_hi _ _ Hf). apply Hc. Qed.

Lemma calm_gone id s : get id s = None -> calm id s.
Proof. intros E c. by rewrite E. Qed.

(** ** Leaving *)

(** The object is incomplete for good. *)
Lemma abort_inv busy obj s : inv busy obj s -> pending (pe s) = true ->
  exists s', abort_mark s = Some s' /\ inv busy obj s' /\ clients s' = clients s /\ inmem_hi (pm s') = inmem_hi (pm s) /\ RELEASE_REQUEST (pe s') = true /\ pending (pe s') = false /\ FWD_HDR_WAIT (pe s') = FWD_HDR_WAIT (pe s) /\ ABORTED (pe s') = true.
Proof.
  intros H Hp. unfold abort_mark. rewrite Hp. destruct (release_request_entry (pe s) (i_release _ _ _ _ _ _ _ _ H)) as (R1 & R2 & R3 & R4 & R5 & R6 & R7).
  set (e1 := storeReleaseRequest (pe s)) in *. eexists. split; [done|]. split; [|cbn; rewrite R1; unfold e1, storeReleaseRequest; by destruct (RELEASE_REQUEST (pe s))].
  destruct H. rewrite Hp in *. constructor; cbn [pm pw pe clients out set_entry pending set_status set_flags store_status swap_status object_sz SPECIAL RELEASE_REQUEST ABORTED CACHABLE orb]; rewrite ?R1, ?R4, ?R6; try assumption; try done.
  - destruct i_queue0 as [Q1 [Q2|[Q2 _]]]; [|done]. auto.
  - by left.
  - destruct i_low0 as [?|[?|(?&?&?)]]; auto 6.
  - eapply List.Forall_impl; [|exact i_out0]. intros d. unfold delivered. destruct (what d); try done. intros [[Hx _]|?]; [congruence|by right].
Qed.

Lemma quick_abort_inv busy obj s id : inv busy obj s -> exists s', CheckQuickAbort cfg s = Some s' /\ inv busy obj s' /\ step id s s' /\ clients s' = clients s.
Proof.
  intros H. assert (exists s', Some s = Some s' /\ inv busy obj s' /\ step id s s' /\ clients s' = clients s) as Hsame by (exists s; split; [done|]; split; [done|]; by split).
  unfold CheckQuickAbort. destruct (Nat.ltb_spec 0 (length (clients s))) as [|Hl]; [done|]. assert (clients s = []) as Hnil by (destruct (clients s); [done|cbn in Hl; lia]). destruct (pending (pe s)) eqn:Ep; cbn [negb]; [|done]. destruct (SPECIAL (pe s)); [done|]. destruct (CheckQuickAbort2 cfg s); [|done].
  destruct (abort_inv busy obj s H Ep) as (s1 & -> & H1 & Ec & Eh & Er & Epd & Ehw & Eab). bind_simpl. destruct (close_any cfg meta busy obj s1 H1) as (s2 & -> & H2 & Hf2); [by left|].
  exists s2. split; [done|]. split; [done|]. split; [|by rewrite (fr_clients _ _ Hf2)]. etrans; [|by apply frame_step]. constructor; [| |done|left; by rewrite Ec|done|done|done]; [intros id' _|]; unfold get; by rewrite Ec.
Qed.

(** The end of reading from disk, for a client that leaves. *)
Lemma close_swapin_inv busy obj s id c : inv busy obj s -> (swapin_sio c = true -> sc_type c = STORE_DISK_CLIENT) ->
  exists w s', close_swapin id c s = (w, s') /\ inv busy obj s' /\ step id s s' /\ clients s' = clients s.
Proof.
  intros H Ht. unfold close_swapin. destruct (swapin_sio c); [|by exists (new_callback c), s]. specialize (Ht eq_refl). destruct (ask s) as [a s1] eqn:Ea.
  destruct (inv_ask meta _ obj s a s1 Ea H) as (H1 & _ & _ & _ & Ec & _). pose proof (frame_step id s s1 (frame_ask _ _ _ Ea)) as Hs1. destruct a as [err|]; [|by exists (new_callback c), s1].
  set (s2 := if err then set_entry _ s1 else s1). assert (inv busy obj s2 /\ step id s1 s2 /\ clients s2 = clients s1) as (H2 & Hs2 & Ec2).
  { unfold s2. destruct err; [|by split]. split; [by apply inv_release|]. split; [|done]. destruct (release_request_entry (pe s1) (i_release _ _ _ _ _ _ _ _ H1)) as (R1 & _ & R3 & _ & _ & _ & R7).
    constructor; cbn [pe pm clients set_entry]; try done; [unfold storeReleaseRequest; by destruct (RELEASE_REQUEST (pe s1))|right; unfold pending; by rewrite R3|by rewrite R7]. }
  exists false. destruct (new_callback c); [|exists s2; split; [done|]; split; [done|]; split; [by etrans|congruence]]. eexists. split; [done|].
  split; [apply inv_log; [done|]; destruct err; cbn; [done|by right]|]. split; [|cbn; congruence]. etrans; [exact Hs1|]. etrans; [exact Hs2|apply log_step].
Qed.

Lemma unregister_inv busy obj s id c : inv busy obj s -> get id s = Some c ->
  exists s', storeClientUnregister cfg meta id s = Some s' /\ inv busy obj s' /\ step id s s' /\ get id s' = None.
Proof.
  intros H Hg. unfold storeClientUnregister. destruct (clients s) as [|p l] eqn:Ecl; [by unfold get in Hg; rewrite Ecl in Hg|]. rewrite <- Ecl. clear p l Ecl. rewrite Hg. bind_simpl.
  pose proof (inv_filter meta busy obj s id H) as H1. pose proof (filter_step id s) as Hs1. pose proof (get_filter id id s) as Hg1. rewrite decide_True in Hg1 by done. set (s1 := set_clients _ s) in *.
  assert (exists s2, (if negb (pending (pe s1)) && negb (swap_is SWAPOUT_DONE (pe s1)) then storeSwapOut cfg meta s1 else Some s1) = Some s2 /\ inv busy obj s2 /\ frame s1 s2) as (s2 & -> & H2 & Hf2).
  { destruct (_ && _); [by apply swapout_inv|]. by exists s1. }
  bind_simpl. destruct (close_swapin_inv busy obj s2 id c H2) as (w & s2' & -> & H2' & Hs2' & Ec2').
  { intros E. by apply (co_swapin _ _ _ _ (inv_client meta busy obj s id c H Hg)). }
  set (s3 := if w then _ else s2'). assert (inv busy obj s3 /\ step id s2' s3 /\ clients s3 = clients s2') as (H3 & Hs3 & Ec3).
  { unfold s3. destruct w; [|by split]. split; [by apply inv_log|]. by split; [apply log_step|]. }
  destruct (maintain_inv cfg meta busy obj s3 H3) as (a & s4 & -> & H4 & Hf4 & _). bind_simpl. destruct (quick_abort_inv busy obj s4 id H4) as (s5 & -> & H5 & Hs5 & Ec5).
  exists s5. split; [done|]. split; [done|]. split.
  - etrans; [exact Hs1|]. etrans; [by apply frame_step|]. etrans; [exact Hs2'|]. etrans; [exact Hs3|]. etrans; [by apply frame_step|done].
  - unfold get in *. by rewrite Ec5, (fr_clients _ _ Hf4), Ec3, Ec2', (fr_clients _ _ Hf2).
Qed.

(** ** Asking *)

Lemma ref_inv busy obj s id c off seen size : inv busy obj s -> get id s = Some c -> new_callback c = false -> copy_offset c <= off <= seen -> 0 < size ->
  exists s', ref_fields cfg meta id off seen size s = Some s' /\ inv busy obj s' /\ step id s s' /\ get id s' = Some (set_request off seen size c).
Proof.
  intros H Hg Hn Ho Hsz. unfold ref_fields. rewrite Hg. bind_simpl. rewrite Hn. cbn [negb]. pose proof (inv_client meta busy obj s id c H Hg) as Hc.
  assert (inv busy obj (put id (set_request off seen size) s)) as H1.
  { eapply inv_put; [exact H|exact Hg| |cbn; lia|done]. destruct Hc. constructor; cbn; try assumption; [lia|lia|intros E; specialize (co_mem0 E); lia|].
    intros E. destruct (co_io0 E). congruence. }
  pose proof (get_put_eq id (set_request off seen size) s c Hg) as Hg1. pose proof (put_step id (set_request off seen size) s) as Hs1. set (s1 := put _ _ s) in *. destruct (DEFER_READ (pe s1)).
  - destruct (swapout_inv cfg meta busy obj s1 H1) as (s2 & -> & H2 & Hf2). exists s2. split; [done|]. split; [done|]. split; [etrans; [exact Hs1|by apply frame_step]|]. by rewrite (frame_get s1 s2).
  - by exists s1.
Qed.

(** ** Being called *)

(** [copy2] serves a client that asked. *)
Definition serves (busy : option nat) (obj : bytes) (id : nat) (copy2 : nat -> pump -> option pump) : Prop :=
  forall s c, inv busy obj s -> get id s = Some c -> new_callback c = true -> disk_io_pending c = false ->
    exists s', copy2 id s = Some s' /\ inv busy obj s' /\ step id s s' /\ calm id s'.

Lemma callback_inv busy obj copy2 s id c o : get id s = Some c -> new_callback c = true -> disk_io_pending c = false -> inv busy obj (put id clear_callback s) ->
  delivered obj (pe s) (mkDel id (sc_type c) (copy_offset c) false (match o with Data d => Data (take (Z.to_nat (copy_size c)) d) | o => o end)) -> serves busy obj id copy2 ->
  exists s', callback cfg meta copy2 id o s = Some s' /\ inv busy obj s' /\ step id s s' /\ calm id s'.
Proof.
  intros Hg Hn Hio H1 Hd Hserve. unfold callback. rewrite Hg. bind_simpl. rewrite Hn. set (d := mkDel _ _ _ _ _) in *. pose proof (inv_log meta busy obj _ d H1 Hd) as H2.
  assert (get id (log d (put id clear_callback s)) = Some (clear_callback c)) as Hg2 by (by apply (get_put_eq id clear_callback)).
  assert (step id s (log d (put id clear_callback s))) as Hs2 by (etrans; [apply put_step|apply log_step]). set (s2 := log d _) in *. destruct (default Wait (head (script c))) as [|skip seen size|]; cbn [react].
  - exists s2. split; [done|]. split; [done|]. split; [done|]. intros c'. rewrite Hg2. by intros [= <-].
  - rewrite Hg2. bind_simpl. pose proof (inv_client meta busy obj s2 id _ H2 Hg2) as Hc.
    destruct (ref_inv busy obj s2 id _ (copy_offset (clear_callback c) + Z.of_N skip) (copy_offset (clear_callback c) + Z.of_N skip + Z.of_N seen) (Z.pos size) H2 Hg2) as (s3 & -> & H3 & Hs3 & Hg3); [done|lia|lia|].
    bind_simpl. destruct (Hserve s3 _ H3 Hg3) as (s4 & -> & H4 & Hs4 & Hc4); [done|done|]. exists s4. split; [done|]. split; [done|]. split; [|done]. etrans; [exact Hs2|]. by etrans.
  - destruct (unregister_inv busy obj s2 id _ H2 Hg2) as (s3 & -> & H3 & Hs3 & Hg3). exists s3. split; [done|]. split; [done|]. split; [by etrans|by apply calm_gone].
Qed.

Lemma copy_later_serves obj id : serves (Some id) obj id copy_later.
Proof.
  intros s c H Hg Hn Hio. unfold copy_later. rewrite Hg. bind_simpl.
  destruct (copy_event_pending c) eqn:Ee; [exists s; split; [done|]; split; [done|]; split; [reflexivity|]; intros c'; rewrite Hg; intros [= <-]; auto|].
  destruct (FWD_HDR_WAIT (pe s)) eqn:Ew; [exists s; split; [done|]; split; [done|]; split; [reflexivity|]; intros c' _ _; auto|]. pose proof (inv_client meta (Some id) obj s id c H Hg) as Hc.
  assert (store_copying c = true) as -> by (rewrite (co_copying _ _ _ _ Hc); by rewrite bool_decide_true). eexists. split; [done|]. split; [|split; [apply put_step|]].
  - eapply inv_put; [exact H|exact Hg| |cbn; lia|done]. destruct Hc. constructor; cbn; try assumption. congruence.
  - intros c'. rewrite (get_put_eq id (set_event true) s c Hg). intros [= <-] _. auto.
Qed.

Lemma clear_inv_client busy obj s id c : inv busy obj s -> get id s = Some c -> disk_io_pending c = false -> inv busy obj (put id clear_callback s).
Proof.
  intros H Hg Hio. pose proof (inv_client meta busy obj s id c H Hg) as Hc. eapply inv_put; [exact H|exact Hg| |cbn; lia|done]. destruct Hc. constructor; cbn; try assumption; try done. congruence.
Qed.

(** ** Being served *)

(** A client that reads from disk has its file. *)
Lemma swapin_inv busy obj s id c : inv busy obj s -> get id s = Some c -> sc_type c = STORE_DISK_CLIENT -> swap_is SWAPOUT_NONE (pe s) = false ->
  inv busy obj (put id set_swapin s) /\ get id (put id set_swapin s) = Some (set_swapin c).
Proof.
  intros H Hg Ht Hst. split; [|by apply get_put_eq]. pose proof (inv_client meta busy obj s id c H Hg) as Hc. eapply inv_put; [exact H|exact Hg| |cbn; lia|done].
  destruct Hc. constructor; cbn; try assumption. intros _. split; [done|]. intros Hf. pose proof (i_file _ _ _ _ _ _ _ _ H) as Hx. rewrite Hf in Hx. destruct Hx as (_ & _ & Hx).
  apply (swap_is_spec SWAPOUT_NONE) in Hx. congruence.
Qed.

(** What is in memory no longer is on disk. *)
Lemma file_read_inv busy obj s id c : inv busy obj s -> get id s = Some c -> new_callback c = true -> disk_io_pending c = false -> copy_event_pending c = false ->
  sc_type c = STORE_DISK_CLIENT -> swapin_sio c = true -> copy_offset c < inmem_lo (pm s) ->
  exists s', storeClientFileRead id s = Some s' /\ inv busy obj s' /\ step id s s' /\ calm id s'.
Proof.
  intros H Hg Hn Hio Hev Ht Hsw Hlo. unfold storeClientFileRead. rewrite Hg. bind_simpl. pose proof (inv_client meta busy obj s id c H Hg) as Hc. rewrite Hn, Hio, (co_node _ _ _ _ Hc Hio). cbn [negb andb].
  destruct (co_swapin _ _ _ _ Hc Hsw) as [_ Hf]. destruct (on_disk_some meta busy obj s H) as [Ed Hdq]. pose proof (co_off _ _ _ _ Hc) as Hoff.
  assert (copy_offset c < on_disk (pw s)) as Hd.
  { destruct (i_low _ _ _ _ _ _ _ _ H) as [E|[E|(_ & _ & E)]]; [lia|lia|]. rewrite List.Forall_forall in E. specialize (E (id, c) (proj1 (list_elem_of_In _ _) (get_in _ _ _ Hg))). cbn in E. lia. }
  assert (swap_hdr_sz (pw s) =? 0 = false) as ->.
  { pose proof (i_file _ _ _ _ _ _ _ _ H) as Hx. destruct (file (pw s)); [|done]. destruct Hx as (_ & _ & ->). apply Z.eqb_neq. destruct meta; [done|]. cbn. lia. }
  cbn [negb]. rewrite Ed. bind_simpl. rewrite (proj2 (Z.ltb_lt _ _) Hd). destruct (swap_is SWAPOUT_WRITING (pe s)); bind_simpl; (eexists; split; [done|]; split; [|split; [apply put_step|intros c'; rewrite (get_put_eq id (set_io true) s c Hg); intros [= <-] _; by left]]);
    (eapply inv_put; [exact H|exact Hg| |cbn; lia|done]); destruct Hc; constructor; cbn; try assumption; try done; intros _; repeat split; try assumption; lia.
Qed.

Lemma memory_data obj m c : inmem_hi m = Z.of_nat (length obj) -> 0 <= inmem_lo m -> paged (pages m) /\ concat (pages m) = drop (Z.to_nat (inmem_lo m)) obj ->
  inmem_lo m <= copy_offset c < inmem_hi m -> 0 < copy_size c ->
  exists d, page_ref (pages m) (inmem_lo m) (copy_offset c) = Some d /\
    forall id t e, delivered obj e (mkDel id t (copy_offset c) false (Data (take (Z.to_nat (copy_size c)) d))).
Proof.
  intros Hh Hl [_ Hp] Hr Hs. destruct (page_ref_ok (pages m) (inmem_lo m) (copy_offset c)) as (d & E & Hne & Hd); [rewrite Hp, length_drop; lia|]. exists d. split; [done|]. intros id t e.
  unfold delivered. cbn [what at_offset]. split; [destruct d; [done|]; destruct (Z.to_nat (copy_size c)) eqn:E2; [lia|done]|]. split; [lia|].
  rewrite Hp, drop_drop in Hd. replace (Z.to_nat (inmem_lo m) + Z.to_nat (copy_offset c - inmem_lo m))%nat with (Z.to_nat (copy_offset c)) in Hd by lia.
  rewrite length_take. rewrite Hd at 1. by rewrite take_take.
Qed.

Lemma copy3_inv obj s id c : inv (Some id) obj s -> get id s = Some c -> new_callback c = true -> disk_io_pending c = false -> copy_event_pending c = false ->
  exists s', storeClientCopy3 cfg meta id s = Some s' /\ inv (Some id) obj s' /\ step id s s' /\ calm id s'.
Proof.
  intros H Hg Hn Hio Hev. unfold storeClientCopy3. rewrite Hg. bind_simpl. pose proof (inv_client meta _ obj s id c H Hg) as Hc. pose proof (co_off _ _ _ _ Hc) as Hoff.
  pose proof (i_hi _ _ _ _ _ _ _ _ H) as Hhi. destruct (storeClientNoMoreToSend c s) eqn:Eno.
  { unfold storeClientNoMoreToSend in Eno. apply andb_true_iff in Eno as [[E1 E2]%andb_true_iff E3]. apply negb_true_iff in E1. apply Z.leb_le in E3. rewrite (i_size _ _ _ _ _ _ _ _ H E1), Hhi in E3.
    apply (callback_inv (Some id) obj copy_later s id c Eof Hg Hn Hio); [by eapply clear_inv_client|by left|apply copy_later_serves]. }
  destruct (pending (pe s) && (inmem_hi (pm s) <=? seen_offset c)) eqn:Ewait.
  { apply andb_true_iff in Ewait as [W1 W2]. apply Z.leb_le in W2. assert (calm id s) as Hcalm by (intros c'; rewrite Hg; intros [= <-] _; auto). destruct (DEFER_READ (pe s) && _); [|by exists s].
    destruct (resume_inv meta _ obj s H) as [R1 R2]. eexists. split; [done|]. split; [done|]. split; [by apply frame_step|by apply (calm_frame id s)]. }
  assert (copy_offset c < inmem_hi (pm s)) as Hlt.
  { unfold storeClientNoMoreToSend in Eno. destruct (pending (pe s)) eqn:Ep; cbn [negb andb] in *; [apply Z.leb_gt in Ewait; lia|].
    rewrite (i_size _ _ _ _ _ _ _ _ H Ep) in Eno. destruct (Z.leb_spec 0 (inmem_hi (pm s))); [|lia]. cbn [andb] in Eno. apply Z.leb_gt in Eno. lia. }
  match goal with |- context [let '(go, s) := ?x in _] => assert (exists go s1 c1, x = (Some go, s1) /\ inv (Some id) obj s1 /\ step id s s1 /\ get id s1 = Some c1 /\ pm s1 = pm s /\
    (c1 = c \/ c1 = set_swapin c) /\ (go = false -> sc_type c = STORE_DISK_CLIENT) /\ (go = true -> sc_type c = STORE_DISK_CLIENT -> swapin_sio c1 = true)) as (go & s1 & c1 & -> & H1 & Hs1 & Hg1 & Em1 & Hc1 & Hgo1 & Hgo2) end.
  { destruct (is_disk c && negb (swapin_sio c)) eqn:Edisk.
    2: { exists true, s, c. split; [done|]. split; [done|]. split; [reflexivity|]. split; [done|]. split; [done|]. split; [by left|]. split; [done|]. intros _ Ht. unfold is_disk in Edisk. rewrite Ht in Edisk. by destruct (swapin_sio c). }
    apply andb_true_iff in Edisk as [Ed Esw]. assert (sc_type c = STORE_DISK_CLIENT) as Ht by (unfold is_disk in Ed; by destruct (sc_type c)).
    destruct (ask s) as [a s1] eqn:Ea. destruct (inv_ask meta _ obj s a s1 Ea H) as (H1 & Em & Ew & Ee & Ec & Eo). pose proof (frame_ask _ _ _ Ea) as Hf1. pose proof (frame_get s s1 id Hf1) as Hg1. rewrite Hg in Hg1.
    assert (exists go s2 c2, (Some false, s1) = (Some go, s2) /\ inv (Some id) obj s2 /\ step id s s2 /\ get id s2 = Some c2 /\ pm s2 = pm s /\
      (c2 = c \/ c2 = set_swapin c) /\ (go = false -> sc_type c = STORE_DISK_CLIENT) /\ (go = true -> sc_type c = STORE_DISK_CLIENT -> swapin_sio c2 = true)) as Hfail.
    { exists false, s1, c. split; [done|]. split; [done|]. split; [by apply frame_step|]. split; [done|]. split; [done|]. split; [by left|done]. }
    destruct (match a with Some true => true | _ => false end); [done|]. rewrite Hio. cbn [negb]. unfold storeSwapInStart. destruct (swap_is SWAPOUT_NONE (pe s1)) eqn:Esn; [done|].
    destruct (ask s1) as [b s2] eqn:Eb. destruct (inv_ask meta _ obj s1 b s2 Eb H1) as (H2 & Em2 & Ew2 & Ee2 & Ec2 & Eo2). pose proof (frame_ask _ _ _ Eb) as Hf2. pose proof (frame_get s1 s2 id Hf2) as Hg2. rewrite Hg1 in Hg2.
    assert (step id s s2) as Hs2 by (apply frame_step; by etrans). destruct b as [b|].
    - destruct (swapin_inv _ obj s2 id c H2 Hg2 Ht) as [H3 Hg3]; [by rewrite Ee2|]. exists true, (put id set_swapin s2), (set_swapin c). split; [done|]. split; [done|].
      split; [etrans; [exact Hs2|apply put_step]|]. split; [done|]. split; [cbn; congruence|]. split; [by right|done].
    - exists false, s2, c. split; [done|]. split; [done|]. split; [done|]. split; [done|]. split; [congruence|]. split; [by left|done]. }
  assert (new_callback c1 = true /\ disk_io_pending c1 = false /\ copy_event_pending c1 = false /\ copy_offset c1 = copy_offset c /\ sc_type c1 = sc_type c) as (Hn1 & Hio1 & Hev1 & Ho1 & Ht1) by (by destruct Hc1 as [->| ->]).
  destruct go.
  - rewrite Em1. destruct (Z.leb_spec (inmem_lo (pm s)) (copy_offset c)) as [Hlo|Hlo]; cbn [andb].
    + rewrite (proj2 (Z.ltb_lt _ _) Hlt), Hn, (co_node _ _ _ _ Hc Hio). cbn [negb].
      pose proof (inv_client meta _ obj s1 id c1 H1 Hg1) as Hcc. destruct (memory_data obj (pm s1) c1) as (d & E & Hd).
      { apply (i_hi _ _ _ _ _ _ _ _ H1). } { apply (i_lo _ _ _ _ _ _ _ _ H1). } { apply (i_pages _ _ _ _ _ _ _ _ H1). } { rewrite Em1, Ho1. lia. } { by apply (co_size _ _ _ _ Hcc). }
      rewrite Em1, Ho1 in E. rewrite E. bind_simpl.
      assert (exists s2, (if RELEASE_REQUEST (pe s1) then let? (_, s) := storeSwapOutMaintainMemObject cfg s1 in Some s else Some s1) = Some s2 /\ inv (Some id) obj s2 /\ frame s1 s2) as (s2 & -> & H2 & Hf2).
      { destruct (RELEASE_REQUEST (pe s1)); [|by exists s1]. destruct (maintain_inv cfg meta _ obj s1 H1) as (a & s2 & -> & H2 & Hf2 & _). by exists s2. }
      bind_simpl. pose proof (frame_get s1 s2 id Hf2) as Hg2. rewrite Hg1 in Hg2.
      destruct (callback_inv (Some id) obj copy_later s2 id c1 (Data d) Hg2 Hn1 Hio1) as (s3 & E3 & H3 & Hs3 & Hcalm); [by eapply clear_inv_client|apply Hd|apply copy_later_serves|].
      exists s3. split; [exact E3|]. split; [done|]. split; [|done]. etrans; [exact Hs1|]. etrans; [by apply frame_step|done].
    + assert (sc_type c = STORE_DISK_CLIENT) as Ht by (destruct (sc_type c) eqn:E; [|done]; pose proof (co_mem _ _ _ _ Hc E); lia).
      unfold is_disk. rewrite Ht, Hio. cbn [negb andb]. destruct (file_read_inv _ obj s1 id c1 H1 Hg1 Hn1 Hio1 Hev1) as (s2 & -> & H2 & Hs2 & Hcalm); [by rewrite Ht1|by apply Hgo2|rewrite Ho1, Em1; lia|].
      exists s2. split; [done|]. split; [done|]. split; [by etrans|done].
  - destruct (callback_inv (Some id) obj copy_later s1 id c1 Failed Hg1 Hn1 Hio1) as (s2 & E2 & H2 & Hs2 & Hcalm); [by eapply clear_inv_client|cbn; rewrite Ht1; by apply Hgo1|apply copy_later_serves|].
    exists s2. split; [exact E2|]. split; [done|]. split; [by etrans|done].
Qed.

Lemma put_absent id f s : get id s = None -> put id f s = s.
Proof.
  intros Hg. pose proof (get_absent _ _ Hg) as Ha. unfold put, set_clients. destruct s as [m w e cl an o]. cbn in *. f_equal. clear Hg. induction cl as [|[i c] cl IH]; [done|]. cbn in *.
  rewrite not_elem_of_cons in Ha. destruct Ha as [Hi Ha]. destruct (Nat.eqb_spec i id) as [->|]; [done|]. f_equal. by apply IH.
Qed.

Lemma copy2_serves obj id : serves None obj id (storeClientCopy2 cfg meta).
Proof.
  intros s c H Hg Hn Hio. unfold storeClientCopy2. rewrite Hg. bind_simpl. 
  destruct (copy_event_pending c) eqn:Eev; [exists s; split; [done|]; split; [done|]; split; [reflexivity|]; intros c'; rewrite Hg; intros [= <-]; auto|].
  destruct (FWD_HDR_WAIT (pe s)) eqn:Ew; [exists s; split; [done|]; split; [done|]; split; [reflexivity|]; intros c' _ _; auto|].
  pose proof (inv_client meta None obj s id c H Hg) as Hc. rewrite (co_copying _ _ _ _ Hc). rewrite bool_decide_false by done. rewrite Hn.
  assert (inv (Some id) obj (put id (set_copying true) s)) as H1.
  { eapply inv_put; [exact H|exact Hg| |cbn; lia|]; [|intros id' Hid; rewrite !bool_decide_false by congruence; done]. rewrite bool_decide_true by done. destruct Hc. by constructor. }
  destruct (copy3_inv obj _ id _ H1 (get_put_eq id (set_copying true) s c Hg)) as (s2 & -> & H2 & Hs2 & Hcalm); [done|done|done|]. bind_simpl. eexists. split; [done|].
  assert (step id s s2) as Hs by (etrans; [apply put_step|exact Hs2]). split; [|split; [etrans; [exact Hs|apply put_step]|]].
  2: { intros c'. rewrite get_put, Nat.eqb_refl. destruct (get id s2) as [c2|] eqn:Hg2; [|done]. cbn. intros [= <-]. exact (Hcalm c2 Hg2). }
  destruct (get id s2) as [c2|] eqn:Hg2.
  - pose proof (inv_client meta _ obj s2 id c2 H2 Hg2) as Hc2. eapply inv_put; [exact H2|exact Hg2| |cbn; lia|]; [|intros id' Hid; rewrite !bool_decide_false by congruence; done].
    rewrite bool_decide_false by done. destruct Hc2. by constructor.
  - rewrite put_absent by done. eapply inv_left; eauto.
Qed.

(** ** Serving all *)

(** What holds after any number of clients were served. *)
Record mono (s s' : pump) : Prop := {
  mo_hi : inmem_hi (pm s') = inmem_hi (pm s);
  mo_release : RELEASE_REQUEST (pe s) = true -> RELEASE_REQUEST (pe s') = true;
  mo_aborted : ABORTED (pe s) = true -> ABORTED (pe s') = true;
  mo_pending : clients s' = [] /\ ABORTED (pe s') = true /\ pending (pe s') = false \/ pending (pe s') = pending (pe s);
  mo_empty : clients s = [] -> clients s' = []
}.

#[local] Instance mono_preorder : PreOrder mono.
Proof. split; [intros s; constructor; auto|]. intros s1 s2 s3 [] []. constructor; auto; [congruence|]. destruct mo_pending1 as [|E]; [by left|]. destruct mo_pending0 as [(?&?&?)|]; [left; rewrite E; auto|right; congruence]. Qed.

Lemma mono_done s s' : mono s s' -> pending (pe s) = false -> pending (pe s') = false.
Proof. intros [] E. destruct mo_pending0 as [(_ & _ & ?)|]; congruence. Qed.

Lemma step_mono id s s' : step id s s' -> mono s s'.
Proof. intros H. pose proof (step_empty _ _ _ H). destruct H. by constructor. Qed.

Lemma frame_mono s s' : frame s s' -> mono s s'.
Proof. intros H. by apply (step_mono 0), frame_step. Qed.

Lemma invoke_inv obj ids : forall s, inv None obj s -> NoDup ids -> (forall id, id ∈ ids -> get id s <> None) ->
  exists s', invoke cfg meta ids s = Some s' /\ inv None obj s' /\ mono s s' /\ (forall id, id ∈ ids -> calm id s') /\ (forall id, id ∉ ids -> calm id s -> calm id s').
Proof.
  induction ids as [|id ids IH]; intros s H Hd Hp; cbn [invoke].
  { exists s. split; [done|]. split; [done|]. split; [done|]. split; [|done]. intros id Hid. by apply not_elem_of_nil in Hid. }
  apply list.NoDup_cons in Hd as [Hid Hd]. destruct (get id s) as [c|] eqn:Hg; [|by destruct (Hp id); [left|]].
  assert (exists s1, (if negb (new_callback c) || disk_io_pending c then Some s else storeClientCopy2 cfg meta id s) = Some s1 /\ inv None obj s1 /\ step id s s1 /\ calm id s1) as (s1 & E1 & H1 & Hs1 & Hc1).
  { destruct (new_callback c) eqn:E1; cbn [negb orb].
    - destruct (disk_io_pending c) eqn:E2; [|by apply (copy2_serves obj id s c)]. exists s. split; [done|]. split; [done|]. split; [reflexivity|]. intros c'. rewrite Hg. intros [= <-]. auto.
    - exists s. split; [done|]. split; [done|]. split; [reflexivity|]. intros c'. rewrite Hg. intros [= <-]. congruence. }
  destruct (IH s1 H1 Hd) as (s2 & E2 & H2 & Hm2 & Hin2 & Hout2).
  { intros id' Hin. rewrite (st_others _ _ _ Hs1) by (by intros ->). apply Hp. by right. }
  exists s2. split; [destruct (negb (new_callback c) || disk_io_pending c); [by injection E1 as ->|by rewrite E1]|]. split; [done|].
  split; [etrans; [by eapply step_mono|done]|]. split.
  - intros id' [->|Hin]%elem_of_cons; [by apply Hout2|by apply Hin2].
  - intros id' Hni Hc. rewrite not_elem_of_cons in Hni. destruct Hni as [Hne Hni]. apply Hout2; [done|]. by eapply calm_step.
Qed.

(** After the walk nobody waits for what is there. *)
Lemma handlers_inv obj s : inv None obj s -> exists s', InvokeHandlers cfg meta s = Some s' /\ inv None obj s' /\ mono s s' /\ forall id, calm id s'.
Proof.
  intros H. destruct (invoke_inv obj (clients s).*1 s H (i_ids _ _ _ _ _ _ _ _ H)) as (s' & E & H' & Hm & Hin & Hout).
  { intros id Hid. destruct (get_present id s Hid) as [c ->]. done. }
  exists s'. split; [exact E|]. split; [done|]. split; [done|]. intros id. destruct (decide (id ∈ (clients s).*1)) as [Hi|Hi]; [by apply Hin|].
  apply Hout; [done|]. apply calm_gone. destruct (get id s) as [c|] eqn:Hg; [|done]. destruct Hi. apply list_elem_of_fmap. exists (id, c). split; [done|]. by apply get_in.
Qed.

End clients.
End StorePumpClient.
