(* ===== verification/StorePumpEvents.v ===== *)
(** * Objects that are being fetched: what the server, clients and disks may do

    The calls of the other parts of the cache on an entry, in any order that
    respects what these parts promise ([allowed]).  Whatever happens, no
    assertion of the storage manager fails, clients get the bytes of the
    object, memory clients never fail, the swap file is the header and the
    first bytes of the object, and nobody waits for what is there. *)

From Stdlib Require Import ZArith Lia.
From stdpp Require Import base list numbers option.
From S2P Require Import Prelude CStr Stmem StoreEntry StorePump StorePumpInv StorePumpRun StorePumpClient.
Import StoreEntry StorePump StorePumpInv StorePumpRun StorePumpClient.

Module StorePumpEvents.

(** Calls of the server side, of clients, of the event queue and of the file
    system; the reply's header, the end of the wait for it, a negative answer
    and a request to release the entry. *)
Inductive event :=
| Append (d : bytes)
| Complete
| Abort
| RequestFailed (page : bytes) (len hdr body : Z)
| Buffer
| BufferFlush
| DeferRead
| Register (id : nat) (scr : list reaction)
| Ref (id : nat) (off seen size : Z)
| Unregister (id : nat)
| CopyEvent (id : nat)
| ReadBody (id : nat) (len : option nat)
| Written (n : Z)
| Closed (err : bool)
| SwapinClosed (id : nat) (err : bool)
| Header (len hdr body : Z)
| HdrWait (b : bool)
| NegativeCache
| Release.

Definition set_negcached (e : entry) : entry :=
  mkE (store_status e) (swap_status e) (object_sz e) (SPECIAL e) (CACHABLE e) (RELEASE_REQUEST e) (ABORTED e) (PRIVATE e) true (BAD_LENGTH e) (DELAY_SENDING e) (FWD_HDR_WAIT e) (DEFER_READ e)
    (content_length e) (hdr_sz e) (body_size e) (request_cachable e).
Definition set_offset (n : Z) (s : pump) : option pump :=
  let? f := file (pw s) in Some (set_swap (set_file (Some (mkFile (given f) n (closing f) (closed f))) (pw s)) s).

Section events.
Context (cfg : config) (meta : bytes).

Definition handle (ev : event) (s : pump) : option pump :=
  match ev with
  | Append d => storeAppend cfg meta d s
  | Complete => storeComplete cfg meta s
  | Abort => storeAbort cfg meta s
  | RequestFailed page len hdr body => storeRequestFailed cfg meta page len hdr body s
  | Buffer => Some (storeBuffer s)
  | BufferFlush => storeBufferFlush cfg meta s
  | DeferRead => Some (storeDeferRead s)
  | Register id scr => Some (storeClientRegister id scr s)
  | Ref id off seen size => storeClientRef cfg meta id off seen size s
  | Unregister id => storeClientUnregister cfg meta id s
  | CopyEvent id => storeClientCopyEvent cfg meta id s
  | ReadBody id len => storeClientReadBody cfg meta id len s
  | Written n => set_offset n s
  | Closed err => storeSwapOutFileClosed cfg err s
  | SwapinClosed id err => storeSwapInFileClosed cfg meta id err s
  | Header len hdr body => Some (set_entry (set_header len hdr body (pe s)) s)
  | HdrWait b => let e := pe s in Some (set_entry (set_flags false (ABORTED e) (BAD_LENGTH e) (DELAY_SENDING e) b (DEFER_READ e) e) s)
  | NegativeCache => Some (set_entry (set_negcached (pe s)) s)
  | Release => Some (set_entry (storeReleaseRequest (pe s)) s)
  end.

(** What the callers promise: bytes come while the object is incomplete,
    and error pages when there are none;
    entries that are to be released get no new clients; a client has one
    request at a time and does not go back; the file system calls back once
    for a read and once for a file, without an error only after
    [storeClose]; reads return bytes that were written; and files that are
    read are closed between reads, and because of an error when their client
    waits.  (Only [storeClientUnregister] calls [storeClose] for a file that is
    read: what the file system answers then is part of that function, so that
    here it closes such a file by itself, which it does on errors.) *)
Definition allowed (ev : event) (s : pump) : Prop :=
  match ev with
  | Append _ | Abort => pending (pe s) = true
  | Complete => pending (pe s) = true \/ ABORTED (pe s) = true /\ clients s = []
  | RequestFailed page _ _ _ => pending (pe s) = true /\ (inmem_hi (pm s) = 0 \/ page = [])
  | Register id _ => get id s = None /\ RELEASE_REQUEST (pe s) = false
  | Ref id off seen size => exists c, get id s = Some c /\ new_callback c = false /\ copy_offset c <= off <= seen /\ 0 < size
  | Unregister id => get id s <> None
  | CopyEvent id => exists c, get id s = Some c /\ copy_event_pending c = true
  | ReadBody id len => exists c, get id s = Some c /\ disk_io_pending c = true /\
      match len with
      | None => True
      | Some n => (0 < n <= PAGE)%nat /\ exists f, file (pw s) = Some f /\ copy_offset c + swap_hdr_sz (pw s) + Z.of_nat n <= Z.of_nat (length (given f))
      end
  | Written n => exists f, file (pw s) = Some f /\ offset f <= n <= Z.of_nat (length (given f))
  | Closed err => exists f, file (pw s) = Some f /\ closed f = false /\ (err = true \/ closing f = true)
  | SwapinClosed id err => exists c, get id s = Some c /\ swapin_sio c = true /\ disk_io_pending c = false /\ (err = true \/ new_callback c = false)
  | _ => True
  end.

Fixpoint run (evs : list event) (s : pump) : option pump :=
  match evs with
  | [] => Some s
  | ev :: evs => let? s := handle ev s in run evs s
  end.

(** Every event is allowed when it comes. *)
Fixpoint disciplined (evs : list event) (s : pump) : Prop :=
  match evs with
  | [] => True
  | ev :: evs => allowed ev s /\ forall s', handle ev s = Some s' -> disciplined evs s'
  end.

(** The object: what was appended, or the error page. *)
Definition object (evs : list event) : bytes := concat (map (fun ev => match ev with Append d | RequestFailed d _ _ _ => d | _ => [] end) evs).

(** A new entry. *)
Definition fresh (e : entry) (ans : list (option bool)) : pump := mkP (mkMem [] 0 0) (mkSwap 0 None false 0 None 0) e [] ans [].

Definition fresh_entry (e : entry) : Prop :=
  store_status e = STORE_PENDING /\ swap_status e = SWAPOUT_NONE /\ ABORTED e = false /\ (RELEASE_REQUEST e = true -> CACHABLE e = false).

Hypothesis meta_nonempty : meta <> [].

#[local] Abbreviation inv := (inv meta).
#[local] Existing Instance frame_preorder.
#[local] Existing Instance step_preorder.
#[local] Existing Instance mono_preorder.

(** ** Bytes *)

Lemma append_delivered obj d e x : pending e = true -> delivered obj e x -> delivered (obj ++ d) e x.
Proof.
  unfold delivered. destruct (what x) as [y| | |]; [|intros E [[? _]|?]; [congruence|by right]|done|done]. intros _ (H1 & H2 & H3). split; [done|]. split; [done|].
  assert (length y <= length (drop (Z.to_nat (at_offset x)) obj))%nat as Hl by (rewrite H3 at 1; rewrite length_take; lia). rewrite length_drop in Hl.
  assert (0 < length y)%nat by (destruct y; [done|cbn; lia]). rewrite drop_app_le by lia. rewrite take_app_le; [done|]. rewrite length_drop. lia.
Qed.

Lemma append_inv obj s d : inv None obj s -> pending (pe s) = true ->
  inv None (obj ++ d) (set_mem (mkMem (append_pages (pages (pm s)) d) (inmem_lo (pm s)) (inmem_hi (pm s) + Z.of_nat (length d))) s).
Proof.
  intros H Hp. destruct H. destruct i_pages0 as [P1 P2], i_lo0 as [L1 L2], i_queue0 as [Q1 Q2]. destruct (append_pages_ok (pages (pm s)) d P1) as [A1 A2].
  constructor; cbn [pm pw pe clients out set_mem inmem_hi inmem_lo pages]; try assumption.
  - rewrite length_app. lia.
  - split; [lia|done].
  - split; [done|]. rewrite A2, P2, drop_app_le by lia. done.
  - split; [lia|]. destruct Q2 as [Q2|[Q2 _]]; [by left|congruence].
  - destruct (file (pw s)); [|done]. rewrite take_app_le by lia. done.
  - intros H1 H2. destruct (i_nosio0 H1 H2) as [?|[? _]]; [by left|congruence].
  - intros H1 H2. destruct (i_done0 H1 H2) as [? _]. congruence.
  - intros E. congruence.
  - eapply List.Forall_impl; [|exact i_clients0]. intros p []. by constructor.
  - eapply List.Forall_impl; [|exact i_out0]. intros x. by apply append_delivered.
Qed.

(** ** Events *)

(** Nothing but the entry's other fields changes. *)
Lemma entry_event obj s e : inv None obj s -> store_status e = store_status (pe s) -> swap_status e = swap_status (pe s) -> object_sz e = object_sz (pe s) -> SPECIAL e = SPECIAL (pe s) ->
  RELEASE_REQUEST e = RELEASE_REQUEST (pe s) -> CACHABLE e = CACHABLE (pe s) -> ABORTED e = ABORTED (pe s) -> inv None obj (set_entry e s).
Proof.
  intros H E1 E2 E3 E4 E5 E6 E7. apply inv_entry; try done; rewrite ?E5, ?E6, ?E7; [done|exact (i_release _ _ _ _ _ _ _ _ H)|exact (i_aborted _ _ _ _ _ _ _ _ H)].
Qed.

Lemma entry_mono e s : store_status e = store_status (pe s) -> (RELEASE_REQUEST (pe s) = true -> RELEASE_REQUEST e = true) -> (ABORTED (pe s) = true -> ABORTED e = true) -> mono s (set_entry e s).
Proof. intros E1 E2 E3. constructor; try done. right. unfold pending. cbn. by rewrite E1. Qed.

Lemma append_ok obj s d : inv None obj s -> pending (pe s) = true ->
  exists s', storeAppend cfg meta d s = Some s' /\ inv None (obj ++ d) s' /\ (DELAY_SENDING (pe s) = false -> forall id, calm id s').
Proof.
  intros H Hp. unfold storeAppend. rewrite Hp. pose proof (append_inv obj s d H Hp) as H1. set (s1 := set_mem _ s) in *. change (DELAY_SENDING (pe s1)) with (DELAY_SENDING (pe s)).
  destruct (DELAY_SENDING (pe s)); [by exists s1|]. destruct (handlers_inv cfg meta meta_nonempty _ s1 H1) as (s2 & -> & H2 & _ & Hc2). bind_simpl.
  destruct (swapout_inv cfg meta None _ s2 H2) as (s3 & -> & H3 & Hf3). exists s3. split; [done|]. split; [done|]. intros _ id. by apply (calm_frame id s2).
Qed.

(** The object is complete. *)
Lemma complete_inv obj s : inv None obj s -> pending (pe s) = true -> inv None obj (set_entry (set_status STORE_OK (swap_status (pe s)) (inmem_hi (pm s)) (pe s)) s).
Proof.
  intros H Hp. destruct H. rewrite Hp in *. constructor; cbn [pm pw pe clients out set_entry pending set_status store_status swap_status object_sz SPECIAL RELEASE_REQUEST ABORTED CACHABLE]; try assumption; try done.
  - destruct i_queue0 as [Q1 [Q2|[Q2 _]]]; [|done]. auto.
  - intros H1 H2. destruct (i_nosio0 H1 H2) as [?|[? _]]; [by left|done].
  - intros H1 H2. by destruct (i_done0 H1 H2).
  - eapply List.Forall_impl; [|exact i_out0]. intros d. unfold delivered. destruct (what d); try done. intros [[Hx _]|?]; [congruence|by right].
Qed.

Lemma complete_ok obj s : inv None obj s -> pending (pe s) = true \/ ABORTED (pe s) = true /\ clients s = [] ->
  exists s', storeComplete cfg meta s = Some s' /\ inv None obj s' /\ (forall id, calm id s') /\ mono (set_entry (set_status STORE_OK (swap_status (pe s)) (inmem_hi (pm s)) (pe s)) s) s'.
Proof.
  intros H Hp. unfold storeComplete. destruct (pending (pe s)) eqn:Ep; cbn [negb].
  - pose proof (complete_inv obj s H Ep) as H1. set (e1 := set_status STORE_OK _ _ _) in *. set (s2 := if storeEntryValidLength _ then _ else _).
    assert (inv None obj s2) as H2.
    { unfold s2. destruct (storeEntryValidLength _); [done|]. set (e2 := set_flags false (ABORTED e1) true _ _ _ e1). pose proof (entry_event obj _ e2 H1 eq_refl eq_refl eq_refl eq_refl eq_refl eq_refl eq_refl) as H2.
      exact (inv_release meta None obj _ H2). }
    assert (mono (set_entry e1 s) s2) as Hm2.
    { unfold s2. destruct (storeEntryValidLength _); [reflexivity|]. apply entry_mono; unfold storeReleaseRequest; cbn; destruct (RELEASE_REQUEST (pe s)) eqn:Er; cbn; try done. }
    destruct (swapout_inv cfg meta None obj s2 H2) as (s3 & -> & H3 & Hf3). bind_simpl. destruct (handlers_inv cfg meta meta_nonempty _ s3 H3) as (s4 & E4 & H4 & Hm4 & Hc4).
    exists s4. split; [done|]. split; [done|]. split; [done|]. etrans; [exact Hm2|]. etrans; [by apply frame_mono|done].
  - destruct Hp as [|[Ha Hc]]; [done|]. rewrite Ha, Hc. cbn. exists s. split; [done|]. split; [done|]. split; [intros id; apply calm_gone; by apply no_clients|].
    constructor; cbn; auto.
Qed.

Lemma abort_ok obj s : inv None obj s -> pending (pe s) = true -> exists s', storeAbort cfg meta s = Some s' /\ inv None obj s' /\ forall id, calm id s'.
Proof.
  intros H Hp. unfold storeAbort. destruct (abort_inv meta None obj s H Hp) as (s1 & -> & H1 & _ & _ & Hr1 & _). bind_simpl. destruct (handlers_inv cfg meta meta_nonempty _ s1 H1) as (s2 & -> & H2 & Hm2 & Hc2).
  bind_simpl. destruct (close_any cfg meta None obj s2 H2) as (s3 & -> & H3 & Hf3); [left; by apply (mo_release _ _ Hm2)|]. exists s3. split; [done|]. split; [done|]. intros id. by apply (calm_frame id s2).
Qed.

Lemma flush_ok obj s : inv None obj s -> exists s', storeBufferFlush cfg meta s = Some s' /\ inv None obj s' /\ (DELAY_SENDING (pe s) = true -> forall id, calm id s') /\ mono s s'.
Proof.
  intros H. unfold storeBufferFlush. destruct (DELAY_SENDING (pe s)); [|by exists s; split; [|split; [|split]]]. set (e1 := set_flags _ _ _ _ _ _ _). pose proof (entry_event obj s e1 H eq_refl eq_refl eq_refl eq_refl eq_refl eq_refl eq_refl) as H1.
  destruct (handlers_inv cfg meta meta_nonempty _ _ H1) as (s2 & -> & H2 & Hm2 & Hc2). bind_simpl. destruct (swapout_inv cfg meta None _ s2 H2) as (s3 & -> & H3 & Hf3).
  exists s3. split; [done|]. split; [done|]. split; [intros _ id; by apply (calm_frame id s2)|]. etrans; [|by apply frame_mono]. etrans; [|exact Hm2]. by apply entry_mono.
Qed.

(** An error page: whoever leaves in the middle, [storeComplete] finds the
    entry as it expects it. *)
Lemma error_page_ok obj s page len hdr body : inv None obj s -> pending (pe s) = true -> inmem_hi (pm s) = 0 ->
  exists s', errorAppendEntry cfg meta page len hdr body s = Some s' /\ inv None (obj ++ page) s' /\ pending (pe s') = false /\ RELEASE_REQUEST (pe s') = true.
Proof.
  intros H Hp Hh. unfold errorAppendEntry. rewrite Hh, Hp. cbn [Z.eqb negb]. set (s1 := set_entry (set_header len hdr body _) _).
  assert (inv None obj s1) as H1 by (apply entry_event; try done; by apply entry_event). unfold storeAppend. change (pending (pe s1)) with (pending (pe s)). rewrite Hp. change (DELAY_SENDING (pe s1)) with true.
  cbv beta iota zeta. pose proof (append_inv obj s1 page H1 Hp) as H2. set (s2 := set_mem _ s1) in *. bind_simpl. change (DELAY_SENDING (pe s2)) with true. cbv beta iota. bind_simpl.
  set (e3 := set_flags _ _ _ _ _ _ (pe s2)). assert (inv None (obj ++ page) (set_entry e3 s2)) as H3 by (by apply entry_event). pose proof (inv_release meta None _ _ H3) as H4. set (s4 := set_entry (storeReleaseRequest _) _) in *.
  assert (RELEASE_REQUEST (pe s4) = true /\ pending (pe s4) = true) as [Hr4 Hp4].
  { destruct (release_request_entry e3 (i_release _ _ _ _ _ _ _ _ H3)) as (R1 & _ & R3 & _). split; [exact R1|]. unfold pending. change (pe s4) with (storeReleaseRequest e3). rewrite R3. exact Hp. }
  destruct (flush_ok _ s4 H4) as (s5 & -> & H5 & _ & Hm5). bind_simpl. assert (RELEASE_REQUEST (pe s5) = true) as Hr5 by (by apply (mo_release _ _ Hm5)).
  destruct (complete_ok _ s5 H5) as (s6 & E6 & H6 & _ & Hm6).
  { destruct (mo_pending _ _ Hm5) as [(?&?&?)|E]; [by right|left; congruence]. }
  exists s6. split; [exact E6|]. split; [done|]. split; [by apply (mono_done _ _ Hm6)|]. by apply (mo_release _ _ Hm6).
Qed.

Lemma failed_ok obj s page len hdr body : inv None obj s -> pending (pe s) = true -> inmem_hi (pm s) = 0 \/ page = [] ->
  exists s', storeRequestFailed cfg meta page len hdr body s = Some s' /\ inv None (obj ++ page) s' /\ forall id, calm id s'.
Proof.
  intros H Hp Hpage. unfold storeRequestFailed. rewrite Hp. pose proof (inv_release meta None obj s H) as H0. destruct (release_request_entry (pe s) (i_release _ _ _ _ _ _ _ _ H)) as (R1 & R2 & R3 & R4 & R5 & R6 & R7).
  set (s0 := set_entry (storeReleaseRequest (pe s)) s) in *. assert (pending (pe s0) = true) as Hp0 by (unfold pending; cbn; by rewrite R3).
  assert (forall s1, inv None (obj ++ page) s1 -> RELEASE_REQUEST (pe s1) = true -> exists s', (let? s := InvokeHandlers cfg meta s1 in storeSwapOutFileClose cfg s) = Some s' /\ inv None (obj ++ page) s' /\ forall id, calm id s') as Hend.
  { intros s1 H1 Hr1. destruct (handlers_inv cfg meta meta_nonempty _ s1 H1) as (s2 & -> & H2 & Hm2 & Hc2). bind_simpl. destruct (close_any cfg meta None _ s2 H2) as (s3 & -> & H3 & Hf3); [left; by apply (mo_release _ _ Hm2)|].
    exists s3. split; [done|]. split; [done|]. intros id. by apply (calm_frame id s2). }
  destruct (Z.eqb_spec (inmem_hi (pm s0)) 0) as [Ez|Hnz].
  - destruct (error_page_ok obj s0 page len hdr body H0 Hp0 Ez) as (s1 & -> & H1 & Hp1 & Hr1). bind_simpl. apply Hend; [|exact Hr1]. apply entry_event; try done; cbn.
    + unfold pending in Hp1. by destruct (store_status (pe s1)).
    + symmetry. exact (i_size _ _ _ _ _ _ _ _ H1 Hp1).
  - destruct Hpage as [Ez| ->]; [by destruct (Hnz Ez)|]. rewrite app_nil_r in *. bind_simpl. apply Hend; [|exact R1]. destruct (abort_inv meta None obj s0 H0 Hp0) as (s1 & E1 & H1 & _). unfold abort_mark in E1. rewrite Hp0 in E1.
    assert (storeReleaseRequest (pe s0) = pe s0) as Er by (unfold storeReleaseRequest at 1; cbn [pe s0 set_entry]; by rewrite R1). rewrite Er in E1. injection E1 as <-.
    exact (entry_event obj _ (set_status STORE_OK (swap_status (pe s0)) (inmem_hi (pm s0)) (set_flags false true (BAD_LENGTH (pe s0)) (DELAY_SENDING (pe s0)) false (DEFER_READ (pe s0)) (pe s0))) H1 eq_refl eq_refl eq_refl eq_refl eq_refl eq_refl eq_refl).
Qed.

Lemma register_ok obj s id scr : inv None obj s -> get id s = None -> RELEASE_REQUEST (pe s) = false -> inv None obj (storeClientRegister id scr s).
Proof.
  intros H Hg Hr. pose proof (get_absent _ _ Hg) as Ha. destruct H. constructor; cbn [pm pw pe clients out storeClientRegister set_clients]; try assumption.
  - destruct i_low0 as [?|[?|(_ & ? & _)]]; [by left|by right; left|congruence].
  - cbn. by apply list.NoDup_cons.
  - apply List.Forall_cons; [|done]. rewrite bool_decide_false by done. constructor; cbn; try done. unfold storeClientType. destruct (Z.eqb_spec (inmem_lo (pm s)) 0) as [->|]; [done|discriminate].
Qed.

Lemma client_ref_ok obj s id c off seen size : inv None obj s -> get id s = Some c -> new_callback c = false -> copy_offset c <= off <= seen -> 0 < size ->
  exists s', storeClientRef cfg meta id off seen size s = Some s' /\ inv None obj s'.
Proof.
  intros H Hg Hn Ho Hs. unfold storeClientRef. destruct (ref_inv cfg meta None obj s id c off seen size H Hg Hn Ho Hs) as (s1 & -> & H1 & _ & Hg1). bind_simpl.
  pose proof (inv_client meta None obj s id c H Hg) as Hc.
  destruct (copy2_serves cfg meta meta_nonempty obj id s1 _ H1 Hg1) as (s2 & -> & H2 & _); [done| |by exists s2]. cbn. destruct (disk_io_pending c) eqn:E; [|done]. destruct (co_io _ _ _ _ Hc E). congruence.
Qed.

Lemma copy_event_ok obj s id c : inv None obj s -> get id s = Some c -> copy_event_pending c = true -> exists s', storeClientCopyEvent cfg meta id s = Some s' /\ inv None obj s'.
Proof.
  intros H Hg He. unfold storeClientCopyEvent. rewrite Hg. bind_simpl. pose proof (inv_client meta None obj s id c H Hg) as Hc.
  assert (disk_io_pending c = false) as Hio by (destruct (disk_io_pending c) eqn:E; [|done]; destruct (co_io _ _ _ _ Hc E) as (_ & _ & _ & _ & _ & ?); congruence).
  assert (inv None obj (put id (set_event false) s)) as H1 by (eapply inv_put; [exact H|exact Hg| |cbn; lia|done]; destruct Hc; constructor; cbn; try assumption; congruence).
  destruct (new_callback c) eqn:En; [|by eexists]. destruct (copy2_serves cfg meta meta_nonempty obj id _ _ H1 (get_put_eq id (set_event false) s c Hg)) as (s2 & -> & H2 & _); [done|done|]. by exists s2.
Qed.

Lemma put_put id f g s : put id f (put id g s) = put id (fun c => f (g c)) s.
Proof. unfold put, set_clients. cbn. f_equal. rewrite map_map. apply map_ext. intros [i c]. cbn. destruct (i =? id)%nat eqn:E; cbn; by rewrite E. Qed.

Lemma take_self {A} n (l : list A) : take n l = take (length (take n l)) l.
Proof. rewrite length_take. destruct (Nat.le_ge_cases n (length l)); [by rewrite Nat.min_l by lia|]. by rewrite Nat.min_r, !take_ge by lia. Qed.

Lemma read_slice_ok (obj : bytes) a b k q : (k < q <= length obj)%nat -> (0 < a)%nat -> (0 < b)%nat ->
  let x := take a (take b (drop k (take q obj))) in x <> [] /\ x = take (length x) (drop k obj).
Proof.
  intros Hk Ha Hb. replace q with (k + (q - k))%nat by lia. rewrite <- take_drop_commute, !take_take. cbv zeta. split; [|apply take_self].
  intros E%(f_equal length). rewrite length_take, length_drop in E. cbn in E. lia.
Qed.

Lemma read_body_ok obj s id c len : inv None obj s -> get id s = Some c -> disk_io_pending c = true -> match len with None => True | Some n => (0 < n)%nat end ->
  exists s', storeClientReadBody cfg meta id len s = Some s' /\ inv None obj s'.
Proof.
  intros H Hg Hio Hlen. unfold storeClientReadBody. rewrite Hg. bind_simpl. pose proof (inv_client meta None obj s id c H Hg) as Hc. destruct (co_io _ _ _ _ Hc Hio) as (C1 & C2 & C3 & C4 & C5 & C6). rewrite Hio, C1, C2.
  cbn [andb]. pose proof (get_put_eq id (set_io false) s c Hg) as Hg1.
  assert (inv None obj (put id clear_callback (put id (set_io false) s))) as H1.
  { rewrite put_put. eapply inv_put; [exact H|exact Hg| |cbn; lia|done]. destruct Hc. by constructor. }
  assert (forall o, delivered obj (pe s) (mkDel id (sc_type c) (copy_offset c) false (match o with Data d => Data (take (Z.to_nat (copy_size c)) d) | o => o end)) ->
    exists s', callback cfg meta (storeClientCopy2 cfg meta) id o (put id (set_io false) s) = Some s' /\ inv None obj s') as Hcb.
  { intros o Ho. destruct (callback_inv cfg meta None obj (storeClientCopy2 cfg meta) _ id _ o Hg1) as (s2 & E2 & H2 & _); [done|done|done|exact Ho|by apply copy2_serves|]. by exists s2. }
  destruct len as [n|]; [|by apply Hcb]. cbn [pw put set_clients]. destruct (file (pw s)) as [f|] eqn:Ef; [|done]. bind_simpl. apply Hcb. pose proof (i_file _ _ _ _ _ _ _ _ H) as Hf. rewrite Ef in Hf.
  destruct Hf as (F1 & _ & F3). pose proof (i_queue _ _ _ _ _ _ _ _ H) as [Q _]. pose proof (i_hi _ _ _ _ _ _ _ _ H) as Hh. pose proof (co_off _ _ _ _ Hc) as Ho. pose proof (co_size _ _ _ _ Hc C1) as Hs.
  rewrite F1, F3. replace (Z.to_nat (copy_offset c + Z.of_nat (length meta))) with (length meta + Z.to_nat (copy_offset c))%nat by lia. rewrite <- drop_drop, drop_app_length.
  destruct (read_slice_ok obj (Z.to_nat (copy_size c)) n (Z.to_nat (copy_offset c)) (Z.to_nat (queue_offset (pw s)))) as [S1 S2]; [lia|lia|lia|]. unfold delivered. cbn [what at_offset]. split; [done|]. split; [lia|done].
Qed.

Lemma written_ok obj s f n : inv None obj s -> file (pw s) = Some f -> offset f <= n <= Z.of_nat (length (given f)) -> exists s', set_offset n s = Some s' /\ inv None obj s'.
Proof.
  intros H Hf Hn. unfold set_offset. rewrite Hf. bind_simpl. eexists. split; [done|]. destruct H. rewrite Hf in i_file0. destruct i_file0 as (F1 & F2 & F3).
  constructor; cbn [pm pw pe clients out set_swap set_file queue_offset memnode sio swap_hdr_sz file swap_file_sz given offset closing closed]; try assumption.
  - split; [done|]. split; [lia|done].
  - intros E. destruct (i_sio0 E) as (? & f0 & Ef0 & Hc0). rewrite Hf in Ef0. injection Ef0 as <-. split; [done|]. by eexists.
  - intros E _. apply i_nosio0; [done|]. by rewrite Hf.
  - intros E _. apply i_none0; [done|]. by rewrite Hf.
  - intros E. destruct (i_writing0 E) as (f0 & Ef0 & Hc0). rewrite Hf in Ef0. injection Ef0 as <-. by eexists.
  - intros f0 [= <-]. cbn. by apply i_open0.
  - intros E. destruct (i_special0 E). congruence.
  - destruct i_low0 as [?|[Hd|(?&?&?)]]; [by left| |by right; right]. right. left. unfold on_disk, storeSwapOutObjectBytesOnDisk in *. cbn [set_file sio file offset swap_hdr_sz queue_offset] in *. destruct (sio (pw s)); [|exact Hd]. rewrite Hf in Hd.
    cbn in *. destruct (Z.leb_spec (offset f) (swap_hdr_sz (pw s))), (Z.leb_spec n (swap_hdr_sz (pw s))); lia.
  - eapply List.Forall_impl; [|exact i_clients0]. intros p []. constructor; cbn [file queue_offset]; try assumption; [intros E; by destruct (co_swapin0 E)|].
    intros E. destruct (co_io0 E) as (?&?&?&?&?&?). by repeat split.
Qed.

Lemma closed_ok obj s f err : inv None obj s -> file (pw s) = Some f -> closed f = false -> err = true \/ closing f = true -> exists s', storeSwapOutFileClosed cfg err s = Some s' /\ inv None obj s'.
Proof.
  intros H Hf Hc He. destruct (closed_inv cfg meta None obj s f err H) as (s' & E & H' & _); [by apply (i_open _ _ _ _ _ _ _ _ H f)|done| |by exists s'].
  destruct He as [|Hcl]; [by left|]. right. apply (i_nosio _ _ _ _ _ _ _ _ H); [|by rewrite Hf]. destruct (sio (pw s)) eqn:E; [|done]. destruct (i_sio _ _ _ _ _ _ _ _ H E) as (_ & f0 & Ef0 & ?). congruence.
Qed.

Lemma swapin_closed_ok obj s id c err : inv None obj s -> get id s = Some c -> swapin_sio c = true -> disk_io_pending c = false -> err = true \/ new_callback c = false ->
  exists s', storeSwapInFileClosed cfg meta id err s = Some s' /\ inv None obj s'.
Proof.
  intros H Hg Hs Hio He. unfold storeSwapInFileClosed. rewrite Hg. bind_simpl. pose proof (inv_client meta None obj s id c H Hg) as Hc. destruct (co_swapin _ _ _ _ Hc Hs) as [Ht _].
  assert (inv None obj (put id clear_swapin s)) as H1 by (eapply inv_put; [exact H|exact Hg| |cbn; lia|done]; destruct Hc; constructor; cbn; try assumption; done).
  set (s2 := if err then set_entry _ _ else _). assert (inv None obj s2 /\ get id s2 = Some (clear_swapin c)) as [H2 Hg2].
  { pose proof (get_put_eq id clear_swapin s c Hg) as Hg1. unfold s2. destruct err; [|done]. split; [by apply inv_release|exact Hg1]. }
  destruct (new_callback c) eqn:En; [|by exists s2]. destruct He as [->|]; [|done].
  destruct (callback_inv cfg meta None obj (storeClientCopy2 cfg meta) s2 id _ Failed Hg2) as (s3 & E3 & H3 & _); [done|done|by eapply clear_inv_client|exact Ht|by apply copy2_serves|]. by exists s3.
Qed.

(** Every allowed event succeeds; events that bring something leave nobody waiting for it. *)
Lemma handle_event_ok obj s ev : inv None obj s -> allowed ev s ->
  exists s', handle ev s = Some s' /\ inv None (obj ++ match ev with Append d | RequestFailed d _ _ _ => d | _ => [] end) s'.
Proof.
  intros H Ha. destruct ev; cbn [handle allowed] in *; rewrite ?app_nil_r.
  - destruct (append_ok obj s d H Ha) as (s' & ? & ? & _). by exists s'.
  - destruct (complete_ok obj s H Ha) as (s' & ? & ? & _). by exists s'.
  - destruct (abort_ok obj s H Ha) as (s' & ? & ? & _). by exists s'.
  - destruct Ha as [Hp Hpage]. destruct (failed_ok obj s page len hdr body H Hp Hpage) as (s' & ? & ? & _). by exists s'.
  - eexists. split; [done|]. by apply entry_event.
  - destruct (flush_ok obj s H) as (s' & ? & ? & _). by exists s'.
  - eexists. split; [done|]. by apply entry_event.
  - eexists. split; [done|]. apply register_ok; [done|apply Ha..].
  - destruct Ha as (c & ? & ? & ? & ?). by eapply client_ref_ok.
  - destruct (get id s) as [c|] eqn:Hg; [|done]. destruct (unregister_inv cfg meta None obj s id c H Hg) as (s' & ? & ? & _). by exists s'.
  - destruct Ha as (c & ? & ?). by eapply copy_event_ok.
  - destruct Ha as (c & ? & ? & Hl). eapply read_body_ok; [done|done|done|]. destruct len; [|done]. lia.
  - destruct Ha as (f & ? & ?). by eapply written_ok.
  - destruct Ha as (f & ? & ? & ?). by eapply closed_ok.
  - destruct Ha as (c & ? & ? & ? & ?). by eapply swapin_closed_ok.
  - eexists. split; [done|]. by apply entry_event.
  - eexists. split; [done|]. by apply entry_event.
  - eexists. split; [done|]. by apply entry_event.
  - eexists. split; [done|]. by apply inv_release.
Qed.

Lemma run_events_ok evs : forall obj s, inv None obj s -> disciplined evs s -> exists s', run evs s = Some s' /\ inv None (obj ++ object evs) s'.
Proof.
  induction evs as [|ev evs IH]; intros obj s H Hd; cbn [run]; [exists s; split; [done|]; by rewrite app_nil_r|]. destruct Hd as [Ha Hd]. destruct (handle_event_ok obj s ev H Ha) as (s1 & E1 & H1). rewrite E1. bind_simpl.
  destruct (IH _ s1 H1 (Hd s1 E1)) as (s2 & E2 & H2). exists s2. split; [done|]. rewrite <- app_assoc in H2. exact H2.
Qed.

Lemma fresh_inv e ans : fresh_entry e -> inv None [] (fresh e ans).
Proof.
  intros (E1 & E2 & E3 & E4). assert (pending e = true) as Ep by (unfold pending; by rewrite E1). constructor; cbn; rewrite ?E2, ?E3, ?Ep; try done; [by split; [|left]|by left|constructor].
Qed.

(** C2. Whatever the server, the clients and the file system do within their
    promises, in whatever order, from a new entry: no assertion of the
    storage manager fails ([run] succeeds); whatever a client was given is the
    object's bytes at the place it asked for, an end is only reported of a
    complete object at or behind its end (or to a client that reads from disk
    and is being unregistered while it waits, which is told so whatever it has
    got), and only clients that read from disk see errors; the swap file is the
    header and the first bytes of the object; and a swap file that is recorded
    as complete, of an entry that is not to be released, has all of them and
    the recorded size. *)
Theorem pump_safe e ans evs : fresh_entry e -> disciplined evs (fresh e ans) ->
  exists s, run evs (fresh e ans) = Some s /\
    Forall (delivered (object evs) (pe s)) (out s) /\
    (forall f, file (pw s) = Some f -> given f = meta ++ take (Z.to_nat (queue_offset (pw s))) (object evs)) /\
    (swap_status (pe s) = SWAPOUT_DONE -> RELEASE_REQUEST (pe s) = false ->
      exists f, file (pw s) = Some f /\ given f = meta ++ object evs /\ swap_file_sz (pw s) = Z.of_nat (length (given f))).
Proof.
  intros He Hd. destruct (run_events_ok evs [] (fresh e ans) (fresh_inv e ans He) Hd) as (s & E & H). cbn [app] in H. exists s. split; [done|]. destruct H. split; [done|]. split.
  - intros f Hf. rewrite Hf in i_file0. apply i_file0.
  - intros E1 E2. destruct (i_done0 E1 E2) as (_ & Hq & Hz). destruct (file (pw s)) as [f|]; [|destruct i_file0 as (_ & _ & ?); congruence]. exists f. split; [done|]. destruct i_file0 as (-> & _ & _).
    rewrite take_ge by lia. split; [done|]. rewrite length_app. lia.
Qed.

(** C13. No wake-up is lost: once bytes were appended (and are not held back),
    or the object is complete, aborted or failed, or what was held back is let go, a
    client that is still waiting waits for the file system, for its own event,
    for the reply's header, or for bytes behind the last one that arrived. *)
Theorem pump_wakes e ans evs ev s : fresh_entry e -> disciplined evs (fresh e ans) -> run evs (fresh e ans) = Some s -> allowed ev s ->
  match ev with Append _ => DELAY_SENDING (pe s) = false | Complete | Abort | RequestFailed _ _ _ _ => True | BufferFlush => DELAY_SENDING (pe s) = true | _ => False end ->
  exists s', handle ev s = Some s' /\ forall id, calm id s'.
Proof.
  intros He Hd Hr Ha Hev. destruct (run_events_ok evs [] (fresh e ans) (fresh_inv e ans He) Hd) as (s1 & E & H). rewrite Hr in E. injection E as <-. destruct ev; cbn [handle allowed] in *; try done.
  - destruct (append_ok _ s d H Ha) as (s' & ? & _ & ?). eauto.
  - destruct (complete_ok _ s H Ha) as (s' & ? & _ & ? & _). eauto.
  - destruct (abort_ok _ s H Ha) as (s' & ? & _ & ?). eauto.
  - destruct Ha as [Hp Hpage]. destruct (failed_ok _ s page len hdr body H Hp Hpage) as (s' & ? & _ & ?). eauto.
  - destruct (flush_ok _ s H) as (s' & ? & _ & ? & _). eauto.
Qed.

End events.

(** ** The promises can be checked *)

Definition allowedb (ev : event) (s : pump) : bool :=
  match ev with
  | Append _ | Abort => pending (pe s)
  | RequestFailed page _ _ _ => pending (pe s) && ((inmem_hi (pm s) =? 0) || match page with [] => true | _ => false end)
  | Complete => pending (pe s) || ABORTED (pe s) && match clients s with [] => true | _ => false end
  | Register id _ => match get id s with None => negb (RELEASE_REQUEST (pe s)) | Some _ => false end
  | Ref id off seen size => match get id s with None => false | Some c => negb (new_callback c) && (copy_offset c <=? off) && (off <=? seen) && (0 <? size) end
  | Unregister id => match get id s with None => false | Some _ => true end
  | CopyEvent id => match get id s with None => false | Some c => copy_event_pending c end
  | ReadBody id len =>
      match get id s with
      | None => false
      | Some c => disk_io_pending c &&
          match len with
          | None => true
          | Some n => (0 <? n)%nat && (n <=? PAGE)%nat &&
              match file (pw s) with None => false | Some f => copy_offset c + swap_hdr_sz (pw s) + Z.of_nat n <=? Z.of_nat (length (given f)) end
          end
      end
  | Written n => match file (pw s) with None => false | Some f => (offset f <=? n) && (n <=? Z.of_nat (length (given f))) end
  | Closed err => match file (pw s) with None => false | Some f => negb (closed f) && (err || closing f) end
  | SwapinClosed id err => match get id s with None => false | Some c => swapin_sio c && negb (disk_io_pending c) && (err || negb (new_callback c)) end
  | _ => true
  end.

Lemma allowedb_ok ev s : allowedb ev s = true -> allowed ev s.
Proof.
  destruct ev; cbn [allowedb allowed]; try done.
  - intros [?|[? H]%andb_true_iff]%orb_true_iff; [by left|]. right. split; [done|]. by destruct (clients s).
  - rewrite andb_true_iff, orb_true_iff, Z.eqb_eq. intros [? H]. split; [done|]. destruct H; [by left|]. right. by destruct page.
  - destruct (get id s); [done|]. by intros ?%negb_true_iff.
  - destruct (get id s) as [c|]; [|done]. rewrite !andb_true_iff, negb_true_iff, !Z.leb_le, Z.ltb_lt. intros [[[H1 H2] H3] H4]. by exists c.
  - by destruct (get id s).
  - destruct (get id s) as [c|]; [|done]. by exists c.
  - destruct (get id s) as [c|]; [|done]. intros [H1 H2]%andb_true_iff. exists c. split; [done|]. split; [done|]. destruct len as [n|]; [|done]. rewrite !andb_true_iff in H2. destruct H2 as [[H2 H3] H4].
    apply Nat.ltb_lt in H2. apply Nat.leb_le in H3. split; [done|]. destruct (file (pw s)) as [f|]; [|done]. apply Z.leb_le in H4. by exists f.
  - destruct (file (pw s)) as [f|]; [|done]. rewrite andb_true_iff, !Z.leb_le. by exists f.
  - destruct (file (pw s)) as [f|]; [|done]. rewrite andb_true_iff, negb_true_iff, orb_true_iff. intros [? ?]. by exists f.
  - destruct (get id s) as [c|]; [|done]. rewrite !andb_true_iff, negb_true_iff, orb_true_iff, negb_true_iff. intros [[? ?] ?]. by exists c.
Qed.

Fixpoint disciplinedb (cfg : config) (meta : bytes) (evs : list event) (s : pump) : bool :=
  match evs with
  | [] => true
  | ev :: evs => allowedb ev s && match handle cfg meta ev s with None => true | Some s => disciplinedb cfg meta evs s end
  end.

Lemma disciplinedb_ok cfg meta evs : forall s, disciplinedb cfg meta evs s = true -> disciplined cfg meta evs s.
Proof.
  induction evs as [|ev evs IH]; intros s; cbn [disciplinedb disciplined]; [done|]. intros [H1 H2]%andb_true_iff. split; [by apply allowedb_ok|]. intros s' E. rewrite E in H2. by apply IH.
Qed.

(** ** An object of two pages and a bit, and two clients

    The first client reads from memory.  The second one comes when the first
    page is on disk and has left memory: it reads that page from disk and the
    next one from memory, and leaves.  The object ends, its file is complete,
    and the first client learns of the end. *)

Definition ex_cfg : config := mkCfg 100000 0 0 0 100000 (-1) 0 0.
Definition ex_meta : bytes := [3; 0; 0; 0; 5].
Definition ex_entry : entry := mkE STORE_PENDING SWAPOUT_NONE (-1) false true false false false false false false false false (-1) 0 (-1) None.
Definition ex_page (x : Z) : bytes := repeat x 4096.
Definition ex_answers : list (option bool) := [None; None; Some true; None; None; None; None; Some true].
Definition ex_evs : list event :=
  [Register 1 [Ask 4096 0 4096; Ask 4096 0 4096; Wait]; Ref 1 0 0 4096; Append (ex_page 1 ++ ex_page 2 ++ [7; 8]); CopyEvent 1; CopyEvent 1; Written 8197;
   Register 2 [Ask 4096 0 4096; Leave]; Append [9]; Ref 2 0 0 4096; ReadBody 2 (Some 4096%nat); Ref 1 8194 8194 100; Complete; Closed false; Ref 1 8195 8195 100].

Definition summary (s : pump) : swap_status_t * list (nat * store_client_t * Z * Z) :=
  (swap_status (pe s), map (fun d => (to d, to_type d, at_offset d, match what d with Data x => Z.of_nat (length x) | Eof => 0 | Failed => -1 | Gone => -2 end)) (out s)).

Example ex_run : summary <$> run ex_cfg ex_meta ex_evs (fresh ex_entry ex_answers) =
  Some (SWAPOUT_DONE, [(1%nat, STORE_MEM_CLIENT, 8195, 0); (1%nat, STORE_MEM_CLIENT, 8194, 1); (2%nat, STORE_DISK_CLIENT, 4096, 4096); (2%nat, STORE_DISK_CLIENT, 0, 4096);
    (1%nat, STORE_MEM_CLIENT, 8192, 2); (1%nat, STORE_MEM_CLIENT, 4096, 4096); (1%nat, STORE_MEM_CLIENT, 0, 4096)]).
Proof. vm_compute. reflexivity. Qed.

(** The second client stays and waits for the bytes behind the last; when it is
    unregistered its file is closed at once, and it is told that the object
    ends (0), although the object is not complete. *)
Example end_for_leaving :
  (fun s => (pending (pe s), map leaving (take 2 (out s)), summary s)) <$>
    run ex_cfg ex_meta (take 6 ex_evs ++ [Register 2 [Ask 4096 0 4096; Wait]; Append [9]; Ref 2 0 0 4096; ReadBody 2 (Some 4096%nat); Ref 2 8195 8195 100; Unregister 2])
      (fresh ex_entry (ex_answers ++ [Some false])) =
  Some (true, [true; false], (SWAPOUT_WRITING, [(2%nat, STORE_DISK_CLIENT, 8195, 0); (2%nat, STORE_DISK_CLIENT, 4096, 4096); (2%nat, STORE_DISK_CLIENT, 0, 4096);
    (1%nat, STORE_MEM_CLIENT, 8192, 2); (1%nat, STORE_MEM_CLIENT, 4096, 4096); (1%nat, STORE_MEM_CLIENT, 0, 4096)])).
Proof. vm_compute. reflexivity. Qed.

Lemma pump_safe_witness : exists s, run ex_cfg ex_meta ex_evs (fresh ex_entry ex_answers) = Some s /\ Forall (delivered (object ex_evs) (pe s)) (out s).
Proof.
  destruct (pump_safe ex_cfg ex_meta ltac:(discriminate) ex_entry ex_answers ex_evs) as (s & E & H & _).
  - split; [reflexivity|]. split; [reflexivity|]. split; [reflexivity|]. discriminate.
  - apply disciplinedb_ok. vm_compute. reflexivity.
  - exists s. split; assumption.
Defined.

Lemma pump_wakes_witness : exists s s', run ex_cfg ex_meta (take 2 ex_evs) (fresh ex_entry ex_answers) = Some s /\ handle ex_cfg ex_meta (Append (ex_page 1)) s = Some s' /\ calm 1 s'.
Proof.
  destruct (run ex_cfg ex_meta (take 2 ex_evs) (fresh ex_entry ex_answers)) as [s|] eqn:E; [|vm_compute in E; discriminate].
  destruct (pump_wakes ex_cfg ex_meta ltac:(discriminate) ex_entry ex_answers (take 2 ex_evs) (Append (ex_page 1)) s) as (s' & E' & H).
  - split; [reflexivity|]. split; [reflexivity|]. split; [reflexivity|]. discriminate.
  - apply disciplinedb_ok. vm_compute. reflexivity.
  - exact E.
  - vm_compute in E. injection E as <-. reflexivity.
  - vm_compute in E. injection E as <-. reflexivity.
  - exists s, s'. split; [reflexivity|]. split; [exact E'|apply H].
Defined.

End StorePumpEvents.
