(* ===== verification/Aio.v ===== *)
(** * Asynchronous disk I/O (libasyncio/aiops.c, libasyncio/async_io.c)

    The main thread hands requests to worker threads through a queue under a
    mutex, which it only tries to lock: while a worker has it, requests wait in
    a second queue.  Workers return them through another queue and wake the
    main thread with a byte in a pipe, at most one at a time.

    A state is what all threads share, and where each of them is.  A step of a
    worker is what it does between two points at which others can interfere:
    taking or releasing a mutex, reading or writing a variable that is not
    protected.  What the main thread does while it has a mutex is one step, and
    so is a call that touches nothing else shared.  Queues are chains through
    [next], with [tailp] the place where the next request is linked: the head
    of a queue or the [next] of a request.  [None] is the use of a request, a
    control block or a buffer after it was freed, or freeing it twice.

    [num] and [history] are not in the source: they number the requests and
    record what happens.  Warnings about long queues, and the
    emergency [squidaio_sync] above 4096 requests, are left out, as are locks
    of callback data (Cbdata.v) and what a callback given by [aioCancel] does
    with the queues, and the path and the [stat] buffer that a request
    owns. *)

From Stdlib Require Import ZArith Lia.
From stdpp Require Import base gmap list numbers option fin_maps.
From S2P Require Import Prelude.

Module Aio.

Inductive op := OP_OPEN | OP_READ | OP_WRITE | OP_CLOSE | OP_UNLINK | OP_TRUNCATE | OP_STAT.

#[global] Instance op_eq_dec : EqDecision op.
Proof. solve_decision. Defined.

(** [resultp]: the control block whose [result] it is *)
Record squidaio_request_t := mkReq {
  next : option positive;
  request_type : op;
  cancelled : bool;
  fd : Z;
  bufferp : option positive;
  ret : Z;
  err : Z;
  resultp : option positive;
  num : nat
}.

(** with the fields of [result]; [rdata] is [_data].  [done_handler]: the
    callback data, if there is a handler. *)
Record squidaio_ctrl_t := mkCtrl {
  cfd : Z;
  operation : op;
  done_handler : option positive;
  free_func : bool;
  bufp : option positive;
  aio_return : Z;
  aio_errno : Z;
  rdata : option positive
}.

(** [request_queue], [request_queue2], [done_queue], [done_requests] *)
Inductive qid := RQ | RQ2 | DQ | DR.

#[global] Instance qid_eq_dec : EqDecision qid.
Proof. solve_decision. Defined.

Inductive loc := Head (q : qid) | Next (a : positive).

Record queue := mkQ { qhead : option positive; tailp : loc }.

(** Where a worker is: about to lock [request_queue], before it looks at the
    head, waiting for the condition, before it unlocks, before it looks at
    [cancelled], in the system call, about to lock [done_queue], about to link
    the request, about to unlock, about to look at [done_signalled], about to
    set it, about to write to the pipe. *)
Inductive wpc :=
| WLock | WHead | WAsleep | WUnlock (r : positive) | WBegin (r : positive) | WOp (r : positive)
| WDoneLock (r : positive) | WPut (r : positive) | WDoneUnlock | WSignal | WSet | WWrite.

(** Where the main thread is: elsewhere, in [squidaio_poll_done] at
    [AIO_REPOLL], before it looks at [done_signalled], before it reads the pipe,
    before it clears [done_signalled], in [squidaio_poll_queues], or in a
    callback of [aioCheckCallbacks]. *)
Inductive mpc := MUser | MPoll (polled : bool) | MSignalled | MRead | MClear | MKick | MTake | MCallback (c : positive).

(** What has happened: how many requests were handed in, which ones workers
    began with and with what results they ended, which callbacks were called
    and with what, and which descriptors were closed with cancelled requests. *)
Record history := mkH { nsub : nat; started : list nat; results : list (nat * Z * Z); called : list (nat * Z * Z); closed : list Z }.

Record state := mkS {
  reqs : gmap positive squidaio_request_t;
  ctrls : gmap positive squidaio_ctrl_t;
  bufs : gset positive;
  used_list : list positive;
  valid : gset positive;
  rq : queue; rq2 : queue; dq : queue; dr : queue;
  rq_mutex : option nat;
  dq_mutex : option nat;
  workers : list wpc;
  main : mpc;
  pipe : Z;
  done_signalled : bool;
  request_queue_len : Z;
  hist : history
}.

Definition set_reqs (m : gmap positive squidaio_request_t) (s : state) : state :=
  mkS m (ctrls s) (bufs s) (used_list s) (valid s) (rq s) (rq2 s) (dq s) (dr s) (rq_mutex s) (dq_mutex s) (workers s) (main s) (pipe s) (done_signalled s) (request_queue_len s) (hist s).
Definition set_ctrls (m : gmap positive squidaio_ctrl_t) (s : state) : state :=
  mkS (reqs s) m (bufs s) (used_list s) (valid s) (rq s) (rq2 s) (dq s) (dr s) (rq_mutex s) (dq_mutex s) (workers s) (main s) (pipe s) (done_signalled s) (request_queue_len s) (hist s).
Definition set_bufs (m : gset positive) (s : state) : state :=
  mkS (reqs s) (ctrls s) m (used_list s) (valid s) (rq s) (rq2 s) (dq s) (dr s) (rq_mutex s) (dq_mutex s) (workers s) (main s) (pipe s) (done_signalled s) (request_queue_len s) (hist s).
Definition set_used (l : list positive) (s : state) : state :=
  mkS (reqs s) (ctrls s) (bufs s) l (valid s) (rq s) (rq2 s) (dq s) (dr s) (rq_mutex s) (dq_mutex s) (workers s) (main s) (pipe s) (done_signalled s) (request_queue_len s) (hist s).
Definition set_valid (m : gset positive) (s : state) : state :=
  mkS (reqs s) (ctrls s) (bufs s) (used_list s) m (rq s) (rq2 s) (dq s) (dr s) (rq_mutex s) (dq_mutex s) (workers s) (main s) (pipe s) (done_signalled s) (request_queue_len s) (hist s).
Definition set_queues (a b c d : queue) (s : state) : state :=
  mkS (reqs s) (ctrls s) (bufs s) (used_list s) (valid s) a b c d (rq_mutex s) (dq_mutex s) (workers s) (main s) (pipe s) (done_signalled s) (request_queue_len s) (hist s).
Definition set_mutexes (a b : option nat) (s : state) : state :=
  mkS (reqs s) (ctrls s) (bufs s) (used_list s) (valid s) (rq s) (rq2 s) (dq s) (dr s) a b (workers s) (main s) (pipe s) (done_signalled s) (request_queue_len s) (hist s).
Definition set_workers (l : list wpc) (s : state) : state :=
  mkS (reqs s) (ctrls s) (bufs s) (used_list s) (valid s) (rq s) (rq2 s) (dq s) (dr s) (rq_mutex s) (dq_mutex s) l (main s) (pipe s) (done_signalled s) (request_queue_len s) (hist s).
Definition set_main (p : mpc) (s : state) : state :=
  mkS (reqs s) (ctrls s) (bufs s) (used_list s) (valid s) (rq s) (rq2 s) (dq s) (dr s) (rq_mutex s) (dq_mutex s) (workers s) p (pipe s) (done_signalled s) (request_queue_len s) (hist s).
Definition set_signal (n : Z) (b : bool) (s : state) : state :=
  mkS (reqs s) (ctrls s) (bufs s) (used_list s) (valid s) (rq s) (rq2 s) (dq s) (dr s) (rq_mutex s) (dq_mutex s) (workers s) (main s) n b (request_queue_len s) (hist s).
Definition set_len (n : Z) (s : state) : state :=
  mkS (reqs s) (ctrls s) (bufs s) (used_list s) (valid s) (rq s) (rq2 s) (dq s) (dr s) (rq_mutex s) (dq_mutex s) (workers s) (main s) (pipe s) (done_signalled s) n (hist s).
Definition set_hist (h : history) (s : state) : state :=
  mkS (reqs s) (ctrls s) (bufs s) (used_list s) (valid s) (rq s) (rq2 s) (dq s) (dr s) (rq_mutex s) (dq_mutex s) (workers s) (main s) (pipe s) (done_signalled s) (request_queue_len s) h.

Definition log_new (h : history) : history := mkH (S (nsub h)) (started h) (results h) (called h) (closed h).
Definition log_start (n : nat) (h : history) : history := mkH (nsub h) (started h ++ [n]) (results h) (called h) (closed h).
Definition log_result (x : nat * Z * Z) (h : history) : history := mkH (nsub h) (started h) (x :: results h) (called h) (closed h).
Definition log_call (x : nat * Z * Z) (h : history) : history := mkH (nsub h) (started h) (results h) (x :: called h) (closed h).
Definition log_close (f : Z) (h : history) : history := mkH (nsub h) (started h) (results h) (called h) (f :: closed h).

Definition get_q (q : qid) (s : state) : queue := match q with RQ => rq s | RQ2 => rq2 s | DQ => dq s | DR => dr s end.
Definition set_q (q : qid) (x : queue) (s : state) : state :=
  match q with
  | RQ => set_queues x (rq2 s) (dq s) (dr s) s
  | RQ2 => set_queues (rq s) x (dq s) (dr s) s
  | DQ => set_queues (rq s) (rq2 s) x (dr s) s
  | DR => set_queues (rq s) (rq2 s) (dq s) x s
  end.

Definition set_next (x : option positive) (r : squidaio_request_t) : squidaio_request_t :=
  mkReq x (request_type r) (cancelled r) (fd r) (bufferp r) (ret r) (err r) (resultp r) (num r).
Definition set_result (n e : Z) (r : squidaio_request_t) : squidaio_request_t :=
  mkReq (next r) (request_type r) (cancelled r) (fd r) (bufferp r) n e (resultp r) (num r).
Definition set_cancelled (r : squidaio_request_t) : squidaio_request_t :=
  mkReq (next r) (request_type r) true (fd r) (bufferp r) (ret r) (err r) None (num r).
Definition set_rdata (x : option positive) (c : squidaio_ctrl_t) : squidaio_ctrl_t :=
  mkCtrl (cfd c) (operation c) (done_handler c) (free_func c) (bufp c) (aio_return c) (aio_errno c) x.
Definition set_return (n e : Z) (c : squidaio_ctrl_t) : squidaio_ctrl_t :=
  mkCtrl (cfd c) (operation c) (done_handler c) (free_func c) (bufp c) n e (rdata c).

Definition upd_req (a : positive) (f : squidaio_request_t -> squidaio_request_t) (s : state) : option state :=
  let? r := reqs s !! a in Some (set_reqs (<[a := f r]> (reqs s)) s).
Definition upd_ctrl (a : positive) (f : squidaio_ctrl_t -> squidaio_ctrl_t) (s : state) : option state :=
  let? c := ctrls s !! a in Some (set_ctrls (<[a := f c]> (ctrls s)) s).

(** [*p = x] *)
Definition store (p : loc) (x : option positive) (s : state) : option state :=
  match p with
  | Head q => Some (set_q q (mkQ x (tailp (get_q q s))) s)
  | Next a => upd_req a (set_next x) s
  end.
Definition set_tailp (q : qid) (p : loc) (s : state) : state := set_q q (mkQ (qhead (get_q q s)) p) s.
Definition empty_q (q : qid) (s : state) : state := set_q q (mkQ None (Head q)) s.

(** ** Workers *)

Definition is_asleep (w : wpc) : bool := match w with WAsleep => true | _ => false end.

(** [pthread_cond_signal]: one of those who wait, the one that is named if it does *)
Definition cond_signal (wake : nat) (s : state) : state :=
  match workers s !! wake with
  | Some WAsleep => set_workers (<[wake := WLock]> (workers s)) s
  | _ =>
      match list_find (fun w => is_asleep w = true) (workers s) with
      | Some (i, _) => set_workers (<[i := WLock]> (workers s)) s
      | None => s
      end
  end.

Definition goto (i : nat) (w : wpc) (s : state) : state := set_workers (<[i := w]> (workers s)) s.

Definition uses_buffer (o : op) : bool := match o with OP_READ | OP_WRITE => true | _ => false end.

Definition live_buffer (b : option positive) (s : state) : bool := match b with Some b => bool_decide (b ∈ bufs s) | None => false end.

(** [squidaio_do_open] and the like: the system call returns [n] and sets [errno] to [e]. *)
Definition squidaio_do (a : positive) (n e : Z) (s : state) : option state :=
  let? r := reqs s !! a in
  assert? negb (uses_buffer (request_type r)) || live_buffer (bufferp r) s in
  upd_req a (set_result n e) (set_hist (log_result (num r, n, e) (hist s)) s).

Definition EINTR : Z := 4.

(** One step of [squidaio_thread_loop] of thread [i]. *)
Definition squidaio_thread_loop (i : nat) (n e : Z) (s : state) : option state :=
  match workers s !! i with
  | None => Some s
  | Some WLock =>
      match rq_mutex s with
      | Some _ => Some s
      | None => Some (goto i WHead (set_mutexes (Some i) (dq_mutex s) s))
      end
  | Some WHead =>
      match qhead (rq s) with
      | None => Some (goto i WAsleep (set_mutexes None (dq_mutex s) s))
      | Some a =>
          let? r := reqs s !! a in
          let s := set_q RQ (mkQ (next r) (match next r with None => Head RQ | Some _ => tailp (rq s) end)) s in
          Some (goto i (WUnlock a) (set_hist (log_start (num r) (hist s)) s))
      end
  | Some WAsleep => Some (goto i WLock s)
  | Some (WUnlock a) =>
      let? s := upd_req a (set_next None) (set_mutexes None (dq_mutex s) s) in
      Some (goto i (WBegin a) s)
  | Some (WBegin a) =>
      let? r := reqs s !! a in
      if cancelled r then
        let? s := upd_req a (set_result (-1) EINTR) s in
        Some (goto i (WDoneLock a) s)
      else Some (goto i (WOp a) s)
  | Some (WOp a) =>
      let? s := squidaio_do a n e s in
      Some (goto i (WDoneLock a) s)
  | Some (WDoneLock a) =>
      match dq_mutex s with
      | Some _ => Some s
      | None => Some (goto i (WPut a) (set_mutexes (rq_mutex s) (Some i) s))
      end
  | Some (WPut a) =>
      let? s := store (tailp (dq s)) (Some a) s in
      Some (goto i WDoneUnlock (set_tailp DQ (Next a) s))
  | Some WDoneUnlock => Some (goto i WSignal (set_mutexes (rq_mutex s) None s))
  | Some WSignal =>
      if done_signalled s then Some (goto i WLock s)
      else Some (goto i WSet s)
  | Some WSet => Some (goto i WWrite (set_signal (pipe s) true s))
  | Some WWrite => Some (goto i WLock (set_signal (pipe s + 1) (done_signalled s) s))
  end.

(** ** Requests *)

(** The tricks with [request_queue2] *)
Definition enqueue (a : positive) (wake : nat) (s : state) : option state :=
  match qhead (rq2 s) with
  | None =>
      match rq_mutex s with
      | None =>
          let? s := store (tailp (rq s)) (Some a) s in
          Some (cond_signal wake (set_tailp RQ (Next a) s))
      | Some _ =>
          let? s := store (tailp (rq2 s)) (Some a) s in
          Some (set_tailp RQ2 (Next a) s)
      end
  | Some _ =>
      let? s := store (tailp (rq2 s)) (Some a) s in
      match rq_mutex s with
      | None =>
          let? s := store (tailp (rq s)) (qhead (rq2 s)) s in
          Some (empty_q RQ2 (cond_signal wake (set_tailp RQ (Next a) s)))
      | Some _ => Some (set_tailp RQ2 (Next a) s)
      end
  end.

Definition squidaio_queue_request (a : positive) (wake : nat) (s : state) : option state :=
  let? s := upd_req a (set_result (-1) 0) s in
  let s := set_len (request_queue_len s + 1) s in
  let? r := reqs s !! a in
  let? c := resultp r in
  let? s := upd_ctrl c (set_rdata (Some a)) s in
  let? s := upd_req a (set_next None) s in
  enqueue a wake s.

(** [a]: the address of the request, [c]: of the control block *)
Definition squidaio_request (o : op) (f : Z) (b : option positive) (a c : positive) (wake : nat) (s : state) : option state :=
  squidaio_queue_request a wake (set_hist (log_new (hist s)) (set_reqs (<[a := mkReq None o false f b 0 0 (Some c) (nsub (hist s))]> (reqs s)) s)).

Definition squidaio_open := squidaio_request OP_OPEN 0 None.
Definition squidaio_read (f : Z) (b : positive) := squidaio_request OP_READ f (Some b).
Definition squidaio_write (f : Z) (b : positive) := squidaio_request OP_WRITE f (Some b).
Definition squidaio_close (f : Z) := squidaio_request OP_CLOSE f None.
Definition squidaio_stat := squidaio_request OP_STAT 0 None.
Definition squidaio_unlink := squidaio_request OP_UNLINK 0 None.
Definition squidaio_truncate := squidaio_request OP_TRUNCATE 0 None.

(** A control block is filled in, the request is made, and the control block
    goes into [used_list]. *)
Definition with_ctrl (ct : squidaio_ctrl_t) (submit : positive -> positive -> nat -> state -> option state) (a c : positive) (wake : nat) (s : state) : option state :=
  let? s := submit a c wake (set_ctrls (<[c := ct]> (ctrls s)) s) in
  Some (set_used (c :: used_list s) s).

(** [h]: the callback data, if there is a handler *)
Definition aioOpen (h : option positive) := with_ctrl (mkCtrl (-2) OP_OPEN h false None 0 0 None) squidaio_open.
Definition aioWrite (f : Z) (b : positive) (h : option positive) (ff : bool) := with_ctrl (mkCtrl f OP_WRITE h ff (Some b) 0 0 None) (squidaio_write f b).
Definition aioRead (f : Z) (b : positive) (h : option positive) (a c : positive) (wake : nat) (s : state) : option state :=
  with_ctrl (mkCtrl f OP_READ h false (Some b) 0 0 None) (squidaio_read f b) a c wake (set_bufs ({[b]} ∪ bufs s) s).
Definition aioStat (h : option positive) := with_ctrl (mkCtrl (-2) OP_STAT h false None 0 0 None) squidaio_stat.
Definition aioUnlink (h : option positive) := with_ctrl (mkCtrl (-2) OP_UNLINK h false None 0 0 None) squidaio_unlink.
Definition aioTruncate (h : option positive) := with_ctrl (mkCtrl (-2) OP_TRUNCATE h false None 0 0 None) squidaio_truncate.

Definition squidaio_cancel (c : positive) (s : state) : option state :=
  let? ct := ctrls s !! c in
  match rdata ct with
  | None => Some s
  | Some a =>
      let? r := reqs s !! a in
      if bool_decide (resultp r = Some c) then
        let? s := upd_req a set_cancelled s in
        upd_ctrl c (set_rdata None) s
      else Some s
  end.

(** [xfree] or [free_func] *)
Definition free_buffer (b : option positive) (s : state) : option state :=
  let? b := b in
  assert? bool_decide (b ∈ bufs s) in
  Some (set_bufs (bufs s ∖ {[b]}) s).

Definition free_data (ct : squidaio_ctrl_t) (s : state) : option state :=
  let? s := if free_func ct then free_buffer (bufp ct) s else Some s in
  if bool_decide (operation ct = OP_READ) then free_buffer (bufp ct) s else Some s.

(** [num] of the request is remembered for the record of callbacks. *)
Definition num_of (ct : squidaio_ctrl_t) (s : state) : nat := match rdata ct ≫= fun a => reqs s !! a with Some r => num r | None => 0 end.

Definition cancel_one (f : Z) (c : positive) (s : state) : option state :=
  let? ct := ctrls s !! c in
  if negb (cfd ct =? f) then Some s
  else
    let n := num_of ct s in
    let? s := squidaio_cancel c s in
    let? s := match done_handler ct with
              | None => Some s
              | Some d =>
                  let s := if bool_decide (d ∈ valid s) then set_hist (log_call (n, -2, -2) (hist s)) s else s in
                  free_data ct s
              end in
    Some (set_ctrls (delete c (ctrls s)) (set_used (filter (fun x => x <> c) (used_list s)) s)).

Fixpoint cancel_loop (f : Z) (l : list positive) (s : state) : option state :=
  match l with
  | [] => Some s
  | c :: l => let? s := cancel_one f c s in cancel_loop f l s
  end.

Definition aioCancel (f : Z) (s : state) : option state := cancel_loop f (used_list s) s.

Definition aioClose (f : Z) (a c : positive) (wake : nat) (s : state) : option state :=
  let? s := aioCancel f s in
  with_ctrl (mkCtrl f OP_CLOSE None false None 0 0 None) (squidaio_close f) a c wake s.

(** ** Results *)

(** The overflow queue, if [request_queue] can be locked *)
Definition kick (wake : nat) (s : state) : option state :=
  match qhead (rq2 s), rq_mutex s with
  | Some _, None =>
      let? s := store (tailp (rq s)) (qhead (rq2 s)) s in
      Some (empty_q RQ2 (cond_signal wake (set_tailp RQ (tailp (rq2 s)) s)))
  | _, _ => Some s
  end.

(** [while (requests->next)]: the last of a chain, and how many came before it *)
Fixpoint last_of (fuel : nat) (m : gmap positive squidaio_request_t) (a : positive) : option (positive * Z) :=
  match fuel with
  | O => None
  | S fuel =>
      let? r := m !! a in
      match next r with
      | None => Some (a, 0)
      | Some b => let? (l, n) := last_of fuel m b in Some (l, n + 1)
      end
  end.

Definition take_done (s : state) : option state :=
  match qhead (dq s), dq_mutex s with
  | Some a, None =>
      let s := empty_q DQ s in
      let? s := store (tailp (dr s)) (Some a) s in
      let s := set_len (request_queue_len s - 1) s in
      let? (l, n) := last_of (S (size (reqs s))) (reqs s) a in
      Some (set_tailp DR (Next l) (set_len (request_queue_len s - n) s))
  | _, _ => Some s
  end.

Definition squidaio_poll_queues (wake : nat) (s : state) : option state :=
  let? s := kick wake s in take_done s.

Definition squidaio_cleanup_request (a : positive) (s : state) : option state :=
  let? r := reqs s !! a in
  let h := match request_type r with
           | OP_OPEN => if cancelled r && (0 <=? ret r) then log_close (ret r) (hist s) else hist s
           | OP_CLOSE => if cancelled r && (ret r <? 0) then log_close (fd r) (hist s) else hist s
           | _ => hist s
           end in
  let s := set_hist h s in
  let? s := match resultp r with
            | Some c => if cancelled r then Some s else upd_ctrl c (set_return (ret r) (err r)) s
            | None => Some s
            end in
  Some (set_reqs (delete a (reqs s)) s).

(** The end of an iteration of [aioCheckCallbacks]: the control block goes. *)
Definition finish (c : positive) (s : state) : option state :=
  let? ct := ctrls s !! c in
  let? s := free_data ct s in
  Some (set_main (MPoll false) (set_ctrls (delete c (ctrls s)) s)).

(** A request of [done_requests]: the rest of [squidaio_poll_done] and what
    [aioCheckCallbacks] does until it calls back.  [a'], [c']: for the close of
    a file that nobody wants any more *)
Definition deliver (polled : bool) (a : positive) (a' c' : positive) (wake : nat) (s : state) : option state :=
  let? r := reqs s !! a in
  let s := set_q DR (mkQ (next r) (match next r with None => Head DR | Some _ => tailp (dr s) end)) s in
  let? s := squidaio_cleanup_request a s in
  if cancelled r then Some (set_main (MPoll polled) s)
  else
    match resultp r with
    | None => Some (set_main MUser s)
    | Some c =>
        let s := set_used (filter (fun x => x <> c) (used_list s)) s in
        let? ct := ctrls s !! c in
        match done_handler ct with
        | None => finish c s
        | Some d =>
            if bool_decide (d ∈ valid s) then
              Some (set_main (MCallback c) (set_hist (log_call (num r, aio_return ct, aio_errno ct) (hist s)) s))
            else
              let? s := if bool_decide (operation ct = OP_OPEN) && (0 <=? aio_return ct) then aioClose (aio_return ct) a' c' wake s else Some s in
              finish c s
        end
    end.

(** One step of the main thread in [aioCheckCallbacks]. *)
Definition main_step (a c : positive) (wake : nat) (s : state) : option state :=
  match main s with
  | MUser => Some s
  | MPoll polled =>
      match qhead (dr s) with
      | Some r => deliver polled r a c wake s
      | None => Some (set_main (if polled then MUser else MSignalled) s)
      end
  | MSignalled => Some (set_main (if done_signalled s then MRead else MKick) s)
  | MRead => Some (set_main MClear (set_signal (Z.max 0 (pipe s - 256)) (done_signalled s) s))
  | MClear => Some (set_main MKick (set_signal (pipe s) false s))
  | MKick => let? s := kick wake s in Some (set_main MTake s)
  | MTake => let? s := take_done s in Some (set_main (MPoll true) s)
  | MCallback c => finish c s
  end.

(** ** Steps *)

(** The main thread goes on in [aioCheckCallbacks], or calls it because of the
    pipe ([squidaio_fdhandler] reads it first) or otherwise; in other code, or
    in a callback, it hands in requests, closes or cancels, callback data becomes
    valid or invalid, buffers are allocated and freed, and it can run
    [squidaio_poll_queues] for [squidaio_sync].  A worker makes a step, with the result of a system call. *)
Inductive action :=
| Worker (i : nat) (n e : Z)
| Main (a c : positive) (wake : nat)
| CheckCallbacks (readable : bool)
| Open (h : option positive) (a c : positive) (wake : nat)
| Read (f : Z) (b : positive) (h : option positive) (a c : positive) (wake : nat)
| Write (f : Z) (b : positive) (h : option positive) (ff : bool) (a c : positive) (wake : nat)
| Stat (h : option positive) (a c : positive) (wake : nat)
| Unlink (h : option positive) (a c : positive) (wake : nat)
| Truncate (h : option positive) (a c : positive) (wake : nat)
| Close (f : Z) (a c : positive) (wake : nat)
| Cancel (f : Z)
| Sync (wake : nat)
| Valid (d : positive) (b : bool)
| Alloc (b : positive)
| Free (b : positive).

Definition step (x : action) (s : state) : option state :=
  match x with
  | Worker i n e => squidaio_thread_loop i n e s
  | Main a c wake => main_step a c wake s
  | CheckCallbacks readable => Some (set_main (MPoll false) (if readable then set_signal (Z.max 0 (pipe s - 256)) (done_signalled s) s else s))
  | Open h a c wake => aioOpen h a c wake s
  | Read f b h a c wake => aioRead f b h a c wake s
  | Write f b h ff a c wake => aioWrite f b h ff a c wake s
  | Stat h a c wake => aioStat h a c wake s
  | Unlink h a c wake => aioUnlink h a c wake s
  | Truncate h a c wake => aioTruncate h a c wake s
  | Close f a c wake => aioClose f a c wake s
  | Cancel f => aioCancel f s
  | Sync wake => squidaio_poll_queues wake s
  | Valid d b => Some (set_valid (if b then {[d]} ∪ valid s else valid s ∖ {[d]}) s)
  | Alloc b => Some (set_bufs ({[b]} ∪ bufs s) s)
  | Free b => free_buffer (Some b) s
  end.

Fixpoint run (l : list action) (s : state) : option state :=
  match l with
  | [] => Some s
  | x :: l => let? s := step x s in run l s
  end.

(** [squidaio_init] with [n] threads *)
Definition squidaio_init (n : nat) : state :=
  mkS ∅ ∅ ∅ [] ∅ (mkQ None (Head RQ)) (mkQ None (Head RQ2)) (mkQ None (Head DQ)) (mkQ None (Head DR)) None None (repeat WLock n) MUser 0 false 0 (mkH 0 [] [] [] []).

End Aio.
