(* ===== verification/AioInv.v ===== *)
(** * Asynchronous disk I/O: what always holds

    Every request is in one place: one of the four queues or the hands of a
    worker.  Requests and control blocks that wait for them name each other.
    While requests are queued some worker is awake, and while results are
    queued the main thread is going to look, or is going to be woken. *)

From Stdlib Require Import ZArith Lia.
From stdpp Require Import base gmap list numbers option fin_maps.
From S2P Require Import Prelude Aio.
Import Aio.

Module AioInv.

(** ** Chains *)

Fixpoint chain (m : gmap positive squidaio_request_t) (h : option positive) (l : list positive) : Prop :=
  match l with
  | [] => h = None
  | a :: l => h = Some a /\ exists r, m !! a = Some r /\ chain m (next r) l
  end.

Definition tail_of (q : qid) (l : list positive) : loc := match last l with None => Head q | Some a => Next a end.

Definition qrep (m : gmap positive squidaio_request_t) (q : qid) (x : queue) (l : list positive) : Prop := chain m (qhead x) l /\ tailp x = tail_of q l.

(** Requests without their links. *)
Definition er (m : gmap positive squidaio_request_t) : gmap positive squidaio_request_t := set_next None <$> m.

Lemma chain_out m h l a r : chain m h l -> a ∉ l -> chain (<[a := r]> m) h l.
Proof.
  revert h. induction l as [|b l IH]; intros h; cbn [chain]; [done|]. intros (-> & x & Hb & Hc) Ha. apply not_elem_of_cons in Ha as [Hab Ha]. split; [done|]. exists x. split; [by rewrite lookup_insert_ne|]. by apply IH.
Qed.

Lemma chain_delete m h l a : chain m h l -> a ∉ l -> chain (delete a m) h l.
Proof.
  revert h. induction l as [|b l IH]; intros h; cbn [chain]; [done|]. intros (-> & x & Hb & Hc) Ha. apply not_elem_of_cons in Ha as [Hab Ha]. split; [done|]. exists x. split; [by rewrite lookup_delete_ne|]. by apply IH.
Qed.

Lemma chain_same m h l a r r' : chain m h l -> m !! a = Some r -> next r' = next r -> chain (<[a := r']> m) h l.
Proof.
  revert h. induction l as [|b l IH]; intros h; cbn [chain]; [done|]. intros (-> & x & Hb & Hc) Ha En. split; [done|]. destruct (decide (a = b)) as [->|Hn].
  - exists r'. split; [by rewrite lookup_insert_eq|]. rewrite En. assert (x = r) as -> by congruence. by apply IH.
  - exists x. split; [by rewrite lookup_insert_ne|]. by apply IH.
Qed.

Lemma chain_in m h l a : chain m h l -> a ∈ l -> exists r, m !! a = Some r.
Proof.
  revert h. induction l as [|b l IH]; intros h; [by intros _ ?%not_elem_of_nil|]. cbn [chain]. intros (_ & x & Hb & Hc) [->|Ha]%elem_of_cons; [by exists x|by apply (IH _ Hc)].
Qed.

(** Linking another chain behind the last request. *)
Lemma chain_splice m h l a l2 r : chain m h (l ++ [a]) -> m !! a = Some r -> chain m (head l2) l2 -> NoDup ((l ++ [a]) ++ l2) -> chain (<[a := set_next (head l2) r]> m) h ((l ++ [a]) ++ l2).
Proof.
  revert h. induction l as [|b l IH]; intros h Hc Ha H2 Hn; cbn [app] in *; cbn [chain] in *.
  - destruct Hc as (-> & x & Hx & _). split; [done|]. exists (set_next (head l2) r). split; [by rewrite lookup_insert_eq|]. cbn [next set_next]. apply list.NoDup_cons in Hn as [Hn _]. by apply chain_out.
  - destruct Hc as (-> & x & Hx & Hc). apply list.NoDup_cons in Hn as [Hb Hn]. assert (b <> a) as Hne by (intros ->; apply Hb; set_solver). split; [done|]. exists x. split; [by rewrite lookup_insert_ne|]. by apply IH.
Qed.

Lemma er_next m a r x : m !! a = Some r -> er (<[a := set_next x r]> m) = er m.
Proof. intros Ha. unfold er. rewrite fmap_insert. apply insert_id. by rewrite lookup_fmap, Ha. Qed.

Lemma er_lookup m a r : m !! a = Some r -> er m !! a = Some (set_next None r).
Proof. intros Ha. unfold er. by rewrite lookup_fmap, Ha. Qed.

Lemma er_some m a r : er m !! a = Some r -> exists r', m !! a = Some r' /\ r = set_next None r'.
Proof. unfold er. rewrite lookup_fmap. destruct (m !! a) as [r'|]; [|done]. cbn. intros [= <-]. by exists r'. Qed.

Lemma er_dom m m' a : er m = er m' -> is_Some (m !! a) <-> is_Some (m' !! a).
Proof.
  intros E. assert (forall n, is_Some (n !! a) <-> is_Some (er n !! a)) as H by (intros n; unfold er; rewrite lookup_fmap, fmap_is_Some; done).
  by rewrite (H m), (H m'), E.
Qed.

(** The same request in both, up to its link. *)
Lemma er_same m m' a r : er m = er m' -> m !! a = Some r -> exists r', m' !! a = Some r' /\ set_next None r' = set_next None r.
Proof. intros E Ha. apply er_lookup in Ha. rewrite E in Ha. apply er_some in Ha as (r' & Ha & Er). by exists r'. Qed.

(** Chains are the same but for what is in [l]. *)
Definition keeps (m m' : gmap positive squidaio_request_t) (l : list positive) : Prop := forall h l', chain m h l' -> (forall y, y ∈ l -> y ∉ l') -> chain m' h l'.

(** [*q.tailp = b]: a chain is linked behind a queue. *)
Lemma queue_link_ok m q x l l2 : qrep m q x l -> chain m (head l2) l2 -> NoDup (l ++ l2) ->
  exists m' h', (forall s, reqs s = m -> get_q q s = x -> store (tailp x) (head l2) s = Some (set_reqs m' (set_q q (mkQ h' (tailp x)) s))) /\
    chain m' h' (l ++ l2) /\ er m' = er m /\ keeps m m' l.
Proof.
  intros [Hc Ht] H2 Hn. unfold tail_of in Ht. destruct l as [|a l _] using rev_ind.
  - cbn in Ht. exists m, (head l2). split; [|split; [done|split; [done|by intros h l' ? _]]]. intros s <- <-. rewrite Ht. cbn [store]. rewrite Ht. by destruct s, q.
  - rewrite last_snoc in Ht. destruct (chain_in _ _ _ a Hc) as [r Hr]; [set_solver|]. exists (<[a := set_next (head l2) r]> m), (qhead x).
    split; [|split; [by apply chain_splice|split; [by apply er_next|]]].
    + intros s <- <-. rewrite Ht. cbn [store]. unfold upd_req. rewrite Hr. cbn [mbind option_bind]. f_equal. rewrite <- Ht. by destruct s as [? ? ? ? ? [] [] [] []], q.
    + intros h l3 H3 Hd. apply chain_out; [done|]. apply Hd. set_solver.
Qed.

(** ** Where requests are *)

(** The contents of the four queues. *)
Record lists := mkL { lq : list positive; lq2 : list positive; ldq : list positive; ldr : list positive }.

(** What a worker has in its hands, and what it has finished with. *)
Definition has_req (w : wpc) : list positive :=
  match w with WUnlock a | WBegin a | WOp a | WDoneLock a | WPut a => [a] | _ => [] end.
Definition has_done (w : wpc) : list positive := match w with WDoneLock a | WPut a => [a] | _ => [] end.

(** The requests whose [next] a worker has cleared. *)
Definition has_clear (w : wpc) : list positive := match w with WBegin a | WOp a | WDoneLock a | WPut a => [a] | _ => [] end.

Definition reps (m : gmap positive squidaio_request_t) (ws : list wpc) (q1 q2 q3 q4 : queue) (L : lists) : Prop :=
  qrep m RQ q1 (lq L) /\ qrep m RQ2 q2 (lq2 L) /\ qrep m DQ q3 (ldq L) /\ qrep m DR q4 (ldr L) /\
  forall i w a, ws !! i = Some w -> a ∈ has_clear w -> chain m (Some a) [a].

Definition held (ws : list wpc) : list positive := ws ≫= has_req.
Definition finished (ws : list wpc) (L : lists) : list positive := (ws ≫= has_done) ++ ldq L ++ ldr L.

Definition all (ws : list wpc) (L : lists) : list positive := lq L ++ lq2 L ++ held ws ++ ldq L ++ ldr L.

Definition placed (m : gmap positive squidaio_request_t) (ws : list wpc) (L : lists) : Prop :=
  NoDup (all ws L) /\ forall a, is_Some (m !! a) <-> a ∈ all ws L.

(** [request_queue_len] counts what the main thread has not taken back. *)
Definition counted (n : Z) (ws : list wpc) (L : lists) : Prop := n = Z.of_nat (length (lq L ++ lq2 L ++ held ws ++ ldq L)).

(** Requests are begun in the order in which they were handed in. *)
Definition ordered (m : gmap positive squidaio_request_t) (h : history) (L : lists) : Prop :=
  started h = seq 0 (length (started h)) /\ (length (started h) + length (lq L ++ lq2 L))%nat = nsub h /\
  forall i a r, (lq L ++ lq2 L) !! i = Some a -> m !! a = Some r -> num r = (length (started h) + i)%nat.

(** ** Mutexes *)

Definition in_rq (w : wpc) : bool := match w with WHead | WUnlock _ => true | _ => false end.
Definition in_dq (w : wpc) : bool := match w with WPut _ | WDoneUnlock => true | _ => false end.

Definition owner (f : wpc -> bool) (ws : list wpc) (o : option nat) : Prop := forall i, o = Some i <-> exists w, ws !! i = Some w /\ f w = true.

Definition mutexes (ws : list wpc) (o1 o2 : option nat) : Prop := owner in_rq ws o1 /\ owner in_dq ws o2.

(** ** Requests and control blocks *)

Definition matches (r : squidaio_request_t) (c : positive) (x : squidaio_ctrl_t) : Prop :=
  resultp r = Some c /\ cancelled r = false /\ request_type r = operation x /\ bufferp r = bufp x /\ (uses_buffer (operation x) = true -> fd r = cfd x).

(** [cb]: the control block that [aioCheckCallbacks] has in its hands *)
Definition pairs (m : gmap positive squidaio_request_t) (cs : gmap positive squidaio_ctrl_t) (used : list positive) (cb : option positive) : Prop :=
  NoDup used /\ (forall c, is_Some (cs !! c) <-> c ∈ used \/ cb = Some c) /\ (forall c, cb = Some c -> c ∉ used) /\
  (forall c x, c ∈ used -> cs !! c = Some x -> exists a r, rdata x = Some a /\ m !! a = Some r /\ matches r c x) /\
  (forall a r, m !! a = Some r -> cancelled r = false -> exists c x, resultp r = Some c /\ c ∈ used /\ cs !! c = Some x /\ rdata x = Some a) /\
  (forall a r, m !! a = Some r -> cancelled r = true -> resultp r = None).

Definition frees (x : squidaio_ctrl_t) : bool := free_func x || bool_decide (operation x = OP_READ).

Definition holds (cs : gmap positive squidaio_ctrl_t) (used : list positive) (c : positive) (b : positive) : Prop :=
  exists x, cs !! c = Some x /\ bufp x = Some b /\ (frees x = true \/ c ∈ used).

(** A buffer lives as long as a request may use it, or somebody is to free it,
    and belongs to one control block only. *)
Definition buffers (cs : gmap positive squidaio_ctrl_t) (used : list positive) (bs : gset positive) : Prop :=
  (forall c x, cs !! c = Some x -> (uses_buffer (operation x) = true -> is_Some (bufp x)) /\ (free_func x = true -> operation x = OP_WRITE)) /\
  (forall c b, holds cs used c b -> b ∈ bs) /\
  (forall c c' b, holds cs used c b -> holds cs used c' b -> c = c').

(** No request is cancelled while a worker reads or writes for it. *)
Definition busy (m : gmap positive squidaio_request_t) (ws : list wpc) : Prop :=
  forall i a r, ws !! i = Some (WOp a) -> m !! a = Some r -> uses_buffer (request_type r) = true -> cancelled r = false.

(** ** Callbacks *)

Definition numbers (h : history) : list nat := (fun x => x.1.1) <$> called h.

Definition calls (m : gmap positive squidaio_request_t) (h : history) : Prop :=
  NoDup (numbers h) /\ (forall n, n ∈ numbers h -> (n < nsub h)%nat) /\
  (forall a r, m !! a = Some r -> (num r < nsub h)%nat /\ (cancelled r = false -> num r ∉ numbers h)) /\
  (forall a b r r', m !! a = Some r -> m !! b = Some r' -> num r = num r' -> a = b).

Definition reported (h : history) (x : nat * Z * Z) : Prop := x.2 = -2 /\ x.1.2 = -2 \/ x ∈ results h.

Definition resulted (m : gmap positive squidaio_request_t) (ws : list wpc) (h : history) (L : lists) : Prop :=
  (forall a r, a ∈ finished ws L -> m !! a = Some r -> cancelled r = false -> (num r, ret r, err r) ∈ results h) /\
  (forall x, x ∈ called h -> reported h x).

(** ** Wake-ups *)

Definition will_signal (w : wpc) : bool := match w with WPut _ | WDoneUnlock | WSignal | WSet | WWrite => true | _ => false end.

Definition some_worker (f : wpc -> bool) (ws : list wpc) : Prop := exists i w, ws !! i = Some w /\ f w = true.

(** The main thread is not going to look at [done_signalled]. *)
Definition past_signal (p : mpc) : bool := match p with MUser | MPoll true | MKick | MTake => true | _ => false end.

Definition is_write (w : wpc) : bool := match w with WWrite => true | _ => false end.

Definition wakes (ws : list wpc) (p : mpc) (n : Z) (sig : bool) (L : lists) : Prop :=
  (lq L <> [] -> some_worker (fun w => negb (is_asleep w)) ws) /\ 0 <= n /\
  (sig = true -> past_signal p = true -> 0 < n \/ some_worker is_write ws) /\
  (p = MUser -> ldq L ++ ldr L <> [] -> 0 < n \/ some_worker will_signal ws) /\
  (p = MPoll true -> ldq L <> [] -> 0 < n \/ some_worker will_signal ws).

Definition cb_of (p : mpc) : option positive := match p with MCallback c => Some c | _ => None end.

(** All of it, but for what depends on where the main thread is. *)
Record core (s : state) (L : lists) (cb : option positive) : Prop := mkCore {
  c_reps : reps (reqs s) (workers s) (rq s) (rq2 s) (dq s) (dr s) L;
  c_placed : placed (er (reqs s)) (workers s) L;
  c_counted : counted (request_queue_len s) (workers s) L;
  c_ordered : ordered (er (reqs s)) (hist s) L;
  c_mutexes : mutexes (workers s) (rq_mutex s) (dq_mutex s);
  c_pairs : pairs (er (reqs s)) (ctrls s) (used_list s) cb;
  c_buffers : buffers (ctrls s) (used_list s) (bufs s);
  c_busy : busy (er (reqs s)) (workers s);
  c_calls : calls (er (reqs s)) (hist s);
  c_resulted : resulted (er (reqs s)) (workers s) (hist s) L;
  c_some : (0 < length (workers s))%nat
}.

Definition inv (s : state) : Prop := exists L, core s L (cb_of (main s)) /\ wakes (workers s) (main s) (pipe s) (done_signalled s) L.

(** ** A worker moves *)

Section move.
Context {ws : list wpc} {i : nat} {w : wpc} (Hi : ws !! i = Some w) (w' : wpc).

Lemma move_bind {A} (f : wpc -> list A) : exists l1 l2, ws ≫= f = l1 ++ f w ++ l2 /\ <[i := w']> ws ≫= f = l1 ++ f w' ++ l2.
Proof.
  exists (take i ws ≫= f), (drop (S i) ws ≫= f). split.
  - rewrite <- (take_drop_middle ws i w Hi) at 1. by rewrite bind_app.
  - rewrite insert_take_drop by (by eapply lookup_lt_Some). by rewrite bind_app.
Qed.

Lemma move_lookup j x : <[i := w']> ws !! j = Some x -> j = i /\ x = w' \/ j <> i /\ ws !! j = Some x.
Proof. intros [(-> & <- & _)|(Hn & H)]%list_lookup_insert_Some; [by left|right]. by split. Qed.

Lemma move_here : <[i := w']> ws !! i = Some w'.
Proof. apply list_lookup_insert_eq. by eapply lookup_lt_Some. Qed.

Lemma owner_keep f o : owner f ws o -> f w' = f w -> owner f (<[i := w']> ws) o.
Proof.
  intros Ho E j. rewrite (Ho j). split.
  - intros (x & Hx & Hf). destruct (decide (j = i)) as [->|Hn].
    + exists w'. split; [apply move_here|congruence].
    + exists x. by rewrite list_lookup_insert_ne.
  - intros (x & [(-> & ->)|[Hn Hx]]%move_lookup & Hf); [exists w|exists x]; split; congruence.
Qed.

Lemma owner_leave f o : owner f ws o -> f w = true -> f w' = false -> owner f (<[i := w']> ws) None.
Proof.
  intros Ho Hw Hw' j. split; [done|]. intros (x & [(-> & ->)|[Hn Hx]]%move_lookup & Hf); [congruence|]. exfalso.
  assert (o = Some i) as E1 by (apply Ho; by exists w). assert (o = Some j) as E2 by (apply Ho; by exists x). congruence.
Qed.

Lemma owner_enter f : owner f ws None -> f w' = true -> owner f (<[i := w']> ws) (Some i).
Proof.
  intros Ho Hw' j. split.
  - intros [= <-]. exists w'. split; [apply move_here|done].
  - intros (x & [(-> & ->)|[Hn Hx]]%move_lookup & Hf); [done|]. assert (None = Some j) as E by (apply Ho; by exists x). done.
Qed.

Lemma some_keep f : some_worker f ws -> (f w = true -> f w' = true) -> some_worker f (<[i := w']> ws).
Proof.
  intros (j & x & Hx & Hf) H. destruct (decide (j = i)) as [->|Hn].
  - exists i, w'. split; [apply move_here|]. apply H. congruence.
  - exists j, x. by rewrite list_lookup_insert_ne.
Qed.

Lemma some_here f : f w' = true -> some_worker f (<[i := w']> ws).
Proof. intros H. exists i, w'. split; [apply move_here|done]. Qed.

Lemma busy_move m : busy m ws -> (forall a r, w' = WOp a -> m !! a = Some r -> uses_buffer (request_type r) = true -> cancelled r = false) -> busy m (<[i := w']> ws).
Proof. intros Hb H j a r [(-> & E)|[_ Hj]]%move_lookup; [by apply H|by apply (Hb j)]. Qed.
End move.

(** ** The result of a request is written *)

Definition alike (r r' : squidaio_request_t) : Prop :=
  request_type r' = request_type r /\ cancelled r' = cancelled r /\ fd r' = fd r /\ bufferp r' = bufferp r /\ resultp r' = resultp r /\ num r' = num r.

Section alike.
Context {m : gmap positive squidaio_request_t} {a : positive} {r r' : squidaio_request_t} (Ha : m !! a = Some r) (Hr : alike r r').

Lemma alike_back b x : <[a := r']> m !! b = Some x -> exists y, m !! b = Some y /\ alike y x.
Proof. intros [(<- & <-)|(Hn & H)]%lookup_insert_Some; [by exists r|]. by exists x. Qed.

Lemma alike_forth b x : m !! b = Some x -> exists y, <[a := r']> m !! b = Some y /\ alike x y.
Proof.
  intros H. destruct (decide (a = b)) as [->|Hn].
  - exists r'. rewrite lookup_insert_eq. assert (x = r) as -> by congruence. done.
  - exists x. by rewrite lookup_insert_ne.
Qed.

Lemma placed_alike ws L : placed m ws L -> placed (<[a := r']> m) ws L.
Proof. intros [Hn Hd]. split; [done|]. intros b. rewrite <- Hd, lookup_insert_is_Some'. split; [intros [<-|?]|]; [by exists r|done|by right]. Qed.

Lemma ordered_alike h L : ordered m h L -> ordered (<[a := r']> m) h L.
Proof. intros (H1 & H2 & H3). split; [done|split; [done|]]. intros i b x Hi (y & Hy & Hxy)%alike_back. destruct Hxy as (_ & _ & _ & _ & _ & ->). by apply (H3 i b). Qed.

Lemma busy_alike ws : busy m ws -> busy (<[a := r']> m) ws.
Proof. intros H i b x Hi (y & Hy & Hxy)%alike_back. destruct Hxy as (-> & -> & _). by apply (H i b). Qed.

Lemma calls_alike h : calls m h -> calls (<[a := r']> m) h.
Proof.
  intros (H1 & H2 & H3 & H4). split; [done|split; [done|split]].
  - intros b x (y & Hy & Hxy)%alike_back. destruct Hxy as (_ & -> & _ & _ & _ & ->). by apply (H3 b).
  - intros b c x x' (y & Hy & Hxy)%alike_back (y' & Hy' & Hxy')%alike_back. destruct Hxy as (_ & _ & _ & _ & _ & ->), Hxy' as (_ & _ & _ & _ & _ & ->). by apply H4.
Qed.

Lemma pairs_alike cs used cb : pairs m cs used cb -> pairs (<[a := r']> m) cs used cb.
Proof.
  intros (H1 & H2 & H3 & H4 & H5 & H6). split; [done|split; [done|split; [done|split; [|split]]]].
  - intros c x Hc Hx. destruct (H4 c x Hc Hx) as (b & y & Hb & Hy & Hm). destruct (alike_forth b y Hy) as (z & Hz & Hyz). exists b, z. split; [done|split; [done|]].
    unfold matches in *. destruct Hyz as (-> & -> & -> & -> & -> & _). done.
  - intros b x (y & Hy & Hxy)%alike_back. destruct Hxy as (_ & -> & _ & _ & -> & _). by apply H5.
  - intros b x (y & Hy & Hxy)%alike_back. destruct Hxy as (_ & -> & _ & _ & -> & _). by apply H6 with b.
Qed.
End alike.

(** ** Steps of a worker *)

Lemma reps_move {ws : list wpc} {i : nat} {w : wpc} (Hi : ws !! i = Some w) (w' : wpc) m : (forall j x a, ws !! j = Some x -> a ∈ has_clear x -> chain m (Some a) [a]) -> (forall a, a ∈ has_clear w' -> chain m (Some a) [a]) ->
  forall j x a, <[i := w']> ws !! j = Some x -> a ∈ has_clear x -> chain m (Some a) [a].
Proof. intros H H' j x a [(-> & ->)|[_ Hj]]%(move_lookup Hi w'); [by apply H'|by apply (H j x)]. Qed.

Lemma er_upd f a r m : m !! a = Some r -> er (<[a := f r]> m) = <[a := set_next None (f r)]> (er m).
Proof. intros H. unfold er. by rewrite fmap_insert. Qed.

Lemma core_move s L cb i w w' o1 o2 : core s L cb -> workers s !! i = Some w -> has_req w' = has_req w -> has_done w' = has_done w ->
  (forall a, a ∈ has_clear w' -> chain (reqs s) (Some a) [a]) -> mutexes (<[i := w']> (workers s)) o1 o2 -> busy (er (reqs s)) (<[i := w']> (workers s)) -> core (goto i w' (set_mutexes o1 o2 s)) L cb.
Proof.
  intros C Hi Er Ed Hcl Hm Hb. destruct (move_bind Hi w' has_req) as (l1 & l2 & E1 & E2). destruct (move_bind Hi w' has_done) as (l3 & l4 & E3 & E4).
  assert (held (<[i := w']> (workers s)) = held (workers s)) as EH by (unfold held; rewrite E1, E2; congruence).
  assert (finished (<[i := w']> (workers s)) L = finished (workers s) L) as EF by (unfold finished; rewrite E3, E4; congruence).
  destruct C as [C1 C2 C3 C4 C5 C6 C7 C8 C9 C10 C11]. constructor; cbn [goto set_workers set_mutexes reqs ctrls bufs used_list rq rq2 dq dr rq_mutex dq_mutex workers request_queue_len hist]; try done.
  - destruct C1 as (R1 & R2 & R3 & R4 & R5). split; [done|split; [done|split; [done|split; [done|]]]]. by apply (reps_move Hi).
  - unfold placed, all in *. by rewrite EH.
  - unfold counted in *. by rewrite EH.
  - unfold resulted in *. by rewrite EF.
  - by rewrite length_insert.
Qed.

Lemma qrep_pop m q x a l r : qrep m q x (a :: l) -> m !! a = Some r -> qrep m q (mkQ (next r) (match next r with None => Head q | Some _ => tailp x end)) l.
Proof.
  intros [Hc Ht] Ha. cbn [chain] in Hc. destruct Hc as (_ & y & Hy & Hc). assert (y = r) as -> by congruence. split; [done|]. cbn [tailp]. rewrite Ht. unfold tail_of.
  destruct l as [|b l]; cbn [chain] in Hc; [by rewrite Hc|]. destruct Hc as (-> & _). by rewrite last_cons_cons.
Qed.

Lemma qrep_head m q x l : qrep m q x l -> qhead x = head l.
Proof. intros [Hc _]. destruct l; [done|]. by destruct Hc as (-> & _). Qed.

Lemma reps_out m ws q1 q2 q3 q4 L a r : reps m ws q1 q2 q3 q4 L -> a ∉ lq L ++ lq2 L ++ ldq L ++ ldr L -> next r = None -> reps (<[a := r]> m) ws q1 q2 q3 q4 L.
Proof.
  intros ([R1 T1] & [R2 T2] & [R3 T3] & [R4 T4] & R5) Ha En. rewrite !not_elem_of_app in Ha. destruct Ha as (A1 & A2 & A3 & A4).
  do 4 (split; [by split; [apply chain_out|]|]). intros i w b Hi Hb. destruct (decide (b = a)) as [->|Hn].
  - split; [done|]. exists r. rewrite lookup_insert_eq. done.
  - apply chain_out; [by apply (R5 i w)|]. by intros ->%list_elem_of_singleton.
Qed.

Lemma reps_same m ws q1 q2 q3 q4 L a r r' : reps m ws q1 q2 q3 q4 L -> m !! a = Some r -> next r' = next r -> reps (<[a := r']> m) ws q1 q2 q3 q4 L.
Proof.
  intros ([R1 T1] & [R2 T2] & [R3 T3] & [R4 T4] & R5) Ha En. do 4 (split; [by split; [eapply chain_same|]|]). intros i w b Hi Hb. eapply chain_same; [by apply (R5 i w)|done|done].
Qed.

Lemma placed_perm m ws L ws' L' : placed m ws L -> all ws' L' ≡ₚ all ws L -> placed m ws' L'.
Proof. intros [Hn Hd] E. split; [by rewrite E|]. intros a. by rewrite E. Qed.

Lemma counted_perm n ws L ws' L' : counted n ws L -> lq L' ++ lq2 L' ++ held ws' ++ ldq L' ≡ₚ lq L ++ lq2 L ++ held ws ++ ldq L -> counted n ws' L'.
Proof. intros -> E. unfold counted. by rewrite E. Qed.

(** What a worker has is in no queue. *)
Lemma held_out s L cb i w a : core s L cb -> workers s !! i = Some w -> a ∈ has_req w -> a ∉ lq L ++ lq2 L ++ ldq L ++ ldr L /\ exists r, reqs s !! a = Some r.
Proof.
  intros C Hi Ha. destruct (c_placed _ _ _ C) as [Hn Hd]. assert (a ∈ held (workers s)) as Hh by (apply list_elem_of_bind; exists w; split; [done|]; by eapply list_elem_of_lookup_2).
  split.
  - unfold all in Hn. rewrite !NoDup_app in Hn. rewrite !elem_of_app. destruct Hn as (_ & N1 & _ & N2 & _ & N3 & _). intros [H|[H|[H|H]]].
    + apply (N1 a H). rewrite !elem_of_app. tauto.
    + apply (N2 a H). rewrite !elem_of_app. tauto.
    + apply (N3 a Hh). rewrite elem_of_app. tauto.
    + apply (N3 a Hh). rewrite elem_of_app. tauto.
  - assert (is_Some (er (reqs s) !! a)) as [x Hx] by (apply Hd; unfold all; rewrite !elem_of_app; tauto). apply er_some in Hx as (r & Hr & _). by exists r.
Qed.

Lemma core_take s L cb i a l r : core s L cb -> workers s !! i = Some WHead -> lq L = a :: l -> reqs s !! a = Some r ->
  core (goto i (WUnlock a) (set_hist (log_start (num r) (hist s)) (set_q RQ (mkQ (next r) (match next r with None => Head RQ | Some _ => tailp (rq s) end)) s))) (mkL l (lq2 L) (ldq L) (ldr L)) cb.
Proof.
  intros C Hi El Hr. destruct (move_bind Hi (WUnlock a) has_req) as (l1 & l2 & E1 & E2). destruct (move_bind Hi (WUnlock a) has_done) as (l3 & l4 & E3 & E4). cbn [has_req has_done app] in E1, E2, E3, E4.
  destruct C as [C1 C2 C3 C4 C5 C6 C7 C8 C9 C10 C11].
  constructor; cbn [goto set_workers set_hist set_q set_queues reqs ctrls bufs used_list rq rq2 dq dr rq_mutex dq_mutex workers request_queue_len hist]; try done.
  - destruct C1 as (R1 & R2 & R3 & R4 & R5). rewrite El in R1. split; [by apply qrep_pop with a|split; [done|split; [done|split; [done|]]]]. apply (reps_move Hi); [done|]. by intros b ?%not_elem_of_nil.
  - apply (placed_perm _ _ _ _ _ C2). unfold all, held. cbn [lq lq2 ldq ldr]. rewrite E1, E2, El. cbn [app]. rewrite <- !app_assoc. solve_Permutation.
  - apply (counted_perm _ _ _ _ _ C3). unfold held. cbn [lq lq2 ldq]. rewrite E1, E2, El. solve_Permutation.
  - destruct C4 as (O1 & O2 & O3). unfold ordered. rewrite El in O2, O3. cbn [started nsub log_start lq lq2]. rewrite length_app. cbn [length]. cbn [app length] in O2, O3.
    assert (num r = length (started (hist s))) as En by (pose proof (O3 0%nat a _ eq_refl (er_lookup _ _ _ Hr)) as E; cbn in E; lia).
    split; [|split; [lia|]].
    + rewrite O1 at 1. rewrite seq_app, En. done.
    + intros j b x Hj Hx. rewrite (O3 (S j) b x Hj Hx). lia.
  - destruct C5 as [M1 M2]. split; by apply (owner_keep Hi).
  - apply (busy_move Hi); [done|]. intros ? ? [=].
  - unfold resulted, finished in *. rewrite E4. rewrite E3 in C10. done.
  - by rewrite length_insert.
Qed.

Lemma core_clear s L cb a r : core s L cb -> a ∉ lq L ++ lq2 L ++ ldq L ++ ldr L -> reqs s !! a = Some r -> core (set_reqs (<[a := set_next None r]> (reqs s)) s) L cb.
Proof.
  intros [C1 C2 C3 C4 C5 C6 C7 C8 C9 C10 C11] Ha Hr. constructor; cbn [set_reqs reqs ctrls bufs used_list rq rq2 dq dr rq_mutex dq_mutex workers request_queue_len hist]; rewrite ?(er_next _ _ _ _ Hr); try done. by apply reps_out.
Qed.

(** A worker has a result. *)
Lemma core_done s L cb i w a r n e h : core s L cb -> workers s !! i = Some w -> w = WBegin a \/ w = WOp a -> reqs s !! a = Some r ->
  nsub h = nsub (hist s) -> started h = started (hist s) -> called h = called (hist s) -> results (hist s) ⊆ results h -> (cancelled r = false -> (num r, n, e) ∈ results h) ->
  core (goto i (WDoneLock a) (set_reqs (<[a := set_result n e r]> (reqs s)) (set_hist h s))) L cb.
Proof.
  intros C Hi Hw Hr H1 H2 H3 H4 H5. assert (has_req w = [a] /\ has_done w = [] /\ has_clear w = [a] /\ in_rq w = false /\ in_dq w = false) as (W1 & W2 & W3 & W4 & W5) by (by destruct Hw as [-> | ->]).
  destruct (held_out _ _ _ i w a C Hi) as [Hout _]; [rewrite W1; set_solver|].
  destruct (move_bind Hi (WDoneLock a) has_req) as (l1 & l2 & E1 & E2). destruct (move_bind Hi (WDoneLock a) has_done) as (l3 & l4 & E3 & E4). cbn [has_req has_done] in E2, E4. rewrite W1 in E1. rewrite W2 in E3.
  pose proof (er_lookup _ _ _ Hr) as Her. assert (alike (set_next None r) (set_next None (set_result n e r))) as Hal by done.
  destruct C as [C1 C2 C3 C4 C5 C6 C7 C8 C9 C10 C11].
  constructor; cbn [goto set_workers set_hist set_reqs reqs ctrls bufs used_list rq rq2 dq dr rq_mutex dq_mutex workers request_queue_len hist]; rewrite ?(er_upd (set_result n e) _ _ _ Hr); try done.
  - assert (reps (<[a := set_result n e r]> (reqs s)) (workers s) (rq s) (rq2 s) (dq s) (dr s) L) as (R1 & R2 & R3 & R4 & R5) by (by eapply reps_same).
    split; [done|split; [done|split; [done|split; [done|]]]]. apply (reps_move Hi); [done|]. intros b Hb. apply (R5 i w); [done|by rewrite W3].
  - apply (placed_alike Her). apply (placed_perm _ _ _ _ _ C2). unfold all, held. by rewrite E1, E2.
  - apply (counted_perm _ _ _ _ _ C3). unfold held. by rewrite E1, E2.
  - apply (ordered_alike Her Hal). unfold ordered. by rewrite H1, H2.
  - destruct C5 as [M1 M2]. split; apply (owner_keep Hi); by rewrite ?W4, ?W5.
  - by apply (pairs_alike Her Hal).
  - apply (busy_alike Her Hal), (busy_move Hi); [done|]. intros ? ? [=].
  - apply (calls_alike Her Hal). unfold calls, numbers. by rewrite H1, H3.
  - destruct C10 as [D1 D2]. split.
    + intros b x Hb Hx Hc. destruct (decide (b = a)) as [->|Hn].
      * rewrite lookup_insert_eq in Hx. apply (inj Some) in Hx as <-. by apply H5.
      * rewrite lookup_insert_ne in Hx by done. apply H4, (D1 b x); [|done|done]. unfold finished in *. rewrite E4 in Hb. rewrite E3. rewrite !elem_of_app in *. rewrite list_elem_of_singleton in Hb. tauto.
    + intros x Hx. rewrite H3 in Hx. destruct (D2 x Hx) as [?|?]; [by left|right]. by apply H4.
  - by rewrite length_insert.
Qed.

(** ** Linking *)

(** A request is in one place only. *)
Lemma apart ws L y : NoDup (all ws L) ->
  (y ∈ lq L -> y ∉ lq2 L /\ y ∉ held ws /\ y ∉ ldq L /\ y ∉ ldr L) /\ (y ∈ lq2 L -> y ∉ lq L /\ y ∉ held ws /\ y ∉ ldq L /\ y ∉ ldr L) /\
  (y ∈ ldq L -> y ∉ lq L /\ y ∉ lq2 L /\ y ∉ held ws /\ y ∉ ldr L) /\ (y ∈ ldr L -> y ∉ lq L /\ y ∉ lq2 L /\ y ∉ held ws /\ y ∉ ldq L).
Proof.
  intros Hn. unfold all in Hn. rewrite !NoDup_app in Hn. destruct Hn as (_ & N1 & _ & N2 & _ & N3 & _ & N4 & _). setoid_rewrite elem_of_app in N1. setoid_rewrite elem_of_app in N1. setoid_rewrite elem_of_app in N1.
  setoid_rewrite elem_of_app in N2. setoid_rewrite elem_of_app in N2. setoid_rewrite elem_of_app in N3. specialize (N1 y). specialize (N2 y). specialize (N3 y). specialize (N4 y). tauto.
Qed.

Lemma clear_held ws i w a : ws !! i = Some w -> a ∈ has_clear w -> a ∈ held ws.
Proof. intros Hi Ha. apply list_elem_of_bind. exists w. split; [|by eapply list_elem_of_lookup_2]. destruct w; cbn in *; first [done|by apply not_elem_of_nil in Ha]. Qed.

Lemma qrep_frame m m' q x l l3 : keeps m m' l -> qrep m q x l3 -> (forall y, y ∈ l -> y ∉ l3) -> qrep m' q x l3.
Proof. intros F [Hc Ht] Hd. split; [by apply F|done]. Qed.

Lemma clear_frame m m' ws l : keeps m m' l -> (forall i w a, ws !! i = Some w -> a ∈ has_clear w -> chain m (Some a) [a]) ->
  (forall y, y ∈ l -> y ∉ held ws) -> forall i w a, ws !! i = Some w -> a ∈ has_clear w -> chain m' (Some a) [a].
Proof. intros F H Hd i w a Hi Ha. apply F; [by apply (H i w)|]. intros y Hy ->%list_elem_of_singleton. apply (Hd a Hy). by eapply clear_held. Qed.

Definition same_main (s s' : state) : Prop := main s' = main s /\ pipe s' = pipe s /\ done_signalled s' = done_signalled s.

Lemma core_put s L cb i a : core s L cb -> workers s !! i = Some (WPut a) ->
  exists s', (let? s := store (tailp (dq s)) (Some a) s in Some (goto i WDoneUnlock (set_tailp DQ (Next a) s))) = Some s' /\
    core s' (mkL (lq L) (lq2 L) (ldq L ++ [a]) (ldr L)) cb /\ workers s' = <[i := WDoneUnlock]> (workers s) /\ same_main s s'.
Proof.
  intros C Hi. destruct (held_out _ _ _ i _ a C Hi) as [Hout [r Hr]]; [cbn; set_solver|].
  destruct (move_bind Hi WDoneUnlock has_req) as (l1 & l2 & E1 & E2). destruct (move_bind Hi WDoneUnlock has_done) as (l3 & l4 & E3 & E4). cbn [has_req has_done] in E1, E2, E3, E4.
  destruct C as [C1 C2 C3 C4 C5 C6 C7 C8 C9 C10 C11]. destruct C1 as (R1 & R2 & R3 & R4 & R5). rewrite !not_elem_of_app in Hout. destruct Hout as (O1 & O2 & O3 & O4).
  destruct (queue_link_ok (reqs s) DQ (dq s) (ldq L) [a] R3) as (m' & h' & Hs & Hc & He & F).
  - apply (R5 i (WPut a)); [done|]. cbn. set_solver.
  - destruct C2 as [Hn _]. unfold all in Hn. rewrite !NoDup_app in Hn. apply NoDup_app. split; [tauto|]. split; [|apply NoDup_singleton]. intros y Hy ->%list_elem_of_singleton. done.
  - cbn [head] in Hs. rewrite (Hs s eq_refl eq_refl). cbn [mbind option_bind]. eexists. split; [reflexivity|]. split; [|split; [reflexivity|by repeat split]].
    pose proof (fun y => apart _ _ y (proj1 C2)) as HA.
    constructor; cbn [goto set_workers set_tailp get_q set_q set_queues set_reqs qhead tailp reqs ctrls bufs used_list rq rq2 dq dr rq_mutex dq_mutex workers request_queue_len hist]; rewrite ?He; try done.
    + split; [apply (qrep_frame (reqs s) m' _ _ (ldq L)); [done|done|intros y Hy; specialize (HA y); tauto]|]. split; [apply (qrep_frame (reqs s) m' _ _ (ldq L)); [done|done|intros y Hy; specialize (HA y); tauto]|].
      split; [split; [done|]; unfold tail_of; cbn [ldq tailp]; by rewrite last_snoc|]. split; [apply (qrep_frame (reqs s) m' _ _ (ldq L)); [done|done|intros y Hy; specialize (HA y); tauto]|].
      apply (reps_move Hi); [|by intros b ?%not_elem_of_nil]. apply (clear_frame (reqs s) m' (workers s) (ldq L)); [done|done|]. intros y Hy. specialize (HA y). tauto.
    + apply (placed_perm _ _ _ _ _ C2). unfold all, held. cbn [lq lq2 ldq ldr]. rewrite E1, E2. cbn [app]. rewrite <- !app_assoc. solve_Permutation.
    + apply (counted_perm _ _ _ _ _ C3). unfold held. cbn [lq lq2 ldq]. rewrite E1, E2. solve_Permutation.
    + destruct C5 as [M1 M2]. split; by apply (owner_keep Hi).
    + apply (busy_move Hi); [done|]. intros ? ? [=].
    + destruct C10 as [D1 D2]. split; [|done]. intros b x Hb. apply D1. unfold finished in *. rewrite E3. rewrite E4 in Hb. cbn [ldq ldr app] in Hb. rewrite !elem_of_app in *. tauto.
    + by rewrite length_insert.
Qed.

End AioInv.
