(* ===== verification/AioWorker.v ===== *)
(** * Asynchronous disk I/O: what worker threads do *)

From Stdlib Require Import ZArith Lia.
From stdpp Require Import base gmap list numbers option fin_maps.
From S2P Require Import Prelude Aio AioInv.
Import Aio AioInv.

Module AioWorker.

Section wakes.
Context {ws : list wpc} {i : nat} {w : wpc} (Hi : ws !! i = Some w) (w' : wpc).

Lemma wakes_move p n sig L L' : wakes ws p n sig L -> (lq L' <> [] -> lq L <> [] /\ is_asleep w' = false) -> ldq L' = ldq L -> ldr L' = ldr L ->
  (is_write w = true -> is_write w' = true) -> (will_signal w = true -> will_signal w' = true) -> wakes (<[i := w']> ws) p n sig L'.
Proof.
  intros (W1 & W2 & W3 & W4 & W5) H1 H2 H3 H4 H5. unfold wakes. rewrite H2, H3. split; [|split; [done|split; [|split]]].
  - intros [Hl Hs]%H1. apply (some_keep Hi); [by apply W1|]. by rewrite Hs.
  - intros A B. destruct (W3 A B) as [?|?]; [by left|right]. by apply (some_keep Hi).
  - intros A B. destruct (W4 A B) as [?|?]; [by left|right]. by apply (some_keep Hi).
  - intros A B. destruct (W5 A B) as [?|?]; [by left|right]. by apply (some_keep Hi).
Qed.

(** The request has been put into [done_queue]. *)
Lemma wakes_put p n sig L L' : wakes ws p n sig L -> lq L' = lq L -> is_write w = false -> is_asleep w' = false -> will_signal w' = true -> wakes (<[i := w']> ws) p n sig L'.
Proof.
  intros (W1 & W2 & W3 & W4 & W5) H1 H2 H3 H4. unfold wakes. rewrite H1. split; [|split; [done|split; [|split]]].
  - intros Hl. apply (some_keep Hi); [by apply W1|]. by rewrite H3.
  - intros A B. destruct (W3 A B) as [?|?]; [by left|right]. apply (some_keep Hi); [done|]. by rewrite H2.
  - intros _ _. right. by apply (some_here Hi).
  - intros _ _. right. by apply (some_here Hi).
Qed.

(** Somebody else has promised to wake the main thread. *)
Lemma wakes_leave p n L : wakes ws p n true L -> is_write w = false -> is_asleep w' = false -> wakes (<[i := w']> ws) p n true L.
Proof.
  intros (W1 & W2 & W3 & W4 & W5) H1 H2.
  assert (past_signal p = true -> 0 < n \/ some_worker is_write (<[i := w']> ws)) as J.
  { intros Hp. destruct (W3 eq_refl Hp) as [?|?]; [by left|right]. apply (some_keep Hi); [done|]. by rewrite H1. }
  assert (past_signal p = true -> 0 < n \/ some_worker will_signal (<[i := w']> ws)) as K.
  { intros [?|(j & x & Hj & Hx)]%J; [by left|right]. exists j, x. split; [done|]. by destruct x. }
  split; [|split; [done|split; [by intros _|split]]].
  - intros Hl. apply (some_keep Hi); [by apply W1|]. by rewrite H2.
  - intros -> _. by apply K.
  - intros -> _. by apply K.
Qed.

Lemma wakes_set p n sig L : wakes ws p n sig L -> is_write w' = true -> wakes (<[i := w']> ws) p n true L.
Proof.
  intros (W1 & W2 & W3 & W4 & W5) H. assert (forall f, f w' = true -> some_worker f (<[i := w']> ws)) as Hs by (intros f; by apply (some_here Hi)).
  assert (w' = WWrite) as -> by (by destruct w'). split; [|split; [done|split; [|split]]]; intros; [by apply Hs|right; by apply Hs..].
Qed.

Lemma wakes_write p n sig L : wakes ws p n sig L -> is_asleep w' = false -> wakes (<[i := w']> ws) p (n + 1) sig L.
Proof.
  intros (W1 & W2 & W3 & W4 & W5) H. split; [|split; [lia|split; [intros; left; lia|split; intros; left; lia]]].
  intros Hl. apply (some_keep Hi); [by apply W1|]. by rewrite H.
Qed.
End wakes.

(** A step that takes nothing from a queue and puts nothing into one. *)
Lemma inv_move s i w w' o1 o2 : inv s -> workers s !! i = Some w -> has_req w' = has_req w -> has_done w' = has_done w -> has_clear w' = has_clear w ->
  mutexes (<[i := w']> (workers s)) o1 o2 -> busy (er (reqs s)) (<[i := w']> (workers s)) ->
  is_asleep w' = false -> (is_write w = true -> is_write w' = true) -> (will_signal w = true -> will_signal w' = true) -> inv (goto i w' (set_mutexes o1 o2 s)).
Proof.
  intros (L & C & W) Hi H1 H2 H3 H4 H5 H6 H7 H8. exists L. split; [|by apply (wakes_move Hi _ _ _ _ L)].
  apply (core_move _ _ _ i w); try done. destruct (c_reps _ _ _ C) as (_ & _ & _ & _ & R). intros a Ha. apply (R i w); [done|]. by rewrite <- H3.
Qed.

Lemma not_op s i w w' : inv s -> workers s !! i = Some w -> (forall a, w' <> WOp a) -> busy (er (reqs s)) (<[i := w']> (workers s)).
Proof. intros (L & C & _) Hi Hn. apply (busy_move Hi); [by apply C|]. intros a r E. by destruct (Hn a). Qed.

Lemma goto_same i w s : goto i w (set_mutexes (rq_mutex s) (dq_mutex s) s) = goto i w s.
Proof. by destruct s. Qed.

Lemma owners s : inv s -> owner in_rq (workers s) (rq_mutex s) /\ owner in_dq (workers s) (dq_mutex s).
Proof. by intros (L & C & _); apply C. Qed.

(** A step within or outside of the critical sections. *)
Lemma inv_step s i w w' : inv s -> workers s !! i = Some w -> has_req w' = has_req w -> has_done w' = has_done w -> has_clear w' = has_clear w -> in_rq w' = in_rq w -> in_dq w' = in_dq w ->
  (forall a, w' <> WOp a) -> is_asleep w' = false -> (is_write w = true -> is_write w' = true) -> (will_signal w = true -> will_signal w' = true) -> inv (goto i w' s).
Proof.
  intros I Hi H1 H2 H3 H4 H5 H6 H7 H8 H9. destruct (owners s I) as [M1 M2]. rewrite <- goto_same. apply (inv_move _ i w); try done; [|by apply (not_op _ i w)]. split; by apply (owner_keep Hi).
Qed.

Lemma lock_ok i s : inv s -> workers s !! i = Some WLock -> rq_mutex s = None -> inv (goto i WHead (set_mutexes (Some i) (dq_mutex s) s)).
Proof.
  intros I Hi Em. destruct (owners s I) as [M1 M2]. rewrite Em in M1. apply (inv_move _ i WLock); try done; [|by apply (not_op _ i WLock)]. split; [by apply (owner_enter Hi)|by apply (owner_keep Hi)].
Qed.

Lemma done_lock_ok i a s : inv s -> workers s !! i = Some (WDoneLock a) -> dq_mutex s = None -> inv (goto i (WPut a) (set_mutexes (rq_mutex s) (Some i) s)).
Proof.
  intros I Hi Em. destruct (owners s I) as [M1 M2]. rewrite Em in M2. apply (inv_move _ i (WDoneLock a)); try done; [|by apply (not_op _ i (WDoneLock a))]. split; [by apply (owner_keep Hi)|by apply (owner_enter Hi)].
Qed.

Lemma done_unlock_ok i s : inv s -> workers s !! i = Some WDoneUnlock -> inv (goto i WSignal (set_mutexes (rq_mutex s) None s)).
Proof.
  intros I Hi. destruct (owners s I) as [M1 M2]. apply (inv_move _ i WDoneUnlock); try done; [|by apply (not_op _ i WDoneUnlock)]. split; [by apply (owner_keep Hi)|by apply (owner_leave Hi _ _ _ M2)].
Qed.

Lemma head_ok i s : inv s -> workers s !! i = Some WHead -> exists s', squidaio_thread_loop i 0 0 s = Some s' /\ inv s'.
Proof.
  intros I Hi. destruct (owners s I) as [M1 M2]. pose proof (not_op s i WHead WAsleep I Hi) as Hb. destruct I as (L & C & W). unfold squidaio_thread_loop. rewrite Hi.
  destruct (c_reps _ _ _ C) as (R1 & R2 & R3 & R4 & R5). rewrite (qrep_head _ _ _ _ R1). destruct (lq L) as [|a l] eqn:El; cbn [head].
  - eexists. split; [reflexivity|]. exists L. split.
    + apply (core_move _ _ _ i WHead); try done; [by intros ? ?%not_elem_of_nil| |by apply Hb]. split; [by apply (owner_leave Hi _ _ _ M1)|by apply (owner_keep Hi)].
    + apply (wakes_move Hi _ _ _ _ L); done || by rewrite El.
  - destruct (chain_in _ _ _ a (proj1 R1)) as [r Hr]; [set_solver|]. rewrite Hr. cbn [mbind option_bind]. eexists. split; [reflexivity|].
    exists (mkL l (lq2 L) (ldq L) (ldr L)). split; [by apply (core_take s L)|]. apply (wakes_move Hi _ _ _ _ L); try done. by rewrite El.
Qed.

Lemma worker_unlock_ok i a s : inv s -> workers s !! i = Some (WUnlock a) -> exists s', squidaio_thread_loop i 0 0 s = Some s' /\ inv s'.
Proof.
  intros I Hi. destruct (owners s I) as [M1 M2]. pose proof (not_op s i (WUnlock a) (WBegin a) I Hi) as Hb. destruct I as (L & C & W). unfold squidaio_thread_loop. rewrite Hi.
  destruct (held_out _ _ _ i _ a C Hi) as [Hout [r Hr]]; [cbn; set_solver|]. unfold upd_req. cbn [set_mutexes reqs]. rewrite Hr. cbn [mbind option_bind]. eexists. split; [reflexivity|].
  exists L. split; [|by apply (wakes_move Hi _ _ _ _ L)].
  apply (core_move (set_reqs (<[a := set_next None r]> (reqs s)) s) L _ i (WUnlock a) (WBegin a) None (dq_mutex s)); try done.
  - by apply core_clear.
  - intros b ->%list_elem_of_singleton. cbn [set_reqs reqs]. split; [done|]. exists (set_next None r). by rewrite lookup_insert_eq.
  - split; [by apply (owner_leave Hi _ _ _ M1)|by apply (owner_keep Hi)].
  - cbn [set_reqs reqs workers]. rewrite (er_next _ _ _ _ Hr). by apply Hb.
Qed.

Lemma begin_ok i a s : inv s -> workers s !! i = Some (WBegin a) -> exists s', squidaio_thread_loop i 0 0 s = Some s' /\ inv s'.
Proof.
  intros I Hi. destruct (owners s I) as [M1 M2]. pose proof I as (L & C & W). unfold squidaio_thread_loop. rewrite Hi.
  destruct (held_out _ _ _ i _ a C Hi) as [Hout [r Hr]]; [cbn; set_solver|]. unfold upd_req. rewrite Hr. cbn [mbind option_bind].
  destruct (cancelled r) eqn:Ec; (eexists; split; [reflexivity|]).
  - exists L. split; [|by apply (wakes_move Hi _ _ _ _ L)]. pose proof (core_done s L _ i (WBegin a) a r (-1) EINTR (hist s) C Hi) as H.
    replace (set_hist (hist s) s) with s in H by (by destruct s). apply H; try done; [by left|]. by rewrite Ec.
  - rewrite <- goto_same. apply (inv_move _ i (WBegin a)); try done; [split; by apply (owner_keep Hi)|]. apply (busy_move Hi); [by apply C|]. intros b x [= <-] Hx _.
    rewrite (er_lookup _ _ _ Hr) in Hx. apply (inj Some) in Hx as <-. done.
Qed.

(** A request that reads or writes and is not cancelled has its buffer. *)
Lemma buffer_live s L cb a r : core s L cb -> reqs s !! a = Some r -> cancelled r = false -> uses_buffer (request_type r) = true -> live_buffer (bufferp r) s = true.
Proof.
  intros C Hr Hc Hu. destruct (c_pairs _ _ _ C) as (_ & _ & _ & P4 & P5 & _). destruct (c_buffers _ _ _ C) as (B1 & B2 & _).
  destruct (P5 a _ (er_lookup _ _ _ Hr) Hc) as (c & x & _ & Hin & Hx & Hd). destruct (P4 c x Hin Hx) as (a' & r' & Ha' & Hr' & Hm).
  assert (a' = a) as -> by congruence. rewrite (er_lookup _ _ _ Hr) in Hr'. apply (inj Some) in Hr' as <-. destruct Hm as (_ & _ & Ht & Hb & _). cbn in Ht, Hb.
  destruct (B1 c x Hx) as [[b Eb] _]; [by rewrite <- Ht|]. rewrite Hb, Eb. cbn [live_buffer]. apply bool_decide_eq_true_2, (B2 c). exists x. split; [done|split; [done|]]. by right.
Qed.

Lemma op_ok i a n e s : inv s -> workers s !! i = Some (WOp a) -> exists s', squidaio_thread_loop i n e s = Some s' /\ inv s'.
Proof.
  intros (L & C & W) Hi. unfold squidaio_thread_loop. rewrite Hi. destruct (held_out _ _ _ i _ a C Hi) as [Hout [r Hr]]; [cbn; set_solver|].
  unfold squidaio_do, upd_req. rewrite Hr. cbn [mbind option_bind set_hist reqs]. rewrite Hr. cbn [mbind option_bind].
  assert (negb (uses_buffer (request_type r)) || live_buffer (bufferp r) s = true) as ->.
  { destruct (uses_buffer (request_type r)) eqn:Eu; [|done]. cbn [negb orb]. apply (buffer_live s L _ a r C); try done. apply (c_busy _ _ _ C i a (set_next None r)); try done. by apply er_lookup. }
  cbn [mbind option_bind]. eexists. split; [reflexivity|]. exists L. split; [|by apply (wakes_move Hi _ _ _ _ L)].
  apply (core_done s L _ i (WOp a)); try done; [by right| |]; cbn [log_result results].
  - intros x Hx. by right.
  - intros _. by left.
Qed.

Lemma worker_put_ok i a s : inv s -> workers s !! i = Some (WPut a) -> exists s', squidaio_thread_loop i 0 0 s = Some s' /\ inv s'.
Proof.
  intros (L & C & W) Hi. unfold squidaio_thread_loop. rewrite Hi. destruct (core_put s L _ i a C Hi) as (s' & Es & C' & Ew & Em & Ep & Ed).
  exists s'. split; [done|]. exists (mkL (lq L) (lq2 L) (ldq L ++ [a]) (ldr L)). rewrite Em, Ep, Ed, Ew. split; [done|]. by apply (wakes_put Hi _ _ _ _ L).
Qed.

Lemma core_goto s L cb i w w' n b : core s L cb -> workers s !! i = Some w -> has_req w' = [] -> has_req w = [] -> in_rq w = false -> in_dq w = false -> in_rq w' = false -> in_dq w' = false -> core (goto i w' (set_signal n b s)) L cb.
Proof.
  intros C Hi H1 H2 H3 H4 H5 H6. pose proof (c_mutexes _ _ _ C) as [M1 M2].
  assert (core (goto i w' (set_mutexes (rq_mutex s) (dq_mutex s) s)) L cb) as [C1 C2 C3 C4 C5 C6 C7 C8 C9 C10 C11]; [|by constructor].
  apply (core_move _ _ _ i w); try done; [by rewrite H1, H2|by destruct w, w'|destruct w'; try done; by intros ? ?%not_elem_of_nil| |].
  - split; apply (owner_keep Hi); by rewrite ?H3, ?H4, ?H5, ?H6.
  - apply (busy_move Hi); [by apply C|]. intros a r ->. done.
Qed.

Lemma worker_ok i n e s : inv s -> exists s', squidaio_thread_loop i n e s = Some s' /\ inv s'.
Proof.
  intros I. destruct (workers s !! i) as [w|] eqn:Hi; [|exists s; unfold squidaio_thread_loop; by rewrite Hi].
  destruct w as [| | |a|a|a|a|a| | | |].
  - unfold squidaio_thread_loop. rewrite Hi. destruct (rq_mutex s) eqn:Em; [by exists s|]. eexists. split; [reflexivity|]. by apply lock_ok.
  - destruct (head_ok i s I Hi) as (s' & E & I'). exists s'. split; [|done]. rewrite <- E. unfold squidaio_thread_loop. by rewrite Hi.
  - unfold squidaio_thread_loop. rewrite Hi. eexists. split; [reflexivity|]. by apply (inv_step _ i WAsleep).
  - destruct (worker_unlock_ok i a s I Hi) as (s' & E & I'). exists s'. split; [|done]. rewrite <- E. unfold squidaio_thread_loop. by rewrite Hi.
  - destruct (begin_ok i a s I Hi) as (s' & E & I'). exists s'. split; [|done]. rewrite <- E. unfold squidaio_thread_loop. by rewrite Hi.
  - by apply (op_ok i a).
  - unfold squidaio_thread_loop. rewrite Hi. destruct (dq_mutex s) eqn:Em; [by exists s|]. eexists. split; [reflexivity|]. by apply done_lock_ok.
  - destruct (worker_put_ok i a s I Hi) as (s' & E & I'). exists s'. split; [|done]. rewrite <- E. unfold squidaio_thread_loop. by rewrite Hi.
  - unfold squidaio_thread_loop. rewrite Hi. eexists. split; [reflexivity|]. by apply done_unlock_ok.
  - unfold squidaio_thread_loop. rewrite Hi. destruct (done_signalled s) eqn:Es; (eexists; split; [reflexivity|]); [|by apply (inv_step _ i WSignal)].
    destruct I as (L & C & W). exists L. split; [|rewrite Es in W; cbn [goto set_workers done_signalled pipe main workers]; rewrite Es; by apply (wakes_leave Hi)].
    replace s with (set_signal (pipe s) (done_signalled s) s) by (by destruct s). by apply (core_goto _ _ _ i WSignal).
  - unfold squidaio_thread_loop. rewrite Hi. eexists. split; [reflexivity|]. destruct I as (L & C & W). exists L. split; [by apply (core_goto _ _ _ i WSet)|]. by apply (wakes_set Hi _ _ _ (done_signalled s)).
  - unfold squidaio_thread_loop. rewrite Hi. eexists. split; [reflexivity|]. destruct I as (L & C & W). exists L. split; [by apply (core_goto _ _ _ i WWrite)|]. by apply (wakes_write Hi).
Qed.

End AioWorker.
