(* ===== verification/AioMain.v ===== *)
(** * Asynchronous disk I/O: what the main thread does *)

From Stdlib Require Import ZArith Lia.
From stdpp Require Import base gmap list numbers option fin_maps.
From S2P Require Import Prelude Aio AioInv AioWorker.
Import Aio AioInv AioWorker.

Module AioMain.

(** ** Signals *)

(** At most one worker has been woken. *)
Definition woken (ws ws' : list wpc) : Prop := ws' = ws \/ exists i, ws !! i = Some WAsleep /\ ws' = <[i := WLock]> ws.

Abbreviation awake := (some_worker (fun w => negb (is_asleep w))).

Lemma cond_signal_ok wake s : exists ws', cond_signal wake s = set_workers ws' s /\ woken (workers s) ws' /\ ((0 < length (workers s))%nat -> awake ws').
Proof.
  assert (forall i, workers s !! i = Some WAsleep -> woken (workers s) (<[i := WLock]> (workers s)) /\ awake (<[i := WLock]> (workers s))) as H.
  { intros i Hi. split; [right; by exists i|]. by apply (some_here Hi). }
  unfold cond_signal.
  assert (exists ws', match list_find (fun w => is_asleep w = true) (workers s) with Some (i, _) => set_workers (<[i := WLock]> (workers s)) s | None => s end = set_workers ws' s /\ woken (workers s) ws' /\ ((0 < length (workers s))%nat -> awake ws')) as D.
  { destruct (list_find _ _) as [[i w]|] eqn:Ef.
    - apply list_find_Some in Ef as (Hi & Hw & _). destruct w; try done. exists (<[i := WLock]> (workers s)). split; [done|]. destruct (H i Hi). by split.
    - exists (workers s). split; [by destruct s|]. split; [by left|]. intros Hl. destruct (workers s) as [|w ws] eqn:Ew; [cbn in Hl; lia|]. exists 0%nat, w. split; [done|].
      apply list_find_None in Ef. apply Forall_cons in Ef as [Ef _]. destruct (is_asleep w); [by destruct Ef|done]. }
  destruct (workers s !! wake) as [[]|] eqn:Hw; try exact D. exists (<[wake := WLock]> (workers s)). split; [done|]. destruct (H wake Hw). by split.
Qed.

Section woken.
Context {ws ws' : list wpc} (Hw : woken ws ws').

Lemma woken_held : held ws' = held ws.
Proof. destruct Hw as [->|(i & Hi & ->)]; [done|]. destruct (move_bind Hi WLock has_req) as (l1 & l2 & E1 & E2). unfold held. by rewrite E1, E2. Qed.

Lemma woken_finished L L' : ldq L' = ldq L -> ldr L' = ldr L -> finished ws' L' = finished ws L.
Proof. intros Eq Er. unfold finished. rewrite Eq, Er. destruct Hw as [->|(i & Hi & ->)]; [done|]. destruct (move_bind Hi WLock has_done) as (l1 & l2 & E1 & E2). by rewrite E1, E2. Qed.

Lemma woken_resulted m h L L' : resulted m ws h L -> ldq L' = ldq L -> ldr L' = ldr L -> resulted m ws' h L'.
Proof. intros H Eq Er. unfold resulted. by rewrite (woken_finished L L'). Qed.

Lemma woken_mutexes o1 o2 : mutexes ws o1 o2 -> mutexes ws' o1 o2.
Proof. destruct Hw as [->|(i & Hi & ->)]; [done|]. intros [M1 M2]. split; by apply (owner_keep Hi). Qed.

Lemma woken_busy m : busy m ws -> busy m ws'.
Proof. destruct Hw as [->|(i & Hi & ->)]; [done|]. intros H. apply (busy_move Hi); [done|]. intros ? ? [=]. Qed.

Lemma woken_clear m : (forall i w a, ws !! i = Some w -> a ∈ has_clear w -> chain m (Some a) [a]) -> forall i w a, ws' !! i = Some w -> a ∈ has_clear w -> chain m (Some a) [a].
Proof. destruct Hw as [->|(i & Hi & ->)]; [done|]. intros H. apply (reps_move Hi); [done|]. by intros ? ?%not_elem_of_nil. Qed.

Lemma woken_some f : some_worker f ws -> f WAsleep = false -> some_worker f ws'.
Proof. destruct Hw as [->|(i & Hi & ->)]; [done|]. intros H Hf. apply (some_keep Hi); [done|]. by rewrite Hf. Qed.

Lemma woken_length : length ws' = length ws.
Proof. destruct Hw as [->|(i & Hi & ->)]; [done|]. apply length_insert. Qed.

Lemma woken_wakes p n sig L L' : wakes ws p n sig L -> (lq L' = lq L \/ awake ws') -> ldq L' = ldq L -> ldr L' = ldr L -> wakes ws' p n sig L'.
Proof.
  intros (W1 & W2 & W3 & W4 & W5) H1 H2 H3. unfold wakes. rewrite H2, H3. split; [|split; [done|split; [|split]]].
  - destruct H1 as [->|?]; [|done]. intros Hl. by apply woken_some; [apply W1|].
  - intros A B. destruct (W3 A B) as [?|?]; [by left|right]. by apply woken_some.
  - intros A B. destruct (W4 A B) as [?|?]; [by left|right]. by apply woken_some.
  - intros A B. destruct (W5 A B) as [?|?]; [by left|right]. by apply woken_some.
Qed.
End woken.

(** ** Queues *)

(** [s'] is [s] with [l] behind the requests that wait. *)
Record queued (s s' : state) (l : list positive) (L L' : lists) : Prop := mkQueued {
  q_reps : reps (reqs s') (workers s') (rq s') (rq2 s') (dq s') (dr s') L';
  q_order : lq L' ++ lq2 L' = (lq L ++ lq2 L) ++ l;
  q_done : ldq L' = ldq L /\ ldr L' = ldr L;
  q_woken : woken (workers s) (workers s');
  q_awake : lq L' = lq L \/ awake (workers s');
  q_er : er (reqs s') = er (reqs s);
  q_same : s' = set_workers (workers s') (set_reqs (reqs s') (set_queues (rq s') (rq2 s') (dq s) (dr s) s))
}.

(** [l] is linked behind [request_queue] and a worker is woken. *)
Lemma append_rq s L l t wake : qrep (reqs s) RQ (rq s) (lq L) -> qrep (reqs s) DQ (dq s) (ldq L) -> qrep (reqs s) DR (dr s) (ldr L) ->
  (forall i w a, workers s !! i = Some w -> a ∈ has_clear w -> chain (reqs s) (Some a) [a]) -> (0 < length (workers s))%nat ->
  chain (reqs s) (head l) l -> last l = Some t -> NoDup (lq L ++ l) -> (forall y, y ∈ lq L -> y ∉ held (workers s) /\ y ∉ ldq L /\ y ∉ ldr L) ->
  exists s1, store (tailp (rq s)) (head l) s = Some s1 /\ let s' := empty_q RQ2 (cond_signal wake (set_tailp RQ (Next t) s1)) in
    reps (reqs s') (workers s') (rq s') (rq2 s') (dq s') (dr s') (mkL (lq L ++ l) [] (ldq L) (ldr L)) /\ woken (workers s) (workers s') /\ awake (workers s') /\ er (reqs s') = er (reqs s) /\
    s' = set_workers (workers s') (set_reqs (reqs s') (set_queues (rq s') (rq2 s') (dq s) (dr s) s)) /\ rq2 s1 = rq2 s /\ (rq2 s = mkQ None (Head RQ2) -> s' = cond_signal wake (set_tailp RQ (Next t) s1)).
Proof.
  intros R1 R3 R4 R5 Hl Hc Ht Hn Ha. destruct (queue_link_ok (reqs s) RQ (rq s) (lq L) l R1 Hc Hn) as (m' & h' & Hs & Hc' & He & K). rewrite (Hs s eq_refl eq_refl). eexists. split; [reflexivity|]. cbn zeta.
  destruct (cond_signal_ok wake (set_tailp RQ (Next t) (set_reqs m' (set_q RQ (mkQ h' (tailp (rq s))) s)))) as (ws' & Ew & Hw & Haw). rewrite Ew. clear Ew. cbn [set_tailp set_reqs set_q set_queues get_q qhead tailp workers] in Hw, Haw. specialize (Haw Hl).
  cbn [empty_q set_workers set_tailp set_reqs set_q set_queues get_q qhead tailp reqs workers rq rq2 dq dr].
  split; [|split; [done|split; [done|split; [done|split; [by destruct s|split; [done|intros E; destruct s; cbn in *; by subst]]]]]].
  split; [split; [done|]; unfold tail_of; cbn [lq tailp]; by rewrite last_app, Ht|]. split; [done|].
  split; [apply (qrep_frame (reqs s) _ _ _ (lq L)); [done|done|intros y Hy; by apply Ha]|].
  split; [apply (qrep_frame (reqs s) _ _ _ (lq L)); [done|done|intros y Hy; by apply Ha]|].
  apply (woken_clear Hw), (clear_frame (reqs s) m' _ (lq L)); [done|done|intros y Hy; by apply Ha].
Qed.

Lemma append_rq2 s L a : reps (reqs s) (workers s) (rq s) (rq2 s) (dq s) (dr s) L -> chain (reqs s) (Some a) [a] -> NoDup (lq2 L ++ [a]) ->
  (forall y, y ∈ lq2 L -> y ∉ lq L /\ y ∉ held (workers s) /\ y ∉ ldq L /\ y ∉ ldr L) ->
  exists m' h', store (tailp (rq2 s)) (Some a) s = Some (set_reqs m' (set_q RQ2 (mkQ h' (tailp (rq2 s))) s)) /\ er m' = er (reqs s) /\ h' = head (lq2 L ++ [a]) /\
    reps m' (workers s) (rq s) (mkQ h' (Next a)) (dq s) (dr s) (mkL (lq L) (lq2 L ++ [a]) (ldq L) (ldr L)).
Proof.
  intros (R1 & R2 & R3 & R4 & R5) Hc Hn Ha. destruct (queue_link_ok (reqs s) RQ2 (rq2 s) (lq2 L) [a] R2 Hc Hn) as (m' & h' & Hs & Hc' & He & K). exists m', h'. split; [by apply Hs|split; [done|]].
  assert (qrep m' RQ2 (mkQ h' (Next a)) (lq2 L ++ [a])) as R2' by (split; [done|]; unfold tail_of; cbn [tailp]; by rewrite last_snoc).
  split; [by apply (qrep_head _ _ _ _ R2')|].
  split; [apply (qrep_frame (reqs s) _ _ _ (lq2 L)); [done|done|intros y Hy; by apply Ha]|]. split; [done|].
  split; [apply (qrep_frame (reqs s) _ _ _ (lq2 L)); [done|done|intros y Hy; by apply Ha]|].
  split; [apply (qrep_frame (reqs s) _ _ _ (lq2 L)); [done|done|intros y Hy; by apply Ha]|].
  apply (clear_frame (reqs s) m' _ (lq2 L)); [done|done|intros y Hy; by apply Ha].
Qed.

Lemma NoDup_queues ws L : NoDup (all ws L) -> NoDup (lq L ++ lq2 L).
Proof. unfold all. rewrite app_assoc, NoDup_app. tauto. Qed.

Lemma kick_ok wake s L : reps (reqs s) (workers s) (rq s) (rq2 s) (dq s) (dr s) L -> NoDup (all (workers s) L) -> (0 < length (workers s))%nat ->
  exists s' L', kick wake s = Some s' /\ queued s s' [] L L'.
Proof.
  intros R Hn Hl. assert (queued s s [] L L) as Q by (constructor; [done|by rewrite app_nil_r|done|by left|by left|done|by destruct s]).
  pose proof R as (R1 & R2 & R3 & R4 & R5). unfold kick. rewrite (qrep_head _ _ _ _ R2). destruct (head (lq2 L)) as [a|] eqn:Eh; [|by exists s, L]. destruct (rq_mutex s); [by exists s, L|].
  assert (exists t, last (lq2 L) = Some t) as [t Ht] by (destruct (lq2 L) as [|b l _] using rev_ind; [done|]; exists b; by rewrite last_snoc).
  destruct (append_rq s L (lq2 L) t wake R1 R3 R4 R5 Hl) as (s1 & Es & H); [by rewrite <- (qrep_head _ _ _ _ R2); apply R2|done|by apply (NoDup_queues (workers s))|intros y Hy; pose proof (apart _ _ y Hn); tauto|].
  rewrite Eh in Es. rewrite Es. cbn [mbind option_bind]. cbn zeta in H. destruct H as (H1 & H2 & H3 & H4 & H5 & H6 & _). rewrite H6.
  assert (tailp (rq2 s) = Next t) as -> by (rewrite (proj2 R2); unfold tail_of; by rewrite Ht).
  eexists _, (mkL (lq L ++ lq2 L) [] (ldq L) (ldr L)). split; [reflexivity|]. constructor; [exact H1|cbn [lq lq2]; by rewrite !app_nil_r|done|exact H2|by right|exact H4|exact H5].
Qed.

Lemma enqueue_ok a wake s L : reps (reqs s) (workers s) (rq s) (rq2 s) (dq s) (dr s) L -> NoDup (all (workers s) L) -> (0 < length (workers s))%nat ->
  chain (reqs s) (Some a) [a] -> a ∉ all (workers s) L -> exists s' L', enqueue a wake s = Some s' /\ queued s s' [a] L L'.
Proof.
  intros R Hn Hl Hc Ha. pose proof R as (R1 & R2 & R3 & R4 & R5). pose proof (fun y => apart _ _ y Hn) as HA. unfold all in Ha. rewrite !not_elem_of_app in Ha. destruct Ha as (A1 & A2 & A3 & A4 & A5).
  assert (NoDup ((lq L ++ lq2 L) ++ [a])) as Hn'.
  { apply NoDup_app. split; [by apply (NoDup_queues (workers s))|]. split; [|apply NoDup_singleton]. intros y Hy ->%list_elem_of_singleton. rewrite elem_of_app in Hy. tauto. }
  destruct (append_rq2 s L a R Hc) as (m' & h' & Es & He & Eh & R'); [rewrite <- app_assoc in Hn'; apply NoDup_app in Hn'; tauto|intros y Hy; specialize (HA y); tauto|].
  assert (forall s', s' = set_tailp RQ2 (Next a) (set_reqs m' (set_q RQ2 (mkQ h' (tailp (rq2 s))) s)) -> queued s s' [a] L (mkL (lq L) (lq2 L ++ [a]) (ldq L) (ldr L))) as Q2.
  { intros s' ->. constructor; [done|cbn; by rewrite app_assoc|done|by left|by left|done|by destruct s]. }
  unfold enqueue. rewrite (qrep_head _ _ _ _ R2). destruct (lq2 L) as [|b l] eqn:E2; cbn [head].
  - destruct (rq_mutex s); [rewrite Es; cbn [mbind option_bind]; eexists _, _; split; [reflexivity|by apply Q2]|].
    destruct (append_rq s L [a] a wake R1 R3 R4 R5 Hl) as (s1 & Es' & H); [done|done|by rewrite app_nil_r in Hn'|intros y Hy; specialize (HA y); tauto|].
    cbn [head] in Es'. rewrite Es'. cbn [mbind option_bind]. cbn zeta in H. destruct H as (H1 & H2 & H3 & H4 & H5 & H6 & H7).
    assert (rq2 s = mkQ None (Head RQ2)) as E by (destruct R2 as [C2 T2]; cbn in C2, T2; destruct (rq2 s); cbn in *; by subst). specialize (H7 E). rewrite <- H7.
    eexists _, (mkL (lq L ++ [a]) [] (ldq L) (ldr L)). split; [reflexivity|]. constructor; [exact H1|cbn [lq lq2]; by rewrite E2, !app_nil_r|done|exact H2|by right|exact H4|exact H5].
  - rewrite Es. cbn [mbind option_bind set_reqs set_q set_queues rq_mutex]. destruct (rq_mutex s) eqn:Em; [eexists _, _; split; [reflexivity|by apply Q2]|].
    destruct R' as (R1' & R2' & R3' & R4' & R5').
    destruct (append_rq (set_reqs m' (set_q RQ2 (mkQ h' (tailp (rq2 s))) s)) L ((b :: l) ++ [a]) a wake R1' R3' R4' R5' Hl) as (s1 & Es' & H).
    + destruct R2' as [R2' _]. cbn [qhead lq2] in R2'. by rewrite <- Eh.
    + apply last_snoc.
    + by rewrite app_assoc.
    + intros y Hy. specialize (HA y). tauto.
    + rewrite <- Eh in Es'. cbn [qhead rq2 set_reqs set_q set_queues rq] in Es'. cbn [qhead rq2 rq]. unfold set_reqs, set_q, set_queues in *. cbn [rq rq2 dq dr qhead] in *. rewrite Es'. cbn [mbind option_bind]. cbn zeta in H. destruct H as (H1 & H2 & H3 & H4 & H5 & H6 & _).
      eexists _, (mkL (lq L ++ (b :: l) ++ [a]) [] (ldq L) (ldr L)). split; [reflexivity|]. constructor; [exact H1|cbn [lq lq2]; by rewrite E2, app_nil_r, app_assoc|done|exact H2|by right|by rewrite H4|]. rewrite H5 at 1. by destruct s.
Qed.

Lemma queued_fields s s' l L L' : queued s s' l L L' ->
  ctrls s' = ctrls s /\ bufs s' = bufs s /\ used_list s' = used_list s /\ rq_mutex s' = rq_mutex s /\ dq_mutex s' = dq_mutex s /\ request_queue_len s' = request_queue_len s /\ hist s' = hist s /\ same_main s s'.
Proof. intros [_ _ _ _ _ _ E]. unfold same_main. rewrite E. cbn. tauto. Qed.

Lemma queued_all s s' l L L' : queued s s' l L L' -> all (workers s') L' = (lq L ++ lq2 L) ++ l ++ held (workers s) ++ ldq L ++ ldr L.
Proof. intros [_ E1 [E2 E3] Hw _ _ _]. unfold all. rewrite app_assoc, E1, E2, E3, (woken_held Hw). by rewrite <- !app_assoc. Qed.

Lemma queued_counted s s' l L L' n : queued s s' l L L' -> counted n (workers s) L -> counted (n + Z.of_nat (length l)) (workers s') L'.
Proof. intros [_ E1 [E2 E3] Hw _ _ _] ->. unfold counted. rewrite (app_assoc (lq L')), E1, E2, (woken_held Hw). rewrite !length_app. lia. Qed.

Lemma core_kick s s' L L' cb : core s L cb -> queued s s' [] L L' -> core s' L' cb.
Proof.
  intros C Q. destruct (queued_fields _ _ _ _ _ Q) as (E1 & E2 & E3 & E4 & E5 & E6 & E7 & _). pose proof (queued_all _ _ _ _ _ Q) as EA. pose proof (queued_counted _ _ _ _ _ _ Q (c_counted _ _ _ C)) as HC.
  destruct Q as [Q1 Q2 [Q3 Q4] Q5 _ Q6 _]. destruct C as [C1 C2 C3 C4 C5 C6 C7 C8 C9 C10 C11]. rewrite app_nil_r in Q2.
  constructor; rewrite ?Q6, ?E1, ?E2, ?E3, ?E4, ?E5, ?E6, ?E7; try done.
  - apply (placed_perm _ _ _ _ _ C2). rewrite EA. unfold all. by rewrite <- !app_assoc.
  - cbn in HC. by rewrite Z.add_0_r in HC.
  - unfold ordered. by rewrite Q2.
  - by apply (woken_mutexes Q5).
  - by apply (woken_busy Q5).
  - by apply (woken_resulted Q5 _ _ L).
  - by rewrite (woken_length Q5).
Qed.

(** ** New requests *)

Lemma queue_request_eq a c r x wake s : reqs s !! a = Some r -> resultp r = Some c -> ctrls s !! c = Some x ->
  squidaio_queue_request a wake s = enqueue a wake (set_reqs (<[a := set_next None (set_result (-1) 0 r)]> (reqs s)) (set_ctrls (<[c := set_rdata (Some a) x]> (ctrls s)) (set_len (request_queue_len s + 1) s))).
Proof.
  intros Hr Hc Hx. unfold squidaio_queue_request, upd_req, upd_ctrl. rewrite Hr. cbn [mbind option_bind set_reqs set_len reqs]. rewrite lookup_insert_eq. cbn [mbind option_bind resultp set_result]. rewrite Hc. cbn [mbind option_bind ctrls set_ctrls set_len set_reqs reqs].
  rewrite Hx. cbn [mbind option_bind set_ctrls set_len set_reqs reqs]. rewrite lookup_insert_eq. cbn [mbind option_bind]. by rewrite insert_insert_eq.
Qed.

Section new.
Context {m : gmap positive squidaio_request_t} {a : positive} {r : squidaio_request_t} (Hf : m !! a = None).

Lemma placed_new ws L ws' L' : placed m ws L -> all ws' L' ≡ₚ a :: all ws L -> placed (<[a := r]> m) ws' L'.
Proof.
  intros [Hn Hd] E. split.
  - rewrite E. apply list.NoDup_cons. split; [|done]. rewrite <- Hd, Hf. by intros [].
  - intros b. rewrite E, elem_of_cons, <- Hd, lookup_insert_is_Some'. split; intros [->|?]; tauto.
Qed.

Lemma fresh_out ws L : placed m ws L -> a ∉ all ws L.
Proof. intros [_ Hd]. rewrite <- Hd, Hf. by intros []. Qed.

Lemma ordered_new h L L' : ordered m h L -> lq L' ++ lq2 L' = (lq L ++ lq2 L) ++ [a] -> a ∉ lq L ++ lq2 L -> num r = nsub h -> ordered (<[a := r]> m) (log_new h) L'.
Proof.
  intros (O1 & O2 & O3) E Ha Hn. unfold ordered. rewrite E. cbn [log_new started nsub]. split; [done|split; [rewrite length_app; cbn; lia|]].
  intros i b x [Hi|[Hl Hi]]%lookup_app_Some Hx.
  - rewrite lookup_insert_ne in Hx by (intros <-; apply Ha; by eapply list_elem_of_lookup_2). by apply (O3 i b).
  - apply list_lookup_singleton_Some in Hi as [Hi <-]. rewrite lookup_insert_eq in Hx. apply (inj Some) in Hx as <-. lia.
Qed.

Lemma calls_new h : calls m h -> num r = nsub h -> calls (<[a := r]> m) (log_new h).
Proof.
  intros (H1 & H2 & H3 & H4) Hn. split; [done|]. cbn [log_new nsub]. split; [intros n Hin; specialize (H2 n Hin); lia|]. split.
  - intros b x [(<- & <-)|(Hb & Hx)]%lookup_insert_Some.
    + split; [lia|]. intros _ Hin. specialize (H2 _ Hin). lia.
    + destruct (H3 b x Hx). split; [lia|done].
  - intros b c x y [(<- & <-)|(Hb & Hx)]%lookup_insert_Some [(<- & <-)|(Hc & Hy)]%lookup_insert_Some E; [done| | |by apply (H4 b c x y)].
    + destruct (H3 c y Hy). lia.
    + destruct (H3 b x Hx). lia.
Qed.

Lemma busy_new ws : busy m ws -> a ∉ held ws -> busy (<[a := r]> m) ws.
Proof.
  intros H Ha i b x Hi [(<- & <-)|(Hb & Hx)]%lookup_insert_Some; [|by apply (H i b)]. destruct Ha. apply list_elem_of_bind. exists (WOp a). split; [by left|]. by eapply list_elem_of_lookup_2.
Qed.

Lemma resulted_new ws h L : resulted m ws h L -> a ∉ finished ws L -> resulted (<[a := r]> m) ws (log_new h) L.
Proof. intros [D1 D2] Ha. split; [|done]. intros b x Hb [(<- & <-)|(Hn & Hx)]%lookup_insert_Some; [done|]. by apply (D1 b). Qed.

Lemma pairs_new cs used cb c x : pairs m cs used cb -> cs !! c = None -> rdata x = Some a -> matches r c x -> pairs (<[a := r]> m) (<[c := x]> cs) (c :: used) cb.
Proof.
  intros (P1 & P2 & P3 & P4 & P5 & P6) Hc Hd Hm.
  assert (c ∉ used /\ cb <> Some c) as [Hu Hb].
  { split; intros H; (assert (is_Some (cs !! c)) as [? ?] by (apply P2; auto)); congruence. }
  assert (forall d, d ∈ used -> d <> c) as Hne by (intros d Hd' ->; done).
  split; [by apply list.NoDup_cons|split; [|split; [|split; [|split]]]].
  - intros d. rewrite lookup_insert_is_Some', P2, elem_of_cons. split; [intros [<-|[?|?]]|intros [[->|?]|?]]; tauto.
  - intros d Ed. rewrite not_elem_of_cons. split; [congruence|by apply P3].
  - intros d y [->|Hin]%elem_of_cons Hy.
    + rewrite lookup_insert_eq in Hy. apply (inj Some) in Hy as <-. exists a, r. by rewrite lookup_insert_eq.
    + rewrite lookup_insert_ne in Hy by (apply not_eq_sym; by apply Hne). destruct (P4 d y Hin Hy) as (b & z & Hb' & Hz & Hm'). exists b, z. rewrite lookup_insert_ne by (intros <-; congruence). done.
  - intros b z [(<- & <-)|(Hn & Hz)]%lookup_insert_Some Hcn.
    + exists c, x. destruct Hm as (Hm & _). rewrite lookup_insert_eq. split; [done|split; [by left|done]].
    + destruct (P5 b z Hz Hcn) as (d & y & Hr & Hin & Hy & Hb'). exists d, y. rewrite lookup_insert_ne by (apply not_eq_sym; by apply Hne). split; [done|split; [by right|done]].
  - intros b z [(<- & <-)|(Hn & Hz)]%lookup_insert_Some Hcn; [|by apply (P6 b)]. destruct Hm as (_ & Hm & _). congruence.
Qed.
End new.

Lemma buffers_new cs used bs c x : buffers cs used bs -> cs !! c = None -> c ∉ used -> (uses_buffer (operation x) = true -> is_Some (bufp x)) -> (free_func x = true -> operation x = OP_WRITE) ->
  (forall b, bufp x = Some b -> b ∈ bs /\ forall d, ~ holds cs used d b) -> buffers (<[c := x]> cs) (c :: used) bs.
Proof.
  intros (B1 & B2 & B3) Hc Hu H1 H2 H3.
  assert (forall d b, holds (<[c := x]> cs) (c :: used) d b -> d = c /\ bufp x = Some b \/ holds cs used d b) as H.
  { intros d b (y & [(<- & <-)|(Hn & Hy)]%lookup_insert_Some & Hb & Hh); [by left|right]. exists y. split; [done|split; [done|]]. rewrite elem_of_cons in Hh. destruct Hh as [?|[?|?]]; [by left|congruence|by right]. }
  split; [|split].
  - intros d y [(<- & <-)|(Hn & Hy)]%lookup_insert_Some; [done|by apply (B1 d)].
  - intros d b [[-> Hb]|Hh]%H; [by apply H3|by apply (B2 d)].
  - intros d d' b [[-> Hb]|Hh]%H [[-> Hb']|Hh']%H; [done| | |by apply (B3 d d' b)].
    + destruct (H3 b Hb) as [_ Hno]. by destruct (Hno d').
    + destruct (H3 b Hb') as [_ Hno]. by destruct (Hno d).
Qed.

(** What is asked of the control block of a new request. *)
Definition good_ctrl (x : squidaio_ctrl_t) (o : op) (f : Z) (b : option positive) (s : state) : Prop :=
  operation x = o /\ bufp x = b /\ (uses_buffer o = true -> cfd x = f /\ is_Some b) /\ (free_func x = true -> o = OP_WRITE) /\
  forall d, b = Some d -> d ∈ bufs s /\ forall c, ~ holds (ctrls s) (used_list s) c d.

(** [s'] after [s], when the main thread has handed in requests or linked queues *)
Definition progress (s s' : state) (L L' : lists) : Prop :=
  woken (workers s) (workers s') /\ (lq L' = lq L \/ awake (workers s')) /\ ldq L' = ldq L /\ ldr L' = ldr L /\ same_main s s'.

Lemma with_ctrl_ok x o f b a c wake s L cb : core s L cb -> reqs s !! a = None -> ctrls s !! c = None -> good_ctrl x o f b s ->
  exists s' L', with_ctrl x (squidaio_request o f b) a c wake s = Some s' /\ core s' L' cb /\ progress s s' L L'.
Proof.
  intros C Ha Hc (G1 & G2 & G3 & G4 & G5). unfold with_ctrl, squidaio_request.
  set (r := mkReq None o false f b 0 0 (Some c) _). set (r1 := set_next None (set_result (-1) 0 r)).
  erewrite (queue_request_eq a c r x wake); cbn [set_ctrls set_hist set_reqs set_len reqs ctrls hist request_queue_len]; [|by rewrite lookup_insert_eq|done|by rewrite lookup_insert_eq].
  rewrite !insert_insert_eq. match goal with |- context [enqueue a wake ?y] => set (s2 := y) end. pose proof C as [C1 C2 C3 C4 C5 C6 C7 C8 C9 C10 C11].
  assert (er (reqs s) !! a = None) as Ha' by (unfold er; by rewrite lookup_fmap, Ha). pose proof (fresh_out Ha' _ _ C2) as Hout. pose proof Hout as Ho. unfold all in Ho. rewrite !not_elem_of_app in Ho. destruct Ho as (A1 & A2 & A3 & A4 & A5).
  assert (reps (reqs s2) (workers s2) (rq s2) (rq2 s2) (dq s2) (dr s2) L) as R2 by (apply reps_out; [done|rewrite !not_elem_of_app; tauto|done]).
  destruct (enqueue_ok a wake s2 L R2 (proj1 C2) C11) as (s' & L' & Es & Q); [split; [done|]; exists r1; cbn [s2 set_reqs reqs]; by rewrite lookup_insert_eq|done|].
  rewrite Es. cbn [mbind option_bind]. exists (set_used (c :: used_list s') s'), L'. split; [done|].
  destruct (queued_fields _ _ _ _ _ Q) as (E1 & E2 & E3 & E4 & E5 & E6 & E7 & E8). cbn [s2 set_reqs set_ctrls set_len set_hist ctrls bufs used_list rq_mutex dq_mutex request_queue_len hist] in E1, E2, E3, E4, E5, E6, E7.
  pose proof (queued_all _ _ _ _ _ Q) as EA. pose proof (queued_counted _ _ _ _ _ _ Q C3) as HC. destruct Q as [Q1 Q2 [Q3 Q4] Q5 Q6 Q7 _]. cbn [s2 set_reqs set_ctrls set_len set_hist reqs workers] in Q5, Q7, EA, HC. unfold er at 2 in Q7. rewrite fmap_insert in Q7. fold (er (reqs s)) in Q7.
  split; [|done]. assert (c ∉ used_list s) as Hcu by (intros Hin; destruct C6 as (_ & P2 & _); assert (is_Some (ctrls s !! c)) as [? ?] by (apply P2; by left); congruence).
  assert (a ∉ finished (workers s) L) as Hfi.
  { unfold finished. rewrite !not_elem_of_app. split; [|done]. intros Hin. apply A3. apply list_elem_of_bind in Hin as (w & Hin & Hw). apply list_elem_of_bind. exists w. split; [|done]. destruct w; cbn in *; first [done|by apply not_elem_of_nil in Hin]. }
  constructor; cbn [set_used reqs ctrls bufs used_list rq rq2 dq dr rq_mutex dq_mutex workers request_queue_len hist]; rewrite ?Q7, ?E1, ?E2, ?E3, ?E4, ?E5, ?E6, ?E7; try done.
  - apply (placed_new Ha' _ _ _ _ C2). rewrite EA. unfold all. rewrite <- !app_assoc. cbn [app]. solve_Permutation.
  - apply (ordered_new _ _ _ C4 Q2); [|done]. by rewrite not_elem_of_app.
  - by apply (woken_mutexes Q5).
  - apply (pairs_new Ha'); try done. unfold matches. cbn [set_rdata operation bufp cfd r1 r set_next set_result resultp cancelled request_type bufferp fd]. rewrite G1, G2. do 4 (split; [done|]). intros Hu. by destruct (G3 Hu).
  - apply buffers_new; cbn [set_rdata operation bufp free_func]; try done; [rewrite G1, G2; intros Hu; by destruct (G3 Hu)|by rewrite G1|by rewrite G2].
  - apply busy_new; [by apply (woken_busy Q5)|by rewrite (woken_held Q5)].
  - by apply calls_new.
  - apply resulted_new; [by apply (woken_resulted Q5 _ _ L)|]. by rewrite (woken_finished Q5 L L').
  - by rewrite (woken_length Q5).
Qed.

End AioMain.
