(* ===== verification/AioCancel.v ===== *)
(** * Asynchronous disk I/O: cancelling requests *)

From Stdlib Require Import ZArith Lia.
From stdpp Require Import base gmap list numbers option fin_maps.
From S2P Require Import Prelude Aio AioInv AioWorker AioMain.
Import Aio AioInv AioWorker AioMain.

Module AioCancel.

(** No worker reads or writes for a request on this descriptor. *)
Definition quiet (f : Z) (s : state) : Prop :=
  forall i a r, workers s !! i = Some (WOp a) -> reqs s !! a = Some r -> uses_buffer (request_type r) = true -> fd r <> f.

(** ** Buffers *)

(** The buffers that are left when those of [x] have been freed. *)
Definition less (x : squidaio_ctrl_t) (bs bs' : gset positive) : Prop := forall b, b ∈ bs -> b ∈ bs' \/ frees x = true /\ bufp x = Some b.

Lemma free_buffer_ok b s : b ∈ bufs s -> free_buffer (Some b) s = Some (set_bufs (bufs s ∖ {[b]}) s).
Proof. intros H. unfold free_buffer. cbn [mbind option_bind]. by rewrite bool_decide_eq_true_2. Qed.

Lemma free_data_ok c x s : buffers (ctrls s) (used_list s) (bufs s) -> ctrls s !! c = Some x -> exists bs', free_data x s = Some (set_bufs bs' s) /\ less x (bufs s) bs'.
Proof.
  intros (B1 & B2 & B3) Hx. destruct (B1 c x Hx) as [Hu Hf]. unfold free_data.
  assert (frees x = true -> exists b, bufp x = Some b /\ b ∈ bufs s) as Hb.
  { intros H. destruct Hu as [b Eb]; [unfold frees in H; destruct (free_func x); [by rewrite Hf|]; cbn in H; apply bool_decide_eq_true in H; by rewrite H|]. exists b. split; [done|]. apply (B2 c). exists x. split; [done|split; [done|by left]]. }
  assert (forall b, bufp x = Some b -> frees x = true -> less x (bufs s) (bufs s ∖ {[b]})) as Hl.
  { intros b Eb Ef d Hd. destruct (decide (d = b)) as [->|Hn]; [by right|left; set_solver]. }
  unfold frees in *. destruct (free_func x) eqn:Ef; cbn [orb] in *.
  - destruct Hb as (b & Eb & Hin); [done|]. rewrite Eb, (free_buffer_ok _ _ Hin). cbn [mbind option_bind]. rewrite bool_decide_eq_false_2 by (by rewrite Hf). exists (bufs s ∖ {[b]}). split; [done|by apply Hl].
  - cbn [mbind option_bind]. destruct (bool_decide (operation x = OP_READ)).
    + destruct Hb as (b & Eb & Hin); [done|]. rewrite Eb, (free_buffer_ok _ _ Hin). exists (bufs s ∖ {[b]}). split; [done|by apply Hl].
    + exists (bufs s). split; [by destruct s|]. intros b Hin. by left.
Qed.

Lemma buffers_same cs used bs c x x' : buffers cs used bs -> cs !! c = Some x -> operation x' = operation x -> bufp x' = bufp x -> free_func x' = free_func x -> buffers (<[c := x']> cs) used bs.
Proof.
  intros (B1 & B2 & B3) Hx E1 E2 E3.
  assert (forall e b, holds (<[c := x']> cs) used e b -> holds cs used e b) as H.
  { intros e b (y & [(<- & <-)|(Hn & Hy)]%lookup_insert_Some & Hb & Hh); [|by exists y]. exists x. unfold frees in *. rewrite E1, E3 in Hh. split; [done|split; [congruence|done]]. }
  split; [|split].
  - intros e y [(<- & <-)|(Hn & Hy)]%lookup_insert_Some; [rewrite E1, E2, E3; exact (B1 c x Hx)|by apply (B1 e)].
  - intros e b Hh%H. by apply (B2 e).
  - intros e e' b Hh%H Hh'%H. by apply (B3 e e' b).
Qed.

(** A control block goes, and its buffer with it. *)
Lemma buffers_delete cs used used' bs bs' c x : buffers cs used bs -> cs !! c = Some x -> less x bs bs' -> (forall d, d ∈ used' -> d ∈ used) -> buffers (delete c cs) used' bs'.
Proof.
  intros (B1 & B2 & B3) Hx Hl Hu.
  assert (forall d b, holds (delete c cs) used' d b -> d <> c /\ holds cs used d b) as H.
  { intros d b (y & [Hn Hy]%lookup_delete_Some & Hb & Hh). split; [done|]. exists y. split; [done|split; [done|]]. destruct Hh; [by left|right; by apply Hu]. }
  split; [|split].
  - intros d y [_ Hy]%lookup_delete_Some. by apply (B1 d).
  - intros d b [Hn Hh]%H. destruct (Hl b (B2 d b Hh)) as [?|[Hf Hb]]; [done|]. destruct Hn. apply (B3 d c b Hh). exists x. split; [done|split; [done|by left]].
  - intros d d' b [_ Hh]%H [_ Hh']%H. by apply (B3 d d' b).
Qed.

(** ** A request is cancelled *)

Section cancel.
Context {m : gmap positive squidaio_request_t} {a : positive} {r : squidaio_request_t} (Ha : m !! a = Some r).

Lemma ordered_cancel h h' L : ordered m h L -> started h' = started h -> nsub h' = nsub h -> ordered (<[a := set_cancelled r]> m) h' L.
Proof.
  intros (O1 & O2 & O3) E1 E2. unfold ordered. rewrite E1, E2. split; [done|split; [done|]]. intros i b x Hi [(<- & <-)|(Hn & Hx)]%lookup_insert_Some; [|by apply (O3 i b)]. by apply (O3 i a r).
Qed.

Lemma busy_cancel ws : busy m ws -> (forall i, ws !! i = Some (WOp a) -> uses_buffer (request_type r) = false) -> busy (<[a := set_cancelled r]> m) ws.
Proof. intros H Hq i b x Hi [(<- & <-)|(Hn & Hx)]%lookup_insert_Some Hu; [|by apply (H i b x)]. cbn in Hu. rewrite (Hq i Hi) in Hu. done. Qed.

Lemma calls_cancel h h' : calls m h -> cancelled r = false -> nsub h' = nsub h -> (numbers h' = numbers h \/ numbers h' = num r :: numbers h) -> calls (<[a := set_cancelled r]> m) h'.
Proof.
  intros (H1 & H2 & H3 & H4) Hc En Eh. destruct (H3 a r Ha) as [H5 H6]. specialize (H6 Hc). unfold calls. rewrite En.
  assert (forall n, n ∈ numbers h' -> n = num r \/ n ∈ numbers h) as Hin by (intros n; destruct Eh as [-> | ->]; [tauto|by rewrite elem_of_cons]).
  split; [destruct Eh as [-> | ->]; [done|by apply list.NoDup_cons]|]. split; [intros n [->|Hn]%Hin; [done|by apply H2]|]. split.
  - intros b x [(<- & <-)|(Hn & Hx)]%lookup_insert_Some; [done|]. destruct (H3 b x Hx) as [Hx1 Hx2]. split; [done|]. intros Hcx [E|Hin']%Hin; [|by apply (Hx2 Hcx)]. destruct Hn. by apply (H4 a b r x).
  - intros b c x y [(<- & <-)|(Hb & Hx)]%lookup_insert_Some [(<- & <-)|(Hd & Hy)]%lookup_insert_Some E; [done| | |by apply (H4 b c x y)].
    + by apply (H4 a c r y).
    + by apply (H4 b a x r).
Qed.

Lemma resulted_cancel ws h h' L : resulted m ws h L -> results h' = results h -> (forall x, x ∈ called h' -> x ∈ called h \/ reported h' x) -> resulted (<[a := set_cancelled r]> m) ws h' L.
Proof.
  intros [D1 D2] Er Hc. split.
  - rewrite Er. intros b x Hb [(<- & <-)|(Hn & Hx)]%lookup_insert_Some Hcx; [done|]. by apply (D1 b).
  - intros x [Hx|Hx]%Hc; [|done]. unfold reported. rewrite Er. by apply D2.
Qed.

Lemma pairs_cancel cs used cb c x : pairs m cs used cb -> cs !! c = Some x -> c ∈ used -> rdata x = Some a -> pairs (<[a := set_cancelled r]> m) (delete c cs) (filter (fun d => d <> c) used) cb.
Proof.
  intros (P1 & P2 & P3 & P4 & P5 & P6) Hx Hu Hd.
  destruct (P4 c x Hu Hx) as (a' & r' & Ha' & Hr' & Hm). assert (a' = a) as -> by congruence. assert (r' = r) as -> by congruence. destruct Hm as (Hm & Hcn & _).
  split; [by apply NoDup_filter|split; [|split; [|split; [|split]]]].
  - intros d. rewrite lookup_delete_is_Some, list_elem_of_filter, P2. split; [intros [? [?|?]]|intros [[? ?]|?]]; [by left|by right|split; [congruence|by left]|split; [|by right]]. intros <-. by eapply P3.
  - intros d Ed. rewrite list_elem_of_filter. intros [_ Hin]. by destruct (P3 d).
  - intros d y [Hn Hin]%list_elem_of_filter [_ Hy]%lookup_delete_Some. destruct (P4 d y Hin Hy) as (b & z & Hb & Hz & Hmz). exists b, z. split; [done|split; [|done]]. rewrite lookup_insert_ne; [done|]. intros <-. destruct Hmz as (Hmz & _). congruence.
  - intros b z [(<- & <-)|(Hn & Hz)]%lookup_insert_Some Hcz; [done|]. destruct (P5 b z Hz Hcz) as (d & y & Hr & Hin & Hy & Hb). exists d, y. rewrite list_elem_of_filter, lookup_delete_ne; [|congruence]. split; [done|split; [|done]]. split; [|done]. intros ->. congruence.
  - intros b z [(<- & <-)|(Hn & Hz)]%lookup_insert_Some Hcz; [done|]. by apply (P6 b).
Qed.
End cancel.

(** What is left when request [a] with control block [c] has been cancelled. *)
Definition after_cancel (a c : positive) (r : squidaio_request_t) (bs : gset positive) (h : history) (s : state) : state :=
  set_ctrls (delete c (ctrls s)) (set_used (filter (fun d => d <> c) (used_list s)) (set_bufs bs (set_hist h (set_reqs (<[a := set_cancelled r]> (reqs s)) s)))).

Lemma cancel_one_eq f c x a r s : buffers (ctrls s) (used_list s) (bufs s) -> ctrls s !! c = Some x -> cfd x = f -> rdata x = Some a -> reqs s !! a = Some r -> resultp r = Some c ->
  exists bs h, cancel_one f c s = Some (after_cancel a c r bs h s) /\ less x (bufs s) bs /\ (h = hist s \/ h = log_call (num r, -2, -2) (hist s)).
Proof.
  intros HB Hx Ef Hd Hr Hc. unfold cancel_one. rewrite Hx. cbn [mbind option_bind]. rewrite Ef, Z.eqb_refl. cbn [negb].
  assert (num_of x s = num r) as -> by (unfold num_of; rewrite Hd; cbn; by rewrite Hr).
  assert (squidaio_cancel c s = Some (set_ctrls (<[c := set_rdata None x]> (ctrls s)) (set_reqs (<[a := set_cancelled r]> (reqs s)) s))) as ->.
  { unfold squidaio_cancel, upd_req, upd_ctrl. rewrite Hx. cbn [mbind option_bind]. rewrite Hd, Hr. cbn [mbind option_bind]. rewrite bool_decide_eq_true_2 by done. cbn [mbind option_bind set_reqs ctrls]. by rewrite Hx. }
  cbn [mbind option_bind]. set (s1 := set_ctrls _ _).
  assert (forall h bs, Some (set_ctrls (delete c (ctrls (set_bufs bs (set_hist h s1)))) (set_used (filter (fun d => d <> c) (used_list (set_bufs bs (set_hist h s1)))) (set_bufs bs (set_hist h s1)))) = Some (after_cancel a c r bs h s)) as Hend.
  { intros h bs. unfold after_cancel. cbn [s1 set_bufs set_hist set_ctrls set_reqs ctrls used_list]. rewrite delete_insert_eq. by destruct s. }
  destruct (done_handler x) as [d|]; [|exists (bufs s), (hist s); split; [|split; [by intros b ?; left|by left]]; cbn [mbind option_bind]; rewrite <- Hend; by destruct s].
  set (h := if bool_decide (d ∈ valid s1) then log_call (num r, -2, -2) (hist s) else hist s).
  assert ((if bool_decide (d ∈ valid s1) then set_hist (log_call (num r, -2, -2) (hist s1)) s1 else s1) = set_hist h s1) as -> by (unfold h; destruct (bool_decide _); [done|by destruct s]).
  destruct (free_data_ok c (set_rdata None x) (set_hist h s1)) as (bs & Efr & Hl).
  - by apply (buffers_same _ _ _ _ x).
  - cbn [s1 set_hist set_ctrls ctrls]. by rewrite lookup_insert_eq.
  - assert (free_data x (set_hist h s1) = Some (set_bufs bs (set_hist h s1))) as -> by (rewrite <- Efr; by destruct x). cbn [mbind option_bind]. exists bs, h. split; [apply Hend|split; [done|]]. unfold h. destruct (bool_decide _); auto.
Qed.

Lemma core_cancel a c x r bs h s L cb : core s L cb -> quiet (cfd x) s -> c ∈ used_list s -> ctrls s !! c = Some x -> rdata x = Some a -> reqs s !! a = Some r -> matches r c x -> less x (bufs s) bs ->
  (h = hist s \/ h = log_call (num r, -2, -2) (hist s)) -> core (after_cancel a c r bs h s) L cb.
Proof.
  intros [C1 C2 C3 C4 C5 C6 C7 C8 C9 C10 C11] Hq Hu Hx Hd Hr (M1 & M2 & M3 & M4 & M5) Hl Hh. pose proof (er_lookup _ _ _ Hr) as Her.
  constructor; cbn [after_cancel set_ctrls set_used set_bufs set_hist set_reqs reqs ctrls bufs used_list rq rq2 dq dr rq_mutex dq_mutex workers request_queue_len hist]; rewrite ?(er_upd set_cancelled _ _ _ Hr); try done.
  - by eapply reps_same.
  - by apply (placed_alike Her).
  - by apply (ordered_cancel Her (hist s)); [|destruct Hh as [-> | ->]..].
  - by apply (pairs_cancel Her _ _ _ _ x).
  - apply (buffers_delete _ (used_list s) _ (bufs s) _ _ x); try done. intros d [_ ?]%list_elem_of_filter. done.
  - refine (busy_cancel (r := set_next None r) _ C8 _). intros i Hi. cbn. destruct (uses_buffer (request_type r)) eqn:Eu; [|done]. destruct (Hq i a r Hi Hr Eu). apply M5. by rewrite <- M3.
  - apply (calls_cancel Her (hist s)); [done|done|by destruct Hh as [-> | ->]|]. destruct Hh as [-> | ->]; [by left|by right].
  - refine (resulted_cancel (r := set_next None r) _ (hist s) _ _ C10 _ _); [by destruct Hh as [-> | ->]|]. destruct Hh as [-> | ->]; [by left|]. intros y [->|Hy]%elem_of_cons; [right; by left|by left].
Qed.

(** What cancelling leaves alone. *)
Definition cancels (s s' : state) : Prop :=
  workers s' = workers s /\ same_main s s' /\ (forall a, reqs s !! a = None -> reqs s' !! a = None) /\ (forall d, ctrls s !! d = None -> ctrls s' !! d = None).

Lemma quiet_after f a c r bs h s : quiet f s -> reqs s !! a = Some r -> quiet f (after_cancel a c r bs h s).
Proof. intros Hq Hr i b y Hi Hy. cbn in Hy. apply lookup_insert_Some in Hy as [(<- & <-)|(Hn & Hy)]; [by apply (Hq i a r)|by apply (Hq i b y)]. Qed.

Lemma cancel_one_ok f c s L cb : core s L cb -> quiet f s -> c ∈ used_list s ->
  exists s', cancel_one f c s = Some s' /\ core s' L cb /\ quiet f s' /\ cancels s s' /\ (forall d, d <> c -> d ∈ used_list s -> d ∈ used_list s').
Proof.
  intros C Hq Hu. destruct (c_pairs _ _ _ C) as (_ & P2 & _ & P4 & _ & _). destruct (proj2 (P2 c)) as [x Hx]; [by left|]. destruct (P4 c x Hu Hx) as (a & r' & Hd & (r & Hr & ->)%er_some & Hm).
  destruct (decide (cfd x = f)) as [Ef|Ef].
  - destruct (cancel_one_eq f c x a r s (c_buffers _ _ _ C) Hx Ef Hd Hr) as (bs & h & Es & Hl & Hh); [apply Hm|]. exists (after_cancel a c r bs h s). split; [done|]. subst f.
    split; [by apply (core_cancel a c x)|split; [by apply quiet_after|split]].
    + split; [done|split; [by repeat split|split]]; cbn.
      * intros b Hb. rewrite lookup_insert_ne; [done|]. intros <-. congruence.
      * intros d Hd'. by apply lookup_delete_None; right.
    + intros d Hn Hin. cbn. by apply list_elem_of_filter.
  - exists s. unfold cancel_one. rewrite Hx. cbn [mbind option_bind]. rewrite (proj2 (Z.eqb_neq _ _) Ef). cbn [negb]. split; [done|split; [done|split; [done|split; [|done]]]]. by repeat split.
Qed.

Lemma cancel_loop_ok f l s L cb : core s L cb -> quiet f s -> NoDup l -> (forall c, c ∈ l -> c ∈ used_list s) -> exists s', cancel_loop f l s = Some s' /\ core s' L cb /\ quiet f s' /\ cancels s s'.
Proof.
  revert s. induction l as [|c l IH]; intros s C Hq Hn Hu; [exists s; split; [done|split; [done|split; [done|by repeat split]]]|]. apply list.NoDup_cons in Hn as [Hc Hn].
  destruct (cancel_one_ok f c s L cb C Hq) as (s1 & E1 & C1 & Q1 & (A1 & A2 & A3 & A4) & U1); [apply Hu; set_solver|].
  destruct (IH s1 C1 Q1 Hn) as (s2 & E2 & C2 & Q2 & (B1 & B2 & B3 & B4)); [intros d Hd; apply U1; [congruence|apply Hu; set_solver]|].
  exists s2. cbn [cancel_loop]. rewrite E1. cbn [mbind option_bind]. split; [done|split; [done|split; [done|]]]. split; [congruence|split; [|split; auto]].
  destruct A2 as (? & ? & ?), B2 as (? & ? & ?). split; [congruence|split; congruence].
Qed.

Lemma aioCancel_ok f s L cb : core s L cb -> quiet f s -> exists s', aioCancel f s = Some s' /\ core s' L cb /\ quiet f s' /\ cancels s s'.
Proof. intros C Hq. apply cancel_loop_ok; [done|done|apply (c_pairs _ _ _ C)|done]. Qed.

Lemma aioClose_ok f a c wake s L cb : core s L cb -> quiet f s -> reqs s !! a = None -> ctrls s !! c = None ->
  exists s' L', aioClose f a c wake s = Some s' /\ core s' L' cb /\ progress s s' L L'.
Proof.
  intros C Hq Ha Hc. destruct (aioCancel_ok f s L cb C Hq) as (s1 & E1 & C1 & _ & A1 & A2 & A3 & A4). unfold aioClose. rewrite E1. cbn [mbind option_bind].
  destruct (with_ctrl_ok (mkCtrl f OP_CLOSE None false None 0 0 None) OP_CLOSE f None a c wake s1 L cb C1) as (s2 & L2 & E2 & C2 & B1 & B2 & B3 & B4 & B5); [by apply A3|by apply A4|by repeat split|].
  exists s2, L2. split; [exact E2|split; [done|]]. rewrite A1 in B1. split; [done|split; [done|split; [done|split; [done|]]]]. destruct A2 as (? & ? & ?), B5 as (? & ? & ?). split; [congruence|split; congruence].
Qed.

End AioCancel.
