(* ===== verification/AioDone.v ===== *)
(** * Asynchronous disk I/O: how results come back *)

From Stdlib Require Import ZArith Lia.
From stdpp Require Import base gmap list numbers option fin_maps fin_sets.
From S2P Require Import Prelude Aio AioInv AioWorker AioMain AioCancel.
Import Aio AioInv AioWorker AioMain AioCancel.

Module AioDone.

(** ** [done_queue] is taken over *)

Lemma last_of_ok m l : forall a fuel, chain m (Some a) (a :: l) -> (length l < fuel)%nat -> exists t, last (a :: l) = Some t /\ last_of fuel m a = Some (t, Z.of_nat (length l)).
Proof.
  induction l as [|b l IH]; intros a [|fuel] Hc Hf; cbn [length] in Hf; try lia; destruct Hc as (_ & r & Hr & Hc); cbn [last_of]; rewrite Hr; cbn [mbind option_bind].
  - cbn in Hc. rewrite Hc. by exists a.
  - pose proof Hc as (En & _). rewrite En in Hc |- *. destruct (IH b fuel Hc) as (t & Ht & E); [lia|]. rewrite E. cbn [mbind option_bind]. exists t. rewrite last_cons_cons. split; [done|]. do 2 f_equal. cbn [length]. lia.
Qed.

Lemma NoDup_size (m : gmap positive squidaio_request_t) l : NoDup l -> (forall a, a ∈ l -> is_Some (m !! a)) -> (length l <= size m)%nat.
Proof.
  intros Hn Hd. rewrite <- size_dom. rewrite <- (size_list_to_set (C := gset positive)) by done. apply subseteq_size. intros a Ha. apply elem_of_dom, Hd. by apply elem_of_list_to_set in Ha.
Qed.

Lemma chain_length m h l : chain m h l -> NoDup l -> (length l <= size m)%nat.
Proof. intros Hc Hn. apply NoDup_size; [done|]. intros a Ha. destruct (chain_in _ _ _ _ Hc Ha) as [r ?]. by exists r. Qed.

(** [done_queue] goes behind [done_requests], if it is not empty and nobody has it locked. *)
Definition taken (s : state) (L L' : lists) : Prop :=
  L' = L /\ (ldq L = [] \/ dq_mutex s <> None) \/ L' = mkL (lq L) (lq2 L) [] (ldr L ++ ldq L).

Lemma take_done_ok s L cb : core s L cb -> exists s' L', take_done s = Some s' /\ core s' L' cb /\ taken s L L' /\ workers s' = workers s /\ same_main s s'.
Proof.
  intros C. pose proof C as [C1 C2 C3 C4 C5 C6 C7 C8 C9 C10 C11]. pose proof C1 as (R1 & R2 & R3 & R4 & R5). unfold take_done. rewrite (qrep_head _ _ _ _ R3).
  destruct (ldq L) as [|a l] eqn:El; cbn [head]; [exists s, L; split; [done|split; [done|split; [left; by auto|by repeat split]]]|].
  destruct (dq_mutex s) eqn:Em; [exists s, L; split; [done|split; [done|split; [left; split; [done|right; by rewrite Em]|by repeat split]]]|].
  rewrite <- El in R3. assert (chain (reqs s) (head (ldq L)) (ldq L)) as Hch by (rewrite <- (qrep_head _ _ _ _ R3); apply R3).
  pose proof (fun y => apart _ _ y (proj1 C2)) as HA. pose proof C2 as [Hn Hd]. pose proof Hn as Hn'. unfold all in Hn'. rewrite !NoDup_app in Hn'. destruct Hn' as (_ & _ & _ & _ & _ & _ & Nd & Nx & Nr).
  assert (NoDup (ldr L ++ ldq L)) as Hnd by (apply NoDup_app; split; [done|split; [intros y Hy Hy'; by apply (Nx y)|done]]).
  destruct (queue_link_ok (reqs s) DR (dr s) (ldr L) (ldq L) R4 Hch Hnd) as (m' & h' & Hs & Hc' & He & K).
  assert (head (ldq L) = Some a) as Eh by (by rewrite El). pose proof (Hs (empty_q DQ s) eq_refl eq_refl) as Hs'. rewrite Eh in Hs'. change (dr (empty_q DQ s)) with (dr s). rewrite Hs'. clear Hs Hs'. cbn [mbind option_bind].
  assert (chain m' (Some a) (ldq L)) as Hcd by (apply K; [by rewrite El in Hch |- *|intros y Hy; specialize (HA y); tauto]).
  cbn [set_len set_reqs set_q set_queues reqs]. rewrite El in Hcd. destruct (last_of_ok m' l a (S (size m')) Hcd) as (t & Ht & Et); [pose proof (chain_length _ _ _ Hcd) as H; rewrite El in Nd; specialize (H Nd); cbn in H; lia|].
  rewrite Et. cbn [mbind option_bind]. eexists _, (mkL (lq L) (lq2 L) [] (ldr L ++ ldq L)). split; [reflexivity|]. split; [|split; [right; by rewrite El|by repeat split]].
  constructor; cbn [set_tailp set_len set_reqs set_q set_queues empty_q get_q qhead tailp reqs ctrls bufs used_list rq rq2 dq dr rq_mutex dq_mutex workers request_queue_len hist]; rewrite ?He; try done.
  - split; [apply (qrep_frame (reqs s) _ _ _ (ldr L)); [done|done|intros y Hy; specialize (HA y); tauto]|]. split; [apply (qrep_frame (reqs s) _ _ _ (ldr L)); [done|done|intros y Hy; specialize (HA y); tauto]|].
    split; [done|]. split; [split; [done|unfold tail_of; cbn [ldr tailp]; by rewrite last_app, El, Ht]|]. apply (clear_frame (reqs s) m' _ (ldr L)); [done|done|intros y Hy; specialize (HA y); tauto].
  - apply (placed_perm _ _ _ _ _ C2). unfold all. cbn [lq lq2 ldq ldr]. solve_Permutation.
  - unfold counted in *. cbn [lq lq2 ldq]. rewrite !length_app in *. rewrite El in C3. cbn [length] in *. lia.
  - by rewrite Em.
  - destruct C10 as [D1 D2]. split; [|done]. intros b x Hb. apply D1. unfold finished in *. cbn [ldq ldr] in Hb. rewrite !elem_of_app in *. rewrite elem_of_nil in Hb. tauto.
Qed.

(** ** The end of a control block *)

Lemma ctrl_finish_ok c s L : core s L (Some c) -> exists s', finish c s = Some s' /\ core s' L None /\ workers s' = workers s /\ main s' = MPoll false /\ pipe s' = pipe s /\ done_signalled s' = done_signalled s.
Proof.
  intros [C1 C2 C3 C4 C5 C6 C7 C8 C9 C10 C11]. destruct C6 as (P1 & P2 & P3 & P4 & P5 & P6). destruct (proj2 (P2 c)) as [x Hx]; [by right|].
  destruct (free_data_ok c x s C7 Hx) as (bs & Ef & Hl). unfold finish. rewrite Hx. cbn [mbind option_bind]. rewrite Ef. cbn [mbind option_bind]. eexists. split; [reflexivity|]. split; [|by repeat split].
  constructor; cbn [set_main set_ctrls set_bufs reqs ctrls bufs used_list rq rq2 dq dr rq_mutex dq_mutex workers request_queue_len hist]; try done.
  - assert (forall d, d ∈ used_list s -> d <> c) as Hne by (intros d Hd ->; by destruct (P3 c)). split; [done|split; [|split; [done|split; [|split; [|done]]]]].
    + intros d. rewrite lookup_delete_is_Some, P2. split; [intros [? [?|[= ?]]]; [by left|congruence]|intros [?|?]; [|done]]. split; [|by left]. apply not_eq_sym. by apply Hne.
    + intros d y Hin [_ Hy]%lookup_delete_Some. by apply P4.
    + intros b z Hz Hc. destruct (P5 b z Hz Hc) as (d & y & H1 & H2 & H3 & H4). exists d, y. rewrite lookup_delete_ne by (apply not_eq_sym; by apply Hne). done.
  - by apply (buffers_delete _ (used_list s) _ (bufs s) _ _ x).
Qed.

(** ** A request is taken from [done_requests] and freed *)

Section reap.
Context {m : gmap positive squidaio_request_t} {a : positive} {r : squidaio_request_t} (Ha : m !! a = Some r).

Lemma placed_reap ws L l : placed m ws L -> ldr L = a :: l -> placed (delete a m) ws (mkL (lq L) (lq2 L) (ldq L) l).
Proof.
  intros [Hn Hd] El. assert (all ws L ≡ₚ a :: all ws (mkL (lq L) (lq2 L) (ldq L) l)) as E by (unfold all; cbn [lq lq2 ldq ldr]; rewrite El; solve_Permutation).
  rewrite E in Hn. apply list.NoDup_cons in Hn as [Hout Hn]. split; [done|]. intros b. rewrite lookup_delete_is_Some, Hd, E, elem_of_cons. split; [intros [? [?|?]]; [congruence|done]|]. intros Hb. split; [by intros ->|by right].
Qed.

Lemma ordered_reap h h' L L' : ordered m h L -> started h' = started h -> nsub h' = nsub h -> lq L' = lq L -> lq2 L' = lq2 L -> ordered (delete a m) h' L'.
Proof. intros (O1 & O2 & O3) E1 E2 E3 E4. unfold ordered. rewrite E1, E2, E3, E4. split; [done|split; [done|]]. intros i b x Hi [_ Hx]%lookup_delete_Some. by apply (O3 i b). Qed.

Lemma busy_reap ws : busy m ws -> busy (delete a m) ws.
Proof. intros H i b x Hi [_ Hx]%lookup_delete_Some. by apply (H i b). Qed.

(** [h']: with or without a call for this request *)
Lemma calls_reap h h' : calls m h -> nsub h' = nsub h -> (numbers h' = numbers h \/ cancelled r = false /\ numbers h' = num r :: numbers h) -> calls (delete a m) h'.
Proof.
  intros (H1 & H2 & H3 & H4) En Eh. destruct (H3 a r Ha) as [H5 H6]. unfold calls. rewrite En.
  assert (forall n, n ∈ numbers h' -> n = num r \/ n ∈ numbers h) as Hin by (intros n; destruct Eh as [-> |[_ ->]]; [tauto|by rewrite elem_of_cons]).
  split; [destruct Eh as [-> |[Hc ->]]; [done|apply list.NoDup_cons; split; [by apply H6|done]]|]. split; [intros n [->|Hn]%Hin; [done|by apply H2]|]. split.
  - intros b x [Hn Hx]%lookup_delete_Some. destruct (H3 b x Hx) as [Hx1 Hx2]. split; [done|]. intros Hcx [E|Hin']%Hin; [|by apply (Hx2 Hcx)]. destruct Hn. by apply (H4 a b r x).
  - intros b c x y [_ Hx]%lookup_delete_Some [_ Hy]%lookup_delete_Some. by apply (H4 b c x y).
Qed.

Lemma resulted_reap ws h h' L l : resulted m ws h L -> ldr L = a :: l -> results h' = results h ->
  (called h' = called h \/ cancelled r = false /\ called h' = (num r, ret r, err r) :: called h) -> resulted (delete a m) ws h' (mkL (lq L) (lq2 L) (ldq L) l).
Proof.
  intros [D1 D2] El Er Ec. split.
  - rewrite Er. intros b x Hb [_ Hx]%lookup_delete_Some. apply (D1 b); [|done]. unfold finished in *. cbn [ldq ldr] in Hb. rewrite El, !elem_of_app, elem_of_cons in *. tauto.
  - intros x Hx. assert (x ∈ called h -> reported h' x) as H by (intros Hin; unfold reported; rewrite Er; by apply D2). destruct Ec as [E|[Hc E]]; rewrite E in Hx; [by apply H|]. apply elem_of_cons in Hx as [->|Hx]; [|by apply H].
    right. rewrite Er. apply (D1 a); [|done|done]. unfold finished. rewrite El, !elem_of_app. right. right. by left.
Qed.

Lemma pairs_reap_cancelled cs used cb : pairs m cs used cb -> cancelled r = true -> pairs (delete a m) cs used cb.
Proof.
  intros (P1 & P2 & P3 & P4 & P5 & P6) Hc. split; [done|split; [done|split; [done|split; [|split]]]].
  - intros c x Hin Hx. destruct (P4 c x Hin Hx) as (b & z & Hb & Hz & Hm). exists b, z. split; [done|split; [|done]]. rewrite lookup_delete_ne; [done|]. intros <-. destruct Hm as (_ & Hm & _). congruence.
  - intros b z [_ Hz]%lookup_delete_Some. by apply P5.
  - intros b z [_ Hz]%lookup_delete_Some. by apply (P6 b).
Qed.

Lemma pairs_reap cs used c x x' : pairs m cs used None -> cancelled r = false -> resultp r = Some c -> cs !! c = Some x -> rdata x' = rdata x ->
  pairs (delete a m) (<[c := x']> cs) (filter (fun d => d <> c) used) (Some c).
Proof.
  intros (P1 & P2 & P3 & P4 & P5 & P6) Hc Hr Hx Ed.
  assert (c ∈ used) as Hu by (destruct (proj1 (P2 c)) as [?|?]; [by exists x|done|done]).
  split; [by apply NoDup_filter|split; [|split; [|split; [|split]]]].
  - intros d. rewrite lookup_insert_is_Some', list_elem_of_filter, P2. destruct (decide (d = c)) as [->|Hn]; [by split; auto|]. split; [intros [?|[?|?]]; [congruence|by left|done]|]. intros [[_ ?]|?]; [by right; left|congruence].
  - intros d [= <-]. rewrite list_elem_of_filter. by intros [? _].
  - intros d y [Hn Hin]%list_elem_of_filter Hy. rewrite lookup_insert_ne in Hy by congruence. destruct (P4 d y Hin Hy) as (b & z & Hb & Hz & Hm). exists b, z. split; [done|split; [|done]]. rewrite lookup_delete_ne; [done|]. intros <-. destruct Hm as (Hm & _). congruence.
  - intros b z [Hn Hz]%lookup_delete_Some Hcz. destruct (P5 b z Hz Hcz) as (d & y & H1 & H2 & H3 & H4).
    assert (d <> c) as Hdc. { intros ->. destruct (P5 a r Ha Hc) as (d' & y' & H1' & H2' & H3' & H4'). assert (d' = c) as -> by congruence. congruence. }
    exists d, y. rewrite list_elem_of_filter, lookup_insert_ne by congruence. done.
  - intros b z [_ Hz]%lookup_delete_Some. by apply (P6 b).
Qed.
End reap.

Lemma buffers_shrink cs used used' bs : buffers cs used bs -> (forall d, d ∈ used' -> d ∈ used) -> buffers cs used' bs.
Proof.
  intros (B1 & B2 & B3) Hu. assert (forall d b, holds cs used' d b -> holds cs used d b) as H by (intros d b (y & Hy & Hb & Hh); exists y; split; [done|split; [done|]]; destruct Hh; auto).
  split; [done|split]; [intros d b Hh%H; by apply (B2 d)|intros d d' b Hh%H Hh'%H; by apply (B3 d d' b)].
Qed.

Lemma reps_reap m ws q1 q2 q3 q4 L a l r : reps m ws q1 q2 q3 q4 L -> NoDup (all ws L) -> ldr L = a :: l -> m !! a = Some r ->
  reps (delete a m) ws q1 q2 q3 (mkQ (next r) (match next r with None => Head DR | Some _ => tailp q4 end)) (mkL (lq L) (lq2 L) (ldq L) l).
Proof.
  intros ([R1 T1] & [R2 T2] & [R3 T3] & R4 & R5) Hn El Ha. pose proof (apart _ _ a Hn) as (_ & _ & _ & HA). destruct HA as (A1 & A2 & A3 & A4); [rewrite El; by left|].
  assert (a ∉ l) as Hal by (unfold all in Hn; rewrite !NoDup_app, El, list.NoDup_cons in Hn; tauto).
  rewrite El in R4. destruct (qrep_pop _ _ _ _ _ _ R4 Ha) as [R4' T4'].
  do 4 (split; [by split; [apply chain_delete|]|]). intros i w b Hi Hb. apply chain_delete; [by apply (R5 i w)|]. intros ->%list_elem_of_singleton. apply A3. by eapply clear_held.
Qed.

(** The history with what [squidaio_cleanup_request] closes. *)
Definition cleaned (r : squidaio_request_t) (h : history) : history :=
  match request_type r with
  | OP_OPEN => if cancelled r && (0 <=? ret r) then log_close (ret r) h else h
  | OP_CLOSE => if cancelled r && (ret r <? 0) then log_close (fd r) h else h
  | _ => h
  end.

Definition same_log (h h' : history) : Prop := nsub h' = nsub h /\ started h' = started h /\ results h' = results h.

Lemma cleaned_same r h : same_log h (cleaned r h) /\ called (cleaned r h) = called h.
Proof. unfold cleaned. destruct (request_type r); try done; by destruct (_ && _). Qed.

Definition pop_dr (r : squidaio_request_t) (s : state) : state := set_q DR (mkQ (next r) (match next r with None => Head DR | Some _ => tailp (dr s) end)) s.

Definition reaped (a c : positive) (r : squidaio_request_t) (x : squidaio_ctrl_t) (h : history) (s : state) : state :=
  set_used (filter (fun d => d <> c) (used_list s)) (set_reqs (delete a (reqs s)) (set_ctrls (<[c := set_return (ret r) (err r) x]> (ctrls s)) (set_hist h (pop_dr r s)))).

Lemma er_delete a m : er (delete a m) = delete a (er m).
Proof. unfold er. apply fmap_delete. Qed.

Lemma core_reap a c r x h s L l : core s L None -> ldr L = a :: l -> reqs s !! a = Some r -> cancelled r = false -> resultp r = Some c -> ctrls s !! c = Some x -> same_log (hist s) h ->
  (called h = called (hist s) \/ called h = (num r, ret r, err r) :: called (hist s)) -> core (reaped a c r x h s) (mkL (lq L) (lq2 L) (ldq L) l) (Some c).
Proof.
  intros [C1 C2 C3 C4 C5 C6 C7 C8 C9 C10 C11] El Hr Hc Hrp Hx (H1 & H2 & H3) Hh. pose proof (er_lookup _ _ _ Hr) as Her.
  constructor; cbn [reaped pop_dr set_ctrls set_used set_hist set_reqs set_q set_queues reqs ctrls bufs used_list rq rq2 dq dr rq_mutex dq_mutex workers request_queue_len hist]; rewrite ?er_delete; try done.
  - by apply reps_reap; [|apply C2|..].
  - by apply (placed_reap Her).
  - by apply (ordered_reap (hist s) _ L).
  - by apply (pairs_reap Her _ _ _ x).
  - apply (buffers_shrink _ (used_list s)); [by apply (buffers_same _ _ _ _ x)|]. by intros d [_ ?]%list_elem_of_filter.
  - by apply busy_reap.
  - apply (calls_reap Her (hist s)); [done|done|]. unfold numbers. destruct Hh as [-> | ->]; [by left|by right].
  - refine (resulted_reap Her _ (hist s) _ _ _ C10 El H3 _). destruct Hh as [-> | ->]; [by left|by right].
Qed.

Lemma core_reap_cancelled a r s L l cb : core s L cb -> ldr L = a :: l -> reqs s !! a = Some r -> cancelled r = true ->
  core (set_reqs (delete a (reqs s)) (set_hist (cleaned r (hist s)) (pop_dr r s))) (mkL (lq L) (lq2 L) (ldq L) l) cb.
Proof.
  intros [C1 C2 C3 C4 C5 C6 C7 C8 C9 C10 C11] El Hr Hc. pose proof (er_lookup _ _ _ Hr) as Her. destruct (cleaned_same r (hist s)) as [(H1 & H2 & H3) H4].
  constructor; cbn [pop_dr set_hist set_reqs set_q set_queues reqs ctrls bufs used_list rq rq2 dq dr rq_mutex dq_mutex workers request_queue_len hist]; rewrite ?er_delete; try done.
  - by apply reps_reap; [|apply C2|..].
  - by apply (placed_reap Her).
  - by apply (ordered_reap (hist s) _ L).
  - by apply (pairs_reap_cancelled Her).
  - by apply busy_reap.
  - apply (calls_reap Her (hist s)); [done|done|]. left. unfold numbers. by rewrite H4.
  - refine (resulted_reap Her _ (hist s) _ _ _ C10 El H3 _). by left.
Qed.

Lemma cleanup_eq a r s : reqs s !! a = Some r -> (cancelled r = true -> resultp r = None) ->
  squidaio_cleanup_request a (pop_dr r s) =
    (if cancelled r then Some (set_reqs (delete a (reqs s)) (set_hist (cleaned r (hist s)) (pop_dr r s)))
     else match resultp r with
          | None => Some (set_reqs (delete a (reqs s)) (set_hist (cleaned r (hist s)) (pop_dr r s)))
          | Some c => let? x := ctrls s !! c in Some (set_reqs (delete a (reqs s)) (set_ctrls (<[c := set_return (ret r) (err r) x]> (ctrls s)) (set_hist (cleaned r (hist s)) (pop_dr r s))))
          end).
Proof.
  intros Hr Hn. unfold squidaio_cleanup_request. cbn [pop_dr set_q set_queues reqs]. rewrite Hr. cbn [mbind option_bind]. fold (cleaned r (hist s)). destruct (cancelled r) eqn:Ec.
  - rewrite Hn by done. cbn [mbind option_bind]. unfold cleaned. rewrite Ec. by destruct (request_type r).
  - destruct (resultp r) as [c|]; [|cbn [mbind option_bind]; unfold cleaned; rewrite Ec; by destruct (request_type r)].
    unfold upd_ctrl. cbn [set_hist set_queues ctrls]. destruct (ctrls s !! c) as [x|]; [|done]. cbn [mbind option_bind]. unfold cleaned. rewrite Ec. by destruct (request_type r).
Qed.

End AioDone.
