(* ===== verification/AioSafe.v ===== *)
(** * Asynchronous disk I/O: every interleaving is safe *)

From Stdlib Require Import ZArith Lia.
From stdpp Require Import base gmap list numbers option fin_maps fin_sets.
From S2P Require Import Prelude Aio AioInv AioWorker AioMain AioCancel AioDone.
Import Aio AioInv AioWorker AioMain AioCancel AioDone.

Module AioSafe.

(** ** What the users of these calls promise *)

Definition calm (s : state) : Prop := match main s with MUser | MCallback _ => True | _ => False end.

Definition fresh (a c : positive) (s : state) : Prop := reqs s !! a = None /\ ctrls s !! c = None.

(** Allocated, and not given to a request that is on its way or will free it *)
Definition own_buffer (b : positive) (s : state) : Prop := b ∈ bufs s /\ forall c, ~ holds (ctrls s) (used_list s) c b.

(** Only live buffers are given away.  Nobody calls [aioCancel] or [aioClose]
    for a descriptor while a worker is reading or writing it; a descriptor that
    has just been opened is not being read or written. *)
Definition allowed (x : action) (s : state) : Prop :=
  match x with
  | Worker _ _ _ | Valid _ _ => True
  | Main a c _ => fresh a c s /\ forall p b r, main s = MPoll p -> qhead (dr s) = Some b -> reqs s !! b = Some r -> request_type r = OP_OPEN -> cancelled r = false -> quiet (ret r) s
  | CheckCallbacks _ => main s = MUser
  | Open _ a c _ | Stat _ a c _ | Unlink _ a c _ | Truncate _ a c _ => calm s /\ fresh a c s
  | Read _ b _ a c _ => calm s /\ fresh a c s /\ b ∉ bufs s
  | Write _ b _ _ a c _ => calm s /\ fresh a c s /\ own_buffer b s
  | Close f a c _ => calm s /\ fresh a c s /\ quiet f s
  | Cancel f => calm s /\ quiet f s
  | Sync _ => calm s
  | Alloc b => b ∉ bufs s
  | Free b => own_buffer b s
  end.

Fixpoint disciplined (l : list action) (s : state) : Prop :=
  match l with
  | [] => True
  | x :: l => allowed x s /\ forall s', step x s = Some s' -> disciplined l s'
  end.

(** ** Calls *)

Lemma inv_progress s s' L L' : wakes (workers s) (main s) (pipe s) (done_signalled s) L -> core s' L' (cb_of (main s)) -> progress s s' L L' -> inv s'.
Proof.
  intros W C (H1 & H2 & H3 & H4 & E1 & E2 & E3). exists L'. rewrite E1, E2, E3. split; [done|]. by apply (woken_wakes H1 _ _ _ L).
Qed.

Lemma submit_ok x o f b a c wake s : inv s -> fresh a c s -> good_ctrl x o f b s -> exists s', with_ctrl x (squidaio_request o f b) a c wake s = Some s' /\ inv s'.
Proof.
  intros (L & C & W) [Ha Hc] G. destruct (with_ctrl_ok x o f b a c wake s L _ C Ha Hc G) as (s' & L' & E & C' & P). exists s'. split; [done|]. by apply (inv_progress s s' L L').
Qed.

Lemma plain_ctrl o f h : uses_buffer o = false -> forall s, good_ctrl (mkCtrl f o h false None 0 0 None) o 0 None s.
Proof. intros Hu s. split; [done|split; [done|split; [by rewrite Hu|by split]]]. Qed.

Lemma inv_bufs s bs : inv s -> bufs s ⊆ bs -> inv (set_bufs bs s).
Proof.
  intros (L & [C1 C2 C3 C4 C5 C6 C7 C8 C9 C10 C11] & W) Hb. exists L. split; [|done]. constructor; try done. destruct C7 as (B1 & B2 & B3). split; [done|split; [|done]]. intros c b Hh. by apply Hb, (B2 c).
Qed.

Lemma read_ok f b h a c wake s : inv s -> fresh a c s -> b ∉ bufs s -> exists s', aioRead f b h a c wake s = Some s' /\ inv s'.
Proof.
  intros I Hf Hb. assert (forall d, ~ holds (ctrls s) (used_list s) d b) as Hn by (destruct I as (L & C & _); destruct (c_buffers _ _ _ C) as (_ & B2 & _); intros d Hh%B2; done).
  apply submit_ok; [apply inv_bufs; [done|set_solver]|done|]. split; [done|split; [done|split; [by split|split; [done|]]]]. intros d [= <-]. cbn. split; [set_solver|done].
Qed.

Lemma cancel_ok f s : inv s -> quiet f s -> exists s', aioCancel f s = Some s' /\ inv s'.
Proof.
  intros (L & C & W) Hq. destruct (aioCancel_ok f s L _ C Hq) as (s' & E & C' & _ & A1 & (A2 & A3 & A4) & _). exists s'. split; [done|]. exists L. by rewrite A1, A2, A3, A4.
Qed.

Lemma close_ok f a c wake s : inv s -> fresh a c s -> quiet f s -> exists s', aioClose f a c wake s = Some s' /\ inv s'.
Proof.
  intros (L & C & W) [Ha Hc] Hq. destruct (aioClose_ok f a c wake s L _ C Hq Ha Hc) as (s' & L' & E & C' & P). exists s'. split; [done|]. by apply (inv_progress s s' L L').
Qed.

Lemma free_ok b s : inv s -> own_buffer b s -> exists s', free_buffer (Some b) s = Some s' /\ inv s'.
Proof.
  intros (L & [C1 C2 C3 C4 C5 C6 C7 C8 C9 C10 C11] & W) [Hb Hn]. rewrite (free_buffer_ok _ _ Hb). eexists. split; [reflexivity|]. exists L. split; [|done]. constructor; try done.
  destruct C7 as (B1 & B2 & B3). split; [done|split; [|done]]. intros c d Hh. cbn. apply elem_of_difference. split; [by apply (B2 c)|]. intros ->%elem_of_singleton. by apply (Hn c).
Qed.

(** ** Polling *)

Lemma wakes_weak ws p n sig L : past_signal p = false -> wakes ws p n sig L <-> (lq L <> [] -> awake ws) /\ 0 <= n.
Proof. intros Hp. split; [by intros (? & ? & _)|]. intros [? ?]. split; [done|split; [done|split; [by rewrite Hp|split; by intros ->]]]. Qed.

Lemma kick_inv wake s : inv s -> exists s', kick wake s = Some s' /\ inv s' /\ same_main s s'.
Proof.
  intros (L & C & W). destruct (kick_ok wake s L (c_reps _ _ _ C) (proj1 (c_placed _ _ _ C)) (c_some _ _ _ C)) as (s' & L' & E & Q). exists s'. split; [done|].
  destruct (queued_fields _ _ _ _ _ Q) as (_ & _ & _ & _ & _ & _ & _ & Hm). split; [|done]. pose proof (core_kick _ _ _ _ _ C Q) as C'. destruct Q as [_ _ [Q1 Q2] Q3 Q4 _ _]. apply (inv_progress s s' L L'); [done|done|by split].
Qed.

Lemma set_main_core p s L cb : core s L cb -> core (set_main p s) L cb.
Proof. by intros [C1 C2 C3 C4 C5 C6 C7 C8 C9 C10 C11]; constructor. Qed.

Lemma take_wakes s L L' cb p q n sig : core s L cb -> taken s L L' -> wakes (workers s) p n sig L -> past_signal q = past_signal p -> (q = MUser -> p = MUser) -> wakes (workers s) q n sig L'.
Proof.
  intros C T (W1 & W2 & W3 & W4 & W5) Hq Hu. split; [by destruct T as [[-> _]| ->]|split; [done|split; [by rewrite Hq|split]]].
  - intros ->. specialize (Hu eq_refl). subst p. intros H. apply W4; [done|]. destruct T as [[-> _]| ->]; [done|]. cbn in H. intros E. apply app_eq_nil in E as [E1 E2]. by rewrite E1, E2 in H.
  - intros _ H. destruct T as [[-> [E|E]]| ->]; [by rewrite E in H| |done]. right. destruct (dq_mutex s) as [i|] eqn:Em; [|done]. destruct (c_mutexes _ _ _ C) as [_ M2]. rewrite Em in M2.
    destruct (proj1 (M2 i) eq_refl) as (w & Hw & Hd). exists i, w. split; [done|]. by destruct w.
Qed.

Lemma sync_ok wake s : inv s -> exists s', squidaio_poll_queues wake s = Some s' /\ inv s'.
Proof.
  intros I. destruct (kick_inv wake s I) as (s1 & E1 & (L & C & W) & _). unfold squidaio_poll_queues. rewrite E1. cbn [mbind option_bind].
  destruct (take_done_ok s1 L _ C) as (s' & L' & E & C' & T & Ew & Em & Ep & Ed). exists s'. split; [done|]. exists L'. rewrite Em, Ep, Ed, Ew. split; [done|]. by apply (take_wakes s1 L L' (cb_of (main s1)) (main s1)).
Qed.

Lemma take_inv s : inv s -> main s = MTake -> exists s', (let? s := take_done s in Some (set_main (MPoll true) s)) = Some s' /\ inv s'.
Proof.
  intros (L & C & W) Hm. rewrite Hm in C, W. destruct (take_done_ok s L _ C) as (s' & L' & E & C' & T & Ew & Em & Ep & Ed). rewrite E. cbn [mbind option_bind]. eexists. split; [reflexivity|]. exists L'.
  cbn [set_main workers main pipe done_signalled cb_of]. rewrite Ew, Ep, Ed. split; [by apply set_main_core|]. by apply (take_wakes s L L' None MTake).
Qed.

(** Somebody may be woken, and the main thread goes on somewhere where it is still going to look. *)
Lemma inv_later s L s' L' p : core s' L' (cb_of p) -> wakes (workers s) (main s) (pipe s) (done_signalled s) L -> woken (workers s) (workers s') -> (lq L' = lq L \/ awake (workers s')) -> pipe s' = pipe s -> past_signal p = false -> main s' = p -> inv s'.
Proof.
  intros C (W1 & W2 & _) Hw Hl Ep Hp Em. exists L'. rewrite Em. split; [done|]. apply wakes_weak; [done|]. rewrite Ep. split; [|done]. destruct Hl as [->|?]; [|done]. intros Hl. by apply (woken_some Hw); [apply W1|].
Qed.

Lemma finish_inv s L c s1 L1 : core s1 L1 (Some c) -> wakes (workers s) (main s) (pipe s) (done_signalled s) L -> woken (workers s) (workers s1) -> (lq L1 = lq L \/ awake (workers s1)) -> pipe s1 = pipe s ->
  exists s', finish c s1 = Some s' /\ inv s'.
Proof.
  intros C W Hw Hl Hp. destruct (ctrl_finish_ok c _ _ C) as (s' & E & C' & F1 & F2 & F3 & F4). exists s'. split; [done|]. apply (inv_later s L s' L1 (MPoll false)); rewrite ?F1; try done. by rewrite F3.
Qed.

(** The file of an open that nobody wants any more is closed. *)
Lemma unwanted_ok s L a c r x h a' c' wake l : core (reaped a c r x h s) (mkL (lq L) (lq2 L) (ldq L) l) (Some c) -> wakes (workers s) (main s) (pipe s) (done_signalled s) L -> quiet (ret r) s -> fresh a' c' s -> is_Some (ctrls s !! c) ->
  exists s', (let? s := aioClose (ret r) a' c' wake (reaped a c r x h s) in finish c s) = Some s' /\ inv s'.
Proof.
  intros C W Hq [Ha' Hc'] [y Hy]. destruct (aioClose_ok (ret r) a' c' wake _ _ _ C) as (s2 & L2 & E2 & C2 & P1 & P2 & P3 & P4 & P5 & P6 & P7).
  - intros i b z Hi Hz. cbn in Hi, Hz. apply lookup_delete_Some in Hz as [_ Hz]. by apply (Hq i b z).
  - cbn. apply lookup_delete_None. by right.
  - cbn. rewrite lookup_insert_ne; [done|]. intros ->. congruence.
  - rewrite E2. cbn [mbind option_bind]. by apply (finish_inv s L c s2 L2).
Qed.

Lemma deliver_ok polled a a' c' wake s : inv s -> main s = MPoll polled -> qhead (dr s) = Some a -> allowed (Main a' c' wake) s -> exists s', deliver polled a a' c' wake s = Some s' /\ inv s'.
Proof.
  intros (L & C & W) Hm Hh [Hf Hq]. pose proof (c_reps _ _ _ C) as (_ & _ & _ & R4 & _). pose proof Hh as Hdr. rewrite (qrep_head _ _ _ _ R4) in Hh. destruct (ldr L) as [|b l] eqn:El; [done|]. cbn in Hh. apply (inj Some) in Hh as ->.
  destruct (chain_in _ _ _ a (proj1 R4)) as [r Hr]; [by left|]. pose proof (c_pairs _ _ _ C) as (_ & P2 & _ & P4 & P5 & P6). pose proof (er_lookup _ _ _ Hr) as Her.
  unfold deliver. rewrite Hr. cbn [mbind option_bind]. fold (pop_dr r s). rewrite (cleanup_eq a r s Hr) by (intros H; by apply (P6 a _ Her)). rewrite Hm in C. cbn [cb_of] in C. destruct (cancelled r) eqn:Ec.
  - cbn [mbind option_bind]. eexists. split; [reflexivity|]. exists (mkL (lq L) (lq2 L) (ldq L) l). split; [by apply set_main_core, core_reap_cancelled|]. rewrite Hm in W.
    destruct W as (W1 & W2 & W3 & W4 & W5). split; [done|split; [done|split; [done|split; [done|]]]]. done.
  - destruct (P5 a _ Her Ec) as (c & x & Hrp & Hin & Hx & Hd). cbn in Hrp. rewrite Hrp, Hx. cbn [mbind option_bind]. cbn [set_reqs set_ctrls set_used set_hist pop_dr set_q set_queues ctrls used_list].
    rewrite lookup_insert_eq. cbn [mbind option_bind]. destruct (cleaned_same r (hist s)) as [Hl Hcl].
    assert (forall h, same_log (hist s) h -> called h = called (hist s) \/ called h = (num r, ret r, err r) :: called (hist s) -> core (reaped a c r x h s) (mkL (lq L) (lq2 L) (ldq L) l) (Some c)) as Hcore by (intros h; by apply core_reap).
    match goal with |- context [finish c ?y] => change y with (reaped a c r x (cleaned r (hist s)) s) end.
    assert (exists s', finish c (reaped a c r x (cleaned r (hist s)) s) = Some s' /\ inv s') as F by (apply (finish_inv s L c _ (mkL (lq L) (lq2 L) (ldq L) l)); [apply Hcore; [done|by left]|done|by left|by left|done]).
    cbn [done_handler set_return]. destruct (done_handler x) as [d|]; [|exact F]. destruct (bool_decide (d ∈ valid _)).
    + eexists. split; [reflexivity|]. apply (inv_later s L _ (mkL (lq L) (lq2 L) (ldq L) l) (MCallback c)); try done; [|by left|by left].
      assert (core (reaped a c r x (log_call (num r, ret r, err r) (cleaned r (hist s))) s) (mkL (lq L) (lq2 L) (ldq L) l) (Some c)) as [C1 C2 C3 C4 C5 C6 C7 C8 C9 C10 C11] by (apply Hcore; [done|right; cbn; by rewrite Hcl]). by constructor.
    + cbn [aio_return set_return operation]. destruct (bool_decide (operation x = OP_OPEN)) eqn:Eo; cbn [andb]; [|exact F]. destruct (0 <=? ret r); [|exact F].
      apply bool_decide_eq_true in Eo. apply (unwanted_ok s L a c r x (cleaned r (hist s)) a' c' wake l); [apply Hcore; [done|by left]|done| |done|by exists x].
      apply (Hq polled a); try done. destruct (P4 c x Hin Hx) as (b & z & Hb & Hz & Hmz). assert (b = a) as -> by congruence. rewrite Her in Hz. apply (inj Some) in Hz as <-. destruct Hmz as (_ & _ & Hmz & _). cbn in Hmz. congruence.
Qed.

Lemma inv_main s p : inv s -> cb_of p = cb_of (main s) -> (past_signal p = true -> past_signal (main s) = true \/ done_signalled s = false) -> (p = MUser -> main s = MPoll true /\ qhead (dr s) = None) -> p <> MPoll true -> inv (set_main p s).
Proof.
  intros (L & C & W1 & W2 & W3 & W4 & W5) Hc Hp Hu Hn. exists L. cbn [set_main main workers pipe done_signalled]. rewrite Hc. split; [by apply set_main_core|]. split; [done|split; [done|split; [|split; [|done]]]].
  - intros Hs H. destruct (Hp H) as [?|?]; [by apply W3|congruence].
  - intros E. destruct (Hu E) as [Hm Hd]. intros H. apply (W5 Hm). pose proof (c_reps _ _ _ C) as (_ & _ & _ & R4 & _). rewrite (qrep_head _ _ _ _ R4) in Hd. destruct (ldr L); [by rewrite app_nil_r in H|done].
Qed.

Lemma inv_signal s n b p : inv s -> cb_of p = cb_of (main s) -> 0 <= n -> (past_signal p = true -> b = false) -> p <> MUser -> p <> MPoll true -> inv (set_main p (set_signal n b s)).
Proof.
  intros (L & C & W1 & W2 & W3 & W4 & W5) Hc Hn Hb Hu Hp. exists L. cbn [set_main set_signal main workers pipe done_signalled]. rewrite Hc. split; [by destruct C; constructor|].
  split; [done|split; [done|split; [|done]]]. intros Hs H. rewrite (Hb H) in Hs. done.
Qed.

Lemma main_ok a c wake s : inv s -> allowed (Main a c wake) s -> exists s', main_step a c wake s = Some s' /\ inv s'.
Proof.
  intros I Ha. unfold main_step. destruct (main s) as [|polled| | | | | |c0] eqn:Em.
  - by exists s.
  - destruct (qhead (dr s)) as [b|] eqn:Eh; [by apply deliver_ok|]. eexists. split; [reflexivity|]. destruct polled; apply inv_main; rewrite ?Em; try done. by left.
  - eexists. split; [reflexivity|]. destruct (done_signalled s) eqn:Ed; apply inv_main; rewrite ?Em; try done. by right.
  - eexists. split; [reflexivity|]. apply inv_signal; rewrite ?Em; try done. lia.
  - eexists. split; [reflexivity|]. apply inv_signal; rewrite ?Em; try done. by destruct I as (L & _ & _ & ? & _).
  - destruct (kick_inv wake s I) as (s1 & E1 & I1 & (M1 & M2 & M3)). rewrite E1. cbn [mbind option_bind]. eexists. split; [reflexivity|]. apply inv_main; rewrite ?M1, ?Em; try done. by left.
  - by apply take_inv.
  - destruct I as (L & C & W). rewrite Em in C. apply (finish_inv s L c0 s L); [done|done|by left|by left|done].
Qed.

Lemma step_ok x s : inv s -> allowed x s -> exists s', step x s = Some s' /\ inv s'.
Proof.
  intros I Ha. destruct x; cbn [step allowed] in *.
  - by apply worker_ok.
  - by apply main_ok.
  - eexists. split; [reflexivity|]. destruct readable; [|apply inv_main; rewrite ?Ha; done]. apply inv_signal; rewrite ?Ha; try done. lia.
  - destruct Ha as [_ Hf]. apply submit_ok; [done|done|by apply plain_ctrl].
  - destruct Ha as (_ & Hf & Hb). by apply read_ok.
  - destruct Ha as (_ & Hf & Hb & Hn). apply submit_ok; [done|done|]. split; [done|split; [done|split; [by split|split; [done|]]]]. by intros d [= <-].
  - destruct Ha as [_ Hf]. apply submit_ok; [done|done|by apply plain_ctrl].
  - destruct Ha as [_ Hf]. apply submit_ok; [done|done|by apply plain_ctrl].
  - destruct Ha as [_ Hf]. apply submit_ok; [done|done|by apply plain_ctrl].
  - destruct Ha as (_ & Hf & Hq). by apply close_ok.
  - destruct Ha as [_ Hq]. by apply cancel_ok.
  - by apply sync_ok.
  - eexists. split; [reflexivity|]. destruct I as (L & C & W). exists L. split; [by destruct C; constructor|done].
  - eexists. split; [reflexivity|]. apply inv_bufs; [done|set_solver].
  - by apply free_ok.
Qed.

Lemma aio_init_ok n : (0 < n)%nat -> inv (squidaio_init n).
Proof.
  intros Hn. exists (mkL [] [] [] []). assert (forall i w, repeat WLock n !! i = Some w -> w = WLock) as Hw by (intros i w Hi%list_elem_of_lookup_2; apply list_elem_of_In, repeat_spec in Hi; done).
  assert (forall f, f WLock = [] -> repeat WLock n ≫= f = ([] : list positive)) as Hb by (intros f Hf; clear -Hf; induction n as [|n IH]; cbn; [done|]; by rewrite Hf).
  assert (forall f, f WLock = false -> owner f (repeat WLock n) None) as Ho by (intros f Hf i; split; [done|]; intros (w & ->%Hw & H); congruence).
  split.
  - constructor; cbn [squidaio_init reqs workers rq rq2 dq dr request_queue_len hist rq_mutex dq_mutex ctrls used_list bufs main cb_of].
    + do 4 (split; [done|]). intros i w a ->%Hw Ha. by apply not_elem_of_nil in Ha.
    + unfold placed, all, held. rewrite (Hb has_req) by done. cbn. split; [apply NoDup_nil_2|]. intros a. unfold er. rewrite fmap_empty, lookup_empty, elem_of_nil. split; [by intros []|done].
    + unfold counted, held. by rewrite (Hb has_req).
    + split; [done|split; [done|]]. by intros i a r Hi.
    + split; by apply Ho.
    + split; [apply NoDup_nil_2|]. split; [intros c; rewrite lookup_empty, elem_of_nil; split; [by intros []|by intros [?|?]]|]. split; [done|]. split; [by intros c x ?%not_elem_of_nil|]. split; intros a r Hr; unfold er in Hr; by rewrite fmap_empty, lookup_empty in Hr.
    + split; [intros c x Hx; by rewrite lookup_empty in Hx|]. split; [intros c b (x & Hx & _)|intros c c' b (x & Hx & _)]; by rewrite lookup_empty in Hx.
    + intros i a r Hi%Hw. done.
    + split; [apply NoDup_nil_2|]. split; [by intros m ?%not_elem_of_nil|]. split; [intros a r Hr|intros a b r r' Hr]; unfold er in Hr; by rewrite fmap_empty, lookup_empty in Hr.
    + split; [|by intros x ?%not_elem_of_nil]. intros a r _ Hr. unfold er in Hr. by rewrite fmap_empty, lookup_empty in Hr.
    + by rewrite repeat_length.
  - split; [done|split; [done|split; [done|split; done]]].
Qed.

Lemma aio_run_ok l : forall s, inv s -> disciplined l s -> exists s', run l s = Some s' /\ inv s'.
Proof.
  induction l as [|x l IH]; intros s I D; [by exists s|]. destruct D as [Ha D]. destruct (step_ok x s I Ha) as (s1 & E & I1). cbn [run]. rewrite E. cbn [mbind option_bind]. apply IH; [done|by apply D].
Qed.

(** ** Theorems *)

(** C4. Whatever worker threads and the main thread do, in any order, as long as
    the callers keep to [allowed]: buffers that are given to a read or a write
    are live and nobody else's, and nobody cancels or closes a descriptor while
    a worker is inside the system call that reads or writes it.  Then nothing
    is used after it was freed or freed twice, workers begin requests in the
    order in which they were handed in, no request is called back twice, and a
    callback gets what the system call for its own request returned, or -2
    when its request was cancelled.  The code does not enforce the promise on
    cancelling: without it a worker reads into a buffer that was freed, see
    [cancel_frees_busy_buffer] below. *)
Theorem aio_safe n l : (0 < n)%nat -> disciplined l (squidaio_init n) ->
  exists s, run l (squidaio_init n) = Some s /\ started (hist s) = seq 0 (length (started (hist s))) /\ NoDup (numbers (hist s)) /\
    forall x, x ∈ called (hist s) -> x.2 = -2 /\ x.1.2 = -2 \/ x ∈ results (hist s).
Proof.
  intros Hn D. destruct (aio_run_ok l _ (aio_init_ok n Hn) D) as (s & E & L & C & _). exists s. split; [done|]. split; [by destruct (c_ordered _ _ _ C)|]. split; [by destruct (c_calls _ _ _ C)|]. by destruct (c_resulted _ _ _ C).
Qed.

(** ** Progress *)

Definition blocked (w : wpc) (s : state) : bool :=
  match w with
  | WLock => bool_decide (is_Some (rq_mutex s))
  | WDoneLock _ => bool_decide (is_Some (dq_mutex s))
  | _ => false
  end.

Lemma upd_req_workers a f s s' : upd_req a f s = Some s' -> workers s' = workers s.
Proof. unfold upd_req. destruct (reqs s !! a); [|done]. cbn. by intros [= <-]. Qed.

Lemma store_workers p x s s' : store p x s = Some s' -> workers s' = workers s.
Proof. destruct p as [q|a]; cbn [store]; [intros [= <-]; by destruct q|apply upd_req_workers]. Qed.

Lemma goto_moved i w w' s s1 : workers s !! i = Some w -> workers s1 = workers s -> w' <> w -> workers (goto i w' s1) !! i <> Some w.
Proof. intros Hi Es Hn. cbn. rewrite Es, (move_here Hi). congruence. Qed.

Lemma thread_moves i w n e s s' : workers s !! i = Some w -> is_asleep w = false -> blocked w s = false -> squidaio_thread_loop i n e s = Some s' -> workers s' !! i <> Some w.
Proof.
  intros Hi Ha Hb. unfold squidaio_thread_loop. rewrite Hi. destruct w as [| | |a|a|a|a|a| | | |]; try done; cbn [blocked] in Hb.
  - destruct (rq_mutex s); [by rewrite bool_decide_eq_true_2 in Hb|]. intros [= <-]. by apply (goto_moved i WLock _ s).
  - destruct (qhead (rq s)) as [a|]; [|intros [= <-]; by apply (goto_moved i WHead _ s)]. destruct (reqs s !! a); [|done]. intros [= <-]. by apply (goto_moved i WHead _ s).
  - destruct (upd_req a _ _) as [s1|] eqn:E; [|done]. intros [= <-]. apply upd_req_workers in E. by apply (goto_moved i (WUnlock a) _ s).
  - destruct (reqs s !! a) as [r|]; [|done]. cbn [mbind option_bind]. destruct (cancelled r); [|intros [= <-]; by apply (goto_moved i (WBegin a) _ s)].
    destruct (upd_req a _ _) as [s1|] eqn:E; [|done]. intros [= <-]. apply upd_req_workers in E. by apply (goto_moved i (WBegin a) _ s).
  - unfold squidaio_do. destruct (reqs s !! a) as [r|]; [|done]. cbn [mbind option_bind]. destruct (_ || _); [|done]. destruct (upd_req a _ _) as [s1|] eqn:E; [|done]. intros [= <-]. apply upd_req_workers in E. by apply (goto_moved i (WOp a) _ s).
  - destruct (dq_mutex s); [by rewrite bool_decide_eq_true_2 in Hb|]. intros [= <-]. by apply (goto_moved i (WDoneLock a) _ s).
  - destruct (store _ _ _) as [s1|] eqn:E; [|done]. intros [= <-]. apply store_workers in E. by apply (goto_moved i (WPut a) _ s).
  - intros [= <-]. by apply (goto_moved i WDoneUnlock _ s).
  - destruct (done_signalled s); intros [= <-]; by apply (goto_moved i WSignal _ s).
  - intros [= <-]. by apply (goto_moved i WSet _ s).
  - intros [= <-]. by apply (goto_moved i WWrite _ s).
Qed.

(** Who has a mutex does not wait for one. *)
Lemma no_deadlock s : inv s -> awake (workers s) -> exists i w, workers s !! i = Some w /\ is_asleep w = false /\ blocked w s = false.
Proof.
  intros I (i & w & Hi & Hw). apply negb_true_iff in Hw. destruct (owners s I) as [M1 M2]. destruct (blocked w s) eqn:Hb; [|by exists i, w].
  destruct w; try done; cbn [blocked] in Hb; apply bool_decide_eq_true in Hb as [j Hj].
  - rewrite Hj in M1. destruct (proj1 (M1 j) eq_refl) as (v & Hv & Hf). exists j, v. by destruct v.
  - rewrite Hj in M2. destruct (proj1 (M2 j) eq_refl) as (v & Hv & Hf). exists j, v. by destruct v.
Qed.

Lemma asleep_held ws : ~ awake ws -> held ws = [] /\ ~ some_worker will_signal ws.
Proof.
  intros H. split.
  - assert (forall w, w ∈ ws -> w = WAsleep) as Hs by (intros w (i & Hi)%list_elem_of_lookup_1; destruct (is_asleep w) eqn:E; [by destruct w|]; destruct H; exists i, w; by rewrite E).
    clear H. induction ws as [|w ws IH]; [done|]. unfold held in *. cbn. rewrite (Hs w) by (by left). apply IH. intros v Hv. apply Hs. by right.
  - intros (i & w & Hi & Hw). apply H. exists i, w. split; [done|]. by destruct w.
Qed.

(** C12. Nothing is left behind: while a worker is awake, one of them can go on;
    and when all are asleep, nothing is in the pipe and the main thread does
    something else, then no request waits for a worker and no result waits for
    the main thread.  If [request_queue2] is empty too, then every request
    has been begun and is done and gone. *)
Theorem aio_no_lost_wakeup n l s : (0 < n)%nat -> disciplined l (squidaio_init n) -> run l (squidaio_init n) = Some s ->
  (awake (workers s) -> exists i w, workers s !! i = Some w /\ is_asleep w = false /\ forall x e s', step (Worker i x e) s = Some s' -> workers s' !! i <> Some w) /\
  (~ awake (workers s) -> main s = MUser -> pipe s = 0 ->
    qhead (rq s) = None /\ qhead (dq s) = None /\ qhead (dr s) = None /\
    (qhead (rq2 s) = None -> reqs s = ∅ /\ ctrls s = ∅ /\ request_queue_len s = 0 /\ started (hist s) = seq 0 (nsub (hist s)))).
Proof.
  intros Hn D E. destruct (aio_run_ok l _ (aio_init_ok n Hn) D) as (s1 & E1 & I). assert (s1 = s) as -> by congruence. split.
  - intros (i & w & H1 & H2 & H3)%(no_deadlock s I). exists i, w. split; [done|split; [done|]]. intros x e s'. by apply thread_moves.
  - intros Hs Hm Hp. destruct (asleep_held _ Hs) as [Hh Hw]. destruct I as (L & C & W1 & _ & _ & W4 & _). rewrite Hm in C. destruct C as [C1 C2 C3 C4 _ C6 _ _ _ _ _].
    assert (lq L = []) as El by (destruct (lq L); [done|]; destruct Hs; by apply W1).
    assert (ldq L ++ ldr L = []) as [Ed Er]%app_eq_nil by (destruct (ldq L ++ ldr L); [done|]; destruct (W4 Hm) as [?|?]; [done|lia|done]).
    destruct C1 as (R1 & R2 & R3 & R4 & _). rewrite (qrep_head _ _ _ _ R1), (qrep_head _ _ _ _ R2), (qrep_head _ _ _ _ R3), (qrep_head _ _ _ _ R4), El, Ed, Er.
    split; [done|split; [done|split; [done|]]]. intros E2. assert (lq2 L = []) as El2 by (by destruct (lq2 L)).
    assert (forall a, er (reqs s) !! a = None) as Hno by (intros a; destruct C2 as [_ H]; specialize (H a); unfold all in H; rewrite El, El2, Hh, Ed, Er in H; cbn in H; rewrite elem_of_nil in H; destruct (er (reqs s) !! a); [by destruct H as [H _]; destruct H|done]).
    assert (used_list s = []) as Eu by (destruct C6 as (_ & P2 & _ & P4 & _); destruct (used_list s) as [|c u]; [done|]; destruct (proj2 (P2 c)) as [x Hx]; [left; by left|]; destruct (P4 c x) as (a & r & _ & Hr & _); [by left|done|]; by rewrite Hno in Hr).
    split; [|split; [|split]].
    + apply map_eq. intros a. rewrite lookup_empty. specialize (Hno a). unfold er in Hno. rewrite lookup_fmap in Hno. by destruct (reqs s !! a).
    + apply map_eq. intros c. rewrite lookup_empty. destruct C6 as (_ & P2 & _). specialize (P2 c). rewrite Eu, elem_of_nil in P2. destruct (ctrls s !! c) as [x|]; [|done]. destruct (proj1 P2) as [?|?]; [by exists x|done|done].
    + unfold counted in C3. by rewrite C3, El, El2, Hh, Ed.
    + destruct C4 as (O1 & O2 & _). rewrite El, El2 in O2. cbn in O2. rewrite O1. f_equal. lia.
Qed.

(** ** Examples *)

Lemma disciplined_step x l s s' : allowed x s -> step x s = Some s' -> disciplined l s' -> disciplined (x :: l) s.
Proof. intros Ha E D. split; [done|]. intros s1 E1. assert (s1 = s') as -> by congruence. done. Qed.

(** A worker does all of its work for one request; the main thread is woken and
    polls until it has nothing more to do. *)
Definition work (n e : Z) : list action := repeat (Worker 0 n e) 11.
Definition poll (a c : positive) (k : nat) : list action := CheckCallbacks true :: repeat (Main a c 0) k.

(** A read, and in its callback the close of the descriptor. *)
Definition demo : list action :=
  Valid 7 true :: Read 5 1 (Some 7%positive) 1 1 0 :: work 10 0 ++ poll 9 9 7 ++ Close 5 2 2 0 :: Main 9 9 0 :: repeat (Main 9 9 0) 6 ++ work 0 0 ++ poll 9 9 14 ++ repeat (Worker 0 0 0) 2.

Lemma no_op_quiet f s : forallb (fun w => match w with WOp _ => false | _ => true end) (workers s) = true -> quiet f s.
Proof. intros H i a r Hi. apply list_elem_of_lookup_2, list_elem_of_In in Hi. by apply (proj1 (forallb_forall _ _) H) in Hi. Qed.

Ltac allow :=
  lazymatch goal with
  | |- allowed (Worker _ _ _) _ => exact I
  | |- allowed (Valid _ _) _ => exact I
  | |- allowed (Main _ _ _) _ => split; [split; reflexivity|]; intros ? ? ? H1 H2 H3 H4 H5; first [discriminate H1|discriminate H2|injection H2 as <-; vm_compute in H3; injection H3 as <-; discriminate]
  | |- allowed (CheckCallbacks _) _ => reflexivity
  | |- allowed (Read _ _ _ _ _ _) _ => split; [exact I|split; [split; reflexivity|vm_compute; set_solver]]
  | |- allowed (Close _ _ _ _) _ => split; [exact I|split; [split; reflexivity|by apply no_op_quiet]]
  end.
Ltac go := repeat (eapply disciplined_step; [allow|vm_compute; reflexivity|]).

Lemma demo_disciplined : disciplined demo (squidaio_init 1).
Proof. unfold demo, work, poll. cbn [repeat app]. go. exact I. Qed.

Lemma aio_safe_witness : disciplined demo (squidaio_init 1) /\ exists s, run demo (squidaio_init 1) = Some s /\ called (hist s) = [(0%nat, 10, 0)] /\ started (hist s) = [0%nat; 1%nat] /\
  forall x, x ∈ called (hist s) -> x.2 = -2 /\ x.1.2 = -2 \/ x ∈ results (hist s).
Proof.
  split; [exact demo_disciplined|]. destruct (aio_safe 1 demo ltac:(lia) demo_disciplined) as (s & E & _ & _ & H). exists s. split; [exact E|]. vm_compute in E. apply (inj Some) in E. subst s. split; [reflexivity|split; [reflexivity|exact H]].
Defined.

Lemma aio_no_lost_wakeup_witness : exists s, run demo (squidaio_init 1) = Some s /\ ~ awake (workers s) /\ reqs s = ∅ /\ ctrls s = ∅ /\ request_queue_len s = 0 /\ started (hist s) = seq 0 (nsub (hist s)).
Proof.
  destruct (run demo (squidaio_init 1)) as [s|] eqn:E; [|by vm_compute in E]. exists s. split; [done|].
  destruct (aio_no_lost_wakeup 1 demo s ltac:(lia) demo_disciplined E) as [_ H]. vm_compute in E. apply (inj Some) in E.
  assert (~ awake (workers s)) as Hn by (subst s; cbn; intros (i & w & Hi & Hw); destruct i; cbn in Hi; [by injection Hi as <-|done]).
  split; [done|]. destruct H as (_ & _ & _ & H); [done|by subst s|by subst s|]. apply H. by subst s.
Defined.

(** A read is cancelled while a worker is in [pread]: its buffer is freed under
    the worker. *)
Example cancel_frees_busy_buffer :
  run (Valid 7 true :: Read 5 1 (Some 7%positive) 1 1 0 :: repeat (Worker 0 10 0) 4 ++ [Cancel 5]) (squidaio_init 1) <> None /\
  run (Valid 7 true :: Read 5 1 (Some 7%positive) 1 1 0 :: repeat (Worker 0 10 0) 4 ++ [Cancel 5; Worker 0 10 0]) (squidaio_init 1) = None.
Proof. split; [by vm_compute|by vm_compute]. Qed.

(** A worker looks for requests for the first time while one is handed in. *)
Definition parked : list action := [Worker 0 0 0; Open None 1 1 0; Worker 0 0 0].

(** The only worker is about to look at an empty queue, or sleeps. *)
Definition idle_rq (s : state) : Prop := qhead (rq s) = None /\ qhead (rq2 s) = Some 1%positive /\ started (hist s) = [] /\ pipe s = 0 /\ main s = MUser /\ exists w, workers s = [w] /\ (w = WAsleep \/ w = WLock \/ w = WHead).

Lemma idle_step i n e s s' : idle_rq s -> step (Worker i n e) s = Some s' -> idle_rq s'.
Proof.
  intros (H1 & H2 & H3 & H4 & H5 & w & H6 & H7). cbn [step]. unfold squidaio_thread_loop. rewrite H6.
  destruct i as [|i]; cbn [lookup list_lookup]; [|intros [= <-]; split; [done|split; [done|split; [done|split; [done|split; [done|by exists w]]]]]].
  destruct H7 as [-> |[-> | ->]].
  - intros [= <-]. repeat (split; [done|]). exists WLock. cbn. rewrite H6. auto.
  - destruct (rq_mutex s); intros [= <-]; repeat (split; [done|]); [exists WLock; auto|]. exists WHead. cbn. rewrite H6. auto.
  - rewrite H1. intros [= <-]. repeat (split; [done|]). exists WAsleep. cbn. rewrite H6. auto.
Qed.

(** The request waits in [request_queue2] although nobody else wants the queue;
    workers never begin with it, and nothing wakes the main thread. *)
Example parked_request l : exists s, run parked (squidaio_init 1) = Some s /\ ~ awake (workers s) /\ pipe s = 0 /\ qhead (rq2 s) = Some 1%positive /\
  (Forall (fun x => match x with Worker _ _ _ => True | _ => False end) l -> forall s', run l s = Some s' -> started (hist s') = [] /\ pipe s' = 0 /\ main s' = MUser).
Proof.
  destruct (run parked (squidaio_init 1)) as [s|] eqn:E; [|by vm_compute in E]. exists s. split; [done|]. vm_compute in E. apply (inj Some) in E.
  assert (idle_rq s) as H by (subst s; repeat (split; [done|]); exists WAsleep; auto).
  split; [subst s; cbn; intros (i & w & Hi & Hw); destruct i; cbn in Hi; [by injection Hi as <-|done]|]. split; [apply H|split; [apply H|]]. clear E. revert s H.
  induction l as [|x l IH]; intros s H Hf s' Hr.
  - cbn in Hr. apply (inj Some) in Hr as <-. destruct H as (_ & _ & ? & ? & ? & _). done.
  - apply Forall_cons in Hf as [Hx Hf]. destruct x as [i n e| | | | | | | | | | | | | |]; try done. cbn [run] in Hr. destruct (step (Worker i n e) s) as [s1|] eqn:Es; [|done]. cbn [mbind option_bind] in Hr.
    apply (IH s1); [by apply (idle_step i n e s)|done|done].
Qed.

End AioSafe.
